(* ===== verification/_CoqProject ===== *)
-Q . S2P
Prelude.v
StorageErrors.v
Wire.v
Serialization.v
SerializationFacts.v
StorageFormats.v
StorageFormatsFacts.v
StripePattern.v
StripePatternFacts.v
NetMessageTypes.v
NetMessage.v
NetMessageFacts.v
BitStore.v
BitStoreFacts.v
Remoting.v
RemotingFacts.v
BuddyGroup.v
BuddyGroupFacts.v
Mappers.v
MappersFacts.v
CommKit.v
CommKitFacts.v
MessagesSession.v
MessagesStorage.v
MessagesNodes.v
MessageFactory.v
MessagesFacts.v
CommKitOps.v
CommKitOpsFacts.v
Nics.v
NicsFacts.v
ConnPool.v
ConnPoolFacts.v
ConnPoolCallsFacts.v
MessageFactoryFacts.v
MessagingTk.v
MessagingTkFacts.v
NodeStore.v
NodeStoreFacts.v
Acks.v
AcksFacts.v
Nfs4Acl.v
Nfs4AclFacts.v
FileHandles.v
FileHandlesFacts.v
MetaOps.v
MetaOpsFacts.v
DelayedOps.v
DelayedOpsFacts.v
HashTk.v
HashTkFacts.v
DirListing.v
DirListingFacts.v
InvalReader.v
InvalReaderFacts.v
FileCache.v
FileCacheFacts.v
StripedFileFacts.v
PageVec.v
PageVecFacts.v
CommKitVec.v
CommKitVecFacts.v
PageIO.v
PageIOFacts.v
