(* ===== verification/Prelude.v ===== *)
(** * The BeeGFS client: protocol, striping, connections, metadata and caches

    A verification development for the C code of the BeeGFS client kernel module,
    [client_module/source].  The client turns file system calls into messages to
    metadata and storage servers: it encodes and decodes a binary protocol, spreads
    file data over storage targets by stripe patterns, numbers requests to mirrored
    targets so that servers can detect lost and repeated ones, and keeps maps of
    targets, their states and their mirror groups up to date.  On top of that it keeps
    nodes and pools of connections, waits for locks, evaluates access control lists, opens
    and closes files, reads directories, and caches attributes and file contents.

    ** The parts of the program and the files that model them

    - [Prelude.v]: machine integers ([u8] ... [s64], [in_u], [in_s]), byte lists, buffer
      updates ([splice]) and reads ([load]), C strings, uninitialised memory, tactics
      and hint databases.
    - [StorageErrors.v]: the error codes and their translation to system errors
      ([common/storage/StorageErrors.c]).
    - [Wire.v]: serialisation and deserialisation contexts as state monads with the
      failures of the C code as values (a refused input is [Refused], an access outside
      of the received object [BadRead]), and three judgements on which all codec proofs
      are built: [writes] (a serialiser appends exactly these bytes, in the length-only
      pass as well), [reads] (a deserialiser accepts these bytes), [triple] (what holds
      on arbitrary input).
    - [Serialization.v]: [common/toolkit/Serialization.c] and [.h]: scalars, strings, NIC
      lists, vectors, generated list codecs.
    - [StorageFormats.v]: [EntryInfo], [PathInfo], [StatData], [FileEvent],
      [RemoteStorageTarget] and the mapping lists of [common/Types.c].
    - [StripePattern.v]: [common/storage/striping]: decoding of the pattern classes and
      the mapping of file positions to targets and chunks.
    - [NetMessageTypes.v], [NetMessage.v]: message numbers, header, two-pass serialisation
      and reception ([common/net/message/NetMessage.c], [net/message/NetMessageFactory.c]);
      a message type is an instance of the class [NetMessageOps], the C struct of
      function pointers.
    - [MessagesSession.v], [MessagesStorage.v], [MessagesNodes.v]: the message classes under
      [common/net/message], and the handlers of incoming MapTargets, RefreshTargetStates,
      SetMirrorBuddyGroup and HeartbeatRequest messages as functions on [AppState].
    - [MessageFactory.v]: the factory's [switch] and [NetMessageFactory_createFromBuf].
    - [BitStore.v]: [toolkit/BitStore.c], the bit vector that remembers written targets.
    - [Remoting.v]: the data path of [net/filesystem/FhgfsOpsRemoting.c]:
      [FhgfsOpsRemoting_writefileVec], [_readfileVec], [_rwChunkPageVec] and the offset
      computation; [os/iov_iter.c]: the buffer space of a round of a read.
    - [BuddyGroup.v]: [common/nodes/MirrorBuddyGroup.c]: sequence numbers in a binary heap
      with back links to the callers' handles, finished numbers in a ring buffer; the
      executions of a group as a step relation.
    - [Mappers.v]: [TargetMapper.c], [TargetStateStore.c], [MirrorBuddyGroupMapper.c].
    - [CommKit.v], [CommKitOps.v]: [net/filesystem/FhgfsOpsCommKit.c]: the state machine that
      talks to many targets in one thread (prepare, send header and data, receive header
      and data, clean up, retry), its round as a function on the list of targets and the
      books ([CommKitContext]), and the callbacks for reads, writes, fsync and statfs.
    - [Nics.v]: addresses, lists of network interfaces, [NetFilter.c],
      [NicAddressFilter.c] with its parser, the sorting of interfaces ([ListTk.c],
      [NetworkInterfaceCard.c]).
    - [ConnPool.v]: [common/nodes/NodeConnPool.c]: every critical section of a connection
      pool as a function on its state, the phases of [NodeConnPool_acquireStreamSocketEx]
      with what other threads do between them, and the interleavings of many callers as a step
      relation on [World].
    - [MessagingTk.v]: [common/toolkit/MessagingTk.c]: one exchange of request and response
      with all its exits, and the retry loops for a node, a target or a mirror group; the
      calls that take and give back resources are a list of events.
    - [NodeStore.v]: [common/nodes/Node.c], [NodeTree.c] and [nodes/NodeStoreEx.c]:
      reference-counted nodes in a heap, the tree of active nodes, synchronisation with a
      received list, the handlers of Heartbeat and RemoveNode messages.
    - [Acks.v]: [common/toolkit/ackstore], [components/AckManager.c], the LockGranted handler and
      the lock requests of [FhgfsOpsRemoting.c]: waiters are stack frames that are registered
      in a shared store; critical sections are steps of an interleaving.
    - [Nfs4Acl.v]: [filesystem/BeeGFSNFS4Acl*.c]: the decoder of lists in XDR format, the
      resolvers of principals, the evaluation of a list and the cache that is freed after an
      RCU grace period; [FhgfsOps_permission] and the handlers of the ACL attribute.
    - [FileHandles.v]: the file handles of [filesystem/FhgfsInode.c], with reference counts, the
      IDs that are open at the server and the life of stripe pattern objects.
    - [MetaOps.v]: the metadata operations of [FhgfsOpsRemoting.c], each one exchange of
      [MessagingTk.v] with its outputs, and opening with its waiting loop.
    - [DelayedOps.v]: the queues of [components/InternodeSyncer.c] for closes and unlocks that
      are repeated in the background.
    - [HashTk.v]: [common/toolkit/HashTk.c]: both hash functions over a memory with bounds,
      inode numbers, the extraction of the authentication hash.
    - [DirListing.v]: [filesystem/FsDirInfo.h], the directory operations of [FhgfsOpsFile.c], their
      refresh in [FhgfsOpsHelper.c], [FhgfsOpsRemoting_listdirFromOffset].
    - [InvalReader.v]: [components/InvalReader.c]: one thread for each metadata server receives
      the inodes that other clients changed; sessions and thread objects as interleaved steps.
    - [FileCache.v]: the buffered file cache of [filesystem/FhgfsOpsHelper.c] with
      [FsFileInfo.c], [toolkit/NoAllocBufferStore.c], [toolkit/InodeRefStore.h] and
      [components/Flusher.c].
    - [PageVec.v]: [toolkit/FhgfsPage.h], [FhgfsPageListVec.h], [FhgfsChunkPageVec.h]: vectors of
      pages of the kernel with their iterator, and the end of the I/O of a page
      ([filesystem/FhgfsOpsPages.c]).
    - [CommKitVec.v]: [net/filesystem/FhgfsOpsCommKitVec.c]: reading and writing a page vector, one
      connection at a time, with the messages of [CommKitOps.v].
    - [PageIO.v]: the callbacks of [filesystem/FhgfsOpsPages.c] that collect pages into vectors, and
      the works of [components/worker/RWPagesWork.c] that send them; calls and workers as one
      sequence of events.

    The files [...Facts.v] hold the lemmas and the properties of the file they are named
    after; [StripedFileFacts.v] composes [Remoting.v] and [FileCache.v].

    ** What the theorems show

    - Striped I/O ([RemotingFacts.v]): reads and writes return for all server results; their
      requests tile the byte range, each byte is addressed to the target and local offset
      that the pattern code gives for its own position, two positions never share a place;
      the returned value, the advance of the buffer and the first-write bits follow from
      the node results.  A read into a pipe that has room for a part of a round skips data,
      which is a closed example.
    - Patterns ([StripePatternFacts.v]): the shift and mask code of all classes computes
      (position / chunk size) mod number of targets; patterns survive the wire; decoding is
      memory safe on arbitrary bytes.
    - Sequence numbers ([BuddyGroupFacts.v]): an invariant of all reachable states (slots,
      references, links, ring), the effect of acquire and release, and when cumulative
      acknowledgements are sound, with a run in which they are not.
    - Protocol ([SerializationFacts.v], [StorageFormatsFacts.v], [NetMessageFacts.v],
      [MessagesFacts.v], [MessageFactoryFacts.v], [BitStoreFacts.v]): round trips, complete
      sends for every request type ([MsgSend] and [MsgCodec] are the interfaces between
      message types and transport), acceptance and memory safety of the factory on
      arbitrary buffers, and exact conditions of the out-of-bounds accesses that exist.
    - Maps ([MappersFacts.v], [MessageFactoryFacts.v]): synchronised maps hold exactly the
      received lists, handlers keep target sets of groups disjoint, received states and
      groups arrive in the stores.
    - Communication kit ([CommKitFacts.v], [CommKitOpsFacts.v]): the books of reads and writes
      are exact after any number of rounds, reads (of files that are not mirrored, or without
      retries) return after a bounded number of rounds with limited retries, a fatal signal ends
      every read, and every write that stays in the enumerated stages, reads never reach a kernel
      fault; an answer that is too long stops the kernel, and the books of an fsync can be wrong.
    - Connection pools ([ConnPoolFacts.v], [ConnPoolCallsFacts.v]): an invariant of all
      interleavings, the limit on connections without multi-rail RDMA, acquiring a socket
      returns unless other threads take what it gives back; killed threads lose their slots until the pool is unusable, and other leaks.
    - Filters ([NicsFacts.v]): which addresses the net filter admits, the order of sorted
      interfaces, faults of the parser.
    - Requests ([MessagingTkFacts.v]): the events of a call are a run of a protocol for
      connections, buffers, node references and sequence numbers; calls return once nobody asks
      for another try; faults of time-outs and acknowledgments.
    - Nodes ([NodeStoreFacts.v]): references are counted exactly in all interleavings and no
      freed node is touched, in iterations as long as their node is in the store; what a synchronisation leaves in the store.
    - Locks ([AcksFacts.v]): with IDs that are unique among waiters the store never touches a
      frame that is gone; a lock call returns the result that the server or a grant in time
      gave, and leaves nothing behind.
    - Access control lists ([Nfs4AclFacts.v]): the decoder accepts buffers that begin with a
      well-formed list and returns its entries, a check follows the first relevant entry of each bit, no check uses a
      freed cache object.
    - Metadata ([FileHandlesFacts.v], [MetaOpsFacts.v], [DelayedOpsFacts.v]): reference counts,
      IDs and patterns of handles over all sequences of operations; eleven operations cast the
      response to its own class and hold nothing at their end; opening decides; a pass of the
      background thread tries every queued operation once.
    - Directories ([DirListingFacts.v]): a handle refines a position in the list of entries,
      whatever pages the server chooses.
    - Caches ([InvalReaderFacts.v], [FileCacheFacts.v], [HashTkFacts.v]): thread objects of the
      invalidation reader, one access to which can be late, sessions that ended do not come back; cached files refine plain
      files, and every buffer belongs to the store or to one inode; bounds of inode numbers.
      The cases in which these caches lose data or overflow are closed examples.
    - Striped files ([StripedFileFacts.v]): the chunk files of all targets are one list of bytes,
      and striped reads and writes fulfil on it the laws [write_law] and [read_law] that the file
      cache assumes; its assumptions about progress and appending are not provided.
    - Page vectors ([PageVecFacts.v], [CommKitVecFacts.v]): a vector refines a list of consecutive
      pages of one chunk; a request for it ends once the server does not ask for repetitions, gives back what it took and ends every page once,
      except for pages that were sent when the connection broke; which pages count as written.
    - Page collection ([PageIOFacts.v]): in every interleaving of calls and workers each page that
      the kernel passed is ended or waits in one vector, handles and vectors are counted exactly,
      and all pages are ended in the end.  The class [HandsBack] is the promise of a work to the
      collection, [kit_hands_back] its instance by the communication above; closed examples
      show the failures that leave pages locked.

    ** Conventions, bounds and parameters

    Integers are [Z] with the wrap-around written out where the C type can wrap; a field of
    width [w] holds values in its range, which the theorems state as hypotheses ([in_u],
    [in_s]).  [size_t] and [long] have 64 bits, the byte order is little endian.  Loops over
    a count recurse on it; the two outer I/O loops take fuel, and the theorems show that as
    much fuel as there are bytes is enough, since every round makes progress; the loops over
    the heap recurse on the index or the size.  [commkit_loop] takes fuel for its rounds
    ([read_rounds] and [killed_rounds] bound them), [NodeConnPool_acquireStreamSocketEx] for
    its calls of itself (one for each activation whose connection other threads take, and two more), [parse_columns] as much as the line is
    long, the retry loops of [MessagingTk.v] one unit for each exchange (the retries and one
    more, after the rounds in which retries are reset), lock calls and opening one for each
    attempt, a pass over a queue one for each entry.  The loops of a request for a page vector
    take a turn for each page and one more ([page_fuel], [vec_fuel]), its attempts as many as
    there are retries and one more, after the last one that the server may ask to repeat.
    The result of a round of network requests ([communicate], [rwFileCommunicate]), of
    allocations ([alloc], [kmalloc_ok], [allocOk]) and the contents of fresh memory ([garbage], [fresh]) are parameters; the theorems hold
    for all of them, except that the first pool allocation of a write round does not fail.
    What the outside world does in a round of a state machine is a record ([TargetEnv],
    [IOEnv], [SelectEnv], [RoundEnv], [ConnectEnv], [AcquireEnv], [CommEnv], [NodeEnv], [FlockEnv],
    [PermEnv], [OpenEnv], [DelayedEnv], [ThreadEnv], [RemoteEnv], [VecEnv], [CallEnv],
    [SendEnv], [SinkEnv]); where a theorem needs something of it, the hypothesis has a name: [env_ok], [io_live],
    [poll_ok], [session_ok] for the kit, [sink_ok] and [pipe_ok] for the buffers of reads, [calm_pool],
    [calm_env], [others_ok], [leaves_available], [single_rail] for the pool,
    [text_ok] and [sort_ok] for the filters, [grant_ok], [settled_round] for
    the retry loops, [grant_msg_ok] for grants, [resolvers_ok] and [fetch_ok] for access control
    lists, [serves] for pages of a directory, [exclusive] for sessions, [write_law] and
    [read_law] for the remote operations under the file cache, [vec_env_ok] and [settles] for
    requests for a page vector, [passes] and [send_refs] for calls with pages.
    Operations that the code runs under a lock are atomic steps.  Taking a slot or a reference of a mirror group (its semaphore
    and its counter of references) is one step with the section that follows it.  Log output, statistics
    counters and allocation failures inside the generated list codecs are left out.

    ** Not modelled

    The rest of the VFS layer ([FhgfsOpsInode.c], [FhgfsOpsSuper.c] and others), which calls the
    operations above from the kernel's entry points, and the functions of [FhgfsOpsPages.c] that
    wait for pages; the download of target states by
    [InternodeSyncer.c], apart from the stores it updates, and the main thread of the
    invalidation reader; sockets and RDMA, kernel threads, configuration and logging; the
    servers and tools, which are written in C++.

    ** Plan

    Next: the download of target states, and the inode operations of the VFS layer on top of
    [MetaOps.v] and [FileHandles.v]. *)

From stdpp Require Export base list list_numbers gmap numbers.
From coqutil Require Export Byte Word.LittleEndianList.
From Stdlib Require Export ZArith Lia.

#[global] Open Scope Z_scope.

(** ** Machine integers

    C integers are modelled by [Z]; every operation that can leave the range
    of its type is followed by the wrap-around of that type. *)

Definition u8 (z : Z) : Z := z mod 2 ^ 8.
Definition u16 (z : Z) : Z := z mod 2 ^ 16.
Definition u32 (z : Z) : Z := z mod 2 ^ 32.
Definition u64 (z : Z) : Z := z mod 2 ^ 64.

(** Two's complement reading of an unsigned [w]-bit value. *)
Definition signed (w z : Z) : Z :=
  let r := z mod 2 ^ w in if r <? 2 ^ (w - 1) then r else r - 2 ^ w.
Definition s8 : Z -> Z := signed 8.
Definition s16 : Z -> Z := signed 16.
Definition s32 : Z -> Z := signed 32.
Definition s64 : Z -> Z := signed 64.

(** Values that fit a type. *)
Definition in_u (w z : Z) : Prop := 0 <= z < 2 ^ w.
Definition in_s (w z : Z) : Prop := - 2 ^ (w - 1) <= z < 2 ^ (w - 1).

Create Rewrite HintDb wrap.
Create Rewrite HintDb zlen.

Lemma u8_small z : 0 <= z < 2 ^ 8 -> u8 z = z.
Proof. apply Z.mod_small. Qed.
Lemma u16_small z : 0 <= z < 2 ^ 16 -> u16 z = z.
Proof. apply Z.mod_small. Qed.
Lemma u32_small z : 0 <= z < 2 ^ 32 -> u32 z = z.
Proof. apply Z.mod_small. Qed.
Lemma u64_small z : 0 <= z < 2 ^ 64 -> u64 z = z.
Proof. apply Z.mod_small. Qed.

Lemma u16_range z : 0 <= u16 z < 2 ^ 16.
Proof. by apply Z.mod_pos_bound. Qed.
Lemma u32_range z : 0 <= u32 z < 2 ^ 32.
Proof. by apply Z.mod_pos_bound. Qed.
Lemma u64_range z : 0 <= u64 z < 2 ^ 64.
Proof. by apply Z.mod_pos_bound. Qed.

Lemma signed_inv w z : 0 < w -> in_s w z -> signed w (z mod 2 ^ w) = z.
Proof.
  intros Hw [Hl Hh]. unfold signed.
  assert (Hpow : 2 ^ w = 2 * 2 ^ (w - 1)).
  { rewrite <- Z.pow_succ_r by lia. f_equal. lia. }
  assert (0 < 2 ^ (w - 1)) by (apply Z.pow_pos_nonneg; lia).
  rewrite Zmod_mod. destruct (Z.ltb_spec (z mod 2 ^ w) (2 ^ (w - 1))) as [Hlt|Hge].
  - destruct (decide (0 <= z)) as [?|?].
    + apply Z.mod_small. lia.
    + rewrite <- (Z.mod_add z 1), Z.mod_small in Hlt by lia. lia.
  - destruct (decide (0 <= z)) as [?|?].
    + rewrite Z.mod_small in Hge by lia. lia.
    + rewrite <- (Z.mod_add z 1), Z.mod_small by lia. lia.
Qed.

(** Bit operations stay inside of a width. *)
Lemma in_u_log2 w z : 0 < w -> in_u w z <-> 0 <= z /\ Z.log2 z < w.
Proof.
  intros Hw. unfold in_u. destruct (decide (z <= 0)) as [Hz|Hz].
  - assert (0 < 2 ^ w) by (apply Z.pow_pos_nonneg; lia). rewrite Z.log2_nonpos by done. lia.
  - rewrite (Z.log2_lt_pow2 z w) by lia. done.
Qed.

Lemma in_u_lor w a b : 0 < w -> in_u w a -> in_u w b -> in_u w (Z.lor a b).
Proof.
  intros Hw [? ?]%in_u_log2 [? ?]%in_u_log2; [|done..]. apply in_u_log2; [done|].
  rewrite Z.log2_lor by done. split; [by apply Z.lor_nonneg|lia].
Qed.

Lemma in_u_land w a b : 0 < w -> in_u w a -> in_u w b -> in_u w (Z.land a b).
Proof.
  intros Hw [? ?]%in_u_log2 [? ?]%in_u_log2; [|done..]. apply in_u_log2; [done|].
  split; [apply Z.land_nonneg; by left|]. pose proof (Z.log2_land a b). lia.
Qed.

Lemma in_u_pow2 w k : 0 <= k < w -> in_u w (2 ^ k).
Proof. intros. split; [by apply Z.pow_nonneg|apply Z.pow_lt_mono_r; lia]. Qed.

#[export] Hint Rewrite u8_small u16_small u32_small u64_small using lia : wrap.

(** ** Lists *)

(** Length of a list as an integer: sizes and offsets of C objects are [Z]. *)
Definition zlen {A} (l : list A) : Z := Z.of_nat (length l).

Lemma zlen_nonneg {A} (l : list A) : 0 <= zlen l.
Proof. unfold zlen. lia. Qed.
Lemma zlen_app {A} (l k : list A) : zlen (l ++ k) = zlen l + zlen k.
Proof. unfold zlen. rewrite length_app. lia. Qed.
Lemma to_nat_zlen {A} (l : list A) : Z.to_nat (zlen l) = length l.
Proof. apply Nat2Z.id. Qed.
Lemma zlen_nil {A} : zlen (@nil A) = 0.
Proof. done. Qed.
Lemma zlen_cons {A} (x : A) l : zlen (x :: l) = 1 + zlen l.
Proof. unfold zlen. cbn [length]. lia. Qed.
Lemma zlen_le_split n z : zlen (le_split n z) = Z.of_nat n.
Proof. unfold zlen. by rewrite LittleEndianList.length_le_split. Qed.
Lemma zlen_fmap {A B} (f : A -> B) l : zlen (f <$> l) = zlen l.
Proof. unfold zlen. by rewrite length_fmap. Qed.
Lemma zlen_replicate {A} n (x : A) : zlen (replicate n x) = Z.of_nat n.
Proof. unfold zlen. by rewrite length_replicate. Qed.

#[export] Hint Rewrite @zlen_app @zlen_nil @zlen_cons @zlen_le_split @zlen_fmap
  @zlen_replicate : zlen.

(** Arithmetic on sizes: normalise [zlen], then [lia]. *)
Ltac zlia := autorewrite with zlen in *; unfold zlen in *; lia.

(** [splice off bs l] overwrites [l] with [bs] from offset [off] on (the effect
    of [memcpy] into an array of [length l] elements). *)
Definition splice {A} (off : nat) (bs l : list A) : list A :=
  take off l ++ bs ++ drop (off + length bs) l.

Section splice.
Context {A : Type}.
Implicit Types (l bs a b r : list A) (off : nat).

Lemma length_splice off bs l :
  (off + length bs <= length l)%nat -> length (splice off bs l) = length l.
Proof. intros. unfold splice. rewrite !length_app, length_take, length_drop. lia. Qed.

Lemma splice_nil off l : splice off [] l = l.
Proof. unfold splice. cbn. rewrite Nat.add_0_r. apply take_drop. Qed.

Lemma splice_app off a b l :
  (off + length a + length b <= length l)%nat ->
  splice (off + length a) b (splice off a l) = splice off (a ++ b) l.
Proof.
  intros. unfold splice.
  assert (Hoff : length (take off l) = off) by (rewrite length_take; lia).
  assert (Hpre : length (take off l ++ a) = (off + length a)%nat)
    by (rewrite length_app; lia).
  rewrite (app_assoc (take off l) a (drop (off + length a) l)).
  rewrite (take_app_length' _ _ _ (eq_sym Hpre)).
  rewrite drop_app_ge by lia.
  rewrite drop_drop, <- !app_assoc, !length_app, Hoff.
  do 3 f_equal. f_equal. lia.
Qed.

Lemma splice_overwrite off a b r l :
  length a = length b -> (off + length a + length r <= length l)%nat ->
  splice off b (splice off (a ++ r) l) = splice off (b ++ r) l.
Proof.
  intros Hab ?. unfold splice.
  assert (Hoff : length (take off l) = off) by (rewrite length_take; lia).
  rewrite take_app_le by lia. rewrite (take_ge (take off l)) by lia.
  rewrite drop_app_ge by lia. rewrite Hoff.
  replace (off + length b - off)%nat with (length a) by lia.
  rewrite <- app_assoc, drop_app_length. rewrite !length_app, <- Hab.
  by rewrite <- !app_assoc.
Qed.

Lemma take_splice_all off bs l :
  (off + length bs <= length l)%nat ->
  take (length bs) (drop off (splice off bs l)) = bs.
Proof.
  intros. unfold splice.
  assert (Hoff : length (take off l) = off) by (rewrite length_take; lia).
  rewrite <- Hoff at 1. rewrite drop_app_length. apply take_app_length.
Qed.
End splice.

(** ** Memory reads

    [load m addr n] reads [n] bytes of the object [m] from offset [addr];
    [None] when the access leaves the object. *)
Definition load (m : list byte) (addr n : Z) : option (list byte) :=
  if (0 <=? addr) && (0 <=? n) && (addr + n <=? zlen m)
  then Some (take (Z.to_nat n) (drop (Z.to_nat addr) m)) else None.

Lemma load_in m addr n :
  0 <= addr -> 0 <= n -> addr + n <= zlen m ->
  load m addr n = Some (take (Z.to_nat n) (drop (Z.to_nat addr) m)).
Proof.
  intros. unfold load.
  rewrite (proj2 (Z.leb_le 0 addr)), (proj2 (Z.leb_le 0 n)) by done.
  by rewrite (proj2 (Z.leb_le _ _)).
Qed.

Lemma load_length m addr n bs : load m addr n = Some bs -> zlen bs = n.
Proof.
  unfold load. destruct (_ && _) eqn:E; [|done]. intros [= <-].
  unfold zlen in *. rewrite length_take, length_drop. lia.
Qed.

(** A fresh array of [n] 64-bit cells: the contents are whatever [garbage] says. *)
Definition kmalloc_blocks (garbage : nat -> Z) (n : Z) : list Z :=
  (fun i => u64 (garbage i)) <$> seq 0 (Z.to_nat n).

Lemma kmalloc_blocks_ok garbage n : 0 <= n ->
  zlen (kmalloc_blocks garbage n) = n /\ Forall (in_u 64) (kmalloc_blocks garbage n).
Proof.
  intros Hn. unfold kmalloc_blocks. split.
  - rewrite zlen_fmap. unfold zlen. rewrite length_seq. lia.
  - apply Forall_fmap, Forall_forall. intros i _. apply u64_range.
Qed.

#[export] Instance byte_eq_decision : EqDecision byte := Byte.byte_eq_dec.

(** ** C strings

    A [char*] is represented by the bytes it points to; its value as a C string
    is the prefix before the first NUL. *)
Fixpoint cstr (s : list byte) : list byte :=
  match s with
  | [] => []
  | b :: s' => if decide (b = Byte.x00) then [] else b :: cstr s'
  end.

Definition strlen (s : list byte) : Z := zlen (cstr s).

(** No NUL byte: the representation of a C string by its content. *)
Definition no_nul (s : list byte) : Prop := Byte.x00 ∉ s.

Lemma cstr_no_nul s : no_nul s -> cstr s = s.
Proof.
  induction s as [|b s IH]; intros H; [done|]. cbn.
  destruct (decide (b = Byte.x00)) as [->|?].
  - destruct H. by left.
  - rewrite IH; [done|]. intros ?. apply H. by right.
Qed.

Lemma no_nul_cstr s : no_nul (cstr s).
Proof.
  induction s as [|b s IH]; cbn; [by intros ?%elem_of_nil|].
  destruct (decide _); [by intros ?%elem_of_nil|].
  intros [?|?]%elem_of_cons; [done|]. by apply IH.
Qed.

Lemma cstr_app_nul s r : no_nul s -> cstr (s ++ Byte.x00 :: r) = s.
Proof.
  induction s as [|b s IH]; intros H; cbn; [done|].
  destruct (decide (b = Byte.x00)) as [->|?].
  - destruct H. by left.
  - rewrite IH; [done|]. intros ?. apply H. by right.
Qed.

(** The C string is a prefix of the memory it starts in. *)
Lemma cstr_prefix s :
  take (Z.to_nat (strlen s)) s = cstr s /\ 0 <= strlen s <= zlen s.
Proof.
  unfold strlen, zlen. rewrite Nat2Z.id. induction s as [|b s [IH1 IH2]]; [done|].
  cbn [cstr]. destruct (decide _); cbn [length take]; [split; [done|lia]|].
  rewrite IH1. split; [done|lia].
Qed.
