(* ===== verification/StorageErrors.v ===== *)
(** * Error codes

    Models [common/storage/StorageErrors.h] and [StorageErrors.c]: the error codes
    of the file system protocol, their texts, and their translation to Linux
    system error codes (the generic numbers of [asm-generic/errno.h]). *)

From Stdlib Require Import String.
From S2P Require Import Prelude.

(** ** Linux error numbers *)

Definition EPERM : Z := 1.
Definition ENOENT : Z := 2.
Definition EINTR : Z := 4.
Definition E2BIG : Z := 7.
Definition EAGAIN : Z := 11.
Definition ENOMEM : Z := 12.
Definition EFAULT : Z := 14.
Definition EBUSY : Z := 16.
Definition EEXIST : Z := 17.
Definition ENOTDIR : Z := 20.
Definition EINVAL : Z := 22.
Definition EFBIG : Z := 27.
Definition ENOSPC : Z := 28.
Definition ERANGE : Z := 34.
Definition ENOTEMPTY : Z := 39.
Definition ENODATA : Z := 61.
Definition ECOMM : Z := 70.
Definition EOPNOTSUPP : Z := 95.
Definition ETIMEDOUT : Z := 110.
Definition ESTALE : Z := 116.
Definition EREMOTEIO : Z := 121.
Definition EDQUOT : Z := 122.
Definition EWOULDBLOCK : Z := EAGAIN.

(** ** FhgfsOpsErr *)

Definition FhgfsOpsErr_DUMMY_DONTUSEME : Z := -1.
Definition FhgfsOpsErr_SUCCESS : Z := 0.
Definition FhgfsOpsErr_INTERNAL : Z := 1.
Definition FhgfsOpsErr_INTERRUPTED : Z := 2.
Definition FhgfsOpsErr_COMMUNICATION : Z := 3.
Definition FhgfsOpsErr_COMMTIMEDOUT : Z := 4.
Definition FhgfsOpsErr_UNKNOWNNODE : Z := 5.
Definition FhgfsOpsErr_NOTOWNER : Z := 6.
Definition FhgfsOpsErr_EXISTS : Z := 7.
Definition FhgfsOpsErr_PATHNOTEXISTS : Z := 8.
Definition FhgfsOpsErr_INUSE : Z := 9.
Definition FhgfsOpsErr_DYNAMICATTRIBSOUTDATED : Z := 10.
Definition FhgfsOpsErr_PARENTTOSUBDIR : Z := 11.
Definition FhgfsOpsErr_NOTADIR : Z := 12.
Definition FhgfsOpsErr_NOTEMPTY : Z := 13.
Definition FhgfsOpsErr_NOSPACE : Z := 14.
Definition FhgfsOpsErr_UNKNOWNTARGET : Z := 15.
Definition FhgfsOpsErr_WOULDBLOCK : Z := 16.
Definition FhgfsOpsErr_INODENOTINLINED : Z := 17.
Definition FhgfsOpsErr_SAVEERROR : Z := 18.
Definition FhgfsOpsErr_TOOBIG : Z := 19.
Definition FhgfsOpsErr_INVAL : Z := 20.
Definition FhgfsOpsErr_ADDRESSFAULT : Z := 21.
Definition FhgfsOpsErr_AGAIN : Z := 22.
Definition FhgfsOpsErr_STORAGE_SRV_CRASHED : Z := 23.
Definition FhgfsOpsErr_PERM : Z := 24.
Definition FhgfsOpsErr_DQUOT : Z := 25.
Definition FhgfsOpsErr_OUTOFMEM : Z := 26.
Definition FhgfsOpsErr_RANGE : Z := 27.
Definition FhgfsOpsErr_NODATA : Z := 28.
Definition FhgfsOpsErr_NOTSUPP : Z := 29.
Definition FhgfsOpsErr_TOOLONG : Z := 30.
Definition FhgfsOpsErr_METAVERSIONMISMATCH : Z := 31.
Definition FhgfsOpsErr_INODELOCKED : Z := 32.
Definition FhgfsOpsErr_FILEACCESS_DENIED : Z := 33.
Definition FhgfsOpsErr_REMOTEIO : Z := 34.

(** [__FHGFSOPS_ERRLIST] without its terminating entry. *)
Definition FHGFSOPS_ERRLIST : list (string * Z) :=
  [("Success"%string, 0);
   ("Internal error"%string, EREMOTEIO);
   ("Interrupted system call"%string, EINTR);
   ("Communication error"%string, ECOMM);
   ("Communication timeout"%string, ETIMEDOUT);
   ("Unknown node"%string, EREMOTEIO);
   ("Node is not owner of entry"%string, EREMOTEIO);
   ("Entry exists already"%string, EEXIST);
   ("Path does not exist"%string, ENOENT);
   ("Entry is in use"%string, EBUSY);
   ("Dynamic attributes of entry are outdated"%string, EREMOTEIO);
   ("Removed"%string, 999);
   ("Entry is not a directory"%string, ENOTDIR);
   ("Directory is not empty"%string, ENOTEMPTY);
   ("No space left"%string, ENOSPC);
   ("Unknown storage target"%string, EREMOTEIO);
   ("Operation would block"%string, EWOULDBLOCK);
   ("Inode not inlined"%string, EREMOTEIO);
   ("Underlying file system error"%string, EREMOTEIO);
   ("Argument too large"%string, EFBIG);
   ("Invalid argument"%string, EINVAL);
   ("Bad memory address"%string, EFAULT);
   ("Try again"%string, EAGAIN);
   ("Potential cache loss for open file handle. (Server crash detected.)"%string, EREMOTEIO);
   ("Permission denied"%string, EPERM);
   ("Quota exceeded"%string, EDQUOT);
   ("Out of memory"%string, ENOMEM);
   ("Numerical result out of range"%string, ERANGE);
   ("No data available"%string, ENODATA);
   ("Operation not supported"%string, EOPNOTSUPP);
   ("Argument list too long"%string, E2BIG);
   ("Metadata version mismatch"%string, ESTALE);
   ("Inode is locked"%string, EBUSY);
   ("File access denied by state restrictions"%string, EWOULDBLOCK);
   ("Remote I/O error"%string, EREMOTEIO)].

(** The enum is a signed [int]: a negative code becomes a huge [size_t]. *)
Definition FhgfsOpsErr_toErrString (errCode : Z) : string :=
  let unsignedErrCode := u64 errCode in
  match FHGFSOPS_ERRLIST !! Z.to_nat unsignedErrCode with
  | Some entry => entry.1
  | None => "Unknown error code"
  end.

Definition FhgfsOpsErr_toSysErr (errCode : Z) : Z :=
  let unsignedErrCode := u64 errCode in
  if unsignedErrCode <? zlen FHGFSOPS_ERRLIST then
    match FHGFSOPS_ERRLIST !! Z.to_nat errCode with
    | Some entry => - entry.2
    | None => - EPERM
    end
  else - EPERM.

(** For every value of the error type the translation returns a
    negative Linux error code (at least -999), and zero exactly for success. *)
Theorem toSysErr_spec errCode :
  in_s 32 errCode ->
  -999 <= FhgfsOpsErr_toSysErr errCode <= 0 /\
  (FhgfsOpsErr_toSysErr errCode = 0 <-> errCode = FhgfsOpsErr_SUCCESS).
Proof.
  intros [Hl Hh]. unfold FhgfsOpsErr_toSysErr, FhgfsOpsErr_SUCCESS. cbv zeta.
  change (zlen FHGFSOPS_ERRLIST) with 35.
  destruct (Z.ltb_spec (u64 errCode) 35) as [Hlt|Hge].
  - assert (Hpos : 0 <= errCode < 35).
    { unfold u64 in Hlt. destruct (decide (errCode < 0)).
      - rewrite <- (Z.mod_add _ 1), Z.mod_small in Hlt by lia. lia.
      - rewrite Z.mod_small in Hlt by lia. lia. }
    destruct (FHGFSOPS_ERRLIST !! Z.to_nat errCode) as [[s e]|] eqn:E.
    2: { apply lookup_ge_None in E. change (length FHGFSOPS_ERRLIST) with 35%nat in E. lia. }
    destruct (Z.to_nat errCode) as [|n] eqn:En.
    + injection E as <- <-. cbn. lia.
    + assert (Hall : Forall (fun x => 0 < x.2 <= 999) (tail FHGFSOPS_ERRLIST)).
      { repeat (apply Forall_cons; [cbv; split; congruence|]). apply Forall_nil. }
      apply (Forall_lookup_1 _ _ _ _ Hall) in E. cbn [snd] in *. lia.
  - unfold EPERM. split; [lia|]. split; [lia|]. intros ->. done.
Qed.

Lemma toSysErr_spec_witness :
  -999 <= FhgfsOpsErr_toSysErr FhgfsOpsErr_COMMUNICATION <= 0 /\
  (FhgfsOpsErr_toSysErr FhgfsOpsErr_COMMUNICATION = 0 <->
   FhgfsOpsErr_COMMUNICATION = FhgfsOpsErr_SUCCESS).
Proof. apply (toSysErr_spec FhgfsOpsErr_COMMUNICATION). vm_compute. split; congruence. Defined.
