(* ===== verification/Wire.v ===== *)
(** * Wire contexts: the (de)serialisation cursors and their proof rules

    Models [SerializationTypes.h] ([SerializeCtx], [DeserializeCtx], [RawList])
    and the memory accesses the functions of [Serialization.h] are built from.
    The component that uses it is [Serialization.v]; storage formats and network
    messages are proved against the three judgements of this file:
    [writes] (what a serialiser emits), [reads] (what a deserialiser accepts)
    and [triple] (memory safety on arbitrary input). *)

From S2P Require Import Prelude.

Declare Scope wire_scope.
Delimit Scope wire_scope with wire.

(** ** Cursors *)

(** [struct SerializeCtx]: [s_data] is the target buffer, [None] for a NULL
    [data] pointer (the length-only pass of [NetMessage_getMsgLength]). *)
Record SerializeCtx := MkSerializeCtx {
  s_data : option (list byte);
  s_length : Z (* unsigned *)
}.

(** [struct DeserializeCtx]: the [data] pointer is the offset [d_data] into the
    received object [d_mem]; [d_length] is the [size_t] of bytes left. *)
Record DeserializeCtx := MkDeserializeCtx {
  d_mem : list byte;
  d_data : Z;
  d_length : Z (* size_t *)
}.

(** [struct RawList]: a validated but still encoded list in the same object. *)
Record RawList := MkRawList {
  rl_mem : list byte;
  rl_data : Z;
  rl_length : Z;    (* unsigned *)
  rl_elemCount : Z  (* unsigned *)
}.

(** ** Serialisers: [None] is a write behind the end of the buffer. *)
Definition Ser : Type := SerializeCtx -> option SerializeCtx.

Definition ser_skip : Ser := Some.
Definition ser_seq (s1 s2 : Ser) : Ser := fun c =>
  match s1 c with Some c' => s2 c' | None => None end.
Notation "s1 +> s2" := (ser_seq s1 s2) (at level 60, right associativity) : wire_scope.
Open Scope wire_scope.

(** [if(ctx->data) <store bs at data + length>; ctx->length += sizeof(bs)]. *)
Definition emit (bs : list byte) : Ser := fun c =>
  match s_data c with
  | None => Some (MkSerializeCtx None (u32 (s_length c + zlen bs)))
  | Some m =>
      if s_length c + zlen bs <=? zlen m
      then Some (MkSerializeCtx (Some (splice (Z.to_nat (s_length c)) bs m))
                                (u32 (s_length c + zlen bs)))
      else None
  end.

(** Runs [s] on a copy of the context whose [length] is [start] (the copies
    [startCtx]/[ctxAtStart] share the data buffer, not the length). *)
Definition ser_at (start : Z) (s : Ser) : Ser := fun c =>
  match s (MkSerializeCtx (s_data c) start) with
  | Some c' => Some (MkSerializeCtx (s_data c') (s_length c))
  | None => None
  end.

(** A serialiser that depends on the context it starts in. *)
Definition ser_from (f : SerializeCtx -> Ser) : Ser := fun c => f c c.

Fixpoint ser_each {A} (f : A -> Ser) (l : list A) : Ser :=
  match l with [] => ser_skip | x :: l' => f x +> ser_each f l' end.

Definition ser_if (b : bool) (s : Ser) : Ser := if b then s else ser_skip.

(** ** Deserialisers *)

(** [Done a c]: returned [true] with output [a] and context [c];
    [Refused]: returned [false]; [BadRead addr]: dereferenced [addr] outside of
    the received object. *)
Inductive dres (A : Type) : Type :=
| Done (a : A) (c : DeserializeCtx)
| Refused
| BadRead (addr : Z).
Arguments Done {A} a c.
Arguments Refused {A}.
Arguments BadRead {A} addr.

Definition Des (A : Type) : Type := DeserializeCtx -> dres A.

#[export] Instance Des_ret : MRet Des := fun A a c => Done a c.
#[export] Instance Des_bind : MBind Des := fun A B k d c =>
  match d c with
  | Done a c' => k a c'
  | Refused => Refused
  | BadRead addr => BadRead addr
  end.
#[export] Instance Des_fmap : FMap Des := fun A B f d c =>
  match d c with
  | Done a c' => Done (f a) c'
  | Refused => Refused
  | BadRead addr => BadRead addr
  end.

Definition des_refuse {A} : Des A := fun _ => Refused.
(** An access outside of every object. *)
Definition des_bad {A} (addr : Z) : Des A := fun _ => BadRead addr.
(** [if(!b) return false;] *)
Definition des_check (b : bool) : Des unit := fun c => if b then Done tt c else Refused.
Definition des_get : Des DeserializeCtx := fun c => Done c c.
(** Byte at address [addr] of the object. *)
Definition des_peek (addr : Z) : Des byte := fun c =>
  match load (d_mem c) addr 1 with
  | Some [b] => Done b c
  | _ => BadRead addr
  end.
(** [ctx->data += n; ctx->length -= n;] in [size_t] arithmetic. *)
Definition d_advance (n : Z) (c : DeserializeCtx) : DeserializeCtx :=
  MkDeserializeCtx (d_mem c) (d_data c + n) (u64 (d_length c - n)).
Definition des_advance (n : Z) : Des unit := fun c => Done tt (d_advance n c).

(** [n] bytes at address [addr] of object [m], without any length check. *)
Definition des_load (m : list byte) (addr n : Z) : Des (list byte) := fun c =>
  match load m addr n with Some bs => Done bs c | None => BadRead addr end.

(** Runs [d] on another context (a nested one, or a copy) and returns its result
    with that context; the current context is unchanged. *)
Definition des_in {A} (inner : DeserializeCtx) (d : Des A) : Des (A * DeserializeCtx) := fun c =>
  match d inner with
  | Done a inner' => Done (a, inner') c
  | Refused => Refused
  | BadRead addr => BadRead addr
  end.

(** A call whose result is ignored: on failure the destination keeps [old]. *)
Definition des_ignore {A} (d : Des A) (old : A) : Des A := fun c =>
  match d c with Refused => Done old c | r => r end.

(** [n] times [d], outputs in order. *)
Fixpoint des_times {A} (n : nat) (d : Des A) : Des (list A) :=
  match n with
  | O => mret []
  | S n' => x ← d; l ← des_times n' d; mret (x :: l)
  end.

(** ** Judgement 1: what a serialiser writes *)

(** A context inside of its buffer. *)
Definition s_ok (c : SerializeCtx) : Prop :=
  0 <= s_length c < 2 ^ 32 /\
  match s_data c with Some m => s_length c <= zlen m | None => True end.

(** [s] appends exactly the bytes [bs], or faults when they do not fit. *)
Definition writes (s : Ser) (bs : list byte) : Prop :=
  forall c, s_ok c -> s_length c + zlen bs < 2 ^ 32 -> s c = emit bs c.

Lemma emit_nil c : s_ok c -> emit [] c = Some c.
Proof.
  intros [Hl Hm]. unfold emit. rewrite zlen_nil, Z.add_0_r, u32_small by done.
  destruct c as [[m|] n]; cbn in *; [|done].
  rewrite (proj2 (Z.leb_le _ _)) by done. by rewrite splice_nil.
Qed.

Lemma emit_ok bs c c' :
  s_ok c -> s_length c + zlen bs < 2 ^ 32 -> emit bs c = Some c' ->
  s_ok c' /\ s_length c' = s_length c + zlen bs.
Proof.
  intros [Hl Hm] Hlt. pose proof (zlen_nonneg bs). unfold emit, s_ok.
  destruct c as [[m|] n]; cbn [s_data s_length] in *.
  - destruct (Z.leb_spec (n + zlen bs) (zlen m)); [|done]. intros [= <-].
    cbn. rewrite u32_small by lia. unfold zlen in *.
    rewrite length_splice by lia. lia.
  - intros [= <-]. cbn. rewrite u32_small by lia. lia.
Qed.

Lemma emit_app a b c :
  s_ok c -> s_length c + zlen (a ++ b) < 2 ^ 32 ->
  emit (a ++ b) c = (emit a +> emit b) c.
Proof.
  intros [H0 Hm] Hlt. rewrite zlen_app in *.
  pose proof (zlen_nonneg a). pose proof (zlen_nonneg b).
  unfold ser_seq, emit. rewrite !zlen_app.
  destruct c as [[m|] n]; cbn [s_data s_length] in *.
  - destruct (Z.leb_spec (n + zlen a) (zlen m)) as [Ha|Ha].
    2: { by rewrite (proj2 (Z.leb_gt _ _)) by lia. }
    cbn [s_data s_length]. rewrite (u32_small (n + zlen a)) by lia.
    assert (Hsp : zlen (splice (Z.to_nat n) a m) = zlen m).
    { unfold zlen. rewrite length_splice; [done|]. unfold zlen in *. lia. }
    rewrite Hsp, Z.add_assoc.
    destruct (Z.leb_spec (n + zlen a + zlen b) (zlen m)) as [Hb|Hb]; [|done].
    rewrite <- splice_app by (unfold zlen in *; lia).
    do 3 f_equal. unfold zlen. rewrite Z2Nat.inj_add, Nat2Z.id by lia. done.
  - cbn [s_data s_length]. by rewrite (u32_small (n + zlen a)), Z.add_assoc by lia.
Qed.

Lemma writes_emit bs : writes (emit bs) bs.
Proof. done. Qed.

Lemma writes_skip : writes ser_skip [].
Proof. intros c Hok _. by rewrite emit_nil. Qed.

Lemma writes_seq s1 s2 a b : writes s1 a -> writes s2 b -> writes (s1 +> s2) (a ++ b).
Proof.
  intros H1 H2 c Hok Hlt. rewrite emit_app by done.
  pose proof (zlen_nonneg a). pose proof (zlen_nonneg b). rewrite zlen_app in Hlt.
  unfold ser_seq. rewrite H1 by (done || lia).
  destruct (emit a c) as [c'|] eqn:E; [|done].
  apply emit_ok in E as [??]; [|done|lia]. apply H2; [done|lia].
Qed.

Lemma writes_each {A} (f : A -> Ser) (g : A -> list byte) l :
  (forall x, x ∈ l -> writes (f x) (g x)) -> writes (ser_each f l) (l ≫= g).
Proof.
  induction l as [|x l IH]; intros H; cbn; [apply writes_skip|].
  apply writes_seq; [apply H; by left|]. apply IH. intros ??. apply H. by right.
Qed.

Lemma writes_if b s bs : (b = true -> writes s bs) -> writes (ser_if b s) (if b then bs else []).
Proof. destruct b; intros H; [by apply H|apply writes_skip]. Qed.

Lemma writes_eq s a b : writes s a -> a = b -> writes s b.
Proof. by intros ? <-. Qed.

(** Placeholder fields: a serialiser emits [a ++ r] and then overwrites the bytes
    [a] it started with; the new bytes may depend on the number of bytes emitted,
    as the length fields of the list formats do. *)
Definition ser_patched (s : Ser) (p : Z -> Ser) : Ser :=
  ser_from (fun c0 =>
    s +> ser_from (fun c1 => ser_at (s_length c0) (p (u32 (s_length c1 - s_length c0))))).

Lemma writes_patched (s : Ser) (p : Z -> Ser) (q : Z -> list byte) a r :
  writes s (a ++ r) -> (forall n, writes (p n) (q n)) -> (forall n, zlen (q n) = zlen a) ->
  writes (ser_patched s p) (q (zlen (a ++ r)) ++ r).
Proof.
  intros Hs Hp Hq c Hok Hlt. rewrite zlen_app, Hq in Hlt.
  pose proof (zlen_nonneg a). pose proof (zlen_nonneg r).
  unfold ser_patched, ser_from, ser_seq. rewrite Hs by (try done; rewrite zlen_app; lia).
  unfold emit. rewrite !zlen_app, Hq. destruct Hok as [Hl Hm].
  destruct c as [[m|] n]; cbn [s_data s_length] in *; unfold ser_at; cbn [s_data s_length].
  - destruct (Z.leb_spec (n + (zlen a + zlen r)) (zlen m)) as [Hfit|]; [|done].
    cbn [s_data s_length].
    rewrite (u32_small (n + (zlen a + zlen r))), Z.add_simpl_l, u32_small by lia.
    assert (Hsp : zlen (splice (Z.to_nat n) (a ++ r) m) = zlen m).
    { unfold zlen in *. rewrite length_splice; [done|]. rewrite length_app. lia. }
    rewrite Hp; [|split; cbn; [lia|rewrite Hsp; lia]|cbn; rewrite Hq; lia].
    unfold emit. cbn [s_data s_length]. rewrite Hsp, Hq, (proj2 (Z.leb_le _ _)) by lia.
    cbn [s_data s_length].
    rewrite splice_overwrite; [done| |unfold zlen in *; lia].
    specialize (Hq (zlen a + zlen r)). unfold zlen in *. lia.
  - rewrite (u32_small (n + (zlen a + zlen r))), Z.add_simpl_l, u32_small by lia.
    rewrite Hp; [done|split; cbn; [lia|done]|cbn; rewrite Hq; lia].
Qed.

Create HintDb wire.
#[export] Hint Resolve writes_emit writes_skip writes_seq : wire.

(** ** Judgement 2: what a deserialiser accepts *)

(** The bytes left lie inside of the received object. *)
Definition d_ok (c : DeserializeCtx) : Prop :=
  0 <= d_data c /\ 0 <= d_length c < 2 ^ 64 /\ d_data c + d_length c <= zlen (d_mem c).

(** The next bytes are [bs]. *)
Definition d_next (c : DeserializeCtx) (bs : list byte) : Prop :=
  zlen bs <= d_length c /\ load (d_mem c) (d_data c) (zlen bs) = Some bs.

(** On input that starts with [bs], followed by at least [slack] bytes, [d] returns
    true, consumes [bs] and nothing else, and its output satisfies [P]. *)
Definition reads {A} (slack : Z) (d : Des A) (bs : list byte) (P : A -> Prop) : Prop :=
  forall c, d_ok c -> d_next c bs -> zlen bs + slack <= d_length c ->
  exists a, d c = Done a (d_advance (zlen bs) c) /\ P a.

Lemma load_app m addr a b :
  load m addr (zlen (a ++ b)) = Some (a ++ b) ->
  load m addr (zlen a) = Some a /\ load m (addr + zlen a) (zlen b) = Some b.
Proof.
  pose proof (zlen_nonneg a). pose proof (zlen_nonneg b).
  unfold load at 1. rewrite zlen_app. destruct (_ && _) eqn:E; [|done]. intros [= Heq].
  rewrite !load_in by lia. unfold zlen in *.
  rewrite Z2Nat.inj_add, !Nat2Z.id in Heq by lia.
  rewrite (Z2Nat.inj_add addr), !Nat2Z.id, <- drop_drop by lia.
  split; f_equal.
  - apply (f_equal (take (length a))) in Heq.
    rewrite take_take, take_app_length, Nat.min_l in Heq by lia. done.
  - apply (f_equal (drop (length a))) in Heq.
    rewrite drop_app_length, skipn_firstn_comm in Heq. rewrite <- Heq at 2. f_equal. lia.
Qed.

Lemma d_advance_ok c n : d_ok c -> 0 <= n <= d_length c -> d_ok (d_advance n c).
Proof.
  intros (?&?&?) ?. unfold d_ok, d_advance. cbn. rewrite u64_small by lia. lia.
Qed.

Lemma d_advance_advance c a b :
  d_advance b (d_advance a c) = d_advance (a + b) c.
Proof.
  unfold d_advance. cbn. f_equal; [lia|]. unfold u64.
  rewrite Zminus_mod_idemp_l. f_equal. lia.
Qed.

Lemma d_next_app c a b : d_ok c -> d_next c (a ++ b) ->
  d_next c a /\ d_next (d_advance (zlen a) c) b.
Proof.
  intros (?&?&?) [Hl Hld]. apply load_app in Hld as [Ha Hb].
  rewrite zlen_app in Hl. pose proof (zlen_nonneg a). pose proof (zlen_nonneg b).
  split; (split; [|done]); [lia|].
  unfold d_advance. cbn [d_length]. rewrite u64_small; lia.
Qed.

Lemma reads_ret {A} k (a : A) (P : A -> Prop) : P a -> reads k (mret a) [] P.
Proof.
  intros HP [m p l] (?&?&?) _ _. exists a. split; [|done].
  unfold mret, Des_ret, d_advance. cbn [d_mem d_data d_length] in *.
  by rewrite zlen_nil, Z.add_0_r, Z.sub_0_r, u64_small.
Qed.

Lemma reads_bind {A B} k1 k (d : Des A) (f : A -> Des B) a b P Q :
  reads k1 d a P -> (forall x, P x -> reads k (f x) b Q) -> k1 <= zlen b + k ->
  reads k (d ≫= f) (a ++ b) Q.
Proof.
  intros Hd Hk Hk1 c Hok Hn Hlen. rewrite zlen_app in Hlen.
  pose proof (d_next_app _ _ _ Hok Hn) as [Ha Hb].
  destruct (Hd c Hok Ha) as (x & Hx & HPx); [lia|].
  pose proof (zlen_nonneg a). destruct Ha as [Hla _]. pose proof Hok as (_&?&_).
  destruct (Hk x HPx (d_advance (zlen a) c)) as (y & Hy & HQy); [|done| |].
  { apply d_advance_ok; [done|lia]. }
  { unfold d_advance. cbn [d_length]. rewrite u64_small; lia. }
  exists y. split; [|done]. unfold mbind, Des_bind. rewrite Hx, Hy.
  by rewrite d_advance_advance, zlen_app.
Qed.

(** The last deserialiser of a sequence. *)
Lemma reads_last {A B} k (d : Des A) (f : A -> Des B) bs P Q :
  reads k d bs P -> (forall x, P x -> reads k (f x) [] Q) -> reads k (d ≫= f) bs Q.
Proof.
  intros Hd Hf. rewrite <- (app_nil_r bs). eapply reads_bind; [done|done|].
  rewrite zlen_nil. lia.
Qed.

Lemma reads_check k b (P : unit -> Prop) : b = true -> P tt -> reads k (des_check b) [] P.
Proof.
  intros -> HP c Hok Hn Hl. destruct (reads_ret k tt P HP c Hok Hn Hl) as (a & Ha & ?).
  exists a. by split.
Qed.

Lemma reads_fmap {A B} k (f : A -> B) (d : Des A) bs P Q :
  reads k d bs P -> (forall x, P x -> Q (f x)) -> reads k (f <$> d) bs Q.
Proof.
  intros Hd Hf c Hok Hn Hl. destruct (Hd c Hok Hn Hl) as (x & Hx & HP).
  exists (f x). split; [|auto]. unfold fmap, Des_fmap. by rewrite Hx.
Qed.

Lemma reads_mono {A} k k' (d : Des A) bs (P Q : A -> Prop) :
  reads k d bs P -> k <= k' -> (forall x, P x -> Q x) -> reads k' d bs Q.
Proof.
  intros Hd Hk HPQ c Hok Hn Hl. destruct (Hd c Hok Hn) as (a & ? & ?); [lia|]. eauto.
Qed.

Lemma reads_eq {A} k (d : Des A) a b P : reads k d a P -> a = b -> reads k d b P.
Proof. by intros ? <-. Qed.

(** Two consecutive steps proved as one. *)
Lemma reads_assoc {A B C} k (d : Des A) (f : A -> Des B) (g : B -> Des C) bs P :
  reads k ((d ≫= f) ≫= g) bs P -> reads k (d ≫= (fun x => f x ≫= g)) bs P.
Proof.
  intros H c Hok Hn Hl. destruct (H c Hok Hn Hl) as (a & Ha & ?). exists a. split; [|done].
  rewrite <- Ha. unfold mbind, Des_bind. by destruct (d c).
Qed.

Lemma reads_ignore {A} k (d : Des A) old bs P : reads k d bs P -> reads k (des_ignore d old) bs P.
Proof.
  intros H c Hok Hn Hl. destruct (H c Hok Hn Hl) as (a & Ha & ?). exists a.
  unfold des_ignore. by rewrite Ha.
Qed.

(** [n] encoded elements in a row. *)
Lemma reads_times {A} (d : Des A) (g : A -> list byte) (l : list A) :
  (forall x, x ∈ l -> reads 0 d (g x) (fun y => y = x)) ->
  reads 0 (des_times (length l) d) (l ≫= g) (fun k => k = l).
Proof.
  induction l as [|x l IH]; intros H; cbn; [by apply reads_ret|].
  eapply reads_bind; [apply H; by left| |pose proof (zlen_nonneg (l ≫= g)); lia].
  intros ? ->. eapply reads_last; [apply IH; intros; apply H; by right|].
  intros ? ->. by apply reads_ret.
Qed.

(** ** Judgement 3: memory safety on arbitrary input

    From every well-formed context, [d] either refuses, or returns a well-formed
    context and an output in [P], or reads outside of the object at an address
    in [F].  [F := no_fault] is full safety. *)
Definition triple {A} (F : Z -> Prop) (d : Des A) (P : A -> Prop) : Prop :=
  forall c, d_ok c ->
  match d c with
  | Done a c' => d_ok c' /\ P a
  | Refused => True
  | BadRead addr => F addr
  end.

Definition no_fault (_ : Z) : Prop := False.
Definition safe {A} (d : Des A) : Prop := triple no_fault d (fun _ => True).

Lemma triple_ret {A} F (a : A) (P : A -> Prop) : P a -> triple F (mret a) P.
Proof. by intros ??. Qed.

Lemma triple_bind {A B} F (d : Des A) (k : A -> Des B) P Q :
  triple F d P -> (forall x, P x -> triple F (k x) Q) -> triple F (d ≫= k) Q.
Proof.
  intros Hd Hk c Hok. specialize (Hd c Hok). unfold mbind, Des_bind.
  destruct (d c) as [a c'| |]; [|done..]. destruct Hd as [??]. by apply Hk.
Qed.

Lemma triple_assoc {A B C} F (d : Des A) (f : A -> Des B) (g : B -> Des C) P :
  triple F ((d ≫= f) ≫= g) P -> triple F (d ≫= (fun x => f x ≫= g)) P.
Proof.
  intros H c Hok. specialize (H c Hok). revert H. unfold mbind, Des_bind. by destruct (d c).
Qed.

Lemma triple_fmap {A B} F (f : A -> B) (d : Des A) P Q :
  triple F d P -> (forall x, P x -> Q (f x)) -> triple F (f <$> d) Q.
Proof.
  intros Hd Hf c Hok. specialize (Hd c Hok). unfold fmap, Des_fmap.
  destruct (d c); [|done..]. destruct Hd. auto.
Qed.

Lemma triple_check F b (P : unit -> Prop) : (b = true -> P tt) -> triple F (des_check b) P.
Proof. intros HP c Hok. unfold des_check. destruct b; [auto|done]. Qed.

Lemma triple_refuse {A} F (P : A -> Prop) : triple F des_refuse P.
Proof. done. Qed.

Lemma triple_if {A} F b (d1 d2 : Des A) P :
  (b = true -> triple F d1 P) -> (b = false -> triple F d2 P) ->
  triple F (if b then d1 else d2) P.
Proof. destruct b; auto. Qed.

Lemma triple_mono {A} (F G : Z -> Prop) (d : Des A) (P Q : A -> Prop) :
  triple F d P -> (forall a, F a -> G a) -> (forall x, P x -> Q x) -> triple G d Q.
Proof. intros Hd HF HP c Hok. specialize (Hd c Hok). destruct (d c); [|done|auto].
  destruct Hd. auto.
Qed.

Lemma triple_in {A} F inner (d : Des A) P :
  d_ok inner -> triple F d P ->
  triple F (des_in inner d) (fun '(a, inner') => d_ok inner' /\ P a).
Proof.
  intros Hi Hd c Hok. specialize (Hd inner Hi). unfold des_in.
  destruct (d inner); [|done..]. done.
Qed.

Lemma triple_times {A} F (d : Des A) n (P : A -> Prop) :
  triple F d P -> triple F (des_times n d) (fun l => Forall P l /\ length l = n).
Proof.
  intros Hd. induction n as [|n IH]; cbn; [by apply triple_ret|].
  eapply triple_bind; [done|]. intros x Hx.
  eapply triple_bind; [done|]. intros l [Hl <-]. apply triple_ret. by split; [constructor|].
Qed.

(** ** From the judgements to whole buffers *)

(** A fresh cursor over a received object. *)
Definition d_start (m : list byte) : DeserializeCtx := MkDeserializeCtx m 0 (zlen m).

Lemma d_start_ok m : zlen m < 2 ^ 64 -> d_ok (d_start m).
Proof. intros. unfold d_ok, d_start. cbn. pose proof (zlen_nonneg m). lia. Qed.

Lemma d_start_next m bs rest : m = bs ++ rest -> d_next (d_start m) bs.
Proof.
  intros ->. pose proof (zlen_nonneg rest). pose proof (zlen_nonneg bs). unfold d_next, d_start. cbn.
  rewrite zlen_app. split; [lia|]. rewrite load_in by (rewrite ?zlen_app; lia). rewrite drop_0. unfold zlen.
  by rewrite Nat2Z.id, take_app_length.
Qed.

(** What a deserialiser makes of a buffer that starts with bytes it accepts. *)
Lemma reads_start {A} k (d : Des A) bs P m rest :
  reads k d bs P -> m = bs ++ rest -> k <= zlen rest -> zlen m < 2 ^ 64 ->
  exists a, d (d_start m) = Done a (MkDeserializeCtx m (zlen bs) (zlen rest)) /\ P a.
Proof.
  intros Hd Hm Hk Hlen. pose proof (zlen_nonneg bs). pose proof (zlen_nonneg rest).
  destruct (Hd (d_start m)) as (a & -> & HP);
    [by apply d_start_ok|by eapply d_start_next|unfold d_start; cbn; rewrite Hm, zlen_app; lia|].
  exists a. split; [|done]. unfold d_advance, d_start. cbn. subst m. rewrite zlen_app in *.
  rewrite u64_small by lia. do 2 f_equal; lia.
Qed.

(** What [s] serialises into a buffer with room for it (as the length-only pass tells)
    and [slack] more bytes, [d] accepts; it consumes exactly the bytes written and
    its output satisfies [P]. *)
Definition roundtrip {A} (slack : Z) (s : Ser) (d : Des A) (P : A -> Prop) : Prop :=
  exists n, s (MkSerializeCtx None 0) = Some (MkSerializeCtx None n) /\
  forall buf, n + slack <= zlen buf < 2 ^ 32 ->
  exists m a, s (MkSerializeCtx (Some buf) 0) = Some (MkSerializeCtx (Some m) n) /\
    zlen m = zlen buf /\
    d (d_start m) = Done a (MkDeserializeCtx m n (zlen m - n)) /\ P a.

Lemma roundtrip_intro {A} slack s (d : Des A) bs P :
  writes s bs -> reads slack d bs P -> zlen bs < 2 ^ 32 -> 0 <= slack -> roundtrip slack s d P.
Proof.
  intros Hw Hr Hlen Hk. pose proof (zlen_nonneg bs). exists (zlen bs). split.
  { rewrite Hw; [|unfold s_ok; cbn; lia|cbn; lia]. unfold emit. cbn. by rewrite u32_small by lia. }
  intros buf Hbuf. exists (splice 0 bs buf).
  assert (Hm : splice 0 bs buf = bs ++ drop (length bs) buf) by done.
  assert (Hrest : zlen (drop (length bs) buf) = zlen buf - zlen bs).
  { unfold zlen in *. rewrite length_drop. lia. }
  assert (Hz : zlen (splice 0 bs buf) = zlen buf) by (rewrite Hm, zlen_app; lia).
  destruct (reads_start slack d bs P (splice 0 bs buf) _ Hr Hm) as (a & Hd & HP); [lia|lia|].
  exists a. rewrite Hw; [|unfold s_ok; cbn; lia|cbn; lia]. unfold emit. cbn.
  rewrite (proj2 (Z.leb_le _ _)) by lia. rewrite u32_small by lia.
  split_and!; [done|done| |done]. rewrite Hd, Hrest, Hz. done.
Qed.
