(* ===== verification/Serialization.v ===== *)
(** * Serialisation toolkit

    Models [client_module/source/common/toolkit/Serialization.h] and
    [Serialization.c]: the primitive codecs, strings, 4-byte aligned strings,
    character arrays, NIC lists, node lists, and the list/vector formats, on top
    of the cursors of [Wire.v].  The second half proves what every codec writes,
    what it accepts, and which of them are memory safe on arbitrary input. *)

From S2P Require Import Prelude Wire.

(** ** Primitive codecs ([Serialization.h]) *)

(** Source bytes behind [value] end before [length]: the [memcpy] would read
    outside of the source object (only when there is a buffer to copy to). *)
Definition Serialization_serializeBlock (value : list byte) (length : Z) : Ser := fun c =>
  match s_data c with
  | None => Some (MkSerializeCtx None (u32 (s_length c + length)))
  | Some _ =>
      if zlen value <? length then None
      else emit (take (Z.to_nat length) value) c
  end.

(** [__Serialization_deserializeRaw(ctx, convert, outValue)]; [size] is the size
    of the object that [outValue] points to. *)
Definition __Serialization_deserializeRaw {A} (size : Z) (convert : list byte -> A) : Des A :=
  fun c =>
    if size <=? d_length c then
      match load (d_mem c) (d_data c) size with
      | Some bs => Done (convert bs) (d_advance size c)
      | None => BadRead (d_data c)
      end
    else Refused.

Definition Serialization_serializeChar (value : byte) : Ser := emit [value].
Definition Serialization_deserializeChar : Des byte :=
  __Serialization_deserializeRaw 1 (fun bs => default Byte.x00 (head bs)).

Definition Serialization_serializeBool (value : bool) : Ser :=
  Serialization_serializeChar (if value then Byte.x01 else Byte.x00).
Definition Serialization_deserializeBool : Des bool :=
  charVal ← Serialization_deserializeChar;
  mret (bool_decide (charVal <> Byte.x00)).

Definition Serialization_serializeUInt8 (value : Z) : Ser :=
  Serialization_serializeChar (byte.of_Z value).
Definition Serialization_serialLenUInt8 : Z := 1.
Definition Serialization_deserializeUInt8 : Des Z :=
  charVal ← Serialization_deserializeChar; mret (byte.unsigned charVal).

Definition Serialization_serialLenUShort : Z := 2.
Definition Serialization_serializeUShort (value : Z) : Ser := emit (le_split 2 value).
Definition Serialization_deserializeUShort : Des Z :=
  __Serialization_deserializeRaw 2 le_combine.

Definition Serialization_serializeShort (value : Z) : Ser :=
  Serialization_serializeUShort (u16 value).
Definition Serialization_deserializeShort : Des Z := s16 <$> Serialization_deserializeUShort.

Definition Serialization_serialLenUInt : Z := 4.
Definition Serialization_serializeUInt (value : Z) : Ser := emit (le_split 4 value).
Definition Serialization_deserializeUInt : Des Z :=
  __Serialization_deserializeRaw 4 le_combine.

Definition Serialization_serializeInt (value : Z) : Ser :=
  Serialization_serializeUInt (u32 value).
Definition Serialization_deserializeInt : Des Z := s32 <$> Serialization_deserializeUInt.

Definition Serialization_serialLenUInt64 : Z := 8.
Definition Serialization_serializeUInt64 (value : Z) : Ser := emit (le_split 8 value).
Definition Serialization_deserializeUInt64 : Des Z :=
  __Serialization_deserializeRaw 8 le_combine.

Definition Serialization_serialLenInt64 : Z := Serialization_serialLenUInt64.
Definition Serialization_serializeInt64 (value : Z) : Ser :=
  Serialization_serializeUInt64 (u64 value).
Definition Serialization_deserializeInt64 : Des Z := s64 <$> Serialization_deserializeUInt64.

(** ** Nested fields, strings and arrays ([Serialization.c]) *)

Definition __Serialization_deserializeNestedField : Des DeserializeCtx :=
  length0 ← Serialization_deserializeUInt;
  let length := u32 (length0 - Serialization_serialLenUInt) in
  ctx ← des_get;
  des_check (negb (d_length ctx <? length));;
  let outCtx := MkDeserializeCtx (d_mem ctx) (d_data ctx) length in
  des_advance length;;
  mret outCtx.

Definition Serialization_serializeStr (strLen : Z) (strStart : list byte) : Ser :=
  Serialization_serializeUInt strLen +>
  Serialization_serializeBlock strStart strLen +>
  Serialization_serializeChar Byte.x00.

(** [ctx->length < *outStrLen + 1 || ctx->data[*outStrLen] != 0], shared by the
    two string deserialisers; the sum is an [unsigned] sum.  The returned string
    is the [*outStrLen] bytes from [*outStrStart] on. *)
Definition deserialize_terminated (outStrLen : Z) : Des (list byte) :=
  ctx ← des_get;
  des_check (negb (d_length ctx <? u32 (outStrLen + 1)));;
  b ← des_peek (d_data ctx + outStrLen);
  des_check (bool_decide (b = Byte.x00));;
  des_advance (u32 (outStrLen + 1));;
  mret (take (Z.to_nat outStrLen) (drop (Z.to_nat (d_data ctx)) (d_mem ctx))).

Definition Serialization_deserializeStr : Des (Z * list byte) :=
  outStrLen ← Serialization_deserializeUInt;
  outStrStart ← deserialize_terminated outStrLen;
  mret (outStrLen, outStrStart).

Definition Serialization_serializeCharArray (arrLen : Z) (arrStart : list byte) : Ser :=
  Serialization_serializeUInt arrLen +>
  Serialization_serializeBlock arrStart arrLen.

Definition Serialization_deserializeCharArray : Des (Z * list byte) :=
  outElemNum ← Serialization_deserializeUInt;
  ctx ← des_get;
  des_check (negb (d_length ctx <? outElemNum));;
  des_advance outElemNum;;
  mret (outElemNum, take (Z.to_nat outElemNum) (drop (Z.to_nat (d_data ctx)) (d_mem ctx))).

Definition Serialization_serializeStrAlign4 (strLen : Z) (strStart : list byte) : Ser :=
  Serialization_serializeUInt strLen +>
  Serialization_serializeBlock strStart strLen +>
  Serialization_serializeChar Byte.x00 +>
  ser_if (negb (u32 (strLen + 1) mod 4 =? 0))
    (Serialization_serializeBlock [Byte.x00; Byte.x00; Byte.x00; Byte.x00]
       (4 - u32 (strLen + 1) mod 4)).

Definition Serialization_deserializeStrAlign4 : Des (Z * list byte) :=
  bufAtStart ← des_get;
  outStrLen ← Serialization_deserializeUInt;
  outStrStart ← deserialize_terminated outStrLen;
  ctx ← des_get;
  let padding := (d_data ctx - d_data bufAtStart) mod 4 in
  (if padding =? 0 then mret tt
   else des_check (negb (d_length ctx <? padding));; des_advance (4 - padding));;
  mret (outStrLen, outStrStart).

(** ** NIC lists *)

Definition SERIALIZATION_NICLISTELEM_NAME_SIZE : Z := 16.
Definition IFNAMSIZ : Z := 16.

(** [struct NicAddress]: [ipAddr] is the 16 bytes of [struct in6_addr] in network
    order, [name] the [IFNAMSIZ] bytes of the interface name array. *)
Record NicAddress := MkNicAddress {
  nic_ipAddr : list byte;
  nic_nicType : Z;
  nic_name : list byte
}.

(** First 12 bytes of an IPv4-mapped IPv6 address. *)
Definition v4mapped_prefix : list byte := replicate 10 Byte.x00 ++ [Byte.xff; Byte.xff].
Definition ipv6_addr_v4mapped (addr : list byte) : bool :=
  bool_decide (take 12 addr = v4mapped_prefix).
Definition beegfs_mapped_ipv4 (addr : list byte) : list byte := v4mapped_prefix ++ addr.

Definition minNameSize : Z := Z.min IFNAMSIZ SERIALIZATION_NICLISTELEM_NAME_SIZE.

Definition serialize_nic (nicAddr : NicAddress) : Ser :=
  (if ipv6_addr_v4mapped (nic_ipAddr nicAddr)
   then Serialization_serializeUInt8 4 +>
        Serialization_serializeBlock (drop 12 (nic_ipAddr nicAddr)) 4
   else Serialization_serializeUInt8 6 +>
        Serialization_serializeBlock (nic_ipAddr nicAddr) 16) +>
  Serialization_serializeBlock (nic_name nicAddr) minNameSize +>
  Serialization_serializeBlock (le_split 4 (nic_nicType nicAddr)) 1 +>
  Serialization_serializeBlock [Byte.x00; Byte.x00; Byte.x00] 2.

Definition Serialization_serializeNicList (nicList : list NicAddress) : Ser :=
  ser_patched
    (Serialization_serializeUInt 4294967295 +>
     Serialization_serializeUInt (u32 (zlen nicList)) +>
     ser_each serialize_nic nicList)
    Serialization_serializeUInt.

Definition Serialization_deserializeNicListPreprocess : Des RawList :=
  length0 ← Serialization_deserializeUInt;
  elemCount ← Serialization_deserializeUInt;
  ctx ← des_get;
  let length := u32 (length0 - 8) in
  des_check (negb (d_length ctx <? length));;
  des_advance length;;
  mret (MkRawList (d_mem ctx) (d_data ctx) length elemCount).

(** The loop of [Serialization_deserializeNicList] from [currentNicListPos] on;
    an unknown protocol byte ends it with the elements found so far. *)
Fixpoint deserialize_nics (m : list byte) (n : nat) (currentNicListPos : Z) : Des (list NicAddress) :=
  match n with
  | O => mret []
  | S n' =>
      protocol ← des_load m currentNicListPos 1;
      let pos := currentNicListPos + 1 in
      let rest (ipAddr : list byte) (pos : Z) : Des (list NicAddress) :=
        name ← des_load m pos minNameSize;
        nicType ← des_load m (pos + SERIALIZATION_NICLISTELEM_NAME_SIZE) 1;
        l ← deserialize_nics m n' (pos + SERIALIZATION_NICLISTELEM_NAME_SIZE + 1 + 2);
        mret (MkNicAddress ipAddr (s8 (le_combine nicType))
                (take (Z.to_nat (minNameSize - 1)) name ++ [Byte.x00]) :: l) in
      if le_combine protocol =? 4 then
        addr ← des_load m pos 4;
        rest (beegfs_mapped_ipv4 addr) (pos + 4)
      else if le_combine protocol =? 6 then
        addr ← des_load m pos 16;
        rest addr (pos + 16)
      else mret []
  end.

Definition Serialization_deserializeNicList (inList : RawList) : Des (list NicAddress) :=
  deserialize_nics (rl_mem inList) (Z.to_nat (rl_elemCount inList)) (rl_data inList).

(** ** Node lists *)

(** One element of the node list format, as [Node_InitParams] receives it. *)
Record NodeParams := MkNodeParams {
  np_nodeID : list byte;
  np_nicList : RawList;
  np_nodeNumID : Z;
  np_portUDP : Z;
  np_portTCP : Z;
  np_nodeType : byte
}.

Definition deserialize_node : Des NodeParams :=
  '(_, nodeID) ← Serialization_deserializeStr;
  nicList ← Serialization_deserializeNicListPreprocess;
  nodeNumID ← Serialization_deserializeUInt; (* NumNodeID_deserialize *)
  portUDP ← Serialization_deserializeUShort;
  portTCP ← Serialization_deserializeUShort;
  nodeType ← Serialization_deserializeChar;
  mret (MkNodeParams (cstr nodeID) nicList nodeNumID portUDP portTCP nodeType).

(** [outList->length] is not assigned by the code (and not used). *)
Definition Serialization_deserializeNodeListPreprocess : Des RawList :=
  elemCount ← Serialization_deserializeUInt;
  ctx ← des_get;
  des_times (Z.to_nat elemCount) deserialize_node;;
  mret (MkRawList (d_mem ctx) (d_data ctx) 0 elemCount).

(** ** Lists and vectors *)

(** Common shape of the list serialisers: total length, element count, elements;
    the length field is fixed at the end. *)
Definition serialize_list {A} (f : A -> Ser) (l : list A) : Ser :=
  ser_patched
    (Serialization_serializeUInt 0 +>
     Serialization_serializeUInt (u32 (zlen l)) +>
     ser_each f l)
    Serialization_serializeUInt.

(** Elements are C strings: [strlen] bytes and the terminating zero. *)
Definition Serialization_serializeStrCpyList (l : list (list byte)) : Ser :=
  serialize_list (fun currentElem =>
    Serialization_serializeBlock (cstr currentElem ++ [Byte.x00]) (strlen currentElem + 1)) l.

Definition Serialization_deserializeStrCpyListPreprocess : Des RawList :=
  outCtx ← __Serialization_deserializeNestedField;
  '(elemCount, outCtx) ← des_in outCtx Serialization_deserializeUInt;
  (if elemCount =? 0 then mret tt
   else
     b ← des_load (d_mem outCtx) (d_data outCtx + d_length outCtx - 1) 1;
     des_check (bool_decide (b = [Byte.x00])));;
  mret (MkRawList (d_mem outCtx) (d_data outCtx) (u32 (d_length outCtx)) elemCount).

(** [strlen(listStart)]; [None] when there is no NUL up to the end of the object. *)
Fixpoint strlen_mem (m : list byte) : option nat :=
  match m with
  | [] => None
  | b :: m' => if decide (b = Byte.x00) then Some O else S <$> strlen_mem m'
  end.

Fixpoint deserialize_strings (m : list byte) (n : nat) (listStart listBufLen : Z) :
    Des (list (list byte)) :=
  match n with
  | O => mret []
  | S n' =>
      if listBufLen <=? 0 then des_refuse
      else match strlen_mem (drop (Z.to_nat listStart) m) with
           | None => fun _ => BadRead (zlen m)
           | Some elemLen =>
               l ← deserialize_strings m n' (listStart + Z.of_nat elemLen + 1)
                     (u32 (listBufLen - (Z.of_nat elemLen + 1)));
               mret (take elemLen (drop (Z.to_nat listStart) m) :: l)
           end
  end.

Definition Serialization_deserializeStrCpyList (inList : RawList) : Des (list (list byte)) :=
  deserialize_strings (rl_mem inList) (Z.to_nat (rl_elemCount inList))
    (rl_data inList) (rl_length inList).

Definition Serialization_serializeStrCpyVec : list (list byte) -> Ser :=
  Serialization_serializeStrCpyList.
Definition Serialization_deserializeStrCpyVecPreprocess : Des RawList :=
  Serialization_deserializeStrCpyListPreprocess.
Definition Serialization_deserializeStrCpyVec (inList : RawList) : Des (list (list byte)) :=
  deserialize_strings (rl_mem inList) (Z.to_nat (rl_elemCount inList))
    (rl_data inList) (rl_length inList).

(** Lists of fixed-size elements. *)
Definition deserialize_list_preprocess (elemSize : Z) : Des RawList :=
  outCtx ← __Serialization_deserializeNestedField;
  '(elemCount, outCtx) ← des_in outCtx Serialization_deserializeUInt;
  des_check (d_length outCtx =? u32 (elemCount * elemSize));;
  mret (MkRawList (d_mem outCtx) (d_data outCtx) (u32 (d_length outCtx)) elemCount).

Definition deserialize_list {A} (d : Des A) (inList : RawList) : Des (list A) :=
  fst <$> des_in (MkDeserializeCtx (rl_mem inList) (rl_data inList) (rl_length inList))
    (des_times (Z.to_nat (rl_elemCount inList)) d).

Definition Serialization_deserializeUInt8ListPreprocess : Des RawList :=
  deserialize_list_preprocess Serialization_serialLenUInt8.
Definition Serialization_deserializeUInt8List : RawList -> Des (list Z) :=
  deserialize_list Serialization_deserializeUInt8.
Definition Serialization_deserializeUInt8VecPreprocess : Des RawList :=
  Serialization_deserializeUInt8ListPreprocess.
Definition Serialization_deserializeUInt8Vec : RawList -> Des (list Z) :=
  deserialize_list Serialization_deserializeUInt8.

Definition Serialization_serializeUInt16List (l : list Z) : Ser :=
  serialize_list Serialization_serializeUShort l.
Definition Serialization_deserializeUInt16ListPreprocess : Des RawList :=
  deserialize_list_preprocess Serialization_serialLenUShort.
Definition Serialization_deserializeUInt16List : RawList -> Des (list Z) :=
  deserialize_list Serialization_deserializeUShort.
Definition Serialization_serializeUInt16Vec : list Z -> Ser := Serialization_serializeUInt16List.
Definition Serialization_deserializeUInt16VecPreprocess : Des RawList :=
  Serialization_deserializeUInt16ListPreprocess.
Definition Serialization_deserializeUInt16Vec : RawList -> Des (list Z) :=
  deserialize_list Serialization_deserializeUShort.

Definition Serialization_serializeInt64CpyList (l : list Z) : Ser :=
  serialize_list Serialization_serializeInt64 l.
Definition Serialization_deserializeInt64CpyListPreprocess : Des RawList :=
  deserialize_list_preprocess Serialization_serialLenInt64.
Definition Serialization_deserializeInt64CpyList : RawList -> Des (list Z) :=
  deserialize_list Serialization_deserializeInt64.
Definition Serialization_serializeInt64CpyVec : list Z -> Ser :=
  Serialization_serializeInt64CpyList.
Definition Serialization_deserializeInt64CpyVecPreprocess : Des RawList :=
  Serialization_deserializeInt64CpyListPreprocess.
Definition Serialization_deserializeInt64CpyVec : RawList -> Des (list Z) :=
  deserialize_list Serialization_deserializeInt64.

(** ** Generated codecs ([SERDES_DEFINE_LIST_SERIALIZERS]) *)

Section serdes_list.
Context {A : Type} (HasLength : bool) (TypeNS_serialize : A -> Ser) (TypeNS_deserialize : Des A).

Definition serdes_list_serialize (l : list A) : Ser :=
  ser_patched
    (ser_if HasLength (Serialization_serializeUInt 0) +>
     Serialization_serializeUInt 0 +>
     ser_each TypeNS_serialize l)
    (fun total =>
       ser_if HasLength (Serialization_serializeUInt total) +>
       Serialization_serializeUInt (u32 (zlen l))).

(** Elements are spliced to the end of [l] only when all of them decode. *)
Definition serdes_list_deserialize (l : list A) : Des (list A) :=
  if HasLength then
    innerCtx ← __Serialization_deserializeNestedField;
    '(desItems, _) ← des_in innerCtx
      (items ← Serialization_deserializeUInt;
       des_times (Z.to_nat items) TypeNS_deserialize);
    mret (l ++ desItems)
  else
    items ← Serialization_deserializeUInt;
    desItems ← des_times (Z.to_nat items) TypeNS_deserialize;
    mret (l ++ desItems).
End serdes_list.
