(* ===== verification/SerializationFacts.v ===== *)
(** * Serialisation toolkit: formats, round trips and memory safety

    For each codec of [Serialization.v]: the byte format it writes ([writes]),
    the bytes it accepts ([reads]) and its behaviour on arbitrary input
    ([triple]). *)

From S2P Require Import Prelude Wire Serialization.

(** ** Formats *)

Definition enc_bool (b : bool) : list byte := [if b then Byte.x01 else Byte.x00].
(** Length field, bytes, terminating zero. *)
Definition enc_str (s : list byte) : list byte := le_split 4 (zlen s) ++ s ++ [Byte.x00].
Definition pad4 (n : Z) : list byte := replicate (Z.to_nat ((- n) mod 4)) Byte.x00.
Definition enc_strAlign4 (s : list byte) : list byte :=
  le_split 4 (zlen s) ++ s ++ [Byte.x00] ++ pad4 (zlen s + 1).
Definition enc_charArray (s : list byte) : list byte := le_split 4 (zlen s) ++ s.
(** Total length (own field included), element count, elements. *)
Definition enc_list {A} (g : A -> list byte) (l : list A) : list byte :=
  le_split 4 (8 + zlen (l ≫= g)) ++ le_split 4 (zlen l) ++ (l ≫= g).
Definition enc_cstr (s : list byte) : list byte := cstr s ++ [Byte.x00].
Definition enc_nic (n : NicAddress) : list byte :=
  (if ipv6_addr_v4mapped (nic_ipAddr n)
   then le_split 1 4 ++ drop 12 (nic_ipAddr n)
   else le_split 1 6 ++ nic_ipAddr n) ++
  nic_name n ++ le_split 1 (nic_nicType n) ++ [Byte.x00; Byte.x00].

(** The bytes of an object that fits the [NicAddress] struct. *)
Definition nic_ok (n : NicAddress) : Prop :=
  zlen (nic_ipAddr n) = 16 /\ zlen (nic_name n) = IFNAMSIZ /\
  in_s 8 (nic_nicType n) /\ nic_name n !! 15%nat = Some Byte.x00.

(** ** Primitive codecs *)

Lemma writes_block bs n : n = zlen bs -> writes (Serialization_serializeBlock bs n) bs.
Proof.
  intros -> c Hok Hlt. unfold Serialization_serializeBlock, emit.
  destruct (s_data c) as [m|]; [|done].
  rewrite (proj2 (Z.ltb_ge _ _)) by lia. rewrite take_ge; [done|]. unfold zlen. lia.
Qed.

Lemma writes_block_take bs n :
  0 <= n <= zlen bs ->
  writes (Serialization_serializeBlock bs n) (take (Z.to_nat n) bs).
Proof.
  intros Hn c Hok Hlt.
  assert (Hl : zlen (take (Z.to_nat n) bs) = n).
  { unfold zlen in *. rewrite length_take. lia. }
  unfold Serialization_serializeBlock.
  rewrite (proj2 (Z.ltb_ge _ _)) by lia. unfold emit. rewrite Hl.
  by destruct (s_data c).
Qed.

Lemma le_split_1 z : le_split 1 z = [byte.of_Z z].
Proof. done. Qed.

Lemma writes_char b : writes (Serialization_serializeChar b) [b].
Proof. done. Qed.
Lemma writes_bool b : writes (Serialization_serializeBool b) (enc_bool b).
Proof. done. Qed.
Lemma writes_u8 v : writes (Serialization_serializeUInt8 v) (le_split 1 v).
Proof. done. Qed.
Lemma writes_u16 v : writes (Serialization_serializeUShort v) (le_split 2 v).
Proof. done. Qed.
Lemma writes_s16 v : writes (Serialization_serializeShort v) (le_split 2 v).
Proof.
  unfold Serialization_serializeShort, u16.
  rewrite (LittleEndianList.le_split_mod v). apply writes_u16.
Qed.
Lemma writes_u32 v : writes (Serialization_serializeUInt v) (le_split 4 v).
Proof. done. Qed.
Lemma writes_s32 v : writes (Serialization_serializeInt v) (le_split 4 v).
Proof.
  unfold Serialization_serializeInt, u32.
  rewrite (LittleEndianList.le_split_mod v). apply writes_u32.
Qed.
Lemma writes_u64 v : writes (Serialization_serializeUInt64 v) (le_split 8 v).
Proof. done. Qed.
Lemma writes_s64 v : writes (Serialization_serializeInt64 v) (le_split 8 v).
Proof.
  unfold Serialization_serializeInt64, u64.
  rewrite (LittleEndianList.le_split_mod v). apply writes_u64.
Qed.

#[export] Hint Resolve writes_char writes_bool writes_u8 writes_u16 writes_s16
  writes_u32 writes_s32 writes_u64 writes_s64 : wire.

Lemma reads_raw {A} size (convert : list byte -> A) bs :
  zlen bs = size ->
  reads 0 (__Serialization_deserializeRaw size convert) bs (fun a => a = convert bs).
Proof.
  intros <- c Hok [Hl Hld] _. eexists. split; [|done].
  unfold __Serialization_deserializeRaw.
  by rewrite (proj2 (Z.leb_le _ _)), Hld by done.
Qed.

Lemma triple_raw {A} F size (convert : list byte -> A) :
  0 <= size ->
  triple F (__Serialization_deserializeRaw size convert)
    (fun a => exists bs, zlen bs = size /\ a = convert bs).
Proof.
  intros Hs c Hok. unfold __Serialization_deserializeRaw.
  destruct (Z.leb_spec size (d_length c)); [|done].
  pose proof Hok as (?&?&?). rewrite load_in by lia.
  split; [apply d_advance_ok; [done|lia]|]. eexists. split; [|done].
  unfold zlen in *. rewrite length_take, length_drop. lia.
Qed.

Lemma reads_char b : reads 0 Serialization_deserializeChar [b] (fun a => a = b).
Proof. by apply (reads_raw 1). Qed.

Lemma reads_le n v : reads 0 (__Serialization_deserializeRaw (Z.of_nat n) le_combine)
  (le_split n v) (fun a => a = v mod 2 ^ (Z.of_nat n * 8)).
Proof.
  eapply reads_mono; [apply reads_raw, zlen_le_split|done|].
  intros ? ->. apply LittleEndianList.le_combine_split.
Qed.

Lemma reads_u16 v : in_u 16 v -> reads 0 Serialization_deserializeUShort (le_split 2 v) (fun a => a = v).
Proof. intros Hv. eapply reads_mono; [apply (reads_le 2)|done|]. intros ? ->. by apply Z.mod_small. Qed.
Lemma reads_u32 v : in_u 32 v -> reads 0 Serialization_deserializeUInt (le_split 4 v) (fun a => a = v).
Proof. intros Hv. eapply reads_mono; [apply (reads_le 4)|done|]. intros ? ->. by apply Z.mod_small. Qed.
Lemma reads_u64 v : in_u 64 v -> reads 0 Serialization_deserializeUInt64 (le_split 8 v) (fun a => a = v).
Proof. intros Hv. eapply reads_mono; [apply (reads_le 8)|done|]. intros ? ->. by apply Z.mod_small. Qed.
Lemma reads_s16 v : in_s 16 v -> reads 0 Serialization_deserializeShort (le_split 2 v) (fun a => a = v).
Proof.
  intros Hv. eapply reads_fmap; [apply (reads_le 2)|]. intros ? ->. by apply signed_inv.
Qed.
Lemma reads_s32 v : in_s 32 v -> reads 0 Serialization_deserializeInt (le_split 4 v) (fun a => a = v).
Proof.
  intros Hv. eapply reads_fmap; [apply (reads_le 4)|]. intros ? ->. by apply signed_inv.
Qed.
Lemma reads_s64 v : in_s 64 v -> reads 0 Serialization_deserializeInt64 (le_split 8 v) (fun a => a = v).
Proof.
  intros Hv. eapply reads_fmap; [apply (reads_le 8)|]. intros ? ->. by apply signed_inv.
Qed.
Lemma reads_u8 v : in_u 8 v -> reads 0 Serialization_deserializeUInt8 (le_split 1 v) (fun a => a = v).
Proof.
  intros Hv. rewrite le_split_1. eapply reads_last; [apply reads_char|].
  intros ? ->. apply reads_ret. rewrite byte.unsigned_of_Z. by apply Z.mod_small.
Qed.
Lemma reads_bool b : reads 0 Serialization_deserializeBool (enc_bool b) (fun a => a = b).
Proof.
  unfold enc_bool. eapply reads_last; [apply reads_char|].
  intros ? ->. apply reads_ret. by destruct b.
Qed.


Lemma triple_le F n : triple F (__Serialization_deserializeRaw (Z.of_nat n) le_combine)
  (fun v => in_u (8 * Z.of_nat n) v).
Proof.
  eapply triple_mono; [apply triple_raw; lia|done|].
  intros ? (bs & Hl & ->). pose proof (LittleEndianList.le_combine_bound bs) as Hb.
  unfold zlen in Hl. unfold in_u. by rewrite <- Hl.
Qed.
Lemma triple_u16 F : triple F Serialization_deserializeUShort (in_u 16).
Proof. apply (triple_le F 2). Qed.
Lemma triple_u32 F : triple F Serialization_deserializeUInt (in_u 32).
Proof. apply (triple_le F 4). Qed.
Lemma triple_u64 F : triple F Serialization_deserializeUInt64 (in_u 64).
Proof. apply (triple_le F 8). Qed.
Lemma signed_range w z : 0 < w -> in_s w (signed w z).
Proof.
  intros Hw. unfold signed, in_s.
  assert (Hpow : 2 ^ w = 2 * 2 ^ (w - 1)).
  { rewrite <- Z.pow_succ_r by lia. f_equal. lia. }
  pose proof (Z.mod_pos_bound z (2 ^ w)).
  assert (0 < 2 ^ w) by (apply Z.pow_pos_nonneg; lia).
  destruct (Z.ltb_spec (z mod 2 ^ w) (2 ^ (w - 1))); lia.
Qed.
Lemma triple_s16 F : triple F Serialization_deserializeShort (in_s 16).
Proof. eapply triple_fmap; [apply triple_u16|]. intros. by apply signed_range. Qed.
Lemma triple_s32 F : triple F Serialization_deserializeInt (in_s 32).
Proof. eapply triple_fmap; [apply triple_u32|]. intros. by apply signed_range. Qed.
Lemma triple_s64 F : triple F Serialization_deserializeInt64 (in_s 64).
Proof. eapply triple_fmap; [apply triple_u64|]. intros. by apply signed_range. Qed.
Lemma triple_char F : triple F Serialization_deserializeChar (fun _ => True).
Proof. eapply triple_mono; [by apply triple_raw|done|done]. Qed.
Lemma triple_u8 F : triple F Serialization_deserializeUInt8 (in_u 8).
Proof.
  eapply triple_bind; [apply triple_char|]. intros b _. apply triple_ret.
  apply byte.unsigned_range.
Qed.
Lemma triple_bool F : triple F Serialization_deserializeBool (fun _ => True).
Proof. eapply triple_bind; [apply triple_char|]. intros b _. by apply triple_ret. Qed.

#[export] Hint Resolve reads_char reads_u8 reads_u16 reads_u32 reads_u64 reads_s16 reads_s32
  reads_s64 reads_bool : wire.
#[export] Hint Resolve triple_char triple_u8 triple_u16 triple_u32 triple_u64 triple_s16
  triple_s32 triple_s64 triple_bool : wire.

(** ** Strings and character arrays *)

Lemma writes_str s n : n = zlen s -> writes (Serialization_serializeStr n s) (enc_str s).
Proof. intros ->. unfold enc_str. eauto using writes_block with wire. Qed.

Lemma writes_charArray s n : n = zlen s -> writes (Serialization_serializeCharArray n s) (enc_charArray s).
Proof. intros ->. unfold enc_charArray. eauto using writes_block with wire. Qed.

(** The padding block of the aligned strings. *)
Lemma writes_pad4 n : 0 <= n -> n < 2 ^ 32 ->
  writes (ser_if (negb (u32 n mod 4 =? 0))
    (Serialization_serializeBlock [Byte.x00; Byte.x00; Byte.x00; Byte.x00] (4 - u32 n mod 4)))
    (pad4 n).
Proof.
  intros ??. rewrite u32_small by lia. pose proof (Z.mod_pos_bound n 4).
  unfold pad4. destruct (Z.eqb_spec (n mod 4) 0) as [E|E]; cbn [negb ser_if].
  - rewrite Z.mod_opp_l_z by done. apply writes_skip.
  - rewrite Z.mod_opp_l_nz by done.
    eapply writes_eq; [apply writes_block_take; unfold zlen; cbn [length]; lia|].
    assert (n mod 4 = 1 \/ n mod 4 = 2 \/ n mod 4 = 3) as [->|[->| ->]] by lia; done.
Qed.

Lemma writes_strAlign4 s n :
  n = zlen s -> zlen s + 1 < 2 ^ 32 ->
  writes (Serialization_serializeStrAlign4 n s) (enc_strAlign4 s).
Proof.
  intros -> ?. pose proof (zlen_nonneg s).
  repeat apply writes_seq; auto using writes_block with wire. apply writes_pad4; lia.
Qed.

Lemma load_take m addr a b :
  load m addr (zlen (a ++ b)) = Some (a ++ b) ->
  take (length a) (drop (Z.to_nat addr) m) = a.
Proof.
  intros [Ha _]%load_app. unfold load in Ha. destruct (_ && _); [|done].
  injection Ha as Ha. unfold zlen in Ha. by rewrite Nat2Z.id in Ha.
Qed.

Lemma reads_terminated s :
  zlen s + 1 < 2 ^ 32 ->
  reads 0 (deserialize_terminated (zlen s)) (s ++ [Byte.x00]) (fun a => a = s).
Proof.
  intros Hs c Hok [Hl Hld] _. pose proof (zlen_nonneg s). rewrite zlen_app in Hl.
  change (zlen [Byte.x00]) with 1 in Hl. pose proof (load_app _ _ _ _ Hld) as [_ Hz].
  exists s. split; [|done]. unfold deserialize_terminated, mbind, Des_bind, des_get, mret, Des_ret.
  rewrite u32_small by lia. unfold des_check. rewrite (proj2 (Z.ltb_ge _ _)) by lia.
  change (zlen [Byte.x00]) with 1 in Hz. cbn [negb]. unfold des_peek. rewrite Hz.
  rewrite bool_decide_true by done. unfold des_advance. f_equal; [|by rewrite zlen_app].
  unfold zlen at 1. rewrite Nat2Z.id. by eapply load_take.
Qed.

Lemma reads_str s :
  zlen s + 1 < 2 ^ 32 ->
  reads 0 Serialization_deserializeStr (enc_str s) (fun p => p = (zlen s, s)).
Proof.
  intros Hs. pose proof (zlen_nonneg s). unfold enc_str.
  eapply reads_bind; [apply reads_u32; unfold in_u; lia| |zlia]. intros ? ->.
  eapply reads_last; [by apply reads_terminated|]. intros ? ->. by apply reads_ret.
Qed.

Lemma reads_charArray s :
  zlen s < 2 ^ 32 ->
  reads 0 Serialization_deserializeCharArray (enc_charArray s) (fun p => p = (zlen s, s)).
Proof.
  intros Hs. pose proof (zlen_nonneg s). unfold enc_charArray.
  eapply reads_bind; [apply reads_u32; unfold in_u; lia| |zlia]. intros ? ->.
  intros c Hok [Hl Hld] _. exists (zlen s, s). split; [|done].
  unfold mbind, Des_bind, des_get, des_check, des_advance, mret, Des_ret.
  rewrite (proj2 (Z.ltb_ge _ _)) by lia. cbn [negb]. do 2 f_equal.
  unfold zlen at 1. rewrite Nat2Z.id. rewrite <- (app_nil_r s) in Hld. by eapply load_take.
Qed.

(** The aligned format is accepted when at least two more bytes follow: with three
    bytes in the last group the code asks for three bytes where one is padding. *)
Lemma reads_strAlign4 s :
  zlen s + 1 < 2 ^ 32 ->
  reads 2 Serialization_deserializeStrAlign4 (enc_strAlign4 s) (fun p => p = (zlen s, s)).
Proof.
  intros Hs. pose proof (zlen_nonneg s) as Hn. unfold enc_strAlign4. intros c Hok Hnext Hlen.
  replace (le_split 4 (zlen s) ++ s ++ [Byte.x00] ++ pad4 (zlen s + 1))
    with (enc_str s ++ pad4 (zlen s + 1)) in *
    by (unfold enc_str; by rewrite <- !app_assoc).
  assert (Hbody : zlen (enc_str s) = zlen s + 5) by (unfold enc_str; zlia).
  pose proof (d_next_app _ _ _ Hok Hnext) as [Hb [Hp _]]. pose proof (proj1 Hb) as Hlb.
  destruct (reads_str s Hs c Hok Hb) as (p & Hd & ->); [lia|].
  exists (zlen s, s). split; [|done]. rewrite zlen_app in *.
  unfold Serialization_deserializeStr, mbind, Des_bind in Hd.
  unfold Serialization_deserializeStrAlign4, mbind, Des_bind, des_get.
  destruct (Serialization_deserializeUInt c) as [L c1| |] eqn:E1; [|done..].
  destruct (deserialize_terminated L c1) as [s' c2| |]; [|done..].
  injection Hd as -> -> ->. rewrite Hbody in *.
  replace (d_data (d_advance (zlen s + 5) c) - d_data c) with (zlen s + 1 + 1 * 4)
    by (cbn; lia).
  rewrite Z.mod_add by done. unfold pad4 in *. pose proof (Z.mod_pos_bound (zlen s + 1) 4).
  rewrite zlen_replicate in *.
  destruct (Z.eqb_spec ((zlen s + 1) mod 4) 0) as [E|E].
  - rewrite Z.mod_opp_l_z by done. cbn. by rewrite Z.add_0_r.
  - rewrite Z.mod_opp_l_nz, Z2Nat.id in * by lia. unfold des_check.
    pose proof Hok as (_&?&_). rewrite (proj2 (Z.ltb_ge _ _)).
    2: { unfold d_advance. cbn [d_length]. rewrite u64_small; lia. }
    cbn [negb]. unfold des_advance. by rewrite d_advance_advance.
Qed.

(** *** Safety of strings

    The only out-of-bounds access of the string deserialisers is the terminator
    check with a length field of [0xFFFFFFFF], at least 4 GiB behind the object. *)
Definition str_fault (addr : Z) : Prop := 2 ^ 32 - 1 <= addr.

Lemma d_ok_byte c i : d_ok c -> 0 <= i < d_length c ->
  exists b, load (d_mem c) (d_data c + i) 1 = Some [b].
Proof.
  intros (?&?&?) ?. rewrite load_in by lia.
  destruct (drop (Z.to_nat (d_data c + i)) (d_mem c)) as [|b r] eqn:E; [|by exists b].
  apply (f_equal length) in E. rewrite length_drop in E. unfold zlen in *. cbn in E. lia.
Qed.

Lemma triple_terminated L :
  in_u 32 L -> triple str_fault (deserialize_terminated L)
    (fun s => zlen s <= L /\ (L < 2 ^ 32 - 1 -> zlen s = L)).
Proof.
  intros [HL0 HL] c Hok. pose proof Hok as (?&?&?).
  unfold deserialize_terminated, mbind, Des_bind, des_get, des_check.
  destruct (Z.ltb_spec (d_length c) (u32 (L + 1))) as [|Hlen]; [done|]. cbn [negb].
  destruct (decide (L = 2 ^ 32 - 1)) as [->|HL'].
  - unfold des_peek. unfold str_fault. destruct (load _ _ _) as [[|b [|]]|]; try lia.
    destruct (bool_decide _); [|done].
    split; [|split; [|lia]].
    + apply d_advance_ok; [done|]. change (u32 (2 ^ 32 - 1 + 1)) with 0. lia.
    + unfold zlen. rewrite length_take. lia.
  - rewrite u32_small in * by lia.
    destruct (d_ok_byte c L Hok) as [b Hb]; [lia|].
    unfold des_peek. rewrite Hb. destruct (bool_decide _); [|done].
    split; [apply d_advance_ok; [done|lia]|].
    unfold zlen in *. rewrite length_take, length_drop. lia.
Qed.

Lemma triple_str : triple str_fault Serialization_deserializeStr (fun '(n, s) => in_u 32 n /\ zlen s <= n).
Proof.
  eapply triple_bind; [apply triple_u32|]. intros L HL.
  eapply triple_bind; [by apply triple_terminated|]. intros s [Hs _]. by apply triple_ret.
Qed.

Lemma triple_charArray F :
  triple F Serialization_deserializeCharArray (fun '(n, s) => in_u 32 n /\ zlen s = n).
Proof.
  eapply triple_bind; [apply triple_u32|]. intros n [Hn0 Hn] c Hok. pose proof Hok as (?&?&?).
  unfold mbind, Des_bind, des_get, des_check.
  destruct (Z.ltb_spec (d_length c) n); [done|]. cbn [negb].
  split; [by apply d_advance_ok|]. split; [done|].
  unfold zlen in *. rewrite length_take, length_drop. lia.
Qed.

Lemma triple_nested F : triple F __Serialization_deserializeNestedField
  (fun inner => d_ok inner /\ d_length inner < 2 ^ 32).
Proof.
  eapply triple_bind; [apply triple_u32|]. intros n Hn c Hok. pose proof Hok as (?&?&?).
  unfold mbind, Des_bind, des_get, des_check. cbv zeta.
  pose proof (u32_range (n - Serialization_serialLenUInt)).
  destruct (Z.ltb_spec (d_length c) (u32 (n - Serialization_serialLenUInt))); [done|].
  cbn [negb]. split; [by apply d_advance_ok; [|lia]|].
  unfold d_ok. cbn [d_data d_length d_mem]. lia.
Qed.

(** ** Lists: safety *)

(** A raw list inside of its object. *)
Definition rl_ok (rl : RawList) : Prop :=
  0 <= rl_data rl /\ in_u 32 (rl_length rl) /\ in_u 32 (rl_elemCount rl) /\
  rl_data rl + rl_length rl <= zlen (rl_mem rl).

Lemma triple_in_u32 F inner : d_ok inner ->
  triple F (des_in inner Serialization_deserializeUInt)
    (fun '(n, inner') => in_u 32 n /\ inner' = d_advance 4 inner /\ d_ok inner' /\
                         4 <= d_length inner).
Proof.
  intros Hi c Hok. unfold des_in. pose proof (triple_u32 F inner Hi) as Ht.
  revert Ht. unfold Serialization_deserializeUInt, __Serialization_deserializeRaw.
  destruct (Z.leb_spec 4 (d_length inner)); [|done].
  destruct (load _ _ _); [|done]. intros [??]. done.
Qed.

Lemma triple_list_preprocess F elemSize :
  triple F (deserialize_list_preprocess elemSize) rl_ok.
Proof.
  eapply triple_bind; [apply triple_nested|]. intros outCtx [Hout Hout32].
  eapply triple_bind; [by apply triple_in_u32|]. intros [n inner'] (Hn & -> & Hok' & ?).
  eapply triple_bind; [by apply (triple_check _ _ (fun _ => (d_length (d_advance 4 outCtx) =? u32 (n * elemSize)) = true))|].
  cbn beta. intros _ E%Z.eqb_eq. apply triple_ret. pose proof Hok' as (?&?&?).
  pose proof (u32_range (n * elemSize)).
  unfold rl_ok. cbn [rl_data rl_length rl_elemCount rl_mem].
  rewrite u32_small by lia. unfold in_u in *. lia.
Qed.

Lemma triple_list {A} F (d : Des A) rl P :
  rl_ok rl -> triple F d P -> triple F (deserialize_list d rl) (fun l => Forall P l).
Proof.
  intros (?&Hl&?&?) Hd. eapply triple_fmap; [apply triple_in|].
  - unfold d_ok, in_u in *. cbn [d_data d_length d_mem]. lia.
  - by apply triple_times.
  - intros [l c'] [_ [Hf _]]. done.
Qed.

Lemma triple_niclist_preprocess F :
  triple F Serialization_deserializeNicListPreprocess rl_ok.
Proof.
  eapply triple_bind; [apply triple_u32|]. intros len Hlen.
  eapply triple_bind; [apply triple_u32|]. intros n Hn c Hok. pose proof Hok as (?&?&?).
  unfold mbind, Des_bind, des_get, des_check. cbv zeta. pose proof (u32_range (len - 8)).
  destruct (Z.ltb_spec (d_length c) (u32 (len - 8))); [done|]. cbn [negb].
  split; [apply d_advance_ok; [done|lia]|].
  unfold rl_ok, in_u in *. cbn [rl_data rl_length rl_elemCount rl_mem]. lia.
Qed.

Lemma triple_node :
  triple str_fault deserialize_node (fun n => rl_ok (np_nicList n) /\ in_u 32 (np_nodeNumID n)).
Proof.
  eapply triple_bind; [apply triple_str|]. intros [? nodeID] _.
  eapply triple_bind; [apply triple_niclist_preprocess|]. intros nics Hnics.
  eapply triple_bind; [apply triple_u32|]. intros numID HnumID.
  eapply triple_bind; [apply triple_u16|]. intros portUDP _.
  eapply triple_bind; [apply triple_u16|]. intros portTCP _.
  eapply triple_bind; [apply triple_char|]. intros nodeType _.
  by apply triple_ret.
Qed.

Lemma triple_nodelist_preprocess :
  triple str_fault Serialization_deserializeNodeListPreprocess rl_ok.
Proof.
  eapply triple_bind; [apply triple_u32|]. intros n Hn c Hok.
  unfold mbind at 1, Des_bind at 1, des_get at 1. revert c Hok.
  enough (forall c0, d_ok c0 -> triple str_fault
    (des_times (Z.to_nat n) deserialize_node;; mret (MkRawList (d_mem c0) (d_data c0) 0 n)) rl_ok)
    as Hgen by (intros c Hok; by apply Hgen).
  intros c0 (?&?&?). eapply triple_bind; [apply triple_times, triple_node|].
  intros l _. apply triple_ret. unfold rl_ok, in_u in *. cbn [rl_data rl_length rl_elemCount rl_mem].
  lia.
Qed.

#[export] Hint Resolve triple_str triple_charArray triple_nested triple_list_preprocess
  triple_niclist_preprocess triple_nodelist_preprocess : wire.

(** *** String vectors

    The preprocessing accepts a raw list only if it is empty or its last byte is a
    zero; this is what keeps [strlen] inside of the list afterwards. *)
Definition strlist_ok (rl : RawList) : Prop :=
  rl_ok rl /\
  (0 < rl_elemCount rl -> 0 < rl_length rl ->
   load (rl_mem rl) (rl_data rl + rl_length rl - 1) 1 = Some [Byte.x00]).

Lemma triple_strlist_preprocess F :
  triple F Serialization_deserializeStrCpyListPreprocess strlist_ok.
Proof.
  eapply triple_bind; [apply triple_nested|]. intros outCtx [Hout Hout32].
  eapply triple_bind; [by apply triple_in_u32|]. intros [n inner'] (Hn & -> & Hok' & ?).
  set (ci := d_advance 4 outCtx) in *. pose proof Hok' as (?&?&?). pose proof Hout as (?&?&?).
  assert (Hlen : d_length ci = d_length outCtx - 4).
  { unfold ci, d_advance. cbn [d_length]. apply u64_small. lia. }
  assert (Hdata : d_data ci = d_data outCtx + 4) by done.
  eapply (triple_bind _ _ _ (fun _ => n <> 0 ->
    load (d_mem ci) (d_data ci + d_length ci - 1) 1 = Some [Byte.x00])).
  - destruct (Z.eqb_spec n 0); [by apply triple_ret|].
    intros c Hc. unfold mbind, Des_bind, des_load, des_check.
    destruct (load _ _ _) as [b|] eqn:Eb.
    + destruct (bool_decide_reflect (b = [Byte.x00])) as [->|]; [|done]. by split.
    + by rewrite load_in in Eb by lia.
  - intros _ Hz. apply triple_ret. unfold strlist_ok, rl_ok.
    cbn [rl_data rl_length rl_elemCount rl_mem].
    rewrite u32_small by lia. unfold in_u in *. split; [lia|]. intros ??. apply Hz. lia.
Qed.

(** [strlen] stops at the first zero: it stays before any address that holds one. *)
Lemma strlen_mem_bound m i :
  m !! i = Some Byte.x00 -> exists n, strlen_mem m = Some n /\ (n <= i)%nat.
Proof.
  revert i. induction m as [|b m IH]; intros i Hi; [done|]. cbn.
  destruct (decide (b = Byte.x00)) as [->|Hb]; [exists 0%nat; split; [done|lia]|].
  destruct i as [|i]; [by injection Hi as ->|].
  destruct (IH i Hi) as (n & -> & ?). exists (S n). split; [done|lia].
Qed.

Lemma load_1_lookup m addr b :
  load m addr 1 = Some [b] <-> 0 <= addr /\ m !! Z.to_nat addr = Some b.
Proof.
  split.
  - unfold load. destruct (_ && _) eqn:E; [|done]. intros [= H]. split; [lia|].
    change (Z.to_nat 1) with 1%nat in H. rewrite <- (Nat.add_0_r (Z.to_nat addr)), <- lookup_drop.
    by destruct (drop _ m) as [|x r]; [done|injection H as ->].
  - intros [? Hl]. pose proof (lookup_lt_Some _ _ _ Hl). rewrite load_in by (unfold zlen; lia).
    change (Z.to_nat 1) with 1%nat. rewrite <- (Nat.add_0_r (Z.to_nat addr)), <- lookup_drop in Hl.
    by destruct (drop _ m) as [|x r]; [done|injection Hl as ->].
Qed.

Lemma triple_strings F m n : forall start len,
  0 <= start -> in_u 32 len ->
  (0 < len -> load m (start + len - 1) 1 = Some [Byte.x00]) ->
  triple F (deserialize_strings m n start len) (fun l => length l = n).
Proof.
  induction n as [|n IH]; intros start len Hs [Hl0 Hl] Hz; [by apply triple_ret|].
  cbn [deserialize_strings]. destruct (Z.leb_spec len 0) as [|Hpos]; [apply triple_refuse|].
  specialize (Hz Hpos). pose proof Hz as [Ha Hz']%load_1_lookup.
  destruct (strlen_mem_bound (drop (Z.to_nat start) m) (Z.to_nat (len - 1))) as (k & -> & Hk).
  { rewrite lookup_drop. rewrite <- Hz'. f_equal. lia. }
  rewrite u32_small by lia.
  eapply triple_bind; [apply IH; [lia|unfold in_u; lia|]|].
  - intros ?. rewrite <- Hz. f_equal. lia.
  - intros l Hlen. apply triple_ret. cbn beta in *. cbn [length]. by rewrite Hlen.
Qed.

Lemma triple_strlist F rl :
  strlist_ok rl ->
  triple F (Serialization_deserializeStrCpyVec rl) (fun l => zlen l = rl_elemCount rl).
Proof.
  intros [(?&?&[??]&?) Hz]. unfold Serialization_deserializeStrCpyVec.
  destruct (decide (rl_elemCount rl = 0)) as [E|].
  - rewrite E. by apply triple_ret.
  - eapply triple_mono; [apply triple_strings; [done|done|]|done|].
    + intros. apply Hz; lia.
    + cbn beta. intros l Hl. unfold zlen. lia.
Qed.

(** ** Lists: formats and round trips *)

Lemma zlen_enc_list {A} (g : A -> list byte) l : zlen (enc_list g l) = 8 + zlen (l ≫= g).
Proof. unfold enc_list. zlia. Qed.

Lemma writes_list {A} (f : A -> Ser) (g : A -> list byte) l :
  (forall x, x ∈ l -> writes (f x) (g x)) -> zlen l < 2 ^ 32 ->
  writes (serialize_list f l) (enc_list g l).
Proof.
  intros Hf Hl. pose proof (zlen_nonneg l). unfold serialize_list, enc_list.
  rewrite u32_small by lia.
  eapply writes_eq; [eapply (writes_patched _ _ (le_split 4) (le_split 4 0)
    (le_split 4 (zlen l) ++ (l ≫= g)))|].
  - auto using writes_each with wire.
  - auto with wire.
  - intros. by rewrite !zlen_le_split.
  - do 2 f_equal. zlia.
Qed.

Lemma reads_nested body :
  4 + zlen body < 2 ^ 32 ->
  reads 0 __Serialization_deserializeNestedField (le_split 4 (4 + zlen body) ++ body)
    (fun inner => d_ok inner /\ d_next inner body /\ d_length inner = zlen body).
Proof.
  intros Hb. pose proof (zlen_nonneg body).
  eapply reads_bind; [apply reads_u32; unfold in_u; lia| |zlia]. intros ? ->.
  intros c Hok [Hl Hld] _. pose proof Hok as (?&?&?).
  replace (4 + zlen body - Serialization_serialLenUInt) with (zlen body)
    by (unfold Serialization_serialLenUInt; lia).
  unfold mbind, Des_bind, des_get, des_check. cbv zeta. rewrite u32_small by lia.
  rewrite (proj2 (Z.ltb_ge _ _)) by lia. cbn [negb]. eexists. split; [done|].
  unfold d_ok, d_next. cbn [d_data d_length d_mem]. repeat split; try lia. done.
Qed.

Lemma reads_in {A} inner (d : Des A) bs P :
  d_ok inner -> d_next inner bs -> reads 0 d bs P ->
  reads 0 (des_in inner d) [] (fun '(a, inner') => P a /\ inner' = d_advance (zlen bs) inner).
Proof.
  intros Hi Hn Hd c Hok Hc Hl. destruct (Hd inner Hi Hn) as (a & Ha & HP).
  { destruct Hn. lia. }
  destruct (reads_ret 0 tt (fun _ => True) I c Hok Hc Hl) as (? & E & _).
  injection E as _ E. exists (a, d_advance (zlen bs) inner). split; [|done].
  unfold des_in. by rewrite Ha, <- E.
Qed.

(** The raw list denotes the encoded elements [bs]. *)
Definition rl_view (rl : RawList) (bs : list byte) (n : Z) : Prop :=
  rl_ok rl /\ rl_length rl = zlen bs /\ rl_elemCount rl = n /\
  load (rl_mem rl) (rl_data rl) (zlen bs) = Some bs.

Lemma rl_view_advance inner n body :
  d_ok inner -> d_next inner (le_split 4 n ++ body) ->
  d_length inner = zlen (le_split 4 n ++ body) -> in_u 32 n -> zlen body < 2 ^ 32 ->
  rl_view (MkRawList (d_mem inner) (d_data inner + 4) (u32 (zlen body)) n) body n.
Proof.
  intros (?&?&?) [_ [_ Hld]%load_app] Hlen Hn Hb. pose proof (zlen_nonneg body).
  rewrite zlen_app, zlen_le_split in *.
  unfold rl_view, rl_ok, in_u in *. cbn [rl_data rl_length rl_elemCount rl_mem].
  rewrite u32_small by lia. split; [lia|]. done.
Qed.

Lemma reads_list_preprocess {A} (g : A -> list byte) l elemSize :
  (forall x, x ∈ l -> zlen (g x) = elemSize) -> 0 <= elemSize ->
  8 + zlen (l ≫= g) < 2 ^ 32 -> zlen l < 2 ^ 32 ->
  reads 0 (deserialize_list_preprocess elemSize) (enc_list g l)
    (fun rl => rl_view rl (l ≫= g) (zlen l)).
Proof.
  intros Hg Hsz Hb Hl. pose proof (zlen_nonneg l). pose proof (zlen_nonneg (l ≫= g)).
  assert (Hmul : zlen (l ≫= g) = zlen l * elemSize).
  { clear -Hg. induction l as [|x l IH]; cbn; [done|].
    rewrite zlen_app, zlen_cons, IH, (Hg x) by set_solver. lia. }
  unfold enc_list.
  replace (8 + zlen (l ≫= g)) with (4 + zlen (le_split 4 (zlen l) ++ (l ≫= g))) by zlia.
  eapply reads_last; [apply reads_nested; zlia|]. intros inner (Hi & Hn & Hlen).
  pose proof (d_next_app _ _ _ Hi Hn) as [Hn1 _].
  eapply reads_last; [apply (reads_in _ _ _ _ Hi Hn1 (reads_u32 _ (conj H Hl)))|].
  intros [n inner'] [-> ->]. cbn beta iota.
  assert (Hlen' : d_length (d_advance (zlen (le_split 4 (zlen l))) inner) = zlen (l ≫= g)).
  { destruct Hi as (?&?&?). unfold d_advance. cbn [d_length].
    rewrite zlen_app, zlen_le_split in *. rewrite u64_small; lia. }
  eapply reads_last; [apply (reads_check _ _ (fun _ => True)); [|done]|intros _ _].
  - rewrite Hlen', u32_small by lia. by apply Z.eqb_eq.
  - apply reads_ret. rewrite Hlen', zlen_le_split. by apply rl_view_advance; [..|lia].
Qed.

Lemma reads_list {A} (d : Des A) (g : A -> list byte) l rl :
  rl_view rl (l ≫= g) (zlen l) -> (forall x, x ∈ l -> reads 0 d (g x) (fun y => y = x)) ->
  reads 0 (deserialize_list d rl) [] (fun k => k = l).
Proof.
  intros ((?&Hl&?&?) & Hlen & Hcnt & Hld) Hd. unfold deserialize_list.
  rewrite Hcnt. unfold zlen at 1. rewrite Nat2Z.id.
  eapply reads_fmap; [eapply reads_in; [| |apply reads_times, Hd]|].
  - unfold d_ok, in_u in *. cbn [d_data d_length d_mem]. lia.
  - split; cbn [d_data d_length d_mem]; [lia|done].
  - by intros [k c'] [-> _].
Qed.

Lemma strlen_mem_app s r : no_nul s -> strlen_mem (s ++ Byte.x00 :: r) = Some (length s).
Proof.
  induction s as [|b s IH]; intros H; cbn; [done|].
  destruct (decide (b = Byte.x00)) as [->|?]; [destruct H; by left|].
  rewrite IH; [done|]. intros ?. apply H. by right.
Qed.

Lemma load_drop m addr bs :
  load m addr (zlen bs) = Some bs -> exists r, drop (Z.to_nat addr) m = bs ++ r.
Proof.
  unfold load. destruct (_ && _) eqn:E; [|done]. intros [= H].
  exists (drop (length bs) (drop (Z.to_nat addr) m)).
  unfold zlen in H. rewrite Nat2Z.id in H. rewrite <- H at 1. by rewrite take_drop.
Qed.

Lemma reads_strings m (l : list (list byte)) : forall start,
  0 <= start -> load m start (zlen (l ≫= enc_cstr)) = Some (l ≫= enc_cstr) ->
  zlen (l ≫= enc_cstr) < 2 ^ 32 ->
  reads 0 (deserialize_strings m (length l) start (zlen (l ≫= enc_cstr))) []
    (fun k => k = cstr <$> l).
Proof.
  induction l as [|s l IH]; intros start Hs Hld Hlt; [by apply reads_ret|].
  cbn in Hld, Hlt. change ((s :: l) ≫= enc_cstr) with (enc_cstr s ++ (l ≫= enc_cstr)) in *.
  pose proof (load_app _ _ _ _ Hld) as [Hld1 Hld2]. pose proof (load_drop _ _ _ Hld1) as [r Hr].
  pose proof (zlen_nonneg (cstr s)). pose proof (zlen_nonneg (l ≫= enc_cstr)).
  assert (He : zlen (enc_cstr s) = zlen (cstr s) + 1) by (unfold enc_cstr; zlia).
  rewrite zlen_app, He in *. cbn [deserialize_strings length].
  rewrite (proj2 (Z.leb_gt _ _)) by lia. unfold enc_cstr in Hr. rewrite <- app_assoc in Hr.
  change ([Byte.x00] ++ r) with (Byte.x00 :: r) in Hr. rewrite Hr, strlen_mem_app by apply no_nul_cstr. fold (zlen (cstr s)).
  replace (u32 _) with (zlen (l ≫= enc_cstr)) by (rewrite u32_small; lia).
  eapply reads_last; [apply IH; [lia| |lia]|].
  - by rewrite <- Z.add_assoc.
  - intros k ->. apply reads_ret. by rewrite take_app_length.
Qed.

Lemma strs_last_nul (l : list (list byte)) :
  l <> [] -> exists pre, l ≫= enc_cstr = pre ++ [Byte.x00].
Proof.
  destruct l as [|s l _] using rev_ind; [done|]. intros _.
  exists ((l ≫= enc_cstr) ++ cstr s). rewrite bind_app. cbn. rewrite app_nil_r.
  unfold enc_cstr at 2. by rewrite app_assoc.
Qed.

Lemma reads_strlist_preprocess l :
  8 + zlen (l ≫= enc_cstr) < 2 ^ 32 -> zlen l < 2 ^ 32 ->
  reads 0 Serialization_deserializeStrCpyListPreprocess (enc_list enc_cstr l)
    (fun rl => rl_view rl (l ≫= enc_cstr) (zlen l)).
Proof.
  intros Hb Hl. pose proof (zlen_nonneg l). pose proof (zlen_nonneg (l ≫= enc_cstr)).
  unfold enc_list.
  replace (8 + zlen (l ≫= enc_cstr)) with (4 + zlen (le_split 4 (zlen l) ++ (l ≫= enc_cstr))) by zlia.
  eapply reads_last; [apply reads_nested; zlia|]. intros inner (Hi & Hn & Hlen).
  pose proof (d_next_app _ _ _ Hi Hn) as [Hn1 _].
  eapply reads_last; [apply (reads_in _ _ _ _ Hi Hn1 (reads_u32 _ (conj H Hl)))|].
  intros [n inner'] [-> ->]. cbn beta iota. rewrite zlen_le_split.
  assert (Hlen' : d_length (d_advance (Z.of_nat 4) inner) = zlen (l ≫= enc_cstr)).
  { destruct Hi as (?&?&?). unfold d_advance. cbn [d_length].
    rewrite zlen_app, zlen_le_split in *. rewrite u64_small; lia. }
  pose proof (rl_view_advance inner (zlen l) (l ≫= enc_cstr) Hi Hn Hlen (conj H Hl) ltac:(lia)) as Hv.
  apply (reads_last _ _ _ _ (fun _ => True)).
  - destruct (Z.eqb_spec (zlen l) 0) as [|Hne]; [by apply reads_ret|].
    destruct Hv as (_ & _ & _ & Hld). cbn [rl_mem rl_data] in Hld.
    destruct (strs_last_nul l) as [pre Hpre]; [by intros ->|]. rewrite Hpre in *.
    apply load_app in Hld as [_ Hz].
    intros c Hok Hc Hl'. destruct (reads_ret 0 tt (fun _ => True) I c Hok Hc Hl') as (? & E & _).
    injection E as _ E. exists tt. split; [|done]. rewrite <- E.
    unfold mbind, Des_bind, des_load, des_check. rewrite Hlen', zlen_app.
    change (zlen [Byte.x00]) with 1 in *.
    replace (d_data (d_advance (Z.of_nat 4) inner) + (zlen pre + 1) - 1)
      with (d_data inner + 4 + zlen pre) by (cbn; lia).
    change (d_mem (d_advance (Z.of_nat 4) inner)) with (d_mem inner).
    rewrite Hz. by rewrite bool_decide_true.
  - intros _ _. apply reads_ret. by rewrite Hlen'.
Qed.

Lemma writes_strlist l :
  zlen l < 2 ^ 32 -> writes (Serialization_serializeStrCpyList l) (enc_list enc_cstr l).
Proof.
  intros Hl. apply writes_list; [|done]. intros s _. apply writes_block.
  unfold enc_cstr, strlen. zlia.
Qed.

Lemma writes_u16list l :
  zlen l < 2 ^ 32 -> writes (Serialization_serializeUInt16List l) (enc_list (le_split 2) l).
Proof. intros Hl. apply writes_list; auto with wire. Qed.

Lemma writes_s64list l :
  zlen l < 2 ^ 32 -> writes (Serialization_serializeInt64CpyList l) (enc_list (le_split 8) l).
Proof. intros Hl. apply writes_list; auto with wire. Qed.

#[export] Hint Resolve writes_str writes_strAlign4 writes_charArray writes_strlist
  writes_u16list writes_s64list : wire.

(** ** NIC lists *)

Lemma writes_nic n : nic_ok n -> writes (serialize_nic n) (enc_nic n).
Proof.
  intros (Hip & Hname & _ & _). unfold serialize_nic, enc_nic.
  apply writes_seq; [|apply writes_seq; [|apply writes_seq]].
  - destruct (ipv6_addr_v4mapped _); (apply writes_seq; [apply writes_u8|apply writes_block]).
    + unfold zlen in *. rewrite length_drop. lia.
    + done.
  - apply writes_block. by rewrite Hname.
  - eapply writes_eq; [apply writes_block_take; zlia|]. done.
  - eapply writes_eq; [apply writes_block_take; zlia|]. done.
Qed.

Lemma writes_niclist l :
  zlen l < 2 ^ 32 -> Forall nic_ok l ->
  writes (Serialization_serializeNicList l) (enc_list enc_nic l).
Proof.
  intros Hl Hok. pose proof (zlen_nonneg l). unfold Serialization_serializeNicList, enc_list.
  rewrite u32_small by lia.
  eapply writes_eq; [eapply (writes_patched _ _ (le_split 4) (le_split 4 4294967295)
    (le_split 4 (zlen l) ++ (l ≫= enc_nic)))|].
  - apply writes_seq; [auto with wire|]. apply writes_seq; [auto with wire|].
    apply writes_each. intros n Hn. apply writes_nic. eapply Forall_forall in Hok; [done|].
    by apply list_elem_of_In.
  - auto with wire.
  - intros. by rewrite !zlen_le_split.
  - do 2 f_equal. zlia.
Qed.

Lemma reads_niclist_preprocess l :
  8 + zlen (l ≫= enc_nic) < 2 ^ 32 -> zlen l < 2 ^ 32 ->
  reads 0 Serialization_deserializeNicListPreprocess (enc_list enc_nic l)
    (fun rl => rl_view rl (l ≫= enc_nic) (zlen l)).
Proof.
  intros Hb Hl. pose proof (zlen_nonneg l). pose proof (zlen_nonneg (l ≫= enc_nic)).
  eapply reads_bind; [apply reads_u32; unfold in_u; lia| |zlia]. intros ? ->.
  eapply reads_bind; [apply reads_u32; unfold in_u; lia| |zlia]. intros ? ->.
  set (body := l ≫= enc_nic) in *. clearbody body.
  intros c Hok [Hlen Hld] _. pose proof Hok as (?&?&?).
  unfold mbind, Des_bind, des_get, des_check. cbv zeta.
  replace (u32 (8 + zlen body - 8)) with (zlen body) by (rewrite u32_small; lia).
  rewrite (proj2 (Z.ltb_ge _ _)) by lia. cbn [negb]. eexists. split; [done|].
  unfold rl_view, rl_ok, in_u. cbn [rl_data rl_length rl_elemCount rl_mem].
  repeat split; try lia. done.
Qed.

Lemma reads_load m addr bs n :
  n = zlen bs -> load m addr n = Some bs -> reads 0 (des_load m addr n) [] (fun a => a = bs).
Proof.
  intros -> Hld c Hok Hn Hl. destruct (reads_ret 0 tt (fun _ => True) I c Hok Hn Hl) as (? & E & _).
  injection E as _ E. exists bs. split; [|done]. unfold des_load. by rewrite Hld, <- E.
Qed.

Lemma nic_name_fix name :
  zlen name = IFNAMSIZ -> name !! 15%nat = Some Byte.x00 ->
  take (Z.to_nat (minNameSize - 1)) name ++ [Byte.x00] = name.
Proof.
  intros Hl H15. change (Z.to_nat (minNameSize - 1)) with 15%nat. rewrite <- (take_S_r _ _ _ H15).
  apply take_ge. unfold zlen, IFNAMSIZ in Hl. lia.
Qed.

Lemma v4mapped_split ip :
  ipv6_addr_v4mapped ip = true -> beegfs_mapped_ipv4 (drop 12 ip) = ip.
Proof.
  unfold ipv6_addr_v4mapped, beegfs_mapped_ipv4. intros H%bool_decide_eq_true.
  rewrite <- H. apply take_drop.
Qed.

Lemma reads_nics m (l : list NicAddress) : forall start,
  load m start (zlen (l ≫= enc_nic)) = Some (l ≫= enc_nic) -> Forall nic_ok l ->
  reads 0 (deserialize_nics m (length l) start) [] (fun k => k = l).
Proof.
  induction l as [|n l IH]; intros start Hld Hok; [by apply reads_ret|].
  inversion Hok as [|?? (Hip & Hname & Hty & H15) Hok']; subst.
  change ((n :: l) ≫= enc_nic) with (enc_nic n ++ (l ≫= enc_nic)) in Hld.
  revert Hld. generalize (eq_refl (enc_nic n)). unfold enc_nic at 2. intros ->.
  rewrite <- !app_assoc. intros Hld. cbn [deserialize_nics length].
  assert (Hrest : forall pos,
    load m pos (zlen (nic_name n ++ le_split 1 (nic_nicType n) ++ [Byte.x00; Byte.x00] ++ (l ≫= enc_nic)))
      = Some (nic_name n ++ le_split 1 (nic_nicType n) ++ [Byte.x00; Byte.x00] ++ (l ≫= enc_nic)) ->
    reads 0 (name ← des_load m pos minNameSize;
             nicType ← des_load m (pos + SERIALIZATION_NICLISTELEM_NAME_SIZE) 1;
             k ← deserialize_nics m (length l) (pos + SERIALIZATION_NICLISTELEM_NAME_SIZE + 1 + 2);
             mret (MkNicAddress (nic_ipAddr n) (s8 (le_combine nicType))
                     (take (Z.to_nat (minNameSize - 1)) name ++ [Byte.x00]) :: k)) []
      (fun k => k = n :: l)).
  { intros pos H. apply load_app in H as [H1 H]. apply load_app in H as [H2 H].
    apply load_app in H as [_ H3]. rewrite Hname in *.
    eapply reads_last; [apply (reads_load _ _ _ _ (eq_sym Hname) H1)|]. intros ? ->.
    eapply reads_last; [apply (reads_load _ _ _ _ eq_refl H2)|]. intros ? ->.
    eapply reads_last; [apply IH; [exact H3|done]|]. intros ? ->. apply reads_ret.
    rewrite LittleEndianList.le_combine_split, nic_name_fix by done.
    unfold s8. rewrite signed_inv by done. by destruct n. }
  destruct (ipv6_addr_v4mapped (nic_ipAddr n)) eqn:Emap; rewrite <- ?app_assoc in Hld;
    apply load_app in Hld as [Hp Hld]; apply load_app in Hld as [Hip' Hld].
  - eapply reads_last; [apply (reads_load _ _ _ _ eq_refl Hp)|]. intros ? ->. cbv zeta.
    change (le_combine (le_split 1 4) =? 4) with true. cbv iota.
    assert (H4 : zlen (drop 12 (nic_ipAddr n)) = 4) by (unfold zlen in *; rewrite length_drop; lia).
    rewrite H4 in *. eapply reads_last; [apply (reads_load _ _ _ _ (eq_sym H4) Hip')|].
    intros ? ->. rewrite v4mapped_split by done. by apply Hrest.
  - eapply reads_last; [apply (reads_load _ _ _ _ eq_refl Hp)|]. intros ? ->. cbv zeta.
    change (le_combine (le_split 1 6) =? 4) with false.
    change (le_combine (le_split 1 6) =? 6) with true. cbv iota.
    rewrite Hip in *. eapply reads_last; [apply (reads_load _ _ _ _ (eq_sym Hip) Hip')|].
    intros ? ->. by apply Hrest.
Qed.

(** Every element of the format has at most 36 bytes. *)
Lemma triple_nics F m n : forall start,
  0 <= start -> start + 36 * Z.of_nat n <= zlen m ->
  triple F (deserialize_nics m n start) (fun l => (length l <= n)%nat).
Proof.
  assert (Hload : forall addr k, 0 <= addr -> 0 <= k -> addr + k <= zlen m ->
    triple F (des_load m addr k) (fun _ => True)).
  { intros addr k ???? Hc. unfold des_load. by rewrite load_in. }
  unfold SERIALIZATION_NICLISTELEM_NAME_SIZE.
  induction n as [|n IH]; intros start Hs Hfit; cbn [deserialize_nics]; [by apply triple_ret|].
  change minNameSize with 16. change SERIALIZATION_NICLISTELEM_NAME_SIZE with 16.
  eapply triple_bind; [apply Hload; lia|]. intros protocol _. cbv zeta.
  apply triple_if; intros _; [|apply triple_if; intros _];
    [..|apply triple_ret; cbn; lia];
    (eapply triple_bind; [apply Hload; lia|]; intros addr _;
     eapply triple_bind; [apply Hload; lia|]; intros name _;
     eapply triple_bind; [apply Hload; lia|]; intros ty _;
     eapply triple_bind; [apply IH; lia|]; intros l Hl; apply triple_ret;
     cbn beta in *; cbn [length]; lia).
Qed.

#[export] Hint Resolve writes_niclist : wire.

(** ** Properties *)

(** A vector of C strings serialised with a fixed-up length field is read back
    through the two deserialisation passes as the same strings (each up to its first
    zero), from any buffer with room for it, and exactly the bytes written are consumed. *)
Theorem strvec_roundtrip (l : list (list byte)) :
  8 + zlen (l ≫= enc_cstr) < 2 ^ 32 -> zlen l < 2 ^ 32 ->
  roundtrip 0 (Serialization_serializeStrCpyVec l)
    (rl ← Serialization_deserializeStrCpyVecPreprocess; Serialization_deserializeStrCpyVec rl)
    (fun k => k = cstr <$> l).
Proof.
  intros Hl Hn. apply (roundtrip_intro 0 _ _ (enc_list enc_cstr l)).
  - by apply writes_strlist.
  - eapply reads_last; [by apply reads_strlist_preprocess|].
    intros rl (Hok & Hlen & Hcnt & Hld). unfold Serialization_deserializeStrCpyVec.
    rewrite Hcnt, Hlen, to_nat_zlen. apply reads_strings; [apply Hok|done|lia].
  - rewrite zlen_enc_list. lia.
  - done.
Qed.

Lemma strvec_roundtrip_witness :
  let l := [[Byte.x61; Byte.x62]; []; [Byte.x63]] in
  roundtrip 0 (Serialization_serializeStrCpyVec l)
    (rl ← Serialization_deserializeStrCpyVecPreprocess; Serialization_deserializeStrCpyVec rl)
    (fun k => k = cstr <$> l).
Proof. intros l. apply (strvec_roundtrip l); reflexivity. Defined.

(** Vectors of integers share one argument. *)
Lemma roundtrip_intvec {A} (f : A -> Ser) (d : Des A) g size (l : list A) :
  (forall x, x ∈ l -> writes (f x) (g x)) -> (forall x, x ∈ l -> reads 0 d (g x) (fun y => y = x)) ->
  (forall x, x ∈ l -> zlen (g x) = size) -> 0 <= size ->
  8 + zlen (l ≫= g) < 2 ^ 32 -> zlen l < 2 ^ 32 ->
  roundtrip 0 (serialize_list f l) (rl ← deserialize_list_preprocess size; deserialize_list d rl)
    (fun k => k = l).
Proof.
  intros Hw Hr Hs H0 Hl Hn. apply (roundtrip_intro 0 _ _ (enc_list g l)).
  - by apply writes_list.
  - eapply reads_last; [by apply reads_list_preprocess|]. intros rl Hv. by apply (reads_list d g).
  - rewrite zlen_enc_list. lia.
  - done.
Qed.

(** Target ID vectors (and, with the same code, every list of 16-bit
    numbers) are read back unchanged. *)
Theorem uint16vec_roundtrip (l : list Z) :
  Forall (in_u 16) l -> 8 + zlen (l ≫= le_split 2) < 2 ^ 32 -> zlen l < 2 ^ 32 ->
  roundtrip 0 (Serialization_serializeUInt16Vec l)
    (rl ← Serialization_deserializeUInt16VecPreprocess; Serialization_deserializeUInt16Vec rl)
    (fun k => k = l).
Proof.
  intros Hl H8 Hn.
  apply (roundtrip_intvec Serialization_serializeUShort Serialization_deserializeUShort (le_split 2) 2 l);
    [intros; apply writes_u16| |done..].
  intros x Hx. apply reads_u16. by apply (proj1 (list.Forall_forall _ _) Hl).
Qed.

Lemma uint16vec_roundtrip_witness :
  roundtrip 0 (Serialization_serializeUInt16Vec [1; 65535])
    (rl ← Serialization_deserializeUInt16VecPreprocess; Serialization_deserializeUInt16Vec rl)
    (fun k => k = [1; 65535]).
Proof. apply uint16vec_roundtrip; [repeat constructor; lia|reflexivity..]. Defined.

(** A NIC list is read back unchanged: IPv4-mapped addresses through their
    4-byte form, all others through 16 bytes, names and types as they were. *)
Theorem niclist_roundtrip (l : list NicAddress) :
  Forall nic_ok l -> 8 + zlen (l ≫= enc_nic) < 2 ^ 32 -> zlen l < 2 ^ 32 ->
  roundtrip 0 (Serialization_serializeNicList l)
    (rl ← Serialization_deserializeNicListPreprocess; Serialization_deserializeNicList rl)
    (fun k => k = l).
Proof.
  intros Hok H8 Hn. apply (roundtrip_intro 0 _ _ (enc_list enc_nic l)).
  - by apply writes_niclist.
  - eapply reads_last; [by apply reads_niclist_preprocess|].
    intros rl (_ & _ & Hcnt & Hld). unfold Serialization_deserializeNicList.
    rewrite Hcnt, to_nat_zlen. by apply reads_nics.
  - rewrite zlen_enc_list. lia.
  - done.
Qed.

Definition nic_example (ip : list byte) : NicAddress :=
  MkNicAddress ip 1 (Byte.x65 :: replicate 15 Byte.x00).

Lemma niclist_roundtrip_witness :
  let l := [nic_example (beegfs_mapped_ipv4 [Byte.x0a; Byte.x00; Byte.x00; Byte.x01]);
            nic_example (replicate 15 Byte.x00 ++ [Byte.x01])] in
  roundtrip 0 (Serialization_serializeNicList l)
    (rl ← Serialization_deserializeNicListPreprocess; Serialization_deserializeNicList rl)
    (fun k => k = l).
Proof.
  intros l. apply (niclist_roundtrip l); [|reflexivity..]. unfold l, nic_ok, nic_example.
  repeat constructor; cbn; lia.
Defined.

(** On arbitrary received bytes the two passes over a string vector never
    read outside of the buffer; an accepted vector has the announced number of strings. *)
Theorem strvec_decoding_safe m :
  zlen m < 2 ^ 64 ->
  match Serialization_deserializeStrCpyVecPreprocess (d_start m) with
  | Refused => True
  | BadRead _ => False
  | Done rl ctx => d_ok ctx /\
      match Serialization_deserializeStrCpyVec rl ctx with
      | Refused => True
      | BadRead _ => False
      | Done l _ => zlen l = rl_elemCount rl
      end
  end.
Proof.
  intros Hm. pose proof (triple_strlist_preprocess no_fault (d_start m) (d_start_ok m Hm)) as H1.
  unfold Serialization_deserializeStrCpyVecPreprocess.
  destruct (Serialization_deserializeStrCpyListPreprocess (d_start m)) as [rl ctx| |]; [|done..].
  destruct H1 as [Hctx Hrl]. split; [done|].
  pose proof (triple_strlist no_fault rl Hrl ctx Hctx) as H2.
  destruct (Serialization_deserializeStrCpyVec rl ctx); [apply H2|done..].
Qed.

Definition strvec_bytes : list byte :=
  [Byte.x0c; Byte.x00; Byte.x00; Byte.x00; Byte.x03; Byte.x00; Byte.x00; Byte.x00;
   Byte.x61; Byte.x00; Byte.x00; Byte.x00].

Lemma strvec_decoding_safe_witness :
  match Serialization_deserializeStrCpyVecPreprocess (d_start strvec_bytes) with
  | Refused => True
  | BadRead _ => False
  | Done rl ctx => d_ok ctx /\
      match Serialization_deserializeStrCpyVec rl ctx with
      | Refused => True
      | BadRead _ => False
      | Done l _ => zlen l = rl_elemCount rl
      end
  end.
Proof. apply (strvec_decoding_safe strvec_bytes). reflexivity. Defined.

(** A length field read from the start of a buffer. *)
Lemma uint_start m n c :
  Serialization_deserializeUInt (d_start m) = Done n c -> zlen m < 2 ^ 64 ->
  exists rest, m = le_split 4 n ++ rest /\ in_u 32 n /\ c = MkDeserializeCtx m 4 (zlen rest).
Proof.
  unfold Serialization_deserializeUInt, __Serialization_deserializeRaw, d_start, d_advance. cbn. intros H Hm.
  destruct (Z.leb_spec 4 (zlen m)); [|done]. rewrite load_in in H by lia. rewrite drop_0 in H.
  injection H as <- <-. assert (Hl : length (take (Z.to_nat 4) m) = 4%nat).
  { rewrite length_take. unfold zlen in *. lia. }
  exists (drop 4 m). split_and!.
  - pose proof (LittleEndianList.split_le_combine (take (Z.to_nat 4) m)) as E. rewrite Hl in E.
    rewrite E. symmetry. apply (take_drop 4).
  - pose proof (LittleEndianList.le_combine_bound (take (Z.to_nat 4) m)). rewrite Hl in *. unfold in_u. lia.
  - rewrite u64_small by lia. f_equal. unfold zlen in *. rewrite length_drop. lia.
Qed.

Lemma terminated_inside n c addr :
  d_ok c -> 0 <= n < 2 ^ 32 - 1 -> deserialize_terminated n c <> BadRead addr.
Proof.
  intros Hok Hn. unfold deserialize_terminated, mbind, Des_bind, des_get, des_check.
  rewrite u32_small by lia. destruct (Z.ltb_spec (d_length c) (n + 1)); [done|]. cbn [negb].
  destruct (d_ok_byte c n Hok) as [b Hb]; [lia|]. unfold des_peek. rewrite Hb.
  by destruct (bool_decide _).
Qed.

(** On a buffer below 4 GiB the string deserialiser reads outside of the
    buffer exactly when the length field is [0xFFFFFFFF], whose successor wraps to 0 in
    the bounds check. *)
Theorem deserializeStr_faults m :
  zlen m < 2 ^ 32 ->
  (exists addr, Serialization_deserializeStr (d_start m) = BadRead addr) <->
  exists rest, m = le_split 4 (2 ^ 32 - 1) ++ rest.
Proof.
  intros Hm. pose proof (zlen_nonneg m). split.
  - intros [addr Hbad]. unfold Serialization_deserializeStr, mbind, Des_bind in Hbad.
    pose proof (triple_u32 no_fault (d_start m)) as Ht.
    destruct (Serialization_deserializeUInt (d_start m)) as [n c| |] eqn:E; [|done|].
    2: { destruct Ht. apply d_start_ok. lia. }
    destruct (uint_start _ _ _ E ltac:(lia)) as (rest & -> & Hn & Hc). exists rest. do 2 f_equal.
    destruct (decide (n = 2 ^ 32 - 1)) as [->|Hne]; [done|].
    destruct Ht as [Hcok _]; [apply d_start_ok; lia|]. unfold in_u in Hn.
    destruct (deserialize_terminated n c) as [s c'| |addr'] eqn:Es; [done|done|].
    by destruct (terminated_inside n c addr' Hcok ltac:(lia)).
  - intros [rest ->]. rewrite zlen_app, zlen_le_split in Hm. pose proof (zlen_nonneg rest).
    destruct (reads_start 0 Serialization_deserializeUInt (le_split 4 (2 ^ 32 - 1))
      (fun a => a = 2 ^ 32 - 1) (le_split 4 (2 ^ 32 - 1) ++ rest) rest) as (a & Ha & ->);
      [by apply reads_u32|done|lia|rewrite zlen_app, zlen_le_split; lia|].
    unfold Serialization_deserializeStr, mbind, Des_bind. rewrite Ha.
    unfold deserialize_terminated, mbind, Des_bind, des_get, des_check, des_peek.
    cbn [d_length d_data d_mem]. change (u32 (2 ^ 32 - 1 + 1)) with 0.
    destruct (Z.ltb_spec (zlen rest) 0); [lia|]. cbn [negb].
    destruct (load _ _ 1) as [bs|] eqn:El; [|by eexists]. exfalso. revert El. unfold load.
    cbn [d_mem]. rewrite zlen_app, !zlen_le_split. destruct (_ && _) eqn:Eb; [|done]. lia.
Qed.

Lemma deserializeStr_faults_witness :
  (exists addr, Serialization_deserializeStr (d_start (le_split 4 (2 ^ 32 - 1) ++ [Byte.x00])) = BadRead addr) <->
  exists rest, le_split 4 (2 ^ 32 - 1) ++ [Byte.x00] = le_split 4 (2 ^ 32 - 1) ++ rest.
Proof. apply deserializeStr_faults. reflexivity. Defined.

(** The padding check of aligned strings compares the bytes left with the
    position modulo 4 but skips the complement: a message that ends one byte behind
    a string whose length is a multiple of 4 is accepted and leaves the cursor behind
    the end of the buffer, with a length that has wrapped around. *)
Theorem strAlign4_underflow (s : list byte) (b : byte) :
  zlen s mod 4 = 0 -> zlen s < 2 ^ 31 ->
  let m := le_split 4 (zlen s) ++ s ++ [Byte.x00] ++ [b] in
  exists ctx, Serialization_deserializeStrAlign4 (d_start m) = Done (zlen s, s) ctx /\
    d_data ctx = zlen m + 2 /\ d_length ctx = 2 ^ 64 - 2.
Proof.
  intros Hs Hlen m. pose proof (zlen_nonneg s).
  assert (Hm : zlen m = zlen s + 6) by (unfold m, zlen; rewrite !length_app, length_le_split; cbn; lia).
  destruct (reads_start 0 Serialization_deserializeUInt (le_split 4 (zlen s)) (fun a => a = zlen s) m
    (s ++ [Byte.x00] ++ [b])) as (n & En & ->); [apply reads_u32; unfold in_u; lia|done|apply zlen_nonneg|lia|].
  assert (Hr : zlen (s ++ [Byte.x00] ++ [b]) = zlen s + 2) by (unfold zlen; rewrite !length_app; cbn; lia).
  rewrite zlen_le_split, Hr in En. cbn in En.
  set (c := MkDeserializeCtx m 4 (zlen s + 2)) in En.
  assert (H1 : zlen (s ++ [Byte.x00]) = zlen s + 1) by (by rewrite zlen_app).
  destruct (reads_terminated s ltac:(lia) c) as (s' & Es & ->).
  { unfold d_ok, c. cbn [d_data d_length d_mem]. lia. }
  { unfold d_next, c. cbn [d_data d_length d_mem]. rewrite H1. split; [lia|].
    rewrite load_in by lia. unfold m.
    rewrite drop_app_length' by (by rewrite length_le_split).
    rewrite app_assoc. f_equal. apply take_app_length'. unfold zlen in *. lia. }
  { rewrite H1. unfold c. cbn [d_length]. lia. }
  unfold Serialization_deserializeStrAlign4, mbind, Des_bind, des_get. rewrite En.
  change (Z.of_nat 4) with 4. fold c. rewrite Es.
  unfold d_advance, c, d_start. cbn [d_data d_length d_mem]. rewrite H1, u64_small by lia.
  replace ((4 + (zlen s + 1) - 0) mod 4) with 1.
  2: { symmetry. rewrite <- (Z.mod_add _ (-1)) by lia. replace (_ + _) with (zlen s + 1) by lia.
       rewrite <- Z.add_mod_idemp_l, Hs by lia. done. }
  unfold des_check, des_advance, d_advance, mret, Des_ret. cbn [d_data d_length d_mem].
  replace (zlen s + 2 - (zlen s + 1)) with 1 by lia. eexists. split; [reflexivity|].
  cbn [d_data d_length]. split; [lia|reflexivity].
Qed.

Lemma strAlign4_underflow_witness :
  let s := replicate 8 Byte.x61 in
  let m := le_split 4 (zlen s) ++ s ++ [Byte.x00] ++ [Byte.x2a] in
  exists ctx, Serialization_deserializeStrAlign4 (d_start m) = Done (zlen s, s) ctx /\
    d_data ctx = zlen m + 2 /\ d_length ctx = 2 ^ 64 - 2.
Proof. apply strAlign4_underflow; reflexivity. Defined.

(** The pass over a preprocessed NIC list trusts the element count: a list
    whose length field announces no elements' bytes but whose count is positive is
    accepted by the preprocessing at the end of a message, and the second pass reads
    behind the buffer. *)
Theorem niclist_overread (count : Z) :
  0 < count < 2 ^ 32 ->
  let m := le_split 4 8 ++ le_split 4 count in
  exists rl ctx, Serialization_deserializeNicListPreprocess (d_start m) = Done rl ctx /\
    rl_length rl = 0 /\ rl_elemCount rl = count /\
    Serialization_deserializeNicList rl ctx = BadRead (zlen m).
Proof.
  intros Hc m.
  destruct (reads_start 0 (a ← Serialization_deserializeUInt; b ← Serialization_deserializeUInt; mret (a, b))
    m (fun p => p = (8, count)) m []) as (p & Ep & ->); [|by rewrite app_nil_r|done|done|].
  { eapply reads_bind; [by apply reads_u32| |done]. intros a ->.
    eapply reads_last; [apply reads_u32; unfold in_u; lia|]. intros b ->. by apply reads_ret. }
  unfold mbind, Des_bind, mret, Des_ret in Ep.
  unfold Serialization_deserializeNicListPreprocess, mbind, Des_bind, des_get.
  destruct (Serialization_deserializeUInt (d_start m)) as [a c| |]; [|done..].
  destruct (Serialization_deserializeUInt c) as [b c'| |]; [|done..]. injection Ep as -> -> ->.
  unfold des_check, des_advance, mret, Des_ret. do 2 eexists. split; [reflexivity|].
  split_and!; [done|done|]. unfold Serialization_deserializeNicList. cbn [rl_elemCount rl_data rl_mem d_data d_mem].
  destruct (Z.to_nat count) as [|k] eqn:Ek; [lia|]. done.
Qed.

Lemma niclist_overread_witness :
  let m := le_split 4 8 ++ le_split 4 1 in
  exists rl ctx, Serialization_deserializeNicListPreprocess (d_start m) = Done rl ctx /\
    rl_length rl = 0 /\ rl_elemCount rl = 1 /\
    Serialization_deserializeNicList rl ctx = BadRead (zlen m).
Proof. apply (niclist_overread 1). lia. Defined.
