(* ===== verification/StorageFormats.v ===== *)
(** * Storage object formats

    Models the codecs of [client_module/source/common/storage] ([EntryInfo],
    [PathInfo], [StatData], [FileEvent], [RemoteStorageTarget], [StoragePoolId]),
    of [common/nodes/NumNodeID.c] and of the mapping lists of [common/Types.c]. *)

From S2P Require Import Prelude Wire Serialization.

(** ** Identifiers *)

Definition NumNodeID_serialize (this : Z) : Ser := Serialization_serializeUInt this.
Definition NumNodeID_deserialize : Des Z := Serialization_deserializeUInt.

Definition StoragePoolId_serialize (this : Z) : Ser := Serialization_serializeUShort this.
Definition StoragePoolId_deserialize : Des Z := Serialization_deserializeUShort.

(** ** EntryInfo *)

Definition ENTRYINFO_FEATURE_INLINED : Z := 1.
Definition ENTRYINFO_FEATURE_BUDDYMIRRORED : Z := 2.
Definition MIN_ENTRY_ID_LEN : Z := 1.

(** [flags & mask] as a truth value. *)
Definition has_flag (flags mask : Z) : bool := negb (Z.land flags mask =? 0).

(** [struct NodeOrGroup]: [node] and [group] share their representation. *)
Record NodeOrGroup := MkNodeOrGroup { ng_id : Z; ng_isGroup : bool }.

Definition NodeOrGroup_fromNode (node : Z) : NodeOrGroup := MkNodeOrGroup node false.
Definition NodeOrGroup_fromGroup (group : Z) : NodeOrGroup := MkNodeOrGroup group true.
Definition NodeOrGroup_valid (id : NodeOrGroup) : bool := negb (ng_id id =? 0).

Record EntryInfo := MkEntryInfo {
  ei_owner : NodeOrGroup;
  ei_parentEntryID : list byte;
  ei_entryID : list byte;
  ei_fileName : list byte;
  ei_entryType : Z;     (* DirEntryType *)
  ei_featureFlags : Z   (* int *)
}.

Definition EntryInfo_init (owner : NodeOrGroup) (parentEntryID entryID fileName : list byte)
    (entryType featureFlags : Z) : EntryInfo :=
  MkEntryInfo owner parentEntryID entryID fileName entryType
    (Z.lor featureFlags (if ng_isGroup owner then ENTRYINFO_FEATURE_BUDDYMIRRORED else 0)).

Definition DirEntryType_DIRECTORY : Z := 1.

(** The entry ID and type of [this] are kept; a directory keeps its owner. *)
Definition EntryInfo_update (this newEntryInfo : EntryInfo) : EntryInfo :=
  MkEntryInfo
    (if ei_entryType this =? DirEntryType_DIRECTORY then ei_owner this else ei_owner newEntryInfo)
    (ei_parentEntryID newEntryInfo) (ei_entryID this) (ei_fileName newEntryInfo)
    (ei_entryType this) (ei_featureFlags newEntryInfo).

Definition EntryInfo_getIsBuddyMirrored (this : EntryInfo) : bool :=
  has_flag (ei_featureFlags this) ENTRYINFO_FEATURE_BUDDYMIRRORED.

Definition EntryInfo_serialize (this : EntryInfo) : Ser :=
  Serialization_serializeUInt (ei_entryType this) +>
  Serialization_serializeInt (ei_featureFlags this) +>
  Serialization_serializeStrAlign4 (strlen (ei_parentEntryID this)) (ei_parentEntryID this) +>
  Serialization_serializeStrAlign4 (strlen (ei_entryID this)) (ei_entryID this) +>
  Serialization_serializeStrAlign4 (strlen (ei_fileName this)) (ei_fileName this) +>
  NumNodeID_serialize (ng_id (ei_owner this)) +>
  Serialization_serializeUShort 0.

(** The string fields keep pointers into the received object: C strings. *)
Definition EntryInfo_deserialize : Des EntryInfo :=
  entryType ← Serialization_deserializeUInt;
  featureFlags ← Serialization_deserializeInt;
  '(parentEntryIDLen, parentEntryID) ← Serialization_deserializeStrAlign4;
  '(entryIDLen, entryID) ← Serialization_deserializeStrAlign4;
  '(fileNameLen, fileName) ← Serialization_deserializeStrAlign4;
  let isGroup := has_flag featureFlags ENTRYINFO_FEATURE_BUDDYMIRRORED in
  node ← NumNodeID_deserialize;
  padding ← Serialization_deserializeUShort;
  des_check (negb ((parentEntryIDLen <? MIN_ENTRY_ID_LEN) && (0 <? parentEntryIDLen)));;
  des_check (negb (entryIDLen <? MIN_ENTRY_ID_LEN));;
  mret (MkEntryInfo (MkNodeOrGroup node isGroup) (cstr parentEntryID) (cstr entryID)
          (cstr fileName) entryType featureFlags).

(** ** PathInfo *)

Definition PATHINFO_FEATURE_ORIG : Z := 1.

Record PathInfo := MkPathInfo {
  pi_flags : Z;
  pi_origParentUID : Z;
  pi_origParentEntryID : option (list byte) (* NULL pointer: None *)
}.

Definition PathInfo_init (origParentUID : Z) (origParentEntryID : option (list byte)) (flags : Z) :
    PathInfo := MkPathInfo flags origParentUID origParentEntryID.

(** [strlen(NULL)] is a fault. *)
Definition PathInfo_serialize (this : PathInfo) : Ser :=
  Serialization_serializeUInt (pi_flags this) +>
  ser_if (has_flag (pi_flags this) PATHINFO_FEATURE_ORIG)
    (Serialization_serializeUInt (pi_origParentUID this) +>
     match pi_origParentEntryID this with
     | Some s => Serialization_serializeStrAlign4 (strlen s) s
     | None => fun _ => None
     end).

Definition PathInfo_deserialize : Des PathInfo :=
  flags ← Serialization_deserializeUInt;
  if has_flag flags PATHINFO_FEATURE_ORIG then
    origParentUID ← Serialization_deserializeUInt;
    '(_, origParentEntryID) ← Serialization_deserializeStrAlign4;
    mret (PathInfo_init origParentUID (Some (cstr origParentEntryID)) flags)
  else mret (PathInfo_init 0 None flags).

(** Copies the string only for entries with an original parent. *)
Definition PathInfo_dup (inPathInfo : PathInfo) : PathInfo :=
  PathInfo_init (pi_origParentUID inPathInfo)
    (if has_flag (pi_flags inPathInfo) PATHINFO_FEATURE_ORIG
     then pi_origParentEntryID inPathInfo else None)
    (pi_flags inPathInfo).

Definition PathInfo_update (this newPathInfo : PathInfo) : PathInfo :=
  let needUpdate :=
    if negb (pi_flags this =? pi_flags newPathInfo) then true
    else if negb (pi_origParentUID this =? pi_origParentUID newPathInfo) then true
    else match pi_origParentEntryID this, pi_origParentEntryID newPathInfo with
         | Some a, Some b => negb (bool_decide (cstr a = cstr b))
         | _, _ => false
         end in
  if needUpdate then PathInfo_dup newPathInfo else this.

(** ** StatData *)

Record SettableFileAttribs := MkSettableFileAttribs {
  sfa_mode : Z;
  sfa_userID : Z;
  sfa_groupID : Z;
  sfa_modificationTimeSecs : Z;
  sfa_lastAccessTimeSecs : Z
}.

Record StatData := MkStatData {
  sd_flags : Z;
  sd_fileSize : Z;
  sd_numBlocks : Z;
  sd_creationTimeSecs : Z;
  sd_attribChangeTimeSecs : Z;
  sd_nlink : Z;
  sd_settableFileAttribs : SettableFileAttribs;
  sd_metaVersion : Z
}.

Definition StatData_deserialize : Des StatData :=
  flags ← Serialization_deserializeUInt;
  mode ← Serialization_deserializeInt;
  numBlocks ← Serialization_deserializeUInt64;
  creationTimeSecs ← Serialization_deserializeInt64;
  lastAccessTimeSecs ← Serialization_deserializeInt64;
  modificationTimeSecs ← Serialization_deserializeInt64;
  attribChangeTimeSecs ← Serialization_deserializeInt64;
  fileSize ← Serialization_deserializeInt64;
  nlink ← Serialization_deserializeUInt;
  metaVersion ← Serialization_deserializeUInt;
  userID ← Serialization_deserializeUInt;
  groupID ← Serialization_deserializeUInt;
  mret (MkStatData flags fileSize numBlocks creationTimeSecs attribChangeTimeSecs nlink
          (MkSettableFileAttribs mode userID groupID modificationTimeSecs lastAccessTimeSecs)
          metaVersion).

(** ** FileEvent *)

Record FileEvent := MkFileEvent {
  fe_eventType : Z;
  fe_path : option (list byte);
  fe_target : option (list byte)
}.

Definition FileEvent_serialize (event : FileEvent) : Ser :=
  Serialization_serializeUInt (fe_eventType event) +>
  match fe_path event with
  | Some path => Serialization_serializeStr (strlen path) path
  | None => Serialization_serializeStr 0 []
  end +>
  match fe_target event with
  | Some target =>
      Serialization_serializeBool true +> Serialization_serializeStr (strlen target) target
  | None => Serialization_serializeBool false
  end.

(** ** RemoteStorageTarget *)

Record RemoteStorageTarget := MkRemoteStorageTarget {
  rst_majorVersion : Z;
  rst_minorVersion : Z;
  rst_coolDownPeriod : Z;
  rst_reserved : Z;
  rst_filePolicies : Z;
  rst_numRSTIds : Z;
  rst_rstIds : list Z (* NULL: [] *)
}.

(** Reading [rstIds[i]] behind the array is a fault in both passes. *)
Definition RemoteStorageTarget_serialize (this : RemoteStorageTarget) : Ser :=
  let vecByteLen := u32 (4 + rst_numRSTIds this * 4) in
  Serialization_serializeUInt8 (rst_majorVersion this) +>
  Serialization_serializeUInt8 (rst_minorVersion this) +>
  Serialization_serializeUShort (rst_coolDownPeriod this) +>
  Serialization_serializeUShort (rst_reserved this) +>
  Serialization_serializeUShort (rst_filePolicies this) +>
  Serialization_serializeUInt vecByteLen +>
  Serialization_serializeUInt (rst_numRSTIds this) +>
  (if zlen (rst_rstIds this) <? rst_numRSTIds this then fun _ => None
   else ser_each Serialization_serializeUInt
          (take (Z.to_nat (rst_numRSTIds this)) (rst_rstIds this))).

Section RemoteStorageTarget.
(** Whether the kernel grants an allocation of that many bytes. *)
Context (kmalloc_ok : Z -> bool).

Definition RemoteStorageTarget_deserialize : Des RemoteStorageTarget :=
  majorVersion ← Serialization_deserializeUInt8;
  minorVersion ← Serialization_deserializeUInt8;
  coolDownPeriod ← Serialization_deserializeUShort;
  reserved ← Serialization_deserializeUShort;
  filePolicies ← Serialization_deserializeUShort;
  innerCtx ← __Serialization_deserializeNestedField;
  '(rstVecCount, innerCtx) ← des_in innerCtx Serialization_deserializeUInt;
  rstIds ←
    (if 0 <? rstVecCount then
       des_check (kmalloc_ok (rstVecCount * 4));;
       '(ids, _) ← des_in innerCtx
         (des_times (Z.to_nat rstVecCount) Serialization_deserializeUInt);
       mret ids
     else mret []);
  mret (MkRemoteStorageTarget majorVersion minorVersion coolDownPeriod reserved filePolicies
          rstVecCount rstIds).
End RemoteStorageTarget.

(** ** Mapping lists ([common/Types.c]) *)

Record TargetMapping := MkTargetMapping { tm_targetID : Z; tm_nodeID : Z }.

Definition TargetMapping_serialize (value : TargetMapping) : Ser :=
  Serialization_serializeUShort (tm_targetID value) +> NumNodeID_serialize (tm_nodeID value).
Definition TargetMapping_deserialize : Des TargetMapping :=
  targetID ← Serialization_deserializeUShort;
  nodeID ← NumNodeID_deserialize;
  mret (MkTargetMapping targetID nodeID).
Definition TargetMappingList_serialize : list TargetMapping -> Ser :=
  serdes_list_serialize false TargetMapping_serialize.
Definition TargetMappingList_deserialize : list TargetMapping -> Des (list TargetMapping) :=
  serdes_list_deserialize false TargetMapping_deserialize.

Record TargetPoolMapping := MkTargetPoolMapping { tpm_targetID : Z; tpm_poolID : Z }.

Definition TargetPoolMapping_serialize (value : TargetPoolMapping) : Ser :=
  Serialization_serializeUShort (tpm_targetID value) +> StoragePoolId_serialize (tpm_poolID value).
Definition TargetPoolMapping_deserialize : Des TargetPoolMapping :=
  targetID ← Serialization_deserializeUShort;
  poolID ← StoragePoolId_deserialize;
  mret (MkTargetPoolMapping targetID poolID).
Definition TargetPoolMappingList_serialize : list TargetPoolMapping -> Ser :=
  serdes_list_serialize false TargetPoolMapping_serialize.
Definition TargetPoolMappingList_deserialize :
    list TargetPoolMapping -> Des (list TargetPoolMapping) :=
  serdes_list_deserialize false TargetPoolMapping_deserialize.

Record BuddyGroupMapping := MkBuddyGroupMapping {
  bgm_groupID : Z; bgm_primaryTargetID : Z; bgm_secondaryTargetID : Z
}.

Definition BuddyGroupMapping_serialize (value : BuddyGroupMapping) : Ser :=
  Serialization_serializeUShort (bgm_groupID value) +>
  Serialization_serializeUShort (bgm_primaryTargetID value) +>
  Serialization_serializeUShort (bgm_secondaryTargetID value).
Definition BuddyGroupMapping_deserialize : Des BuddyGroupMapping :=
  groupID ← Serialization_deserializeUShort;
  primaryTargetID ← Serialization_deserializeUShort;
  secondaryTargetID ← Serialization_deserializeUShort;
  mret (MkBuddyGroupMapping groupID primaryTargetID secondaryTargetID).
Definition BuddyGroupMappingList_serialize : list BuddyGroupMapping -> Ser :=
  serdes_list_serialize false BuddyGroupMapping_serialize.
Definition BuddyGroupMappingList_deserialize :
    list BuddyGroupMapping -> Des (list BuddyGroupMapping) :=
  serdes_list_deserialize false BuddyGroupMapping_deserialize.

(** The enum fields travel as [uint8_t]. *)
Record TargetStateMapping := MkTargetStateMapping {
  tsm_targetID : Z; tsm_reachabilityState : Z; tsm_consistencyState : Z
}.

Definition TargetStateMapping_serialize (value : TargetStateMapping) : Ser :=
  Serialization_serializeUShort (tsm_targetID value) +>
  Serialization_serializeUInt8 (tsm_reachabilityState value) +>
  Serialization_serializeUInt8 (tsm_consistencyState value).
Definition TargetStateMapping_deserialize : Des TargetStateMapping :=
  targetID ← Serialization_deserializeUShort;
  reachabilityState ← Serialization_deserializeUInt8;
  consistencyState ← Serialization_deserializeUInt8;
  mret (MkTargetStateMapping targetID reachabilityState consistencyState).
Definition TargetStateMappingList_serialize : list TargetStateMapping -> Ser :=
  serdes_list_serialize false TargetStateMapping_serialize.
Definition TargetStateMappingList_deserialize :
    list TargetStateMapping -> Des (list TargetStateMapping) :=
  serdes_list_deserialize false TargetStateMapping_deserialize.
