(* ===== verification/StorageFormatsFacts.v ===== *)
(** * Storage object formats: round trips and memory safety

    Formats, acceptance and safety lemmas for the codecs of [StorageFormats.v],
    and the tactics with which the message codecs are proved as well. *)

From S2P Require Import Prelude Wire Serialization SerializationFacts StorageFormats.

(** ** Tactics *)

(** One step of an acceptance proof: read the next field of the format. *)
Ltac reads_field :=
  eapply reads_bind;
    [ solve [eauto with wire]
    | let H := fresh in intros ? H; cbn beta in H; subst; cbn beta iota
    | solve [lia | zlia] ].
Ltac reads_final :=
  eapply reads_last;
    [ solve [eauto with wire]
    | let H := fresh in intros ? H; cbn beta in H; subst; cbn beta iota ].
Ltac reads_guard :=
  eapply reads_last;
    [ eapply (reads_check _ _ (fun _ => True)); [|done]
    | intros _ _ ].

(** One step of a safety proof. *)
Ltac triple_field :=
  eapply triple_bind; [ solve [eauto with wire] | intros ? ? ].
Ltac triple_guard :=
  eapply triple_bind; [ apply (triple_check _ _ (fun _ => True)); done | intros ? _ ].
Ltac triple_solve :=
  repeat first
    [ apply triple_ret; done
    | triple_field
    | triple_guard
    | progress cbv zeta
    | match goal with |- triple _ (let '(_, _) := ?x in _) _ => destruct x end
    | apply triple_if; intros ? ].

#[export] Hint Extern 1 (in_u _ _) => assumption : wire.
#[export] Hint Extern 1 (in_s _ _) => assumption : wire.
#[export] Hint Extern 2 (in_u _ _) => solve [unfold in_u; lia] : wire.

(** ** Identifiers *)

Lemma writes_numNodeID v : writes (NumNodeID_serialize v) (le_split 4 v).
Proof. done. Qed.
Lemma reads_numNodeID v : in_u 32 v -> reads 0 NumNodeID_deserialize (le_split 4 v) (fun a => a = v).
Proof. apply reads_u32. Qed.
Lemma triple_numNodeID F : triple F NumNodeID_deserialize (in_u 32).
Proof. apply triple_u32. Qed.
Lemma writes_storagePoolId v : writes (StoragePoolId_serialize v) (le_split 2 v).
Proof. done. Qed.
Lemma reads_storagePoolId v :
  in_u 16 v -> reads 0 StoragePoolId_deserialize (le_split 2 v) (fun a => a = v).
Proof. apply reads_u16. Qed.
Lemma triple_storagePoolId F : triple F StoragePoolId_deserialize (in_u 16).
Proof. apply triple_u16. Qed.
#[export] Hint Resolve writes_numNodeID reads_numNodeID triple_numNodeID writes_storagePoolId
  reads_storagePoolId triple_storagePoolId : wire.

(** ** C strings in formats *)

Lemma writes_cstrAlign4 s :
  strlen s + 1 < 2 ^ 32 ->
  writes (Serialization_serializeStrAlign4 (strlen s) s) (enc_strAlign4 (cstr s)).
Proof.
  intros Hs. destruct (cstr_prefix s) as [Htake Hle].
  unfold enc_strAlign4. fold (strlen s).
  repeat apply writes_seq; auto with wire; [|apply writes_pad4; lia].
  eapply writes_eq; [by apply writes_block_take|done].
Qed.

Lemma writes_cstr s :
  writes (Serialization_serializeStr (strlen s) s) (enc_str (cstr s)).
Proof.
  destruct (cstr_prefix s) as [Htake Hle]. unfold enc_str. fold (strlen s).
  repeat apply writes_seq; auto with wire.
  eapply writes_eq; [by apply writes_block_take|done].
Qed.

#[export] Hint Resolve writes_cstrAlign4 writes_cstr reads_strAlign4 reads_str : wire.

(** ** EntryInfo *)

Definition enc_entryInfo (e : EntryInfo) : list byte :=
  le_split 4 (ei_entryType e) ++ le_split 4 (ei_featureFlags e) ++
  enc_strAlign4 (cstr (ei_parentEntryID e)) ++ enc_strAlign4 (cstr (ei_entryID e)) ++
  enc_strAlign4 (cstr (ei_fileName e)) ++ le_split 4 (ng_id (ei_owner e)) ++ le_split 2 0.

(** Strings short enough for their length fields. *)
Definition short (s : list byte) : Prop := strlen s + 1 < 2 ^ 32.

Definition entryInfo_short (e : EntryInfo) : Prop :=
  short (ei_parentEntryID e) /\ short (ei_entryID e) /\ short (ei_fileName e).

(** What the fields of an [EntryInfo] object of the client satisfy: field ranges, a
    non-empty entry ID, C strings, and the mirror flag agreeing with the owner. *)
Definition entryInfo_ok (e : EntryInfo) : Prop :=
  entryInfo_short e /\ in_u 32 (ei_entryType e) /\ in_s 32 (ei_featureFlags e) /\
  in_u 32 (ng_id (ei_owner e)) /\
  ng_isGroup (ei_owner e) = has_flag (ei_featureFlags e) ENTRYINFO_FEATURE_BUDDYMIRRORED /\
  no_nul (ei_parentEntryID e) /\ no_nul (ei_entryID e) /\ no_nul (ei_fileName e) /\
  1 <= zlen (ei_entryID e).

Lemma writes_entryInfo e : entryInfo_short e -> writes (EntryInfo_serialize e) (enc_entryInfo e).
Proof. intros (?&?&?). unfold enc_entryInfo, EntryInfo_serialize. auto 10 with wire. Qed.

Lemma zlen_enc_strAlign4 s : zlen (enc_strAlign4 s) = zlen s + 5 + zlen (pad4 (zlen s + 1)).
Proof. unfold enc_strAlign4. autorewrite with zlen. lia. Qed.
#[export] Hint Rewrite zlen_enc_strAlign4 : zlen.

Lemma reads_entryInfo e :
  entryInfo_ok e -> reads 0 EntryInfo_deserialize (enc_entryInfo e) (fun x => x = e).
Proof.
  intros ((Hs1 & Hs2 & Hs3) & Hty & Hff & Hid & Hgrp & Hn1 & Hn2 & Hn3 & Hlen).
  unfold short, strlen in *. unfold enc_entryInfo. rewrite !cstr_no_nul in * by done.
  reads_field. reads_field. reads_field. reads_field. reads_field. reads_field. reads_final.
  reads_guard.
  { unfold MIN_ENTRY_ID_LEN.
    destruct (Z.ltb_spec (zlen (ei_parentEntryID e)) 1),
      (Z.ltb_spec 0 (zlen (ei_parentEntryID e))); (done || lia). }
  reads_guard.
  { unfold MIN_ENTRY_ID_LEN. by rewrite (proj2 (Z.ltb_ge _ _)) by lia. }
  apply reads_ret. rewrite !cstr_no_nul by done. rewrite <- Hgrp.
  by destruct e as [[] ? ? ? ? ?].
Qed.

(** ** PathInfo *)

Definition enc_pathInfo (p : PathInfo) : list byte :=
  le_split 4 (pi_flags p) ++
  (if has_flag (pi_flags p) PATHINFO_FEATURE_ORIG
   then le_split 4 (pi_origParentUID p) ++
        enc_strAlign4 (cstr (default [] (pi_origParentEntryID p)))
   else []).

(** The pointer is set when the flag says so. *)
Definition pathInfo_short (p : PathInfo) : Prop :=
  has_flag (pi_flags p) PATHINFO_FEATURE_ORIG = true ->
  exists s, pi_origParentEntryID p = Some s /\ short s.

Definition pathInfo_ok (p : PathInfo) : Prop :=
  in_u 32 (pi_flags p) /\
  if has_flag (pi_flags p) PATHINFO_FEATURE_ORIG
  then in_u 32 (pi_origParentUID p) /\
       exists s, pi_origParentEntryID p = Some s /\ short s /\ no_nul s
  else pi_origParentUID p = 0 /\ pi_origParentEntryID p = None.

Lemma writes_pathInfo p : pathInfo_short p -> writes (PathInfo_serialize p) (enc_pathInfo p).
Proof.
  intros Hs. unfold PathInfo_serialize, enc_pathInfo. apply writes_seq; [auto with wire|].
  apply writes_if. intros E. destruct (Hs E) as (s & -> & ?). auto with wire.
Qed.

Lemma reads_pathInfo p :
  pathInfo_ok p -> reads 2 PathInfo_deserialize (enc_pathInfo p) (fun x => x = p).
Proof.
  intros [Hfl H]. unfold enc_pathInfo. pose proof (zlen_nonneg (enc_pathInfo p)).
  eapply reads_bind; [eauto with wire| |].
  2: { destruct (has_flag _ _); zlia. }
  intros ? ->. destruct (has_flag (pi_flags p) PATHINFO_FEATURE_ORIG) eqn:E.
  - destruct H as (Huid & s & Hs & Hshort & Hnul). unfold short, strlen in Hshort.
    rewrite Hs. cbn [default]. rewrite cstr_no_nul in * by done.
    reads_field. reads_final. apply reads_ret. rewrite cstr_no_nul by done.
    destruct p; cbn in *. by subst.
  - destruct H as [Hu Hp]. apply reads_ret. destruct p; cbn in *. by subst.
Qed.

(** ** StatData *)

Definition enc_statData (s : StatData) : list byte :=
  let a := sd_settableFileAttribs s in
  le_split 4 (sd_flags s) ++ le_split 4 (sfa_mode a) ++ le_split 8 (sd_numBlocks s) ++
  le_split 8 (sd_creationTimeSecs s) ++ le_split 8 (sfa_lastAccessTimeSecs a) ++
  le_split 8 (sfa_modificationTimeSecs a) ++ le_split 8 (sd_attribChangeTimeSecs s) ++
  le_split 8 (sd_fileSize s) ++ le_split 4 (sd_nlink s) ++ le_split 4 (sd_metaVersion s) ++
  le_split 4 (sfa_userID a) ++ le_split 4 (sfa_groupID a).

Definition statData_ok (s : StatData) : Prop :=
  let a := sd_settableFileAttribs s in
  in_u 32 (sd_flags s) /\ in_s 32 (sfa_mode a) /\ in_u 64 (sd_numBlocks s) /\
  in_s 64 (sd_creationTimeSecs s) /\ in_s 64 (sfa_lastAccessTimeSecs a) /\
  in_s 64 (sfa_modificationTimeSecs a) /\ in_s 64 (sd_attribChangeTimeSecs s) /\
  in_s 64 (sd_fileSize s) /\ in_u 32 (sd_nlink s) /\ in_u 32 (sd_metaVersion s) /\
  in_u 32 (sfa_userID a) /\ in_u 32 (sfa_groupID a).

Lemma reads_statData s :
  statData_ok s -> reads 0 StatData_deserialize (enc_statData s) (fun x => x = s).
Proof.
  intros (?&?&?&?&?&?&?&?&?&?&?&?). unfold enc_statData. cbv zeta in *.
  do 11 reads_field. reads_final. apply reads_ret. by destruct s as [? ? ? ? ? ? [] ?].
Qed.

Lemma triple_statData F : triple F StatData_deserialize statData_ok.
Proof.
  unfold StatData_deserialize. do 12 triple_field. apply triple_ret.
  unfold statData_ok. cbn. tauto.
Qed.

(** ** FileEvent *)

Definition enc_fileEvent (e : FileEvent) : list byte :=
  le_split 4 (fe_eventType e) ++ enc_str (cstr (default [] (fe_path e))) ++
  match fe_target e with
  | Some target => enc_bool true ++ enc_str (cstr target)
  | None => enc_bool false
  end.

Lemma writes_fileEvent e : writes (FileEvent_serialize e) (enc_fileEvent e).
Proof.
  unfold FileEvent_serialize, enc_fileEvent.
  apply writes_seq; [auto with wire|]. apply writes_seq.
  - destruct (fe_path e); cbn [default]; auto with wire.
  - destruct (fe_target e); auto with wire.
Qed.

(** ** RemoteStorageTarget *)

Definition enc_rst (r : RemoteStorageTarget) : list byte :=
  le_split 1 (rst_majorVersion r) ++ le_split 1 (rst_minorVersion r) ++
  le_split 2 (rst_coolDownPeriod r) ++ le_split 2 (rst_reserved r) ++
  le_split 2 (rst_filePolicies r) ++ enc_list (le_split 4) (rst_rstIds r).

Definition rst_ok (r : RemoteStorageTarget) : Prop :=
  in_u 8 (rst_majorVersion r) /\ in_u 8 (rst_minorVersion r) /\
  in_u 16 (rst_coolDownPeriod r) /\ in_u 16 (rst_reserved r) /\ in_u 16 (rst_filePolicies r) /\
  rst_numRSTIds r = zlen (rst_rstIds r) /\ Forall (in_u 32) (rst_rstIds r) /\
  8 + 4 * zlen (rst_rstIds r) < 2 ^ 32.

Lemma zlen_bind_const {A} (g : A -> list byte) k l :
  (forall x, zlen (g x) = k) -> zlen (l ≫= g) = k * zlen l.
Proof.
  intros Hg. induction l as [|x l IH]; [unfold zlen; cbn; lia|].
  change ((x :: l) ≫= g) with (g x ++ (l ≫= g)). rewrite zlen_app, zlen_cons, Hg, IH. lia.
Qed.

Lemma writes_rst r : rst_ok r ->
  (** the length field of the vector excludes itself: 4 bytes for the count *)
  writes (RemoteStorageTarget_serialize r)
    (le_split 1 (rst_majorVersion r) ++ le_split 1 (rst_minorVersion r) ++
     le_split 2 (rst_coolDownPeriod r) ++ le_split 2 (rst_reserved r) ++
     le_split 2 (rst_filePolicies r) ++ le_split 4 (4 + 4 * zlen (rst_rstIds r)) ++
     le_split 4 (zlen (rst_rstIds r)) ++ (rst_rstIds r ≫= le_split 4)).
Proof.
  intros (?&?&?&?&?&Hnum&?&Hlen). unfold RemoteStorageTarget_serialize. cbv zeta.
  pose proof (zlen_nonneg (rst_rstIds r)). rewrite Hnum.
  rewrite (proj2 (Z.ltb_ge _ _)) by lia.
  replace (u32 (4 + zlen (rst_rstIds r) * 4)) with (4 + 4 * zlen (rst_rstIds r))
    by (rewrite u32_small; lia).
  rewrite take_ge by (unfold zlen; lia).
  repeat apply writes_seq; auto with wire. apply writes_each. auto with wire.
Qed.

(** The deserialiser expects a vector length that includes its own field. *)
Lemma reads_rst kmalloc_ok r :
  rst_ok r -> (forall n, kmalloc_ok n = true) ->
  reads 0 (RemoteStorageTarget_deserialize kmalloc_ok) (enc_rst r) (fun x => x = r).
Proof.
  intros (?&?&?&?&?&Hnum&Hids&Hlen) Hk. unfold enc_rst, enc_list.
  pose proof (zlen_nonneg (rst_rstIds r)) as Hnn.
  assert (Hsz : zlen (rst_rstIds r ≫= le_split 4) = 4 * zlen (rst_rstIds r))
    by (apply zlen_bind_const; intros; apply zlen_le_split).
  do 5 reads_field.
  replace (8 + zlen (rst_rstIds r ≫= le_split 4))
    with (4 + zlen (le_split 4 (zlen (rst_rstIds r)) ++ (rst_rstIds r ≫= le_split 4))) by zlia.
  eapply reads_last; [apply reads_nested; rewrite zlen_app, zlen_le_split; lia|].
  intros inner (Hi & Hn & Hil). pose proof (d_next_app _ _ _ Hi Hn) as [Hn1 Hn2].
  assert (Hcnt : in_u 32 (zlen (rst_rstIds r))) by (unfold in_u; lia).
  eapply reads_last; [apply (reads_in _ _ _ _ Hi Hn1 (reads_u32 _ Hcnt))|].
  intros [n inner'] [-> ->]. cbn beta iota.
  apply (reads_last _ _ _ _ (fun l => l = rst_rstIds r)).
  - destruct (Z.ltb_spec 0 (zlen (rst_rstIds r))) as [Hpos|Hzero].
    2: { apply reads_ret. by destruct (rst_rstIds r); [|zlia]. }
    reads_guard; [apply Hk|]. rewrite to_nat_zlen.
    eapply reads_last; [apply reads_in; [|exact Hn2|apply reads_times]|].
    + apply d_advance_ok; [done|]. rewrite Hil. zlia.
    + intros x Hx. apply reads_u32. eapply Forall_forall in Hids; [done|]. by apply list_elem_of_In.
    + intros [l c'] [-> _]. by apply reads_ret.
  - intros ? ->. apply reads_ret. rewrite <- Hnum. by destruct r.
Qed.

Lemma triple_rst F kmalloc_ok :
  triple F (RemoteStorageTarget_deserialize kmalloc_ok)
    (fun r => zlen (rst_rstIds r) = rst_numRSTIds r /\ Forall (in_u 32) (rst_rstIds r)).
Proof.
  unfold RemoteStorageTarget_deserialize. do 5 triple_field.
  eapply triple_bind; [apply triple_nested|]. intros inner [Hi _].
  eapply triple_bind; [by apply triple_in_u32|]. intros [n inner'] (Hn & -> & Hok' & _).
  eapply (triple_bind _ _ _ (fun l => zlen l = n /\ Forall (in_u 32) l)).
  - apply triple_if; intros E; [|apply triple_ret; unfold in_u in Hn; split; [zlia|done]].
    triple_guard. eapply triple_bind; [apply triple_in; [done|apply triple_times, triple_u32]|].
    intros [l c'] (_ & ? & ?). apply triple_ret. unfold in_u in Hn. split; [zlia|done].
  - intros l [? ?]. by apply triple_ret.
Qed.

(** ** Mapping lists *)

Section serdes_list_facts.
Context {A : Type} (ser : A -> Ser) (des : Des A) (enc : A -> list byte) (ok : A -> Prop).
Hypothesis ser_writes : forall x, writes (ser x) (enc x).
Hypothesis des_reads : forall x, ok x -> reads 0 des (enc x) (fun y => y = x).

(** Element count and elements (the variant without total length). *)
Definition enc_seq (l : list A) : list byte := le_split 4 (zlen l) ++ (l ≫= enc).

Lemma writes_serdes_list l :
  zlen l < 2 ^ 32 -> writes (serdes_list_serialize false ser l) (enc_seq l).
Proof.
  intros Hl. pose proof (zlen_nonneg l). unfold serdes_list_serialize. rewrite u32_small by lia.
  eapply (writes_patched _ _ (fun _ => le_split 4 (zlen l)) (le_split 4 0) (l ≫= enc)).
  - eapply writes_eq; [apply writes_seq; [apply writes_skip|]|reflexivity].
    apply writes_seq; [apply writes_u32|]. by apply writes_each.
  - intros n. eapply writes_eq; [apply writes_seq; [apply writes_skip|apply writes_u32]|reflexivity].
  - intros. by rewrite !zlen_le_split.
Qed.

Lemma reads_serdes_list l l0 :
  Forall ok l -> zlen l < 2 ^ 32 ->
  reads 0 (serdes_list_deserialize false des l0) (enc_seq l) (fun k => k = l0 ++ l).
Proof.
  intros Hok Hl. pose proof (zlen_nonneg l).
  eapply reads_bind; [apply reads_u32; unfold in_u; lia| |zlia]. intros ? ->.
  rewrite to_nat_zlen.
  eapply reads_last; [apply reads_times|].
  - intros x Hx. apply des_reads. eapply Forall_forall in Hok; [done|]. by apply list_elem_of_In.
  - intros ? ->. by apply reads_ret.
Qed.

Lemma triple_serdes_list F P l0 :
  triple F des P -> Forall P l0 ->
  triple F (serdes_list_deserialize false des l0) (Forall P).
Proof.
  intros Hd H0. eapply triple_bind; [apply triple_u32|]. intros n _.
  eapply triple_bind; [by apply triple_times|]. intros l [? _]. apply triple_ret.
  by apply Forall_app.
Qed.
End serdes_list_facts.

Definition enc_targetMapping (v : TargetMapping) : list byte :=
  le_split 2 (tm_targetID v) ++ le_split 4 (tm_nodeID v).
Definition targetMapping_ok (v : TargetMapping) : Prop :=
  in_u 16 (tm_targetID v) /\ in_u 32 (tm_nodeID v).

Lemma writes_targetMapping v : writes (TargetMapping_serialize v) (enc_targetMapping v).
Proof. unfold TargetMapping_serialize, enc_targetMapping. auto with wire. Qed.
Lemma reads_targetMapping v :
  targetMapping_ok v -> reads 0 TargetMapping_deserialize (enc_targetMapping v) (fun y => y = v).
Proof. intros [??]. reads_field. reads_final. apply reads_ret. by destruct v. Qed.
Lemma triple_targetMapping F : triple F TargetMapping_deserialize targetMapping_ok.
Proof. unfold TargetMapping_deserialize. triple_solve. Qed.

Definition enc_targetPoolMapping (v : TargetPoolMapping) : list byte :=
  le_split 2 (tpm_targetID v) ++ le_split 2 (tpm_poolID v).
Definition targetPoolMapping_ok (v : TargetPoolMapping) : Prop :=
  in_u 16 (tpm_targetID v) /\ in_u 16 (tpm_poolID v).

Lemma writes_targetPoolMapping v :
  writes (TargetPoolMapping_serialize v) (enc_targetPoolMapping v).
Proof. unfold TargetPoolMapping_serialize, enc_targetPoolMapping. auto with wire. Qed.
Lemma reads_targetPoolMapping v :
  targetPoolMapping_ok v ->
  reads 0 TargetPoolMapping_deserialize (enc_targetPoolMapping v) (fun y => y = v).
Proof. intros [??]. reads_field. reads_final. apply reads_ret. by destruct v. Qed.
Lemma triple_targetPoolMapping F : triple F TargetPoolMapping_deserialize targetPoolMapping_ok.
Proof. unfold TargetPoolMapping_deserialize. triple_solve. Qed.

Definition enc_buddyGroupMapping (v : BuddyGroupMapping) : list byte :=
  le_split 2 (bgm_groupID v) ++ le_split 2 (bgm_primaryTargetID v) ++
  le_split 2 (bgm_secondaryTargetID v).
Definition buddyGroupMapping_ok (v : BuddyGroupMapping) : Prop :=
  in_u 16 (bgm_groupID v) /\ in_u 16 (bgm_primaryTargetID v) /\ in_u 16 (bgm_secondaryTargetID v).

Lemma writes_buddyGroupMapping v :
  writes (BuddyGroupMapping_serialize v) (enc_buddyGroupMapping v).
Proof. unfold BuddyGroupMapping_serialize, enc_buddyGroupMapping. auto with wire. Qed.
Lemma reads_buddyGroupMapping v :
  buddyGroupMapping_ok v ->
  reads 0 BuddyGroupMapping_deserialize (enc_buddyGroupMapping v) (fun y => y = v).
Proof. intros (?&?&?). do 2 reads_field. reads_final. apply reads_ret. by destruct v. Qed.
Lemma triple_buddyGroupMapping F : triple F BuddyGroupMapping_deserialize buddyGroupMapping_ok.
Proof. unfold BuddyGroupMapping_deserialize. triple_solve. Qed.

Definition enc_targetStateMapping (v : TargetStateMapping) : list byte :=
  le_split 2 (tsm_targetID v) ++ le_split 1 (tsm_reachabilityState v) ++
  le_split 1 (tsm_consistencyState v).
Definition targetStateMapping_ok (v : TargetStateMapping) : Prop :=
  in_u 16 (tsm_targetID v) /\ in_u 8 (tsm_reachabilityState v) /\ in_u 8 (tsm_consistencyState v).

Lemma writes_targetStateMapping v :
  writes (TargetStateMapping_serialize v) (enc_targetStateMapping v).
Proof. unfold TargetStateMapping_serialize, enc_targetStateMapping. auto with wire. Qed.
Lemma reads_targetStateMapping v :
  targetStateMapping_ok v ->
  reads 0 TargetStateMapping_deserialize (enc_targetStateMapping v) (fun y => y = v).
Proof. intros (?&?&?). do 2 reads_field. reads_final. apply reads_ret. by destruct v. Qed.
Lemma triple_targetStateMapping F : triple F TargetStateMapping_deserialize targetStateMapping_ok.
Proof. unfold TargetStateMapping_deserialize. triple_solve. Qed.

#[export] Hint Resolve writes_targetMapping reads_targetMapping triple_targetMapping
  writes_targetPoolMapping reads_targetPoolMapping triple_targetPoolMapping
  writes_buddyGroupMapping reads_buddyGroupMapping triple_buddyGroupMapping
  writes_targetStateMapping reads_targetStateMapping triple_targetStateMapping
  writes_entryInfo reads_entryInfo writes_pathInfo reads_pathInfo reads_statData
  triple_statData writes_fileEvent triple_rst : wire.

(** ** Properties *)

Lemma zlen_pad4 n : 0 <= zlen (pad4 n) <= 3.
Proof.
  unfold pad4, zlen. rewrite length_replicate. pose proof (Z.mod_pos_bound (- n) 4). lia.
Qed.

Lemma zlen_enc_entryInfo e :
  zlen (enc_entryInfo e) <= 38 + strlen (ei_parentEntryID e) + strlen (ei_entryID e) + strlen (ei_fileName e).
Proof.
  unfold enc_entryInfo. rewrite !zlen_app, !zlen_enc_strAlign4, !zlen_le_split. unfold strlen.
  pose proof (zlen_pad4 (zlen (cstr (ei_parentEntryID e)) + 1)).
  pose proof (zlen_pad4 (zlen (cstr (ei_entryID e)) + 1)).
  pose proof (zlen_pad4 (zlen (cstr (ei_fileName e)) + 1)). lia.
Qed.

(** An entry info with valid fields is read back unchanged: owner (node or
    group, as the mirror flag tells), the three aligned strings, type and flags. *)
Theorem entryInfo_roundtrip e :
  entryInfo_ok e ->
  strlen (ei_parentEntryID e) + strlen (ei_entryID e) + strlen (ei_fileName e) < 2 ^ 31 ->
  roundtrip 0 (EntryInfo_serialize e) EntryInfo_deserialize (fun x => x = e).
Proof.
  intros Hok Hlen. apply (roundtrip_intro 0 _ _ (enc_entryInfo e)).
  - apply writes_entryInfo. apply Hok.
  - by apply reads_entryInfo.
  - pose proof (zlen_enc_entryInfo e). lia.
  - done.
Qed.

Definition entryInfo_example : EntryInfo :=
  MkEntryInfo (MkNodeOrGroup 7 true) [Byte.x72] [Byte.x31; Byte.x2d; Byte.x32] [Byte.x66] 2 2.

Lemma entryInfo_roundtrip_witness :
  roundtrip 0 (EntryInfo_serialize entryInfo_example) EntryInfo_deserialize (fun x => x = entryInfo_example).
Proof.
  apply entryInfo_roundtrip; [|reflexivity].
  unfold entryInfo_ok, entryInfo_short, short, entryInfo_example, no_nul, in_u, in_s.
  cbn [ei_parentEntryID ei_entryID ei_fileName ei_entryType ei_featureFlags ei_owner ng_id ng_isGroup].
  split_and!; (reflexivity || lia || by apply (bool_decide_unpack _)).
Defined.

(** One accepted field before a refusal. *)
Lemma refused_after {A B} (d : Des A) (f : A -> Des B) a b c P :
  reads 0 d a P -> d_ok c -> d_next c (a ++ b) ->
  (forall x c', P x -> d_ok c' -> d_next c' b -> f x c' = Refused) -> (d ≫= f) c = Refused.
Proof.
  intros Hd Hok Hn Hf. pose proof (d_next_app _ _ _ Hok Hn) as [Hn1 Hn2].
  pose proof Hn1 as [Hle _]. pose proof (zlen_nonneg a).
  destruct (Hd c Hok Hn1) as (x & Hx & HP); [lia|]. unfold mbind, Des_bind. rewrite Hx.
  apply Hf; [done|apply d_advance_ok; [done|lia]|done].
Qed.

Lemma times_u32_short n : forall c,
  d_ok c -> d_length c < 4 * Z.of_nat n -> des_times n Serialization_deserializeUInt c = Refused.
Proof.
  induction n as [|n IH]; intros c Hok Hl; pose proof Hok as (?&?&?); [lia|].
  cbn [des_times]. unfold mbind, Des_bind.
  unfold Serialization_deserializeUInt at 1, __Serialization_deserializeRaw.
  destruct (Z.leb_spec 4 (d_length c)); [|done]. rewrite load_in by lia.
  rewrite IH; [done|by apply d_advance_ok|]. unfold d_advance. cbn [d_length]. rewrite u64_small by lia. lia.
Qed.

(** The bytes the client writes for a remote storage target. *)
Definition rst_output (r : RemoteStorageTarget) : list byte :=
  le_split 1 (rst_majorVersion r) ++ le_split 1 (rst_minorVersion r) ++
  le_split 2 (rst_coolDownPeriod r) ++ le_split 2 (rst_reserved r) ++
  le_split 2 (rst_filePolicies r) ++ le_split 4 (4 + 4 * zlen (rst_rstIds r)) ++
  le_split 4 (zlen (rst_rstIds r)) ++ (rst_rstIds r ≫= le_split 4).

Lemma zlen_rst_output r : zlen (rst_output r) = 16 + 4 * zlen (rst_rstIds r).
Proof.
  unfold rst_output. rewrite !zlen_app, !zlen_le_split, (zlen_bind_const _ 4); [lia|].
  intros. apply zlen_le_split.
Qed.

(** The nested field of the output ends before the last ID. *)
Lemma rst_vector_refused kmalloc_ok r (k : Z -> list Z -> Des RemoteStorageTarget) c :
  rst_ok r -> rst_rstIds r <> [] -> d_ok c ->
  d_next c (le_split 4 (4 + 4 * zlen (rst_rstIds r)) ++
     le_split 4 (zlen (rst_rstIds r)) ++ (rst_rstIds r ≫= le_split 4)) ->
  (innerCtx ← __Serialization_deserializeNestedField;
   '(rstVecCount, innerCtx) ← des_in innerCtx Serialization_deserializeUInt;
   rstIds ←
      (if 0 <? rstVecCount then
         des_check (kmalloc_ok (rstVecCount * 4));;
         '(ids, _) ← des_in innerCtx
           (des_times (Z.to_nat rstVecCount) Serialization_deserializeUInt);
         mret ids
       else mret []);
   k rstVecCount rstIds) c = Refused.
Proof.
  intros (_&_&_&_&_&_&_&Hlen) Hne Hok Hn.
  set (n := zlen (rst_rstIds r)) in *.
  assert (Hn0 : 0 < n) by (unfold n; destruct (rst_rstIds r); [done|rewrite zlen_cons; zlia]).
  set (all := le_split 4 n ++ (rst_rstIds r ≫= le_split 4)) in *.
  assert (Hall : zlen all = 4 + 4 * n).
  { unfold all. rewrite zlen_app, zlen_le_split, (zlen_bind_const _ 4); [unfold n; lia|].
    intros. apply zlen_le_split. }
  set (body := take (Z.to_nat (4 * n)) all).
  assert (Hbody : zlen body = 4 * n) by (unfold body, zlen in *; rewrite length_take; lia).
  assert (Hsplit : all = body ++ drop (Z.to_nat (4 * n)) all) by (symmetry; apply take_drop).
  assert (Hn' : d_next c ((le_split 4 (4 + zlen body) ++ body) ++ drop (Z.to_nat (4 * n)) all)).
  { by rewrite <- app_assoc, <- Hsplit, Hbody. }
  apply (refused_after _ _ _ _ _ _ (reads_nested body ltac:(lia)) Hok Hn').
  intros inner c' (Hi & Hin & Hil) Hc' _.
  destruct (Z.leb_spec 4 (4 * n)); [|lia].
  assert (Hb4 : body = le_split 4 n ++ drop 4 body).
  { rewrite <- (take_drop 4 body) at 1. f_equal. unfold body. rewrite take_take, Nat.min_l by lia.
    unfold all. by rewrite take_app_length' by (by rewrite length_le_split). }
  rewrite Hb4 in Hin. pose proof (d_next_app _ _ _ Hi Hin) as [Hin1 _].
  destruct (reads_u32 n ltac:(unfold in_u; lia) inner Hi Hin1) as (? & Hrd & ->);
    [destruct Hin1; lia|]. rewrite zlen_le_split in Hrd. change (Z.of_nat 4) with 4 in Hrd.
  unfold mbind at 1, Des_bind at 1, des_in at 1. rewrite Hrd.
  unfold mbind at 1, Des_bind at 1. destruct (Z.ltb_spec 0 n); [|lia].
  unfold mbind at 1, Des_bind at 1, des_check. destruct (kmalloc_ok (n * 4)); [|done].
  unfold mbind at 1, Des_bind at 1, des_in.
  rewrite times_u32_short; [done|apply d_advance_ok; [done|lia]|].
  unfold d_advance. cbn [d_length]. rewrite u64_small; lia.
Qed.

(** The serialiser of remote storage targets writes a vector length that does not
    count its own field while the deserialiser expects one that does: whatever the
    client writes for a target with at least one ID, its own deserialiser refuses. *)
Theorem rst_output_refused kmalloc_ok r :
  rst_ok r -> rst_rstIds r <> [] ->
  (forall buf, zlen (rst_output r) <= zlen buf < 2 ^ 32 ->
    exists m, RemoteStorageTarget_serialize r (MkSerializeCtx (Some buf) 0)
        = Some (MkSerializeCtx (Some m) (zlen (rst_output r))) /\
      RemoteStorageTarget_deserialize kmalloc_ok (d_start m) = Refused).
Proof.
  intros Hr Hne buf Hbuf. pose proof (zlen_nonneg (rst_output r)).
  exists (splice 0 (rst_output r) buf). split.
  - rewrite (writes_rst r Hr); [|unfold s_ok; cbn; lia|cbn; fold (rst_output r); lia].
    unfold emit. cbn [s_data s_length]. fold (rst_output r).
    rewrite (proj2 (Z.leb_le _ _)) by lia. by rewrite u32_small by lia.
  - set (m := splice 0 (rst_output r) buf).
    assert (Hm : m = rst_output r ++ drop (length (rst_output r)) buf) by done.
    assert (Hzm : zlen m < 2 ^ 64).
    { rewrite Hm, zlen_app. unfold zlen in *. rewrite length_drop. lia. }
    pose proof (d_start_ok m Hzm) as Hok. pose proof (d_start_next m _ _ Hm) as Hn.
    pose proof Hr as (H1&H2&H3&H4&H5&_). unfold rst_output in Hn.
    unfold RemoteStorageTarget_deserialize.
    apply (refused_after _ _ _ _ _ _ (reads_u8 _ H1) Hok Hn). intros ? c1 -> Hc1 Hn1.
    apply (refused_after _ _ _ _ _ _ (reads_u8 _ H2) Hc1 Hn1). intros ? c2 -> Hc2 Hn2.
    apply (refused_after _ _ _ _ _ _ (reads_u16 _ H3) Hc2 Hn2). intros ? c3 -> Hc3 Hn3.
    apply (refused_after _ _ _ _ _ _ (reads_u16 _ H4) Hc3 Hn3). intros ? c4 -> Hc4 Hn4.
    apply (refused_after _ _ _ _ _ _ (reads_u16 _ H5) Hc4 Hn4). intros ? c5 -> Hc5 Hn5.
    apply (rst_vector_refused kmalloc_ok r (fun cnt ids => mret (MkRemoteStorageTarget _ _ _ _ _ cnt ids)));
      done.
Qed.

Lemma rst_output_refused_witness :
  let r := MkRemoteStorageTarget 1 0 10 0 3 2 [5; 6] in
  exists m, RemoteStorageTarget_serialize r (MkSerializeCtx (Some (replicate 40 Byte.x00)) 0)
      = Some (MkSerializeCtx (Some m) (zlen (rst_output r))) /\
    RemoteStorageTarget_deserialize (fun _ => true) (d_start m) = Refused.
Proof.
  intros r. apply (rst_output_refused (fun _ => true) r); [|done|by vm_compute]. unfold rst_ok, r, in_u. cbn.
  split_and!; (lia || reflexivity || (repeat constructor; lia)).
Defined.
