(* ===== verification/StripePattern.v ===== *)
(** * Stripe patterns

    Models [client_module/source/common/storage/striping] (the abstract
    [StripePattern] with its factory, and the patterns [Raid0Pattern],
    [Raid10Pattern], [BuddyMirrorPattern], [SimplePattern]) and
    [common/toolkit/MathTk.h].  A pattern maps file positions to storage targets;
    its class with the table of virtual functions is the inductive type
    [PatternBody], a virtual call is the dispatch on it. *)

From S2P Require Import Prelude Wire Serialization StorageFormats.

(** ** [MathTk] *)

(** [__builtin_clz] of a 32-bit value; undefined for 0. *)
Definition builtin_clz (value : Z) : option Z :=
  if value =? 0 then None else Some (31 - Z.log2 value).

Definition MathTk_log2Int32 (value : Z) : option Z :=
  clz ← builtin_clz value; Some (u32 (4 * 8 - 1 - clz)).

Definition MathTk_isPowerOfTwo (value : Z) : bool :=
  Z.land value (u32 (value - 1)) =? 0.

(** ** Data *)

Definition STRIPEPATTERN_Invalid : Z := 0.
Definition STRIPEPATTERN_Raid0 : Z := 1.
Definition STRIPEPATTERN_Raid10 : Z := 2.
Definition STRIPEPATTERN_BuddyMirror : Z := 3.
Definition STRIPEPATTERN_HEADER_LENGTH : Z := 12.
Definition HAS_NO_POOL_FLAG : Z := 2 ^ 24.

Record StripePatternHeader := MkStripePatternHeader {
  ph_patternLength : Z;
  ph_patternType : Z;
  ph_chunkSize : Z;
  ph_storagePoolId : option Z (* None: not assigned, indeterminate *)
}.

Inductive PatternBody :=
| Raid0Pattern (stripeTargetIDs : list Z) (defaultNumTargets : Z)
| Raid10Pattern (stripeTargetIDs mirrorTargetIDs : list Z) (stripeSetSize defaultNumTargets : Z)
| BuddyMirrorPattern (mirrorBuddyGroupIDs : list Z) (defaultNumTargets : Z)
| SimplePattern.

Record StripePattern := MkStripePattern {
  sp_patternType : Z;
  sp_chunkSize : Z;
  sp_storagePoolId : option Z;
  sp_body : PatternBody
}.

(** [SimplePattern_construct], with [StripePattern_initFromPatternType]. *)
Definition SimplePattern_construct (patternType chunkSize : Z) : StripePattern :=
  MkStripePattern patternType chunkSize (Some 0) SimplePattern.

(** ** Deserialisation *)

(** The pattern bytes stay in the message; the result is a cursor over them. *)
Definition StripePattern_deserializePatternPreprocess : Des DeserializeCtx :=
  ctx ← des_get;
  '(outPatternLength, _) ← des_in ctx Serialization_deserializeUInt;
  des_check (negb (d_length ctx <? outPatternLength));;
  des_advance outPatternLength;;
  mret (MkDeserializeCtx (d_mem ctx) (d_data ctx) outPatternLength).

Definition __StripePattern_deserializeHeader : Des StripePatternHeader :=
  patternLength ← Serialization_deserializeUInt;
  patternType ← Serialization_deserializeUInt;
  chunkSize ← Serialization_deserializeUInt;
  storagePoolId ←
    (if negb (has_flag patternType HAS_NO_POOL_FLAG)
     then Some <$> StoragePoolId_deserialize else mret None);
  let patternType := Z.land patternType (Z.lxor (2 ^ 32 - 1) HAS_NO_POOL_FLAG) in
  des_check (negb (patternLength <? STRIPEPATTERN_HEADER_LENGTH));;
  des_check (negb (chunkSize =? 0));;
  mret (MkStripePatternHeader patternLength patternType chunkSize storagePoolId).

Definition Raid0Pattern_deserializePattern : Des PatternBody :=
  defaultNumTargets ← Serialization_deserializeUInt;
  targetIDsList ← Serialization_deserializeUInt16VecPreprocess;
  stripeTargetIDs ← Serialization_deserializeUInt16Vec targetIDsList;
  mret (Raid0Pattern stripeTargetIDs defaultNumTargets).

(** [size_t] times [unsigned], assigned to an [unsigned]. *)
Definition Raid10Pattern_deserializePattern (chunkSize : Z) : Des PatternBody :=
  defaultNumTargets ← Serialization_deserializeUInt;
  targetIDsList ← Serialization_deserializeUInt16VecPreprocess;
  stripeTargetIDs ← Serialization_deserializeUInt16Vec targetIDsList;
  mirrorTargetIDsList ← Serialization_deserializeUInt16VecPreprocess;
  mirrorTargetIDs ← Serialization_deserializeUInt16Vec mirrorTargetIDsList;
  let stripeSetSize := u32 (u64 (zlen stripeTargetIDs * chunkSize)) in
  mret (Raid10Pattern stripeTargetIDs mirrorTargetIDs stripeSetSize defaultNumTargets).

Definition BuddyMirrorPattern_deserializePattern : Des PatternBody :=
  defaultNumTargets ← Serialization_deserializeUInt;
  mirrorBuddyGroupIDsVec ← Serialization_deserializeUInt16VecPreprocess;
  mirrorBuddyGroupIDs ← Serialization_deserializeUInt16Vec mirrorBuddyGroupIDsVec;
  mret (BuddyMirrorPattern mirrorBuddyGroupIDs defaultNumTargets).

Definition SimplePattern_deserializePattern : Des PatternBody := mret SimplePattern.

(** The [switch] over the pattern type: the constructed class and its virtual
    [deserializePattern]; [None] for an unknown type. *)
Definition StripePattern_class (header : StripePatternHeader) : option (Des PatternBody) :=
  if ph_patternType header =? STRIPEPATTERN_Raid0 then Some Raid0Pattern_deserializePattern
  else if ph_patternType header =? STRIPEPATTERN_Raid10
  then Some (Raid10Pattern_deserializePattern (ph_chunkSize header))
  else if ph_patternType header =? STRIPEPATTERN_BuddyMirror
  then Some BuddyMirrorPattern_deserializePattern
  else None.

(** Runs on a cursor of its own; [None] is an out-of-bounds read.  Every failure
    yields the invalid pattern. *)
Definition StripePattern_createFromBuf (ctx : DeserializeCtx) : option StripePattern :=
  let invalid := SimplePattern_construct STRIPEPATTERN_Invalid 0 in
  match __StripePattern_deserializeHeader ctx with
  | Refused => Some invalid
  | BadRead _ => None
  | Done patternHeader ctx =>
      match StripePattern_class patternHeader with
      | None => Some invalid
      | Some deserializePattern =>
          match deserializePattern ctx with
          | Refused => Some invalid
          | BadRead _ => None
          | Done body _ =>
              Some (MkStripePattern (ph_patternType patternHeader) (ph_chunkSize patternHeader)
                      (ph_storagePoolId patternHeader) body)
          end
      end
  end.

(** ** Chunk arithmetic ([int64_t] positions) *)

Definition StripePattern_getChunkStart (this : StripePattern) (pos : Z) : Z :=
  let posModChunkSize := u32 (Z.land pos (u32 (sp_chunkSize this - 1))) in
  s64 (pos - posModChunkSize).

Definition StripePattern_getNextChunkStart (this : StripePattern) (pos : Z) : Z :=
  s64 (StripePattern_getChunkStart this pos + sp_chunkSize this).

Definition StripePattern_getChunkEnd (this : StripePattern) (pos : Z) : Z :=
  s64 (StripePattern_getNextChunkStart this pos - 1).

(** ** Target lookup: [None] is a division by zero or a read behind the vector *)

Definition UInt16Vec_at (v : list Z) (index : Z) : option Z := v !! Z.to_nat index.

(** [int64_t / unsigned], then [% size_t] in unsigned arithmetic. *)
Definition Raid0Pattern_getStripeTargetIndex (chunkSize : Z) (stripeTargetIDs : list Z)
    (pos : Z) : option Z :=
  if (chunkSize =? 0) || (zlen stripeTargetIDs =? 0) then None
  else Some (u64 (Z.quot pos chunkSize) mod zlen stripeTargetIDs).

Definition Raid0Pattern_getStripeTargetID (chunkSize : Z) (stripeTargetIDs : list Z)
    (pos : Z) : option Z :=
  if zlen stripeTargetIDs =? 0 then Some 0
  else index ← Raid0Pattern_getStripeTargetIndex chunkSize stripeTargetIDs pos;
       UInt16Vec_at stripeTargetIDs index.

(** [do_div(n, base)]: remainder of the unsigned division. *)
Definition do_div_rem (n base : Z) : option Z :=
  if base =? 0 then None else Some (u64 n mod base).

Definition Raid10Pattern_getStripeTargetIndex (chunkSize stripeSetSize pos : Z) : option Z :=
  stripeSetInnerOffset ←
    (if MathTk_isPowerOfTwo stripeSetSize
     then Some (Z.land pos (u32 (stripeSetSize - 1)))
     else do_div_rem pos stripeSetSize);
  log2ChunkSize ← MathTk_log2Int32 chunkSize;
  Some (u64 (Z.shiftr stripeSetInnerOffset log2ChunkSize)).

Definition Raid10Pattern_getStripeTargetID (chunkSize : Z) (stripeTargetIDs : list Z)
    (stripeSetSize pos : Z) : option Z :=
  if stripeSetSize =? 0 then Some 0
  else index ← Raid10Pattern_getStripeTargetIndex chunkSize stripeSetSize pos;
       UInt16Vec_at stripeTargetIDs index.

Definition BuddyMirrorPattern_getStripeTargetIndex (chunkSize : Z) (mirrorBuddyGroupIDs : list Z)
    (pos : Z) : option Z :=
  if (chunkSize =? 0) || (zlen mirrorBuddyGroupIDs =? 0) then None
  else Some (u64 (Z.quot pos chunkSize) mod zlen mirrorBuddyGroupIDs).

Definition BuddyMirrorPattern_getStripeTargetID (chunkSize : Z) (mirrorBuddyGroupIDs : list Z)
    (pos : Z) : option Z :=
  if zlen mirrorBuddyGroupIDs =? 0 then Some 0
  else index ← BuddyMirrorPattern_getStripeTargetIndex chunkSize mirrorBuddyGroupIDs pos;
       UInt16Vec_at mirrorBuddyGroupIDs index.

(** The virtual functions. *)
Definition getStripeTargetIndex (this : StripePattern) (pos : Z) : option Z :=
  match sp_body this with
  | Raid0Pattern ids _ => Raid0Pattern_getStripeTargetIndex (sp_chunkSize this) ids pos
  | Raid10Pattern _ _ setSize _ => Raid10Pattern_getStripeTargetIndex (sp_chunkSize this) setSize pos
  | BuddyMirrorPattern ids _ => BuddyMirrorPattern_getStripeTargetIndex (sp_chunkSize this) ids pos
  | SimplePattern => Some 0
  end.

Definition getStripeTargetID (this : StripePattern) (pos : Z) : option Z :=
  match sp_body this with
  | Raid0Pattern ids _ => Raid0Pattern_getStripeTargetID (sp_chunkSize this) ids pos
  | Raid10Pattern ids _ setSize _ =>
      Raid10Pattern_getStripeTargetID (sp_chunkSize this) ids setSize pos
  | BuddyMirrorPattern ids _ => BuddyMirrorPattern_getStripeTargetID (sp_chunkSize this) ids pos
  | SimplePattern => Some 0
  end.

(** [None]: the NULL vector of a [SimplePattern]. *)
Definition getStripeTargetIDs (this : StripePattern) : option (list Z) :=
  match sp_body this with
  | Raid0Pattern ids _ | Raid10Pattern ids _ _ _ | BuddyMirrorPattern ids _ => Some ids
  | SimplePattern => None
  end.

(** Appends the targets to the caller's vector. *)
Definition getStripeTargetIDsCopy (this : StripePattern) (outTargetIDs : list Z) : list Z :=
  outTargetIDs ++ default [] (getStripeTargetIDs this).

(** NULL except for RAID10. *)
Definition getMirrorTargetIDs (this : StripePattern) : option (list Z) :=
  match sp_body this with Raid10Pattern _ mirrors _ _ => Some mirrors | _ => None end.

Definition getMinNumTargets (this : StripePattern) : Z :=
  match sp_body this with
  | Raid0Pattern _ _ | BuddyMirrorPattern _ _ => 1
  | Raid10Pattern _ _ _ _ => 2
  | SimplePattern => 0
  end.

Definition getDefaultNumTargets (this : StripePattern) : Z :=
  match sp_body this with
  | Raid0Pattern _ n | BuddyMirrorPattern _ n | Raid10Pattern _ _ _ n => n
  | SimplePattern => 0
  end.
