(* ===== verification/StripePatternFacts.v ===== *)
(** * Stripe patterns: position mapping, decoding and safety

    The optimised lookups of the patterns equal the division/modulo definition of
    striping, chunk boundaries partition the file, and the factory never reads
    outside of the pattern buffer. *)

From S2P Require Import Prelude Wire Serialization SerializationFacts StorageFormats StorageFormatsFacts StripePattern.

(** ** Arithmetic *)

Lemma land_pow2_pred a k : 0 <= k -> Z.land a (2 ^ k - 1) = a mod 2 ^ k.
Proof.
  intros Hk. rewrite <- Z.land_ones by done. f_equal. rewrite Z.ones_equiv. lia.
Qed.

Lemma isPowerOfTwo_spec v :
  0 < v < 2 ^ 32 -> MathTk_isPowerOfTwo v = true <-> exists k, 0 <= k < 32 /\ v = 2 ^ k.
Proof.
  intros [H0 H32]. unfold MathTk_isPowerOfTwo. rewrite Z.eqb_eq, u32_small by lia. split.
  - intros Hl. exists (Z.log2 v).
    assert (Hk : 0 <= Z.log2 v < 32) by (split; [apply Z.log2_nonneg|apply Z.log2_lt_pow2; lia]).
    split; [done|]. destruct (Z.log2_spec v H0) as [Hlo Hhi].
    destruct (decide (v = 2 ^ Z.log2 v)) as [|Hne]; [done|exfalso].
    assert (Hlog : Z.log2 (v - 1) = Z.log2 v) by (apply Z.log2_unique; lia).
    assert (0 < 2 ^ Z.log2 v) by (apply Z.pow_pos_nonneg; lia).
    apply (f_equal (fun x => Z.testbit x (Z.log2 v))) in Hl.
    rewrite Z.land_spec, Z.bits_0, Z.bit_log2 in Hl by done.
    rewrite <- Hlog, Z.bit_log2 in Hl by lia. done.
  - intros (k & Hk & ->). rewrite land_pow2_pred by lia. apply Z.mod_same.
    apply Z.pow_nonzero; lia.
Qed.

Lemma log2Int32_pow2 k : 0 <= k < 32 -> MathTk_log2Int32 (2 ^ k) = Some k.
Proof.
  intros Hk. unfold MathTk_log2Int32, builtin_clz.
  assert (0 < 2 ^ k) by (apply Z.pow_pos_nonneg; lia).
  rewrite (proj2 (Z.eqb_neq _ _)) by lia. cbn. rewrite Z.log2_pow2 by lia.
  rewrite u32_small by lia. f_equal. lia.
Qed.

Lemma pow2_bounds k : 0 <= k < 32 -> 0 < 2 ^ k < 2 ^ 32.
Proof. intros. split; [apply Z.pow_pos_nonneg; lia|apply Z.pow_lt_mono_r; lia]. Qed.

(** ** The reference definition of striping *)

(** Index of the target of the chunk that contains [pos]. *)
Definition spec_index (chunkSize n pos : Z) : Z := (pos / chunkSize) mod n.

(** A pattern as the management and metadata servers create them: chunk size a power
    of two, targets assigned, the set size in range (RAID10). *)
Definition chunkSize_ok (cs : Z) : Prop := exists k, 0 <= k < 32 /\ cs = 2 ^ k.

Definition body_ok (cs : Z) (b : PatternBody) : Prop :=
  match b with
  | Raid0Pattern ids _ | BuddyMirrorPattern ids _ => 0 < zlen ids < 2 ^ 32
  | Raid10Pattern ids _ setSize _ => 0 < zlen ids /\ zlen ids * cs < 2 ^ 32 /\ setSize = zlen ids * cs
  | SimplePattern => False
  end.

Definition pattern_ok (p : StripePattern) : Prop :=
  chunkSize_ok (sp_chunkSize p) /\ body_ok (sp_chunkSize p) (sp_body p).

Lemma spec_index_range cs n pos : 0 < n -> 0 <= spec_index cs n pos < n.
Proof. intros. by apply Z.mod_pos_bound. Qed.

Lemma raid0_index cs ids pos :
  0 < cs -> 0 < zlen ids -> 0 <= pos < 2 ^ 63 ->
  Raid0Pattern_getStripeTargetIndex cs ids pos = Some (spec_index cs (zlen ids) pos).
Proof.
  intros Hcs Hn Hpos. unfold Raid0Pattern_getStripeTargetIndex.
  rewrite !(proj2 (Z.eqb_neq _ _)) by lia. cbn [orb]. rewrite Z.quot_div_nonneg by lia.
  unfold spec_index. rewrite (u64_small (pos / cs)); [done|].
  split; [apply Z.div_pos; lia|]. apply Z.div_lt_upper_bound; nia.
Qed.

Lemma raid10_inner_offset setSize pos :
  0 < setSize < 2 ^ 32 -> 0 <= pos < 2 ^ 63 ->
  (if MathTk_isPowerOfTwo setSize then Some (Z.land pos (u32 (setSize - 1)))
   else do_div_rem pos setSize) = Some (pos mod setSize).
Proof.
  intros Hs Hpos. destruct (MathTk_isPowerOfTwo setSize) eqn:E.
  - apply isPowerOfTwo_spec in E as (k & Hk & ->); [|done].
    rewrite u32_small, land_pow2_pred by lia. done.
  - unfold do_div_rem. rewrite (proj2 (Z.eqb_neq _ _)) by lia. by rewrite u64_small by lia.
Qed.

Lemma raid10_index k n pos :
  0 <= k < 32 -> 0 < n -> n * 2 ^ k < 2 ^ 32 -> 0 <= pos < 2 ^ 63 ->
  Raid10Pattern_getStripeTargetIndex (2 ^ k) (n * 2 ^ k) pos = Some (spec_index (2 ^ k) n pos).
Proof.
  intros Hk Hn Hs Hpos. pose proof (pow2_bounds k Hk). unfold Raid10Pattern_getStripeTargetIndex.
  rewrite raid10_inner_offset by nia. rewrite log2Int32_pow2 by done. cbn.
  rewrite Z.shiftr_div_pow2 by lia. unfold spec_index.
  rewrite (Z.mul_comm n), Z.rem_mul_r by lia.
  rewrite (Z.mul_comm (2 ^ k) (_ mod n)), Z.div_add by lia.
  rewrite (Z.div_small (pos mod 2 ^ k)) by (apply Z.mod_pos_bound; lia).
  rewrite Z.add_0_l. pose proof (Z.mod_pos_bound (pos / 2 ^ k) n Hn).
  rewrite u64_small; [done|]. nia.
Qed.

(** Index and target ID of every kind of pattern. *)
Lemma pattern_lookup p ids pos :
  pattern_ok p -> getStripeTargetIDs p = Some ids -> 0 <= pos < 2 ^ 63 ->
  let i := spec_index (sp_chunkSize p) (zlen ids) pos in
  getStripeTargetIndex p pos = Some i /\ getStripeTargetID p pos = ids !! Z.to_nat i.
Proof.
  intros [(k & Hk & Hcs) Hb] Hids Hpos. pose proof (pow2_bounds k Hk).
  unfold getStripeTargetIDs, getStripeTargetIndex, getStripeTargetID in *.
  destruct (sp_body p) as [l ?|l ms sz ?|l ?|]; try injection Hids as ->; cbn in Hb; [..|done].
  - unfold Raid0Pattern_getStripeTargetID. rewrite Hcs, raid0_index by lia.
    by rewrite (proj2 (Z.eqb_neq _ _)) by lia.
  - destruct Hb as (Hn & Hlt & ->). unfold Raid10Pattern_getStripeTargetID.
    rewrite Hcs in *. rewrite raid10_index by done. by rewrite (proj2 (Z.eqb_neq _ _)) by nia.
  - unfold BuddyMirrorPattern_getStripeTargetID.
    change (BuddyMirrorPattern_getStripeTargetIndex) with Raid0Pattern_getStripeTargetIndex.
    rewrite Hcs, raid0_index by lia. by rewrite (proj2 (Z.eqb_neq _ _)) by lia.
Qed.

(** ** Chunks *)

Lemma s64_small z : in_s 64 z -> s64 z = z.
Proof.
  intros Hz. unfold s64. rewrite <- (signed_inv 64 z) at 2 by done.
  unfold signed. by rewrite Zmod_mod.
Qed.

Lemma chunkStart_spec p pos :
  chunkSize_ok (sp_chunkSize p) -> 0 <= pos < 2 ^ 63 ->
  StripePattern_getChunkStart p pos = sp_chunkSize p * (pos / sp_chunkSize p).
Proof.
  intros (k & Hk & Hcs) Hpos. pose proof (pow2_bounds k Hk).
  unfold StripePattern_getChunkStart. rewrite Hcs.
  rewrite (u32_small (2 ^ k - 1)), land_pow2_pred by lia.
  pose proof (Z.mod_pos_bound pos (2 ^ k)). pose proof (Z.div_mod pos (2 ^ k)).
  pose proof (Z.div_pos pos (2 ^ k)).
  rewrite u32_small by lia. rewrite s64_small; [lia|]. unfold in_s. nia.
Qed.

Lemma nextChunkStart_spec p pos :
  chunkSize_ok (sp_chunkSize p) -> 0 <= pos < 2 ^ 63 - 2 ^ 32 ->
  StripePattern_getNextChunkStart p pos = sp_chunkSize p * (pos / sp_chunkSize p + 1).
Proof.
  intros Hc Hpos. unfold StripePattern_getNextChunkStart. rewrite chunkStart_spec by (done || lia).
  destruct Hc as (k & Hk & ->). pose proof (pow2_bounds k Hk).
  pose proof (Z.div_mod pos (2 ^ k)). pose proof (Z.mod_pos_bound pos (2 ^ k)).
  pose proof (Z.div_pos pos (2 ^ k)).
  rewrite s64_small; [lia|]. unfold in_s. lia.
Qed.

(** ** Decoding *)

(** The format of the servers: total length, type with flags, chunk size, the pool
    unless flagged as missing, then the content of the class. *)
Definition enc_body (b : PatternBody) : list byte :=
  match b with
  | Raid0Pattern ids n | BuddyMirrorPattern ids n => le_split 4 n ++ enc_list (le_split 2) ids
  | Raid10Pattern ids mirrors _ n =>
      le_split 4 n ++ enc_list (le_split 2) ids ++ enc_list (le_split 2) mirrors
  | SimplePattern => []
  end.

Definition enc_typeFlags (p : StripePattern) : Z :=
  match sp_storagePoolId p with Some _ => sp_patternType p | None => sp_patternType p + HAS_NO_POOL_FLAG end.

Definition enc_patternTail (p : StripePattern) : list byte :=
  le_split 4 (enc_typeFlags p) ++ le_split 4 (sp_chunkSize p) ++
  match sp_storagePoolId p with Some pool => le_split 2 pool | None => [] end ++
  enc_body (sp_body p).

Definition enc_pattern (p : StripePattern) : list byte :=
  le_split 4 (4 + zlen (enc_patternTail p)) ++ enc_patternTail p.

Definition ids_ok (ids : list Z) : Prop := Forall (in_u 16) ids /\ 8 + 2 * zlen ids < 2 ^ 31.

(** Objects the format can carry. *)
Definition pattern_enc_ok (p : StripePattern) : Prop :=
  in_u 32 (sp_chunkSize p) /\ sp_chunkSize p <> 0 /\
  match sp_storagePoolId p with Some pool => in_u 16 pool | None => True end /\
  match sp_body p with
  | Raid0Pattern ids n => sp_patternType p = STRIPEPATTERN_Raid0 /\ ids_ok ids /\ in_u 32 n
  | BuddyMirrorPattern ids n => sp_patternType p = STRIPEPATTERN_BuddyMirror /\ ids_ok ids /\ in_u 32 n
  | Raid10Pattern ids mirrors setSize n =>
      sp_patternType p = STRIPEPATTERN_Raid10 /\ ids_ok ids /\ ids_ok mirrors /\ in_u 32 n /\
      setSize = u32 (zlen ids * sp_chunkSize p)
  | SimplePattern => False
  end /\ zlen (enc_patternTail p) + 4 < 2 ^ 32.

Lemma reads_u16vec ids : ids_ok ids ->
  reads 0 (rl ← Serialization_deserializeUInt16VecPreprocess; Serialization_deserializeUInt16Vec rl)
    (enc_list (le_split 2) ids) (fun l => l = ids).
Proof.
  intros [Hf Hl]. pose proof (zlen_nonneg ids).
  assert (Hsz : zlen (ids ≫= le_split 2) = 2 * zlen ids)
    by (apply zlen_bind_const; intros; apply zlen_le_split).
  eapply reads_last; [apply (reads_list_preprocess (le_split 2)); [|done|lia..]|].
  - intros. apply zlen_le_split.
  - intros rl Hrl. apply (reads_list _ (le_split 2) ids); [done|].
    intros x Hx. apply reads_u16. eapply Forall_forall in Hf; [done|]. by apply list_elem_of_In.
Qed.

Lemma triple_u16vec F :
  triple F (rl ← Serialization_deserializeUInt16VecPreprocess; Serialization_deserializeUInt16Vec rl)
    (Forall (in_u 16)).
Proof.
  eapply triple_bind; [apply triple_list_preprocess|]. intros rl Hrl.
  apply triple_list; [done|apply triple_u16].
Qed.

Lemma land_clear_flag t : in_u 24 t -> Z.land t (Z.lxor (2 ^ 32 - 1) HAS_NO_POOL_FLAG) = t.
Proof.
  intros [H0 H1]. apply Z.bits_inj'. intros n Hn.
  rewrite Z.land_spec. destruct (decide (n < 24)).
  - assert (Z.testbit (Z.lxor (2 ^ 32 - 1) HAS_NO_POOL_FLAG) n = true) as ->; [|by rewrite andb_true_r].
    change (2 ^ 32 - 1) with (Z.ones 32). rewrite Z.lxor_spec, Z.ones_spec_low by lia.
    unfold HAS_NO_POOL_FLAG. by rewrite Z.pow2_bits_false by lia.
  - assert (Z.testbit t n = false) as ->; [|done].
    destruct (decide (t = 0)) as [->|]; [apply Z.bits_0|].
    apply Z.bits_above_log2; [done|]. apply Z.log2_lt_pow2; [lia|].
    eapply Z.lt_le_trans; [done|]. apply Z.pow_le_mono_r; lia.
Qed.

(** Type field with and without the flag. *)
Lemma typeFlags_decode t :
  t = STRIPEPATTERN_Raid0 \/ t = STRIPEPATTERN_Raid10 \/ t = STRIPEPATTERN_BuddyMirror ->
  has_flag t HAS_NO_POOL_FLAG = false /\ has_flag (t + HAS_NO_POOL_FLAG) HAS_NO_POOL_FLAG = true /\
  Z.land t (Z.lxor (2 ^ 32 - 1) HAS_NO_POOL_FLAG) = t /\
  Z.land (t + HAS_NO_POOL_FLAG) (Z.lxor (2 ^ 32 - 1) HAS_NO_POOL_FLAG) = t /\
  in_u 32 t /\ in_u 32 (t + HAS_NO_POOL_FLAG).
Proof. intros [->|[->| ->]]; unfold in_u, HAS_NO_POOL_FLAG; repeat split; done || lia. Qed.

Lemma pattern_type_cases p : pattern_enc_ok p ->
  sp_patternType p = STRIPEPATTERN_Raid0 \/ sp_patternType p = STRIPEPATTERN_Raid10 \/
  sp_patternType p = STRIPEPATTERN_BuddyMirror.
Proof. intros (_&_&_&H&_). destruct (sp_body p); [tauto..|done]. Qed.

Lemma reads_patternHeader p :
  pattern_enc_ok p ->
  reads 0 __StripePattern_deserializeHeader
    (le_split 4 (4 + zlen (enc_patternTail p)) ++ le_split 4 (enc_typeFlags p) ++
     le_split 4 (sp_chunkSize p) ++
     match sp_storagePoolId p with Some pool => le_split 2 pool | None => [] end)
    (fun h => h = MkStripePatternHeader (4 + zlen (enc_patternTail p)) (sp_patternType p)
                    (sp_chunkSize p) (sp_storagePoolId p)).
Proof.
  intros Hp. pose proof (typeFlags_decode _ (pattern_type_cases p Hp)) as (Hf1 & Hf2 & Ht1 & Ht2 & ? & ?).
  destruct Hp as (Hcs & Hcs0 & Hpool & Hbody & Hlen).
  pose proof (zlen_nonneg (enc_patternTail p)).
  assert (8 <= zlen (enc_patternTail p)).
  { unfold enc_patternTail. rewrite !zlen_app, !zlen_le_split.
    pose proof (zlen_nonneg (enc_body (sp_body p))).
    destruct (sp_storagePoolId p); rewrite ?zlen_le_split, ?zlen_nil; lia. }
  assert (Hend : forall k fl pool, Z.land fl (Z.lxor (2 ^ 32 - 1) HAS_NO_POOL_FLAG) = sp_patternType p ->
    reads k (des_check (negb (4 + zlen (enc_patternTail p) <? STRIPEPATTERN_HEADER_LENGTH));;
             des_check (negb (sp_chunkSize p =? 0));;
             mret (MkStripePatternHeader (4 + zlen (enc_patternTail p))
               (Z.land fl (Z.lxor (2 ^ 32 - 1) HAS_NO_POOL_FLAG)) (sp_chunkSize p) pool)) []
      (fun h => h = MkStripePatternHeader (4 + zlen (enc_patternTail p)) (sp_patternType p)
                    (sp_chunkSize p) pool)).
  { intros k fl pool ->. reads_guard.
    { unfold STRIPEPATTERN_HEADER_LENGTH. by rewrite (proj2 (Z.ltb_ge _ _)) by lia. }
    reads_guard; [by rewrite (proj2 (Z.eqb_neq _ _))|]. by apply reads_ret. }
  unfold enc_typeFlags.
  eapply reads_bind; [apply reads_u32; unfold in_u; lia|intros ? ->|zlia].
  destruct (sp_storagePoolId p) as [pool|].
  - do 2 reads_field. rewrite Hf1. cbn [negb]. eapply reads_last.
    { eapply (reads_fmap _ _ _ _ _ (fun x => x = Some pool)); [by apply reads_storagePoolId|].
      by intros ? ->. }
    intros ? ->. by apply Hend.
  - reads_field. rewrite app_nil_r. reads_final. rewrite Hf2. cbn [negb].
    eapply reads_last; [by apply (reads_ret _ _ (fun x => x = None))|].
    intros ? ->. by apply Hend.
Qed.

Lemma reads_body p :
  pattern_enc_ok p -> exists d,
  StripePattern_class (MkStripePatternHeader (4 + zlen (enc_patternTail p)) (sp_patternType p)
                         (sp_chunkSize p) (sp_storagePoolId p)) = Some d /\
  reads 0 d (enc_body (sp_body p)) (fun b => b = sp_body p).
Proof.
  intros (Hcs & Hcs0 & Hpool & Hbody & Hlen). unfold StripePattern_class. cbn [ph_patternType ph_chunkSize].
  clear Hlen Hpool. destruct (sp_body p) as [ids n|ids ms sz n|ids n|]; [..|done].
  - destruct Hbody as (-> & Hids & Hn). eexists. split; [done|]. cbn [enc_body].
    reads_field. apply reads_assoc. eapply reads_last; [by apply reads_u16vec|]. intros ? ->.
    by apply reads_ret.
  - destruct Hbody as (-> & Hids & Hms & Hn & ->). eexists. split; [done|]. cbn [enc_body].
    reads_field. apply reads_assoc.
    eapply reads_bind; [by apply reads_u16vec|intros ? ->|pose proof (zlen_nonneg (enc_list (le_split 2) ms)); lia].
    apply reads_assoc. eapply reads_last; [by apply reads_u16vec|]. intros ? ->.
    apply reads_ret. f_equal. unfold u32, u64.
    apply Z.mod_mod_divide. by exists (2 ^ 32).
  - destruct Hbody as (-> & Hids & Hn). eexists. split; [done|]. cbn [enc_body].
    reads_field. apply reads_assoc. eapply reads_last; [by apply reads_u16vec|]. intros ? ->.
    by apply reads_ret.
Qed.

(** A cursor over exactly the encoded pattern. *)
Lemma createFromBuf_enc p ctx :
  pattern_enc_ok p -> d_ok ctx -> d_next ctx (enc_pattern p) -> d_length ctx = zlen (enc_pattern p) ->
  StripePattern_createFromBuf ctx = Some p.
Proof.
  intros Hp Hok Hn Hl. destruct (reads_body p Hp) as (d & Hd & Hr).
  pose proof (reads_patternHeader p Hp) as Hh. set (h := le_split 4 _ ++ _) in Hh.
  assert (Henc : enc_pattern p = h ++ enc_body (sp_body p)).
  { unfold enc_pattern, h, enc_patternTail at 2. by rewrite <- !app_assoc. }
  rewrite Henc in *. pose proof (d_next_app _ _ _ Hok Hn) as [Hn1 Hn2].
  pose proof (zlen_nonneg h). pose proof (zlen_nonneg (enc_body (sp_body p))).
  rewrite zlen_app in Hl. unfold StripePattern_createFromBuf.
  destruct (Hh ctx Hok Hn1) as (hd & -> & ->); [lia|]. rewrite Hd.
  destruct Hok as (?&?&?).
  destruct (Hr (d_advance (zlen h) ctx)) as (b & -> & ->).
  - apply d_advance_ok; [done|lia].
  - done.
  - unfold d_advance. cbn [d_length]. rewrite u64_small; lia.
  - cbn. by destruct p.
Qed.

(** *** Arbitrary input *)

Lemma triple_patternPreprocess F :
  triple F StripePattern_deserializePatternPreprocess d_ok.
Proof.
  intros c Hok. unfold StripePattern_deserializePatternPreprocess.
  pose proof (triple_in_u32 F c Hok c Hok) as Ht. unfold mbind, Des_bind, des_get.
  destruct (des_in c _ c) as [[n c'] c''| |] eqn:E; [|done..]. destruct Ht as [Hc'' (Hn & _ & _ & ?)].
  assert (c'' = c) as -> by (unfold des_in in E; by destruct (Serialization_deserializeUInt c); simplify_eq).
  unfold des_check, des_advance, mret, Des_ret. pose proof Hok as (?&?&?). destruct Hn.
  destruct (Z.ltb_spec (d_length c) n); [done|]. cbn [negb].
  split; [by apply d_advance_ok|]. unfold d_ok. cbn [d_data d_length d_mem]. lia.
Qed.

Definition patternHeader_ok (h : StripePatternHeader) : Prop :=
  in_u 32 (ph_chunkSize h) /\ ph_chunkSize h <> 0.

Lemma triple_header F : triple F __StripePattern_deserializeHeader patternHeader_ok.
Proof.
  unfold __StripePattern_deserializeHeader. do 2 triple_field.
  eapply triple_bind; [apply triple_u32|]. intros cs Hcs.
  eapply (triple_bind _ _ _ (fun _ => True)).
  { apply triple_if; intros _; [|by apply triple_ret].
    eapply triple_fmap; [apply triple_storagePoolId|done]. }
  intros pool _. cbv zeta. triple_guard.
  eapply triple_bind; [by apply (triple_check _ _ (fun _ => negb (cs =? 0) = true))|].
  intros ? Hz. apply triple_ret. split; [done|]. intros E. cbn in E. by rewrite E in Hz.
Qed.

(** What decoding guarantees of the content. *)
Definition body_decoded (cs : Z) (b : PatternBody) : Prop :=
  match b with
  | Raid0Pattern ids _ | BuddyMirrorPattern ids _ => Forall (in_u 16) ids
  | Raid10Pattern ids mirrors setSize _ =>
      Forall (in_u 16) ids /\ Forall (in_u 16) mirrors /\ setSize = u32 (u64 (zlen ids * cs))
  | SimplePattern => False
  end.

Lemma triple_class F h d :
  StripePattern_class h = Some d -> triple F d (body_decoded (ph_chunkSize h)).
Proof.
  unfold StripePattern_class.
  repeat match goal with |- context [if ?b then _ else _] => destruct b end; intros [= <-].
  - triple_field. apply triple_assoc. eapply triple_bind; [apply triple_u16vec|]. intros l Hl.
    by apply triple_ret.
  - triple_field. apply triple_assoc. eapply triple_bind; [apply triple_u16vec|]. intros l Hl.
    apply triple_assoc. eapply triple_bind; [apply triple_u16vec|]. intros l' Hl'.
    by apply triple_ret.
  - triple_field. apply triple_assoc. eapply triple_bind; [apply triple_u16vec|]. intros l Hl.
    by apply triple_ret.
Qed.

Definition pattern_decoded (p : StripePattern) : Prop :=
  p = SimplePattern_construct STRIPEPATTERN_Invalid 0 \/
  (in_u 32 (sp_chunkSize p) /\ sp_chunkSize p <> 0 /\ body_decoded (sp_chunkSize p) (sp_body p)).

Lemma createFromBuf_decoded ctx :
  d_ok ctx -> exists p, StripePattern_createFromBuf ctx = Some p /\ pattern_decoded p.
Proof.
  intros Hok. unfold StripePattern_createFromBuf, pattern_decoded.
  pose proof (triple_header no_fault ctx Hok) as Hh.
  destruct (__StripePattern_deserializeHeader ctx) as [h c'| |]; [|by eauto|done].
  destruct Hh as [Hc' [? ?]]. destruct (StripePattern_class h) as [d|] eqn:Ed; [|by eauto].
  pose proof (triple_class no_fault h d Ed c' Hc') as Hd.
  destruct (d c') as [b c''| |]; [|by eauto|done]. destruct Hd as [_ ?].
  eexists. split; [done|]. by right.
Qed.

#[export] Hint Resolve triple_patternPreprocess : wire.

(** ** Properties *)

(** For every file position, all pattern classes (the shift and mask code
    of RAID10 included) find the target of the chunk with number [pos / chunkSize], chunks
    being dealt out to the targets round-robin. *)
Theorem stripe_target_lookup p ids pos :
  pattern_ok p -> getStripeTargetIDs p = Some ids -> 0 <= pos < 2 ^ 63 ->
  let i := (pos / sp_chunkSize p) mod zlen ids in
  getStripeTargetIndex p pos = Some i /\
  exists targetID, ids !! Z.to_nat i = Some targetID /\ getStripeTargetID p pos = Some targetID.
Proof.
  intros Hp Hids Hpos i. destruct (pattern_lookup p ids pos Hp Hids Hpos) as [Hi Hid].
  split; [exact Hi|]. change (spec_index _ _ _) with i in Hid.
  destruct (lookup_lt_is_Some_2 ids (Z.to_nat i)) as [t Ht]; [|exists t; split; [done|congruence]].
  assert (0 < zlen ids).
  { destruct Hp as [_ Hb]. unfold getStripeTargetIDs in Hids.
    destruct (sp_body p); cbn in Hb; simplify_eq; lia. }
  assert (0 <= i < zlen ids) by (apply Z.mod_pos_bound; lia). unfold zlen in *. lia.
Qed.

Lemma stripe_target_lookup_witness :
  let p := MkStripePattern STRIPEPATTERN_Raid10 524288 None
    (Raid10Pattern [21; 22; 23] [31; 32; 33] 1572864 3) in
  getStripeTargetIndex p 5000000 = Some 0 /\
  exists targetID, [21; 22; 23] !! 0%nat = Some targetID /\ getStripeTargetID p 5000000 = Some targetID.
Proof.
  intros p. apply (stripe_target_lookup p [21; 22; 23] 5000000); [|done|lia].
  split; [by exists 19|]. done.
Defined.

(** The chunk borders computed by masking are the exact ones: the position
    lies between start and end of its chunk, the start is a multiple of the chunk size,
    the chunk has exactly the chunk size, and the next chunk starts behind the end. *)
Theorem chunk_arithmetic p pos :
  chunkSize_ok (sp_chunkSize p) -> 0 <= pos < 2 ^ 63 - 2 ^ 32 ->
  StripePattern_getChunkStart p pos <= pos <= StripePattern_getChunkEnd p pos /\
  (sp_chunkSize p | StripePattern_getChunkStart p pos) /\
  StripePattern_getChunkEnd p pos - StripePattern_getChunkStart p pos + 1 = sp_chunkSize p /\
  StripePattern_getNextChunkStart p pos = StripePattern_getChunkEnd p pos + 1.
Proof.
  intros Hcs Hpos. pose proof Hcs as (k & Hk & Ek). pose proof (pow2_bounds k Hk).
  unfold StripePattern_getChunkEnd.
  rewrite chunkStart_spec, nextChunkStart_spec by (done || lia).
  pose proof (Z.div_mod pos (sp_chunkSize p)). pose proof (Z.mod_pos_bound pos (sp_chunkSize p)).
  assert (0 <= pos / sp_chunkSize p) by (apply Z.div_pos; lia).
  rewrite s64_small by (unfold in_s; nia). split_and!; try nia. apply Z.divide_factor_l.
Qed.

Lemma chunk_arithmetic_witness :
  let p := MkStripePattern STRIPEPATTERN_Raid0 4096 (Some 1) (Raid0Pattern [1] 1) in
  StripePattern_getChunkStart p 10000 <= 10000 <= StripePattern_getChunkEnd p 10000 /\
  (4096 | StripePattern_getChunkStart p 10000) /\
  StripePattern_getChunkEnd p 10000 - StripePattern_getChunkStart p 10000 + 1 = 4096 /\
  StripePattern_getNextChunkStart p 10000 = StripePattern_getChunkEnd p 10000 + 1.
Proof. intros p. apply (chunk_arithmetic p 10000); [by exists 12|lia]. Defined.

(** Reading a pattern field of a message, then creating the object from it. *)
Definition read_pattern (m : list byte) : dres (option StripePattern) :=
  (ctx ← StripePattern_deserializePatternPreprocess; mret (StripePattern_createFromBuf ctx)) (d_start m).

Lemma zlen_enc_pattern p : zlen (enc_pattern p) = 4 + zlen (enc_patternTail p).
Proof. unfold enc_pattern. rewrite zlen_app, zlen_le_split. done. Qed.

Lemma preprocess_enc p m rest :
  pattern_enc_ok p -> m = enc_pattern p ++ rest -> zlen m < 2 ^ 64 ->
  StripePattern_deserializePatternPreprocess (d_start m) =
    Done (MkDeserializeCtx m 0 (zlen (enc_pattern p)))
      (MkDeserializeCtx m (zlen (enc_pattern p)) (zlen rest)).
Proof.
  intros Hp Hm Hlen. pose proof Hp as (_ & _ & _ & _ & Hfit). pose proof (zlen_enc_pattern p) as Hz.
  pose proof (zlen_nonneg (enc_patternTail p)). pose proof (zlen_nonneg rest).
  set (tail := enc_patternTail p ++ rest).
  destruct (reads_start 0 Serialization_deserializeUInt (le_split 4 (4 + zlen (enc_patternTail p)))
    (fun a => a = 4 + zlen (enc_patternTail p)) m tail) as (a & Ha & ->).
  - apply reads_u32. unfold in_u. lia.
  - subst m. unfold enc_pattern, tail. by rewrite app_assoc.
  - apply zlen_nonneg.
  - done.
  - unfold StripePattern_deserializePatternPreprocess, mbind, Des_bind, des_get, des_in. rewrite Ha.
    assert (Hm' : zlen m = zlen (enc_pattern p) + zlen rest) by (by rewrite Hm, zlen_app).
    unfold des_check, des_advance, d_advance, mret, Des_ret, d_start. cbn [d_length d_mem d_data].
    destruct (Z.ltb_spec (zlen m) (4 + zlen (enc_patternTail p))); [lia|]. cbn [negb].
    rewrite (u64_small (zlen m - _)) by lia. replace (zlen m - (4 + zlen (enc_patternTail p))) with (zlen rest) by lia.
    by rewrite Hz, Z.add_0_l.
Qed.

(** A pattern field in the servers' format is read back as exactly the object
    it encodes, for every class, pool and target list the format can carry, and the
    message goes on right behind the field. *)
Theorem pattern_roundtrip p rest :
  pattern_enc_ok p -> zlen (enc_pattern p ++ rest) < 2 ^ 64 ->
  read_pattern (enc_pattern p ++ rest) =
    Done (Some p) (MkDeserializeCtx (enc_pattern p ++ rest) (zlen (enc_pattern p)) (zlen rest)).
Proof.
  intros Hp Hlen. unfold read_pattern, mbind, Des_bind.
  rewrite (preprocess_enc p _ rest Hp eq_refl Hlen). unfold mret, Des_ret. f_equal.
  pose proof (zlen_nonneg rest). rewrite zlen_app in Hlen.
  apply createFromBuf_enc; [done| | |done].
  - unfold d_ok. cbn. rewrite zlen_app. pose proof (zlen_nonneg (enc_pattern p)). lia.
  - destruct (d_start_next (enc_pattern p ++ rest) (enc_pattern p) rest eq_refl) as [_ Hl].
    split; [cbn; lia|exact Hl].
Qed.

Definition pattern_example : StripePattern :=
  MkStripePattern STRIPEPATTERN_Raid10 65536 None (Raid10Pattern [1; 2] [3; 4] 131072 2).

Lemma pattern_example_ok : pattern_enc_ok pattern_example.
Proof.
  unfold pattern_enc_ok, pattern_example, ids_ok, in_u. cbn [sp_chunkSize sp_storagePoolId sp_body sp_patternType].
  split_and!; try done; repeat constructor; lia.
Qed.

Lemma pattern_roundtrip_witness :
  read_pattern (enc_pattern pattern_example ++ [Byte.x2a]) =
    Done (Some pattern_example) (MkDeserializeCtx (enc_pattern pattern_example ++ [Byte.x2a]) 40 1).
Proof. apply (pattern_roundtrip pattern_example [Byte.x2a]); [exact pattern_example_ok|done]. Defined.

(** On arbitrary received bytes, reading the pattern field never accesses
    memory outside of the buffer, and what is accepted yields either the invalid pattern
    or an object with a non-zero chunk size, 16-bit target IDs and, for RAID10, the
    32-bit set size derived from them. *)
Theorem pattern_decoding_safe m :
  zlen m < 2 ^ 64 ->
  read_pattern m = Refused \/
  exists p ctx, read_pattern m = Done (Some p) ctx /\ d_ok ctx /\ pattern_decoded p.
Proof.
  intros Hlen. unfold read_pattern, mbind, Des_bind.
  pose proof (triple_patternPreprocess no_fault (d_start m) (d_start_ok m Hlen)) as Ht.
  destruct (StripePattern_deserializePatternPreprocess (d_start m)) as [ctx c'| |]; [|by left|done].
  destruct Ht as [Hc' Hctx]. right. destruct (createFromBuf_decoded ctx Hctx) as (p & -> & Hp).
  by exists p, c'.
Qed.

Lemma pattern_decoding_safe_witness :
  read_pattern [Byte.x04; Byte.x00; Byte.x00; Byte.x00] = Refused \/
  exists p ctx, read_pattern [Byte.x04; Byte.x00; Byte.x00; Byte.x00] = Done (Some p) ctx /\
    d_ok ctx /\ pattern_decoded p.
Proof. apply pattern_decoding_safe. reflexivity. Defined.

(** The RAID10 set size is kept in 32 bits; a pattern with two targets and
    chunks of 2 GiB, which the decoder accepts, gets the set size 0 and reports target
    0, which is none of its targets, for every file position. *)
Theorem raid10_setsize_wrap :
  let p := MkStripePattern STRIPEPATTERN_Raid10 (2 ^ 31) None (Raid10Pattern [1; 2] [3; 4] 0 2) in
  (exists ctx, read_pattern (enc_pattern p) = Done (Some p) ctx) /\
  forall pos, getStripeTargetID p pos = Some 0 /\ 0 ∉ default [] (getStripeTargetIDs p).
Proof.
  intros p. split; [by eexists|]. intros pos. split; [done|]. by apply (bool_decide_unpack _).
Qed.
