(* ===== verification/NetMessageTypes.v ===== *)
(** * Message types

    The message type numbers of [NetMessageTypes.h] that the client sends or
    handles. *)

From S2P Require Import Prelude.

Definition NETMSGTYPE_Invalid : Z := 0.
Definition NETMSGTYPE_RemoveNode : Z := 1013.
Definition NETMSGTYPE_RemoveNodeResp : Z := 1014.
Definition NETMSGTYPE_GetNodes : Z := 1017.
Definition NETMSGTYPE_GetNodesResp : Z := 1018.
Definition NETMSGTYPE_HeartbeatRequest : Z := 1019.
Definition NETMSGTYPE_Heartbeat : Z := 1020.
Definition NETMSGTYPE_MapTargets : Z := 1023.
Definition NETMSGTYPE_GetTargetMappings : Z := 1025.
Definition NETMSGTYPE_GetTargetMappingsResp : Z := 1026.
Definition NETMSGTYPE_RegisterNode : Z := 1039.
Definition NETMSGTYPE_RegisterNodeResp : Z := 1040.
Definition NETMSGTYPE_SetMirrorBuddyGroup : Z := 1045.
Definition NETMSGTYPE_GetMirrorBuddyGroups : Z := 1047.
Definition NETMSGTYPE_RefreshTargetStates : Z := 1051.
Definition NETMSGTYPE_GetStatesAndBuddyGroups : Z := 1053.
Definition NETMSGTYPE_GetStatesAndBuddyGroupsResp : Z := 1054.
Definition NETMSGTYPE_Handshake : Z := 1073.
Definition NETMSGTYPE_HandshakeResp : Z := 1074.
Definition NETMSGTYPE_ReadInvalidations : Z := 1075.
Definition NETMSGTYPE_ReadInvalidationsResp : Z := 1076.
Definition NETMSGTYPE_MkDir : Z := 2001.
Definition NETMSGTYPE_MkDirResp : Z := 2002.
Definition NETMSGTYPE_RmDir : Z := 2003.
Definition NETMSGTYPE_RmDirResp : Z := 2004.
Definition NETMSGTYPE_MkFile : Z := 2005.
Definition NETMSGTYPE_MkFileResp : Z := 2006.
Definition NETMSGTYPE_UnlinkFile : Z := 2007.
Definition NETMSGTYPE_UnlinkFileResp : Z := 2008.
Definition NETMSGTYPE_Stat : Z := 2015.
Definition NETMSGTYPE_StatResp : Z := 2016.
Definition NETMSGTYPE_TruncFile : Z := 2019.
Definition NETMSGTYPE_TruncFileResp : Z := 2020.
Definition NETMSGTYPE_Rename : Z := 2023.
Definition NETMSGTYPE_RenameResp : Z := 2024.
Definition NETMSGTYPE_SetAttr : Z := 2025.
Definition NETMSGTYPE_SetAttrResp : Z := 2026.
Definition NETMSGTYPE_ListDirFromOffset : Z := 2029.
Definition NETMSGTYPE_ListDirFromOffsetResp : Z := 2030.
Definition NETMSGTYPE_StatStoragePath : Z := 2031.
Definition NETMSGTYPE_StatStoragePathResp : Z := 2032.
Definition NETMSGTYPE_GetEntryInfo : Z := 2045.
Definition NETMSGTYPE_GetEntryInfoResp : Z := 2046.
Definition NETMSGTYPE_RefreshEntryInfo : Z := 2055.
Definition NETMSGTYPE_RefreshEntryInfoResp : Z := 2056.
Definition NETMSGTYPE_LookupIntent : Z := 2059.
Definition NETMSGTYPE_LookupIntentResp : Z := 2060.
Definition NETMSGTYPE_Hardlink : Z := 2071.
Definition NETMSGTYPE_HardlinkResp : Z := 2072.
Definition NETMSGTYPE_ListXAttr : Z := 2101.
Definition NETMSGTYPE_ListXAttrResp : Z := 2102.
Definition NETMSGTYPE_GetXAttr : Z := 2103.
Definition NETMSGTYPE_GetXAttrResp : Z := 2104.
Definition NETMSGTYPE_RemoveXAttr : Z := 2105.
Definition NETMSGTYPE_RemoveXAttrResp : Z := 2106.
Definition NETMSGTYPE_SetXAttr : Z := 2107.
Definition NETMSGTYPE_SetXAttrResp : Z := 2108.
Definition NETMSGTYPE_SetFileState : Z := 2131.
Definition NETMSGTYPE_SetFileStateResp : Z := 2132.
Definition NETMSGTYPE_OpenFile : Z := 3001.
Definition NETMSGTYPE_OpenFileResp : Z := 3002.
Definition NETMSGTYPE_CloseFile : Z := 3003.
Definition NETMSGTYPE_CloseFileResp : Z := 3004.
Definition NETMSGTYPE_WriteLocalFile : Z := 3009.
Definition NETMSGTYPE_WriteLocalFileResp : Z := 3010.
Definition NETMSGTYPE_FSyncLocalFile : Z := 3013.
Definition NETMSGTYPE_FSyncLocalFileResp : Z := 3014.
Definition NETMSGTYPE_ReadLocalFileV2 : Z := 3019.
Definition NETMSGTYPE_LockGranted : Z := 3023.
Definition NETMSGTYPE_FLockEntry : Z := 3025.
Definition NETMSGTYPE_FLockEntryResp : Z := 3026.
Definition NETMSGTYPE_FLockRange : Z := 3027.
Definition NETMSGTYPE_FLockRangeResp : Z := 3028.
Definition NETMSGTYPE_FLockAppend : Z := 3029.
Definition NETMSGTYPE_FLockAppendResp : Z := 3030.
Definition NETMSGTYPE_AckNotifyResp : Z := 3032.
Definition NETMSGTYPE_BumpFileVersion : Z := 3033.
Definition NETMSGTYPE_BumpFileVersionResp : Z := 3034.
Definition NETMSGTYPE_GetFileVersion : Z := 3035.
Definition NETMSGTYPE_GetFileVersionResp : Z := 3036.
Definition NETMSGTYPE_WriteLocalFileRDMA : Z := 3037.
Definition NETMSGTYPE_WriteLocalFileRDMAResp : Z := 3038.
Definition NETMSGTYPE_ReadLocalFileRDMA : Z := 3039.
Definition NETMSGTYPE_SetChannelDirect : Z := 4001.
Definition NETMSGTYPE_Ack : Z := 4003.
Definition NETMSGTYPE_AuthenticateChannel : Z := 4007.
Definition NETMSGTYPE_GenericResponse : Z := 4009.
Definition NETMSGTYPE_PeerInfo : Z := 4011.
