(* ===== verification/NetMessage.v ===== *)
(** * Network messages: the common header

    Models [common/net/message/NetMessage.h] and [NetMessage.c]: the message
    header, the virtual operations of a message ([NetMessageOps], a type class
    here) and the two-pass serialisation (a length-only pass into a NULL buffer,
    then the real one).  The concrete messages are in [Messages.v]. *)

From S2P Require Import Prelude Wire Serialization NetMessageTypes.

(** ** Header *)

Record NetMessageHeader := MkNetMessageHeader {
  msgLength : Z;              (* unsigned *)
  msgFeatureFlags : Z;        (* uint16_t *)
  msgCompatFeatureFlags : Z;  (* uint8_t *)
  msgFlags : Z;               (* uint8_t *)
  msgType : Z;                (* unsigned short *)
  msgTargetID : Z;            (* uint16_t *)
  msgUserID : Z;              (* unsigned *)
  msgSequence : Z;            (* uint64_t *)
  msgSequenceDone : Z         (* uint64_t *)
}.

Definition BEEGFS_DATA_VERSION : Z := 0.
Definition NETMSG_PREFIX : Z := u64 (Z.shiftl 0x42474653 32 + BEEGFS_DATA_VERSION).
Definition NETMSG_HEADER_LENGTH : Z := 40.
Definition NETMSG_MIN_LENGTH : Z := NETMSG_HEADER_LENGTH.
Definition NETMSG_MAX_MSG_SIZE : Z := 1048576.
Definition NETMSG_MAX_PAYLOAD_SIZE : Z := u32 (NETMSG_MAX_MSG_SIZE - NETMSG_HEADER_LENGTH).

Definition MSGHDRFLAG_BUDDYMIRROR_SECOND : Z := 0x01.
Definition MSGHDRFLAG_IS_SELECTIVE_ACK : Z := 0x02.
Definition MSGHDRFLAG_HAS_SEQUENCE_NO : Z := 0x04.

(** A message object: the embedded [NetMessage] and the fields of the derived type. *)
Record NetMessage (M : Type) := MkNetMessage {
  msgHeader : NetMessageHeader;
  msgBody : M
}.
Arguments MkNetMessage {M} _ _.
Arguments msgHeader {M} _.
Arguments msgBody {M} _.

(** [struct NetMessageOps]: the virtual functions every message type fills in.  A
    deserialiser is called with the message object (the received header and the old
    values of the fields) and returns the new fields. *)
Class NetMessageOps (M : Type) := {
  serializePayload : NetMessage M -> Ser;
  deserializePayload : NetMessage M -> Des M;
  getSupportedHeaderFeatureFlagsMask : Z;
  supportsSequenceNumbers : bool
}.

(** The operations of messages that are only received, or only sent. *)
Definition _NetMessage_serializeDummy {M} (this : NetMessage M) : Ser := ser_skip.
Definition _NetMessage_deserializeDummy {M} (this : NetMessage M) : Des M := mret (msgBody this).
(** Default: no feature flag is supported. *)
Definition NetMessage_getSupportedHeaderFeatureFlagsMask : Z := 0.

(** ** Construction and accessors *)

Definition NetMessage_init {M} (currentUserID : Z) (type : Z) (body : M) : NetMessage M :=
  MkNetMessage (MkNetMessageHeader 0 0 0 0 type 0 currentUserID 0 0) body.

Definition set_msgLength (h : NetMessageHeader) (n : Z) : NetMessageHeader :=
  MkNetMessageHeader n (msgFeatureFlags h) (msgCompatFeatureFlags h) (msgFlags h) (msgType h)
    (msgTargetID h) (msgUserID h) (msgSequence h) (msgSequenceDone h).
Definition set_msgType (h : NetMessageHeader) (t : Z) : NetMessageHeader :=
  MkNetMessageHeader (msgLength h) (msgFeatureFlags h) (msgCompatFeatureFlags h) (msgFlags h) t
    (msgTargetID h) (msgUserID h) (msgSequence h) (msgSequenceDone h).
Definition set_msgFeatureFlags (h : NetMessageHeader) (f : Z) : NetMessageHeader :=
  MkNetMessageHeader (msgLength h) f (msgCompatFeatureFlags h) (msgFlags h) (msgType h)
    (msgTargetID h) (msgUserID h) (msgSequence h) (msgSequenceDone h).
Definition set_msgCompatFeatureFlags (h : NetMessageHeader) (f : Z) : NetMessageHeader :=
  MkNetMessageHeader (msgLength h) (msgFeatureFlags h) f (msgFlags h) (msgType h)
    (msgTargetID h) (msgUserID h) (msgSequence h) (msgSequenceDone h).

Definition with_header {M} (f : NetMessageHeader -> NetMessageHeader) (this : NetMessage M) :
  NetMessage M := MkNetMessage (f (msgHeader this)) (msgBody this).

Definition _NetMessage_setMsgType {M} (this : NetMessage M) (t : Z) : NetMessage M :=
  with_header (fun h => set_msgType h t) this.
Definition NetMessage_setMsgHeaderUserID {M} (this : NetMessage M) (userID : Z) : NetMessage M :=
  with_header (fun h => MkNetMessageHeader (msgLength h) (msgFeatureFlags h)
    (msgCompatFeatureFlags h) (msgFlags h) (msgType h) (msgTargetID h) userID
    (msgSequence h) (msgSequenceDone h)) this.
Definition NetMessage_setMsgHeaderTargetID {M} (this : NetMessage M) (targetID : Z) : NetMessage M :=
  with_header (fun h => MkNetMessageHeader (msgLength h) (msgFeatureFlags h)
    (msgCompatFeatureFlags h) (msgFlags h) (msgType h) targetID (msgUserID h)
    (msgSequence h) (msgSequenceDone h)) this.
(** [msgFeatureFlags |= flag], truncated to the 16 bit field. *)
Definition NetMessage_addMsgHeaderFeatureFlag {M} (this : NetMessage M) (flag : Z) : NetMessage M :=
  with_header (fun h => set_msgFeatureFlags h (u16 (Z.lor (msgFeatureFlags h) flag))) this.
Definition NetMessage_addMsgHeaderCompatFeatureFlag {M} (this : NetMessage M) (flag : Z) :
  NetMessage M :=
  with_header (fun h => set_msgCompatFeatureFlags h (u8 (Z.lor (msgCompatFeatureFlags h) flag))) this.
Definition NetMessage_isMsgHeaderFeatureFlagSet (h : NetMessageHeader) (flag : Z) : bool :=
  negb (Z.land (msgFeatureFlags h) flag =? 0).
Definition NetMessage_isMsgHeaderCompatFeatureFlagSet (h : NetMessageHeader) (flag : Z) : bool :=
  negb (Z.land (msgCompatFeatureFlags h) flag =? 0).

(** An [unsigned] complement: [~mask]. *)
Definition NetMessage_checkHeaderFeatureFlagsCompat {M} `{NetMessageOps M} (h : NetMessageHeader) :
  bool :=
  let unsupportedFlags := u32 (Z.lnot (getSupportedHeaderFeatureFlagsMask (M := M))) in
  Z.land (msgFeatureFlags h) unsupportedFlags =? 0.

(** ** Serialisation *)

(** The fields behind the length field. *)
Definition serialize_header_rest (h : NetMessageHeader) : Ser :=
  Serialization_serializeUShort (msgFeatureFlags h) +>
  Serialization_serializeChar (byte.of_Z (msgCompatFeatureFlags h)) +>
  Serialization_serializeChar (byte.of_Z (msgFlags h)) +>
  Serialization_serializeUInt64 NETMSG_PREFIX +>
  Serialization_serializeUShort (msgType h) +>
  Serialization_serializeUShort (msgTargetID h) +>
  Serialization_serializeUInt (msgUserID h) +>
  Serialization_serializeUInt64 (msgSequence h) +>
  Serialization_serializeUInt64 (msgSequenceDone h).

Section Messages.
Context {M : Type} `{NetMessageOps M}.

(** A zero [msgLength] means that it is not known yet: the message is serialised
    into a NULL buffer (with a zero length field) and the result is kept in the header. *)
Definition NetMessage_getMsgLength (this : NetMessage M) : option (Z * NetMessage M) :=
  if msgLength (msgHeader this) =? 0 then
    ctx ← (Serialization_serializeUInt 0 +> serialize_header_rest (msgHeader this) +>
           serializePayload this) (MkSerializeCtx None 0);
    Some (s_length ctx, with_header (fun h => set_msgLength h (s_length ctx)) this)
  else Some (msgLength (msgHeader this), this).

Definition __NetMessage_serializeHeader (this : NetMessage M) (ctx : SerializeCtx)
    (zeroLengthField : bool) : option (SerializeCtx * NetMessage M) :=
  '(len, this) ← (if zeroLengthField then Some (0, this) else NetMessage_getMsgLength this);
  ctx ← (Serialization_serializeUInt len +> serialize_header_rest (msgHeader this)) ctx;
  Some (ctx, this).

(** Result, message (its length is known afterwards) and buffer. *)
Definition NetMessage_serialize (this : NetMessage M) (buf : option (list byte)) (bufLen : Z) :
    option (bool * NetMessage M * option (list byte)) :=
  '(len, this) ← NetMessage_getMsgLength this;
  if bufLen <? len then Some (false, this, buf)
  else
    '(ctx, this) ← __NetMessage_serializeHeader this (MkSerializeCtx buf 0) false;
    ctx ← serializePayload this ctx;
    Some (true, this, s_data ctx).

End Messages.

(** ** Deserialisation *)

Definition set_invalid (h : NetMessageHeader) : NetMessageHeader :=
  set_msgType h NETMSGTYPE_Invalid.

(** [outHeader] is the caller's (uninitialised) header. *)
Definition __NetMessage_deserializeHeader (outHeader : NetMessageHeader) : Des NetMessageHeader :=
  ctx ← des_get;
  let totalLength := d_length ctx in
  if d_length ctx <? NETMSG_HEADER_LENGTH then mret (set_invalid outHeader)
  else
    length ← des_ignore Serialization_deserializeUInt (msgLength outHeader);
    if negb (length =? totalLength) then mret (set_invalid (set_msgLength outHeader length))
    else
      featureFlags ← des_ignore Serialization_deserializeUShort (msgFeatureFlags outHeader);
      compatFlags ← des_ignore Serialization_deserializeUInt8 (msgCompatFeatureFlags outHeader);
      flags ← des_ignore Serialization_deserializeUInt8 (msgFlags outHeader);
      prefix ← des_ignore Serialization_deserializeUInt64 0;
      let invalid := MkNetMessageHeader length featureFlags compatFlags flags NETMSGTYPE_Invalid
        (msgTargetID outHeader) (msgUserID outHeader) (msgSequence outHeader)
        (msgSequenceDone outHeader) in
      if negb (prefix =? NETMSG_PREFIX) then mret invalid
      else if negb (Z.land flags (Z.lnot (Z.lor (Z.lor MSGHDRFLAG_BUDDYMIRROR_SECOND
                 MSGHDRFLAG_IS_SELECTIVE_ACK) MSGHDRFLAG_HAS_SEQUENCE_NO)) =? 0) then mret invalid
      else
        type ← des_ignore Serialization_deserializeUShort (msgType outHeader);
        targetID ← des_ignore Serialization_deserializeUShort (msgTargetID outHeader);
        userID ← des_ignore Serialization_deserializeUInt (msgUserID outHeader);
        sequence ← des_ignore Serialization_deserializeUInt64 (msgSequence outHeader);
        sequenceDone ← des_ignore Serialization_deserializeUInt64 (msgSequenceDone outHeader);
        mret (MkNetMessageHeader length featureFlags compatFlags flags type targetID userID
                sequence sequenceDone).

(** [recvBuf] holds at least the 4 bytes of the length field ([NETMSG_MIN_LENGTH]). *)
Definition NetMessage_extractMsgLengthFromBuf (recvBuf : list byte) : dres Z :=
  Serialization_deserializeUInt (MkDeserializeCtx recvBuf 0 4).

(** ** Receiving a message of a known type ([NetMessageFactory.c]) *)

(** The header is copied into the message object before the payload is read. *)
Definition __NetMessageFactory_deserializeRaw {M} `{NetMessageOps M} (header : NetMessageHeader)
    (outMsg : NetMessage M) : Des (NetMessage M) :=
  des_check (NetMessage_checkHeaderFeatureFlagsCompat (M := M) header);;
  body ← deserializePayload (MkNetMessage header (msgBody outMsg));
  mret (MkNetMessage header body).

Definition NetMessageFactory_deserializeFromBuf {M} `{NetMessageOps M} (garbage : NetMessageHeader)
    (recvBuf : list byte) (bufLen : Z) (outMsg : NetMessage M) (expectedMsgType : Z) :
    dres (NetMessage M) :=
  (header ← __NetMessage_deserializeHeader garbage;
   des_check (msgType header =? expectedMsgType);;
   __NetMessageFactory_deserializeRaw header outMsg) (MkDeserializeCtx recvBuf 0 bufLen).
