(* ===== verification/NetMessageFacts.v ===== *)
(** * Network messages: lengths, round trips and rejection

    The laws a message type promises to the transport ([MsgSend] for what the
    client sends, [MsgCodec] for what it can also receive), and the facts of the
    header and of the two-pass serialisation that hold for every such type. *)

From S2P Require Import Prelude Wire Serialization SerializationFacts StorageFormatsFacts NetMessageTypes NetMessage.

(** ** Interfaces *)

(** The payload of a message depends on its fields and on the header's feature
    flags only, and is some byte string. *)
Class MsgSend (M : Type) `{NetMessageOps M} := {
  send_ok : Z -> M -> Prop;
  send_writes : forall flags m, send_ok flags m ->
    exists bs, forall this : NetMessage M,
      msgFeatureFlags (msgHeader this) = flags -> msgBody this = m ->
      writes (serializePayload this) bs
}.

(** A message that is sent and received: a format, written and accepted. *)
Class MsgCodec (M : Type) `{NetMessageOps M} := {
  codec_ok : M -> Prop;
  codec_enc : M -> list byte;
  codec_writes : forall this : NetMessage M, codec_ok (msgBody this) ->
    writes (serializePayload this) (codec_enc (msgBody this));
  codec_reads : forall this m, codec_ok m -> reads 0 (deserializePayload this) (codec_enc m) (fun x => x = m)
}.

(** ** The header *)

Definition header_ok (h : NetMessageHeader) : Prop :=
  in_u 16 (msgFeatureFlags h) /\ in_u 8 (msgCompatFeatureFlags h) /\ in_u 3 (msgFlags h) /\
  in_u 16 (msgType h) /\ in_u 16 (msgTargetID h) /\ in_u 32 (msgUserID h) /\
  in_u 64 (msgSequence h) /\ in_u 64 (msgSequenceDone h).

Definition enc_header_rest (h : NetMessageHeader) : list byte :=
  le_split 2 (msgFeatureFlags h) ++ le_split 1 (msgCompatFeatureFlags h) ++
  le_split 1 (msgFlags h) ++ le_split 8 NETMSG_PREFIX ++ le_split 2 (msgType h) ++
  le_split 2 (msgTargetID h) ++ le_split 4 (msgUserID h) ++ le_split 8 (msgSequence h) ++
  le_split 8 (msgSequenceDone h).
Definition enc_header (len : Z) (h : NetMessageHeader) : list byte :=
  le_split 4 len ++ enc_header_rest h.

Lemma zlen_enc_header len h : zlen (enc_header len h) = NETMSG_HEADER_LENGTH.
Proof. unfold enc_header, enc_header_rest. by autorewrite with zlen. Qed.

(** The number of bytes of a message. *)
Lemma length_message len h (payload : list byte) :
  length (enc_header len h ++ payload) = Z.to_nat (NETMSG_HEADER_LENGTH + zlen payload).
Proof.
  apply Nat2Z.inj. fold (zlen (enc_header len h ++ payload)).
  rewrite zlen_app, zlen_enc_header. pose proof (zlen_nonneg payload).
  unfold NETMSG_HEADER_LENGTH. lia.
Qed.

Lemma writes_header len h :
  writes (Serialization_serializeUInt len +> serialize_header_rest h) (enc_header len h).
Proof.
  unfold enc_header, enc_header_rest, serialize_header_rest.
  repeat (apply writes_seq; [solve [auto with wire | rewrite le_split_1; auto with wire]|]).
  auto with wire.
Qed.

Lemma set_msgLength_rest h n : enc_header_rest (set_msgLength h n) = enc_header_rest h.
Proof. done. Qed.

(** ** Sending *)

Section Send.
Context {M : Type} `{NetMessageOps M}.
Variables (this : NetMessage M) (bs : list byte).
Let h := msgHeader this.
Let total := NETMSG_HEADER_LENGTH + zlen bs.
(** The payload does not look at the length field. *)
Hypothesis payload : forall n, writes (serializePayload (with_header (fun h => set_msgLength h n) this)) bs.
Hypothesis fits : total < 2 ^ 32.

Lemma with_same_length : with_header (fun h => set_msgLength h (msgLength (msgHeader this))) this = this.
Proof. by destruct this as [[] ?]. Qed.

Definition sent : NetMessage M := with_header (fun h => set_msgLength h total) this.

Lemma getMsgLength_spec :
  msgLength h = 0 \/ msgLength h = total ->
  NetMessage_getMsgLength this = Some (total, sent).
Proof using payload fits.
  pose proof (zlen_nonneg bs). assert (Hpos : 0 < total) by (unfold total, NETMSG_HEADER_LENGTH; lia).
  intros Hlen. unfold NetMessage_getMsgLength. fold h.
  destruct (Z.eqb_spec (msgLength h) 0) as [E|E].
  - pose proof (payload (msgLength (msgHeader this))) as Hp. rewrite with_same_length in Hp.
    pose proof (writes_seq _ _ _ _ (writes_header 0 h) Hp (MkSerializeCtx None 0)) as Hw.
    rewrite zlen_app, zlen_enc_header in Hw. cbn [s_length] in Hw.
    unfold ser_seq in *.
    destruct (Serialization_serializeUInt 0 (MkSerializeCtx None 0)) as [c1|];
      [|specialize (Hw ltac:(split; cbn; lia) ltac:(unfold total in *; lia)); cbn in Hw; done].
    rewrite Hw by (done || (unfold total in *; lia)).
    unfold emit. cbn [s_data s_length mbind option_bind].
    rewrite zlen_app, zlen_enc_header, u32_small by (unfold total in *; lia). done.
  - destruct Hlen as [?|Hlen]; [done|]. rewrite Hlen. do 2 f_equal.
    unfold sent. rewrite <- Hlen. symmetry. apply with_same_length.
Qed.

Lemma serializeHeader_spec c :
  msgLength h = 0 \/ msgLength h = total ->
  __NetMessage_serializeHeader this c false =
  (c' ← (Serialization_serializeUInt total +> serialize_header_rest h) c; Some (c', sent)).
Proof using payload fits.
  intros Hlen. unfold __NetMessage_serializeHeader. by rewrite getMsgLength_spec.
Qed.
End Send.

(** The two passes agree: the message is written in full, header first, with its own
    length in the length field, exactly when the buffer holds it. *)
Lemma serialize_spec {M} `{NetMessageOps M} (this : NetMessage M) bs buf :
  (forall n, writes (serializePayload (with_header (fun h => set_msgLength h n) this)) bs) ->
  let total := NETMSG_HEADER_LENGTH + zlen bs in
  total < 2 ^ 32 ->
  msgLength (msgHeader this) = 0 \/ msgLength (msgHeader this) = total ->
  NetMessage_serialize this (Some buf) (zlen buf) =
  Some (if zlen buf <? total then (false, sent this bs, Some buf)
        else (true, sent this bs, Some (splice 0 (enc_header total (msgHeader this) ++ bs) buf))).
Proof.
  intros Hp total Hfit Hlen. pose proof (zlen_nonneg bs). unfold NetMessage_serialize.
  rewrite (getMsgLength_spec this bs Hp Hfit Hlen). cbn [mbind option_bind].
  fold total. destruct (Z.ltb_spec (zlen buf) total) as [|Hbuf]; [done|].
  assert (Hp' : forall n, writes (serializePayload (with_header (fun h => set_msgLength h n)
    (sent this bs))) bs) by exact Hp.
  rewrite (serializeHeader_spec (sent this bs) bs Hp' Hfit) by (by right).
  set (c := MkSerializeCtx (Some buf) 0).
  assert (Hc : s_ok c) by (split; cbn; [lia|apply zlen_nonneg]).
  pose proof (writes_seq _ _ _ _ (writes_header total (msgHeader this)) (Hp total) c Hc) as Hw.
  rewrite zlen_app, zlen_enc_header in Hw. specialize (Hw ltac:(cbn; unfold total in *; lia)).
  unfold ser_seq in *. change (serialize_header_rest (msgHeader (sent this bs)))
    with (serialize_header_rest (msgHeader this)).
  change (sent (sent this bs) bs) with (sent this bs). fold total.
  destruct (Serialization_serializeUInt total c) as [c1|]; cbn [mbind option_bind] in *.
  2: { exfalso. revert Hw. unfold emit. cbn [s_data s_length c].
       rewrite zlen_app, zlen_enc_header, (proj2 (Z.leb_le _ _)) by (unfold total in *; lia). done. }
  destruct (serialize_header_rest (msgHeader this) c1) as [c2|]; cbn [mbind option_bind] in *.
  2: { exfalso. revert Hw. unfold emit. cbn [s_data s_length c].
       rewrite zlen_app, zlen_enc_header, (proj2 (Z.leb_le _ _)) by (unfold total in *; lia). done. }
  change (serializePayload (sent this bs)) with
    (serializePayload (with_header (fun h => set_msgLength h total) this)).
  rewrite Hw. unfold emit. cbn [s_data s_length c].
  rewrite zlen_app, zlen_enc_header, (proj2 (Z.leb_le _ _)) by (unfold total in *; lia). done.
Qed.

(** Every message type of the interface can be sent that way. *)
Lemma send_spec {M} `{MsgSend M} (this : NetMessage M) :
  send_ok (msgFeatureFlags (msgHeader this)) (msgBody this) ->
  exists bs, forall n, writes (serializePayload (with_header (fun h => set_msgLength h n) this)) bs.
Proof. intros Hok. destruct (send_writes _ _ Hok) as [bs Hbs]. exists bs. intros n. by apply Hbs. Qed.

(** ** Receiving *)

(** A context at the start of a received message. *)
Lemma d_ok_start m n : 0 <= n <= zlen m -> n < 2 ^ 64 -> d_ok (MkDeserializeCtx m 0 n).
Proof. intros. unfold d_ok. cbn. lia. Qed.

Lemma land_flags f : in_u 3 f -> Z.land f (Z.lnot 7) = 0.
Proof.
  intros Hf. apply Z.bits_inj'. intros i Hi.
  rewrite Z.land_spec, Z.lnot_spec, Z.bits_0 by done.
  destruct (decide (i < 3)) as [Hlt|Hge].
  - change 7 with (Z.ones 3). rewrite Z.ones_spec_low by lia. by rewrite andb_false_r.
  - apply in_u_log2 in Hf as [? Hl]; [|done]. rewrite (Z.bits_above_log2 f) by lia. done.
Qed.

#[local] Hint Resolve reads_ignore : wire.

Lemma reads_header g h (payload : list byte) :
  header_ok h -> let total := NETMSG_HEADER_LENGTH + zlen payload in total < 2 ^ 32 ->
  forall c, d_ok c -> d_length c = total -> d_next c (enc_header total h) ->
  __NetMessage_deserializeHeader g c =
    Done (set_msgLength h total) (d_advance NETMSG_HEADER_LENGTH c).
Proof.
  intros (Hff & Hcf & Hfl & Hty & Htg & Hus & Hsq & Hsd) total Hfit c Hok Hlen Hn.
  pose proof (zlen_nonneg payload).
  assert (Hfl8 : in_u 8 (msgFlags h)) by (unfold in_u in *; lia).
  assert (Hpre : in_u 64 NETMSG_PREFIX) by done.
  assert (Htot : in_u 32 total) by (unfold in_u, total, NETMSG_HEADER_LENGTH in *; lia).
  unfold __NetMessage_deserializeHeader. unfold mbind at 1, Des_bind at 1, des_get.
  rewrite (proj2 (Z.ltb_ge (d_length c) _)) by (rewrite Hlen; unfold total; lia). rewrite Hlen.
  match goal with |- ?d c = _ =>
    assert (Hr : reads 0 d (enc_header total h) (fun x => x = set_msgLength h total)) end.
  - unfold enc_header, enc_header_rest.
    reads_field. rewrite Z.eqb_refl. cbn [negb]. do 4 reads_field. rewrite Z.eqb_refl. cbn [negb].
    change (Z.lor (Z.lor _ _) _) with 7. rewrite land_flags by done. cbn [negb Z.eqb].
    do 4 reads_field. reads_final. by apply reads_ret.
  - destruct (Hr c Hok Hn) as (x & Hx & ->); [rewrite zlen_enc_header; unfold total in *; lia|].
    by rewrite Hx, zlen_enc_header.
Qed.

(** ** What an accepted header says *)

(** The [n]-byte little-endian field at offset [off] of the bytes that are left. *)
Definition field (c : DeserializeCtx) (off n : Z) : Z :=
  le_combine (take (Z.to_nat n) (drop (Z.to_nat (d_data c + off)) (d_mem c))).

Lemma load_field c off n :
  d_ok c -> 0 <= n -> 0 <= off -> off + n <= d_length c ->
  n <= d_length (d_advance off c) /\
  load (d_mem c) (d_data c + off) n = Some (take (Z.to_nat n) (drop (Z.to_nat (d_data c + off)) (d_mem c))).
Proof.
  intros (?&?&?) ???. split; [cbn; rewrite u64_small; lia|]. apply load_in; lia.
Qed.

Lemma raw_step {B} n old (k : Z -> Des B) c off :
  d_ok c -> 0 <= n -> 0 <= off -> off + n <= d_length c ->
  (des_ignore (__Serialization_deserializeRaw n le_combine) old ≫= k) (d_advance off c) =
  k (field c off n) (d_advance (off + n) c).
Proof.
  intros Hok Hn Hoff Hlen. destruct (load_field c off n) as [Hl Hld]; [done..|].
  unfold mbind, Des_bind, des_ignore, __Serialization_deserializeRaw.
  rewrite (proj2 (Z.leb_le _ _) Hl). cbn [d_mem d_data d_advance]. rewrite Hld.
  by rewrite d_advance_advance.
Qed.

Lemma u8_step {B} old (k : Z -> Des B) c off :
  d_ok c -> 0 <= off -> off + 1 <= d_length c ->
  (des_ignore Serialization_deserializeUInt8 old ≫= k) (d_advance off c) =
  k (field c off 1) (d_advance (off + 1) c).
Proof.
  intros Hok Hoff Hlen. destruct (load_field c off 1) as [Hl Hld]; [done..|].
  unfold mbind, Des_bind, des_ignore, Serialization_deserializeUInt8, Serialization_deserializeChar,
    mbind, Des_bind, __Serialization_deserializeRaw.
  rewrite (proj2 (Z.leb_le _ _) Hl). cbn [d_mem d_data d_advance]. rewrite Hld.
  pose proof (load_length _ _ _ _ Hld) as H1. unfold field.
  destruct (take _ _) as [|b [|? ?]] eqn:E; [done| |unfold zlen in H1; cbn in H1; lia].
  cbn [mret Des_ret]. rewrite d_advance_advance. cbn.
  by rewrite LittleEndianList.le_combine_1.
Qed.

(** The header that the bytes in front of [c] encode. *)
Definition header_of (c : DeserializeCtx) : NetMessageHeader :=
  MkNetMessageHeader (field c 0 4) (field c 4 2) (field c 6 1) (field c 7 1) (field c 16 2)
    (field c 18 2) (field c 20 4) (field c 24 8) (field c 32 8).

Definition header_valid (c : DeserializeCtx) : Prop :=
  NETMSG_HEADER_LENGTH <= d_length c /\ field c 0 4 = d_length c /\
  field c 8 8 = NETMSG_PREFIX /\ Z.land (field c 7 1) (Z.lnot 7) = 0.

(** Deserialising a header always returns; it is taken over exactly when it is valid. *)
Lemma deserializeHeader_cases g c :
  d_ok c ->
  (header_valid c /\
   __NetMessage_deserializeHeader g c = Done (header_of c) (d_advance NETMSG_HEADER_LENGTH c)) \/
  (~ header_valid c /\ exists h c', __NetMessage_deserializeHeader g c = Done h c' /\ d_ok c' /\
   msgType h = NETMSGTYPE_Invalid).
Proof.
  intros Hok. remember (__NetMessage_deserializeHeader g c) as r eqn:Er.
  assert (Hadv : forall n, 0 <= n <= d_length c -> d_ok (d_advance n c))
    by (intros; apply d_advance_ok; [done|lia]).
  assert (H0 : forall d : Des NetMessageHeader, d c = d (d_advance 0 c)).
  { intros d. f_equal. clear -Hok. destruct c as [m p l]. destruct Hok as (?&?&?). cbn in *. unfold d_advance. cbn.
    by rewrite Z.add_0_r, Z.sub_0_r, u64_small. }
  revert Er. unfold __NetMessage_deserializeHeader, header_valid.
  unfold mbind at 1, Des_bind at 1, des_get. unfold NETMSG_HEADER_LENGTH in *.
  destruct (Z.ltb_spec (d_length c) 40) as [Hlt|Hge].
  { intros ->. right. split; [lia|]. by do 2 eexists. }
  match goal with |- _ = ?d c -> _ => rewrite (H0 d) end.
  unfold Serialization_deserializeUInt, Serialization_deserializeUShort,
    Serialization_deserializeUInt64.
  rewrite raw_step by (done || lia). cbn [Z.add].
  destruct (Z.eqb_spec (field c 0 4) (d_length c)) as [Hlen|Hlen]; cbn [negb].
  2: { intros ->. right. split; [tauto|]. do 2 eexists. split; [reflexivity|]. split; [apply Hadv; lia|done]. }
  rewrite raw_step, u8_step, u8_step, raw_step by (done || lia).
  change (0 + 4 + 2 + 1 + 1) with 8. change (0 + 4 + 2 + 1) with 7.
  destruct (Z.eqb_spec (field c 8 8) NETMSG_PREFIX) as [Hpre|Hpre]; cbn [negb].
  2: { intros ->. right. split; [tauto|]. do 2 eexists. split; [reflexivity|]. split; [apply Hadv; lia|done]. }
  change (Z.lor (Z.lor _ _) _) with 7.
  destruct (Z.eqb_spec (Z.land (field c 7 1) (Z.lnot 7)) 0) as [Hfl|Hfl]; cbn [negb].
  2: { intros ->. right. split; [tauto|]. do 2 eexists. split; [reflexivity|]. split; [apply Hadv; lia|done]. }
  intros ->. left. split; [done|]. rewrite !raw_step by (done || lia). done.
Qed.

Lemma take_splice_0 {A} (bs l : list A) : take (length bs) (splice 0 bs l) = bs.
Proof. unfold splice. rewrite take_0. cbn [app]. apply take_app_length. Qed.

(** What is received from a buffer that starts with a message. *)
Lemma receive_spec {M} `{NetMessageOps M} g h (out : NetMessage M) payload buf P :
  header_ok h -> let total := NETMSG_HEADER_LENGTH + zlen payload in total < 2 ^ 32 ->
  NetMessage_checkHeaderFeatureFlagsCompat (M := M) h = true ->
  total <= zlen buf -> take (length (enc_header total h ++ payload)) buf = enc_header total h ++ payload ->
  reads 0 (deserializePayload (MkNetMessage (set_msgLength h total) (msgBody out))) payload P ->
  exists body c, NetMessageFactory_deserializeFromBuf g buf total out (msgType h) =
    Done (MkNetMessage (set_msgLength h total) body) c /\ P body.
Proof.
  intros Hh total Hfit Hcompat Hbuf Htake Hr. pose proof (zlen_nonneg payload).
  set (c := MkDeserializeCtx buf 0 total).
  assert (Hok : d_ok c) by (apply d_ok_start; unfold total, NETMSG_HEADER_LENGTH in *; lia).
  assert (Hn : d_next c (enc_header total h ++ payload)).
  { split; [rewrite zlen_app, zlen_enc_header; done|]. cbn [d_mem d_data c].
    rewrite load_in; [|lia|apply zlen_nonneg|rewrite zlen_app, zlen_enc_header; done].
    rewrite drop_0, to_nat_zlen. by rewrite Htake. }
  apply d_next_app in Hn as [Hn1 Hn2]; [|done]. rewrite zlen_enc_header in Hn2.
  unfold NetMessageFactory_deserializeFromBuf. fold c. unfold mbind, Des_bind.
  rewrite (reads_header g h payload Hh Hfit c Hok eq_refl Hn1). fold total.
  unfold des_check at 1. cbn [msgType set_msgLength]. rewrite Z.eqb_refl.
  unfold __NetMessageFactory_deserializeRaw, mbind, Des_bind, des_check.
  change (NetMessage_checkHeaderFeatureFlagsCompat (set_msgLength h total)) with
    (NetMessage_checkHeaderFeatureFlagsCompat (M := M) h). rewrite Hcompat.
  destruct (Hr (d_advance NETMSG_HEADER_LENGTH c)) as (body & Hbody & HP).
  - apply d_advance_ok; [done|]. cbn [d_length c]. unfold total, NETMSG_HEADER_LENGTH. lia.
  - done.
  - cbn. rewrite u64_small; unfold total, NETMSG_HEADER_LENGTH in *; lia.
  - rewrite Hbody. by do 2 eexists.
Qed.

(** C12: a message of a type that fulfils the codec interface, sent
    with [NetMessage_serialize] into a large enough buffer and received with
    [NetMessageFactory_deserializeFromBuf], arrives with the same fields and header,
    and the received length field is the number of bytes that were written. *)
Theorem message_roundtrip {M} `{MsgCodec M} g (this out : NetMessage M) buf :
  codec_ok (msgBody this) -> header_ok (msgHeader this) -> msgLength (msgHeader this) = 0 ->
  NetMessage_checkHeaderFeatureFlagsCompat (M := M) (msgHeader this) = true ->
  let total := NETMSG_HEADER_LENGTH + zlen (codec_enc (msgBody this)) in
  total <= zlen buf -> zlen buf < 2 ^ 32 ->
  exists buf' c,
    NetMessage_serialize this (Some buf) (zlen buf) =
      Some (true, sent this (codec_enc (msgBody this)), Some buf') /\
    zlen buf' = zlen buf /\ drop (Z.to_nat total) buf' = drop (Z.to_nat total) buf /\
    NetMessageFactory_deserializeFromBuf g buf' total out (msgType (msgHeader this)) =
      Done (sent this (codec_enc (msgBody this))) c /\
    msgLength (msgHeader (sent this (codec_enc (msgBody this)))) = total.
Proof.
  intros Hok Hh Hlen Hcompat total Hbuf Hsz. set (bs := codec_enc (msgBody this)).
  assert (Hp : forall n, writes (serializePayload (with_header (fun h => set_msgLength h n) this)) bs)
    by (intros n; apply (codec_writes (with_header (fun h => set_msgLength h n) this) Hok)).
  assert (Hfit : NETMSG_HEADER_LENGTH + zlen bs < 2 ^ 32) by (unfold total, bs in *; lia).
  assert (Htot : length (enc_header total (msgHeader this) ++ bs) = Z.to_nat total)
    by apply length_message.
  pose proof (serialize_spec this bs buf Hp Hfit (or_introl Hlen)) as Hs. cbv zeta in Hs.
  change (NETMSG_HEADER_LENGTH + zlen bs) with total in Hs.
  rewrite (proj2 (Z.ltb_ge _ _)) in Hs by done.
  set (buf' := splice 0 _ buf) in Hs.
  assert (Hbuf' : zlen buf' = zlen buf).
  { unfold zlen, buf'. rewrite length_splice; [done|]. rewrite Htot.
    clearbody total. clear -Hbuf. unfold zlen in *. lia. }
  destruct (receive_spec g (msgHeader this) out bs buf' _ Hh Hfit Hcompat
    ltac:(rewrite Hbuf'; done) (take_splice_0 _ _) (codec_reads _ _ Hok)) as (b & c & Hc & ->).
  exists buf', c. split; [exact Hs|]. split; [done|]. split; [|done].
  unfold buf', splice. rewrite take_0, <- Htot. apply (drop_app_length (_ ++ _)).
Qed.
