(* ===== verification/BitStore.v ===== *)
(** * Bit vectors

    Models [client_module/source/toolkit/BitStore.h] and [BitStore.c] for a 64-bit
    [long]: the first block of bits is stored inline, the others in an array that
    is allocated only when it is needed.  The client keeps one per file handle to
    remember which targets have been written to. *)

From S2P Require Import Prelude Wire Serialization.

Definition BITSTORE_BLOCK_SIZE : Z := 8.
Definition BITSTORE_BLOCK_BIT_COUNT : Z := BITSTORE_BLOCK_SIZE * 8.

Record BitStore := MkBitStore {
  bs_numBits : Z;
  bs_lowerBits : Z;
  bs_higherBits : option (list Z) (* NULL: None *)
}.

Definition BitStore_getBitBlockIndex (bitIndex : Z) : Z := bitIndex / BITSTORE_BLOCK_BIT_COUNT.
Definition BitStore_getBitIndexInBitBlock (bitIndex : Z) : Z :=
  bitIndex mod BITSTORE_BLOCK_BIT_COUNT.

Definition BitStore_calculateBitBlockCount (size : Z) : Z :=
  if size <=? BITSTORE_BLOCK_BIT_COUNT then 1
  else
    let retVal := size / BITSTORE_BLOCK_BIT_COUNT in
    if negb (size mod BITSTORE_BLOCK_BIT_COUNT =? 0) then u32 (retVal + 1) else retVal.

(** The kernel's bit operations on one [unsigned long]. *)
Definition test_bit (nr word : Z) : bool := Z.testbit word nr.
Definition set_bit (nr word : Z) : Z := Z.lor word (2 ^ nr).
Definition clear_bit (nr word : Z) : Z := Z.land word (u64 (Z.lnot (2 ^ nr))).

(** [&this->higherBits[index - 1]]; [None] for a NULL or out-of-bounds access. *)
Definition higherBits_at (this : BitStore) (index : Z) : option Z :=
  l ← bs_higherBits this; l !! Z.to_nat (index - 1).

Definition BitStore_getBit (this : BitStore) (bitIndex : Z) : option bool :=
  if bs_numBits this <=? bitIndex then Some false
  else
    let index := BitStore_getBitBlockIndex bitIndex in
    let indexInBitBlock := BitStore_getBitIndexInBitBlock bitIndex in
    if index =? 0 then Some (test_bit indexInBitBlock (bs_lowerBits this))
    else test_bit indexInBitBlock <$> higherBits_at this index.

Definition BitStore_setBit (this : BitStore) (bitIndex : Z) (isSet : bool) : option BitStore :=
  let index := BitStore_getBitBlockIndex bitIndex in
  let indexInBitBlock := BitStore_getBitIndexInBitBlock bitIndex in
  let op := if isSet then set_bit indexInBitBlock else clear_bit indexInBitBlock in
  if bs_numBits this <=? bitIndex then Some this
  else if index =? 0 then
    Some (MkBitStore (bs_numBits this) (op (bs_lowerBits this)) (bs_higherBits this))
  else
    l ← bs_higherBits this;
    w ← l !! Z.to_nat (index - 1);
    Some (MkBitStore (bs_numBits this) (bs_lowerBits this)
            (Some (<[Z.to_nat (index - 1) := op w]> l))).

(** The product of the new size is computed in [size_t] and stored in an
    [unsigned]. *)
Definition BitStore_setSize (garbage : nat -> Z) (this : BitStore) (newSize : Z) : BitStore :=
  let oldBitBlockCount := BitStore_calculateBitBlockCount (bs_numBits this) in
  let newBitBlockCount := BitStore_calculateBitBlockCount newSize in
  if negb (newBitBlockCount =? oldBitBlockCount) then
    MkBitStore (u32 (u64 (newBitBlockCount * BITSTORE_BLOCK_BIT_COUNT))) (bs_lowerBits this)
      (if 1 <? newBitBlockCount
       then Some (kmalloc_blocks garbage (newBitBlockCount - 1)) else None)
  else this.

(** [memset(&l[off], 0, n * BITSTORE_BLOCK_SIZE)] *)
Definition memset_blocks (l : list Z) (off n : Z) : option (list Z) :=
  if zlen l <? off + n then None
  else Some (splice (Z.to_nat off) (replicate (Z.to_nat n) 0) l).

(** [memcpy(dst, src, n * BITSTORE_BLOCK_SIZE)] *)
Definition memcpy_blocks (dst src : list Z) (n : Z) : option (list Z) :=
  if (zlen dst <? n) || (zlen src <? n) then None
  else Some (splice 0 (take (Z.to_nat n) src) dst).

Definition BitStore_clearBits (this : BitStore) : option BitStore :=
  match bs_higherBits this with
  | None => Some (MkBitStore (bs_numBits this) 0 None)
  | Some l =>
      let bitBlockCount := BitStore_calculateBitBlockCount (bs_numBits this) in
      l' ← memset_blocks l 0 (bitBlockCount - 1);
      Some (MkBitStore (bs_numBits this) 0 (Some l'))
  end.

(** [lowerBits0] is the previous content of the field. *)
Definition BitStore_init (lowerBits0 : Z) (setZero : bool) : BitStore :=
  MkBitStore BITSTORE_BLOCK_BIT_COUNT (if setZero then 0 else lowerBits0) None.

Definition BitStore_initWithSizeAndReset (garbage : nat -> Z) (lowerBits0 size : Z) :
    option BitStore :=
  BitStore_clearBits (BitStore_setSize garbage (BitStore_init lowerBits0 false) size).

(** ** Serialisation *)

Definition BitStore_serialize (this : BitStore) : Ser :=
  let blockCount := BitStore_calculateBitBlockCount (bs_numBits this) in
  Serialization_serializeUInt (bs_numBits this) +>
  Serialization_serializeUInt 0 +>
  Serialization_serializeUInt64 (bs_lowerBits this) +>
  let higher := default [] (bs_higherBits this) in
  (if zlen higher <? blockCount - 1 then fun _ => None
   else ser_each Serialization_serializeUInt64 (take (Z.to_nat (blockCount - 1)) higher)).

(** Returns the start of the bit store in the message. *)
Definition BitStore_deserializePreprocess : Des Z :=
  ctx0 ← des_get;
  tmpSize ← Serialization_deserializeUInt;
  padding ← Serialization_deserializeUInt;
  let blockCount := BitStore_calculateBitBlockCount tmpSize in
  let blocksLen := Serialization_serialLenUInt64 * blockCount in
  ctx ← des_get;
  des_check (negb (d_length ctx <? blocksLen));;
  des_advance blocksLen;;
  mret (d_data ctx0).

Fixpoint deserialize_blocks (old : list Z) : Des (list Z) :=
  match old with
  | [] => mret []
  | w :: old' =>
      w' ← des_ignore Serialization_deserializeUInt64 w;
      l ← deserialize_blocks old';
      mret (w' :: l)
  end.

Definition BitStore_deserialize (garbage : nat -> Z) (this : BitStore) : Des BitStore :=
  bitCount ← des_ignore Serialization_deserializeUInt 0;
  padding ← des_ignore Serialization_deserializeUInt 0;
  let this := BitStore_setSize garbage this bitCount in
  lowerBits ← des_ignore Serialization_deserializeUInt64 (bs_lowerBits this);
  let blockCount := BitStore_calculateBitBlockCount (bs_numBits this) in
  let n := Z.to_nat (blockCount - 1) in
  (* a block behind the array: NULL or out-of-bounds access *)
  if zlen (default [] (bs_higherBits this)) <? blockCount - 1 then des_bad 0
  else match bs_higherBits this with
  | None => mret (MkBitStore (bs_numBits this) lowerBits None)
  | Some l =>
      l' ← deserialize_blocks (take n l);
      mret (MkBitStore (bs_numBits this) lowerBits (Some (l' ++ drop n l)))
  end.

(** ** Copies *)

Definition BitStore_copy (garbage : nat -> Z) (this other : BitStore) : option BitStore :=
  let this := BitStore_setSize garbage this (bs_numBits other) in
  match bs_higherBits this with
  | None => Some (MkBitStore (bs_numBits this) (bs_lowerBits other) None)
  | Some l =>
      let blockCount := BitStore_calculateBitBlockCount (bs_numBits this) in
      src ← bs_higherBits other;
      l' ← memcpy_blocks l src (blockCount - 1);
      Some (MkBitStore (bs_numBits this) (bs_lowerBits other) (Some l'))
  end.

Definition BitStore_copyThreadSafe (this other : BitStore) : option BitStore :=
  match bs_higherBits this with
  | None => Some (MkBitStore (bs_numBits this) (bs_lowerBits other) None)
  | Some l =>
      let thisBlockCount := BitStore_calculateBitBlockCount (bs_numBits this) in
      let otherBlockCount := BitStore_calculateBitBlockCount (bs_numBits other) in
      l1 ←
        (if 1 <? otherBlockCount then
           src ← bs_higherBits other;
           memcpy_blocks l src (Z.min thisBlockCount otherBlockCount - 1)
         else Some l);
      l2 ←
        (if otherBlockCount <? thisBlockCount then
           memset_blocks l1 (otherBlockCount - 1) (thisBlockCount - otherBlockCount)
         else Some l1);
      Some (MkBitStore (bs_numBits this) (bs_lowerBits other) (Some l2))
  end.
