(* ===== verification/BitStoreFacts.v ===== *)
(** * Bit vectors: refinement of a list of blocks

    A well-formed store is [pack w l] for its inline block [w] and its further
    blocks [l]; every operation is a list operation on [w :: l], from which the
    bit-level laws, the copy semantics and the round trip follow. *)

From S2P Require Import Prelude Wire Serialization SerializationFacts BitStore.

Definition pack (w : Z) (l : list Z) : BitStore :=
  MkBitStore (64 * (1 + zlen l)) w (if decide (l = []) then None else Some l).

(** Well-formed stores: sizes agree and fit the [unsigned] bit count. *)
Definition blocks_ok (l : list Z) : Prop := Forall (in_u 64) l /\ 64 * (1 + zlen l) < 2 ^ 32.
Definition bitstore_ok (b : BitStore) : Prop :=
  exists w l, b = pack w l /\ in_u 64 w /\ blocks_ok l.

Lemma pack_higher w l : default [] (bs_higherBits (pack w l)) = l.
Proof. unfold pack. by destruct (decide (l = [])) as [->|]. Qed.

Lemma blockCount_spec size :
  0 <= size < 2 ^ 32 -> BitStore_calculateBitBlockCount size = Z.max 1 ((size + 63) / 64).
Proof.
  intros Hs. unfold BitStore_calculateBitBlockCount, BITSTORE_BLOCK_BIT_COUNT, BITSTORE_BLOCK_SIZE.
  change (8 * 8) with 64. destruct (Z.leb_spec size 64) as [Hle|Hgt].
  - assert ((size + 63) / 64 < 2) by (apply Z.div_lt_upper_bound; lia). lia.
  - pose proof (Z.div_mod size 64). pose proof (Z.mod_pos_bound size 64).
    destruct (Z.eqb_spec (size mod 64) 0) as [E|E]; cbn [negb].
    + assert ((size + 63) / 64 = size / 64); [|lia]. symmetry. apply Z.div_unique with 63; lia.
    + rewrite u32_small by lia. assert ((size + 63) / 64 = size / 64 + 1); [|lia].
      symmetry. apply Z.div_unique with (size mod 64 - 1); lia.
Qed.

Lemma blockCount_pack n : 0 <= n -> 64 * (1 + n) < 2 ^ 32 ->
  BitStore_calculateBitBlockCount (64 * (1 + n)) = 1 + n.
Proof.
  intros H0 Hn. rewrite blockCount_spec by lia.
  assert ((64 * (1 + n) + 63) / 64 = 1 + n); [|lia]. symmetry. apply Z.div_unique with 63; lia.
Qed.

(** ** Bits *)

Lemma bit_coords i n : 0 <= i < 64 * (1 + n) ->
  0 <= i / 64 < 1 + n /\ 0 <= i mod 64 < 64 /\ i = 64 * (i / 64) + i mod 64.
Proof.
  intros Hi. pose proof (Z.div_mod i 64). pose proof (Z.mod_pos_bound i 64).
  split; [|lia]. split; [apply Z.div_pos; lia|apply Z.div_lt_upper_bound; lia].
Qed.

(** Bit [i] of a list of blocks. *)
Definition bits_at (l : list Z) (i : Z) : option bool :=
  (fun w => Z.testbit w (i mod 64)) <$> l !! Z.to_nat (i / 64).

Lemma lookup_block w (l : list Z) k :
  1 <= k -> l !! Z.to_nat (k - 1) = (w :: l) !! Z.to_nat k.
Proof. intros. replace (Z.to_nat k) with (S (Z.to_nat (k - 1))) by lia. done. Qed.

Lemma getBit_pack w l i :
  0 <= i -> BitStore_getBit (pack w l) i =
  if i <? 64 * (1 + zlen l) then bits_at (w :: l) i else Some false.
Proof.
  intros H0. unfold BitStore_getBit, BitStore_getBitBlockIndex, BitStore_getBitIndexInBitBlock, test_bit.
  change BITSTORE_BLOCK_BIT_COUNT with 64. cbn [pack bs_numBits bs_lowerBits].
  rewrite Z.leb_antisym. destruct (Z.ltb_spec i (64 * (1 + zlen l))) as [Hlt|]; [|done]. cbn [negb].
  destruct (bit_coords i (zlen l)) as (Hq & Hr & _); [lia|]. unfold bits_at.
  destruct (Z.eqb_spec (i / 64) 0) as [E|E]; [by rewrite E|].
  unfold higherBits_at. cbn [pack bs_higherBits]. rewrite <- (lookup_block w l) by lia.
  destruct (decide (l = [])) as [->|]; [|done]. zlia.
Qed.

Lemma setBit_pack w l i (v : bool) :
  0 <= i < 64 * (1 + zlen l) ->
  exists x w' l', (w :: l) !! Z.to_nat (i / 64) = Some x /\
    w' :: l' = <[Z.to_nat (i / 64) := (if v then set_bit else clear_bit) (i mod 64) x]> (w :: l) /\
    BitStore_setBit (pack w l) i v = Some (pack w' l').
Proof.
  intros Hi. unfold BitStore_setBit, BitStore_getBitBlockIndex, BitStore_getBitIndexInBitBlock.
  change BITSTORE_BLOCK_BIT_COUNT with 64. cbn [pack bs_numBits bs_lowerBits bs_higherBits].
  destruct (bit_coords i (zlen l)) as (Hq & Hr & _); [lia|].
  rewrite (proj2 (Z.leb_gt _ _)) by lia.
  destruct (Z.eqb_spec (i / 64) 0) as [E|E].
  { rewrite E. exists w, ((if v then set_bit else clear_bit) (i mod 64) w), l.
    split_and!; [done..|]. by destruct v. }
  assert (Hk : exists k, Z.to_nat (i / 64) = S k /\ Z.to_nat (i / 64 - 1) = k /\ (k < length l)%nat).
  { exists (Z.to_nat (i / 64 - 1)). unfold zlen in *. lia. }
  destruct Hk as (k & -> & -> & Hlen). destruct (lookup_lt_is_Some_2 l k Hlen) as [x Hx].
  exists x, w, (<[k := (if v then set_bit else clear_bit) (i mod 64) x]> l).
  split_and!; [done..|].
  assert (Hne : forall y, <[k := y]> l <> []).
  { intros y Hnil%(f_equal length). rewrite length_insert in Hnil. cbn in Hnil. lia. }
  unfold pack, zlen. rewrite length_insert, (decide_False (P := <[k := _]> l = [])) by apply Hne.
  destruct (decide (l = [])) as [->|]; [cbn in Hlen; lia|]. cbn. rewrite Hx. cbn.
  by destruct v.
Qed.

Lemma testbit_op (v : bool) r s x :
  0 <= r < 64 -> 0 <= s < 64 ->
  Z.testbit ((if v then set_bit else clear_bit) r x) s = if s =? r then v else Z.testbit x s.
Proof.
  intros Hr Hs. destruct v.
  - unfold set_bit. rewrite Z.lor_spec, Z.pow2_bits_eqb by lia. rewrite (Z.eqb_sym r s).
    destruct (s =? r); [by rewrite orb_true_r|by rewrite orb_false_r].
  - unfold clear_bit, u64. rewrite Z.land_spec, Z.mod_pow2_bits_low by lia.
    rewrite Z.lnot_spec, Z.pow2_bits_eqb by lia. rewrite (Z.eqb_sym r s).
    destruct (s =? r); [by rewrite andb_false_r|by rewrite andb_true_r].
Qed.

Lemma in_u_op (v : bool) r x : 0 <= r < 64 -> in_u 64 x ->
  in_u 64 ((if v then set_bit else clear_bit) r x).
Proof.
  intros Hr Hx. destruct v.
  - apply in_u_lor; [done..|]. by apply in_u_pow2.
  - apply in_u_land; [done..|]. apply u64_range.
Qed.

(** Setting a bit changes that bit and nothing else. *)
Lemma setBit_spec b i v :
  bitstore_ok b -> 0 <= i < bs_numBits b ->
  exists b', BitStore_setBit b i v = Some b' /\ bitstore_ok b' /\ bs_numBits b' = bs_numBits b /\
    forall j, 0 <= j -> BitStore_getBit b' j = if j =? i then Some v else BitStore_getBit b j.
Proof.
  intros (w & l & -> & Hw & Hl) Hi. cbn [pack bs_numBits] in Hi.
  destruct (setBit_pack w l i v Hi) as (x & w' & l' & Hx & Hins & Hset).
  destruct (bit_coords i (zlen l) Hi) as (Hq & Hr & Hdec).
  assert (Hlen : zlen l' = zlen l).
  { apply (f_equal length) in Hins. rewrite length_insert in Hins. unfold zlen. cbn in Hins. lia. }
  assert (Hall : Forall (in_u 64) (w' :: l')).
  { rewrite Hins. destruct Hl as [Hf _]. apply Forall_insert; [by constructor|].
    apply in_u_op; [done|]. eapply Forall_lookup_1 in Hx; [done|]. by constructor. }
  exists (pack w' l'). split; [done|]. split_and!.
  - exists w', l'. split; [done|]. inversion Hall; subst. split; [done|]. split; [done|].
    rewrite Hlen. apply Hl.
  - cbn. by rewrite Hlen.
  - intros j Hj. rewrite !getBit_pack by done. rewrite Hlen.
    destruct (Z.ltb_spec j (64 * (1 + zlen l))) as [Hlt|].
    2: { destruct (Z.eqb_spec j i); [lia|done]. }
    destruct (bit_coords j (zlen l)) as (Hjq & Hjr & Hjdec); [lia|].
    unfold bits_at. rewrite Hins. destruct (decide (j / 64 = i / 64)) as [E|E].
    + rewrite E, list_lookup_insert_eq by (cbn; unfold zlen in *; lia). cbn.
      rewrite testbit_op by done. rewrite Hx. cbn.
      destruct (Z.eqb_spec (j mod 64) (i mod 64)), (Z.eqb_spec j i); (done || lia).
    + rewrite list_lookup_insert_ne by lia. destruct (Z.eqb_spec j i) as [->|]; [done|]. done.
Qed.

(** ** Sizes *)

(** Blocks of a store after resizing to [size]: the old ones when the number of
    blocks does not change, else uninitialised memory. *)
Definition resized (garbage : nat -> Z) (l : list Z) (size : Z) : list Z :=
  let n := Z.max 1 ((size + 63) / 64) - 1 in
  if decide (n = zlen l) then l else kmalloc_blocks garbage n.

Lemma resized_ok garbage l size :
  Forall (in_u 64) l ->
  zlen (resized garbage l size) = Z.max 1 ((size + 63) / 64) - 1 /\
  Forall (in_u 64) (resized garbage l size).
Proof.
  intros Hl. unfold resized. destruct (decide _) as [E|]; [done|]. apply kmalloc_blocks_ok. lia.
Qed.

Lemma blockCount_bound size : 0 <= size <= 2 ^ 32 - 64 -> Z.max 1 ((size + 63) / 64) <= 2 ^ 26 - 1.
Proof.
  intros. enough ((size + 63) / 64 < 2 ^ 26) by lia. apply Z.div_lt_upper_bound; lia.
Qed.

Lemma setSize_pack garbage w l size :
  blocks_ok l -> 0 <= size <= 2 ^ 32 - 64 ->
  BitStore_setSize garbage (pack w l) size = pack w (resized garbage l size) /\
  blocks_ok (resized garbage l size).
Proof.
  intros [Hf Hl] Hs. pose proof (zlen_nonneg l). pose proof (blockCount_bound size Hs).
  destruct (resized_ok garbage l size Hf) as [Hrl Hrf].
  split; [|split; [done|rewrite Hrl; lia]].
  unfold BitStore_setSize. cbn [pack bs_numBits bs_lowerBits].
  rewrite blockCount_pack, blockCount_spec by lia. unfold resized in *.
  set (n := Z.max 1 ((size + 63) / 64)) in *.
  destruct (decide (n - 1 = zlen l)) as [E|E].
  - rewrite (proj2 (Z.eqb_eq n _)) by lia. done.
  - rewrite (proj2 (Z.eqb_neq n _)) by lia. cbn [negb]. unfold pack.
    change BITSTORE_BLOCK_BIT_COUNT with 64. rewrite (u64_small (n * 64)), u32_small by lia.
    rewrite Hrl. f_equal; [lia|].
    destruct (Z.ltb_spec 1 n); destruct (decide _) as [Hk|]; try done.
    + rewrite Hk, zlen_nil in Hrl. lia.
    + destruct (kmalloc_blocks garbage (n - 1)); [done|]. rewrite zlen_cons in Hrl.
      pose proof (zlen_nonneg l0). lia.
Qed.

Lemma splice_all {A} (bs l : list A) : length bs = length l -> splice 0 bs l = bs.
Proof.
  intros H. unfold splice. cbn. rewrite drop_ge by lia. by rewrite app_nil_r.
Qed.

Lemma clearBits_pack w l :
  blocks_ok l -> BitStore_clearBits (pack w l) = Some (pack 0 (replicate (length l) 0)).
Proof.
  intros [_ Hl]. pose proof (zlen_nonneg l). unfold BitStore_clearBits. cbn [pack bs_numBits bs_higherBits].
  destruct (decide (l = [])) as [->|Hne]; [done|]. rewrite blockCount_pack by lia.
  unfold memset_blocks. rewrite (proj2 (Z.ltb_ge _ _)) by lia.
  change (Z.to_nat 0) with 0%nat. replace (Z.to_nat (1 + zlen l - 1)) with (length l) by (unfold zlen; lia).
  rewrite splice_all by apply length_replicate. cbn. unfold pack. rewrite zlen_replicate.
  by destruct l.
Qed.

Lemma bits_at_zero n i :
  0 <= i < 64 * (1 + Z.of_nat n) -> bits_at (0 :: replicate n 0) i = Some false.
Proof.
  intros Hi. destruct (bit_coords i (Z.of_nat n) Hi) as (Hq & Hr & _). unfold bits_at.
  change (0 :: replicate n 0) with (replicate (S n) 0).
  rewrite lookup_replicate_2 by lia. cbn. by rewrite Z.bits_0.
Qed.

Lemma zeroes_ok n : 64 * (1 + Z.of_nat n) < 2 ^ 32 -> blocks_ok (replicate n 0).
Proof.
  intros. split; [|by rewrite zlen_replicate]. apply Forall_replicate. unfold in_u. lia.
Qed.

Lemma init_spec garbage w0 size :
  in_u 64 w0 -> 0 <= size <= 2 ^ 32 - 64 ->
  exists b, BitStore_initWithSizeAndReset garbage w0 size = Some b /\ bitstore_ok b /\
    size <= bs_numBits b < size + 64 + 64 /\ forall j, 0 <= j -> BitStore_getBit b j = Some false.
Proof.
  intros Hw Hs. unfold BitStore_initWithSizeAndReset.
  change (BitStore_init w0 false) with (pack w0 []).
  assert (Hnil : blocks_ok []) by (split; [done|rewrite zlen_nil; lia]).
  destruct (setSize_pack garbage w0 [] size Hnil Hs) as [-> Hr].
  rewrite clearBits_pack by done. pose proof Hr as [_ Hlt].
  destruct (resized_ok garbage [] size (proj1 Hnil)) as [Hlen _].
  eexists. split; [done|]. split_and!.
  - exists 0, (replicate (length (resized garbage [] size)) 0). split; [done|].
    split; [unfold in_u; lia|]. by apply zeroes_ok.
  - cbn. rewrite zlen_replicate. fold (zlen (resized garbage [] size)). rewrite Hlen.
    pose proof (Z.div_mod (size + 63) 64). pose proof (Z.mod_pos_bound (size + 63) 64). lia.
  - cbn. rewrite zlen_replicate. fold (zlen (resized garbage [] size)). rewrite Hlen.
    pose proof (Z.div_mod (size + 63) 64). pose proof (Z.mod_pos_bound (size + 63) 64). lia.
  - intros j Hj. rewrite getBit_pack by done. rewrite zlen_replicate.
    destruct (Z.ltb_spec j (64 * (1 + Z.of_nat (length (resized garbage [] size))))); [|done].
    by apply bits_at_zero.
Qed.

(** ** Serialisation *)

Definition enc_bitStore (w : Z) (l : list Z) : list byte :=
  le_split 4 (64 * (1 + zlen l)) ++ le_split 4 0 ++ le_split 8 w ++ (l ≫= le_split 8).

Lemma writes_bitStore w l :
  blocks_ok l -> writes (BitStore_serialize (pack w l)) (enc_bitStore w l).
Proof.
  intros [_ Hl]. pose proof (zlen_nonneg l). unfold BitStore_serialize, enc_bitStore. cbv zeta.
  rewrite pack_higher. cbn [pack bs_numBits bs_lowerBits]. rewrite blockCount_pack by lia.
  rewrite (proj2 (Z.ltb_ge _ _)) by lia.
  rewrite take_ge by (unfold zlen; lia). repeat (apply writes_seq; [auto with wire|]).
  apply writes_each. auto with wire.
Qed.

Lemma reads_blocks old l :
  length old = length l -> Forall (in_u 64) l ->
  reads 0 (deserialize_blocks old) (l ≫= le_split 8) (fun k => k = l).
Proof.
  revert old. induction l as [|w l IH]; intros [|o old] Hlen Hf; try done; [by apply reads_ret|].
  inversion Hf; subst. change ((w :: l) ≫= le_split 8) with (le_split 8 w ++ (l ≫= le_split 8)).
  eapply reads_bind; [by apply reads_ignore, reads_u64| |pose proof (zlen_nonneg (l ≫= le_split 8)); lia].
  intros ? ->. eapply reads_last; [apply IH; [by injection Hlen|done]|]. intros ? ->. by apply reads_ret.
Qed.

Lemma reads_bitStore garbage b0 w l :
  bitstore_ok b0 -> in_u 64 w -> blocks_ok l ->
  reads 0 (BitStore_deserialize garbage b0) (enc_bitStore w l) (fun b => b = pack w l).
Proof.
  intros (w0 & l0 & -> & Hw0 & Hl0) Hw [Hf Hl]. pose proof (zlen_nonneg l).
  unfold BitStore_deserialize, enc_bitStore.
  eapply reads_bind; [apply reads_ignore, reads_u32; unfold in_u; lia|intros ? ->|zlia].
  eapply reads_bind; [apply reads_ignore, reads_u32; unfold in_u; lia|intros ? ->|zlia]. cbv zeta.
  destruct (setSize_pack garbage w0 l0 (64 * (1 + zlen l)) Hl0) as [-> Hr]; [lia|].
  assert (Hlen : zlen (resized garbage l0 (64 * (1 + zlen l))) = zlen l).
  { destruct (resized_ok garbage l0 (64 * (1 + zlen l)) (proj1 Hl0)) as [-> _].
    rewrite <- blockCount_spec, blockCount_pack by lia. lia. }
  set (l1 := resized _ _ _) in *.
  eapply reads_bind; [by apply reads_ignore, reads_u64|intros ? ->|pose proof (zlen_nonneg (l ≫= le_split 8)); lia].
  rewrite pack_higher. cbn [pack bs_numBits bs_higherBits]. rewrite Hlen, blockCount_pack by lia.
  rewrite (proj2 (Z.ltb_ge _ _)) by lia. unfold pack.
  destruct (decide (l1 = [])) as [E|E].
  { rewrite E, zlen_nil in Hlen. destruct l; [|zlia]. by apply reads_ret. }
  rewrite take_ge, drop_ge by (unfold zlen in *; lia).
  eapply reads_last; [apply reads_blocks; [unfold zlen in *; lia|done]|]. intros ? ->.
  apply reads_ret. rewrite app_nil_r. f_equal.
  destruct (decide (l = [])) as [->|]; [|done]. by destruct l1; [|zlia].
Qed.

(** ** Copies *)

Lemma copy_pack garbage b w l :
  bitstore_ok b -> blocks_ok l -> BitStore_copy garbage b (pack w l) = Some (pack w l).
Proof.
  intros (w0 & l0 & -> & _ & Hl0) [Hf Hl]. pose proof (zlen_nonneg l). unfold BitStore_copy.
  change (bs_numBits (pack w l)) with (64 * (1 + zlen l)).
  destruct (setSize_pack garbage w0 l0 (64 * (1 + zlen l)) Hl0) as [-> Hr]; [lia|].
  assert (Hlen : zlen (resized garbage l0 (64 * (1 + zlen l))) = zlen l).
  { destruct (resized_ok garbage l0 (64 * (1 + zlen l)) (proj1 Hl0)) as [-> _].
    rewrite <- blockCount_spec, blockCount_pack by lia. lia. }
  set (l1 := resized _ _ _) in *. cbn [pack bs_numBits bs_lowerBits bs_higherBits].
  rewrite Hlen, blockCount_pack by lia.
  destruct (decide (l1 = [])) as [E|E], (decide (l = [])) as [E'|E'].
  - rewrite E'. done.
  - rewrite E in Hlen. destruct l; [done|zlia].
  - rewrite E' in Hlen. destruct l1; [done|zlia].
  - cbn. unfold memcpy_blocks. rewrite !(proj2 (Z.ltb_ge _ _)) by lia. cbn [orb].
    rewrite (take_ge l) by (unfold zlen; lia). rewrite splice_all by (unfold zlen in *; lia).
    unfold pack. by rewrite decide_False.
Qed.

(** The thread-safe copy keeps the size: blocks of the other store, cut or filled
    up with zeros. *)
Lemma copyThreadSafe_pack w l w' l' :
  blocks_ok l -> blocks_ok l' ->
  BitStore_copyThreadSafe (pack w l) (pack w' l') =
    Some (pack w' (take (length l) (l' ++ replicate (length l) 0))).
Proof.
  intros [_ Hl] [_ Hl']. pose proof (zlen_nonneg l). pose proof (zlen_nonneg l').
  unfold BitStore_copyThreadSafe.
  assert (Hres : length (take (length l) (l' ++ replicate (length l) 0)) = length l).
  { rewrite length_take, length_app, length_replicate. lia. }
  set (res := take _ _) in *. cbn [pack bs_numBits bs_lowerBits bs_higherBits].
  rewrite !blockCount_pack by lia. destruct (decide (l = [])) as [->|Hne].
  { destruct res; done. }
  assert (Hr : forall x, x = res -> MkBitStore (64 * (1 + zlen l)) w' (Some x) = pack w' res).
  { intros ? ->. unfold pack, zlen. rewrite Hres, decide_False; [done|].
    intros E. rewrite E in Hres. by destruct l. }
  destruct (decide (l' = [])) as [->|Hne'].
  - rewrite zlen_nil. cbn [Z.ltb]. change (1 <? 1 + 0) with false. cbn.
    rewrite (proj2 (Z.ltb_lt _ _)) by (destruct l; [done|rewrite zlen_cons; pose proof (zlen_nonneg l); lia]).
    unfold memset_blocks. rewrite (proj2 (Z.ltb_ge _ _)) by lia. cbn. f_equal. apply Hr.
    unfold res. cbn. rewrite take_ge by (by rewrite length_replicate).
    change (Z.to_nat (1 + 0 - 1)) with 0%nat.
    replace (Z.to_nat (1 + zlen l - (1 + 0))) with (length l) by (unfold zlen; lia).
    apply splice_all, length_replicate.
  - assert (0 < zlen l') by (destruct l'; [done|rewrite zlen_cons; pose proof (zlen_nonneg l'); lia]).
    rewrite (proj2 (Z.ltb_lt 1 _)) by lia. cbn. unfold memcpy_blocks.
    rewrite (proj2 (Z.ltb_ge (zlen l) _)), (proj2 (Z.ltb_ge (zlen l') _)) by lia. cbn [orb mbind option_bind].
    destruct (Z.ltb_spec (1 + zlen l') (1 + zlen l)) as [Hlt|Hge].
    + replace (Z.min (1 + zlen l) (1 + zlen l') - 1) with (zlen l') by lia.
      rewrite (take_ge l') by (unfold zlen; lia). unfold memset_blocks, zlen in *.
      rewrite length_splice by (cbn; lia). rewrite (proj2 (Z.ltb_ge _ _)) by lia.
      cbn [mbind option_bind]. f_equal. apply Hr. unfold splice at 2. cbn.
      unfold splice, res. rewrite length_replicate.
      replace (Z.to_nat (1 + Z.of_nat (length l') - 1)) with (length l') by lia.
      rewrite take_0, app_nil_l, take_app_length, drop_ge by (rewrite length_app, length_drop; lia).
      rewrite app_nil_r, take_app_ge, take_replicate by lia. f_equal. f_equal. lia.
    + replace (Z.min (1 + zlen l) (1 + zlen l') - 1) with (zlen l) by lia.
      cbn [mbind option_bind]. f_equal. apply Hr. unfold res. unfold zlen in *.
      rewrite Nat2Z.id, splice_all by (rewrite length_take; lia).
      by rewrite take_app_le by lia.
Qed.

(** Bits after the thread-safe copy: those of the other store up to the own size. *)
Lemma copyThreadSafe_bits b b' :
  bitstore_ok b -> bitstore_ok b' ->
  exists c, BitStore_copyThreadSafe b b' = Some c /\ bitstore_ok c /\ bs_numBits c = bs_numBits b /\
    forall j, 0 <= j < bs_numBits b -> BitStore_getBit c j = BitStore_getBit b' j.
Proof.
  intros (w & l & -> & Hw & Hl) (w' & l' & -> & Hw' & Hl'). rewrite copyThreadSafe_pack by done.
  set (res := take _ _).
  assert (Hres : zlen res = zlen l).
  { unfold zlen, res. rewrite length_take, length_app, length_replicate. lia. }
  eexists. split; [done|]. split_and!.
  - exists w', res. split; [done|]. split; [done|]. split; [|rewrite Hres; apply Hl].
    apply Forall_take, Forall_app. split; [apply Hl'|]. apply Forall_replicate. unfold in_u. lia.
  - cbn. by rewrite Hres.
  - cbn [pack bs_numBits]. intros j Hj. rewrite !getBit_pack by lia. rewrite Hres.
    rewrite (proj2 (Z.ltb_lt j _)) by lia.
    destruct (bit_coords j (zlen l) Hj) as (Hq & Hr & Hdec).
    assert (Hbit : bits_at (w' :: res) j = bits_at (w' :: l' ++ replicate (length l) 0) j).
    { unfold bits_at. f_equal. change (w' :: res) with (take (S (length l)) (w' :: l' ++ replicate (length l) 0)).
      apply lookup_take_lt. unfold zlen in *. lia. }
    rewrite Hbit. destruct (Z.ltb_spec j (64 * (1 + zlen l'))) as [Hlt|Hge].
    + destruct (bit_coords j (zlen l')) as (Hq' & _ & _); [lia|].
      unfold bits_at. f_equal. change (w' :: l' ++ replicate (length l) 0) with ((w' :: l') ++ replicate (length l) 0).
      apply lookup_app_l. cbn [length]. unfold zlen in *. lia.
    + unfold bits_at. change (w' :: l' ++ replicate (length l) 0) with ((w' :: l') ++ replicate (length l) 0).
      assert (1 + zlen l' <= j / 64) by (apply Z.div_le_lower_bound; lia).
      rewrite lookup_app_r by (cbn [length]; unfold zlen in *; lia).
      rewrite lookup_replicate_2 by (cbn [length]; unfold zlen in *; lia). cbn. by rewrite Z.bits_0.
Qed.

(** ** Properties *)

(** A history of [setBit] calls, and what it leaves behind. *)
Definition set_all (b : BitStore) (ops : list (Z * bool)) : option BitStore :=
  foldl (fun r op => b ← r; BitStore_setBit b op.1 op.2) (Some b) ops.

Definition last_set (ops : list (Z * bool)) (j : Z) (old : bool) : bool :=
  foldl (fun v op => if j =? op.1 then op.2 else v) old ops.

Lemma set_all_spec ops : forall b,
  bitstore_ok b -> Forall (fun op => 0 <= op.1 < bs_numBits b) ops ->
  exists b', set_all b ops = Some b' /\ bs_numBits b' = bs_numBits b /\ bitstore_ok b' /\
    forall j v, 0 <= j -> BitStore_getBit b j = Some v -> BitStore_getBit b' j = Some (last_set ops j v).
Proof.
  induction ops as [|[i v] ops IH]; intros b Hb Hops; [by exists b|].
  apply list.Forall_cons in Hops as [Hi Hops]. destruct (setBit_spec b i v Hb Hi) as (b1 & Hs & Hb1 & Hn & Hget).
  unfold set_all. cbn [foldl mbind option_bind]. cbn [fst snd]. rewrite Hs. fold (set_all b1 ops).
  destruct (IH b1 Hb1) as (b' & -> & Hn' & Hb' & Hget').
  { eapply list.Forall_impl; [exact Hops|]. intros op. by rewrite Hn. }
  exists b'. split_and!; [done|congruence|done|].
  intros j w Hj Hw. unfold last_set. cbn [foldl fst snd]. apply Hget'; [done|].
  rewrite Hget by done. by destruct (j =? i).
Qed.

(** C14: a bit store created for [size] bits behaves as a map from bit numbers to
    booleans: after any sequence of in-range updates, reading a bit returns the last
    value written to it, false if there is none, whatever the memory held before. *)
Theorem bitstore_history garbage w0 size ops :
  in_u 64 w0 -> 0 <= size <= 2 ^ 32 - 64 -> Forall (fun op => 0 <= op.1 < size) ops ->
  exists b0 b, BitStore_initWithSizeAndReset garbage w0 size = Some b0 /\ set_all b0 ops = Some b /\
    forall j, 0 <= j -> BitStore_getBit b j = Some (last_set ops j false).
Proof.
  intros Hw Hs Hops. destruct (init_spec garbage w0 size Hw Hs) as (b0 & Hb0 & Hok & Hn & Hget).
  destruct (set_all_spec ops b0 Hok) as (b & Hb & _ & _ & Hget').
  { eapply list.Forall_impl; [exact Hops|]. intros op. cbn. lia. }
  exists b0, b. split_and!; [done..|]. intros j Hj. apply Hget'; auto.
Qed.

Lemma bitstore_history_witness :
  exists b0 b, BitStore_initWithSizeAndReset (fun _ => -1) (2 ^ 64 - 1) 200 = Some b0 /\
    set_all b0 [(199, true); (3, true); (199, false)] = Some b /\
    forall j, 0 <= j -> BitStore_getBit b j = Some (last_set [(199, true); (3, true); (199, false)] j false).
Proof. apply bitstore_history; [unfold in_u; lia|lia|repeat constructor; cbn; lia]. Defined.

(** A bit store of any size is read back from its serialised form with all
    its bits, whatever store it is read into. *)
Theorem bitstore_roundtrip garbage b b0 :
  bitstore_ok b -> bitstore_ok b0 ->
  roundtrip 0 (BitStore_serialize b) (BitStore_deserialize garbage b0) (fun x => x = b).
Proof.
  intros (w & l & -> & Hw & Hl) Hb0. apply (roundtrip_intro 0 _ _ (enc_bitStore w l)).
  - by apply writes_bitStore.
  - by apply reads_bitStore.
  - unfold enc_bitStore. destruct Hl as [_ Hl]. rewrite !zlen_app, !zlen_le_split.
    assert (Hb : zlen (l ≫= le_split 8) = 8 * zlen l).
    { clear. induction l as [|x l IH]; [done|]. rewrite zlen_cons. cbn [mbind list_bind].
      rewrite zlen_app, zlen_le_split. change (list_bind _ _ (le_split 8) l) with (l ≫= le_split 8).
      rewrite IH. lia. }
    rewrite Hb. lia.
  - done.
Qed.

Lemma bitstore_roundtrip_witness :
  let b := MkBitStore 192 5 (Some [7; 9]) in
  roundtrip 0 (BitStore_serialize b) (BitStore_deserialize (fun _ => 0) (MkBitStore 64 0 None)) (fun x => x = b).
Proof.
  intros b. apply (bitstore_roundtrip (fun _ => 0) b (MkBitStore 64 0 None)).
  - exists 5, [7; 9]. split_and!; [done|unfold in_u; lia|]. split; [repeat constructor; lia|done].
  - exists 0, []. split_and!; [done|unfold in_u; lia|]. split; [constructor|done].
Defined.

(** The copy that must not reallocate keeps the size of the destination
    and takes over all bits that fit; bits the source does not have become false. *)
Theorem copyThreadSafe_keeps_size b b' :
  bitstore_ok b -> bitstore_ok b' ->
  exists c, BitStore_copyThreadSafe b b' = Some c /\ bitstore_ok c /\ bs_numBits c = bs_numBits b /\
    forall j, 0 <= j < bs_numBits b -> BitStore_getBit c j = BitStore_getBit b' j.
Proof. exact (copyThreadSafe_bits b b'). Qed.

Lemma copyThreadSafe_keeps_size_witness :
  let b := MkBitStore 128 1 (Some [2]) in let b' := MkBitStore 192 5 (Some [7; 9]) in
  exists c, BitStore_copyThreadSafe b b' = Some c /\ bitstore_ok c /\ bs_numBits c = bs_numBits b /\
    forall j, 0 <= j < bs_numBits b -> BitStore_getBit c j = BitStore_getBit b' j.
Proof.
  intros b b'. apply (copyThreadSafe_keeps_size b b').
  - exists 1, [2]. split_and!; [done|unfold in_u; lia|]. split; [repeat constructor; lia|done].
  - exists 5, [7; 9]. split_and!; [done|unfold in_u; lia|]. split; [repeat constructor; lia|done].
Defined.

(** A size above 2^32 - 64 wraps the bit count to 0: every bit reads as false and
    no bit can be set any more. *)
Theorem setSize_wrap garbage b size :
  bitstore_ok b -> 2 ^ 32 - 64 < size < 2 ^ 32 ->
  let b' := BitStore_setSize garbage b size in
  bs_numBits b' = 0 /\
  forall i v, 0 <= i -> BitStore_setBit b' i v = Some b' /\ BitStore_getBit b' i = Some false.
Proof.
  intros (w & l & -> & _ & [_ Hl]) Hs b'. pose proof (zlen_nonneg l).
  assert (Hn : bs_numBits b' = 0).
  { unfold b', BitStore_setSize. cbn [pack bs_numBits].
    rewrite blockCount_pack, blockCount_spec by lia.
    assert ((size + 63) / 64 = 2 ^ 26) as -> by (symmetry; apply Z.div_unique with (size + 63 - 2 ^ 32); lia).
    change (Z.max 1 (2 ^ 26)) with (2 ^ 26). destruct (Z.eqb_spec (2 ^ 26) (1 + zlen l)); [lia|]. done. }
  split; [done|]. intros i v Hi. unfold BitStore_setBit, BitStore_getBit. rewrite Hn.
  by rewrite (proj2 (Z.leb_le _ _)) by lia.
Qed.

Lemma setSize_wrap_witness :
  let b' := BitStore_setSize (fun _ => 0) (MkBitStore 64 0 None) (2 ^ 32 - 1) in
  bs_numBits b' = 0 /\
  forall i v, 0 <= i -> BitStore_setBit b' i v = Some b' /\ BitStore_getBit b' i = Some false.
Proof.
  apply setSize_wrap; [|lia]. exists 0, []. split_and!; [done|unfold in_u; lia|]. split; [constructor|done].
Defined.
