(* ===== verification/Remoting.v ===== *)
(** * Striped file I/O

    Models the data path of [client_module/source/net/filesystem/FhgfsOpsRemoting.c]:
    [__FhgfsOpsRemoting_getChunkOffset] (file position to target-local offset),
    [FhgfsOpsRemoting_writefileVec] with its verification of node results,
    [FhgfsOpsRemoting_readfileVec] and [FhgfsOpsRemoting_rwChunkPageVec].

    A user buffer ([iov_iter]) is represented by the number of bytes left; a copy
    of it in a request by the position in the buffer it starts at.  The round of
    network requests ([FhgfsOpsCommKit_*Communicate]) is the function
    [communicate]: for the round number and a request of the round, the node result
    of the request.  [alloc r k] tells whether the allocation of the
    request [k] of round [r] succeeds. *)

From S2P Require Import Prelude StorageErrors Wire StripePattern BitStore.

(** ** Target-local offsets *)

(** The [size_t] product makes the subtraction unsigned; the result is stored in
    an [int64_t]. *)
Definition __FhgfsOpsRemoting_getChunkOffset (pos chunkSize numNodes stripeNodeIndex : Z) :
    option Z :=
  let posModChunkSize := Z.land pos (u32 (chunkSize - 1)) in
  let stripeSetStart := s64 (u64 (pos - posModChunkSize - stripeNodeIndex * chunkSize)) in
  stripeSetStartDivNumNodes ←
    (if MathTk_isPowerOfTwo (u32 numNodes) then
       log2 ← MathTk_log2Int32 (u32 numNodes); Some (Z.shiftr stripeSetStart log2)
     else if u32 numNodes =? 0 then None
     else Some (s64 (u64 stripeSetStart / u32 numNodes)));
  Some (s64 (stripeSetStartDivNumNodes + posModChunkSize)).

(** ** Requests *)

(** The fields of [FileOpVecState] the remoting code sets; [fo_index] is the index
    of the target, [fo_data] the position of the request's data in the buffer. *)
Record FileOpState := MkFileOpState {
  fo_offset : Z;
  fo_totalSize : Z; (* also expectedNodeResult *)
  fo_targetID : Z;
  fo_index : Z;
  fo_firstWriteDone : bool;
  fo_data : Z;
  fo_useBuddyMirrorSecond : bool
}.

(** [FhgfsOpsCommKit_initFileOpState] and the assignments that follow it. *)
Definition FhgfsOpsCommKit_initFileOpState (offset size targetID index : Z)
    (firstWriteDoneForTarget : bool) (data : Z) : FileOpState :=
  MkFileOpState offset size targetID index firstWriteDoneForTarget data false.

Definition set_useBuddyMirrorSecond (b : bool) (s : FileOpState) : FileOpState :=
  MkFileOpState (fo_offset s) (fo_totalSize s) (fo_targetID s) (fo_index s) (fo_firstWriteDone s)
    (fo_data s) b.

(** What the code keeps of the open file ([RemotingIOInfo]). *)
Record RemotingIOInfo := MkRemotingIOInfo {
  io_pattern : StripePattern;
  io_firstWriteDone : BitStore;
  io_maxUsedTargetIndex : Z
}.

Definition AtomicInt_max (value minValue : Z) : Z := if minValue <=? value then value else minValue.

(** ** Writing *)

(** Variables of the loops: file position, bytes left, bytes consumed from the
    buffer, highest target index used. *)
Record IOPos := MkIOPos {
  p_currentOffset : Z;
  p_left : Z;
  p_data : Z;
  p_maxUsed : Z
}.

(** ** The buffer space of a read

    [os/iov_iter.c]: how many bytes of the caller's buffer a round of a read can fill.  [None] is a
    [BUG_ON].  The structure is zeroed before every reservation (it is released at the end of
    each round). *)

Definition PAGE_SIZE : Z := 4096.

Definition beegfs_readsink_reserve_no_pipe (iterCount size : Z) : Z := Z.min iterCount size.

Definition compute_max_pagecount (size : Z) : Z := u64 (PAGE_SIZE - 1 + size + PAGE_SIZE - 1) / PAGE_SIZE.

(** What a pipe gives for a reservation: whether the two arrays are allocated, and for a number of
    bytes the result of [iov_iter_get_pages], the number of page pointers that it has set and the
    offset in the first page. *)
Record PipePages := MkPipePages {
  pp_pagesOk : bool;
  pp_bvecsOk : bool;
  pp_gpr : Z -> Z;
  pp_npages : Z -> Z;
  pp_start : Z
}.

(** The loop that fills the bio vectors; its result is the number of pages. *)
Fixpoint readsink_bvecs (fuel : nat) (max_pages npages view_size np bvs_size start : Z) : option Z :=
  if view_size <=? bvs_size then Some np
  else
    match fuel with
    | O => None
    | S fuel' =>
        let len := Z.min (view_size - bvs_size) (PAGE_SIZE - start) in
        if (max_pages <=? np) || (npages <=? np) then None
        else readsink_bvecs fuel' max_pages npages view_size (np + 1) (bvs_size + len) 0
    end.

(** The count of [sanitized_iter]. *)
Definition beegfs_readsink_reserve_pipe (e : PipePages) (iterCount size : Z) : option Z :=
  let size := Z.min size iterCount in
  let max_pages := compute_max_pagecount size in
  if negb (pp_pagesOk e) then Some 0
  else if negb (pp_bvecsOk e) then Some 0
  else
    let gpr := pp_gpr e size in
    if 0 <? gpr then
      _ ← readsink_bvecs (Z.to_nat max_pages) max_pages (pp_npages e size) gpr 0 0 (pp_start e);
      Some gpr
    else Some 0.

(** The type of the caller's iterator. *)
Inductive SinkEnv := Sink_plain | Sink_pipe (e : PipePages).
Definition beegfs_readsink_reserve (sink : SinkEnv) (iterCount size : Z) : option Z :=
  match sink with
  | Sink_plain => Some (beegfs_readsink_reserve_no_pipe iterCount size)
  | Sink_pipe e => beegfs_readsink_reserve_pipe e iterCount size
  end.

Section IO.
Context (alloc : nat -> nat -> bool).
Context (communicate : nat -> FileOpState -> Z).
(** Number of the inode that is read, if the caller knows it. *)
Context (fhgfsInode : option Z).

(** The stripeset loop of a write: at most one request per target. [works] counts
    down the [numStripeTargets] iterations. *)
Fixpoint write_stripeset (io : RemotingIOInfo) (serializeWrites : bool) (targetIDs : list Z)
    (round : nat) (works : nat) (numWorks : nat) (currentTargetIndex : Z) (p : IOPos) :
    option (list FileOpState * IOPos) :=
  match works with
  | O => Some ([], p)
  | S works' =>
      let pattern := io_pattern io in
      let numStripeTargets := zlen targetIDs in
      if p_left p =? 0 then Some ([], p)
      else
        let currentChunkSize :=
          u64 (StripePattern_getChunkEnd pattern (p_currentOffset p) - p_currentOffset p + 1) in
        currentNodeLocalOffset ← __FhgfsOpsRemoting_getChunkOffset (p_currentOffset p)
          (sp_chunkSize pattern) numStripeTargets currentTargetIndex;
        if negb (alloc round numWorks) then Some ([], p)
        else
          let count := Z.min (p_left p) currentChunkSize in
          targetID ← UInt16Vec_at targetIDs currentTargetIndex;
          done ← BitStore_getBit (io_firstWriteDone io) currentTargetIndex;
          let state := FhgfsOpsCommKit_initFileOpState currentNodeLocalOffset count targetID
            currentTargetIndex done (p_data p) in
          let p' := MkIOPos (p_currentOffset p + count) (p_left p - count) (p_data p + count)
            (Z.max (p_maxUsed p) (s32 currentTargetIndex)) in
          if serializeWrites then Some ([state], p')
          else
            '(states, p'') ← write_stripeset io serializeWrites targetIDs round works'
              (S numWorks) (u32 (currentTargetIndex + 1) mod numStripeTargets) p';
            Some (state :: states, p'')
  end.

(** Loop over the requests and their node results; [i] counts the results that
    were not larger than expected. *)
Fixpoint writefileVerify_loop (firstWriteDone : BitStore) (firstTargetIndex numStripeNodes : Z)
    (l : list (FileOpState * Z)) (outWritten i : Z) : option (bool * Z * BitStore) :=
  match l with
  | [] => Some (true, outWritten, firstWriteDone)
  | (state, nodeResult) :: l' =>
      '(outWritten, firstWriteDone, i) ←
        (if nodeResult <=? fo_totalSize state then
           bits ← BitStore_setBit firstWriteDone
             (u32 (firstTargetIndex + i) mod numStripeNodes) true;
           Some (outWritten + nodeResult, bits, u32 (i + 1))
         else Some (outWritten, firstWriteDone, i));
      if fo_totalSize state =? nodeResult then
        writefileVerify_loop firstWriteDone firstTargetIndex numStripeNodes l' outWritten i
      else if 0 <=? nodeResult then Some (false, outWritten, firstWriteDone)
      else Some (false, nodeResult, firstWriteDone)
  end.

(** Returns the verdict, [*outWritten] and the updated bit store. *)
Definition __FhgfsOpsRemoting_writefileVerify (io : RemotingIOInfo)
    (states : list (FileOpState * Z)) (firstTargetIndex numStripeNodes : Z) :
    option (bool * Z * BitStore) :=
  writefileVerify_loop (io_firstWriteDone io) firstTargetIndex numStripeNodes states 0 0.

(** Outcome of an I/O call: the returned value, by how much the caller's buffer
    was advanced, the open-file data, the requests of every round with the node
    results, in order. *)
Record IOResult := MkIOResult {
  r_retVal : Z;
  r_advanced : Z;
  r_io : RemotingIOInfo;
  r_trace : list (FileOpState * Z)
}.

Definition set_firstWriteDone (io : RemotingIOInfo) (b : BitStore) : RemotingIOInfo :=
  MkRemotingIOInfo (io_pattern io) b (io_maxUsedTargetIndex io).
Definition set_maxUsed (io : RemotingIOInfo) (m : Z) : RemotingIOInfo :=
  MkRemotingIOInfo (io_pattern io) (io_firstWriteDone io)
    (AtomicInt_max (io_maxUsedTargetIndex io) m).

(** [if (retVal > 0) iov_iter_advance(iter, retVal);] *)
Definition write_result (io : RemotingIOInfo) (maxUsed retVal : Z)
    (trace : list (FileOpState * Z)) : IOResult :=
  MkIOResult retVal (if 0 <? retVal then retVal else 0) (set_maxUsed io maxUsed) trace.

(** The outer loop; [None] is a fault or exhausted fuel. *)
Fixpoint writefile_rounds (fuel : nat) (round : nat) (io : RemotingIOInfo)
    (serializeWrites : bool) (targetIDs : list Z) (count : Z) (p : IOPos)
    (trace : list (FileOpState * Z)) : option IOResult :=
  if p_left p =? 0 then Some (write_result io (p_maxUsed p) count trace)
  else match fuel with
  | O => None
  | S fuel' =>
      index ← getStripeTargetIndex (io_pattern io) (p_currentOffset p);
      let firstTargetIndex := u32 index in
      '(states, p') ← write_stripeset io serializeWrites targetIDs round
        (length targetIDs) 0 firstTargetIndex p;
      let results := (fun state => (state, communicate round state)) <$> states in
      '(verifyRes, verifyValue, bits) ← __FhgfsOpsRemoting_writefileVerify io results
        firstTargetIndex (zlen targetIDs);
      let io' := set_firstWriteDone io bits in
      if (verifyRes : bool) then
        writefile_rounds fuel' (S round) io' serializeWrites targetIDs count p' (trace ++ results)
      else Some (write_result io' (p_maxUsed p') verifyValue (trace ++ results))
  end.

(** [count] is [iov_iter_count(iter)]. *)
Definition FhgfsOpsRemoting_writefileVec (fuel : nat) (count offset : Z) (io : RemotingIOInfo)
    (serializeWrites : bool) : option IOResult :=
  targetIDs ← getStripeTargetIDs (io_pattern io);
  writefile_rounds fuel 0 io serializeWrites targetIDs count
    (MkIOPos offset count 0 (io_maxUsedTargetIndex io)) [].

(** ** Reading *)

(** Mirrored files: odd inodes are read from the secondary. *)
Definition read_from_second (pattern : StripePattern) : bool :=
  (sp_patternType pattern =? STRIPEPATTERN_BuddyMirror) &&
  match fhgfsInode with Some i_ino => negb (Z.land i_ino 1 =? 0) | None => false end.

(** The stripeset loop of a read; [sink] is the count of [stripeSetIter]. *)
Fixpoint read_stripeset (io : RemotingIOInfo) (targetIDs : list Z)
    (round : nat) (works : nat) (numWorks : nat) (currentTargetIndex sink : Z) (p : IOPos) :
    option (list FileOpState * IOPos) :=
  match works with
  | O => Some ([], p)
  | S works' =>
      let pattern := io_pattern io in
      let numStripeNodes := zlen targetIDs in
      if (p_left p =? 0) || (sink =? 0) then Some ([], p)
      else
        let currentChunkSize :=
          u64 (StripePattern_getChunkEnd pattern (p_currentOffset p) - p_currentOffset p + 1) in
        let currentReadSize := Z.min currentChunkSize (p_left p) in
        currentNodeLocalOffset ← __FhgfsOpsRemoting_getChunkOffset (p_currentOffset p)
          (sp_chunkSize pattern) numStripeNodes currentTargetIndex;
        if negb (alloc round numWorks) then Some ([], p)
        else
          let count := Z.min sink currentChunkSize in
          targetID ← UInt16Vec_at targetIDs currentTargetIndex;
          done ← BitStore_getBit (io_firstWriteDone io) currentTargetIndex;
          let state := set_useBuddyMirrorSecond (read_from_second pattern)
            (FhgfsOpsCommKit_initFileOpState currentNodeLocalOffset count targetID
               currentTargetIndex done (p_data p)) in
          let p' := MkIOPos (p_currentOffset p + currentReadSize) (p_left p - currentReadSize)
            (p_data p + count) (Z.max (p_maxUsed p) (s32 currentTargetIndex)) in
          '(states, p'') ← read_stripeset io targetIDs round works' (S numWorks)
            (u32 (currentTargetIndex + 1) mod numStripeNodes) (sink - count) p';
          Some (state :: states, p'')
  end.

(** Result verification of a round: bytes read, error code, and whether the read
    goes on. *)
Fixpoint readfile_verify (l : list (FileOpState * Z)) (bytesReadThisRound : Z) : Z * Z * bool :=
  match l with
  | [] => (bytesReadThisRound, 0, true)
  | (state, nodeResult) :: l' =>
      if nodeResult =? fo_totalSize state then
        readfile_verify l' (bytesReadThisRound + nodeResult)
      else if 0 <=? nodeResult then (bytesReadThisRound + nodeResult, 0, false)
      else (bytesReadThisRound, nodeResult, false)
  end.


Definition read_result (io : RemotingIOInfo) (maxUsed retVal errnum : Z)
    (trace : list (FileOpState * Z)) : IOResult :=
  MkIOResult (if negb (retVal =? 0) then retVal else errnum) retVal (set_maxUsed io maxUsed) trace.

(** What the caller's iterator gives in each round. *)
Context (sinks : nat -> SinkEnv).

(** [iterCount] is the count of the caller's buffer. *)
Fixpoint readfile_rounds (fuel : nat) (round : nat) (io : RemotingIOInfo) (targetIDs : list Z)
    (iterCount retVal : Z) (p : IOPos) (trace : list (FileOpState * Z)) : option IOResult :=
  if p_left p =? 0 then Some (read_result io (p_maxUsed p) retVal 0 trace)
  else match fuel with
  | O => None
  | S fuel' =>
      index ← getStripeTargetIndex (io_pattern io) (p_currentOffset p);
      let stripeSetSize := u64 (sp_chunkSize (io_pattern io) * zlen targetIDs) in
      let maxReadSize := Z.min stripeSetSize (p_left p) in
      sink ← beegfs_readsink_reserve (sinks round) iterCount maxReadSize;
      '(states, p') ← read_stripeset io targetIDs round (length targetIDs) 0 (u32 index) sink p;
      if bool_decide (states = []) then
        Some (read_result io (p_maxUsed p') retVal (- FhgfsOpsErr_OUTOFMEM) trace)
      else
        let results := (fun state => (state, communicate round state)) <$> states in
        let '(bytesReadThisRound, errnum, go) := readfile_verify results 0 in
        let retVal := retVal + bytesReadThisRound in
        if go && (errnum =? 0) then
          readfile_rounds fuel' (S round) io targetIDs (iterCount - bytesReadThisRound) retVal
            (MkIOPos (p_currentOffset p') (p_left p') retVal (p_maxUsed p')) (trace ++ results)
        else Some (read_result io (p_maxUsed p') retVal errnum (trace ++ results))
  end.

Definition FhgfsOpsRemoting_readfileVec (fuel : nat) (iterCount toBeRead offset : Z)
    (io : RemotingIOInfo) : option IOResult :=
  targetIDs ← getStripeTargetIDs (io_pattern io);
  readfile_rounds fuel 0 io targetIDs iterCount 0
    (MkIOPos offset toBeRead 0 (io_maxUsedTargetIndex io)) [].
End IO.

(** ** Page vectors *)

Inductive Fhgfs_RWType := BEEGFS_RWTYPE_READ | BEEGFS_RWTYPE_WRITE.

#[export] Instance Fhgfs_RWType_eq_dec : EqDecision Fhgfs_RWType.
Proof. solve_decision. Defined.

Definition RemotingIOInfo_getNumPagesPerChunk (io : RemotingIOInfo) : Z :=
  sp_chunkSize (io_pattern io) / PAGE_SIZE.

Definition RemotingIOInfo_getNumPagesPerStripe (io : RemotingIOInfo) (targetIDs : list Z) : Z :=
  u64 (RemotingIOInfo_getNumPagesPerChunk io * zlen targetIDs).

(** The fields of [FhgfsCommKitVec] that [FhgfsOpsCommKitVec_assignRWfileState] and
    [FhgfsOpsCommKitVec_setRWFileStateFirstWriteDone] set. *)
Record FhgfsCommKitVec := MkFhgfsCommKitVec {
  ckv_numPages : Z;
  ckv_initialOffset : Z;
  ckv_targetID : Z;
  ckv_firstWriteDoneForTarget : bool
}.

Section PageVec.
(** Result of the communication with the target for the prepared request. *)
Context (rwFileCommunicate : FhgfsCommKitVec -> Fhgfs_RWType -> Z).

(** Returns the value, whether the pages are handed back as failed by this function,
    and the open-file data. [offset] is the file offset of the first page,
    [msgBufOk] whether the pool had a message buffer. *)
Definition FhgfsOpsRemoting_rwChunkPageVec (offset numPages : Z) (msgBufOk : bool)
    (io : RemotingIOInfo) (rwType : Fhgfs_RWType) : option (Z * bool * RemotingIOInfo) :=
  let pattern := io_pattern io in
  targetIDs ← getStripeTargetIDs pattern;
  index ← getStripeTargetIndex pattern offset;
  let targetIndex := u32 index in
  chunkOffset ← __FhgfsOpsRemoting_getChunkOffset offset (sp_chunkSize pattern)
    (zlen targetIDs) targetIndex;
  let chunkPages := RemotingIOInfo_getNumPagesPerStripe io targetIDs in
  if chunkPages <? numPages then Some (- EINVAL, true, io)
  else if negb msgBufOk then Some (- ENOMEM, true, set_maxUsed io (io_maxUsedTargetIndex io))
  else
    targetID ← UInt16Vec_at targetIDs targetIndex;
    done ← BitStore_getBit (io_firstWriteDone io) targetIndex;
    let state := MkFhgfsCommKitVec numPages chunkOffset targetID done in
    let retVal := rwFileCommunicate state rwType in
    let maxUsed := Z.max (io_maxUsedTargetIndex io) (s32 targetIndex) in
    bits ←
      (if (0 <? retVal) && bool_decide (rwType = BEEGFS_RWTYPE_WRITE)
       then BitStore_setBit (io_firstWriteDone io) targetIndex true
       else Some (io_firstWriteDone io));
    let failed := negb (0 <? retVal) && (retVal =? - FhgfsOpsErr_COMMUNICATION) in
    Some (retVal, failed, set_maxUsed (set_firstWriteDone io bits) maxUsed).
End PageVec.
