(* ===== verification/RemotingFacts.v ===== *)
(** * Striped file I/O: coverage of the byte range and results

    The (target, local offset) mapping is a bijection; the requests of a write or
    read tile the byte range in order, each inside of one chunk and addressed to
    the bytes' target; the returned value follows from the node results. *)

From S2P Require Import Prelude StorageErrors Wire SerializationFacts StripePattern StripePatternFacts BitStore BitStoreFacts Remoting.

(** ** The mapping of positions *)

(** Local offset of file position [pos] on its target. *)
Definition spec_local (cs n pos : Z) : Z := pos / (cs * n) * cs + pos mod cs.
(** File position of local offset [off] on target [index]. *)
Definition spec_pos (cs n index off : Z) : Z := (off / cs * n + index) * cs + off mod cs.

Lemma div_mod_parts cs a r : 0 <= r < cs -> (a * cs + r) / cs = a /\ (a * cs + r) mod cs = r.
Proof.
  intros Hr. split; symmetry; [apply Z.div_unique with r|apply Z.mod_unique with a]; lia.
Qed.

Lemma spec_pos_local cs n pos :
  0 < cs -> 0 < n -> spec_pos cs n (spec_index cs n pos) (spec_local cs n pos) = pos.
Proof.
  intros Hcs Hn. unfold spec_pos, spec_index, spec_local.
  destruct (div_mod_parts cs (pos / (cs * n)) (pos mod cs)) as [-> ->]; [by apply Z.mod_pos_bound|].
  rewrite <- Z.div_div by lia. pose proof (Z.div_mod (pos / cs) n). pose proof (Z.div_mod pos cs). nia.
Qed.

Lemma spec_local_pos cs n index off :
  0 < cs -> 0 <= index < n ->
  spec_index cs n (spec_pos cs n index off) = index /\
  spec_local cs n (spec_pos cs n index off) = off.
Proof.
  intros Hcs Hn. unfold spec_pos, spec_index, spec_local. rewrite <- Z.div_div by lia.
  destruct (div_mod_parts cs (off / cs * n + index) (off mod cs)) as [-> ->];
    [by apply Z.mod_pos_bound|].
  destruct (div_mod_parts n (off / cs) index) as [-> ->]; [done|].
  split; [done|]. pose proof (Z.div_mod off cs). lia.
Qed.

Lemma u64_s64 z : in_u 63 z -> s64 (u64 z) = z.
Proof. intros [? ?]. rewrite u64_small by lia. apply s64_small. unfold in_s. lia. Qed.

(** The shift/mask implementation computes the local offset. *)
Lemma getChunkOffset_spec k n pos :
  0 <= k < 32 -> 0 < n < 2 ^ 32 -> 0 <= pos < 2 ^ 63 ->
  __FhgfsOpsRemoting_getChunkOffset pos (2 ^ k) n (spec_index (2 ^ k) n pos)
    = Some (spec_local (2 ^ k) n pos).
Proof.
  intros Hk Hn Hpos. pose proof (pow2_bounds k Hk) as Hcs. set (cs := 2 ^ k) in *.
  unfold __FhgfsOpsRemoting_getChunkOffset.
  rewrite (u32_small (cs - 1)) by lia. unfold cs. rewrite land_pow2_pred by lia. fold cs.
  pose proof (Z.mod_pos_bound pos cs). pose proof (Z.div_mod pos cs) as Hdm.
  pose proof (Z.div_mod (pos / cs) n) as Hdm2. pose proof (Z.mod_pos_bound (pos / cs) n).
  pose proof (Z.div_pos pos cs). pose proof (Z.div_pos (pos / cs) n).
  assert (Hstart : pos - pos mod cs - spec_index cs n pos * cs = cs * (pos / cs / n) * n).
  { unfold spec_index. nia. }
  rewrite Hstart, u64_s64 by (unfold in_u; nia). rewrite (u32_small n) by lia.
  assert (Hq : cs * (pos / cs / n) * n / n = cs * (pos / cs / n)) by (apply Z.div_mul; lia).
  assert (0 <= cs * (pos / cs / n) < 2 ^ 63) by nia.
  assert (Hend : Some (s64 (cs * (pos / cs / n) + pos mod cs)) = Some (spec_local cs n pos)).
  { unfold spec_local. rewrite <- Z.div_div by lia. rewrite s64_small; [f_equal; lia|]. unfold in_s. nia. }
  destruct (MathTk_isPowerOfTwo n) eqn:E.
  - apply isPowerOfTwo_spec in E as (j & Hj & Hnj); [|done]. rewrite Hnj at 1.
    rewrite log2Int32_pow2 by done. cbn. rewrite Z.shiftr_div_pow2, <- Hnj, Hq by lia. done.
  - rewrite (proj2 (Z.eqb_neq _ _)) by lia. cbn [mbind option_bind].
    rewrite (u64_small (_ * n)), Hq by nia. rewrite (s64_small (cs * _)) by (unfold in_s; nia). done.
Qed.

(** ** Requests *)

(** A request of an I/O at file position [base]: inside of one chunk, addressed to
    the target and local offset of its first byte. *)
Definition request_ok (p : StripePattern) (ids : list Z) (base : Z) (s : FileOpState) : Prop :=
  let cs := sp_chunkSize p in let n := zlen ids in let pos := base + fo_data s in
  0 < fo_totalSize s /\ pos mod cs + fo_totalSize s <= cs /\
  fo_index s = spec_index cs n pos /\ fo_offset s = spec_local cs n pos /\
  ids !! Z.to_nat (fo_index s) = Some (fo_targetID s).

(** Every byte of a request goes where the striping says. *)
Lemma request_bytes p ids base s k :
  0 < sp_chunkSize p -> 0 < zlen ids -> request_ok p ids base s -> 0 <= k < fo_totalSize s ->
  spec_index (sp_chunkSize p) (zlen ids) (base + fo_data s + k) = fo_index s /\
  spec_local (sp_chunkSize p) (zlen ids) (base + fo_data s + k) = fo_offset s + k.
Proof.
  intros Hcs Hn (Hsz & Hin & -> & -> & _) Hk. set (cs := sp_chunkSize p) in *.
  set (pos := base + fo_data s) in *. unfold spec_index, spec_local.
  pose proof (Z.mod_pos_bound pos cs). pose proof (Z.div_mod pos cs).
  assert (Hd : (pos + k) / cs = pos / cs) by (symmetry; apply Z.div_unique with (pos mod cs + k); lia).
  assert (Hm : (pos + k) mod cs = pos mod cs + k) by (symmetry; apply Z.mod_unique with (pos / cs); lia).
  rewrite <- !Z.div_div by lia. rewrite Hd, Hm. split; [done|lia].
Qed.

(** The requests cover the buffer from [lo] to [hi], in order, without gap or overlap. *)
Fixpoint tiles (lo : Z) (l : list FileOpState) (hi : Z) : Prop :=
  match l with
  | [] => lo = hi
  | s :: l' => fo_data s = lo /\ tiles (lo + fo_totalSize s) l' hi
  end.

Lemma tiles_app lo l k hi : tiles lo (l ++ k) hi <-> exists mid, tiles lo l mid /\ tiles mid k hi.
Proof.
  revert lo. induction l as [|s l IH]; intros lo; cbn.
  - split; [by exists lo|]. by intros (? & -> & ?).
  - rewrite IH. split.
    + intros (? & mid & ? & ?). by exists mid.
    + intros (mid & (? & ?) & ?). eauto.
Qed.

(** Target indices of a round: consecutive, starting at the first. *)
Fixpoint indices (n i : Z) (l : list FileOpState) : Prop :=
  match l with
  | [] => True
  | s :: l' => fo_index s = i /\ indices n ((i + 1) mod n) l'
  end.

(** ** One round *)

Lemma chunkEnd_rest p pos :
  chunkSize_ok (sp_chunkSize p) -> 0 <= pos < 2 ^ 63 - 2 ^ 32 ->
  u64 (StripePattern_getChunkEnd p pos - pos + 1) = sp_chunkSize p - pos mod sp_chunkSize p.
Proof.
  intros Hc Hpos. unfold StripePattern_getChunkEnd. rewrite nextChunkStart_spec by done.
  destruct Hc as (k & Hk & ->). pose proof (pow2_bounds k Hk).
  pose proof (Z.div_mod pos (2 ^ k)). pose proof (Z.mod_pos_bound pos (2 ^ k)).
  pose proof (Z.div_pos pos (2 ^ k)).
  rewrite s64_small by (unfold in_s; nia). rewrite u64_small; lia.
Qed.

(** At a chunk boundary the next target is the next index. *)
Lemma spec_index_next cs n pos :
  0 < cs -> 0 < n < 2 ^ 32 - 1 ->
  spec_index cs n (pos + (cs - pos mod cs)) = u32 (spec_index cs n pos + 1) mod n /\
  u32 (spec_index cs n pos + 1) = spec_index cs n pos + 1.
Proof.
  intros Hcs Hn. pose proof (spec_index_range cs n pos). rewrite u32_small by lia. split; [|done].
  unfold spec_index. rewrite Zplus_mod_idemp_l. f_equal.
  pose proof (Z.div_mod pos cs). symmetry. apply Z.div_unique with 0; lia.
Qed.

(** What the callers establish of an open file. *)
Record io_ok (io : RemotingIOInfo) (ids : list Z) : Prop := {
  io_pat : pattern_ok (io_pattern io);
  io_ids : getStripeTargetIDs (io_pattern io) = Some ids;
  io_n : 0 < zlen ids < 2 ^ 31;
  io_bits : bitstore_ok (io_firstWriteDone io) /\ zlen ids <= bs_numBits (io_firstWriteDone io)
}.

Lemma io_ok_cs io ids : io_ok io ids -> 0 < sp_chunkSize (io_pattern io) < 2 ^ 32.
Proof. intros [[(k & Hk & ->) _] _ _ _]. by apply pow2_bounds. Qed.

Lemma getBit_total b i : bitstore_ok b -> 0 <= i -> exists v, BitStore_getBit b i = Some v.
Proof.
  intros (w & l & -> & _ & _) Hi. rewrite getBit_pack by done.
  destruct (Z.ltb_spec i (64 * (1 + zlen l))); [|by eauto].
  destruct (bit_coords i (zlen l)) as (Hq & _ & _); [lia|]. unfold bits_at.
  destruct (lookup_lt_is_Some_2 (w :: l) (Z.to_nat (i / 64))) as [x ->]; [|by eauto].
  cbn. unfold zlen in *. lia.
Qed.

(** The position variables of an I/O of [count] bytes at [base]. *)
Definition pos_ok (base count : Z) (p : IOPos) : Prop :=
  0 <= base /\ 0 <= p_data p /\ 0 <= p_left p /\ p_currentOffset p = base + p_data p /\
  p_data p + p_left p = count /\ base + count < 2 ^ 63 - 2 ^ 32.

Section rounds.
Context (alloc : nat -> nat -> bool) (communicate : nat -> FileOpState -> Z).
Context (io : RemotingIOInfo) (ids : list Z) (Hio : io_ok io ids).
Let cs := sp_chunkSize (io_pattern io).
Let n := zlen ids.

(** The steps shared by the two stripeset loops: the offset, the target and the
    flag of the next request. *)
Lemma next_request pos :
  0 <= pos < 2 ^ 63 - 2 ^ 32 ->
  __FhgfsOpsRemoting_getChunkOffset pos cs n (spec_index cs n pos) = Some (spec_local cs n pos) /\
  (exists t, UInt16Vec_at ids (spec_index cs n pos) = Some t) /\
  (exists v, BitStore_getBit (io_firstWriteDone io) (spec_index cs n pos) = Some v) /\
  u64 (StripePattern_getChunkEnd (io_pattern io) pos - pos + 1) = cs - pos mod cs /\
  0 < cs - pos mod cs <= cs.
Proof.
  intros Hpos. destruct Hio as [[Hc Hb] Hids Hn [Hbits _]]. pose proof (io_ok_cs _ _ Hio).
  pose proof (spec_index_range cs n pos ltac:(unfold n; lia)) as Hi.
  split_and!.
  - destruct Hc as (k & Hk & Hcs). unfold cs. rewrite Hcs.
    apply getChunkOffset_spec; [done|unfold n; lia|lia].
  - unfold UInt16Vec_at. apply lookup_lt_is_Some_2. unfold n, zlen in *. lia.
  - apply getBit_total; [done|lia].
  - by apply chunkEnd_rest.
  - pose proof (Z.mod_pos_bound pos cs ltac:(unfold cs; lia)). lia.
  - pose proof (Z.mod_pos_bound pos cs ltac:(unfold cs; lia)). lia.
Qed.

Lemma write_stripeset_spec ser base count round works : forall numWorks idx p,
  pos_ok base count p ->
  (p_left p = 0 \/ idx = spec_index cs n (p_currentOffset p)) ->
  exists states p', write_stripeset alloc io ser ids round works numWorks idx p = Some (states, p') /\
    pos_ok base count p' /\ tiles (p_data p) states (p_data p') /\
    Forall (request_ok (io_pattern io) ids base) states /\
    indices n idx states /\ (length states <= works)%nat /\
    ((0 < works)%nat -> 0 < p_left p -> alloc round numWorks = true -> states <> []).
Proof.
  induction works as [|works IH]; intros numWorks idx p Hp Hidx; cbn [write_stripeset].
  { exists [], p. split_and!; (done || (cbn; lia)). }
  destruct (Z.eqb_spec (p_left p) 0) as [E|E].
  { exists [], p. split_and!; (done || (cbn; lia)). }
  destruct Hidx as [?|Hidx]; [done|]. pose proof Hp as (H0 & Hd & Hleft & Hcur & Hsum & Hmax).
  destruct (next_request (p_currentOffset p)) as (Hoff & (t & Ht) & (v & Hv) & Hrest & Hrpos); [lia|].
  fold cs n. rewrite Hidx, Hoff. cbn [mbind option_bind].
  destruct (alloc round numWorks) eqn:Ea; cbn [negb].
  2: { exists [], p. split_and!; (done || (cbn; lia)). }
  rewrite Ht, Hv. cbn [mbind option_bind]. rewrite Hrest. cbv zeta.
  set (rest := cs - p_currentOffset p mod cs) in *. set (cnt := Z.min (p_left p) rest).
  set (p1 := MkIOPos _ _ _ _). set (st := FhgfsOpsCommKit_initFileOpState _ _ _ _ _ _).
  assert (Hp1 : pos_ok base count p1) by (unfold pos_ok, p1, cnt; cbn; lia).
  assert (Hreq : request_ok (io_pattern io) ids base st).
  { unfold request_ok, st. cbn. fold cs n. rewrite <- Hcur. split_and!; (done || unfold cnt, rest; lia). }
  destruct ser.
  { exists [st], p1. refine (conj eq_refl (conj Hp1 (conj (conj eq_refl eq_refl)
      (conj (Forall_cons_2 _ _ _ Hreq (Forall_nil_2 _)) (conj (conj eq_refl I) (conj _ (fun _ _ _ => _))))))); [cbn; lia|done]. }
  destruct (IH (S numWorks) (u32 (spec_index cs n (p_currentOffset p) + 1) mod n) p1 Hp1)
    as (states & p' & -> & Hp' & Htiles & Hall & Hind & Hlen & _).
  { destruct (decide (p_left p <= rest)) as [Hle|Hgt]; [left; unfold p1, cnt; cbn; lia|right].
    unfold p1. cbn. replace cnt with rest by (unfold cnt; lia). unfold rest.
    pose proof (io_ok_cs _ _ Hio). destruct Hio as [_ _ Hn _]. symmetry. apply spec_index_next; [unfold cs; lia|unfold n; lia]. }
  exists (st :: states), p'. cbn [mbind option_bind]. refine (conj eq_refl (conj Hp' (conj (conj eq_refl Htiles)
    (conj (Forall_cons_2 _ _ _ Hreq Hall) (conj (conj eq_refl _) (conj _ (fun _ _ _ => _))))))); [|cbn; lia|done].
  pose proof (io_ok_cs _ _ Hio). destruct Hio as [_ _ Hn _].
  destruct (spec_index_next cs n (p_currentOffset p)) as [_ Hu]; [unfold cs; lia|unfold n; lia|].
  by rewrite Hu in Hind.
Qed.
End rounds.

(** ** Results of a write *)

Definition all_expected (l : list (FileOpState * Z)) : Prop :=
  Forall (fun x => snd x = fo_totalSize (fst x)) l.

(** Verdict and value of the verification of one round: the first result that is
    not the expected one decides; an error code replaces the sum. *)
Fixpoint verify_spec (l : list (FileOpState * Z)) (acc : Z) : bool * Z :=
  match l with
  | [] => (true, acc)
  | (s, r) :: l' =>
      if r =? fo_totalSize s then verify_spec l' (acc + r)
      else if r <? 0 then (false, r)
      else (false, if r <? fo_totalSize s then acc + r else acc)
  end.

Lemma verify_spec_true l acc : (verify_spec l acc).1 = true <-> all_expected l.
Proof.
  revert acc. induction l as [|[s r] l IH]; intros acc; cbn; [split; [by constructor|done]|].
  unfold all_expected in *. rewrite Forall_cons_iff. cbn. destruct (Z.eqb_spec r (fo_totalSize s)) as [E|E].
  - rewrite IH. tauto.
  - destruct (r <? 0); cbn; (split; [done|tauto]).
Qed.

(** Bits after a verification: set bits stay set, new ones belong to requests. *)
Definition bits_after (b b' : BitStore) (l : list (FileOpState * Z)) : Prop :=
  bitstore_ok b' /\ bs_numBits b' = bs_numBits b /\
  (forall j, 0 <= j -> BitStore_getBit b j = Some true -> BitStore_getBit b' j = Some true) /\
  (forall j, 0 <= j -> BitStore_getBit b' j = Some true ->
    BitStore_getBit b j = Some true \/ exists s r, (s, r) ∈ l /\ fo_index s = j) /\
  (all_expected l -> forall s r, (s, r) ∈ l -> BitStore_getBit b' (fo_index s) = Some true).

Lemma bits_after_nil b : bitstore_ok b -> bits_after b b [].
Proof. intros. split_and!; auto. intros _ s r Hin. by apply elem_of_nil in Hin. Qed.

Lemma writefileVerify_spec n first l : forall b acc i,
  bitstore_ok b -> 0 < n <= bs_numBits b -> 0 <= first -> 0 <= i -> first + i + zlen l < 2 ^ 32 ->
  indices n ((first + i) mod n) l.*1 ->
  exists b', writefileVerify_loop b first n l acc i =
      Some ((verify_spec l acc).1, (verify_spec l acc).2, b') /\ bits_after b b' l.
Proof.
  induction l as [|[s r] l IH]; intros b acc i Hb Hn Hf Hi Hlt Hind; cbn [writefileVerify_loop verify_spec].
  { exists b. split; [done|]. by apply bits_after_nil. }
  rewrite zlen_cons in Hlt. pose proof (zlen_nonneg l). destruct Hind as [Hidx Hind]. cbn [fst] in Hidx.
  pose proof (Z.mod_pos_bound (first + i) n ltac:(lia)) as Hrange.
  rewrite (u32_small (first + i)) by lia. rewrite (u32_small (i + 1)) by lia.
  assert (Hnext : ((first + i) mod n + 1) mod n = (first + (i + 1)) mod n).
  { rewrite Zplus_mod_idemp_l. f_equal. lia. }
  destruct (setBit_spec b ((first + i) mod n) true Hb) as (b1 & Hset & Hb1 & Hnum & Hget); [lia|].
  destruct (Z.leb_spec r (fo_totalSize s)) as [Hle|Hgt]; cbn [mbind option_bind].
  2: { (* larger than expected *)
    rewrite (proj2 (Z.eqb_neq _ _)) by lia. rewrite (proj2 (Z.eqb_neq r _)) by lia.
    assert (Hba : bits_after b b ((s, r) :: l)).
    { split_and!; auto. intros [Hx _]%Forall_cons_iff. cbn in Hx. lia. }
    destruct (Z.leb_spec 0 r), (Z.ltb_spec r 0); try lia; [|exists b; done].
    exists b. rewrite (proj2 (Z.ltb_ge _ _)) by lia. done. }
  rewrite Hset. cbn [mbind option_bind]. rewrite (Z.eqb_sym (fo_totalSize s)).
  assert (Hmono : forall j, 0 <= j -> BitStore_getBit b j = Some true -> BitStore_getBit b1 j = Some true).
  { intros j Hj Hbj. rewrite Hget by done. by destruct (_ =? _). }
  assert (Hnew : forall j, 0 <= j -> BitStore_getBit b1 j = Some true ->
    BitStore_getBit b j = Some true \/ fo_index s = j).
  { intros j Hj. rewrite Hget by done. destruct (Z.eqb_spec j ((first + i) mod n)); [right; congruence|by left]. }
  destruct (Z.eqb_spec r (fo_totalSize s)) as [->|Hne].
  - destruct (IH b1 (acc + fo_totalSize s) (i + 1) Hb1) as (b' & -> & Hb' & Hnum' & Hm & Hn' & Hall);
      [lia|done|lia|lia|by rewrite <- Hnext|].
    exists b'. split; [done|]. split_and!; [done|lia|auto| |].
    + intros j Hj [Hj1|(s' & r' & Hin & <-)]%Hn'; [|right; exists s', r'; split; [by right|done]|done].
      destruct (Hnew j Hj Hj1) as [?|<-]; [by left|]. right. exists s, (fo_totalSize s). split; [by left|done].
    + intros [_ Hex]%Forall_cons_iff s' r' [[= -> ->]|Hin]%elem_of_cons; [|by eapply Hall].
      apply Hm; [lia|]. rewrite Hidx, Hget by lia. by rewrite Z.eqb_refl.
  - assert (Hba : bits_after b b1 ((s, r) :: l)).
    { split_and!; [done|lia|auto| |].
      - intros j Hj [?|<-]%Hnew; [by left| |done]. right. exists s, r. split; [by left|done].
      - intros [Hx _]%Forall_cons_iff. by cbn in Hx. }
    exists b1. destruct (Z.leb_spec 0 r), (Z.ltb_spec r 0); try lia; [|done].
    by rewrite (proj2 (Z.ltb_lt _ _)) by lia.
Qed.

Lemma bits_after_app b b1 b2 l k :
  bits_after b b1 l -> bits_after b1 b2 k -> (forall s r, (s, r) ∈ l -> 0 <= fo_index s) ->
  bits_after b b2 (l ++ k).
Proof.
  intros (? & ? & Hm1 & Hn1 & Ha1) (? & ? & Hm2 & Hn2 & Ha2) Hpos. split_and!; [done|lia|auto| |].
  - intros j Hj [Hj1|(s & r & ? & ?)]%Hn2; [| |done].
    + destruct (Hn1 j Hj Hj1) as [?|(s & r & ? & ?)]; [by left|]. right. exists s, r. set_solver.
    + right. exists s, r. set_solver.
  - intros [Hl Hk]%Forall_app s r [Hin|Hin]%elem_of_app; [|by eapply Ha2].
    apply Hm2; [by eapply Hpos|by eapply Ha1].
Qed.

Lemma fmap_results (f : FileOpState -> Z) (states : list FileOpState) :
  ((fun s => (s, f s)) <$> states).*1 = states.
Proof. rewrite <- list_fmap_compose. by apply list_fmap_id. Qed.

Lemma tiles_le p ids base l : forall lo hi,
  Forall (request_ok p ids base) l -> tiles lo l hi -> lo <= hi.
Proof.
  induction l as [|x l IH]; intros lo hi Hf; cbn; [lia|].
  intros [_ Ht]. inversion Hf as [|?? (Hpos & _) ?]; subst. apply IH in Ht; [lia|done].
Qed.

Lemma tiles_lt p ids base l lo hi :
  l <> [] -> Forall (request_ok p ids base) l -> tiles lo l hi -> lo < hi.
Proof.
  destruct l as [|s l]; [done|]. intros _ Hf [_ Ht]. inversion Hf as [|?? (Hpos & _) Hrest]; subst.
  pose proof (tiles_le _ _ _ _ _ _ Hrest Ht). lia.
Qed.

Lemma index_in_range p ids base s : request_ok p ids base s -> 0 < zlen ids ->
  0 <= fo_index s < zlen ids.
Proof. intros (_ & _ & -> & _) Hn. by apply spec_index_range. Qed.

(** How a write ends: complete, or with the value of its last round. *)
Definition write_outcome (count hi retVal : Z) (l : list (FileOpState * Z)) : Prop :=
  (all_expected l /\ hi = count /\ retVal = count) \/
  (exists pre last, l = pre ++ last /\ all_expected pre /\ verify_spec last 0 = (false, retVal)).

(** First target index of a round. *)
Lemma first_index io ids pos : io_ok io ids -> 0 <= pos < 2 ^ 63 ->
  getStripeTargetIndex (io_pattern io) pos
    = Some (spec_index (sp_chunkSize (io_pattern io)) (zlen ids) pos) /\
  u32 (spec_index (sp_chunkSize (io_pattern io)) (zlen ids) pos)
    = spec_index (sp_chunkSize (io_pattern io)) (zlen ids) pos.
Proof.
  intros [Hpat Hids Hn _] Hpos. split; [by apply pattern_lookup|].
  pose proof (spec_index_range (sp_chunkSize (io_pattern io)) (zlen ids) pos). apply u32_small. lia.
Qed.

Lemma writefile_rounds_spec alloc communicate ser ids base count :
  (forall r, alloc r O = true) ->
  forall fuel round io p trace,
  io_ok io ids -> pos_ok base count p -> p_left p <= Z.of_nat fuel ->
  exists res new hi,
    writefile_rounds alloc communicate fuel round io ser ids count p trace = Some res /\
    r_trace res = trace ++ new /\ io_pattern (r_io res) = io_pattern io /\
    Forall (request_ok (io_pattern io) ids base) new.*1 /\
    tiles (p_data p) new.*1 hi /\ p_data p <= hi <= count /\ write_outcome count hi (r_retVal res) new /\
    bits_after (io_firstWriteDone io) (io_firstWriteDone (r_io res)) new.
Proof.
  intros Halloc. induction fuel as [|fuel IH]; intros round io p trace Hio Hp Hfuel;
    pose proof Hp as (H0 & Hd & Hleft & Hcur & Hsum & Hmax);
    cbn [writefile_rounds]; (destruct (Z.eqb_spec (p_left p) 0) as [E|E]; [|try lia]);
    try (exists (write_result io (p_maxUsed p) count trace), [], (p_data p); split_and!;
         [done|by rewrite app_nil_r|done|done|done|lia|lia| |apply bits_after_nil, Hio];
         left; split_and!; [by constructor|lia|done]).
  destruct (first_index io ids (p_currentOffset p) Hio) as [-> Hu]; [lia|].
  cbn [mbind option_bind]. rewrite Hu.
  destruct (write_stripeset_spec alloc io ids Hio ser base count round (length ids) 0
    _ p Hp (or_intror eq_refl)) as (states & p' & -> & Hp' & Htiles & Hreq & Hind & Hlen & Hne).
  cbn [mbind option_bind]. pose proof Hio as [Hpat Hids Hn [Hbits Hnum]].
  set (results := (fun s => (s, communicate round s)) <$> states) in *.
  assert (Hfst : results.*1 = states) by apply fmap_results.
  assert (Hlr : zlen results = zlen states) by apply zlen_fmap.
  set (idx0 := spec_index _ _ _) in *.
  assert (Hidx0 : 0 <= idx0 < zlen ids) by (apply spec_index_range; lia).
  destruct (writefileVerify_spec (zlen ids) idx0 results (io_firstWriteDone io) 0 0)
    as (b' & Hver & Hba); [done|lia|lia|done|unfold zlen in *; lia| |].
  { rewrite Hfst, Z.add_0_r, Z.mod_small by done. done. }
  unfold __FhgfsOpsRemoting_writefileVerify. rewrite Hver. cbn [mbind option_bind].
  assert (Hpos' : forall s r, (s, r) ∈ results -> 0 <= fo_index s).
  { intros s r Hin. apply (list_elem_of_fmap_2 fst) in Hin. rewrite Hfst in Hin.
    eapply Forall_forall in Hreq; [|by apply list_elem_of_In]. pose proof (index_in_range _ _ _ _ Hreq ltac:(lia)) as Hr. cbn in Hr. lia. }
  assert (Hstates : states <> []) by (apply Hne; [unfold zlen in *; lia|lia|apply Halloc]).
  assert (Hprog : p_data p < p_data p') by (by eapply tiles_lt).
  pose proof Hp' as (_ & _ & Hleft' & _ & Hsum' & _).
  destruct (verify_spec results 0) as [ok value] eqn:Evs. cbn [fst snd].
  destruct ok.
  - set (io' := set_firstWriteDone io b').
    assert (Hio' : io_ok io' ids).
    { destruct Hba as (? & ? & _). split; [done..|]. unfold io'. cbn. split; [done|lia]. }
    destruct (IH (S round) io' p' (trace ++ results) Hio' Hp') as
      (res & new & hi & -> & Htr & Hpt & Hreq' & Htl' & Hhi & Hout & Hba'); [lia|].
    exists res, (results ++ new), hi. rewrite fmap_app, Hfst.
    split_and!; [done|by rewrite Htr, app_assoc|done|by apply Forall_app| |lia|lia| |].
    + apply tiles_app. by exists (p_data p').
    + assert (Hae : all_expected results) by (apply (verify_spec_true results 0); by rewrite Evs).
      destruct Hout as [(? & ? & ?)|(pre & last & -> & ? & ?)].
      * left. split_and!; [by apply Forall_app|done..].
      * right. exists (results ++ pre), last. split_and!; [by rewrite app_assoc|by apply Forall_app|done].
    + by eapply bits_after_app.
  - eexists _, results, (p_data p'). split; [done|]. rewrite Hfst. cbn [r_trace r_io r_retVal write_result].
    split_and!; [done..|lia|lia| |done].
    right. exists [], results. split_and!; [done|by constructor|done].
Qed.

(** ** Reading *)

Lemma readfile_verify_go l acc bytes err go :
  readfile_verify l acc = (bytes, err, go) -> (go = true -> all_expected l /\ err = 0).
Proof.
  revert acc. induction l as [|[s r] l IH]; intros acc; cbn; [intros [= <- <- <-]; split; [constructor|done]|].
  destruct (Z.eqb_spec r (fo_totalSize s)) as [E|E].
  - intros H Hgo. destruct (IH _ H Hgo) as [? ?]. split; [by constructor|done].
  - destruct (0 <=? r); by intros [= <- <- <-].
Qed.

Lemma readfile_verify_expected l : forall lo hi acc,
  all_expected l -> tiles lo l.*1 hi -> readfile_verify l acc = (acc + (hi - lo), 0, true).
Proof.
  induction l as [|[s r] l IH]; intros lo hi acc; cbn.
  - intros _ ->. f_equal. f_equal. lia.
  - intros [Hr Hf]%Forall_cons_iff [_ Ht]. cbn in Hr. rewrite (proj2 (Z.eqb_eq r _)) by done.
    rewrite (IH _ _ _ Hf Ht). f_equal. f_equal. lia.
Qed.

Section reads.
Context (alloc : nat -> nat -> bool) (fhgfsInode : option Z).
Context (io : RemotingIOInfo) (ids : list Z) (Hio : io_ok io ids).
Let cs := sp_chunkSize (io_pattern io).
Let n := zlen ids.

(** The buffer space of a round: all that is left to read, or the whole set. *)
Lemma read_stripeset_spec base count round works : forall numWorks idx sink p,
  pos_ok base count p ->
  (p_left p = 0 \/ idx = spec_index cs n (p_currentOffset p)) ->
  (sink = p_left p \/ (Z.of_nat works * cs <= sink <= p_left p)) ->
  exists states p', read_stripeset alloc fhgfsInode io ids round works numWorks idx sink p = Some (states, p') /\
    pos_ok base count p' /\ tiles (p_data p) states (p_data p') /\
    Forall (request_ok (io_pattern io) ids base) states /\
    ((0 < works)%nat -> 0 < p_left p -> 0 < sink -> alloc round numWorks = true -> states <> []).
Proof.
  pose proof (io_ok_cs _ _ Hio) as Hcs. pose proof Hio as [_ _ Hn _]. fold cs in Hcs. fold n in Hn.
  induction works as [|works IH]; intros numWorks idx sink p Hp Hidx Hsink; cbn [read_stripeset].
  { exists [], p. split_and!; (done || lia). }
  destruct (Z.eqb_spec (p_left p) 0) as [E|E]; cbn [orb].
  { exists [], p. split_and!; (done || lia). }
  destruct (Z.eqb_spec sink 0) as [Es|Es].
  { exists [], p. split_and!; (done || lia). }
  destruct Hidx as [?|Hidx]; [done|]. pose proof Hp as (H0 & Hd & Hleft & Hcur & Hsum & Hmax).
  destruct (next_request io ids Hio (p_currentOffset p))
    as (Hoff & (t & Ht) & (v & Hv) & Hrest & Hrpos); [lia|].
  fold cs n in Hoff, Ht, Hv, Hrest, Hrpos |- *. rewrite Hidx, Hoff. cbn [mbind option_bind].
  destruct (alloc round numWorks) eqn:Ea; cbn [negb].
  2: { exists [], p. split_and!; (done || lia). }
  rewrite Ht, Hv. cbn [mbind option_bind]. rewrite Hrest. cbv zeta.
  set (rest := cs - p_currentOffset p mod cs) in *.
  assert (Hcount : Z.min sink rest = Z.min rest (p_left p)) by nia.
  rewrite Hcount. set (cnt := Z.min rest (p_left p)).
  set (p1 := MkIOPos _ _ _ _). set (st := set_useBuddyMirrorSecond _ _).
  assert (Hp1 : pos_ok base count p1) by (unfold pos_ok, p1, cnt; cbn; lia).
  assert (Hreq : request_ok (io_pattern io) ids base st).
  { unfold request_ok, st. cbn. fold cs n. rewrite <- Hcur. split_and!; (done || unfold cnt, rest; lia). }
  destruct (IH (S numWorks) (u32 (spec_index cs n (p_currentOffset p) + 1) mod n) (sink - cnt) p1 Hp1)
    as (states & p' & -> & Hp' & Htiles & Hall & _).
  - destruct (decide (p_left p <= rest)) as [Hle|Hgt]; [left; unfold p1, cnt; cbn; lia|right].
    unfold p1. cbn. replace cnt with rest by (unfold cnt; lia). unfold rest.
    symmetry. apply spec_index_next; lia.
  - unfold p1. cbn. destruct Hsink as [->|Hsink]; [left; lia|right]. unfold cnt. nia.
  - exists (st :: states), p'. cbn [mbind option_bind].
    refine (conj eq_refl (conj Hp' (conj (conj eq_refl Htiles)
      (conj (Forall_cons_2 _ _ _ Hreq Hall) _)))). done.
Qed.
End reads.

(** *** The buffer space of a round *)

(** A pipe that has room for all that is asked for, or gives nothing: the offset is one in a page, and the
    pages that [iov_iter_get_pages] gives hold the bytes that it reports.  (A pipe that has room for a part only:
    [short_pipe_sink_skips_data].) *)
Record pipe_ok (e : PipePages) : Prop := {
  pk_start : 0 <= pp_start e < PAGE_SIZE;
  pk_whole : forall size, 0 < size -> pp_gpr e size <= 0 \/ pp_gpr e size = size;
  pk_pages : forall size, pp_start e + pp_gpr e size <= pp_npages e size * PAGE_SIZE
}.
Definition sink_ok (sink : SinkEnv) : Prop := match sink with Sink_plain => True | Sink_pipe e => pipe_ok e end.
(** The reservation of some bytes gives nothing. *)
Definition sink_empty (sink : SinkEnv) : Prop :=
  exists iterCount size, 0 < iterCount /\ 0 < size /\ beegfs_readsink_reserve sink iterCount size = Some 0.

(** The loop over the pages ends before it runs out of pages: [a]: the bytes from the start of the first page on. *)
Lemma readsink_bvecs_total fuel : forall max_pages npages view_size np bvs_size start a,
  0 <= start < PAGE_SIZE -> a + bvs_size = np * PAGE_SIZE + start \/ view_size <= bvs_size ->
  a + view_size <= npages * PAGE_SIZE -> a + view_size <= max_pages * PAGE_SIZE ->
  max_pages - np <= Z.of_nat fuel -> exists n, readsink_bvecs fuel max_pages npages view_size np bvs_size start = Some n.
Proof.
  induction fuel as [|fuel IH]; intros max_pages npages view_size np bvs_size start a Hs Hinv Hn Hm Hf; cbn [readsink_bvecs];
    destruct (Z.leb_spec view_size bvs_size) as [|Hlt]; try (by eexists); destruct Hinv as [Hinv|]; try lia; unfold PAGE_SIZE in *; [lia|].
  destruct (Z.leb_spec max_pages np); [lia|]. destruct (Z.leb_spec npages np); [lia|]. cbn [orb].
  apply (IH _ _ _ _ _ _ a); lia.
Qed.
Lemma readsink_reserve_ok sink iterCount size : sink_ok sink -> 0 < iterCount -> 0 < size < 2 ^ 63 ->
  exists n, beegfs_readsink_reserve sink iterCount size = Some n /\ (n = Z.min iterCount size \/ n = 0 /\ sink_empty sink).
Proof.
  intros Hok Hi Hs.
  enough (exists n, beegfs_readsink_reserve sink iterCount size = Some n /\ (n = Z.min iterCount size \/ n = 0)) as (n & E & Hn).
  { exists n. split; [done|]. destruct Hn as [->| ->]; [by left|right]. split; [done|]. exists iterCount, size. split_and!; [lia|lia|done]. }
  destruct sink as [|e]; cbn [beegfs_readsink_reserve]; [unfold beegfs_readsink_reserve_no_pipe; eauto|].
  destruct Hok as [Hst Hw Hp]. unfold beegfs_readsink_reserve_pipe. cbv zeta.
  set (m := Z.min size iterCount). destruct (pp_pagesOk e), (pp_bvecsOk e); cbn [negb]; eauto.
  destruct (Z.ltb_spec 0 (pp_gpr e m)) as [Hpos|]; [|eauto]. destruct (Hw m) as [|Hg]; [lia|lia|].
  specialize (Hp m). rewrite Hg in *.
  assert (Hmax : pp_start e + m <= compute_max_pagecount m * PAGE_SIZE).
  { unfold compute_max_pagecount. rewrite u64_small by (unfold PAGE_SIZE; lia).
    pose proof (Z.div_mod (PAGE_SIZE - 1 + m + PAGE_SIZE - 1) PAGE_SIZE ltac:(done)).
    pose proof (Z.mod_pos_bound (PAGE_SIZE - 1 + m + PAGE_SIZE - 1) PAGE_SIZE ltac:(done)). lia. }
  destruct (readsink_bvecs_total (Z.to_nat (compute_max_pagecount m)) (compute_max_pagecount m) (pp_npages e m) m 0 0 (pp_start e) (pp_start e))
    as [n ->]; [done|lia|done|done|lia|]. cbn [mbind option_bind]. exists m. split; [done|]. left. lia.
Qed.
Lemma read_stripeset_empty alloc fhgfsInode io ids round works numWorks idx p :
  read_stripeset alloc fhgfsInode io ids round works numWorks idx 0 p = Some ([], p).
Proof. destruct works; cbn [read_stripeset]; [done|]. by rewrite orb_true_r. Qed.

(** How a read of [count] bytes, of which [lo] are read already, ends: complete, out of
    memory (the first allocation of a round failed, or its reservation in a pipe gave nothing) after [hi] bytes, or with a short or failed result in its last round after
    [mid] bytes. *)
Definition read_outcome (alloc : nat -> nat -> bool) (sinks : nat -> SinkEnv) (lo count hi retVal : Z) (l : list (FileOpState * Z)) : Prop :=
  (all_expected l /\ hi = count /\ retVal = count) \/
  (all_expected l /\ (exists r, alloc r O = false \/ sink_empty (sinks r)) /\
   retVal = if hi =? 0 then - FhgfsOpsErr_OUTOFMEM else hi) \/
  (exists pre last mid bytes err,
     l = pre ++ last /\ all_expected pre /\ tiles lo pre.*1 mid /\
     readfile_verify last 0 = (bytes, err, false) /\
     retVal = if mid + bytes =? 0 then err else mid + bytes).

Lemma readfile_rounds_spec alloc communicate fhgfsInode sinks ids base count io :
  io_ok io ids -> (forall r, sink_ok (sinks r)) ->
  forall fuel round p iterCount trace,
  pos_ok base count p -> p_left p <= iterCount -> p_left p <= Z.of_nat fuel ->
  exists res new hi,
    readfile_rounds alloc communicate fhgfsInode sinks fuel round io ids iterCount (p_data p) p trace = Some res /\
    r_trace res = trace ++ new /\
    Forall (request_ok (io_pattern io) ids base) new.*1 /\
    tiles (p_data p) new.*1 hi /\ p_data p <= hi <= count /\
    read_outcome alloc sinks (p_data p) count hi (r_retVal res) new.
Proof.
  intros Hio Hsinks. pose proof (io_ok_cs _ _ Hio) as Hcs. pose proof Hio as [_ _ Hn _].
  induction fuel as [|fuel IH]; intros round p iterCount trace Hp Hiter Hfuel;
    pose proof Hp as (H0 & Hd & Hleft & Hcur & Hsum & Hmax);
    cbn [readfile_rounds]; (destruct (Z.eqb_spec (p_left p) 0) as [E|E]; [|try lia]);
    try (exists (read_result io (p_maxUsed p) (p_data p) 0 trace), [], (p_data p); split_and!;
         [done|by rewrite app_nil_r|done|done|lia|lia|]; left; split_and!; [by constructor|lia|];
         cbn; destruct (Z.eqb_spec (p_data p) 0); cbn; lia).
  destruct (first_index io ids (p_currentOffset p) Hio) as [-> Hu]; [lia|].
  cbn [mbind option_bind]. rewrite Hu. rewrite (u64_small (_ * zlen ids)) by nia.
  assert (Hstop : forall m, (exists r, alloc r O = false \/ sink_empty (sinks r)) -> exists res new hi,
    Some (read_result io m (p_data p) (- FhgfsOpsErr_OUTOFMEM) trace) = Some res /\ r_trace res = trace ++ new /\
    Forall (request_ok (io_pattern io) ids base) new.*1 /\ tiles (p_data p) new.*1 hi /\ p_data p <= hi <= count /\
    read_outcome alloc sinks (p_data p) count hi (r_retVal res) new).
  { intros m Hr. eexists _, [], (p_data p). split; [done|]. cbn [r_trace r_retVal read_result].
    split_and!; [by rewrite app_nil_r|done|done|lia|lia|]. right; left.
    split_and!; [by constructor|done|by destruct (Z.eqb_spec (p_data p) 0)]. }
  destruct (readsink_reserve_ok (sinks round) iterCount (Z.min (sp_chunkSize (io_pattern io) * zlen ids) (p_left p)) (Hsinks round))
    as (sink & -> & [-> |[-> Hse]]); [lia|nia|..]; cbn [mbind option_bind].
  2: { rewrite read_stripeset_empty. cbn [mbind option_bind]. rewrite bool_decide_true by done. apply Hstop. eauto. }
  destruct (read_stripeset_spec alloc fhgfsInode io ids Hio base count round (length ids) 0
    _ (Z.min iterCount (Z.min (sp_chunkSize (io_pattern io) * zlen ids) (p_left p))) p Hp
    (or_intror eq_refl)) as (states & p' & -> & Hp' & Htiles & Hreq & Hnil); [unfold zlen in *; lia|].
  cbn [mbind option_bind].
  destruct (bool_decide_reflect (states = [])) as [->|Hne].
  { apply Hstop. exists round. left. destruct (alloc round O) eqn:Ea; [|done].
    destruct Hnil; [unfold zlen in *; lia|lia|nia|done|done]. }
  set (results := (fun s => (s, communicate round s)) <$> states) in *.
  assert (Hfst : results.*1 = states) by apply fmap_results.
  pose proof (tiles_lt _ _ _ _ _ _ Hne Hreq Htiles) as Hprog.
  pose proof Hp' as (_ & _ & Hleft' & Hcur' & Hsum' & _).
  destruct (readfile_verify results 0) as [[bytes err] go] eqn:Ev. destruct go.
  - destruct (readfile_verify_go _ _ _ _ _ Ev eq_refl) as [Hall ->]. cbn [andb].
    change (0 =? 0) with true. cbv iota.
    rewrite (readfile_verify_expected results (p_data p) (p_data p') 0) in Ev by (rewrite ?Hfst; done).
    injection Ev as <-.
    replace (p_data p + (0 + (p_data p' - p_data p))) with (p_data p') by lia.
    set (p2 := MkIOPos _ _ _ _).
    assert (Hp2 : pos_ok base count p2) by (unfold pos_ok, p2; cbn; lia).
    destruct (IH (S round) p2 (iterCount - (0 + (p_data p' - p_data p))) (trace ++ results) Hp2)
      as (res & new & hi & Hres & Htr & Hreq' & Htl' & Hhi & Hout); [cbn; lia|cbn; lia|].
    cbn [p2 p_data] in Hres, Htl', Hhi, Hout.
    exists res, (results ++ new), hi. rewrite fmap_app, Hfst.
    split_and!; [done|by rewrite Htr, app_assoc|by apply Forall_app| |lia|lia|].
    + apply tiles_app. by exists (p_data p').
    + destruct Hout as [(? & ? & ?)|[(? & ? & ?)|(pre & last & mid & bytes & err & -> & ? & ? & ? & ?)]].
      * left. split_and!; [by apply Forall_app|done..].
      * right; left. split_and!; [by apply Forall_app|done..].
      * right; right. exists (results ++ pre), last, mid, bytes, err.
        split_and!; [by rewrite app_assoc|by apply Forall_app| |done..].
        rewrite fmap_app, Hfst. apply tiles_app. by exists (p_data p').
  - cbn [andb]. eexists _, results, (p_data p'). split; [done|]. rewrite Hfst.
    cbn [r_trace r_retVal read_result].
    split_and!; [done..|lia|lia|]. right; right.
    exists [], results, (p_data p), bytes, err. split_and!; [done|by constructor|done|done|].
    by destruct (_ =? 0).
Qed.

(** The caller's buffer is advanced by the bytes returned, not at all on an error. *)
Lemma writefile_rounds_advanced alloc communicate ser ids count fuel : forall round io p trace res,
  writefile_rounds alloc communicate fuel round io ser ids count p trace = Some res ->
  r_advanced res = Z.max 0 (r_retVal res).
Proof.
  assert (Hres : forall io m v tr, r_advanced (write_result io m v tr) = Z.max 0 v).
  { intros. cbn. destruct (Z.ltb_spec 0 v); lia. }
  induction fuel as [|fuel IH]; intros round io p trace res; cbn [writefile_rounds];
    (destruct (p_left p =? 0); [intros [= <-]; apply Hres|try done]).
  destruct (getStripeTargetIndex _ _) as [i|]; cbn [mbind option_bind]; [|done].
  destruct (write_stripeset _ _ _ _ _ _ _ _ _) as [[states p']|]; cbn [mbind option_bind]; [|done].
  destruct (__FhgfsOpsRemoting_writefileVerify _ _ _ _) as [[[[] v] b]|]; cbn [mbind option_bind];
    [apply IH|intros [= <-]; apply Hres|done].
Qed.

(** ** Properties *)

(** C1: for an open file with a valid pattern and any node results, a
    striped write of [count] bytes returns; the requests it sent cover the buffer from
    its start without gap or overlap, each inside of one chunk and addressed to the
    target and local offset of its first byte.  Either every request wrote all its
    bytes, the whole buffer was sent and [count] is returned, or all rounds but the
    last were complete and the value is that of the verification of the last round:
    the error of its first failed request, or the bytes of that round written before a
    short result.  The buffer advances by the value returned, and the bits of written
    targets only grow and belong to targets that got a request.  The allocation of the
    first request of a round cannot fail (a blocking pool allocation). *)
Theorem writefileVec_outcome alloc communicate io ids serializeWrites fuel count offset :
  (forall round, alloc round O = true) -> io_ok io ids ->
  0 <= offset -> 0 <= count -> offset + count < 2 ^ 63 - 2 ^ 32 -> count <= Z.of_nat fuel ->
  exists res hi,
    FhgfsOpsRemoting_writefileVec alloc communicate fuel count offset io serializeWrites = Some res /\
    Forall (request_ok (io_pattern io) ids offset) (r_trace res).*1 /\
    tiles 0 (r_trace res).*1 hi /\ 0 <= hi <= count /\
    write_outcome count hi (r_retVal res) (r_trace res) /\
    r_advanced res = Z.max 0 (r_retVal res) /\
    bits_after (io_firstWriteDone io) (io_firstWriteDone (r_io res)) (r_trace res).
Proof.
  intros Ha Hio Ho Hc Hmax Hfuel. unfold FhgfsOpsRemoting_writefileVec.
  rewrite (io_ids _ _ Hio). cbn [mbind option_bind].
  edestruct (writefile_rounds_spec alloc communicate serializeWrites ids offset count Ha fuel 0 io
    (MkIOPos offset count 0 (io_maxUsedTargetIndex io)) [] Hio)
    as (res & new & hi & Hres & Htr & _ & Hreq & Htl & Hhi & Hout & Hbits); [unfold pos_ok; cbn; lia|done|].
  cbn in Htr. subst new. exists res, hi.
  exact (conj Hres (conj Hreq (conj Htl (conj Hhi (conj Hout
    (conj (writefile_rounds_advanced _ _ _ _ _ _ _ _ _ _ _ Hres) Hbits)))))).
Qed.

(** Five chunks of four bytes on three targets: a write of 13 bytes at position 3. *)
Definition io_example : RemotingIOInfo :=
  MkRemotingIOInfo (MkStripePattern STRIPEPATTERN_Raid0 4 (Some 1) (Raid0Pattern [11; 12; 13] 3))
    (MkBitStore 64 0 None) 0.

Lemma io_example_ok : io_ok io_example [11; 12; 13].
Proof.
  split; [|done|done|]; cbn.
  - split; [by exists 2|done].
  - split; [|done]. exists 0, []. split_and!; [done|done|split; [constructor|done]].
Qed.

Lemma writefileVec_outcome_witness :
  exists res hi,
    FhgfsOpsRemoting_writefileVec (fun _ _ => true) (fun _ s => fo_totalSize s) 13 13 3 io_example false
      = Some res /\
    Forall (request_ok (io_pattern io_example) [11; 12; 13] 3) (r_trace res).*1 /\
    tiles 0 (r_trace res).*1 hi /\ 0 <= hi <= 13 /\
    write_outcome 13 hi (r_retVal res) (r_trace res) /\
    r_advanced res = Z.max 0 (r_retVal res) /\
    bits_after (io_firstWriteDone io_example) (io_firstWriteDone (r_io res)) (r_trace res).
Proof.
  apply (writefileVec_outcome (fun _ _ => true) (fun _ s => fo_totalSize s) io_example [11; 12; 13]);
    [done|exact io_example_ok|lia..].
Defined.

(** C2: a striped read of [toBeRead] bytes into a buffer of at least
    that size returns for every allocation behaviour and all node results; its requests
    fill the buffer from the start without gap or overlap, each inside of one chunk and
    addressed to the target and local offset of its first byte.  It returns
    [toBeRead] when all node results were complete; the bytes read so far (or the
    out-of-memory error when there are none) when the first allocation of a round failed or the
    reservation of its buffer space in a pipe gave nothing;
    else all rounds but the last were complete and the value is the bytes read up to and
    including the first short result, or the error code when no byte was read.  The buffer of
    each round is not a pipe, or a pipe whose reservation gives all the bytes asked for or none;
    with a pipe that has room for a part the read skips data ([short_pipe_sink_skips_data]). *)
Theorem readfileVec_outcome alloc communicate fhgfsInode sinks io ids fuel iterCount toBeRead offset :
  io_ok io ids -> (forall r, sink_ok (sinks r)) -> 0 <= offset -> 0 <= toBeRead <= iterCount ->
  offset + toBeRead < 2 ^ 63 - 2 ^ 32 -> toBeRead <= Z.of_nat fuel ->
  exists res hi,
    FhgfsOpsRemoting_readfileVec alloc communicate fhgfsInode sinks fuel iterCount toBeRead offset io = Some res /\
    Forall (request_ok (io_pattern io) ids offset) (r_trace res).*1 /\
    tiles 0 (r_trace res).*1 hi /\ 0 <= hi <= toBeRead /\
    read_outcome alloc sinks 0 toBeRead hi (r_retVal res) (r_trace res).
Proof.
  intros Hio Hsinks Ho Hc Hmax Hfuel. unfold FhgfsOpsRemoting_readfileVec.
  rewrite (io_ids _ _ Hio). cbn [mbind option_bind].
  edestruct (readfile_rounds_spec alloc communicate fhgfsInode sinks ids offset toBeRead io Hio Hsinks fuel 0
    (MkIOPos offset toBeRead 0 (io_maxUsedTargetIndex io)) iterCount [])
    as (res & new & hi & Hres & Htr & Hreq & Htl & Hhi & Hout); [unfold pos_ok; cbn; lia|cbn; lia|done|].
  cbn in Htr. subst new. by exists res, hi.
Qed.

(** A pipe with 3000 bytes in its first page: everything fits in the first round, and the second round finds no memory. *)
Definition sample_pipe (pagesOk : bool) : PipePages :=
  MkPipePages pagesOk true (fun size => size) (fun size => size / PAGE_SIZE + 2) 3000.
Definition sample_sinks (r : nat) : SinkEnv := Sink_pipe (sample_pipe (r =? 0)%nat).
Lemma sample_pipe_ok b : pipe_ok (sample_pipe b).
Proof.
  split; [done|by right|]. intros size. cbn [sample_pipe pp_start pp_gpr pp_npages].
  pose proof (Z.div_mod size PAGE_SIZE ltac:(done)). pose proof (Z.mod_pos_bound size PAGE_SIZE ltac:(done)). unfold PAGE_SIZE in *. lia.
Qed.
Lemma readfileVec_outcome_witness :
  exists res hi,
    FhgfsOpsRemoting_readfileVec (fun _ _ => true) (fun _ s => fo_totalSize s) (Some 77) sample_sinks 13 20 13 3
      io_example = Some res /\
    Forall (request_ok (io_pattern io_example) [11; 12; 13] 3) (r_trace res).*1 /\
    tiles 0 (r_trace res).*1 hi /\ 0 <= hi <= 13 /\
    read_outcome (fun _ _ => true) sample_sinks 0 13 hi (r_retVal res) (r_trace res).
Proof.
  apply (readfileVec_outcome _ (fun _ s => fo_totalSize s) (Some 77) sample_sinks io_example [11; 12; 13]);
    [exact io_example_ok|intros r; apply sample_pipe_ok|lia..].
Defined.

(** A pipe that has room for two bytes in the first round.  A read of ten bytes at position 0 asks for two bytes of the first
    chunk; the second round goes on at position 4, behind the whole chunk: the bytes at positions 2 and 3 are
    skipped, and the eight bytes that are returned are those of the positions 0, 1 and 4 to 9. *)
Definition short_pipe (r : nat) : SinkEnv :=
  match r with O => Sink_pipe (MkPipePages true true (fun _ => 2) (fun _ => 1) 0) | _ => Sink_plain end.
Example short_pipe_sink_skips_data :
  (fun res => (r_retVal res, (fun x => (fo_index x.1, fo_offset x.1, fo_totalSize x.1, fo_data x.1)) <$> r_trace res)) <$>
    FhgfsOpsRemoting_readfileVec (fun _ _ => true) (fun _ s => fo_totalSize s) None short_pipe 10 10 10 0 io_example =
  Some (8, [(0, 0, 2, 0); (1, 0, 4, 2); (2, 0, 2, 6)]).
Proof. vm_compute. reflexivity. Qed.

(** C4: every byte of a request of a file with a valid pattern goes to the
    target and the local offset that the pattern code computes for the byte's own file
    position; no two file positions are stored at the same place of a target. *)
Theorem request_bytes_placed io ids base s k :
  io_ok io ids -> request_ok (io_pattern io) ids base s -> 0 <= base + fo_data s -> 0 <= k < fo_totalSize s ->
  let pos := base + fo_data s + k in
  pos < 2 ^ 63 ->
  getStripeTargetIndex (io_pattern io) pos = Some (fo_index s) /\
  getStripeTargetID (io_pattern io) pos = Some (fo_targetID s) /\
  __FhgfsOpsRemoting_getChunkOffset pos (sp_chunkSize (io_pattern io)) (zlen ids) (fo_index s)
    = Some (fo_offset s + k) /\
  forall pos', 0 <= pos' < 2 ^ 63 ->
    getStripeTargetIndex (io_pattern io) pos' = Some (fo_index s) ->
    __FhgfsOpsRemoting_getChunkOffset pos' (sp_chunkSize (io_pattern io)) (zlen ids) (fo_index s)
      = Some (fo_offset s + k) -> pos' = pos.
Proof.
  intros Hio Hreq H0 Hk pos Hpos. pose proof Hio as [[Hpat Hbody] Hids Hn _].
  pose proof (io_ok_cs _ _ Hio) as Hcs.
  destruct (request_bytes _ _ _ _ _ (proj1 Hcs) (proj1 Hn) Hreq Hk) as [Hi Ho]. fold pos in Hi, Ho.
  destruct Hpat as (e & He & Ecs).
  assert (Hoff : forall q, 0 <= q < 2 ^ 63 ->
    getStripeTargetIndex (io_pattern io) q = Some (spec_index (sp_chunkSize (io_pattern io)) (zlen ids) q) /\
    getStripeTargetID (io_pattern io) q = ids !! Z.to_nat (spec_index (sp_chunkSize (io_pattern io)) (zlen ids) q) /\
    __FhgfsOpsRemoting_getChunkOffset q (sp_chunkSize (io_pattern io)) (zlen ids)
      (spec_index (sp_chunkSize (io_pattern io)) (zlen ids) q)
      = Some (spec_local (sp_chunkSize (io_pattern io)) (zlen ids) q)).
  { intros q Hq. destruct (pattern_lookup (io_pattern io) ids q) as [-> ->]; [split; [by exists e|done]|done|done|].
    split_and!; [done..|]. rewrite Ecs. apply getChunkOffset_spec; lia. }
  destruct (Hoff pos) as (E1 & E2 & E3); [lia|]. rewrite Hi, ?Ho in *.
  split_and!; [done|by rewrite E2; apply Hreq|done|].
  intros pos' Hpos' E1' E3'. destruct (Hoff pos' Hpos') as (F1 & _ & F3).
  rewrite F1 in E1'. injection E1' as E1'. rewrite E1' in F3. rewrite F3 in E3'. injection E3' as E3'.
  rewrite <- (spec_pos_local (sp_chunkSize (io_pattern io)) (zlen ids) pos') by lia.
  rewrite <- (spec_pos_local (sp_chunkSize (io_pattern io)) (zlen ids) pos) by lia.
  by rewrite E1', E3', Hi, Ho.
Qed.

Definition request_example : FileOpState := MkFileOpState 4 3 12 1 false 1 false.

Lemma request_bytes_placed_witness :
  getStripeTargetIndex (io_pattern io_example) 18 = Some 1 /\
  getStripeTargetID (io_pattern io_example) 18 = Some 12 /\
  __FhgfsOpsRemoting_getChunkOffset 18 4 3 1 = Some 6 /\
  forall pos', 0 <= pos' < 2 ^ 63 -> getStripeTargetIndex (io_pattern io_example) pos' = Some 1 ->
    __FhgfsOpsRemoting_getChunkOffset pos' 4 3 1 = Some 6 -> pos' = 18.
Proof.
  apply (request_bytes_placed io_example [11; 12; 13] 15 request_example 2);
    [exact io_example_ok| |cbn; lia..].
  split_and!; vm_compute; congruence.
Defined.

(** Bits after the optional update of one target's bit. *)
Lemma setBit_if (c : bool) b i :
  bitstore_ok b -> 0 <= i < bs_numBits b ->
  exists b', (if c then BitStore_setBit b i true else Some b) = Some b' /\
    forall j, 0 <= j -> BitStore_getBit b' j =
      if c && (j =? i) then Some true else BitStore_getBit b j.
Proof.
  intros Hb Hi. destruct c; [|by exists b].
  destruct (setBit_spec b i true Hb Hi) as (b' & ? & _ & _ & ?). by exists b'.
Qed.

(** A page vector that fits a stripe set becomes one request to the target
    and local offset of its first page, with the target's first-write bit as it is
    before the call; the value is that of the communication.  Exactly a successful
    write sets the target's bit, every other bit keeps its value, and the pages are
    handed back as failed by this function only when no communication took place.  A
    vector that does not fit is refused without any change. *)
Theorem rwChunkPageVec_spec comm io ids offset numPages msgBufOk rwType :
  io_ok io ids -> 0 <= offset < 2 ^ 63 ->
  let i := spec_index (sp_chunkSize (io_pattern io)) (zlen ids) offset in
  exists retVal failed io',
    FhgfsOpsRemoting_rwChunkPageVec comm offset numPages msgBufOk io rwType = Some (retVal, failed, io') /\
    if RemotingIOInfo_getNumPagesPerStripe io ids <? numPages
    then retVal = - EINVAL /\ failed = true /\ io' = io
    else if negb msgBufOk
    then retVal = - ENOMEM /\ failed = true /\ io_firstWriteDone io' = io_firstWriteDone io
    else exists targetID done,
      getStripeTargetID (io_pattern io) offset = Some targetID /\
      BitStore_getBit (io_firstWriteDone io) i = Some done /\
      retVal = comm (MkFhgfsCommKitVec numPages
        (spec_local (sp_chunkSize (io_pattern io)) (zlen ids) offset) targetID done) rwType /\
      failed = (retVal =? - FhgfsOpsErr_COMMUNICATION) /\
      forall j, 0 <= j -> BitStore_getBit (io_firstWriteDone io') j =
        if (0 <? retVal) && bool_decide (rwType = BEEGFS_RWTYPE_WRITE) && (j =? i)
        then Some true else BitStore_getBit (io_firstWriteDone io) j.
Proof.
  intros Hio Ho i. pose proof Hio as [[Hpat Hbody] Hids Hn [Hbs Hnum]].
  pose proof (io_ok_cs _ _ Hio) as Hcs. destruct Hpat as (e & He & Ecs).
  assert (Hi : 0 <= i < zlen ids) by (apply spec_index_range; lia).
  assert (Hoff : __FhgfsOpsRemoting_getChunkOffset offset (sp_chunkSize (io_pattern io)) (zlen ids) i
    = Some (spec_local (sp_chunkSize (io_pattern io)) (zlen ids) offset)).
  { unfold i. rewrite Ecs. apply getChunkOffset_spec; lia. }
  unfold FhgfsOpsRemoting_rwChunkPageVec. cbv zeta. rewrite Hids. cbn [mbind option_bind].
  destruct (first_index io ids offset Hio Ho) as [-> Hu]. cbn [mbind option_bind]. rewrite Hu. fold i.
  rewrite Hoff. cbn [mbind option_bind].
  destruct (_ <? numPages); [by do 3 eexists|]. destruct msgBufOk; cbn [negb]; [|by do 3 eexists].
  destruct (pattern_lookup (io_pattern io) ids offset) as [_ Hid];
    [split; [by exists e|done]|done|done|]. fold i in Hid.
  destruct (lookup_lt_is_Some_2 ids (Z.to_nat i)) as [t Ht]; [unfold zlen in *; lia|].
  unfold UInt16Vec_at. rewrite Ht in Hid |- *. cbn [mbind option_bind].
  destruct (getBit_total (io_firstWriteDone io) i Hbs) as [v Hv]; [lia|].
  rewrite Hv. cbn [mbind option_bind].
  set (retVal := comm _ _).
  destruct (setBit_if ((0 <? retVal) && bool_decide (rwType = BEEGFS_RWTYPE_WRITE))
    (io_firstWriteDone io) i Hbs) as (b' & -> & Hb'); [lia|]. cbn [mbind option_bind].
  do 3 eexists. split; [done|]. exists t, v. split_and!; [done..| |exact Hb'].
  unfold FhgfsOpsErr_COMMUNICATION.
  destruct (Z.ltb_spec 0 retVal), (Z.eqb_spec retVal (-3)); cbn; lia.
Qed.

Lemma rwChunkPageVec_spec_witness :
  let io := MkRemotingIOInfo (MkStripePattern STRIPEPATTERN_Raid0 8192 (Some 1) (Raid0Pattern [11; 12; 13] 3))
    (MkBitStore 64 0 None) 0 in
  exists retVal failed io',
    FhgfsOpsRemoting_rwChunkPageVec (fun s _ => ckv_numPages s) 28672 1 true io BEEGFS_RWTYPE_WRITE
      = Some (retVal, failed, io') /\
    exists targetID done,
      getStripeTargetID (io_pattern io) 28672 = Some targetID /\
      BitStore_getBit (io_firstWriteDone io) 0 = Some done /\
      retVal = 1 /\ failed = (retVal =? - FhgfsOpsErr_COMMUNICATION) /\
      forall j, 0 <= j -> BitStore_getBit (io_firstWriteDone io') j =
        if (0 <? retVal) && true && (j =? 0) then Some true else BitStore_getBit (io_firstWriteDone io) j.
Proof.
  intros io.
  apply (rwChunkPageVec_spec (fun s _ => ckv_numPages s) io [11; 12; 13] 28672 1 true BEEGFS_RWTYPE_WRITE).
  - split; [split; [by exists 13|done]|done|done|]. split; [|done].
    exists 0, []. split_and!; [done|done|split; [constructor|done]].
  - lia.
Defined.

(** The verification marks a target as written although its only
    request failed: for any error code of the node, the bit of the target is set in the
    result, while the value is the error. *)
Theorem writefileVerify_error_bit io targets state err :
  bitstore_ok (io_firstWriteDone io) -> 0 <= fo_index state < targets ->
  targets <= bs_numBits (io_firstWriteDone io) -> targets < 2 ^ 32 ->
  0 <= fo_totalSize state -> err < 0 ->
  exists bits, __FhgfsOpsRemoting_writefileVerify io [(state, err)] (fo_index state) targets
      = Some (false, err, bits) /\
    BitStore_getBit bits (fo_index state) = Some true.
Proof.
  intros Hb Hi Hn Hn' Hs He. unfold __FhgfsOpsRemoting_writefileVerify. cbn [writefileVerify_loop].
  destruct (Z.leb_spec err (fo_totalSize state)); [|lia].
  rewrite Z.add_0_r, (u32_small (fo_index state)), (Z.mod_small (fo_index state)) by lia.
  destruct (setBit_spec (io_firstWriteDone io) (fo_index state) true Hb) as (b' & -> & _ & _ & Hget); [lia|].
  cbn [mbind option_bind]. destruct (Z.eqb_spec (fo_totalSize state) err); [lia|].
  destruct (Z.leb_spec 0 err); [lia|]. exists b'. by rewrite Hget, Z.eqb_refl by lia.
Qed.

Lemma writefileVerify_error_bit_witness :
  exists bits, __FhgfsOpsRemoting_writefileVerify io_example [(request_example, - FhgfsOpsErr_COMMUNICATION)] 1 3
      = Some (false, - FhgfsOpsErr_COMMUNICATION, bits) /\
    BitStore_getBit bits 1 = Some true.
Proof.
  apply (writefileVerify_error_bit io_example 3 request_example); [apply (io_bits _ _ io_example_ok)|cbn; lia|cbn; lia|lia|cbn; lia|reflexivity].
Defined.
