(* ===== verification/BuddyGroup.v ===== *)
(** * Mirror buddy groups: sequence numbers of mirrored requests

    Models [client_module/source/common/nodes/MirrorBuddyGroup.c].  Requests to a
    buddy group carry increasing sequence numbers; numbers in flight are kept in a
    binary heap whose elements have back links to the callers' handles, finished
    numbers in a ring buffer from which acknowledgements are taken.  Every
    operation runs under the group's mutex, so operations are atomic steps.

    A caller's [struct BuddySequenceNumber*] variable is identified by a number;
    [Handles] is the store of these variables (an index into the array; a missing
    entry is NULL). *)

From stdpp Require Import relations.
From S2P Require Import Prelude StorageErrors.

Record BuddySequenceNumber := MkBuddySequenceNumber {
  bsn_pSelf : nat;
  bsn_value : Z (* uint64_t *)
}.

Abbreviation Handles := (gmap nat nat).

(** [bg_seqNoInFlight] is the used part of the array: its length is
    [inFlightSize]. *)
Record MirrorBuddyGroup := MkMirrorBuddyGroup {
  bg_groupID : Z;
  bg_firstTargetID : Z;
  bg_secondTargetID : Z;
  bg_sequence : Z;
  bg_slotsAvail : Z;
  bg_seqNoInFlight : list BuddySequenceNumber;
  bg_inFlightCapacity : Z;
  bg_finishedSeqNums : list Z;
  bg_firstFinishedIndex : Z;
  bg_finishedCount : Z;
  bg_refs : Z
}.


(** [allocOk]: all three allocations succeed. *)
Definition MirrorBuddyGroup_constructFromTargetIDs (allocOk : bool) (garbage : nat -> Z)
    (groupID doneBufferSize firstTargetID secondTargetID : Z) : option MirrorBuddyGroup :=
  if negb allocOk || (doneBufferSize =? 0) then None
  else Some (MkMirrorBuddyGroup groupID firstTargetID secondTargetID 0 doneBufferSize []
               doneBufferSize (kmalloc_blocks garbage doneBufferSize) 0 0 1).

Section updates.
Context (this : MirrorBuddyGroup).
Definition set_slots_refs (slots refs : Z) : MirrorBuddyGroup :=
  MkMirrorBuddyGroup (bg_groupID this) (bg_firstTargetID this) (bg_secondTargetID this)
    (bg_sequence this) slots (bg_seqNoInFlight this) (bg_inFlightCapacity this)
    (bg_finishedSeqNums this) (bg_firstFinishedIndex this) (bg_finishedCount this) refs.
Definition set_sequence (sequence : Z) : MirrorBuddyGroup :=
  MkMirrorBuddyGroup (bg_groupID this) (bg_firstTargetID this) (bg_secondTargetID this)
    sequence (bg_slotsAvail this) (bg_seqNoInFlight this) (bg_inFlightCapacity this)
    (bg_finishedSeqNums this) (bg_firstFinishedIndex this) (bg_finishedCount this) (bg_refs this).
Definition set_inFlight (l : list BuddySequenceNumber) : MirrorBuddyGroup :=
  MkMirrorBuddyGroup (bg_groupID this) (bg_firstTargetID this) (bg_secondTargetID this)
    (bg_sequence this) (bg_slotsAvail this) l (bg_inFlightCapacity this)
    (bg_finishedSeqNums this) (bg_firstFinishedIndex this) (bg_finishedCount this) (bg_refs this).
Definition set_finished (l : list Z) (first count : Z) : MirrorBuddyGroup :=
  MkMirrorBuddyGroup (bg_groupID this) (bg_firstTargetID this) (bg_secondTargetID this)
    (bg_sequence this) (bg_slotsAvail this) (bg_seqNoInFlight this) (bg_inFlightCapacity this)
    l first count (bg_refs this).
End updates.

(** ** Acquire *)

(** What a successful acquire hands out. *)
Record SeqGrant := MkSeqGrant {
  sg_seqNo : Z;
  sg_acknowledgeSeq : Z;
  sg_isSelective : bool
}.

(** Acknowledgement: the oldest finished number, or everything before the root of
    the heap; [None] is a read behind an array. *)
Definition take_acknowledge (this : MirrorBuddyGroup) : option (MirrorBuddyGroup * Z * bool) :=
  if 0 <? bg_finishedCount this then
    acknowledgeSeq ← bg_finishedSeqNums this !! Z.to_nat (bg_firstFinishedIndex this);
    Some (set_finished this (bg_finishedSeqNums this)
            (u32 (bg_firstFinishedIndex this + 1) mod bg_inFlightCapacity this)
            (bg_finishedCount this - 1),
          acknowledgeSeq, true)
  else
    root ← bg_seqNoInFlight this !! O;
    Some (this, u64 (bsn_value root - 1), false).

(** Result code, group, handles and the grant.  Without a free slot the call returns
    EAGAIN, or, when it may wait, EINTR (the only way to return in that state). *)
Definition MirrorBuddyGroup_acquireSequenceNumber (this : MirrorBuddyGroup) (hs : Handles)
    (handle : nat) (allowWait : bool) :
    option (Z * MirrorBuddyGroup * Handles * option SeqGrant) :=
  if bg_slotsAvail this <=? 0 then
    Some ((if allowWait then EINTR else EAGAIN), this, hs, None)
  else if bg_sequence this =? 0 then Some (ENOENT, this, delete handle hs, None)
  else
    let this := set_slots_refs this (bg_slotsAvail this - 1) (bg_refs this + 1) in
    let seqNo := u64 (bg_sequence this + 1) in
    let this := set_sequence this seqNo in
    let inFlightSize := length (bg_seqNoInFlight this) in
    (* the array has inFlightCapacity elements *)
    if bg_inFlightCapacity this <=? Z.of_nat inFlightSize then None
    else
      let this := set_inFlight this
        (bg_seqNoInFlight this ++ [MkBuddySequenceNumber handle seqNo]) in
      let hs := <[handle := inFlightSize]> hs in
      '(this, acknowledgeSeq, isSelective) ← take_acknowledge this;
      Some (0, this, hs, Some (MkSeqGrant seqNo acknowledgeSeq isSelective)).

(** ** Release *)

(** [swap(arr[i], arr[j])], then the back links of both elements. *)
Definition swap_elems (l : list BuddySequenceNumber) (hs : Handles) (i j : nat) :
    option (list BuddySequenceNumber * Handles) :=
  a ← l !! i;
  b ← l !! j;
  Some (<[j := a]> (<[i := b]> l), <[bsn_pSelf a := j]> (<[bsn_pSelf b := i]> hs)).

(** Moves the element at [index] to the root; [fuel] bounds the iterations. *)
Fixpoint sift_to_root (fuel : nat) (l : list BuddySequenceNumber) (hs : Handles) (index : nat) :
    option (list BuddySequenceNumber * Handles) :=
  match index with
  | O => Some (l, hs)
  | _ =>
      match fuel with
      | O => None
      | S fuel' =>
          let parentIndex := (index / 2)%nat in
          '(l, hs) ← swap_elems l hs index parentIndex;
          sift_to_root fuel' l hs parentIndex
      end
  end.

Definition value_at (l : list BuddySequenceNumber) (i : nat) : Z :=
  default 0 (bsn_value <$> l !! i).

(** Child with the smaller value, or [i] itself. *)
Definition min_node (l : list BuddySequenceNumber) (i : nat) : nat :=
  let leftChild := (2 * i + 1)%nat in
  let rightChild := (2 * i + 2)%nat in
  let minNode :=
    if (leftChild <? length l)%nat && (value_at l leftChild <? value_at l i)
    then leftChild else i in
  if (rightChild <? length l)%nat && (value_at l rightChild <? value_at l minNode)
  then rightChild else minNode.

Fixpoint sift_down (fuel : nat) (l : list BuddySequenceNumber) (hs : Handles) (i : nat) :
    option (list BuddySequenceNumber * Handles) :=
  let minNode := min_node l i in
  if decide (minNode = i) then Some (l, hs)
  else match fuel with
       | O => None
       | S fuel' =>
           '(l, hs) ← swap_elems l hs i minNode;
           sift_down fuel' l hs minNode
       end.

(** Adds a number to the ring; the oldest entry is dropped when the ring is full. *)
Definition push_finished (this : MirrorBuddyGroup) (value : Z) : option MirrorBuddyGroup :=
  let '(first, count, nextFinishedIndex) :=
    if bg_finishedCount this <? bg_inFlightCapacity this
    then (bg_firstFinishedIndex this, bg_finishedCount this + 1,
          u32 (bg_firstFinishedIndex this + (bg_finishedCount this + 1) - 1)
            mod bg_inFlightCapacity this)
    else let first := u32 (bg_firstFinishedIndex this + 1) mod bg_inFlightCapacity this in
         (first, bg_finishedCount this, first) in
  if zlen (bg_finishedSeqNums this) <=? nextFinishedIndex then None
  else Some (set_finished this (<[Z.to_nat nextFinishedIndex := value]> (bg_finishedSeqNums this))
               first count).

(** Root out: the last element takes its place, the root leaves the array. *)
Definition remove_root (l : list BuddySequenceNumber) (hs : Handles) :
    option (list BuddySequenceNumber * Handles) :=
  let inFlightSize := (length l - 1)%nat in
  '(l, hs) ← swap_elems l hs O inFlightSize;
  let l := take inFlightSize l in
  sift_down (length l) l hs O.

Definition MirrorBuddyGroup_releaseSequenceNumber (this : MirrorBuddyGroup) (hs : Handles)
    (handle : nat) : option (MirrorBuddyGroup * Handles) :=
  slot ← hs !! handle;
  elem ← bg_seqNoInFlight this !! slot;
  this ← push_finished this (bsn_value elem);
  '(l, hs) ← sift_to_root slot (bg_seqNoInFlight this) hs slot;
  '(l, hs) ← remove_root l hs;
  let this := set_inFlight this l in
  Some (set_slots_refs this (bg_slotsAvail this + 1) (bg_refs this - 1), hs).

Definition MirrorBuddyGroup_setSeqNoBase (this : MirrorBuddyGroup) (seqNoBase : Z) :
    MirrorBuddyGroup :=
  if bg_sequence this <? seqNoBase then set_sequence this seqNoBase else this.

(** ** Executions: one group with its callers' handles

    A caller acquires with a fresh variable and releases what it acquired; its
    variable goes out of scope afterwards.  Sequence numbers stay below [2 ^ 64]. *)

Inductive group_step : MirrorBuddyGroup * Handles -> MirrorBuddyGroup * Handles -> Prop :=
| step_acquire g hs handle allowWait res g' hs' grant :
    hs !! handle = None -> bg_sequence g < 2 ^ 64 - 1 ->
    MirrorBuddyGroup_acquireSequenceNumber g hs handle allowWait = Some (res, g', hs', grant) ->
    group_step (g, hs) (g', hs')
| step_release g hs handle slot g' hs' :
    hs !! handle = Some slot ->
    MirrorBuddyGroup_releaseSequenceNumber g hs handle = Some (g', hs') ->
    group_step (g, hs) (g', delete handle hs')
| step_setSeqNoBase g hs base :
    0 <= base < 2 ^ 64 -> group_step (g, hs) (MirrorBuddyGroup_setSeqNoBase g base, hs).

(** States reachable from the construction of the group. *)
Definition group_reachable (doneBufferSize : Z) (s : MirrorBuddyGroup * Handles) : Prop :=
  exists garbage id t1 t2 g0,
    MirrorBuddyGroup_constructFromTargetIDs true garbage id doneBufferSize t1 t2 = Some g0 /\
    rtc group_step (g0, ∅) s.

(** Executable operations, for concrete runs. *)
Inductive group_op := Acquire (handle : nat) | Release (handle : nat) | SetSeqNoBase (base : Z).

Definition run_op (s : MirrorBuddyGroup * Handles) (op : group_op) :
    option (MirrorBuddyGroup * Handles) :=
  let '(g, hs) := s in
  match op with
  | Acquire handle =>
      if bool_decide (hs !! handle = None) && (bg_sequence g <? 2 ^ 64 - 1) then
        '(_, g', hs', _) ← MirrorBuddyGroup_acquireSequenceNumber g hs handle false;
        Some (g', hs')
      else None
  | Release handle =>
      if bool_decide (is_Some (hs !! handle)) then
        '(g', hs') ← MirrorBuddyGroup_releaseSequenceNumber g hs handle;
        Some (g', delete handle hs')
      else None
  | SetSeqNoBase base =>
      if (0 <=? base) && (base <? 2 ^ 64) then Some (MirrorBuddyGroup_setSeqNoBase g base, hs)
      else None
  end.

Fixpoint run_ops (s : MirrorBuddyGroup * Handles) (ops : list group_op) :
    option (MirrorBuddyGroup * Handles) :=
  match ops with
  | [] => Some s
  | op :: ops' => s' ← run_op s op; run_ops s' ops'
  end.
