(* ===== verification/BuddyGroupFacts.v ===== *)
(** * Mirror buddy groups: invariant, queue refinement, heap order

    The back links always point to the elements of their handles, slots and
    references are conserved, the ring buffer is a FIFO queue that never
    overflows, and releases remove exactly the released number.  The heap order,
    on which cumulative acknowledgements rely, is preserved by acquires and by
    releases of the root. *)

From stdpp Require Import relations.
From S2P Require Import Prelude StorageErrors BuddyGroup.

(** ** Back links *)

Definition pSelfs (l : list BuddySequenceNumber) : list nat := bsn_pSelf <$> l.
Definition seqNos (l : list BuddySequenceNumber) : list Z := bsn_value <$> l.

(** A handle variable holds the position of its element. *)
Definition linked (l : list BuddySequenceNumber) (hs : Handles) : Prop :=
  forall h i, hs !! h = Some i <-> pSelfs l !! i = Some h.

Lemma pSelfs_lookup l i a : l !! i = Some a -> pSelfs l !! i = Some (bsn_pSelf a).
Proof. intros H. unfold pSelfs. by rewrite list_lookup_fmap, H. Qed.

Lemma linked_inj l hs i j h :
  linked l hs -> pSelfs l !! i = Some h -> pSelfs l !! j = Some h -> i = j.
Proof. intros Hl Hi%Hl Hj%Hl. congruence. Qed.

Definition swapped (l : list BuddySequenceNumber) (i j : nat) (a b : BuddySequenceNumber) :=
  <[j := a]> (<[i := b]> l).

Lemma lookup_swapped l i j a b k :
  l !! i = Some a -> l !! j = Some b ->
  swapped l i j a b !! k = if decide (k = j) then Some a else if decide (k = i) then Some b else l !! k.
Proof.
  intros Hi Hj. unfold swapped. pose proof (lookup_lt_Some _ _ _ Hi). pose proof (lookup_lt_Some _ _ _ Hj).
  destruct (decide (k = j)) as [->|].
  { rewrite list_lookup_insert_eq; [done|]. by rewrite length_insert. }
  rewrite list_lookup_insert_ne by done. destruct (decide (k = i)) as [->|].
  - by rewrite list_lookup_insert_eq.
  - by rewrite list_lookup_insert_ne.
Qed.

Lemma swapped_perm l i j a b : l !! i = Some a -> l !! j = Some b -> swapped l i j a b ≡ₚ l.
Proof.
  intros Hi Hj. destruct (decide (i = j)) as [->|Hne].
  { simplify_eq. unfold swapped. rewrite list_insert_insert_eq, list_insert_id; done. }
  unfold swapped. apply Permutation_inj. pose proof (lookup_lt_Some _ _ _ Hi).
  pose proof (lookup_lt_Some _ _ _ Hj). split; [by rewrite !length_insert|].
  exists (fun k => if decide (k = j) then i else if decide (k = i) then j else k). split.
  - intros x y ?. repeat case_decide; subst; congruence.
  - intros k. fold (swapped l i j a b). rewrite lookup_swapped by done. by repeat case_decide.
Qed.

Lemma swap_elems_linked l hs i j :
  linked l hs -> (i < length l)%nat -> (j < length l)%nat ->
  exists a b hs', swap_elems l hs i j = Some (swapped l i j a b, hs') /\
    l !! i = Some a /\ l !! j = Some b /\ linked (swapped l i j a b) hs'.
Proof.
  intros Hl Hi Hj. destruct (lookup_lt_is_Some_2 _ _ Hi) as [a Ha].
  destruct (lookup_lt_is_Some_2 _ _ Hj) as [b Hb].
  unfold swap_elems. rewrite Ha, Hb. cbn [mbind option_bind]. eexists a, b, _. split_and!; [done..|].
  intros h k. unfold pSelfs. rewrite list_lookup_fmap, lookup_swapped by done.
  pose proof (pSelfs_lookup _ _ _ Ha) as Pa. pose proof (pSelfs_lookup _ _ _ Hb) as Pb.
  destruct (decide (k = j)) as [->|Hkj]; [|destruct (decide (k = i)) as [->|Hki]].
  - cbn [fmap option_fmap option_map]. destruct (decide (h = bsn_pSelf a)) as [->|Hh]; [by rewrite lookup_insert_eq|].
    rewrite lookup_insert_ne by done. split; [|intros [= E]; congruence].
    destruct (decide (h = bsn_pSelf b)) as [->|Hh'].
    + rewrite lookup_insert_eq. intros [= ->]. congruence.
    + rewrite lookup_insert_ne by done. intros Hx%Hl. congruence.
  - cbn [fmap option_fmap option_map]. destruct (decide (h = bsn_pSelf a)) as [->|Hh].
    + rewrite lookup_insert_eq. split; [by intros [= ->]|]. intros [= E]. rewrite <- E in Pa.
      destruct Hkj. by eapply linked_inj.
    + rewrite lookup_insert_ne by done. destruct (decide (h = bsn_pSelf b)) as [->|Hh'].
      * by rewrite lookup_insert_eq.
      * rewrite lookup_insert_ne by done. split; [intros Hx%Hl; congruence|congruence].
  - change (bsn_pSelf <$> l !! k) with (bsn_pSelf <$> l !! k).
    rewrite <- list_lookup_fmap. fold (pSelfs l).
    destruct (decide (h = bsn_pSelf a)) as [->|Hh].
    + rewrite lookup_insert_eq. split; [by intros [= ->]|]. intros Hx.
      destruct Hki. by eapply linked_inj.
    + rewrite lookup_insert_ne by done. destruct (decide (h = bsn_pSelf b)) as [->|Hh'].
      * rewrite lookup_insert_eq. split; [by intros [= ->]|]. intros Hx.
        destruct Hkj. by eapply linked_inj.
      * rewrite lookup_insert_ne by done. apply Hl.
Qed.

Lemma sift_to_root_spec fuel : forall l hs index,
  linked l hs -> (index < length l)%nat -> (index <= fuel)%nat ->
  exists l' hs', sift_to_root fuel l hs index = Some (l', hs') /\
    linked l' hs' /\ l' ≡ₚ l /\ l' !! O = l !! index /\ (index = O -> l' = l /\ hs' = hs).
Proof.
  induction fuel as [|fuel IH]; intros l hs [|index] Hl Hlt Hf; try lia; cbn [sift_to_root].
  1, 2: exists l, hs; done.
  set (parent := (S index / 2)%nat).
  assert (Hp : (parent < S index)%nat) by (apply Nat.div_lt; lia).
  destruct (swap_elems_linked l hs (S index) parent Hl) as (a & b & hs1 & -> & Ha & Hb & Hl1); [done|lia|].
  cbn [mbind option_bind].
  destruct (IH (swapped l (S index) parent a b) hs1 parent Hl1) as (l' & hs' & -> & Hl' & Hp' & H0 & _).
  - unfold swapped. rewrite !length_insert. lia.
  - lia.
  - exists l', hs'. split_and!; [done..| | |done].
    + by rewrite Hp', swapped_perm.
    + rewrite H0, lookup_swapped by done. by rewrite decide_True.
Qed.

(** ** Restoring the heap below a node *)

Lemma min_node_cases l i :
  let m := min_node l i in
  (m = i /\ ((2 * i + 1 < length l)%nat -> value_at l i <= value_at l (2 * i + 1)) /\
            ((2 * i + 2 < length l)%nat -> value_at l i <= value_at l (2 * i + 2))) \/
  ((m = 2 * i + 1 \/ m = 2 * i + 2)%nat /\ (m < length l)%nat /\ value_at l m < value_at l i /\
   forall c, (c = 2 * i + 1 \/ c = 2 * i + 2)%nat -> (c < length l)%nat -> value_at l m <= value_at l c).
Proof.
  cbv zeta. unfold min_node.
  destruct (Nat.ltb_spec (2 * i + 1) (length l)), (Z.ltb_spec (value_at l (2 * i + 1)) (value_at l i)),
    (Nat.ltb_spec (2 * i + 2) (length l)); cbn [andb];
    try match goal with |- context [?x <? ?y] => destruct (Z.ltb_spec x y) end;
    first [ left; split; [done|]; split; intros; lia
          | right; split; [lia|]; split; [lia|]; split; [lia|]; intros c [->| ->] ?; lia ].
Qed.

Lemma sift_down_spec fuel : forall l hs i,
  linked l hs -> (i < length l)%nat -> (length l <= fuel + i + 1)%nat ->
  exists l' hs', sift_down fuel l hs i = Some (l', hs') /\ linked l' hs' /\ l' ≡ₚ l.
Proof.
  induction fuel as [|fuel IH]; intros l hs i Hl Hi Hf; cbn [sift_down];
    (destruct (decide (min_node l i = i)) as [E|E]; [by exists l, hs|]);
    destruct (min_node_cases l i) as [(? & _)|(Hm & Hlt & _)]; try done; [lia|].
  destruct (swap_elems_linked l hs i (min_node l i) Hl Hi Hlt) as (a & b & hs1 & -> & Ha & Hb & Hl1).
  cbn [mbind option_bind].
  destruct (IH (swapped l i (min_node l i) a b) hs1 (min_node l i) Hl1) as (l' & hs' & -> & Hl' & Hp).
  - unfold swapped. by rewrite !length_insert.
  - unfold swapped. rewrite !length_insert. lia.
  - exists l', hs'. split_and!; [done..|]. by rewrite Hp, swapped_perm.
Qed.

(** The back link of an element that left the array plays no role. *)
Lemma swap_elems_delete l hs h i j l' hs' :
  h ∉ pSelfs l -> swap_elems l hs i j = Some (l', hs') ->
  swap_elems l (delete h hs) i j = Some (l', delete h hs') /\ h ∉ pSelfs l'.
Proof.
  intros Hh. unfold swap_elems.
  destruct (l !! i) as [a|] eqn:Ha; [|done]. destruct (l !! j) as [b|] eqn:Hb; [|done].
  cbn [mbind option_bind]. intros [= <- <-].
  pose proof (list_elem_of_lookup_2 _ _ _ (pSelfs_lookup _ _ _ Ha)).
  pose proof (list_elem_of_lookup_2 _ _ _ (pSelfs_lookup _ _ _ Hb)). split.
  - rewrite !delete_insert_ne by congruence. done.
  - fold (swapped l i j a b). intros Hin. apply Hh. unfold pSelfs in *.
    by rewrite <- (fmap_Permutation bsn_pSelf _ _ (swapped_perm l i j a b Ha Hb)).
Qed.

Lemma sift_down_delete fuel : forall l hs h i l' hs',
  h ∉ pSelfs l -> sift_down fuel l hs i = Some (l', hs') ->
  sift_down fuel l (delete h hs) i = Some (l', delete h hs').
Proof.
  induction fuel as [|fuel IH]; intros l hs h i l' hs' Hh; cbn [sift_down];
    (destruct (decide (min_node l i = i)); [by intros [= <- <-]|]); [done|].
  destruct (swap_elems l hs i (min_node l i)) as [[l1 hs1]|] eqn:E; [|done].
  destruct (swap_elems_delete _ _ _ _ _ _ _ Hh E) as [-> ?]. cbn [mbind option_bind]. by apply IH.
Qed.

Lemma sift_down_any fuel : forall l hs hs' i r,
  sift_down fuel l hs i = Some r -> is_Some (sift_down fuel l hs' i).
Proof.
  induction fuel as [|fuel IH]; intros l hs hs' i r; cbn [sift_down];
    (destruct (decide (min_node l i = i)); [by eauto|]); [done|]. unfold swap_elems.
  destruct (l !! i); [|done]. destruct (l !! min_node l i); [|done]. cbn [mbind option_bind].
  apply IH.
Qed.

Lemma linked_take l hs a n :
  linked l hs -> length l = S n -> l !! n = Some a -> linked (take n l) (delete (bsn_pSelf a) hs).
Proof.
  intros Hl Hlen Ha h i. unfold pSelfs. rewrite fmap_take. fold (pSelfs l).
  pose proof (pSelfs_lookup _ _ _ Ha) as Pa.
  destruct (decide (i < n)%nat) as [Hi|Hi].
  - rewrite lookup_take_lt by done. destruct (decide (h = bsn_pSelf a)) as [->|Hne].
    + rewrite lookup_delete_eq. split; [done|]. intros Hx.
      pose proof (linked_inj _ _ _ _ _ Hl Hx Pa). lia.
    + rewrite lookup_delete_ne by done. apply Hl.
  - rewrite lookup_take_ge by lia. split; [|done].
    destruct (decide (h = bsn_pSelf a)) as [->|Hne]; [by rewrite lookup_delete_eq|].
    rewrite lookup_delete_ne by done. intros Hx%Hl. pose proof (lookup_lt_Some _ _ _ Hx) as Hlt.
    unfold pSelfs in Hlt. rewrite length_fmap in Hlt. assert (i = n) as -> by lia. congruence.
Qed.

Lemma remove_root_spec l hs root :
  linked l hs -> l !! O = Some root ->
  exists l' hs', remove_root l hs = Some (l', hs') /\
    linked l' (delete (bsn_pSelf root) hs') /\ root :: l' ≡ₚ l.
Proof.
  intros Hl H0. pose proof (lookup_lt_Some _ _ _ H0) as Hpos. unfold remove_root.
  set (n := (length l - 1)%nat).
  destruct (swap_elems_linked l hs 0 n Hl) as (a & b & hs1 & -> & Ha & Hb & Hl1); [done|lia|].
  assert (a = root) as -> by congruence. cbn [mbind option_bind].
  set (l1 := swapped l 0 n root b) in *.
  assert (Hlen1 : length l1 = S n) by (unfold l1, swapped; rewrite !length_insert; lia).
  assert (Hroot : l1 !! n = Some root) by (unfold l1; rewrite lookup_swapped by done; by rewrite decide_True).
  assert (Hsplit : l1 = take n l1 ++ [root]).
  { rewrite <- (take_S_r _ _ _ Hroot). rewrite take_ge by lia. done. }
  assert (Hperm : root :: take n l1 ≡ₚ l).
  { rewrite Permutation_cons_append, <- Hsplit. unfold l1. by apply swapped_perm. }
  pose proof (linked_take l1 hs1 root n Hl1 Hlen1 Hroot) as Hl2.
  assert (Hnotin : bsn_pSelf root ∉ pSelfs (take n l1)).
  { intros [i Hi]%list_elem_of_lookup. apply Hl2 in Hi. by rewrite lookup_delete_eq in Hi. }
  destruct (decide (n = 0)%nat) as [E|E].
  - rewrite E. cbn [take sift_down length]. exists [], hs1.
    split; [by destruct l1 as [|? []]|]. rewrite E in *. done.
  - assert (Hlt : length (take n l1) = n) by (rewrite length_take; lia).
    destruct (sift_down_spec (length (take n l1)) (take n l1) _ 0 Hl2) as (l' & hs' & Hs & Hl' & Hp); [lia|lia|].
    (* the same run on the handles with the stale entry *)
    destruct (sift_down_any _ _ _ hs1 _ _ Hs) as [[l'' hs2] Hs2].
    pose proof (sift_down_delete _ _ _ _ _ _ _ Hnotin Hs2) as Hs3.
    rewrite Hs in Hs3. injection Hs3 as -> ->. exists l'', hs2. split_and!; [done..|]. by rewrite Hp.
Qed.

(** ** Heap order *)

Definition parent (k : nat) : nat := ((k - 1) / 2)%nat.

Definition heap (l : list BuddySequenceNumber) : Prop :=
  forall k, (0 < k < length l)%nat -> value_at l (parent k) <= value_at l k.

(** Heap order except between [i] and its children. *)
Definition heap_except (l : list BuddySequenceNumber) (i : nat) : Prop :=
  (forall k, (0 < k < length l)%nat -> parent k <> i -> value_at l (parent k) <= value_at l k) /\
  (forall k, (0 < k < length l)%nat -> parent k = i -> (0 < i)%nat -> value_at l (parent i) <= value_at l k).

Lemma parent_child k i : (0 < k)%nat -> parent k = i <-> (k = 2 * i + 1 \/ k = 2 * i + 2)%nat.
Proof.
  intros Hk. unfold parent. split.
  - intros <-. pose proof (Nat.div_mod (k - 1) 2). pose proof (Nat.mod_upper_bound (k - 1) 2). lia.
  - intros [->| ->]; symmetry; [apply Nat.div_unique with 0%nat|apply Nat.div_unique with 1%nat]; lia.
Qed.

Lemma parent_lt k : (0 < k)%nat -> (parent k < k)%nat.
Proof. intros Hk. destruct (proj1 (parent_child k (parent k) Hk) eq_refl); lia. Qed.

(** The root is the minimum. *)
Lemma heap_root l k : heap l -> (k < length l)%nat -> value_at l 0 <= value_at l k.
Proof.
  intros Hh. induction k as [k IH] using lt_wf_ind. intros Hk.
  destruct (decide (k = 0)%nat) as [->|Hne]; [lia|].
  pose proof (parent_lt k ltac:(lia)). pose proof (Hh k ltac:(lia)). pose proof (IH (parent k)). lia.
Qed.

Lemma value_at_swapped l i j a b k :
  l !! i = Some a -> l !! j = Some b ->
  value_at (swapped l i j a b) k =
    if decide (k = j) then value_at l i else if decide (k = i) then value_at l j else value_at l k.
Proof.
  intros Hi Hj. unfold value_at. rewrite lookup_swapped by done. repeat case_decide; by rewrite ?Hi, ?Hj.
Qed.

Lemma heap_except_swap l i m a b :
  heap_except l i -> l !! i = Some a -> l !! m = Some b -> (0 < m)%nat -> parent m = i ->
  value_at l m < value_at l i ->
  (forall c, (0 < c < length l)%nat -> parent c = i -> value_at l m <= value_at l c) ->
  heap_except (swapped l i m a b) m.
Proof.
  intros [H1 H2] Ha Hb Hm0 Hpm Hlt Hmin. pose proof (lookup_lt_Some _ _ _ Hb) as Hm.
  pose proof (lookup_lt_Some _ _ _ Ha) as Hi.
  assert (Hlen : length (swapped l i m a b) = length l) by (unfold swapped; by rewrite !length_insert).
  pose proof (parent_lt m Hm0) as Him.
  split; intros k; rewrite Hlen; intros Hk.
  - intros Hne. rewrite !value_at_swapped by done. rewrite (decide_False (P := parent k = m)) by done.
    pose proof (parent_lt k ltac:(lia)).
    destruct (decide (parent k = i)) as [Epi|Epi].
    + destruct (decide (k = m)) as [->|Hkm]; [lia|].
      rewrite decide_False by lia. apply Hmin; [done|done].
    + destruct (decide (k = m)) as [->|Hkm]; [done|]. destruct (decide (k = i)) as [->|Hki].
      * apply H2; [lia|done|lia].
      * by apply H1.
  - intros Hpk _. rewrite !value_at_swapped by done.
    pose proof (parent_lt k ltac:(lia)).
    rewrite Hpm. rewrite (decide_False (P := i = m)), (decide_True (P := i = i)) by lia.
    rewrite !decide_False by lia. rewrite <- Hpk. apply H1; [done|lia].
Qed.

Lemma sift_down_heap fuel : forall l hs i l' hs',
  heap_except l i -> (i < length l)%nat -> sift_down fuel l hs i = Some (l', hs') -> heap l'.
Proof.
  induction fuel as [|fuel IH]; intros l hs i l' hs' Hh Hi; cbn [sift_down];
    (destruct (decide (min_node l i = i)) as [E|E];
     [intros [= <- <-]|try done]).
  1, 2: intros k Hk; destruct (decide (parent k = i)) as [Hp|Hp]; [|by apply Hh];
    destruct (min_node_cases l i) as [(_ & Hl & Hr)|(? & ? & ? & _)]; [|lia];
    rewrite Hp; apply (parent_child k i) in Hp as [->| ->]; lia.
  destruct (min_node_cases l i) as [(? & _)|(Hm & Hlt & Hv & Hmin)]; [done|].
  destruct (lookup_lt_is_Some_2 _ _ Hi) as [a Ha]. destruct (lookup_lt_is_Some_2 _ _ Hlt) as [b Hb].
  unfold swap_elems. rewrite Ha, Hb. cbn [mbind option_bind]. fold (swapped l i (min_node l i) a b).
  apply IH.
  - apply heap_except_swap; [done..|lia|by apply parent_child; lia|done|].
    intros c Hc Hpc. apply Hmin; [|lia]. apply parent_child; [lia|done].
  - unfold swapped. by rewrite !length_insert.
Qed.

(** Removing the root of a heap leaves a heap. *)
Lemma remove_root_heap l hs l' hs' : heap l -> remove_root l hs = Some (l', hs') -> heap l'.
Proof.
  intros Hh. unfold remove_root. destruct (swap_elems l hs 0 (length l - 1)) as [[l1 hs1]|] eqn:E; [|done].
  unfold swap_elems in E. destruct (l !! O) as [a|] eqn:Ha; [|done].
  destruct (l !! (length l - 1)%nat) as [b|] eqn:Hb; [|done]. cbn [mbind option_bind] in E.
  injection E as <- <-. fold (swapped l 0 (length l - 1) a b). cbn [mbind option_bind].
  set (n := (length l - 1)%nat) in *. pose proof (lookup_lt_Some _ _ _ Ha).
  assert (Hlen : length (take n (swapped l 0 n a b)) = n).
  { unfold swapped. rewrite length_take, !length_insert. lia. }
  destruct (decide (n = 0)%nat) as [En|En].
  - intros Hs k Hk. enough (length l' = 0)%nat by lia.
    rewrite Hlen in Hs. destruct (take n (swapped l 0 n a b)); [|cbn in Hlen; lia].
    rewrite En in Hs. cbn in Hs. by injection Hs as <- <-.
  - apply sift_down_heap; [|lia].
    assert (Hv : forall k, (0 < k < n)%nat -> value_at (take n (swapped l 0 n a b)) k = value_at l k).
    { intros k Hk. unfold value_at. rewrite lookup_take_lt by lia. rewrite lookup_swapped by done.
      by rewrite !decide_False by lia. }
    split; [|lia]. intros k Hk Hp. rewrite Hlen in Hk. pose proof (parent_lt k ltac:(lia)).
    rewrite !Hv by lia. apply Hh. lia.
Qed.

Lemma value_at_app_l l x k : (k < length l)%nat -> value_at (l ++ [x]) k = value_at l k.
Proof. intros. unfold value_at. by rewrite lookup_app_l. Qed.

(** Appending a number that is not smaller keeps the heap. *)
Lemma heap_append l x :
  heap l -> Forall (fun v => v <= bsn_value x) (seqNos l) -> heap (l ++ [x]).
Proof.
  intros Hh Hf k Hk. rewrite length_app in Hk. cbn in Hk. pose proof (parent_lt k ltac:(lia)).
  rewrite value_at_app_l by lia. destruct (decide (k < length l)%nat).
  - rewrite value_at_app_l by lia. apply Hh. lia.
  - assert (k = length l) as -> by lia. 
    replace (value_at (l ++ [x]) (length l)) with (bsn_value x)
      by (unfold value_at; rewrite lookup_app_r, Nat.sub_diag by lia; done).
    destruct (lookup_lt_is_Some_2 l (parent (length l))) as [y Hy]; [lia|].
    unfold value_at. rewrite Hy. cbn [fmap option_fmap option_map default]. eapply (Forall_lookup_1 _ _ (parent (length l))) in Hf; [done|].
    unfold seqNos. by rewrite list_lookup_fmap, Hy.
Qed.

(** ** The ring of finished numbers is a queue *)

Definition finished_queue (g : MirrorBuddyGroup) : list Z :=
  (fun k => default 0 (bg_finishedSeqNums g !!
     Z.to_nat ((bg_firstFinishedIndex g + Z.of_nat k) mod bg_inFlightCapacity g)))
  <$> seq 0 (Z.to_nat (bg_finishedCount g)).

Record ring_ok (g : MirrorBuddyGroup) : Prop := {
  ring_cap : 0 < bg_inFlightCapacity g < 2 ^ 31;
  ring_len : zlen (bg_finishedSeqNums g) = bg_inFlightCapacity g;
  ring_first : 0 <= bg_firstFinishedIndex g < bg_inFlightCapacity g;
  ring_count : 0 <= bg_finishedCount g <= bg_inFlightCapacity g
}.

Lemma push_finished_spec g v :
  ring_ok g -> bg_finishedCount g < bg_inFlightCapacity g ->
  exists l, push_finished g v = Some (set_finished g l (bg_firstFinishedIndex g) (bg_finishedCount g + 1)) /\
    zlen l = bg_inFlightCapacity g /\
    finished_queue (set_finished g l (bg_firstFinishedIndex g) (bg_finishedCount g + 1))
      = finished_queue g ++ [v].
Proof.
  intros [Hcap Hlen Hfirst Hcount] Hlt. unfold push_finished.
  rewrite (proj2 (Z.ltb_lt (bg_finishedCount g) _)) by done.
  set (cap := bg_inFlightCapacity g) in *. set (first := bg_firstFinishedIndex g) in *.
  set (count := bg_finishedCount g) in *. rewrite u32_small by lia.
  replace (first + (count + 1) - 1) with (first + count) by lia.
  pose proof (Z.mod_pos_bound (first + count) cap ltac:(lia)).
  rewrite (proj2 (Z.leb_gt _ _)) by lia. eexists. split; [done|].
  split; [unfold zlen in *; by rewrite length_insert|].
  unfold finished_queue. cbn [set_finished bg_finishedSeqNums bg_firstFinishedIndex
    bg_finishedCount bg_inFlightCapacity]. fold cap first count.
  replace (Z.to_nat (count + 1)) with (Z.to_nat count + 1)%nat by lia.
  rewrite seq_app, fmap_app. f_equal.
  - apply list_fmap_ext. intros i k [-> Hk]%lookup_seq. rewrite Nat.add_0_l.
    rewrite list_lookup_insert_ne; [done|]. intros E.
    assert (Hne : (first + count) mod cap <> (first + Z.of_nat i) mod cap).
    { intros Eq. assert (cap | (first + count) - (first + Z.of_nat i)) as [q Hq].
      { apply Z.mod_divide; [lia|]. rewrite Zminus_mod, Eq, Z.sub_diag. done. }
      assert (0 < count - Z.of_nat i < cap) by lia.
      assert (count - Z.of_nat i = q * cap) by lia. destruct (decide (q <= 0)); nia. }
    pose proof (Z.mod_pos_bound (first + Z.of_nat i) cap ltac:(lia)). lia.
  - cbn. rewrite Z2Nat.id by lia. rewrite list_lookup_insert_eq by (unfold zlen in *; lia). done.
Qed.

Lemma take_acknowledge_spec g :
  ring_ok g -> bg_seqNoInFlight g <> [] ->
  exists g' ack sel, take_acknowledge g = Some (g', ack, sel) /\
    ring_ok g' /\
    match finished_queue g with
    | v :: q => ack = v /\ sel = true /\ finished_queue g' = q /\
                bg_finishedCount g' = bg_finishedCount g - 1 /\
                exists first', g' = set_finished g (bg_finishedSeqNums g) first' (bg_finishedCount g')
    | [] => g' = g /\ sel = false /\ ack = u64 (value_at (bg_seqNoInFlight g) 0 - 1)
    end.
Proof.
  intros Hring Hne. pose proof Hring as [Hcap Hlen Hfirst Hcount]. unfold take_acknowledge.
  destruct (Z.ltb_spec 0 (bg_finishedCount g)) as [Hpos|Hz].
  - destruct (lookup_lt_is_Some_2 (bg_finishedSeqNums g) (Z.to_nat (bg_firstFinishedIndex g))) as [v Hv];
      [unfold zlen in *; lia|].
    rewrite Hv. cbn [mbind option_bind]. eexists _, _, _. split; [done|].
    rewrite u32_small by lia. pose proof (Z.mod_pos_bound (bg_firstFinishedIndex g + 1) (bg_inFlightCapacity g) ltac:(lia)).
    split; [by split; cbn; [|..|lia]|].
    unfold finished_queue at 1. replace (Z.to_nat (bg_finishedCount g)) with (S (Z.to_nat (bg_finishedCount g - 1))) by lia.
    cbn [seq fmap list_fmap]. rewrite Z.add_0_r, Z.mod_small by done. rewrite Hv.
    split_and!; [done..| |done|by eexists].
    unfold finished_queue. cbn [set_finished bg_finishedSeqNums bg_firstFinishedIndex
      bg_finishedCount bg_inFlightCapacity].
    rewrite <- fmap_S_seq, <- list_fmap_compose. apply list_fmap_ext. intros i k _. cbn [compose].
    do 3 f_equal. rewrite Zplus_mod_idemp_l. f_equal. lia.
  - assert (bg_finishedCount g = 0) as E by lia.
    destruct (bg_seqNoInFlight g) as [|root l] eqn:El; [done|]. cbn [lookup list_lookup mbind option_bind].
    eexists _, _, _. split; [done|]. split; [done|]. unfold finished_queue. rewrite E. cbn. done.
Qed.

(** ** Invariant of a group and its handles *)

Definition in_seq (g : MirrorBuddyGroup) (v : Z) : Prop := 0 < v <= bg_sequence g.

Record group_ok (g : MirrorBuddyGroup) (hs : Handles) : Prop := {
  go_ring : ring_ok g;
  go_slots : bg_slotsAvail g = bg_inFlightCapacity g - zlen (bg_seqNoInFlight g);
  go_refs : bg_refs g = 1 + zlen (bg_seqNoInFlight g);
  go_total : bg_finishedCount g + zlen (bg_seqNoInFlight g) <= bg_inFlightCapacity g;
  go_links : linked (bg_seqNoInFlight g) hs;
  go_seq : in_u 64 (bg_sequence g);
  go_known : Forall (in_seq g) (seqNos (bg_seqNoInFlight g) ++ finished_queue g);
  go_nodup : NoDup (seqNos (bg_seqNoInFlight g) ++ finished_queue g)
}.

Lemma construct_ok garbage id cap t1 t2 g :
  0 < cap < 2 ^ 31 -> MirrorBuddyGroup_constructFromTargetIDs true garbage id cap t1 t2 = Some g ->
  group_ok g ∅.
Proof.
  intros Hcap. unfold MirrorBuddyGroup_constructFromTargetIDs.
  rewrite (proj2 (Z.eqb_neq _ _)) by lia. intros [= <-].
  destruct (kmalloc_blocks_ok garbage cap) as [Hlen _]; [lia|].
  split; cbn [bg_slotsAvail bg_refs bg_seqNoInFlight bg_inFlightCapacity bg_finishedCount bg_sequence];
    unfold zlen; cbn [length].
  - split; cbn; (done || lia).
  - lia.
  - lia.
  - lia.
  - intros h i. by rewrite lookup_empty.
  - unfold in_u. lia.
  - by constructor.
  - by constructor.
Qed.

Lemma linked_append l hs h v :
  linked l hs -> hs !! h = None ->
  linked (l ++ [MkBuddySequenceNumber h v]) (<[h := length l]> hs).
Proof.
  intros Hl Hh k i. unfold pSelfs. rewrite fmap_app. fold (pSelfs l). cbn [fmap list_fmap bsn_pSelf].
  assert (Hlen : length (pSelfs l) = length l) by (unfold pSelfs; by rewrite length_fmap).
  destruct (decide (i < length l)%nat).
  - rewrite lookup_app_l by lia. destruct (decide (k = h)) as [->|].
    + rewrite lookup_insert_eq. split; [intros [= E]; lia|]. intros Hx%Hl. congruence.
    + rewrite lookup_insert_ne by done. apply Hl.
  - rewrite lookup_app_r by lia. destruct (decide (k = h)) as [->|].
    + rewrite lookup_insert_eq. split.
      { intros [= E]. by replace (i - length (pSelfs l))%nat with 0%nat by lia. }
      intros Hx. pose proof (lookup_lt_Some _ _ _ Hx) as Hlt. cbn in Hlt. f_equal. lia.
    + rewrite lookup_insert_ne by done. split.
      * intros Hx%Hl%lookup_lt_Some. lia.
      * intros Hx. pose proof (lookup_lt_Some _ _ _ Hx) as Hlt. cbn in Hlt.
        replace (i - length (pSelfs l))%nat with 0%nat in Hx by lia. by injection Hx as ->.
Qed.

Lemma Forall_in_seq_mono g g' l : bg_sequence g <= bg_sequence g' -> Forall (in_seq g) l -> Forall (in_seq g') l.
Proof. intros Hle. apply Forall_impl. unfold in_seq. intros v. lia. Qed.

Lemma fresh_not_elem g l v : Forall (in_seq g) l -> bg_sequence g < v -> v ∉ l.
Proof.
  intros Hf Hv Hin. eapply Forall_forall in Hf; [|by apply list_elem_of_In]. unfold in_seq in Hf. lia.
Qed.

(** A grant: the next number, with the oldest finished number acknowledged
    selectively, or all numbers before the root of the heap. *)
Definition grant_ok (g g' : MirrorBuddyGroup) (gr : SeqGrant) : Prop :=
  sg_seqNo gr = bg_sequence g + 1 /\ bg_sequence g' = sg_seqNo gr /\
  seqNos (bg_seqNoInFlight g') = seqNos (bg_seqNoInFlight g) ++ [sg_seqNo gr] /\
  match finished_queue g with
  | v :: q => sg_acknowledgeSeq gr = v /\ sg_isSelective gr = true /\ finished_queue g' = q
  | [] => sg_isSelective gr = false /\ finished_queue g' = [] /\
          sg_acknowledgeSeq gr = value_at (bg_seqNoInFlight g') 0 - 1
  end.

Lemma acquire_spec g hs h wait :
  group_ok g hs -> hs !! h = None -> bg_sequence g < 2 ^ 64 - 1 ->
  exists res g' hs' grant,
    MirrorBuddyGroup_acquireSequenceNumber g hs h wait = Some (res, g', hs', grant) /\
    group_ok g' hs' /\
    match grant with
    | None => g' = g /\ hs' = hs /\
        res = (if bg_slotsAvail g <=? 0 then if wait then EINTR else EAGAIN else ENOENT) /\
        (bg_slotsAvail g <= 0 \/ bg_sequence g = 0)
    | Some gr => res = 0 /\ 0 < bg_slotsAvail g /\ bg_sequence g <> 0 /\ grant_ok g g' gr /\
        hs' !! h = Some (length (bg_seqNoInFlight g))
    end.
Proof.
  intros Hok Hh Hmax. pose proof Hok as [Hring Hslots Hrefs Htotal Hlinks [Hs0 Hs1] Hknown Hnodup].
  unfold MirrorBuddyGroup_acquireSequenceNumber.
  destruct (Z.leb_spec (bg_slotsAvail g) 0) as [Hz|Hpos].
  { eexists _, g, hs, None. split; [done|]. split; [done|]. split_and!; [done..|by left]. }
  destruct (Z.eqb_spec (bg_sequence g) 0) as [E|E].
  { exists ENOENT, g, (delete h hs), None. rewrite delete_id by done. split_and!; [done..|by right]. }
  cbn [set_sequence set_slots_refs bg_sequence bg_seqNoInFlight bg_inFlightCapacity].
  rewrite u64_small by lia. rewrite (proj2 (Z.leb_gt _ _)) by (unfold zlen in *; lia). cbv zeta.
  set (x := MkBuddySequenceNumber h (bg_sequence g + 1)). set (g1 := set_inFlight _ _).
  set (l1 := bg_seqNoInFlight g ++ [x]).
  assert (Hl1 : bg_seqNoInFlight g1 = l1) by done.
  assert (Hq1 : finished_queue g1 = finished_queue g) by done.
  assert (Hz1 : zlen l1 = zlen (bg_seqNoInFlight g) + 1) by (unfold l1; zlia).
  assert (Hseq1 : seqNos l1 = seqNos (bg_seqNoInFlight g) ++ [bg_sequence g + 1])
    by (unfold l1, seqNos; by rewrite fmap_app).
  assert (Hring1 : ring_ok g1) by (destruct Hring; by split).
  destruct (take_acknowledge_spec g1 Hring1) as (g' & ack & sel & -> & Hring' & Hcase).
  { rewrite Hl1. unfold l1. by destruct (bg_seqNoInFlight g). }
  cbn [mbind option_bind]. rewrite Hq1 in Hcase. rewrite Hl1 in Hcase.
  assert (Hfresh : bg_sequence g + 1 ∉ seqNos (bg_seqNoInFlight g) ++ finished_queue g)
    by (eapply fresh_not_elem; [done|lia]).
  assert (Hall1 : Forall (in_seq g1) (seqNos l1 ++ finished_queue g)).
  { apply Forall_app in Hknown as [Hk1 Hk2]. rewrite Hseq1.
    apply Forall_app; split; [apply Forall_app; split|].
    - eapply Forall_in_seq_mono; [|done]. cbn. lia.
    - constructor; [|done]. unfold in_seq, g1. cbn. lia.
    - eapply Forall_in_seq_mono; [|done]. cbn. lia. }
  assert (Hnd1 : NoDup (seqNos l1 ++ finished_queue g)).
  { rewrite Hseq1, <- app_assoc. cbn. rewrite <- Permutation_middle. by constructor. }
  exists 0, g', (<[h := length (bg_seqNoInFlight g)]> hs), (Some (MkSeqGrant (bg_sequence g + 1) ack sel)).
  split; [done|]. unfold grant_ok. cbn [sg_seqNo sg_acknowledgeSeq sg_isSelective].
  destruct (finished_queue g) as [|v q] eqn:Eq.
  - destruct Hcase as (-> & -> & ->). split.
    + split; cbn [g1 set_inFlight set_sequence set_slots_refs bg_slotsAvail bg_refs bg_seqNoInFlight
        bg_inFlightCapacity bg_finishedCount bg_sequence]; fold l1; rewrite ?Hz1; try lia; try done.
      * unfold finished_queue in Eq. apply (f_equal length) in Eq. rewrite length_fmap, length_seq in Eq.
        cbn in Eq. pose proof (ring_count g Hring). lia.
      * by apply linked_append.
      * unfold in_u. lia.
      * replace (finished_queue _) with (@nil Z) by (symmetry; exact Eq). done.
      * replace (finished_queue _) with (@nil Z) by (symmetry; exact Eq). done.
    + split_and!; [done..| |apply lookup_insert_eq]. rewrite Hl1. apply u64_small.
      enough (0 < value_at l1 0 <= bg_sequence g + 1) by lia.
      assert (exists y, l1 !! O = Some y) as [y Hy] by (unfold l1; destruct (bg_seqNoInFlight g); by eexists).
      unfold value_at. rewrite Hy. cbn [fmap option_fmap option_map default].
      apply Forall_app in Hall1 as [Hall1 _]. eapply (Forall_lookup_1 _ _ O) in Hall1; [exact Hall1|].
      unfold seqNos. by rewrite list_lookup_fmap, Hy.
  - destruct Hcase as (-> & -> & Hq' & Hcnt & first' & Hg'). split.
    + rewrite Hg'. split; cbn [g1 set_finished set_inFlight set_sequence set_slots_refs bg_slotsAvail bg_refs
        bg_seqNoInFlight bg_inFlightCapacity bg_finishedCount bg_sequence]; fold l1; rewrite ?Hz1; try lia; try done.
      * by rewrite <- Hg'.
      * rewrite Hcnt. cbn. lia.
      * by apply linked_append.
      * unfold in_u. lia.
      * fold l1. rewrite <- Hg', Hq'. apply Forall_app in Hall1 as [Ha [_ Hb]%Forall_cons_iff].
        rewrite Hg'. by apply Forall_app.
      * fold l1. rewrite <- Hg', Hq'. rewrite <- Permutation_middle in Hnd1. by inversion Hnd1.
    + rewrite Hg'. cbn [g1 set_finished set_inFlight set_sequence set_slots_refs bg_seqNoInFlight bg_sequence].
      rewrite <- Hg'. fold l1. split_and!; try done. apply lookup_insert_eq.
Qed.

(** Releasing a handle removes its number from the heap and queues it for
    acknowledgement; a release of the root keeps the heap order. *)
Lemma release_spec g hs h slot :
  group_ok g hs -> hs !! h = Some slot ->
  exists elem g' hs',
    MirrorBuddyGroup_releaseSequenceNumber g hs h = Some (g', hs') /\
    bg_seqNoInFlight g !! slot = Some elem /\ bsn_pSelf elem = h /\
    group_ok g' (delete h hs') /\ elem :: bg_seqNoInFlight g' ≡ₚ bg_seqNoInFlight g /\
    finished_queue g' = finished_queue g ++ [bsn_value elem] /\
    bg_sequence g' = bg_sequence g /\
    (slot = O -> heap (bg_seqNoInFlight g) -> heap (bg_seqNoInFlight g')).
Proof.
  intros Hok Hh. pose proof Hok as [Hring Hslots Hrefs Htotal Hlinks Hseq Hknown Hnodup].
  pose proof (proj1 (Hlinks h slot) Hh) as Hp. unfold pSelfs in Hp. rewrite list_lookup_fmap in Hp.
  destruct (bg_seqNoInFlight g !! slot) as [elem|] eqn:He; [|done]. cbn in Hp. injection Hp as Hp.
  pose proof (lookup_lt_Some _ _ _ He) as Hslot.
  destruct (push_finished_spec g (bsn_value elem) Hring) as (ring & Hpush & Hrl & Hq); [unfold zlen in *; lia|].
  unfold MirrorBuddyGroup_releaseSequenceNumber. rewrite Hh. cbn [mbind option_bind]. rewrite He.
  cbn [mbind option_bind]. rewrite Hpush. cbn [mbind option_bind].
  set (g1 := set_finished g ring _ _) in *.
  destruct (sift_to_root_spec slot (bg_seqNoInFlight g1) hs slot Hlinks Hslot ltac:(lia))
    as (l1 & hs1 & -> & Hl1 & Hperm1 & Hroot & Hid). cbn [mbind option_bind].
  change (bg_seqNoInFlight g1) with (bg_seqNoInFlight g) in *. rewrite He in Hroot.
  destruct (remove_root_spec l1 hs1 elem Hl1 Hroot) as (l2 & hs2 & Hrem & Hl2 & Hperm2).
  rewrite Hrem. cbn [mbind option_bind].
  assert (Hperm : elem :: l2 ≡ₚ bg_seqNoInFlight g) by (by rewrite Hperm2).
  assert (Hlen : zlen (bg_seqNoInFlight g) = 1 + zlen l2).
  { unfold zlen. rewrite <- Hperm. cbn [length]. lia. }
  assert (Hvals : seqNos l2 ++ (finished_queue g ++ [bsn_value elem])
    ≡ₚ seqNos (bg_seqNoInFlight g) ++ finished_queue g).
  { unfold seqNos. rewrite <- (fmap_Permutation bsn_value _ _ Hperm). cbn.
    by rewrite app_assoc, <- Permutation_cons_append. }
  eexists elem, _, hs2. split; [done|].
  assert (Hq2 : finished_queue (set_slots_refs (set_inFlight g1 l2)
    (bg_slotsAvail (set_inFlight g1 l2) + 1) (bg_refs (set_inFlight g1 l2) - 1))
    = finished_queue g ++ [bsn_value elem]) by exact Hq.
  split_and!; [done..| |done|done|done|].
  2: { intros -> Hheap. destruct (Hid eq_refl) as [-> ->]. cbn. by eapply remove_root_heap. }
  rewrite Hp in Hl2.
  split; rewrite ?Hq2; cbn [g1 set_finished set_inFlight set_slots_refs bg_slotsAvail bg_refs bg_seqNoInFlight
    bg_inFlightCapacity bg_finishedCount bg_sequence]; try lia; try done.
  - pose proof (zlen_nonneg l2). destruct Hring. split; cbn; (done || lia).
  - by rewrite Hvals.
  - by rewrite Hvals.
Qed.

Lemma setSeqNoBase_spec g hs base :
  group_ok g hs -> 0 <= base < 2 ^ 64 ->
  group_ok (MirrorBuddyGroup_setSeqNoBase g base) hs /\
  bg_sequence (MirrorBuddyGroup_setSeqNoBase g base) = Z.max (bg_sequence g) base.
Proof.
  intros Hok Hb. pose proof Hok as [Hring Hslots Hrefs Htotal Hlinks Hseq Hknown Hnodup].
  unfold MirrorBuddyGroup_setSeqNoBase. destruct (Z.ltb_spec (bg_sequence g) base); [|split; [done|lia]].
  split; [|cbn; lia]. split; try done.
  - by destruct Hring.
  - eapply Forall_in_seq_mono; [|exact Hknown]. cbn. lia.
Qed.

(** The invariant holds in every reachable state (rule induction on the steps). *)
Lemma group_step_ok g hs g' hs' : group_ok g hs -> group_step (g, hs) (g', hs') -> group_ok g' hs'.
Proof.
  intros Hok Hstep. inversion Hstep; subst.
  - destruct (acquire_spec g hs handle allowWait Hok) as (? & ? & ? & ? & E & Hok' & _); [done..|].
    by simplify_eq.
  - destruct (release_spec g hs handle slot Hok) as (? & ? & ? & E & _ & _ & Hok' & _); [done|].
    by simplify_eq.
  - by apply setSeqNoBase_spec.
Qed.

Lemma reachable_ok cap s : 0 < cap < 2 ^ 31 -> group_reachable cap s -> group_ok s.1 s.2.
Proof.
  intros Hcap (garbage & id & t1 & t2 & g0 & Hc & Hsteps).
  assert (Hinit : group_ok (g0, ∅ : Handles).1 (g0, ∅ : Handles).2) by (by eapply construct_ok).
  revert Hinit. clear Hc. induction Hsteps as [|[g hs] [g1 hs1] s2 Hstep _ IH]; [done|].
  intros Hok. apply IH. by eapply group_step_ok.
Qed.

(** ** Concrete runs are executions *)

Lemma run_op_step s op s' : run_op s op = Some s' -> group_step s s'.
Proof.
  destruct s as [g hs], op as [h|h|base]; cbn [run_op].
  - destruct (bool_decide_reflect (hs !! h = None)); [|done].
    destruct (Z.ltb_spec (bg_sequence g) (2 ^ 64 - 1)); [|done]. cbn [andb].
    destruct (MirrorBuddyGroup_acquireSequenceNumber g hs h false) as [[[[? ?] ?] ?]|] eqn:E; [|done].
    intros [= <-]. by eapply step_acquire.
  - destruct (bool_decide_reflect (is_Some (hs !! h))) as [[slot ?]|]; [|done].
    destruct (MirrorBuddyGroup_releaseSequenceNumber g hs h) as [[? ?]|] eqn:E; [|done].
    intros [= <-]. by eapply step_release.
  - destruct (Z.leb_spec 0 base); [|done]. destruct (Z.ltb_spec base (2 ^ 64)); [|done].
    intros [= <-]. by apply step_setSeqNoBase.
Qed.

Lemma run_ops_steps ops : forall s s', run_ops s ops = Some s' -> rtc group_step s s'.
Proof.
  induction ops as [|op ops IH]; intros s s'; cbn [run_ops]; [by intros [= <-]|].
  destruct (run_op s op) as [s1|] eqn:E; [|done]. cbn [mbind option_bind]. intros H.
  eapply rtc_l; [by eapply run_op_step|by apply IH].
Qed.

(** ** Properties *)

(** C5: in every state that a group reaches by any sequence of acquires,
    releases and base updates, free slots and numbers in flight add up to the capacity,
    every number in flight holds a reference, the ring of finished numbers never
    overflows, each handle points to the array element that points back to it, and the
    numbers in flight and the finished ones are distinct and were handed out before. *)
Theorem sequenceNumbers_invariant cap g hs :
  0 < cap < 2 ^ 31 -> group_reachable cap (g, hs) ->
  group_ok g hs.
Proof. exact (reachable_ok cap (g, hs)). Qed.

(** Concrete executions. *)
Definition group0 (cap : Z) : MirrorBuddyGroup :=
  MkMirrorBuddyGroup 1 11 12 0 cap [] cap (kmalloc_blocks (fun _ => 0) cap) 0 0 1.

Lemma run_ops_reachable cap ops s :
  0 < cap -> run_ops (group0 cap, ∅) ops = Some s -> group_reachable cap s.
Proof.
  intros Hc H. exists (fun _ => 0), 1, 11, 12, (group0 cap). split; [|by eapply run_ops_steps].
  unfold MirrorBuddyGroup_constructFromTargetIDs, group0. cbn [negb orb].
  by destruct (Z.eqb_spec cap 0); [lia|].
Qed.

Definition state_after (cap : Z) (ops : list group_op) : MirrorBuddyGroup * Handles :=
  default (group0 cap, ∅) (run_ops (group0 cap, ∅) ops).

Lemma state_after_reachable cap ops :
  0 < cap -> (if run_ops (group0 cap, ∅) ops is Some _ then true else false) = true ->
  group_reachable cap ((state_after cap ops).1, (state_after cap ops).2).
Proof.
  intros Hc Hs. rewrite <- surjective_pairing. unfold state_after.
  destruct (run_ops (group0 cap, ∅) ops) as [s|] eqn:E; [|done]. by eapply run_ops_reachable.
Qed.

Definition ops_example : list group_op := [SetSeqNoBase 5; Acquire 0; Acquire 1; Acquire 2; Release 1].

Lemma sequenceNumbers_invariant_witness :
  group_ok (state_after 4 ops_example).1 (state_after 4 ops_example).2.
Proof.
  apply (sequenceNumbers_invariant 4); [lia|].
  apply state_after_reachable; [lia|vm_compute; reflexivity].
Defined.

(** C6: an acquire in a reachable state succeeds exactly when a slot is free and the
    group has a sequence base.  It then hands out the next number, puts it in flight and
    acknowledges the oldest finished number selectively, a number that is no longer in
    flight; without finished numbers it acknowledges all numbers up to the predecessor of
    the heap's root.  Otherwise the group is unchanged and the result tells why. *)
Theorem acquire_grants cap g hs h wait :
  0 < cap < 2 ^ 31 -> group_reachable cap (g, hs) -> hs !! h = None -> bg_sequence g < 2 ^ 64 - 1 ->
  exists res g' hs' grant,
    MirrorBuddyGroup_acquireSequenceNumber g hs h wait = Some (res, g', hs', grant) /\
    match grant with
    | None => g' = g /\ hs' = hs /\
        res = (if bg_slotsAvail g <=? 0 then if wait then EINTR else EAGAIN else ENOENT) /\
        (bg_slotsAvail g <= 0 \/ bg_sequence g = 0)
    | Some gr => res = 0 /\ 0 < bg_slotsAvail g /\ bg_sequence g <> 0 /\ grant_ok g g' gr /\
        hs' !! h = Some (length (bg_seqNoInFlight g)) /\
        (sg_isSelective gr = true -> sg_acknowledgeSeq gr ∉ seqNos (bg_seqNoInFlight g'))
    end.
Proof.
  intros Hcap Hr Hh Hseq. pose proof (reachable_ok cap (g, hs) Hcap Hr) as Hok. cbn in Hok.
  destruct (acquire_spec g hs h wait Hok Hh Hseq) as (res & g' & hs' & grant & Heq & Hok' & Hm).
  exists res, g', hs', grant. split; [exact Heq|]. destruct grant as [gr|]; [|exact Hm].
  destruct Hm as (-> & Hs & Hq & Hg & Hl). refine (conj eq_refl (conj Hs (conj Hq (conj Hg (conj Hl _))))).
  intros Hsel. destruct Hg as (E1 & E2 & E3 & E4). rewrite E3.
  pose proof (go_nodup _ _ Hok) as Hnd. pose proof (go_known _ _ Hok) as Hk.
  destruct (finished_queue g) as [|v q]; [destruct E4; congruence|]. destruct E4 as (-> & _ & _).
  assert (Hv : in_seq g v) by (apply (Forall_inv (P := in_seq g) (l := q)); by apply Forall_app in Hk as [_ ?]).
  apply list.NoDup_app in Hnd as (_ & Hdisj & _). rewrite elem_of_app. intros [Hin|Hin].
  - apply (Hdisj v Hin). by left.
  - apply list_elem_of_singleton in Hin. unfold in_seq in Hv. lia.
Qed.

Lemma acquire_grants_witness :
  let g := (state_after 4 ops_example).1 in let hs := (state_after 4 ops_example).2 in
  exists res g' hs' grant,
    MirrorBuddyGroup_acquireSequenceNumber g hs 7 true = Some (res, g', hs', grant) /\
    match grant with
    | None => g' = g /\ hs' = hs /\ res = (if bg_slotsAvail g <=? 0 then EINTR else ENOENT) /\
        (bg_slotsAvail g <= 0 \/ bg_sequence g = 0)
    | Some gr => res = 0 /\ 0 < bg_slotsAvail g /\ bg_sequence g <> 0 /\ grant_ok g g' gr /\
        hs' !! 7%nat = Some (length (bg_seqNoInFlight g)) /\
        (sg_isSelective gr = true -> sg_acknowledgeSeq gr ∉ seqNos (bg_seqNoInFlight g'))
    end.
Proof.
  intros g hs. apply (acquire_grants 4 g hs 7 true); [lia| |by vm_compute|by vm_compute].
  apply state_after_reachable; [lia|vm_compute; reflexivity].
Defined.

Lemma push_finished_capacity g v g' :
  push_finished g v = Some g' -> bg_inFlightCapacity g' = bg_inFlightCapacity g.
Proof.
  unfold push_finished. destruct (bg_finishedCount g <? _); cbv zeta; destruct (_ <=? _); try done;
    by intros [= <-].
Qed.

Lemma release_capacity g hs h g' hs' :
  MirrorBuddyGroup_releaseSequenceNumber g hs h = Some (g', hs') ->
  bg_inFlightCapacity g' = bg_inFlightCapacity g.
Proof.
  unfold MirrorBuddyGroup_releaseSequenceNumber. intros H.
  apply bind_Some in H as (slot & _ & H). apply bind_Some in H as (elem & _ & H).
  apply bind_Some in H as (g1 & Hp & H). apply bind_Some in H as ([l1 hs1] & _ & H).
  apply bind_Some in H as ([l2 hs2] & _ & H). injection H as <- <-.
  cbn. by eapply push_finished_capacity.
Qed.

(** A release in a reachable state takes exactly the number of its handle out of
    flight, queues it as the last number to acknowledge, frees the slot and drops the
    reference; every other handle still points to its own number. *)
Theorem release_queues cap g hs h slot :
  0 < cap < 2 ^ 31 -> group_reachable cap (g, hs) -> hs !! h = Some slot ->
  exists elem g' hs',
    MirrorBuddyGroup_releaseSequenceNumber g hs h = Some (g', hs') /\
    bg_seqNoInFlight g !! slot = Some elem /\ bsn_pSelf elem = h /\
    elem :: bg_seqNoInFlight g' ≡ₚ bg_seqNoInFlight g /\
    finished_queue g' = finished_queue g ++ [bsn_value elem] /\
    bg_sequence g' = bg_sequence g /\
    bg_slotsAvail g' = bg_slotsAvail g + 1 /\ bg_refs g' = bg_refs g - 1 /\
    linked (bg_seqNoInFlight g') (delete h hs').
Proof.
  intros Hcap Hr Hh. pose proof (reachable_ok cap (g, hs) Hcap Hr) as Hok. cbn in Hok.
  destruct (release_spec g hs h slot Hok Hh)
    as (elem & g' & hs' & Heq & He & Hp & Hok' & Hperm & Hq & Hs & _).
  exists elem, g', hs'.
  assert (Hlen : zlen (bg_seqNoInFlight g) = 1 + zlen (bg_seqNoInFlight g')).
  { unfold zlen. apply Permutation_length in Hperm. cbn in Hperm. lia. }
  assert (Hcap' : bg_inFlightCapacity g' = bg_inFlightCapacity g).
  { by eapply release_capacity. }
  pose proof (go_slots _ _ Hok). pose proof (go_slots _ _ Hok').
  pose proof (go_refs _ _ Hok). pose proof (go_refs _ _ Hok').
  split_and!; try done; try lia; apply (go_links _ _ Hok').
Qed.

Lemma release_queues_witness :
  let g := (state_after 4 ops_example).1 in let hs := (state_after 4 ops_example).2 in
  exists elem g' hs',
    MirrorBuddyGroup_releaseSequenceNumber g hs 2 = Some (g', hs') /\
    bg_seqNoInFlight g !! 1%nat = Some elem /\ bsn_pSelf elem = 2%nat /\
    elem :: bg_seqNoInFlight g' ≡ₚ bg_seqNoInFlight g /\
    finished_queue g' = finished_queue g ++ [bsn_value elem] /\
    bg_sequence g' = bg_sequence g /\
    bg_slotsAvail g' = bg_slotsAvail g + 1 /\ bg_refs g' = bg_refs g - 1 /\
    linked (bg_seqNoInFlight g') (delete 2%nat hs').
Proof.
  intros g hs. apply (release_queues 4 g hs 2 1); [lia| |by vm_compute].
  apply state_after_reachable; [lia|vm_compute; reflexivity].
Defined.

(** Executions in which every release is of the root of the heap, the lowest number in
    flight. *)
Inductive root_step : MirrorBuddyGroup * Handles -> MirrorBuddyGroup * Handles -> Prop :=
| root_acquire g hs handle allowWait res g' hs' grant :
    hs !! handle = None -> bg_sequence g < 2 ^ 64 - 1 ->
    MirrorBuddyGroup_acquireSequenceNumber g hs handle allowWait = Some (res, g', hs', grant) ->
    root_step (g, hs) (g', hs')
| root_release g hs handle g' hs' :
    hs !! handle = Some O ->
    MirrorBuddyGroup_releaseSequenceNumber g hs handle = Some (g', hs') ->
    root_step (g, hs) (g', delete handle hs')
| root_setSeqNoBase g hs base :
    0 <= base < 2 ^ 64 -> root_step (g, hs) (MirrorBuddyGroup_setSeqNoBase g base, hs).

Lemma take_acknowledge_inFlight g g' ack sel :
  take_acknowledge g = Some (g', ack, sel) -> bg_seqNoInFlight g' = bg_seqNoInFlight g.
Proof.
  unfold take_acknowledge. destruct (0 <? _); intros H; apply bind_Some in H as (? & _ & H);
    by injection H as <- <- <-.
Qed.

Lemma acquire_heap g hs h wait res g' hs' grant :
  group_ok g hs -> hs !! h = None -> bg_sequence g < 2 ^ 64 - 1 -> heap (bg_seqNoInFlight g) ->
  MirrorBuddyGroup_acquireSequenceNumber g hs h wait = Some (res, g', hs', grant) ->
  heap (bg_seqNoInFlight g').
Proof.
  intros Hok Hh Hseq Hheap Heq. pose proof (go_seq _ _ Hok) as Hu.
  assert (Hl : bg_seqNoInFlight g' = bg_seqNoInFlight g \/
    bg_seqNoInFlight g' = bg_seqNoInFlight g ++ [MkBuddySequenceNumber h (u64 (bg_sequence g + 1))]).
  { revert Heq. unfold MirrorBuddyGroup_acquireSequenceNumber. cbv zeta.
    destruct (_ <=? 0); [intros H; injection H as <- <- <- <-; auto|].
    destruct (_ =? 0); [intros H; injection H as <- <- <- <-; auto|].
    destruct (_ <=? _); [done|]. intros H. apply bind_Some in H as ([[g1 ack] sel] & Hack & H).
    injection H as <- <- <- <-. right. by rewrite (take_acknowledge_inFlight _ _ _ _ Hack). }
  destruct Hl as [-> | ->]; [done|]. apply heap_append; [done|]. cbn.
  pose proof (go_known _ _ Hok) as Hk. apply Forall_app in Hk as [Hk _].
  unfold in_u in Hu. rewrite u64_small by lia.
  eapply list.Forall_impl; [exact Hk|]. unfold in_seq. cbn. lia.
Qed.

Lemma root_step_ok g hs g' hs' :
  group_ok g hs /\ heap (bg_seqNoInFlight g) -> root_step (g, hs) (g', hs') ->
  group_ok g' hs' /\ heap (bg_seqNoInFlight g').
Proof.
  intros [Hok Hheap] Hstep. split.
  - eapply group_step_ok; [exact Hok|]. inversion Hstep; subst; by econstructor.
  - inversion Hstep; subst.
    + by eapply acquire_heap.
    + destruct (release_spec g hs handle O) as (? & ? & ? & ? & _ & _ & _ & _ & _ & _ & ?); [done..|].
      simplify_eq. auto.
    + unfold MirrorBuddyGroup_setSeqNoBase. by destruct (_ <? _).
Qed.

Lemma root_steps_ok s s' :
  rtc root_step s s' -> group_ok s.1 s.2 /\ heap (bg_seqNoInFlight s.1) ->
  group_ok s'.1 s'.2 /\ heap (bg_seqNoInFlight s'.1).
Proof.
  induction 1 as [|[g1 hs1] [g2 hs2] s2 Hstep _ IH]; [done|]. intros Hok. apply IH. by eapply root_step_ok.
Qed.

(** C13: as long as every release was of the root of the heap, a cumulative
    acknowledgement covers finished numbers only: all numbers in flight are greater than
    the acknowledged one. *)
Theorem cumulative_ack_sound garbage groupID target1 target2 cap g0 g hs h wait res g' hs' gr :
  0 < cap < 2 ^ 31 ->
  MirrorBuddyGroup_constructFromTargetIDs true garbage groupID cap target1 target2 = Some g0 ->
  rtc root_step (g0, ∅) (g, hs) -> hs !! h = None -> bg_sequence g < 2 ^ 64 - 1 ->
  MirrorBuddyGroup_acquireSequenceNumber g hs h wait = Some (res, g', hs', Some gr) ->
  sg_isSelective gr = false ->
  Forall (fun v => sg_acknowledgeSeq gr < v) (seqNos (bg_seqNoInFlight g')).
Proof.
  intros Hcap Hc Hsteps Hh Hseq Heq Hsel.
  assert (Hinv : group_ok g hs /\ heap (bg_seqNoInFlight g)).
  { apply (root_steps_ok _ _ Hsteps). split; [by eapply construct_ok|].
    revert Hc. unfold MirrorBuddyGroup_constructFromTargetIDs.
    destruct (_ || _); [done|]. intros [= <-] k. cbn. lia. }
  destruct Hinv as [Hok Hheap]. pose proof (acquire_heap _ _ _ _ _ _ _ _ Hok Hh Hseq Hheap Heq) as Hheap'.
  destruct (acquire_spec g hs h wait Hok Hh Hseq) as (res1 & g1 & hs1 & grant & Heq1 & _ & Hm).
  rewrite Heq in Heq1. injection Heq1 as <- <- <- <-. destruct Hm as (_ & _ & _ & (_ & _ & _ & Hm) & _).
  destruct (finished_queue g); [|destruct Hm as (_ & ? & _); congruence]. destruct Hm as (_ & _ & ->).
  apply Forall_lookup_2. intros k v Hk. unfold seqNos in Hk. rewrite list_lookup_fmap in Hk.
  destruct (bg_seqNoInFlight g' !! k) as [x|] eqn:E; [|done]. injection Hk as <-.
  pose proof (heap_root _ k Hheap' (lookup_lt_Some _ _ _ E)) as Hroot.
  unfold value_at in Hroot at 2. rewrite E in Hroot. cbn in Hroot. lia.
Qed.

Lemma cumulative_ack_sound_witness :
  exists g hs g' hs' gr,
    MirrorBuddyGroup_acquireSequenceNumber g hs 1 false = Some (0, g', hs', Some gr) /\
    seqNos (bg_seqNoInFlight g) = [6] /\
    Forall (fun v => sg_acknowledgeSeq gr < v) (seqNos (bg_seqNoInFlight g')).
Proof.
  pose (s := state_after 4 [SetSeqNoBase 5; Acquire 0]).
  pose (r := MirrorBuddyGroup_acquireSequenceNumber s.1 s.2 1 false).
  assert (Hs : rtc root_step (group0 4, ∅) s).
  { eapply rtc_l; [apply (root_setSeqNoBase _ _ 5); lia|]. apply rtc_once.
    by apply (root_acquire _ _ 0 false 0 _ _ (Some (MkSeqGrant 6 5 false))). }
  exists s.1, s.2. destruct r as [[[[res g'] hs'] [gr|]]|] eqn:E; [|by vm_compute in E..].
  assert (res = 0) as -> by (vm_compute in E; congruence).
  exists g', hs', gr. split_and!; [exact E|reflexivity|].
  apply (cumulative_ack_sound (fun _ => 0) 1 11 12 4 (group0 4) s.1 s.2 1 false 0 g' hs' gr);
    [lia|reflexivity|by rewrite <- surjective_pairing|reflexivity|reflexivity|exact E|].
  vm_compute in E. inversion E. reflexivity.
Defined.

(** A release of a number that is not the root can break the heap order (the
    parent of index [i] is taken to be [i / 2]), and a later cumulative acknowledgement
    then covers a number that is still in flight. *)
Theorem cumulative_ack_bug :
  exists g hs g' hs' gr,
    group_reachable 16 (g, hs) /\
    MirrorBuddyGroup_acquireSequenceNumber g hs 12 false = Some (0, g', hs', Some gr) /\
    sg_isSelective gr = false /\ sg_acknowledgeSeq gr ∈ seqNos (bg_seqNoInFlight g').
Proof.
  pose (s := state_after 16 (SetSeqNoBase 1 :: (Acquire <$> seq 0 9) ++
    [Release 0; Release 5; Release 1; Acquire 9; Acquire 10; Acquire 11])).
  exists s.1, s.2.
  destruct (MirrorBuddyGroup_acquireSequenceNumber s.1 s.2 12 false) as [[[[res g'] hs'] [gr|]]|] eqn:E;
    [|by vm_compute in E..].
  exists g', hs', gr.
  split; [apply state_after_reachable; [lia|vm_compute; reflexivity]|].
  vm_compute in E. injection E as <- <- <- <-.
  split_and!; [reflexivity|reflexivity|].
  apply (bool_decide_unpack _). vm_compute. exact I.
Qed.
