(* ===== verification/Mappers.v ===== *)
(** * Target and buddy group maps

    Models [client_module/source/common/nodes/TargetMapper.c],
    [TargetStateStore.c] and [MirrorBuddyGroupMapper.c].  The red-black trees of
    the code are finite maps; iteration is in ascending key order.  All operations
    run under the read or write lock of their map. *)

From stdpp Require Import sorting.
From S2P Require Import Prelude StorageErrors StorageFormats BuddyGroup.

(** ** The tree operations of [BEEGFS_RBTREE_FUNCTIONS] *)

Section rbtree.
Context {A : Type}.
Implicit Types t : gmap Z A.

(** Returns whether the element was inserted. *)
Definition rb_insert (t : gmap Z A) (key : Z) (data : A) : gmap Z A * bool :=
  match t !! key with Some _ => (t, false) | None => (<[key := data]> t, true) end.

(** Returns the replaced element. *)
Definition rb_insertOrReplace (t : gmap Z A) (key : Z) (data : A) : gmap Z A * option A :=
  let '(t', inserted) := rb_insert t key data in
  if inserted then (t', None) else (<[key := data]> t, t !! key).

Definition key_le (x y : Z * A) : Prop := x.1 <= y.1.
#[export] Instance key_le_dec : RelDecision key_le := fun x y => decide (x.1 <= y.1).

(** Elements in the order of [rb_first]/[rb_next]. *)
Definition rb_elements (t : gmap Z A) : list (Z * A) := merge_sort key_le (map_to_list t).
End rbtree.

(** ** TargetMapper *)

Abbreviation TargetMapper := (gmap Z Z).

Definition TargetMapper_mapTarget (this : TargetMapper) (targetID nodeID : Z) :
    TargetMapper * bool :=
  let '(this', replaced) := rb_insertOrReplace this targetID nodeID in
  (this', bool_decide (replaced = None)).

Definition TargetMapper_syncTargets (this : TargetMapper) (mappings : list TargetMapping) :
    TargetMapper :=
  foldl (fun t elem => (rb_insertOrReplace t (tm_targetID elem) (tm_nodeID elem)).1) ∅ mappings.

Definition TargetMapper_getTargetIDs (this : TargetMapper) (outTargetIDs : list Z) : list Z :=
  outTargetIDs ++ (rb_elements this).*1.

Definition TargetMapper_getNodeID (this : TargetMapper) (targetID : Z) : Z :=
  match this !! targetID with Some nodeID => nodeID | None => 0 end.

(** ** TargetStateStore *)

Definition TargetReachabilityState_ONLINE : Z := 0.
Definition TargetReachabilityState_POFFLINE : Z := 1.
Definition TargetReachabilityState_OFFLINE : Z := 2.
Definition TargetConsistencyState_GOOD : Z := 0.
Definition TargetConsistencyState_NEEDS_RESYNC : Z := 1.
Definition TargetConsistencyState_BAD : Z := 2.

Record CombinedTargetState := MkCombinedTargetState {
  cts_reachabilityState : Z;
  cts_consistencyState : Z
}.

Abbreviation TargetStateStore := (gmap Z CombinedTargetState).

Definition __TargetStateStore_syncStatesUnlocked (this : TargetStateStore)
    (states : list TargetStateMapping) : TargetStateStore :=
  foldl (fun t state =>
    (rb_insertOrReplace t (tsm_targetID state)
      (MkCombinedTargetState (tsm_reachabilityState state) (tsm_consistencyState state))).1)
    ∅ states.

Definition TargetStateStore_getStatesAsLists (this : TargetStateStore)
    (outTargetIDs outReachabilityStates outConsistencyStates : list Z) : list Z * list Z * list Z :=
  let l := rb_elements this in
  (outTargetIDs ++ l.*1,
   outReachabilityStates ++ (cts_reachabilityState <$> l.*2),
   outConsistencyStates ++ (cts_consistencyState <$> l.*2)).

(** Returns whether a state changed. *)
Definition TargetStateStore_setAllStates (this : TargetStateStore) (state : Z) :
    TargetStateStore * bool :=
  ((fun s => MkCombinedTargetState state (cts_consistencyState s)) <$> this,
   existsb (fun x => negb (cts_reachabilityState x.2 =? state)) (rb_elements this)).

Definition TargetStateStore_getState (this : TargetStateStore) (targetID : Z) :
    CombinedTargetState * bool :=
  match this !! targetID with
  | Some state => (state, true)
  | None => (MkCombinedTargetState TargetReachabilityState_OFFLINE TargetConsistencyState_GOOD, false)
  end.

(** ** MirrorBuddyGroupMapper *)

Abbreviation MirrorBuddyGroupMapper := (gmap Z MirrorBuddyGroup).

Definition MirrorBuddyGroupMapper_getPrimaryTargetID (this : MirrorBuddyGroupMapper)
    (mirrorBuddyGroupID : Z) : Z :=
  match this !! mirrorBuddyGroupID with Some g => bg_firstTargetID g | None => 0 end.

Definition MirrorBuddyGroupMapper_getSecondaryTargetID (this : MirrorBuddyGroupMapper)
    (mirrorBuddyGroupID : Z) : Z :=
  match this !! mirrorBuddyGroupID with Some g => bg_secondTargetID g | None => 0 end.

Definition __MirrorBuddyGroupMapper_getBuddyGroupIDUnlocked (this : MirrorBuddyGroupMapper)
    (targetID : Z) : Z :=
  match list_find (fun x => bg_firstTargetID x.2 = targetID \/ bg_secondTargetID x.2 = targetID)
          (rb_elements this) with
  | Some (_, (_, buddyGroup)) => bg_groupID buddyGroup
  | None => 0
  end.

Definition MirrorBuddyGroup_setTargets (g : MirrorBuddyGroup) (first second : Z) :
    MirrorBuddyGroup :=
  MkMirrorBuddyGroup (bg_groupID g) first second (bg_sequence g) (bg_slotsAvail g)
    (bg_seqNoInFlight g) (bg_inFlightCapacity g) (bg_finishedSeqNums g)
    (bg_firstFinishedIndex g) (bg_finishedCount g) (bg_refs g).

(** [MirrorBuddyGroup_put]: the object is destroyed with its last reference. *)
Definition MirrorBuddyGroup_put (g : MirrorBuddyGroup) : option MirrorBuddyGroup :=
  if bg_refs g =? 1 then None else Some (set_slots_refs g (bg_slotsAvail g) (bg_refs g - 1)).

Section GroupMapper.
(** Result of the allocations of a new group, and contents of its memory. *)
Context (allocOk : bool) (garbage : nat -> Z).

(** [connMaxInternodeNum] is the configuration value as the constructor receives it,
    converted to [uint16_t].  The code of the first loop: existing groups are updated and taken out of the
    tree, new ones constructed; [None] is the dereference of a NULL group. *)
Fixpoint sync_collect (connMaxInternodeNum : Z) (this : MirrorBuddyGroupMapper)
    (groups : list BuddyGroupMapping) (newGroups : list MirrorBuddyGroup) :
    option (MirrorBuddyGroupMapper * list MirrorBuddyGroup) :=
  match groups with
  | [] => Some (this, newGroups)
  | mapping :: groups' =>
      match this !! bgm_groupID mapping with
      | Some group =>
          let group := MirrorBuddyGroup_setTargets group (bgm_primaryTargetID mapping)
            (bgm_secondaryTargetID mapping) in
          sync_collect connMaxInternodeNum (delete (bgm_groupID mapping) this) groups'
            (newGroups ++ [group])
      | None =>
          group ← MirrorBuddyGroup_constructFromTargetIDs allocOk garbage (bgm_groupID mapping)
            connMaxInternodeNum (bgm_primaryTargetID mapping) (bgm_secondaryTargetID mapping);
          sync_collect connMaxInternodeNum this groups' (newGroups ++ [group])
      end
  end.

(** Returns the new map and what remains of the groups that left it: those with
    numbers in flight stay alive until their last release. *)
Definition __MirrorBuddyGroupMapper_syncGroupsUnlocked (connMaxInternodeNum : Z)
    (this : MirrorBuddyGroupMapper) (groups : list BuddyGroupMapping) :
    option (MirrorBuddyGroupMapper * list MirrorBuddyGroup) :=
  '(rest, newGroups) ← sync_collect connMaxInternodeNum this groups [];
  let cleared := omap (fun x => MirrorBuddyGroup_put x.2) (rb_elements rest) in
  Some (foldl (fun '(t, gone) pos =>
    let '(t', replaced) := rb_insertOrReplace t (bg_groupID pos) pos in
    (t', gone ++ match replaced with
                 | Some r => match MirrorBuddyGroup_put r with Some r' => [r'] | None => [] end
                 | None => []
                 end)) (∅, cleared) newGroups).


(** [targetMapper]: [None] for metadata groups. *)
Definition MirrorBuddyGroupMapper_addGroup (connMaxInternodeNum : Z)
    (this : MirrorBuddyGroupMapper) (targetMapper : option TargetMapper)
    (buddyGroupID primaryTargetID secondaryTargetID : Z) (allowUpdate : bool) :
    MirrorBuddyGroupMapper * Z :=
  if buddyGroupID =? 0 then (this, FhgfsOpsErr_INVAL)
  else if negb allowUpdate && bool_decide (is_Some (this !! buddyGroupID))
  then (this, FhgfsOpsErr_EXISTS)
  else if match targetMapper with
          | Some tm => (TargetMapper_getNodeID tm primaryTargetID =? 0) ||
                       (TargetMapper_getNodeID tm secondaryTargetID =? 0)
          | None => false
          end
  then (this, FhgfsOpsErr_UNKNOWNTARGET)
  else
    let primaryInGroup := __MirrorBuddyGroupMapper_getBuddyGroupIDUnlocked this primaryTargetID in
    let secondaryInGroup :=
      __MirrorBuddyGroupMapper_getBuddyGroupIDUnlocked this secondaryTargetID in
    if (negb (primaryInGroup =? 0) && negb (primaryInGroup =? buddyGroupID)) ||
       (negb (secondaryInGroup =? 0) && negb (secondaryInGroup =? buddyGroupID))
    then (this, FhgfsOpsErr_INUSE)
    else
      match MirrorBuddyGroup_constructFromTargetIDs allocOk garbage buddyGroupID
              connMaxInternodeNum primaryTargetID secondaryTargetID with
      | None => (this, FhgfsOpsErr_OUTOFMEM)
      | Some buddyGroup => ((rb_insert this buddyGroupID buddyGroup).1, FhgfsOpsErr_SUCCESS)
      end.

(** [TargetStateStore_syncStatesAndGroupsFromLists]: both maps change under both
    locks. *)
Definition TargetStateStore_syncStatesAndGroupsFromLists (connMaxInternodeNum : Z)
    (this : TargetStateStore) (buddyGroups : MirrorBuddyGroupMapper)
    (states : list TargetStateMapping) (groups : list BuddyGroupMapping) :
    option (TargetStateStore * MirrorBuddyGroupMapper) :=
  let this := __TargetStateStore_syncStatesUnlocked this states in
  '(buddyGroups, _) ← __MirrorBuddyGroupMapper_syncGroupsUnlocked connMaxInternodeNum
    buddyGroups groups;
  Some (this, buddyGroups).
End GroupMapper.

(** Result, mapper, handles and the grant.  The second, waiting attempt runs without
    the mapper's lock; [meanwhile] is what other callers do to the group until the wait
    ends. *)
Definition MirrorBuddyGroupMapper_acquireSequenceNumber (this : MirrorBuddyGroupMapper)
    (hs : Handles) (mirrorBuddyGroupID : Z) (handle : nat)
    (meanwhile : MirrorBuddyGroup -> MirrorBuddyGroup) :
    option (Z * MirrorBuddyGroupMapper * Handles * option SeqGrant) :=
  match this !! mirrorBuddyGroupID with
  | None => Some (ENOENT, this, hs, None)
  | Some buddyGroup =>
      '(result, g', hs', grant) ←
        MirrorBuddyGroup_acquireSequenceNumber buddyGroup hs handle false;
      if (result =? 0) || (result =? ENOENT)
      then Some (0, <[mirrorBuddyGroupID := g']> this, hs', grant)
      else
        '(result, g', hs', grant) ←
          MirrorBuddyGroup_acquireSequenceNumber (meanwhile buddyGroup) hs handle true;
        Some ((if result =? ENOENT then 0 else result),
              <[mirrorBuddyGroupID := g']> this, hs', grant)
  end.
