(* ===== verification/MappersFacts.v ===== *)
(** * Target and buddy group maps: synchronisation and lookups *)

From stdpp Require Import sorting.
From S2P Require Import Prelude StorageErrors StorageFormats BuddyGroup BuddyGroupFacts Mappers.

(** ** Trees *)

Lemma rb_insertOrReplace_map {A} (t : gmap Z A) k x :
  rb_insertOrReplace t k x = (<[k := x]> t, t !! k).
Proof. unfold rb_insertOrReplace, rb_insert. by destruct (t !! k). Qed.

Lemma elem_of_rb_elements {A} (t : gmap Z A) k x : (k, x) ∈ rb_elements t <-> t !! k = Some x.
Proof. unfold rb_elements. rewrite merge_sort_Permutation. apply elem_of_map_to_list. Qed.

#[export] Instance key_le_total {A} : Total (@key_le A).
Proof. intros x y. unfold key_le. lia. Qed.
#[export] Instance key_le_trans {A} : Transitive (@key_le A).
Proof. intros x y z. unfold key_le. lia. Qed.

(** Keys come in strictly ascending order. *)
Lemma rb_elements_sorted {A} (t : gmap Z A) : StronglySorted Z.lt (rb_elements t).*1.
Proof.
  assert (Hnd : NoDup (rb_elements t).*1).
  { unfold rb_elements. rewrite merge_sort_Permutation. apply NoDup_fst_map_to_list. }
  assert (Hs : StronglySorted key_le (rb_elements t)).
  { apply StronglySorted_merge_sort; apply _. }
  revert Hnd. induction Hs as [|[k x] l Hs IH Hf]; cbn; intros Hnd; [constructor|].
  inversion Hnd as [|?? Hni Hnd']; subst. constructor; [by apply IH|].
  apply Forall_fmap. apply Forall_forall. intros [k' x'] Hin%list_elem_of_In.
  eapply Forall_forall in Hf; [|by apply list_elem_of_In]. unfold key_le in Hf. cbn in *.
  assert (k <> k'); [|lia]. intros ->. apply Hni. by apply (list_elem_of_fmap_2 fst) in Hin.
Qed.

(** Filling a map from a list; a later element replaces an earlier one. *)
Definition fill {A B} (f : A -> Z) (g : A -> B) (l : list A) : gmap Z B :=
  list_to_map (reverse ((fun x => (f x, g x)) <$> l)).

Lemma foldl_insert_fill {A B} (f : A -> Z) (g : A -> B) l : forall t : gmap Z B,
  foldl (fun t x => <[f x := g x]> t) t l = fill f g l ∪ t.
Proof.
  unfold fill. induction l as [|x l IH]; intros t; cbn [foldl fmap list_fmap].
  - rewrite reverse_nil. cbn. by rewrite map_empty_union.
  - rewrite IH, reverse_cons, list_to_map_app, <- map_union_assoc. f_equal.
    cbn. rewrite insert_empty. apply insert_union_singleton_l.
Qed.

Lemma foldl_replace_fill {A B} (f : A -> Z) (g : A -> B) l :
  foldl (fun t x => (rb_insertOrReplace t (f x) (g x)).1) ∅ l = fill f g l.
Proof.
  rewrite <- (map_union_empty (fill f g l)), <- foldl_insert_fill. generalize (∅ : gmap Z B).
  induction l as [|x l IH]; intros t; cbn [foldl]; [done|]. by rewrite rb_insertOrReplace_map.
Qed.

Lemma fill_lookup {A B} (f : A -> Z) (g : A -> B) l x :
  NoDup (f <$> l) -> x ∈ l -> fill f g l !! f x = Some (g x).
Proof.
  intros Hnd Hin. unfold fill. apply elem_of_list_to_map_1.
  - by rewrite fmap_reverse, <- list_fmap_compose, reverse_Permutation.
  - apply elem_of_reverse, list_elem_of_fmap. by exists x.
Qed.

Lemma fill_lookup_inv {A B} (f : A -> Z) (g : A -> B) l k y :
  fill f g l !! k = Some y -> exists x, x ∈ l /\ f x = k /\ g x = y.
Proof.
  unfold fill. intros H%elem_of_list_to_map_2. rewrite elem_of_reverse in H.
  apply list_elem_of_fmap in H as (x & [= -> ->] & ?). eauto.
Qed.

(** With one value for all elements the order does not matter. *)
Lemma fill_const_lookup {A B} (f : A -> Z) (b : B) l k :
  k ∈ f <$> l -> fill f (fun _ => b) l !! k = Some b.
Proof.
  intros (x & -> & Hx)%list_elem_of_fmap.
  destruct (fill f (fun _ => b) l !! f x) as [y|] eqn:E.
  - by apply fill_lookup_inv in E as (? & _ & _ & <-).
  - apply not_elem_of_list_to_map_2 in E. destruct E. rewrite fmap_reverse, elem_of_reverse.
    rewrite <- list_fmap_compose. by apply (list_elem_of_fmap_2 (fst ∘ (fun x => (f x, b)))).
Qed.

(** ** TargetMapper and TargetStateStore *)

Lemma syncTargets_fill this l : TargetMapper_syncTargets this l = fill tm_targetID tm_nodeID l.
Proof. apply foldl_replace_fill. Qed.

Lemma syncStates_fill this l :
  __TargetStateStore_syncStatesUnlocked this l = fill tsm_targetID
    (fun s => MkCombinedTargetState (tsm_reachabilityState s) (tsm_consistencyState s)) l.
Proof. apply (foldl_replace_fill tsm_targetID). Qed.

Lemma setAllStates_changed this state :
  (TargetStateStore_setAllStates this state).2 = true <->
  exists k s, this !! k = Some s /\ cts_reachabilityState s <> state.
Proof.
  cbn. rewrite existsb_exists. split.
  - intros ([k s] & Hin%list_elem_of_In & Hne). apply elem_of_rb_elements in Hin.
    exists k, s. split; [done|]. cbn in Hne. by destruct (Z.eqb_spec (cts_reachabilityState s) state).
  - intros (k & s & Hk & Hne). exists (k, s).
    split; [by apply list_elem_of_In, elem_of_rb_elements|]. cbn. by rewrite (proj2 (Z.eqb_neq _ _)).
Qed.

(** ** Buddy groups *)

(** Groups are stored under their own, non-zero IDs. *)
Definition mapper_ok (m : MirrorBuddyGroupMapper) : Prop :=
  forall k g, m !! k = Some g -> bg_groupID g = k /\ k <> 0.

Definition has_target (g : MirrorBuddyGroup) (t : Z) : Prop :=
  bg_firstTargetID g = t \/ bg_secondTargetID g = t.

(** No target belongs to two groups. *)
Definition targets_disjoint (m : MirrorBuddyGroupMapper) : Prop :=
  forall k1 k2 g1 g2 t, m !! k1 = Some g1 -> m !! k2 = Some g2 ->
  has_target g1 t -> has_target g2 t -> k1 = k2.

Lemma getBuddyGroupID_spec m t :
  mapper_ok m ->
  let id := __MirrorBuddyGroupMapper_getBuddyGroupIDUnlocked m t in
  (id = 0 /\ forall k g, m !! k = Some g -> ~ has_target g t) \/
  (id <> 0 /\ exists g, m !! id = Some g /\ has_target g t).
Proof.
  intros Hok. cbv zeta. unfold __MirrorBuddyGroupMapper_getBuddyGroupIDUnlocked.
  destruct (list_find _ (rb_elements m)) as [[i [k g]]|] eqn:E.
  - right. apply list_find_Some in E as (Hi & Hp & _).
    apply list_elem_of_lookup_2, elem_of_rb_elements in Hi. destruct (Hok _ _ Hi) as [-> Hne].
    split; [done|]. by exists g.
  - left. split; [done|]. apply list_find_None in E. intros k g Hk Ht.
    apply (proj1 (Forall_forall _ _) E (k, g)); [|done]. by apply list_elem_of_In, elem_of_rb_elements.
Qed.

(** The group that an ID or a mapping denotes after a synchronisation. *)
Definition synced_group (garbage : nat -> Z) (cap : Z) (m : MirrorBuddyGroupMapper)
    (x : BuddyGroupMapping) : MirrorBuddyGroup :=
  match m !! bgm_groupID x with
  | Some g => MirrorBuddyGroup_setTargets g (bgm_primaryTargetID x) (bgm_secondaryTargetID x)
  | None => MkMirrorBuddyGroup (bgm_groupID x) (bgm_primaryTargetID x) (bgm_secondaryTargetID x)
              0 cap [] cap (kmalloc_blocks garbage cap) 0 0 1
  end.

Lemma sync_collect_spec garbage cap l : forall m acc,
  cap <> 0 -> NoDup (bgm_groupID <$> l) ->
  sync_collect true garbage cap m l acc =
    Some (foldl (fun m x => delete (bgm_groupID x) m) m l, acc ++ (synced_group garbage cap m <$> l)).
Proof.
  induction l as [|x l IH]; intros m acc Hcap Hnd; cbn [sync_collect foldl fmap list_fmap].
  { by rewrite app_nil_r. }
  inversion Hnd as [|?? Hni Hnd']; subst.
  assert (Hsame : synced_group garbage cap (delete (bgm_groupID x) m) <$> l = synced_group garbage cap m <$> l).
  { apply list_fmap_ext. intros i y Hy. unfold synced_group. rewrite lookup_delete_ne; [done|].
    intros E. apply Hni. rewrite E. apply (list_elem_of_fmap_2 bgm_groupID). by eapply list_elem_of_lookup_2. }
  destruct (m !! bgm_groupID x) as [g|] eqn:E.
  - assert (Hx : synced_group garbage cap m x = MirrorBuddyGroup_setTargets g (bgm_primaryTargetID x)
      (bgm_secondaryTargetID x)) by (unfold synced_group; by rewrite E).
    rewrite IH by done. by rewrite Hsame, Hx, <- app_assoc.
  - unfold MirrorBuddyGroup_constructFromTargetIDs. rewrite (proj2 (Z.eqb_neq _ _)) by done.
    cbn [negb orb mbind option_bind]. rewrite IH by done. rewrite (delete_id m) by done.
    rewrite <- app_assoc. cbn [app]. do 4 f_equal. unfold synced_group. by rewrite E.
Qed.

Lemma synced_group_id garbage cap m x : mapper_ok m -> bg_groupID (synced_group garbage cap m x) = bgm_groupID x.
Proof.
  intros Hok. unfold synced_group. destruct (m !! bgm_groupID x) eqn:E; [|done]. by apply Hok in E as [? _].
Qed.

(** The second loop without replacements. *)
Lemma sync_insert_spec l : forall t gone,
  NoDup (bg_groupID <$> l) -> (forall g, g ∈ l -> t !! bg_groupID g = None) ->
  foldl (fun '(t, gone) pos =>
      let '(t', replaced) := rb_insertOrReplace t (bg_groupID pos) pos in
      (t', gone ++ match replaced with
                   | Some r => match MirrorBuddyGroup_put r with Some r' => [r'] | None => [] end
                   | None => []
                   end)) (t, gone) l
  = (foldl (fun t x => <[bg_groupID x := x]> t) t l, gone).
Proof.
  induction l as [|x l IH]; intros t gone Hnd Hfresh; cbn [foldl]; [done|].
  inversion Hnd as [|?? Hni Hnd']; subst.
  rewrite rb_insertOrReplace_map, (Hfresh x) by by left. rewrite app_nil_r. apply IH; [done|].
  intros g Hg. rewrite lookup_insert_ne.
  - apply Hfresh. by right.
  - intros E. apply Hni. rewrite E. by apply (list_elem_of_fmap_2 bg_groupID).
Qed.

(** Synchronisation replaces the map by the received list: groups that exist keep
    their sequence state and get the new targets, the others are constructed. *)
Lemma syncGroups_spec garbage cap m l :
  cap <> 0 -> mapper_ok m -> NoDup (bgm_groupID <$> l) ->
  exists gone, __MirrorBuddyGroupMapper_syncGroupsUnlocked true garbage cap m l =
    Some (fill bgm_groupID (synced_group garbage cap m) l, gone).
Proof.
  intros Hcap Hok Hnd. unfold __MirrorBuddyGroupMapper_syncGroupsUnlocked.
  rewrite sync_collect_spec by done. cbn [mbind option_bind app]. eexists. f_equal.
  assert (Hids : bg_groupID <$> (synced_group garbage cap m <$> l) = bgm_groupID <$> l).
  { rewrite <- list_fmap_compose. apply list_fmap_ext. intros. by apply synced_group_id. }
  rewrite sync_insert_spec; [|by rewrite Hids|intros; apply lookup_empty].
  f_equal. rewrite foldl_insert_fill, map_union_empty. unfold fill. f_equal. f_equal.
  rewrite <- list_fmap_compose. apply list_fmap_ext. intros i x _. cbn. by rewrite synced_group_id.
Qed.

(** ** Adding a group *)

Lemma addGroup_cases allocOk garbage cap m tm id p s allowUpdate m' res :
  mapper_ok m ->
  MirrorBuddyGroupMapper_addGroup allocOk garbage cap m tm id p s allowUpdate = (m', res) ->
  (res <> FhgfsOpsErr_SUCCESS /\ m' = m) \/
  (res = FhgfsOpsErr_SUCCESS /\ id <> 0 /\
   (allowUpdate = false -> m !! id = None) /\
   (forall k g, m !! k = Some g -> has_target g p \/ has_target g s -> targets_disjoint m -> k = id) /\
   exists g, MirrorBuddyGroup_constructFromTargetIDs allocOk garbage id cap p s = Some g /\
     m' = (rb_insert m id g).1).
Proof.
  intros Hok. unfold MirrorBuddyGroupMapper_addGroup.
  destruct (Z.eqb_spec id 0) as [|Hid]; [intros [= <- <-]; by left|].
  destruct (negb allowUpdate && bool_decide (is_Some (m !! id))) eqn:Eex; [intros [= <- <-]; by left|].
  match goal with |- context [if ?b then _ else _] => destruct b end; [intros [= <- <-]; by left|].
  pose proof (getBuddyGroupID_spec m p Hok) as Hp. pose proof (getBuddyGroupID_spec m s Hok) as Hs.
  cbv zeta in Hp, Hs. set (pg := __MirrorBuddyGroupMapper_getBuddyGroupIDUnlocked m p) in *.
  set (sg := __MirrorBuddyGroupMapper_getBuddyGroupIDUnlocked m s) in *.
  destruct (_ || _) eqn:Einuse; [intros [= <- <-]; by left|].
  apply orb_false_elim in Einuse as [Ep Es].
  destruct (MirrorBuddyGroup_constructFromTargetIDs allocOk garbage id cap p s) as [g|] eqn:Ec;
    [|intros [= <- <-]; by left].
  intros [= <- <-]. right. split_and!; [done..| | |by exists g].
  - intros ->. cbn in Eex. apply bool_decide_eq_false in Eex. by apply eq_None_not_Some.
  - assert (Hcase : forall t tg, (tg = 0 /\ (forall k g, m !! k = Some g -> ~ has_target g t)) \/
      (tg <> 0 /\ exists g, m !! tg = Some g /\ has_target g t) ->
      negb (tg =? 0) && negb (tg =? id) = false -> forall k g', m !! k = Some g' -> has_target g' t ->
      targets_disjoint m -> k = id).
    { intros t tg [[_ Hno]|[Hne (g' & Hg' & Ht')]] Hb k g2 Hk Ht Hdis; [by destruct (Hno _ _ Hk)|].
      rewrite (proj2 (Z.eqb_neq tg 0)) in Hb by done. cbn in Hb.
      destruct (Z.eqb_spec tg id) as [<-|]; [|done]. by eapply Hdis. }
    intros k g' Hk [Ht|Ht] Hdis; [by eapply (Hcase p pg)|by eapply (Hcase s sg)].
Qed.

Lemma construct_targets allocOk garbage id cap p s g :
  MirrorBuddyGroup_constructFromTargetIDs allocOk garbage id cap p s = Some g ->
  bg_groupID g = id /\ (forall t, has_target g t <-> t = p \/ t = s).
Proof.
  unfold MirrorBuddyGroup_constructFromTargetIDs. destruct (_ || _); [done|]. intros [= <-].
  split; [done|]. unfold has_target. cbn. intros t. split; intros [?|?]; auto.
Qed.

Lemma addGroup_disjoint allocOk garbage cap m tm id p s allowUpdate :
  mapper_ok m -> targets_disjoint m ->
  let m' := (MirrorBuddyGroupMapper_addGroup allocOk garbage cap m tm id p s allowUpdate).1 in
  mapper_ok m' /\ targets_disjoint m'.
Proof.
  intros Hok Hdis. cbv zeta.
  destruct (MirrorBuddyGroupMapper_addGroup _ _ _ _ _ _ _ _ _) as [m' res] eqn:E.
  destruct (addGroup_cases _ _ _ _ _ _ _ _ _ _ _ Hok E)
    as [[_ ->]|(_ & Hid & _ & Huse & g & Hg & ->)]; [done|].
  apply construct_targets in Hg as [Hgid Hgt]. cbn [fst]. unfold rb_insert.
  destruct (m !! id) as [g0|] eqn:Em; cbn [fst]; [done|]. split.
  - intros k g' [[<- <-]|[_ Hk]]%lookup_insert_Some; [done|by apply Hok].
  - assert (Hnew : forall k g' t, m !! k = Some g' -> has_target g' t -> has_target g t -> k = id).
    { intros k g' t Hk Ht [->| ->]%Hgt; eapply Huse; eauto. }
    intros k1 k2 g1 g2 t H1 H2 Ht1 Ht2.
    apply lookup_insert_Some in H1 as [[<- <-]|[_ H1]], H2 as [[<- <-]|[_ H2]]; eauto.
    symmetry. eauto.
Qed.

(** ** Properties *)

Lemma getBuddyGroupID_free m t id :
  mapper_ok m -> (forall k g, m !! k = Some g -> has_target g t -> k = id) ->
  let r := __MirrorBuddyGroupMapper_getBuddyGroupIDUnlocked m t in
  negb (r =? 0) && negb (r =? id) = false.
Proof.
  intros Hok Hfree. cbv zeta. destruct (getBuddyGroupID_spec m t Hok) as [[-> _]|(_ & g & Hg & Ht)]; [done|].
  rewrite (Hfree _ _ Hg Ht), Z.eqb_refl. apply andb_false_r.
Qed.

(** An update of an existing group, with targets that no other group has,
    reports success without having any effect: the group keeps its old targets and the
    new object is lost. *)
Theorem addGroup_update_ignored garbage cap m id p s g :
  mapper_ok m -> cap <> 0 -> m !! id = Some g ->
  (forall k g', m !! k = Some g' -> has_target g' p \/ has_target g' s -> k = id) ->
  MirrorBuddyGroupMapper_addGroup true garbage cap m None id p s true = (m, FhgfsOpsErr_SUCCESS).
Proof.
  intros Hok Hcap Hg Hfree. destruct (Hok id g Hg) as [_ Hid].
  unfold MirrorBuddyGroupMapper_addGroup, MirrorBuddyGroup_constructFromTargetIDs. cbn [negb andb orb].
  rewrite (proj2 (Z.eqb_neq id 0)), (proj2 (Z.eqb_neq cap 0)) by done.
  rewrite !getBuddyGroupID_free by (auto; intros; eapply Hfree; eauto). cbn [orb].
  unfold rb_insert. by rewrite Hg.
Qed.

Lemma addGroup_update_ignored_witness :
  let g := MkMirrorBuddyGroup 1 11 12 0 4 [] 4 [0; 0; 0; 0] 0 0 1 in
  MirrorBuddyGroupMapper_addGroup true (fun _ => 0) 4 {[1 := g]} None 1 13 14 true
    = ({[1 := g]}, FhgfsOpsErr_SUCCESS).
Proof.
  intros g. apply (addGroup_update_ignored (fun _ => 0) 4 {[1 := g]} 1 13 14 g); [|lia|done|];
    intros k g'; rewrite lookup_singleton_Some; by intros [<- <-].
Defined.

(** A synchronisation with a received group list makes the map exactly that
    list: every listed group is found under its ID with its new targets, a group that
    existed keeps its sequence state, and no other group remains. *)
Theorem syncGroups_content garbage cap m l :
  cap <> 0 -> mapper_ok m -> NoDup (bgm_groupID <$> l) ->
  exists m' gone, __MirrorBuddyGroupMapper_syncGroupsUnlocked true garbage cap m l = Some (m', gone) /\
    (forall x, x ∈ l -> exists g, m' !! bgm_groupID x = Some g /\
       MirrorBuddyGroupMapper_getPrimaryTargetID m' (bgm_groupID x) = bgm_primaryTargetID x /\
       MirrorBuddyGroupMapper_getSecondaryTargetID m' (bgm_groupID x) = bgm_secondaryTargetID x /\
       forall old, m !! bgm_groupID x = Some old ->
         bg_sequence g = bg_sequence old /\ bg_seqNoInFlight g = bg_seqNoInFlight old) /\
    (forall k g, m' !! k = Some g -> k ∈ bgm_groupID <$> l).
Proof.
  intros Hcap Hok Hnd. destruct (syncGroups_spec garbage cap m l Hcap Hok Hnd) as [gone Hs].
  eexists _, gone. split; [exact Hs|]. split.
  - intros x Hx. pose proof (fill_lookup bgm_groupID (synced_group garbage cap m) l x Hnd Hx) as Hf.
    exists (synced_group garbage cap m x). unfold MirrorBuddyGroupMapper_getPrimaryTargetID,
      MirrorBuddyGroupMapper_getSecondaryTargetID. rewrite Hf.
    unfold synced_group. destruct (m !! bgm_groupID x) as [old|]; split_and!; try done.
    by intros ? [= <-].
  - intros k g Hk. apply fill_lookup_inv in Hk as (x & Hx & <- & _). by apply list_elem_of_fmap_2.
Qed.

Lemma syncGroups_content_witness :
  let l := [MkBuddyGroupMapping 1 11 12; MkBuddyGroupMapping 2 21 22] in
  exists m' gone, __MirrorBuddyGroupMapper_syncGroupsUnlocked true (fun _ => 0) 4 ∅ l = Some (m', gone) /\
    (forall x, x ∈ l -> exists g, m' !! bgm_groupID x = Some g /\
       MirrorBuddyGroupMapper_getPrimaryTargetID m' (bgm_groupID x) = bgm_primaryTargetID x /\
       MirrorBuddyGroupMapper_getSecondaryTargetID m' (bgm_groupID x) = bgm_secondaryTargetID x /\
       forall old, (∅ : MirrorBuddyGroupMapper) !! bgm_groupID x = Some old ->
         bg_sequence g = bg_sequence old /\ bg_seqNoInFlight g = bg_seqNoInFlight old) /\
    (forall k g, m' !! k = Some g -> k ∈ bgm_groupID <$> l).
Proof.
  intros l. apply (syncGroups_content (fun _ => 0) 4 ∅ l); [lia|by intros k g|].
  by apply (bool_decide_unpack _).
Defined.
