(* ===== verification/CommKit.v ===== *)
(** * The communication kit: requests to many targets in one thread

    Models [client_module/source/net/filesystem/FhgfsOpsCommKit.c],
    [FhgfsOpsCommKit.h], [FhgfsOpsCommKitCommon.h] and [SocketTk_poll] of
    [common/toolkit/SocketTk.c].  One call of [FhgfsOpsCommkit_communicate] drives a
    state machine per target (prepare, send header, send data, receive header,
    receive data, invalidate, cleanup, retry, done) until all of them are done.

    The kind of request is a table of functions ([CommKitContextOps]); the struct that
    embeds a [CommKitTargetInfo] is the type [P], its fields are [ti_ext].  What the
    outside world answers (connections, socket results, poll results, signals, the maps
    of targets and groups at that time) is a record per round and target, the
    environment; [E] is the part of it that the functions of the table use.  [None] is
    a kernel BUG or an access through a NULL pointer or outside of the header buffer.
    NVFS support and the fault injection points are compiled out; log output and the
    flags that only suppress repeated log output are left out. *)

From S2P Require Import Prelude StorageErrors Wire NetMessage StripePattern BuddyGroup Mappers.

Definition BEEGFS_COMMKIT_MSGBUF_SIZE : Z := 4096.
Definition CK_RETRY_BUDDY_FALLBACK : Z := 1.
Definition CK_RETRY_LOOP_EAGAIN : Z := 2.

Definition POLLIN : Z := 0x01.
Definition POLLOUT : Z := 0x04.
Definition POLLERR : Z := 0x08.
Definition POLLHUP : Z := 0x10.
Definition POLLNVAL : Z := 0x20.

(** ** Data *)

(** A value that is not an enumerator (the [default] case of the loop) is
    [CommKitState_Other]. *)
Inductive CommKitState :=
| CommKitState_PREPARE
| CommKitState_SENDHEADER
| CommKitState_SENDDATA
| CommKitState_RECVHEADER
| CommKitState_RECVDATA
| CommKitState_SOCKETINVALIDATE
| CommKitState_CLEANUP
| CommKitState_RETRYWAIT
| CommKitState_DONE
| CommKitState_Other (value : Z).

#[export] Instance CommKitState_eq_dec : EqDecision CommKitState.
Proof. solve_decision. Defined.

(** [poll._events] and [poll.revents] of a connected socket. *)
Record Socket := MkSocket { sk_events : Z; sk_revents : Z }.

(** [ti_node] is the referenced node, if any; a NULL pointer is [None]. *)
Record CommKitTargetInfo (P : Type) := MkCommKitTargetInfo {
  ti_state : CommKitState;
  ti_headerBuffer : option (list byte);
  ti_targetID : Z;
  ti_selectedTargetID : Z;
  ti_useBuddyMirrorSecond : bool;
  ti_node : option Z;
  ti_socket : option Socket;
  ti_headerSize : Z;
  ti_nodeResult : Z;
  ti_ext : P
}.
Arguments MkCommKitTargetInfo {P}.
Arguments ti_state {P}.
Arguments ti_headerBuffer {P}.
Arguments ti_targetID {P}.
Arguments ti_selectedTargetID {P}.
Arguments ti_useBuddyMirrorSecond {P}.
Arguments ti_node {P}.
Arguments ti_socket {P}.
Arguments ti_headerSize {P}.
Arguments ti_nodeResult {P}.
Arguments ti_ext {P}.

Section Setters.
Context {P : Type}.
Implicit Type info : CommKitTargetInfo P.

Definition set_state (s : CommKitState) info : CommKitTargetInfo P :=
  MkCommKitTargetInfo s (ti_headerBuffer info) (ti_targetID info) (ti_selectedTargetID info)
    (ti_useBuddyMirrorSecond info) (ti_node info) (ti_socket info) (ti_headerSize info)
    (ti_nodeResult info) (ti_ext info).
Definition set_headerBuffer (b : option (list byte)) info : CommKitTargetInfo P :=
  MkCommKitTargetInfo (ti_state info) b (ti_targetID info) (ti_selectedTargetID info)
    (ti_useBuddyMirrorSecond info) (ti_node info) (ti_socket info) (ti_headerSize info)
    (ti_nodeResult info) (ti_ext info).
Definition set_selectedTargetID (t : Z) info : CommKitTargetInfo P :=
  MkCommKitTargetInfo (ti_state info) (ti_headerBuffer info) (ti_targetID info) t
    (ti_useBuddyMirrorSecond info) (ti_node info) (ti_socket info) (ti_headerSize info)
    (ti_nodeResult info) (ti_ext info).
Definition set_mirrorSecond (b : bool) info : CommKitTargetInfo P :=
  MkCommKitTargetInfo (ti_state info) (ti_headerBuffer info) (ti_targetID info)
    (ti_selectedTargetID info) b (ti_node info) (ti_socket info) (ti_headerSize info)
    (ti_nodeResult info) (ti_ext info).
Definition set_node (n : option Z) info : CommKitTargetInfo P :=
  MkCommKitTargetInfo (ti_state info) (ti_headerBuffer info) (ti_targetID info)
    (ti_selectedTargetID info) (ti_useBuddyMirrorSecond info) n (ti_socket info)
    (ti_headerSize info) (ti_nodeResult info) (ti_ext info).
Definition set_socket (s : option Socket) info : CommKitTargetInfo P :=
  MkCommKitTargetInfo (ti_state info) (ti_headerBuffer info) (ti_targetID info)
    (ti_selectedTargetID info) (ti_useBuddyMirrorSecond info) (ti_node info) s
    (ti_headerSize info) (ti_nodeResult info) (ti_ext info).
Definition set_headerSize (n : Z) info : CommKitTargetInfo P :=
  MkCommKitTargetInfo (ti_state info) (ti_headerBuffer info) (ti_targetID info)
    (ti_selectedTargetID info) (ti_useBuddyMirrorSecond info) (ti_node info) (ti_socket info)
    n (ti_nodeResult info) (ti_ext info).
Definition set_nodeResult (r : Z) info : CommKitTargetInfo P :=
  MkCommKitTargetInfo (ti_state info) (ti_headerBuffer info) (ti_targetID info)
    (ti_selectedTargetID info) (ti_useBuddyMirrorSecond info) (ti_node info) (ti_socket info)
    (ti_headerSize info) r (ti_ext info).
Definition set_ext (x : P) info : CommKitTargetInfo P :=
  MkCommKitTargetInfo (ti_state info) (ti_headerBuffer info) (ti_targetID info)
    (ti_selectedTargetID info) (ti_useBuddyMirrorSecond info) (ti_node info) (ti_socket info)
    (ti_headerSize info) (ti_nodeResult info) x.

Definition commkit_initTargetInfo (targetID : Z) (ext : P) : CommKitTargetInfo P :=
  MkCommKitTargetInfo CommKitState_PREPARE None targetID 0 false None None 0
    (- FhgfsOpsErr_INTERNAL) ext.
End Setters.

(** The counters of [CommKitContext]; [cc_pollState] lists the positions of the targets
    whose sockets were added to the poll list in this round. *)
Record CommKitContext := MkCommKitContext {
  cc_numRetryWaiters : Z;
  cc_numDone : Z;
  cc_numAcquiredConns : Z;
  cc_numUnconnectable : Z;
  cc_numBufferless : Z;
  cc_pollTimedOut : bool;
  cc_pollState : list nat;
  cc_numPollSocks : Z;
  cc_currentRetryNum : Z
}.

Definition add_numRetryWaiters (d : Z) (c : CommKitContext) : CommKitContext :=
  MkCommKitContext (u32 (cc_numRetryWaiters c + d)) (cc_numDone c) (cc_numAcquiredConns c)
    (cc_numUnconnectable c) (cc_numBufferless c) (cc_pollTimedOut c) (cc_pollState c)
    (cc_numPollSocks c) (cc_currentRetryNum c).
Definition add_numDone (d : Z) (c : CommKitContext) : CommKitContext :=
  MkCommKitContext (cc_numRetryWaiters c) (u32 (cc_numDone c + d)) (cc_numAcquiredConns c)
    (cc_numUnconnectable c) (cc_numBufferless c) (cc_pollTimedOut c) (cc_pollState c)
    (cc_numPollSocks c) (cc_currentRetryNum c).
Definition add_numAcquiredConns (d : Z) (c : CommKitContext) : CommKitContext :=
  MkCommKitContext (cc_numRetryWaiters c) (cc_numDone c) (u32 (cc_numAcquiredConns c + d))
    (cc_numUnconnectable c) (cc_numBufferless c) (cc_pollTimedOut c) (cc_pollState c)
    (cc_numPollSocks c) (cc_currentRetryNum c).
Definition add_numUnconnectable (d : Z) (c : CommKitContext) : CommKitContext :=
  MkCommKitContext (cc_numRetryWaiters c) (cc_numDone c) (cc_numAcquiredConns c)
    (u32 (cc_numUnconnectable c + d)) (cc_numBufferless c) (cc_pollTimedOut c) (cc_pollState c)
    (cc_numPollSocks c) (cc_currentRetryNum c).
Definition add_numBufferless (d : Z) (c : CommKitContext) : CommKitContext :=
  MkCommKitContext (cc_numRetryWaiters c) (cc_numDone c) (cc_numAcquiredConns c)
    (cc_numUnconnectable c) (u32 (cc_numBufferless c + d)) (cc_pollTimedOut c) (cc_pollState c)
    (cc_numPollSocks c) (cc_currentRetryNum c).
Definition set_pollTimedOut (b : bool) (c : CommKitContext) : CommKitContext :=
  MkCommKitContext (cc_numRetryWaiters c) (cc_numDone c) (cc_numAcquiredConns c)
    (cc_numUnconnectable c) (cc_numBufferless c) b (cc_pollState c)
    (cc_numPollSocks c) (cc_currentRetryNum c).
Definition add_pollSock (i : nat) (c : CommKitContext) : CommKitContext :=
  MkCommKitContext (cc_numRetryWaiters c) (cc_numDone c) (cc_numAcquiredConns c)
    (cc_numUnconnectable c) (cc_numBufferless c) (cc_pollTimedOut c) (cc_pollState c ++ [i])
    (u32 (cc_numPollSocks c + 1)) (cc_currentRetryNum c).
Definition set_currentRetryNum (n : Z) (c : CommKitContext) : CommKitContext :=
  MkCommKitContext (cc_numRetryWaiters c) (cc_numDone c) (cc_numAcquiredConns c)
    (cc_numUnconnectable c) (cc_numBufferless c) (cc_pollTimedOut c) (cc_pollState c)
    (cc_numPollSocks c) n.
Definition reset_numRetryWaiters (c : CommKitContext) : CommKitContext :=
  MkCommKitContext 0 (cc_numDone c) (cc_numAcquiredConns c)
    (cc_numUnconnectable c) (cc_numBufferless c) (cc_pollTimedOut c) (cc_pollState c)
    (cc_numPollSocks c) (cc_currentRetryNum c).
(** The assignments at the start of a round. *)
Definition start_round (c : CommKitContext) : CommKitContext :=
  MkCommKitContext (cc_numRetryWaiters c) (cc_numDone c) (cc_numAcquiredConns c)
    0 0 (cc_pollTimedOut c) [] 0 (cc_currentRetryNum c).

(** ** The environment *)

(** Result of one receive call: the bytes, none of them when the peer has closed the
    connection, or an error; the call returns the negative error code. *)
Inductive RecvResult := Recv (data : list byte) | RecvErr (err : positive).

(** [te_headerBuf w] is the memory the pool returns ([w]: the allocation may wait),
    [te_node] the node of a target or the error of resolving it, [te_conn w] whether the
    pool returns a connection ([w]: the call may wait), [te_sendHeader] the result of
    sending the header, [te_recv1] and [te_recv2] the results of the receive calls for
    the header and [te_revents1], [te_revents2] the events they leave in the socket. *)
Record TargetEnv (E : Type) := MkTargetEnv {
  te_signal_io : bool;
  te_signal_invalidate : bool;
  te_signal_cleanup : bool;
  te_active_io : bool;
  te_active_invalidate : bool;
  te_headerBuf : bool -> option (list byte);
  te_states : TargetStateStore;
  te_buddies : MirrorBuddyGroupMapper;
  te_node : Z -> Z + Z;
  te_conn : bool -> bool;
  te_sendHeader : Z;
  te_recv1 : RecvResult;
  te_revents1 : Z;
  te_recv2 : RecvResult;
  te_revents2 : Z;
  te_io : E
}.
Arguments MkTargetEnv {E}.
Arguments te_signal_io {E}.
Arguments te_signal_invalidate {E}.
Arguments te_signal_cleanup {E}.
Arguments te_active_io {E}.
Arguments te_active_invalidate {E}.
Arguments te_headerBuf {E}.
Arguments te_states {E}.
Arguments te_buddies {E}.
Arguments te_node {E}.
Arguments te_conn {E}.
Arguments te_sendHeader {E}.
Arguments te_recv1 {E}.
Arguments te_revents1 {E}.
Arguments te_recv2 {E}.
Arguments te_revents2 {E}.
Arguments te_io {E}.

(** One round: what each target meets, the error of the wait queue and the event masks
    of the sockets at the poll, and the maps at the start of a retry. *)
Record RoundEnv (E : Type) := MkRoundEnv {
  re_target : nat -> TargetEnv E;
  re_pollErr : option positive;
  re_pollMask : nat -> Z;
  re_states : TargetStateStore;
  re_buddies : MirrorBuddyGroupMapper
}.
Arguments MkRoundEnv {E}.
Arguments re_target {E}.
Arguments re_pollErr {E}.
Arguments re_pollMask {E}.
Arguments re_states {E}.
Arguments re_buddies {E}.

(** ** The table of functions of a request kind *)

Inductive CKTargetBadAction := CK_SKIP_TARGET | CK_CONTINUE_TARGET.

(** A NULL function pointer is [None]. *)
Record CommKitContextOps (P E : Type) := MkCommKitContextOps {
  op_selectedTargetBad :
    option (CommKitTargetInfo P -> CombinedTargetState -> CommKitTargetInfo P * CKTargetBadAction);
  op_prepareHeader : E -> CommKitTargetInfo P -> option (CommKitTargetInfo P * Z);
  op_sendData : option (E -> CommKitTargetInfo P -> option (CommKitTargetInfo P * Z));
  op_recvHeader : option (E -> CommKitTargetInfo P -> option (CommKitTargetInfo P * Z));
  op_recvData : option (E -> CommKitTargetInfo P -> option (CommKitTargetInfo P * Z));
  op_retryFlags : Z
}.
Arguments MkCommKitContextOps {P E}.
Arguments op_selectedTargetBad {P E}.
Arguments op_prepareHeader {P E}.
Arguments op_sendData {P E}.
Arguments op_recvHeader {P E}.
Arguments op_recvData {P E}.
Arguments op_retryFlags {P E}.

(** The configuration values the kit reads. *)
Record CommKitConfig := MkCommKitConfig {
  cfg_connRetriesEnabled : bool;
  cfg_connNumCommRetries : Z;
  cfg_connMsgLongTimeout : Z
}.

(** ** The stages of a target *)

Section Engine.
Context {P E : Type}.
Context (ops : CommKitContextOps P E).
Context (cfg : CommKitConfig).
(** The type of the file's stripe pattern; [None] without [ioInfo]. *)
Context (ioPattern : option Z).

Implicit Type info : CommKitTargetInfo P.
Implicit Type e : TargetEnv E.
Implicit Type ctx : CommKitContext.

Definition isBuddyMirror : bool :=
  match ioPattern with Some type => type =? STRIPEPATTERN_BuddyMirror | None => false end.

(** [i] is the position of the target in the list. *)
Definition __commkit_add_socket_pollstate (i : nat) ctx info (pollEvents : Z) :
    option (CommKitContext * CommKitTargetInfo P) :=
  _ ← ti_socket info;
  Some (add_pollSock i ctx, set_socket (Some (MkSocket pollEvents 0)) info).

(** Whether the caller may do its I/O. *)
Definition __commkit_prepare_io (i : nat) e ctx info (events : Z) :
    option (bool * CommKitContext * CommKitTargetInfo P) :=
  cancel ← (if te_signal_io e then Some true
            else _ ← ti_node info; Some (negb (te_active_io e)));
  if (cancel : bool) then Some (false, ctx, set_state CommKitState_SOCKETINVALIDATE info)
  else if cc_pollTimedOut ctx then
    Some (false, ctx, set_state CommKitState_SOCKETINVALIDATE
      (set_nodeResult (- FhgfsOpsErr_COMMUNICATION) info))
  else
    socket ← ti_socket info;
    if Z.land (sk_revents socket) events =? 0 then
      '(ctx, info) ← __commkit_add_socket_pollstate i ctx info events;
      Some (false, ctx, info)
    else Some (true, ctx, info).

(** The labels [cleanup] and [error] of [__commkit_prepare_generic]. *)
Definition prepare_cleanup ctx info : bool * CommKitContext * CommKitTargetInfo P :=
  (false, ctx, set_state CommKitState_CLEANUP info).
Definition prepare_error ctx info : bool * CommKitContext * CommKitTargetInfo P :=
  (false, ctx, set_headerBuffer None info).

(** From the node reference on. *)
Definition prepare_connect e ctx (allowWaitForConn : bool) info :
    option (bool * CommKitContext * CommKitTargetInfo P) :=
  match te_node e (ti_selectedTargetID info) with
  | inl resolveErr => Some (prepare_cleanup ctx (set_nodeResult (- resolveErr) (set_node None info)))
  | inr node =>
      let info := set_node (Some node) info in
      if negb (te_conn e allowWaitForConn) then
        if negb allowWaitForConn then
          Some (prepare_error (add_numUnconnectable 1 ctx) (set_node None info))
        else Some (prepare_cleanup ctx info)
      else
        let info := set_socket (Some (MkSocket 0 0)) info in
        '(info, headerSize) ← op_prepareHeader ops (te_io e) info;
        let info := set_headerSize headerSize info in
        if headerSize =? 0 then Some (prepare_cleanup ctx info)
        else Some (true, add_numAcquiredConns 1 ctx, set_state CommKitState_SENDHEADER info)
  end.

(** A target that must not be used: no state known, offline, or (mirrored files) not good. *)
Definition target_unusable (targetState : CombinedTargetState) (getStateRes : bool) : bool :=
  negb getStateRes ||
  (cts_reachabilityState targetState =? TargetReachabilityState_OFFLINE) ||
  (isBuddyMirror && negb (cts_consistencyState targetState =? TargetConsistencyState_GOOD)).

(** The target a request goes to: the group's primary or secondary for mirrored files. *)
Definition select_target (buddies : MirrorBuddyGroupMapper) (targetID : Z) (second : bool) : Z :=
  if isBuddyMirror then
    if second then MirrorBuddyGroupMapper_getSecondaryTargetID buddies targetID
    else MirrorBuddyGroupMapper_getPrimaryTargetID buddies targetID
  else targetID.

Definition __commkit_prepare_generic e ctx info :
    option (bool * CommKitContext * CommKitTargetInfo P) :=
  let allowWaitForConn := cc_numAcquiredConns ctx =? 0 in
  let info := set_selectedTargetID (ti_targetID info)
    (set_nodeResult (- FhgfsOpsErr_COMMUNICATION) (set_socket None info)) in
  let info := set_headerBuffer (te_headerBuf e allowWaitForConn) info in
  match ti_headerBuffer info with
  | None => Some (false, add_numBufferless 1 ctx, info)
  | Some _ =>
      let info := set_selectedTargetID
        (select_target (te_buddies e) (ti_targetID info) (ti_useBuddyMirrorSecond info)) info in
      if isBuddyMirror && (ti_selectedTargetID info =? 0) then
        Some (prepare_cleanup ctx (set_nodeResult (- FhgfsOpsErr_UNKNOWNTARGET) info))
      else
        let '(targetState, getStateRes) :=
          TargetStateStore_getState (te_states e) (ti_selectedTargetID info) in
        if target_unusable targetState getStateRes then
          let info := set_state CommKitState_CLEANUP info in
          let '(info, targetAction) :=
            match op_selectedTargetBad ops with
            | Some bad => bad info targetState
            | None => (info, CK_SKIP_TARGET)
            end in
          match targetAction with
          | CK_SKIP_TARGET => Some (prepare_error ctx info)
          | CK_CONTINUE_TARGET => prepare_connect e ctx allowWaitForConn info
          end
        else prepare_connect e ctx allowWaitForConn info
  end.

(** The header has to lie in the buffer that is sent. *)
Definition __commkit_sendheader_generic e info : option (CommKitTargetInfo P) :=
  buf ← ti_headerBuffer info;
  _ ← ti_socket info;
  if zlen buf <? ti_headerSize info then None
  else if negb (te_sendHeader e =? ti_headerSize info) then
    Some (set_state CommKitState_SOCKETINVALIDATE info)
  else Some (set_headerSize 0 (set_state CommKitState_SENDDATA info)).

Definition __commkit_senddata_generic
    (sendData : E -> CommKitTargetInfo P -> option (CommKitTargetInfo P * Z)) (i : nat) e ctx info :
    option (CommKitContext * CommKitTargetInfo P) :=
  '(ready, ctx, info) ← __commkit_prepare_io i e ctx info POLLOUT;
  if negb ready then Some (ctx, info)
  else
    '(info, sendRes) ← sendData (te_io e) info;
    if sendRes <? 0 then
      if sendRes =? - EFAULT then
        Some (ctx, set_state CommKitState_SOCKETINVALIDATE
          (set_nodeResult (- FhgfsOpsErr_ADDRESSFAULT) info))
      else Some (ctx, set_state CommKitState_SOCKETINVALIDATE info)
    else if sendRes =? 0 then
      __commkit_add_socket_pollstate i ctx (set_state CommKitState_RECVHEADER info) POLLIN
    else __commkit_add_socket_pollstate i ctx info POLLOUT.

(** [Socket_recvT_kernel] into the header buffer behind the bytes that are there; [size]
    is what may be received, [revents] the events the call leaves in the socket. *)
Definition recv_header (r : RecvResult) (revents size : Z) info :
    option (CommKitTargetInfo P * Z) :=
  buf ← ti_headerBuffer info;
  socket ← ti_socket info;
  let info := set_socket (Some (MkSocket (sk_events socket) revents)) info in
  match r with
  | RecvErr err => Some (info, Z.neg err)
  | Recv data =>
      let data := take (Z.to_nat size) data in
      if zlen buf <? ti_headerSize info + zlen data then None
      else Some (set_headerSize (u32 (ti_headerSize info + zlen data))
        (set_headerBuffer (Some (splice (Z.to_nat (ti_headerSize info)) data buf)) info), zlen data)
  end.

(** Receive failed, or the whole message is in the buffer. *)
Definition recvheader_finish
    (recvHeader : E -> CommKitTargetInfo P -> option (CommKitTargetInfo P * Z)) e ctx info
    (recvRes : Z) : option (CommKitContext * CommKitTargetInfo P) :=
  if recvRes <=? 0 then Some (ctx, set_state CommKitState_SOCKETINVALIDATE info)
  else
    '(info, recvRes) ← recvHeader (te_io e) info;
    Some (ctx, set_state
      (if recvRes <? 0 then CommKitState_SOCKETINVALIDATE else CommKitState_RECVDATA) info).

Definition __commkit_recvheader_generic
    (recvHeader : E -> CommKitTargetInfo P -> option (CommKitTargetInfo P * Z)) (i : nat) e ctx info :
    option (CommKitContext * CommKitTargetInfo P) :=
  '(ready, ctx, info) ← __commkit_prepare_io i e ctx info POLLIN;
  if negb ready then Some (ctx, info)
  else
    let first := ti_headerSize info <? NETMSG_MIN_LENGTH in
    '(info, recvRes) ←
      (if first then recv_header (te_recv1 e) (te_revents1 e)
         (NETMSG_MIN_LENGTH - ti_headerSize info) info
       else Some (info, - EREMOTEIO));
    if first && (recvRes <=? 0) then recvheader_finish recvHeader e ctx info recvRes
    else
      buf ← ti_headerBuffer info;
      match NetMessage_extractMsgLengthFromBuf buf with
      | Done msgLength _ =>
          if BEEGFS_COMMKIT_MSGBUF_SIZE <? msgLength then
            Some (ctx, set_nodeResult (- FhgfsOpsErr_COMMUNICATION)
              (set_state (CommKitState_Other (-5)) info))
          else
            let second := ti_headerSize info <? msgLength in
            '(info, recvRes) ←
              (if second then recv_header (te_recv2 e) (te_revents2 e)
                 (msgLength - ti_headerSize info) info
               else Some (info, recvRes));
            if second && (recvRes <=? 0) then recvheader_finish recvHeader e ctx info recvRes
            else if ti_headerSize info <? msgLength then Some (ctx, info)
            else recvheader_finish recvHeader e ctx info recvRes
      | _ => None
      end.

Definition __commkit_recvdata_generic
    (recvData : E -> CommKitTargetInfo P -> option (CommKitTargetInfo P * Z)) (i : nat) e ctx info :
    option (CommKitContext * CommKitTargetInfo P) :=
  '(ready, ctx, info) ← __commkit_prepare_io i e ctx info POLLIN;
  if negb ready then Some (ctx, info)
  else
    '(info, recvRes) ← recvData (te_io e) info;
    if recvRes <? 0 then
      if recvRes =? - EFAULT then
        Some (ctx, set_state CommKitState_SOCKETINVALIDATE
          (set_nodeResult (- FhgfsOpsErr_ADDRESSFAULT) info))
      else Some (ctx, set_state CommKitState_SOCKETINVALIDATE info)
    else if recvRes =? 0 then Some (ctx, set_state CommKitState_CLEANUP info)
    else __commkit_add_socket_pollstate i ctx info POLLIN.

(** The connection is closed instead of being returned to its pool. *)
Definition __commkit_socketinvalidate_generic e ctx info :
    option (CommKitContext * CommKitTargetInfo P) :=
  _ ← ti_node info;
  _ ← ti_socket info;
  let info :=
    if te_signal_invalidate e then set_nodeResult (- FhgfsOpsErr_INTERRUPTED) info
    else if negb (te_active_invalidate e) then set_nodeResult (- FhgfsOpsErr_UNKNOWNNODE) info
    else if ti_nodeResult info =? - FhgfsOpsErr_ADDRESSFAULT then info
    else set_nodeResult (- FhgfsOpsErr_COMMUNICATION) info in
  Some (add_numAcquiredConns (-1) ctx,
    set_state CommKitState_CLEANUP (set_socket None info)).

(** A result that is worth another attempt. *)
Definition retryable (nodeResult : Z) : bool :=
  (nodeResult =? - FhgfsOpsErr_COMMUNICATION) ||
  ((nodeResult =? - FhgfsOpsErr_AGAIN) && negb (Z.land (op_retryFlags ops) CK_RETRY_LOOP_EAGAIN =? 0)).

Definition retries_left ctx : bool :=
  cfg_connRetriesEnabled cfg &&
  ((cfg_connNumCommRetries cfg =? 0) || (cc_currentRetryNum ctx <? cfg_connNumCommRetries cfg)).

(** A returned connection stays in [info->socket]; its node is dereferenced. *)
Definition __commkit_cleanup_generic e ctx info : option (CommKitContext * CommKitTargetInfo P) :=
  ctx ← (match ti_socket info with
         | Some _ => _ ← ti_node info; Some (add_numAcquiredConns (-1) ctx)
         | None => Some ctx
         end);
  let info := set_node None (set_headerBuffer None info) in
  if retryable (ti_nodeResult info) && negb (te_signal_cleanup e) && retries_left ctx then
    Some (add_numRetryWaiters 1 ctx, set_state CommKitState_RETRYWAIT info)
  else
    let info :=
      if retryable (ti_nodeResult info) && te_signal_cleanup e
      then set_nodeResult (- FhgfsOpsErr_INTERRUPTED) info else info in
    Some (add_numDone 1 ctx, set_state CommKitState_DONE info).

(** ** One round *)

(** The cases of the switch that fall through. *)
Definition case_recvdata (i : nat) e ctx info : option (CommKitContext * CommKitTargetInfo P) :=
  match op_recvData ops with
  | Some recvData => __commkit_recvdata_generic recvData i e ctx info
  | None => __commkit_cleanup_generic e ctx info
  end.
Definition case_recvheader (i : nat) e ctx info : option (CommKitContext * CommKitTargetInfo P) :=
  match op_recvHeader ops with
  | Some recvHeader => __commkit_recvheader_generic recvHeader i e ctx info
  | None => case_recvdata i e ctx info
  end.
Definition case_senddata (i : nat) e ctx info : option (CommKitContext * CommKitTargetInfo P) :=
  match op_sendData ops with
  | Some sendData => __commkit_senddata_generic sendData i e ctx info
  | None => case_recvheader i e ctx info
  end.
Definition case_sendheader (i : nat) e ctx info : option (CommKitContext * CommKitTargetInfo P) :=
  info ← __commkit_sendheader_generic e info;
  __commkit_add_socket_pollstate i ctx info
    (match op_sendData ops with Some _ => POLLOUT | None => POLLIN end).

Definition commkit_step (i : nat) e ctx info : option (CommKitContext * CommKitTargetInfo P) :=
  match ti_state info with
  | CommKitState_PREPARE =>
      '(ok, ctx, info) ← __commkit_prepare_generic e ctx info;
      if (ok : bool) then case_sendheader i e ctx info else Some (ctx, info)
  | CommKitState_SENDHEADER => case_sendheader i e ctx info
  | CommKitState_SENDDATA => case_senddata i e ctx info
  | CommKitState_RECVHEADER => case_recvheader i e ctx info
  | CommKitState_RECVDATA => case_recvdata i e ctx info
  | CommKitState_CLEANUP => __commkit_cleanup_generic e ctx info
  | CommKitState_SOCKETINVALIDATE =>
      '(ctx, info) ← __commkit_socketinvalidate_generic e ctx info;
      __commkit_cleanup_generic e ctx info
  | CommKitState_RETRYWAIT | CommKitState_DONE => Some (ctx, info)
  | CommKitState_Other _ => None
  end.

(** The loop over the targets, from position [i] on. *)
Fixpoint commkit_steps (env : nat -> TargetEnv E) (i : nat) ctx (infos : list (CommKitTargetInfo P)) :
    option (CommKitContext * list (CommKitTargetInfo P)) :=
  match infos with
  | [] => Some (ctx, [])
  | info :: infos' =>
      '(ctx, info) ← commkit_step i (env i) ctx info;
      '(ctx, infos') ← commkit_steps env (S i) ctx infos';
      Some (ctx, info :: infos')
  end.

(** *** Polling *)

Definition poll_interesting (events mask : Z) : bool :=
  negb (Z.land mask (Z.lor (Z.lor (Z.lor events POLLERR) POLLHUP) POLLNVAL) =? 0).

(** The sockets of the poll list get the events that occurred; [j] is the position. *)
Fixpoint poll_sockets (mask : nat -> Z) (polled : list nat) (j : nat)
    (infos : list (CommKitTargetInfo P)) : Z * list (CommKitTargetInfo P) :=
  match infos with
  | [] => (0, [])
  | info :: infos' =>
      let '(n, infos') := poll_sockets mask polled (S j) infos' in
      match ti_socket info with
      | Some socket =>
          if bool_decide (j ∈ polled) && poll_interesting (sk_events socket) (mask j)
          then (n + 1, set_socket (Some (MkSocket (sk_events socket) (mask j))) info :: infos')
          else (n, info :: infos')
      | None => (n, info :: infos')
      end
  end.

(** The number of sockets with events, or the (negative) error of the wait queue, which
    is looked at only by a call that would have to wait. *)
Definition SocketTk_poll (timeoutMS : Z) (pollErr : option positive) (mask : nat -> Z) (polled : list nat)
    (infos : list (CommKitTargetInfo P)) : Z * list (CommKitTargetInfo P) :=
  let '(numSocksWithREvents, infos) := poll_sockets mask polled 0 infos in
  match pollErr with
  | Some err =>
      if (numSocksWithREvents =? 0) && negb (timeoutMS =? 0) then (Z.neg err, infos)
      else (numSocksWithREvents, infos)
  | None => (numSocksWithREvents, infos)
  end.

Definition numWaiters ctx : Z :=
  u32 (cc_numPollSocks ctx + cc_numRetryWaiters ctx + cc_numDone ctx + cc_numUnconnectable ctx +
       cc_numBufferless ctx).

Definition __FhgfsOpsCommKitCommon_pollStateSocks (r : RoundEnv E) (numStates : Z) ctx
    (infos : list (CommKitTargetInfo P)) : CommKitContext * list (CommKitTargetInfo P) :=
  let timeoutMS := if numWaiters ctx <? numStates then 0 else cfg_connMsgLongTimeout cfg in
  let '(pollRes, infos) := SocketTk_poll timeoutMS (re_pollErr r) (re_pollMask r) (cc_pollState ctx) infos in
  if (negb (timeoutMS =? 0) && (pollRes <=? 0)) || (pollRes <? 0)
  then (set_pollTimedOut true ctx, infos) else (ctx, infos).

(** *** Starting a retry *)

(** What the loop over the waiting targets finds out. *)
Record RetryPlan := MkRetryPlan {
  rp_cancelRetries : bool; rp_resetRetries : bool; rp_sleepOnResetRetries : bool
}.

(** One waiting target: [None] cancels all retries. *)
Definition retry_one (states : TargetStateStore) (buddies : MirrorBuddyGroupMapper) (flags : Z)
    (plan : RetryPlan) info : option (RetryPlan * CommKitTargetInfo P) :=
  let targetID := select_target buddies (ti_targetID info) (ti_useBuddyMirrorSecond info) in
  let buddyTargetID := select_target buddies (ti_targetID info) (negb (ti_useBuddyMirrorSecond info)) in
  let '(targetState, getTargetStateRes) := TargetStateStore_getState states targetID in
  let '(buddyTargetState, getBuddyTargetStateRes) :=
    if targetID =? buddyTargetID then (targetState, true)
    else TargetStateStore_getState states buddyTargetID in
  let reach := cts_reachabilityState in
  let cons := cts_consistencyState in
  let good s := (cons s =? TargetConsistencyState_GOOD) && (reach s =? TargetReachabilityState_ONLINE) in
  if (negb getTargetStateRes && (negb (targetID =? buddyTargetID) && negb getBuddyTargetStateRes)) ||
     ((reach targetState =? TargetReachabilityState_OFFLINE) &&
      (reach buddyTargetState =? TargetReachabilityState_OFFLINE))
  then None
  else if negb (Z.land flags CK_RETRY_BUDDY_FALLBACK =? 0) &&
     (negb getTargetStateRes || negb (good targetState)) &&
     (getBuddyTargetStateRes && good buddyTargetState)
  then Some (MkRetryPlan (rp_cancelRetries plan) true false,
    set_state CommKitState_PREPARE
      (set_mirrorSecond (negb (ti_useBuddyMirrorSecond info)) info))
  else if isBuddyMirror && negb (good targetState)
  then Some (MkRetryPlan (rp_cancelRetries plan) true (rp_sleepOnResetRetries plan),
    set_state CommKitState_PREPARE info)
  else if (ti_nodeResult info =? - FhgfsOpsErr_AGAIN) && negb (Z.land flags CK_RETRY_LOOP_EAGAIN =? 0)
  then Some (MkRetryPlan (rp_cancelRetries plan) true (rp_sleepOnResetRetries plan),
    set_state CommKitState_PREPARE info)
  else Some (plan, set_state CommKitState_PREPARE info).

Fixpoint retry_loop (states : TargetStateStore) (buddies : MirrorBuddyGroupMapper) (flags : Z)
    (plan : RetryPlan) (infos : list (CommKitTargetInfo P)) : RetryPlan * list (CommKitTargetInfo P) :=
  match infos with
  | [] => (plan, [])
  | info :: infos' =>
      if bool_decide (ti_state info = CommKitState_RETRYWAIT) then
        match retry_one states buddies flags plan info with
        | None => (MkRetryPlan true (rp_resetRetries plan) (rp_sleepOnResetRetries plan), infos)
        | Some (plan, info) =>
            let '(plan, infos') := retry_loop states buddies flags plan infos' in
            (plan, info :: infos')
        end
      else
        let '(plan, infos') := retry_loop states buddies flags plan infos' in
        (plan, info :: infos')
  end.

(** No more retries: the waiting targets are done with the results they have. *)
Fixpoint cancel_loop ctx (infos : list (CommKitTargetInfo P)) :
    CommKitContext * list (CommKitTargetInfo P) :=
  match infos with
  | [] => (ctx, [])
  | info :: infos' =>
      match ti_state info with
      | CommKitState_RETRYWAIT | CommKitState_PREPARE =>
          let '(ctx, infos') := cancel_loop (add_numDone 1 ctx) infos' in
          (ctx, set_state CommKitState_DONE info :: infos')
      | _ =>
          let '(ctx, infos') := cancel_loop ctx infos' in (ctx, info :: infos')
      end
  end.

Definition __commkit_start_retry (states : TargetStateStore) (buddies : MirrorBuddyGroupMapper)
    (flags : Z) ctx (infos : list (CommKitTargetInfo P)) :
    CommKitContext * list (CommKitTargetInfo P) :=
  let ctx := set_pollTimedOut false (reset_numRetryWaiters ctx) in
  let '(plan, infos) := retry_loop states buddies flags (MkRetryPlan false false true) infos in
  if rp_cancelRetries plan then cancel_loop ctx infos
  else if rp_resetRetries plan then (set_currentRetryNum 0 ctx, infos)
  else (set_currentRetryNum (u32 (cc_currentRetryNum ctx + 1)) ctx, infos).

(** *** The body of the loop *)

Definition commkit_round (r : RoundEnv E) ctx (infos : list (CommKitTargetInfo P)) :
    option (CommKitContext * list (CommKitTargetInfo P)) :=
  '(ctx, infos) ← commkit_steps (re_target r) 0 (start_round ctx) infos;
  let numStates := zlen infos in
  if negb (cc_numPollSocks ctx =? 0) then
    Some (__FhgfsOpsCommKitCommon_pollStateSocks r numStates ctx infos)
  else if negb (cc_numRetryWaiters ctx =? 0) &&
          (u32 (cc_numDone ctx + cc_numRetryWaiters ctx) =? numStates) then
    Some (__commkit_start_retry (re_states r) (re_buddies r) (op_retryFlags ops) ctx infos)
  else Some (ctx, infos).

(** How a call ends: it returns, the kernel stops, or it is still running after [fuel]
    rounds. *)
Inductive CommKitOutcome :=
| CK_Returned (ctx : CommKitContext) (infos : list (CommKitTargetInfo P))
| CK_Bug
| CK_Running (ctx : CommKitContext) (infos : list (CommKitTargetInfo P)).

Fixpoint commkit_loop (env : nat -> RoundEnv E) (fuel round : nat) ctx
    (infos : list (CommKitTargetInfo P)) : CommKitOutcome :=
  match fuel with
  | O => CK_Running ctx infos
  | S fuel' =>
      match commkit_round (env round) ctx infos with
      | None => CK_Bug
      | Some (ctx, infos) =>
          if cc_numDone ctx =? zlen infos then CK_Returned ctx infos
          else commkit_loop env fuel' (S round) ctx infos
      end
  end.

Definition initial_context : CommKitContext := MkCommKitContext 0 0 0 0 0 false [] 0 0.

Definition FhgfsOpsCommkit_communicate (env : nat -> RoundEnv E) (fuel : nat)
    (targetInfos : list (CommKitTargetInfo P)) : CommKitOutcome :=
  commkit_loop env fuel 0 initial_context targetInfos.
End Engine.
