(* ===== verification/CommKitFacts.v ===== *)
(** * The communication kit: invariants and termination

    [OpsLaws] is what the engine needs from a table of functions.  Under these laws one
    step of a target keeps the bookkeeping exact and either makes progress or waits for
    something another step provides; from this follow the invariant of the counters, the
    absence of faults, and that [FhgfsOpsCommkit_communicate] returns. *)

From S2P Require Import Prelude StorageErrors Wire Serialization NetMessage StripePattern BuddyGroup Mappers CommKit.

(** ** Sums over lists *)

Definition sumZ {A} (f : A -> Z) (l : list A) : Z := foldr (fun x acc => f x + acc) 0 l.

Section sumZ.
Context {A : Type}.
Implicit Types (f g : A -> Z) (l k : list A).

Lemma sumZ_app f l k : sumZ f (l ++ k) = sumZ f l + sumZ f k.
Proof. induction l as [|x l IH]; cbn; [done|]. unfold sumZ in *. lia. Qed.

Lemma sumZ_cons f x l : sumZ f (x :: l) = f x + sumZ f l.
Proof. done. Qed.

(** Counting: a sum of zeros and ones. *)
Lemma sumZ_bounds f l : (forall x, 0 <= f x <= 1) -> 0 <= sumZ f l <= zlen l.
Proof.
  intros Hf. induction l as [|x l IH]; cbn; [done|]. specialize (Hf x).
  rewrite zlen_cons. unfold sumZ in *. lia.
Qed.

Lemma sumZ_zero f l : (forall x, 0 <= f x) -> sumZ f l = 0 -> Forall (fun x => f x = 0) l.
Proof.
  intros Hf. induction l as [|x l IH]; cbn; intros H; [constructor|].
  assert (0 <= sumZ f l) by (clear -Hf; induction l as [|y l IH]; cbn; [done|]; specialize (Hf y);
    unfold sumZ in *; lia).
  specialize (Hf x). unfold sumZ in *. constructor; [lia|]. apply IH. lia.
Qed.

Lemma sumZ_all f l : (forall x, 0 <= f x <= 1) -> sumZ f l = zlen l -> Forall (fun x => f x = 1) l.
Proof.
  intros Hf. induction l as [|x l IH]; intros H; [constructor|].
  rewrite sumZ_cons, zlen_cons in H. pose proof (sumZ_bounds f l Hf). pose proof (Hf x).
  constructor; [lia|]. apply IH. lia.
Qed.

Lemma sumZ_const f v l : Forall (fun x => f x = v) l -> sumZ f l = v * zlen l.
Proof.
  induction 1 as [|x l Hx _ IH]; [by rewrite (zlen_nil (A := A)), Z.mul_0_r|].
  rewrite sumZ_cons, zlen_cons, Hx, IH. lia.
Qed.

Lemma sumZ_ext f g l : Forall (fun x => f x = g x) l -> sumZ f l = sumZ g l.
Proof. induction 1 as [|x l Hx _ IH]; cbn; [done|]. unfold sumZ in *. lia. Qed.
End sumZ.

(** ** What the engine expects of a request kind *)

Section Facts.
Context {P E : Type}.
Implicit Type info : CommKitTargetInfo P.
Implicit Type e : TargetEnv E.
Implicit Type c : CommKitContext.

(** What the functions of the table leave alone. *)
Definition frame info info' : Prop :=
  ti_state info' = ti_state info /\ ti_node info' = ti_node info /\ ti_socket info' = ti_socket info /\
  ti_headerSize info' = ti_headerSize info /\
  (zlen <$> ti_headerBuffer info') = (zlen <$> ti_headerBuffer info).

Definition buffer_ok info : Prop :=
  exists buf, ti_headerBuffer info = Some buf /\ zlen buf = BEEGFS_COMMKIT_MSGBUF_SIZE.

Definition header_in info : Prop :=
  buffer_ok info /\ 0 <= ti_headerSize info <= BEEGFS_COMMKIT_MSGBUF_SIZE.

(** The results the engine itself assigns. *)
Definition engine_result (r : Z) : Prop :=
  r = - FhgfsOpsErr_COMMUNICATION \/ r = - FhgfsOpsErr_UNKNOWNTARGET \/ r = - FhgfsOpsErr_INTERRUPTED \/
  r = - FhgfsOpsErr_UNKNOWNNODE \/ r = - FhgfsOpsErr_ADDRESSFAULT.

(** [ok] is an invariant of the result and the embedding struct, [mu] a measure of the data that is still
    to be transferred, [bound] its largest value after a start; [io_ok] holds of the
    socket results that transfer something. *)
Record OpsLaws (ops : CommKitContextOps P E) (ok : Z -> P -> Prop) (mu : P -> nat) (bound : nat)
    (io_ok : E -> Prop) : Prop := {
  law_bound : forall r x, ok r x -> (mu x <= bound)%nat;
  law_engine : forall r r' x, engine_result r' -> ok r x -> ok r' x;
  law_bad : forall f info st info' a, op_selectedTargetBad ops = Some f -> f info st = (info', a) ->
    ok (ti_nodeResult info) (ti_ext info) -> frame info info' /\ ok (ti_nodeResult info') (ti_ext info') /\
      (a = CK_CONTINUE_TARGET -> ti_nodeResult info' = ti_nodeResult info);
  law_prepare : forall (e : E) info, buffer_ok info -> engine_result (ti_nodeResult info) -> ok (ti_nodeResult info) (ti_ext info) ->
    exists info' n, op_prepareHeader ops e info = Some (info', n) /\ frame info info' /\
      ok (ti_nodeResult info') (ti_ext info') /\ 0 < n <= BEEGFS_COMMKIT_MSGBUF_SIZE;
  law_send : forall f (e : E) info, op_sendData ops = Some f -> ok (ti_nodeResult info) (ti_ext info) ->
    exists info' n, f e info = Some (info', n) /\ frame info info' /\ ok (ti_nodeResult info') (ti_ext info') /\
      (mu (ti_ext info') <= mu (ti_ext info))%nat /\
      (io_ok e -> 0 < n -> (mu (ti_ext info') < mu (ti_ext info))%nat);
  law_recvHeader : forall f (e : E) info, op_recvHeader ops = Some f -> header_in info -> ok (ti_nodeResult info) (ti_ext info) ->
    exists info' n, f e info = Some (info', n) /\ frame info info' /\ ok (ti_nodeResult info') (ti_ext info') /\
      (mu (ti_ext info') <= mu (ti_ext info))%nat;
  law_recvData : forall f (e : E) info, op_recvData ops = Some f -> ok (ti_nodeResult info) (ti_ext info) ->
    exists info' n, f e info = Some (info', n) /\ frame info info' /\ ok (ti_nodeResult info') (ti_ext info') /\
      (io_ok e -> 0 < n -> (mu (ti_ext info') < mu (ti_ext info))%nat)
}.

Context {ops : CommKitContextOps P E} {ok : Z -> P -> Prop} {mu : P -> nat} {bound : nat} {io_ok : E -> Prop}.
Context {io_ok_dec : forall x, Decision (io_ok x)}.
Context (laws : OpsLaws ops ok mu bound io_ok).
Context (cfg : CommKitConfig) (ioPattern : option Z).

(** ** Well-formed targets *)

(** A target with a connection: the stages between prepare and cleanup. *)
Definition connected info : Prop :=
  is_Some (ti_node info) /\ is_Some (ti_socket info) /\ header_in info.

Definition wf info : Prop :=
  ok (ti_nodeResult info) (ti_ext info) /\
  match ti_state info with
  | CommKitState_PREPARE | CommKitState_RETRYWAIT | CommKitState_DONE =>
      ti_node info = None /\ ti_headerBuffer info = None
  | CommKitState_SENDHEADER => False
  | CommKitState_CLEANUP => ti_socket info = None \/ is_Some (ti_node info)
  | CommKitState_SENDDATA | CommKitState_RECVHEADER | CommKitState_RECVDATA
  | CommKitState_SOCKETINVALIDATE => connected info
  | CommKitState_Other _ => connected info /\ op_recvHeader ops <> None
  end.

(** Whether the target holds a connection of a pool. *)
Definition holds info : Z :=
  match ti_state info with
  | CommKitState_SENDDATA | CommKitState_RECVHEADER | CommKitState_RECVDATA
  | CommKitState_SOCKETINVALIDATE | CommKitState_Other _ => 1
  | CommKitState_CLEANUP => match ti_socket info with Some _ => 1 | None => 0 end
  | _ => 0
  end.
Definition isDone info : Z := if decide (ti_state info = CommKitState_DONE) then 1 else 0.
Definition isRetry info : Z := if decide (ti_state info = CommKitState_RETRYWAIT) then 1 else 0.

Lemma holds_01 info : 0 <= holds info <= 1.
Proof. unfold holds. destruct (ti_state info), (ti_socket info); lia. Qed.
Lemma isDone_01 info : 0 <= isDone info <= 1.
Proof. unfold isDone. case_decide; lia. Qed.
Lemma isRetry_01 info : 0 <= isRetry info <= 1.
Proof. unfold isRetry. case_decide; lia. Qed.

(** Work that is left in the current attempt. *)
Definition bufsize : nat := Z.to_nat BEEGFS_COMMKIT_MSGBUF_SIZE.
Definition header_left info : nat := Z.to_nat (BEEGFS_COMMKIT_MSGBUF_SIZE - ti_headerSize info).
Definition top : nat := (6 + bound + bufsize)%nat.
Definition rank info : nat :=
  match ti_state info with
  | CommKitState_PREPARE => top
  | CommKitState_SENDHEADER => top
  | CommKitState_SENDDATA => (5 + mu (ti_ext info) + header_left info)%nat
  | CommKitState_RECVHEADER => (4 + mu (ti_ext info) + header_left info)%nat
  | CommKitState_RECVDATA => (3 + mu (ti_ext info))%nat
  | CommKitState_SOCKETINVALIDATE => 2
  | CommKitState_CLEANUP => 1
  | CommKitState_RETRYWAIT | CommKitState_DONE | CommKitState_Other _ => 0
  end%nat.

(** The events a stage waits for; [None] for the stages that do not wait. *)
Definition wanted info : option Z :=
  let recvdata := match op_recvData ops with Some _ => Some POLLIN | None => None end in
  let recvheader := match op_recvHeader ops with Some _ => Some POLLIN | None => recvdata end in
  match ti_state info with
  | CommKitState_SENDDATA => match op_sendData ops with Some _ => Some POLLOUT | None => recvheader end
  | CommKitState_RECVHEADER => recvheader
  | CommKitState_RECVDATA => recvdata
  | _ => None
  end.

(** ** The effect of a step on the counters *)

(** A step touches at most one of the counters that are compared with the number of
    targets. *)
Inductive slot := SNone | SDone | SRetry | SUnconnectable | SBufferless | SPoll.

#[local] Instance slot_eq_dec : EqDecision slot.
Proof. solve_decision. Defined.

Definition apply_slot (i : nat) (s : slot) (c : CommKitContext) : CommKitContext :=
  match s with
  | SNone => c
  | SDone => add_numDone 1 c
  | SRetry => add_numRetryWaiters 1 c
  | SUnconnectable => add_numUnconnectable 1 c
  | SBufferless => add_numBufferless 1 c
  | SPoll => add_pollSock i c
  end.
Definition acquire (a : Z) (c : CommKitContext) : CommKitContext :=
  if a =? 0 then c else add_numAcquiredConns a c.

(** Nothing happened: the target is finished or waits for a retry, waits for a
    connection or a buffer while another target holds a connection, or waits for an
    event of its socket. *)
Definition blocked (e : TargetEnv E) (c : CommKitContext) info (s : slot) info' : Prop :=
  match s with
  | SNone => isDone info + isRetry info = 1 /\ info' = info
  | SUnconnectable | SBufferless =>
      ti_state info = CommKitState_PREPARE /\ ti_state info' = CommKitState_PREPARE /\
      cc_numAcquiredConns c <> 0
  | SPoll => exists socket events, ti_socket info = Some socket /\ wanted info = Some events /\
      wanted info' = Some events /\ ti_socket info' = Some (MkSocket events 0) /\
      holds info = 1 /\ rank info' = rank info /\ Z.land (sk_revents socket) events = 0 /\
      cc_pollTimedOut c = false /\ te_signal_io e = false
  | SDone | SRetry => False
  end.

(** Socket calls make progress unless the process is being killed. *)
Definition io_live (e : TargetEnv E) : Prop := te_signal_io e = false -> io_ok (te_io e).

(** A socket call of a connected stage that did not transfer anything. *)
Definition stalled (e : TargetEnv E) info : Prop :=
  ~ io_live e /\ isDone info = 0 /\ isRetry info = 0.

Definition slotZ (s s' : slot) : Z :=
  match s, s' with
  | SDone, SDone | SRetry, SRetry => 1
  | _, _ => 0
  end.

Definition step_ok (i : nat) (e : TargetEnv E) (c : CommKitContext) info
    (r : option (CommKitContext * CommKitTargetInfo P)) : Prop :=
  exists a s info', r = Some (apply_slot i s (acquire a c), info') /\ wf info' /\
    holds info' = holds info + a /\ isDone info' = isDone info + slotZ SDone s /\
    isRetry info' = isRetry info + slotZ SRetry s /\
    (s = SRetry -> retries_left cfg c = true /\ te_signal_cleanup e = false) /\
    ((rank info' < rank info)%nat \/ blocked e c info s info' \/ stalled e info).

(** The environment as far as the engine relies on it: header buffers have the size of
    the pool's objects, a waiting allocation from the pool succeeds, and a target is
    resolved or unknown. *)
Definition env_ok (e : TargetEnv E) : Prop :=
  (forall w buf, te_headerBuf e w = Some buf -> zlen buf = BEEGFS_COMMKIT_MSGBUF_SIZE) /\
  te_headerBuf e true <> None /\
  (forall t err, te_node e t = inl err -> engine_result (- err)).

(** *** Tactics *)

Ltac ck_simpl := cbn [set_state set_headerBuffer set_selectedTargetID set_mirrorSecond set_node
  set_socket set_headerSize set_nodeResult set_ext ti_state ti_headerBuffer ti_targetID
  ti_selectedTargetID ti_useBuddyMirrorSecond ti_node ti_socket ti_headerSize ti_nodeResult ti_ext
  mbind option_bind fst snd negb andb orb] in *.

(** A result with given effects: what remains are the facts about the target. *)
Ltac step_result a s := exists a, s; eexists; split; [reflexivity|].

Lemma header_in_frame info info' : frame info info' -> header_in info -> header_in info'.
Proof.
  intros (_ & _ & _ & Hs & Hb) [(buf & Hbuf & Hlen) Hsz]. rewrite Hbuf in Hb. cbn in Hb.
  destruct (ti_headerBuffer info') as [buf'|] eqn:E'; [|done]. injection Hb as Hb.
  split; [exists buf'; split; [done|congruence]|]. by rewrite Hs.
Qed.

Lemma connected_frame info info' : frame info info' -> connected info -> connected info'.
Proof.
  intros Hf (Hn & Hs & Hh). pose proof Hf as (_ & Hfn & Hfs & _). unfold connected.
  rewrite Hfn, Hfs. split_and!; [done..|]. by eapply header_in_frame.
Qed.

(** A state change keeps what [connected] says. *)
Lemma connected_set_state s info : connected info -> connected (set_state s info).
Proof. done. Qed.

(** *** Waiting for the socket *)

Lemma prepare_io_cases i e c info events :
  connected info ->
  (exists r, __commkit_prepare_io i e c info events =
     Some (false, c, set_state CommKitState_SOCKETINVALIDATE (set_nodeResult r info)) /\
     (r = ti_nodeResult info \/ engine_result r)) \/
  (exists socket, __commkit_prepare_io i e c info events =
     Some (false, add_pollSock i c, set_socket (Some (MkSocket events 0)) info) /\
     ti_socket info = Some socket /\ Z.land (sk_revents socket) events = 0 /\
     cc_pollTimedOut c = false /\ te_signal_io e = false) \/
  (__commkit_prepare_io i e c info events = Some (true, c, info) /\ te_signal_io e = false).
Proof.
  intros ([n Hn] & [sk Hs] & _). unfold __commkit_prepare_io. rewrite Hn. cbn [mbind option_bind].
  destruct (te_signal_io e); cbn [negb mbind option_bind].
  { left. exists (ti_nodeResult info). split; [by destruct info|by left]. }
  destruct (te_active_io e); cbn [negb].
  2: { left. exists (ti_nodeResult info). split; [by destruct info|by left]. }
  destruct (cc_pollTimedOut c) eqn:Ep; [left; eexists; split; [done|by right; left]|]. right.
  rewrite Hs. cbn [mbind option_bind].
  destruct (Z.eqb_spec (Z.land (sk_revents sk) events) 0) as [Ez|Ez].
  - left. exists sk. unfold __commkit_add_socket_pollstate. rewrite Hs. done.
  - right. done.
Qed.

(** The stages that wait for their socket: all their steps go through [prepare_io].  [k] is
    the rest of the handler. *)
Definition io_stage info (events : Z) : Prop :=
  connected info /\ ok (ti_nodeResult info) (ti_ext info) /\ wanted info = Some events /\ holds info = 1 /\
  isDone info = 0 /\ isRetry info = 0 /\ (2 < rank info)%nat /\ wf info.

(** Leaving a connected stage for another one. *)
Lemma step_to i e c info s' info' :
  holds info = 1 -> isDone info = 0 -> isRetry info = 0 -> ti_state info' = s' ->
  s' = CommKitState_SOCKETINVALIDATE \/ s' = CommKitState_RECVHEADER \/ s' = CommKitState_RECVDATA \/
    s' = CommKitState_SENDDATA \/ (exists v, s' = CommKitState_Other v /\ op_recvHeader ops <> None) \/
    (s' = CommKitState_CLEANUP /\ is_Some (ti_socket info')) ->
  connected info' -> ok (ti_nodeResult info') (ti_ext info') -> (rank info' < rank info)%nat ->
  forall s, s = SNone \/ s = SPoll ->
  step_ok i e c info (Some (apply_slot i s c, info')).
Proof.
  intros Hh Hd Hr Hs' Hcase Hc Hok Hrank s Hs. exists 0, s, info'. split; [done|].
  pose proof Hc as ([n Hn] & [sk Hsk] & _).
  unfold wf, holds, isDone, isRetry in *. rewrite Hs', Hh, Hd, Hr, Hsk.
  destruct Hcase as [-> | [-> | [-> | [-> | [(v & -> & Hv) | [-> _]]]]]];
    (split; [by auto|]; split_and!; [done|by destruct Hs as [-> | ->]|by destruct Hs as [-> | ->]|
      by destruct Hs as [-> | ->]|by left]).
Qed.

Lemma step_invalidate i e c info events r :
  io_stage info events -> ok r (ti_ext info) ->
  step_ok i e c info (Some (c, set_state CommKitState_SOCKETINVALIDATE (set_nodeResult r info))).
Proof.
  intros (Hc & _ & _ & Hh & Hd & Hr & Hrk & _) Hok.
  exact (step_to i e c info CommKitState_SOCKETINVALIDATE
    (set_state CommKitState_SOCKETINVALIDATE (set_nodeResult r info)) Hh Hd Hr eq_refl
    (or_introl eq_refl) Hc Hok Hrk SNone (or_introl eq_refl)).
Qed.

(** What all handlers of waiting stages have in common. *)
Lemma step_io i e c info events
    (k : CommKitContext -> CommKitTargetInfo P -> option (CommKitContext * CommKitTargetInfo P)) :
  io_stage info events ->
  (te_signal_io e = false -> step_ok i e c info (k c info)) ->
  step_ok i e c info ('(ready, c, info) ← __commkit_prepare_io i e c info events;
    if negb ready then Some (c, info) else k c info).
Proof.
  intros Hio Hk. pose proof Hio as (Hc & Hok & Hw & Hh & Hd & Hr & Hrk & Hwf).
  destruct (prepare_io_cases i e c info events Hc) as [(r & -> & Hr') | [(sk & -> & Hsk & Hev & Hp & Hsig) | [-> Hsig]]];
    cbn [mbind option_bind negb].
  - apply (step_invalidate i e c info events); [done|]. destruct Hr' as [-> | Hr']; [done|].
    by eapply law_engine.
  - step_result 0 SPoll. split_and!; try done.
    + destruct Hwf as [_ Hwf]. split; [done|]. ck_simpl.
      revert Hwf Hw. unfold wanted. destruct (ti_state info); try done;
      intros (Hn & _ & Hhd) _; (split; [done|]; split; [by eexists|done]).
    + unfold holds in *. ck_simpl. destruct (ti_state info); lia.
    + unfold isDone, slotZ in *. ck_simpl. lia.
    + unfold isRetry, slotZ in *. ck_simpl. lia.
    + right. left. exists sk, events. split_and!; done.
  - by apply Hk.
Qed.

(** The rank only depends on the state, the header and the data that is left. *)
Lemma rank_frame info info' :
  frame info info' -> mu (ti_ext info') = mu (ti_ext info) -> rank info' = rank info.
Proof. intros (Hs & _ & _ & Hh & _) Hm. unfold rank, header_left. by rewrite Hs, Hh, Hm. Qed.

Lemma header_left_frame info info' : frame info info' -> header_left info' = header_left info.
Proof. intros (_ & _ & _ & Hh & _). unfold header_left. by rewrite Hh. Qed.

Lemma add_socket_connected i c info events :
  connected info ->
  __commkit_add_socket_pollstate i c info events =
    Some (add_pollSock i c, set_socket (Some (MkSocket events 0)) info) /\
  connected (set_socket (Some (MkSocket events 0)) info).
Proof.
  intros (Hn & [sk Hs] & Hh). unfold __commkit_add_socket_pollstate. rewrite Hs. cbn.
  split; [done|]. split; [done|]. split; [by eexists|done].
Qed.

(** *** Sending and receiving data *)

Section Handlers.
Context (i : nat) (e : TargetEnv E) (c : CommKitContext) (info : CommKitTargetInfo P).
Hypothesis He : env_ok e.

(** The error exits of the data handlers. *)
Lemma step_io_failed (events r : Z) (b : bool) info' :
  io_stage info events -> frame info info' -> ok (ti_nodeResult info') (ti_ext info') -> engine_result r ->
  step_ok i e c info (if b
    then Some (c, set_state CommKitState_SOCKETINVALIDATE (set_nodeResult r info'))
    else Some (c, set_state CommKitState_SOCKETINVALIDATE info')).
Proof.
  intros (Hc & _ & _ & Hh & Hd & Hr & Hrk & _) Hf Hok' Her.
  pose proof (connected_frame _ _ Hf Hc) as Hc'. destruct b.
  - exact (step_to i e c info CommKitState_SOCKETINVALIDATE
      (set_state CommKitState_SOCKETINVALIDATE (set_nodeResult r info')) Hh Hd Hr eq_refl
      (or_introl eq_refl) Hc' (law_engine _ _ _ _ _ laws _ _ _ Her Hok') Hrk SNone (or_introl eq_refl)).
  - exact (step_to i e c info CommKitState_SOCKETINVALIDATE
      (set_state CommKitState_SOCKETINVALIDATE info') Hh Hd Hr eq_refl
      (or_introl eq_refl) Hc' Hok' Hrk SNone (or_introl eq_refl)).
Qed.

(** Some data was transferred and the stage is kept. *)
Lemma step_io_more events events' info' :
  io_stage info events -> frame info info' -> ok (ti_nodeResult info') (ti_ext info') ->
  te_signal_io e = false -> (io_ok (te_io e) -> (mu (ti_ext info') < mu (ti_ext info))%nat) ->
  step_ok i e c info (__commkit_add_socket_pollstate i c info' events').
Proof.
  intros (Hc & _ & Hw & Hh & Hd & Hr & _ & _) Hf Hok' Hsig Hmu.
  destruct (add_socket_connected i c info' events' (connected_frame _ _ Hf Hc)) as [-> Hc'].
  destruct (decide (io_ok (te_io e))) as [Hio|Hio].
  2: { step_result 0 SPoll. pose proof Hf as [Hs _].
    assert (Hst : stalled e info) by (split; [intros Hl; by apply Hio, Hl|done]).
    assert (Hwf' : wf (set_socket (Some (MkSocket events' 0)) info')).
    { split; [done|]. ck_simpl. rewrite Hs. revert Hw. unfold wanted. by destruct (ti_state info). }
    split; [done|]. revert Hw Hh Hd Hr. unfold wanted, holds, isDone, isRetry. ck_simpl. rewrite Hs.
    destruct (ti_state info); try done; intros; split_and!; try done; auto. }
  specialize (Hmu Hio).
  change (add_pollSock i c) with (apply_slot i SPoll c).
  apply (step_to i e c info (ti_state info)); [done..| | |done|done| |by right].
  - ck_simpl. by destruct Hf as [-> _].
  - revert Hw. unfold wanted. destruct (ti_state info); try done; auto.
  - pose proof (header_left_frame _ _ Hf) as Hl. unfold header_left in Hl.
    revert Hw. unfold wanted, rank, header_left. ck_simpl. destruct Hf as [-> _].
    destruct (ti_state info); try done; lia.
Qed.

Lemma senddata_ok f :
  ti_state info = CommKitState_SENDDATA -> op_sendData ops = Some f -> wf info ->
  step_ok i e c info (__commkit_senddata_generic f i e c info).
Proof.
  intros Hs Hf [Hok Hc]. rewrite Hs in Hc.
  assert (Hio : io_stage info POLLOUT).
  { unfold io_stage, wanted, holds, isDone, isRetry, rank, wf. rewrite Hs, Hf. split_and!; try done. lia. }
  apply (step_io i e c info POLLOUT (fun c info =>
    '(info, sendRes) ← f (te_io e) info;
    if sendRes <? 0 then
      if sendRes =? - EFAULT then
        Some (c, set_state CommKitState_SOCKETINVALIDATE
          (set_nodeResult (- FhgfsOpsErr_ADDRESSFAULT) info))
      else Some (c, set_state CommKitState_SOCKETINVALIDATE info)
    else if sendRes =? 0 then
      __commkit_add_socket_pollstate i c (set_state CommKitState_RECVHEADER info) POLLIN
    else __commkit_add_socket_pollstate i c info POLLOUT) Hio).
  intros Hsig. destruct (law_send _ _ _ _ _ laws f (te_io e) info Hf Hok)
    as (info' & n & -> & Hfr & Hok' & Hle & Hlt). cbn [mbind option_bind].
  destruct (Z.ltb_spec n 0); [eapply step_io_failed; try done; unfold engine_result; tauto|].
  destruct (Z.eqb_spec n 0) as [->|Hn].
  2: { eapply step_io_more; [done..|]. intros Hlive. apply Hlt; [done|lia]. }
  pose proof (connected_frame _ _ Hfr Hc) as Hc'.
  destruct (add_socket_connected i c (set_state CommKitState_RECVHEADER info') POLLIN Hc') as [-> Hc''].
  destruct Hio as (_ & _ & _ & Hh & Hd & Hr & _).
  change (add_pollSock i c) with (apply_slot i SPoll c).
  apply (step_to i e c info CommKitState_RECVHEADER); [done..|by auto|done|done| |by right].
  pose proof (header_left_frame _ _ Hfr) as Hl.
  unfold rank, header_left in *. ck_simpl. rewrite Hs, Hl. lia.
Qed.

Lemma recvdata_ok f :
  ti_state info = CommKitState_SENDDATA /\ op_sendData ops = None /\ op_recvHeader ops = None \/
  ti_state info = CommKitState_RECVHEADER /\ op_recvHeader ops = None \/
  ti_state info = CommKitState_RECVDATA ->
  op_recvData ops = Some f -> wf info ->
  step_ok i e c info (__commkit_recvdata_generic f i e c info).
Proof.
  intros Hs Hf Hwf. pose proof Hwf as [Hok Hc].
  assert (Hio : io_stage info POLLIN).
  { unfold io_stage, wanted, holds, isDone, isRetry, rank.
    destruct Hs as [(Hs & H1 & H2) | [(Hs & H1) | Hs]]; rewrite Hs in *; rewrite ?H1, ?H2, Hf;
      (split_and!; try done; lia). }
  apply (step_io i e c info POLLIN (fun c info =>
    '(info, recvRes) ← f (te_io e) info;
    if recvRes <? 0 then
      if recvRes =? - EFAULT then
        Some (c, set_state CommKitState_SOCKETINVALIDATE
          (set_nodeResult (- FhgfsOpsErr_ADDRESSFAULT) info))
      else Some (c, set_state CommKitState_SOCKETINVALIDATE info)
    else if recvRes =? 0 then Some (c, set_state CommKitState_CLEANUP info)
    else __commkit_add_socket_pollstate i c info POLLIN) Hio).
  intros Hsig. destruct (law_recvData _ _ _ _ _ laws f (te_io e) info Hf Hok)
    as (info' & n & -> & Hfr & Hok' & Hlt). cbn [mbind option_bind].
  destruct (Z.ltb_spec n 0); [eapply step_io_failed; try done; unfold engine_result; tauto|].
  destruct (Z.eqb_spec n 0) as [->|Hn].
  2: { eapply step_io_more; [done..|]. intros Hlive. apply Hlt; [done|lia]. }
  destruct Hio as (Hcn & _ & _ & Hh & Hd & Hr & Hrk & _).
  pose proof (connected_frame _ _ Hfr Hcn) as Hc'.
  apply (step_to i e c info CommKitState_CLEANUP (set_state CommKitState_CLEANUP info') Hh Hd Hr eq_refl)
    with (s := SNone); [|done|done|unfold rank; ck_simpl; fold (rank info); lia|by left].
  do 5 right. split; [done|]. apply Hc'.
Qed.

(** *** Receiving the header *)

Lemma recv_header_ok r revents size x :
  connected x -> 0 <= size -> ti_headerSize x + size <= BEEGFS_COMMKIT_MSGBUF_SIZE ->
  exists x' n, recv_header r revents size x = Some (x', n) /\ connected x' /\
    ti_state x' = ti_state x /\ (ti_nodeResult x' = ti_nodeResult x /\ ti_ext x' = ti_ext x) /\ n <= size /\
    ti_headerSize x' = ti_headerSize x + Z.max 0 n.
Proof.
  intros (Hn & [sk Hsk] & (buf & Hbuf & Hlen) & Hsz) Hsize Hfit. unfold BEEGFS_COMMKIT_MSGBUF_SIZE in *.
  unfold recv_header. rewrite Hbuf, Hsk. cbn [mbind option_bind].
  destruct r as [data|err].
  2: { do 2 eexists. split; [reflexivity|]. ck_simpl.
       split_and!; try done; try lia. split; [done|]. split; [by eexists|]. split; [by exists buf|done]. }
  set (d := take _ data). assert (Hd : 0 <= zlen d <= size).
  { unfold d, zlen. rewrite length_take. lia. }
  ck_simpl. rewrite (proj2 (Z.ltb_ge _ _)) by lia.
  do 2 eexists. split; [reflexivity|]. ck_simpl. rewrite u32_small by lia.
  split_and!; try done; try lia. split; [done|]. split; [by eexists|]. split; [|ck_simpl; unfold BEEGFS_COMMKIT_MSGBUF_SIZE; lia].
  eexists. split; [reflexivity|]. unfold zlen in *. rewrite length_splice; [done|lia].
Qed.

Lemma extract_length_ok buf :
  4 <= zlen buf -> exists len ctx, NetMessage_extractMsgLengthFromBuf buf = Done len ctx.
Proof.
  intros. unfold NetMessage_extractMsgLengthFromBuf, Serialization_deserializeUInt,
    __Serialization_deserializeRaw. cbn [d_length d_mem d_data]. rewrite load_in by lia. by do 2 eexists.
Qed.

Lemma recvheader_finish_ok f x n :
  op_recvHeader ops = Some f -> connected x -> ok (ti_nodeResult x) (ti_ext x) ->
  holds info = 1 -> isDone info = 0 -> isRetry info = 0 ->
  (2 < rank info)%nat -> (3 + mu (ti_ext x) < rank info)%nat ->
  step_ok i e c info (recvheader_finish f e c x n).
Proof.
  intros Hf Hc Hok Hh Hd Hr Hrk Hmu. unfold recvheader_finish. destruct (n <=? 0).
  { exact (step_to i e c info CommKitState_SOCKETINVALIDATE
      (set_state CommKitState_SOCKETINVALIDATE x) Hh Hd Hr eq_refl
      (or_introl eq_refl) Hc Hok Hrk SNone (or_introl eq_refl)). }
  destruct (law_recvHeader _ _ _ _ _ laws f (te_io e) x Hf (proj2 (proj2 Hc)) Hok)
    as (x' & m & -> & Hfr & Hok' & Hle). cbn [mbind option_bind].
  pose proof (connected_frame _ _ Hfr Hc) as Hc'. change c with (apply_slot i SNone c) at 2.
  destruct (m <? 0); (eapply step_to; [done..|reflexivity|by auto|done|done| |by left]);
    unfold rank; ck_simpl; fold (rank info); lia.
Qed.

Lemma recvheader_ok f :
  ti_state info = CommKitState_SENDDATA /\ op_sendData ops = None \/
  ti_state info = CommKitState_RECVHEADER ->
  op_recvHeader ops = Some f -> wf info ->
  step_ok i e c info (__commkit_recvheader_generic f i e c info).
Proof.
  intros Hs Hf Hwf. pose proof Hwf as [Hok Hc].
  assert (Hio : io_stage info POLLIN /\ (3 + mu (ti_ext info) + header_left info < rank info)%nat).
  { unfold io_stage, wanted, holds, isDone, isRetry, rank.
    destruct Hs as [(Hs & H1) | Hs]; rewrite Hs in *; rewrite ?H1, Hf;
      (split_and!; try done; lia). }
  destruct Hio as [Hio Hmu]. pose proof Hio as (Hcn & _ & _ & Hh & Hd & Hr & Hrk & _).
  unfold __commkit_recvheader_generic.
  match goal with |- step_ok _ _ _ _ (_ ≫= ?k) =>
    apply (step_io i e c info POLLIN (fun c info =>
      match k (true, c, info) with r => r end) Hio) end.
  intros _. cbn [negb]. pose proof Hcn as (_ & _ & _ & Hsz).
  unfold NETMSG_MIN_LENGTH, NETMSG_HEADER_LENGTH, BEEGFS_COMMKIT_MSGBUF_SIZE in *.
  (* the first part of the header *)
  assert (H1 : exists x n, (if ti_headerSize info <? 40
      then recv_header (te_recv1 e) (te_revents1 e) (40 - ti_headerSize info) info
      else Some (info, - EREMOTEIO)) = Some (x, n) /\ connected x /\
      ti_state x = ti_state info /\ (ti_nodeResult x = ti_nodeResult info /\ ti_ext x = ti_ext info) /\
      ti_headerSize info <= ti_headerSize x <= 4096).
  { destruct (Z.ltb_spec (ti_headerSize info) 40).
    - destruct (recv_header_ok (te_recv1 e) (te_revents1 e) (40 - ti_headerSize info) info)
        as (x & n & -> & Hx & Hst & [Hres Hext] & Hn & Hsz'); [done|lia|unfold BEEGFS_COMMKIT_MSGBUF_SIZE; lia|].
      exists x, n. split_and!; try done; lia.
    - exists info, (- EREMOTEIO). split_and!; try done; lia. }
  destruct H1 as (x & n & -> & Hx & Hst & [Hres Hext] & Hsz1). cbn [mbind option_bind].
  assert (Hfin : forall y m, connected y -> ti_nodeResult y = ti_nodeResult info -> ti_ext y = ti_ext info ->
    step_ok i e c info (recvheader_finish f e c y m)).
  { intros y m Hy Hyr Hye. apply recvheader_finish_ok; try done; rewrite ?Hyr, Hye; [done|lia]. }
  destruct (_ && _); [by apply Hfin|].
  pose proof Hx as (_ & _ & (buf & Hbuf & Hblen) & _). rewrite Hbuf. cbn [mbind option_bind].
  unfold BEEGFS_COMMKIT_MSGBUF_SIZE in *.
  destruct (extract_length_ok buf) as (msgLength & ctx' & ->); [lia|].
  destruct (Z.ltb_spec 4096 msgLength) as [Hbig|Hsmall].
  { apply (step_to i e c info (CommKitState_Other (-5)) (set_nodeResult _ (set_state _ x)) Hh Hd Hr
      eq_refl) with (s := SNone); [|done| | |by left].
    { do 4 right. left. exists (-5). split; [done|congruence]. }
    { ck_simpl. rewrite Hext. eapply law_engine; [done|by left|done]. }
    unfold rank. ck_simpl. fold (rank info). lia. }
  destruct (Z.ltb_spec (ti_headerSize x) msgLength) as [Hmore|Hall]; cbn [andb].
  - destruct (recv_header_ok (te_recv2 e) (te_revents2 e) (msgLength - ti_headerSize x) x)
      as (y & m & -> & Hy & Hyst & [Hyres Hyext] & Hm & Hysz); [done|lia|unfold BEEGFS_COMMKIT_MSGBUF_SIZE; lia|].
    cbn [mbind option_bind].
    destruct (Z.leb_spec m 0); [apply Hfin; congruence|].
    destruct (Z.ltb_spec (ti_headerSize y) msgLength); [|apply Hfin; congruence].
    change c with (apply_slot i SNone c) at 2.
    apply (step_to i e c info (ti_state info)); try done; [congruence| | | |by left].
    + destruct Hs as [[-> _] | ->]; auto.
    + rewrite Hyres, Hyext, Hres, Hext. done.
    + unfold rank, header_left. rewrite Hyst, Hst, Hyext, Hext.
      unfold BEEGFS_COMMKIT_MSGBUF_SIZE. destruct Hs as [[-> _] | ->]; lia.
  - cbn [mbind option_bind]. rewrite (proj2 (Z.ltb_ge _ _)) by done. by apply Hfin.
Qed.

(** *** Cleanup *)

(** The last part of a cleanup: the next stage. *)
Lemma cleanup_cases c' x :
  ti_socket x = None \/ is_Some (ti_node x) ->
  exists s x', __commkit_cleanup_generic ops cfg e c' x =
    Some (apply_slot i s (acquire (match ti_socket x with Some _ => -1 | None => 0 end) c'), x') /\
  (ok (ti_nodeResult x) (ti_ext x) -> ok (ti_nodeResult x') (ti_ext x')) /\
  ti_node x' = None /\ ti_headerBuffer x' = None /\
  (s = SDone /\ ti_state x' = CommKitState_DONE \/
   s = SRetry /\ ti_state x' = CommKitState_RETRYWAIT /\ retries_left cfg c' = true /\
     te_signal_cleanup e = false).
Proof.
  intros Hx. unfold __commkit_cleanup_generic.
  set (c1 := acquire _ c').
  assert (E1 : match ti_socket x with
    | Some _ => _ ← ti_node x; Some (add_numAcquiredConns (-1) c') | None => Some c' end = Some c1).
  { unfold c1. destruct (ti_socket x); [|done]. destruct Hx as [|[n ->]]; done. }
  rewrite E1. cbn [mbind option_bind]. ck_simpl.
  assert (Hr : retries_left cfg c1 = retries_left cfg c') by (unfold c1; by destruct (ti_socket x)).
  destruct (retryable ops (ti_nodeResult x)), (te_signal_cleanup e), (retries_left cfg c1) eqn:Hrl;
    cbn [negb andb]; rewrite Hr in Hrl;
    try (exists SRetry; eexists; split; [reflexivity|]; ck_simpl; split_and!; try done; by right);
    (exists SDone; eexists; split; [reflexivity|]; ck_simpl; split_and!; try done; try (by left);
     apply (law_engine _ _ _ _ _ laws); unfold engine_result; tauto).
Qed.

(** A result of [cleanup_cases] as a step from [info], which held [a] connections more. *)
Lemma cleanup_step_ok s x' a :
  ok (ti_nodeResult x') (ti_ext x') -> ti_node x' = None -> ti_headerBuffer x' = None ->
  (s = SDone /\ ti_state x' = CommKitState_DONE \/
   s = SRetry /\ ti_state x' = CommKitState_RETRYWAIT /\ retries_left cfg c = true /\
     te_signal_cleanup e = false) ->
  holds info = - a -> isDone info = 0 -> isRetry info = 0 -> (0 < rank info)%nat ->
  step_ok i e c info (Some (apply_slot i s (acquire a c), x')).
Proof.
  intros Hok Hn Hb Hs Hh Hd Hr Hrk. step_result a s. unfold wf, holds, isDone, isRetry, rank in *.
  destruct Hs as [[-> Hst] | (-> & Hst & Hl & Hsg)]; rewrite Hst;
    (split_and!; try done; [lia|rewrite ?Hd, ?Hr; done..|by left]).
Qed.

Lemma cleanup_ok :
  ok (ti_nodeResult info) (ti_ext info) -> ti_socket info = None \/ is_Some (ti_node info) ->
  holds info = match ti_socket info with Some _ => 1 | None => 0 end ->
  isDone info = 0 -> isRetry info = 0 -> (0 < rank info)%nat ->
  step_ok i e c info (__commkit_cleanup_generic ops cfg e c info).
Proof.
  intros Hok Hx Hh Hd Hr Hrk.
  destruct (cleanup_cases c info Hx) as (s & x' & -> & He' & Hn & Hb & Hs).
  apply cleanup_step_ok; try done; [by apply He'|]. rewrite Hh. by destruct (ti_socket info).
Qed.

Lemma invalidate_ok :
  ti_state info = CommKitState_SOCKETINVALIDATE -> wf info ->
  step_ok i e c info ('(c, x) ← __commkit_socketinvalidate_generic e c info;
    __commkit_cleanup_generic ops cfg e c x).
Proof.
  intros Hs [Hok Hc]. rewrite Hs in Hc. destruct Hc as ([n Hn] & [sk Hsk] & _).
  unfold __commkit_socketinvalidate_generic. rewrite Hn, Hsk. cbn [mbind option_bind].
  match goal with |- context [set_socket None ?y] => set (x := y) end.
  assert (Hx : ok (ti_nodeResult x) (ti_ext x)).
  { unfold x. repeat case_match; ck_simpl; try done;
      apply (law_engine _ _ _ _ _ laws (ti_nodeResult info)); unfold engine_result; tauto. }
  destruct (cleanup_cases (add_numAcquiredConns (-1) c) (set_state CommKitState_CLEANUP
    (set_socket None x))) as (s & x' & -> & He' & Hn' & Hb' & Hs'); [by left|].
  change (acquire _ (add_numAcquiredConns (-1) c)) with (acquire (-1) c).
  apply cleanup_step_ok; try done.
  - by apply He'.
  - unfold holds. by rewrite Hs.
  - unfold isDone. by rewrite Hs.
  - unfold isRetry. by rewrite Hs.
  - unfold rank. rewrite Hs. lia.
Qed.

(** *** Preparation *)

(** A target for which a request was built and a connection acquired. *)
Definition prepared x : Prop :=
  is_Some (ti_node x) /\ is_Some (ti_socket x) /\ buffer_ok x /\ ok (ti_nodeResult x) (ti_ext x) /\
  0 < ti_headerSize x <= BEEGFS_COMMKIT_MSGBUF_SIZE /\ (mu (ti_ext x) <= bound)%nat.

(** The ways out of the preparation. *)
Definition prepare_result (r : option (bool * CommKitContext * CommKitTargetInfo P)) : Prop :=
  exists x, ok (ti_nodeResult x) (ti_ext x) /\
  ((exists s, (s = SUnconnectable \/ s = SBufferless) /\ r = Some (false, apply_slot i s c, x) /\
      ti_state x = CommKitState_PREPARE /\ ti_node x = None /\ ti_headerBuffer x = None /\
      cc_numAcquiredConns c <> 0) \/
   (exists s, (s = SNone \/ s = SUnconnectable) /\ r = Some (false, apply_slot i s c, x) /\
      ti_state x = CommKitState_CLEANUP /\ (ti_socket x = None \/ is_Some (ti_node x)) /\
      ti_socket x = None) \/
   (r = Some (true, acquire 1 c, x) /\ prepared x)).

Lemma prepare_connect_ok x :
  (ti_state x = CommKitState_PREPARE \/ ti_state x = CommKitState_CLEANUP) ->
  ti_socket x = None -> ti_node x = None -> buffer_ok x -> engine_result (ti_nodeResult x) ->
  ok (ti_nodeResult x) (ti_ext x) ->
  prepare_result (prepare_connect ops e c (cc_numAcquiredConns c =? 0) x).
Proof.
  intros Hs Hsk Hn Hb Her Hok. unfold prepare_connect, prepare_cleanup, prepare_error.
  destruct (te_node e (ti_selectedTargetID x)) as [err|n] eqn:Enode.
  { eexists. split; [|right; left; exists SNone; split; [by left|]; split; [reflexivity|]; ck_simpl].
    - ck_simpl. eapply (law_engine _ _ _ _ _ laws); [|exact Hok]. destruct He as (_ & _ & Hnode). by eapply Hnode.
    - split_and!; [done|by left|done]. }
  destruct (te_conn e _); cbn [negb].
  - set (y := set_socket _ _).
    destruct (law_prepare _ _ _ _ _ laws (te_io e) y Hb Her Hok) as (y' & m & -> & Hfr & Hok' & Hm).
    cbn [mbind option_bind]. rewrite (proj2 (Z.eqb_neq m 0)) by lia.
    eexists. split; [|right; right; split; [reflexivity|]]; [done|].
    destruct Hfr as (_ & Hfn & Hfs & _ & Hfb). destruct Hb as (buf & Hbuf & Hlen).
    unfold y in Hfn, Hfs, Hfb. ck_simpl. rewrite Hbuf in Hfb. cbn in Hfb.
    destruct (ti_headerBuffer y') as [buf'|] eqn:Eb; [|done]. injection Hfb as Hfb.
    split_and!; ck_simpl; try done; try lia; [|by eapply (law_bound _ _ _ _ _ laws)].
    exists buf'. split; [done|congruence].
  - destruct (Z.eqb_spec (cc_numAcquiredConns c) 0) as [Hz|Hz]; cbn [negb].
    + eexists. split; [|right; left; exists SNone; split; [by left|]; split; [reflexivity|]; ck_simpl]; [done|].
      split_and!; [done|by left|done].
    + destruct Hs as [Hs|Hs].
      * eexists. split; [|left; exists SUnconnectable; split; [by left|]; split; [reflexivity|]; ck_simpl]; done.
      * eexists. split; [|right; left; exists SUnconnectable; split; [by right|]; split; [reflexivity|];
          ck_simpl]; [done|]. split_and!; [done|by left|done].
Qed.

Lemma prepare_ok :
  ti_state info = CommKitState_PREPARE -> wf info ->
  prepare_result (__commkit_prepare_generic ops ioPattern e c info).
Proof.
  intros Hs [Hok Hwf]. rewrite Hs in Hwf. destruct Hwf as [Hn Hb]. destruct He as (Hlen & Hwait & _).
  assert (Hcomm : ok (- FhgfsOpsErr_COMMUNICATION) (ti_ext info)).
  { eapply (law_engine _ _ _ _ _ laws); [by left|exact Hok]. }
  unfold __commkit_prepare_generic. ck_simpl.
  destruct (te_headerBuf e (cc_numAcquiredConns c =? 0)) as [buf|] eqn:Eb; ck_simpl.
  2: { eexists. split; [|left; exists SBufferless; split; [by right|]; split; [reflexivity|]; ck_simpl]; [done|].
       split_and!; try done. intros Hz. rewrite Hz in Eb. done. }
  apply Hlen in Eb.
  match goal with |- context [prepare_cleanup c (set_nodeResult _ ?y)] => set (x := y) end.
  assert (Hx : ti_state x = CommKitState_PREPARE /\ ti_socket x = None /\ ti_node x = None /\
    buffer_ok x /\ engine_result (ti_nodeResult x) /\ ok (ti_nodeResult x) (ti_ext x)).
  { unfold x. ck_simpl. split_and!; try done; [by exists buf|by left]. }
  destruct Hx as (Hxs & Hxk & Hxn & Hxb & Hxe & Hxo).
  destruct (_ && _).
  { eexists. split; [|right; left; exists SNone; split; [by left|]; split; [reflexivity|]; ck_simpl].
    - ck_simpl. eapply (law_engine _ _ _ _ _ laws); [|exact Hok]. unfold engine_result. tauto.
    - split_and!; [done|by left|done]. }
  destruct (TargetStateStore_getState _ _) as [st found].
  destruct (target_unusable _ _ _); [|apply prepare_connect_ok; auto].
  assert (Hbad : forall x', frame (set_state CommKitState_CLEANUP x) x' ->
    ok (ti_nodeResult x') (ti_ext x') ->
    prepare_result (Some (prepare_error c x')) /\
    (ti_nodeResult x' = ti_nodeResult x -> prepare_result (prepare_connect ops e c (cc_numAcquiredConns c =? 0) x'))).
  { intros x' (Hfs & Hfn & Hfk & _ & Hfb) Hext. ck_simpl. split.
    - eexists. split; [|right; left; exists SNone; split; [by left|]; split; [reflexivity|]; ck_simpl].
      + done.
      + split_and!; [done|left; congruence|congruence].
    - intros Hnr. apply prepare_connect_ok; [by right|congruence|congruence| |by rewrite Hnr|done].
      destruct Hxb as (b & Hb1 & Hb2). rewrite Hb1 in Hfb. cbn in Hfb.
      destruct (ti_headerBuffer x') as [b'|] eqn:Eb'; [|done]. exists b'. split; [done|].
      injection Hfb as ->. done. }
  destruct (op_selectedTargetBad ops) as [bad|] eqn:Ebad; cbn.
  2: { by apply Hbad. }
  destruct (bad _ st) as [x' act] eqn:Ex.
  destruct (law_bad _ _ _ _ _ laws _ _ _ _ _ Ebad Ex Hxo) as (Hfr & Hext & Hcont).
  destruct (Hbad x' Hfr Hext) as [? Hgo]. destruct act; [done|]. apply Hgo. by apply Hcont.
Qed.

(** The header is sent and the socket watched, whatever became of the header. *)
Lemma sendheader_ok x :
  ti_state info = CommKitState_PREPARE -> prepared x ->
  step_ok i e c info (case_sendheader ops i e (acquire 1 c) x).
Proof.
  intros Hs (Hn & Hsk & (buf & Hbuf & Hlen) & Hok & Hsz & Hmu).
  unfold case_sendheader, __commkit_sendheader_generic. rewrite Hbuf. cbn [mbind option_bind].
  pose proof Hsk as [sk Esk]. rewrite Esk. cbn [mbind option_bind].
  rewrite (proj2 (Z.ltb_ge _ _)) by lia.
  assert (Hres : forall y ev, ti_socket y = Some sk -> connected y -> ok (ti_nodeResult y) (ti_ext y) ->
    (rank y < top)%nat -> (ti_state y = CommKitState_SOCKETINVALIDATE \/ ti_state y = CommKitState_SENDDATA) ->
    step_ok i e c info (__commkit_add_socket_pollstate i (acquire 1 c) y ev)).
  { intros y ev Hy Hcy Hoky Hry Hst.
    destruct (add_socket_connected i (acquire 1 c) y ev Hcy) as [-> Hc'].
    step_result 1 SPoll. split_and!; try done.
    - split; [done|]. ck_simpl. by destruct Hst as [-> | ->].
    - unfold holds. ck_simpl. rewrite Hs. by destruct Hst as [-> | ->].
    - unfold isDone. ck_simpl. rewrite Hs. by destruct Hst as [-> | ->].
    - unfold isRetry. ck_simpl. rewrite Hs. by destruct Hst as [-> | ->].
    - left. unfold rank at 2. rewrite Hs. exact Hry. }
  assert (Hh : header_in x) by (split; [by exists buf|lia]).
  destruct (te_sendHeader e =? ti_headerSize x); cbn [negb mbind option_bind]; apply Hres; try done.
  - split; [done|]. split; [done|]. split; [by exists buf|]. done.
  - unfold rank, header_left, top, bufsize. ck_simpl. lia.
  - by right.
  - unfold rank, top. ck_simpl. lia.
  - by left.
Qed.

(** ** Every step *)

Lemma step_spec :
  wf info -> (forall v, ti_state info <> CommKitState_Other v) ->
  step_ok i e c info (commkit_step ops cfg ioPattern i e c info).
Proof.
  intros Hwf Ho. pose proof Hwf as [Hok Hst]. unfold commkit_step.
  assert (Hcl : ti_state info = CommKitState_SENDDATA \/ ti_state info = CommKitState_RECVHEADER \/
    ti_state info = CommKitState_RECVDATA \/ ti_state info = CommKitState_CLEANUP ->
    step_ok i e c info (__commkit_cleanup_generic ops cfg e c info)).
  { intros Hc. apply cleanup_ok; unfold holds, isDone, isRetry, rank;
      destruct Hc as [E1 | [E1 | [E1 | E1]]]; rewrite E1 in *; try done; try lia;
      destruct Hst as (Hn & [sk Hsk] & _); try (by right); by rewrite Hsk. }
  destruct (ti_state info) eqn:Es; try done.
  - destruct (prepare_ok Es Hwf) as (x & Hxo & [(s & Hs & -> & Hxs & Hxn & Hxb & Hz) |
      [(s & Hs & -> & Hxs & Hxn & Hxk) | [-> Hp]]]); cbn [mbind option_bind].
    + step_result 0 s. unfold wf, holds, isDone, isRetry. rewrite Hxs, Es.
      split_and!; try done; [by destruct Hs as [-> | ->]..|]. right. left. unfold blocked. by destruct Hs as [-> | ->].
    + step_result 0 s. unfold wf, holds, isDone, isRetry. rewrite Hxs, Es, Hxk.
      split_and!; try done; [by left|by destruct Hs as [-> | ->]..|].
      left. unfold rank, top. rewrite Hxs, Es. lia.
    + by apply sendheader_ok.
  - unfold case_senddata, case_recvheader, case_recvdata.
    destruct (op_sendData ops) as [f|] eqn:E1; [by apply senddata_ok|].
    destruct (op_recvHeader ops) as [f|] eqn:E2; [apply recvheader_ok; auto|].
    destruct (op_recvData ops) as [f|] eqn:E3; [apply recvdata_ok; auto|auto].
  - unfold case_recvheader, case_recvdata.
    destruct (op_recvHeader ops) as [f|] eqn:E2; [apply recvheader_ok; auto|].
    destruct (op_recvData ops) as [f|] eqn:E3; [apply recvdata_ok; auto|auto].
  - unfold case_recvdata. destruct (op_recvData ops) as [f|] eqn:E3; [apply recvdata_ok; auto|auto].
  - by apply invalidate_ok.
  - apply Hcl. auto.
  - step_result 0 SNone. unfold isDone, isRetry. rewrite !Z.add_0_r.
    split_and!; try done. right. left. unfold blocked, isDone, isRetry. by rewrite Es.
  - step_result 0 SNone. unfold isDone, isRetry. rewrite !Z.add_0_r.
    split_and!; try done. right. left. unfold blocked, isDone, isRetry. by rewrite Es.
  - by destruct (Ho value).
Qed.
End Handlers.

(** ** A pass over the targets *)

Definition not_other info : Prop := forall v, ti_state info <> CommKitState_Other v.

(** The facts of [step_ok] about one step. *)
Definition step_facts (e : TargetEnv E) c info (a : Z) (s : slot) info' : Prop :=
  wf info' /\ holds info' = holds info + a /\ isDone info' = isDone info + slotZ SDone s /\
  isRetry info' = isRetry info + slotZ SRetry s /\
  (s = SRetry -> retries_left cfg c = true /\ te_signal_cleanup e = false) /\
  ((rank info' < rank info)%nat \/ blocked e c info s info' \/ stalled e info).

(** All steps of a pass, with the counters they touch. *)
Inductive steps_rel (env : nat -> TargetEnv E) :
    nat -> CommKitContext -> list (CommKitTargetInfo P) -> list slot ->
    CommKitContext -> list (CommKitTargetInfo P) -> Prop :=
| steps_nil i c : steps_rel env i c [] [] c []
| steps_cons i c info infos a s info' ss c' infos' :
    step_facts (env i) c info a s info' ->
    steps_rel env (S i) (apply_slot i s (acquire a c)) infos ss c' infos' ->
    steps_rel env i c (info :: infos) (s :: ss) c' (info' :: infos').

Lemma commkit_steps_rel env i c infos :
  (forall j, env_ok (env j)) -> Forall wf infos -> Forall not_other infos ->
  exists ss c' infos', commkit_steps ops cfg ioPattern env i c infos = Some (c', infos') /\
    steps_rel env i c infos ss c' infos'.
Proof.
  intros He. revert i c. induction infos as [|info infos IH]; intros i c Hwf Ho.
  { exists [], c, []. split; [done|constructor]. }
  apply Forall_cons_1 in Hwf as [Hw Hwf]. apply Forall_cons_1 in Ho as [Hno Ho].
  destruct (step_spec i (env i) c info (He i) Hw Hno) as (a & s & info' & Hst & Hfacts).
  destruct (IH (S i) (apply_slot i s (acquire a c)) Hwf Ho) as (ss & c' & infos' & Hsts & Hrel).
  exists (s :: ss), c', (info' :: infos'). cbn [commkit_steps]. rewrite Hst. cbn [mbind option_bind].
  rewrite Hsts. split; [done|]. by econstructor.
Qed.

Section Pass.
Context (env : nat -> TargetEnv E).

Lemma steps_wf i c infos ss c' infos' : steps_rel env i c infos ss c' infos' -> Forall wf infos'.
Proof. induction 1 as [|? ? ? ? ? ? ? ? ? ? (Hwf & _) ? IH]; constructor; done. Qed.

Lemma steps_length i c infos ss c' infos' :
  steps_rel env i c infos ss c' infos' -> length infos' = length infos /\ length ss = length infos.
Proof. induction 1 as [|? ? ? ? ? ? ? ? ? ? ? ? [IH1 IH2]]; cbn; auto. Qed.

(** What a pass never touches. *)
Lemma steps_const i c infos ss c' infos' :
  steps_rel env i c infos ss c' infos' ->
  cc_pollTimedOut c' = cc_pollTimedOut c /\ cc_currentRetryNum c' = cc_currentRetryNum c.
Proof.
  induction 1 as [|i c info infos a s info' ss c' infos' _ _ IH]; [done|].
  unfold acquire in IH. by destruct s, (a =? 0).
Qed.

(** A finished or waiting target stays what it is, and no other counter counts it. *)
Lemma step_facts_waiting e c info a s info' :
  step_facts e c info a s info' ->
  isDone info' + isRetry info' +
    match s with SUnconnectable | SBufferless | SPoll => 1 | _ => 0 end <= 1.
Proof.
  intros (_ & _ & Hd & Hr & _ & Hp).
  assert (Hz : match s with SUnconnectable | SBufferless | SPoll => isDone info + isRetry info = 0
               | _ => True end).
  { assert (Hlt : (rank info' < rank info)%nat -> isDone info + isRetry info = 0).
    { unfold rank at 2, isDone, isRetry. destruct (ti_state info); done || lia. }
    destruct s; try done; (destruct Hp as [Hp | [Hp | (_ & -> & ->)]]; [by apply Hlt| |done]); cbn [blocked] in Hp.
    1,2: unfold isDone, isRetry; destruct Hp as (-> & _); done.
    destruct Hp as (sk & ev & _ & Hw & _). unfold isDone, isRetry. revert Hw. unfold wanted.
    by destruct (ti_state info). }
  pose proof (isDone_01 info'). pose proof (isRetry_01 info').
  destruct s; cbn [slotZ] in *; try lia;
    unfold isDone, isRetry in *; repeat case_decide; lia || congruence.
Qed.

(** The counters after a pass.  [n] is the number of all targets, [pre] are the ones that
    were visited before. *)
Definition counters c (l : list (CommKitTargetInfo P)) : Prop :=
  cc_numDone c = sumZ isDone l /\ cc_numRetryWaiters c = sumZ isRetry l /\
  cc_numAcquiredConns c = sumZ holds l.
Definition waiting c : Z := cc_numUnconnectable c + cc_numBufferless c + cc_numPollSocks c.
Definition waiting_ok c (visited : list (CommKitTargetInfo P)) : Prop :=
  0 <= cc_numUnconnectable c /\ 0 <= cc_numBufferless c /\ 0 <= cc_numPollSocks c /\
  waiting c + sumZ isDone visited + sumZ isRetry visited <= zlen visited.

Lemma acquire_small a c l k (x x' : CommKitTargetInfo P) :
  cc_numAcquiredConns c = sumZ holds (l ++ x :: k) -> holds x' = holds x + a ->
  zlen (l ++ x :: k) < 2 ^ 31 ->
  cc_numAcquiredConns (acquire a c) = sumZ holds (l ++ x' :: k).
Proof.
  intros Hc Ha Hn. pose proof (sumZ_bounds holds (l ++ x' :: k) holds_01) as Hb.
  assert (Hz : zlen (l ++ x' :: k) = zlen (l ++ x :: k)) by zlia.
  rewrite sumZ_app, sumZ_cons in *. unfold acquire. destruct (Z.eqb_spec a 0) as [->|]; [lia|].
  cbn [cc_numAcquiredConns add_numAcquiredConns]. rewrite u32_small by lia. lia.
Qed.

Lemma step_counters e c info a s info' i pre post :
  step_facts e c info a s info' -> zlen (pre ++ info :: post) < 2 ^ 31 ->
  counters c (pre ++ info :: post) -> waiting_ok c pre ->
  counters (apply_slot i s (acquire a c)) (pre ++ info' :: post) /\
  waiting_ok (apply_slot i s (acquire a c)) (pre ++ [info']).
Proof.
  intros Hf Hn (Hd & Hr & Ha) (H1 & H2 & H3 & Hw).
  pose proof (step_facts_waiting _ _ _ _ _ _ Hf) as Hslot.
  destruct Hf as (_ & Hh & Hfd & Hfr & _).
  pose proof (acquire_small a c pre post info info' Ha Hh Hn) as Ha'.
  assert (Hc1 : cc_numDone (acquire a c) = cc_numDone c /\
    cc_numRetryWaiters (acquire a c) = cc_numRetryWaiters c /\
    cc_numUnconnectable (acquire a c) = cc_numUnconnectable c /\
    cc_numBufferless (acquire a c) = cc_numBufferless c /\
    cc_numPollSocks (acquire a c) = cc_numPollSocks c) by (unfold acquire; by destruct (a =? 0)).
  destruct Hc1 as (Ec1 & Ec2 & Ec3 & Ec4 & Ec5).
  set (c1 := acquire a c) in *. clearbody c1.
  pose proof (sumZ_bounds isDone (pre ++ info' :: post) isDone_01).
  pose proof (sumZ_bounds isRetry (pre ++ info' :: post) isRetry_01).
  pose proof (zlen_nonneg pre). pose proof (zlen_nonneg post).
  pose proof (sumZ_bounds isDone pre isDone_01). pose proof (sumZ_bounds isRetry pre isRetry_01).
  unfold counters, waiting_ok, waiting in *.
  rewrite !sumZ_app, !sumZ_cons in *. cbn [sumZ foldr] in *. autorewrite with zlen in *.
  destruct s; cbn [apply_slot add_numDone add_numRetryWaiters add_numUnconnectable add_numBufferless
    add_pollSock cc_numDone cc_numRetryWaiters cc_numAcquiredConns cc_numUnconnectable
    cc_numBufferless cc_numPollSocks slotZ] in *; rewrite ?u32_small by lia; split_and!; lia.
Qed.

Lemma steps_counters i c infos ss c' infos' pre :
  steps_rel env i c infos ss c' infos' -> zlen (pre ++ infos) < 2 ^ 31 ->
  counters c (pre ++ infos) -> waiting_ok c pre ->
  counters c' (pre ++ infos') /\ waiting_ok c' (pre ++ infos').
Proof.
  intros Hrel. revert pre.
  induction Hrel as [i c|i c info infos a s info' ss c' infos' Hf _ IH]; intros pre Hn Hc Hw.
  { rewrite app_nil_r in *. done. }
  destruct (step_counters _ _ _ _ _ _ i _ _ Hf Hn Hc Hw) as [Hc' Hw'].
  specialize (IH (pre ++ [info'])). rewrite <- !app_assoc in IH. cbn [app] in IH.
  apply IH; [|done|done]. revert Hn. autorewrite with zlen. done.
Qed.
End Pass.

(** ** Progress of a pass *)

Definition total_rank (l : list (CommKitTargetInfo P)) : nat := sum_list_with rank l.

Definition is_wait (s : slot) : Z :=
  match s with SUnconnectable | SBufferless | SPoll => 1 | _ => 0 end.
Definition is_poll (s : slot) : Z := match s with SPoll => 1 | _ => 0 end.

(** What a blocked step leaves as it was. *)
Lemma blocked_same e c info s info' :
  blocked e c info s info' ->
  rank info' = rank info /\ holds info' = holds info /\ isDone info' = isDone info /\
  isRetry info' = isRetry info /\ isDone info + isRetry info + is_wait s = 1.
Proof.
  destruct s; cbn [blocked is_wait]; try done.
  - intros [H ->]. split_and!; try done. lia.
  - intros (H1 & H2 & _). unfold rank, holds, isDone, isRetry. by rewrite H1, H2.
  - intros (H1 & H2 & _). unfold rank, holds, isDone, isRetry. by rewrite H1, H2.
  - intros (sk & ev & _ & H1 & H2 & _ & H3 & H4 & _).
    assert (H5 : forall x, wanted x = Some ev -> holds x = 1 /\ isDone x = 0 /\ isRetry x = 0).
    { intros x. unfold wanted, holds, isDone, isRetry. by destruct (ti_state x). }
    destruct (H5 _ H1) as (? & ? & ?), (H5 _ H2) as (? & ? & ?). split_and!; try done; lia.
Qed.

Lemma blocked_ctx e c c1 info s info' :
  cc_numAcquiredConns c1 = cc_numAcquiredConns c -> cc_pollTimedOut c1 = cc_pollTimedOut c ->
  blocked e c1 info s info' -> blocked e c info s info'.
Proof. intros Ha Hp. unfold blocked. by rewrite Ha, Hp. Qed.

(** Three lists side by side, with positions. *)
Definition all_blocked (env : nat -> TargetEnv E) (i : nat) c (infos : list (CommKitTargetInfo P))
    (ss : list slot) (infos' : list (CommKitTargetInfo P)) : Prop :=
  forall j info, infos !! j = Some info -> exists s info',
    ss !! j = Some s /\ infos' !! j = Some info' /\ blocked (env (i + j)%nat) c info s info'.

Section Progress.
Context (env : nat -> TargetEnv E).
Hypothesis live : forall j, io_live (env j).

Lemma step_rank_le e c info a s info' :
  io_live e -> step_facts e c info a s info' -> (rank info' <= rank info)%nat.
Proof.
  intros Hl (_ & _ & _ & _ & _ & [Hr | [Hb | [Hs _]]]); [lia| |done]. destruct (blocked_same _ _ _ _ _ Hb) as [-> _]. lia.
Qed.

Lemma steps_rank_le i c infos ss c' infos' :
  steps_rel env i c infos ss c' infos' -> (total_rank infos' <= total_rank infos)%nat.
Proof.
  induction 1 as [|i c info infos a s info' ss c' infos' Hf _ IH]; [done|].
  pose proof (step_rank_le _ _ _ _ _ _ (live i) Hf). unfold total_rank in *. cbn. lia.
Qed.

(** Either the pass makes progress, or every target is blocked. *)
Lemma steps_progress i c infos ss c' infos' :
  steps_rel env i c infos ss c' infos' ->
  (total_rank infos' < total_rank infos)%nat \/
  total_rank infos' = total_rank infos /\ all_blocked env i c infos ss infos' /\
    cc_numAcquiredConns c' = cc_numAcquiredConns c.
Proof.
  induction 1 as [i c|i c info infos a s info' ss c' infos' Hf Hrel IH].
  { right. split_and!; done. }
  pose proof (step_rank_le _ _ _ _ _ _ (live i) Hf) as Hle. pose proof (steps_rank_le _ _ _ _ _ _ Hrel) as Hle'.
  unfold total_rank in *. cbn [sum_list_with].
  destruct IH as [IH | (IHe & IHb & IHa)]; [left; lia|].
  destruct Hf as (_ & Hh & _ & _ & _ & [Hp | [Hp | [Hs _]]]); [left; lia| |by destruct (Hs (live i))].
  destruct (blocked_same _ _ _ _ _ Hp) as (Hr & Hh' & _). assert (a = 0) as -> by lia.
  right. split; [lia|]. change (acquire 0 c) with c in *.
  assert (Hc1 : cc_numAcquiredConns (apply_slot i s c) = cc_numAcquiredConns c /\
    cc_pollTimedOut (apply_slot i s c) = cc_pollTimedOut c) by (by destruct s).
  split; [|lia]. intros [|j] x Hj.
  - injection Hj as <-. exists s, info'. rewrite Nat.add_0_r. done.
  - destruct (IHb j x Hj) as (s' & x' & Hs' & Hx' & Hb'). exists s', x'. split_and!; [done..|].
    rewrite Nat.add_succ_r. eapply blocked_ctx; [..|exact Hb']; apply Hc1.
Qed.

(** Exact values of the counters of waiting targets. *)
Lemma steps_slots i c infos ss c' infos' :
  steps_rel env i c infos ss c' infos' ->
  0 <= cc_numUnconnectable c -> 0 <= cc_numBufferless c -> 0 <= cc_numPollSocks c ->
  waiting c + zlen infos < 2 ^ 32 ->
  waiting c' = waiting c + sumZ is_wait ss /\ cc_numPollSocks c' = cc_numPollSocks c + sumZ is_poll ss.
Proof.
  induction 1 as [i c|i c info infos a s info' ss c' infos' _ _ IH]; intros H1 H2 H3 Hn; [cbn; lia|].
  rewrite !sumZ_cons. autorewrite with zlen in Hn. pose proof (zlen_nonneg infos).
  unfold waiting in *.
  assert (Hc1 : cc_numUnconnectable (acquire a c) = cc_numUnconnectable c /\
    cc_numBufferless (acquire a c) = cc_numBufferless c /\
    cc_numPollSocks (acquire a c) = cc_numPollSocks c) by (unfold acquire; by destruct (a =? 0)).
  destruct Hc1 as (E1 & E2 & E3).
  destruct s; cbn [apply_slot add_numDone add_numRetryWaiters add_numUnconnectable add_numBufferless
    add_pollSock cc_numUnconnectable cc_numBufferless cc_numPollSocks is_wait is_poll] in *;
    rewrite ?E1, ?E2, ?E3 in IH; rewrite ?u32_small in IH by lia;
    (destruct IH as [-> ->]; [lia..|]); lia.
Qed.

(** The poll list holds the positions of the targets that poll. *)
Lemma steps_pollState i c infos ss c' infos' j :
  steps_rel env i c infos ss c' infos' -> j ∈ cc_pollState c' ->
  j ∈ cc_pollState c \/ exists k, j = (i + k)%nat /\ ss !! k = Some SPoll.
Proof.
  induction 1 as [i c|i c info infos a s info' ss c' infos' _ _ IH]; intros Hj; [by left|].
  destruct (IH Hj) as [Hin | (k & -> & Hk)].
  2: { right. exists (S k). split; [lia|done]. }
  assert (Hc : cc_pollState (acquire a c) = cc_pollState c) by (unfold acquire; by destruct (a =? 0)).
  destruct s; cbn in Hin; rewrite Hc in Hin; auto.
  apply elem_of_app in Hin as [|Hin]; [by left|]. apply list_elem_of_singleton in Hin as ->.
  right. exists 0%nat. split; [lia|done].
Qed.
End Progress.

(** ** Polling *)

(** Only the events of connected sockets change. *)
Definition same_but_events info info' : Prop :=
  exists s, info' = set_socket s info /\ (is_Some s <-> is_Some (ti_socket info)).

Lemma same_but_events_refl info : same_but_events info info.
Proof. exists (ti_socket info). by destruct info. Qed.

Lemma same_but_events_facts info info' :
  same_but_events info info' ->
  ti_state info' = ti_state info /\ rank info' = rank info /\ holds info' = holds info /\
  isDone info' = isDone info /\ isRetry info' = isRetry info /\ wanted info' = wanted info /\
  (wf info -> wf info').
Proof.
  intros (s & -> & Hs). split_and!; try done.
  - unfold holds. ck_simpl. destruct (ti_state info); try done.
    destruct s, (ti_socket info); try done; [destruct (proj1 Hs)|destruct (proj2 Hs)]; (done || by eexists).
  - unfold wf, connected. ck_simpl. intros [? Hw]. split; [done|].
    destruct (ti_state info); try done; try (destruct Hw as (? & ? & ?); split_and!; try done; by apply Hs).
    2: { destruct Hw as [(? & ? & ?) ?]; split_and!; try done; by apply Hs. }
    destruct Hw as [Hw|]; [left|by right]. destruct s; [|done].
    destruct (proj1 Hs) as [? Hx]; [by eexists|]. by rewrite Hw in Hx.
Qed.

Lemma poll_sockets_spec mask polled j (infos : list (CommKitTargetInfo P)) n infos' :
  poll_sockets mask polled j infos = (n, infos') ->
  Forall2 same_but_events infos infos' /\ 0 <= n /\
  (0 < n -> exists k info sk, infos !! k = Some info /\ (j + k)%nat ∈ polled /\
     ti_socket info = Some sk /\ poll_interesting (sk_events sk) (mask (j + k)%nat) = true /\
     infos' !! k = Some (set_socket (Some (MkSocket (sk_events sk) (mask (j + k)%nat))) info)).
Proof.
  revert j n infos'. induction infos as [|info infos IH]; intros j n infos'; cbn [poll_sockets].
  { intros [= <- <-]. split; [constructor|]. lia. }
  destruct (poll_sockets mask polled (S j) infos) as [m l] eqn:Ep.
  destruct (IH _ _ _ Ep) as (HF & Hm & Hex).
  assert (Hex' : forall x, 0 < m -> exists k info0 sk, (info :: infos) !! k = Some info0 /\ (j + k)%nat ∈ polled /\
     ti_socket info0 = Some sk /\ poll_interesting (sk_events sk) (mask (j + k)%nat) = true /\
     (x :: l) !! k = Some (set_socket (Some (MkSocket (sk_events sk) (mask (j + k)%nat))) info0)).
  { intros x Hpos. destruct (Hex Hpos) as (k & y & sk & H1 & H2 & H3 & H4 & H5).
    exists (S k), y, sk. rewrite Nat.add_succ_r. done. }
  destruct (ti_socket info) as [sk|] eqn:Es.
  2: { intros [= <- <-]. split_and!; [|done|apply Hex'].
       constructor; [apply same_but_events_refl|done]. }
  destruct (bool_decide (j ∈ polled) && _) eqn:Eb; intros [= <- <-].
  - apply andb_true_iff in Eb as [Hin%bool_decide_eq_true Hint].
    split_and!; [|lia|intros _; exists 0%nat, info, sk; rewrite Nat.add_0_r; done].
    constructor; [|done]. eexists. split; [done|]. rewrite Es. split; by eexists.
  - split_and!; [|done|apply Hex']. constructor; [apply same_but_events_refl|done].
Qed.

Lemma same_but_events_sums infos infos' :
  Forall2 same_but_events infos infos' ->
  total_rank infos' = total_rank infos /\ sumZ holds infos' = sumZ holds infos /\
  sumZ isDone infos' = sumZ isDone infos /\ sumZ isRetry infos' = sumZ isRetry infos /\
  zlen infos' = zlen infos /\ ti_state <$> infos' = ti_state <$> infos /\
  (Forall wf infos -> Forall wf infos').
Proof.
  induction 1 as [|x x' l l' Hx _ IH]; [done|].
  destruct (same_but_events_facts _ _ Hx) as (Hst & Hr & Hh & Hd & Hry & _ & Hw).
  destruct IH as (I1 & I2 & I3 & I4 & I5 & I6 & I7).
  unfold total_rank in *. cbn [sum_list_with]. rewrite !sumZ_cons, !zlen_cons. cbn [fmap list_fmap].
  split_and!; try lia; [congruence|]. intros [??]%Forall_cons_1. constructor; auto.
Qed.

(** After a poll with nothing but waiting targets, one of them can go on in the next
    round. *)
Definition armed c (infos : list (CommKitTargetInfo P)) : Prop :=
  exists j info events, infos !! j = Some info /\ wanted info = Some events /\
    (cc_pollTimedOut c = true \/
     exists sk, ti_socket info = Some sk /\ Z.land (sk_revents sk) events <> 0).

Lemma armed_not_blocked env i c infos ss infos' :
  armed c infos -> all_blocked env i c infos ss infos' -> False.
Proof.
  intros (j & info & ev & Hj & Hw & Ha) Hb. destruct (Hb j info Hj) as (s & info' & _ & _ & Hbl).
  destruct s; cbn [blocked] in Hbl; try done.
  - destruct Hbl as [Hd _]. revert Hd Hw. unfold isDone, isRetry, wanted. by destruct (ti_state info).
  - destruct Hbl as [Hs _]. revert Hw. unfold wanted. by rewrite Hs.
  - destruct Hbl as [Hs _]. revert Hw. unfold wanted. by rewrite Hs.
  - destruct Hbl as (sk & ev' & Hsk & Hw' & _ & _ & _ & _ & Hz & Hto & _).
    rewrite Hw in Hw'. injection Hw' as <-. destruct Ha as [Ha | (sk' & Hsk' & Ha)]; congruence.
Qed.

(** A socket error is reported together with the requested event. *)
Definition poll_ok (r : RoundEnv E) : Prop :=
  forall j events, events = POLLIN \/ events = POLLOUT ->
    poll_interesting events (re_pollMask r j) = true -> Z.land (re_pollMask r j) events <> 0.

Lemma wanted_events info ev : wanted info = Some ev -> ev = POLLIN \/ ev = POLLOUT.
Proof.
  unfold wanted. repeat case_match; intros [= <-]; auto.
Qed.

(** ** Retries *)

Definition settled info : Prop :=
  ti_state info = CommKitState_DONE \/ ti_state info = CommKitState_RETRYWAIT.
Definition settled_or_prepare info : Prop := settled info \/ ti_state info = CommKitState_PREPARE.

Lemma settled_iff info : isDone info + isRetry info = 1 <-> settled info.
Proof. unfold settled, isDone, isRetry. repeat case_decide; split; intuition (lia || congruence). Qed.

Lemma retry_one_ok states buddies flags plan info plan' info' :
  retry_one ioPattern states buddies flags plan info = Some (plan', info') ->
  ti_state info' = CommKitState_PREPARE /\
  (ti_nodeResult info' = ti_nodeResult info /\ ti_ext info' = ti_ext info) /\
  ti_node info' = ti_node info /\ ti_headerBuffer info' = ti_headerBuffer info /\ rp_cancelRetries plan' = rp_cancelRetries plan.
Proof. unfold retry_one. repeat case_match; intros [= <- <-]; done. Qed.

Lemma retry_loop_ok states buddies flags plan infos plan' infos' :
  retry_loop ioPattern states buddies flags plan infos = (plan', infos') ->
  rp_cancelRetries plan = false -> Forall wf infos -> Forall settled infos ->
  Forall wf infos' /\ Forall settled_or_prepare infos' /\ zlen infos' = zlen infos /\
  sumZ isDone infos' = sumZ isDone infos /\ (rp_cancelRetries plan' = false -> sumZ isRetry infos' = 0).
Proof.
  revert plan plan' infos'. induction infos as [|info infos IH]; intros plan plan' infos'; cbn [retry_loop].
  { intros [= <- <-]. done. }
  intros Hl Hc [Hw Hws]%Forall_cons_1 [Hs Hss]%Forall_cons_1.
  destruct (bool_decide_reflect (ti_state info = CommKitState_RETRYWAIT)) as [Hr|Hr].
  - destruct (retry_one _ _ _ _ _ _) as [[plan1 info1]|] eqn:E1.
    2: { injection Hl as <- <-. split_and!; try done; [by constructor|].
         constructor; [by left|]. eapply list.Forall_impl; [exact Hss|]. by left. }
    apply retry_one_ok in E1 as (Es & [Enr Ee] & En & Eh & Ec).
    destruct (retry_loop _ _ _ _ _ infos) as [plan2 l] eqn:E2. injection Hl as <- <-.
    destruct (IH _ _ _ E2 ltac:(congruence) Hws Hss) as (I1 & I2 & I3 & I4 & I5).
    destruct Hw as [Hok Hw]. rewrite Hr in Hw. rewrite !sumZ_cons, !zlen_cons.
    split_and!; [|by constructor; [right|]|lia| |].
    + constructor; [|done]. unfold wf. rewrite Es, Enr, Ee, En, Eh. done.
    + unfold isDone at 1 3. rewrite Es, Hr. done.
    + intros Hcc. rewrite I5 by done. unfold isRetry. by rewrite Es.
  - destruct Hs as [Hs|]; [|done].
    destruct (retry_loop _ _ _ _ _ infos) as [plan2 l] eqn:E2. injection Hl as <- <-.
    destruct (IH _ _ _ E2 Hc Hws Hss) as (I1 & I2 & I3 & I4 & I5). rewrite !sumZ_cons, !zlen_cons.
    split_and!; [by constructor|by constructor; [left; left|]|lia|lia|].
    intros Hcc. rewrite I5 by done. unfold isRetry. by rewrite Hs.
Qed.

Lemma cancel_loop_ok c infos c' infos' :
  cancel_loop c infos = (c', infos') -> Forall wf infos -> Forall settled_or_prepare infos ->
  0 <= cc_numDone c -> cc_numDone c + zlen infos < 2 ^ 32 ->
  Forall wf infos' /\ Forall (fun info => isDone info = 1) infos' /\ zlen infos' = zlen infos /\
  cc_numDone c' = cc_numDone c + zlen infos - sumZ isDone infos /\
  cc_numRetryWaiters c' = cc_numRetryWaiters c /\ cc_numAcquiredConns c' = cc_numAcquiredConns c /\
  cc_currentRetryNum c' = cc_currentRetryNum c /\ cc_numUnconnectable c' = cc_numUnconnectable c /\
  cc_numBufferless c' = cc_numBufferless c /\ cc_numPollSocks c' = cc_numPollSocks c.
Proof.
  revert c c' infos'. induction infos as [|info infos IH]; intros c c' infos'; cbn [cancel_loop].
  { intros [= <- <-] _ _ _ _. split_and!; try done. cbn. autorewrite with zlen. lia. }
  intros Hl [Hw Hws]%Forall_cons_1 [Hs Hss]%Forall_cons_1 H0 Hn.
  rewrite zlen_cons, sumZ_cons in *. pose proof (zlen_nonneg infos).
  destruct Hw as [Hok Hw].
  assert (Hc1 : ti_state info = CommKitState_RETRYWAIT \/ ti_state info = CommKitState_PREPARE ->
    cancel_loop (add_numDone 1 c) infos = (c', tail infos') -> infos' = set_state CommKitState_DONE info :: tail infos' ->
    Forall wf infos' /\ Forall (fun info => isDone info = 1) infos' /\ zlen infos' = 1 + zlen infos /\
    cc_numDone c' = cc_numDone c + (1 + zlen infos) - (isDone info + sumZ isDone infos) /\
    cc_numRetryWaiters c' = cc_numRetryWaiters c /\ cc_numAcquiredConns c' = cc_numAcquiredConns c /\
    cc_currentRetryNum c' = cc_currentRetryNum c /\ cc_numUnconnectable c' = cc_numUnconnectable c /\
    cc_numBufferless c' = cc_numBufferless c /\ cc_numPollSocks c' = cc_numPollSocks c).
  { intros Hst Hcl ->. cbn [tail] in Hcl.
    assert (Hd : cc_numDone (add_numDone 1 c) = cc_numDone c + 1) by (cbn; apply u32_small; lia).
    destruct (IH _ _ _ Hcl Hws Hss ltac:(lia) ltac:(lia)) as (I1 & I2 & I3 & I4 & I5 & I6 & I7 & I8 & I9 & I10).
    rewrite zlen_cons. cbn [cc_numRetryWaiters cc_numAcquiredConns cc_currentRetryNum cc_numUnconnectable cc_numBufferless
      cc_numPollSocks add_numDone] in *.
    assert (isDone info = 0) as Hi by (unfold isDone; by destruct Hst as [-> | ->]).
    split_and!; try lia; constructor; try done.
    split; [done|]. cbn. by destruct Hst as [Hst|Hst]; rewrite Hst in Hw. }
  destruct (ti_state info) eqn:Es; try (by destruct Hs as [[Hs|Hs]|Hs]; rewrite Es in Hs);
    try (destruct (cancel_loop (add_numDone 1 c) infos) as [c1 l] eqn:E1; injection Hl as <- <-;
         apply Hc1; [by auto|done|done]).
  destruct (cancel_loop c infos) as [c1 l] eqn:E1. injection Hl as <- <-.
  destruct (IH _ _ _ E1 Hws Hss H0 ltac:(lia)) as (I1 & I2 & I3 & I4 & I5 & I6 & I7 & I8 & I9 & I10).
  assert (Hi : isDone info = 1) by (unfold isDone; by rewrite Es).
  rewrite zlen_cons. split_and!; try lia; constructor; try done.
  split; [done|]. by rewrite Es.
Qed.

(** ** The invariant of the loop *)

(** Between two rounds: all targets are well formed, the counters are exact, every target
    is counted at most once, and a target waits for a retry only while retries are left. *)
Definition inv c (infos : list (CommKitTargetInfo P)) : Prop :=
  Forall wf infos /\ counters c infos /\ 0 <= cc_currentRetryNum c /\
  (cc_numRetryWaiters c <> 0 -> retries_left cfg c = true) /\ waiting_ok c infos.

Lemma done_retry_bound infos : sumZ isDone infos + sumZ isRetry infos <= zlen infos.
Proof.
  induction infos as [|x l IH]; [done|]. rewrite !sumZ_cons, zlen_cons.
  assert (isDone x + isRetry x <= 1) by (unfold isDone, isRetry; repeat case_decide; congruence || lia). lia.
Qed.

Lemma initial_inv infos :
  Forall wf infos -> Forall (fun info => ti_state info = CommKitState_PREPARE) infos ->
  inv initial_context infos.
Proof.
  intros Hw Hs.
  assert (H0 : forall f : CommKitTargetInfo P -> Z,
    (forall x, ti_state x = CommKitState_PREPARE -> f x = 0) -> sumZ f infos = 0).
  { intros f Hf. rewrite (sumZ_const _ 0); [done|]. by eapply list.Forall_impl. }
  pose proof (zlen_nonneg infos).
  unfold inv, counters, waiting_ok, waiting. cbn.
  rewrite !H0; [split_and!; done || lia| | |]; intros x Hx; unfold holds, isDone, isRetry; by rewrite Hx.
Qed.

(** The number of retries that can still be started: with retries limited by the
    configuration, or none at all when the process is being killed. *)
Definition budget (killed : bool) c (infos : list (CommKitTargetInfo P)) : nat :=
  if killed then (if sumZ isRetry infos =? 0 then 0 else 1)
  else if cfg_connRetriesEnabled cfg
    then Z.to_nat (cfg_connNumCommRetries cfg - cc_currentRetryNum c) else 0.

Definition never_resets (r : RoundEnv E) : Prop :=
  forall infos : list (CommKitTargetInfo P), rp_resetRetries (retry_loop ioPattern (re_states r) (re_buddies r) (op_retryFlags ops)
    (MkRetryPlan false false true) infos).1 = false.

Definition round_ok (killed : bool) (r : RoundEnv E) : Prop :=
  (forall i, env_ok (re_target r i)) /\ (forall i, io_live (re_target r i)) /\
  (if killed
   then forall i, te_signal_io (re_target r i) = true /\ te_signal_cleanup (re_target r i) = true
   else poll_ok r /\ (cfg_connRetriesEnabled cfg = true -> never_resets r)).

Definition config_ok (killed : bool) : Prop :=
  0 <= cfg_connNumCommRetries cfg < 2 ^ 32 /\ cfg_connMsgLongTimeout cfg <> 0 /\
  (killed = false -> cfg_connRetriesEnabled cfg = true -> 0 < cfg_connNumCommRetries cfg).

Lemma total_rank_settled infos :
  Forall settled_or_prepare infos -> (total_rank infos <= length infos * top)%nat.
Proof.
  induction 1 as [|x l Hx _ IH]; [done|]. unfold total_rank in *. cbn [sum_list_with length].
  assert (rank x <= top)%nat by (unfold rank; destruct Hx as [[-> | ->] | ->]; lia). lia.
Qed.

Lemma settled_waiting c infos :
  waiting_ok c infos -> Forall settled infos -> waiting c = 0 /\ sumZ isDone infos + sumZ isRetry infos = zlen infos.
Proof.
  intros (H1 & H2 & H3 & Hle) Hset.
  assert (Hs : sumZ isDone infos + sumZ isRetry infos = zlen infos).
  { clear -Hset. induction Hset as [|x l Hx _ IH]; [done|]. rewrite !sumZ_cons, zlen_cons.
    apply settled_iff in Hx. lia. }
  unfold waiting in *. lia.
Qed.

Lemma settled_holds infos : Forall settled_or_prepare infos -> sumZ holds infos = 0.
Proof.
  intros Hk. rewrite (sumZ_const _ 0); [done|]. eapply list.Forall_impl; [exact Hk|].
  intros x Hx. unfold holds. by destruct Hx as [[-> | ->] | ->].
Qed.

(** A retry starts all waiting targets again, or finishes all of them. *)
Lemma start_retry_inv (r : RoundEnv E) c infos c' infos' :
  inv c infos -> zlen infos < 2 ^ 31 -> Forall settled infos ->
  __commkit_start_retry ioPattern (re_states r) (re_buddies r) (op_retryFlags ops) c infos = (c', infos') ->
  inv c' infos' /\ zlen infos' = zlen infos /\
  (sumZ isDone infos' = zlen infos \/
   sumZ isRetry infos' = 0 /\ (total_rank infos' <= length infos * top)%nat /\
   (cc_currentRetryNum c' = u32 (cc_currentRetryNum c + 1) \/ (retry_loop ioPattern (re_states r) (re_buddies r)
      (op_retryFlags ops) (MkRetryPlan false false true) infos).1.(rp_resetRetries) = true)).
Proof.
  intros (Hw & (Hd & Hry & Hacq) & Hcur & Hleft & Hwo) Hn Hset Hs. unfold __commkit_start_retry in Hs.
  destruct (settled_waiting _ _ Hwo Hset) as [Hw0 _]. destruct Hwo as (Hu0 & Hb0 & Hp0 & _). unfold waiting in Hw0.
  destruct (retry_loop _ _ _ _ _ infos) as [plan l] eqn:El. cbn [fst].
  destruct (retry_loop_ok _ _ _ _ _ _ _ El eq_refl Hw Hset) as (Hwl & Hsl & Hzl & Hdl & Hcl).
  assert (Hi0 : sumZ holds infos = 0).
  { apply settled_holds. eapply list.Forall_impl; [exact Hset|]. by left. }
  pose proof (sumZ_bounds isDone infos isDone_01) as Hb.
  destruct (rp_cancelRetries plan) eqn:Ec.
  - (* all retries are cancelled *)
    destruct (cancel_loop_ok _ _ _ _ Hs Hwl Hsl) as (H1 & H2 & H3 & H4 & H5 & H6 & H7 & H8 & H9 & H10); [cbn; lia..|].
    cbn in H4, H5, H6, H7, H8, H9, H10.
    assert (Hall : sumZ isDone infos' = zlen infos) by (rewrite (sumZ_const _ _ _ H2); lia).
    pose proof (done_retry_bound infos'). pose proof (sumZ_bounds isRetry infos' isRetry_01).
    assert (Hnh0 : sumZ holds infos' = 0).
    { apply settled_holds. eapply list.Forall_impl; [exact H2|]. intros x Hx. left. left.
      revert Hx. unfold isDone. by case_decide. }
    split_and!; [|lia|by left]. unfold inv, counters, waiting_ok, waiting.
    rewrite H5. split_and!; done || lia.
  - specialize (Hcl eq_refl). pose proof (settled_holds l Hsl) as Hh0.
    assert (Hinv : forall k, 0 <= k -> inv (set_currentRetryNum k (set_pollTimedOut false
      (reset_numRetryWaiters c))) l).
    { intros k Hk. pose proof (done_retry_bound l). unfold inv, counters, waiting_ok, waiting. cbn.
      split_and!; done || lia. }
    assert (Hrk : (total_rank l <= length infos * top)%nat).
    { replace (length infos) with (length l) by (unfold zlen in Hzl; lia).
      by apply total_rank_settled. }
    pose proof (u32_range (cc_currentRetryNum c + 1)).
    destruct (rp_resetRetries plan) eqn:Er; injection Hs as <- <-;
      (split; [apply Hinv; lia|]; split; [done|]; right; split_and!; auto).
Qed.

Lemma start_retry_spec killed r c infos c' infos' :
  round_ok killed r -> config_ok killed -> inv c infos -> zlen infos < 2 ^ 31 ->
  Forall settled infos -> cc_numRetryWaiters c <> 0 ->
  __commkit_start_retry ioPattern (re_states r) (re_buddies r) (op_retryFlags ops) c infos = (c', infos') ->
  inv c' infos' /\ zlen infos' = zlen infos /\
  (sumZ isDone infos' = zlen infos \/
   (budget killed c' infos' < budget killed c infos)%nat /\ (total_rank infos' <= length infos * top)%nat).
Proof.
  intros (_ & _ & Hr) (Hmax & _ & Hlim) Hinv Hn Hset Hnz Hs.
  destruct (start_retry_inv r c infos c' infos' Hinv Hn Hset Hs) as (Hinv' & Hz & Hres).
  split; [done|]. split; [done|]. destruct Hres as [Hres | (Hr0 & Hrk & Hnum)]; [by left|right].
  split; [|done]. destruct Hinv as (_ & (_ & Hry & _) & Hcur & Hleft & _). specialize (Hleft Hnz).
  unfold budget. destruct killed.
  { rewrite (proj2 (Z.eqb_neq (sumZ isRetry infos) 0)) by lia. rewrite Hr0. cbn. lia. }
  unfold retries_left in Hleft. destruct (cfg_connRetriesEnabled cfg) eqn:Een; [|done].
  cbn [andb] in Hleft. specialize (Hlim eq_refl eq_refl).
  rewrite (proj2 (Z.eqb_neq _ 0)) in Hleft by lia. cbn [orb] in Hleft. apply Z.ltb_lt in Hleft.
  destruct Hr as [_ Hr]. specialize (Hr eq_refl infos).
  destruct Hnum as [Hnum|Hnum]; [|congruence]. rewrite Hnum, u32_small by lia. lia.
Qed.

(** ** One round *)

(** New waiters for a retry need a retry that is left. *)
Lemma steps_retry env i c infos ss c' infos' :
  steps_rel env i c infos ss c' infos' -> sumZ isRetry infos' <> 0 ->
  sumZ isRetry infos <> 0 \/
  retries_left cfg c = true /\ exists j, te_signal_cleanup (env j) = false.
Proof.
  induction 1 as [i c|i c info infos a s info' ss c' infos' Hf _ IH]; intros Hnz; [by left|].
  rewrite !sumZ_cons in *. pose proof (sumZ_bounds isRetry infos isRetry_01).
  pose proof (sumZ_bounds isRetry infos' isRetry_01). pose proof (isRetry_01 info).
  pose proof (isRetry_01 info'). destruct Hf as (_ & _ & _ & Hr & Hs & _).
  destruct (decide (sumZ isRetry infos' = 0)) as [Hz|Hz].
  - destruct (decide (s = SRetry)) as [->|Hne]; [right; destruct (Hs eq_refl); eauto|].
    left. replace (slotZ SRetry s) with 0 in Hr by (by destruct s). lia.
  - destruct (IH Hz) as [? | [Hl Hj]]; [left; lia|]. right. split; [|done].
    revert Hl. unfold retries_left, acquire. by destruct s, (a =? 0).
Qed.

(** What a pass that starts a round achieves. *)
Lemma pass_spec r c infos :
  (forall i, env_ok (re_target r i)) -> inv c infos -> zlen infos < 2 ^ 31 -> Forall not_other infos ->
  exists c1 infos1 ss,
    commkit_steps ops cfg ioPattern (re_target r) 0 (start_round c) infos = Some (c1, infos1) /\
    steps_rel (re_target r) 0 (start_round c) infos ss c1 infos1 /\
    inv c1 infos1 /\ zlen infos1 = zlen infos /\ waiting_ok c1 infos1 /\
    waiting c1 = sumZ is_wait ss /\ cc_numPollSocks c1 = sumZ is_poll ss /\
    (forall killed, round_ok killed r -> budget killed c1 infos1 <= budget killed c infos)%nat /\
    (forall j, j ∈ cc_pollState c1 -> ss !! j = Some SPoll).
Proof.
  intros He (Hw & Hc & Hcur & Hleft & _) Hn Hno.
  destruct (commkit_steps_rel (re_target r) 0 (start_round c) infos He Hw Hno)
    as (ss & c1 & infos1 & Hst & Hrel).
  destruct (steps_const _ _ _ _ _ _ _ Hrel) as [Hto Hrn]. cbn in Hto, Hrn.
  destruct (steps_length _ _ _ _ _ _ _ Hrel) as [Hl1 Hl2].
  destruct (steps_counters _ _ _ _ _ _ _ [] Hrel) as [Hc1 Hw1]; [done|done|by split_and!|].
  destruct (steps_slots _ _ _ _ _ _ _ Hrel) as [Hwt Hps];
    [done..|unfold waiting; cbn [start_round cc_numUnconnectable cc_numBufferless cc_numPollSocks]; lia|].
  pose proof (steps_retry _ _ _ _ _ _ _ Hrel) as Hnew. cbn [app] in *.
  assert (Hrl : retries_left cfg c1 = retries_left cfg c) by (unfold retries_left; by rewrite Hrn).
  assert (Hzl : zlen infos1 = zlen infos) by (unfold zlen; lia).
  exists c1, infos1, ss. split_and!; try done.
  - split; [by eapply steps_wf|]. split; [done|]. rewrite Hrn, Hrl. split; [done|]. split; [|done].
    destruct Hc1 as (_ & -> & _). intros Hnz. destruct (Hnew Hnz) as [Ho | [Hl _]]; [|done].
    apply Hleft. by destruct Hc as (_ & -> & _).
  - intros killed (_ & _ & Hr). unfold budget. rewrite Hrn. destruct killed; [|lia].
    destruct (Z.eqb_spec (sumZ isRetry infos1) 0) as [|Hnz]; [lia|].
    destruct (Hnew Hnz) as [Ho | [_ [j Hj]]]; [by rewrite (proj2 (Z.eqb_neq _ _) Ho)|].
    destruct (Hr j) as [_ Hj']. congruence.
  - intros j Hj. destruct (steps_pollState _ _ _ _ _ _ _ j Hrel Hj) as [Hin | (k & -> & Hk)]; [|done].
    cbn in Hin. by apply elem_of_nil in Hin.
Qed.

(** A pass in which every target is blocked: either all of them are settled, or some wait
    for their sockets and every target is counted. *)
Lemma blocked_pass env c infos ss c1 infos1 :
  steps_rel env 0 (start_round c) infos ss c1 infos1 ->
  all_blocked env 0 (start_round c) infos ss infos1 -> counters c infos ->
  zlen infos1 = sumZ isDone infos1 + sumZ isRetry infos1 + sumZ is_wait ss /\
  (sumZ is_poll ss = 0 -> sumZ is_wait ss = 0).
Proof.
  intros Hrel Hb (_ & _ & Hacq). destruct (steps_length _ _ _ _ _ _ _ Hrel) as [Hl1 Hl2].
  assert (Hcnt : forall j s, ss !! j = Some s -> exists info info', infos !! j = Some info /\
    infos1 !! j = Some info' /\ blocked (env j) (start_round c) info s info').
  { intros j s Hj. destruct (lookup_lt_is_Some_2 infos j) as [info Hi].
    { apply lookup_lt_Some in Hj. lia. }
    destruct (Hb j info Hi) as (s' & info' & Hs' & Hi' & Hbl). exists info, info'. naive_solver. }
  split.
  - clear -Hcnt Hl1 Hl2. revert ss infos1 env Hcnt Hl1 Hl2. induction infos as [|x infos IH];
      intros [|s ss] [|x' infos1] env Hcnt Hl1 Hl2; try done.
    rewrite zlen_cons, !sumZ_cons. rewrite (IH ss infos1 (fun j => env (S j)));
      [|intros j s' Hj; by apply (Hcnt (S j))|cbn in *; lia..].
    destruct (Hcnt 0%nat s eq_refl) as (y & y' & [= <-] & [= <-] & Hbl).
    destruct (blocked_same _ _ _ _ _ Hbl) as (_ & _ & -> & -> & Hsum). lia.
  - intros Hp0. assert (Hnp : Forall (fun s => is_poll s = 0) ss)
      by (apply sumZ_zero; [by intros []|done]).
    rewrite (sumZ_const _ 0); [done|]. apply list.Forall_lookup. intros j s Hj.
    destruct (Hcnt j s Hj) as (info & info' & Hi & _ & Hbl).
    assert (Hs : s <> SPoll) by (intros ->; by apply (Forall_lookup_1 _ _ _ _ Hnp) in Hj).
    destruct s; try done; exfalso.
    all: destruct Hbl as (_ & _ & Hnz); cbn in Hnz; rewrite Hacq in Hnz; apply Hnz;
      rewrite (sumZ_const _ 0); [done|]; apply list.Forall_lookup; intros k y Hk;
      destruct (Hb k y Hk) as (s' & y' & Hs' & _ & Hbl'); destruct s'; cbn [blocked] in Hbl'; try done;
      [destruct Hbl' as [Hd _]; revert Hd; unfold isDone, isRetry, holds; by destruct (ti_state y)
      |unfold holds; by destruct Hbl' as [-> _]
      |unfold holds; by destruct Hbl' as [-> _]
      |by apply (Forall_lookup_1 _ _ _ _ Hnp) in Hs'].
Qed.

(** Polling after a pass in which every target was blocked. *)
Lemma blocked_poll r c infos ss c1 infos1 c2 infos2 :
  poll_ok r -> cfg_connMsgLongTimeout cfg <> 0 -> zlen infos1 < 2 ^ 31 ->
  all_blocked (re_target r) 0 (start_round c) infos ss infos1 -> length ss = length infos ->
  length infos1 = length infos ->
  (forall j, j ∈ cc_pollState c1 -> ss !! j = Some SPoll) -> sumZ is_poll ss <> 0 ->
  numWaiters c1 = zlen infos1 ->
  __FhgfsOpsCommKitCommon_pollStateSocks cfg r (zlen infos1) c1 infos1 = (c2, infos2) ->
  armed c2 infos2.
Proof.
  intros Hpoll Hto Hn Hb Hl2 Hl1 Hps Hnz Hwait Hres.
  unfold __FhgfsOpsCommKitCommon_pollStateSocks in Hres. rewrite Hwait, Z.ltb_irrefl in Hres.
  unfold SocketTk_poll in Hres.
  destruct (poll_sockets _ _ 0 infos1) as [n l] eqn:Ep.
  destruct (poll_sockets_spec _ _ _ _ _ _ Ep) as (HF & Hn0 & Hex).
  assert (Hslot : forall k, ss !! k = Some SPoll -> exists x ev, infos1 !! k = Some x /\
    wanted x = Some ev /\ ti_socket x = Some (MkSocket ev 0)).
  { intros k Hk. destruct (lookup_lt_is_Some_2 infos k) as [info Hi].
    { apply lookup_lt_Some in Hk. lia. }
    destruct (Hb k info Hi) as (s & x & Hs & Hx & Hbl). rewrite Hk in Hs. injection Hs as <-.
    destruct Hbl as (sk & ev & _ & _ & Hw & Hsk & _). eauto. }
  destruct (decide (n = 0)) as [->|Hne].
  - (* nobody has an event: the wait timed out or failed *)
    assert (Hc2 : cc_pollTimedOut c2 = true /\ infos2 = l).
    { destruct (re_pollErr r) as [err|]; cbn [Z.eqb andb] in Hres;
        rewrite (proj2 (Z.eqb_neq _ _) Hto) in Hres; cbn in Hres; injection Hres as <- <-; done. }
    destruct Hc2 as [Hc2 ->].
    assert (Hk : exists k, ss !! k = Some SPoll).
    { destruct (decide (Exists (fun s => s = SPoll) ss)) as [Hy|Hno].
      - apply list.Exists_exists in Hy as (s & Hin & ->). by apply list_elem_of_lookup in Hin.
      - destruct Hnz. rewrite (sumZ_const _ 0); [done|]. apply not_Exists_Forall in Hno; [|apply _].
        eapply list.Forall_impl; [exact Hno|]. intros [] H; try done. by destruct H. }
    destruct Hk as [k Hk]. destruct (Hslot k Hk) as (x & ev & Hx & Hw & _).
    destruct (Forall2_lookup_l _ _ _ _ _ HF Hx) as (y & Hy & Hxy).
    destruct (same_but_events_facts _ _ Hxy) as (_ & _ & _ & _ & _ & Hwy & _).
    exists k, y, ev. split_and!; [done|congruence|by left].
  - assert (Hc2 : infos2 = l).
    { destruct (re_pollErr r) as [err|]; [rewrite (proj2 (Z.eqb_neq n 0) Hne) in Hres; cbn [andb] in Hres|];
        destruct (_ || _); by injection Hres as _ <-. }
    subst infos2. destruct (Hex ltac:(lia)) as (k & x & sk & Hx & Hin & Hsk & Hint & Hy). cbn [Nat.add] in *.
    destruct (Hslot k (Hps k Hin)) as (x' & ev & Hx' & Hw & Hsk'). rewrite Hx in Hx'. injection Hx' as <-.
    rewrite Hsk in Hsk'. injection Hsk' as ->. cbn [sk_events] in *.
    exists k, (set_socket (Some (MkSocket ev (re_pollMask r k))) x), ev. split_and!; [done|done|].
    right. eexists. split; [reflexivity|]. cbn. apply Hpoll; [|done]. by eapply wanted_events.
Qed.

(** With the counters of the pass the number of waiters is a plain sum. *)
Lemma numWaiters_sum c infos :
  counters c infos -> waiting_ok c infos -> zlen infos < 2 ^ 31 ->
  numWaiters c = waiting c + sumZ isDone infos + sumZ isRetry infos /\ numWaiters c <= zlen infos.
Proof.
  intros (Hd & Hr & _) (H1 & H2 & H3 & Hle) Hn. unfold numWaiters, waiting in *.
  pose proof (sumZ_bounds isDone infos isDone_01). pose proof (sumZ_bounds isRetry infos isRetry_01).
  rewrite Hd, Hr, u32_small by lia. lia.
Qed.

Lemma poll_inv (r : RoundEnv E) n c infos c' infos' killed :
  inv c infos -> __FhgfsOpsCommKitCommon_pollStateSocks cfg r n c infos = (c', infos') ->
  inv c' infos' /\ zlen infos' = zlen infos /\ total_rank infos' = total_rank infos /\
  budget killed c' infos' = budget killed c infos.
Proof.
  intros (Hw & Hc & Hcur & Hleft & Hwo) Hres. unfold __FhgfsOpsCommKitCommon_pollStateSocks, SocketTk_poll in Hres.
  destruct (poll_sockets _ _ 0 infos) as [k l] eqn:Ep.
  destruct (poll_sockets_spec _ _ _ _ _ _ Ep) as (HF & _ & _).
  destruct (same_but_events_sums _ _ HF) as (Hr & Hh & Hd & Hry & Hz & _ & Hwf).
  assert (Hcc : infos' = l /\ (c' = c \/ c' = set_pollTimedOut true c)).
  { revert Hres. repeat case_match; intros; simplify_eq; auto. }
  destruct Hcc as [-> Hcc].
  assert (Hb : budget killed c' l = budget killed c infos)
    by (unfold budget; rewrite Hry; by destruct Hcc as [-> | ->]).
  unfold inv, counters, retries_left, waiting_ok, waiting in *. rewrite Hd, Hry, Hh, Hz.
  split_and!; try done; destruct Hcc as [-> | ->]; cbn; try done; try (apply Hc); try (apply Hwo); auto.
Qed.

Lemma all_settled c infos :
  counters c infos -> zlen infos < 2 ^ 31 ->
  u32 (cc_numDone c + cc_numRetryWaiters c) = zlen infos -> Forall settled infos.
Proof.
  intros (Hd & Hry & _) Hn Hall. pose proof (sumZ_bounds isDone infos isDone_01).
  pose proof (sumZ_bounds isRetry infos isRetry_01).
  rewrite Hd, Hry, u32_small in Hall by lia.
  assert (Hs : sumZ (fun x => isDone x + isRetry x) infos = zlen infos).
  { rewrite <- Hall. clear. induction infos as [|x l IH]; [done|]. rewrite !sumZ_cons, IH. lia. }
  apply sumZ_all in Hs; [|intros x; unfold isDone, isRetry; repeat case_decide; lia || congruence].
  eapply list.Forall_impl; [exact Hs|]. intros x. apply settled_iff.
Qed.

(** A round keeps the invariant, whatever the outside world answers. *)
Lemma round_inv r c infos :
  (forall i, env_ok (re_target r i)) -> inv c infos -> zlen infos < 2 ^ 31 -> Forall not_other infos ->
  exists c' infos', commkit_round ops cfg ioPattern r c infos = Some (c', infos') /\
    inv c' infos' /\ zlen infos' = zlen infos.
Proof.
  intros He Hinv Hn Hno.
  destruct (pass_spec r c infos He Hinv Hn Hno)
    as (c1 & infos1 & ss & Hst & _ & Hinv1 & Hz1 & _).
  unfold commkit_round. rewrite Hst. cbn [mbind option_bind].
  destruct (negb (cc_numPollSocks c1 =? 0)).
  { destruct (__FhgfsOpsCommKitCommon_pollStateSocks cfg r (zlen infos1) c1 infos1) as [c2 infos2] eqn:E2.
    destruct (poll_inv _ _ _ _ _ _ true Hinv1 E2) as (Hinv2 & Hz2 & _).
    exists c2, infos2. split_and!; [done|done|lia]. }
  destruct (_ && _) eqn:Ew; [|exists c1, infos1; split_and!; [done|done|lia]].
  apply andb_prop in Ew as [_ Hall%Z.eqb_eq].
  pose proof (all_settled c1 infos1 (proj1 (proj2 Hinv1)) ltac:(lia) Hall) as Hset.
  destruct (__commkit_start_retry _ _ _ _ c1 infos1) as [c2 infos2] eqn:E2.
  destruct (start_retry_inv r c1 infos1 c2 infos2 Hinv1 ltac:(lia) Hset E2) as (Hinv2 & Hz2 & _).
  exists c2, infos2. split_and!; [done|done|lia].
Qed.

(** One round of the loop: it keeps the invariant; afterwards all targets are done, or
    there is less to do, or a target that can go on. *)
Lemma round_spec killed r c infos :
  round_ok killed r -> config_ok killed -> inv c infos -> zlen infos < 2 ^ 31 -> Forall not_other infos ->
  exists c' infos', commkit_round ops cfg ioPattern r c infos = Some (c', infos') /\
    inv c' infos' /\ zlen infos' = zlen infos /\
    (sumZ isDone infos' = zlen infos' \/
     (budget killed c' infos' <= budget killed c infos)%nat /\
       ((total_rank infos' < total_rank infos)%nat \/
        total_rank infos' = total_rank infos /\ ~ armed c infos /\ armed c' infos') \/
     (budget killed c' infos' < budget killed c infos)%nat /\
       (total_rank infos' <= length infos * top)%nat /\
       ((0 < total_rank infos)%nat \/ ~ armed c infos)).
Proof.
  intros Hr Hcfg Hinv Hn Hno.
  destruct (pass_spec r c infos (proj1 Hr) Hinv Hn Hno)
    as (c1 & infos1 & ss & Hst & Hrel & Hinv1 & Hz1 & Hw1 & Hwt & Hps & Hbud & Hpoll).
  specialize (Hbud killed Hr).
  destruct (steps_length _ _ _ _ _ _ _ Hrel) as [Hl1 Hl2].
  pose proof Hinv1 as (Hwf1 & Hc1 & Hcur1 & Hleft1 & _).
  assert (Hprog : (total_rank infos1 < total_rank infos)%nat \/
    total_rank infos1 = total_rank infos /\ ~ armed c infos /\
    all_blocked (re_target r) 0 (start_round c) infos ss infos1).
  { destruct (steps_progress _ (proj1 (proj2 Hr)) _ _ _ _ _ _ Hrel) as [H | (H1 & H2 & _)]; [by left|right].
    split_and!; [done| |done]. intros Ha. by apply (armed_not_blocked _ _ (start_round c) _ _ _ Ha H2). }
  unfold commkit_round. rewrite Hst. cbn [mbind option_bind].
  destruct (numWaiters_sum c1 infos1 Hc1 Hw1 ltac:(lia)) as [Hnw Hnwle].
  pose proof Hinv as (_ & Hc0 & _).
  destruct (Z.eqb_spec (cc_numPollSocks c1) 0) as [Hp0|Hp0]; cbn [negb].
  2: { (* poll *)
    destruct (__FhgfsOpsCommKitCommon_pollStateSocks cfg r (zlen infos1) c1 infos1) as [c2 infos2] eqn:E2.
    destruct (poll_inv _ _ _ _ _ _ killed Hinv1 E2) as (Hinv2 & Hz2 & Hr2 & Hb2).
    exists c2, infos2. split_and!; [done|done|lia|]. right. left. rewrite Hb2, Hr2. split; [done|].
    destruct Hprog as [Hp | (Hp & Hna & Hb)]; [by left|right]. split_and!; [done..|].
    destruct Hr as (_ & _ & Hr). destruct killed.
    - (* nobody waits for a socket of a killed process *)
      destruct Hp0. rewrite Hps, (sumZ_const _ 0); [done|]. apply list.Forall_lookup. intros j s Hj.
      destruct (lookup_lt_is_Some_2 infos j) as [info Hi]; [apply lookup_lt_Some in Hj; lia|].
      destruct (Hb j info Hi) as (s' & x & Hs' & _ & Hbl). rewrite Hj in Hs'. injection Hs' as <-.
      destruct s; try done. destruct Hbl as (? & ? & _ & _ & _ & _ & _ & _ & _ & _ & Hsig).
      destruct (Hr j) as [Hj' _]. cbn in Hsig. congruence.
    - destruct Hr as [Hpok _]. destruct (blocked_pass _ _ _ _ _ _ Hrel Hb Hc0) as [Hall _].
      eapply (blocked_poll r c infos ss c1 infos1); try done; [apply Hcfg|lia|lia|lia]. }
  destruct (Z.eqb_spec (cc_numRetryWaiters c1) 0) as [Hr0|Hr0]; cbn [negb andb];
    [|destruct (Z.eqb_spec (u32 (cc_numDone c1 + cc_numRetryWaiters c1)) (zlen infos1)) as [Hall|Hall]].
  2: { (* start a retry *)
    pose proof (all_settled c1 infos1 Hc1 ltac:(lia) Hall) as Hset.
    destruct (__commkit_start_retry _ _ _ _ c1 infos1) as [c2 infos2] eqn:E2.
    destruct (start_retry_spec killed r c1 infos1 c2 infos2) as (Hinv2 & Hz2 & Hfin); try done; [lia|].
    exists c2, infos2. split_and!; [done|done|lia|].
    destruct Hfin as [Hfin | [Hfin Hrk]]; [left; lia|right; right].
    split_and!; [lia|by rewrite <- Hl1|]. destruct Hprog as [Hp | (_ & Hna & _)]; [left; lia|by right]. }
  all: exists c1, infos1; split_and!; [done|done|lia|].
  - destruct Hprog as [Hp | (Hp & Hna & Hb)]; [by right; left; auto|left].
    destruct (blocked_pass _ _ _ _ _ _ Hrel Hb Hc0) as [Hsum Hw0]. destruct Hc1 as (_ & Hry & _).
    rewrite Hw0 in Hsum by lia. lia.
  - destruct Hprog as [Hp | (Hp & Hna & Hb)]; [by right; left; auto|exfalso].
    destruct (blocked_pass _ _ _ _ _ _ Hrel Hb Hc0) as [Hsum Hw0]. destruct Hc1 as (Hd & Hry & _).
    rewrite Hw0 in Hsum by lia. apply Hall. rewrite Hd, Hry, u32_small; [lia|].
    pose proof (sumZ_bounds isDone infos1 isDone_01). pose proof (sumZ_bounds isRetry infos1 isRetry_01). lia.
Qed.

(** ** The loop *)

Definition is_other info : Prop := exists v, ti_state info = CommKitState_Other v.

#[local] Instance is_other_dec info : Decision (is_other info).
Proof.
  destruct (ti_state info) as [| | | | | | | | |v] eqn:E1;
    try (right; intros [w Hw]; rewrite E1 in Hw; done).
  left. by exists v.
Defined.

(** A target with a state that is not an enumerator stops the kernel. *)
Lemma steps_other env i c infos :
  (forall j, env_ok (env j)) -> Forall wf infos -> Exists is_other infos ->
  commkit_steps ops cfg ioPattern env i c infos = None.
Proof.
  intros He. revert i c. induction infos as [|info infos IH]; intros i c Hw Hex.
  { by inversion Hex. }
  apply Forall_cons_1 in Hw as [Hw Hws]. cbn [commkit_steps].
  destruct (decide (is_other info)) as [[v Hv]|Hno].
  { unfold commkit_step. by rewrite Hv. }
  destruct (step_spec i (env i) c info (He i) Hw) as (a & s & info' & -> & _).
  { intros v Hv. apply Hno. by exists v. }
  cbn [mbind option_bind]. rewrite IH; [done|done|]. by inversion Hex; subst.
Qed.

(** What a finished call leaves behind: all targets are done, nothing is referenced. *)
Definition released info : Prop :=
  ti_state info = CommKitState_DONE /\ ti_node info = None /\ ti_headerBuffer info = None.

Lemma all_done_released c infos :
  inv c infos -> sumZ isDone infos = zlen infos ->
  Forall released infos /\ cc_numAcquiredConns c = 0 /\ 
  Forall (fun x => ok (ti_nodeResult x) (ti_ext x)) infos.
Proof.
  intros (Hw & (_ & _ & Hacq) & _) Hall. apply sumZ_all in Hall; [|apply isDone_01].
  assert (Hd : Forall (fun x => ti_state x = CommKitState_DONE) infos).
  { eapply list.Forall_impl; [exact Hall|]. intros x. unfold isDone. by case_decide. }
  split_and!.
  - apply list.Forall_lookup. intros j x Hj.
    apply (Forall_lookup_1 _ _ _ _ Hd) in Hj as Hx. apply (Forall_lookup_1 _ _ _ _ Hw) in Hj as [_ Hwx].
    rewrite Hx in Hwx. done.
  - rewrite Hacq, (sumZ_const _ 0); [done|]. eapply list.Forall_impl; [exact Hd|].
    intros x Hx. unfold holds. by rewrite Hx.
  - eapply list.Forall_impl; [exact Hw|]. intros x [Hx _]. exact Hx.
Qed.

(** Enough rounds for [n] targets with [b] retries left and [t] steps of work. *)
Definition rounds_per_try (n : nat) : nat := (2 * (n * top) + 2)%nat.
Definition rounds_bound (n b t : nat) : nat := (b * rounds_per_try n + 2 * t + 1)%nat.

Definition stopped_by_other (env : nat -> RoundEnv E) (fuel round : nat) c infos : Prop :=
  commkit_loop ops cfg ioPattern env fuel round c infos = CK_Bug /\
  exists k c' infos', commkit_loop ops cfg ioPattern env k round c infos = CK_Running c' infos' /\
    Forall wf infos' /\ Exists is_other infos'.

Lemma loop_spec killed env :
  (forall k, round_ok killed (env k)) -> config_ok killed ->
  forall fuel round c infos, inv c infos -> zlen infos < 2 ^ 31 ->
  (let m := (budget killed c infos * rounds_per_try (length infos) + 2 * total_rank infos)%nat in
   armed c infos /\ m <= fuel \/ m + 1 <= fuel)%nat ->
  (exists c' infos', commkit_loop ops cfg ioPattern env (S fuel) round c infos = CK_Returned c' infos' /\
    inv c' infos' /\ length infos' = length infos /\ sumZ isDone infos' = zlen infos') \/
  stopped_by_other env (S fuel) round c infos.
Proof.
  intros Henv Hcfg fuel. induction fuel as [fuel IH] using lt_wf_ind. intros round c infos Hinv Hn Hm.
  destruct (decide (Exists is_other infos)) as [Ho|Hno].
  { right. split; [|exists 0%nat, c, infos; split_and!; [done|apply Hinv|done]].
    cbn [commkit_loop]. unfold commkit_round. rewrite steps_other; [done|apply Henv|apply Hinv|done]. }
  apply not_Exists_Forall in Hno; [|apply _].
  destruct (round_spec killed (env round) c infos (Henv round) Hcfg Hinv Hn)
    as (c1 & infos1 & Hround & Hinv1 & Hz1 & Hprog).
  { eapply list.Forall_impl; [exact Hno|]. intros x Hx v Hv. apply Hx. by exists v. }
  assert (Hl1 : length infos1 = length infos) by (unfold zlen in Hz1; lia).
  pose proof Hinv1 as (_ & (Hd1 & _ & _) & _).
  destruct (decide (sumZ isDone infos1 = zlen infos1)) as [Hdone|Hnd].
  { left. exists c1, infos1. split_and!; try done. cbn [commkit_loop]. rewrite Hround, Hd1.
    by rewrite (proj2 (Z.eqb_eq _ _) Hdone). }
  destruct Hprog as [|Hprog]; [done|]. cbv zeta in Hm.
  assert (Hm1 : exists f, (f < fuel)%nat /\ fuel = S f /\
    (armed c1 infos1 /\ budget killed c1 infos1 * rounds_per_try (length infos1) + 2 * total_rank infos1 <= f \/
     budget killed c1 infos1 * rounds_per_try (length infos1) + 2 * total_rank infos1 + 1 <= f)%nat).
  { rewrite Hl1. set (K := rounds_per_try (length infos)) in *.
    set (b := budget killed c infos) in *. set (b1 := budget killed c1 infos1) in *.
    destruct Hprog as [[Hb [Hp | (Hp & Hna & Ha)]] | (Hb & Ht & Hp)].
    - exists (fuel - 1)%nat. assert (b1 * K <= b * K)%nat by (apply Nat.mul_le_mono_r; done).
      destruct Hm as [[_ Hm]|Hm]; (split; [lia|]; split; [lia|]; right; lia).
    - destruct Hm as [[Har _]|Hm]; [done|]. assert (b1 * K <= b * K)%nat by (apply Nat.mul_le_mono_r; done).
      exists (fuel - 1)%nat. split; [lia|]. split; [lia|]. left. split; [done|]. lia.
    - assert ((b1 + 1) * K <= b * K)%nat by (apply Nat.mul_le_mono_r; lia).
      assert (2 * total_rank infos1 + 2 <= K)%nat by (unfold K, rounds_per_try; lia).
      exists (fuel - 1)%nat. destruct Hm as [[Har Hm]|Hm].
      + destruct Hp as [Hp|]; [|done]. split; [lia|]. split; [lia|]. right. lia.
      + split; [lia|]. split; [lia|]. right. lia. }
  destruct Hm1 as (f & Hf & -> & Hm1).
  assert (Hstep : forall k, commkit_loop ops cfg ioPattern env (S k) round c infos =
    commkit_loop ops cfg ioPattern env k (S round) c1 infos1).
  { intros k. cbn [commkit_loop]. rewrite Hround, Hd1. by rewrite (proj2 (Z.eqb_neq _ _) Hnd). }
  destruct (IH f Hf (S round) c1 infos1 Hinv1 ltac:(lia) Hm1)
    as [(c' & infos' & Hr & H1 & H2 & H3) | [Hbug (k & c' & infos' & Hk & Hwk & Ho)]].
  - left. exists c', infos'. rewrite Hstep. split_and!; try done. lia.
  - right. split; [by rewrite Hstep|]. exists (S k), c', infos'. by rewrite Hstep.
Qed.

(** What holds of the state of a call after any number of rounds. *)
Definition outcome_inv (n : nat) (o : CommKitOutcome) : Prop :=
  match o with
  | CK_Returned c infos => length infos = n /\ inv c infos /\ sumZ isDone infos = zlen infos
  | CK_Running c infos => length infos = n /\ inv c infos
  | CK_Bug => False
  end.

Lemma loop_inv env :
  (forall k i, env_ok (re_target (env k) i)) ->
  forall fuel round c infos, inv c infos -> zlen infos < 2 ^ 31 ->
  outcome_inv (length infos) (commkit_loop ops cfg ioPattern env fuel round c infos) \/
  stopped_by_other env fuel round c infos.
Proof.
  intros Henv fuel. induction fuel as [|fuel IH]; intros round c infos Hinv Hn; [by left|].
  destruct (decide (Exists is_other infos)) as [Ho|Hno].
  { right. split; [|exists 0%nat, c, infos; split_and!; [done|apply Hinv|done]].
    cbn [commkit_loop]. unfold commkit_round. rewrite steps_other; [done|apply Henv|apply Hinv|done]. }
  apply not_Exists_Forall in Hno; [|apply _].
  destruct (round_inv (env round) c infos (Henv round) Hinv Hn) as (c1 & infos1 & Hround & Hinv1 & Hz1).
  { eapply list.Forall_impl; [exact Hno|]. intros x Hx v Hv. apply Hx. by exists v. }
  assert (Hl1 : length infos1 = length infos) by (unfold zlen in Hz1; lia).
  pose proof Hinv1 as (_ & (Hd1 & _ & _) & _).
  assert (Hstep : forall k, commkit_loop ops cfg ioPattern env (S k) round c infos =
    if sumZ isDone infos1 =? zlen infos1 then CK_Returned c1 infos1
    else commkit_loop ops cfg ioPattern env k (S round) c1 infos1).
  { intros k. cbn [commkit_loop]. by rewrite Hround, Hd1. }
  unfold stopped_by_other. rewrite Hstep.
  destruct (Z.eqb_spec (sumZ isDone infos1) (zlen infos1)) as [Hdone|Hnd].
  { left. split_and!; done. }
  destruct (IH (S round) c1 infos1 Hinv1 ltac:(lia)) as [Hr | [Hbug (k & c' & infos' & Hk & Hwk & Ho)]].
  - left. by rewrite <- Hl1.
  - right. split; [done|]. exists (S k), c', infos'. by rewrite Hstep.
Qed.

(** A request kind without a response header never leaves the enumerated stages. *)
Lemma not_stopped env fuel round c infos :
  op_recvHeader ops = None -> ~ stopped_by_other env fuel round c infos.
Proof.
  intros Hnone [_ (k & c' & infos' & _ & Hw & Ho)]. apply list.Exists_exists in Ho as (x & Hin & v & Hv).
  pose proof (proj1 (list.Forall_forall _ _) Hw x Hin) as [_ Hx]. rewrite Hv in Hx. by destruct Hx.
Qed.

(** Freshly initialised targets. *)
Definition fresh info : Prop :=
  ti_state info = CommKitState_PREPARE /\ ti_node info = None /\ ti_headerBuffer info = None /\
  ok (ti_nodeResult info) (ti_ext info).

Lemma fresh_inv infos : Forall fresh infos -> inv initial_context infos.
Proof.
  intros Hf. apply initial_inv; eapply list.Forall_impl; try exact Hf; intros x (H1 & H2 & H3 & H4); [|done].
  split; [done|]. by rewrite H1.
Qed.

(** Enough rounds for a call with [n] targets. *)
Definition rounds_enough (killed : bool) (n : nat) : nat :=
  ((if killed then 0 else if cfg_connRetriesEnabled cfg then Z.to_nat (cfg_connNumCommRetries cfg) else 0) *
   rounds_per_try n + rounds_per_try n)%nat.

(** The call has returned: all targets are done, no connection, node or buffer is held. *)
Definition finished (n : nat) (o : CommKitOutcome) : Prop :=
  exists c' infos', o = CK_Returned c' infos' /\ length infos' = n /\ cc_numAcquiredConns c' = 0 /\
    Forall released infos' /\ Forall (fun x => ok (ti_nodeResult x) (ti_ext x)) infos'.

Lemma inv_finished n c infos :
  length infos = n -> inv c infos -> sumZ isDone infos = zlen infos -> finished n (CK_Returned c infos).
Proof.
  intros Hl Hi Hd. destruct (all_done_released c infos Hi Hd) as (H1 & H2 & H3). by exists c, infos.
Qed.

Lemma communicate_returns killed env infos fuel :
  (forall k, round_ok killed (env k)) -> config_ok killed -> Forall fresh infos -> zlen infos < 2 ^ 31 ->
  (rounds_enough killed (length infos) <= fuel)%nat ->
  finished (length infos) (FhgfsOpsCommkit_communicate ops cfg ioPattern env fuel infos) \/
  stopped_by_other env fuel 0 initial_context infos.
Proof.
  intros Henv Hcfg Hf Hn Hfuel. pose proof (fresh_inv infos Hf) as Hinv.
  assert (Hrk : (total_rank infos <= length infos * top)%nat).
  { apply total_rank_settled. eapply list.Forall_impl; [exact Hf|]. intros x [Hx _]. by right. }
  assert (Hb : budget killed initial_context infos =
    if killed then 0%nat else if cfg_connRetriesEnabled cfg then Z.to_nat (cfg_connNumCommRetries cfg) else 0%nat).
  { unfold budget. cbn [cc_currentRetryNum initial_context]. rewrite Z.sub_0_r.
    destruct Hinv as (_ & (_ & Hr & _) & _). cbn in Hr. by rewrite <- Hr. }
  destruct fuel as [|fuel]; [unfold rounds_enough, rounds_per_try in Hfuel; lia|].
  destruct (loop_spec killed env Henv Hcfg fuel 0 initial_context infos Hinv Hn)
    as [(c' & infos' & Hr & Hi & Hl & Hd)|]; [|left|by right].
  { right. rewrite Hb. unfold rounds_enough in Hfuel. unfold rounds_per_try in *. lia. }
  unfold FhgfsOpsCommkit_communicate. rewrite Hr. by apply inv_finished.
Qed.

(** ** Killed processes *)

Lemma wf_rank info : wf info -> (rank info <= top)%nat.
Proof.
  intros [Hok Hw]. pose proof (law_bound _ _ _ _ _ laws _ _ Hok).
  assert (Hh : connected info -> (header_left info <= bufsize)%nat).
  { intros (_ & _ & _ & Hsz). unfold header_left, bufsize, BEEGFS_COMMKIT_MSGBUF_SIZE in *. lia. }
  unfold rank, top. destruct (ti_state info); try lia; specialize (Hh Hw); lia.
Qed.

Lemma total_rank_wf infos : Forall wf infos -> (total_rank infos <= length infos * top)%nat.
Proof.
  induction 1 as [|x l Hx _ IH]; [done|]. unfold total_rank in *. cbn [sum_list_with length].
  pose proof (wf_rank x Hx). lia.
Qed.

(** The rounds of a call one after the other. *)
Lemma loop_add env a b round c infos :
  commkit_loop ops cfg ioPattern env (a + b) round c infos =
  match commkit_loop ops cfg ioPattern env a round c infos with
  | CK_Running c' infos' => commkit_loop ops cfg ioPattern env b (round + a) c' infos'
  | o => o
  end.
Proof.
  revert round c infos. induction a as [|a IH]; intros round c infos; cbn [commkit_loop Nat.add].
  { by rewrite Nat.add_0_r. }
  destruct (commkit_round _ _ _ _ _ _) as [[c1 l]|]; [|done]. destruct (_ =? _); [done|].
  rewrite IH. by rewrite Nat.add_succ_r.
Qed.

Lemma loop_shift env k fuel round c infos :
  commkit_loop ops cfg ioPattern env fuel (k + round) c infos =
  commkit_loop ops cfg ioPattern (fun j => env (k + j)%nat) fuel round c infos.
Proof.
  revert round c infos. induction fuel as [|fuel IH]; intros round c infos; cbn [commkit_loop]; [done|].
  destruct (commkit_round _ _ _ _ _ _) as [[c1 l]|]; [|done]. destruct (_ =? _); [done|].
  rewrite <- IH. by rewrite Nat.add_succ_r.
Qed.

(** Whatever happened before, a call returns soon after a fatal signal has arrived. *)
Lemma killed_returns env k0 infos fuel :
  (forall k i, env_ok (re_target (env k) i)) -> (forall k, (k0 <= k)%nat -> round_ok true (env k)) ->
  config_ok true -> Forall fresh infos -> zlen infos < 2 ^ 31 ->
  (k0 + 2 * rounds_per_try (length infos) <= fuel)%nat ->
  finished (length infos) (FhgfsOpsCommkit_communicate ops cfg ioPattern env fuel infos) \/
  stopped_by_other env fuel 0 initial_context infos.
Proof.
  intros Henv Hkill Hcfg Hf Hn Hfuel. pose proof (fresh_inv infos Hf) as Hinv.
  replace fuel with (k0 + (fuel - k0))%nat by lia. set (m := (fuel - k0)%nat).
  unfold FhgfsOpsCommkit_communicate, stopped_by_other. rewrite (loop_add env k0 m 0).
  destruct (loop_inv env Henv k0 0 initial_context infos Hinv Hn) as [Ho | [Hbug Hex]].
  2: { right. by rewrite Hbug. }
  destruct (commkit_loop ops cfg ioPattern env k0 0 initial_context infos) as [c1 l| |c1 l] eqn:El; [|done|].
  { left. destruct Ho as (Hl & Hi & Hd). by apply inv_finished. }
  destruct Ho as [Hl Hi]. cbn [Nat.add].
  assert (Hrk : (total_rank l <= length infos * top)%nat) by (rewrite <- Hl; apply total_rank_wf, Hi).
  assert (Hb : (budget true c1 l <= 1)%nat) by (unfold budget; destruct (_ =? 0); lia).
  rewrite <- (Nat.add_0_r k0) at 1 2. rewrite !(loop_shift env k0 m 0 c1 l).
  destruct (loop_spec true (fun j => env (k0 + j)%nat) ltac:(intros k; apply Hkill; lia) Hcfg
    (m - 1) 0 c1 l Hi ltac:(unfold zlen in *; lia)) as [(c' & infos' & Hr & Hi' & Hl' & Hd) | Hst].
  { right. rewrite Hl. assert (budget true c1 l * rounds_per_try (length infos) <= rounds_per_try (length infos))%nat by nia.
    unfold rounds_per_try in *. lia. }
  - left. replace (S (m - 1)) with m in Hr by (unfold m, rounds_per_try in *; lia). rewrite Hr.
    apply inv_finished; [lia|done..].
  - right. replace (S (m - 1)) with m in Hst by (unfold m, rounds_per_try in *; lia).
    destruct Hst as [Hbug (k & c' & infos' & Hk & Hex)]. split; [done|]. exists (k0 + k)%nat, c', infos'.
    split; [|done]. rewrite loop_add, El. cbn [Nat.add].
    rewrite <- (Nat.add_0_r k0) at 1. by rewrite loop_shift.
Qed.
End Facts.

(** ** Requests keep their identity *)

Section Identity.
Context {P E K : Type} (key : P -> K).
Context (ops : CommKitContextOps P E) (cfg : CommKitConfig) (ioPattern : option Z).
Implicit Type info : CommKitTargetInfo P.

(** The target of a request and the fields that describe it. *)
Definition same_request info info' : Prop :=
  ti_targetID info' = ti_targetID info /\ key (ti_ext info') = key (ti_ext info).

Lemma same_request_refl info : same_request info info.
Proof. done. Qed.
Lemma same_request_trans x y z : same_request x y -> same_request y z -> same_request x z.
Proof. intros [] []. split; congruence. Qed.

(** What the functions of a table do not change. *)
Definition keeps (f : E -> CommKitTargetInfo P -> option (CommKitTargetInfo P * Z)) : Prop :=
  forall e info info' n, f e info = Some (info', n) -> same_request info info'.
Record KeyLaws : Prop := {
  keeps_bad : forall f info st info' a, op_selectedTargetBad ops = Some f -> f info st = (info', a) ->
    same_request info info';
  keeps_prepare : keeps (op_prepareHeader ops);
  keeps_send : forall f, op_sendData ops = Some f -> keeps f;
  keeps_recvHeader : forall f, op_recvHeader ops = Some f -> keeps f;
  keeps_recvData : forall f, op_recvData ops = Some f -> keeps f
}.
Hypothesis laws : KeyLaws.

(** Results of a step, seen from where it started. *)
Definition steps_from (x : CommKitTargetInfo P)
    (r : option (CommKitContext * CommKitTargetInfo P)) : Prop :=
  forall c' x', r = Some (c', x') -> same_request x x'.
Definition prepares_from (x : CommKitTargetInfo P)
    (r : option (bool * CommKitContext * CommKitTargetInfo P)) : Prop :=
  forall b c' x', r = Some (b, c', x') -> same_request x x'.

(** One level of the code: a branch, a call that is known to keep the request, or the end. *)
Ltac same_step := first
  [ intros; congruence
  | progress intros
  | progress simplify_eq/=
  | match goal with
    | H : op_selectedTargetBad _ = Some ?f, H' : ?f _ _ = (_, _) |- _ =>
        apply (keeps_bad laws _ _ _ _ _ H) in H'
    | H : op_prepareHeader ops _ _ = Some (_, _) |- _ => apply (keeps_prepare laws) in H
    | H : keeps ?f, H' : ?f _ _ = Some (_, _) |- _ => apply H in H'
    | H : context [match ?m with _ => _ end] |- _ => destruct m eqn:?
    | |- same_request _ (?f (if ?b then _ else _)) => destruct b
    | |- same_request _ (?f (?g (if ?b then _ else _))) => destruct b
    end
  | split; unfold same_request in *; cbn in *; intuition congruence ].
Ltac same := repeat same_step.

Lemma prepare_io_same i (e : TargetEnv E) c info events : prepares_from info (__commkit_prepare_io i e c info events).
Proof. unfold prepares_from, __commkit_prepare_io, __commkit_add_socket_pollstate, mbind, option_bind. same. Qed.
Lemma recv_header_same r ev n info info' m : recv_header r ev n info = Some (info', m) -> same_request info info'.
Proof. unfold recv_header, mbind, option_bind. same. Qed.
Lemma add_socket_same i c info ev : steps_from info (__commkit_add_socket_pollstate i c info ev).
Proof. unfold steps_from, __commkit_add_socket_pollstate, mbind, option_bind. same. Qed.
Lemma prepare_same (e : TargetEnv E) c info : prepares_from info (__commkit_prepare_generic ops ioPattern e c info).
Proof.
  unfold prepares_from, __commkit_prepare_generic, prepare_connect, prepare_cleanup, prepare_error, mbind,
    option_bind. cbv zeta. cbn -[target_unusable]. same.
Qed.
Lemma cleanup_same (e : TargetEnv E) c info : steps_from info (__commkit_cleanup_generic ops cfg e c info).
Proof. unfold steps_from, __commkit_cleanup_generic, mbind, option_bind. cbv zeta. cbn -[retryable]. same. Qed.
Lemma invalidate_same (e : TargetEnv E) c info : steps_from info (__commkit_socketinvalidate_generic e c info).
Proof. unfold steps_from, __commkit_socketinvalidate_generic, mbind, option_bind. cbv zeta. same. Qed.
Lemma sendheader_same (e : TargetEnv E) info info' : __commkit_sendheader_generic e info = Some info' -> same_request info info'.
Proof. unfold __commkit_sendheader_generic, mbind, option_bind. same. Qed.

Lemma recvheader_finish_same f (e : TargetEnv E) c info n :
  keeps f -> steps_from info (recvheader_finish f e c info n).
Proof. unfold steps_from, recvheader_finish, mbind, option_bind. same. Qed.

Lemma steps_from_bind x y r : same_request x y -> steps_from y r -> steps_from x r.
Proof. intros Hxy Hr c' x' Hx'. eapply same_request_trans; [done|]. by eapply Hr. Qed.

(** The handlers of the connected stages: [k] is what follows [prepare_io]. *)
Lemma io_same i (e : TargetEnv E) c info events
    (k : CommKitContext -> CommKitTargetInfo P -> option (CommKitContext * CommKitTargetInfo P)) :
  (forall c x, steps_from x (k c x)) ->
  steps_from info ('(ready, c, info) ← __commkit_prepare_io i e c info events;
    if negb ready then Some (c, info) else k c info).
Proof.
  intros Hk. destruct (__commkit_prepare_io i e c info events) as [[[b c1] y]|] eqn:Ey; [|done].
  apply prepare_io_same in Ey. cbn [mbind option_bind].
  destruct b; cbn [negb]; [by eapply steps_from_bind|]. by intros ? ? [= <- <-].
Qed.

Lemma data_same f (e : TargetEnv E)
    (k : CommKitContext -> CommKitTargetInfo P -> Z -> option (CommKitContext * CommKitTargetInfo P)) :
  keeps f -> (forall c x n, steps_from x (k c x n)) ->
  forall c x, steps_from x ('(x, n) ← f (te_io e) x; k c x n).
Proof.
  intros Hf Hk c x. destruct (f (te_io e) x) as [[y n]|] eqn:Ey; [|done]. cbn [mbind option_bind].
  eapply steps_from_bind; [by eapply Hf|]. apply Hk.
Qed.

Lemma senddata_same f i (e : TargetEnv E) c info :
  keeps f -> steps_from info (__commkit_senddata_generic f i e c info).
Proof.
  intros Hf. apply io_same. apply data_same; [done|]. intros c1 x n.
  unfold steps_from, __commkit_add_socket_pollstate, mbind, option_bind. same.
Qed.

Lemma recvdata_same f i (e : TargetEnv E) c info :
  keeps f -> steps_from info (__commkit_recvdata_generic f i e c info).
Proof.
  intros Hf. apply io_same. apply data_same; [done|]. intros c1 x n.
  unfold steps_from, __commkit_add_socket_pollstate, mbind, option_bind. same.
Qed.

Lemma recvheader_same f i (e : TargetEnv E) c info :
  keeps f -> steps_from info (__commkit_recvheader_generic f i e c info).
Proof.
  intros Hf. apply io_same. intros c1 x.
  assert (Hcond : forall (b : bool) r ev n m y, same_request y y ->
    forall z w, (if b then recv_header r ev n y else Some (y, m)) = Some (z, w) -> same_request y z).
  { intros [] r ev n m y _ z w; [apply recv_header_same|by intros [= <- <-]]. }
  destruct (if ti_headerSize x <? NETMSG_MIN_LENGTH
    then recv_header (te_recv1 e) (te_revents1 e) (NETMSG_MIN_LENGTH - ti_headerSize x) x
    else Some (x, - EREMOTEIO)) as [[y n]|] eqn:Ey; [|done].
  apply Hcond in Ey; [|done]. cbn [mbind option_bind]. eapply steps_from_bind; [exact Ey|].
  destruct (_ && _); [by apply recvheader_finish_same|].
  destruct (ti_headerBuffer y) as [buf|]; [|done]. cbn [mbind option_bind].
  destruct (NetMessage_extractMsgLengthFromBuf buf) as [len ctx'| |]; [|done..].
  destruct (_ <? len); [by intros ? ? [= <- <-]|].
  destruct (if ti_headerSize y <? len
    then recv_header (te_recv2 e) (te_revents2 e) (len - ti_headerSize y) y
    else Some (y, n)) as [[z m]|] eqn:Ez; [|done].
  apply Hcond in Ez; [|done]. cbn [mbind option_bind]. eapply steps_from_bind; [exact Ez|].
  destruct (_ && _); [by apply recvheader_finish_same|].
  destruct (_ <? _); [by intros ? ? [= <- <-]|by apply recvheader_finish_same].
Qed.

Lemma case_sendheader_same i (e : TargetEnv E) c info : steps_from info (case_sendheader ops i e c info).
Proof.
  unfold case_sendheader. destruct (__commkit_sendheader_generic e info) as [y|] eqn:Ey; [|done].
  apply sendheader_same in Ey. eapply steps_from_bind; [exact Ey|]. apply add_socket_same.
Qed.

Lemma step_same i (e : TargetEnv E) c info : steps_from info (commkit_step ops cfg ioPattern i e c info).
Proof.
  assert (Hrd : steps_from info (case_recvdata ops cfg i e c info)).
  { unfold case_recvdata. destruct (op_recvData ops) eqn:E1; [|apply cleanup_same].
    apply recvdata_same. by apply (keeps_recvData laws). }
  assert (Hrh : steps_from info (case_recvheader ops cfg i e c info)).
  { unfold case_recvheader. destruct (op_recvHeader ops) eqn:E1; [|done].
    apply recvheader_same. by apply (keeps_recvHeader laws). }
  assert (Hsd : steps_from info (case_senddata ops cfg i e c info)).
  { unfold case_senddata. destruct (op_sendData ops) eqn:E1; [|done].
    apply senddata_same. by apply (keeps_send laws). }
  unfold commkit_step. destruct (ti_state info); try done; try apply case_sendheader_same;
    try apply cleanup_same; try (by intros ? ? [= <- <-]).
  - destruct (__commkit_prepare_generic ops ioPattern e c info) as [[[b c1] y]|] eqn:Ey; [|done].
    apply prepare_same in Ey. cbn [mbind option_bind]. eapply steps_from_bind; [exact Ey|].
    destruct b; [apply case_sendheader_same|by intros ? ? [= <- <-]].
  - destruct (__commkit_socketinvalidate_generic e c info) as [[c1 y]|] eqn:Ey; [|done].
    apply invalidate_same in Ey. eapply steps_from_bind; [exact Ey|]. apply cleanup_same.
Qed.

Lemma steps_same env i c infos c' infos' :
  commkit_steps ops cfg ioPattern env i c infos = Some (c', infos') -> Forall2 same_request infos infos'.
Proof.
  revert i c c' infos'. induction infos as [|x infos IH]; intros i c c' infos'; cbn [commkit_steps].
  { intros [= <- <-]. constructor. }
  destruct (commkit_step ops cfg ioPattern i (env i) c x) as [[c1 y]|] eqn:Ey; [|done].
  apply step_same in Ey. cbn [mbind option_bind].
  destruct (commkit_steps _ _ _ env (S i) c1 infos) as [[c2 l]|] eqn:El; [|done].
  intros [= <- <-]. constructor; [done|]. by eapply IH.
Qed.

Lemma poll_sockets_same mask polled j (infos : list (CommKitTargetInfo P)) :
  Forall2 same_request infos (poll_sockets mask polled j infos).2.
Proof.
  revert j. induction infos as [|x infos IH]; intros j; cbn [poll_sockets]; [constructor|].
  specialize (IH (S j)). destruct (poll_sockets mask polled (S j) infos) as [n l].
  repeat case_match; by constructor.
Qed.

Lemma retry_loop_same states buddies flags plan infos :
  Forall2 same_request infos (retry_loop ioPattern states buddies flags plan infos).2.
Proof.
  revert plan. induction infos as [|x infos IH]; intros plan; cbn [retry_loop]; [constructor|].
  assert (Hrefl : Forall2 same_request infos infos) by (clear; induction infos; by constructor).
  destruct (bool_decide _).
  - destruct (retry_one _ _ _ _ _ _) as [[plan1 y]|] eqn:Ey; [|by constructor].
    specialize (IH plan1). destruct (retry_loop _ _ _ _ plan1 infos) as [p l]. constructor; [|done].
    revert Ey. unfold retry_one. repeat case_match; by intros [= <- <-].
  - specialize (IH plan). destruct (retry_loop _ _ _ _ plan infos) as [p l]. by constructor.
Qed.

Lemma cancel_loop_same c (infos : list (CommKitTargetInfo P)) :
  Forall2 same_request infos (cancel_loop c infos).2.
Proof.
  revert c. induction infos as [|x infos IH]; intros c; cbn [cancel_loop]; [constructor|].
  pose proof (IH c). pose proof (IH (add_numDone 1 c)).
  destruct (cancel_loop c infos), (cancel_loop (add_numDone 1 c) infos). destruct (ti_state x); by constructor.
Qed.

Lemma same_list_trans l1 l2 l3 :
  Forall2 same_request l1 l2 -> Forall2 same_request l2 l3 -> Forall2 same_request l1 l3.
Proof. intros H. revert l3. induction H; intros l3 H3; inversion H3; subst; constructor; eauto using same_request_trans. Qed.

Lemma round_same r c infos c' infos' :
  commkit_round ops cfg ioPattern r c infos = Some (c', infos') -> Forall2 same_request infos infos'.
Proof.
  unfold commkit_round. destruct (commkit_steps _ _ _ _ _ _ _) as [[c1 l]|] eqn:El; [|done].
  apply steps_same in El. cbn [mbind option_bind].
  destruct (negb _); [|destruct (_ && _); [|by intros [= <- <-]]]; intros [= Hres];
    eapply same_list_trans; try exact El.
  - revert Hres. unfold __FhgfsOpsCommKitCommon_pollStateSocks, SocketTk_poll.
    pose proof (poll_sockets_same (re_pollMask r) (cc_pollState c1) 0 l) as Hp.
    destruct (poll_sockets _ _ 0 l) as [n k]. cbn [snd] in Hp. repeat case_match; intros; by simplify_eq.
  - revert Hres. unfold __commkit_start_retry.
    pose proof (retry_loop_same (re_states r) (re_buddies r) (op_retryFlags ops) (MkRetryPlan false false true) l) as Hp.
    destruct (retry_loop _ _ _ _ _ l) as [plan k]. cbn [snd] in Hp.
    destruct (rp_cancelRetries plan); [|destruct (rp_resetRetries plan); by intros [= <- <-]].
    pose proof (cancel_loop_same (set_pollTimedOut false (reset_numRetryWaiters c1)) k) as Hc.
    intros Hres. rewrite Hres in Hc. by eapply same_list_trans.
Qed.

(** The targets of a finished call are the ones it was started with, in the same order. *)
Lemma loop_same env fuel round c infos c' infos' :
  commkit_loop ops cfg ioPattern env fuel round c infos = CK_Returned c' infos' ->
  Forall2 same_request infos infos'.
Proof.
  revert round c infos. induction fuel as [|fuel IH]; intros round c infos; cbn [commkit_loop]; [done|].
  destruct (commkit_round _ _ _ _ _ _) as [[c1 l]|] eqn:El; [|done]. apply round_same in El.
  destruct (_ =? _); [by intros [= <- <-]|]. intros Hl. eapply same_list_trans; [exact El|]. by eapply IH.
Qed.
End Identity.
