(* ===== verification/MessagesSession.v ===== *)
(** * Messages: simple, control and session messages

    Models the message classes under [common/net/message] (the [Simple*Msg] base
    classes), [common/net/message/control] and [common/net/message/session]:
    the message structs, their initialisers and their payload functions.

    A [char*] field is the memory it points to; the [...Len] fields are kept next
    to it as in the structs.  Pointers to objects the caller owns ([EntryInfo],
    [PathInfo], lists) are the objects.  An initialiser gets the memory the
    message is placed in as [this0] when it leaves some fields untouched. *)

From S2P Require Import Prelude Wire Serialization StorageFormats StripePattern NetMessageTypes NetMessage.

(** ** Shared parts of the payload functions *)

(** [if(flags & flag) FileEvent_serialize(ctx, fileEvent)]: a NULL event is dereferenced. *)
Definition serialize_event (flags flag : Z) (fileEvent : option FileEvent) : Ser :=
  ser_if (has_flag flags flag)
    (match fileEvent with Some event => FileEvent_serialize event | None => fun _ => None end).

(** [if(fileEvent) msgFeatureFlags |= flag]. *)
Definition mark_event {M} (flag : Z) (fileEvent : option FileEvent) (this : NetMessage M) :
  NetMessage M :=
  match fileEvent with
  | Some _ => NetMessage_addMsgHeaderFeatureFlag this flag
  | None => this
  end.

(** The operation tables: [send_ops] for messages with the dummy deserialiser,
    [recv_ops] for messages with the dummy serialiser; no supported feature flags. *)
Definition send_ops {M} (ser : NetMessage M -> Ser) (seqNo : bool) : NetMessageOps M :=
  Build_NetMessageOps M ser _NetMessage_deserializeDummy
    NetMessage_getSupportedHeaderFeatureFlagsMask seqNo.
Definition recv_ops {M} (des : NetMessage M -> Des M) : NetMessageOps M :=
  Build_NetMessageOps M _NetMessage_serializeDummy des
    NetMessage_getSupportedHeaderFeatureFlagsMask false.
Definition both_ops {M} (ser : NetMessage M -> Ser) (des : NetMessage M -> Des M) : NetMessageOps M :=
  Build_NetMessageOps M ser des NetMessage_getSupportedHeaderFeatureFlagsMask false.

(** ** Simple messages *)

Record SimpleMsg := MkSimpleMsg {}.
Definition SimpleMsg_serializePayload (this : NetMessage SimpleMsg) : Ser := ser_skip.
Definition SimpleMsg_deserializePayload (this : NetMessage SimpleMsg) : Des SimpleMsg :=
  mret MkSimpleMsg.
Definition SimpleMsg_Ops : NetMessageOps SimpleMsg :=
  both_ops SimpleMsg_serializePayload SimpleMsg_deserializePayload.
Definition SimpleMsg_init (uid type : Z) : NetMessage SimpleMsg :=
  NetMessage_init uid type MkSimpleMsg.

Record SimpleIntMsg := MkSimpleIntMsg { sim_value : Z (* int *) }.
Definition SimpleIntMsg_serializePayload (this : NetMessage SimpleIntMsg) : Ser :=
  Serialization_serializeInt (sim_value (msgBody this)).
Definition SimpleIntMsg_deserializePayload (this : NetMessage SimpleIntMsg) : Des SimpleIntMsg :=
  value ← Serialization_deserializeInt; mret (MkSimpleIntMsg value).
Definition SimpleIntMsg_Ops : NetMessageOps SimpleIntMsg :=
  both_ops SimpleIntMsg_serializePayload SimpleIntMsg_deserializePayload.
Definition SimpleIntMsg_initFromValue (uid type value : Z) : NetMessage SimpleIntMsg :=
  NetMessage_init uid type (MkSimpleIntMsg value).

Record SimpleInt64Msg := MkSimpleInt64Msg { si64_value : Z (* int64_t *) }.
Definition SimpleInt64Msg_serializePayload (this : NetMessage SimpleInt64Msg) : Ser :=
  Serialization_serializeInt64 (si64_value (msgBody this)).
Definition SimpleInt64Msg_deserializePayload (this : NetMessage SimpleInt64Msg) : Des SimpleInt64Msg :=
  value ← Serialization_deserializeInt64; mret (MkSimpleInt64Msg value).
Definition SimpleInt64Msg_Ops : NetMessageOps SimpleInt64Msg :=
  both_ops SimpleInt64Msg_serializePayload SimpleInt64Msg_deserializePayload.
Definition SimpleInt64Msg_initFromValue (uid type value : Z) : NetMessage SimpleInt64Msg :=
  NetMessage_init uid type (MkSimpleInt64Msg value).

Record SimpleUInt16Msg := MkSimpleUInt16Msg { su16_value : Z (* uint16_t *) }.
Definition SimpleUInt16Msg_serializePayload (this : NetMessage SimpleUInt16Msg) : Ser :=
  Serialization_serializeUShort (su16_value (msgBody this)).
Definition SimpleUInt16Msg_deserializePayload (this : NetMessage SimpleUInt16Msg) :
  Des SimpleUInt16Msg :=
  value ← Serialization_deserializeUShort; mret (MkSimpleUInt16Msg value).
Definition SimpleUInt16Msg_Ops : NetMessageOps SimpleUInt16Msg :=
  both_ops SimpleUInt16Msg_serializePayload SimpleUInt16Msg_deserializePayload.
Definition SimpleUInt16Msg_initFromValue (uid type value : Z) : NetMessage SimpleUInt16Msg :=
  NetMessage_init uid type (MkSimpleUInt16Msg value).

Record SimpleStringMsg := MkSimpleStringMsg { sstr_value : list byte; sstr_valueLen : Z }.
Definition SimpleStringMsg_serializePayload (this : NetMessage SimpleStringMsg) : Ser :=
  Serialization_serializeStr (sstr_valueLen (msgBody this)) (sstr_value (msgBody this)).
Definition SimpleStringMsg_deserializePayload (this : NetMessage SimpleStringMsg) :
  Des SimpleStringMsg :=
  '(valueLen, value) ← Serialization_deserializeStr; mret (MkSimpleStringMsg value valueLen).
Definition SimpleStringMsg_Ops : NetMessageOps SimpleStringMsg :=
  both_ops SimpleStringMsg_serializePayload SimpleStringMsg_deserializePayload.
Definition SimpleStringMsg_initFromValue (uid type : Z) (value : list byte) :
  NetMessage SimpleStringMsg :=
  NetMessage_init uid type (MkSimpleStringMsg value (u32 (strlen value))).

Record SimpleIntStringMsg := MkSimpleIntStringMsg {
  sis_intValue : Z; sis_strValue : list byte; sis_strValueLen : Z
}.
Definition SimpleIntStringMsg_serializePayload (this : NetMessage SimpleIntStringMsg) : Ser :=
  Serialization_serializeInt (sis_intValue (msgBody this)) +>
  Serialization_serializeStr (sis_strValueLen (msgBody this)) (sis_strValue (msgBody this)).
Definition SimpleIntStringMsg_deserializePayload (this : NetMessage SimpleIntStringMsg) :
  Des SimpleIntStringMsg :=
  intValue ← Serialization_deserializeInt;
  '(strValueLen, strValue) ← Serialization_deserializeStr;
  mret (MkSimpleIntStringMsg intValue strValue strValueLen).
Definition SimpleIntStringMsg_Ops : NetMessageOps SimpleIntStringMsg :=
  both_ops SimpleIntStringMsg_serializePayload SimpleIntStringMsg_deserializePayload.
Definition SimpleIntStringMsg_initFromValue (uid type intValue : Z) (strValue : list byte) :
  NetMessage SimpleIntStringMsg :=
  NetMessage_init uid type (MkSimpleIntStringMsg intValue strValue (u32 (strlen strValue))).

#[export] Existing Instances SimpleMsg_Ops SimpleIntMsg_Ops SimpleInt64Msg_Ops SimpleUInt16Msg_Ops
  SimpleStringMsg_Ops SimpleIntStringMsg_Ops.

(** ** Control messages *)

Definition AckMsgEx_initFromValue (uid : Z) (value : list byte) : NetMessage SimpleStringMsg :=
  SimpleStringMsg_initFromValue uid NETMSGTYPE_Ack value.
(** The [uint64_t] hash is passed as the [int64_t] value. *)
Definition AuthenticateChannelMsg_initFromValue (uid authHash : Z) : NetMessage SimpleInt64Msg :=
  SimpleInt64Msg_initFromValue uid NETMSGTYPE_AuthenticateChannel (s64 authHash).
Definition SetChannelDirectMsg_initFromValue (uid value : Z) : NetMessage SimpleIntMsg :=
  SimpleIntMsg_initFromValue uid NETMSGTYPE_SetChannelDirect value.

Definition GenericRespMsgCode_TRYAGAIN : Z := 0.
Definition GenericRespMsgCode_INDIRECTCOMMERR : Z := 1.
Definition GenericRespMsgCode_NEWSEQNOBASE : Z := 2.

Record PeerInfoMsg := MkPeerInfoMsg { pim_type : Z (* NodeType *); pim_id : Z (* NumNodeID *) }.
Definition PeerInfoMsg_serializePayload (this : NetMessage PeerInfoMsg) : Ser :=
  Serialization_serializeUInt (u32 (pim_type (msgBody this))) +>
  NumNodeID_serialize (pim_id (msgBody this)).
Definition PeerInfoMsg_deserializePayload (this : NetMessage PeerInfoMsg) : Des PeerInfoMsg :=
  type ← Serialization_deserializeUInt;
  id ← NumNodeID_deserialize;
  mret (MkPeerInfoMsg type id).
Definition PeerInfoMsg_Ops : NetMessageOps PeerInfoMsg :=
  both_ops PeerInfoMsg_serializePayload PeerInfoMsg_deserializePayload.
Definition PeerInfoMsg_init (uid type id : Z) : NetMessage PeerInfoMsg :=
  NetMessage_init uid NETMSGTYPE_PeerInfo (MkPeerInfoMsg type id).
#[export] Existing Instance PeerInfoMsg_Ops.

(** ** Sessions: file versions and fsync *)

Definition BUMPFILEVERSIONMSG_FLAG_PERSISTENT : Z := 1.
Definition BUMPFILEVERSIONMSG_FLAG_HASEVENT : Z := 2.

Record BumpFileVersionMsg := MkBumpFileVersionMsg {
  bfv_entryInfo : EntryInfo; bfv_fileEvent : option FileEvent
}.
Definition BumpFileVersionMsg_serializePayload (this : NetMessage BumpFileVersionMsg) : Ser :=
  EntryInfo_serialize (bfv_entryInfo (msgBody this)) +>
  serialize_event (msgFeatureFlags (msgHeader this)) BUMPFILEVERSIONMSG_FLAG_HASEVENT
    (bfv_fileEvent (msgBody this)).
Definition BumpFileVersionMsg_Ops : NetMessageOps BumpFileVersionMsg :=
  send_ops BumpFileVersionMsg_serializePayload true.
Definition BumpFileVersionMsg_init (uid : Z) (entryInfo : EntryInfo) (persistent : bool)
    (fileEvent : option FileEvent) : NetMessage BumpFileVersionMsg :=
  let this := NetMessage_init uid NETMSGTYPE_BumpFileVersion (MkBumpFileVersionMsg entryInfo fileEvent) in
  let this := if persistent
    then NetMessage_addMsgHeaderFeatureFlag this BUMPFILEVERSIONMSG_FLAG_PERSISTENT else this in
  mark_event BUMPFILEVERSIONMSG_FLAG_HASEVENT fileEvent this.

Record FSyncLocalFileMsg := MkFSyncLocalFileMsg {
  fs_clientNumID : Z; fs_fileHandleID : list byte; fs_fileHandleIDLen : Z; fs_targetID : Z
}.
Definition FSyncLocalFileMsg_serializePayload (this : NetMessage FSyncLocalFileMsg) : Ser :=
  let m := msgBody this in
  NumNodeID_serialize (fs_clientNumID m) +>
  Serialization_serializeStrAlign4 (fs_fileHandleIDLen m) (fs_fileHandleID m) +>
  Serialization_serializeUShort (fs_targetID m).
Definition FSyncLocalFileMsg_Ops : NetMessageOps FSyncLocalFileMsg :=
  send_ops FSyncLocalFileMsg_serializePayload false.
Definition FSyncLocalFileMsg_initFromSession (uid clientNumID : Z) (fileHandleID : list byte)
    (targetID : Z) : NetMessage FSyncLocalFileMsg :=
  NetMessage_init uid NETMSGTYPE_FSyncLocalFile
    (MkFSyncLocalFileMsg clientNumID fileHandleID (u32 (strlen fileHandleID)) targetID).

Record GetFileVersionMsg := MkGetFileVersionMsg { gfv_entryInfo : EntryInfo }.
Definition GetFileVersionMsg_serializePayload (this : NetMessage GetFileVersionMsg) : Ser :=
  EntryInfo_serialize (gfv_entryInfo (msgBody this)).
Definition GetFileVersionMsg_Ops : NetMessageOps GetFileVersionMsg :=
  send_ops GetFileVersionMsg_serializePayload false.
Definition GetFileVersionMsg_init (uid : Z) (entryInfo : EntryInfo) : NetMessage GetFileVersionMsg :=
  NetMessage_init uid NETMSGTYPE_GetFileVersion (MkGetFileVersionMsg entryInfo).

Record GetFileVersionRespMsg := MkGetFileVersionRespMsg { gfr_result : Z; gfr_version : Z }.
Definition GetFileVersionRespMsg_deserializePayload (this : NetMessage GetFileVersionRespMsg) :
  Des GetFileVersionRespMsg :=
  result ← Serialization_deserializeInt;
  version ← Serialization_deserializeUInt;
  mret (MkGetFileVersionRespMsg result version).
Definition GetFileVersionRespMsg_Ops : NetMessageOps GetFileVersionRespMsg :=
  recv_ops GetFileVersionRespMsg_deserializePayload.

(** ** Sessions: open and close *)

Definition CLOSEFILEMSG_FLAG_HAS_EVENT : Z := 8.

Record CloseFileMsg := MkCloseFileMsg {
  cf_clientNumID : Z; cf_fileHandleIDLen : Z; cf_fileHandleID : list byte;
  cf_maxUsedNodeIndex : Z; cf_entryInfoPtr : EntryInfo; cf_fileEvent : option FileEvent
}.
Definition CloseFileMsg_serializePayload (this : NetMessage CloseFileMsg) : Ser :=
  let m := msgBody this in
  NumNodeID_serialize (cf_clientNumID m) +>
  Serialization_serializeStrAlign4 (cf_fileHandleIDLen m) (cf_fileHandleID m) +>
  EntryInfo_serialize (cf_entryInfoPtr m) +>
  Serialization_serializeInt (cf_maxUsedNodeIndex m) +>
  serialize_event (msgFeatureFlags (msgHeader this)) CLOSEFILEMSG_FLAG_HAS_EVENT (cf_fileEvent m).
Definition CloseFileMsg_Ops : NetMessageOps CloseFileMsg :=
  send_ops CloseFileMsg_serializePayload true.
Definition CloseFileMsg_initFromSession (uid clientNumID : Z) (fileHandleID : list byte)
    (entryInfo : EntryInfo) (maxUsedNodeIndex : Z) (fileEvent : option FileEvent) :
    NetMessage CloseFileMsg :=
  mark_event CLOSEFILEMSG_FLAG_HAS_EVENT fileEvent
    (NetMessage_init uid NETMSGTYPE_CloseFile
      (MkCloseFileMsg clientNumID (u32 (strlen fileHandleID)) fileHandleID maxUsedNodeIndex
        entryInfo fileEvent)).

Definition OPENFILEMSG_FLAG_HAS_EVENT : Z := 2.

(** (the unused [sessionIDLen] is left out) *)
Record OpenFileMsg := MkOpenFileMsg {
  of_clientNumID : Z; of_entryInfoPtr : EntryInfo; of_accessFlags : Z;
  of_fileEvent : option FileEvent
}.
Definition OpenFileMsg_serializePayload (this : NetMessage OpenFileMsg) : Ser :=
  let m := msgBody this in
  NumNodeID_serialize (of_clientNumID m) +>
  Serialization_serializeUInt (of_accessFlags m) +>
  EntryInfo_serialize (of_entryInfoPtr m) +>
  serialize_event (msgFeatureFlags (msgHeader this)) OPENFILEMSG_FLAG_HAS_EVENT (of_fileEvent m).
Definition OpenFileMsg_Ops : NetMessageOps OpenFileMsg := send_ops OpenFileMsg_serializePayload true.
Definition OpenFileMsg_initFromSession (uid clientNumID : Z) (entryInfo : EntryInfo)
    (accessFlags : Z) (fileEvent : option FileEvent) : NetMessage OpenFileMsg :=
  mark_event OPENFILEMSG_FLAG_HAS_EVENT fileEvent
    (NetMessage_init uid NETMSGTYPE_OpenFile
      (MkOpenFileMsg clientNumID entryInfo accessFlags fileEvent)).

Definition OPENFILERESPMSG_HAS_FILESTATE : Z := 0x01.

(** [patternStart]/[patternLength] are the context [StripePattern_createFromBuf] reads. *)
Record OpenFileRespMsg := MkOpenFileRespMsg {
  ofr_result : Z; ofr_fileHandleIDLen : Z; ofr_fileHandleID : list byte; ofr_pathInfo : PathInfo;
  ofr_fileVersion : Z; ofr_pattern : DeserializeCtx; ofr_fileState : Z
}.
Definition OpenFileRespMsg_deserializePayload (this : NetMessage OpenFileRespMsg) :
  Des OpenFileRespMsg :=
  result ← Serialization_deserializeInt;
  '(fileHandleIDLen, fileHandleID) ← Serialization_deserializeStrAlign4;
  pathInfo ← PathInfo_deserialize;
  pattern ← StripePattern_deserializePatternPreprocess;
  fileVersion ← Serialization_deserializeUInt;
  fileState ← (if NetMessage_isMsgHeaderCompatFeatureFlagSet (msgHeader this)
                    OPENFILERESPMSG_HAS_FILESTATE
               then Serialization_deserializeUInt8 else mret (ofr_fileState (msgBody this)));
  mret (MkOpenFileRespMsg result fileHandleIDLen fileHandleID pathInfo fileVersion pattern fileState).
Definition OpenFileRespMsg_Ops : NetMessageOps OpenFileRespMsg :=
  recv_ops OpenFileRespMsg_deserializePayload.

#[export] Existing Instances BumpFileVersionMsg_Ops FSyncLocalFileMsg_Ops GetFileVersionMsg_Ops
  GetFileVersionRespMsg_Ops CloseFileMsg_Ops OpenFileMsg_Ops OpenFileRespMsg_Ops.

(** ** Sessions: locks *)

Record FLockMsg := MkFLockMsg {
  fl_clientNumID : Z; fl_fileHandleID : list byte; fl_fileHandleIDLen : Z;
  fl_entryInfoPtr : EntryInfo; fl_clientFD : Z; fl_ownerPID : Z; fl_lockTypeFlags : Z;
  fl_lockAckID : list byte; fl_lockAckIDLen : Z
}.
(** [FLockAppendMsg] and [FLockEntryMsg] have the same fields and payload. *)
Record FLockAppendMsg := MkFLockAppendMsg { fla_fields : FLockMsg }.
Record FLockEntryMsg := MkFLockEntryMsg { fle_fields : FLockMsg }.

Definition serialize_flock (m : FLockMsg) : Ser :=
  NumNodeID_serialize (fl_clientNumID m) +>
  Serialization_serializeInt64 (fl_clientFD m) +>
  Serialization_serializeInt (fl_ownerPID m) +>
  Serialization_serializeInt (fl_lockTypeFlags m) +>
  EntryInfo_serialize (fl_entryInfoPtr m) +>
  Serialization_serializeStrAlign4 (fl_fileHandleIDLen m) (fl_fileHandleID m) +>
  Serialization_serializeStrAlign4 (fl_lockAckIDLen m) (fl_lockAckID m).
Definition init_flock (clientNumID : Z) (fileHandleID : list byte) (entryInfo : EntryInfo)
    (clientFD ownerPID lockTypeFlags : Z) (lockAckID : list byte) : FLockMsg :=
  MkFLockMsg clientNumID fileHandleID (u32 (strlen fileHandleID)) entryInfo clientFD ownerPID
    lockTypeFlags lockAckID (u32 (strlen lockAckID)).

Definition FLockAppendMsg_serializePayload (this : NetMessage FLockAppendMsg) : Ser :=
  serialize_flock (fla_fields (msgBody this)).
Definition FLockAppendMsg_Ops : NetMessageOps FLockAppendMsg :=
  send_ops FLockAppendMsg_serializePayload false.
Definition FLockAppendMsg_initFromSession (uid clientNumID : Z) (fileHandleID : list byte)
    (entryInfo : EntryInfo) (clientFD ownerPID lockTypeFlags : Z) (lockAckID : list byte) :
    NetMessage FLockAppendMsg :=
  NetMessage_init uid NETMSGTYPE_FLockAppend (MkFLockAppendMsg
    (init_flock clientNumID fileHandleID entryInfo clientFD ownerPID lockTypeFlags lockAckID)).

Definition FLockEntryMsg_serializePayload (this : NetMessage FLockEntryMsg) : Ser :=
  serialize_flock (fle_fields (msgBody this)).
Definition FLockEntryMsg_Ops : NetMessageOps FLockEntryMsg :=
  send_ops FLockEntryMsg_serializePayload true.
Definition FLockEntryMsg_initFromSession (uid clientNumID : Z) (fileHandleID : list byte)
    (entryInfo : EntryInfo) (clientFD ownerPID lockTypeFlags : Z) (lockAckID : list byte) :
    NetMessage FLockEntryMsg :=
  NetMessage_init uid NETMSGTYPE_FLockEntry (MkFLockEntryMsg
    (init_flock clientNumID fileHandleID entryInfo clientFD ownerPID lockTypeFlags lockAckID)).

Record FLockRangeMsg := MkFLockRangeMsg {
  flr_clientNumID : Z; flr_fileHandleID : list byte; flr_fileHandleIDLen : Z;
  flr_entryInfoPtr : EntryInfo; flr_ownerPID : Z; flr_lockTypeFlags : Z; flr_start : Z;
  flr_end : Z; flr_lockAckID : list byte; flr_lockAckIDLen : Z
}.
Definition FLockRangeMsg_serializePayload (this : NetMessage FLockRangeMsg) : Ser :=
  let m := msgBody this in
  NumNodeID_serialize (flr_clientNumID m) +>
  Serialization_serializeUInt64 (flr_start m) +>
  Serialization_serializeUInt64 (flr_end m) +>
  Serialization_serializeInt (flr_ownerPID m) +>
  Serialization_serializeInt (flr_lockTypeFlags m) +>
  EntryInfo_serialize (flr_entryInfoPtr m) +>
  Serialization_serializeStrAlign4 (flr_fileHandleIDLen m) (flr_fileHandleID m) +>
  Serialization_serializeStrAlign4 (flr_lockAckIDLen m) (flr_lockAckID m).
Definition FLockRangeMsg_Ops : NetMessageOps FLockRangeMsg :=
  send_ops FLockRangeMsg_serializePayload true.
Definition FLockRangeMsg_initFromSession (uid clientNumID : Z) (fileHandleID : list byte)
    (entryInfo : EntryInfo) (ownerPID lockTypeFlags start end_ : Z) (lockAckID : list byte) :
    NetMessage FLockRangeMsg :=
  NetMessage_init uid NETMSGTYPE_FLockRange
    (MkFLockRangeMsg clientNumID fileHandleID (u32 (strlen fileHandleID)) entryInfo ownerPID
      lockTypeFlags start end_ lockAckID (u32 (strlen lockAckID))).

Record LockGrantedMsgEx := MkLockGrantedMsgEx {
  lg_lockAckIDLen : Z; lg_lockAckID : list byte; lg_ackIDLen : Z; lg_ackID : list byte;
  lg_granterNodeID : Z
}.
Definition LockGrantedMsgEx_deserializePayload (this : NetMessage LockGrantedMsgEx) :
  Des LockGrantedMsgEx :=
  '(lockAckIDLen, lockAckID) ← Serialization_deserializeStrAlign4;
  '(ackIDLen, ackID) ← Serialization_deserializeStrAlign4;
  granterNodeID ← NumNodeID_deserialize;
  mret (MkLockGrantedMsgEx lockAckIDLen lockAckID ackIDLen ackID granterNodeID).
Definition LockGrantedMsgEx_Ops : NetMessageOps LockGrantedMsgEx :=
  recv_ops LockGrantedMsgEx_deserializePayload.

(** ** Sessions: chunk file reads and writes *)

Record ReadLocalFileV2Msg := MkReadLocalFileV2Msg {
  rlf_offset : Z; rlf_count : Z; rlf_accessFlags : Z; rlf_clientNumID : Z;
  rlf_fileHandleID : list byte; rlf_fileHandleIDLen : Z; rlf_pathInfoPtr : PathInfo; rlf_targetID : Z
}.
Definition ReadLocalFileV2Msg_serializePayload (this : NetMessage ReadLocalFileV2Msg) : Ser :=
  let m := msgBody this in
  Serialization_serializeInt64 (rlf_offset m) +>
  Serialization_serializeInt64 (rlf_count m) +>
  Serialization_serializeUInt (rlf_accessFlags m) +>
  Serialization_serializeStrAlign4 (rlf_fileHandleIDLen m) (rlf_fileHandleID m) +>
  NumNodeID_serialize (rlf_clientNumID m) +>
  PathInfo_serialize (rlf_pathInfoPtr m) +>
  Serialization_serializeUShort (rlf_targetID m).
Definition ReadLocalFileV2Msg_Ops : NetMessageOps ReadLocalFileV2Msg :=
  send_ops ReadLocalFileV2Msg_serializePayload false.
Definition ReadLocalFileV2Msg_initFromSession (uid clientNumID : Z) (fileHandleID : list byte)
    (targetID : Z) (pathInfo : PathInfo) (accessFlags offset count : Z) :
    NetMessage ReadLocalFileV2Msg :=
  NetMessage_init uid NETMSGTYPE_ReadLocalFileV2
    (MkReadLocalFileV2Msg offset count accessFlags clientNumID fileHandleID
      (u32 (strlen fileHandleID)) pathInfo targetID).

Definition WRITELOCALFILEMSG_FLAG_USE_QUOTA : Z := 2.

Record WriteLocalFileMsg := MkWriteLocalFileMsg {
  wl_offset : Z; wl_count : Z; wl_accessFlags : Z; wl_clientNumID : Z;
  wl_fileHandleID : list byte; wl_fileHandleIDLen : Z; wl_targetID : Z; wl_pathInfo : PathInfo;
  wl_userID : Z; wl_groupID : Z
}.
Definition WriteLocalFileMsg_serializePayload (this : NetMessage WriteLocalFileMsg) : Ser :=
  let m := msgBody this in
  Serialization_serializeInt64 (wl_offset m) +>
  Serialization_serializeInt64 (wl_count m) +>
  Serialization_serializeUInt (wl_accessFlags m) +>
  ser_if (NetMessage_isMsgHeaderFeatureFlagSet (msgHeader this) WRITELOCALFILEMSG_FLAG_USE_QUOTA)
    (Serialization_serializeUInt (wl_userID m) +> Serialization_serializeUInt (wl_groupID m)) +>
  Serialization_serializeStrAlign4 (wl_fileHandleIDLen m) (wl_fileHandleID m) +>
  NumNodeID_serialize (wl_clientNumID m) +>
  PathInfo_serialize (wl_pathInfo m) +>
  Serialization_serializeUShort (wl_targetID m).
Definition WriteLocalFileMsg_Ops : NetMessageOps WriteLocalFileMsg :=
  send_ops WriteLocalFileMsg_serializePayload false.
Definition WriteLocalFileMsg_initFromSession (uid : Z) (this0 : WriteLocalFileMsg) (clientNumID : Z)
    (fileHandleID : list byte) (targetID : Z) (pathInfo : PathInfo) (accessFlags offset count : Z) :
    NetMessage WriteLocalFileMsg :=
  NetMessage_init uid NETMSGTYPE_WriteLocalFile
    (MkWriteLocalFileMsg offset count accessFlags clientNumID fileHandleID
      (u32 (strlen fileHandleID)) targetID pathInfo (wl_userID this0) (wl_groupID this0)).
Definition WriteLocalFileMsg_setUserdataForQuota (this : NetMessage WriteLocalFileMsg)
    (userID groupID : Z) : NetMessage WriteLocalFileMsg :=
  let this := NetMessage_addMsgHeaderFeatureFlag this WRITELOCALFILEMSG_FLAG_USE_QUOTA in
  let m := msgBody this in
  MkNetMessage (msgHeader this)
    (MkWriteLocalFileMsg (wl_offset m) (wl_count m) (wl_accessFlags m) (wl_clientNumID m)
      (wl_fileHandleID m) (wl_fileHandleIDLen m) (wl_targetID m) (wl_pathInfo m) userID groupID).

#[export] Existing Instances FLockAppendMsg_Ops FLockEntryMsg_Ops FLockRangeMsg_Ops
  LockGrantedMsgEx_Ops ReadLocalFileV2Msg_Ops WriteLocalFileMsg_Ops.
