(* ===== verification/MessagesStorage.v ===== *)
(** * Messages: storage messages

    Models the message classes under [common/net/message/storage]: attributes,
    extended attributes, creation and removal, listing, lookup and rename.  The
    conventions are those of [MessagesSession.v]. *)

From S2P Require Import Prelude StorageErrors Wire Serialization StorageFormats StripePattern NetMessageTypes NetMessage MessagesSession.

(** ** Attributes *)

Definition StatStoragePathMsg_initFromTarget (uid targetID : Z) : NetMessage SimpleUInt16Msg :=
  SimpleUInt16Msg_initFromValue uid NETMSGTYPE_StatStoragePath targetID.

Record StatStoragePathRespMsg := MkStatStoragePathRespMsg {
  ssp_result : Z; ssp_sizeTotal : Z; ssp_sizeFree : Z; ssp_inodesTotal : Z; ssp_inodesFree : Z
}.
Definition StatStoragePathRespMsg_deserializePayload (this : NetMessage StatStoragePathRespMsg) :
  Des StatStoragePathRespMsg :=
  result ← Serialization_deserializeInt;
  sizeTotal ← Serialization_deserializeInt64;
  sizeFree ← Serialization_deserializeInt64;
  inodesTotal ← Serialization_deserializeInt64;
  inodesFree ← Serialization_deserializeInt64;
  mret (MkStatStoragePathRespMsg result sizeTotal sizeFree inodesTotal inodesFree).
Definition StatStoragePathRespMsg_Ops : NetMessageOps StatStoragePathRespMsg :=
  recv_ops StatStoragePathRespMsg_deserializePayload.

Definition TRUNCFILEMSG_FLAG_HAS_EVENT : Z := 2.
Record TruncFileMsg := MkTruncFileMsg {
  tf_filesize : Z; tf_entryInfoPtr : EntryInfo; tf_fileEvent : option FileEvent
}.
Definition TruncFileMsg_serializePayload (this : NetMessage TruncFileMsg) : Ser :=
  let m := msgBody this in
  Serialization_serializeInt64 (tf_filesize m) +>
  EntryInfo_serialize (tf_entryInfoPtr m) +>
  serialize_event (msgFeatureFlags (msgHeader this)) TRUNCFILEMSG_FLAG_HAS_EVENT (tf_fileEvent m).
Definition TruncFileMsg_initFromEntryInfo (uid filesize : Z) (entryInfo : EntryInfo)
    (fileEvent : option FileEvent) : NetMessage TruncFileMsg :=
  mark_event TRUNCFILEMSG_FLAG_HAS_EVENT fileEvent
    (NetMessage_init uid NETMSGTYPE_TruncFile (MkTruncFileMsg filesize entryInfo fileEvent)).

Record GetEntryInfoMsg := MkGetEntryInfoMsg { gei_entryInfoPtr : EntryInfo }.
Definition GetEntryInfoMsg_serializePayload (this : NetMessage GetEntryInfoMsg) : Ser :=
  EntryInfo_serialize (gei_entryInfoPtr (msgBody this)).
Definition GetEntryInfoMsg_initFromEntryInfo (uid : Z) (entryInfo : EntryInfo) :
  NetMessage GetEntryInfoMsg :=
  NetMessage_init uid NETMSGTYPE_GetEntryInfo (MkGetEntryInfoMsg entryInfo).

Record GetEntryInfoRespMsg := MkGetEntryInfoRespMsg {
  ger_result : Z; ger_pattern : DeserializeCtx; ger_pathInfo : PathInfo;
  ger_rst : RemoteStorageTarget; ger_mirrorNodeID : Z; ger_numSessionsRead : Z;
  ger_numSessionsWrite : Z; ger_fileDataState : Z
}.
(** [kmalloc_ok]: whether the kernel provides that many bytes for the RST IDs. *)
Definition GetEntryInfoRespMsg_deserializePayload (kmalloc_ok : Z -> bool)
    (this : NetMessage GetEntryInfoRespMsg) : Des GetEntryInfoRespMsg :=
  result ← Serialization_deserializeInt;
  pattern ← StripePattern_deserializePatternPreprocess;
  pathInfo ← PathInfo_deserialize;
  rst ← RemoteStorageTarget_deserialize kmalloc_ok;
  mirrorNodeID ← Serialization_deserializeUShort;
  numSessionsRead ← Serialization_deserializeUInt;
  numSessionsWrite ← Serialization_deserializeUInt;
  fileDataState ← Serialization_deserializeUInt8;
  mret (MkGetEntryInfoRespMsg result pattern pathInfo rst mirrorNodeID numSessionsRead
          numSessionsWrite fileDataState).

Record GetXAttrMsg := MkGetXAttrMsg { gx_entryInfoPtr : EntryInfo; gx_name : list byte; gx_size : Z }.
Definition GetXAttrMsg_serializePayload (this : NetMessage GetXAttrMsg) : Ser :=
  let m := msgBody this in
  EntryInfo_serialize (gx_entryInfoPtr m) +>
  Serialization_serializeStr (u32 (strlen (gx_name m))) (gx_name m) +>
  Serialization_serializeInt (gx_size m).
(** The [ssize_t] size is stored in an [int]. *)
Definition GetXAttrMsg_initFromEntryInfoNameAndSize (uid : Z) (entryInfo : EntryInfo)
    (name : list byte) (size : Z) : NetMessage GetXAttrMsg :=
  NetMessage_init uid NETMSGTYPE_GetXAttr (MkGetXAttrMsg entryInfo name (s32 size)).

Record GetXAttrRespMsg := MkGetXAttrRespMsg {
  gxr_valueBufLen : Z; gxr_valueBuf : list byte; gxr_size : Z; gxr_returnCode : Z
}.
Definition GetXAttrRespMsg_deserializePayload (this : NetMessage GetXAttrRespMsg) :
  Des GetXAttrRespMsg :=
  '(valueBufLen, valueBuf) ← Serialization_deserializeCharArray;
  size ← Serialization_deserializeInt;
  returnCode ← Serialization_deserializeInt;
  mret (MkGetXAttrRespMsg valueBufLen valueBuf size returnCode).

Record ListXAttrMsg := MkListXAttrMsg { lx_entryInfoPtr : EntryInfo; lx_size : Z }.
Definition ListXAttrMsg_serializePayload (this : NetMessage ListXAttrMsg) : Ser :=
  EntryInfo_serialize (lx_entryInfoPtr (msgBody this)) +>
  Serialization_serializeInt (lx_size (msgBody this)).
Definition ListXAttrMsg_initFromEntryInfoAndSize (uid : Z) (entryInfo : EntryInfo) (size : Z) :
  NetMessage ListXAttrMsg :=
  NetMessage_init uid NETMSGTYPE_ListXAttr (MkListXAttrMsg entryInfo (s32 size)).

(** [lxr_value]: the element count and the data pointer into the message. *)
Record ListXAttrRespMsg := MkListXAttrRespMsg {
  lxr_value : RawList; lxr_size : Z; lxr_returnCode : Z
}.
Definition ListXAttrRespMsg_deserializePayload (this : NetMessage ListXAttrRespMsg) :
  Des ListXAttrRespMsg :=
  valueField ← Serialization_deserializeStrCpyVecPreprocess;
  size ← Serialization_deserializeInt;
  returnCode ← Serialization_deserializeInt;
  mret (MkListXAttrRespMsg valueField size returnCode).

Record RemoveXAttrMsg := MkRemoveXAttrMsg { rx_entryInfoPtr : EntryInfo; rx_name : list byte }.
Definition RemoveXAttrMsg_serializePayload (this : NetMessage RemoveXAttrMsg) : Ser :=
  let m := msgBody this in
  EntryInfo_serialize (rx_entryInfoPtr m) +>
  Serialization_serializeStr (u32 (strlen (rx_name m))) (rx_name m).
Definition RemoveXAttrMsg_initFromEntryInfoAndName (uid : Z) (entryInfo : EntryInfo)
    (name : list byte) : NetMessage RemoveXAttrMsg :=
  NetMessage_init uid NETMSGTYPE_RemoveXAttr (MkRemoveXAttrMsg entryInfo name).

Record SetXAttrMsg := MkSetXAttrMsg {
  sx_entryInfoPtr : EntryInfo; sx_name : list byte; sx_value : list byte; sx_size : Z; sx_flags : Z
}.
(** The [size_t] size is narrowed to the [unsigned] array length. *)
Definition SetXAttrMsg_serializePayload (this : NetMessage SetXAttrMsg) : Ser :=
  let m := msgBody this in
  EntryInfo_serialize (sx_entryInfoPtr m) +>
  Serialization_serializeStr (u32 (strlen (sx_name m))) (sx_name m) +>
  Serialization_serializeCharArray (u32 (sx_size m)) (sx_value m) +>
  Serialization_serializeInt (sx_flags m).
Definition SetXAttrMsg_initFromEntryInfoNameValueAndSize (uid : Z) (entryInfo : EntryInfo)
    (name value : list byte) (size flags : Z) : NetMessage SetXAttrMsg :=
  NetMessage_init uid NETMSGTYPE_SetXAttr (MkSetXAttrMsg entryInfo name value size flags).

Definition GetXAttrMsg_Ops : NetMessageOps GetXAttrMsg := send_ops GetXAttrMsg_serializePayload false.
Definition ListXAttrMsg_Ops : NetMessageOps ListXAttrMsg := send_ops ListXAttrMsg_serializePayload false.
Definition RemoveXAttrMsg_Ops : NetMessageOps RemoveXAttrMsg := send_ops RemoveXAttrMsg_serializePayload true.
Definition SetXAttrMsg_Ops : NetMessageOps SetXAttrMsg := send_ops SetXAttrMsg_serializePayload true.
Definition GetXAttrRespMsg_Ops : NetMessageOps GetXAttrRespMsg := recv_ops GetXAttrRespMsg_deserializePayload.
Definition ListXAttrRespMsg_Ops : NetMessageOps ListXAttrRespMsg := recv_ops ListXAttrRespMsg_deserializePayload.
Definition TruncFileMsg_Ops : NetMessageOps TruncFileMsg := send_ops TruncFileMsg_serializePayload false.
Definition GetEntryInfoMsg_Ops : NetMessageOps GetEntryInfoMsg := send_ops GetEntryInfoMsg_serializePayload false.

#[export] Existing Instances StatStoragePathRespMsg_Ops TruncFileMsg_Ops GetEntryInfoMsg_Ops
  GetXAttrMsg_Ops GetXAttrRespMsg_Ops ListXAttrMsg_Ops ListXAttrRespMsg_Ops RemoveXAttrMsg_Ops
  SetXAttrMsg_Ops.

(** ** Attributes: stat, setattr, file state, cache invalidations *)

Record RefreshEntryInfoMsg := MkRefreshEntryInfoMsg { rei_entryInfoPtr : EntryInfo }.
Definition RefreshEntryInfoMsg_serializePayload (this : NetMessage RefreshEntryInfoMsg) : Ser :=
  EntryInfo_serialize (rei_entryInfoPtr (msgBody this)).
Definition RefreshEntryInfoMsg_Ops : NetMessageOps RefreshEntryInfoMsg :=
  send_ops RefreshEntryInfoMsg_serializePayload true.
Definition RefreshEntryInfoMsg_initFromEntryInfo (uid : Z) (entryInfo : EntryInfo) :
  NetMessage RefreshEntryInfoMsg :=
  NetMessage_init uid NETMSGTYPE_RefreshEntryInfo (MkRefreshEntryInfoMsg entryInfo).

Definition SETATTRMSG_FLAG_HAS_EVENT : Z := 4.
Record SetAttrMsg := MkSetAttrMsg {
  sa_validAttribs : Z; sa_attribs : SettableFileAttribs; sa_entryInfoPtr : EntryInfo;
  sa_fileEvent : option FileEvent
}.
Definition SetAttrMsg_serializePayload (this : NetMessage SetAttrMsg) : Ser :=
  let m := msgBody this in
  let a := sa_attribs m in
  Serialization_serializeInt (sa_validAttribs m) +>
  Serialization_serializeInt (sfa_mode a) +>
  Serialization_serializeInt64 (sfa_modificationTimeSecs a) +>
  Serialization_serializeInt64 (sfa_lastAccessTimeSecs a) +>
  Serialization_serializeUInt (sfa_userID a) +>
  Serialization_serializeUInt (sfa_groupID a) +>
  EntryInfo_serialize (sa_entryInfoPtr m) +>
  serialize_event (msgFeatureFlags (msgHeader this)) SETATTRMSG_FLAG_HAS_EVENT (sa_fileEvent m).
Definition SetAttrMsg_Ops : NetMessageOps SetAttrMsg := send_ops SetAttrMsg_serializePayload true.
Definition SetAttrMsg_initFromEntryInfo (uid : Z) (entryInfo : EntryInfo) (validAttribs : Z)
    (attribs : SettableFileAttribs) (fileEvent : option FileEvent) : NetMessage SetAttrMsg :=
  mark_event SETATTRMSG_FLAG_HAS_EVENT fileEvent
    (NetMessage_init uid NETMSGTYPE_SetAttr (MkSetAttrMsg validAttribs attribs entryInfo fileEvent)).

Record SetFileStateMsg := MkSetFileStateMsg { sfs_state : Z; sfs_entryInfoPtr : EntryInfo }.
Definition SetFileStateMsg_serializePayload (this : NetMessage SetFileStateMsg) : Ser :=
  EntryInfo_serialize (sfs_entryInfoPtr (msgBody this)) +>
  Serialization_serializeUInt8 (sfs_state (msgBody this)).
Definition SetFileStateMsg_Ops : NetMessageOps SetFileStateMsg :=
  send_ops SetFileStateMsg_serializePayload true.
Definition SetFileStateMsg_initFromEntryInfoAndState (uid : Z) (entryInfo : EntryInfo) (state : Z) :
  NetMessage SetFileStateMsg :=
  NetMessage_init uid NETMSGTYPE_SetFileState (MkSetFileStateMsg state entryInfo).

Definition STATMSG_FLAG_GET_PARENTINFO : Z := 1.
Record StatMsg := MkStatMsg { st_entryInfoPtr : EntryInfo }.
Definition StatMsg_serializePayload (this : NetMessage StatMsg) : Ser :=
  EntryInfo_serialize (st_entryInfoPtr (msgBody this)).
Definition StatMsg_getSupportedHeaderFeatureFlagsMask : Z := STATMSG_FLAG_GET_PARENTINFO.
Definition StatMsg_Ops : NetMessageOps StatMsg :=
  Build_NetMessageOps StatMsg StatMsg_serializePayload _NetMessage_deserializeDummy
    StatMsg_getSupportedHeaderFeatureFlagsMask false.
Definition StatMsg_initFromEntryInfo (uid : Z) (entryInfo : EntryInfo) : NetMessage StatMsg :=
  NetMessage_init uid NETMSGTYPE_Stat (MkStatMsg entryInfo).
Definition StatMsg_addParentInfoRequest (this : NetMessage StatMsg) : NetMessage StatMsg :=
  NetMessage_addMsgHeaderFeatureFlag this STATMSG_FLAG_GET_PARENTINFO.

Definition STATRESPMSG_FLAG_HAS_PARENTINFO : Z := 1.
Record StatRespMsg := MkStatRespMsg {
  sr_result : Z; sr_statData : StatData; sr_parentEntryID : option (list byte); sr_parentNodeID : Z
}.
Definition StatRespMsg_deserializePayload (this : NetMessage StatRespMsg) : Des StatRespMsg :=
  result ← Serialization_deserializeInt;
  statData ← StatData_deserialize;
  if NetMessage_isMsgHeaderFeatureFlagSet (msgHeader this) STATRESPMSG_FLAG_HAS_PARENTINFO then
    '(_, parentEntryID) ← Serialization_deserializeStrAlign4;
    parentNodeID ← NumNodeID_deserialize;
    mret (MkStatRespMsg result statData (Some parentEntryID) parentNodeID)
  else mret (MkStatRespMsg result statData (sr_parentEntryID (msgBody this))
               (sr_parentNodeID (msgBody this))).
Definition StatRespMsg_getSupportedHeaderFeatureFlagsMask : Z := STATRESPMSG_FLAG_HAS_PARENTINFO.
Definition StatRespMsg_Ops : NetMessageOps StatRespMsg :=
  Build_NetMessageOps StatRespMsg _NetMessage_serializeDummy StatRespMsg_deserializePayload
    StatRespMsg_getSupportedHeaderFeatureFlagsMask false.
(** The parent fields are preset; the others are whatever the memory held. *)
Definition StatRespMsg_init (uid : Z) (this0 : StatRespMsg) : NetMessage StatRespMsg :=
  NetMessage_init uid NETMSGTYPE_StatResp
    (MkStatRespMsg (sr_result this0) (sr_statData this0) None 0).

Record ReadInvalidationsMsg := MkReadInvalidationsMsg { ri_readPos : Z; ri_resync : bool }.
Definition ReadInvalidationsMsg_serializePayload (this : NetMessage ReadInvalidationsMsg) : Ser :=
  Serialization_serializeUInt (ri_readPos (msgBody this)) +>
  Serialization_serializeBool (ri_resync (msgBody this)).
Definition ReadInvalidationsMsg_Ops : NetMessageOps ReadInvalidationsMsg :=
  send_ops ReadInvalidationsMsg_serializePayload false.
Definition ReadInvalidationsMsg_initFromReadPos (uid readPos : Z) (resync : bool) :
  NetMessage ReadInvalidationsMsg :=
  NetMessage_init uid NETMSGTYPE_ReadInvalidations (MkReadInvalidationsMsg readPos resync).

Definition READINVALIDATIONS_MAX_RESP_BYTES : Z := 512 * 1024.
Definition READINVALIDATIONS_PAYLOAD_OVERHEAD : Z := NETMSG_HEADER_LENGTH + 3 * 4.
(** [sizeof(InodeId)] is 12. *)
Definition READINVALIDATIONS_MAX_IDS : Z :=
  (READINVALIDATIONS_MAX_RESP_BYTES - READINVALIDATIONS_PAYLOAD_OVERHEAD) / 12.

Record InodeId := MkInodeId { iid_a : Z; iid_b : Z; iid_c : Z }.
(** [rir_inodeIds]: [None] is the NULL pointer (or uninitialised memory before
    deserialisation). *)
Record ReadInvalidationsRespMsg := MkReadInvalidationsRespMsg {
  rir_errorFlags : Z; rir_numUpdates : Z; rir_inodeIds : option (list InodeId); rir_readPos : Z
}.
(** All three fields of an ID are read before the results are looked at; each
    failed call leaves its field and the context alone, and then all fail. *)
Definition deserialize_inodeId : Des InodeId :=
  a ← Serialization_deserializeUInt;
  b ← Serialization_deserializeUInt;
  c ← Serialization_deserializeUInt;
  mret (MkInodeId a b c).
Definition ReadInvalidationsRespMsg_deserializePayload (kmalloc_ok : Z -> bool)
    (this : NetMessage ReadInvalidationsRespMsg) : Des ReadInvalidationsRespMsg :=
  errorFlags ← Serialization_deserializeUInt;
  numUpdates ← Serialization_deserializeUInt;
  des_check (negb (READINVALIDATIONS_MAX_IDS <? numUpdates));;
  readPos ← Serialization_deserializeUInt;
  des_check (kmalloc_ok (numUpdates * 12));;
  inodeIds ← des_times (Z.to_nat numUpdates) deserialize_inodeId;
  mret (MkReadInvalidationsRespMsg errorFlags numUpdates (Some inodeIds) readPos).

#[export] Existing Instances RefreshEntryInfoMsg_Ops SetAttrMsg_Ops SetFileStateMsg_Ops StatMsg_Ops
  StatRespMsg_Ops ReadInvalidationsMsg_Ops.

(** ** Creation and removal *)

(** [struct CreateInfo] ([MetadataTk.h]) as far as the messages use it. *)
Record CreateInfo := MkCreateInfo {
  ci_entryName : list byte; ci_userID : Z; ci_groupID : Z; ci_mode : Z; ci_umask : Z;
  ci_preferredMetaTargets : list Z; ci_preferredStorageTargets : list Z;
  ci_isExclusiveCreate : bool; ci_storagePoolId : Z; ci_fileEvent : option FileEvent
}.

Definition HARDLINKMSG_FLAG_HAS_EVENT : Z := 2.
Record HardlinkMsg := MkHardlinkMsg {
  hl_fromName : list byte; hl_fromInfo : EntryInfo; hl_fromNameLen : Z; hl_fromDirInfo : EntryInfo;
  hl_toName : list byte; hl_toNameLen : Z; hl_toDirInfo : EntryInfo; hl_fileEvent : option FileEvent
}.
Definition HardlinkMsg_serializePayload (this : NetMessage HardlinkMsg) : Ser :=
  let m := msgBody this in
  EntryInfo_serialize (hl_fromInfo m) +>
  EntryInfo_serialize (hl_toDirInfo m) +>
  Serialization_serializeStrAlign4 (hl_toNameLen m) (hl_toName m) +>
  EntryInfo_serialize (hl_fromDirInfo m) +>
  Serialization_serializeStrAlign4 (hl_fromNameLen m) (hl_fromName m) +>
  serialize_event (msgFeatureFlags (msgHeader this)) HARDLINKMSG_FLAG_HAS_EVENT (hl_fileEvent m).
Definition HardlinkMsg_Ops : NetMessageOps HardlinkMsg := send_ops HardlinkMsg_serializePayload true.
Definition HardlinkMsg_initFromEntryInfo (uid : Z) (fromDirInfo : EntryInfo) (fromName : list byte)
    (fromLen : Z) (fromInfo toDirInfo : EntryInfo) (toName : list byte) (toNameLen : Z)
    (fileEvent : option FileEvent) : NetMessage HardlinkMsg :=
  mark_event HARDLINKMSG_FLAG_HAS_EVENT fileEvent
    (NetMessage_init uid NETMSGTYPE_Hardlink
      (MkHardlinkMsg fromName fromInfo fromLen fromDirInfo toName toNameLen toDirInfo fileEvent)).

Definition MKDIRMSG_FLAG_HAS_EVENT : Z := 4.
Record MkDirMsg := MkMkDirMsg {
  md_userID : Z; md_groupID : Z; md_mode : Z; md_umask : Z; md_parentInfo : EntryInfo;
  md_newDirName : list byte; md_newDirNameLen : Z; md_preferredNodes : list Z;
  md_fileEvent : option FileEvent
}.
Definition MkDirMsg_serializePayload (this : NetMessage MkDirMsg) : Ser :=
  let m := msgBody this in
  Serialization_serializeUInt (md_userID m) +>
  Serialization_serializeUInt (md_groupID m) +>
  Serialization_serializeInt (md_mode m) +>
  Serialization_serializeInt (md_umask m) +>
  EntryInfo_serialize (md_parentInfo m) +>
  Serialization_serializeStrAlign4 (md_newDirNameLen m) (md_newDirName m) +>
  Serialization_serializeUInt16List (md_preferredNodes m) +>
  serialize_event (msgFeatureFlags (msgHeader this)) MKDIRMSG_FLAG_HAS_EVENT (md_fileEvent m).
Definition MkDirMsg_Ops : NetMessageOps MkDirMsg := send_ops MkDirMsg_serializePayload true.
Definition MkDirMsg_initFromEntryInfo (uid : Z) (parentInfo : EntryInfo) (createInfo : CreateInfo) :
  NetMessage MkDirMsg :=
  mark_event MKDIRMSG_FLAG_HAS_EVENT (ci_fileEvent createInfo)
    (NetMessage_init uid NETMSGTYPE_MkDir
      (MkMkDirMsg (ci_userID createInfo) (ci_groupID createInfo) (ci_mode createInfo)
        (ci_umask createInfo) parentInfo (ci_entryName createInfo)
        (u32 (strlen (ci_entryName createInfo))) (ci_preferredMetaTargets createInfo)
        (ci_fileEvent createInfo))).


(** [MkDirRespMsg] and [MkFileRespMsg]: the [int] result is read as an [unsigned];
    the entry info is there only on success. *)
Record MkDirRespMsg := MkMkDirRespMsg { mdr_result : Z; mdr_entryInfo : EntryInfo }.
Definition MkDirRespMsg_deserializePayload (this : NetMessage MkDirRespMsg) : Des MkDirRespMsg :=
  result ← s32 <$> Serialization_deserializeUInt;
  entryInfo ← (if result =? FhgfsOpsErr_SUCCESS then EntryInfo_deserialize
               else mret (mdr_entryInfo (msgBody this)));
  mret (MkMkDirRespMsg result entryInfo).
Definition MkDirRespMsg_Ops : NetMessageOps MkDirRespMsg := recv_ops MkDirRespMsg_deserializePayload.

Record MkFileRespMsg := MkMkFileRespMsg { mfr_result : Z; mfr_entryInfo : EntryInfo }.
Definition MkFileRespMsg_deserializePayload (this : NetMessage MkFileRespMsg) : Des MkFileRespMsg :=
  result ← s32 <$> Serialization_deserializeUInt;
  entryInfo ← (if result =? FhgfsOpsErr_SUCCESS then EntryInfo_deserialize
               else mret (mfr_entryInfo (msgBody this)));
  mret (MkMkFileRespMsg result entryInfo).
Definition MkFileRespMsg_Ops : NetMessageOps MkFileRespMsg := recv_ops MkFileRespMsg_deserializePayload.

Definition MKFILEMSG_FLAG_STRIPEHINTS : Z := 1.
Definition MKFILEMSG_FLAG_STORAGEPOOLID : Z := 2.
Definition MKFILEMSG_FLAG_HAS_EVENT : Z := 4.
Definition STORAGEPOOLID_INVALIDPOOLID : Z := 0.

(** (the fields for the unimplemented deserialisation are left out) *)
Record MkFileMsg := MkMkFileMsg {
  mf_userID : Z; mf_groupID : Z; mf_mode : Z; mf_umask : Z; mf_numtargets : Z; mf_chunksize : Z;
  mf_storagePoolId : Z; mf_parentInfoPtr : EntryInfo; mf_newFileName : list byte;
  mf_newFileNameLen : Z; mf_preferredTargets : list Z; mf_fileEvent : option FileEvent
}.
Definition MkFileMsg_serializePayload (this : NetMessage MkFileMsg) : Ser :=
  let m := msgBody this in
  Serialization_serializeUInt (mf_userID m) +>
  Serialization_serializeUInt (mf_groupID m) +>
  Serialization_serializeInt (mf_mode m) +>
  Serialization_serializeInt (mf_umask m) +>
  ser_if (NetMessage_isMsgHeaderFeatureFlagSet (msgHeader this) MKFILEMSG_FLAG_STRIPEHINTS)
    (Serialization_serializeUInt (mf_numtargets m) +> Serialization_serializeUInt (mf_chunksize m)) +>
  ser_if (NetMessage_isMsgHeaderFeatureFlagSet (msgHeader this) MKFILEMSG_FLAG_STORAGEPOOLID)
    (StoragePoolId_serialize (mf_storagePoolId m)) +>
  EntryInfo_serialize (mf_parentInfoPtr m) +>
  Serialization_serializeStrAlign4 (mf_newFileNameLen m) (mf_newFileName m) +>
  Serialization_serializeUInt16List (mf_preferredTargets m) +>
  serialize_event (msgFeatureFlags (msgHeader this)) MKFILEMSG_FLAG_HAS_EVENT (mf_fileEvent m).
Definition MkFileMsg_Ops : NetMessageOps MkFileMsg := send_ops MkFileMsg_serializePayload true.

Definition MkFileMsg_setStripeHints (this : NetMessage MkFileMsg) (numtargets chunksize : Z) :
  NetMessage MkFileMsg :=
  let this := NetMessage_addMsgHeaderFeatureFlag this MKFILEMSG_FLAG_STRIPEHINTS in
  let m := msgBody this in
  MkNetMessage (msgHeader this)
    (MkMkFileMsg (mf_userID m) (mf_groupID m) (mf_mode m) (mf_umask m) numtargets chunksize
      (mf_storagePoolId m) (mf_parentInfoPtr m) (mf_newFileName m) (mf_newFileNameLen m)
      (mf_preferredTargets m) (mf_fileEvent m)).
Definition MkFileMsg_setStoragePoolId (this : NetMessage MkFileMsg) (storagePoolId : Z) :
  NetMessage MkFileMsg :=
  let this := NetMessage_addMsgHeaderFeatureFlag this MKFILEMSG_FLAG_STORAGEPOOLID in
  let m := msgBody this in
  MkNetMessage (msgHeader this)
    (MkMkFileMsg (mf_userID m) (mf_groupID m) (mf_mode m) (mf_umask m) (mf_numtargets m)
      (mf_chunksize m) storagePoolId (mf_parentInfoPtr m) (mf_newFileName m)
      (mf_newFileNameLen m) (mf_preferredTargets m) (mf_fileEvent m)).
Definition MkFileMsg_initFromEntryInfo (uid : Z) (this0 : MkFileMsg) (parentInfo : EntryInfo)
    (createInfo : CreateInfo) : NetMessage MkFileMsg :=
  let this := mark_event MKFILEMSG_FLAG_HAS_EVENT (ci_fileEvent createInfo)
    (NetMessage_init uid NETMSGTYPE_MkFile
      (MkMkFileMsg (ci_userID createInfo) (ci_groupID createInfo) (ci_mode createInfo)
        (ci_umask createInfo) (mf_numtargets this0) (mf_chunksize this0) (mf_storagePoolId this0)
        parentInfo (ci_entryName createInfo) (u32 (strlen (ci_entryName createInfo)))
        (ci_preferredStorageTargets createInfo) (ci_fileEvent createInfo))) in
  if negb (ci_storagePoolId createInfo =? STORAGEPOOLID_INVALIDPOOLID)
  then MkFileMsg_setStoragePoolId this (ci_storagePoolId createInfo) else this.

Definition RMDIRMSG_FLAG_HAS_EVENT : Z := 1.
Record RmDirMsg := MkRmDirMsg {
  rd_parentInfo : EntryInfo; rd_delDirName : list byte; rd_delDirNameLen : Z;
  rd_fileEvent : option FileEvent
}.
Definition RmDirMsg_serializePayload (this : NetMessage RmDirMsg) : Ser :=
  let m := msgBody this in
  EntryInfo_serialize (rd_parentInfo m) +>
  Serialization_serializeStrAlign4 (rd_delDirNameLen m) (rd_delDirName m) +>
  serialize_event (msgFeatureFlags (msgHeader this)) RMDIRMSG_FLAG_HAS_EVENT (rd_fileEvent m).
Definition RmDirMsg_Ops : NetMessageOps RmDirMsg := send_ops RmDirMsg_serializePayload true.
Definition RmDirMsg_initFromEntryInfo (uid : Z) (parentInfo : EntryInfo) (delDirName : list byte)
    (fileEvent : option FileEvent) : NetMessage RmDirMsg :=
  mark_event RMDIRMSG_FLAG_HAS_EVENT fileEvent
    (NetMessage_init uid NETMSGTYPE_RmDir
      (MkRmDirMsg parentInfo delDirName (u32 (strlen delDirName)) fileEvent)).

Definition UNLINKFILEMSG_FLAG_HAS_EVENT : Z := 1.
Record UnlinkFileMsg := MkUnlinkFileMsg {
  uf_parentInfoPtr : EntryInfo; uf_delFileName : list byte; uf_delFileNameLen : Z;
  uf_fileEvent : option FileEvent
}.
Definition UnlinkFileMsg_serializePayload (this : NetMessage UnlinkFileMsg) : Ser :=
  let m := msgBody this in
  EntryInfo_serialize (uf_parentInfoPtr m) +>
  Serialization_serializeStrAlign4 (uf_delFileNameLen m) (uf_delFileName m) +>
  serialize_event (msgFeatureFlags (msgHeader this)) UNLINKFILEMSG_FLAG_HAS_EVENT (uf_fileEvent m).
Definition UnlinkFileMsg_Ops : NetMessageOps UnlinkFileMsg := send_ops UnlinkFileMsg_serializePayload true.
Definition UnlinkFileMsg_initFromEntryInfo (uid : Z) (parentInfo : EntryInfo)
    (delFileName : list byte) (fileEvent : option FileEvent) : NetMessage UnlinkFileMsg :=
  mark_event UNLINKFILEMSG_FLAG_HAS_EVENT fileEvent
    (NetMessage_init uid NETMSGTYPE_UnlinkFile
      (MkUnlinkFileMsg parentInfo delFileName (u32 (strlen delFileName)) fileEvent)).

#[export] Existing Instances HardlinkMsg_Ops MkDirMsg_Ops MkDirRespMsg_Ops MkFileRespMsg_Ops
  MkFileMsg_Ops RmDirMsg_Ops UnlinkFileMsg_Ops.

(** ** Listing *)

Record ListDirFromOffsetMsg := MkListDirFromOffsetMsg {
  ld_serverOffset : Z; ld_dirListLimit : Z; ld_filterDots : bool; ld_entryInfoPtr : EntryInfo
}.
Definition ListDirFromOffsetMsg_serializePayload (this : NetMessage ListDirFromOffsetMsg) : Ser :=
  let m := msgBody this in
  Serialization_serializeInt64 (ld_serverOffset m) +>
  Serialization_serializeUInt (ld_dirListLimit m) +>
  EntryInfo_serialize (ld_entryInfoPtr m) +>
  Serialization_serializeBool (ld_filterDots m).
Definition ListDirFromOffsetMsg_Ops : NetMessageOps ListDirFromOffsetMsg :=
  send_ops ListDirFromOffsetMsg_serializePayload false.
Definition ListDirFromOffsetMsg_initFromEntryInfo (uid : Z) (entryInfo : EntryInfo)
    (serverOffset dirListLimit : Z) (filterDots : bool) : NetMessage ListDirFromOffsetMsg :=
  NetMessage_init uid NETMSGTYPE_ListDirFromOffset
    (MkListDirFromOffsetMsg serverOffset dirListLimit filterDots entryInfo).

Record ListDirFromOffsetRespMsg := MkListDirFromOffsetRespMsg {
  ldr_result : Z; ldr_newServerOffset : Z; ldr_namesList : RawList; ldr_entryTypesList : RawList;
  ldr_entryIDsList : RawList; ldr_serverOffsetsList : RawList
}.
Definition ListDirFromOffsetRespMsg_deserializePayload (this : NetMessage ListDirFromOffsetRespMsg) :
  Des ListDirFromOffsetRespMsg :=
  newServerOffset ← Serialization_deserializeInt64;
  serverOffsetsList ← Serialization_deserializeInt64CpyVecPreprocess;
  result ← Serialization_deserializeInt;
  entryTypesList ← Serialization_deserializeUInt8VecPreprocess;
  entryIDsList ← Serialization_deserializeStrCpyVecPreprocess;
  namesList ← Serialization_deserializeStrCpyVecPreprocess;
  des_check (negb (negb (rl_elemCount entryTypesList =? rl_elemCount namesList) ||
                   negb (rl_elemCount entryTypesList =? rl_elemCount entryIDsList) ||
                   negb (rl_elemCount entryTypesList =? rl_elemCount serverOffsetsList)));;
  mret (MkListDirFromOffsetRespMsg result newServerOffset namesList entryTypesList entryIDsList
          serverOffsetsList).
Definition ListDirFromOffsetRespMsg_Ops : NetMessageOps ListDirFromOffsetRespMsg :=
  recv_ops ListDirFromOffsetRespMsg_deserializePayload.

(** The parse functions fill the caller's (empty) vectors from the raw lists. *)
Definition ListDirFromOffsetRespMsg_parseEntryIDs (this : ListDirFromOffsetRespMsg) :
  Des (list (list byte)) := Serialization_deserializeStrCpyVec (ldr_entryIDsList this).
Definition ListDirFromOffsetRespMsg_parseNames (this : ListDirFromOffsetRespMsg) :
  Des (list (list byte)) := Serialization_deserializeStrCpyVec (ldr_namesList this).
Definition ListDirFromOffsetRespMsg_parseEntryTypes (this : ListDirFromOffsetRespMsg) :
  Des (list Z) := Serialization_deserializeUInt8Vec (ldr_entryTypesList this).
Definition ListDirFromOffsetRespMsg_parseServerOffsets (this : ListDirFromOffsetRespMsg) :
  Des (list Z) := Serialization_deserializeInt64CpyVec (ldr_serverOffsetsList this).

(** ** Lookup *)

Definition LOOKUPINTENTMSG_FLAG_REVALIDATE : Z := 1.
Definition LOOKUPINTENTMSG_FLAG_CREATE : Z := 2.
Definition LOOKUPINTENTMSG_FLAG_CREATEEXCLUSIVE : Z := 4.
Definition LOOKUPINTENTMSG_FLAG_OPEN : Z := 8.
Definition LOOKUPINTENTMSG_FLAG_STAT : Z := 16.
Definition LOOKUPINTENTMSG_FLAG_HAS_EVENT : Z := 8. (* header flag *)

Record LookupIntentMsg := MkLookupIntentMsg {
  li_intentFlags : Z; li_entryName : list byte; li_entryNameLen : Z; li_entryInfoPtr : EntryInfo;
  li_userID : Z; li_groupID : Z; li_mode : Z; li_umask : Z; li_fileEvent : option FileEvent;
  li_clientNumID : Z; li_accessFlags : Z; li_parentInfoPtr : EntryInfo;
  li_preferredTargets : list Z; li_metaVersion : Z
}.
Definition LookupIntentMsg_serializePayload (this : NetMessage LookupIntentMsg) : Ser :=
  let m := msgBody this in
  Serialization_serializeInt (li_intentFlags m) +>
  EntryInfo_serialize (li_parentInfoPtr m) +>
  Serialization_serializeStrAlign4 (li_entryNameLen m) (li_entryName m) +>
  ser_if (has_flag (li_intentFlags m) LOOKUPINTENTMSG_FLAG_REVALIDATE)
    (Serialization_serializeUInt (li_metaVersion m) +> EntryInfo_serialize (li_entryInfoPtr m)) +>
  ser_if (has_flag (li_intentFlags m) LOOKUPINTENTMSG_FLAG_OPEN)
    (Serialization_serializeUInt (li_accessFlags m) +> NumNodeID_serialize (li_clientNumID m)) +>
  ser_if (has_flag (li_intentFlags m) LOOKUPINTENTMSG_FLAG_CREATE)
    (Serialization_serializeUInt (li_userID m) +>
     Serialization_serializeUInt (li_groupID m) +>
     Serialization_serializeInt (li_mode m) +>
     Serialization_serializeInt (li_umask m) +>
     Serialization_serializeUInt16List (li_preferredTargets m) +>
     serialize_event (msgFeatureFlags (msgHeader this)) LOOKUPINTENTMSG_FLAG_HAS_EVENT
       (li_fileEvent m)).
Definition LookupIntentMsg_Ops : NetMessageOps LookupIntentMsg :=
  send_ops LookupIntentMsg_serializePayload true.

Definition LookupIntentMsg_initFromName (uid : Z) (this0 : LookupIntentMsg) (parentInfo : EntryInfo)
    (entryName : list byte) : NetMessage LookupIntentMsg :=
  NetMessage_init uid NETMSGTYPE_LookupIntent
    (MkLookupIntentMsg 0 entryName (u32 (strlen entryName)) (li_entryInfoPtr this0)
      (li_userID this0) (li_groupID this0) (li_mode this0) (li_umask this0) None
      (li_clientNumID this0) (li_accessFlags this0) parentInfo (li_preferredTargets this0)
      (li_metaVersion this0)).
Definition LookupIntentMsg_initFromEntryInfo (uid : Z) (this0 : LookupIntentMsg)
    (parentInfo : EntryInfo) (entryName : list byte) (entryInfo : EntryInfo) (metaVersion : Z) :
    NetMessage LookupIntentMsg :=
  NetMessage_init uid NETMSGTYPE_LookupIntent
    (MkLookupIntentMsg LOOKUPINTENTMSG_FLAG_REVALIDATE entryName (u32 (strlen entryName)) entryInfo
      (li_userID this0) (li_groupID this0) (li_mode this0) (li_umask this0) None
      (li_clientNumID this0) (li_accessFlags this0) parentInfo (li_preferredTargets this0)
      metaVersion).
(** [intentFlags |= flag] *)
Definition add_intent (this : NetMessage LookupIntentMsg) (flag : Z) : NetMessage LookupIntentMsg :=
  let m := msgBody this in
  MkNetMessage (msgHeader this)
    (MkLookupIntentMsg (Z.lor (li_intentFlags m) flag) (li_entryName m) (li_entryNameLen m)
      (li_entryInfoPtr m) (li_userID m) (li_groupID m) (li_mode m) (li_umask m) (li_fileEvent m)
      (li_clientNumID m) (li_accessFlags m) (li_parentInfoPtr m) (li_preferredTargets m)
      (li_metaVersion m)).
Definition LookupIntentMsg_addIntentCreate (this : NetMessage LookupIntentMsg)
    (userID groupID mode umask : Z) (preferredTargets : list Z) (fileEvent : option FileEvent) :
    NetMessage LookupIntentMsg :=
  let this := add_intent this LOOKUPINTENTMSG_FLAG_CREATE in
  let m := msgBody this in
  mark_event LOOKUPINTENTMSG_FLAG_HAS_EVENT fileEvent
    (MkNetMessage (msgHeader this)
      (MkLookupIntentMsg (li_intentFlags m) (li_entryName m) (li_entryNameLen m)
        (li_entryInfoPtr m) userID groupID mode umask fileEvent (li_clientNumID m)
        (li_accessFlags m) (li_parentInfoPtr m) preferredTargets (li_metaVersion m))).
Definition LookupIntentMsg_addIntentCreateExclusive (this : NetMessage LookupIntentMsg) :=
  add_intent this LOOKUPINTENTMSG_FLAG_CREATEEXCLUSIVE.
Definition LookupIntentMsg_addIntentOpen (this : NetMessage LookupIntentMsg)
    (clientNumID accessFlags : Z) : NetMessage LookupIntentMsg :=
  let this := add_intent this LOOKUPINTENTMSG_FLAG_OPEN in
  let m := msgBody this in
  MkNetMessage (msgHeader this)
    (MkLookupIntentMsg (li_intentFlags m) (li_entryName m) (li_entryNameLen m)
      (li_entryInfoPtr m) (li_userID m) (li_groupID m) (li_mode m) (li_umask m) (li_fileEvent m)
      clientNumID accessFlags (li_parentInfoPtr m) (li_preferredTargets m) (li_metaVersion m)).
Definition LookupIntentMsg_addIntentStat (this : NetMessage LookupIntentMsg) :=
  add_intent this LOOKUPINTENTMSG_FLAG_STAT.

Definition LOOKUPINTENTRESPMSG_FLAG_REVALIDATE : Z := 1.
Definition LOOKUPINTENTRESPMSG_FLAG_CREATE : Z := 2.
Definition LOOKUPINTENTRESPMSG_FLAG_OPEN : Z := 4.
Definition LOOKUPINTENTRESPMSG_FLAG_STAT : Z := 8.

(** What the open part of the response holds. *)
Record LookupOpenData := MkLookupOpenData {
  lo_openResult : Z; lo_fileHandleIDLen : Z; lo_fileHandleID : list byte;
  lo_pattern : DeserializeCtx; lo_pathInfo : PathInfo
}.
Record LookupIntentRespMsg := MkLookupIntentRespMsg {
  lir_responseFlags : Z; lir_lookupResult : Z; lir_entryInfo : EntryInfo; lir_statResult : Z;
  lir_statData : StatData; lir_revalidateResult : Z; lir_createResult : Z;
  lir_open : LookupOpenData
}.
Definition deserialize_open : Des LookupOpenData :=
  openResult ← Serialization_deserializeInt;
  '(fileHandleIDLen, fileHandleID) ← Serialization_deserializeStrAlign4;
  pattern ← StripePattern_deserializePatternPreprocess;
  pathInfo ← PathInfo_deserialize;
  mret (MkLookupOpenData openResult fileHandleIDLen fileHandleID pattern pathInfo).
Definition LookupIntentRespMsg_deserializePayload (this : NetMessage LookupIntentRespMsg) :
  Des LookupIntentRespMsg :=
  let old := msgBody this in
  responseFlags ← Serialization_deserializeInt;
  lookupResult ← s32 <$> Serialization_deserializeUInt;
  '(statResult, statData) ←
    (if has_flag responseFlags LOOKUPINTENTRESPMSG_FLAG_STAT then
       statResult ← Serialization_deserializeInt; statData ← StatData_deserialize;
       mret (statResult, statData)
     else mret (lir_statResult old, lir_statData old));
  revalidateResult ←
    (if has_flag responseFlags LOOKUPINTENTRESPMSG_FLAG_REVALIDATE
     then Serialization_deserializeInt else mret (lir_revalidateResult old));
  createResult ←
    (if has_flag responseFlags LOOKUPINTENTRESPMSG_FLAG_CREATE
     then Serialization_deserializeInt else mret FhgfsOpsErr_INTERNAL);
  open ←
    (if has_flag responseFlags LOOKUPINTENTRESPMSG_FLAG_OPEN
     then deserialize_open else mret (lir_open old));
  entryInfo ←
    (if (lookupResult =? FhgfsOpsErr_SUCCESS) || (createResult =? FhgfsOpsErr_SUCCESS)
     then EntryInfo_deserialize else mret (lir_entryInfo old));
  mret (MkLookupIntentRespMsg responseFlags lookupResult entryInfo statResult statData
          revalidateResult createResult open).
Definition LookupIntentRespMsg_Ops : NetMessageOps LookupIntentRespMsg :=
  recv_ops LookupIntentRespMsg_deserializePayload.

(** ** Rename *)

Definition RENAMEMSG_FLAG_HAS_EVENT : Z := 1.
Record RenameMsg := MkRenameMsg {
  rn_oldName : list byte; rn_oldNameLen : Z; rn_entryType : Z; rn_fromDirInfo : EntryInfo;
  rn_newName : list byte; rn_newNameLen : Z; rn_toDirInfo : EntryInfo;
  rn_fileEvent : option FileEvent
}.
Definition RenameMsg_serializePayload (this : NetMessage RenameMsg) : Ser :=
  let m := msgBody this in
  Serialization_serializeUInt (rn_entryType m) +>
  EntryInfo_serialize (rn_fromDirInfo m) +>
  EntryInfo_serialize (rn_toDirInfo m) +>
  Serialization_serializeStrAlign4 (rn_oldNameLen m) (rn_oldName m) +>
  Serialization_serializeStrAlign4 (rn_newNameLen m) (rn_newName m) +>
  serialize_event (msgFeatureFlags (msgHeader this)) RENAMEMSG_FLAG_HAS_EVENT (rn_fileEvent m).
Definition RenameMsg_Ops : NetMessageOps RenameMsg := send_ops RenameMsg_serializePayload true.
Definition RenameMsg_initFromEntryInfo (uid : Z) (oldName : list byte) (oldLen entryType : Z)
    (fromDirInfo : EntryInfo) (newName : list byte) (newLen : Z) (toDirInfo : EntryInfo)
    (fileEvent : option FileEvent) : NetMessage RenameMsg :=
  mark_event RENAMEMSG_FLAG_HAS_EVENT fileEvent
    (NetMessage_init uid NETMSGTYPE_Rename
      (MkRenameMsg oldName oldLen entryType fromDirInfo newName newLen toDirInfo fileEvent)).

#[export] Existing Instances ListDirFromOffsetMsg_Ops ListDirFromOffsetRespMsg_Ops
  LookupIntentMsg_Ops LookupIntentRespMsg_Ops RenameMsg_Ops.
