(* ===== verification/MessagesNodes.v ===== *)
(** * Messages: node messages and their handlers

    Models the message classes under [common/net/message/nodes], the ack helper
    [common/net/msghelpers/MsgHelperAck.h], the handlers of the incoming messages
    that change the target mappers and buddy group mappers, and the dispatch of
    received messages in [net/message/NetMessageFactory.c]. *)

From S2P Require Import Prelude StorageErrors Wire Serialization StorageFormats StripePattern NetMessageTypes NetMessage BuddyGroup Mappers MessagesSession MessagesStorage.

Definition NODETYPE_Invalid : Z := 0.
Definition NODETYPE_Meta : Z := 1.
Definition NODETYPE_Storage : Z := 2.
Definition NODETYPE_Client : Z := 3.
Definition NODETYPE_Mgmt : Z := 4.

(** ** Requests *)

Definition GetMirrorBuddyGroupsMsg_init (uid nodeType : Z) : NetMessage SimpleIntMsg :=
  SimpleIntMsg_initFromValue uid NETMSGTYPE_GetMirrorBuddyGroups nodeType.
Definition GetNodesMsg_initFromValue (uid nodeType : Z) : NetMessage SimpleIntMsg :=
  SimpleIntMsg_initFromValue uid NETMSGTYPE_GetNodes nodeType.
Definition GetTargetMappingsMsg_init (uid : Z) : NetMessage SimpleMsg :=
  SimpleMsg_init uid NETMSGTYPE_GetTargetMappings.
Definition RemoveNodeRespMsg_initFromValue (uid value : Z) : NetMessage SimpleIntMsg :=
  SimpleIntMsg_initFromValue uid NETMSGTYPE_RemoveNodeResp value.

Record GetStatesAndBuddyGroupsMsg := MkGetStatesAndBuddyGroupsMsg {
  gsb_nodeType : Z; gsb_requestedByClientID : Z
}.
Definition GetStatesAndBuddyGroupsMsg_serializePayload (this : NetMessage GetStatesAndBuddyGroupsMsg) :
  Ser :=
  Serialization_serializeInt (gsb_nodeType (msgBody this)) +>
  NumNodeID_serialize (gsb_requestedByClientID (msgBody this)).
Definition GetStatesAndBuddyGroupsMsg_deserializePayload
    (this : NetMessage GetStatesAndBuddyGroupsMsg) : Des GetStatesAndBuddyGroupsMsg :=
  nodeType ← Serialization_deserializeInt;
  requestedByClientID ← NumNodeID_deserialize;
  mret (MkGetStatesAndBuddyGroupsMsg nodeType requestedByClientID).
Definition GetStatesAndBuddyGroupsMsg_Ops : NetMessageOps GetStatesAndBuddyGroupsMsg :=
  both_ops GetStatesAndBuddyGroupsMsg_serializePayload GetStatesAndBuddyGroupsMsg_deserializePayload.
Definition GetStatesAndBuddyGroupsMsg_init (uid nodeType requestedByClientID : Z) :
  NetMessage GetStatesAndBuddyGroupsMsg :=
  NetMessage_init uid NETMSGTYPE_GetStatesAndBuddyGroups
    (MkGetStatesAndBuddyGroupsMsg nodeType requestedByClientID).

Record HandshakeMsg := MkHandshakeMsg { hs_clientID : Z }.
Definition HandshakeMsg_serializePayload (this : NetMessage HandshakeMsg) : Ser :=
  NumNodeID_serialize (hs_clientID (msgBody this)).
Definition HandshakeMsg_Ops : NetMessageOps HandshakeMsg := send_ops HandshakeMsg_serializePayload false.
Definition HandshakeMsg_initFromClientID (uid clientID : Z) : NetMessage HandshakeMsg :=
  NetMessage_init uid NETMSGTYPE_Handshake (MkHandshakeMsg clientID).

Definition REGISTERNODEMSG_COMPATFLAG_CLIENT_SUPPORTS_REGREJ : Z := 1.
Record RegisterNodeMsg := MkRegisterNodeMsg {
  rg_nodeID : list byte; rg_nodeIDLen : Z; rg_nodeNumID : Z; rg_rootNumID : Z;
  rg_rootIsBuddyMirrored : bool; rg_nodeType : Z; rg_nicList : list NicAddress; rg_portUDP : Z;
  rg_portTCP : Z; rg_instanceVersion : Z; rg_nicListVersion : Z; rg_machineUUID : list byte;
  rg_machineUUIDLen : Z
}.
Definition RegisterNodeMsg_serializePayload (this : NetMessage RegisterNodeMsg) : Ser :=
  let m := msgBody this in
  Serialization_serializeUInt64 (rg_instanceVersion m) +>
  Serialization_serializeUInt64 (rg_nicListVersion m) +>
  Serialization_serializeStr (rg_nodeIDLen m) (rg_nodeID m) +>
  Serialization_serializeNicList (rg_nicList m) +>
  Serialization_serializeInt (rg_nodeType m) +>
  NumNodeID_serialize (rg_nodeNumID m) +>
  NumNodeID_serialize (rg_rootNumID m) +>
  Serialization_serializeBool (rg_rootIsBuddyMirrored m) +>
  Serialization_serializeUShort (rg_portUDP m) +>
  Serialization_serializeUShort (rg_portTCP m) +>
  Serialization_serializeStr (rg_machineUUIDLen m) (rg_machineUUID m).
Definition RegisterNodeMsg_Ops : NetMessageOps RegisterNodeMsg :=
  send_ops RegisterNodeMsg_serializePayload false.
Definition RegisterNodeMsg_initFromNodeData (uid : Z) (nodeID : list byte) (nodeNumID nodeType : Z)
    (nicList : list NicAddress) (portUDP : Z) : NetMessage RegisterNodeMsg :=
  NetMessage_addMsgHeaderCompatFeatureFlag
    (NetMessage_init uid NETMSGTYPE_RegisterNode
      (MkRegisterNodeMsg nodeID (u32 (strlen nodeID)) nodeNumID 0 false nodeType nicList portUDP
        0 0 0 [] 0))
    REGISTERNODEMSG_COMPATFLAG_CLIENT_SUPPORTS_REGREJ.

(** ** Responses *)

Record GetNodesRespMsg := MkGetNodesRespMsg {
  gnr_rootNumID : Z; gnr_rootIsBuddyMirrored : bool; gnr_rawNodeList : RawList
}.
Definition GetNodesRespMsg_deserializePayload (this : NetMessage GetNodesRespMsg) :
  Des GetNodesRespMsg :=
  rawNodeList ← Serialization_deserializeNodeListPreprocess;
  rootNumID ← NumNodeID_deserialize;
  rootIsBuddyMirrored ← Serialization_deserializeBool;
  mret (MkGetNodesRespMsg rootNumID rootIsBuddyMirrored rawNodeList).
Definition GetNodesRespMsg_Ops : NetMessageOps GetNodesRespMsg :=
  recv_ops GetNodesRespMsg_deserializePayload.

(** The lists were initialised empty by the constructor; elements are appended. *)
Record GetStatesAndBuddyGroupsRespMsg := MkGetStatesAndBuddyGroupsRespMsg {
  gsr_groups : list BuddyGroupMapping; gsr_states : list TargetStateMapping
}.
Definition GetStatesAndBuddyGroupsRespMsg_deserializePayload
    (this : NetMessage GetStatesAndBuddyGroupsRespMsg) : Des GetStatesAndBuddyGroupsRespMsg :=
  groups ← BuddyGroupMappingList_deserialize (gsr_groups (msgBody this));
  states ← TargetStateMappingList_deserialize (gsr_states (msgBody this));
  mret (MkGetStatesAndBuddyGroupsRespMsg groups states).
Definition GetStatesAndBuddyGroupsRespMsg_Ops : NetMessageOps GetStatesAndBuddyGroupsRespMsg :=
  recv_ops GetStatesAndBuddyGroupsRespMsg_deserializePayload.
Definition GetStatesAndBuddyGroupsRespMsg_init (uid : Z) :
  NetMessage GetStatesAndBuddyGroupsRespMsg :=
  NetMessage_init uid NETMSGTYPE_GetStatesAndBuddyGroupsResp (MkGetStatesAndBuddyGroupsRespMsg [] []).

Record GetTargetMappingsRespMsg := MkGetTargetMappingsRespMsg { gtm_mappings : list TargetMapping }.
Definition GetTargetMappingsRespMsg_deserializePayload (this : NetMessage GetTargetMappingsRespMsg) :
  Des GetTargetMappingsRespMsg :=
  mappings ← TargetMappingList_deserialize (gtm_mappings (msgBody this));
  mret (MkGetTargetMappingsRespMsg mappings).
Definition GetTargetMappingsRespMsg_Ops : NetMessageOps GetTargetMappingsRespMsg :=
  recv_ops GetTargetMappingsRespMsg_deserializePayload.
Definition GetTargetMappingsRespMsg_init (uid : Z) : NetMessage GetTargetMappingsRespMsg :=
  NetMessage_init uid NETMSGTYPE_GetTargetMappingsResp (MkGetTargetMappingsRespMsg []).

Record HandshakeRespMsg := MkHandshakeRespMsg { hsr_result : Z }.
Definition HandshakeRespMsg_deserializePayload (this : NetMessage HandshakeRespMsg) :
  Des HandshakeRespMsg :=
  result ← Serialization_deserializeInt; mret (MkHandshakeRespMsg result).
Definition HandshakeRespMsg_Ops : NetMessageOps HandshakeRespMsg :=
  recv_ops HandshakeRespMsg_deserializePayload.

Record RegisterNodeRespMsg := MkRegisterNodeRespMsg {
  rgr_nodeNumID : Z; rgr_grpcPort : Z; rgr_fsUUIDLen : Z; rgr_fsUUID : list byte
}.
Definition RegisterNodeRespMsg_deserializePayload (this : NetMessage RegisterNodeRespMsg) :
  Des RegisterNodeRespMsg :=
  nodeNumID ← NumNodeID_deserialize;
  grpcPort ← Serialization_deserializeUShort;
  '(fsUUIDLen, fsUUID) ← Serialization_deserializeStr;
  mret (MkRegisterNodeRespMsg nodeNumID grpcPort fsUUIDLen fsUUID).
Definition RegisterNodeRespMsg_Ops : NetMessageOps RegisterNodeRespMsg :=
  recv_ops RegisterNodeRespMsg_deserializePayload.

(** ** Messages in both directions *)

(** [hb_nics]: the list to send; [hb_rawNicList]: the received, still encoded one. *)
Record HeartbeatMsgEx := MkHeartbeatMsgEx {
  hb_nodeIDLen : Z; hb_nodeID : list byte; hb_nodeType : Z; hb_nodeNumID : Z; hb_rootNumID : Z;
  hb_rootIsBuddyMirrored : bool; hb_instanceVersion : Z; hb_nicListVersion : Z; hb_portUDP : Z;
  hb_portTCP : Z; hb_ackIDLen : Z; hb_ackID : list byte; hb_machineUUID : list byte;
  hb_machineUUIDLen : Z; hb_nicList : list NicAddress; hb_rawNicList : RawList
}.
Definition HeartbeatMsgEx_serializePayload (this : NetMessage HeartbeatMsgEx) : Ser :=
  let m := msgBody this in
  Serialization_serializeUInt64 (hb_instanceVersion m) +>
  Serialization_serializeUInt64 (hb_nicListVersion m) +>
  Serialization_serializeInt (hb_nodeType m) +>
  Serialization_serializeStr (hb_nodeIDLen m) (hb_nodeID m) +>
  Serialization_serializeStrAlign4 (hb_ackIDLen m) (hb_ackID m) +>
  NumNodeID_serialize (hb_nodeNumID m) +>
  NumNodeID_serialize (hb_rootNumID m) +>
  Serialization_serializeBool (hb_rootIsBuddyMirrored m) +>
  Serialization_serializeUShort (hb_portUDP m) +>
  Serialization_serializeUShort (hb_portTCP m) +>
  Serialization_serializeNicList (hb_nicList m) +>
  Serialization_serializeStr (hb_machineUUIDLen m) (hb_machineUUID m).
Definition HeartbeatMsgEx_deserializePayload (this : NetMessage HeartbeatMsgEx) : Des HeartbeatMsgEx :=
  instanceVersion ← Serialization_deserializeUInt64;
  nicListVersion ← Serialization_deserializeUInt64;
  nodeType ← Serialization_deserializeInt;
  '(nodeIDLen, nodeID) ← Serialization_deserializeStr;
  '(ackIDLen, ackID) ← Serialization_deserializeStrAlign4;
  nodeNumID ← NumNodeID_deserialize;
  rootNumID ← NumNodeID_deserialize;
  rootIsBuddyMirrored ← Serialization_deserializeBool;
  portUDP ← Serialization_deserializeUShort;
  portTCP ← Serialization_deserializeUShort;
  rawNicList ← Serialization_deserializeNicListPreprocess;
  '(machineUUIDLen, machineUUID) ← Serialization_deserializeStr;
  mret (MkHeartbeatMsgEx nodeIDLen nodeID nodeType nodeNumID rootNumID rootIsBuddyMirrored
          instanceVersion nicListVersion portUDP portTCP ackIDLen ackID machineUUID machineUUIDLen
          (hb_nicList (msgBody this)) rawNicList).
Definition HeartbeatMsgEx_Ops : NetMessageOps HeartbeatMsgEx :=
  both_ops HeartbeatMsgEx_serializePayload HeartbeatMsgEx_deserializePayload.
Definition HeartbeatMsgEx_initFromNodeData (uid : Z) (this0 : HeartbeatMsgEx) (nodeID : list byte)
    (nodeNumID nodeType : Z) (nicList : list NicAddress) : NetMessage HeartbeatMsgEx :=
  NetMessage_init uid NETMSGTYPE_Heartbeat
    (MkHeartbeatMsgEx (u32 (strlen nodeID)) nodeID nodeType nodeNumID 0 false 0 0 0 0 0 [] [] 0
      nicList (hb_rawNicList this0)).
Definition HeartbeatMsgEx_setPorts (this : NetMessage HeartbeatMsgEx) (portUDP portTCP : Z) :
  NetMessage HeartbeatMsgEx :=
  let m := msgBody this in
  MkNetMessage (msgHeader this)
    (MkHeartbeatMsgEx (hb_nodeIDLen m) (hb_nodeID m) (hb_nodeType m) (hb_nodeNumID m)
      (hb_rootNumID m) (hb_rootIsBuddyMirrored m) (hb_instanceVersion m) (hb_nicListVersion m)
      portUDP portTCP (hb_ackIDLen m) (hb_ackID m) (hb_machineUUID m) (hb_machineUUIDLen m)
      (hb_nicList m) (hb_rawNicList m)).
Definition HeartbeatMsgEx_parseNicList (this : HeartbeatMsgEx) : Des (list NicAddress) :=
  Serialization_deserializeNicList (hb_rawNicList this).

Record RemoveNodeMsgEx := MkRemoveNodeMsgEx {
  rmn_nodeNumID : Z; rmn_nodeType : Z (* int16_t *); rmn_ackIDLen : Z; rmn_ackID : list byte
}.
Definition RemoveNodeMsgEx_serializePayload (this : NetMessage RemoveNodeMsgEx) : Ser :=
  let m := msgBody this in
  Serialization_serializeShort (rmn_nodeType m) +>
  NumNodeID_serialize (rmn_nodeNumID m) +>
  Serialization_serializeStr (rmn_ackIDLen m) (rmn_ackID m).
Definition RemoveNodeMsgEx_deserializePayload (this : NetMessage RemoveNodeMsgEx) :
  Des RemoveNodeMsgEx :=
  nodeType ← Serialization_deserializeShort;
  nodeNumID ← NumNodeID_deserialize;
  '(ackIDLen, ackID) ← Serialization_deserializeStr;
  mret (MkRemoveNodeMsgEx nodeNumID nodeType ackIDLen ackID).
Definition RemoveNodeMsgEx_Ops : NetMessageOps RemoveNodeMsgEx :=
  both_ops RemoveNodeMsgEx_serializePayload RemoveNodeMsgEx_deserializePayload.
Definition RemoveNodeMsgEx_initFromNodeData (uid nodeNumID nodeType : Z) : NetMessage RemoveNodeMsgEx :=
  NetMessage_init uid NETMSGTYPE_RemoveNode (MkRemoveNodeMsgEx nodeNumID (s16 nodeType) 0 []).

(** ** Incoming notifications *)

Record MapTargetsMsgEx := MkMapTargetsMsgEx {
  mt_nodeID : Z; mt_ackIDLen : Z; mt_ackID : list byte; mt_poolMappings : list TargetPoolMapping
}.
Definition MapTargetsMsgEx_deserializePayload (this : NetMessage MapTargetsMsgEx) :
  Des MapTargetsMsgEx :=
  poolMappings ← TargetPoolMappingList_deserialize (mt_poolMappings (msgBody this));
  nodeID ← NumNodeID_deserialize;
  '(ackIDLen, ackID) ← Serialization_deserializeStr;
  mret (MkMapTargetsMsgEx nodeID ackIDLen ackID poolMappings).
Definition MapTargetsMsgEx_Ops : NetMessageOps MapTargetsMsgEx :=
  recv_ops MapTargetsMsgEx_deserializePayload.
Definition MapTargetsMsgEx_init (uid : Z) (this0 : MapTargetsMsgEx) : NetMessage MapTargetsMsgEx :=
  NetMessage_init uid NETMSGTYPE_MapTargets
    (MkMapTargetsMsgEx (mt_nodeID this0) (mt_ackIDLen this0) (mt_ackID this0) []).

Record RefreshTargetStatesMsgEx := MkRefreshTargetStatesMsgEx {
  rts_ackIDLen : Z; rts_ackID : list byte
}.
Definition RefreshTargetStatesMsgEx_deserializePayload (this : NetMessage RefreshTargetStatesMsgEx) :
  Des RefreshTargetStatesMsgEx :=
  '(ackIDLen, ackID) ← Serialization_deserializeStr;
  mret (MkRefreshTargetStatesMsgEx ackIDLen ackID).
Definition RefreshTargetStatesMsgEx_Ops : NetMessageOps RefreshTargetStatesMsgEx :=
  recv_ops RefreshTargetStatesMsgEx_deserializePayload.

Record SetMirrorBuddyGroupMsgEx := MkSetMirrorBuddyGroupMsgEx {
  smb_nodeType : Z; smb_primaryTargetID : Z; smb_secondaryTargetID : Z; smb_buddyGroupID : Z;
  smb_allowUpdate : bool; smb_ackIDLen : Z; smb_ackID : list byte
}.
Definition SetMirrorBuddyGroupMsgEx_deserializePayload (this : NetMessage SetMirrorBuddyGroupMsgEx) :
  Des SetMirrorBuddyGroupMsgEx :=
  nodeType ← Serialization_deserializeInt;
  primaryTargetID ← Serialization_deserializeUShort;
  secondaryTargetID ← Serialization_deserializeUShort;
  buddyGroupID ← Serialization_deserializeUShort;
  allowUpdate ← Serialization_deserializeBool;
  '(ackIDLen, ackID) ← Serialization_deserializeStr;
  mret (MkSetMirrorBuddyGroupMsgEx nodeType primaryTargetID secondaryTargetID buddyGroupID
          allowUpdate ackIDLen ackID).
Definition SetMirrorBuddyGroupMsgEx_Ops : NetMessageOps SetMirrorBuddyGroupMsgEx :=
  recv_ops SetMirrorBuddyGroupMsgEx_deserializePayload.

#[export] Existing Instances GetStatesAndBuddyGroupsMsg_Ops HandshakeMsg_Ops RegisterNodeMsg_Ops
  GetNodesRespMsg_Ops GetStatesAndBuddyGroupsRespMsg_Ops GetTargetMappingsRespMsg_Ops
  HandshakeRespMsg_Ops RegisterNodeRespMsg_Ops HeartbeatMsgEx_Ops RemoveNodeMsgEx_Ops
  MapTargetsMsgEx_Ops RefreshTargetStatesMsgEx_Ops SetMirrorBuddyGroupMsgEx_Ops.

(** ** Handlers *)

(** The parts of the [App] object the handlers below reach, and the packets they
    sent (oldest first). *)
Record AppState := MkAppState {
  app_targetMapper : TargetMapper;
  app_storageBuddyGroups : MirrorBuddyGroupMapper;
  app_metaBuddyGroups : MirrorBuddyGroupMapper;
  app_forceTargetStatesUpdate : bool;
  app_sent : list (list byte)
}.

(** [serializeRes = NetMessage_serialize(msg, respBuf, bufLen)], and on success
    [respLen] bytes are sent; an error of the send is only logged. *)
Definition send_response {M} `{NetMessageOps M} (msg : NetMessage M) (respBuf : list byte) :
    option (list (list byte)) :=
  '(respLen, msg) ← NetMessage_getMsgLength msg;
  '(serializeRes, _, buf) ← NetMessage_serialize msg (Some respBuf) (zlen respBuf);
  Some (if serializeRes : bool then [take (Z.to_nat respLen) (default [] buf)] else []).

(** Whether the ack ID was set, and the packets that were sent. *)
Definition MsgHelperAck_respondToAckRequest (uid : Z) (ackID respBuf : list byte) :
    option (bool * list (list byte)) :=
  if strlen ackID =? 0 then Some (false, [])
  else packets ← send_response (AckMsgEx_initFromValue uid ackID) respBuf; Some (true, packets).

Definition app_respond (uid : Z) (ackID respBuf : list byte) (app : AppState) : option AppState :=
  '(_, packets) ← MsgHelperAck_respondToAckRequest uid ackID respBuf;
  Some (MkAppState (app_targetMapper app) (app_storageBuddyGroups app) (app_metaBuddyGroups app)
          (app_forceTargetStatesUpdate app) (app_sent app ++ packets)).

Definition __MapTargetsMsgEx_processIncoming (uid : Z) (this : MapTargetsMsgEx)
    (respBuf : list byte) (app : AppState) : option (bool * AppState) :=
  let targetMapper := foldl (fun t mapping =>
      (TargetMapper_mapTarget t (tpm_targetID mapping) (mt_nodeID this)).1)
    (app_targetMapper app) (mt_poolMappings this) in
  app ← app_respond uid (mt_ackID this) respBuf
    (MkAppState targetMapper (app_storageBuddyGroups app) (app_metaBuddyGroups app)
      (app_forceTargetStatesUpdate app) (app_sent app));
  Some (true, app).

Definition __RefreshTargetStatesMsgEx_processIncoming (uid : Z) (this : RefreshTargetStatesMsgEx)
    (respBuf : list byte) (app : AppState) : option (bool * AppState) :=
  app ← app_respond uid (rts_ackID this) respBuf
    (MkAppState (app_targetMapper app) (app_storageBuddyGroups app) (app_metaBuddyGroups app)
      true (app_sent app));
  Some (true, app).

(** [allocOk], [garbage], [connMaxInternodeNum]: as for the construction of a group. *)
Definition __SetMirrorBuddyGroupMsgEx_processIncoming (allocOk : bool) (garbage : nat -> Z)
    (connMaxInternodeNum uid : Z) (this : SetMirrorBuddyGroupMsgEx) (respBuf : list byte)
    (app : AppState) : option (bool * AppState) :=
  let add mapper targetMapper := (MirrorBuddyGroupMapper_addGroup allocOk garbage
    connMaxInternodeNum mapper targetMapper (smb_buddyGroupID this) (smb_primaryTargetID this)
    (smb_secondaryTargetID this) (smb_allowUpdate this)).1 in
  if smb_nodeType this =? NODETYPE_Storage then
    app ← app_respond uid (smb_ackID this) respBuf
      (MkAppState (app_targetMapper app)
        (add (app_storageBuddyGroups app) (Some (app_targetMapper app)))
        (app_metaBuddyGroups app) (app_forceTargetStatesUpdate app) (app_sent app));
    Some (true, app)
  else if smb_nodeType this =? NODETYPE_Meta then
    app ← app_respond uid (smb_ackID this) respBuf
      (MkAppState (app_targetMapper app) (app_storageBuddyGroups app)
        (add (app_metaBuddyGroups app) None)
        (app_forceTargetStatesUpdate app) (app_sent app));
    Some (true, app)
  else Some (false, app).

(** [alias], [localNodeNumID], [nicList]: of the local node; [connClientPort]: of the
    configuration. *)
Definition __HeartbeatRequestMsgEx_processIncoming (uid : Z) (this0 : HeartbeatMsgEx)
    (alias : list byte) (localNodeNumID : Z) (nicList : list NicAddress) (connClientPort : Z)
    (respBuf : list byte) (app : AppState) : option (bool * AppState) :=
  let hbMsg := HeartbeatMsgEx_setPorts
    (HeartbeatMsgEx_initFromNodeData uid this0 alias localNodeNumID NODETYPE_Client nicList)
    connClientPort 0 in
  packets ← send_response hbMsg respBuf;
  Some (true, MkAppState (app_targetMapper app) (app_storageBuddyGroups app)
                (app_metaBuddyGroups app) (app_forceTargetStatesUpdate app)
                (app_sent app ++ packets)).
