(* ===== verification/MessageFactory.v ===== *)
(** * Dispatch of received messages

    Models [net/message/NetMessageFactory.c]: the message object that belongs to
    a message type, and the deserialisation of a message of unknown type. *)

From S2P Require Import Prelude StorageErrors Wire Serialization StorageFormats StripePattern NetMessageTypes NetMessage MessagesSession MessagesStorage MessagesNodes.

(** The structs of the message objects the factory creates ([..RespMsg] classes that
    only wrap a simple message are that simple message). *)
Inductive MsgKind :=
| K_Simple
| K_SimpleInt
| K_SimpleInt64
| K_SimpleString
| K_SimpleIntString
| K_GetNodesResp
| K_GetStatesAndBuddyGroupsResp
| K_GetTargetMappingsResp
| K_Heartbeat
| K_MapTargets
| K_RefreshTargetStates
| K_RegisterNodeResp
| K_RemoveNode
| K_SetMirrorBuddyGroup
| K_HandshakeResp
| K_LookupIntentResp
| K_MkDirResp
| K_MkFileResp
| K_ListDirFromOffsetResp
| K_GetEntryInfoResp
| K_StatResp
| K_StatStoragePathResp
| K_ListXAttrResp
| K_ReadInvalidationsResp
| K_GetXAttrResp
| K_OpenFileResp
| K_LockGranted
| K_GetFileVersionResp.

#[export] Instance MsgKind_eq_dec : EqDecision MsgKind.
Proof. solve_decision. Defined.

Definition kind_type (k : MsgKind) : Type :=
  match k with
  | K_Simple => SimpleMsg
  | K_SimpleInt => SimpleIntMsg
  | K_SimpleInt64 => SimpleInt64Msg
  | K_SimpleString => SimpleStringMsg
  | K_SimpleIntString => SimpleIntStringMsg
  | K_GetNodesResp => GetNodesRespMsg
  | K_GetStatesAndBuddyGroupsResp => GetStatesAndBuddyGroupsRespMsg
  | K_GetTargetMappingsResp => GetTargetMappingsRespMsg
  | K_Heartbeat => HeartbeatMsgEx
  | K_MapTargets => MapTargetsMsgEx
  | K_RefreshTargetStates => RefreshTargetStatesMsgEx
  | K_RegisterNodeResp => RegisterNodeRespMsg
  | K_RemoveNode => RemoveNodeMsgEx
  | K_SetMirrorBuddyGroup => SetMirrorBuddyGroupMsgEx
  | K_HandshakeResp => HandshakeRespMsg
  | K_LookupIntentResp => LookupIntentRespMsg
  | K_MkDirResp => MkDirRespMsg
  | K_MkFileResp => MkFileRespMsg
  | K_ListDirFromOffsetResp => ListDirFromOffsetRespMsg
  | K_GetEntryInfoResp => GetEntryInfoRespMsg
  | K_StatResp => StatRespMsg
  | K_StatStoragePathResp => StatStoragePathRespMsg
  | K_ListXAttrResp => ListXAttrRespMsg
  | K_ReadInvalidationsResp => ReadInvalidationsRespMsg
  | K_GetXAttrResp => GetXAttrRespMsg
  | K_OpenFileResp => OpenFileRespMsg
  | K_LockGranted => LockGrantedMsgEx
  | K_GetFileVersionResp => GetFileVersionRespMsg
  end.

Section Factory.
(** The allocator: which sizes it grants, and what a fresh object holds. *)
Context (kmalloc_ok : Z -> bool) (fresh : forall k, kind_type k).

(** Operation tables of the two messages that allocate while they deserialise. *)
Definition GetEntryInfoRespMsg_Ops : NetMessageOps GetEntryInfoRespMsg :=
  recv_ops (GetEntryInfoRespMsg_deserializePayload kmalloc_ok).
Definition ReadInvalidationsRespMsg_Ops : NetMessageOps ReadInvalidationsRespMsg :=
  recv_ops (ReadInvalidationsRespMsg_deserializePayload kmalloc_ok).

(** The operation table [createFromMsgType] leaves in the object. *)
Definition kind_ops (k : MsgKind) : NetMessageOps (kind_type k) :=
  match k return NetMessageOps (kind_type k) with
  | K_Simple => SimpleMsg_Ops
  | K_SimpleInt => SimpleIntMsg_Ops
  | K_SimpleInt64 => SimpleInt64Msg_Ops
  | K_SimpleString => SimpleStringMsg_Ops
  | K_SimpleIntString => SimpleIntStringMsg_Ops
  | K_GetNodesResp => GetNodesRespMsg_Ops
  | K_GetStatesAndBuddyGroupsResp => GetStatesAndBuddyGroupsRespMsg_Ops
  | K_GetTargetMappingsResp => GetTargetMappingsRespMsg_Ops
  | K_Heartbeat => HeartbeatMsgEx_Ops
  | K_MapTargets => MapTargetsMsgEx_Ops
  | K_RefreshTargetStates => RefreshTargetStatesMsgEx_Ops
  | K_RegisterNodeResp => RegisterNodeRespMsg_Ops
  | K_RemoveNode => RemoveNodeMsgEx_Ops
  | K_SetMirrorBuddyGroup => SetMirrorBuddyGroupMsgEx_Ops
  | K_HandshakeResp => HandshakeRespMsg_Ops
  | K_LookupIntentResp => LookupIntentRespMsg_Ops
  | K_MkDirResp => MkDirRespMsg_Ops
  | K_MkFileResp => MkFileRespMsg_Ops
  | K_ListDirFromOffsetResp => ListDirFromOffsetRespMsg_Ops
  | K_GetEntryInfoResp => GetEntryInfoRespMsg_Ops
  | K_StatResp => StatRespMsg_Ops
  | K_StatStoragePathResp => StatStoragePathRespMsg_Ops
  | K_ListXAttrResp => ListXAttrRespMsg_Ops
  | K_ReadInvalidationsResp => ReadInvalidationsRespMsg_Ops
  | K_GetXAttrResp => GetXAttrRespMsg_Ops
  | K_OpenFileResp => OpenFileRespMsg_Ops
  | K_LockGranted => LockGrantedMsgEx_Ops
  | K_GetFileVersionResp => GetFileVersionRespMsg_Ops
  end.

(** The fields an initialiser presets before deserialisation. *)
Definition kind_init (k : MsgKind) : kind_type k :=
  match k return kind_type k with
  | K_GetStatesAndBuddyGroupsResp => MkGetStatesAndBuddyGroupsRespMsg [] []
  | K_GetTargetMappingsResp => MkGetTargetMappingsRespMsg []
  | K_MapTargets => msgBody (MapTargetsMsgEx_init 0 (fresh K_MapTargets))
  | K_StatResp => msgBody (StatRespMsg_init 0 (fresh K_StatResp))
  | k => fresh k
  end.

(** The cases of the switch; every other type gives an object of type
    [NETMSGTYPE_Invalid]. *)
Definition factory_table : list (Z * MsgKind) :=
  [(NETMSGTYPE_Ack, K_SimpleString);
   (NETMSGTYPE_GenericResponse, K_SimpleIntString);
   (NETMSGTYPE_GetNodesResp, K_GetNodesResp);
   (NETMSGTYPE_GetStatesAndBuddyGroupsResp, K_GetStatesAndBuddyGroupsResp);
   (NETMSGTYPE_GetTargetMappingsResp, K_GetTargetMappingsResp);
   (NETMSGTYPE_HeartbeatRequest, K_Simple);
   (NETMSGTYPE_Heartbeat, K_Heartbeat);
   (NETMSGTYPE_MapTargets, K_MapTargets);
   (NETMSGTYPE_RefreshTargetStates, K_RefreshTargetStates);
   (NETMSGTYPE_RegisterNodeResp, K_RegisterNodeResp);
   (NETMSGTYPE_RemoveNode, K_RemoveNode);
   (NETMSGTYPE_RemoveNodeResp, K_SimpleInt);
   (NETMSGTYPE_SetMirrorBuddyGroup, K_SetMirrorBuddyGroup);
   (NETMSGTYPE_HandshakeResp, K_HandshakeResp);
   (NETMSGTYPE_LookupIntentResp, K_LookupIntentResp);
   (NETMSGTYPE_MkDirResp, K_MkDirResp);
   (NETMSGTYPE_RmDirResp, K_SimpleInt);
   (NETMSGTYPE_MkFileResp, K_MkFileResp);
   (NETMSGTYPE_RefreshEntryInfoResp, K_SimpleInt);
   (NETMSGTYPE_RenameResp, K_SimpleInt);
   (NETMSGTYPE_HardlinkResp, K_SimpleInt);
   (NETMSGTYPE_UnlinkFileResp, K_SimpleInt);
   (NETMSGTYPE_ListDirFromOffsetResp, K_ListDirFromOffsetResp);
   (NETMSGTYPE_SetAttrResp, K_SimpleInt);
   (NETMSGTYPE_SetFileStateResp, K_SimpleInt);
   (NETMSGTYPE_GetEntryInfoResp, K_GetEntryInfoResp);
   (NETMSGTYPE_StatResp, K_StatResp);
   (NETMSGTYPE_StatStoragePathResp, K_StatStoragePathResp);
   (NETMSGTYPE_TruncFileResp, K_SimpleInt);
   (NETMSGTYPE_ListXAttrResp, K_ListXAttrResp);
   (NETMSGTYPE_ReadInvalidationsResp, K_ReadInvalidationsResp);
   (NETMSGTYPE_GetXAttrResp, K_GetXAttrResp);
   (NETMSGTYPE_RemoveXAttrResp, K_SimpleInt);
   (NETMSGTYPE_SetXAttrResp, K_SimpleInt);
   (NETMSGTYPE_OpenFileResp, K_OpenFileResp);
   (NETMSGTYPE_CloseFileResp, K_SimpleInt);
   (NETMSGTYPE_WriteLocalFileResp, K_SimpleInt64);
   (NETMSGTYPE_FSyncLocalFileResp, K_SimpleInt64);
   (NETMSGTYPE_FLockAppendResp, K_SimpleInt);
   (NETMSGTYPE_FLockEntryResp, K_SimpleInt);
   (NETMSGTYPE_FLockRangeResp, K_SimpleInt);
   (NETMSGTYPE_LockGranted, K_LockGranted);
   (NETMSGTYPE_BumpFileVersionResp, K_SimpleInt);
   (NETMSGTYPE_GetFileVersionResp, K_GetFileVersionResp);
   (NETMSGTYPE_AckNotifyResp, K_Simple)].

Definition NetMessageFactory_createFromMsgType (type : Z) : option MsgKind :=
  snd <$> (snd <$> list_find (fun entry => entry.1 = type) factory_table).

(** A message object of some class; [None]: the returned object has type
    [NETMSGTYPE_Invalid] (no valid header, no such type, unsupported feature flags, or
    a payload that was refused). *)
Definition SomeMsg : Type := option { k : MsgKind & NetMessage (kind_type k) }.

Definition receive_kind (header : NetMessageHeader) (k : MsgKind) : Des SomeMsg := fun ctx =>
  match __NetMessageFactory_deserializeRaw (H := kind_ops k) header
          (NetMessage_init 0 (msgType header) (kind_init k)) ctx with
  | Done msg ctx' => Done (Some (existT k msg)) ctx'
  | Refused => Done None ctx
  | BadRead addr => BadRead addr
  end.

Definition receive_any (garbage : NetMessageHeader) : Des SomeMsg :=
  header ← __NetMessage_deserializeHeader garbage;
  match NetMessageFactory_createFromMsgType (msgType header) with
  | None => mret None
  | Some k => receive_kind header k
  end.

Definition NetMessageFactory_createFromBuf (garbage : NetMessageHeader) (recvBuf : list byte)
    (bufLen : Z) : dres SomeMsg := receive_any garbage (MkDeserializeCtx recvBuf 0 bufLen).

End Factory.
