(* ===== verification/MessagesFacts.v ===== *)
(** * Messages: the transport interface of every message type

    [MsgSend] instances for the requests the client sends, [MsgCodec] instances
    for the message types that go both ways, and safety of the deserialisers of
    the responses. *)

From S2P Require Import Prelude StorageErrors Wire Serialization SerializationFacts StorageFormats StorageFormatsFacts StripePattern StripePatternFacts NetMessageTypes NetMessage NetMessageFacts BuddyGroup Mappers MessagesSession MessagesStorage MessagesNodes.

(** ** Fields of requests *)

(** A string field and its length field. *)
Definition str_ok (s : list byte) (n : Z) : Prop := n = strlen s /\ short s.
(** An event is attached when the flag says so. *)
Definition event_ok (flags flag : Z) (e : option FileEvent) : Prop :=
  has_flag flags flag = true -> is_Some e.

Lemma writes_strField4 s n :
  str_ok s n -> writes (Serialization_serializeStrAlign4 n s) (enc_strAlign4 (cstr s)).
Proof. intros [-> ?]. by apply writes_cstrAlign4. Qed.
Lemma writes_strField s n :
  str_ok s n -> writes (Serialization_serializeStr n s) (enc_str (cstr s)).
Proof. intros [-> ?]. apply writes_cstr. Qed.
Lemma writes_strlen s :
  short s -> writes (Serialization_serializeStr (u32 (strlen s)) s) (enc_str (cstr s)).
Proof.
  intros Hs. unfold short in Hs. pose proof (cstr_prefix s) as [_ ?].
  rewrite u32_small by lia. apply writes_cstr.
Qed.
Lemma writes_event flags flag e :
  event_ok flags flag e ->
  writes (serialize_event flags flag e)
    (if has_flag flags flag then match e with Some e => enc_fileEvent e | None => [] end else []).
Proof.
  intros He. apply writes_if. intros E. destruct (He E) as [x ->]. apply writes_fileEvent.
Qed.
Lemma writes_charField s n :
  in_u 32 n -> n <= zlen s ->
  writes (Serialization_serializeCharArray (u32 n) s) (enc_charArray (take (Z.to_nat n) s)).
Proof.
  intros [? ?] ?. rewrite u32_small by done. unfold enc_charArray.
  assert (Hz : zlen (take (Z.to_nat n) s) = n) by (unfold zlen in *; rewrite length_take; lia).
  rewrite Hz. apply writes_seq; [auto with wire|]. by apply writes_block_take.
Qed.

#[export] Hint Resolve writes_strField4 writes_strField writes_strlen writes_event writes_charField
  writes_u16list writes_niclist writes_if writes_skip : wire.

(** The bytes of a payload, field by field. *)
Ltac writes_fields :=
  lazymatch goal with
  | |- writes (_ +> _) _ => eapply writes_seq; writes_fields
  | |- writes (ser_if _ _) _ => eapply writes_if; intros ?; writes_fields
  | |- writes _ _ => solve [eauto 6 with wire]
  end.

(** A request message: the fields that fit their encodings give the payload. *)
Ltac send_writes ops ser :=
  let flags := fresh "flags" in let m := fresh "m" in let Hok := fresh "Hok" in
  intros flags m Hok; eexists; intros [h b]; cbn [msgHeader msgBody]; intros Hf Hb; subst b; cbn beta in Hok;
  unfold ops, send_ops, both_ops; cbn [serializePayload]; unfold ser; cbn [msgHeader msgBody]; cbv zeta;
  unfold NetMessage_isMsgHeaderFeatureFlagSet; rewrite ?Hf;
  repeat match goal with H : _ /\ _ |- _ => destruct H end;
  writes_fields.

#[export] Program Instance CloseFileMsg_send : MsgSend CloseFileMsg := {|
  send_ok := fun flags m => str_ok (cf_fileHandleID m) (cf_fileHandleIDLen m) /\
    entryInfo_short (cf_entryInfoPtr m) /\ event_ok flags CLOSEFILEMSG_FLAG_HAS_EVENT (cf_fileEvent m)
|}.
Next Obligation. send_writes CloseFileMsg_Ops CloseFileMsg_serializePayload. Qed.

#[export] Program Instance OpenFileMsg_send : MsgSend OpenFileMsg := {|
  send_ok := fun flags m => entryInfo_short (of_entryInfoPtr m) /\
    event_ok flags OPENFILEMSG_FLAG_HAS_EVENT (of_fileEvent m)
|}.
Next Obligation. send_writes OpenFileMsg_Ops OpenFileMsg_serializePayload. Qed.

#[export] Program Instance BumpFileVersionMsg_send : MsgSend BumpFileVersionMsg := {|
  send_ok := fun flags m => entryInfo_short (bfv_entryInfo m) /\
    event_ok flags BUMPFILEVERSIONMSG_FLAG_HASEVENT (bfv_fileEvent m)
|}.
Next Obligation. send_writes BumpFileVersionMsg_Ops BumpFileVersionMsg_serializePayload. Qed.

#[export] Program Instance FSyncLocalFileMsg_send : MsgSend FSyncLocalFileMsg := {|
  send_ok := fun flags m => str_ok (fs_fileHandleID m) (fs_fileHandleIDLen m)
|}.
Next Obligation. send_writes FSyncLocalFileMsg_Ops FSyncLocalFileMsg_serializePayload. Qed.

#[export] Program Instance GetFileVersionMsg_send : MsgSend GetFileVersionMsg := {|
  send_ok := fun flags m => entryInfo_short (gfv_entryInfo m)
|}.
Next Obligation. send_writes GetFileVersionMsg_Ops GetFileVersionMsg_serializePayload. Qed.

#[export] Program Instance FLockRangeMsg_send : MsgSend FLockRangeMsg := {|
  send_ok := fun flags m => entryInfo_short (flr_entryInfoPtr m) /\
    str_ok (flr_fileHandleID m) (flr_fileHandleIDLen m) /\ str_ok (flr_lockAckID m) (flr_lockAckIDLen m)
|}.
Next Obligation. send_writes FLockRangeMsg_Ops FLockRangeMsg_serializePayload. Qed.

#[export] Program Instance ReadLocalFileV2Msg_send : MsgSend ReadLocalFileV2Msg := {|
  send_ok := fun flags m => str_ok (rlf_fileHandleID m) (rlf_fileHandleIDLen m) /\
    pathInfo_short (rlf_pathInfoPtr m)
|}.
Next Obligation. send_writes ReadLocalFileV2Msg_Ops ReadLocalFileV2Msg_serializePayload. Qed.

#[export] Program Instance WriteLocalFileMsg_send : MsgSend WriteLocalFileMsg := {|
  send_ok := fun flags m => str_ok (wl_fileHandleID m) (wl_fileHandleIDLen m) /\
    pathInfo_short (wl_pathInfo m)
|}.
Next Obligation. send_writes WriteLocalFileMsg_Ops WriteLocalFileMsg_serializePayload. Qed.

#[export] Program Instance TruncFileMsg_send : MsgSend TruncFileMsg := {|
  send_ok := fun flags m => entryInfo_short (tf_entryInfoPtr m) /\
    event_ok flags TRUNCFILEMSG_FLAG_HAS_EVENT (tf_fileEvent m)
|}.
Next Obligation. send_writes TruncFileMsg_Ops TruncFileMsg_serializePayload. Qed.

#[export] Program Instance GetEntryInfoMsg_send : MsgSend GetEntryInfoMsg := {|
  send_ok := fun flags m => entryInfo_short (gei_entryInfoPtr m)
|}.
Next Obligation. send_writes GetEntryInfoMsg_Ops GetEntryInfoMsg_serializePayload. Qed.

#[export] Program Instance GetXAttrMsg_send : MsgSend GetXAttrMsg := {|
  send_ok := fun flags m => entryInfo_short (gx_entryInfoPtr m) /\ short (gx_name m)
|}.
Next Obligation. send_writes GetXAttrMsg_Ops GetXAttrMsg_serializePayload. Qed.

#[export] Program Instance ListXAttrMsg_send : MsgSend ListXAttrMsg := {|
  send_ok := fun flags m => entryInfo_short (lx_entryInfoPtr m)
|}.
Next Obligation. send_writes ListXAttrMsg_Ops ListXAttrMsg_serializePayload. Qed.

#[export] Program Instance RemoveXAttrMsg_send : MsgSend RemoveXAttrMsg := {|
  send_ok := fun flags m => entryInfo_short (rx_entryInfoPtr m) /\ short (rx_name m)
|}.
Next Obligation. send_writes RemoveXAttrMsg_Ops RemoveXAttrMsg_serializePayload. Qed.

#[export] Program Instance SetXAttrMsg_send : MsgSend SetXAttrMsg := {|
  send_ok := fun flags m => entryInfo_short (sx_entryInfoPtr m) /\ short (sx_name m) /\
    in_u 32 (sx_size m) /\ sx_size m <= zlen (sx_value m)
|}.
Next Obligation. send_writes SetXAttrMsg_Ops SetXAttrMsg_serializePayload. Qed.

#[export] Program Instance RefreshEntryInfoMsg_send : MsgSend RefreshEntryInfoMsg := {|
  send_ok := fun flags m => entryInfo_short (rei_entryInfoPtr m)
|}.
Next Obligation. send_writes RefreshEntryInfoMsg_Ops RefreshEntryInfoMsg_serializePayload. Qed.

#[export] Program Instance SetAttrMsg_send : MsgSend SetAttrMsg := {|
  send_ok := fun flags m => entryInfo_short (sa_entryInfoPtr m) /\
    event_ok flags SETATTRMSG_FLAG_HAS_EVENT (sa_fileEvent m)
|}.
Next Obligation. send_writes SetAttrMsg_Ops SetAttrMsg_serializePayload. Qed.

#[export] Program Instance SetFileStateMsg_send : MsgSend SetFileStateMsg := {|
  send_ok := fun flags m => entryInfo_short (sfs_entryInfoPtr m)
|}.
Next Obligation. send_writes SetFileStateMsg_Ops SetFileStateMsg_serializePayload. Qed.

#[export] Program Instance StatMsg_send : MsgSend StatMsg := {|
  send_ok := fun flags m => entryInfo_short (st_entryInfoPtr m)
|}.
Next Obligation. send_writes StatMsg_Ops StatMsg_serializePayload. Qed.

#[export] Program Instance ReadInvalidationsMsg_send : MsgSend ReadInvalidationsMsg := {|
  send_ok := fun flags m => True
|}.
Next Obligation. send_writes ReadInvalidationsMsg_Ops ReadInvalidationsMsg_serializePayload. Qed.

#[export] Program Instance HardlinkMsg_send : MsgSend HardlinkMsg := {|
  send_ok := fun flags m => entryInfo_short (hl_fromInfo m) /\ entryInfo_short (hl_toDirInfo m) /\
    entryInfo_short (hl_fromDirInfo m) /\ str_ok (hl_toName m) (hl_toNameLen m) /\
    str_ok (hl_fromName m) (hl_fromNameLen m) /\ event_ok flags HARDLINKMSG_FLAG_HAS_EVENT (hl_fileEvent m)
|}.
Next Obligation. send_writes HardlinkMsg_Ops HardlinkMsg_serializePayload. Qed.

#[export] Program Instance MkDirMsg_send : MsgSend MkDirMsg := {|
  send_ok := fun flags m => entryInfo_short (md_parentInfo m) /\
    str_ok (md_newDirName m) (md_newDirNameLen m) /\ zlen (md_preferredNodes m) < 2 ^ 32 /\
    event_ok flags MKDIRMSG_FLAG_HAS_EVENT (md_fileEvent m)
|}.
Next Obligation. send_writes MkDirMsg_Ops MkDirMsg_serializePayload. Qed.

#[export] Program Instance MkFileMsg_send : MsgSend MkFileMsg := {|
  send_ok := fun flags m => entryInfo_short (mf_parentInfoPtr m) /\
    str_ok (mf_newFileName m) (mf_newFileNameLen m) /\ zlen (mf_preferredTargets m) < 2 ^ 32 /\
    event_ok flags MKFILEMSG_FLAG_HAS_EVENT (mf_fileEvent m)
|}.
Next Obligation. send_writes MkFileMsg_Ops MkFileMsg_serializePayload. Qed.

#[export] Program Instance RmDirMsg_send : MsgSend RmDirMsg := {|
  send_ok := fun flags m => entryInfo_short (rd_parentInfo m) /\
    str_ok (rd_delDirName m) (rd_delDirNameLen m) /\ event_ok flags RMDIRMSG_FLAG_HAS_EVENT (rd_fileEvent m)
|}.
Next Obligation. send_writes RmDirMsg_Ops RmDirMsg_serializePayload. Qed.

#[export] Program Instance UnlinkFileMsg_send : MsgSend UnlinkFileMsg := {|
  send_ok := fun flags m => entryInfo_short (uf_parentInfoPtr m) /\
    str_ok (uf_delFileName m) (uf_delFileNameLen m) /\
    event_ok flags UNLINKFILEMSG_FLAG_HAS_EVENT (uf_fileEvent m)
|}.
Next Obligation. send_writes UnlinkFileMsg_Ops UnlinkFileMsg_serializePayload. Qed.

#[export] Program Instance ListDirFromOffsetMsg_send : MsgSend ListDirFromOffsetMsg := {|
  send_ok := fun flags m => entryInfo_short (ld_entryInfoPtr m)
|}.
Next Obligation. send_writes ListDirFromOffsetMsg_Ops ListDirFromOffsetMsg_serializePayload. Qed.

#[export] Program Instance LookupIntentMsg_send : MsgSend LookupIntentMsg := {|
  send_ok := fun flags m => entryInfo_short (li_parentInfoPtr m) /\
    str_ok (li_entryName m) (li_entryNameLen m) /\
    (has_flag (li_intentFlags m) LOOKUPINTENTMSG_FLAG_REVALIDATE = true -> entryInfo_short (li_entryInfoPtr m)) /\
    zlen (li_preferredTargets m) < 2 ^ 32 /\ event_ok flags LOOKUPINTENTMSG_FLAG_HAS_EVENT (li_fileEvent m)
|}.
Next Obligation. send_writes LookupIntentMsg_Ops LookupIntentMsg_serializePayload. Qed.

#[export] Program Instance RenameMsg_send : MsgSend RenameMsg := {|
  send_ok := fun flags m => entryInfo_short (rn_fromDirInfo m) /\ entryInfo_short (rn_toDirInfo m) /\
    str_ok (rn_oldName m) (rn_oldNameLen m) /\ str_ok (rn_newName m) (rn_newNameLen m) /\
    event_ok flags RENAMEMSG_FLAG_HAS_EVENT (rn_fileEvent m)
|}.
Next Obligation. send_writes RenameMsg_Ops RenameMsg_serializePayload. Qed.

#[export] Program Instance HandshakeMsg_send : MsgSend HandshakeMsg := {|
  send_ok := fun flags m => True
|}.
Next Obligation. send_writes HandshakeMsg_Ops HandshakeMsg_serializePayload. Qed.

#[export] Program Instance RegisterNodeMsg_send : MsgSend RegisterNodeMsg := {|
  send_ok := fun flags m => str_ok (rg_nodeID m) (rg_nodeIDLen m) /\
    str_ok (rg_machineUUID m) (rg_machineUUIDLen m) /\ zlen (rg_nicList m) < 2 ^ 32 /\
    Forall nic_ok (rg_nicList m)
|}.
Next Obligation. send_writes RegisterNodeMsg_Ops RegisterNodeMsg_serializePayload. Qed.

#[export] Program Instance HeartbeatMsgEx_send : MsgSend HeartbeatMsgEx := {|
  send_ok := fun flags m => str_ok (hb_nodeID m) (hb_nodeIDLen m) /\
    str_ok (hb_ackID m) (hb_ackIDLen m) /\ str_ok (hb_machineUUID m) (hb_machineUUIDLen m) /\
    zlen (hb_nicList m) < 2 ^ 32 /\ Forall nic_ok (hb_nicList m)
|}.
Next Obligation. send_writes HeartbeatMsgEx_Ops HeartbeatMsgEx_serializePayload. Qed.

Definition flock_ok (m : FLockMsg) : Prop :=
  entryInfo_short (fl_entryInfoPtr m) /\ str_ok (fl_fileHandleID m) (fl_fileHandleIDLen m) /\
  str_ok (fl_lockAckID m) (fl_lockAckIDLen m).
Lemma writes_flock m : flock_ok m -> exists bs, writes (serialize_flock m) bs.
Proof.
  intros (?&?&?). eexists. unfold serialize_flock.
  writes_fields.
Qed.
#[export] Program Instance FLockAppendMsg_send : MsgSend FLockAppendMsg := {|
  send_ok := fun _ m => flock_ok (fla_fields m)
|}.
Next Obligation.
  intros ? m Hok. destruct (writes_flock _ Hok) as [bs Hbs]. exists bs. intros [h b] _ Hb.
  cbn in Hb. by subst b.
Qed.
#[export] Program Instance FLockEntryMsg_send : MsgSend FLockEntryMsg := {|
  send_ok := fun _ m => flock_ok (fle_fields m)
|}.
Next Obligation.
  intros ? m Hok. destruct (writes_flock _ Hok) as [bs Hbs]. exists bs. intros [h b] _ Hb.
  cbn in Hb. by subst b.
Qed.

(** ** Messages in both directions *)

#[export] Program Instance SimpleMsg_codec : MsgCodec SimpleMsg := {|
  codec_ok := fun _ => True; codec_enc := fun _ => []
|}.
Next Obligation. intros this _. apply writes_skip. Qed.
Next Obligation. intros this [] _. by apply reads_ret. Qed.

#[export] Program Instance SimpleIntMsg_codec : MsgCodec SimpleIntMsg := {|
  codec_ok := fun m => in_s 32 (sim_value m); codec_enc := fun m => le_split 4 (sim_value m)
|}.
Next Obligation. intros this _. exact (writes_s32 (sim_value (msgBody this))). Qed.
Next Obligation. intros this [v] Hv. cbn in Hv. reads_final. by apply reads_ret. Qed.

#[export] Program Instance SimpleInt64Msg_codec : MsgCodec SimpleInt64Msg := {|
  codec_ok := fun m => in_s 64 (si64_value m); codec_enc := fun m => le_split 8 (si64_value m)
|}.
Next Obligation. intros this _. exact (writes_s64 (si64_value (msgBody this))). Qed.
Next Obligation. intros this [v] Hv. cbn in Hv. reads_final. by apply reads_ret. Qed.

#[export] Program Instance SimpleUInt16Msg_codec : MsgCodec SimpleUInt16Msg := {|
  codec_ok := fun m => in_u 16 (su16_value m); codec_enc := fun m => le_split 2 (su16_value m)
|}.
Next Obligation. intros this _. exact (writes_u16 (su16_value (msgBody this))). Qed.
Next Obligation. intros this [v] Hv. cbn in Hv. reads_final. by apply reads_ret. Qed.

(** A string as a receiver sees it: all its bytes, and their number. *)
Definition str_exact (s : list byte) (n : Z) : Prop := n = zlen s /\ zlen s + 1 < 2 ^ 32.

#[export] Program Instance SimpleStringMsg_codec : MsgCodec SimpleStringMsg := {|
  codec_ok := fun m => str_exact (sstr_value m) (sstr_valueLen m);
  codec_enc := fun m => enc_str (sstr_value m)
|}.
Next Obligation. intros this [Hn _]. exact (writes_str _ _ Hn). Qed.
Next Obligation. intros this [s n] [Hn Hs]. cbn in *. subst n. reads_final. by apply reads_ret. Qed.

#[export] Program Instance SimpleIntStringMsg_codec : MsgCodec SimpleIntStringMsg := {|
  codec_ok := fun m => in_s 32 (sis_intValue m) /\ str_exact (sis_strValue m) (sis_strValueLen m);
  codec_enc := fun m => le_split 4 (sis_intValue m) ++ enc_str (sis_strValue m)
|}.
Next Obligation.
  intros this (_ & Hn & _).
  exact (writes_seq _ _ _ _ (writes_s32 (sis_intValue (msgBody this))) (writes_str _ _ Hn)).
Qed.
Next Obligation.
  intros this [i s n] (Hi & Hn & Hs). cbn in *. subst n. reads_field. reads_final. by apply reads_ret.
Qed.

#[export] Program Instance PeerInfoMsg_codec : MsgCodec PeerInfoMsg := {|
  codec_ok := fun m => in_u 32 (pim_type m) /\ in_u 32 (pim_id m);
  codec_enc := fun m => le_split 4 (pim_type m) ++ le_split 4 (pim_id m)
|}.
Next Obligation.
  intros this [[? ?] _]. cbn [serializePayload PeerInfoMsg_Ops both_ops].
  unfold PeerInfoMsg_serializePayload. rewrite u32_small by done.
  exact (writes_seq _ _ _ _ (writes_u32 _) (writes_u32 _)).
Qed.
Next Obligation. intros this [t i] [? ?]. cbn in *. reads_field. reads_final. by apply reads_ret. Qed.

#[export] Program Instance GetStatesAndBuddyGroupsMsg_codec : MsgCodec GetStatesAndBuddyGroupsMsg := {|
  codec_ok := fun m => in_s 32 (gsb_nodeType m) /\ in_u 32 (gsb_requestedByClientID m);
  codec_enc := fun m => le_split 4 (gsb_nodeType m) ++ le_split 4 (gsb_requestedByClientID m)
|}.
Next Obligation.
  intros this _. exact (writes_seq _ _ _ _ (writes_s32 (gsb_nodeType (msgBody this))) (writes_u32 _)).
Qed.
Next Obligation. intros this [t i] [? ?]. cbn in *. reads_field. reads_final. by apply reads_ret. Qed.

#[export] Program Instance RemoveNodeMsgEx_codec : MsgCodec RemoveNodeMsgEx := {|
  codec_ok := fun m => in_s 16 (rmn_nodeType m) /\ in_u 32 (rmn_nodeNumID m) /\
    str_exact (rmn_ackID m) (rmn_ackIDLen m);
  codec_enc := fun m => le_split 2 (rmn_nodeType m) ++ le_split 4 (rmn_nodeNumID m) ++
    enc_str (rmn_ackID m)
|}.
Next Obligation.
  intros this (_ & _ & Hn & _).
  exact (writes_seq _ _ _ _ (writes_s16 (rmn_nodeType (msgBody this)))
    (writes_seq _ _ _ _ (writes_u32 _) (writes_str _ _ Hn))).
Qed.
Next Obligation.
  intros this [id t n s] (? & ? & Hn & Hs). cbn in *. subst n. reads_field. reads_field. reads_final.
  by apply reads_ret.
Qed.

(** Such a message can be sent. *)
#[export] Program Instance codec_send {M} `{MsgCodec M} : MsgSend M | 10 := {|
  send_ok := fun _ m => codec_ok m
|}.
Next Obligation.
  intros M ? ? ? m Hok. exists (codec_enc m). intros this _ <-. by apply codec_writes.
Qed.

(** ** Safety of the responses *)

Lemma triple_str' F : (forall a, str_fault a -> F a) ->
  triple F Serialization_deserializeStr (fun _ => True).
Proof. intros HF. by eapply triple_mono; [apply triple_str|done|]. Qed.

#[export] Hint Resolve triple_strlist_preprocess triple_patternPreprocess triple_nodelist_preprocess : wire.

(** The messages whose payload holds no 4-byte aligned string never leave the
    received object, apart from the string length that wraps around. *)
Ltac response_safe :=
  repeat first
    [ progress cbv zeta
    | match goal with |- triple _ (let '(_, _) := ?x in _) _ => destruct x end
    | apply triple_ret; exact I
    | eapply triple_bind; [ solve [eauto with wire] | intros ? ? ]
    | eapply triple_bind; [ apply (triple_check _ _ (fun _ => True)); done | intros ? _ ]
    | apply triple_if; intros ? ].

Lemma triple_mappings {A} F (d : Des A) P l0 :
  triple F d P -> triple F (serdes_list_deserialize false d l0) (fun _ => True).
Proof.
  intros Hd. eapply triple_bind; [apply triple_u32|]. intros n _.
  eapply triple_bind; [by apply triple_times|]. intros l _. by apply triple_ret.
Qed.

Lemma triple_SimpleMsg this : triple str_fault (SimpleMsg_deserializePayload this) (fun _ => True).
Proof. unfold SimpleMsg_deserializePayload. response_safe. Qed.
Lemma triple_SimpleIntMsg this : triple str_fault (SimpleIntMsg_deserializePayload this) (fun _ => True).
Proof. unfold SimpleIntMsg_deserializePayload. response_safe. Qed.
Lemma triple_SimpleInt64Msg this : triple str_fault (SimpleInt64Msg_deserializePayload this) (fun _ => True).
Proof. unfold SimpleInt64Msg_deserializePayload. response_safe. Qed.
Lemma triple_SimpleStringMsg this : triple str_fault (SimpleStringMsg_deserializePayload this) (fun _ => True).
Proof. unfold SimpleStringMsg_deserializePayload. response_safe. Qed.
Lemma triple_SimpleIntStringMsg this : triple str_fault (SimpleIntStringMsg_deserializePayload this) (fun _ => True).
Proof. unfold SimpleIntStringMsg_deserializePayload. response_safe. Qed.
Lemma triple_GetNodesRespMsg this : triple str_fault (GetNodesRespMsg_deserializePayload this) (fun _ => True).
Proof. unfold GetNodesRespMsg_deserializePayload. response_safe. Qed.
Lemma triple_RefreshTargetStatesMsgEx this : triple str_fault (RefreshTargetStatesMsgEx_deserializePayload this) (fun _ => True).
Proof. unfold RefreshTargetStatesMsgEx_deserializePayload. response_safe. Qed.
Lemma triple_RegisterNodeRespMsg this : triple str_fault (RegisterNodeRespMsg_deserializePayload this) (fun _ => True).
Proof. unfold RegisterNodeRespMsg_deserializePayload. response_safe. Qed.
Lemma triple_RemoveNodeMsgEx this : triple str_fault (RemoveNodeMsgEx_deserializePayload this) (fun _ => True).
Proof. unfold RemoveNodeMsgEx_deserializePayload. response_safe. Qed.
Lemma triple_SetMirrorBuddyGroupMsgEx this : triple str_fault (SetMirrorBuddyGroupMsgEx_deserializePayload this) (fun _ => True).
Proof. unfold SetMirrorBuddyGroupMsgEx_deserializePayload. response_safe. Qed.
Lemma triple_HandshakeRespMsg this : triple str_fault (HandshakeRespMsg_deserializePayload this) (fun _ => True).
Proof. unfold HandshakeRespMsg_deserializePayload. response_safe. Qed.
Lemma triple_ListDirFromOffsetRespMsg this : triple str_fault (ListDirFromOffsetRespMsg_deserializePayload this) (fun _ => True).
Proof. unfold ListDirFromOffsetRespMsg_deserializePayload. response_safe. Qed.
Lemma triple_StatStoragePathRespMsg this : triple str_fault (StatStoragePathRespMsg_deserializePayload this) (fun _ => True).
Proof. unfold StatStoragePathRespMsg_deserializePayload. response_safe. Qed.
Lemma triple_ListXAttrRespMsg this : triple str_fault (ListXAttrRespMsg_deserializePayload this) (fun _ => True).
Proof. unfold ListXAttrRespMsg_deserializePayload. response_safe. Qed.
Lemma triple_GetXAttrRespMsg this : triple str_fault (GetXAttrRespMsg_deserializePayload this) (fun _ => True).
Proof. unfold GetXAttrRespMsg_deserializePayload. response_safe. Qed.
Lemma triple_GetFileVersionRespMsg this : triple str_fault (GetFileVersionRespMsg_deserializePayload this) (fun _ => True).
Proof. unfold GetFileVersionRespMsg_deserializePayload. response_safe. Qed.

Lemma triple_GetStatesAndBuddyGroupsRespMsg this :
  triple str_fault (GetStatesAndBuddyGroupsRespMsg_deserializePayload this) (fun _ => True).
Proof.
  unfold GetStatesAndBuddyGroupsRespMsg_deserializePayload.
  eapply triple_bind; [apply (triple_mappings _ _ _ _ (triple_buddyGroupMapping _))|intros ? _].
  eapply triple_bind; [apply (triple_mappings _ _ _ _ (triple_targetStateMapping _))|intros ? _].
  by apply triple_ret.
Qed.
Lemma triple_GetTargetMappingsRespMsg this :
  triple str_fault (GetTargetMappingsRespMsg_deserializePayload this) (fun _ => True).
Proof.
  unfold GetTargetMappingsRespMsg_deserializePayload.
  eapply triple_bind; [apply (triple_mappings _ _ _ _ (triple_targetMapping _))|intros ? _].
  by apply triple_ret.
Qed.
Lemma triple_MapTargetsMsgEx this :
  triple str_fault (MapTargetsMsgEx_deserializePayload this) (fun _ => True).
Proof.
  unfold MapTargetsMsgEx_deserializePayload.
  eapply triple_bind; [apply (triple_mappings _ _ _ _ (triple_targetPoolMapping _))|intros ? _].
  response_safe.
Qed.
Lemma triple_ReadInvalidationsRespMsg kmalloc_ok this :
  triple str_fault (ReadInvalidationsRespMsg_deserializePayload kmalloc_ok this)
    (fun m => zlen (default [] (rir_inodeIds m)) = rir_numUpdates m /\
              0 <= rir_numUpdates m <= READINVALIDATIONS_MAX_IDS).
Proof.
  unfold ReadInvalidationsRespMsg_deserializePayload. triple_field.
  eapply triple_bind; [apply triple_u32|]. intros n Hn.
  eapply triple_bind; [apply (triple_check _ _ (fun _ => n <= READINVALIDATIONS_MAX_IDS))|intros ? Hmax].
  { destruct (Z.ltb_spec READINVALIDATIONS_MAX_IDS n); [done|lia]. }
  triple_field. triple_guard.
  eapply triple_bind; [apply triple_times with (P := fun _ => True)|].
  - unfold deserialize_inodeId. triple_solve.
  - intros l [_ Hl]. apply triple_ret. cbn. unfold in_u, zlen in *. lia.
Qed.
