(* ===== verification/CommKitOps.v ===== *)
(** * The request kinds of the communication kit

    Models the four tables of functions of [FhgfsOpsCommKit.c] ([readfileOps],
    [writefileOps], [fsyncOps], [statstorageOps]) with the functions in them, the calls
    [FhgfsOpsCommKit_*Communicate], the iterator functions and the two callers
    [FhgfsOpsRemoting_fsyncfile] and [FhgfsOpsRemoting_statStoragePath] of
    [FhgfsOpsRemoting.c]. *)

From S2P Require Import Prelude StorageErrors Wire Serialization StorageFormats StripePattern NetMessageTypes NetMessage MessagesSession MessagesStorage BuddyGroup Mappers CommKit Remoting.

Definition READLOCALFILEMSG_FLAG_SESSION_CHECK : Z := 1.
Definition READLOCALFILEMSG_FLAG_DISABLE_IO : Z := 2.
Definition READLOCALFILEMSG_FLAG_BUDDYMIRROR : Z := 4.
Definition READLOCALFILEMSG_FLAG_BUDDYMIRROR_SECOND : Z := 8.
Definition WRITELOCALFILEMSG_FLAG_SESSION_CHECK : Z := 1.
Definition WRITELOCALFILEMSG_FLAG_DISABLE_IO : Z := 4.
Definition WRITELOCALFILEMSG_FLAG_BUDDYMIRROR : Z := 8.
Definition WRITELOCALFILEMSG_FLAG_BUDDYMIRROR_SECOND : Z := 16.
Definition WRITELOCALFILEMSG_FLAG_BUDDYMIRROR_FORWARD : Z := 32.
Definition FSYNCLOCALFILEMSG_FLAG_NO_SYNC : Z := 1.
Definition FSYNCLOCALFILEMSG_FLAG_SESSION_CHECK : Z := 2.
Definition FSYNCLOCALFILEMSG_FLAG_BUDDYMIRROR : Z := 4.
Definition FSYNCLOCALFILEMSG_FLAG_BUDDYMIRROR_SECOND : Z := 8.

(** ** Sessions and buffers *)

(** What the request messages take from [ioInfo], the configuration and the app;
    [fs_fsuid] is the user of the calling process. *)
Record FileSession := MkFileSession {
  se_fsuid : Z;
  se_localNodeNumID : Z;
  se_fileHandleID : list byte;
  se_pathInfo : PathInfo;
  se_accessFlags : Z;
  se_userID : Z;
  se_groupID : Z;
  se_patternType : Z;
  se_quotaEnabled : bool;
  se_sessionChecksEnabled : bool;
  se_netBenchMode : bool
}.

(** An [iov_iter]: where it stands in the user buffer and how many bytes are left. *)
Record iov_iter := MkIovIter { it_pos : Z; it_count : Z }.
Definition iov_iter_advance (it : iov_iter) (n : Z) : iov_iter :=
  MkIovIter (it_pos it + n) (it_count it - n).
Definition beegfs_iov_iter_clear (it : iov_iter) : iov_iter := MkIovIter (it_pos it) 0.

(** The fields of [FileOpState] around its target info, and those of [FileOpVecState]. *)
Record FileOpFields := MkFileOpFields {
  fx_transmitted : Z;
  fx_toBeTransmitted : Z;
  fx_totalSize : Z;
  fx_data : iov_iter;
  fx_offset : Z;
  fx_firstWriteDoneForTarget : bool;
  fx_receiveFileData : bool;
  fx_vecData : iov_iter
}.

Definition set_transfer (transmitted toBeTransmitted : Z) (x : FileOpFields) : FileOpFields :=
  MkFileOpFields transmitted toBeTransmitted (fx_totalSize x) (fx_data x) (fx_offset x)
    (fx_firstWriteDoneForTarget x) (fx_receiveFileData x) (fx_vecData x).
Definition set_data (d : iov_iter) (x : FileOpFields) : FileOpFields :=
  MkFileOpFields (fx_transmitted x) (fx_toBeTransmitted x) (fx_totalSize x) d (fx_offset x)
    (fx_firstWriteDoneForTarget x) (fx_receiveFileData x) (fx_vecData x).
Definition set_receiveFileData (b : bool) (x : FileOpFields) : FileOpFields :=
  MkFileOpFields (fx_transmitted x) (fx_toBeTransmitted x) (fx_totalSize x) (fx_data x)
    (fx_offset x) (fx_firstWriteDoneForTarget x) b (fx_vecData x).

Abbreviation FileOpInfo := (CommKitTargetInfo FileOpFields).
Definition on_ext {P} (f : P -> P) (info : CommKitTargetInfo P) : CommKitTargetInfo P :=
  set_ext (f (ti_ext info)) info.

(** [FhgfsOpsCommKit_initFileOpState] with the assignments that follow it in the callers:
    the request [s] covers [fo_totalSize s] bytes of the buffer from [fo_data s] on. *)
Definition fileOp_info (s : FileOpState) : FileOpInfo :=
  set_mirrorSecond (fo_useBuddyMirrorSecond s)
    (commkit_initTargetInfo (fo_targetID s)
      (MkFileOpFields 0 0 (fo_totalSize s) (MkIovIter 0 0) (fo_offset s) (fo_firstWriteDone s) false
        (MkIovIter (fo_data s) (fo_totalSize s)))).

(** [writefile_nextIter] and [readfile_nextIter]. *)
Definition file_nextIter (x : FileOpFields) : FileOpFields := set_data (fx_vecData x) x.

(** The environment of the file operations: uninitialised memory, the results of the
    receive calls (the list ends with a timeout) and of the send calls (the list ends
    with a full send buffer). *)
Record IOEnv := MkIOEnv {
  ie_header : NetMessageHeader;
  ie_writeMsg : WriteLocalFileMsg;
  ie_genericMsg : SimpleIntStringMsg;
  ie_int64Msg : SimpleInt64Msg;
  ie_statMsg : StatStoragePathRespMsg;
  ie_prefix : list RecvResult;
  ie_data : RecvResult;
  ie_sends : list Z
}.

(** The tail of the [prepareHeader] functions: serialise into the header buffer (the
    verdict is ignored) and return the length. *)
Definition serialize_request {M P} `{NetMessageOps M} (msg : NetMessage M)
    (info : CommKitTargetInfo P) : option (CommKitTargetInfo P * Z) :=
  '(_, msg, buf) ← NetMessage_serialize msg (ti_headerBuffer info) BEEGFS_COMMKIT_MSGBUF_SIZE;
  '(len, _) ← NetMessage_getMsgLength msg;
  Some (set_headerBuffer buf info, len).

(** [if(c) NetMessage_addMsgHeaderFeatureFlag(...)]. *)
Definition add_flag_if {M} (c : bool) (flag : Z) (msg : NetMessage M) : NetMessage M :=
  if c then NetMessage_addMsgHeaderFeatureFlag msg flag else msg.

Definition mirrored (se : FileSession) : bool := se_patternType se =? STRIPEPATTERN_BuddyMirror.

(** ** Reading *)

Section Readfile.
Context (se : FileSession).

Definition readfile_request (info : FileOpInfo) : NetMessage ReadLocalFileV2Msg :=
  let x := ti_ext info in
  let msg := ReadLocalFileV2Msg_initFromSession (se_fsuid se) (se_localNodeNumID se)
    (se_fileHandleID se) (ti_targetID info) (se_pathInfo se) (se_accessFlags se) (fx_offset x)
    (s64 (fx_totalSize x)) in
  let msg := NetMessage_setMsgHeaderTargetID msg (ti_selectedTargetID info) in
  let msg := add_flag_if (fx_firstWriteDoneForTarget x && se_sessionChecksEnabled se)
    READLOCALFILEMSG_FLAG_SESSION_CHECK msg in
  let msg := add_flag_if (mirrored se) READLOCALFILEMSG_FLAG_BUDDYMIRROR msg in
  let msg := add_flag_if (mirrored se && ti_useBuddyMirrorSecond info)
    READLOCALFILEMSG_FLAG_BUDDYMIRROR_SECOND msg in
  add_flag_if (se_netBenchMode se) READLOCALFILEMSG_FLAG_DISABLE_IO msg.

Definition __commkit_readfile_prepareHeader (e : IOEnv) (info : FileOpInfo) :
    option (FileOpInfo * Z) :=
  '(info, len) ← serialize_request (readfile_request info) info;
  Some (on_ext (fun x => set_data (beegfs_iov_iter_clear (fx_data x))
          (set_receiveFileData false (set_transfer 0 0 x))) info, len).

(** [Socket_recvExactT] of [len] bytes from a sequence of receive results. *)
Fixpoint Socket_recvExactT (results : list RecvResult) (missingLen : Z) (got : list byte) :
    list byte + Z :=
  match results with
  | [] => inr (- ETIMEDOUT)
  | RecvErr err :: _ => inr (Z.neg err)
  | Recv data :: results' =>
      let data := take (Z.to_nat missingLen) data in
      if zlen data =? 0 then inr 0
      else if missingLen - zlen data =? 0 then inl (got ++ data)
      else Socket_recvExactT results' (missingLen - zlen data) (got ++ data)
  end.

Definition __commkit_readfile_recvdata_prefix (e : IOEnv) (info : FileOpInfo) : FileOpInfo * Z :=
  let x := ti_ext info in
  match Socket_recvExactT (ie_prefix e) 8 [] with
  | inr recvRes => (info, if recvRes =? 0 then - ECOMM else recvRes)
  | inl dataLenBuf =>
      let lengthInfo := s64 (le_combine dataLenBuf) in
      if lengthInfo <=? 0 then
        (set_nodeResult (if lengthInfo <? 0 then lengthInfo else s64 (fx_transmitted x)) info, 0)
      else if fx_totalSize x <? u64 (fx_transmitted x + lengthInfo) then (info, - EREMOTEIO)
      else (on_ext (fun x => set_receiveFileData true
              (set_transfer (fx_transmitted x) (u64 (fx_toBeTransmitted x + lengthInfo)) x)) info, 1)
  end.

(** [Socket_recvT] of at most [length] bytes into the iterator. *)
Definition recv_data (r : RecvResult) (it : iov_iter) (length : Z) : iov_iter * Z :=
  match r with
  | RecvErr err => (it, Z.neg err)
  | Recv data =>
      let n := zlen (take (Z.to_nat (Z.min (it_count it) length)) data) in (iov_iter_advance it n, n)
  end.

(** [None]: there is no buffer for the data. *)
Definition __commkit_readfile_recvdata (e : IOEnv) (info : FileOpInfo) : option (FileOpInfo * Z) :=
  let x := ti_ext info in
  let missingLength := u64 (fx_toBeTransmitted x - fx_transmitted x) in
  if negb (fx_receiveFileData x) then Some (__commkit_readfile_recvdata_prefix e info)
  else
    let x := if it_count (fx_data x) =? 0 then file_nextIter x else x in
    if it_count (fx_data x) =? 0 then None
    else
      let '(data, recvRes) := recv_data (ie_data e) (fx_data x) missingLength in
      let x := set_data data x in
      if recvRes <? 0 then Some (set_ext x info, recvRes)
      else
        let x := set_transfer (u64 (fx_transmitted x + recvRes)) (fx_toBeTransmitted x) x in
        let x := if fx_toBeTransmitted x =? fx_transmitted x then set_receiveFileData false x else x in
        Some (set_ext x info, 1).

Definition readfileOps : CommKitContextOps FileOpFields IOEnv :=
  MkCommKitContextOps None __commkit_readfile_prepareHeader None None
    (Some __commkit_readfile_recvdata) CK_RETRY_BUDDY_FALLBACK.

Definition FhgfsOpsCommKit_readfileV2bCommunicate (cfg : CommKitConfig) (env : nat -> RoundEnv IOEnv)
    (fuel : nat) (states : list FileOpInfo) : CommKitOutcome :=
  FhgfsOpsCommkit_communicate readfileOps cfg (Some (se_patternType se)) env fuel states.
End Readfile.

(** ** Writing *)

Section Writefile.
Context (se : FileSession).

Definition writefile_request (e : IOEnv) (info : FileOpInfo) : NetMessage WriteLocalFileMsg :=
  let x := ti_ext info in
  let msg := WriteLocalFileMsg_initFromSession (se_fsuid se) (ie_writeMsg e) (se_localNodeNumID se)
    (se_fileHandleID se) (ti_targetID info) (se_pathInfo se) (se_accessFlags se) (fx_offset x)
    (s64 (fx_totalSize x)) in
  let msg := NetMessage_setMsgHeaderTargetID msg (ti_selectedTargetID info) in
  let msg := if se_quotaEnabled se
    then WriteLocalFileMsg_setUserdataForQuota msg (se_userID se) (se_groupID se) else msg in
  let msg := add_flag_if (fx_firstWriteDoneForTarget x && se_sessionChecksEnabled se)
    WRITELOCALFILEMSG_FLAG_SESSION_CHECK msg in
  let msg := add_flag_if (mirrored se) WRITELOCALFILEMSG_FLAG_BUDDYMIRROR msg in
  let msg := add_flag_if (mirrored se) WRITELOCALFILEMSG_FLAG_BUDDYMIRROR_FORWARD msg in
  let msg := add_flag_if (mirrored se && ti_useBuddyMirrorSecond info)
    WRITELOCALFILEMSG_FLAG_BUDDYMIRROR_SECOND msg in
  add_flag_if (se_netBenchMode se) WRITELOCALFILEMSG_FLAG_DISABLE_IO msg.

Definition __commkit_writefile_prepareHeader (e : IOEnv) (info : FileOpInfo) :
    option (FileOpInfo * Z) :=
  '(info, len) ← serialize_request (writefile_request e info) info;
  Some (on_ext (fun x => set_data (beegfs_iov_iter_clear (fx_data x))
          (set_transfer 0 (fx_totalSize x) x)) info, len).

(** The loop over the send calls: until the iterator is empty or a call fails. *)
Fixpoint send_loop (results : list Z) (x : FileOpFields) : FileOpFields * Z :=
  if it_count (fx_data x) =? 0 then (x, 0)
  else match results with
  | [] => (x, - EAGAIN)
  | r :: results' =>
      if r <? 0 then (x, r)
      else
        let sendRes := Z.min r (it_count (fx_data x)) in
        let x := set_data (iov_iter_advance (fx_data x) sendRes)
          (set_transfer (u64 (fx_transmitted x + sendRes)) (u64 (fx_toBeTransmitted x - sendRes)) x) in
        if it_count (fx_data x) =? 0 then (x, sendRes) else send_loop results' x
  end.

Definition __commkit_writefile_sendData (e : IOEnv) (info : FileOpInfo) : option (FileOpInfo * Z) :=
  let x := ti_ext info in
  if fx_toBeTransmitted x =? 0 then Some (info, 0)
  else
    let x := if it_count (fx_data x) =? 0 then file_nextIter x else x in
    if it_count (fx_data x) =? 0 then None
    else
      let '(x, sendRes) := send_loop (ie_sends e) x in
      let info := set_ext x info in
      if (sendRes <? 0) && negb (sendRes =? - EAGAIN) then Some (info, sendRes)
      else if fx_toBeTransmitted x =? 0 then Some (info, 0)
      else Some (info, 1).

Definition __commkit_writefile_recvHeader (e : IOEnv) (info : FileOpInfo) :
    option (FileOpInfo * Z) :=
  buf ← ti_headerBuffer info;
  match NetMessageFactory_deserializeFromBuf (ie_header e) buf (ti_headerSize info)
          (NetMessage_init (se_fsuid se) NETMSGTYPE_WriteLocalFileResp (ie_int64Msg e))
          NETMSGTYPE_WriteLocalFileResp with
  | Done resp _ => Some (set_nodeResult (si64_value (msgBody resp)) info, 0)
  | Refused => Some (info, - FhgfsOpsErr_COMMUNICATION)
  | BadRead _ => None
  end.

Definition writefileOps : CommKitContextOps FileOpFields IOEnv :=
  MkCommKitContextOps None __commkit_writefile_prepareHeader (Some __commkit_writefile_sendData)
    (Some __commkit_writefile_recvHeader) None CK_RETRY_LOOP_EAGAIN.

Definition FhgfsOpsCommKit_writefileV2bCommunicate (cfg : CommKitConfig) (env : nat -> RoundEnv IOEnv)
    (fuel : nat) (states : list FileOpInfo) : CommKitOutcome :=
  FhgfsOpsCommkit_communicate writefileOps cfg (Some (se_patternType se)) env fuel states.
End Writefile.

(** ** Replies of another type *)

(** The returned error code of a [GenericResponseMsg]; [None] is a fault while reading it. *)
Definition __commkit_message_genericResponse {P} (se_uid : Z) (e : IOEnv) (info : CommKitTargetInfo P) :
    option Z :=
  buf ← ti_headerBuffer info;
  match NetMessageFactory_deserializeFromBuf (ie_header e) buf (ti_headerSize info)
          (NetMessage_init se_uid NETMSGTYPE_GenericResponse (ie_genericMsg e))
          NETMSGTYPE_GenericResponse with
  | Done msg _ =>
      let code := u32 (sis_intValue (msgBody msg)) in
      Some (if code =? GenericRespMsgCode_TRYAGAIN then FhgfsOpsErr_AGAIN
            else if code =? GenericRespMsgCode_INDIRECTCOMMERR then FhgfsOpsErr_COMMUNICATION
            else FhgfsOpsErr_INTERNAL)
  | Refused => Some (- FhgfsOpsErr_INTERNAL)
  | BadRead _ => None
  end.

(** ** Fsync *)

Record FsyncContext := MkFsyncContext {
  fc_userID : Z;
  fc_forceRemoteFlush : bool;
  fc_checkSession : bool;
  fc_doSyncOnClose : bool
}.

(** [FsyncState] has one field more than its target info, [firstWriteDoneForTarget]. *)
Definition FhgfsOpsCommKit_initFsyncState (targetID : Z) : CommKitTargetInfo bool :=
  commkit_initTargetInfo targetID false.

Section Fsync.
Context (se : FileSession) (fctx : FsyncContext).

Definition __commkit_fsync_selectedTargetBad (info : CommKitTargetInfo bool)
    (targetState : CombinedTargetState) : CommKitTargetInfo bool * CKTargetBadAction :=
  if mirrored se && ti_useBuddyMirrorSecond info then
    if (cts_reachabilityState targetState =? TargetReachabilityState_OFFLINE) ||
       (cts_consistencyState targetState =? TargetConsistencyState_BAD)
    then (set_nodeResult (- FhgfsOpsErr_SUCCESS) info, CK_SKIP_TARGET)
    else if cts_consistencyState targetState =? TargetConsistencyState_NEEDS_RESYNC
    then (info, CK_CONTINUE_TARGET)
    else (info, CK_SKIP_TARGET)
  else (info, CK_SKIP_TARGET).

Definition fsync_request (info : CommKitTargetInfo bool) : NetMessage FSyncLocalFileMsg :=
  let msg := FSyncLocalFileMsg_initFromSession (se_fsuid se) (se_localNodeNumID se)
    (se_fileHandleID se) (ti_targetID info) in
  let msg := NetMessage_setMsgHeaderUserID msg (fc_userID fctx) in
  let msg := NetMessage_setMsgHeaderTargetID msg (ti_selectedTargetID info) in
  let msg := add_flag_if (mirrored se) FSYNCLOCALFILEMSG_FLAG_BUDDYMIRROR msg in
  let msg := add_flag_if (mirrored se && ti_useBuddyMirrorSecond info)
    FSYNCLOCALFILEMSG_FLAG_BUDDYMIRROR_SECOND msg in
  let msg := add_flag_if (fc_checkSession fctx && ti_ext info && se_sessionChecksEnabled se)
    FSYNCLOCALFILEMSG_FLAG_SESSION_CHECK msg in
  add_flag_if (negb (fc_forceRemoteFlush fctx) && negb (fc_doSyncOnClose fctx))
    FSYNCLOCALFILEMSG_FLAG_NO_SYNC msg.

(** Nothing to do on the server: no message, and zero is returned. *)
Definition __commkit_fsync_prepareHeader (e : IOEnv) (info : CommKitTargetInfo bool) :
    option (CommKitTargetInfo bool * Z) :=
  if negb (fc_forceRemoteFlush fctx) && negb (fc_checkSession fctx) && negb (fc_doSyncOnClose fctx)
  then Some (set_nodeResult (- FhgfsOpsErr_SUCCESS) info, 0)
  else serialize_request (fsync_request info) info.

Definition __commkit_fsync_recvHeader (e : IOEnv) (info : CommKitTargetInfo bool) :
    option (CommKitTargetInfo bool * Z) :=
  buf ← ti_headerBuffer info;
  match NetMessageFactory_deserializeFromBuf (ie_header e) buf (ti_headerSize info)
          (NetMessage_init (se_fsuid se) NETMSGTYPE_FSyncLocalFileResp (ie_int64Msg e))
          NETMSGTYPE_FSyncLocalFileResp with
  | Done resp _ => Some (set_nodeResult (s64 (- si64_value (msgBody resp))) info, 0)
  | Refused => res ← __commkit_message_genericResponse (se_fsuid se) e info; Some (info, res)
  | BadRead _ => None
  end.

Definition fsyncOps : CommKitContextOps bool IOEnv :=
  MkCommKitContextOps (Some __commkit_fsync_selectedTargetBad) __commkit_fsync_prepareHeader None
    (Some __commkit_fsync_recvHeader) None CK_RETRY_LOOP_EAGAIN.

Definition FhgfsOpsCommKit_fsyncCommunicate (cfg : CommKitConfig) (env : nat -> RoundEnv IOEnv)
    (fuel : nat) (states : list (CommKitTargetInfo bool)) : CommKitOutcome :=
  FhgfsOpsCommkit_communicate fsyncOps cfg (Some (se_patternType se)) env fuel states.
End Fsync.

(** The states of [FhgfsOpsRemoting_fsyncfile]: one per stripe target, for mirrored files
    a second one for the other member of the group. *)
Definition fsync_states (se : FileSession) (targetIDs : list Z) : list (CommKitTargetInfo bool) :=
  (FhgfsOpsCommKit_initFsyncState <$> targetIDs) ++
  (if mirrored se
   then (fun targetID => set_mirrorSecond true (FhgfsOpsCommKit_initFsyncState targetID))
          <$> targetIDs
   else []).

(** The first error becomes the result (an [int]). *)
Fixpoint fsync_result (infos : list (CommKitTargetInfo bool)) (retVal : Z) : Z :=
  match infos with
  | [] => retVal
  | info :: infos' =>
      fsync_result infos'
        (if negb (ti_nodeResult info =? FhgfsOpsErr_SUCCESS) && (retVal =? FhgfsOpsErr_SUCCESS)
         then s32 (- ti_nodeResult info) else retVal)
  end.

(** [allocOk]: the memory for the states was available; without it the states that exist
    have results already ([-FhgfsOpsErr_INTERNAL]), but the error is out of memory.  [None]: the
    communication did not return. *)
Definition FhgfsOpsRemoting_fsyncfile (se : FileSession) (fctx : FsyncContext) (cfg : CommKitConfig)
    (env : nat -> RoundEnv IOEnv) (fuel : nat) (allocOk : bool) (targetIDs : list Z) : option Z :=
  if negb allocOk then Some FhgfsOpsErr_OUTOFMEM
  else match FhgfsOpsCommKit_fsyncCommunicate se fctx cfg env fuel (fsync_states se targetIDs) with
  | CK_Returned _ infos => Some (fsync_result infos FhgfsOpsErr_SUCCESS)
  | _ => None
  end.

(** ** Free space of the storage targets *)

Record StatStorageFields := MkStatStorageFields { ss_totalSize : Z; ss_totalFree : Z }.
Definition FhgfsOpsCommKit_initStatStorageState (memory : StatStorageFields) (targetID : Z) :
    CommKitTargetInfo StatStorageFields := commkit_initTargetInfo targetID memory.

Section StatStorage.
Context (fsuid : Z).

Definition __commkit_statstorage_prepareHeader (e : IOEnv)
    (info : CommKitTargetInfo StatStorageFields) :
    option (CommKitTargetInfo StatStorageFields * Z) :=
  serialize_request (NetMessage_setMsgHeaderTargetID
    (StatStoragePathMsg_initFromTarget fsuid (ti_targetID info)) (ti_selectedTargetID info)) info.

Definition __commkit_statstorage_recvHeader (e : IOEnv)
    (info : CommKitTargetInfo StatStorageFields) :
    option (CommKitTargetInfo StatStorageFields * Z) :=
  buf ← ti_headerBuffer info;
  match NetMessageFactory_deserializeFromBuf (ie_header e) buf (ti_headerSize info)
          (NetMessage_init fsuid NETMSGTYPE_StatStoragePathResp (ie_statMsg e))
          NETMSGTYPE_StatStoragePathResp with
  | Done resp _ =>
      let m := msgBody resp in
      Some (set_nodeResult (s32 (- ssp_result m))
        (set_ext (MkStatStorageFields (ssp_sizeTotal m) (ssp_sizeFree m)) info), 0)
  | Refused => res ← __commkit_message_genericResponse fsuid e info; Some (info, res)
  | BadRead _ => None
  end.

Definition statstorageOps : CommKitContextOps StatStorageFields IOEnv :=
  MkCommKitContextOps None __commkit_statstorage_prepareHeader None
    (Some __commkit_statstorage_recvHeader) None CK_RETRY_LOOP_EAGAIN.

Definition FhgfsOpsCommKit_statStorageCommunicate (cfg : CommKitConfig) (env : nat -> RoundEnv IOEnv)
    (fuel : nat) (targets : list (CommKitTargetInfo StatStorageFields)) : CommKitOutcome :=
  FhgfsOpsCommkit_communicate statstorageOps cfg None env fuel targets.

(** Sums over the targets; the first error ends the loop unless errors are ignored. *)
Fixpoint statStorage_result (ignoreErrors : bool) (infos : list (CommKitTargetInfo StatStorageFields))
    (outSizeTotal outSizeFree : Z) : Z * Z * Z :=
  match infos with
  | [] => (FhgfsOpsErr_SUCCESS, outSizeTotal, outSizeFree)
  | info :: infos' =>
      if negb (ti_nodeResult info =? FhgfsOpsErr_SUCCESS) then
        if ignoreErrors then statStorage_result ignoreErrors infos' outSizeTotal outSizeFree
        else (s32 (- ti_nodeResult info), outSizeTotal, outSizeFree)
      else statStorage_result ignoreErrors infos' (s64 (outSizeTotal + ss_totalSize (ti_ext info)))
             (s64 (outSizeFree + ss_totalFree (ti_ext info)))
  end.

(** Result, [*outSizeTotal] and [*outSizeFree]; [memory] is the contents of the allocated
    states. *)
Definition FhgfsOpsRemoting_statStoragePath (targetMapper : TargetMapper) (cfg : CommKitConfig)
    (env : nat -> RoundEnv IOEnv) (fuel : nat) (allocOk : bool) (memory : StatStorageFields)
    (ignoreErrors : bool) : option (Z * Z * Z) :=
  let targetIDs := TargetMapper_getTargetIDs targetMapper [] in
  if zlen targetIDs =? 0 then Some (FhgfsOpsErr_UNKNOWNTARGET, 0, 0)
  else if negb allocOk then Some (FhgfsOpsErr_OUTOFMEM, 0, 0)
  else match FhgfsOpsCommKit_statStorageCommunicate cfg env fuel
         (FhgfsOpsCommKit_initStatStorageState memory <$> targetIDs) with
  | CK_Returned _ infos => Some (statStorage_result ignoreErrors infos 0 0)
  | _ => None
  end.
End StatStorage.
