(* ===== verification/CommKitOpsFacts.v ===== *)
(** * The request kinds of the communication kit: correctness

    The tables of read and write requests fulfil the laws of the engine, so the calls
    return, keep their books exact and report what was transferred; the theorems at the
    end show where the kit does not do what its comments say. *)

From S2P Require Import Prelude StorageErrors Wire Serialization SerializationFacts StorageFormats StorageFormatsFacts StripePattern StripePatternFacts NetMessageTypes NetMessage NetMessageFacts MessagesSession MessagesStorage MessagesFacts BuddyGroup Mappers CommKit CommKitFacts CommKitOps Remoting.

(** ** Requests fit the header buffer *)

(** The names a request carries. *)
Definition session_ok (se : FileSession) : Prop :=
  strlen (se_fileHandleID se) <= 1024 /\
  (has_flag (pi_flags (se_pathInfo se)) PATHINFO_FEATURE_ORIG = true ->
   exists s, pi_origParentEntryID (se_pathInfo se) = Some s /\ strlen s <= 1024).

Section Request.
Context {M P : Type} `{NetMessageOps M}.

(** A message whose payload is known is written to the buffer, and its length returned. *)
Lemma serialize_request_ok (msg : NetMessage M) bs (info : CommKitTargetInfo P) :
  (forall n, writes (serializePayload (with_header (fun h => set_msgLength h n) msg)) bs) ->
  NETMSG_HEADER_LENGTH + zlen bs <= BEEGFS_COMMKIT_MSGBUF_SIZE -> msgLength (msgHeader msg) = 0 ->
  buffer_ok info ->
  exists buf', serialize_request msg info =
    Some (set_headerBuffer (Some buf') info, NETMSG_HEADER_LENGTH + zlen bs) /\
  zlen buf' = BEEGFS_COMMKIT_MSGBUF_SIZE.
Proof.
  intros Hw Hfit H0 (buf & Hbuf & Hlen). unfold serialize_request. rewrite Hbuf, <- Hlen.
  unfold BEEGFS_COMMKIT_MSGBUF_SIZE in *. pose proof (zlen_nonneg bs).
  rewrite (serialize_spec msg bs buf Hw ltac:(lia) (or_introl H0)), (proj2 (Z.ltb_ge _ _)) by lia.
  cbn [mbind option_bind].
  rewrite (getMsgLength_spec (sent msg bs) bs Hw ltac:(lia)) by (by right). cbn [mbind option_bind].
  eexists. split; [reflexivity|].
  unfold zlen. rewrite length_splice; [done|]. rewrite length_message. unfold zlen in *. lia.
Qed.

Lemma with_add_flag_if c flag (msg : NetMessage M) :
  msgBody (add_flag_if c flag msg) = msgBody msg /\
  msgLength (msgHeader (add_flag_if c flag msg)) = msgLength (msgHeader msg).
Proof. by destruct c. Qed.
End Request.

Lemma frame_headerBuffer {P} (info : CommKitTargetInfo P) buf' (f : P -> P) :
  buffer_ok info -> zlen buf' = BEEGFS_COMMKIT_MSGBUF_SIZE ->
  frame info (on_ext f (set_headerBuffer (Some buf') info)).
Proof. intros (buf & Hbuf & Hlen) Hz. unfold frame. cbn. rewrite Hbuf. cbn. split_and!; try done. congruence. Qed.

Lemma zlen_enc_pathInfo se :
  session_ok se -> zlen (enc_pathInfo (se_pathInfo se)) <= 1044.
Proof.
  intros [_ Hp]. unfold enc_pathInfo. rewrite zlen_app, zlen_le_split.
  destruct (has_flag _ _); [|by autorewrite with zlen].
  destruct (Hp eq_refl) as (s & -> & Hs). cbn [default from_option]. unfold id, strlen in *. autorewrite with zlen.
  pose proof (zlen_pad4 (zlen (cstr s) + 1)). lia.
Qed.

Lemma session_strings se :
  session_ok se -> str_ok (se_fileHandleID se) (u32 (strlen (se_fileHandleID se))) /\
  pathInfo_short (se_pathInfo se).
Proof.
  intros [Hf Hp]. pose proof (zlen_nonneg (cstr (se_fileHandleID se))).
  split.
  - split; [rewrite u32_small; unfold strlen in *; lia|]. unfold short, strlen in *. lia.
  - intros Hflag. destruct (Hp Hflag) as (s & Hs & Hl). exists s. split; [done|]. unfold short. lia.
Qed.

Lemma zlen_fileHandle se :
  session_ok se -> zlen (enc_strAlign4 (cstr (se_fileHandleID se))) <= 1032.
Proof.
  intros [Hf _]. unfold strlen in Hf. rewrite zlen_enc_strAlign4.
  pose proof (zlen_pad4 (zlen (cstr (se_fileHandleID se)) + 1)). lia.
Qed.

(** The payloads of the two requests, and that they fit. *)
Lemma readfile_request_ok se (info : FileOpInfo) :
  session_ok se -> msgLength (msgHeader (readfile_request se info)) = 0 /\
  exists bs, (forall n, writes (serializePayload (with_header (fun h => set_msgLength h n)
      (readfile_request se info))) bs) /\ NETMSG_HEADER_LENGTH + zlen bs <= BEEGFS_COMMKIT_MSGBUF_SIZE.
Proof.
  intros Hse. pose proof (zlen_enc_pathInfo se Hse) as Hp. pose proof (zlen_fileHandle se Hse) as Hh.
  destruct (session_strings se Hse) as [Hs Hps]. split.
  { unfold readfile_request. cbv zeta. by rewrite !(proj2 (with_add_flag_if _ _ _)). }
  set (m := msgBody (readfile_request se info)).
  assert (Hm : m = MkReadLocalFileV2Msg (fx_offset (ti_ext info)) (s64 (fx_totalSize (ti_ext info)))
    (se_accessFlags se) (se_localNodeNumID se) (se_fileHandleID se) (u32 (strlen (se_fileHandleID se)))
    (se_pathInfo se) (ti_targetID info)).
  { unfold m, readfile_request. cbv zeta. by rewrite !(proj1 (with_add_flag_if _ _ _)). }
  eexists. split.
  - intros n. cbn [serializePayload ReadLocalFileV2Msg_Ops send_ops].
    unfold ReadLocalFileV2Msg_serializePayload, with_header. cbn [msgBody]. fold m. rewrite Hm.
    cbn [rlf_offset rlf_count rlf_accessFlags rlf_fileHandleIDLen rlf_fileHandleID rlf_clientNumID
      rlf_pathInfoPtr rlf_targetID]. writes_fields.
  - unfold NETMSG_HEADER_LENGTH, BEEGFS_COMMKIT_MSGBUF_SIZE. rewrite !zlen_app, !zlen_le_split. lia.
Qed.

Lemma writefile_request_ok se (e : IOEnv) (info : FileOpInfo) :
  session_ok se -> msgLength (msgHeader (writefile_request se e info)) = 0 /\
  exists bs, (forall n, writes (serializePayload (with_header (fun h => set_msgLength h n)
      (writefile_request se e info))) bs) /\ NETMSG_HEADER_LENGTH + zlen bs <= BEEGFS_COMMKIT_MSGBUF_SIZE.
Proof.
  intros Hse. pose proof (zlen_enc_pathInfo se Hse) as Hp. pose proof (zlen_fileHandle se Hse) as Hh.
  destruct (session_strings se Hse) as [Hs Hps]. split.
  { unfold writefile_request. cbv zeta. rewrite !(proj2 (with_add_flag_if _ _ _)).
    by destruct (se_quotaEnabled se). }
  set (m := msgBody (writefile_request se e info)).
  assert (Hm : exists u g, m = MkWriteLocalFileMsg (fx_offset (ti_ext info)) (s64 (fx_totalSize (ti_ext info)))
    (se_accessFlags se) (se_localNodeNumID se) (se_fileHandleID se) (u32 (strlen (se_fileHandleID se)))
    (ti_targetID info) (se_pathInfo se) u g).
  { unfold m, writefile_request. cbv zeta. rewrite !(proj1 (with_add_flag_if _ _ _)).
    destruct (se_quotaEnabled se); by do 2 eexists. }
  destruct Hm as (u & g & Hm).
  set (q := NetMessage_isMsgHeaderFeatureFlagSet (msgHeader (writefile_request se e info))
    WRITELOCALFILEMSG_FLAG_USE_QUOTA).
  exists (le_split 8 (fx_offset (ti_ext info)) ++ le_split 8 (s64 (fx_totalSize (ti_ext info))) ++
    le_split 4 (se_accessFlags se) ++ (if q then le_split 4 u ++ le_split 4 g else []) ++
    enc_strAlign4 (cstr (se_fileHandleID se)) ++ le_split 4 (se_localNodeNumID se) ++
    enc_pathInfo (se_pathInfo se) ++ le_split 2 (ti_targetID info)). split.
  - intros n. cbn [serializePayload WriteLocalFileMsg_Ops send_ops].
    unfold WriteLocalFileMsg_serializePayload, with_header. cbn [msgBody msgHeader]. fold m. rewrite Hm.
    change (NetMessage_isMsgHeaderFeatureFlagSet (set_msgLength _ n) _) with q.
    cbn [wl_offset wl_count wl_accessFlags wl_fileHandleIDLen wl_fileHandleID wl_clientNumID
      wl_pathInfo wl_targetID wl_userID wl_groupID]. writes_fields.
  - unfold NETMSG_HEADER_LENGTH, BEEGFS_COMMKIT_MSGBUF_SIZE. rewrite !zlen_app, !zlen_le_split.
    destruct q; rewrite ?zlen_app, ?zlen_le_split, ?(zlen_nil (A := byte)); lia.
Qed.

(** ** Reading *)

(** What a read request knows about its transfer: the bytes that have arrived, those
    that were announced and those that were asked for; the iterator stands behind the bytes that
    have arrived.  The result is an error code or at most that number of bytes. *)
Definition read_ok (r : Z) (x : FileOpFields) : Prop :=
  0 <= fx_transmitted x <= fx_toBeTransmitted x /\ fx_toBeTransmitted x <= fx_totalSize x < 2 ^ 63 /\
  it_count (fx_vecData x) = fx_totalSize x /\
  (it_count (fx_data x) = 0 /\ fx_transmitted x = 0 \/
   it_count (fx_data x) = fx_totalSize x - fx_transmitted x /\
   it_pos (fx_data x) = it_pos (fx_vecData x) + fx_transmitted x) /\
  (if fx_receiveFileData x then fx_transmitted x < fx_toBeTransmitted x
   else fx_transmitted x = fx_toBeTransmitted x) /\
  r <= fx_transmitted x.

(** Bytes and length fields that are still to come; at most [2 * n + 1] for [n] bytes. *)
Definition read_left (x : FileOpFields) : nat :=
  Z.to_nat (2 * (fx_totalSize x - fx_transmitted x) + (if fx_receiveFileData x then 0 else 1)).

(** The peer has not closed the connection in the middle of the data. *)
Definition recv_progress (e : IOEnv) : Prop := ie_data e <> Recv [].

#[export] Instance recv_progress_dec e : Decision (recv_progress e).
Proof. unfold recv_progress. destruct (ie_data e) as [[|b l]|err]; [right; tauto|left; done..]. Defined.

Lemma engine_result_neg r : engine_result r -> r < 0.
Proof. unfold engine_result. intros [-> | [-> | [-> | [-> | ->]]]]; reflexivity. Qed.

Lemma recv_data_cases r it n :
  0 < it_count it -> 0 < n ->
  (exists err, recv_data r it n = (it, Z.neg err)) \/
  (exists k, recv_data r it n = (iov_iter_advance it k, k) /\ 0 <= k <= it_count it /\ k <= n /\
     (r <> Recv [] -> 0 < k)).
Proof.
  intros Hc Hn. destruct r as [data|err]; [right|by left; exists err]. cbn [recv_data].
  eexists. split; [reflexivity|]. unfold zlen. rewrite length_take. split_and!; try lia.
  intros Hd. destruct data; [done|]. cbn [length]. lia.
Qed.

Section ReadLaws.
Context (se : FileSession) (max : Z).
Hypothesis Hse : session_ok se.

Definition read_state_ok (r : Z) (x : FileOpFields) : Prop := read_ok r x /\ fx_totalSize x <= max.

Lemma recvExactT_failed results n got r : Socket_recvExactT results n got = inr r -> r <= 0.
Proof.
  revert n got. induction results as [|[data|err] results IH]; intros n got; cbn [Socket_recvExactT];
    [by intros [= <-]| |by intros [= <-]].
  destruct (_ =? 0); [by intros [= <-]|]. destruct (_ =? 0); [done|]. apply IH.
Qed.

Lemma readfile_prefix_ok e (info : FileOpInfo) info' n :
  read_state_ok (ti_nodeResult info) (ti_ext info) -> fx_receiveFileData (ti_ext info) = false ->
  __commkit_readfile_recvdata_prefix e info = (info', n) ->
  frame info info' /\ read_state_ok (ti_nodeResult info') (ti_ext info') /\
  (0 < n -> (read_left (ti_ext info') < read_left (ti_ext info))%nat).
Proof.
  intros [Hok Hmax] Erf. pose proof Hok as (Ht & Hb & Hv & Hd & Hrf & Hr). rewrite Erf in Hrf.
  unfold __commkit_readfile_recvdata_prefix.
  destruct (Socket_recvExactT _ _ _) as [buf|recvRes] eqn:Ex.
  2: { apply recvExactT_failed in Ex. intros [= <- <-]. split_and!; try done.
       destruct (Z.eqb_spec recvRes 0); [done|lia]. }
  set (len := s64 (le_combine buf)). assert (Hlen : - 2 ^ 63 <= len < 2 ^ 63) by exact (signed_range 64 _ eq_refl).
  destruct (Z.leb_spec len 0).
  { intros [= <- <-]. split; [done|]. split; [|lia]. cbn. split; [|done].
    rewrite s64_small by (unfold in_s; lia).
    unfold read_ok in *. rewrite Erf.
    destruct (Z.ltb_spec len 0); split_and!; done || lia. }
  rewrite u64_small by lia. destruct (Z.ltb_spec (fx_totalSize (ti_ext info)) (fx_transmitted (ti_ext info) + len)).
  { intros [= <- <-]. split; [done|]. split; [done|]. done. }
  intros [= <- <-]. split; [done|]. cbn. rewrite u64_small by lia. split.
  - split; [|done]. unfold read_ok. cbn. split_and!; done || lia.
  - intros _. unfold read_left. cbn. rewrite Erf. lia.
Qed.

Lemma readfile_data_ok e (info : FileOpInfo) x :
  read_state_ok (ti_nodeResult info) (ti_ext info) -> fx_receiveFileData (ti_ext info) = true ->
  x = set_data (fx_data x) (ti_ext info) ->
  it_count (fx_data x) = fx_totalSize x - fx_transmitted x ->
  it_pos (fx_data x) = it_pos (fx_vecData x) + fx_transmitted x ->
  exists info' n,
    (let '(data, recvRes) := recv_data (ie_data e) (fx_data x)
       (fx_toBeTransmitted (ti_ext info) - fx_transmitted (ti_ext info)) in
     let x := set_data data x in
     if recvRes <? 0 then Some (set_ext x info, recvRes)
     else
       let x := set_transfer (u64 (fx_transmitted x + recvRes)) (fx_toBeTransmitted x) x in
       let x := if fx_toBeTransmitted x =? fx_transmitted x then set_receiveFileData false x else x in
       Some (set_ext x info, 1)) = Some (info', n) /\ frame info info' /\
    read_state_ok (ti_nodeResult info') (ti_ext info') /\
    (recv_progress e -> 0 < n -> (read_left (ti_ext info') < read_left (ti_ext info))%nat).
Proof.
  intros [Hok Hmax] Erf Hx Hxc Hxp. pose proof Hok as (Ht & Hb & Hv & _ & Hrf & Hr). rewrite Erf in Hrf.
  set (y := ti_ext info) in *.
  assert (Hsame : fx_totalSize x = fx_totalSize y /\ fx_transmitted x = fx_transmitted y /\
    fx_toBeTransmitted x = fx_toBeTransmitted y /\ fx_receiveFileData x = true /\ fx_vecData x = fx_vecData y)
    by (rewrite Hx; done).
  destruct Hsame as (S1 & S2 & S3 & S4 & S5). rewrite S5 in Hxp.
  destruct (recv_data_cases (ie_data e) (fx_data x) (fx_toBeTransmitted y - fx_transmitted y)
    ltac:(lia) ltac:(lia)) as [[err ->] | (k & -> & Hk & Hkn & Hprog)].
  - do 2 eexists. split; [reflexivity|]. split; [done|]. cbn [set_ext ti_ext ti_nodeResult].
    split; [|lia]. split; [|cbn; lia]. unfold read_ok. cbn. rewrite S4, S5.
    split_and!; done || lia.
  - rewrite (proj2 (Z.ltb_ge k 0)) by lia. cbn [set_data set_transfer fx_transmitted fx_toBeTransmitted].
    rewrite u64_small by lia.
    do 2 eexists. split; [reflexivity|]. split; [done|]. cbn [set_ext ti_ext ti_nodeResult].
    destruct (Z.eqb_spec (fx_toBeTransmitted x) (fx_transmitted x + k)); cbn.
    + split; [split; [unfold read_ok; cbn; rewrite S5; split_and!; done || lia|cbn; lia]|].
      intros Hp _. specialize (Hprog Hp). unfold read_left. cbn. rewrite Erf. lia.
    + split; [split; [unfold read_ok; cbn; rewrite S4, S5; split_and!; done || lia|cbn; lia]|].
      intros Hp _. specialize (Hprog Hp). unfold read_left. cbn. rewrite Erf, S4. lia.
Qed.

Lemma readfile_recvdata_ok e (info : FileOpInfo) :
  read_state_ok (ti_nodeResult info) (ti_ext info) ->
  exists info' n, __commkit_readfile_recvdata e info = Some (info', n) /\ frame info info' /\
    read_state_ok (ti_nodeResult info') (ti_ext info') /\
    (recv_progress e -> 0 < n -> (read_left (ti_ext info') < read_left (ti_ext info))%nat).
Proof.
  intros Hst. pose proof Hst as [(Ht & Hb & Hv & Hd & Hrf & Hr) Hmax]. unfold __commkit_readfile_recvdata.
  destruct (fx_receiveFileData (ti_ext info)) eqn:Erf; cbn [negb].
  - rewrite u64_small by lia. cbv zeta.
    destruct (Z.eqb_spec (it_count (fx_data (ti_ext info))) 0) as [Hz|Hz].
    + cbn [file_nextIter set_data fx_data]. rewrite (proj2 (Z.eqb_neq _ 0)) by lia.
      apply (readfile_data_ok e info (file_nextIter (ti_ext info))); try done; cbn; lia.
    + rewrite (proj2 (Z.eqb_neq _ 0)) by done. destruct Hd as [[? _]|[? ?]]; [done|].
      apply (readfile_data_ok e info (ti_ext info)); try done. by destruct (ti_ext info).
  - destruct (__commkit_readfile_recvdata_prefix e info) as [info' n] eqn:Ep.
    destruct (readfile_prefix_ok e info info' n Hst Erf Ep) as (H1 & H2 & H3). exists info', n. auto.
Qed.

(** The table of read requests fulfils the laws of the engine. *)
Lemma readfile_laws :
  OpsLaws (readfileOps se) read_state_ok read_left (Z.to_nat (2 * max + 1)) recv_progress.
Proof.
  constructor; try done.
  - intros r x [(?&?&_) ?]. unfold read_left. destruct (fx_receiveFileData x); lia.
  - intros r r' x Hr%engine_result_neg [(?&?&?&?&?&?) ?]. split; [|done]. unfold read_ok. split_and!; done || lia.
  - intros e info Hb Hr%engine_result_neg [(Ht & Hbt & Hv & _) Hm].
    destruct (readfile_request_ok se info Hse) as (H0 & bs & Hw & Hfit).
    destruct (serialize_request_ok _ bs info Hw Hfit H0 Hb) as (buf' & Hreq & Hlen).
    do 2 eexists. cbn [readfileOps op_prepareHeader]. unfold __commkit_readfile_prepareHeader.
    rewrite Hreq. cbn [mbind option_bind]. split; [reflexivity|]. pose proof (zlen_nonneg bs).
    split; [by apply frame_headerBuffer|]. cbn. split_and!; try done; try lia; [|].
    + split; [|done]. unfold read_ok. cbn. split_and!; try done; lia.
    + unfold NETMSG_HEADER_LENGTH. lia.
  - intros f e info [= <-]. apply readfile_recvdata_ok.
Qed.
End ReadLaws.

(** ** Writing *)

(** What a write request knows: before the first attempt nothing; later what was sent and
    what is left add up to the size, and the iterator stands behind the bytes that were sent. *)
Definition write_ok (x : FileOpFields) : Prop :=
  0 <= fx_transmitted x /\ 0 <= fx_toBeTransmitted x /\ 0 <= fx_totalSize x < 2 ^ 63 /\
  (fx_toBeTransmitted x = 0 \/ fx_transmitted x + fx_toBeTransmitted x = fx_totalSize x) /\
  fx_transmitted x <= fx_totalSize x /\ it_count (fx_vecData x) = fx_totalSize x /\
  (it_count (fx_data x) = 0 /\ fx_transmitted x = 0 \/
   it_count (fx_data x) = fx_toBeTransmitted x /\
   it_pos (fx_data x) = it_pos (fx_vecData x) + fx_transmitted x).

Definition write_left (x : FileOpFields) : nat := Z.to_nat (fx_toBeTransmitted x).

(** A socket that is ready for sending takes some bytes or reports an error. *)
Definition send_progress (e : IOEnv) : Prop :=
  match ie_sends e with r :: _ => r <> 0 /\ r <> - EAGAIN | [] => False end.

#[export] Instance send_progress_dec e : Decision (send_progress e).
Proof. unfold send_progress. destruct (ie_sends e); apply _. Defined.

(** The state inside of the send loop. *)
Definition sending (x : FileOpFields) : Prop :=
  0 <= fx_transmitted x /\ 0 <= fx_toBeTransmitted x /\ 0 <= fx_totalSize x < 2 ^ 63 /\
  fx_transmitted x + fx_toBeTransmitted x = fx_totalSize x /\
  it_count (fx_vecData x) = fx_totalSize x /\ it_count (fx_data x) = fx_toBeTransmitted x /\
  it_pos (fx_data x) = it_pos (fx_vecData x) + fx_transmitted x.

Lemma sending_write_ok x : sending x -> write_ok x.
Proof. unfold sending, write_ok. intros (?&?&?&?&?&?&?). split_and!; done || lia. Qed.

Lemma send_loop_ok results x x' n :
  sending x -> send_loop results x = (x', n) ->
  sending x' /\ fx_totalSize x' = fx_totalSize x /\ fx_toBeTransmitted x' <= fx_toBeTransmitted x /\
  (0 < fx_toBeTransmitted x ->
   match results with r :: _ => r <> 0 /\ r <> - EAGAIN | [] => False end ->
   (0 <= n \/ n = - EAGAIN) -> fx_toBeTransmitted x' < fx_toBeTransmitted x).
Proof.
  revert x. induction results as [|r results IH]; intros x Hs; cbn [send_loop];
    pose proof Hs as (H1 & H2 & H3 & H4 & H5 & H6 & H7);
    (destruct (Z.eqb_spec (it_count (fx_data x)) 0); [intros [= <- <-]; split_and!; done || lia|]).
  { intros [= <- <-]. split_and!; done. }
  destruct (Z.ltb_spec r 0) as [Hr|Hr]; [intros [= <- <-]; split_and!; try done; lia|].
  set (k := Z.min r (it_count (fx_data x))). set (y := set_data _ _).
  assert (Hy : sending y /\ fx_totalSize y = fx_totalSize x /\
    fx_toBeTransmitted y = fx_toBeTransmitted x - k).
  { unfold y, sending. cbn. rewrite !u64_small by lia. unfold k. split_and!; done || lia. }
  destruct Hy as (Hy & Hyt & Hyb).
  destruct (_ =? 0).
  - intros [= <- <-]. split_and!; try done; lia.
  - intros Hl. destruct (IH y Hy Hl) as (I1 & I2 & I3 & _). split_and!; try done; try lia.
Qed.

Lemma writefile_sendData_ok e (info : FileOpInfo) :
  write_ok (ti_ext info) ->
  exists info' n, __commkit_writefile_sendData e info = Some (info', n) /\ frame info info' /\
    write_ok (ti_ext info') /\ fx_totalSize (ti_ext info') = fx_totalSize (ti_ext info) /\
    (write_left (ti_ext info') <= write_left (ti_ext info))%nat /\
    (send_progress e -> 0 < n -> (write_left (ti_ext info') < write_left (ti_ext info))%nat).
Proof.
  intros Hok. pose proof Hok as (H1 & H2 & H3 & H4 & H5 & H6 & H7). unfold __commkit_writefile_sendData.
  destruct (Z.eqb_spec (fx_toBeTransmitted (ti_ext info)) 0) as [Hz|Hz].
  { do 2 eexists. split; [reflexivity|]. split_and!; try done; lia. }
  set (x := if it_count (fx_data (ti_ext info)) =? 0 then _ else _).
  assert (Hx : sending x /\ fx_totalSize x = fx_totalSize (ti_ext info) /\
    fx_toBeTransmitted x = fx_toBeTransmitted (ti_ext info)).
  { unfold x, sending. destruct (Z.eqb_spec (it_count (fx_data (ti_ext info))) 0); cbn; split_and!; done || lia. }
  destruct Hx as (Hx & Hxt & Hxb). pose proof Hx as (_ & _ & _ & _ & _ & Hxc & _).
  rewrite (proj2 (Z.eqb_neq _ 0)) by lia.
  destruct (send_loop (ie_sends e) x) as [x' n] eqn:El.
  destruct (send_loop_ok _ _ _ _ Hx El) as (S1 & S2 & S3 & S4).
  apply sending_write_ok in S1 as S5. unfold write_left.
  destruct ((n <? 0) && negb (n =? - EAGAIN)) eqn:En;
    [|destruct (Z.eqb_spec (fx_toBeTransmitted x') 0)];
    (do 2 eexists; split; [reflexivity|]; cbn [set_ext ti_ext]; split_and!; try done; try lia).
  intros Hp _. specialize (S4 ltac:(lia) Hp). destruct (Z.ltb_spec n 0), (Z.eqb_spec n (- EAGAIN)); try done;
      destruct S1 as (_ & ? & _); lia.
Qed.

(** Deserialising an answer from the header buffer: it is refused or taken over, without
    faults, when the payload is read without faults. *)
Lemma deserializeFromBuf_no_fault {M} `{NetMessageOps M} g buf n (out : NetMessage M) ty Q :
  0 <= n <= zlen buf -> zlen buf < 2 ^ 32 ->
  (forall this, triple (fun _ => False) (deserializePayload this) Q) ->
  match NetMessageFactory_deserializeFromBuf g buf n out ty with BadRead _ => False | _ => True end.
Proof.
  intros Hn Hb Hp. unfold NetMessageFactory_deserializeFromBuf, mbind, Des_bind.
  assert (Hok : d_ok (MkDeserializeCtx buf 0 n)) by (apply d_ok_start; lia).
  assert (Hpay : forall h c, d_ok c ->
    match (des_check (msgType h =? ty);; __NetMessageFactory_deserializeRaw h out) c with
    | BadRead _ => False | _ => True end).
  { intros h c Hc. unfold mbind, Des_bind, des_check. destruct (msgType h =? ty); [|done].
    unfold __NetMessageFactory_deserializeRaw, mbind, Des_bind, des_check.
    destruct (NetMessage_checkHeaderFeatureFlagsCompat h); [|done].
    specialize (Hp (MkNetMessage h (msgBody out)) c Hc). cbn. by destruct (deserializePayload _ c). }
  destruct (deserializeHeader_cases g _ Hok) as [[Hv ->] | (_ & h & c' & -> & Hc' & _)]; [|by apply Hpay].
  apply Hpay. apply d_advance_ok; [done|]. destruct Hv as (Hv & _). cbn in *. unfold NETMSG_HEADER_LENGTH in *. lia.
Qed.

Section WriteLaws.
Context (se : FileSession) (max : Z).
Hypothesis Hse : session_ok se.

Definition write_state_ok (_ : Z) (x : FileOpFields) : Prop := write_ok x /\ fx_totalSize x <= max.

Lemma writefile_recvHeader_ok e (info : FileOpInfo) :
  header_in info ->
  exists info' n, __commkit_writefile_recvHeader se e info = Some (info', n) /\ frame info info' /\
    ti_ext info' = ti_ext info.
Proof.
  intros [(buf & Hbuf & Hlen) Hsz]. unfold __commkit_writefile_recvHeader. rewrite Hbuf. cbn [mbind option_bind].
  unfold BEEGFS_COMMKIT_MSGBUF_SIZE in *.
  pose proof (deserializeFromBuf_no_fault (ie_header e) buf (ti_headerSize info)
    (NetMessage_init (se_fsuid se) NETMSGTYPE_WriteLocalFileResp (ie_int64Msg e))
    NETMSGTYPE_WriteLocalFileResp (fun _ => True) ltac:(lia) ltac:(lia)) as Hd.
  destruct (NetMessageFactory_deserializeFromBuf _ _ _ _ _) as [resp c| |addr];
    [by do 2 eexists|by do 2 eexists|].
  exfalso. apply Hd. intros this. cbn [deserializePayload]. unfold SimpleInt64Msg_deserializePayload.
  response_safe.
Qed.

(** The table of write requests fulfils the laws of the engine. *)
Lemma writefile_laws :
  OpsLaws (writefileOps se) write_state_ok write_left (Z.to_nat max) send_progress.
Proof.
  constructor; try done.
  - intros r x [(?&?&?&?&?&_) ?]. unfold write_left. lia.
  - intros e info Hb Hr [(H1 & H2 & H3 & H4 & H5 & H6 & H7) Hm].
    destruct (writefile_request_ok se e info Hse) as (H0 & bs & Hw & Hfit).
    destruct (serialize_request_ok _ bs info Hw Hfit H0 Hb) as (buf' & Hreq & Hlen).
    do 2 eexists. cbn [writefileOps op_prepareHeader]. unfold __commkit_writefile_prepareHeader.
    rewrite Hreq. cbn [mbind option_bind]. split; [reflexivity|]. pose proof (zlen_nonneg bs).
    split; [by apply frame_headerBuffer|]. cbn. unfold NETMSG_HEADER_LENGTH in *.
    split; [|lia].
    split; [|done]. unfold write_ok. cbn. split_and!; done || lia.
  - intros f e info [= <-] [Hok Hm].
    destruct (writefile_sendData_ok e info Hok) as (info' & n & S1 & S2 & S3 & S4 & S5 & S6).
    exists info', n. split_and!; try done. split; [done|lia].
  - intros f e info [= <-] Hh Hok.
    destruct (writefile_recvHeader_ok e info Hh) as (info' & n & S1 & S2 & S3).
    exists info', n. split_and!; try done; by rewrite S3.
Qed.
End WriteLaws.

(** ** The calls *)

(** Requests of the callers. *)
Definition request_sized (max : Z) (s : FileOpState) : Prop := 0 <= fo_totalSize s <= max.

(** What describes a request: its size, file offset, part of the buffer and session flag. *)
Definition request_key (x : FileOpFields) : Z * Z * iov_iter * bool :=
  (fx_totalSize x, fx_offset x, fx_vecData x, fx_firstWriteDoneForTarget x).

Lemma fresh_read max s :
  max < 2 ^ 63 -> request_sized max s -> fresh (ok := read_state_ok max) (fileOp_info s).
Proof.
  intros Hm Hs. unfold request_sized in Hs. repeat split; cbn; try done; lia.
Qed.
Lemma fresh_write max s :
  max < 2 ^ 63 -> request_sized max s -> fresh (ok := write_state_ok max) (fileOp_info s).
Proof.
  intros Hm Hs. unfold request_sized in Hs. repeat split; cbn; try done; lia.
Qed.
Lemma fresh_all {ok} (Q : FileOpState -> Prop) states :
  (forall s, Q s -> fresh (ok := ok) (fileOp_info s)) -> Forall Q states ->
  Forall (fresh (ok := ok)) (fileOp_info <$> states).
Proof. intros H Hs. apply Forall_fmap. by eapply list.Forall_impl. Qed.

Lemma request_keeps {M} `{NetMessageOps M} (msg : NetMessage M) (f : FileOpFields -> FileOpFields) info info' n :
  (forall x, request_key (f x) = request_key x) ->
  ('(info, len) ← serialize_request msg info; Some (on_ext f info, len)) = Some (info', n) ->
  same_request request_key info info'.
Proof.
  intros Hf. unfold serialize_request. destruct (NetMessage_serialize _ _ _) as [[[b m] buf]|]; [|done].
  cbn [mbind option_bind]. destruct (NetMessage_getMsgLength m) as [[len m']|]; [|done].
  intros [= <- <-]. split; [done|]. apply Hf.
Qed.

Lemma readfile_keeps se : KeyLaws request_key (readfileOps se).
Proof.
  constructor; try done.
  - intros e info info' n. by apply request_keeps.
  - intros f [= <-] e info info' n. unfold __commkit_readfile_recvdata, __commkit_readfile_recvdata_prefix,
      file_nextIter. cbv zeta. intros Hr.
    repeat (case_match; simplify_eq; try done); by split.
Qed.

Lemma send_loop_key results x : request_key (send_loop results x).1 = request_key x.
Proof.
  revert x. induction results as [|r results IH]; intros x; cbn [send_loop]; destruct (_ =? 0); try done.
  destruct (_ <? 0); [done|]. destruct (_ =? 0); [done|]. by rewrite IH.
Qed.

Lemma writefile_keeps se : KeyLaws request_key (writefileOps se).
Proof.
  constructor; try done.
  - intros e info info' n. by apply request_keeps.
  - intros f [= <-] e info info' n. unfold __commkit_writefile_sendData. cbv zeta.
    destruct (_ =? 0); [by intros [= <- <-]|]. destruct (_ =? 0); [done|].
    match goal with |- context [send_loop ?r ?x] => pose proof (send_loop_key r x) as Hk;
      destruct (send_loop r x) as [y m] end. cbn [fst] in Hk.
    assert (Hy : same_request request_key info (set_ext y info)).
    { split; [done|]. cbn. rewrite Hk. by destruct (_ =? 0). }
    repeat (case_match; simplify_eq; try done); by intros [= <- <-].
  - intros f [= <-] e info info' n. unfold __commkit_writefile_recvHeader, mbind, option_bind.
    repeat (case_match; simplify_eq; try done); by intros [= <- <-].
Qed.

(** The state a request is left in: finished, for its own part of the file and the buffer, with a
    result that is an error code or at most the number of bytes that were stored. *)
Definition read_done (s : FileOpState) (info : FileOpInfo) : Prop :=
  released info /\ ti_targetID info = fo_targetID s /\
  fx_vecData (ti_ext info) = MkIovIter (fo_data s) (fo_totalSize s) /\
  0 <= fx_transmitted (ti_ext info) <= fo_totalSize s /\
  ti_nodeResult info <= fx_transmitted (ti_ext info).

Definition write_done (s : FileOpState) (info : FileOpInfo) : Prop :=
  released info /\ ti_targetID info = fo_targetID s /\
  fx_vecData (ti_ext info) = MkIovIter (fo_data s) (fo_totalSize s) /\
  0 <= fx_transmitted (ti_ext info) <= fo_totalSize s.

(** The results of a call, request by request. *)
Lemma results_of {ops : CommKitContextOps FileOpFields IOEnv} {ok} (R : FileOpState -> FileOpInfo -> Prop) cfg pat env fuel states :
  KeyLaws request_key ops ->
  (forall s info, released info -> ok (ti_nodeResult info) (ti_ext info) ->
     same_request request_key (fileOp_info s) info -> R s info) ->
  finished (ok := ok) (length (fileOp_info <$> states))
    (FhgfsOpsCommkit_communicate ops cfg pat env fuel (fileOp_info <$> states)) ->
  exists c infos, FhgfsOpsCommkit_communicate ops cfg pat env fuel (fileOp_info <$> states) =
    CK_Returned c infos /\ cc_numAcquiredConns c = 0 /\ Forall2 R states infos.
Proof.
  intros Hk HR (c & infos & Hret & _ & Hacq & Hrel & Hok). exists c, infos. split_and!; [done..|].
  pose proof (loop_same request_key ops cfg pat Hk env fuel 0 _ _ _ _ Hret) as Hsame.
  apply Forall2_same_length_lookup. split.
  { apply Forall2_length in Hsame. by rewrite length_fmap in Hsame. }
  intros j s info Hs Hi. apply HR.
  - by apply (Forall_lookup_1 _ _ _ _ Hrel Hi).
  - apply (Forall_lookup_1 _ _ _ _ Hok Hi).
  - eapply (Forall2_lookup_lr _ _ _ _ _ _ Hsame); [|done]. by rewrite list_lookup_fmap, Hs.
Qed.

Lemma read_done_of max s info :
  released info -> read_state_ok max (ti_nodeResult info) (ti_ext info) ->
  same_request request_key (fileOp_info s) info -> read_done s info.
Proof.
  intros Hr [(Ht & Hb & Hv & _ & _ & Hn) _] [Hid Hk]. unfold request_key in Hk. cbn in Hk.
  injection Hk as Hts _ Hvd _. unfold read_done. rewrite Hid, Hvd. split_and!; done || lia.
Qed.
Lemma write_done_of max s info :
  released info -> write_state_ok max (ti_nodeResult info) (ti_ext info) ->
  same_request request_key (fileOp_info s) info -> write_done s info.
Proof.
  intros Hr [(Ht & Hb & Hm & Hs & Hle & Hv & _) _] [Hid Hk]. unfold request_key in Hk. cbn in Hk.
  injection Hk as Hts _ Hvd _. unfold write_done. rewrite Hid, Hvd. split_and!; done || lia.
Qed.

(** *** Regimes *)

(** With unmirrored files and buddy fallback as the only reason to switch, the number of
    retries is never reset. *)
Lemma unmirrored_never_resets se (r : RoundEnv IOEnv) :
  mirrored se = false -> never_resets (ops := readfileOps se) (Some (se_patternType se)) r.
Proof.
  intros Hm infos. assert (Hb : isBuddyMirror (Some (se_patternType se)) = false) by exact Hm.
  assert (Hone : forall plan info plan' (info' : FileOpInfo), rp_resetRetries plan = false ->
    retry_one (Some (se_patternType se)) (re_states r) (re_buddies r) CK_RETRY_BUDDY_FALLBACK plan info =
      Some (plan', info') -> rp_resetRetries plan' = false).
  { intros plan info plan' info' Hp. unfold retry_one, select_target. rewrite Hb. cbv zeta.
    rewrite Z.eqb_refl. unfold TargetStateStore_getState.
    change (Z.land CK_RETRY_BUDDY_FALLBACK CK_RETRY_LOOP_EAGAIN =? 0) with true. rewrite andb_false_r.
    destruct (re_states r !! ti_targetID info) as [st|]; cbn; [|done].
    destruct (_ && _); [done|].
    destruct ((cts_consistencyState st =? TargetConsistencyState_GOOD) &&
      (cts_reachabilityState st =? TargetReachabilityState_ONLINE)); cbn; rewrite ?andb_false_r; by intros [= <- <-]. }
  enough (Hl : forall infos plan, rp_resetRetries plan = false ->
    rp_resetRetries (retry_loop (Some (se_patternType se)) (re_states r) (re_buddies r)
      CK_RETRY_BUDDY_FALLBACK plan (infos : list FileOpInfo)).1 = false) by by apply Hl.
  clear infos. intros infos. induction infos as [|x infos IH]; intros plan Hp; cbn [retry_loop]; [done|].
  destruct (bool_decide _).
  - destruct (retry_one _ _ _ _ plan x) as [[plan1 y]|] eqn:Ey; [|done]. apply Hone in Ey; [|done].
    specialize (IH plan1 Ey). by destruct (retry_loop _ _ _ _ plan1 infos).
  - specialize (IH plan Hp). by destruct (retry_loop _ _ _ _ plan infos).
Qed.

(** What the socket layer and the pools promise in a round. *)
Definition round_served (io : IOEnv -> Prop) (r : RoundEnv IOEnv) : Prop :=
  (forall i, env_ok (re_target r i)) /\ (forall i, io_live (io_ok := io) (re_target r i)) /\ poll_ok r.

(** A fatal signal is pending. *)
Definition round_killed (r : RoundEnv IOEnv) : Prop :=
  forall i, te_signal_io (re_target r i) = true /\ te_signal_cleanup (re_target r i) = true.

Lemma killed_round_ok {ops : CommKitContextOps FileOpFields IOEnv} {io} cfg pat r :
  (forall i, env_ok (re_target r i)) -> round_killed r ->
  round_ok (ops := ops) (io_ok := io) cfg pat true r.
Proof.
  intros He Hk. split_and!; [done| |done]. intros i Hs. destruct (Hk i) as [Hi _]. congruence.
Qed.

(** Number of rounds for [n] requests of at most [max] bytes. *)
Definition read_rounds (cfg : CommKitConfig) (max : Z) (n : nat) : nat :=
  rounds_enough (bound := Z.to_nat (2 * max + 1)) cfg false n.
Definition killed_rounds (max : Z) (n : nat) : nat :=
  (2 * rounds_per_try (bound := Z.to_nat (2 * max + 1)) n)%nat.

(** *** Termination *)

(** C7: a read of chunk data from any number of targets returns: for a file that is not mirrored, or with
    retries disabled, with a limited number of retries (or none), a time-out for messages that is not zero and a socket layer that reports errors
    and makes progress in every round, the loop ends after at most [read_rounds] rounds, without a kernel
    fault.  All targets are done and no connection, node reference or header buffer is left behind.  The results belong to the
    requests, in their order: each is an error code or at most the number of bytes that
    were stored, and these never exceed the request's part of the buffer. *)
Theorem readfile_communicate_returns se cfg env states max fuel :
  session_ok se -> config_ok cfg false ->
  mirrored se = false \/ cfg_connRetriesEnabled cfg = false ->
  (forall k, round_served recv_progress (env k)) ->
  Forall (request_sized max) states -> max < 2 ^ 63 -> zlen states < 2 ^ 31 ->
  (read_rounds cfg max (length states) <= fuel)%nat ->
  exists c infos,
    FhgfsOpsCommKit_readfileV2bCommunicate se cfg env fuel (fileOp_info <$> states) = CK_Returned c infos /\
    cc_numAcquiredConns c = 0 /\ Forall2 read_done states infos.
Proof.
  intros Hse Hcfg Hre Henv Hst Hmax Hn Hfuel. unfold FhgfsOpsCommKit_readfileV2bCommunicate.
  apply (results_of _ _ _ _ _ _ (readfile_keeps se) (read_done_of max)).
  destruct (communicate_returns (readfile_laws se max Hse) cfg (Some (se_patternType se)) false env
    (fileOp_info <$> states) fuel) as [Hfin|Hst']; try done.
  - intros k. destruct (Henv k) as (H1 & H2 & H3). split_and!; [done..|]. intros He.
    destruct Hre as [Hm|Hr]; [by apply unmirrored_never_resets|congruence].
  - eapply fresh_all; [|exact Hst]. intros s. by apply fresh_read.
  - unfold zlen in *. by rewrite length_fmap.
  - by rewrite length_fmap.
  - by apply not_stopped in Hst'.
Qed.

(** A round of a working system: target 1 is online, the request is sent, an answer of
    [len] bytes and its data arrive. *)
Definition ck_io_example (len : Z) : IOEnv :=
  MkIOEnv (MkNetMessageHeader 0 0 0 0 0 0 0 0 0)
    (MkWriteLocalFileMsg 0 0 0 0 [] 0 0 (MkPathInfo 0 0 None) 0 0) (MkSimpleIntStringMsg 0 [] 0)
    (MkSimpleInt64Msg 0) (MkStatStoragePathRespMsg 0 0 0 0 0)
    [Recv (le_split 8 len)] (Recv (replicate 5 Byte.x41)) [3; 4].
Definition target_example (signal : bool) (headerLen : Z) (io : IOEnv) : TargetEnv IOEnv :=
  MkTargetEnv signal signal signal true true
    (fun _ => Some (replicate (Z.to_nat BEEGFS_COMMKIT_MSGBUF_SIZE) Byte.x00))
    {[1 := MkCombinedTargetState TargetReachabilityState_ONLINE TargetConsistencyState_GOOD]} ∅
    (fun _ => inr 7) (fun _ => true) headerLen (RecvErr 11) 0 (RecvErr 11) 0 io.
Definition round_example (signal : bool) (headerLen : Z) (io : IOEnv) : RoundEnv IOEnv :=
  MkRoundEnv (fun _ => target_example signal headerLen io) None (fun _ => Z.lor POLLIN POLLOUT)
    {[1 := MkCombinedTargetState TargetReachabilityState_ONLINE TargetConsistencyState_GOOD]} ∅.
Definition session_example : FileSession :=
  MkFileSession 1000 5 [Byte.x41] (MkPathInfo 0 0 None) 0 1000 1000 STRIPEPATTERN_Raid0 false true false.
Definition config_example : CommKitConfig := MkCommKitConfig true 3 1000.
Definition read_example : FileOpState := MkFileOpState 0 10 1 0 false 0 false.

Lemma target_example_ok signal headerLen io : env_ok (target_example signal headerLen io).
Proof.
  split_and!; try done. intros w buf [= <-]. vm_compute. done.
Qed.

(** The length field says 5, the data follows, and a length field of zero ends the answer. *)
Example read_example_runs :
  match FhgfsOpsCommKit_readfileV2bCommunicate session_example config_example
    (fun k => round_example false 78 (ck_io_example (if decide (k < 5)%nat then 5 else 0))) 8 [fileOp_info read_example] with
  | CK_Returned c [info] => ti_nodeResult info = 10 /\ cc_numDone c = 1
  | _ => False
  end.
Proof. vm_compute. done. Qed.

Lemma readfile_communicate_returns_witness :
  exists c infos,
    FhgfsOpsCommKit_readfileV2bCommunicate session_example config_example
      (fun _ => round_example false 78 (ck_io_example 5)) (read_rounds config_example 10 1)
      (fileOp_info <$> [read_example]) = CK_Returned c infos /\
    cc_numAcquiredConns c = 0 /\ Forall2 read_done [read_example] infos.
Proof.
  apply (readfile_communicate_returns _ _ _ _ 10).
  - split; [done|]. done.
  - split_and!; done.
  - by left.
  - intros k. split_and!; [intros i; apply target_example_ok|done|].
    intros j events [-> | ->]; done.
  - repeat constructor; done.
  - done.
  - done.
  - done.
Defined.

(** *** Invariant *)

(** The books of a call: how many targets are in which stage. *)
Definition books (n : nat) (c : CommKitContext) (infos : list FileOpInfo) : Prop :=
  length infos = n /\
  cc_numDone c = sumZ isDone infos /\ cc_numRetryWaiters c = sumZ isRetry infos /\
  cc_numAcquiredConns c = sumZ holds infos /\
  cc_numRetryWaiters c + cc_numDone c + cc_numUnconnectable c + cc_numBufferless c + cc_numPollSocks c <= zlen infos.

Definition books_ok (n : nat) (o : CommKitOutcome) : Prop :=
  match o with
  | CK_Running c infos => books n c infos
  | CK_Returned c infos => books n c infos /\ Forall (fun info => ti_state info = CommKitState_DONE) infos
  | CK_Bug => False
  end.

Lemma outcome_books {ops ok cfg} n o :
  outcome_inv (E := IOEnv) (ops := ops) (ok := ok) cfg n o -> books_ok n o.
Proof.
  assert (Hb : forall c infos, inv (E := IOEnv) (ops := ops) (ok := ok) cfg c infos -> length infos = n ->
    books n c infos).
  { intros c infos (_ & (Hd & Hr & Ha) & _ & _ & (H1 & H2 & H3 & Hw)) Hl. unfold waiting in Hw.
    split_and!; try done. lia. }
  destruct o as [c infos| |c infos]; cbn.
  - intros (Hl & Hi & Hd). split; [by apply Hb|]. apply sumZ_all in Hd; [|apply isDone_01].
    eapply list.Forall_impl; [exact Hd|]. intros x. unfold isDone. by case_decide.
  - done.
  - intros [Hl Hi]. by apply Hb.
Qed.

(** C8: the books of reads and writes.  After any number of rounds, whatever the sockets, pools, signals and maps answer
    (also when a peer stops sending), a read has not run into a kernel fault and its books
    are exact: finished targets, targets that wait for a retry and connections that are held
    are counted once each, and the sum that is compared with the number of targets counts
    no target twice.  The same holds of a write, unless a target has left the enumerated stages: then
    the loop stops the kernel.  (It does not hold of an fsync: [fsync_without_work_underflows].) *)
Theorem communicate_books se cfg env states max fuel :
  session_ok se -> (forall k i, env_ok (re_target (env k) i)) ->
  Forall (request_sized max) states -> max < 2 ^ 63 -> zlen states < 2 ^ 31 ->
  let infos := fileOp_info <$> states in
  books_ok (length states) (FhgfsOpsCommKit_readfileV2bCommunicate se cfg env fuel infos) /\
  (books_ok (length states) (FhgfsOpsCommKit_writefileV2bCommunicate se cfg env fuel infos) \/
   FhgfsOpsCommKit_writefileV2bCommunicate se cfg env fuel infos = CK_Bug /\
   exists k c' infos', FhgfsOpsCommKit_writefileV2bCommunicate se cfg env k infos = CK_Running c' infos' /\
     Exists is_other infos').
Proof.
  intros Hse Henv Hst Hmax Hn infos.
  assert (Hlen : length infos = length states) by apply length_fmap.
  assert (Hz : zlen infos < 2 ^ 31) by (unfold zlen in *; lia). rewrite <- Hlen. split.
  - assert (Hf : Forall (fresh (ok := read_state_ok max)) infos).
    { eapply fresh_all; [|exact Hst]. intros s. by apply fresh_read. }
    destruct (loop_inv (readfile_laws se max Hse) cfg (Some (se_patternType se)) env Henv fuel 0
      initial_context infos (fresh_inv cfg _ Hf) Hz) as [Hi|Hs]; [by eapply outcome_books|].
    by apply not_stopped in Hs.
  - assert (Hf : Forall (fresh (ok := write_state_ok max)) infos).
    { eapply fresh_all; [|exact Hst]. intros s. by apply fresh_write. }
    destruct (loop_inv (writefile_laws se max Hse) cfg (Some (se_patternType se)) env Henv fuel 0
      initial_context infos (fresh_inv cfg _ Hf) Hz) as [Hi | [Hb (k & c' & l & Hk & _ & Ho)]].
    + left. by eapply outcome_books.
    + right. split; [done|]. by exists k, c', l.
Qed.

Lemma communicate_books_witness :
  books_ok 1 (FhgfsOpsCommKit_readfileV2bCommunicate session_example config_example
    (fun _ => round_example false 78 (ck_io_example 5)) 2 (fileOp_info <$> [read_example])).
Proof.
  apply (communicate_books session_example config_example (fun _ => round_example false 78 (ck_io_example 5))
    [read_example] 10 2).
  - done.
  - intros k i. apply target_example_ok.
  - repeat constructor; done.
  - done.
  - done.
Defined.

(** *** Liveness *)

(** C9: with a time-out for messages that is not zero, once a fatal signal is pending (from round [k0] on), a read ends
    within [killed_rounds] more rounds, whatever happened before, with unlimited
    retries too, and whatever the sockets answer; all targets are done and nothing is held.  The same
    holds of a write, or some target of it has left the enumerated stages in one of the rounds, which
    stops the kernel. *)
Theorem killed_communicate_returns se cfg env k0 states max fuel :
  session_ok se -> config_ok cfg true ->
  (forall k i, env_ok (re_target (env k) i)) -> (forall k, (k0 <= k)%nat -> round_killed (env k)) ->
  Forall (request_sized max) states -> 0 <= max < 2 ^ 63 -> zlen states < 2 ^ 31 ->
  (k0 + killed_rounds max (length states) <= fuel)%nat ->
  let infos := fileOp_info <$> states in
  (exists c infos', FhgfsOpsCommKit_readfileV2bCommunicate se cfg env fuel infos = CK_Returned c infos' /\
     cc_numAcquiredConns c = 0 /\ Forall2 read_done states infos') /\
  ((exists c infos', FhgfsOpsCommKit_writefileV2bCommunicate se cfg env fuel infos = CK_Returned c infos' /\
     cc_numAcquiredConns c = 0 /\ Forall2 write_done states infos') \/
   exists k c' infos', FhgfsOpsCommKit_writefileV2bCommunicate se cfg env k infos = CK_Running c' infos' /\
     Exists is_other infos').
Proof.
  intros Hse Hcfg Henv Hkill Hst Hmax Hn Hfuel infos.
  assert (Hlen : length infos = length states) by apply length_fmap.
  assert (Hz : zlen infos < 2 ^ 31) by (unfold zlen in *; lia). unfold killed_rounds in Hfuel. rewrite <- Hlen in Hfuel.
  split.
  - apply (results_of _ _ _ _ _ _ (readfile_keeps se) (read_done_of max)).
    destruct (killed_returns (readfile_laws se max Hse) cfg (Some (se_patternType se)) env k0 infos fuel)
      as [Hfin|Hs]; try done.
    + intros k Hk. apply killed_round_ok; auto.
    + eapply fresh_all; [|exact Hst]. intros s Hs. apply fresh_read; [lia|done].
    + by apply not_stopped in Hs.
  - destruct (killed_returns (writefile_laws se max Hse) cfg (Some (se_patternType se)) env k0 infos fuel)
      as [Hfin | [_ (k & c' & l & Hk & _ & Ho)]]; try done.
    + intros k Hk. apply killed_round_ok; auto.
    + eapply fresh_all; [|exact Hst]. intros s Hs. apply fresh_write; [lia|done].
    + unfold rounds_per_try, top in *. nia.
    + left. apply (results_of _ _ _ _ _ _ (writefile_keeps se) (write_done_of max)). done.
    + right. by exists k, c', l.
Qed.

Lemma killed_communicate_returns_witness :
  let env := fun k => round_example (bool_decide (3 <= k)%nat) 78 (ck_io_example 5) in
  exists c infos', FhgfsOpsCommKit_readfileV2bCommunicate session_example (MkCommKitConfig true 0 1000) env
      (3 + killed_rounds 10 1) (fileOp_info <$> [read_example]) = CK_Returned c infos' /\
     cc_numAcquiredConns c = 0 /\ Forall2 read_done [read_example] infos'.
Proof.
  intros env. apply (killed_communicate_returns session_example (MkCommKitConfig true 0 1000) env 3 [read_example] 10).
  - done.
  - split_and!; done.
  - intros k i. apply target_example_ok.
  - intros k Hk i. unfold env. rewrite bool_decide_eq_true_2 by done. done.
  - repeat constructor; done.
  - done.
  - done.
  - done.
Defined.

(** ** Where the kit differs from its comments *)

(** The length field of a received header, at the start of the buffer. *)
Lemma extract_spliced_length data buf :
  4 <= zlen data -> zlen data <= zlen buf ->
  exists ctx, NetMessage_extractMsgLengthFromBuf (splice 0 data buf) = Done (le_combine (take 4 data)) ctx.
Proof.
  intros H4 Hle. unfold NetMessage_extractMsgLengthFromBuf, Serialization_deserializeUInt,
    __Serialization_deserializeRaw. cbn [d_length d_mem d_data].
  rewrite load_in; [|lia|lia|unfold zlen in *; rewrite length_splice; lia].
  eexists. do 2 f_equal. unfold splice. rewrite take_0, drop_0. cbn [app Z.to_nat].
  rewrite take_app_le by (unfold zlen in *; lia). done.
Qed.

(** C10: an answer whose length field announces more bytes than the header buffer holds is
    meant to invalidate the connection; but the stage is set to the negated enumerator, and the
    next visit of the target stops the kernel, whatever has happened in between. *)
Theorem oversized_answer_bug se cfg pat i e c (info : FileOpInfo) sk data :
  ti_state info = CommKitState_RECVHEADER -> connected info -> ti_headerSize info = 0 ->
  te_signal_io e = false -> te_active_io e = true -> cc_pollTimedOut c = false ->
  ti_socket info = Some sk -> Z.land (sk_revents sk) POLLIN <> 0 ->
  te_recv1 e = Recv data -> zlen data = NETMSG_MIN_LENGTH ->
  BEEGFS_COMMKIT_MSGBUF_SIZE < le_combine (take 4 data) ->
  exists info', commkit_step (writefileOps se) cfg pat i e c info = Some (c, info') /\
    ti_state info' = CommKitState_Other (-5) /\ ti_nodeResult info' = - FhgfsOpsErr_COMMUNICATION /\
    forall j e' c', commkit_step (writefileOps se) cfg pat j e' c' info' = None.
Proof.
  intros Hs ([n Hn] & _ & (buf & Hbuf & Hlen) & _) H0 Hsig Hact Hto Hsk Hev Hrecv Hdata Hbig.
  unfold NETMSG_MIN_LENGTH, NETMSG_HEADER_LENGTH, BEEGFS_COMMKIT_MSGBUF_SIZE in *.
  set (x := set_headerSize 40 (set_headerBuffer (Some (splice 0 data buf))
    (set_socket (Some (MkSocket (sk_events sk) (te_revents1 e))) info))).
  assert (Hr : recv_header (Recv data) (te_revents1 e) (40 - 0) info = Some (x, 40)).
  { unfold recv_header. rewrite Hbuf, Hsk. cbn [mbind option_bind set_socket ti_headerSize]. rewrite H0.
    rewrite (take_ge data) by (unfold zlen in *; lia). by rewrite Hdata, Hlen. }
  unfold commkit_step at 1. rewrite Hs. unfold case_recvheader. cbn [writefileOps op_recvHeader].
  unfold __commkit_recvheader_generic, __commkit_prepare_io.
  rewrite Hsig, Hn, Hact, Hto, Hsk. cbn [mbind option_bind negb].
  rewrite (proj2 (Z.eqb_neq _ 0) Hev). cbn [mbind option_bind negb].
  unfold NETMSG_MIN_LENGTH, NETMSG_HEADER_LENGTH. rewrite H0, Hrecv, Hr.
  cbn [Z.ltb Z.compare mbind option_bind andb Z.leb].
  change (ti_headerBuffer x) with (Some (splice 0 data buf)). cbn [mbind option_bind].
  destruct (extract_spliced_length data buf ltac:(lia) ltac:(lia)) as [ctx Hx]. rewrite Hx.
  unfold BEEGFS_COMMKIT_MSGBUF_SIZE. rewrite (proj2 (Z.ltb_lt _ _) Hbig).
  eexists. split; [reflexivity|]. done.
Qed.

Definition oversized_header : list byte := le_split 4 5000 ++ replicate 36 Byte.x00.
Definition answer_example : FileOpInfo :=
  MkCommKitTargetInfo CommKitState_RECVHEADER
    (Some (replicate (Z.to_nat BEEGFS_COMMKIT_MSGBUF_SIZE) Byte.x00)) 1 1 false (Some 7)
    (Some (MkSocket POLLIN POLLIN)) 0 (- FhgfsOpsErr_COMMUNICATION)
    (MkFileOpFields 10 0 10 (MkIovIter 10 0) 0 false false (MkIovIter 0 10)).

Lemma oversized_answer_bug_witness :
  let e := MkTargetEnv false false false true true (fun _ => None) ∅ ∅ (fun _ => inr 7) (fun _ => true) 0
    (Recv oversized_header) 0 (RecvErr 11) 0 (ck_io_example 0) in
  exists info', commkit_step (writefileOps session_example) config_example (Some STRIPEPATTERN_Raid0) 0 e
      initial_context answer_example = Some (initial_context, info') /\
    ti_state info' = CommKitState_Other (-5) /\ ti_nodeResult info' = - FhgfsOpsErr_COMMUNICATION /\
    forall j e' c', commkit_step (writefileOps session_example) config_example (Some STRIPEPATTERN_Raid0) j
      e' c' info' = None.
Proof.
  intros e. apply (oversized_answer_bug session_example config_example (Some STRIPEPATTERN_Raid0) 0 e
    initial_context answer_example (MkSocket POLLIN POLLIN) oversized_header); try done.
  split; [by eexists|]. split; [by eexists|]. split; [|done]. eexists. split; [reflexivity|]. vm_compute. done.
Defined.

(** A peer that closes the connection in the middle of the data: the read neither ends nor
    reports an error, it spins. *)
Definition closed_io : IOEnv :=
  MkIOEnv (ie_header (ck_io_example 5)) (ie_writeMsg (ck_io_example 5)) (ie_genericMsg (ck_io_example 5))
    (ie_int64Msg (ck_io_example 5)) (ie_statMsg (ck_io_example 5)) [Recv (le_split 8 5)] (Recv []) [].

Theorem closed_connection_spins fuel :
  exists c infos, FhgfsOpsCommKit_readfileV2bCommunicate session_example config_example
    (fun _ => round_example false 78 closed_io) fuel [fileOp_info read_example] = CK_Running c infos.
Proof.
  set (env := fun _ : nat => round_example false 78 closed_io).
  unfold FhgfsOpsCommKit_readfileV2bCommunicate, FhgfsOpsCommkit_communicate.
  set (loop := commkit_loop _ _ _ env).
  assert (Hfix : exists c infos, loop 3%nat 0%nat initial_context [fileOp_info read_example] = CK_Running c infos /\
    commkit_round (readfileOps session_example) config_example (Some (se_patternType session_example))
      (round_example false 78 closed_io) c infos = Some (c, infos) /\ (cc_numDone c =? zlen infos) = false).
  { let r := eval vm_compute in (loop 3%nat 0%nat initial_context [fileOp_info read_example]) in
      match r with CK_Running ?c ?l => exists c, l end.
    split_and!; vm_compute; reflexivity. }
  destruct Hfix as (c & infos & H3 & Hround & Hnd).
  assert (Hspin : forall k round, loop k round c infos = CK_Running c infos).
  { induction k as [|k IH]; intros round; [done|]. unfold loop. cbn [commkit_loop].
    unfold env at 1. rewrite Hround, Hnd. apply IH. }
  destruct (decide (fuel < 3)%nat) as [Hlt|Hge].
  - destruct fuel as [|[|[|]]]; [vm_compute; by do 2 eexists..|lia].
  - exists c, infos. replace fuel with (3 + (fuel - 3))%nat by lia.
    unfold loop. rewrite loop_add. fold loop. rewrite H3. apply Hspin.
Qed.

(** An fsync that has nothing to do on the server prepares no message; its connection was
    not counted when it was acquired, but is when it is released: the unsigned counter of
    held connections wraps around. *)
Theorem fsync_without_work_underflows :
  let env := fun _ : nat => round_example false 0 (ck_io_example 0) in
  match FhgfsOpsCommKit_fsyncCommunicate session_example (MkFsyncContext 0 false false false) config_example
    env 3 [FhgfsOpsCommKit_initFsyncState 1] with
  | CK_Returned c [info] => cc_numAcquiredConns c = 2 ^ 32 - 1 /\ ti_nodeResult info = FhgfsOpsErr_SUCCESS
  | _ => False
  end.
Proof. vm_compute. done. Qed.

(** A server that asks to try again: the code is returned as a positive number, which the
    engine takes for success, so the result stays the communication error it was
    initialised with. *)
Definition try_again_answer : option (list byte) :=
  '(_, _, buf) ← NetMessage_serialize (NetMessage_init 0 NETMSGTYPE_GenericResponse
      (MkSimpleIntStringMsg GenericRespMsgCode_TRYAGAIN [] 0))
    (Some (replicate (Z.to_nat BEEGFS_COMMKIT_MSGBUF_SIZE) Byte.x00)) BEEGFS_COMMKIT_MSGBUF_SIZE;
  buf.

Theorem try_again_is_not_reported :
  let info := MkCommKitTargetInfo CommKitState_RECVHEADER try_again_answer 1 1 false (Some 7)
    (Some (MkSocket POLLIN POLLIN)) 49 (- FhgfsOpsErr_COMMUNICATION) false in
  __commkit_fsync_recvHeader session_example (ck_io_example 0) info = Some (info, FhgfsOpsErr_AGAIN) /\
  retryable (fsyncOps session_example (MkFsyncContext 0 true true true)) (ti_nodeResult info) = true /\
  ti_nodeResult info <> - FhgfsOpsErr_AGAIN.
Proof. vm_compute. done. Qed.

(** The functions of an fsync never change the flag that says whether the target was written to... *)
Lemma fsync_keeps se fctx : KeyLaws (fun written : bool => written) (fsyncOps se fctx).
Proof.
  constructor; try done.
  - intros f info st info' a [= <-]. unfold __commkit_fsync_selectedTargetBad.
    repeat case_match; by intros [= <- <-].
  - intros e info info' n. cbn [fsyncOps op_prepareHeader]. unfold __commkit_fsync_prepareHeader, serialize_request.
    destruct (_ && _); [by intros [= <- <-]|].
    destruct (NetMessage_serialize _ _ _) as [[[b m] buf]|]; [|done]. cbn [mbind option_bind].
    destruct (NetMessage_getMsgLength m) as [[len m']|]; [|done]. by intros [= <- <-].
  - intros f [= <-] e info info' n. unfold __commkit_fsync_recvHeader, mbind, option_bind.
    repeat (case_match; simplify_eq; try done); by intros [= <- <-].
Qed.

(** ... and it is never set: no fsync request asks the servers for a session check, although
    the callers request it ([checkSession]). *)
Theorem fsync_session_check_never_sent se fctx cfg env fuel targetIDs k c infos :
  FhgfsOpsCommKit_fsyncCommunicate se fctx cfg env fuel (fsync_states se targetIDs) = CK_Returned c infos ->
  infos !! k <> None ->
  forall info, (fsync_states se targetIDs !! k = Some info \/ infos !! k = Some info) ->
  Z.land (msgFeatureFlags (msgHeader (fsync_request se fctx info))) FSYNCLOCALFILEMSG_FLAG_SESSION_CHECK = 0.
Proof.
  intros Hret Hk info Hinfo.
  assert (Hinit : Forall (fun info => ti_ext info = false) (fsync_states se targetIDs)).
  { unfold fsync_states. apply Forall_app. split; [by apply Forall_fmap, Forall_true|].
    destruct (mirrored se); [by apply Forall_fmap, Forall_true|constructor]. }
  assert (Hext : ti_ext info = false).
  { destruct Hinfo as [Hi|Hi]; [by apply (Forall_lookup_1 _ _ _ _ Hinit Hi)|].
    pose proof (loop_same (fun b : bool => b) _ _ _ (fsync_keeps se fctx) env fuel 0 _ _ _ _ Hret) as Hsame.
    destruct (Forall2_lookup_r _ _ _ _ _ Hsame Hi) as (info0 & H0 & [_ ->]).
    by apply (Forall_lookup_1 _ _ _ _ Hinit H0). }
  unfold fsync_request. rewrite Hext, andb_false_r. cbv zeta. cbn [andb add_flag_if].
  destruct (mirrored se), (ti_useBuddyMirrorSecond info), (fc_forceRemoteFlush fctx), (fc_doSyncOnClose fctx); done.
Qed.
