(* ===== verification/Nics.v ===== *)
(** * Network interfaces: addresses, filters, lists, times

    Models [common/net/sock/NicAddress.h], [NicAddressList.c], [NetworkInterfaceCard.c],
    [common/toolkit/NetFilter.c], [NicAddressFilter.c], [ListTk.c] and [Time.h] of
    [client_module/source].

    An IPv6 address is its 16 bytes in network order.  The text conversions of the kernel
    ([in4_pton], [in6_pton], [kstrtou8]), its [sort] and the state of its network devices
    are parameters.  [os_kmalloc] does not return on failure; [kmalloc] does, and is a
    parameter.  Log output is left out. *)

From S2P Require Import Prelude Serialization.

Definition NICADDRTYPE_STANDARD : Z := 0.
Definition NICADDRTYPE_RDMA : Z := 2.

Definition AF_INET : Z := 2.
Definition AF_INET6 : Z := 10.
Definition SIZE_MAX : Z := 2 ^ 64 - 1.

Definition in6addr_any : list byte := replicate 16 Byte.x00.
Definition in6addr_loopback : list byte := replicate 15 Byte.x00 ++ [Byte.x01].
(** [htonl(INADDR_LOOPBACK)], 127.0.0.1, as it lies in memory. *)
Definition INADDR_LOOPBACK : list byte := [Byte.x7f; Byte.x00; Byte.x00; Byte.x01].
Definition ipv6_addr_equal (a b : list byte) : bool := bool_decide (a = b).
Definition ipv6_addr_any (a : list byte) : bool := bool_decide (a = in6addr_any).

(** ** Times

    Seconds and nanoseconds of the kernel's monotonic clock, 64-bit signed; the nanoseconds
    of a clock value are below one billion. *)

Record Time := MkTime { tv_sec : Z; tv_nsec : Z }.

Definition Time_initZero : Time := MkTime 0 0.

Definition Time_getIsZero (this : Time) : bool :=
  (tv_sec this =? 0) && (tv_sec this =? 0).

Definition Time_elapsedSinceMS (this earlierT : Time) : Z :=
  let secs := u32 ((tv_sec this - tv_sec earlierT) * 1000) in
  let micros := s32 (Z.quot (tv_nsec this - tv_nsec earlierT) 1000000) in
  u32 (secs + micros).

Definition Time_elapsedSinceNS (this earlierT : Time) : Z :=
  let secs := u64 ((tv_sec this - tv_sec earlierT) * 1000000000) in
  let nanos := tv_nsec this - tv_nsec earlierT in
  u64 (secs + nanos).

Definition Time_toNS (this : Time) : Z := u64 (tv_sec this * 1000000000 + tv_nsec this).

Definition Time_compare (this o : Time) : Z :=
  let diff := s64 (Time_toNS this - Time_toNS o) in
  if diff <? 0 then -1 else if 0 <? diff then 1 else 0.

(** [now] is the clock at the call. *)
Definition Time_elapsedMS (now this : Time) : Z := Time_elapsedSinceMS now this.

(** ** NIC lists *)

Definition NicAddress_equals (this other : NicAddress) : bool :=
  ipv6_addr_equal (nic_ipAddr this) (nic_ipAddr other) &&
  (nic_nicType this =? nic_nicType other) &&
  bool_decide (cstr (nic_name this) = cstr (nic_name other)).

Fixpoint nics_equal (this other : list NicAddress) : bool :=
  match this, other with
  | a :: this', b :: other' => if NicAddress_equals a b then nics_equal this' other' else false
  | _, _ => true
  end.
Definition NicAddressList_equals (this other : list NicAddress) : bool :=
  if zlen this =? zlen other then nics_equal this other else false.

Fixpoint ListTk_cloneNicAddressList (nicList : list NicAddress) (includeTcp : bool)
    : list NicAddress :=
  match nicList with
  | [] => []
  | nicAddr :: nicList' =>
      if includeTcp || negb (nic_nicType nicAddr =? NICADDRTYPE_STANDARD)
      then nicAddr :: ListTk_cloneNicAddressList nicList' includeTcp
      else ListTk_cloneNicAddressList nicList' includeTcp
  end.

Fixpoint list_contains_from (outPos : Z) (searchStr : list byte) (l : list (list byte))
    : bool * Z :=
  match l with
  | [] => (false, -1)
  | currentElem :: l' =>
      if decide (cstr searchStr = cstr currentElem) then (true, outPos)
      else list_contains_from (outPos + 1) searchStr l'
  end.
Definition ListTk_listContains (searchStr : list byte) (l : list (list byte)) : bool * Z :=
  list_contains_from 0 searchStr l.

Fixpoint NIC_supportsRDMA (nicList : list NicAddress) : bool :=
  match nicList with
  | [] => false
  | nic :: nicList' =>
      if nic_nicType nic =? NICADDRTYPE_RDMA then true else NIC_supportsRDMA nicList'
  end.

(** ** The net filter *)

(** [b & c] of two bytes; the masking of four 32-bit words is byte by byte. *)
Definition byte_land (b c : byte) : byte :=
  byte.of_Z (Z.land (byte.unsigned b) (byte.unsigned c)).
Definition beegfs_mask_in6_addr (a b : list byte) : list byte := zip_with byte_land a b.

Definition mask_byte (prefix_len i : Z) : byte :=
  if prefix_len <? 8 * i then Byte.x00
  else if 8 * (i + 1) <=? prefix_len then Byte.xff
  else byte.of_Z (u8 (Z.shiftl 0xff (8 * (i + 1) - prefix_len))).
(** [None]: the BUG_ON. *)
Definition beegfs_make_in6_addr_mask_from_prefix (prefix_len : Z) : option (list byte) :=
  if (0 <=? prefix_len) && (prefix_len <=? 128)
  then Some (mask_byte prefix_len <$> seqZ 0 16) else None.

Record NetFilterEntry := MkNetFilterEntry { nf_mask : list byte; nf_compare : list byte }.
Definition NetFilter : Type := list NetFilterEntry.

Fixpoint contained_in (this : NetFilter) (addr : list byte) : bool :=
  match this with
  | [] => false
  | entry :: this' =>
      if ipv6_addr_equal (beegfs_mask_in6_addr addr (nf_mask entry)) (nf_compare entry)
      then true else contained_in this' addr
  end.
Definition NetFilter_isContained (this : NetFilter) (addr : list byte) : bool :=
  if ipv6_addr_v4mapped addr && bool_decide (drop 12 addr = INADDR_LOOPBACK) then true
  else if ipv6_addr_equal addr in6addr_loopback then true
  else contained_in this addr.

Definition NetFilter_isAllowed (this : NetFilter) (ipAddr : list byte) : bool :=
  if zlen this =? 0 then true else NetFilter_isContained this ipAddr.

(** Result of parsing a line: accepted, refused with a log message, or a read behind the
    end of the line's memory; [Parse_bug] is a BUG_ON. *)
Inductive Parsed (A : Type) :=
| Parse_ok (a : A)
| Parse_fail
| Parse_overread
| Parse_bug.
Arguments Parse_ok {A} a.
Arguments Parse_fail {A}.
Arguments Parse_overread {A}.
Arguments Parse_bug {A}.

Section TextParameters.
(** [in4_pton s delim]: the four (sixteen) bytes of the address at the start of [s] and the
    position where it ends; [kstrtou8 s] the decimal number that is all of [s]. *)
Context (in4_pton in6_pton : list byte -> byte -> option (list byte * Z)).
Context (kstrtou8 : list byte -> option Z).
(** Whether [char] is signed on the architecture and kernel that the module is built for. *)
Context (char_signed : bool).

(** [line] is the string without its terminating NUL; reading the string at position
    [slash + 1] is outside of the memory when that position is behind the NUL. *)
Definition parse_NetFilterEntry (line : list byte) : Parsed NetFilterEntry :=
  let finish (isv4 : bool) (ip : list byte) (slash : Z) : Parsed NetFilterEntry :=
    if zlen line <? slash + 1 then Parse_overread
    else
      match kstrtou8 (drop (Z.to_nat (slash + 1)) line) with
      | None => Parse_fail
      | Some prefix_len =>
          if isv4 && (32 <? prefix_len) then Parse_fail
          else if negb isv4 && (128 <? prefix_len) then Parse_fail
          else
            let addr := if isv4 then beegfs_mapped_ipv4 ip else ip in
            match beegfs_make_in6_addr_mask_from_prefix
                    (if isv4 then prefix_len + 96 else prefix_len) with
            | None => Parse_bug
            | Some mask => Parse_ok (MkNetFilterEntry mask (beegfs_mask_in6_addr addr mask))
            end
      end in
  match in4_pton line Byte.x2f with
  | Some (ipv4, slash) => finish true ipv4 slash
  | None =>
      match in6_pton line Byte.x2f with
      | Some (ipv6, slash) => finish false ipv6 slash
      | None => Parse_fail
      end
  end.

(** The loop over the lines of the file: refused lines are skipped. *)
Fixpoint filter_entries (lines : list (list byte)) : Parsed NetFilter :=
  match lines with
  | [] => Parse_ok []
  | line :: lines' =>
      match parse_NetFilterEntry line with
      | Parse_ok entry =>
          match filter_entries lines' with
          | Parse_ok l => Parse_ok (entry :: l)
          | r => r
          end
      | Parse_fail => filter_entries lines'
      | Parse_overread => Parse_overread
      | Parse_bug => Parse_bug
      end
  end.

(** [file]: the lines that [Config_loadStringListFile] reads, [None] when it fails.
    [Parse_fail] is the return value [false]. *)
Definition NetFilter_init (filename : list byte) (file : option (list (list byte)))
    (kmalloc_ok : bool) : Parsed NetFilter :=
  if strlen filename =? 0 then Parse_ok []
  else
    match file with
    | None => Parse_fail
    | Some lines =>
        if zlen lines =? 0 then Parse_ok []
        else if kmalloc_ok then filter_entries lines else Parse_fail
    end.

(** ** The NIC filter *)

Record NicAddressFilterEntry := MkNicAddressFilterEntry {
  fe_invert : bool;
  fe_name : option (list byte);
  fe_addr : option (list byte);
  fe_family : option Z;
  fe_nicType : option Z
}.
Definition NicAddressFilter : Type := list NicAddressFilterEntry.

Definition entry_matches (entry : NicAddressFilterEntry) (nicAddr : NicAddress) : bool :=
  let family := if ipv6_addr_v4mapped (nic_ipAddr nicAddr) then AF_INET else AF_INET6 in
  match fe_name entry with
  | Some name => bool_decide (cstr name = cstr (nic_name nicAddr)) | None => true end &&
  match fe_addr entry with
  | Some addr => ipv6_addr_equal addr (nic_ipAddr nicAddr) | None => true end &&
  match fe_family entry with Some f => f =? family | None => true end &&
  match fe_nicType entry with Some t => t =? nic_nicType nicAddr | None => true end.

Fixpoint position_from (i : Z) (this : NicAddressFilter) (nicAddr : NicAddress) : Z :=
  match this with
  | [] => SIZE_MAX
  | entry :: this' =>
      if entry_matches entry nicAddr then (if fe_invert entry then SIZE_MAX else i)
      else position_from (i + 1) this' nicAddr
  end.
Definition NicAddressFilter_getPosition (this : NicAddressFilter) (nicAddr : NicAddress) : Z :=
  position_from 0 this nicAddr.

Definition NicAddressFilter_isAllowed (this : NicAddressFilter) (nicAddr : NicAddress) : bool :=
  if zlen this =? 0 then true else NicAddressFilter_getPosition this nicAddr <? SIZE_MAX.

(** The reader: the characters from its position to the end. *)
Definition charval (c : byte) : Z :=
  if char_signed then s8 (byte.unsigned c) else byte.unsigned c.
Definition is_space (c : byte) : bool := charval c <=? 0x20.

(** [more]: the position behind leading white space. *)
Fixpoint skip_space (s : list byte) : list byte :=
  match s with
  | [] => []
  | c :: s' => if is_space c then skip_space s' else s
  end.

Definition TOKEN_SIZE : Z := 64.
(** The next token and the rest; [None] when it does not fit the buffer. *)
Fixpoint read_token (tokensize : Z) (s : list byte) : option (list byte * list byte) :=
  match s with
  | [] => Some ([], [])
  | c :: s' =>
      if is_space c then Some ([], s)
      else if TOKEN_SIZE - 1 <=? tokensize then None
      else '(token, rest) ← read_token (tokensize + 1) s'; Some (c :: token, rest)
  end.

Definition set_column (column : Z) (token : list byte) (e : NicAddressFilterEntry)
    : option NicAddressFilterEntry :=
  if column =? 0 then
    if IFNAMSIZ - 1 <=? zlen token then None
    else if bool_decide (Byte.x2f ∈ token) then None
    else Some (MkNicAddressFilterEntry (fe_invert e) (Some token) (fe_addr e) (fe_family e)
                 (fe_nicType e))
  else if column =? 1 then
    let put addr := Some (MkNicAddressFilterEntry (fe_invert e) (fe_name e) (Some addr)
                            (fe_family e) (fe_nicType e)) in
    match in4_pton token Byte.x00 with
    | Some (ipv4, _) => put (beegfs_mapped_ipv4 ipv4)
    | None => match in6_pton token Byte.x00 with Some (ipv6, _) => put ipv6 | None => None end
    end
  else if column =? 2 then
    let put family := Some (MkNicAddressFilterEntry (fe_invert e) (fe_name e) (fe_addr e)
                              (Some family) (fe_nicType e)) in
    if decide (token = [Byte.x34]) then put AF_INET
    else if decide (token = [Byte.x36]) then put AF_INET6 else None
  else if column =? 3 then
    let put nicType := Some (MkNicAddressFilterEntry (fe_invert e) (fe_name e) (fe_addr e)
                               (fe_family e) (Some nicType)) in
    if decide (token = [Byte.x74; Byte.x63; Byte.x70]) then put NICADDRTYPE_STANDARD
    else if decide (token = [Byte.x72; Byte.x64; Byte.x6d; Byte.x61]) then put NICADDRTYPE_RDMA
    else None
  else None.

(** The loop over the columns; each round consumes at least one character. *)
Fixpoint parse_columns (fuel : nat) (column : Z) (e : NicAddressFilterEntry) (s : list byte)
    : option NicAddressFilterEntry :=
  match fuel, skip_space s with
  | _, [] => Some e
  | O, _ => None
  | S fuel', s' =>
      '(token, rest) ← read_token 0 s';
      if decide (token = [Byte.x2a]) then parse_columns fuel' (column + 1) e rest
      else e' ← set_column column token e; parse_columns fuel' (column + 1) e' rest
  end.

Definition parse_NicAddressFilterEntry (line : list byte) : option NicAddressFilterEntry :=
  let entry invert := MkNicAddressFilterEntry invert None None None None in
  match skip_space line with
  | c :: rest =>
      if decide (c = Byte.x21) then parse_columns (length rest) 0 (entry true) rest
      else parse_columns (length (c :: rest)) 0 (entry false) (c :: rest)
  | [] => Some (entry false)
  end.

Definition NicAddressFilter_construct (filterList : list (list byte))
    (kmalloc_this kmalloc_array : bool) : option NicAddressFilter :=
  if negb kmalloc_this then None
  else if zlen filterList =? 0 then Some []
  else if kmalloc_array then mapM parse_NicAddressFilterEntry filterList else None.
End TextParameters.

(** ** Sorting by the filter *)

Record nicaddr_sort_entry := MkSortEntry { se_addr : NicAddress; se_origIdx : Z }.

Definition cmp_bool (a b : bool) : Z := Z.b2z a - Z.b2z b.

Definition nicaddr_sort_comp (filter : NicAddressFilter) (lhs rhs : nicaddr_sort_entry) : Z :=
  let a := NicAddressFilter_getPosition filter (se_addr lhs) in
  let b := NicAddressFilter_getPosition filter (se_addr rhs) in
  if negb (a =? b) then cmp_bool (b <? a) (a <? b)
  else
    let a := nic_nicType (se_addr lhs) =? NICADDRTYPE_RDMA in
    let b := nic_nicType (se_addr rhs) =? NICADDRTYPE_RDMA in
    if negb (eqb a b) then cmp_bool b a
    else
      let a := ipv6_addr_v4mapped (nic_ipAddr (se_addr lhs)) in
      let b := ipv6_addr_v4mapped (nic_ipAddr (se_addr rhs)) in
      if negb (eqb a b) then cmp_bool b a
      else se_origIdx lhs - se_origIdx rhs.

Definition sort_entries (nicList : list NicAddress) : list nicaddr_sort_entry :=
  zip_with MkSortEntry nicList (seqZ 0 (zlen nicList)).

(** [sort] is the kernel's, with the comparison as an argument. *)
Definition ListTk_cloneSortNicAddressList
    (sort : (nicaddr_sort_entry -> nicaddr_sort_entry -> Z) ->
            list nicaddr_sort_entry -> list nicaddr_sort_entry)
    (nicAddressFilter : NicAddressFilter) (nicList : list NicAddress) : list NicAddress :=
  se_addr <$> sort (nicaddr_sort_comp nicAddressFilter) (sort_entries nicList).

(** ** Enumerating the interfaces of the host *)

Definition IPV6_ADDR_UNICAST : Z := 0x0001.
Definition IPV6_ADDR_MULTICAST : Z := 0x0002.
Definition IPV6_ADDR_LOOPBACK : Z := 0x0010.
Definition IPV6_ADDR_LINKLOCAL : Z := 0x0020.
Definition IFA_F_TEMPORARY : Z := 0x01.
Definition IFA_F_OPTIMISTIC : Z := 0x04.
Definition IFA_F_DEPRECATED : Z := 0x20.
Definition IFA_F_TENTATIVE : Z := 0x40.
Definition IFF_LOOPBACK : Z := 0x8.
Definition ARPHRD_LOOPBACK : Z := 772.

(** What the kernel says of a device: flags, type, name and its addresses; an IPv6 address
    comes with its [ipv6_addr_type] and its flags. *)
Record NetDevice := MkNetDevice {
  dev_flags : Z;
  dev_type : Z;
  dev_name : list byte;
  dev_ipv4 : list (list byte);
  dev_ipv6 : list (list byte * Z * Z)
}.

Definition push_nic_address (nicAddressFilter : NicAddressFilter) (outList : list NicAddress)
    (dev : NetDevice) (nicType : Z) (ipAddr : list byte) : list NicAddress :=
  let name := take (Z.to_nat IFNAMSIZ)
                (cstr (dev_name dev) ++ replicate (Z.to_nat IFNAMSIZ) Byte.x00) in
  let nicAddr := MkNicAddress ipAddr nicType name in
  if NicAddressFilter_isAllowed nicAddressFilter nicAddr then outList ++ [nicAddr] else outList.

Definition has_flag (flags f : Z) : bool := negb (Z.land flags f =? 0).

Definition ipv6_wanted (a : list byte * Z * Z) : bool :=
  let '(_, type, flags) := a in
  has_flag type IPV6_ADDR_UNICAST && negb (has_flag type IPV6_ADDR_LOOPBACK) &&
  negb (has_flag type IPV6_ADDR_LINKLOCAL) && negb (has_flag type IPV6_ADDR_MULTICAST) &&
  negb (has_flag flags (Z.lor (Z.lor IFA_F_TENTATIVE IFA_F_TEMPORARY)
                          (Z.lor IFA_F_DEPRECATED IFA_F_OPTIMISTIC))).

Definition push_device (nicAddressFilter : NicAddressFilter) (domain : Z)
    (outList : list NicAddress) (dev : NetDevice) : list NicAddress :=
  if has_flag (dev_flags dev) IFF_LOOPBACK then outList
  else if dev_type dev =? ARPHRD_LOOPBACK then outList
  else
    let out4 := foldl (fun out ip =>
        push_nic_address nicAddressFilter out dev NICADDRTYPE_STANDARD (beegfs_mapped_ipv4 ip))
      outList (dev_ipv4 dev) in
    if domain =? AF_INET6
    then foldl (fun out a =>
        if ipv6_wanted a
        then push_nic_address nicAddressFilter out dev NICADDRTYPE_STANDARD a.1.1 else out)
      out4 (dev_ipv6 dev)
    else out4.

Definition __NIC_findAllTCP (nicAddressFilter : NicAddressFilter) (domain : Z)
    (devices : list NetDevice) (outList : list NicAddress) : list NicAddress :=
  foldl (push_device nicAddressFilter domain) outList devices.

(** [rdma_bind ip]: an RDMA socket can be made and bound to the address. *)
Fixpoint __NIC_filterInterfacesForRDMA (rdma_bind : list byte -> bool) (nicList : list NicAddress)
    (outList : list NicAddress) : list NicAddress :=
  match nicList with
  | [] => outList
  | nicAddr :: nicList' =>
      __NIC_filterInterfacesForRDMA rdma_bind nicList'
        (if rdma_bind (nic_ipAddr nicAddr)
         then outList ++ [MkNicAddress (nic_ipAddr nicAddr) NICADDRTYPE_RDMA (nic_name nicAddr)]
         else outList)
  end.

(** [rdma_built]: [RDMASocket_rdmaDevicesExist], a build option; the two calls of
    [__NIC_findAllTCP] can see different devices. *)
Definition NIC_findAll (rdma_built : bool) (rdma_bind : list byte -> bool)
    (nicAddressFilter : NicAddressFilter) (useRDMA onlyRDMA : bool) (domain : Z)
    (devices devices' : list NetDevice) (outList : list NicAddress) : list NicAddress :=
  let out := __NIC_findAllTCP nicAddressFilter domain devices outList in
  let out :=
    if useRDMA && rdma_built
    then __NIC_filterInterfacesForRDMA rdma_bind
           (__NIC_findAllTCP nicAddressFilter domain devices' []) out
    else out in
  if onlyRDMA then filter (fun nic => nic_nicType nic = NICADDRTYPE_RDMA) out else out.
