(* ===== verification/NicsFacts.v ===== *)
(** * Properties of the NIC filters and lists

    The net filter admits exactly the addresses of the configured networks; sorting a NIC
    list gives the stable order by filter position, protocol and address family for every
    correct sort function; the NIC filter's parser. *)

From stdpp Require Import strings sorting.
From S2P Require Import Prelude Serialization Nics.

(** ** Addresses as bits *)

(** The bits of a byte and of an address, most significant first. *)
Definition byte_bits (b : byte) : list bool :=
  (fun i => Z.testbit (byte.unsigned b) i) <$> [7; 6; 5; 4; 3; 2; 1; 0].
Definition addr_bits (a : list byte) : list bool := mbind byte_bits a.

(** The number of prefix bits that fall into byte [i]. *)
Definition bits_in (p i : Z) : nat := Z.to_nat (Z.min 8 (p - 8 * i)).

Definition all_bytes : list byte := byte.of_Z <$> seqZ 0 256.
Lemma all_bytes_spec b : b ∈ all_bytes.
Proof.
  apply list_elem_of_fmap. exists (byte.unsigned b). split.
  - by rewrite byte.of_Z_unsigned.
  - apply elem_of_seqZ. pose proof (byte.unsigned_range b). lia.
Qed.

Definition keep_bits (n : nat) (b : byte) : list bool :=
  take n (byte_bits b) ++ replicate (8 - n) false.

(** Masking a byte keeps its leading bits and clears the others: all 256 bytes, all eight
    splits. *)
Lemma byte_bits_masked b k : (k <= 8)%nat ->
  byte_bits (byte_land b (mask_byte (Z.of_nat k) 0)) = keep_bits k b.
Proof.
  intros Hk.
  assert (Hall : forallb (fun k => forallb (fun b =>
    bool_decide (byte_bits (byte_land b (mask_byte (Z.of_nat k) 0)) = keep_bits k b))
      all_bytes) (seq 0 9) = true) by (vm_compute; reflexivity).
  rewrite forallb_forall in Hall.
  specialize (Hall k ltac:(apply in_seq; lia)). rewrite forallb_forall in Hall.
  specialize (Hall b ltac:(apply list_elem_of_In, all_bytes_spec)).
  by apply bool_decide_eq_true in Hall.
Qed.

Lemma mask_byte_shift p i : 0 <= i -> mask_byte p i = mask_byte (Z.of_nat (bits_in p i)) 0.
Proof.
  intros Hi. unfold mask_byte, bits_in.
  destruct (Z.ltb_spec p (8 * i)).
  - replace (Z.of_nat _) with 0 by lia. reflexivity.
  - destruct (Z.leb_spec (8 * (i + 1)) p).
    + replace (Z.of_nat _) with 8 by lia. reflexivity.
    + replace (Z.of_nat (Z.to_nat (Z.min 8 (p - 8 * i)))) with (p - 8 * i) by lia.
      destruct (Z.ltb_spec (p - 8 * i) (8 * 0)); [lia|].
      destruct (Z.leb_spec (8 * (0 + 1)) (p - 8 * i)); [lia|].
      do 3 f_equal. lia.
Qed.

Lemma byte_bits_inj b c : byte_bits b = byte_bits c -> b = c.
Proof.
  intros H. rewrite <- (byte.of_Z_unsigned b), <- (byte.of_Z_unsigned c). f_equal.
  unfold byte_bits in H. cbn in H. simplify_eq.
  pose proof (byte.unsigned_range b). pose proof (byte.unsigned_range c).
  apply Z.bits_inj'. intros n Hn.
  destruct (decide (n < 8)) as [Hlt|Hge].
  - assert (n = 0 \/ n = 1 \/ n = 2 \/ n = 3 \/ n = 4 \/ n = 5 \/ n = 6 \/ n = 7) as Hc by lia.
    destruct_or! Hc; by subst.
  - assert (forall x, 0 <= x < 2 ^ 8 -> Z.testbit x n = false) as Hx.
    { intros x ?. destruct (decide (x = 0)) as [->|]; [apply Z.bits_0|].
      apply Z.bits_above_log2; [lia|]. pose proof (Z.log2_lt_pow2 x 8). lia. }
    rewrite !Hx; done.
Qed.

Lemma masked_byte_eq p i b c : 0 <= i ->
  byte_land b (mask_byte p i) = byte_land c (mask_byte p i) <->
  take (bits_in p i) (byte_bits b) = take (bits_in p i) (byte_bits c).
Proof.
  intros Hi. rewrite mask_byte_shift by done.
  assert (Hk : (bits_in p i <= 8)%nat) by (unfold bits_in; lia).
  split.
  - intros H. apply (f_equal byte_bits) in H. rewrite !byte_bits_masked in H by done.
    unfold keep_bits in H. apply app_inj_2 in H; [|done]. by destruct H.
  - intros H. apply byte_bits_inj. rewrite !byte_bits_masked by done. unfold keep_bits.
    by rewrite H.
Qed.

Lemma masked_bytes_eq p (a c : list byte) : forall i, 0 <= i ->
  length a = length c ->
  zip_with byte_land a (mask_byte p <$> seqZ i (zlen a)) =
  zip_with byte_land c (mask_byte p <$> seqZ i (zlen a)) <->
  take (Z.to_nat (p - 8 * i)) (addr_bits a) = take (Z.to_nat (p - 8 * i)) (addr_bits c).
Proof.
  revert c. induction a as [|x a IH]; intros [|y c] i Hi Hl; try done.
  rewrite zlen_cons, seqZ_cons by (pose proof (zlen_nonneg a); lia).
  replace (Z.pred (1 + zlen a)) with (zlen a) by lia. cbn [fmap list_fmap zip_with].
  change (addr_bits (x :: a)) with (byte_bits x ++ addr_bits a).
  change (addr_bits (y :: c)) with (byte_bits y ++ addr_bits c).
  rewrite !take_app.
  assert (Htk : forall z, take (Z.to_nat (p - 8 * i)) (byte_bits z) =
                          take (bits_in p i) (byte_bits z)).
  { intros z. unfold bits_in. destruct (decide (p - 8 * i <= 8)).
    - do 2 f_equal. lia.
    - rewrite !take_ge by (unfold byte_bits; rewrite length_fmap; cbn; lia). done. }
  assert (Hln : forall z, length (byte_bits z) = 8%nat) by done.
  rewrite !Htk, !Hln.
  assert (Hne : forall l k : list bool, take (Z.to_nat (p - 8 * i) - 8) l =
                           take (Z.to_nat (p - 8 * i) - 8) k <->
                           take (Z.to_nat (p - 8 * Z.succ i)) l = take (Z.to_nat (p - 8 * Z.succ i)) k).
  { intros l k. replace (Z.to_nat (p - 8 * i) - 8)%nat with (Z.to_nat (p - 8 * Z.succ i)) by lia.
    done. }
  cbn in Hl. specialize (IH c (Z.succ i) ltac:(lia) ltac:(lia)).
  pose proof (masked_byte_eq p i x y Hi) as Hb.
  split.
  - intros [= H1 H2]. f_equal; [by apply Hb|]. apply Hne. by apply IH.
  - intros H. apply app_inj_1 in H.
    2:{ rewrite !length_take, !Hln. done. }
    destruct H as [H1 H2]. f_equal; [by apply Hb|]. apply IH. by apply Hne.
Qed.

(** ** The net filter *)

(** The first [p] bits of the two addresses agree. *)
Definition in_network (addr net : list byte) (p : Z) : Prop :=
  take (Z.to_nat p) (addr_bits addr) = take (Z.to_nat p) (addr_bits net).

Lemma mask_spec p mask addr net :
  beegfs_make_in6_addr_mask_from_prefix p = Some mask ->
  length addr = 16%nat -> length net = 16%nat ->
  ipv6_addr_equal (beegfs_mask_in6_addr addr mask) (beegfs_mask_in6_addr net mask) = true <->
  in_network addr net p.
Proof.
  unfold beegfs_make_in6_addr_mask_from_prefix. case_match; [|done]. intros [= <-] Ha Hn.
  unfold ipv6_addr_equal, in_network. rewrite bool_decide_eq_true.
  pose proof (masked_bytes_eq p addr net 0 ltac:(lia) ltac:(lia)) as H0.
  unfold zlen in H0. rewrite Ha in H0. rewrite Z.sub_0_r in H0. exact H0.
Qed.

Lemma mask_some p : 0 <= p <= 128 -> beegfs_make_in6_addr_mask_from_prefix p <> None.
Proof.
  intros Hp. unfold beegfs_make_in6_addr_mask_from_prefix.
  destruct (Z.leb_spec 0 p); [|lia]. by destruct (Z.leb_spec p 128); [|lia].
Qed.

Section Text.
Context (in4_pton in6_pton : list byte -> byte -> option (list byte * Z)).
Context (kstrtou8 : list byte -> option Z).

(** Documented results of the kernel's conversions: addresses have four and sixteen bytes,
    the end position lies in the string, the number fits a byte. *)
Definition text_ok : Prop :=
  (forall s d ip n, in4_pton s d = Some (ip, n) -> length ip = 4%nat /\ 0 <= n <= zlen s) /\
  (forall s d ip n, in6_pton s d = Some (ip, n) -> length ip = 16%nat /\ 0 <= n <= zlen s) /\
  (forall s n, kstrtou8 s = Some n -> in_u 8 n).

(** The network that a line "address/length" names, if it names one. *)
Definition line_network (line : list byte) : option (list byte * Z) :=
  match in4_pton line Byte.x2f, in6_pton line Byte.x2f with
  | Some (ip, n), _ =>
      p ← kstrtou8 (drop (Z.to_nat (n + 1)) line);
      if p <=? 32 then Some (beegfs_mapped_ipv4 ip, 96 + p) else None
  | None, Some (ip, n) =>
      p ← kstrtou8 (drop (Z.to_nat (n + 1)) line);
      if p <=? 128 then Some (ip, p) else None
  | None, None => None
  end.

Lemma parse_entry_spec line addr : text_ok -> length addr = 16%nat ->
  match parse_NetFilterEntry in4_pton in6_pton kstrtou8 line with
  | Parse_ok e => exists net p, line_network line = Some (net, p) /\
      (ipv6_addr_equal (beegfs_mask_in6_addr addr (nf_mask e)) (nf_compare e) = true <->
       in_network addr net p)
  | Parse_fail => line_network line = None
  | Parse_overread => True
  | Parse_bug => False
  end.
Proof.
  intros (H4 & H6 & Hk) Ha. unfold parse_NetFilterEntry, line_network. cbn zeta.
  destruct (in4_pton line Byte.x2f) as [[ip n]|] eqn:E4.
  - destruct (H4 _ _ _ _ E4) as [Hip Hn].
    destruct (zlen line <? n + 1); [done|].
    destruct (kstrtou8 _) as [p|] eqn:Ek; [|done]. apply Hk in Ek. cbn [mbind option_bind andb negb].
    destruct (Z.ltb_spec 32 p).
    + destruct (Z.leb_spec p 32); [lia|done].
    + destruct (Z.leb_spec p 32); [|lia].
      destruct (beegfs_make_in6_addr_mask_from_prefix _) as [mask|] eqn:Em.
      * eexists _, _. split; [done|]. rewrite Z.add_comm. cbn [nf_mask nf_compare].
        apply mask_spec; [done..|]. unfold beegfs_mapped_ipv4. by rewrite length_app, Hip.
      * by apply mask_some in Em; [|red in Ek; lia].
  - destruct (in6_pton line Byte.x2f) as [[ip n]|] eqn:E6; [|done].
    destruct (H6 _ _ _ _ E6) as [Hip Hn].
    destruct (zlen line <? n + 1); [done|].
    destruct (kstrtou8 _) as [p|] eqn:Ek; [|done]. apply Hk in Ek. cbn [mbind option_bind andb negb].
    destruct (Z.ltb_spec 128 p).
    + destruct (Z.leb_spec p 128); [lia|done].
    + destruct (Z.leb_spec p 128); [|lia].
      destruct (beegfs_make_in6_addr_mask_from_prefix _) as [mask|] eqn:Em.
      * eexists _, _. split; [done|]. by apply mask_spec.
      * by apply mask_some in Em; [|red in Ek; lia].
Qed.

Lemma filter_entries_spec addr lines f : text_ok -> length addr = 16%nat ->
  filter_entries in4_pton in6_pton kstrtou8 lines = Parse_ok f ->
  contained_in f addr = true <->
  exists line net p, line ∈ lines /\ line_network line = Some (net, p) /\ in_network addr net p.
Proof.
  intros Ht Ha. revert f. induction lines as [|line lines IH]; intros f Hf.
  - injection Hf as <-. cbn. split; [done|]. by intros (? & ? & ? & []%elem_of_nil & _).
  - cbn in Hf. pose proof (parse_entry_spec line addr Ht Ha) as Hl.
    destruct (parse_NetFilterEntry _ _ _ line) as [e| | |] eqn:E; try done.
    + destruct (filter_entries _ _ _ lines) as [l| | |]; try done. injection Hf as <-.
      destruct Hl as (net & p & Hln & Hm). specialize (IH l eq_refl). cbn.
      destruct (ipv6_addr_equal _ _).
      * split; [|done]. intros _. exists line, net, p. split; [by left|]. split; [done|].
        by apply Hm.
      * rewrite IH. setoid_rewrite elem_of_cons.
        split; [by intros (l1 & n1 & p1 & Hin & H); exists l1, n1, p1; split; [right|]|].
        intros (l1 & n1 & p1 & [-> | Hin] & Hln' & Hnw); [|by exists l1, n1, p1].
        rewrite Hln in Hln'. simplify_eq. by apply Hm in Hnw.
    + rewrite (IH f Hf). setoid_rewrite elem_of_cons.
      split; [by intros (l1 & n1 & p1 & Hin & H); exists l1, n1, p1; split; [right|]|].
      intros (l1 & n1 & p1 & [-> | Hin] & Hln' & Hnw); [by rewrite Hl in Hln'|].
      by exists l1, n1, p1.
Qed.
End Text.

Definition is_loopback (addr : list byte) : Prop :=
  addr = beegfs_mapped_ipv4 INADDR_LOOPBACK \/ addr = in6addr_loopback.

Lemma mapped_loopback addr : length addr = 16%nat ->
  ipv6_addr_v4mapped addr && bool_decide (drop 12 addr = INADDR_LOOPBACK) = true <->
  addr = beegfs_mapped_ipv4 INADDR_LOOPBACK.
Proof.
  intros Ha. unfold ipv6_addr_v4mapped, beegfs_mapped_ipv4.
  rewrite andb_true_iff, !bool_decide_eq_true. split.
  - intros [H1 H2]. by rewrite <- (take_drop 12 addr), H1, H2.
  - by intros ->.
Qed.

(** C18: For every filter file whose lines the parser reads without leaving their memory, the
    filter that [NetFilter_init] builds admits an address exactly when no network is
    configured, when it is one of the two loopback addresses, or when its first [p] bits are
    those of the network of some line "network/p" (an IPv4 network counting as the network
    of the mapped addresses).  Lines that do not parse have no effect. *)
Theorem netfilter_admits_networks in4_pton in6_pton kstrtou8 filename lines f addr :
  text_ok in4_pton in6_pton kstrtou8 -> length addr = 16%nat -> strlen filename <> 0 ->
  NetFilter_init in4_pton in6_pton kstrtou8 filename (Some lines) true = Parse_ok f ->
  NetFilter_isAllowed f addr = true <->
  f = [] \/ is_loopback addr \/
  exists line net p, line ∈ lines /\
    line_network in4_pton in6_pton kstrtou8 line = Some (net, p) /\ in_network addr net p.
Proof.
  intros Ht Ha Hfn. unfold NetFilter_init.
  destruct (Z.eqb_spec (strlen filename) 0); [done|].
  intros Hf. assert (Hfe : filter_entries in4_pton in6_pton kstrtou8 lines = Parse_ok f).
  { destruct lines; exact Hf. }
  pose proof (filter_entries_spec _ _ _ addr lines f Ht Ha Hfe) as Hc.
  unfold NetFilter_isAllowed, NetFilter_isContained.
  destruct f as [|e f']; [split; [by left|done]|].
  assert ((zlen (e :: f') =? 0) = false) as ->.
  { rewrite zlen_cons. pose proof (zlen_nonneg f'). lia. }
  destruct (_ && _) eqn:Elo.
  { apply mapped_loopback in Elo; [|done]. split; [|done]. intros _. right. left. by left. }
  destruct (ipv6_addr_equal addr in6addr_loopback) eqn:E6.
  { unfold ipv6_addr_equal in E6. apply bool_decide_eq_true in E6. split; [|done].
    intros _. right. left. by right. }
  rewrite Hc. split; [by right; right|].
  intros [Hnil | [[Hl | Hl] | H]]; [done|..|done].
  - apply mapped_loopback in Hl; [|done]. by rewrite Hl in Elo.
  - unfold ipv6_addr_equal in E6. by apply bool_decide_eq_false in E6.
Qed.

(** Conversions that know one IPv4 address and one number. *)
Definition txt (s : string) : list byte := String.list_byte_of_string s.
Definition pton_example (s : list byte) (d : byte) : option (list byte * Z) :=
  if decide (take 8 s = txt "10.0.0.0")
  then Some ([Byte.x0a; Byte.x00; Byte.x00; Byte.x00], 8) else None.
Definition pton_none (s : list byte) (d : byte) : option (list byte * Z) := None.
Definition kstrtou8_example (s : list byte) : option Z :=
  if decide (s = txt "8") then Some 8 else None.

Lemma text_ok_example : text_ok pton_example pton_none kstrtou8_example.
Proof.
  unfold text_ok, pton_example, pton_none, kstrtou8_example. split_and!; [|done|].
  - intros s d ip n. destruct (decide _) as [H|]; [|done]. intros ?. simplify_eq. split; [done|].
    apply (f_equal length) in H. rewrite length_take in H.
    change (length (txt "10.0.0.0")) with 8%nat in H. unfold zlen. lia.
  - intros s n. destruct (decide _); [|done]. intros ?. simplify_eq. red. lia.
Qed.

Lemma netfilter_admits_networks_witness :
  let init := NetFilter_init pton_example pton_none kstrtou8_example (txt "/etc/filter")
                (Some [txt "nonsense"; txt "10.0.0.0/8"]) true in
  let f := match init with Parse_ok f => f | _ => [] end in
  let addr := beegfs_mapped_ipv4 [Byte.x0a; Byte.x01; Byte.x02; Byte.x03] in
  init = Parse_ok f /\ NetFilter_isAllowed f addr = true.
Proof.
  split; [reflexivity|].
  apply (netfilter_admits_networks pton_example pton_none kstrtou8_example (txt "/etc/filter")
           [txt "nonsense"; txt "10.0.0.0/8"] _ _ text_ok_example);
    [reflexivity|vm_compute; discriminate|reflexivity|].
  right. right. exists (txt "10.0.0.0/8"),
    (beegfs_mapped_ipv4 [Byte.x0a; Byte.x00; Byte.x00; Byte.x00]), 104.
  split; [right; left|]. split; reflexivity.
Defined.

(** A line that is an address without "/" and length: the end of the address is the end of
    the line, and the number is read from behind its terminating NUL. *)
Theorem line_without_length_overreads in4_pton in6_pton kstrtou8 line ip :
  in4_pton line Byte.x2f = Some (ip, zlen line) ->
  parse_NetFilterEntry in4_pton in6_pton kstrtou8 line = Parse_overread.
Proof.
  intros H. unfold parse_NetFilterEntry. rewrite H.
  by destruct (Z.ltb_spec (zlen line) (zlen line + 1)); [|lia].
Qed.

(** ** Sorting *)

(** The reference order: by filter position, RDMA first, IPv4 first. *)
Definition sort_key (f : NicAddressFilter) (nic : NicAddress) : Z * (Z * Z) :=
  (NicAddressFilter_getPosition f nic,
   (1 - Z.b2z (nic_nicType nic =? NICADDRTYPE_RDMA),
    1 - Z.b2z (ipv6_addr_v4mapped (nic_ipAddr nic)))).
Definition key_le (a b : Z * (Z * Z)) : bool :=
  (a.1 <? b.1) || (a.1 =? b.1) &&
    ((a.2.1 <? b.2.1) || (a.2.1 =? b.2.1) && (a.2.2 <=? b.2.2)).

(** Stable insertion sort by that key. *)
Fixpoint insert_nic (f : NicAddressFilter) (nic : NicAddress) (l : list NicAddress)
    : list NicAddress :=
  match l with
  | [] => [nic]
  | x :: l' => if key_le (sort_key f nic) (sort_key f x) then nic :: l
               else x :: insert_nic f nic l'
  end.
Definition stable_sort (f : NicAddressFilter) (l : list NicAddress) : list NicAddress :=
  foldr (insert_nic f) [] l.

(** What the kernel promises of [sort]: with a comparison that is a total preorder it
    returns the elements in order. *)
Definition comparison_ok {A} (cmp : A -> A -> Z) : Prop :=
  (forall a b, cmp a b <= 0 \/ cmp b a <= 0) /\
  (forall a b c, cmp a b <= 0 -> cmp b c <= 0 -> cmp a c <= 0).
Definition sort_ok {A} (sort : (A -> A -> Z) -> list A -> list A) : Prop :=
  forall cmp l, comparison_ok cmp -> sort cmp l ≡ₚ l /\ StronglySorted (fun a b => cmp a b <= 0) (sort cmp l).

(** The comparison as a lexicographic order on key and index. *)
Definition entry_le (f : NicAddressFilter) (a b : nicaddr_sort_entry) : Prop :=
  let ka := sort_key f (se_addr a) in
  let kb := sort_key f (se_addr b) in
  ka.1 < kb.1 \/ ka.1 = kb.1 /\
    (ka.2.1 < kb.2.1 \/ ka.2.1 = kb.2.1 /\
      (ka.2.2 < kb.2.2 \/ ka.2.2 = kb.2.2 /\ se_origIdx a <= se_origIdx b)).

Lemma comp_entry_le f a b : nicaddr_sort_comp f a b <= 0 <-> entry_le f a b.
Proof.
  unfold nicaddr_sort_comp, entry_le, sort_key, cmp_bool. cbn [fst snd].
  set (pa := NicAddressFilter_getPosition f (se_addr a)).
  set (pb := NicAddressFilter_getPosition f (se_addr b)).
  destruct (nic_nicType (se_addr a) =? NICADDRTYPE_RDMA);
    destruct (nic_nicType (se_addr b) =? NICADDRTYPE_RDMA);
    destruct (ipv6_addr_v4mapped (nic_ipAddr (se_addr a)));
    destruct (ipv6_addr_v4mapped (nic_ipAddr (se_addr b)));
    destruct (Z.eqb_spec pa pb); destruct (Z.ltb_spec pa pb); destruct (Z.ltb_spec pb pa);
    cbn; lia.
Qed.

Lemma comp_ok f : comparison_ok (nicaddr_sort_comp f).
Proof.
  split; intros *; rewrite !comp_entry_le; unfold entry_le; lia.
Qed.

Lemma comp_antisym f a b : nicaddr_sort_comp f a b <= 0 -> nicaddr_sort_comp f b a <= 0 ->
  se_origIdx a = se_origIdx b.
Proof. rewrite !comp_entry_le. unfold entry_le. lia. Qed.

(** A sort function that keeps the promise: insertion sort. *)
Fixpoint insert_by {A} (cmp : A -> A -> Z) (e : A) (l : list A) : list A :=
  match l with
  | [] => [e]
  | x :: l' => if cmp e x <=? 0 then e :: l else x :: insert_by cmp e l'
  end.
Definition insertion_sort {A} (cmp : A -> A -> Z) (l : list A) : list A :=
  foldr (insert_by cmp) [] l.

Lemma insert_by_perm {A} (cmp : A -> A -> Z) e l : insert_by cmp e l ≡ₚ e :: l.
Proof.
  induction l as [|x l IH]; [done|]. cbn. case_match; [done|]. rewrite IH. apply Permutation_swap.
Qed.

Lemma insertion_sort_ok {A} : sort_ok (@insertion_sort A).
Proof.
  intros cmp l [Htot Htr]. induction l as [|e l [IHp IHs]]; cbn; [split; constructor|].
  split; [by rewrite insert_by_perm; f_equiv|].
  clear IHp. unfold insertion_sort in IHs. induction IHs as [|x k Hk IH Hx]; cbn; [by repeat constructor|].
  destruct (Z.leb_spec (cmp e x) 0) as [Hle|Hgt].
  - constructor; [by constructor|]. constructor; [done|].
    eapply list.Forall_impl; [exact Hx|]. cbn. intros y Hy. by eapply Htr.
  - constructor; [done|]. rewrite insert_by_perm. constructor; [|done].
    destruct (Htot e x); [lia|done].
Qed.

Lemma insert_entry_nic f nic i l : Forall (fun x => i < se_origIdx x) l ->
  se_addr <$> insert_by (nicaddr_sort_comp f) (MkSortEntry nic i) l = insert_nic f nic (se_addr <$> l).
Proof.
  induction 1 as [|x l Hx Hl IH]; [done|]. cbn.
  assert (Heq : (nicaddr_sort_comp f (MkSortEntry nic i) x <=? 0) =
                key_le (sort_key f nic) (sort_key f (se_addr x))).
  { apply eq_bool_prop_intro. rewrite !Is_true_true, Z.leb_le, comp_entry_le.
    unfold entry_le, key_le. cbn [se_addr se_origIdx]. lia. }
  rewrite Heq. case_match; [done|]. cbn. by rewrite IH.
Qed.

Definition sorted_entries (f : NicAddressFilter) (l : list nicaddr_sort_entry) :=
  insertion_sort (nicaddr_sort_comp f) l.

Lemma sorted_entries_perm f l : sorted_entries f l ≡ₚ l.
Proof. apply insertion_sort_ok, comp_ok. Qed.

Lemma sorted_entries_sorted f l :
  StronglySorted (fun a b => nicaddr_sort_comp f a b <= 0) (sorted_entries f l).
Proof. apply insertion_sort_ok, comp_ok. Qed.

Lemma entries_from f (l : list NicAddress) : forall i,
  let es := zip_with MkSortEntry l (seqZ i (zlen l)) in
  Forall (fun x => i <= se_origIdx x) es /\ NoDup (se_origIdx <$> es) /\
  se_addr <$> sorted_entries f es = stable_sort f l.
Proof.
  induction l as [|nic l IH]; intros i; cbn zeta.
  - cbn. split_and!; [constructor..|done].
  - rewrite zlen_cons, seqZ_cons by (pose proof (zlen_nonneg l); lia).
    replace (Z.pred (1 + zlen l)) with (zlen l) by lia. cbn [zip_with].
    destruct (IH (Z.succ i)) as (Hge & Hnd & Hs). split_and!.
    + constructor; [cbn; lia|]. eapply list.Forall_impl; [exact Hge|]. cbn. lia.
    + rewrite fmap_cons. constructor; [|done].
      intros (x & Hx & Hin)%list_elem_of_fmap. rewrite list.Forall_forall in Hge.
      specialize (Hge x Hin). cbn in Hx. lia.
    + set (es := zip_with MkSortEntry l _) in *.
      change (sorted_entries f (MkSortEntry nic i :: es)) with
        (insert_by (nicaddr_sort_comp f) (MkSortEntry nic i) (sorted_entries f es)).
      rewrite insert_entry_nic; [by rewrite Hs|].
      rewrite sorted_entries_perm. eapply list.Forall_impl; [exact Hge|]. cbn. lia.
Qed.

Lemma NoDup_fmap_eq {A B} (g : A -> B) l x y : NoDup (g <$> l) -> x ∈ l -> y ∈ l ->
  g x = g y -> x = y.
Proof.
  intros Hnd (i & Hi)%list_elem_of_lookup (j & Hj)%list_elem_of_lookup Hg.
  assert (i = j) as ->.
  { eapply NoDup_lookup; [exact Hnd|..]; rewrite list_lookup_fmap; [rewrite Hi; cbn; by rewrite Hg|].
    by rewrite Hj. }
  by simplify_eq.
Qed.

(** Whatever correct sort function the kernel has (it need not be stable), sorting a NIC
    list gives the stable order by position in the filter, RDMA before TCP, IPv4 before
    IPv6: the comparison is a total order because it falls back to the original index. *)
Theorem clone_sort_is_stable sort f nicList : sort_ok sort ->
  ListTk_cloneSortNicAddressList sort f nicList = stable_sort f nicList.
Proof.
  intros Hsort. unfold ListTk_cloneSortNicAddressList.
  destruct (entries_from f nicList 0) as (_ & Hnd & <-). f_equal.
  destruct (Hsort (nicaddr_sort_comp f) (sort_entries nicList) (comp_ok f)) as [Hp Hs].
  fold (sort_entries nicList) in *.
  eapply StronglySorted_unique_strong; [|exact Hs|apply sorted_entries_sorted|].
  - intros x1 x2 H1 H2 Hle1 Hle2.
    rewrite Hp in H1. rewrite sorted_entries_perm in H2.
    apply (NoDup_fmap_eq se_origIdx _ x1 x2 Hnd H1 H2).
    exact (comp_antisym f x1 x2 Hle1 Hle2).
  - by rewrite Hp, sorted_entries_perm.
Qed.

Definition nic_tcp6 : NicAddress := MkNicAddress (replicate 16 Byte.x20) 0 (replicate 16 Byte.x00).
Definition nic_tcp4 : NicAddress :=
  MkNicAddress (beegfs_mapped_ipv4 (replicate 4 Byte.x0a)) 0 (replicate 16 Byte.x00).
Definition nic_rdma : NicAddress :=
  MkNicAddress (beegfs_mapped_ipv4 (replicate 4 Byte.x0b)) 2 (replicate 16 Byte.x00).

Lemma clone_sort_is_stable_witness :
  ListTk_cloneSortNicAddressList insertion_sort [] [nic_tcp6; nic_tcp4; nic_rdma] =
  [nic_rdma; nic_tcp4; nic_tcp6].
Proof.
  rewrite (clone_sort_is_stable insertion_sort [] [nic_tcp6; nic_tcp4; nic_rdma]);
    [reflexivity|apply insertion_sort_ok].
Defined.

(** ** The parser of the NIC filter *)

Section Parser.
Context (in4_pton in6_pton : list byte -> byte -> option (list byte * Z)) (char_signed : bool).

Lemma skip_space_length s : (length (skip_space char_signed s) <= length s)%nat.
Proof. induction s; cbn; [done|]. case_match; cbn; lia. Qed.

Lemma skip_space_head s c s' :
  skip_space char_signed s = c :: s' -> is_space char_signed c = false.
Proof. induction s as [|x s IH]; cbn; [done|]. case_match; [done|]. by intros [= <- <-]. Qed.

Lemma read_token_length n s token rest :
  read_token char_signed n s = Some (token, rest) -> length s = (length token + length rest)%nat.
Proof.
  revert n token. induction s as [|c s IH]; intros n token; cbn.
  - by intros [= <- <-].
  - case_match; [by intros [= <- <-]|]. case_match; [done|].
    destruct (read_token _ _ s) as [[t r]|] eqn:E; [|done]. intros [= <- <-]. cbn.
    by rewrite (IH _ _ E).
Qed.

Lemma read_token_progress c s' token rest : is_space char_signed c = false ->
  read_token char_signed 0 (c :: s') = Some (token, rest) -> (length rest <= length s')%nat.
Proof.
  intros Hc Hr. pose proof (read_token_length _ _ _ _ Hr) as Hl. cbn in Hl, Hr.
  rewrite Hc in Hr. destruct (read_token _ _ s') as [[t r]|]; [|done].
  injection Hr as <- <-. cbn in Hl. lia.
Qed.

(** The fuel of the column loop is enough: more of it does not change the result. *)
Lemma parse_columns_fuel fuel : forall fuel' column e s,
  (length s <= fuel)%nat -> (length s <= fuel')%nat ->
  parse_columns in4_pton in6_pton char_signed fuel column e s =
  parse_columns in4_pton in6_pton char_signed fuel' column e s.
Proof.
  induction fuel as [|fuel IH]; intros fuel' column e s H H'.
  - destruct s; [|cbn in H; lia]. by destruct fuel'.
  - pose proof (skip_space_length s).
    destruct (skip_space char_signed s) as [|c s'] eqn:Es.
    + destruct fuel'; cbn [parse_columns]; by rewrite Es.
    + destruct fuel' as [|fuel']; [cbn in *; lia|]. cbn [parse_columns]. rewrite Es.
      destruct (read_token char_signed 0 (c :: s')) as [[token rest]|] eqn:Er; [|done].
      apply read_token_progress in Er; [|by eapply skip_space_head].
      cbn [length mbind option_bind] in *. case_match; [by apply IH; lia|].
      destruct (set_column _ _ _ _ _); [|done]. cbn. by apply IH; lia.
Qed.

(** A first column of 15 characters, the longest name of a Linux interface, is refused. *)
Theorem longest_name_refused token rest : length token = 15%nat ->
  read_token char_signed 0 (token ++ rest) = Some (token, rest) ->
  is_space char_signed (hd Byte.x00 token) = false -> hd Byte.x00 token <> Byte.x21 ->
  parse_NicAddressFilterEntry in4_pton in6_pton char_signed (token ++ rest) = None.
Proof.
  intros Hl Hr Hs Hx. destruct token as [|c token]; [done|]. cbn in Hs, Hx.
  unfold parse_NicAddressFilterEntry.
  cbn [app skip_space]. rewrite Hs. destruct (decide (c = Byte.x21)); [done|].
  cbn [length parse_columns skip_space]. rewrite Hs.
  change (c :: token ++ rest) with ((c :: token) ++ rest). rewrite Hr.
  cbn [mbind option_bind]. destruct (decide (c :: token = [Byte.x2a])) as [E|]; [by rewrite E in Hl|].
  unfold set_column. cbn [Z.eqb]. unfold zlen, IFNAMSIZ. by rewrite Hl.
Qed.
End Parser.

Definition nosuch_filter : NicAddressFilter :=
  [MkNicAddressFilterEntry false (Some (txt "eth0")) None None None].
(** The filter does not let the loopback address pass, unlike its comment says. *)
Theorem nicfilter_refuses_loopback :
  NicAddressFilter_isAllowed nosuch_filter
    (MkNicAddress in6addr_loopback NICADDRTYPE_STANDARD (txt "lo")) = false.
Proof. reflexivity. Qed.
