(* ===== verification/ConnPool.v ===== *)
(** * The connection pool of a node

    Models [common/nodes/NodeConnPool.c] and [.h], [ConnectionList.h],
    [common/net/sock/PooledSocket.h] and [NicAddressStats.h] of [client_module/source].

    A socket is identified by its address, [ps_id]; the pool keeps the records of the
    sockets on its list, and a socket belongs to the pool ([PooledSocket_getPool]) when it
    is on that list.  The statistics of a local RDMA interface are identified likewise by
    [st_id]; sockets refer to them by that number.  The code between locking and unlocking
    the pool's mutex is one definition; [NodeConnPool_acquireStreamSocketEx] is the
    composition of its three critical sections with the connection attempts between them.
    The clock, the results of socket operations, signals and the handshake with the server
    are arguments.  The RDMA build is modelled, NVFS support is compiled out; log output is
    left out. *)

From S2P Require Import Prelude StorageErrors Serialization NetMessageTypes NetMessage MessagesSession MessagesNodes Nics.

(** ** Statistics of a local RDMA interface *)

(** A local interface with its device; [ibdev] is a pointer field of [NicAddress] that only
    local interfaces have set. *)
Record LocalNic := MkLocalNic { ln_nic : NicAddress; ln_ibdev : option Z }.

Record NicAddressStats := MkNicAddressStats {
  st_id : Z;
  st_nic : LocalNic;
  st_established : Z;
  st_available : Z;
  st_used : Time;
  st_lastError : Time;
  st_nicValid : bool
}.

Definition NicAddressStats_init (id : Z) (nic : LocalNic) : NicAddressStats :=
  MkNicAddressStats id nic 0 0 Time_initZero Time_initZero true.
Definition NicAddressStats_invalidate (this : NicAddressStats) : NicAddressStats :=
  MkNicAddressStats (st_id this) (MkLocalNic (ln_nic (st_nic this)) None) (st_established this)
    (st_available this) (st_used this) (st_lastError this) false.
Definition NicAddressStats_setValid (nic : LocalNic) (this : NicAddressStats)
    : NicAddressStats :=
  MkNicAddressStats (st_id this) nic (st_established this) (st_available this) (st_used this)
    (st_lastError this) true.
Definition NicAddressStats_updateUsed (now : Time) (this : NicAddressStats) : NicAddressStats :=
  MkNicAddressStats (st_id this) (st_nic this) (st_established this) (st_available this) now
    (st_lastError this) (st_nicValid this).
Definition NicAddressStats_updateLastError (now : Time) (this : NicAddressStats)
    : NicAddressStats :=
  MkNicAddressStats (st_id this) (st_nic this) (st_established this) (st_available this)
    (st_used this) now (st_nicValid this).
Definition st_add_established (d : Z) (this : NicAddressStats) : NicAddressStats :=
  MkNicAddressStats (st_id this) (st_nic this) (s32 (st_established this + d))
    (st_available this) (st_used this) (st_lastError this) (st_nicValid this).
Definition st_add_available (d : Z) (this : NicAddressStats) : NicAddressStats :=
  MkNicAddressStats (st_id this) (st_nic this) (st_established this)
    (s32 (st_available this + d)) (st_used this) (st_lastError this) (st_nicValid this).

(** [ibdev_to_node]: the NUMA node of a device. *)
Definition NicAddressStats_comparePriority (ibdev_to_node : Z -> Z)
    (this o : NicAddressStats) (numa : Z) : Z :=
  let rest :=
    let rc := s32 (st_available o - st_available this) in
    if negb (rc =? 0) then rc
    else
      let rc := s32 (st_established this - st_established o) in
      if negb (rc =? 0) then rc else Time_compare (st_used this) (st_used o) in
  match ln_ibdev (st_nic this), ln_ibdev (st_nic o) with
  | Some d, Some d' =>
      let thisNode := ibdev_to_node d in
      let oNode := ibdev_to_node d' in
      if negb (thisNode =? oNode) && (thisNode =? numa) then -1
      else if negb (thisNode =? oNode) && (oNode =? numa) then 1
      else rest
  | _, _ => rest
  end.

(** The comparison of [unsigned] with [int] is one of unsigned values. *)
Definition NicAddressStats_lastErrorExpired (this : NicAddressStats) (now : Time)
    (expirationSecs : Z) : bool :=
  u32 (expirationSecs * 1000) <=? Time_elapsedSinceMS now (st_lastError this).

Definition NicAddressStats_usable (this : NicAddressStats) (maxConns : Z) : bool :=
  match ln_ibdev (st_nic this) with
  | None => false
  | Some _ => (0 <? st_available this) || (st_established this <? maxConns)
  end.

(** ** Pooled sockets and connection lists *)

Record PooledSocket := MkPooledSocket {
  ps_id : Z;
  ps_sockType : Z;
  ps_peerIP : list byte;
  ps_peername : list byte;
  ps_available : bool;
  ps_hasActivity : bool;
  ps_closeOnRelease : bool;
  ps_expireTimeStart : Time;
  ps_nicType : Z;
  ps_nicStats : option Z
}.

(** A new socket of the given type, connected to [peerIP]; the constructors of both socket
    classes set [sockType] and [nicType] to the type of the class. *)
Definition _PooledSocket_init (id nicType : Z) (peerIP peername : list byte)
    (nicStats : option Z) : PooledSocket :=
  MkPooledSocket id nicType peerIP peername false true false Time_initZero nicType nicStats.

Definition PooledSocket_setAvailable (b : bool) (this : PooledSocket) : PooledSocket :=
  MkPooledSocket (ps_id this) (ps_sockType this) (ps_peerIP this) (ps_peername this) b
    (ps_hasActivity this) (ps_closeOnRelease this) (ps_expireTimeStart this) (ps_nicType this)
    (ps_nicStats this).
Definition ps_set_hasActivity (b : bool) (this : PooledSocket) : PooledSocket :=
  MkPooledSocket (ps_id this) (ps_sockType this) (ps_peerIP this) (ps_peername this)
    (ps_available this) b (ps_closeOnRelease this) (ps_expireTimeStart this) (ps_nicType this)
    (ps_nicStats this).
Definition PooledSocket_setHasActivity : PooledSocket -> PooledSocket := ps_set_hasActivity true.
Definition PooledSocket_resetHasActivity : PooledSocket -> PooledSocket := ps_set_hasActivity false.
Definition ps_set_closeOnRelease (b : bool) (this : PooledSocket) : PooledSocket :=
  MkPooledSocket (ps_id this) (ps_sockType this) (ps_peerIP this) (ps_peername this)
    (ps_available this) (ps_hasActivity this) b (ps_expireTimeStart this) (ps_nicType this)
    (ps_nicStats this).
Definition PooledSocket_setExpireTimeStart (now : Time) (this : PooledSocket) : PooledSocket :=
  MkPooledSocket (ps_id this) (ps_sockType this) (ps_peerIP this) (ps_peername this)
    (ps_available this) (ps_hasActivity this) (ps_closeOnRelease this) now (ps_nicType this)
    (ps_nicStats this).

Definition PooledSocket_getHasExpirationTimer (this : PooledSocket) : bool :=
  negb (Time_getIsZero (ps_expireTimeStart this)).
Definition PooledSocket_getHasExpired (now : Time) (this : PooledSocket) (expireSecs : Z) : bool :=
  if Time_getIsZero (ps_expireTimeStart this) then false
  else u32 (expireSecs * 1000) <? Time_elapsedMS now (ps_expireTimeStart this).

(** The list owns its sockets; an element is found by its address. *)
Abbreviation ConnectionList := (list PooledSocket).

Definition conn_find (id : Z) (this : ConnectionList) : option PooledSocket :=
  head (filter (fun s => ps_id s = id) this).
Definition ConnectionList_append (this : ConnectionList) (s : PooledSocket) : ConnectionList :=
  this ++ [s].
Definition ConnectionList_remove (this : ConnectionList) (id : Z) : ConnectionList :=
  filter (fun s => ps_id s <> id) this.
Definition ConnectionList_moveToHead (this : ConnectionList) (s : PooledSocket)
    : ConnectionList := s :: ConnectionList_remove this (ps_id s).
Definition ConnectionList_moveToTail (this : ConnectionList) (s : PooledSocket)
    : ConnectionList := ConnectionList_remove this (ps_id s) ++ [s].

(** ** The pool *)

Record NodeConnPoolStats := MkNodeConnPoolStats {
  numEstablishedStd : Z;
  numEstablishedRDMA : Z
}.
Record NodeConnPoolErrorState := MkNodeConnPoolErrorState {
  lastSuccessPeerIP : list byte;
  lastSuccessNicType : Z;
  wasLastTimeCompleteFail : bool
}.

(** The fields that the configuration fixes when the pool is made. *)
Record PoolConfig := MkPoolConfig {
  pc_maxConns : Z;
  pc_fallbackExpirationSecs : Z;
  pc_maxConcurrentAttempts : Z;
  pc_enableTCPFallback : bool
}.

Record NodeConnPool := MkNodeConnPool {
  cp_cfg : PoolConfig;
  cp_nicList : list NicAddress;
  cp_localRdmaNicList : list LocalNic;
  cp_rdmaNicStatsList : list NicAddressStats;
  cp_connList : ConnectionList;
  cp_streamPort : Z;
  cp_supportsRDMA : bool;
  cp_availableConns : Z;
  cp_establishedConns : Z;
  cp_rdmaNicCount : Z;
  cp_stats : NodeConnPoolStats;
  cp_errState : NodeConnPoolErrorState;
  cp_logConnErrors : bool
}.

Definition maxConns (this : NodeConnPool) : Z := pc_maxConns (cp_cfg this).

Definition set_nics (nics : list NicAddress) (port : Z) (this : NodeConnPool) : NodeConnPool :=
  MkNodeConnPool (cp_cfg this) nics (cp_localRdmaNicList this) (cp_rdmaNicStatsList this)
    (cp_connList this) port (cp_supportsRDMA this) (cp_availableConns this)
    (cp_establishedConns this) (cp_rdmaNicCount this) (cp_stats this) (cp_errState this)
    (cp_logConnErrors this).
Definition set_localRdma (nics : list LocalNic) (this : NodeConnPool) : NodeConnPool :=
  MkNodeConnPool (cp_cfg this) (cp_nicList this) nics (cp_rdmaNicStatsList this)
    (cp_connList this) (cp_streamPort this) (cp_supportsRDMA this) (cp_availableConns this)
    (cp_establishedConns this) (cp_rdmaNicCount this) (cp_stats this) (cp_errState this)
    (cp_logConnErrors this).
Definition set_rdmaStats (l : list NicAddressStats) (count : Z) (this : NodeConnPool)
    : NodeConnPool :=
  MkNodeConnPool (cp_cfg this) (cp_nicList this) (cp_localRdmaNicList this) l
    (cp_connList this) (cp_streamPort this) (cp_supportsRDMA this) (cp_availableConns this)
    (cp_establishedConns this) count (cp_stats this) (cp_errState this) (cp_logConnErrors this).
Definition set_connList (l : ConnectionList) (this : NodeConnPool) : NodeConnPool :=
  MkNodeConnPool (cp_cfg this) (cp_nicList this) (cp_localRdmaNicList this)
    (cp_rdmaNicStatsList this) l (cp_streamPort this) (cp_supportsRDMA this)
    (cp_availableConns this) (cp_establishedConns this) (cp_rdmaNicCount this) (cp_stats this)
    (cp_errState this) (cp_logConnErrors this).
Definition set_supportsRDMA (b : bool) (this : NodeConnPool) : NodeConnPool :=
  MkNodeConnPool (cp_cfg this) (cp_nicList this) (cp_localRdmaNicList this)
    (cp_rdmaNicStatsList this) (cp_connList this) (cp_streamPort this) b
    (cp_availableConns this) (cp_establishedConns this) (cp_rdmaNicCount this) (cp_stats this)
    (cp_errState this) (cp_logConnErrors this).
Definition add_availableConns (d : Z) (this : NodeConnPool) : NodeConnPool :=
  MkNodeConnPool (cp_cfg this) (cp_nicList this) (cp_localRdmaNicList this)
    (cp_rdmaNicStatsList this) (cp_connList this) (cp_streamPort this) (cp_supportsRDMA this)
    (u32 (cp_availableConns this + d)) (cp_establishedConns this) (cp_rdmaNicCount this)
    (cp_stats this) (cp_errState this) (cp_logConnErrors this).
Definition add_establishedConns (d : Z) (this : NodeConnPool) : NodeConnPool :=
  MkNodeConnPool (cp_cfg this) (cp_nicList this) (cp_localRdmaNicList this)
    (cp_rdmaNicStatsList this) (cp_connList this) (cp_streamPort this) (cp_supportsRDMA this)
    (cp_availableConns this) (u32 (cp_establishedConns this + d)) (cp_rdmaNicCount this)
    (cp_stats this) (cp_errState this) (cp_logConnErrors this).
Definition set_stats (s : NodeConnPoolStats) (this : NodeConnPool) : NodeConnPool :=
  MkNodeConnPool (cp_cfg this) (cp_nicList this) (cp_localRdmaNicList this)
    (cp_rdmaNicStatsList this) (cp_connList this) (cp_streamPort this) (cp_supportsRDMA this)
    (cp_availableConns this) (cp_establishedConns this) (cp_rdmaNicCount this) s
    (cp_errState this) (cp_logConnErrors this).
Definition set_errState (s : NodeConnPoolErrorState) (this : NodeConnPool) : NodeConnPool :=
  MkNodeConnPool (cp_cfg this) (cp_nicList this) (cp_localRdmaNicList this)
    (cp_rdmaNicStatsList this) (cp_connList this) (cp_streamPort this) (cp_supportsRDMA this)
    (cp_availableConns this) (cp_establishedConns this) (cp_rdmaNicCount this) (cp_stats this)
    s (cp_logConnErrors this).
Definition NodeConnPool_setLogConnErrors (b : bool) (this : NodeConnPool) : NodeConnPool :=
  MkNodeConnPool (cp_cfg this) (cp_nicList this) (cp_localRdmaNicList this)
    (cp_rdmaNicStatsList this) (cp_connList this) (cp_streamPort this) (cp_supportsRDMA this)
    (cp_availableConns this) (cp_establishedConns this) (cp_rdmaNicCount this) (cp_stats this)
    (cp_errState this) b.

(** ** Counters and error state *)

(** [f] applied to the statistics that a pointer refers to, if it is not NULL. *)
Definition upd_nicStats (f : NicAddressStats -> NicAddressStats) (p : option Z)
    (this : NodeConnPool) : NodeConnPool :=
  match p with
  | None => this
  | Some id =>
      set_rdmaStats ((fun st => if st_id st =? id then f st else st) <$> cp_rdmaNicStatsList this)
        (cp_rdmaNicCount this) this
  end.

(** [IBVSocket_getNicStats] of an RDMA socket. *)
Definition sock_nicStats (s : PooledSocket) : option Z :=
  if ps_sockType s =? NICADDRTYPE_RDMA then ps_nicStats s else None.

Definition __NodeConnPool_statsAddNic (nicType : Z) (this : NodeConnPool) : NodeConnPool :=
  let s := cp_stats this in
  set_stats (if nicType =? NICADDRTYPE_RDMA
             then MkNodeConnPoolStats (numEstablishedStd s) (u32 (numEstablishedRDMA s + 1))
             else MkNodeConnPoolStats (u32 (numEstablishedStd s + 1)) (numEstablishedRDMA s)) this.
Definition __NodeConnPool_statsRemoveNic (nicType : Z) (this : NodeConnPool) : NodeConnPool :=
  let s := cp_stats this in
  set_stats (if nicType =? NICADDRTYPE_RDMA
             then MkNodeConnPoolStats (numEstablishedStd s) (u32 (numEstablishedRDMA s - 1))
             else MkNodeConnPoolStats (u32 (numEstablishedStd s - 1)) (numEstablishedRDMA s)) this.

Definition __NodeConnPool_setCompleteFail (this : NodeConnPool) : NodeConnPool :=
  set_errState
    (MkNodeConnPoolErrorState in6addr_any (lastSuccessNicType (cp_errState this)) true) this.
Definition __NodeConnPool_setConnSuccess (peerIP : list byte) (nicType : Z) (this : NodeConnPool)
    : NodeConnPool := set_errState (MkNodeConnPoolErrorState peerIP nicType false) this.

Definition __NodeConnPool_equalsLastSuccess (this : NodeConnPool) (peerIP : list byte)
    (nicType : Z) : bool :=
  ipv6_addr_equal (lastSuccessPeerIP (cp_errState this)) peerIP &&
  (lastSuccessNicType (cp_errState this) =? nicType).
Definition __NodeConnPool_isLastSuccessInitialized (this : NodeConnPool) : bool :=
  negb (ipv6_addr_any (lastSuccessPeerIP (cp_errState this))).
Definition __NodeConnPool_shouldPrintConnectedLogMsg (this : NodeConnPool) (peerIP : list byte)
    (nicType : Z) : bool :=
  wasLastTimeCompleteFail (cp_errState this) ||
  negb (__NodeConnPool_isLastSuccessInitialized this) ||
  negb (__NodeConnPool_equalsLastSuccess this peerIP nicType).
Definition __NodeConnPool_shouldPrintConnectFailedLogMsg (this : NodeConnPool)
    (peerIP : list byte) (nicType : Z) : bool :=
  negb (wasLastTimeCompleteFail (cp_errState this)) &&
  (negb (__NodeConnPool_isLastSuccessInitialized this) ||
   __NodeConnPool_equalsLastSuccess this peerIP nicType).

(** ** Making a pool *)

Definition NodeConnPool_init (cfg : PoolConfig) (streamPort : Z) (nicList : list NicAddress)
    (localRdmaNicList : option (list LocalNic)) : NodeConnPool :=
  MkNodeConnPool cfg (ListTk_cloneNicAddressList nicList true)
    (default [] localRdmaNicList) [] [] streamPort false 0 0 (-1)
    (MkNodeConnPoolStats 0 0) (MkNodeConnPoolErrorState in6addr_any 0 false) true.

(** The first statistics with the name of the interface, taken off the list. *)
Fixpoint take_stats (name : list byte) (l : list NicAddressStats)
    : option (NicAddressStats * list NicAddressStats) :=
  match l with
  | [] => None
  | cur :: l' =>
      if decide (cstr (nic_name (ln_nic (st_nic cur))) = cstr name) then Some (cur, l')
      else '(st, rest) ← take_stats name l'; Some (st, cur :: rest)
  end.

(** The loop over the local interfaces: the new list and what is left of the old one; new
    statistics get the addresses [alloc], [alloc + 1], ... *)
Fixpoint stats_for_nics (alloc : Z) (nics : list LocalNic) (old : list NicAddressStats)
    : list NicAddressStats * list NicAddressStats :=
  match nics with
  | [] => ([], old)
  | nic :: nics' =>
      match take_stats (nic_name (ln_nic nic)) old with
      | Some (cur, old') =>
          let '(l, rest) := stats_for_nics alloc nics' old' in
          (NicAddressStats_setValid nic cur :: l, rest)
      | None =>
          let '(l, rest) := stats_for_nics (alloc + 1) nics' old in
          (NicAddressStats_init alloc nic :: l, rest)
      end
  end.

Definition NodeConnPool_loadRdmaNicStatsList (nodeType alloc : Z) (this : NodeConnPool)
    : NodeConnPool :=
  if (nodeType =? NODETYPE_Meta) || (nodeType =? NODETYPE_Storage) then
    let '(l, rest) :=
      stats_for_nics alloc (cp_localRdmaNicList this) (cp_rdmaNicStatsList this) in
    set_rdmaStats (l ++ (NicAddressStats_invalidate <$> rest)) (zlen (cp_localRdmaNicList this)) this
  else set_rdmaStats (cp_rdmaNicStatsList this) 0 this.

(** ** Choosing an interface *)

Section Priority.
Context (ibdev_to_node : Z -> Z).

Fixpoint priority_loop (now : Time) (expirationSecs nicMaxConns numa : Z)
    (l : list NicAddressStats) (min : option NicAddressStats) : option NicAddressStats :=
  match l with
  | [] => min
  | cur :: l' =>
      if negb (st_nicValid cur) then min
      else
        let min' :=
          if negb (NicAddressStats_usable cur nicMaxConns) then min
          else if negb (NicAddressStats_lastErrorExpired cur now expirationSecs) then min
          else
            match min with
            | None => Some cur
            | Some m =>
                if 0 <? NicAddressStats_comparePriority ibdev_to_node m cur numa
                then Some cur else min
            end in
        priority_loop now expirationSecs nicMaxConns numa l' min'
  end.

(** The chosen statistics; they are marked as used at [now2]. *)
Definition NodeConnPool_rdmaNicPriority (now now2 : Time) (numa nicMaxConns : Z)
    (this : NodeConnPool) : option Z * NodeConnPool :=
  if cp_rdmaNicCount this <? 1 then (None, this)
  else
    match priority_loop now (s32 (pc_fallbackExpirationSecs (cp_cfg this))) nicMaxConns numa
            (cp_rdmaNicStatsList this) None with
    | None => (None, this)
    | Some st =>
        (Some (st_id st), upd_nicStats (NicAddressStats_updateUsed now2) (Some (st_id st)) this)
    end.

(** ** Acquiring: the critical section *)

(** How the section ends: [NULL] is returned, the thread waits for a change, a pooled socket
    is taken, or a slot is reserved for a new connection over these interfaces.
    [Acq_fault]: the search leaves its result uninitialised. *)
Inductive AcquireStep :=
| Acq_null
| Acq_wait
| Acq_sock (id : Z)
| Acq_connect (srcRdma : option Z) (nics : list NicAddress)
| Acq_fault.

Record SelectEnv := MkSelectEnv {
  se_nodeType : Z;
  se_alloc : Z;
  se_now : Time;
  se_now2 : Time;
  se_numa : Z
}.

Definition pool_exhausted (this : NodeConnPool) : bool :=
  (cp_availableConns this =? 0) && (cp_establishedConns this =? maxConns this).

Fixpoint find_conn (srcRdma : option Z) (l : ConnectionList) : option PooledSocket :=
  match l with
  | [] => None
  | s :: l' =>
      if ps_available s &&
         match srcRdma with
         | None => true
         | Some id => (ps_sockType s =? NICADDRTYPE_RDMA) && bool_decide (ps_nicStats s = Some id)
         end
      then Some s else find_conn srcRdma l'
  end.

Definition grab_conn (srcRdma : option Z) (s : PooledSocket) (this : NodeConnPool)
    : NodeConnPool :=
  let s' := PooledSocket_setHasActivity (PooledSocket_setAvailable false s) in
  upd_nicStats (st_add_available (-1)) srcRdma
    (add_availableConns (-1)
       (set_connList (ConnectionList_moveToTail (cp_connList this) s') this)).

Definition reserve_conn (nodeType : Z) (srcRdma : option Z) (this : NodeConnPool)
    : AcquireStep * NodeConnPool :=
  let includeTcp :=
    negb (negb (pc_enableTCPFallback (cp_cfg this)) &&
          ((nodeType =? NODETYPE_Meta) || (nodeType =? NODETYPE_Storage))) in
  (Acq_connect srcRdma (ListTk_cloneNicAddressList (cp_nicList this) includeTcp),
   upd_nicStats (st_add_established 1) srcRdma (add_establishedConns 1 this)).

(** The section from the end of the wait loop on; [devPrioCtx] tells whether the argument is
    not NULL (its only field is overwritten before it is read). *)
Definition acquire_select (env : SelectEnv) (devPrioCtx : bool) (this : NodeConnPool)
    : AcquireStep * NodeConnPool :=
  let '(srcRdma, this) :=
    if 0 <? cp_rdmaNicCount this then
      if devPrioCtx || (se_nodeType env =? NODETYPE_Meta)
      then NodeConnPool_rdmaNicPriority (se_now env) (se_now2 env) (se_numa env)
             (s32 (maxConns this / cp_rdmaNicCount this)) this
      else (None, this)
    else (None, this) in
  if cp_availableConns this =? 0 then reserve_conn (se_nodeType env) srcRdma this
  else
    match cp_connList this with
    | [] => (Acq_fault, this)
    | _ =>
        match find_conn srcRdma (cp_connList this) with
        | Some s => (Acq_sock (ps_id s), grab_conn srcRdma s this)
        | None => reserve_conn (se_nodeType env) srcRdma this
        end
    end.

(** The section from its start to the first wait. *)
Definition acquire_enter (env : SelectEnv) (allowWaiting devPrioCtx : bool) (this : NodeConnPool)
    : AcquireStep * NodeConnPool :=
  let this :=
    if cp_rdmaNicCount this <? 0
    then NodeConnPool_loadRdmaNicStatsList (se_nodeType env) (se_alloc env) this else this in
  if pool_exhausted this then ((if allowWaiting then Acq_wait else Acq_null), this)
  else acquire_select env devPrioCtx this.

(** After a wait; [signal]: the wait was interrupted. *)
Definition acquire_woken (env : SelectEnv) (devPrioCtx signal : bool) (this : NodeConnPool)
    : AcquireStep * NodeConnPool :=
  if signal then (Acq_null, this)
  else if pool_exhausted this then (Acq_wait, this)
  else acquire_select env devPrioCtx this.
End Priority.

(** ** Acquiring: the connection attempts *)

(** What happens to the attempt at one interface: the new socket (none: its construction
    failed), whether the connection is made, the signals seen on the way and the clock.  A
    pending fatal signal stays pending: [ce_fatal_failed] and [ce_fatal_next] say that one
    arrived before the check. *)
Record ConnectEnv := MkConnectEnv {
  ce_constructed : bool;
  ce_id : Z;
  ce_peername : list byte;
  ce_connected : bool;
  ce_signal_pending : bool;
  ce_now : Time;
  ce_fatal_failed : bool;
  ce_fatal_next : bool
}.

(** The state after the loop: the connected socket, whether all interfaces have been tried,
    whether a fatal signal is pending, whether it interrupted an RDMA connection. *)
Record ConnectResult := MkConnectResult {
  cr_sock : option PooledSocket;
  cr_end : bool;
  cr_fatal : bool;
  cr_rdmaConnectInterrupted : bool
}.

Section Connect.
Context (netFilter tcpOnlyFilter : NetFilter).

(** [env i] is the environment of the [i]-th interface of the list. *)
Fixpoint connect_nics (env : nat -> ConnectEnv) (supportsRDMA : bool) (srcRdma : option Z)
    (isPrimaryInterface fatal interrupted : bool) (nics : list NicAddress) : ConnectResult :=
  match nics with
  | [] => MkConnectResult None true fatal interrupted
  | nic :: nics' =>
      let e := env O in
      let loop := connect_nics (fun i => env (S i)) supportsRDMA srcRdma in
      let next_iteration primary fatal interrupted :=
        let fatal := fatal || ce_fatal_next e in
        if fatal then MkConnectResult None false fatal interrupted
        else loop primary fatal interrupted nics' in
      let attempt (nicStats : option Z) :=
        if negb (ce_constructed e) then next_iteration isPrimaryInterface fatal interrupted
        else if ce_connected e then
          let s := _PooledSocket_init (ce_id e) (nic_nicType nic) (nic_ipAddr nic)
                     (ce_peername e) nicStats in
          let s :=
            if isPrimaryInterface then s
            else ps_set_closeOnRelease (ce_signal_pending e)
                   (PooledSocket_setExpireTimeStart (ce_now e) s) in
          MkConnectResult (Some s) false fatal interrupted
        else
          if nic_nicType nic =? NICADDRTYPE_RDMA
          then let fatal := fatal || ce_fatal_failed e in
               next_iteration false fatal (interrupted || fatal)
          else next_iteration false fatal interrupted in
      if negb (NetFilter_isAllowed netFilter (nic_ipAddr nic))
      then loop isPrimaryInterface fatal interrupted nics'
      else if negb (nic_nicType nic =? NICADDRTYPE_STANDARD) &&
              NetFilter_isContained tcpOnlyFilter (nic_ipAddr nic)
      then loop isPrimaryInterface fatal interrupted nics'
      else if nic_nicType nic =? NICADDRTYPE_RDMA then
        if supportsRDMA then attempt srcRdma
        else next_iteration isPrimaryInterface fatal interrupted
      else if nic_nicType nic =? NICADDRTYPE_STANDARD then attempt None
      else next_iteration isPrimaryInterface fatal interrupted
  end.
End Connect.

(** ** Acquiring: the second critical section *)

Definition add_conn (srcRdma : option Z) (interrupted : bool) (now : Time) (s : PooledSocket)
    (this : NodeConnPool) : NodeConnPool :=
  let this :=
    if negb (ps_sockType s =? NICADDRTYPE_RDMA)
    then upd_nicStats (fun st =>
           let st := st_add_established (-1) st in
           if interrupted then st else NicAddressStats_updateLastError now st) srcRdma this
    else this in
  __NodeConnPool_setConnSuccess (ps_peerIP s) (ps_sockType s)
    (__NodeConnPool_statsAddNic (ps_nicType s)
       (set_connList (ConnectionList_append (cp_connList this) s) this)).

Definition fail_conn (srcRdma : option Z) (interrupted fatal : bool) (now : Time)
    (this : NodeConnPool) : NodeConnPool :=
  let this :=
    upd_nicStats (fun st =>
      let st := st_add_established (-1) st in
      if interrupted then st else NicAddressStats_updateLastError now st) srcRdma
      (add_establishedConns (-1) this) in
  if fatal then this else __NodeConnPool_setCompleteFail this.

(** The address of the new connection, if the call goes on with one; [fatal] and [fatal2]:
    a fatal signal arrived before the section or within it.  A connected socket that is not
    added to the pool is not closed either: it is the third component. *)
Definition acquire_commit (srcRdma : option Z) (r : ConnectResult) (fatal fatal2 : bool)
    (now : Time) (this : NodeConnPool) : option Z * NodeConnPool * option PooledSocket :=
  let fatal := cr_fatal r || fatal in
  match cr_sock r with
  | Some s =>
      if negb (cr_end r) && negb fatal
      then (Some (ps_id s), add_conn srcRdma (cr_rdmaConnectInterrupted r) now s this, None)
      else (None, fail_conn srcRdma (cr_rdmaConnectInterrupted r) (fatal || fatal2) now this,
            Some s)
  | None =>
      (None, fail_conn srcRdma (cr_rdmaConnectInterrupted r) (fatal || fatal2) now this, None)
  end.

(** ** Releasing and invalidating *)

Definition __NodeConnPool_invalidateSpecificStreamSocket (id : Z) (this : NodeConnPool)
    : NodeConnPool :=
  match conn_find id (cp_connList this) with
  | None => this
  | Some s =>
      let this := add_establishedConns (-1) this in
      let this := upd_nicStats (st_add_established (-1)) (sock_nicStats s) this in
      let this := set_connList (ConnectionList_remove (cp_connList this) id) this in
      __NodeConnPool_statsRemoveNic (ps_nicType s) this
  end.

(** The check for expiry is before the critical section. *)
Definition NodeConnPool_releaseStreamSocket (now : Time) (id : Z) (this : NodeConnPool)
    : NodeConnPool :=
  match conn_find id (cp_connList this) with
  | None => this
  | Some s =>
      if PooledSocket_getHasExpired now s (pc_fallbackExpirationSecs (cp_cfg this)) ||
         ps_closeOnRelease s
      then __NodeConnPool_invalidateSpecificStreamSocket id this
      else
        let this := add_availableConns 1 this in
        let s := PooledSocket_setAvailable true s in
        let this := set_connList (ConnectionList_moveToHead (cp_connList this) s) this in
        upd_nicStats (st_add_available 1) (sock_nicStats s) this
  end.

(** Stage 1: which sockets are taken, and what the loop does to one. *)
Definition is_grabbed (idleStreamsOnly : bool) (s : PooledSocket) : bool :=
  ps_available s && negb (idleStreamsOnly && ps_hasActivity s).
Definition stage1_sock (idleStreamsOnly closeOnRelease : bool) (s : PooledSocket)
    : PooledSocket :=
  let s' := if closeOnRelease then ps_set_closeOnRelease true s else s in
  if is_grabbed idleStreamsOnly s then PooledSocket_setAvailable false s' else s'.

Fixpoint stage1_counters (idleStreamsOnly : bool) (l : ConnectionList) (this : NodeConnPool)
    : NodeConnPool :=
  match l with
  | [] => this
  | s :: l' =>
      stage1_counters idleStreamsOnly l'
        (if is_grabbed idleStreamsOnly s
         then upd_nicStats (st_add_available (-1)) (sock_nicStats s) (add_availableConns (-1) this)
         else this)
  end.

Definition invalidate_stage1 (idleStreamsOnly closeOnRelease : bool) (this : NodeConnPool)
    : list Z * NodeConnPool :=
  let l := cp_connList this in
  (ps_id <$> filter (fun s => is_grabbed idleStreamsOnly s = true) l,
   set_connList (stage1_sock idleStreamsOnly closeOnRelease <$> l)
     (stage1_counters idleStreamsOnly l this)).

(** Both stages, without other threads in between; with the number of sockets. *)
Definition __NodeConnPool_invalidateAvailableStreams (idleStreamsOnly closeOnRelease : bool)
    (this : NodeConnPool) : Z * NodeConnPool :=
  let '(grabbed, this) := invalidate_stage1 idleStreamsOnly closeOnRelease this in
  (zlen grabbed,
   foldl (fun pool id => __NodeConnPool_invalidateSpecificStreamSocket id pool) this grabbed).

Definition NodeConnPool_invalidateStreamSocket (id : Z) (this : NodeConnPool) : NodeConnPool :=
  __NodeConnPool_invalidateSpecificStreamSocket id
    (__NodeConnPool_invalidateAvailableStreams false false this).2.

Definition NodeConnPool_disconnectAvailableStreams (this : NodeConnPool) : Z * NodeConnPool :=
  __NodeConnPool_invalidateAvailableStreams false false this.

Definition __NodeConnPool_resetStreamsIdleFlag (this : NodeConnPool) : NodeConnPool :=
  set_connList
    ((fun s => if ps_available s then PooledSocket_resetHasActivity s else s) <$> cp_connList this)
    this.

Definition NodeConnPool_disconnectAndResetIdleStreams (this : NodeConnPool) : Z * NodeConnPool :=
  let '(n, this) := __NodeConnPool_invalidateAvailableStreams true false this in
  (n, __NodeConnPool_resetStreamsIdleFlag this).

(** The loop of [NodeConnPool_uninit]: as many rounds as there are connections. *)
Fixpoint uninit_loop (n : nat) (this : NodeConnPool) : NodeConnPool :=
  match n, cp_connList this with
  | S n', s :: _ => uninit_loop n' (__NodeConnPool_invalidateSpecificStreamSocket (ps_id s) this)
  | _, _ => this
  end.
Definition NodeConnPool_uninit (this : NodeConnPool) : NodeConnPool :=
  uninit_loop (length (cp_connList this)) this.

(** ** Updates of the interfaces *)

Definition update_interfaces_section (streamPort : Z) (nicList : list NicAddress)
    (this : NodeConnPool) : bool * NodeConnPool :=
  let portChanged := negb (streamPort =? 0) && negb (streamPort =? cp_streamPort this) in
  let nicsChanged := negb (NicAddressList_equals (cp_nicList this) nicList) in
  (portChanged || nicsChanged,
   set_nics (if nicsChanged then ListTk_cloneNicAddressList nicList true else cp_nicList this)
     (if portChanged then streamPort else cp_streamPort this) this).
Definition NodeConnPool_updateInterfaces (streamPort : Z) (nicList : list NicAddress)
    (this : NodeConnPool) : bool * NodeConnPool :=
  let '(hasChanged, this) := update_interfaces_section streamPort nicList this in
  (hasChanged,
   if hasChanged then (__NodeConnPool_invalidateAvailableStreams false true this).2 else this).

Definition update_local_section (nodeType alloc : Z) (supportsRDMA : bool)
    (localRdmaNicList : option (list LocalNic)) (this : NodeConnPool) : NodeConnPool :=
  let this := set_supportsRDMA supportsRDMA this in
  match localRdmaNicList with
  | None => this
  | Some nics => NodeConnPool_loadRdmaNicStatsList nodeType alloc (set_localRdma nics this)
  end.
Definition NodeConnPool_updateLocalInterfaces (nodeType alloc : Z) (supportsRDMA : bool)
    (localRdmaNicList : option (list LocalNic)) (this : NodeConnPool) : NodeConnPool :=
  (__NodeConnPool_invalidateAvailableStreams false true
     (update_local_section nodeType alloc supportsRDMA localRdmaNicList this)).2.

(** ** Queries *)

Definition NodeConnPool_getStats (this : NodeConnPool) : NodeConnPoolStats := cp_stats this.

Definition scnprintf_s (outBufLen : Z) (s : list byte) : list byte :=
  take (Z.to_nat (outBufLen - 1)) (cstr s).
Definition str_busy : list byte := [Byte.x62; Byte.x75; Byte.x73; Byte.x79].

(** The text in the buffer, its length, and [outIsNonPrimary]. *)
Definition NodeConnPool_getFirstPeerName (this : NodeConnPool) (nicType outBufLen : Z)
    : list byte * Z * bool :=
  let '(text, nonPrimary) :=
    match head (filter (fun s => ps_available s = true /\ ps_sockType s = nicType)
                  (cp_connList this)) with
    | Some s => (scnprintf_s outBufLen (ps_peername s), PooledSocket_getHasExpirationTimer s)
    | None => (scnprintf_s outBufLen str_busy, false)
    end in
  (text, zlen text, nonPrimary).

(** ** Preparing a new connection *)

(** The socket options that are set before connecting, by socket class and node type. *)
Inductive SockOption :=
| SO_rcvBuf (bufSize : Z)
| SO_rdmaBuffers (bufNum bufSize fragmentSize keyType : Z)
| SO_rdmaTimeouts (connect completion flowSend flowRecv poll : Z)
| SO_rdmaTypeOfService (tos : Z)
| SO_rdmaConnectionFailureStatus (value : Z).

Record ConnConfig := MkConnConfig {
  cc_tcpRcvBufSize : Z;
  cc_rdmaMetaBufNum : Z; cc_rdmaMetaBufSize : Z; cc_rdmaMetaFragmentSize : Z;
  cc_rdmaBufNum : Z; cc_rdmaBufSize : Z; cc_rdmaFragmentSize : Z;
  cc_rdmaKeyType : Z;
  cc_rdmaTimeoutConnect : Z; cc_rdmaTimeoutCompletion : Z; cc_rdmaTimeoutFlowSend : Z;
  cc_rdmaTimeoutFlowRecv : Z; cc_rdmaTimeoutPoll : Z;
  cc_rdmaTypeOfService : Z;
  cc_remapConnectionFailureStatus : Z
}.

Definition __NodeConnPool_applySocketOptionsPreConnect (cfg : ConnConfig) (nodeType sockType : Z)
    : list SockOption :=
  if sockType =? NICADDRTYPE_STANDARD then
    if 0 <? cc_tcpRcvBufSize cfg then [SO_rcvBuf (cc_tcpRcvBufSize cfg)] else []
  else if sockType =? NICADDRTYPE_RDMA then
    [if nodeType =? NODETYPE_Meta
     then SO_rdmaBuffers (cc_rdmaMetaBufNum cfg) (cc_rdmaMetaBufSize cfg)
            (cc_rdmaMetaFragmentSize cfg) (cc_rdmaKeyType cfg)
     else SO_rdmaBuffers (cc_rdmaBufNum cfg) (cc_rdmaBufSize cfg) (cc_rdmaFragmentSize cfg)
            (cc_rdmaKeyType cfg);
     SO_rdmaTimeouts (cc_rdmaTimeoutConnect cfg) (cc_rdmaTimeoutCompletion cfg)
       (cc_rdmaTimeoutFlowSend cfg) (cc_rdmaTimeoutFlowRecv cfg) (cc_rdmaTimeoutPoll cfg);
     SO_rdmaTypeOfService (cc_rdmaTypeOfService cfg);
     SO_rdmaConnectionFailureStatus (cc_remapConnectionFailureStatus cfg)]
  else [].

(** A message is serialised into a fresh buffer of its length and sent; the result of the
    send call is stored in a [size_t]. *)
Definition send_control {M} `{NetMessageOps M} (fresh : Z -> list byte) (send : list byte -> Z)
    (msg : NetMessage M) : option (list byte * Z) :=
  '(len, msg) ← NetMessage_getMsgLength msg;
  '(_, buf) ← NetMessage_serialize msg (Some (fresh len)) len;
  buf ← buf;
  Some (buf, u64 (send buf)).

(** The three options of a TCP socket succeed or not ([optsOk]); [send] gives the result of
    each send call.  The bytes sent, in order, and the return value. *)
Definition __NodeConnPool_applySocketOptionsConnected (uid : Z) (sockType authHash localNumID : Z)
    (optsOk : bool) (fresh : Z -> list byte) (kmalloc_ok : bool) (send : list byte -> Z)
    : option (list (list byte) * bool) :=
  let ok0 := if sockType =? NICADDRTYPE_STANDARD then optsOk else true in
  '(sent1, ok1) ←
    (if authHash =? 0 then Some ([], true)
     else '(buf, sendRes) ← send_control fresh send
                              (AuthenticateChannelMsg_initFromValue uid authHash);
          Some ([buf], negb (sendRes <=? 0)));
  '(buf2, sendRes) ← send_control fresh send (SetChannelDirectMsg_initFromValue uid 0);
  let ok2 := negb (sendRes <=? 0) in
  '(sent3, sendRes) ←
    (if kmalloc_ok
     then '(buf, sendRes) ← send_control fresh send
                              (PeerInfoMsg_init uid NODETYPE_Client localNumID);
          Some ([buf], sendRes)
     else Some ([], u64 (-1)));
  let ok3 := negb (sendRes <=? 0) in
  Some (sent1 ++ [buf2] ++ sent3, ok0 && ok1 && ok2 && ok3).

(** ** Acquiring: the whole call *)

(** What one activation of the function sees, in the order of the code: the fatal signal at
    its start, the wakeups while the pool is exhausted (the pool as the thread finds it, or
    a signal), the interrupted semaphore, the attempts, the signals around the second
    section, the result of the handshake, the clock when the socket is given back.  Other
    threads use the pool whenever the mutex is free: [ae_others_connect], [ae_others_handshake]
    and [ae_others_again] are what they make of it during the attempts, during the handshake,
    and between giving the socket back and the next activation. *)
Record AcquireEnv := MkAcquireEnv {
  ae_fatal_start : bool;
  ae_select : SelectEnv;
  ae_wakeups : list (option NodeConnPool);
  ae_sem_interrupted : bool;
  ae_connect : nat -> ConnectEnv;
  ae_others_connect : NodeConnPool -> NodeConnPool;
  ae_fatal_commit : bool;
  ae_fatal_commit2 : bool;
  ae_now : Time;
  ae_handshake : Z;
  ae_others_handshake : NodeConnPool -> NodeConnPool;
  ae_now_release : Time;
  ae_others_again : NodeConnPool -> NodeConnPool
}.

Inductive AcquireResult :=
| Acquired (sock : option Z) (pool : NodeConnPool)
| Acquire_blocked (pool : NodeConnPool)
| Acquire_fault
| Acquire_out_of_fuel.

Section Acquire.
Context (ibdev_to_node : Z -> Z) (netFilter tcpOnlyFilter : NetFilter).

(** The wait loop: it goes on while wakeups find the pool exhausted. *)
Fixpoint wait_loop (env : SelectEnv) (devPrioCtx : bool) (wakeups : list (option NodeConnPool))
    (this : NodeConnPool) : AcquireStep * NodeConnPool :=
  match wakeups with
  | [] => (Acq_wait, this)
  | None :: _ => acquire_woken ibdev_to_node env devPrioCtx true this
  | Some pool :: wakeups' =>
      match acquire_woken ibdev_to_node env devPrioCtx false pool with
      | (Acq_wait, pool') => wait_loop env devPrioCtx wakeups' pool'
      | r => r
      end
  end.

(** [depth] counts the recursive calls; [env depth] is what the activation sees. *)
Fixpoint NodeConnPool_acquireStreamSocketEx (fuel : nat) (env : nat -> AcquireEnv) (sysRemoteInvalEnabled : bool)
    (allowWaiting devPrioCtx : bool) (this : NodeConnPool) : AcquireResult :=
  match fuel with
  | O => Acquire_out_of_fuel
  | S fuel' =>
      let e := env O in
      if ae_fatal_start e then Acquired None this
      else
        let '(step, this) :=
          match acquire_enter ibdev_to_node (ae_select e) allowWaiting devPrioCtx this with
          | (Acq_wait, this') => wait_loop (ae_select e) devPrioCtx (ae_wakeups e) this'
          | r => r
          end in
        match step with
        | Acq_null => Acquired None this
        | Acq_wait => Acquire_blocked this
        | Acq_sock id => Acquired (Some id) this
        | Acq_fault => Acquire_fault
        | Acq_connect srcRdma nics =>
            if (0 <? pc_maxConcurrentAttempts (cp_cfg this)) && ae_sem_interrupted e
            then Acquired None this
            else
              let r := connect_nics netFilter tcpOnlyFilter (ae_connect e) (cp_supportsRDMA this)
                         srcRdma true false false nics in
              let '(sock, this, _) :=
                acquire_commit srcRdma r (ae_fatal_commit e) (ae_fatal_commit2 e) (ae_now e)
                  (ae_others_connect e this) in
              match sock with
              | None => Acquired None this
              | Some id =>
                  if sysRemoteInvalEnabled && (se_nodeType (ae_select e) =? NODETYPE_Meta) then
                    let this := ae_others_handshake e this in
                    if (ae_handshake e =? FhgfsOpsErr_SUCCESS) ||
                       (ae_handshake e =? FhgfsOpsErr_NOTSUPP)
                    then NodeConnPool_acquireStreamSocketEx fuel' (fun i => env (S i)) sysRemoteInvalEnabled
                           allowWaiting devPrioCtx
                           (ae_others_again e (NodeConnPool_releaseStreamSocket (ae_now_release e) id this))
                    else Acquired None (__NodeConnPool_invalidateSpecificStreamSocket id this)
                  else Acquired (Some id) this
              end
        end
  end.

(** The call without device preference that may wait. *)
Definition NodeConnPool_acquireStreamSocket (fuel : nat) (env : nat -> AcquireEnv)
    (sysRemoteInvalEnabled : bool) (this : NodeConnPool) : AcquireResult :=
  NodeConnPool_acquireStreamSocketEx fuel env sysRemoteInvalEnabled true false this.
End Acquire.

(** ** Threads at the pool

    The critical sections of all callers in any order.  [w_held] are the sockets that
    callers have acquired, [w_dying] those that stage 1 of an invalidation has taken and
    stage 2 has not closed yet, [w_attempts] the reserved slots whose connection attempt is
    going on, [w_lost] the slots whose attempt was interrupted at the semaphore. *)

Record World := MkWorld {
  w_pool : NodeConnPool;
  w_held : list Z;
  w_dying : list Z;
  w_attempts : list (option Z);
  w_lost : list (option Z)
}.

Definition NodeConnPool_initWorld (cfg : PoolConfig) (streamPort : Z)
    (nicList : list NicAddress) (localRdmaNicList : option (list LocalNic)) : World :=
  MkWorld (NodeConnPool_init cfg streamPort nicList localRdmaNicList) [] [] [] [].

(** Addresses of new objects are not in use. *)
Definition fresh_sock (id : Z) (w : World) : Prop := id ∉ ps_id <$> cp_connList (w_pool w).
Definition fresh_stats (alloc : Z) (w : World) : Prop :=
  forall st, st ∈ cp_rdmaNicStatsList (w_pool w) -> st_id st < alloc.

Section Threads.
Context (ibdev_to_node : Z -> Z) (netFilter tcpOnlyFilter : NetFilter).

Inductive world_step : World -> World -> Prop :=
| step_acquire_none w env allowWaiting devPrioCtx res pool' :
    fresh_stats (se_alloc env) w ->
    acquire_enter ibdev_to_node env allowWaiting devPrioCtx (w_pool w) = (res, pool') ->
    res = Acq_null \/ res = Acq_wait ->
    world_step w (MkWorld pool' (w_held w) (w_dying w) (w_attempts w) (w_lost w))
| step_acquire_sock w env allowWaiting devPrioCtx id pool' :
    fresh_stats (se_alloc env) w ->
    acquire_enter ibdev_to_node env allowWaiting devPrioCtx (w_pool w) = (Acq_sock id, pool') \/
    acquire_woken ibdev_to_node env devPrioCtx false (w_pool w) = (Acq_sock id, pool') ->
    world_step w (MkWorld pool' (id :: w_held w) (w_dying w) (w_attempts w) (w_lost w))
| step_acquire_slot w env allowWaiting devPrioCtx srcRdma nics pool' :
    fresh_stats (se_alloc env) w ->
    acquire_enter ibdev_to_node env allowWaiting devPrioCtx (w_pool w) =
      (Acq_connect srcRdma nics, pool') \/
    acquire_woken ibdev_to_node env devPrioCtx false (w_pool w) =
      (Acq_connect srcRdma nics, pool') ->
    world_step w (MkWorld pool' (w_held w) (w_dying w) (srcRdma :: w_attempts w) (w_lost w))
| step_interrupted w srcRdma before after :
    0 < pc_maxConcurrentAttempts (cp_cfg (w_pool w)) ->
    w_attempts w = before ++ srcRdma :: after ->
    world_step w (MkWorld (w_pool w) (w_held w) (w_dying w) (before ++ after)
                    (srcRdma :: w_lost w))
| step_commit w srcRdma before after env nics fatal fatal2 now id pool' leak :
    w_attempts w = before ++ srcRdma :: after ->
    acquire_commit srcRdma
      (connect_nics netFilter tcpOnlyFilter env (cp_supportsRDMA (w_pool w)) srcRdma true false
         false nics) fatal fatal2 now (w_pool w) = (Some id, pool', leak) ->
    fresh_sock id w ->
    world_step w (MkWorld pool' (id :: w_held w) (w_dying w) (before ++ after) (w_lost w))
| step_connect_failed w srcRdma before after env nics fatal fatal2 now pool' leak :
    w_attempts w = before ++ srcRdma :: after ->
    acquire_commit srcRdma
      (connect_nics netFilter tcpOnlyFilter env (cp_supportsRDMA (w_pool w)) srcRdma true false
         false nics) fatal fatal2 now (w_pool w) = (None, pool', leak) ->
    world_step w (MkWorld pool' (w_held w) (w_dying w) (before ++ after) (w_lost w))
| step_release w now id before after :
    w_held w = before ++ id :: after ->
    world_step w (MkWorld (NodeConnPool_releaseStreamSocket now id (w_pool w)) (before ++ after)
                    (w_dying w) (w_attempts w) (w_lost w))
| step_invalidate w id before after :
    w_held w = before ++ id :: after ->
    world_step w (MkWorld (__NodeConnPool_invalidateSpecificStreamSocket id (w_pool w))
                    (before ++ after) (w_dying w) (w_attempts w) (w_lost w))
| step_stage1 w idleStreamsOnly closeOnRelease grabbed pool' :
    invalidate_stage1 idleStreamsOnly closeOnRelease (w_pool w) = (grabbed, pool') ->
    world_step w (MkWorld pool' (w_held w) (grabbed ++ w_dying w) (w_attempts w) (w_lost w))
| step_stage2 w id before after :
    w_dying w = before ++ id :: after ->
    world_step w (MkWorld (__NodeConnPool_invalidateSpecificStreamSocket id (w_pool w))
                    (w_held w) (before ++ after) (w_attempts w) (w_lost w))
| step_reset_idle w :
    world_step w (MkWorld (__NodeConnPool_resetStreamsIdleFlag (w_pool w)) (w_held w) (w_dying w)
                    (w_attempts w) (w_lost w))
| step_update_interfaces w streamPort nicList hasChanged pool' :
    update_interfaces_section streamPort nicList (w_pool w) = (hasChanged, pool') ->
    world_step w (MkWorld pool' (w_held w) (w_dying w) (w_attempts w) (w_lost w))
| step_update_local w nodeType alloc supportsRDMA localRdmaNicList :
    fresh_stats alloc w ->
    world_step w (MkWorld (update_local_section nodeType alloc supportsRDMA localRdmaNicList
                             (w_pool w))
                    (w_held w) (w_dying w) (w_attempts w) (w_lost w)).

Inductive pool_reachable (w0 : World) : World -> Prop :=
| pool_start : pool_reachable w0 w0
| pool_next w w' : pool_reachable w0 w -> world_step w w' -> pool_reachable w0 w'.
End Threads.
