(* ===== verification/ConnPoolFacts.v ===== *)
(** * Properties of the connection pool

    An invariant of all interleavings of the pool's critical sections (who uses which
    socket, the counters, the statistics of the RDMA interfaces), its consequences for
    callers, the limit on connections and when it holds, and termination of the acquiring
    call. *)

From S2P Require Import Prelude StorageErrors Serialization MessagesNodes Nics NicsFacts ConnPool.

(** ** Counting *)

Definition zcount {A} (P : A -> Prop) `{!forall x, Decision (P x)} (l : list A) : Z :=
  zlen (filter P l).

Section Counting.
Context {A : Type} (P : A -> Prop) `{!forall x, Decision (P x)}.

Lemma zcount_nil : zcount P [] = 0.
Proof. done. Qed.
Lemma zcount_cons x l : zcount P (x :: l) = (if decide (P x) then 1 else 0) + zcount P l.
Proof. unfold zcount. rewrite filter_cons. case_decide; zlia. Qed.
Lemma zcount_app l k : zcount P (l ++ k) = zcount P l + zcount P k.
Proof. unfold zcount. by rewrite list.filter_app, zlen_app. Qed.
Lemma zcount_nonneg l : 0 <= zcount P l.
Proof. apply zlen_nonneg. Qed.
Lemma zcount_elem x l : x ∈ l -> P x -> 0 < zcount P l.
Proof.
  intros Hx HP. induction Hx as [x l|x y l Hx IH]; rewrite zcount_cons.
  - rewrite decide_True by done. pose proof (zcount_nonneg l). lia.
  - specialize (IH HP). case_decide; lia.
Qed.
Lemma zcount_pos l : 0 < zcount P l -> exists x, x ∈ l /\ P x.
Proof.
  intros Hpos. destruct (filter P l) as [|x k] eqn:E.
  - unfold zcount in Hpos. by rewrite E in Hpos.
  - exists x. assert (x ∈ filter P l) as [? ?]%list_elem_of_filter by (rewrite E; left). done.
Qed.
#[global] Instance zcount_perm : Proper ((≡ₚ) ==> eq) (zcount P).
Proof. intros l k Hp. unfold zcount, zlen. by rewrite Hp. Qed.
End Counting.

#[export] Instance zlen_perm {A} : Proper ((≡ₚ) ==> eq) (@zlen A).
Proof. intros l k H. unfold zlen. by rewrite H. Qed.

Lemma zcount_fmap {A} (P : A -> Prop) `{!forall x, Decision (P x)} (g : A -> A) l :
  (forall x, P (g x) <-> P x) -> zcount P (g <$> l) = zcount P l.
Proof.
  intros Hg. induction l as [|x l IH]; [done|]. rewrite fmap_cons, !zcount_cons, IH.
  by rewrite (decide_ext _ _ 1 0 (Hg x)).
Qed.

(** Steps of a counter modulo its width. *)
Lemma u32_step x d : u32 (u32 x + d) = u32 (x + d).
Proof. unfold u32. by rewrite Zplus_mod_idemp_l. Qed.
Lemma s32_step x d : s32 (s32 x + d) = s32 (x + d).
Proof.
  unfold s32, signed. assert (Hm : ((if x mod 2 ^ 32 <? 2 ^ (32 - 1) then x mod 2 ^ 32
    else x mod 2 ^ 32 - 2 ^ 32) + d) mod 2 ^ 32 = (x + d) mod 2 ^ 32).
  { case_match; [apply Zplus_mod_idemp_l|].
    replace (x mod 2 ^ 32 - 2 ^ 32 + d) with (x mod 2 ^ 32 + d + (-1) * 2 ^ 32) by ring.
    rewrite Z.mod_add by lia. apply Zplus_mod_idemp_l. }
  by rewrite Hm.
Qed.

(** ** The connection list *)

Lemma elem_conn_remove l id s : s ∈ ConnectionList_remove l id <-> s ∈ l /\ ps_id s <> id.
Proof. unfold ConnectionList_remove. rewrite list_elem_of_filter. tauto. Qed.

Lemma conn_remove_id l id : id ∉ ps_id <$> ConnectionList_remove l id.
Proof. by intros (s & -> & [_ H]%elem_conn_remove)%list_elem_of_fmap. Qed.

Lemma conn_remove_absent l id : id ∉ ps_id <$> l -> ConnectionList_remove l id = l.
Proof.
  induction l as [|x l IH]; [done|]. intros H. rewrite fmap_cons, not_elem_of_cons in H.
  destruct H as [Hx Hl]. unfold ConnectionList_remove in *. rewrite filter_cons.
  rewrite decide_True by done. by rewrite IH.
Qed.

Lemma conn_remove_cons x l id : ConnectionList_remove (x :: l) id =
  if decide (ps_id x = id) then ConnectionList_remove l id else x :: ConnectionList_remove l id.
Proof. unfold ConnectionList_remove. rewrite filter_cons. by repeat case_decide. Qed.

(** The list is the socket and the rest. *)
Lemma conn_split l s : NoDup (ps_id <$> l) -> s ∈ l -> l ≡ₚ s :: ConnectionList_remove l (ps_id s).
Proof.
  induction l as [|x l IH]; intros Hnd Hs; [by apply elem_of_nil in Hs|].
  rewrite fmap_cons in Hnd. apply list.NoDup_cons in Hnd as [Hx Hnd].
  rewrite conn_remove_cons. apply elem_of_cons in Hs as [-> | Hs].
  - rewrite decide_True by done. by rewrite conn_remove_absent.
  - rewrite decide_False.
    + rewrite IH at 1 by done. apply Permutation_swap.
    + intros E. apply Hx. rewrite E. by apply list_elem_of_fmap_2.
Qed.

Lemma conn_find_some l id s : conn_find id l = Some s -> s ∈ l /\ ps_id s = id.
Proof.
  unfold conn_find. intros H%head_Some_elem_of. apply list_elem_of_filter in H. tauto.
Qed.

Lemma conn_find_elem l id : id ∈ ps_id <$> l -> exists s, conn_find id l = Some s.
Proof.
  intros (s & -> & Hs)%list_elem_of_fmap. unfold conn_find.
  destruct (filter _ l) as [|x k] eqn:E; [|by exists x].
  assert (H : s ∈ filter (fun s' => ps_id s' = ps_id s) l) by by apply list_elem_of_filter.
  rewrite E in H. by apply elem_of_nil in H.
Qed.

(** ** The invariant *)

(** Connections and slots that refer to the statistics [id]. *)
Definition stat_refs (conns : list PooledSocket) (slots : list (option Z)) (id : Z) : Z :=
  zcount (fun s => sock_nicStats s = Some id) conns + zcount (fun p => p = Some id) slots.

(** Statistics of vanished interfaces come last. *)
Definition valid_first (l : list NicAddressStats) : Prop :=
  exists a b, l = a ++ b /\ Forall (fun st => st_nicValid st = true) a /\
              Forall (fun st => st_nicValid st = false) b.

(** The statistics are distinct objects, include all that are referred to ([R id]: how often)
    and count the references. *)
Record stats_ok (R : Z -> Z) (l : list NicAddressStats) : Prop := {
  so_ids : NoDup (st_id <$> l);
  so_refs : forall id, 0 < R id -> id ∈ st_id <$> l;
  so_established : Forall (fun st => st_established st = s32 (R (st_id st))) l;
  so_valid : valid_first l
}.

(** [busy]: the sockets in use; [slots]: the interfaces of the reserved slots.  The sockets in
    use are exactly the unavailable ones of the list, each used once. *)
Record pool_ok (this : NodeConnPool) (busy : list Z) (slots : list (option Z)) : Prop := {
  po_ids : NoDup (ps_id <$> cp_connList this);
  po_busy : busy ≡ₚ ps_id <$> filter (fun s => ps_available s = false) (cp_connList this);
  po_available : cp_availableConns this =
    u32 (zcount (fun s => ps_available s = true) (cp_connList this));
  po_established : cp_establishedConns this = u32 (zlen (cp_connList this) + zlen slots);
  po_types : Forall (fun s => ps_nicType s = ps_sockType s) (cp_connList this);
  po_rdma : numEstablishedRDMA (cp_stats this) =
    u32 (zcount (fun s => ps_sockType s = NICADDRTYPE_RDMA) (cp_connList this));
  po_std : numEstablishedStd (cp_stats this) =
    u32 (zcount (fun s => ps_sockType s <> NICADDRTYPE_RDMA) (cp_connList this));
  po_stats : stats_ok (stat_refs (cp_connList this) slots) (cp_rdmaNicStatsList this)
}.

Definition world_inv (w : World) : Prop :=
  pool_ok (w_pool w) (w_held w ++ w_dying w) (w_attempts w ++ w_lost w).

#[export] Instance stat_refs_perm : Proper ((≡ₚ) ==> (≡ₚ) ==> eq ==> eq) stat_refs.
Proof. intros l l' Hl k k' Hk id ? <-. unfold stat_refs. by rewrite Hl, Hk. Qed.

Lemma stats_ok_ext R R' l : (forall id, R id = R' id) -> stats_ok R l -> stats_ok R' l.
Proof.
  intros HR [H1 H2 H3 H4]. split; [done| |eapply list.Forall_impl; [exact H3|]|done].
  - intros id. rewrite <- HR. apply H2.
  - intros st ->. by rewrite HR.
Qed.

Lemma pool_ok_perm this busy busy' slots slots' :
  busy ≡ₚ busy' -> slots ≡ₚ slots' -> pool_ok this busy slots -> pool_ok this busy' slots'.
Proof.
  intros Hb Hs []. split; try done.
  - by rewrite <- Hb.
  - by rewrite <- Hs.
  - eapply stats_ok_ext; [|done]. intros id. by rewrite Hs.
Qed.

(** ** Updates of the statistics *)

(** [f] keeps the identity of the statistics and changes the count by [d]. *)
Definition adds_established (d : Z) (f : NicAddressStats -> NicAddressStats) : Prop :=
  forall st, st_id (f st) = st_id st /\ st_nicValid (f st) = st_nicValid st /\
    (in_s 32 (st_established st) -> st_established (f st) = s32 (st_established st + d)).

Lemma s32_in_s x : in_s 32 (s32 x).
Proof.
  unfold in_s, s32, signed. pose proof (Z.mod_pos_bound x (2 ^ 32) ltac:(lia)).
  destruct (Z.ltb_spec (x mod 2 ^ 32) (2 ^ (32 - 1))); lia.
Qed.
Lemma s32_small z : in_s 32 z -> s32 z = z.
Proof. intros H. rewrite <- (signed_inv 32 z) at 2 by (done || lia). unfold s32, signed. by rewrite Zmod_mod. Qed.

Lemma adds_est_available d : adds_established 0 (st_add_available d).
Proof. intros st. split_and!; [done..|]. intros H. cbn. by rewrite Z.add_0_r, s32_small. Qed.
Lemma adds_est_used now : adds_established 0 (NicAddressStats_updateUsed now).
Proof. intros st. split_and!; [done..|]. intros H. cbn. by rewrite Z.add_0_r, s32_small. Qed.
Lemma adds_est_established d : adds_established d (st_add_established d).
Proof. by intros st. Qed.
Lemma adds_est_failed d now (interrupted : bool) : adds_established d (fun st =>
  let st := st_add_established d st in
  if interrupted then st else NicAddressStats_updateLastError now st).
Proof. intros st. by destruct interrupted. Qed.
Create HintDb pool.
#[export] Hint Resolve adds_est_available adds_est_used adds_est_established adds_est_failed : pool.

Lemma valid_first_fmap (f : NicAddressStats -> NicAddressStats) l :
  (forall st, st_nicValid (f st) = st_nicValid st) -> valid_first l -> valid_first (f <$> l).
Proof.
  intros Hf (a & b & -> & Ha & Hb). exists (f <$> a), (f <$> b).
  rewrite fmap_app, !list.Forall_fmap. split_and!; [done|..];
    (eapply list.Forall_impl; [eassumption|]); intros st; cbn; by rewrite Hf.
Qed.

Lemma stats_ok_upd R R' l f d id : adds_established d f -> stats_ok R l ->
  (forall id', R' id' = R id' + (if decide (id' = id) then d else 0)) ->
  (0 < R' id -> id ∈ st_id <$> l) ->
  stats_ok R' ((fun st => if st_id st =? id then f st else st) <$> l).
Proof.
  intros Hf [H1 H2 H3 H4] HR Hid.
  assert (Hids : st_id <$> ((fun st => if st_id st =? id then f st else st) <$> l) = st_id <$> l).
  { rewrite <- list_fmap_compose. apply list_fmap_ext. intros i st _. cbn.
    destruct (st_id st =? id); [apply Hf|done]. }
  split; rewrite ?Hids; [done|..].
  - intros id' Hpos. destruct (decide (id' = id)) as [-> | Hne]; [auto|].
    apply H2. rewrite HR, decide_False in Hpos by done. lia.
  - apply list.Forall_fmap. eapply list.Forall_impl; [exact H3|].
    intros st Hst. cbn. destruct (Z.eqb_spec (st_id st) id) as [E|E].
    + destruct (Hf st) as (-> & _ & He). rewrite He by (rewrite Hst; apply s32_in_s).
      rewrite Hst, s32_step, HR, decide_True by done. done.
    + rewrite HR, decide_False by done. by rewrite Z.add_0_r.
  - apply valid_first_fmap; [|done]. intros st. destruct (st_id st =? id); [apply Hf|done].
Qed.

Lemma stats_ok_pool R R' this f d p : adds_established d f ->
  stats_ok R (cp_rdmaNicStatsList this) ->
  (forall id, R' id = R id + (if decide (p = Some id) then d else 0)) ->
  (forall id, p = Some id -> 0 < R' id -> id ∈ st_id <$> cp_rdmaNicStatsList this) ->
  stats_ok R' (cp_rdmaNicStatsList (upd_nicStats f p this)).
Proof.
  intros Hf Hs HR Hid. destruct p as [id|]; cbn.
  - eapply stats_ok_upd; [done|done| |by apply Hid]. intros id'. rewrite HR.
    by repeat case_decide; simplify_eq.
  - eapply stats_ok_ext; [|done]. intros id. rewrite HR. by rewrite decide_False, Z.add_0_r.
Qed.

(** Only the statistics change. *)
Lemma upd_connList f p this : cp_connList (upd_nicStats f p this) = cp_connList this.
Proof. by destruct p. Qed.
Lemma upd_available f p this : cp_availableConns (upd_nicStats f p this) = cp_availableConns this.
Proof. by destruct p. Qed.
Lemma upd_established f p this : cp_establishedConns (upd_nicStats f p this) = cp_establishedConns this.
Proof. by destruct p. Qed.
Lemma upd_stats f p this : cp_stats (upd_nicStats f p this) = cp_stats this.
Proof. by destruct p. Qed.
Lemma upd_cfg f p this : cp_cfg (upd_nicStats f p this) = cp_cfg this.
Proof. by destruct p. Qed.
Lemma upd_count f p this : cp_rdmaNicCount (upd_nicStats f p this) = cp_rdmaNicCount this.
Proof. by destruct p. Qed.
Create Rewrite HintDb pool.
#[export] Hint Rewrite upd_connList upd_available upd_established upd_stats upd_cfg upd_count : pool.
Ltac psimpl1 := cbn [cp_connList cp_availableConns cp_establishedConns
  cp_stats cp_cfg cp_rdmaNicCount cp_rdmaNicStatsList set_connList add_availableConns
  add_establishedConns set_stats set_errState set_rdmaStats set_nics set_localRdma
  set_supportsRDMA __NodeConnPool_setCompleteFail __NodeConnPool_setConnSuccess
  numEstablishedRDMA numEstablishedStd] in *; autorewrite with pool in *.
Ltac psimpl := psimpl1; psimpl1; psimpl1.

Lemma upd_stats_ids f d p this : adds_established d f ->
  st_id <$> cp_rdmaNicStatsList (upd_nicStats f p this) = st_id <$> cp_rdmaNicStatsList this.
Proof.
  intros Hf. destruct p as [id|]; [|done]. cbn. rewrite <- list_fmap_compose.
  apply list_fmap_ext. intros i st _. cbn. case_match; [apply Hf|done].
Qed.

(** ** Exchanging one socket *)

(** The parts of a socket that the counters depend on, besides its availability. *)
Definition same_sock (s s' : PooledSocket) : Prop :=
  ps_id s' = ps_id s /\ ps_sockType s' = ps_sockType s /\ ps_nicType s' = ps_nicType s /\
  ps_nicStats s' = ps_nicStats s.

Lemma same_sock_nicStats s s' : same_sock s s' -> sock_nicStats s' = sock_nicStats s.
Proof. intros (? & Ht & ? & Hn). unfold sock_nicStats. by rewrite Ht, Hn. Qed.

(** What [pool_ok] says of the list alone. *)
Lemma pool_ok_swap this this' busy busy' slots s s' rest :
  pool_ok this busy slots ->
  cp_connList this ≡ₚ s :: rest -> cp_connList this' ≡ₚ s' :: rest -> same_sock s s' ->
  busy' ≡ₚ ps_id <$> filter (fun s => ps_available s = false) (s' :: rest) ->
  cp_availableConns this' = u32 (zcount (fun s => ps_available s = true) (s' :: rest)) ->
  cp_establishedConns this' = cp_establishedConns this -> cp_stats this' = cp_stats this ->
  stats_ok (stat_refs (cp_connList this) slots) (cp_rdmaNicStatsList this') ->
  pool_ok this' busy' slots.
Proof.
  intros [] Hl Hl' Hs Hb Ha He Hst Hso. pose proof (same_sock_nicStats _ _ Hs) as Hn.
  destruct Hs as (Hid & Hty & Hnt & _). split.
  - rewrite Hl'. rewrite Hl in po_ids0. cbn in *. by rewrite Hid.
  - by rewrite Hl'.
  - by rewrite Ha, Hl'.
  - rewrite He, po_established0, Hl, Hl'. by rewrite !zlen_cons.
  - rewrite Hl'. rewrite Hl in po_types0. apply Forall_cons_1 in po_types0 as [? ?].
    constructor; [congruence|done].
  - rewrite Hst, po_rdma0, Hl, Hl'. by rewrite !zcount_cons, Hty.
  - rewrite Hst, po_std0, Hl, Hl'. by rewrite !zcount_cons, Hty.
  - eapply stats_ok_ext; [|exact Hso]. intros id. rewrite Hl, Hl'. unfold stat_refs.
    by rewrite !zcount_cons, Hn.
Qed.

Lemma find_conn_some src l s : find_conn src l = Some s -> s ∈ l /\ ps_available s = true.
Proof.
  induction l as [|x l IH]; [done|]. cbn. case_match eqn:E.
  - intros [= ->]. apply andb_true_iff in E as [E _]. split; [left|done].
  - intros [? ?]%IH. split; [by right|done].
Qed.

Lemma pool_ok_busy_nodup this busy slots : pool_ok this busy slots -> NoDup busy.
Proof.
  intros []. rewrite po_busy0. eapply sublist_NoDup; [exact po_ids0|].
  apply fmap_sublist, sublist_filter.
Qed.

Lemma pool_ok_busy this busy slots id : pool_ok this busy slots -> id ∈ busy ->
  exists s, conn_find id (cp_connList this) = Some s /\ s ∈ cp_connList this /\ ps_id s = id /\
            ps_available s = false.
Proof.
  intros [] Hid. rewrite po_busy0 in Hid.
  apply list_elem_of_fmap in Hid as (s & -> & [Ha Hs]%list_elem_of_filter).
  destruct (conn_find_elem (cp_connList this) (ps_id s)) as [s' Hs'].
  { by apply list_elem_of_fmap_2. }
  destruct (conn_find_some _ _ _ Hs') as [Hin Heq].
  assert (s' = s) as -> by by eapply (NoDup_fmap_eq ps_id). by exists s.
Qed.

Lemma pool_ok_grab this busy slots src s : pool_ok this busy slots ->
  find_conn src (cp_connList this) = Some s ->
  pool_ok (grab_conn src s this) (ps_id s :: busy) slots.
Proof.
  intros Hok [Hin Hav]%find_conn_some. pose proof Hok as [].
  pose proof (conn_split _ _ po_ids0 Hin) as Hl.
  set (rest := ConnectionList_remove (cp_connList this) (ps_id s)) in *.
  assert (Hb : busy ≡ₚ ps_id <$> filter (fun s => ps_available s = false) rest).
  { rewrite po_busy0, Hl, filter_cons, decide_False; [done|]. by rewrite Hav. }
  eapply (pool_ok_swap _ _ _ _ _ s
            (PooledSocket_setHasActivity (PooledSocket_setAvailable false s)) rest Hok Hl).
  - unfold grab_conn. psimpl. unfold ConnectionList_moveToTail. cbn.
    by rewrite Permutation_app_comm.
  - done.
  - rewrite filter_cons, decide_True, fmap_cons by done. cbn. by rewrite Hb.
  - unfold grab_conn. psimpl. rewrite po_available0, Hl, u32_step, !zcount_cons.
    rewrite decide_True, decide_False by (done || cbn; done). f_equal. lia.
  - unfold grab_conn. by psimpl.
  - unfold grab_conn. by psimpl.
  - unfold grab_conn. eapply stats_ok_pool; [auto with pool|exact po_stats0|..]; psimpl.
    + intros id. case_decide; lia.
    + intros id _ Hp. by apply (so_refs _ _ po_stats0).
Qed.

(** A socket leaves the pool. *)
Lemma pool_ok_invalidate this busy slots id : pool_ok this (id :: busy) slots ->
  pool_ok (__NodeConnPool_invalidateSpecificStreamSocket id this) busy slots.
Proof.
  intros Hok. destruct (pool_ok_busy _ _ _ id Hok ltac:(left)) as (s & Hf & Hin & Hid & Hav).
  pose proof Hok as []. pose proof (conn_split _ _ po_ids0 Hin) as Hl. rewrite Hid in Hl.
  unfold __NodeConnPool_invalidateSpecificStreamSocket. rewrite Hf. psimpl.
  set (rest := ConnectionList_remove (cp_connList this) id) in *.
  pose proof po_types0 as Hty. rewrite Hl in Hty. apply Forall_cons_1 in Hty as [Hty Hrest].
  split; unfold __NodeConnPool_statsRemoveNic; psimpl.
  - rewrite Hl in po_ids0. by apply list.NoDup_cons in po_ids0 as [_ ?].
  - rewrite Hl, filter_cons, decide_True, fmap_cons, Hid in po_busy0 by done.
    by apply Permutation_cons_inv in po_busy0.
  - rewrite po_available0, Hl, zcount_cons, decide_False; [f_equal; lia|]. by rewrite Hav.
  - rewrite po_established0, Hl, zlen_cons, u32_step. f_equal. lia.
  - done.
  - rewrite Hty. destruct (Z.eqb_spec (ps_sockType s) NICADDRTYPE_RDMA); cbn.
    + rewrite po_rdma0, Hl, zcount_cons, decide_True by done. rewrite <- Z.add_opp_r, u32_step.
      f_equal. lia.
    + rewrite po_rdma0, Hl, zcount_cons, decide_False by done. f_equal.
  - rewrite Hty. destruct (Z.eqb_spec (ps_sockType s) NICADDRTYPE_RDMA) as [E|E]; cbn.
    + rewrite po_std0, Hl, zcount_cons, decide_False by (intros H; by apply H). f_equal.
    + rewrite po_std0, Hl, zcount_cons, decide_True by done. rewrite <- Z.add_opp_r, u32_step.
      f_equal. lia.
  - assert (HR : forall id', stat_refs (cp_connList this) slots id' =
        (if decide (sock_nicStats s = Some id') then 1 else 0) + stat_refs rest slots id').
    { intros id'. unfold stat_refs. rewrite Hl, zcount_cons. lia. }
    eapply stats_ok_pool; [apply adds_est_established|exact po_stats0|..].
    + intros id'. rewrite HR. case_decide; lia.
    + intros id' Hs Hp. apply (so_refs _ _ po_stats0). rewrite HR, decide_True by done. lia.
Qed.

Lemma pool_ok_release this busy slots now id : pool_ok this (id :: busy) slots ->
  pool_ok (NodeConnPool_releaseStreamSocket now id this) busy slots.
Proof.
  intros Hok. destruct (pool_ok_busy _ _ _ id Hok ltac:(left)) as (s & Hf & Hin & Hid & Hav).
  unfold NodeConnPool_releaseStreamSocket. rewrite Hf.
  case_match; [by apply pool_ok_invalidate|].
  pose proof Hok as []. pose proof (conn_split _ _ po_ids0 Hin) as Hl.
  set (rest := ConnectionList_remove (cp_connList this) (ps_id s)) in *.
  assert (Hb : busy ≡ₚ ps_id <$> filter (fun s => ps_available s = false) rest).
  { rewrite Hl, filter_cons, decide_True, fmap_cons, Hid in po_busy0 by done.
    by apply Permutation_cons_inv in po_busy0. }
  eapply (pool_ok_swap _ _ _ _ _ s (PooledSocket_setAvailable true s) rest Hok Hl); psimpl.
  - unfold ConnectionList_moveToHead. reflexivity.
  - done.
  - rewrite filter_cons, decide_False by done. done.
  - rewrite po_available0, Hl, u32_step, !zcount_cons. rewrite decide_False by (by rewrite Hav).
    rewrite decide_True by done. f_equal. lia.
  - done.
  - done.
  - eapply stats_ok_pool; [auto with pool|exact po_stats0|..]; psimpl.
    + intros id'. case_decide; lia.
    + intros id' _ Hp. by apply (so_refs _ _ po_stats0).
Qed.

(** ** Slots *)

(** The list, the availability counter and the connection counters are as before. *)
Definition same_conns (this this' : NodeConnPool) : Prop :=
  cp_connList this' = cp_connList this /\ cp_availableConns this' = cp_availableConns this /\
  cp_stats this' = cp_stats this.

Lemma pool_ok_slots this this' busy slots slots' : pool_ok this busy slots ->
  same_conns this this' ->
  cp_establishedConns this' = u32 (zlen (cp_connList this) + zlen slots') ->
  stats_ok (stat_refs (cp_connList this) slots') (cp_rdmaNicStatsList this') ->
  pool_ok this' busy slots'.
Proof.
  intros [] (Hl & Ha & Hs) He Hst. split; rewrite ?Hl; try done.
  - by rewrite Ha.
  - by rewrite Hs.
  - by rewrite Hs.
Qed.

Lemma stat_refs_slot conns src slots id : stat_refs conns (src :: slots) id =
  stat_refs conns slots id + (if decide (src = Some id) then 1 else 0).
Proof. unfold stat_refs. rewrite zcount_cons. lia. Qed.

Lemma pool_ok_reserve this busy slots nodeType src step this' :
  pool_ok this busy slots ->
  (forall id, src = Some id -> id ∈ st_id <$> cp_rdmaNicStatsList this) ->
  reserve_conn nodeType src this = (step, this') -> pool_ok this' busy (src :: slots).
Proof.
  intros Hok Hsrc [= <- <-]. pose proof Hok as []. eapply pool_ok_slots; [exact Hok|..].
  - split_and!; by psimpl.
  - psimpl. rewrite po_established0, u32_step, zlen_cons. f_equal. lia.
  - eapply stats_ok_pool; [apply adds_est_established|exact po_stats0|..]; psimpl.
    + intros id. apply stat_refs_slot.
    + intros id Hp _. by apply Hsrc.
Qed.

Lemma pool_ok_fail this busy slots src interrupted fatal now :
  pool_ok this busy (src :: slots) ->
  pool_ok (fail_conn src interrupted fatal now this) busy slots.
Proof.
  intros Hok. pose proof Hok as []. eapply pool_ok_slots; [exact Hok|..].
  - unfold fail_conn. destruct fatal; split_and!; by psimpl.
  - unfold fail_conn. destruct fatal; psimpl;
      rewrite po_established0, u32_step, zlen_cons; f_equal; lia.
  - assert (Hst : stats_ok (stat_refs (cp_connList this) slots)
      (cp_rdmaNicStatsList (upd_nicStats (fun st =>
        let st := st_add_established (-1) st in
        if interrupted then st else NicAddressStats_updateLastError now st) src
        (add_establishedConns (-1) this)))).
    { eapply stats_ok_pool; [apply adds_est_failed|exact po_stats0|..]; psimpl.
      - intros id. rewrite stat_refs_slot. case_decide; lia.
      - intros id -> Hp. apply (so_refs _ _ po_stats0). rewrite stat_refs_slot.
        rewrite decide_True by done. lia. }
    unfold fail_conn. by destruct fatal.
Qed.

(** What the connection loop hands over: a socket in use, whose statistics are those of the
    chosen interface when it is an RDMA socket. *)
Definition new_sock_ok (src : option Z) (s : PooledSocket) : Prop :=
  ps_available s = false /\ ps_nicType s = ps_sockType s /\
  sock_nicStats s = (if ps_sockType s =? NICADDRTYPE_RDMA then src else None).

Lemma pool_ok_add this busy slots src interrupted now s :
  pool_ok this busy (src :: slots) -> new_sock_ok src s ->
  ps_id s ∉ ps_id <$> cp_connList this ->
  pool_ok (add_conn src interrupted now s this) (ps_id s :: busy) slots.
Proof.
  intros Hok (Hav & Hty & Hns) Hfresh. pose proof Hok as [].
  assert (Hconn : cp_connList (add_conn src interrupted now s this) ≡ₚ s :: cp_connList this).
  { unfold add_conn, __NodeConnPool_statsAddNic, ConnectionList_append. psimpl.
    destruct (negb _); psimpl; by rewrite Permutation_app_comm. }
  split; rewrite ?Hconn.
  - cbn. by constructor.
  - rewrite filter_cons, decide_True, fmap_cons by done. by rewrite po_busy0.
  - rewrite zcount_cons, decide_False by (by rewrite Hav).
    unfold add_conn, __NodeConnPool_statsAddNic. psimpl.
    destruct (negb _); psimpl; rewrite po_available0; f_equal; lia.
  - unfold add_conn, __NodeConnPool_statsAddNic. psimpl.
    destruct (negb _); psimpl; rewrite po_established0, !zlen_cons; f_equal; lia.
  - by constructor.
  - rewrite zcount_cons. unfold add_conn, __NodeConnPool_statsAddNic. psimpl. rewrite Hty.
    destruct (Z.eqb_spec (ps_sockType s) NICADDRTYPE_RDMA); cbn [negb]; psimpl.
    + rewrite po_rdma0, u32_step, decide_True by done. f_equal. lia.
    + rewrite po_rdma0, decide_False by done. done.
  - rewrite zcount_cons. unfold add_conn, __NodeConnPool_statsAddNic. psimpl. rewrite Hty.
    destruct (Z.eqb_spec (ps_sockType s) NICADDRTYPE_RDMA); cbn [negb]; psimpl.
    + rewrite po_std0, decide_False by (intros H; by apply H). done.
    + rewrite po_std0, u32_step, decide_True by done. f_equal. lia.
  - assert (HR : forall id, stat_refs (s :: cp_connList this) slots id =
        stat_refs (cp_connList this) (src :: slots) id +
        (if decide (src = Some id) then
           if decide (ps_sockType s = NICADDRTYPE_RDMA) then 0 else -1 else 0)).
    { intros id. rewrite stat_refs_slot. unfold stat_refs. rewrite zcount_cons, Hns.
      destruct (Z.eqb_spec (ps_sockType s) NICADDRTYPE_RDMA); repeat case_decide;
        (done || lia). }
    eapply stats_ok_ext; [intros id; symmetry; by rewrite Hconn, HR|].
    unfold add_conn, __NodeConnPool_statsAddNic. psimpl.
    destruct (Z.eqb_spec (ps_sockType s) NICADDRTYPE_RDMA); cbn [negb].
    + psimpl. eapply stats_ok_ext; [|exact po_stats0]. intros id.
      repeat case_decide; (done || lia).
    + psimpl. eapply stats_ok_pool; [apply adds_est_failed|exact po_stats0|..].
      * intros id. repeat case_decide; (done || lia).
      * intros id -> Hp. apply (so_refs _ _ po_stats0). revert Hp. repeat case_decide; (done || lia).
Qed.

(** The loop over the interfaces returns a socket as it should be. *)
Lemma connect_nics_sock nf tf nics : forall env sup src primary fatal interrupted s,
  cr_sock (connect_nics nf tf env sup src primary fatal interrupted nics) = Some s ->
  new_sock_ok src s.
Proof.
  induction nics as [|nic nics IH]; intros env sup src primary fatal interrupted s; [done|].
  cbn [connect_nics]. repeat case_match; cbn [cr_sock]; try apply IH; try done;
    intros [= <-]; unfold new_sock_ok, sock_nicStats; cbn; split_and!; try done;
    repeat (match goal with H : (_ =? _) = _ |- _ => rewrite H; clear H end); done.
Qed.

(** ** Choosing an interface *)

Lemma priority_loop_elem f now e mc numa l : forall m st,
  priority_loop f now e mc numa l m = Some st -> m = Some st \/ st ∈ l.
Proof.
  induction l as [|cur l IH]; intros m st; cbn [priority_loop]; [by left|].
  case_match; [by left|].
  intros H0%IH. destruct H0 as [H0|]; [|right; by right].
  repeat case_match; simplify_eq; (by left) || (right; by left) || idtac.
Qed.

Lemma priority_ok f now now2 numa mc this src this' busy slots :
  NodeConnPool_rdmaNicPriority f now now2 numa mc this = (src, this') ->
  pool_ok this busy slots ->
  pool_ok this' busy slots /\ same_conns this this' /\
  cp_establishedConns this' = cp_establishedConns this /\ cp_cfg this' = cp_cfg this /\
  cp_rdmaNicCount this' = cp_rdmaNicCount this /\
  (forall id, src = Some id -> id ∈ st_id <$> cp_rdmaNicStatsList this').
Proof.
  unfold NodeConnPool_rdmaNicPriority. intros H Hok.
  assert (Hid : src = None -> this' = this ->
    pool_ok this' busy slots /\ same_conns this this' /\
    cp_establishedConns this' = cp_establishedConns this /\ cp_cfg this' = cp_cfg this /\
    cp_rdmaNicCount this' = cp_rdmaNicCount this /\
    (forall id, src = Some id -> id ∈ st_id <$> cp_rdmaNicStatsList this')).
  { intros -> ->. split_and!; by try done; split_and!. }
  case_match; [simplify_eq; by apply Hid|].
  destruct (priority_loop _ _ _ _ _ _ _) as [st|] eqn:E; simplify_eq; [|by apply Hid].
  clear Hid. apply priority_loop_elem in E as [|E]; [done|].
  split_and!; [|split_and!; by psimpl|by psimpl..|].
  - eapply pool_ok_slots; [exact Hok|split_and!; by psimpl|psimpl; apply Hok|].
    eapply stats_ok_pool; [auto with pool|apply Hok|..].
    + intros id. case_decide; lia.
    + intros id _ Hp. by apply (so_refs _ _ (po_stats _ _ _ Hok)).
  - intros id [= <-]. rewrite upd_stats_ids with (d := 0) by auto with pool.
    by apply list_elem_of_fmap_2.
Qed.

(** ** Loading the statistics *)

Definition st_key (st : NicAddressStats) : Z * Z := (st_id st, st_established st).

Lemma take_stats_perm name l st rest : take_stats name l = Some (st, rest) ->
  l ≡ₚ st :: rest.
Proof.
  revert rest. induction l as [|x l IH]; intros rest; [done|]. cbn.
  case_decide; [by intros [= -> ->]|].
  destruct (take_stats name l) as [[st' r]|]; [|done]. cbn. intros [= -> <-].
  rewrite (IH r eq_refl). apply Permutation_swap.
Qed.

(** Existing statistics are kept with their counts; new ones have new addresses and no
    connections. *)
Lemma stats_for_nics_spec nics : forall alloc old l rest,
  stats_for_nics alloc nics old = (l, rest) ->
  exists news, st_key <$> (l ++ rest) ≡ₚ (st_key <$> old) ++ news /\
    NoDup news.*1 /\ Forall (fun k => alloc <= k.1 /\ k.2 = 0) news /\
    Forall (fun st => st_nicValid st = true) l /\ length l = length nics.
Proof.
  induction nics as [|nic nics IH]; intros alloc old l rest; cbn [stats_for_nics].
  - intros [= <- <-]. exists []. rewrite app_nil_r. split_and!; [done|constructor..|done].
  - destruct (take_stats _ old) as [[cur old']|] eqn:Et.
    + destruct (stats_for_nics alloc nics old') as [l' rest'] eqn:E. intros [= <- <-].
      destruct (IH _ _ _ _ E) as (news & Hp & Hnd & Hn & Hv & Hl). exists news.
      apply take_stats_perm in Et. split_and!; [|done|done|by constructor|cbn; lia].
      rewrite Et. cbn. by rewrite Hp.
    + destruct (stats_for_nics (alloc + 1) nics old) as [l' rest'] eqn:E. intros [= <- <-].
      destruct (IH _ _ _ _ E) as (news & Hp & Hnd & Hn & Hv & Hl).
      exists ((alloc, 0) :: news). split_and!.
      * cbn. rewrite Hp. apply Permutation_middle.
      * cbn. constructor; [|done]. intros (k & -> & Hk)%list_elem_of_fmap.
        rewrite list.Forall_forall in Hn. specialize (Hn _ Hk). lia.
      * constructor; [cbn; lia|]. eapply list.Forall_impl; [exact Hn|]. cbn. lia.
      * by constructor.
      * cbn. lia.
Qed.

Lemma stats_ok_keys R l l' alloc news : stats_ok R l ->
  (forall st, st ∈ l -> st_id st < alloc) ->
  st_key <$> l' ≡ₚ (st_key <$> l) ++ news -> NoDup news.*1 ->
  Forall (fun k => alloc <= k.1 /\ k.2 = 0) news -> valid_first l' ->
  (forall id, 0 <= R id) -> stats_ok R l'.
Proof.
  intros [H1 H2 H3 H4] Hold Hp Hnd Hnews Hv Hpos.
  assert (Hfst : forall k, (st_key <$> k).*1 = st_id <$> k).
  { intros k. by rewrite <- list_fmap_compose. }
  assert (Hids : st_id <$> l' ≡ₚ (st_id <$> l) ++ news.*1).
  { rewrite <- !Hfst, Hp, fmap_app. done. }
  rewrite list.Forall_forall in Hnews.
  split; [| |apply list.Forall_forall|done].
  - rewrite Hids. apply list.NoDup_app. split_and!; [done| |done].
    intros id (st & -> & Hst)%list_elem_of_fmap (k & Hk & Hin)%list_elem_of_fmap.
    specialize (Hold st Hst). specialize (Hnews k Hin). lia.
  - intros id Hid. rewrite Hids. apply elem_of_app. left. by apply H2.
  - intros st Hst. assert (Hk : st_key st ∈ (st_key <$> l) ++ news).
    { rewrite <- Hp. by apply list_elem_of_fmap_2. }
    apply elem_of_app in Hk as [(st0 & [= Hi He] & Hin)%list_elem_of_fmap|Hk].
    + rewrite Hi, He. rewrite list.Forall_forall in H3. by apply H3.
    + destruct (Hnews _ Hk) as [Hge He]. cbn in Hge, He. rewrite He.
      assert (R (st_id st) = 0) as ->; [|done].
      destruct (decide (0 < R (st_id st))) as [Hr|]; [|specialize (Hpos (st_id st)); lia].
      apply H2 in Hr as (st0 & Hi & Hin)%list_elem_of_fmap. specialize (Hold _ Hin). lia.
Qed.

Lemma stat_refs_nonneg conns slots id : 0 <= stat_refs conns slots id.
Proof. unfold stat_refs. pose proof (zcount_nonneg (fun s => sock_nicStats s = Some id) conns).
  pose proof (zcount_nonneg (fun p => p = Some id) slots). lia. Qed.

Lemma load_ok nodeType alloc this busy slots : pool_ok this busy slots ->
  (forall st, st ∈ cp_rdmaNicStatsList this -> st_id st < alloc) ->
  let this' := NodeConnPool_loadRdmaNicStatsList nodeType alloc this in
  pool_ok this' busy slots /\ same_conns this this' /\
  cp_establishedConns this' = cp_establishedConns this /\ cp_cfg this' = cp_cfg this /\
  0 <= cp_rdmaNicCount this'.
Proof.
  intros Hok Hfresh. cbn zeta. unfold NodeConnPool_loadRdmaNicStatsList. case_match.
  - destruct (stats_for_nics _ _ _) as [l rest] eqn:E.
    apply stats_for_nics_spec in E as (news & Hp & Hnd & Hnews & Hv & Hl).
    split_and!; [|split_and!; by psimpl|by psimpl..|psimpl; apply zlen_nonneg].
    eapply pool_ok_slots; [exact Hok|split_and!; by psimpl|psimpl; apply Hok|].
    psimpl. eapply stats_ok_keys; [apply Hok|exact Hfresh| |done|done| |apply stat_refs_nonneg].
    + rewrite fmap_app. rewrite <- list_fmap_compose, <- Hp, fmap_app. reflexivity.
    + exists l, (NicAddressStats_invalidate <$> rest). split_and!; [done..|].
      apply list.Forall_fmap, list.Forall_forall. by intros.
  - split_and!; [|split_and!; by psimpl|by psimpl..|by psimpl].
    eapply pool_ok_slots; [exact Hok|split_and!; by psimpl|psimpl; apply Hok|].
    psimpl. apply Hok.
Qed.

(** ** The first critical section *)

(** What the section's result means for the invariant; [Acq_fault] does not happen. *)
Definition step_ok (step : AcquireStep) (this : NodeConnPool) (busy : list Z)
    (slots : list (option Z)) : Prop :=
  match step with
  | Acq_null | Acq_wait => pool_ok this busy slots
  | Acq_sock id => pool_ok this (id :: busy) slots
  | Acq_connect src _ => pool_ok this busy (src :: slots)
  | Acq_fault => False
  end.

Lemma select_srcRdma f env devPrioCtx this busy slots (src : option Z) this1 :
  pool_ok this busy slots ->
  (if 0 <? cp_rdmaNicCount this then
     if devPrioCtx || (se_nodeType env =? NODETYPE_Meta)
     then NodeConnPool_rdmaNicPriority f (se_now env) (se_now2 env) (se_numa env)
            (s32 (maxConns this / cp_rdmaNicCount this)) this
     else (None, this)
   else (None, this)) = (src, this1) ->
  pool_ok this1 busy slots /\ same_conns this this1 /\
  cp_establishedConns this1 = cp_establishedConns this /\ cp_cfg this1 = cp_cfg this /\
  cp_rdmaNicCount this1 = cp_rdmaNicCount this /\
  (forall id, src = Some id -> id ∈ st_id <$> cp_rdmaNicStatsList this1) /\
  (cp_rdmaNicCount this <= 0 -> src = None).
Proof.
  intros Hok. destruct (Z.ltb_spec 0 (cp_rdmaNicCount this)) as [Hpos|Hneg].
  - case_match.
    + intros H'. destruct (priority_ok _ _ _ _ _ _ _ _ _ _ H' Hok) as (? & ? & ? & ? & ? & ?).
      split_and!; try done. lia.
    + intros [= <- <-]. split_and!; by try done; split_and!.
  - intros [= <- <-]. split_and!; by try done; split_and!.
Qed.

Lemma select_ok f env devPrioCtx this busy slots step this' : pool_ok this busy slots ->
  acquire_select f env devPrioCtx this = (step, this') -> step_ok step this' busy slots.
Proof.
  intros Hok. unfold acquire_select.
  match goal with |- (let '(_, _) := ?e in _) = _ -> _ => destruct e as [src this1] eqn:E end.
  apply select_srcRdma with (busy := busy) (slots := slots) in E
    as (Hok1 & _ & _ & _ & _ & Hsrc & _); [|done].
  destruct (Z.eqb_spec (cp_availableConns this1) 0) as [Ha|Ha].
  { intros Hr. pose proof Hr as [= <- _]. by eapply pool_ok_reserve. }
  destruct (cp_connList this1) as [|x l] eqn:El.
  { destruct Ha. rewrite (po_available _ _ _ Hok1), El. done. }
  rewrite <- El. destruct (find_conn src (cp_connList this1)) as [s|] eqn:Ef.
  - intros [= <- <-]. by apply pool_ok_grab.
  - intros Hr. pose proof Hr as [= <- _]. by eapply pool_ok_reserve.
Qed.

Lemma enter_ok f env allowWaiting devPrioCtx this busy slots step this' :
  pool_ok this busy slots ->
  (forall st, st ∈ cp_rdmaNicStatsList this -> st_id st < se_alloc env) ->
  acquire_enter f env allowWaiting devPrioCtx this = (step, this') -> step_ok step this' busy slots.
Proof.
  intros Hok Hfresh. unfold acquire_enter.
  set (this1 := if cp_rdmaNicCount this <? 0 then _ else _). cbn zeta.
  assert (Hok1 : pool_ok this1 busy slots).
  { unfold this1. case_match; [|done].
    by destruct (load_ok (se_nodeType env) (se_alloc env) this busy slots Hok Hfresh). }
  case_match; [|by apply select_ok]. intros [= <- <-]. by destruct allowWaiting.
Qed.

Lemma woken_ok f env devPrioCtx signal this busy slots step this' : pool_ok this busy slots ->
  acquire_woken f env devPrioCtx signal this = (step, this') -> step_ok step this' busy slots.
Proof.
  intros Hok. unfold acquire_woken. case_match; [by intros [= <- <-]|].
  case_match; [by intros [= <- <-]|]. by apply select_ok.
Qed.

(** ** Stage 1 of an invalidation, flags and updates *)

Lemma stage1_counters_spec idle l : forall this, in_u 32 (cp_availableConns this) ->
  let this' := stage1_counters idle l this in
  cp_connList this' = cp_connList this /\ cp_stats this' = cp_stats this /\
  cp_establishedConns this' = cp_establishedConns this /\
  cp_availableConns this' =
    u32 (cp_availableConns this - zcount (fun s => is_grabbed idle s = true) l) /\
  (forall R, stats_ok R (cp_rdmaNicStatsList this) -> stats_ok R (cp_rdmaNicStatsList this')).
Proof.
  induction l as [|s l IH]; intros this Hu; cbn zeta.
  - cbn [stage1_counters]. split_and!; try done. by rewrite zcount_nil, Z.sub_0_r, u32_small.
  - cbn [stage1_counters]. rewrite zcount_cons. destruct (is_grabbed idle s) eqn:Eg.
    + specialize (IH (upd_nicStats (st_add_available (-1)) (sock_nicStats s)
                        (add_availableConns (-1) this))).
      cbn zeta in IH. psimpl. destruct IH as (H1 & H2 & H3 & H4 & H5); [apply u32_range|].
      rewrite H1, H2, H3, H4. rewrite decide_True by done. split_and!; try done.
      * rewrite <- !Z.add_opp_r, u32_step. f_equal. lia.
      * intros R HR. apply H5. eapply stats_ok_pool; [auto with pool|exact HR|..].
        { intros id. case_decide; lia. }
        intros id _ Hp. by apply (so_refs _ _ HR).
    + rewrite decide_False by done. by apply IH.
Qed.

Lemma stage1_same idle close s : same_sock s (stage1_sock idle close s).
Proof. unfold stage1_sock. by destruct (is_grabbed idle s), close. Qed.

Lemma stage1_available idle close s :
  ps_available (stage1_sock idle close s) = ps_available s && negb (is_grabbed idle s).
Proof.
  unfold stage1_sock, is_grabbed. destruct (ps_available s) eqn:E, (idle && ps_hasActivity s), close;
    cbn; by rewrite ?E.
Qed.

Lemma stage1_busy idle close (l : list PooledSocket) :
  ps_id <$> filter (fun s => ps_available s = false) (stage1_sock idle close <$> l) ≡ₚ
  (ps_id <$> filter (fun s => is_grabbed idle s = true) l) ++
  (ps_id <$> filter (fun s => ps_available s = false) l).
Proof.
  induction l as [|s l IH]; [done|]. rewrite fmap_cons, !filter_cons, stage1_available.
  destruct (stage1_same idle close s) as (Hid & _).
  destruct (is_grabbed idle s) eqn:Eg.
  - assert (Ha : ps_available s = true) by (by unfold is_grabbed in Eg; apply andb_true_iff in Eg as []).
    rewrite Ha. cbn [andb negb]. rewrite !decide_True, decide_False by done.
    rewrite !fmap_cons, Hid, IH. done.
  - rewrite andb_true_r, (decide_False (P := false = true)) by done.
    case_decide; [|done]. rewrite !fmap_cons, Hid, IH. apply Permutation_middle.
Qed.

Lemma stage1_count idle close (l : list PooledSocket) :
  zcount (fun s => ps_available s = true) (stage1_sock idle close <$> l) =
  zcount (fun s => ps_available s = true) l - zcount (fun s => is_grabbed idle s = true) l.
Proof.
  induction l as [|s l IH]; [done|]. rewrite fmap_cons, !zcount_cons, stage1_available, IH.
  unfold is_grabbed. destruct (ps_available s), (idle && ps_hasActivity s); cbn;
    repeat case_decide; (done || lia).
Qed.

Lemma zcount_same (P : PooledSocket -> Prop) `{!forall x, Decision (P x)} g l :
  (forall s, same_sock s (g s)) -> (forall s s', same_sock s s' -> P s <-> P s') ->
  zcount P (g <$> l) = zcount P l.
Proof. intros Hg HP. apply zcount_fmap. intros s. symmetry. by apply HP. Qed.

(** A change of flags of all sockets. *)
Lemma pool_ok_flags this this' busy busy' slots (g : PooledSocket -> PooledSocket) :
  pool_ok this busy slots -> (forall s, same_sock s (g s)) ->
  cp_connList this' = g <$> cp_connList this ->
  busy' ≡ₚ ps_id <$> filter (fun s => ps_available s = false) (g <$> cp_connList this) ->
  cp_availableConns this' =
    u32 (zcount (fun s => ps_available s = true) (g <$> cp_connList this)) ->
  cp_establishedConns this' = cp_establishedConns this -> cp_stats this' = cp_stats this ->
  (forall R, stats_ok R (cp_rdmaNicStatsList this) -> stats_ok R (cp_rdmaNicStatsList this')) ->
  pool_ok this' busy' slots.
Proof.
  intros [] Hg Hl Hb Ha He Hs Hst. split; rewrite ?Hl; try done.
  - rewrite <- list_fmap_compose.
    erewrite list_fmap_ext; [exact po_ids0|]. intros i s _. apply Hg.
  - rewrite He, po_established0. by rewrite zlen_fmap.
  - apply list.Forall_fmap. eapply list.Forall_impl; [exact po_types0|].
    intros s. cbn. destruct (Hg s) as (_ & -> & -> & _). done.
  - rewrite Hs, po_rdma0. f_equal. symmetry. apply zcount_same; [done|].
    by intros s s' (_ & -> & _).
  - rewrite Hs, po_std0. f_equal. symmetry. apply zcount_same; [done|].
    by intros s s' (_ & -> & _).
  - apply Hst. eapply stats_ok_ext; [|exact po_stats0]. intros id. unfold stat_refs. f_equal.
    symmetry. apply zcount_same; [done|]. intros s s' Hss. by rewrite (same_sock_nicStats s s').
Qed.

Lemma pool_ok_stage1 this busy slots idle close grabbed this' : pool_ok this busy slots ->
  invalidate_stage1 idle close this = (grabbed, this') -> pool_ok this' (grabbed ++ busy) slots.
Proof.
  intros Hok [= <- <-]. pose proof Hok as [].
  destruct (stage1_counters_spec idle (cp_connList this) this) as (H1 & H2 & H3 & H4 & H5).
  { rewrite po_available0. apply u32_range. }
  eapply (pool_ok_flags _ _ _ _ _ (stage1_sock idle close)); [exact Hok|..]; psimpl.
  - apply stage1_same.
  - done.
  - by rewrite stage1_busy, po_busy0.
  - rewrite H4, po_available0, stage1_count, <- !Z.add_opp_r, u32_step. done.
  - done.
  - done.
  - done.
Qed.

Lemma pool_ok_reset this busy slots : pool_ok this busy slots ->
  pool_ok (__NodeConnPool_resetStreamsIdleFlag this) busy slots.
Proof.
  intros Hok. pose proof Hok as [].
  set (g := fun s => if ps_available s then PooledSocket_resetHasActivity s else s).
  assert (Hg : forall s, same_sock s (g s) /\ ps_available (g s) = ps_available s).
  { intros s. unfold g. by destruct (ps_available s) eqn:E. }
  eapply (pool_ok_flags _ _ _ _ _ g); [exact Hok|..]; try done.
  - intros s. apply Hg.
  - rewrite po_busy0. clear -Hg. induction (cp_connList this) as [|s l IH]; [done|].
    destruct (Hg s) as [(Hid & _) Hav]. rewrite fmap_cons, !filter_cons, Hav.
    case_decide; [|done]. by rewrite !fmap_cons, Hid, IH.
  - cbn. rewrite po_available0. f_equal. symmetry. apply zcount_fmap. intros s.
    destruct (Hg s) as [_ ->]. done.
Qed.

Lemma pool_ok_update this busy slots port nics changed this' : pool_ok this busy slots ->
  update_interfaces_section port nics this = (changed, this') -> pool_ok this' busy slots.
Proof. intros [] [= <- <-]. by split. Qed.

Lemma pool_ok_local this busy slots nodeType alloc sup rdma : pool_ok this busy slots ->
  (forall st, st ∈ cp_rdmaNicStatsList this -> st_id st < alloc) ->
  pool_ok (update_local_section nodeType alloc sup rdma this) busy slots.
Proof.
  intros Hok Hfresh. unfold update_local_section. destruct rdma as [nics|].
  - apply load_ok; [|done]. destruct Hok. by split.
  - destruct Hok. by split.
Qed.

(** ** All interleavings *)

Section World.
Context (ibdev_to_node : Z -> Z) (netFilter tcpOnlyFilter : NetFilter).
Local Abbreviation step := (world_step ibdev_to_node netFilter tcpOnlyFilter).
Local Abbreviation reachable := (pool_reachable ibdev_to_node netFilter tcpOnlyFilter).

Lemma world_inv_init cfg port nics rdma : world_inv (NodeConnPool_initWorld cfg port nics rdma).
Proof.
  split; try done; [constructor..|].
  split; [constructor|done|constructor|]. by exists [], [].
Qed.

Lemma world_inv_step w w' : step w w' -> world_inv w -> world_inv w'.
Proof.
  unfold world_inv. intros Hstep Hok. destruct Hstep; cbn [w_pool w_held w_dying w_attempts w_lost].
  - match goal with H : acquire_enter _ _ _ _ _ = _ |- _ =>
      apply (enter_ok _ _ _ _ _ _ _ _ _ Hok) in H; [|done] end.
    by destruct_or!; subst.
  - destruct_or!; [by apply (enter_ok _ _ _ _ _ _ _ _ _ Hok) in H0|].
    by apply (woken_ok _ _ _ _ _ _ _ _ _ Hok) in H0.
  - destruct_or!; [by apply (enter_ok _ _ _ _ _ _ _ _ _ Hok) in H0|].
    by apply (woken_ok _ _ _ _ _ _ _ _ _ Hok) in H0.
  - eapply pool_ok_perm; [done| |exact Hok]. rewrite H0. by rewrite <- !Permutation_middle.
  - rewrite H in Hok. eapply pool_ok_perm in Hok; [|done|]; cycle 1.
    { rewrite <- app_assoc, <- app_comm_cons. symmetry. apply Permutation_middle. }
    unfold acquire_commit in H0. case_match eqn:Es; [|done]. case_match; [|done]. simplify_eq.
    rewrite <- app_assoc. apply pool_ok_add; [done|by eapply connect_nics_sock|done].
  - rewrite H in Hok. eapply pool_ok_perm in Hok; [|done|]; cycle 1.
    { rewrite <- app_assoc, <- app_comm_cons. symmetry. apply Permutation_middle. }
    rewrite <- app_assoc. unfold acquire_commit in H0.
    case_match; [case_match|]; simplify_eq; by apply pool_ok_fail.
  - apply pool_ok_release. eapply pool_ok_perm; [|done|exact Hok]. rewrite H.
    rewrite <- app_assoc, <- app_comm_cons, <- app_assoc. symmetry. apply Permutation_middle.
  - apply pool_ok_invalidate. eapply pool_ok_perm; [|done|exact Hok]. rewrite H.
    rewrite <- app_assoc, <- app_comm_cons, <- app_assoc. symmetry. apply Permutation_middle.
  - eapply pool_ok_perm; [|done|by eapply pool_ok_stage1]. by rewrite app_assoc, (Permutation_app_comm grabbed), app_assoc.
  - apply pool_ok_invalidate. eapply pool_ok_perm; [|done|exact Hok]. rewrite H.
    rewrite !app_assoc. symmetry. apply Permutation_middle.
  - by apply pool_ok_reset.
  - by eapply pool_ok_update.
  - by apply pool_ok_local.
Qed.

(** C15: In every interleaving of the critical sections of all threads: no socket is used by
    two callers at once, the sockets in use are exactly the unavailable ones of the pool;
    the number of available sockets, the number of established connections (with the slots
    reserved by attempts, and those lost at the semaphore) and the counts per protocol are
    what the counters say, modulo their width; the statistics of the RDMA interfaces, which
    sockets point to, are never dropped, their numbers of established connections count the connections and slots,
    and those of vanished interfaces stay last, where the choice of an interface stops.  Nothing is
    said about the number of available connections of an RDMA interface, which drifts
    ([nic_available_drifts]). *)
Theorem pool_invariant cfg port nics rdma w :
  reachable (NodeConnPool_initWorld cfg port nics rdma) w -> world_inv w.
Proof.
  induction 1 as [|w w' _ IH Hstep]; [apply world_inv_init|]. by eapply world_inv_step.
Qed.
End World.

(** ** The limit on connections *)

(** Connections and slots that count against the limit. *)
Definition slots_used (w : World) : Z :=
  zlen (cp_connList (w_pool w)) + zlen (w_attempts w) + zlen (w_lost w).

Lemma zlen_remove_le l id : zlen (ConnectionList_remove l id) <= zlen l.
Proof. unfold ConnectionList_remove, zlen. pose proof (length_filter (fun s => ps_id s <> id) l). lia. Qed.

Lemma invalidate_len id this : cp_cfg (__NodeConnPool_invalidateSpecificStreamSocket id this) = cp_cfg this /\
  zlen (cp_connList (__NodeConnPool_invalidateSpecificStreamSocket id this)) <= zlen (cp_connList this).
Proof.
  unfold __NodeConnPool_invalidateSpecificStreamSocket. destruct (conn_find _ _); [|split; [done|lia]].
  unfold __NodeConnPool_statsRemoveNic. psimpl. split; [done|]. apply zlen_remove_le.
Qed.

Lemma release_len now id this : NoDup (ps_id <$> cp_connList this) ->
  cp_cfg (NodeConnPool_releaseStreamSocket now id this) = cp_cfg this /\
  zlen (cp_connList (NodeConnPool_releaseStreamSocket now id this)) <= zlen (cp_connList this).
Proof.
  intros Hnd. unfold NodeConnPool_releaseStreamSocket.
  destruct (conn_find _ _) as [s|] eqn:E; [|split; [done|lia]].
  case_match; [apply invalidate_len|]. psimpl. split; [done|].
  apply conn_find_some in E as [Hin _]. rewrite (conn_split _ _ Hnd Hin) at 2.
  unfold ConnectionList_moveToHead. rewrite !zlen_cons. done.
Qed.

Lemma commit_len src r fatal fatal2 now this sock this' leak :
  acquire_commit src r fatal fatal2 now this = (sock, this', leak) ->
  cp_cfg this' = cp_cfg this /\
  zlen (cp_connList this') = zlen (cp_connList this) + match sock with Some _ => 1 | None => 0 end.
Proof.
  assert (Hf : forall i b, cp_cfg (fail_conn src i b now this) = cp_cfg this /\
    cp_connList (fail_conn src i b now this) = cp_connList this).
  { intros i b. unfold fail_conn. destruct b; by psimpl. }
  unfold acquire_commit. destruct (cr_sock r) as [s|]; [case_match|]; intros [= <- <- <-];
    [|destruct (Hf (cr_rdmaConnectInterrupted r) (cr_fatal r || fatal || fatal2)) as [-> ->];
       by rewrite Z.add_0_r..].
  unfold add_conn, __NodeConnPool_statsAddNic, ConnectionList_append.
  destruct (negb (ps_sockType s =? NICADDRTYPE_RDMA)); psimpl; by rewrite zlen_app, zlen_cons.
Qed.

Lemma local_len nodeType alloc sup rdma this :
  cp_cfg (update_local_section nodeType alloc sup rdma this) = cp_cfg this /\
  cp_connList (update_local_section nodeType alloc sup rdma this) = cp_connList this.
Proof.
  unfold update_local_section, NodeConnPool_loadRdmaNicStatsList. destruct rdma; [|done].
  case_match; [|done]. by destruct (stats_for_nics _ _ _).
Qed.

Lemma stage1_len idle close this grabbed this' :
  invalidate_stage1 idle close this = (grabbed, this') ->
  cp_cfg this' = cp_cfg this /\ zlen (cp_connList this') = zlen (cp_connList this).
Proof.
  intros [= <- <-]. psimpl. rewrite zlen_fmap. split; [|done].
  generalize (cp_connList this). intros l. revert this.
  induction l as [|s l IH]; intros this; [done|]. cbn. rewrite IH. case_match; by psimpl.
Qed.

(** The first section takes a socket or, when no socket is available, a slot below the limit;
    with a preferred RDMA interface it can take a slot in other cases as well. *)
Definition select_len (step : AcquireStep) (this this' : NodeConnPool) : Prop :=
  cp_cfg this' = cp_cfg this /\ zlen (cp_connList this') = zlen (cp_connList this) /\
  match step with
  | Acq_connect _ _ => cp_rdmaNicCount this' <= 0 -> cp_establishedConns this <> maxConns this
  | _ => True
  end.

Lemma find_conn_none_src l s : find_conn None l = None -> s ∈ l -> ps_available s = false.
Proof.
  induction l as [|x l IH]; intros Hf Hs; [by apply elem_of_nil in Hs|]. cbn in Hf.
  rewrite andb_true_r in Hf. case_match; [done|].
  apply elem_of_cons in Hs as [-> | Hs]; [done|by apply IH].
Qed.

Lemma select_len_ok f env devPrioCtx this busy slots step this' : pool_ok this busy slots ->
  pool_exhausted this = false ->
  acquire_select f env devPrioCtx this = (step, this') -> select_len step this this'.
Proof.
  intros Hok Hex. unfold acquire_select.
  match goal with |- (let '(_, _) := ?e in _) = _ -> _ => destruct e as [src this1] eqn:E end.
  apply select_srcRdma with (busy := busy) (slots := slots) in E
    as (Hok1 & (Hl & Ha & _) & He & Hc & Hn & _ & Hsrc); [|done].
  unfold pool_exhausted in Hex. apply andb_false_iff in Hex.
  destruct (Z.eqb_spec (cp_availableConns this1) 0) as [H0|H0].
  { intros [= <- <-]. split_and!; psimpl; [done|by rewrite Hl|]. intros _.
    rewrite Ha in H0. destruct Hex as [Hex%Z.eqb_neq|Hex%Z.eqb_neq]; [lia|done]. }
  destruct (cp_connList this1) as [|x l] eqn:El.
  { intros [= <- <-]. split_and!; [done|by rewrite El, Hl|done]. }
  rewrite <- El. destruct (find_conn src (cp_connList this1)) as [s|] eqn:Ef.
  - intros [= <- <-]. unfold grab_conn. split_and!; psimpl; [done| |done].
    apply find_conn_some in Ef as [Hin _]. rewrite <- Hl, <- El.
    rewrite (conn_split _ _ (po_ids _ _ _ Hok1) Hin) at 2.
    unfold ConnectionList_moveToTail. rewrite zlen_app, !zlen_cons. cbn. zlia.
  - intros [= <- <-]. split_and!; psimpl; [done|congruence|]. intros Hcnt.
    rewrite Hn in Hcnt. rewrite (Hsrc Hcnt) in Ef. destruct H0.
    rewrite (po_available _ _ _ Hok1).
    destruct (decide (0 < zcount (fun s => ps_available s = true) (cp_connList this1))) as [Hp|Hp].
    + apply zcount_pos in Hp as (s & Hs & Has). by rewrite (find_conn_none_src _ _ Ef Hs) in Has.
    + pose proof (zcount_nonneg (fun s => ps_available s = true) (cp_connList this1)).
      by replace (zcount _ _) with 0 by lia.
Qed.

Lemma enter_len_ok f env allowWaiting devPrioCtx this busy slots step this' :
  pool_ok this busy slots ->
  (forall st, st ∈ cp_rdmaNicStatsList this -> st_id st < se_alloc env) ->
  acquire_enter f env allowWaiting devPrioCtx this = (step, this') -> select_len step this this'.
Proof.
  intros Hok Hfresh. unfold acquire_enter.
  set (this1 := if cp_rdmaNicCount this <? 0 then _ else _). cbn zeta.
  assert (Hok1 : pool_ok this1 busy slots /\ same_conns this this1 /\
    cp_establishedConns this1 = cp_establishedConns this /\ cp_cfg this1 = cp_cfg this).
  { unfold this1. case_match; [|by split_and!; try done; split_and!].
    destruct (load_ok (se_nodeType env) (se_alloc env) this busy slots Hok Hfresh)
      as (? & ? & ? & ? & _). done. }
  destruct Hok1 as (Hok1 & (Hl & _) & He & Hc).
  destruct (pool_exhausted this1) eqn:Ex.
  - intros [= <- <-]. split_and!; [done|by rewrite Hl|]. by destruct allowWaiting.
  - intros Hsel. eapply select_len_ok in Hsel as (H1 & H2 & H3); [|done|done].
    split_and!; [congruence|congruence|]. destruct step; try done.
    unfold maxConns in *. by rewrite <- He, <- Hc.
Qed.

Lemma woken_len_ok f env devPrioCtx this busy slots step this' : pool_ok this busy slots ->
  acquire_woken f env devPrioCtx false this = (step, this') -> select_len step this this'.
Proof.
  intros Hok. unfold acquire_woken. destruct (pool_exhausted this) eqn:Ex.
  - by intros [= <- <-].
  - by eapply select_len_ok.
Qed.

Section Limit.
Context (ibdev_to_node : Z -> Z) (netFilter tcpOnlyFilter : NetFilter).
Local Abbreviation step := (world_step ibdev_to_node netFilter tcpOnlyFilter).

(** Worlds reached through worlds that satisfy [P]. *)
Inductive pool_run (P : World -> Prop) (w0 : World) : World -> Prop :=
| run_start : P w0 -> pool_run P w0 w0
| run_next w w' : pool_run P w0 w -> step w w' -> P w' -> pool_run P w0 w'.

Definition single_rail (w : World) : Prop := cp_rdmaNicCount (w_pool w) <= 0.

Lemma step_slots w w' : step w w' -> world_inv w -> single_rail w' ->
  cp_cfg (w_pool w') = cp_cfg (w_pool w) /\
  (slots_used w' <= slots_used w \/
   slots_used w' = slots_used w + 1 /\
   cp_establishedConns (w_pool w) <> maxConns (w_pool w)).
Proof.
  unfold world_inv, slots_used, single_rail. intros Hstep Hok HP.
  destruct Hstep; cbn [w_pool w_held w_dying w_attempts w_lost] in *.
  - apply (enter_len_ok _ _ _ _ _ _ _ _ _ Hok) in H0 as (? & ? & _); [|done].
    split; [done|]. left. lia.
  - destruct_or!; [apply (enter_len_ok _ _ _ _ _ _ _ _ _ Hok) in H0 as (? & ? & _); [|done]|
      apply (woken_len_ok _ _ _ _ _ _ _ _ Hok) in H0 as (? & ? & _)]; split; [done|left; lia|done|left; lia].
  - destruct_or!; [apply (enter_len_ok _ _ _ _ _ _ _ _ _ Hok) in H0 as (? & ? & Hne); [|done]|
      apply (woken_len_ok _ _ _ _ _ _ _ _ Hok) in H0 as (? & ? & Hne)];
      (split; [done|]); right; rewrite zlen_cons; split; auto; lia.
  - split; [done|]. left. rewrite H0, !zlen_app, !zlen_cons. lia.
  - apply commit_len in H0 as [? Hl]. split; [done|]. left. rewrite H, Hl, !zlen_app, zlen_cons. lia.
  - apply commit_len in H0 as [? Hl]. split; [done|]. left. rewrite H, Hl, !zlen_app, zlen_cons. lia.
  - destruct (release_len now id (w_pool w) (po_ids _ _ _ Hok)) as [? ?]. split; [done|]. left. lia.
  - destruct (invalidate_len id (w_pool w)) as [? ?]. split; [done|]. left. lia.
  - apply stage1_len in H as [? ?]. split; [done|]. left. lia.
  - destruct (invalidate_len id (w_pool w)) as [? ?]. split; [done|]. left. lia.
  - split; [done|]. left. cbn. rewrite zlen_fmap. lia.
  - injection H as <- <-. split; [done|]. left. cbn. lia.
  - destruct (local_len nodeType alloc supportsRDMA localRdmaNicList (w_pool w)) as [Hc Hl].
    rewrite Hl. split; [done|]. left. lia.
Qed.

(** C16: As long as the node's pool uses no multi-rail RDMA, connections, connection attempts
    and lost slots together never exceed the configured maximum, in any interleaving. *)
Theorem connection_limit cfg port nics rdma w :
  0 <= pc_maxConns cfg < 2 ^ 32 ->
  pool_run single_rail (NodeConnPool_initWorld cfg port nics rdma) w ->
  slots_used w <= pc_maxConns cfg.
Proof.
  intros Hmax Hrun.
  assert (Hinv : world_inv w /\ cp_cfg (w_pool w) = cfg /\ slots_used w <= pc_maxConns cfg);
    [|tauto].
  induction Hrun as [HP|w w' _ (Hinv & Hcfg & Hle) Hstep HP].
  - split_and!; [apply world_inv_init|done|].
    change (0 <= pc_maxConns cfg). lia.
  - destruct (step_slots w w' Hstep Hinv HP) as [Hc Hs].
    split_and!; [by eapply world_inv_step|congruence|].
    destruct Hs as [|[Heq Hne]]; [lia|].
    rewrite (po_established _ _ _ Hinv), zlen_app in Hne. unfold maxConns in Hne.
    fold (slots_used w) in *. unfold slots_used in *.
    rewrite u32_small, Hcfg in Hne by (pose proof (zlen_nonneg (cp_connList (w_pool w)));
      pose proof (zlen_nonneg (w_attempts w)); pose proof (zlen_nonneg (w_lost w)); lia). lia.
Qed.
End Limit.

(** ** Witnesses: one connection taken and given back *)

Definition ip_a : list byte := beegfs_mapped_ipv4 (replicate 4 Byte.x0a).
Definition nic_named (ip : list byte) (nicType : Z) : NicAddress :=
  MkNicAddress ip nicType (replicate 16 Byte.x00).
Definition cfg_of (maxConns : Z) : PoolConfig := MkPoolConfig maxConns 900 4 true.
Definition time_at (secs : Z) : Time := MkTime secs 0.
Definition env_of (nodeType : Z) : SelectEnv :=
  MkSelectEnv nodeType 1 (time_at 5000) (time_at 5000) 0.
Definition connects (id : Z) : nat -> ConnectEnv := fun _ =>
  MkConnectEnv true id [] true false (time_at 5000) false false.
Definition no_numa (_ : Z) : Z := 0.

Definition w_start : World :=
  NodeConnPool_initWorld (cfg_of 2) 8003 [nic_named ip_a NICADDRTYPE_STANDARD] None.

(** A slot is taken, the connection made, the socket given back. *)
Definition enter_pool (nodeType : Z) (devPrioCtx : bool) (p : NodeConnPool) : NodeConnPool :=
  (acquire_enter no_numa (env_of nodeType) true devPrioCtx p).2.
Definition connected_pool (srcRdma : option Z) (nics : list NicAddress) (id : Z)
    (p : NodeConnPool) : NodeConnPool :=
  (acquire_commit srcRdma (connect_nics [] [] (connects id) (cp_supportsRDMA p) srcRdma true false
     false nics) false false (time_at 5000) p).1.2.

Definition w_slot : World :=
  MkWorld (enter_pool NODETYPE_Mgmt false (w_pool w_start)) [] [] [None] [].
Definition w_conn : World :=
  MkWorld (connected_pool None [nic_named ip_a NICADDRTYPE_STANDARD] 7 (w_pool w_slot))
    [7] [] [] [].
Definition w_released : World :=
  MkWorld (NodeConnPool_releaseStreamSocket (time_at 5001) 7 (w_pool w_conn)) [] [] [] [].

Lemma w_slot_step : world_step no_numa [] [] w_start w_slot.
Proof.
  eapply (step_acquire_slot _ _ _ w_start (env_of NODETYPE_Mgmt) true false None).
  - by intros st Hst%elem_of_nil.
  - left. vm_compute. reflexivity.
Qed.
Lemma w_conn_step : world_step no_numa [] [] w_slot w_conn.
Proof.
  eapply (step_commit _ _ _ w_slot None [] [] (connects 7)
            [nic_named ip_a NICADDRTYPE_STANDARD] false false (time_at 5000) 7).
  - reflexivity.
  - vm_compute. reflexivity.
  - by intros Hst%elem_of_nil.
Qed.
Lemma w_released_step : world_step no_numa [] [] w_conn w_released.
Proof. by apply (step_release _ _ _ w_conn (time_at 5001) 7 [] []). Qed.

Lemma pool_invariant_witness :
  world_inv w_released /\ cp_availableConns (w_pool w_released) = 1.
Proof.
  split; [|reflexivity].
  eapply (pool_invariant no_numa [] [] (cfg_of 2) 8003).
  eapply pool_next; [|apply w_released_step]. eapply pool_next; [|apply w_conn_step].
  eapply pool_next; [|apply w_slot_step]. apply pool_start.
Defined.

Lemma connection_limit_witness : slots_used w_conn = 1 /\ slots_used w_conn <= 2.
Proof.
  split; [reflexivity|].
  apply (connection_limit no_numa [] [] (cfg_of 2) 8003 [nic_named ip_a NICADDRTYPE_STANDARD] None
           w_conn); [done|].
  eapply run_next; [|apply w_conn_step|vm_compute; discriminate].
  eapply run_next; [|apply w_slot_step|vm_compute; discriminate].
  apply run_start. vm_compute. discriminate.
Defined.

(** ** Lost slots *)

(** Nobody uses the pool, there is no connection, and yet it is exhausted. *)
Definition pool_dead (w : World) : Prop :=
  cp_connList (w_pool w) = [] /\ w_held w = [] /\ w_dying w = [] /\ w_attempts w = [] /\
  pool_exhausted (w_pool w) = true.

(** The pool after [k] reservations: only the counter has changed. *)
Lemma reserve_lost f cfg port nics k : 0 <= Z.of_nat k < pc_maxConns cfg -> pc_maxConns cfg < 2 ^ 32 ->
  0 < pc_maxConcurrentAttempts cfg ->
  exists w, pool_reachable f [] [] (NodeConnPool_initWorld cfg port nics None) w /\
    cp_connList (w_pool w) = [] /\ w_held w = [] /\ w_dying w = [] /\ w_attempts w = [] /\
    cp_cfg (w_pool w) = cfg /\ cp_availableConns (w_pool w) = 0 /\ cp_rdmaNicCount (w_pool w) = 0 /\
    cp_rdmaNicStatsList (w_pool w) = [] /\ cp_establishedConns (w_pool w) = Z.of_nat (S k).
Proof.
  induction k as [|k IH]; intros Hk Hmax Hatt.
  - eexists. split; [eapply pool_next; [eapply pool_next; [apply pool_start|]|]|].
    + eapply (step_acquire_slot _ _ _ _ (env_of NODETYPE_Mgmt) true false None).
      { by intros st Hst%elem_of_nil. }
      left. unfold acquire_enter, pool_exhausted, maxConns. cbn.
      destruct (pc_maxConns cfg); [lia| |lia]. reflexivity.
    + eapply (step_interrupted _ _ _ _ None [] []); done.
    + split_and!; reflexivity.
  - destruct IH as (w & Hr & Hl & Hh & Hd & Ha & Hc & Hav & Hn & Hst & He); [lia..|done|].
    eexists. split; [eapply pool_next; [eapply pool_next; [exact Hr|]|]|].
    + eapply (step_acquire_slot _ _ _ _ (env_of NODETYPE_Mgmt) true false None).
      { intros st. rewrite Hst. by intros ?%elem_of_nil. }
      left. unfold acquire_enter. rewrite Hn. change (0 <? 0) with false. cbn iota zeta.
      unfold pool_exhausted, maxConns. rewrite Hav, He, Hc. change (0 =? 0) with true.
      cbn [andb]. destruct (Z.eqb_spec (Z.of_nat (S k)) (pc_maxConns cfg)); [lia|].
      unfold acquire_select. rewrite Hn. change (0 <? 0) with false. cbn iota zeta.
      rewrite Hav. change (0 =? 0) with true. reflexivity.
    + eapply (step_interrupted _ _ _ _ None [] []); cbn; [by rewrite Hc|by rewrite Ha].
    + cbn. split_and!; try done. rewrite He, u32_small; lia.
Qed.

Lemma pool_dead_enter f env allowWaiting devPrioCtx w : pool_dead w ->
  exists pool', acquire_enter f env allowWaiting devPrioCtx (w_pool w) =
    (if allowWaiting then Acq_wait else Acq_null, pool') /\
  cp_connList pool' = [] /\ pool_exhausted pool' = true.
Proof.
  intros (Hl & _ & _ & _ & Hex). unfold acquire_enter.
  set (this1 := if cp_rdmaNicCount (w_pool w) <? 0 then _ else _). cbn zeta.
  assert (H1 : cp_connList this1 = [] /\ pool_exhausted this1 = true).
  { unfold this1, NodeConnPool_loadRdmaNicStatsList.
    case_match; [|done]. case_match; [|done]. by destruct (stats_for_nics _ _ _). }
  destruct H1 as [H1 H2]. rewrite H2. eauto.
Qed.

Lemma pool_dead_woken f env devPrioCtx w : pool_dead w ->
  acquire_woken f env devPrioCtx false (w_pool w) = (Acq_wait, w_pool w).
Proof. intros (_ & _ & _ & _ & Hex). unfold acquire_woken. by rewrite Hex. Qed.

Lemma pool_dead_step f nf tf w w' : world_step f nf tf w w' -> pool_dead w -> pool_dead w'.
Proof.
  intros Hstep Hd. pose proof Hd as (Hl & Hh & Hdy & Ha & Hex).
  destruct Hstep; unfold pool_dead; cbn [w_pool w_held w_dying w_attempts w_lost].
  - destruct (pool_dead_enter f env allowWaiting devPrioCtx w Hd) as (p & Hp & ? & ?).
    rewrite Hp in H0. by simplify_eq.
  - destruct H0 as [H0|H0]; [|by rewrite pool_dead_woken in H0].
    destruct (pool_dead_enter f env allowWaiting devPrioCtx w Hd) as (p & Hp & ? & ?).
    rewrite Hp in H0. by destruct allowWaiting.
  - destruct H0 as [H0|H0]; [|by rewrite pool_dead_woken in H0].
    destruct (pool_dead_enter f env allowWaiting devPrioCtx w Hd) as (p & Hp & ? & ?).
    rewrite Hp in H0. by destruct allowWaiting.
  - by rewrite Ha in H0; destruct before.
  - by rewrite Ha in H; destruct before.
  - by rewrite Ha in H; destruct before.
  - by rewrite Hh in H; destruct before.
  - by rewrite Hh in H; destruct before.
  - unfold invalidate_stage1 in H. rewrite Hl in H. cbn in H. simplify_eq. by rewrite Hdy.
  - by rewrite Hdy in H; destruct before.
  - unfold __NodeConnPool_resetStreamsIdleFlag. cbn. by rewrite Hl.
  - injection H as <- <-. done.
  - unfold update_local_section, NodeConnPool_loadRdmaNicStatsList.
    destruct localRdmaNicList; [|done]. case_match; [|done]. by destruct (stats_for_nics _ _ _).
Qed.

(** A thread that is killed while it waits for its turn to connect leaves its reserved slot
    behind.  For every limit there is a run after which no connection exists, no thread uses
    the pool or connects, and all slots are lost; from then on, whatever happens, no call
    ever obtains a socket or a slot: calls that must not wait fail, the others wait for ever. *)
Theorem killed_attempts_exhaust_pool f cfg port nics :
  0 < pc_maxConns cfg < 2 ^ 32 -> 0 < pc_maxConcurrentAttempts cfg ->
  exists w, pool_reachable f [] [] (NodeConnPool_initWorld cfg port nics None) w /\
    pool_dead w /\
    forall w', pool_reachable f [] [] w w' -> pool_dead w' /\
      forall env allowWaiting devPrioCtx,
        (acquire_enter f env allowWaiting devPrioCtx (w_pool w')).1 =
          (if allowWaiting then Acq_wait else Acq_null) /\
        (acquire_woken f env devPrioCtx false (w_pool w')).1 = Acq_wait.
Proof.
  intros Hmax Hatt.
  destruct (reserve_lost f cfg port nics (Z.to_nat (pc_maxConns cfg - 1)))
    as (w & Hr & Hl & Hh & Hd & Ha & Hc & Hav & Hn & Hst & He); [lia..|done|].
  exists w. split; [done|].
  assert (Hdead : pool_dead w).
  { split_and!; try done. unfold pool_exhausted, maxConns. rewrite Hav, He, Hc. cbn.
    apply Z.eqb_eq. lia. }
  split; [done|]. intros w' Hr'.
  assert (Hdead' : pool_dead w').
  { induction Hr' as [|w1 w2 _ IH Hs]; [done|]. by eapply pool_dead_step. }
  split; [done|]. intros env allowWaiting devPrioCtx.
  destruct (pool_dead_enter f env allowWaiting devPrioCtx w' Hdead') as (p & -> & _).
  by rewrite pool_dead_woken.
Qed.

Lemma killed_attempts_exhaust_pool_witness :
  exists w, pool_reachable no_numa [] [] (NodeConnPool_initWorld (cfg_of 2) 8003 [] None) w /\
    pool_dead w.
Proof.
  destruct (killed_attempts_exhaust_pool no_numa (cfg_of 2) 8003 []) as (w & Hr & Hd & _);
    [done|done|]. by exists w.
Defined.
