(* ===== verification/ConnPoolCallsFacts.v ===== *)
(** * Whole calls on the connection pool

    When the acquiring call, which calls itself after a handshake, returns; and the cases in
    which the pool's counters and limits do not do what they are for. *)

From S2P Require Import Prelude StorageErrors Serialization NetMessageTypes NetMessage MessagesSession MessagesNodes Nics NicsFacts ConnPool ConnPoolFacts.

(** ** The socket that an attempt makes *)

Lemma connect_nics_new nf tf nics : forall env sup src primary fatal interrupted s,
  cr_sock (connect_nics nf tf env sup src primary fatal interrupted nics) = Some s ->
  exists i, ps_id s = ce_id (env i) /\
    (ps_expireTimeStart s = Time_initZero /\ ps_closeOnRelease s = false \/
     ps_expireTimeStart s = ce_now (env i) /\ ps_closeOnRelease s = ce_signal_pending (env i)).
Proof.
  induction nics as [|nic nics IH]; intros env sup src primary fatal interrupted s; [done|].
  cbn [connect_nics].
  assert (Hrec : forall primary fatal interrupted,
    cr_sock (connect_nics nf tf (fun i => env (S i)) sup src primary fatal interrupted nics) =
      Some s ->
    exists i, ps_id s = ce_id (env i) /\
      (ps_expireTimeStart s = Time_initZero /\ ps_closeOnRelease s = false \/
       ps_expireTimeStart s = ce_now (env i) /\ ps_closeOnRelease s = ce_signal_pending (env i))).
  { intros p f i (j & Hj)%IH. by exists (S j). }
  repeat case_match; cbn [cr_sock]; try apply Hrec; try done; intros [= <-]; exists O; cbn;
    (split; [done|]); [by left|by right|by left|by right].
Qed.

(** ** Termination *)

(** An available connection is found when no RDMA interface is preferred. *)
Lemma select_finds f env devPrioCtx this busy slots : pool_ok this busy slots ->
  cp_rdmaNicCount this <= 0 -> cp_availableConns this <> 0 ->
  exists id this', acquire_select f env devPrioCtx this = (Acq_sock id, this').
Proof.
  intros Hok Hn Ha. unfold acquire_select.
  destruct (Z.ltb_spec 0 (cp_rdmaNicCount this)); [lia|].
  destruct (Z.eqb_spec (cp_availableConns this) 0); [done|].
  destruct (cp_connList this) as [|x l] eqn:El.
  { destruct Ha. rewrite (po_available _ _ _ Hok), El. done. }
  rewrite <- El. destruct (find_conn None (cp_connList this)) as [s|] eqn:Ef; [eauto|].
  destruct Ha. rewrite (po_available _ _ _ Hok).
  destruct (decide (0 < zcount (fun s => ps_available s = true) (cp_connList this))) as [Hp|Hp].
  - apply zcount_pos in Hp as (s & Hs & Has). by rewrite (find_conn_none_src _ _ Ef Hs) in Has.
  - pose proof (zcount_nonneg (fun s => ps_available s = true) (cp_connList this)).
    by replace (zcount _ _) with 0 by lia.
Qed.

Lemma enter_available f env allowWaiting devPrioCtx this busy slots : pool_ok this busy slots ->
  cp_rdmaNicCount this = 0 -> cp_availableConns this <> 0 ->
  exists id this', acquire_enter f env allowWaiting devPrioCtx this = (Acq_sock id, this').
Proof.
  intros Hok Hn Ha. unfold acquire_enter. rewrite Hn. change (0 <? 0) with false. cbn iota zeta.
  unfold pool_exhausted. destruct (Z.eqb_spec (cp_availableConns this) 0); [done|]. cbn [andb].
  eapply select_finds; [done|lia|done].
Qed.

(** A connection that is neither expired nor marked is available after its release. *)
Lemma release_makes_available now id this busy slots s : pool_ok this (id :: busy) slots ->
  conn_find id (cp_connList this) = Some s -> zlen (cp_connList this) < 2 ^ 32 ->
  PooledSocket_getHasExpired now s (pc_fallbackExpirationSecs (cp_cfg this)) = false ->
  ps_closeOnRelease s = false ->
  let this' := NodeConnPool_releaseStreamSocket now id this in
  cp_availableConns this' <> 0 /\ cp_rdmaNicCount this' = cp_rdmaNicCount this.
Proof.
  intros Hok Hf Hlen Hexp Hclose. cbn zeta.
  pose proof (pool_ok_release _ _ _ now _ Hok) as Hok'.
  destruct (release_len now id this (po_ids _ _ _ Hok)) as [_ Hl].
  rewrite (po_available _ _ _ Hok').
  unfold NodeConnPool_releaseStreamSocket in *. rewrite Hf, Hexp, Hclose in *. cbn [orb] in *.
  psimpl. split; [|done].
  set (l := ConnectionList_moveToHead _ _) in *.
  assert (0 < zcount (fun s => ps_available s = true) l).
  { apply zcount_elem with (x := PooledSocket_setAvailable true s); [left|done]. }
  assert (zcount (fun s => ps_available s = true) l <= zlen l).
  { unfold zcount, zlen. pose proof (length_filter (fun s => ps_available s = true) l). lia. }
  rewrite u32_small; lia.
Qed.

(** A pool as the call finds it: consistent, with the sockets [held] in use and the slots
    [attempts] reserved by the call among others, without preferred RDMA interfaces, with the
    given configuration and within its limit ([connection_limit]); its sockets have numbers
    below [bound]. *)
Definition calm_pool (cfg : PoolConfig) (bound : Z) (held : list Z) (attempts : list (option Z)) (this : NodeConnPool) : Prop :=
  exists busy slots, pool_ok this (held ++ busy) (attempts ++ slots) /\ cp_rdmaNicCount this = 0 /\
    cp_cfg this = cfg /\ zlen (cp_connList this) + zlen (attempts ++ slots) <= pc_maxConns cfg /\ pc_maxConns cfg < 2 ^ 32 /\
    Forall (fun s => ps_id s < bound) (cp_connList this).

(** What other threads do while the mutex is free: the pool stays calm, with the slot and the
    socket of the call (every critical section keeps it consistent: [world_inv_step]); the
    new sockets of the call ([bound] to [bound']) are none of the pool; and nobody marks the
    socket of the call for closing.  They may take and give back any other connections, and may
    take the one that the call gives back before its next activation. *)
Record others_ok (cfg : PoolConfig) (bound bound' : Z) (e : AcquireEnv) : Prop := {
  oo_wakeups : Forall (from_option (calm_pool cfg bound [] []) True) (ae_wakeups e);
  oo_ids : forall i, bound <= ce_id (ae_connect e i) < bound';
  oo_connect : forall p, calm_pool cfg bound [] [None] p -> calm_pool cfg bound [] [None] (ae_others_connect e p);
  oo_handshake : forall id p, calm_pool cfg bound' [id] [] p -> calm_pool cfg bound' [id] [] (ae_others_handshake e p) /\
    conn_find id (cp_connList (ae_others_handshake e p)) = conn_find id (cp_connList p);
  oo_again : forall p, calm_pool cfg bound' [] [] p -> calm_pool cfg bound' [] [] (ae_others_again e p)
}.
(** They leave an available connection if there was one. *)
Definition leaves_available (e : AcquireEnv) : Prop :=
  forall p, cp_availableConns p <> 0 -> cp_availableConns (ae_others_again e p) <> 0.

(** What one activation must not meet: a signal during a connection over a second
    interface, or an expiry of the new connection before the handshake is over. *)
Definition calm_env (cfg : PoolConfig) (e : AcquireEnv) : Prop :=
  forall i, ce_signal_pending (ae_connect e i) = false /\
    Time_elapsedMS (ae_now_release e) (ce_now (ae_connect e i)) <=
      u32 (pc_fallbackExpirationSecs cfg * 1000).

Lemma calm_not_expired cfg e i s : calm_env cfg e ->
  ps_expireTimeStart s = Time_initZero \/ ps_expireTimeStart s = ce_now (ae_connect e i) ->
  PooledSocket_getHasExpired (ae_now_release e) s (pc_fallbackExpirationSecs cfg) = false.
Proof.
  intros He Hs. unfold PooledSocket_getHasExpired.
  destruct Hs as [-> | ->]; [done|]. case_match; [done|]. destruct (He i) as [_ Hle].
  apply Z.ltb_ge. done.
Qed.

(** What the first section with its wait loop leaves: a slot comes with a pool that can take
    the new connection; the call waits only for an exhausted pool. *)
Definition section_result (cfg : PoolConfig) (bound : Z) (allowWaiting : bool) (step : AcquireStep) (this : NodeConnPool) : Prop :=
  match step with
  | Acq_connect src _ => src = None /\ calm_pool cfg bound [] [None] this
  | Acq_wait => allowWaiting = true /\ pool_exhausted this = true
  | Acq_fault => False
  | _ => True
  end.

Lemma select_result f cfg bound a env devPrioCtx this step this' : calm_pool cfg bound [] [] this ->
  pool_exhausted this = false -> acquire_select f env devPrioCtx this = (step, this') ->
  section_result cfg bound a step this' /\ step <> Acq_wait.
Proof.
  intros (busy & slots & Hok & Hn & Hc & Hlen & Hmax & Hids) Hex Hsel. cbn [app] in *.
  pose proof (select_ok _ _ _ _ _ _ _ _ Hok Hsel) as Hstep.
  destruct (select_len_ok _ _ _ _ _ _ _ _ Hok Hex Hsel) as (Hc' & Hl' & Hlim).
  unfold acquire_select in Hsel. rewrite Hn in Hsel. change (0 <? 0) with false in Hsel.
  cbn iota zeta in Hsel.
  assert (Hslot : reserve_conn (se_nodeType env) None this = (step, this') -> section_result cfg bound a step this' /\ step <> Acq_wait).
  { unfold reserve_conn. intros [= <- <-]. split; [|done]. split; [done|]. exists busy, slots. psimpl. cbn [app].
    assert (Hne := Hlim ltac:(psimpl; lia)). unfold maxConns in Hne.
    rewrite (po_established _ _ _ Hok), Hc in Hne. rewrite zlen_cons. rewrite u32_small in Hne by zlia. split_and!; try done. zlia. }
  destruct (Z.eqb_spec (cp_availableConns this) 0); [by apply Hslot|].
  destruct (cp_connList this) as [|x l] eqn:El.
  { destruct n. by rewrite (po_available _ _ _ Hok), El. }
  rewrite <- El in *. destruct (find_conn None (cp_connList this)); [by injection Hsel as <- <-|by apply Hslot].
Qed.

(** The sockets after the section are those of before. *)
Lemma select_ids f env devPrioCtx this step this' : cp_rdmaNicCount this = 0 ->
  acquire_select f env devPrioCtx this = (step, this') -> forall s, s ∈ cp_connList this' ->
  exists s', s' ∈ cp_connList this /\ ps_id s = ps_id s'.
Proof.
  intros Hn Hsel s. unfold acquire_select, reserve_conn in Hsel. rewrite Hn in Hsel. change (0 <? 0) with false in Hsel.
  cbn iota zeta in Hsel. destruct (cp_availableConns this =? 0); [injection Hsel as <- <-; psimpl; eauto|].
  destruct (cp_connList this) as [|x l] eqn:El; [injection Hsel as <- <-; rewrite El; eauto|]. rewrite <- El in *.
  destruct (find_conn None (cp_connList this)) as [s0|] eqn:Ef; injection Hsel as <- <-; [|psimpl; eauto].
  apply find_conn_some in Ef as [Hin _]. unfold grab_conn, ConnectionList_moveToTail, ConnectionList_remove. psimpl.
  intros [[_ Hs]%list_elem_of_filter|[-> | []%elem_of_nil]%elem_of_cons]%elem_of_app; eauto.
Qed.

Lemma wait_loop_result f cfg bound env devPrioCtx ws :
  Forall (from_option (calm_pool cfg bound [] []) True) ws -> forall this step this', pool_exhausted this = true ->
  wait_loop f env devPrioCtx ws this = (step, this') -> section_result cfg bound true step this'.
Proof.
  induction 1 as [|[q|] ws Hq Hws IH]; intros this step this' Hex; cbn [wait_loop].
  - by intros [= <- <-].
  - unfold acquire_woken. destruct (pool_exhausted q) eqn:Ex; [by apply IH|].
    destruct (acquire_select f env devPrioCtx q) as [st q'] eqn:Es.
    destruct (select_result _ _ _ true _ _ _ _ _ Hq Ex Es) as [Hst Hne].
    destruct st; try done; intros [= <- <-]; done.
  - by intros [= <- <-].
Qed.

Lemma first_section_result f cfg bound env ws allowWaiting devPrioCtx this step this' :
  calm_pool cfg bound [] [] this -> Forall (from_option (calm_pool cfg bound [] []) True) ws ->
  match acquire_enter f env allowWaiting devPrioCtx this with
  | (Acq_wait, p) => wait_loop f env devPrioCtx ws p
  | r => r
  end = (step, this') -> section_result cfg bound allowWaiting step this'.
Proof.
  intros Hcalm Hw. unfold acquire_enter. pose proof Hcalm as (_ & _ & _ & Hn & _). rewrite Hn.
  change (0 <? 0) with false. cbn iota zeta. destruct (pool_exhausted this) eqn:Ex.
  - destruct allowWaiting; [by apply wait_loop_result|]. by intros [= <- <-].
  - destruct (acquire_select f env devPrioCtx this) as [st q'] eqn:Es.
    destruct (select_result _ _ _ allowWaiting _ _ _ _ _ Hcalm Ex Es) as [Hst Hne].
    destruct st; try done; intros [= <- <-]; done.
Qed.

(** The call has a result, or it may wait and waits while all connections are in use: it
    neither needs more activations than the fuel allows nor uses an uninitialised pointer. *)
Definition returned (allowWaiting : bool) (r : AcquireResult) : Prop :=
  match r with
  | Acquired _ _ => True
  | Acquire_blocked p => allowWaiting = true /\ pool_exhausted p = true
  | _ => False
  end.

(** Giving back adds no socket. *)
Lemma release_ids now id this s : s ∈ cp_connList (NodeConnPool_releaseStreamSocket now id this) ->
  exists s', s' ∈ cp_connList this /\ ps_id s = ps_id s'.
Proof.
  unfold NodeConnPool_releaseStreamSocket, __NodeConnPool_invalidateSpecificStreamSocket.
  destruct (conn_find id (cp_connList this)) as [s0|] eqn:E; [|eauto].
  apply conn_find_some in E as [Hin _]. case_match.
  - psimpl. unfold ConnectionList_remove. intros [_ Hs]%list_elem_of_filter. eauto.
  - psimpl. unfold ConnectionList_moveToHead, ConnectionList_remove. intros [->|[_ Hs]%list_elem_of_filter]%elem_of_cons; eauto.
Qed.

(** The new connection in the pool, and giving it back. *)
Lemma calm_add cfg bound bound' s interrupted now p : calm_pool cfg bound [] [None] p -> new_sock_ok None s ->
  bound <= ps_id s < bound' ->
  let p1 := add_conn None interrupted now s p in
  calm_pool cfg bound' [ps_id s] [] p1 /\ conn_find (ps_id s) (cp_connList p1) = Some s.
Proof.
  intros (busy & slots & Hok & Hn & Hc & Hlen & Hmax & Hids) Hnew Hb. cbn zeta. cbn [app] in *.
  assert (Hfresh : ps_id s ∉ ps_id <$> cp_connList p).
  { intros (s' & E & Hs')%list_elem_of_fmap. rewrite list.Forall_forall in Hids. specialize (Hids s' Hs'). cbn in Hids. lia. }
  pose proof (pool_ok_add _ _ _ _ interrupted now _ Hok Hnew Hfresh) as Hok1. set (p1 := add_conn _ _ _ _ _) in *.
  assert (cp_connList p1 = cp_connList p ++ [s] /\ cp_cfg p1 = cp_cfg p /\ cp_rdmaNicCount p1 = cp_rdmaNicCount p)
    as (Hl1 & Hc1 & Hn1) by (unfold p1, add_conn, __NodeConnPool_statsAddNic; by destruct (negb _); psimpl).
  destruct (pool_ok_busy _ _ _ (ps_id s) Hok1 ltac:(left)) as (s' & Hf & Hin & Hid' & _).
  assert (s' = s) as ->.
  { eapply (NoDup_fmap_eq ps_id); [apply Hok1|done| |done]. rewrite Hl1. apply elem_of_app. right. left. }
  split; [|done]. rewrite zlen_cons in Hlen. assert (Hl2 : zlen (cp_connList p1) = zlen (cp_connList p) + 1) by (rewrite Hl1; zlia).
  exists busy, slots. rewrite Hl2, Hl1. cbn [app].
  split_and!; [done|congruence|congruence|lia|done|]. apply list.Forall_app. split; [|constructor; [lia|constructor]].
  eapply list.Forall_impl; [exact Hids|]. cbn. lia.
Qed.
Lemma calm_release cfg bound now id s p : calm_pool cfg bound [id] [] p -> conn_find id (cp_connList p) = Some s ->
  PooledSocket_getHasExpired now s (pc_fallbackExpirationSecs cfg) = false -> ps_closeOnRelease s = false ->
  let p' := NodeConnPool_releaseStreamSocket now id p in calm_pool cfg bound [] [] p' /\ cp_availableConns p' <> 0.
Proof.
  intros (busy & slots & Hok & Hn & Hc & Hlen & Hmax & Hids) Hf Hexp Hclose. cbn zeta. cbn [app] in *.
  destruct (release_makes_available now id p busy slots s Hok Hf) as [Hav Hn2]; [zlia|by rewrite Hc|done|].
  destruct (release_len now id p (po_ids _ _ _ Hok)) as [Hc2 Hl2]. split; [|done].
  exists busy, slots. split_and!; [by apply pool_ok_release|congruence|congruence|cbn [app]; lia|done|].
  apply list.Forall_forall. rewrite list.Forall_forall in Hids. intros s' Hs'.
  destruct (release_ids now id p s' Hs') as (s2 & Hs2 & ->). by apply Hids.
Qed.

(** One activation: a result, or a call of itself on what the other threads have left of a
    pool with an available connection. *)
Lemma acquire_activation f nf tf cfg bound bound' n env inval allowWaiting devPrioCtx this :
  calm_pool cfg bound [] [] this -> others_ok cfg bound bound' (env O) -> calm_env cfg (env O) ->
  let r := NodeConnPool_acquireStreamSocketEx f nf tf (S n) env inval allowWaiting devPrioCtx this in
  returned allowWaiting r \/
  exists p, calm_pool cfg bound' [] [] p /\ cp_availableConns p <> 0 /\
    r = NodeConnPool_acquireStreamSocketEx f nf tf n (fun i => env (S i)) inval allowWaiting devPrioCtx
          (ae_others_again (env O) p).
Proof.
  intros Hcalm [Hw Hids Hoc Hoh _] He. cbn [NodeConnPool_acquireStreamSocketEx]. cbn zeta.
  destruct (ae_fatal_start (env O)); [by left|].
  destruct (match acquire_enter _ _ _ _ _ with (Acq_wait, p) => _ | r => r end) as [step p] eqn:Es.
  apply (first_section_result _ _ _ _ _ _ _ _ _ _ Hcalm Hw) in Es.
  destruct step as [| |id|src l|]; [by left..| |done]. destruct Es as (-> & Hp).
  destruct (_ && ae_sem_interrupted (env O)); [by left|].
  set (r := connect_nics _ _ _ _ _ _ _ _ _). unfold acquire_commit.
  destruct (cr_sock r) as [s|] eqn:Hs; [|by left].
  destruct (negb (cr_end r) && _); [|by left].
  destruct (inval && _); [|by left]. destruct (_ || _); [|by left]. right.
  pose proof (connect_nics_sock _ _ _ _ _ _ _ _ _ _ Hs) as Hnew.
  apply connect_nics_new in Hs as (i & Hid & Hflags).
  destruct (calm_add _ _ bound' s (cr_rdmaConnectInterrupted r) (ae_now (env O)) _ (Hoc p Hp) Hnew) as [Hp2 Hf2]; [by rewrite Hid|].
  destruct (Hoh _ _ Hp2) as [Hp3 Hf3]. rewrite Hf2 in Hf3.
  destruct (calm_release _ _ (ae_now_release (env O)) _ _ _ Hp3 Hf3) as [Hp4 Hav].
  { apply (calm_not_expired _ _ i); [done|]. destruct Hflags as [[? _]|[? _]]; auto. }
  { destruct (He i) as [Hsig _]. destruct Hflags as [[_ ?]|[_ ->]]; done. }
  eexists. split; [exact Hp4|]. split; [exact Hav|]. reflexivity.
Qed.

(** C17: Without multi-rail RDMA and while other threads keep using the pool, a call that
    acquires a socket repeats itself only as long as others take what it gives back: if the
    other threads leave an available connection at the end of activation [k], after the
    handshake, the call has returned after at most [k + 1] calls of itself, or, if it may
    wait, is waiting for a pool all of whose connections are in use.  In every activation
    that repeats itself the connection that was just made and handshaked is available when
    it is given back.  That needs a new connection that is not closed on its release: no signal
    may be pending when a second interface is used, it must not expire before the handshake is
    over, and nobody may invalidate the connections of the pool meanwhile. *)
Theorem acquire_returns f nf tf cfg bounds env inval allowWaiting devPrioCtx k this :
  calm_pool cfg (bounds O) [] [] this ->
  (forall i, (i <= k)%nat -> others_ok cfg (bounds i) (bounds (S i)) (env i) /\ calm_env cfg (env i)) ->
  leaves_available (env k) ->
  returned allowWaiting (NodeConnPool_acquireStreamSocketEx f nf tf (S (S k)) env inval allowWaiting devPrioCtx this).
Proof.
  revert bounds env this. induction k as [|k IH]; intros bounds env this Hcalm Hall Hav; destruct (Hall O ltac:(lia)) as [Ho He].
  - destruct (acquire_activation f nf tf cfg _ _ 1 env inval allowWaiting devPrioCtx this Hcalm Ho He) as [H|(p & Hp & Hpav & ->)]; [done|].
    cbn [NodeConnPool_acquireStreamSocketEx]. destruct (ae_fatal_start _); [done|].
    destruct (oo_again _ _ _ _ Ho p Hp) as (busy & slots & Hok & Hn & _).
    by destruct (enter_available f (ae_select (env 1%nat)) allowWaiting devPrioCtx _ busy slots
              Hok Hn (Hav p Hpav)) as (id2 & p2 & ->).
  - destruct (acquire_activation f nf tf cfg _ _ (S (S k)) env inval allowWaiting devPrioCtx this Hcalm Ho He) as [H|(p & Hp & Hpav & ->)]; [done|].
    apply (IH (fun i => bounds (S i)) (fun i => env (S i))); [by apply (oo_again _ _ _ _ Ho)| |done].
    intros i Hi. apply Hall. lia.
Qed.

(** A metadata node with one TCP interface, connected on demand. *)
Definition pool_meta : NodeConnPool :=
  set_rdmaStats [] 0
    (NodeConnPool_init (cfg_of 2) 8005 [nic_named ip_a NICADDRTYPE_STANDARD] None).
(** [again]: what the other threads do before the next activation. *)
Definition env_others (connect : nat -> ConnectEnv) (again : NodeConnPool -> NodeConnPool) : nat -> AcquireEnv := fun _ =>
  MkAcquireEnv false (env_of NODETYPE_Meta) [] false connect id false false (time_at 5000)
    FhgfsOpsErr_SUCCESS id (time_at 5001) again.
Definition env_meta (connect : nat -> ConnectEnv) : nat -> AcquireEnv := env_others connect id.

Lemma pool_meta_ok : pool_ok pool_meta [] [].
Proof.
  split; try done; [constructor..|]. split; [constructor|done|constructor|]. by exists [], [].
Qed.

(** The first activation connects socket 7, the second one socket 8; another thread takes socket 7 before the second
    activation, and nobody takes socket 8. *)
Definition two_rounds : nat -> AcquireEnv := fun i =>
  match i with
  | O => env_others (connects 7) (enter_pool NODETYPE_Meta false) O
  | _ => env_meta (connects 8) O
  end.
Definition two_bounds (i : nat) : Z := 7 + Z.of_nat i.

(** Another thread that enters the pool keeps it calm. *)
Lemma enter_calm cfg bound p : calm_pool cfg bound [] [] p -> calm_pool cfg bound [] [] (enter_pool NODETYPE_Meta false p).
Proof.
  intros Hcalm. pose proof Hcalm as (busy & slots & Hok & Hn & Hc & Hlen & Hmax & Hids). cbn [app] in *.
  unfold enter_pool, acquire_enter. rewrite Hn. change (0 <? 0) with false. cbn iota zeta.
  destruct (pool_exhausted p) eqn:Hex; [done|].
  destruct (acquire_select no_numa (env_of NODETYPE_Meta) false p) as [step p'] eqn:Hs. cbn [snd].
  pose proof (select_ok _ _ _ _ _ _ _ _ Hok Hs) as Hstep.
  destruct (select_len_ok _ _ _ _ _ _ _ _ Hok Hex Hs) as (Hc' & Hl' & _).
  destruct (select_result _ _ _ true _ _ _ _ _ Hcalm Hex Hs) as [Hres Hne].
  destruct step as [| |id|src l|]; try done.
  - unfold acquire_select in Hs. rewrite Hn in Hs. change (0 <? 0) with false in Hs. cbn iota zeta in Hs.
    repeat case_match; simplify_eq.
  - exists (id :: busy), slots. rewrite Hl', Hc'. cbn [app]. split_and!; try done.
    + unfold acquire_select in Hs. rewrite Hn in Hs. change (0 <? 0) with false in Hs. cbn iota zeta in Hs.
      repeat case_match; simplify_eq; by psimpl.
    + apply list.Forall_forall. rewrite list.Forall_forall in Hids. intros s Hin.
      destruct (select_ids _ _ _ _ _ _ Hn Hs s Hin) as (s' & Hin' & ->). by apply Hids.
  - destruct Hres as (-> & busy' & slots' & Hok' & Hn' & _ & Hlen' & _ & Hids'). exists busy', (None :: slots').
    rewrite Hc'. by split_and!.
Qed.
Lemma two_rounds_ok i : (i <= 1)%nat ->
  others_ok (cfg_of 2) (two_bounds i) (two_bounds (S i)) (two_rounds i) /\ calm_env (cfg_of 2) (two_rounds i).
Proof.
  intros Hi. split.
  - destruct i as [|i]; [|assert (i = O) as -> by lia]; (split; [constructor|done|done|done|]); [apply enter_calm|done].
  - intros c. destruct i; (split; [done|]); vm_compute; discriminate.
Qed.
Lemma acquire_returns_witness :
  returned true (NodeConnPool_acquireStreamSocketEx no_numa [] [] 3 two_rounds true true false pool_meta).
Proof.
  apply (acquire_returns no_numa [] [] (cfg_of 2) two_bounds two_rounds true true false 1 pool_meta).
  - exists [], []. split_and!; try done; apply pool_meta_ok.
  - apply two_rounds_ok.
  - intros p Hp. exact Hp.
Defined.
Example second_round_result : exists p,
  NodeConnPool_acquireStreamSocketEx no_numa [] [] 3 two_rounds true true false pool_meta = Acquired (Some 8) p.
Proof. eexists. vm_compute. reflexivity. Qed.

(** Another thread takes the connection each time, and closes it after an error: the call never
    returns. *)
Theorem taken_connection_repeats n :
  NodeConnPool_acquireStreamSocketEx no_numa [] [] n
    (env_others (connects 7) (fun p => __NodeConnPool_invalidateSpecificStreamSocket 7 (enter_pool NODETYPE_Meta false p)))
    true true false (__NodeConnPool_setConnSuccess ip_a NICADDRTYPE_STANDARD pool_meta) = Acquire_out_of_fuel.
Proof. induction n as [|n IH]; [done|]. exact IH. Qed.

(** ** Faults *)

(** Two interfaces; the RDMA connection fails, the TCP one is made while a signal (not a
    fatal one) is pending. *)
Definition fallback_connect : nat -> ConnectEnv := fun i =>
  match i with
  | O => MkConnectEnv true 6 [] false true (time_at 5000) false false
  | _ => MkConnectEnv true 7 [] true true (time_at 5000) false false
  end.
Definition pool_fallback : NodeConnPool :=
  __NodeConnPool_setConnSuccess ip_a NICADDRTYPE_STANDARD
    (set_supportsRDMA true (set_rdmaStats [] 0
       (NodeConnPool_init (cfg_of 2) 8005
          [nic_named ip_a NICADDRTYPE_RDMA; nic_named ip_a NICADDRTYPE_STANDARD] None))).

Lemma fallback_activation n :
  NodeConnPool_acquireStreamSocketEx no_numa [] [] (S n) (env_meta fallback_connect) true true false pool_fallback =
  NodeConnPool_acquireStreamSocketEx no_numa [] [] n (env_meta fallback_connect) true true false pool_fallback.
Proof. reflexivity. Qed.

(** The recursion after the handshake has no bound: with a pending signal the fallback
    connection is closed by the release that should make it available, and the next
    activation finds the pool as the first one did. *)
Theorem handshake_recursion_unbounded n :
  NodeConnPool_acquireStreamSocketEx no_numa [] [] n (env_meta fallback_connect) true true
    false pool_fallback = Acquire_out_of_fuel.
Proof.
  induction n as [|n IH]; [done|]. by rewrite fallback_activation.
Qed.

(** A fatal signal that arrives after the connection is made: the pool gives up the slot, and
    the connected socket is neither in the pool nor closed. *)
Theorem connected_socket_leaks src r fatal2 now this s :
  cr_sock r = Some s ->
  acquire_commit src r true fatal2 now this =
    (None, fail_conn src (cr_rdmaConnectInterrupted r) true now this, Some s).
Proof. intros H. unfold acquire_commit. by rewrite H, orb_true_r, andb_false_r. Qed.

(** A NIC that never failed is taken for one that just failed while the host has been up
    for less than the expiration time: the time of its last error is the start of the
    clock. *)
Theorem healthy_nic_skipped_after_boot st now expirationSecs :
  st_lastError st = Time_initZero -> 0 <= tv_sec now < expirationSecs ->
  0 <= tv_nsec now < 1000000000 -> expirationSecs * 1000 < 2 ^ 31 ->
  NicAddressStats_lastErrorExpired st now expirationSecs = false.
Proof.
  intros Hl Hs Hn He. unfold NicAddressStats_lastErrorExpired, Time_elapsedSinceMS. rewrite Hl. cbn.
  rewrite !Z.sub_0_r.
  assert (Hq : 0 <= Z.quot (tv_nsec now) 1000000 < 1000).
  { rewrite Z.quot_div_nonneg by lia. split; [apply Z.div_pos; lia|].
    apply Z.div_lt_upper_bound; lia. }
  rewrite (s32_small (Z.quot _ _)) by (unfold in_s; lia).
  rewrite (u32_small (tv_sec now * 1000)) by lia.
  rewrite !u32_small by lia. apply Z.leb_gt. lia.
Qed.

(** Errors of the send calls are not noticed: the result is stored in an unsigned type. *)
Theorem control_send_errors_unnoticed :
  option_map snd (__NodeConnPool_applySocketOptionsConnected 0 NICADDRTYPE_STANDARD 0 1 true
    (fun n => replicate (Z.to_nat n) Byte.x00) true (fun _ => -32)) = Some true.
Proof. vm_compute. reflexivity. Qed.

(** *** The limit with a preferred RDMA interface

    A storage node, a limit of one connection, one local RDMA interface.  A connection over
    TCP is made and given back.  A caller that prefers the RDMA interface does not take it
    and gets a slot beyond the limit.  From then on the number of connections differs from
    the limit, and every call that finds no available connection gets another slot. *)

Definition rdma_local : LocalNic := MkLocalNic (nic_named ip_a NICADDRTYPE_RDMA) (Some 3).
Definition tcp_nics : list NicAddress := [nic_named ip_a NICADDRTYPE_STANDARD].
Definition r0 : World := NodeConnPool_initWorld (cfg_of 1) 8003 tcp_nics (Some [rdma_local]).
Definition r1 : World :=
  MkWorld (enter_pool NODETYPE_Storage false (w_pool r0)) [] [] [None] [].
Definition r2 : World := MkWorld (connected_pool None tcp_nics 7 (w_pool r1)) [7] [] [] [].
Definition r3 : World :=
  MkWorld (NodeConnPool_releaseStreamSocket (time_at 5001) 7 (w_pool r2)) [] [] [] [].
Definition r4 : World :=
  MkWorld (enter_pool NODETYPE_Storage true (w_pool r3)) [] [] [Some 1] [].
Definition r5 : World :=
  MkWorld (enter_pool NODETYPE_Storage false (w_pool r4)) [7] [] [Some 1] [].

Lemma r5_reachable : pool_reachable no_numa [] [] r0 r5.
Proof.
  eapply pool_next; [eapply pool_next; [eapply pool_next; [eapply pool_next;
    [eapply (pool_next _ _ _ _ r0); [apply pool_start|]|]|]|]|].
  - eapply (step_acquire_slot _ _ _ r0 (env_of NODETYPE_Storage) true false None tcp_nics).
    + by intros st Hst%elem_of_nil.
    + left. vm_compute. reflexivity.
  - eapply (step_commit _ _ _ r1 None [] [] (connects 7) tcp_nics false false (time_at 5000) 7);
      [reflexivity|vm_compute; reflexivity|by intros Hst%elem_of_nil].
  - eapply (step_release _ _ _ r2 (time_at 5001) 7 [] []). reflexivity.
  - eapply (step_acquire_slot _ _ _ r3 (MkSelectEnv NODETYPE_Storage 5 (time_at 5000) (time_at 5000) 0)
              true true (Some 1) tcp_nics).
    + intros st Hst. vm_compute in Hst. apply list_elem_of_singleton in Hst as ->. done.
    + left. vm_compute. reflexivity.
  - eapply (step_acquire_sock _ _ _ r4 (MkSelectEnv NODETYPE_Storage 5 (time_at 5000) (time_at 5000) 0)
              true false 7).
    + intros st Hst. vm_compute in Hst. apply list_elem_of_singleton in Hst as ->. done.
    + left. vm_compute. reflexivity.
Qed.

Definition more_slots (n : nat) : World :=
  MkWorld (Nat.iter n (add_establishedConns 1) (w_pool r5)) [7] []
    (replicate n None ++ [Some 1]) [].

Lemma more_slots_pool n : Z.of_nat n < 2 ^ 32 - 2 ->
  let p := w_pool (more_slots n) in
  cp_establishedConns p = 2 + Z.of_nat n /\ cp_availableConns p = 0 /\ cp_rdmaNicCount p = 1 /\
  cp_cfg p = cfg_of 1 /\ cp_rdmaNicStatsList p = cp_rdmaNicStatsList (w_pool r5) /\
  cp_nicList p = tcp_nics /\ zlen (cp_connList p) = 1.
Proof.
  induction n as [|n IH]; intros Hn; [vm_compute; done|].
  destruct IH as (He & IH); [lia|].
  change (w_pool (more_slots (S n))) with (add_establishedConns 1 (w_pool (more_slots n))).
  split; [|exact IH]. cbn [add_establishedConns cp_establishedConns]. rewrite He, u32_small; lia.
Qed.

Theorem limit_lost n : Z.of_nat n < 2 ^ 32 - 2 ->
  maxConns (w_pool (more_slots n)) = 1 /\ slots_used (more_slots n) = 2 + Z.of_nat n /\
  pool_reachable no_numa [] [] r0 (more_slots n).
Proof.
  intros Hn. destruct (more_slots_pool n Hn) as (_ & _ & _ & Hc & _ & _ & Hl).
  split_and!; [unfold maxConns; by rewrite Hc| |].
  - unfold slots_used. rewrite Hl. cbn. rewrite zlen_app, zlen_replicate, zlen_cons, !zlen_nil. lia.
  - clear Hc Hl. induction n as [|n IH]; [apply r5_reachable|].
    eapply pool_next; [apply IH; lia|].
    destruct (more_slots_pool n) as (He & Ha & Hc & Hcf & Hst & Hnic & _); [lia|].
    eapply (step_acquire_slot _ _ _ (more_slots n)
              (MkSelectEnv NODETYPE_Storage 5 (time_at 5000) (time_at 5000) 0) true false None tcp_nics).
    + intros st. rewrite Hst. intros H. vm_compute in H. apply list_elem_of_singleton in H as ->. done.
    + left. unfold acquire_enter, pool_exhausted, acquire_select, maxConns.
      rewrite Hc. change (1 <? 0) with false. cbn iota zeta. rewrite Ha, He, Hcf, Hc.
      change (0 =? 0) with true. cbn [andb cfg_of pc_maxConns].
      destruct (Z.eqb_spec (2 + Z.of_nat n) 1); [lia|]. cbn [se_nodeType].
      change (0 <? 1) with true. change (false || (NODETYPE_Storage =? NODETYPE_Meta)) with false.
      cbn iota zeta. rewrite Ha. change (0 =? 0) with true. unfold reserve_conn. rewrite Hnic, Hcf. reflexivity.
Qed.

(** *** Availability counts of an interface

    A caller without preference that takes an RDMA connection leaves the interface's count of
    available connections as it is, and giving the connection back increments it. *)
Definition rdma_sock : PooledSocket :=
  PooledSocket_setAvailable true (_PooledSocket_init 7 NICADDRTYPE_RDMA ip_a [] (Some 1)).
Definition pool_rdma : NodeConnPool :=
  let st := st_add_available 1 (st_add_established 1 (NicAddressStats_init 1 rdma_local)) in
  set_stats (MkNodeConnPoolStats 0 1) (add_establishedConns 1 (add_availableConns 1
    (set_connList [rdma_sock] (set_rdmaStats [st] 1
       (NodeConnPool_init (cfg_of 2) 8003 tcp_nics (Some [rdma_local])))))).
Definition take_and_return (p : NodeConnPool) : NodeConnPool :=
  NodeConnPool_releaseStreamSocket (time_at 5001) 7 (enter_pool NODETYPE_Storage false p).

Theorem nic_available_drifts :
  pool_ok pool_rdma [] [] /\
  st_available <$> cp_rdmaNicStatsList pool_rdma = [1] /\
  st_available <$> cp_rdmaNicStatsList (take_and_return (take_and_return pool_rdma)) = [3] /\
  zlen (cp_connList (take_and_return (take_and_return pool_rdma))) = 1.
Proof.
  split_and!; [|vm_compute; reflexivity..].
  split; try (vm_compute; reflexivity).
  - vm_compute. repeat constructor. by intros ?%elem_of_nil.
  - by repeat constructor.
  - split.
    + vm_compute. repeat constructor. by intros ?%elem_of_nil.
    + intros id Hid. destruct (decide (id = 1)) as [->|Hne]; [left|].
      exfalso. revert Hid. unfold stat_refs.
      change (0 < zcount (fun s => sock_nicStats s = Some id) [rdma_sock] + 0 -> False).
      rewrite zcount_cons, decide_False, zcount_nil; [lia|]. cbn. congruence.
    + by repeat constructor.
    + exists (cp_rdmaNicStatsList pool_rdma), []. split; [by rewrite app_nil_r|].
      split; [by repeat constructor|constructor].
Qed.
