(* ===== verification/MessageFactoryFacts.v ===== *)
(** * Received messages and handlers: safety and effects

    Which received messages are safe to decode, what an accepted message says
    about the received bytes, what sending a request does to the buffer, and the
    effect of the handlers on the mappers. *)

From Stdlib Require Import Eqdep_dec.
From S2P Require Import Prelude StorageErrors Wire Serialization SerializationFacts StorageFormats StorageFormatsFacts StripePattern StripePatternFacts NetMessageTypes NetMessage NetMessageFacts BuddyGroup BuddyGroupFacts Mappers MappersFacts MessagesSession MessagesStorage MessagesNodes MessageFactory MessagesFacts.

(** ** Safety of the factory *)

(** The message objects whose payload contains a 4-byte aligned string. *)
Definition has_aligned (k : MsgKind) : bool :=
  match k with
  | K_OpenFileResp | K_LookupIntentResp | K_MkDirResp | K_MkFileResp | K_StatResp
  | K_LockGranted | K_Heartbeat | K_GetEntryInfoResp => true
  | _ => false
  end.

Section Safety.
Context (kmalloc_ok : Z -> bool) (fresh : forall k, kind_type k).

Lemma kind_safe k (this : NetMessage (kind_type k)) :
  has_aligned k = false ->
  triple str_fault (deserializePayload (NetMessageOps := kind_ops kmalloc_ok k) this) (fun _ => True).
Proof.
  destruct k; try discriminate; intros _.
  - apply triple_SimpleMsg.
  - apply triple_SimpleIntMsg.
  - apply triple_SimpleInt64Msg.
  - apply triple_SimpleStringMsg.
  - apply triple_SimpleIntStringMsg.
  - apply triple_GetNodesRespMsg.
  - apply triple_GetStatesAndBuddyGroupsRespMsg.
  - apply triple_GetTargetMappingsRespMsg.
  - apply triple_MapTargetsMsgEx.
  - apply triple_RefreshTargetStatesMsgEx.
  - apply triple_RegisterNodeRespMsg.
  - apply triple_RemoveNodeMsgEx.
  - apply triple_SetMirrorBuddyGroupMsgEx.
  - apply triple_HandshakeRespMsg.
  - apply triple_ListDirFromOffsetRespMsg.
  - apply triple_StatStoragePathRespMsg.
  - apply triple_ListXAttrRespMsg.
  - by eapply triple_mono; [apply triple_ReadInvalidationsRespMsg|..].
  - apply triple_GetXAttrRespMsg.
  - apply triple_GetFileVersionRespMsg.
Qed.

Lemma receive_kind_safe h k :
  has_aligned k = false -> triple str_fault (receive_kind kmalloc_ok fresh h k) (fun _ => True).
Proof.
  intros Hk c Hok. unfold receive_kind, __NetMessageFactory_deserializeRaw, mbind, Des_bind,
    des_check, mret, Des_ret.
  destruct (NetMessage_checkHeaderFeatureFlagsCompat h); [|done].
  pose proof (kind_safe k (MkNetMessage h (msgBody (NetMessage_init 0 (msgType h)
    (kind_init fresh k)))) Hk c Hok) as Hs.
  destruct (deserializePayload _ c); [|done..]. by destruct Hs.
Qed.

(** What [createFromBuf] does, by the message type in the header. *)
Lemma createFromBuf_cases g buf n :
  0 <= n <= zlen buf -> n < 2 ^ 64 ->
  let c := MkDeserializeCtx buf 0 n in
  (exists c', NetMessageFactory_createFromBuf kmalloc_ok fresh g buf n = Done None c') \/
  exists k, header_valid c /\
    NetMessageFactory_createFromMsgType (field c 16 2) = Some k /\
    NetMessageFactory_createFromBuf kmalloc_ok fresh g buf n =
      receive_kind kmalloc_ok fresh (header_of c) k (d_advance NETMSG_HEADER_LENGTH c).
Proof.
  intros Hn Hn64 c. assert (Hok : d_ok c) by by apply d_ok_start.
  unfold NetMessageFactory_createFromBuf, receive_any, mbind, Des_bind. fold c.
  destruct (deserializeHeader_cases g c Hok) as [[Hv ->]|(_ & h & c' & -> & _ & Hinv)].
  - change (msgType (header_of c)) with (field c 16 2).
    destruct (NetMessageFactory_createFromMsgType (field c 16 2)) as [k|] eqn:E.
    + right. by exists k.
    + left. by eexists.
  - left. rewrite Hinv. by eexists.
Qed.
End Safety.

(** C11: decoding any received buffer with the message factory never
    reads outside of it for message types without 4-byte aligned strings, except through
    a string whose length field is so large that the check wraps around (which needs an
    object of 4 GiB to be harmless). *)
Theorem createFromBuf_safe kmalloc_ok fresh g buf n :
  0 <= n <= zlen buf -> n < 2 ^ 32 ->
  match NetMessageFactory_createFromBuf kmalloc_ok fresh g buf n with
  | Done _ _ => True
  | Refused => False
  | BadRead addr => str_fault addr \/
      exists k, NetMessageFactory_createFromMsgType (field (MkDeserializeCtx buf 0 n) 16 2) = Some k /\
        has_aligned k = true
  end.
Proof.
  intros Hn H32.
  destruct (createFromBuf_cases kmalloc_ok fresh g buf n Hn ltac:(lia))
    as [[c' ->]|(k & Hv & Hk & ->)]; [done|].
  destruct (has_aligned k) eqn:Ek.
  - unfold receive_kind. destruct (__NetMessageFactory_deserializeRaw _ _ _); [done..|]. right. eauto.
  - pose proof (receive_kind_safe kmalloc_ok fresh (header_of (MkDeserializeCtx buf 0 n)) k Ek
      (d_advance NETMSG_HEADER_LENGTH (MkDeserializeCtx buf 0 n))) as Hs.
    specialize (Hs ltac:(apply d_advance_ok; [by apply d_ok_start; [|lia]|]; cbn;
      destruct Hv as [Hv _]; cbn in Hv; unfold NETMSG_HEADER_LENGTH in *; lia)).
    unfold receive_kind in *. destruct (__NetMessageFactory_deserializeRaw _ _ _); [done..|]. by left.
Qed.

(** A message that the factory accepts came in a buffer of
    exactly the length its header says, with the protocol prefix and only known header
    flags; its object carries the header fields of the buffer, is of the class that the
    switch names for the type, and that class supports all its feature flags. *)
Theorem createFromBuf_accepts kmalloc_ok fresh g buf n k msg c' :
  0 <= n <= zlen buf -> n < 2 ^ 64 ->
  NetMessageFactory_createFromBuf kmalloc_ok fresh g buf n = Done (Some (existT k msg)) c' ->
  let c := MkDeserializeCtx buf 0 n in
  header_valid c /\ msgHeader msg = header_of c /\
  NetMessageFactory_createFromMsgType (msgType (header_of c)) = Some k /\
  Z.land (msgFeatureFlags (header_of c))
    (u32 (Z.lnot (getSupportedHeaderFeatureFlagsMask (NetMessageOps := kind_ops kmalloc_ok k)))) = 0.
Proof.
  intros Hn H64 Hc c.
  destruct (createFromBuf_cases kmalloc_ok fresh g buf n Hn H64)
    as [[c1 E]|(k' & Hv & Hk & E)]; [by rewrite E in Hc|]. fold c in E, Hk, Hv.
  rewrite E in Hc. unfold receive_kind, __NetMessageFactory_deserializeRaw, mbind, Des_bind,
    des_check, mret, Des_ret in Hc.
  destruct (NetMessage_checkHeaderFeatureFlagsCompat (header_of c)) eqn:Ec; [|done].
  destruct (deserializePayload _ _) as [body c2| |]; [|done..].
  assert (k' = k) as -> by congruence.
  apply (f_equal (fun r => match r with Done (Some x) _ => Some x | _ => None end)) in Hc.
  injection Hc as Hc. apply (inj_pair2_eq_dec _ MsgKind_eq_dec) in Hc. subst msg.
  split; [done|]. split; [done|]. split; [done|]. by apply Z.eqb_eq in Ec.
Qed.

(** ** Concrete inputs *)

(** Fresh objects of every class, and a [RenameResp] message with result 0. *)
Definition fresh0 (k : MsgKind) : kind_type k.
Proof. destruct k; repeat (exact 0 || exact false || exact None || exact [] || constructor). Defined.
Definition header0 : NetMessageHeader := MkNetMessageHeader 0 0 0 0 0 0 0 0 0.
Definition rename_resp : list byte :=
  enc_header 44 (MkNetMessageHeader 44 0 0 0 NETMSGTYPE_RenameResp 0 0 0 0) ++ le_split 4 0.

Lemma createFromBuf_safe_witness :
  match NetMessageFactory_createFromBuf (fun _ => true) fresh0 header0 rename_resp 44 with
  | Done _ _ => True
  | Refused => False
  | BadRead addr => str_fault addr \/
      exists k, NetMessageFactory_createFromMsgType (field (MkDeserializeCtx rename_resp 0 44) 16 2) = Some k /\
        has_aligned k = true
  end.
Proof.
  apply (createFromBuf_safe (fun _ => true) fresh0 header0 rename_resp 44).
  - by vm_compute.
  - done.
Defined.

Lemma createFromBuf_accepts_witness :
  let c := MkDeserializeCtx rename_resp 0 44 in
  header_valid c /\ header_of c = header_of c /\
  NetMessageFactory_createFromMsgType (msgType (header_of c)) = Some K_SimpleInt /\
  Z.land (msgFeatureFlags (header_of c)) (u32 (Z.lnot (getSupportedHeaderFeatureFlagsMask
    (NetMessageOps := kind_ops (fun _ => true) K_SimpleInt)))) = 0.
Proof.
  apply (createFromBuf_accepts (fun _ => true) fresh0 header0 rename_resp 44 K_SimpleInt
    (MkNetMessage (header_of (MkDeserializeCtx rename_resp 0 44)) (MkSimpleIntMsg 0))
    (MkDeserializeCtx rename_resp 44 0)).
  - by vm_compute.
  - done.
  - vm_compute. reflexivity.
Defined.

(** ** Sending *)

(** A request of any type that fulfils the sender interface is
    serialised completely: if the buffer holds the header and the payload, the call
    returns true, the buffer starts with the header (whose length field is the number of
    bytes written) and the payload, and the rest of the buffer is unchanged; otherwise
    it returns false and leaves the buffer alone. *)
Theorem send_complete {M} `{MsgSend M} (this : NetMessage M) :
  send_ok (msgFeatureFlags (msgHeader this)) (msgBody this) -> msgLength (msgHeader this) = 0 ->
  exists payload, forall buf,
    let total := NETMSG_HEADER_LENGTH + zlen payload in
    total < 2 ^ 32 ->
    NetMessage_serialize this (Some buf) (zlen buf) =
    Some (if zlen buf <? total then (false, sent this payload, Some buf)
          else (true, sent this payload,
                Some (enc_header total (msgHeader this) ++ payload ++ drop (Z.to_nat total) buf))) /\
    msgLength (msgHeader (sent this payload)) = total.
Proof.
  intros Hok Hlen. destruct (send_spec this Hok) as [payload Hp]. exists payload.
  intros buf total Hfit. rewrite (serialize_spec this payload buf Hp Hfit (or_introl Hlen)).
  split; [|done]. fold total. unfold splice. rewrite take_0, length_message.
  cbn [app Nat.add]. by rewrite <- app_assoc.
Qed.

(** ** Responses of the handlers *)

Lemma send_response_spec {M} `{NetMessageOps M} (this : NetMessage M) bs respBuf :
  (forall n, writes (serializePayload (with_header (fun h => set_msgLength h n) this)) bs) ->
  msgLength (msgHeader this) = 0 ->
  let total := NETMSG_HEADER_LENGTH + zlen bs in total < 2 ^ 32 ->
  send_response this respBuf =
    Some (if zlen respBuf <? total then [] else [enc_header total (msgHeader this) ++ bs]).
Proof.
  intros Hp Hlen total Hfit. unfold send_response.
  rewrite (getMsgLength_spec this bs Hp Hfit (or_introl Hlen)). cbn [mbind option_bind].
  rewrite (serialize_spec (sent this bs) bs respBuf Hp Hfit (or_intror eq_refl)).
  fold total. cbn [mbind option_bind]. destruct (zlen respBuf <? total); [done|]. cbn beta iota.
  change (enc_header total (msgHeader (sent this bs))) with (enc_header total (msgHeader this)).
  cbn [default]. replace (Z.to_nat total) with (length (enc_header total (msgHeader this) ++ bs))
    by apply length_message.
  unfold id. by rewrite take_splice_0.
Qed.

(** The ack that answers [ackID]. *)
Definition ack_packet (uid : Z) (ackID : list byte) : list byte :=
  enc_header (NETMSG_HEADER_LENGTH + zlen (enc_str (cstr ackID)))
    (msgHeader (AckMsgEx_initFromValue uid ackID)) ++ enc_str (cstr ackID).

Lemma respondToAckRequest_spec uid ackID respBuf :
  NETMSG_HEADER_LENGTH + zlen (enc_str (cstr ackID)) < 2 ^ 32 ->
  MsgHelperAck_respondToAckRequest uid ackID respBuf =
    Some (if strlen ackID =? 0 then (false, [])
          else (true, if zlen respBuf <? zlen (ack_packet uid ackID) then [] else [ack_packet uid ackID])).
Proof.
  intros Hfit. unfold MsgHelperAck_respondToAckRequest.
  destruct (strlen ackID =? 0); [done|].
  pose proof (zlen_nonneg (cstr ackID)) as Hn. unfold enc_str in Hfit. autorewrite with zlen in Hfit.
  unfold NETMSG_HEADER_LENGTH in Hfit.
  rewrite (send_response_spec (AckMsgEx_initFromValue uid ackID) (enc_str (cstr ackID))).
  - cbn [mbind option_bind]. unfold ack_packet at 1. rewrite zlen_app, zlen_enc_header.
    by destruct (_ <? _).
  - intros n. cbn [serializePayload SimpleStringMsg_Ops both_ops].
    unfold SimpleStringMsg_serializePayload. cbn. unfold strlen. rewrite u32_small by lia.
    apply writes_cstr.
  - done.
  - unfold enc_str, NETMSG_HEADER_LENGTH. autorewrite with zlen. lia.
Qed.

Lemma mapTargets_lookup nodeID l (tm0 : TargetMapper) t :
  foldl (fun t mapping => (TargetMapper_mapTarget t (tpm_targetID mapping) nodeID).1) tm0 l !! t =
  if decide (t ∈ tpm_targetID <$> l) then Some nodeID else tm0 !! t.
Proof.
  assert (Hfold : forall tm0, foldl (fun t mapping =>
      (TargetMapper_mapTarget t (tpm_targetID mapping) nodeID).1) tm0 l =
    foldl (fun t x => <[tpm_targetID x := nodeID]> t) tm0 l).
  { induction l as [|x l IH]; intros tm1; cbn [foldl]; [done|].
    unfold TargetMapper_mapTarget at 2. by rewrite rb_insertOrReplace_map, IH. }
  rewrite Hfold, (foldl_insert_fill tpm_targetID (fun _ => nodeID)).
  destruct (decide _) as [Hin|Hnin].
  - apply lookup_union_Some_l. by apply fill_const_lookup.
  - rewrite lookup_union_r; [done|]. apply eq_None_not_Some. intros [y Hy].
    apply fill_lookup_inv in Hy as (x & Hx & <- & _). apply Hnin. by apply list_elem_of_fmap_2.
Qed.

(** The handler of a target mapping notification maps exactly the
    listed targets to the sending node, keeps all other mappings, and answers with one
    ack for the message's ack ID (none if the ID is empty or does not fit the buffer). *)
Theorem mapTargets_effect uid this respBuf app :
  NETMSG_HEADER_LENGTH + zlen (enc_str (cstr (mt_ackID this))) < 2 ^ 32 ->
  exists app', __MapTargetsMsgEx_processIncoming uid this respBuf app = Some (true, app') /\
    (forall t, app_targetMapper app' !! t =
       if decide (t ∈ tpm_targetID <$> mt_poolMappings this) then Some (mt_nodeID this)
       else app_targetMapper app !! t) /\
    app_sent app' = app_sent app ++
      (if (strlen (mt_ackID this) =? 0) || (zlen respBuf <? zlen (ack_packet uid (mt_ackID this)))
       then [] else [ack_packet uid (mt_ackID this)]).
Proof.
  intros Hfit. unfold __MapTargetsMsgEx_processIncoming, app_respond.
  rewrite respondToAckRequest_spec by done.
  pose proof (mapTargets_lookup (mt_nodeID this) (mt_poolMappings this) (app_targetMapper app)) as Htm.
  destruct (strlen (mt_ackID this) =? 0); cbn [mbind option_bind orb]; eexists;
    (split; [reflexivity|]); cbn [app_targetMapper app_sent]; done.
Qed.

(** The handler of a buddy group notification changes
    only the mapper of the message's node type (and nothing, returning false, for other
    node types), and it keeps every mapper well-formed with no target in two groups. *)
Theorem setMirrorBuddyGroup_disjoint allocOk garbage cap uid this respBuf app :
  mapper_ok (app_storageBuddyGroups app) -> targets_disjoint (app_storageBuddyGroups app) ->
  mapper_ok (app_metaBuddyGroups app) -> targets_disjoint (app_metaBuddyGroups app) ->
  NETMSG_HEADER_LENGTH + zlen (enc_str (cstr (smb_ackID this))) < 2 ^ 32 ->
  exists handled app',
    __SetMirrorBuddyGroupMsgEx_processIncoming allocOk garbage cap uid this respBuf app =
      Some (handled, app') /\
    (handled = true <-> smb_nodeType this = NODETYPE_Storage \/ smb_nodeType this = NODETYPE_Meta) /\
    (smb_nodeType this <> NODETYPE_Storage -> app_storageBuddyGroups app' = app_storageBuddyGroups app) /\
    (smb_nodeType this <> NODETYPE_Meta -> app_metaBuddyGroups app' = app_metaBuddyGroups app) /\
    app_targetMapper app' = app_targetMapper app /\
    mapper_ok (app_storageBuddyGroups app') /\ targets_disjoint (app_storageBuddyGroups app') /\
    mapper_ok (app_metaBuddyGroups app') /\ targets_disjoint (app_metaBuddyGroups app').
Proof.
  intros Hs Hsd Hm Hmd Hfit.
  unfold __SetMirrorBuddyGroupMsgEx_processIncoming, app_respond. cbv zeta.
  rewrite respondToAckRequest_spec by done.
  assert (Hadd : forall m tm, mapper_ok m -> targets_disjoint m ->
    let m' := (MirrorBuddyGroupMapper_addGroup allocOk garbage cap m tm (smb_buddyGroupID this)
      (smb_primaryTargetID this) (smb_secondaryTargetID this) (smb_allowUpdate this)).1 in
    mapper_ok m' /\ targets_disjoint m') by (intros; by apply addGroup_disjoint).
  destruct (Z.eqb_spec (smb_nodeType this) NODETYPE_Storage) as [E|E].
  - destruct (Hadd _ (Some (app_targetMapper app)) Hs Hsd).
    destruct (strlen _ =? 0); cbn [mbind option_bind]; do 2 eexists; (split; [reflexivity|]);
      cbn; (split; [split; [intros _; by left|done]|]); (split; [intros ?; done|]); done.
  - destruct (Z.eqb_spec (smb_nodeType this) NODETYPE_Meta) as [E'|E'].
    + destruct (Hadd _ None Hm Hmd).
      destruct (strlen _ =? 0); cbn [mbind option_bind]; do 2 eexists; (split; [reflexivity|]);
        cbn; (split; [split; [intros _; by right|done]|]); (split; [done|]);
        (split; [intros ?; done|]); done.
    + do 2 eexists. split; [reflexivity|]. split; [|done]. split; [done|]. by intros [?|?].
Qed.

(** ** From the management's lists to the client's stores *)

Lemma reads_states_groups uid groups states :
  Forall buddyGroupMapping_ok groups -> Forall targetStateMapping_ok states ->
  zlen groups < 2 ^ 32 -> zlen states < 2 ^ 32 ->
  forall c, d_ok c ->
  d_next c (enc_seq enc_buddyGroupMapping groups ++ enc_seq enc_targetStateMapping states) ->
  exists c', GetStatesAndBuddyGroupsRespMsg_deserializePayload
    (GetStatesAndBuddyGroupsRespMsg_init uid) c =
      Done (MkGetStatesAndBuddyGroupsRespMsg groups states) c'.
Proof.
  intros Hg Hs Hgl Hsl c Hc Hn.
  enough (Hr : reads 0 (GetStatesAndBuddyGroupsRespMsg_deserializePayload
    (GetStatesAndBuddyGroupsRespMsg_init uid))
    (enc_seq enc_buddyGroupMapping groups ++ enc_seq enc_targetStateMapping states)
    (fun m => m = MkGetStatesAndBuddyGroupsRespMsg groups states)).
  { destruct (Hr c Hc Hn) as (m & Hm & ->); [destruct Hn; lia|]. by eexists. }
  eapply reads_bind.
  - apply (reads_serdes_list _ enc_buddyGroupMapping buddyGroupMapping_ok reads_buddyGroupMapping
      groups [] Hg Hgl).
  - intros ? ->. eapply reads_last.
    + apply (reads_serdes_list _ enc_targetStateMapping targetStateMapping_ok reads_targetStateMapping
        states [] Hs Hsl).
    + intros ? ->. by apply reads_ret.
  - pose proof (zlen_nonneg (enc_seq enc_targetStateMapping states)). lia.
Qed.

(** The lists of target states and buddy groups that a server
    encodes arrive in the client's stores: after the response is decoded and applied
    with [TargetStateStore_syncStatesAndGroupsFromLists], the state of every listed
    target and the targets of every listed group are the sent ones, nothing else is in
    the stores, and a group that existed before keeps its sequence number. *)
Theorem states_groups_received garbage cap states0 groups0 uid groups states c :
  Forall buddyGroupMapping_ok groups -> Forall targetStateMapping_ok states ->
  NoDup (bgm_groupID <$> groups) -> NoDup (tsm_targetID <$> states) ->
  zlen groups < 2 ^ 32 -> zlen states < 2 ^ 32 -> cap <> 0 -> mapper_ok groups0 ->
  d_ok c ->
  d_next c (enc_seq enc_buddyGroupMapping groups ++ enc_seq enc_targetStateMapping states) ->
  exists msg c', GetStatesAndBuddyGroupsRespMsg_deserializePayload
      (GetStatesAndBuddyGroupsRespMsg_init uid) c = Done msg c' /\
    exists store mapper, TargetStateStore_syncStatesAndGroupsFromLists true garbage cap states0
        groups0 (gsr_states msg) (gsr_groups msg) = Some (store, mapper) /\
      (forall s, s ∈ states -> TargetStateStore_getState store (tsm_targetID s) =
         (MkCombinedTargetState (tsm_reachabilityState s) (tsm_consistencyState s), true)) /\
      (forall t, t ∉ tsm_targetID <$> states -> (TargetStateStore_getState store t).2 = false) /\
      (forall x, x ∈ groups ->
         MirrorBuddyGroupMapper_getPrimaryTargetID mapper (bgm_groupID x) = bgm_primaryTargetID x /\
         MirrorBuddyGroupMapper_getSecondaryTargetID mapper (bgm_groupID x) = bgm_secondaryTargetID x) /\
      (forall x g0, x ∈ groups -> groups0 !! bgm_groupID x = Some g0 ->
         exists g, mapper !! bgm_groupID x = Some g /\ bg_sequence g = bg_sequence g0).
Proof.
  intros Hg Hs Hgd Hsd Hgl Hsl Hcap Hok Hc Hn.
  destruct (reads_states_groups uid groups states Hg Hs Hgl Hsl c Hc Hn) as (c' & Hr).
  exists (MkGetStatesAndBuddyGroupsRespMsg groups states), c'. split; [exact Hr|]. cbn [gsr_states gsr_groups].
  unfold TargetStateStore_syncStatesAndGroupsFromLists. rewrite syncStates_fill.
  destruct (syncGroups_spec garbage cap groups0 groups Hcap Hok Hgd) as [gone ->].
  cbn [mbind option_bind]. do 2 eexists. split; [reflexivity|].
  unfold TargetStateStore_getState, MirrorBuddyGroupMapper_getPrimaryTargetID,
    MirrorBuddyGroupMapper_getSecondaryTargetID.
  split_and!.
  - intros s Hin. by rewrite (fill_lookup tsm_targetID _ _ _ Hsd Hin).
  - intros t Ht. destruct (fill _ _ _ !! t) as [y|] eqn:E; [|done].
    apply fill_lookup_inv in E as (x & Hx & <- & _). destruct Ht. by apply list_elem_of_fmap_2.
  - intros x Hx. rewrite (fill_lookup bgm_groupID _ _ _ Hgd Hx). unfold synced_group.
    by destruct (groups0 !! bgm_groupID x).
  - intros x g0 Hx Hg0. rewrite (fill_lookup bgm_groupID _ _ _ Hgd Hx). unfold synced_group.
    rewrite Hg0. by eexists.
Qed.

(** ** Further concrete inputs *)

Definition int_msg : NetMessage SimpleIntMsg := SimpleIntMsg_initFromValue 1000 NETMSGTYPE_RenameResp (-7).

Lemma message_roundtrip_witness :
  let buf := replicate 64 Byte.x00 in
  let total := NETMSG_HEADER_LENGTH + zlen (codec_enc (msgBody int_msg)) in
  exists buf' c,
    NetMessage_serialize int_msg (Some buf) (zlen buf) =
      Some (true, sent int_msg (codec_enc (msgBody int_msg)), Some buf') /\
    zlen buf' = zlen buf /\ drop (Z.to_nat total) buf' = drop (Z.to_nat total) buf /\
    NetMessageFactory_deserializeFromBuf header0 buf' total
      (SimpleIntMsg_initFromValue 0 NETMSGTYPE_RenameResp 0) (msgType (msgHeader int_msg)) =
      Done (sent int_msg (codec_enc (msgBody int_msg))) c /\
    msgLength (msgHeader (sent int_msg (codec_enc (msgBody int_msg)))) = total.
Proof.
  intros buf total. apply (message_roundtrip header0 int_msg (SimpleIntMsg_initFromValue 0 NETMSGTYPE_RenameResp 0) buf).
  - cbn. unfold in_s. lia.
  - unfold header_ok, in_u. cbn [int_msg SimpleIntMsg_initFromValue NetMessage_init msgHeader msgFeatureFlags
      msgCompatFeatureFlags msgFlags msgType msgTargetID msgUserID msgSequence msgSequenceDone].
    unfold NETMSGTYPE_RenameResp. lia.
  - reflexivity.
  - reflexivity.
  - by vm_compute.
  - reflexivity.
Defined.

Lemma send_complete_witness :
  exists payload, forall buf,
    let total := NETMSG_HEADER_LENGTH + zlen payload in
    total < 2 ^ 32 ->
    NetMessage_serialize int_msg (Some buf) (zlen buf) =
    Some (if zlen buf <? total then (false, sent int_msg payload, Some buf)
          else (true, sent int_msg payload,
                Some (enc_header total (msgHeader int_msg) ++ payload ++ drop (Z.to_nat total) buf))) /\
    msgLength (msgHeader (sent int_msg payload)) = total.
Proof. apply (send_complete int_msg); [cbn; unfold in_s; lia|reflexivity]. Defined.

Definition app0 : AppState := MkAppState ∅ ∅ ∅ false [].

Lemma mapTargets_effect_witness :
  let this := MkMapTargetsMsgEx 5 3 [Byte.x61; Byte.x63; Byte.x6b] [MkTargetPoolMapping 101 1] in
  exists app', __MapTargetsMsgEx_processIncoming 0 this (replicate 100 Byte.x00) app0 = Some (true, app') /\
    (forall t, app_targetMapper app' !! t =
       if decide (t ∈ tpm_targetID <$> mt_poolMappings this) then Some (mt_nodeID this)
       else app_targetMapper app0 !! t) /\
    app_sent app' = app_sent app0 ++
      (if (strlen (mt_ackID this) =? 0) || (zlen (replicate 100 Byte.x00) <? zlen (ack_packet 0 (mt_ackID this)))
       then [] else [ack_packet 0 (mt_ackID this)]).
Proof. intros this. apply (mapTargets_effect 0 this (replicate 100 Byte.x00) app0). reflexivity. Defined.

Lemma setMirrorBuddyGroup_disjoint_witness :
  let this := MkSetMirrorBuddyGroupMsgEx NODETYPE_Meta 1 2 1 false 0 [] in
  exists handled app',
    __SetMirrorBuddyGroupMsgEx_processIncoming true (fun _ => 0) 4 0 this [] app0 = Some (handled, app') /\
    (handled = true <-> smb_nodeType this = NODETYPE_Storage \/ smb_nodeType this = NODETYPE_Meta) /\
    (smb_nodeType this <> NODETYPE_Storage -> app_storageBuddyGroups app' = app_storageBuddyGroups app0) /\
    (smb_nodeType this <> NODETYPE_Meta -> app_metaBuddyGroups app' = app_metaBuddyGroups app0) /\
    app_targetMapper app' = app_targetMapper app0 /\
    mapper_ok (app_storageBuddyGroups app') /\ targets_disjoint (app_storageBuddyGroups app') /\
    mapper_ok (app_metaBuddyGroups app') /\ targets_disjoint (app_metaBuddyGroups app').
Proof.
  intros this. apply (setMirrorBuddyGroup_disjoint true (fun _ => 0) 4 0 this [] app0);
    [by intros k g|by intros k1 k2 g1 g2 t|by intros k g|by intros k1 k2 g1 g2 t|reflexivity].
Defined.

Lemma states_groups_received_witness :
  let groups := [MkBuddyGroupMapping 1 11 12] in let states := [MkTargetStateMapping 11 0 0] in
  let m := enc_seq enc_buddyGroupMapping groups ++ enc_seq enc_targetStateMapping states in
  exists msg c', GetStatesAndBuddyGroupsRespMsg_deserializePayload
      (GetStatesAndBuddyGroupsRespMsg_init 0) (d_start m) = Done msg c' /\
    exists store mapper, TargetStateStore_syncStatesAndGroupsFromLists true (fun _ => 0) 4 ∅
        ∅ (gsr_states msg) (gsr_groups msg) = Some (store, mapper) /\
      (forall s, s ∈ states -> TargetStateStore_getState store (tsm_targetID s) =
         (MkCombinedTargetState (tsm_reachabilityState s) (tsm_consistencyState s), true)) /\
      (forall t, t ∉ tsm_targetID <$> states -> (TargetStateStore_getState store t).2 = false) /\
      (forall x, x ∈ groups ->
         MirrorBuddyGroupMapper_getPrimaryTargetID mapper (bgm_groupID x) = bgm_primaryTargetID x /\
         MirrorBuddyGroupMapper_getSecondaryTargetID mapper (bgm_groupID x) = bgm_secondaryTargetID x) /\
      (forall x g0, x ∈ groups -> (∅ : MirrorBuddyGroupMapper) !! bgm_groupID x = Some g0 ->
         exists g, mapper !! bgm_groupID x = Some g /\ bg_sequence g = bg_sequence g0).
Proof.
  intros groups states m.
  apply (states_groups_received (fun _ => 0) 4 ∅ ∅ 0 groups states (d_start m)).
  - repeat constructor; cbn; lia.
  - repeat constructor; cbn; lia.
  - by apply (bool_decide_unpack _).
  - by apply (bool_decide_unpack _).
  - reflexivity.
  - reflexivity.
  - lia.
  - by intros k g.
  - apply d_start_ok. reflexivity.
  - apply (d_start_next m m []). by rewrite app_nil_r.
Defined.
