(* ===== verification/MessagingTk.v ===== *)
(** * Requests and responses

    Models [common/toolkit/MessagingTk.c] and [.h] and [MessagingTkArgs.h] of
    [client_module/source]: one exchange of a request and a response over a pooled
    connection, and the two retry loops around it (to a given node; to a target or a mirror
    group, with target states and sequence numbers).

    What the outside world does in a round is a record (connections, memory, socket results,
    signals, the maps and states at that time).  What the code does to shared objects
    (connections, buffers, node references, sequence numbers, sleeping) is recorded as a
    list of events in the order of the calls.  [None] is an access outside of a received
    message.  The flags in [rr_logFlags] are kept, since one of them has an influence on the
    result; the log output itself is left out. *)

From S2P Require Import Prelude StorageErrors Wire Serialization NetMessageTypes NetMessage BuddyGroup Mappers CommKit MessagesSession MessageFactory CommKitOps.

Definition MSGTK_KMALLOC_RECV_BUF_LEN : Z := 4 * 1024.
Definition MSGTK_STATE_SLEEP_MS : Z := 5000.
Definition MSGTK_INFINITE_RETRY_WAIT_MS : Z := 5000.
Definition EMSGSIZE : Z := 90.

Definition REQUESTRESPONSEARGS_FLAG_ALLOWSTATESLEEP : Z := 2.
Definition REQUESTRESPONSEARGS_LOGFLAG_PEERTRYAGAIN : Z := 1.
Definition REQUESTRESPONSEARGS_LOGFLAG_PEERINDIRECTCOMMM : Z := 2.
Definition REQUESTRESPONSEARGS_LOGFLAG_CONNESTABLISHFAILED : Z := 8.
Definition REQUESTRESPONSEARGS_LOGFLAG_COMMERR : Z := 16.

(** ** Arguments *)

Inductive MessagingTkBufType := MessagingTkBufType_BufStore | MessagingTkBufType_kmalloc.

Record RequestResponseArgs (M : Type) := MkRequestResponseArgs {
  rr_node : option Z;
  rr_requestMsg : NetMessage M;
  rr_respMsgType : Z;
  rr_numRetries : Z;
  rr_rrFlags : Z;
  rr_respBufType : MessagingTkBufType;
  rr_outRespBuf : option (list byte);
  rr_outRespMsg : option SomeMsg;
  rr_logFlags : Z;
  rr_recvTimeoutMS : Z
}.
Arguments MkRequestResponseArgs {M}.
Arguments rr_node {M}.
Arguments rr_requestMsg {M}.
Arguments rr_respMsgType {M}.
Arguments rr_numRetries {M}.
Arguments rr_rrFlags {M}.
Arguments rr_respBufType {M}.
Arguments rr_outRespBuf {M}.
Arguments rr_outRespMsg {M}.
Arguments rr_logFlags {M}.
Arguments rr_recvTimeoutMS {M}.

(** The receiver of a [RequestResponseNode]: a target or a mirror group. *)
Inductive RRPeer := RRPeer_target (target : Z) | RRPeer_group (group : Z).

Section Setters.
Context {M : Type}.
Implicit Type a : RequestResponseArgs M.

Definition RequestResponseArgs_prepare (node : option Z) (requestMsg : NetMessage M)
    (respMsgType : Z) : RequestResponseArgs M :=
  MkRequestResponseArgs node requestMsg respMsgType 1 0 MessagingTkBufType_BufStore None None 0 0.

Definition rr_set_node (n : option Z) a : RequestResponseArgs M :=
  MkRequestResponseArgs n (rr_requestMsg a) (rr_respMsgType a) (rr_numRetries a) (rr_rrFlags a)
    (rr_respBufType a) (rr_outRespBuf a) (rr_outRespMsg a) (rr_logFlags a) (rr_recvTimeoutMS a).
Definition rr_set_msg (m : NetMessage M) a : RequestResponseArgs M :=
  MkRequestResponseArgs (rr_node a) m (rr_respMsgType a) (rr_numRetries a) (rr_rrFlags a)
    (rr_respBufType a) (rr_outRespBuf a) (rr_outRespMsg a) (rr_logFlags a) (rr_recvTimeoutMS a).
Definition rr_set_mode (retries flags : Z) (buf : MessagingTkBufType) a : RequestResponseArgs M :=
  MkRequestResponseArgs (rr_node a) (rr_requestMsg a) (rr_respMsgType a) retries flags buf
    (rr_outRespBuf a) (rr_outRespMsg a) (rr_logFlags a) (rr_recvTimeoutMS a).
Definition rr_set_out (b : option (list byte)) (m : option SomeMsg) a : RequestResponseArgs M :=
  MkRequestResponseArgs (rr_node a) (rr_requestMsg a) (rr_respMsgType a) (rr_numRetries a)
    (rr_rrFlags a) (rr_respBufType a) b m (rr_logFlags a) (rr_recvTimeoutMS a).
Definition rr_add_logFlag (f : Z) a : RequestResponseArgs M :=
  MkRequestResponseArgs (rr_node a) (rr_requestMsg a) (rr_respMsgType a) (rr_numRetries a)
    (rr_rrFlags a) (rr_respBufType a) (rr_outRespBuf a) (rr_outRespMsg a)
    (Z.lor (rr_logFlags a) f) (rr_recvTimeoutMS a).
End Setters.

(** ** Events *)

Inductive MsgEvent :=
| Ev_acquireSock (sock : Z)
| Ev_releaseSock (sock : Z)
| Ev_invalidateSock (sock : Z)
| Ev_getBuf
| Ev_putBuf
| Ev_send (sequence sequenceDone flags : Z)
| Ev_setSeqNoBase (base : Z)
| Ev_acquireSeq (handle : nat) (sequence : Z)
| Ev_releaseSeq (handle : nat)
| Ev_refNode (node : Z)
| Ev_putNode (node : Z)
| Ev_sleep (ms : Z).

(** ** Receiving *)

(** [recv1] and [recv2]: the results of the receive calls for the header and for the rest.
    The length of the message or an error, and the buffer (not read again after an
    error). *)
Definition MessagingTk_recvMsgBuf (recv1 recv2 : list RecvResult) (bufIn : list byte)
    (bufInLen : Z) : Z * list byte :=
  match Socket_recvExactT recv1 NETMSG_MIN_LENGTH [] with
  | inr recvRes => (recvRes, bufIn)
  | inl header =>
      let bufIn := splice 0 header bufIn in
      let msgLength := le_combine (take 4 bufIn) in
      if msgLength <=? NETMSG_MIN_LENGTH then (msgLength, bufIn)
      else if bufInLen <? msgLength then (- EMSGSIZE, bufIn)
      else
        match Socket_recvExactT recv2 (msgLength - NETMSG_MIN_LENGTH) [] with
        | inr recvRes => (recvRes, bufIn)
        | inl payload => (msgLength, splice (Z.to_nat NETMSG_MIN_LENGTH) payload bufIn)
        end
  end.

Definition MessagingTk_getRetryWaitMS (currentNumRetry : Z) : Z :=
  if currentNumRetry =? 0 then 0
  else if currentNumRetry <=? 12 then 5000
  else if currentNumRetry <=? 24 then 20000
  else 60000.
Definition MessagingTk_waitBeforeRetry (currentNumRetry : Z) : list MsgEvent :=
  let retryWaitMS := MessagingTk_getRetryWaitMS currentNumRetry in
  if retryWaitMS =? 0 then [] else [Ev_sleep retryWaitMS].

(** [None]: the allocation failed. *)
Definition MessagingTk_createMsgBuf {M} `{NetMessageOps M} (memory : Z -> option (list byte))
    (msg : NetMessage M) : option (NetMessage M * option (list byte)) :=
  '(bufLen, msg) ← NetMessage_getMsgLength msg;
  let buf := memory bufLen in
  '(_, msg, buf) ← NetMessage_serialize msg buf (match buf with Some _ => bufLen | None => 0 end);
  Some (msg, buf).

(** The type field of the received object. *)
Definition some_msgType (m : SomeMsg) : Z :=
  match m with None => NETMSGTYPE_Invalid | Some (existT _ msg) => msgType (msgHeader msg) end.

(** Control code and sequence number of an object that the factory made for a generic
    response; [None]: it is an object of another class. *)
Definition generic_response (m : SomeMsg) : option (Z * Z) :=
  match m with
  | Some (existT K_SimpleIntString msg) =>
      Some (sis_intValue (msgBody msg), msgSequence (msgHeader msg))
  | _ => None
  end.

(** ** One exchange *)

(** [cm_conn]: the connection of the pool, if it gives one; [cm_buf n]: the memory of a new
    buffer of [n] bytes; [cm_kmalloc]: the allocation succeeds; [cm_send]: the result of
    sending these bytes. *)
Record CommEnv := MkCommEnv {
  cm_conn : option Z;
  cm_fatal_connect : bool;
  cm_bufSize : Z;
  cm_buf : Z -> list byte;
  cm_kmalloc : bool;
  cm_send : list byte -> Z;
  cm_recv1 : list RecvResult;
  cm_recv2 : list RecvResult;
  cm_fatal_recv : bool;
  cm_garbage : NetMessageHeader
}.

Record CommOut (M : Type) := MkCommOut {
  co_ret : Z;
  co_args : RequestResponseArgs M;
  co_indirect : bool;
  co_events : list MsgEvent
}.
Arguments MkCommOut {M}.
Arguments co_ret {M}.
Arguments co_args {M}.
Arguments co_indirect {M}.
Arguments co_events {M}.

Definition log_flag (flags f : Z) : bool := negb (Z.land flags f =? 0).

Section Comm.
Context {M : Type} `{NetMessageOps M}.
Context (kmalloc_ok : Z -> bool) (fresh : forall k, kind_type k).

(** The result, the log flags, [*wasIndirectCommErr] and the events of handling a generic
    response; [group]: the request belongs to a mirror group. *)
Definition __MessagingTk_handleGenericResponse (args : RequestResponseArgs M) (group : bool)
    (controlCode sequence : Z) : Z * RequestResponseArgs M * bool * list MsgEvent :=
  if controlCode =? GenericRespMsgCode_TRYAGAIN then
    (FhgfsOpsErr_AGAIN, rr_add_logFlag REQUESTRESPONSEARGS_LOGFLAG_PEERTRYAGAIN args, false, [])
  else if controlCode =? GenericRespMsgCode_INDIRECTCOMMERR then
    (FhgfsOpsErr_COMMUNICATION,
     rr_add_logFlag REQUESTRESPONSEARGS_LOGFLAG_PEERINDIRECTCOMMM args, true, [])
  else if controlCode =? GenericRespMsgCode_NEWSEQNOBASE then
    if group then (FhgfsOpsErr_COMMUNICATION, args, false, [Ev_setSeqNoBase sequence])
    else (FhgfsOpsErr_INTERNAL, args, false, [])
  else (FhgfsOpsErr_INTERNAL, args, false, []).

(** How the function leaves: with the response, or over one of its labels.  [releaseSock]:
    the connection was taken from the pool. *)
Definition on_sock (releaseSock : bool) (ev : MsgEvent) : list MsgEvent :=
  if releaseSock then [ev] else [].
Definition put_buf (buf : option (list byte)) : list MsgEvent :=
  match buf with None => [] | Some _ => [Ev_putBuf] end.

Definition comm_success (releaseSock : bool) (sock : Z) (buf : list byte) (resp : SomeMsg)
    (args : RequestResponseArgs M) (indirect : bool) (evs : list MsgEvent) : CommOut M :=
  MkCommOut FhgfsOpsErr_SUCCESS (rr_set_out (Some buf) (Some resp) args) indirect
    (evs ++ on_sock releaseSock (Ev_releaseSock sock)).
Definition comm_reuse (releaseSock : bool) (sock : Z) (buf : option (list byte)) (retVal : Z)
    (args : RequestResponseArgs M) (indirect : bool) (evs : list MsgEvent) : CommOut M :=
  MkCommOut retVal (rr_set_out None None args) indirect
    (evs ++ on_sock releaseSock (Ev_releaseSock sock) ++ put_buf buf).
Definition comm_invalidate (releaseSock : bool) (sock : Z) (buf : option (list byte)) (retVal : Z)
    (args : RequestResponseArgs M) (indirect : bool) (evs : list MsgEvent) : CommOut M :=
  MkCommOut retVal (rr_set_out None None args) indirect
    (evs ++ on_sock releaseSock (Ev_invalidateSock sock) ++ put_buf buf).

(** The exchange over a connection, from the received bytes on. *)
Definition comm_response (e : CommEnv) (releaseSock : bool) (sock : Z) (group : bool)
    (args : RequestResponseArgs M) (indirect : bool) (evs : list MsgEvent) (bufLen : Z)
    (buf : list byte) : option (CommOut M) :=
  let '(respRes, buf) := MessagingTk_recvMsgBuf (cm_recv1 e) (cm_recv2 e) buf bufLen in
  if respRes <=? 0 then
    let retVal :=
      if log_flag (rr_logFlags args) REQUESTRESPONSEARGS_LOGFLAG_COMMERR
      then FhgfsOpsErr_COMMUNICATION
      else if cm_fatal_recv e then FhgfsOpsErr_COMMUNICATION
      else if respRes =? - ETIMEDOUT then FhgfsOpsErr_COMMTIMEDOUT
      else FhgfsOpsErr_COMMUNICATION in
    Some (comm_invalidate releaseSock sock (Some buf) retVal args indirect evs)
  else
    match NetMessageFactory_createFromBuf kmalloc_ok fresh (cm_garbage e) buf respRes with
    | Done resp _ =>
        if some_msgType resp =? NETMSGTYPE_AckNotifyResp then
          Some (comm_invalidate releaseSock sock (Some buf) FhgfsOpsErr_COMMUNICATION args true evs)
        else if some_msgType resp =? NETMSGTYPE_GenericResponse then
          '(code, sequence) ← generic_response resp;
          let '(retVal, args, indirect, evs') :=
            __MessagingTk_handleGenericResponse args group code sequence in
          let evs := evs ++ evs' in
          Some (if negb (retVal =? FhgfsOpsErr_INTERNAL)
                then comm_reuse releaseSock sock (Some buf) retVal args indirect evs
                else comm_invalidate releaseSock sock (Some buf) retVal args indirect evs)
        else if negb (some_msgType resp =? rr_respMsgType args) then
          Some (comm_invalidate releaseSock sock (Some buf) FhgfsOpsErr_INTERNAL args indirect evs)
        else Some (comm_success releaseSock sock buf resp args indirect evs)
    | _ => None
    end.

(** The exchange over a connection, from the allocation of the buffer on. *)
Definition comm_over (e : CommEnv) (releaseSock : bool) (sock : Z) (group : bool)
    (args : RequestResponseArgs M) (indirect : bool) (evs : list MsgEvent) : option (CommOut M) :=
  '(sendBufLen, msg) ← NetMessage_getMsgLength (rr_requestMsg args);
  let args := rr_set_msg msg args in
  let store := match rr_respBufType args with MessagingTkBufType_BufStore => true | _ => false end in
  let bufLen := if store then cm_bufSize e else Z.max MSGTK_KMALLOC_RECV_BUF_LEN sendBufLen in
  if store && (bufLen <? sendBufLen) then
    Some (comm_invalidate releaseSock sock None FhgfsOpsErr_INTERNAL args indirect evs)
  else if negb store && negb (cm_kmalloc e) then
    Some (comm_invalidate releaseSock sock None FhgfsOpsErr_OUTOFMEM args indirect evs)
  else
    let evs := evs ++ [Ev_getBuf] in
    '(_, msg, buf) ← NetMessage_serialize msg (Some (cm_buf e bufLen)) sendBufLen;
    buf ← buf;
    let args := rr_set_msg msg args in
    let h := msgHeader msg in
    let evs := evs ++ [Ev_send (msgSequence h) (msgSequenceDone h) (msgFlags h)] in
    if negb (cm_send e (take (Z.to_nat sendBufLen) buf) =? sendBufLen) then
      Some (comm_invalidate releaseSock sock (Some buf) FhgfsOpsErr_COMMUNICATION
              (rr_add_logFlag REQUESTRESPONSEARGS_LOGFLAG_COMMERR args) indirect evs)
    else comm_response e releaseSock sock group args indirect evs bufLen buf.

Definition __MessagingTk_requestResponseWithRRArgsComm (e : CommEnv)
    (args : RequestResponseArgs M) (group indirect : bool) (sock : option Z)
    : option (CommOut M) :=
  let args := rr_set_out None None args in
  match sock with
  | Some s => comm_over e false s group args indirect []
  | None =>
      match cm_conn e with
      | None =>
          let args :=
            if cm_fatal_connect e then args
            else rr_add_logFlag REQUESTRESPONSEARGS_LOGFLAG_CONNESTABLISHFAILED args in
          Some (MkCommOut FhgfsOpsErr_COMMUNICATION args indirect [])
      | Some s => comm_over e true s group args indirect [Ev_acquireSock s]
      end
  end.
End Comm.

(** Only the pointer to an allocated buffer is cleared: the object and a buffer of the store are
    given back while the pointers to them stay. *)
Definition RequestResponseArgs_freeRespBuffers {M} (a : RequestResponseArgs M) :
    RequestResponseArgs M * list MsgEvent :=
  (rr_set_out
     (match rr_respBufType a with MessagingTkBufType_BufStore => rr_outRespBuf a | _ => None end)
     (rr_outRespMsg a) a,
   put_buf (rr_outRespBuf a)).

(** ** Retries with a given node *)

(** A round: the exchange, then the signal and the state of the node as the code sees them. *)
Record RetryEnv := MkRetryEnv { rt_comm : CommEnv; rt_fatal : bool; rt_active : bool }.

Inductive RROut (M : Type) :=
| RR_return (ret : Z) (args : RequestResponseArgs M) (events : list MsgEvent)
| RR_fault
| RR_out_of_fuel.
Arguments RR_return {M}.
Arguments RR_fault {M}.
Arguments RR_out_of_fuel {M}.

Section Retry.
Context {M : Type} `{NetMessageOps M}.
Context (kmalloc_ok : Z -> bool) (fresh : forall k, kind_type k).
(** [App_getConnRetriesEnabled]. *)
Context (connRetriesEnabled : bool).

(** What follows an exchange that did not succeed. *)
Inductive RetryDecision := Retry_never (ret : Z) | Retry_again | Retry_if_left.

Definition retry_decision (e : RetryEnv) (commRes : Z) : RetryDecision :=
  if commRes =? FhgfsOpsErr_SUCCESS then Retry_never FhgfsOpsErr_SUCCESS
  else if rt_fatal e then Retry_never FhgfsOpsErr_INTERRUPTED
  else if negb (rt_active e) then Retry_never FhgfsOpsErr_UNKNOWNNODE
  else if commRes =? FhgfsOpsErr_WOULDBLOCK then Retry_never FhgfsOpsErr_COMMUNICATION
  else if (commRes =? FhgfsOpsErr_AGAIN) && connRetriesEnabled then Retry_again
  else if negb (commRes =? FhgfsOpsErr_COMMUNICATION) then Retry_never commRes
  else Retry_if_left.

Definition has_retry (numRetries currentRetryNum : Z) : bool :=
  connRetriesEnabled && ((numRetries =? 0) || (currentRetryNum <? numRetries)).

Fixpoint rr_loop (fuel : nat) (env : nat -> RetryEnv) (sock : option Z) (currentRetryNum : Z)
    (args : RequestResponseArgs M) (indirect : bool) (evs : list MsgEvent) : RROut M :=
  match fuel with
  | O => RR_out_of_fuel
  | S fuel' =>
      match __MessagingTk_requestResponseWithRRArgsComm kmalloc_ok fresh (rt_comm (env O)) args
              false indirect sock with
      | None => RR_fault
      | Some co =>
          let next num evs' :=
            rr_loop fuel' (fun i => env (S i)) sock num (co_args co) (co_indirect co)
              (evs ++ co_events co ++ evs') in
          match retry_decision (env O) (co_ret co) with
          | Retry_never ret => RR_return ret (co_args co) (evs ++ co_events co)
          | Retry_again => next 0 [Ev_sleep MSGTK_INFINITE_RETRY_WAIT_MS]
          | Retry_if_left =>
              if has_retry (rr_numRetries args) currentRetryNum
              then next (u32 (currentRetryNum + 1)) (MessagingTk_waitBeforeRetry currentRetryNum)
              else RR_return FhgfsOpsErr_COMMUNICATION (co_args co) (evs ++ co_events co)
          end
      end
  end.

Definition MessagingTk_requestResponseWithRRArgsSock (fuel : nat) (env : nat -> RetryEnv)
    (args : RequestResponseArgs M) (sock : option Z) : RROut M :=
  rr_loop fuel env sock 0 args false [].
Definition MessagingTk_requestResponseWithRRArgs (fuel : nat) (env : nat -> RetryEnv)
    (args : RequestResponseArgs M) : RROut M :=
  MessagingTk_requestResponseWithRRArgsSock fuel env args None.

Definition MessagingTk_requestResponseKMalloc (fuel : nat) (env : nat -> RetryEnv) (node : Z)
    (requestMsg : NetMessage M) (respMsgType : Z) : RROut M :=
  MessagingTk_requestResponseWithRRArgs fuel env
    (rr_set_mode 1 0 MessagingTkBufType_kmalloc
       (RequestResponseArgs_prepare (Some node) requestMsg respMsgType)).
Definition MessagingTk_requestResponseSock (fuel : nat) (env : nat -> RetryEnv) (node : Z)
    (requestMsg : NetMessage M) (respMsgType : Z) (sock : option Z) : RROut M :=
  MessagingTk_requestResponseWithRRArgsSock fuel env
    (RequestResponseArgs_prepare (Some node) requestMsg respMsgType) sock.
Definition MessagingTk_requestResponse (fuel : nat) (env : nat -> RetryEnv) (node : Z)
    (requestMsg : NetMessage M) (respMsgType : Z) : RROut M :=
  MessagingTk_requestResponseSock fuel env node requestMsg respMsgType None.
Definition MessagingTk_requestResponseRetry (fuel : nat) (env : nat -> RetryEnv)
    (connNumCommRetries node : Z) (requestMsg : NetMessage M) (respMsgType : Z) : RROut M :=
  MessagingTk_requestResponseWithRRArgs fuel env
    (rr_set_mode connNumCommRetries 0 MessagingTkBufType_BufStore
       (RequestResponseArgs_prepare (Some node) requestMsg respMsgType)).

(** ** Retries with a target or a mirror group *)

(** A sequence number: its handle, its value, the acknowledged number and whether that is
    selective. *)
Record Grant := MkGrant {
  gr_handle : nat;
  gr_sequence : Z;
  gr_done : Z;
  gr_selective : bool
}.

(** A round: the groups and states at that time, the result of acquiring a sequence number
    (an error; no number because the group has no base yet; a number), a signal during the
    sleep, the node that the store refers to, and the exchange. *)
Record NodeEnv := MkNodeEnv {
  ne_buddies : MirrorBuddyGroupMapper;
  ne_acquire : Z + option Grant;
  ne_states : TargetStateStore;
  ne_fatal_sleep : bool;
  ne_node : Z -> option Z;
  ne_retry : RetryEnv
}.

(** The variables of the function that live through the rounds. *)
Record NodeState := MkNodeState {
  ns_args : RequestResponseArgs M;
  ns_currentRetryNum : Z;
  ns_handle : option nat;
  ns_group : bool;
  ns_indirect : bool;
  ns_events : list MsgEvent
}.
Inductive NodeStep := Node_continue (s : NodeState) | Node_exit (commRes : Z) (s : NodeState) | Node_fault.

Definition ns_log (evs : list MsgEvent) (s : NodeState) : NodeState :=
  MkNodeState (ns_args s) (ns_currentRetryNum s) (ns_handle s) (ns_group s) (ns_indirect s)
    (ns_events s ++ evs).
Definition ns_set_args (a : RequestResponseArgs M) (s : NodeState) : NodeState :=
  MkNodeState a (ns_currentRetryNum s) (ns_handle s) (ns_group s) (ns_indirect s) (ns_events s).
Definition ns_set_retryNum (n : Z) (s : NodeState) : NodeState :=
  MkNodeState (ns_args s) n (ns_handle s) (ns_group s) (ns_indirect s) (ns_events s).

Definition upd_header (f : NetMessageHeader -> NetMessageHeader) (s : NodeState) : NodeState :=
  ns_set_args (rr_set_msg (with_header f (rr_requestMsg (ns_args s))) (ns_args s)) s.
Definition hdr_add_flag (f : Z) (h : NetMessageHeader) : NetMessageHeader :=
  MkNetMessageHeader (msgLength h) (msgFeatureFlags h) (msgCompatFeatureFlags h)
    (Z.lor (msgFlags h) f) (msgType h) (msgTargetID h) (msgUserID h) (msgSequence h)
    (msgSequenceDone h).
Definition hdr_set_sequence (seq done : Z) (h : NetMessageHeader) : NetMessageHeader :=
  MkNetMessageHeader (msgLength h) (msgFeatureFlags h) (msgCompatFeatureFlags h) (msgFlags h)
    (msgType h) (msgTargetID h) (msgUserID h) seq done.

(** Sequence numbers for a request to a mirror group: the new state, and the error if there is
    one. *)
Definition node_sequence (e : NodeEnv) (s : NodeState) : (Z * NodeState) + NodeState :=
  if negb supportsSequenceNumbers then inr s
  else
    let s := upd_header (hdr_add_flag MSGHDRFLAG_HAS_SEQUENCE_NO) s in
    let h := msgHeader (rr_requestMsg (ns_args s)) in
    if negb (msgSequence h =? 0) then inr s
    else
      match ne_acquire e with
      | inl err =>
          inl (if err =? EINTR then FhgfsOpsErr_INTERRUPTED else FhgfsOpsErr_UNKNOWNNODE, s)
      | inr None =>
          inr (MkNodeState (ns_args s) (ns_currentRetryNum s) None true (ns_indirect s) (ns_events s))
      | inr (Some g) =>
          let s := upd_header (hdr_set_sequence (gr_sequence g) (gr_done g)) s in
          let s := if gr_selective g then upd_header (hdr_add_flag MSGHDRFLAG_IS_SELECTIVE_ACK) s
                   else s in
          inr (MkNodeState (ns_args s) (ns_currentRetryNum s) (Some (gr_handle g)) true
                 (ns_indirect s)
                 (ns_events s ++ [Ev_acquireSeq (gr_handle g) (gr_sequence g)]))
      end.

(** The check of the target state: go on, leave with an error, or sleep and start over. *)
Inductive StateCheck := State_usable | State_leave (commRes : Z) | State_sleep.

Definition node_check_state (e : NodeEnv) (isMirrorGroup targetStates mirrorBuddies : bool)
    (rrFlags nodeID : Z) : StateCheck :=
  let maySleep := log_flag rrFlags REQUESTRESPONSEARGS_FLAG_ALLOWSTATESLEEP in
  if negb targetStates then State_usable
  else
    match TargetStateStore_getState (ne_states e) (u16 nodeID) with
    | (_, false) => if maySleep then State_sleep else State_leave FhgfsOpsErr_COMMUNICATION
    | (state, true) =>
        if negb (cts_reachabilityState state =? TargetReachabilityState_ONLINE) ||
           (isMirrorGroup && negb (cts_consistencyState state =? TargetConsistencyState_GOOD)) then
          if cts_reachabilityState state =? TargetReachabilityState_OFFLINE
          then State_leave FhgfsOpsErr_COMMUNICATION
          else if negb maySleep then State_leave FhgfsOpsErr_COMMUNICATION
          else if mirrorBuddies then State_sleep else State_usable
        else State_usable
    end.

(** The decision after an exchange; time-outs count as communication errors here. *)
Definition node_decision (e : RetryEnv) (commRes : Z) : RetryDecision :=
  if commRes =? FhgfsOpsErr_COMMTIMEDOUT then
    if rt_fatal e then Retry_never FhgfsOpsErr_INTERRUPTED
    else if negb (rt_active e) then Retry_never FhgfsOpsErr_UNKNOWNNODE
    else Retry_if_left
  else retry_decision e commRes.

(** Release of a node that this round has referenced. *)
Definition put_node (needsRelease : bool) (s : NodeState) : NodeState :=
  if needsRelease then
    match rr_node (ns_args s) with
    | Some n => ns_log [Ev_putNode n] (ns_set_args (rr_set_node None (ns_args s)) s)
    | None => s
    end
  else s.

(** A number that the server reported as failed is given back; the next round takes a new
    one. *)
Definition drop_sequence (s : NodeState) : NodeState :=
  match ns_handle s with
  | Some h =>
      if ns_indirect s then
        let s := upd_header (fun hd => hdr_set_sequence 0 (msgSequenceDone hd) hd) s in
        MkNodeState (ns_args s) (ns_currentRetryNum s) None (ns_group s) false
          (ns_events s ++ [Ev_releaseSeq h])
      else s
  | None => s
  end.

Definition node_exchange (e : NodeEnv) (needsRelease : bool) (s : NodeState) : NodeStep :=
  match __MessagingTk_requestResponseWithRRArgsComm kmalloc_ok fresh (rt_comm (ne_retry e))
          (ns_args s) (ns_group s) (ns_indirect s) None with
  | None => Node_fault
  | Some co =>
      let s := MkNodeState (co_args co) (ns_currentRetryNum s) (ns_handle s) (ns_group s)
                 (co_indirect co) (ns_events s ++ co_events co) in
      match node_decision (ne_retry e) (co_ret co) with
      | Retry_never ret => Node_exit ret (put_node needsRelease s)
      | Retry_again =>
          Node_continue (put_node needsRelease
            (ns_log [Ev_sleep MSGTK_INFINITE_RETRY_WAIT_MS] (ns_set_retryNum 0 s)))
      | Retry_if_left =>
          if has_retry (rr_numRetries (ns_args s)) (ns_currentRetryNum s) then
            Node_continue (put_node needsRelease (drop_sequence
              (ns_log (MessagingTk_waitBeforeRetry (ns_currentRetryNum s))
                 (ns_set_retryNum (u32 (ns_currentRetryNum s + 1)) s))))
          else Node_exit (co_ret co) (put_node needsRelease s)
      end
  end.

(** One round of the loop; [targetStates] and [mirrorBuddies] tell whether the pointers are
    set. *)
Definition node_round (peer : RRPeer) (targetStates mirrorBuddies : bool) (e : NodeEnv)
    (s : NodeState) : NodeStep :=
  let go (isMirrorGroup : bool) (nodeID : Z) (s : NodeState) : NodeStep :=
    match node_check_state e isMirrorGroup targetStates mirrorBuddies (rr_rrFlags (ns_args s))
            nodeID with
    | State_leave commRes => Node_exit commRes s
    | State_sleep =>
        let s := ns_log [Ev_sleep MSGTK_STATE_SLEEP_MS] s in
        if ne_fatal_sleep e then Node_exit FhgfsOpsErr_INTERRUPTED s
        else Node_continue (ns_set_retryNum 0 s)
    | State_usable =>
        match rr_node (ns_args s) with
        | Some _ => node_exchange e false s
        | None =>
            match ne_node e nodeID with
            | None => Node_exit FhgfsOpsErr_UNKNOWNNODE s
            | Some n =>
                node_exchange e true
                  (ns_log [Ev_refNode n] (ns_set_args (rr_set_node (Some n) (ns_args s)) s))
            end
        end
    end in
  match peer with
  | RRPeer_target target => go false target s
  | RRPeer_group group =>
      let nodeID := MirrorBuddyGroupMapper_getPrimaryTargetID (ne_buddies e) (u16 group) in
      if nodeID =? 0 then Node_exit FhgfsOpsErr_UNKNOWNNODE s
      else
        match node_sequence e s with
        | inl (commRes, s) => Node_exit commRes s
        | inr s => go true nodeID s
        end
  end.

(** The [exit] label. *)
Definition node_leave (commRes : Z) (s : NodeState) : RROut M :=
  RR_return commRes (ns_args s)
    (ns_events s ++ match ns_handle s with Some h => [Ev_releaseSeq h] | None => [] end).

Fixpoint node_loop (fuel : nat) (peer : RRPeer) (targetStates mirrorBuddies : bool)
    (env : nat -> NodeEnv) (s : NodeState) : RROut M :=
  match fuel with
  | O => RR_out_of_fuel
  | S fuel' =>
      match node_round peer targetStates mirrorBuddies (env O) s with
      | Node_fault => RR_fault
      | Node_exit commRes s' => node_leave commRes s'
      | Node_continue s' =>
          node_loop fuel' peer targetStates mirrorBuddies (fun i => env (S i)) s'
      end
  end.

Definition __MessagingTk_requestResponseNodeRetry (fuel : nat) (peer : RRPeer)
    (targetStates mirrorBuddies : bool) (env : nat -> NodeEnv) (args : RequestResponseArgs M)
    : RROut M :=
  node_loop fuel peer targetStates mirrorBuddies env (MkNodeState args 0 None false false []).

Definition MessagingTk_requestResponseNode (fuel : nat) (peer : RRPeer)
    (targetStates mirrorBuddies : bool) (env : nat -> NodeEnv) (args : RequestResponseArgs M)
    : RROut M :=
  __MessagingTk_requestResponseNodeRetry fuel peer targetStates mirrorBuddies env
    (rr_set_mode 1 0 MessagingTkBufType_BufStore args).
Definition MessagingTk_requestResponseNodeRetryAutoIntr (fuel : nat) (connNumCommRetries : Z)
    (peer : RRPeer) (targetStates mirrorBuddies : bool) (env : nat -> NodeEnv)
    (args : RequestResponseArgs M) : RROut M :=
  __MessagingTk_requestResponseNodeRetry fuel peer targetStates mirrorBuddies env
    (rr_set_mode connNumCommRetries REQUESTRESPONSEARGS_FLAG_ALLOWSTATESLEEP
       MessagingTkBufType_BufStore args).
End Retry.
