(* ===== verification/MessagingTkFacts.v ===== *)
(** * Requests and responses: theorems

    The protocol that the events of an exchange and of the retry loops follow (connections,
    buffers, node references and sequence numbers are taken and given back in a fixed order),
    what a successful call returns, termination of the retry loops, and three faults. *)

From S2P Require Import Prelude StorageErrors Wire Serialization StorageFormats NetMessageTypes NetMessage NetMessageFacts BuddyGroup Mappers CommKit MessagesSession MessageFactory CommKitOps MessageFactoryFacts MessagingTk.

(** ** The protocol *)

(** What a caller holds: a connection, a buffer, a node, a sequence number. *)
Record Proto := MkProto {
  pr_sock : option Z;
  pr_buf : bool;
  pr_node : option Z;
  pr_seq : option (nat * Z)
}.

Definition pr_number (p : Proto) : Z := from_option snd 0 (pr_seq p).
Definition pr_idle (p : Proto) : bool := bool_decide (pr_sock p = None) && negb (pr_buf p).

(** The number on the wire is the one that is held, and a number that is held is announced. *)
Definition send_ok (p : Proto) (sequence flags : Z) : bool :=
  (sequence =? pr_number p) &&
  (bool_decide (pr_seq p = None) || log_flag flags MSGHDRFLAG_HAS_SEQUENCE_NO).

Definition proto_step (p : Proto) (ev : MsgEvent) : option Proto :=
  match ev with
  | Ev_acquireSock s =>
      if pr_idle p && bool_decide (pr_node p <> None)
      then Some (MkProto (Some s) false (pr_node p) (pr_seq p)) else None
  | Ev_releaseSock s | Ev_invalidateSock s =>
      if bool_decide (pr_sock p = Some s)
      then Some (MkProto None (pr_buf p) (pr_node p) (pr_seq p)) else None
  | Ev_getBuf =>
      if bool_decide (pr_sock p <> None) && negb (pr_buf p)
      then Some (MkProto (pr_sock p) true (pr_node p) (pr_seq p)) else None
  | Ev_putBuf =>
      if bool_decide (pr_sock p = None) && pr_buf p
      then Some (MkProto None false (pr_node p) (pr_seq p)) else None
  | Ev_send sequence _ flags =>
      if bool_decide (pr_sock p <> None) && pr_buf p && send_ok p sequence flags
      then Some p else None
  | Ev_setSeqNoBase _ => if bool_decide (pr_sock p <> None) && pr_buf p then Some p else None
  | Ev_acquireSeq h n =>
      if pr_idle p && bool_decide (pr_seq p = None)
      then Some (MkProto None false (pr_node p) (Some (h, n))) else None
  | Ev_releaseSeq h =>
      if bool_decide (pr_sock p = None) && bool_decide (fst <$> pr_seq p = Some h)
      then Some (MkProto None (pr_buf p) (pr_node p) None) else None
  | Ev_refNode n =>
      if pr_idle p && bool_decide (pr_node p = None)
      then Some (MkProto None false (Some n) (pr_seq p)) else None
  | Ev_putNode n =>
      if bool_decide (pr_sock p = None) && bool_decide (pr_node p = Some n)
      then Some (MkProto None (pr_buf p) None (pr_seq p)) else None
  | Ev_sleep _ => if pr_idle p then Some p else None
  end.

Fixpoint proto_run (p : Proto) (evs : list MsgEvent) : option Proto :=
  match evs with
  | [] => Some p
  | ev :: evs' => p' ← proto_step p ev; proto_run p' evs'
  end.

Lemma proto_run_app p evs evs' :
  proto_run p (evs ++ evs') = (p' ← proto_run p evs; proto_run p' evs').
Proof.
  revert p. induction evs as [|ev evs IH]; intros p; simpl; [done|].
  destruct (proto_step p ev); simpl; [apply IH|done].
Qed.

Lemma proto_run_snoc p q evs evs' :
  proto_run p evs = Some q -> proto_run p (evs ++ evs') = proto_run q evs'.
Proof. intros E. by rewrite proto_run_app, E. Qed.

(** ** What an exchange keeps of its arguments *)

Definition request_view {M} (a : RequestResponseArgs M) :=
  (rr_node a, set_msgLength (msgHeader (rr_requestMsg a)) 0, msgBody (rr_requestMsg a),
   rr_respMsgType a, rr_numRetries a, rr_rrFlags a, rr_respBufType a, rr_recvTimeoutMS a).

(** The object has the class that belongs to its type. *)
Definition class_ok (m : SomeMsg) : Prop :=
  match m with
  | Some (existT k msg) => NetMessageFactory_createFromMsgType (msgType (msgHeader msg)) = Some k
  | None => True
  end.
Lemma createFromBuf_class kmalloc_ok fresh garbage buf len resp ctx :
  NetMessageFactory_createFromBuf kmalloc_ok fresh garbage buf len = Done resp ctx -> class_ok resp.
Proof.
  unfold NetMessageFactory_createFromBuf, receive_any, mbind, Des_bind.
  destruct (__NetMessage_deserializeHeader garbage _) as [header ctx1| |]; try done.
  destruct (NetMessageFactory_createFromMsgType (msgType header)) as [k|] eqn:Ek; [|by intros [= <- _]].
  unfold receive_kind, __NetMessageFactory_deserializeRaw, des_check, mbind, Des_bind, mret, Des_ret.
  destruct (NetMessage_checkHeaderFeatureFlagsCompat _); [|by intros [= <- _]].
  destruct (deserializePayload _ _); try done; by intros [= <- _].
Qed.

Definition out_ok {M} (a : RequestResponseArgs M) (ret : Z) : Prop :=
  if ret =? FhgfsOpsErr_SUCCESS then
    exists buf resp, rr_outRespBuf a = Some buf /\ rr_outRespMsg a = Some resp /\
      some_msgType resp = rr_respMsgType a /\ class_ok resp
  else rr_outRespBuf a = None /\ rr_outRespMsg a = None.

Section Exchange.
Context {M : Type} `{NetMessageOps M}.
Context (kmalloc_ok : Z -> bool) (fresh : forall k, kind_type k).

Lemma getMsgLength_view (m m' : NetMessage M) len :
  NetMessage_getMsgLength m = Some (len, m') ->
  set_msgLength (msgHeader m') 0 = set_msgLength (msgHeader m) 0 /\ msgBody m' = msgBody m.
Proof.
  unfold NetMessage_getMsgLength. intros E. case_match; simplify_option_eq; done.
Qed.

Lemma serializeHeader_view (m m' : NetMessage M) ctx z ctx' :
  __NetMessage_serializeHeader m ctx z = Some (ctx', m') ->
  set_msgLength (msgHeader m') 0 = set_msgLength (msgHeader m) 0 /\ msgBody m' = msgBody m.
Proof.
  unfold __NetMessage_serializeHeader.
  intros [[len m1] [E1 E]]%bind_Some.
  apply bind_Some in E as [c [_ [= <- <-]]].
  destruct z; [by simplify_eq|by eapply getMsgLength_view].
Qed.

Lemma serialize_view (m m' : NetMessage M) buf len r buf' :
  NetMessage_serialize m buf len = Some (r, m', buf') ->
  set_msgLength (msgHeader m') 0 = set_msgLength (msgHeader m) 0 /\ msgBody m' = msgBody m.
Proof.
  unfold NetMessage_serialize. intros [[l m1] [E1%getMsgLength_view E]]%bind_Some.
  destruct (len <? l); [by simplify_eq|].
  apply bind_Some in E as [[c m2] [E2%serializeHeader_view E]].
  apply bind_Some in E as [c' [_ [= _ <- _]]]. intuition congruence.
Qed.

(** The ways to leave an exchange, on the connection [s] of the pool with a buffer or without. *)
Definition proto_on (p : Proto) (s : Z) (buf : bool) : Proto :=
  MkProto (Some s) buf (pr_node p) (pr_seq p).
Definition proto_off (p : Proto) (buf : bool) : Proto := MkProto None buf (pr_node p) (pr_seq p).

Definition has_buf (buf : option (list byte)) : bool :=
  match buf with Some _ => true | None => false end.

Lemma leave_protocol p s (buf : option (list byte)) ev :
  ev = Ev_releaseSock s \/ ev = Ev_invalidateSock s ->
  proto_run (proto_on p s (has_buf buf)) (on_sock true ev ++ put_buf buf) =
  Some (proto_off p false).
Proof. intros [-> | ->]; destruct buf; simpl; by rewrite bool_decide_true by done. Qed.

(** The result of a function that was entered with the arguments [a] and the events that lead
    from [p0] to [q]. *)
Definition exchange_ok (p0 p : Proto) (a : RequestResponseArgs M) (co : CommOut M) : Prop :=
  proto_run p0 (co_events co) = Some (proto_off p (co_ret co =? FhgfsOpsErr_SUCCESS)) /\
  request_view (co_args co) = request_view a /\ out_ok (co_args co) (co_ret co).

Lemma exchange_fails p0 p s (buf : option (list byte)) ret (a a' : RequestResponseArgs M) ind evs ev :
  ret <> FhgfsOpsErr_SUCCESS -> request_view a' = request_view a ->
  proto_run p0 evs = Some (proto_on p s (has_buf buf)) ->
  ev = Ev_releaseSock s \/ ev = Ev_invalidateSock s ->
  exchange_ok p0 p a (MkCommOut ret (rr_set_out None None a') ind
    (evs ++ on_sock true ev ++ put_buf buf)).
Proof.
  intros Hret Hview Hrun Hev. unfold exchange_ok, out_ok; cbn [co_events co_ret co_args].
  rewrite (proto_run_snoc _ _ _ _ Hrun), leave_protocol by done.
  rewrite (proj2 (Z.eqb_neq ret FhgfsOpsErr_SUCCESS)) by done. repeat split; done.
Qed.

Ltac exchange_leaves s b :=
  unfold comm_invalidate, comm_reuse; apply exchange_fails with (s := s) (buf := b); auto; try discriminate.

Lemma handleGenericResponse_view (a : RequestResponseArgs M) group code seq :
  let '(ret, a', ind, evs) := __MessagingTk_handleGenericResponse a group code seq in
  request_view a' = request_view a /\ ret <> FhgfsOpsErr_SUCCESS /\
  (evs = [] \/ evs = [Ev_setSeqNoBase seq]).
Proof.
  unfold __MessagingTk_handleGenericResponse.
  repeat case_match; simplify_eq; repeat split; auto; discriminate.
Qed.

Lemma set_base_protocol p0 p s evs evs' seq :
  proto_run p0 evs = Some (proto_on p s true) -> evs' = [] \/ evs' = [Ev_setSeqNoBase seq] ->
  proto_run p0 (evs ++ evs') = Some (proto_on p s true).
Proof.
  intros Hrun Hevs. rewrite (proto_run_snoc _ _ _ _ Hrun).
  destruct Hevs as [-> | ->]; simpl; by rewrite ?bool_decide_true by done.
Qed.

Lemma comm_response_protocol e p0 p s group (a a0 : RequestResponseArgs M) ind evs bufLen buf co :
  comm_response kmalloc_ok fresh e true s group a ind evs bufLen buf = Some co ->
  request_view a = request_view a0 ->
  proto_run p0 evs = Some (proto_on p s true) -> exchange_ok p0 p a0 co.
Proof.
  intros E Hview Hrun. unfold comm_response in E.
  destruct (MessagingTk_recvMsgBuf _ _ _ _) as [respRes buf'].
  destruct (respRes <=? 0).
  { injection E as <-.
    exchange_leaves s (Some buf'). repeat case_match; discriminate. }
  destruct (NetMessageFactory_createFromBuf _ _ _ _ _) as [resp ? | |] eqn:Er; [apply createFromBuf_class in Er|discriminate E..].
  destruct (some_msgType resp =? NETMSGTYPE_AckNotifyResp).
  { injection E as <-. exchange_leaves s (Some buf'). }
  destruct (some_msgType resp =? NETMSGTYPE_GenericResponse).
  { apply bind_Some in E as [[code seq] [_ E]].
    pose proof (handleGenericResponse_view a group code seq) as Hgen.
    destruct (__MessagingTk_handleGenericResponse _ _ _ _) as [[[ret a'] ind'] evs'].
    destruct Hgen as (Hv & Hret & Hevs).
    pose proof (set_base_protocol _ _ _ _ _ _ Hrun Hevs) as Hrun'.
    injection E as <-. case_match; exchange_leaves s (Some buf'); congruence. }
  destruct (Z.eqb_spec (some_msgType resp) (rr_respMsgType a)) as [Ht|Ht]; injection E as <-.
  - unfold exchange_ok, out_ok; simpl. rewrite (proto_run_snoc _ _ _ _ Hrun); simpl.
    rewrite bool_decide_true by done. split_and!; eauto 7.
  - exchange_leaves s (Some buf').
Qed.

Lemma comm_over_protocol e p0 p s group (a a0 : RequestResponseArgs M) ind evs co :
  comm_over kmalloc_ok fresh e true s group a ind evs = Some co ->
  request_view a = request_view a0 ->
  proto_run p0 evs = Some (proto_on p s false) ->
  send_ok p (msgSequence (msgHeader (rr_requestMsg a0))) (msgFlags (msgHeader (rr_requestMsg a0)))
    = true ->
  exchange_ok p0 p a0 co.
Proof.
  intros E Hview Hrun Hsend. unfold comm_over in E.
  apply bind_Some in E as [[len m1] [[Eh1 Eb1]%getMsgLength_view E]].
  assert (request_view (rr_set_msg m1 a) = request_view a0) as Hv1.
  { rewrite <- Hview. unfold request_view; simpl. by rewrite Eh1, Eb1. }
  cbn zeta in E. case_match.
  { injection E as <-. exchange_leaves s (@None (list byte)). }
  case_match.
  { injection E as <-. exchange_leaves s (@None (list byte)). }
  apply bind_Some in E as [[[r m2] buf2] [[Eh2 Eb2]%serialize_view E]].
  apply bind_Some in E as [buf [-> E]].
  set (a2 := rr_set_msg m2 (rr_set_msg m1 a)) in *.
  assert (request_view a2 = request_view a0) as Hv2.
  { rewrite <- Hv1. unfold request_view; simpl. by rewrite Eh2, Eb2. }
  assert (msgSequence (msgHeader m2) = msgSequence (msgHeader (rr_requestMsg a0)) /\
          msgFlags (msgHeader m2) = msgFlags (msgHeader (rr_requestMsg a0))) as [Es Ef].
  { unfold request_view in Hv2. injection Hv2. simpl. tauto. }
  rewrite Es, Ef in E.
  match type of E with context [comm_response _ _ _ _ _ _ _ _ ?l _ _] =>
    assert (proto_run p0 l = Some (proto_on p s true)) as Hrun2 end.
  { rewrite <- app_assoc, (proto_run_snoc _ _ _ _ Hrun). simpl.
    unfold send_ok, pr_number in *. simpl. by rewrite Hsend. }
  case_match.
  - injection E as <-. exchange_leaves s (Some buf).
  - by eapply comm_response_protocol.
Qed.

(** One exchange over a connection of the pool, for a caller that has the node and the number
    that the request carries. *)
Lemma comm_protocol e p group (a : RequestResponseArgs M) ind co :
  __MessagingTk_requestResponseWithRRArgsComm kmalloc_ok fresh e a group ind None = Some co ->
  pr_sock p = None -> pr_buf p = false -> pr_node p <> None ->
  send_ok p (msgSequence (msgHeader (rr_requestMsg a))) (msgFlags (msgHeader (rr_requestMsg a)))
    = true ->
  exchange_ok p p a co.
Proof.
  intros E Hsock Hbuf Hnode Hsend. destruct p as [psock pbuf pnode pseq]; simpl in *; subst.
  unfold __MessagingTk_requestResponseWithRRArgsComm in E.
  destruct (cm_conn e) as [s|].
  - eapply comm_over_protocol; eauto. simpl. by rewrite bool_decide_true by done.
  - injection E as <-. unfold exchange_ok, out_ok; simpl. repeat case_match; done.
Qed.

End Exchange.

(** ** The rounds of the retry loop follow the protocol *)

Lemma log_flag_lor flags f g : log_flag flags g = true -> log_flag (Z.lor flags f) g = true.
Proof.
  unfold log_flag. rewrite !negb_true_iff, !Z.eqb_neq. intros Hne Hz. apply Hne.
  apply Z.bits_inj'. intros n Hn. apply (f_equal (fun x => Z.testbit x n)) in Hz.
  rewrite Z.land_spec, ?Z.lor_spec, Z.bits_0 in *.
  destruct (Z.testbit flags n), (Z.testbit g n), (Z.testbit f n); simpl in *; congruence.
Qed.

Lemma log_flag_added flags : log_flag (Z.lor flags MSGHDRFLAG_HAS_SEQUENCE_NO)
  MSGHDRFLAG_HAS_SEQUENCE_NO = true.
Proof. rewrite Z.lor_comm. by apply log_flag_lor. Qed.

Lemma send_ok_lor p seq flags f :
  send_ok p seq flags = true -> send_ok p seq (Z.lor flags f) = true.
Proof.
  unfold send_ok. rewrite !andb_true_iff, !orb_true_iff. intros [? [?|?]]; split; auto.
  right. by apply log_flag_lor.
Qed.

Section Rounds.
Context {M : Type} `{NetMessageOps M}.
Context (kmalloc_ok : Z -> bool) (fresh : forall k, kind_type k) (connRetriesEnabled : bool).

Definition mode_view (a : RequestResponseArgs M) :=
  (msgBody (rr_requestMsg a), rr_respMsgType a, rr_numRetries a, rr_rrFlags a, rr_respBufType a,
   rr_recvTimeoutMS a).

(** What the variables of the loop say about the protocol state [p], which the events have led to
    from [p0]. *)
Record held (p0 : Proto) (a0 : RequestResponseArgs M) (s : NodeState (M := M)) (p : Proto) : Prop := MkHeld {
  held_run : proto_run p0 (ns_events s) = Some p;
  held_sock : pr_sock p = None;
  held_node : pr_node p = rr_node (ns_args s);
  held_seq : fst <$> pr_seq p = ns_handle s;
  held_send : send_ok p (msgSequence (msgHeader (rr_requestMsg (ns_args s))))
                (msgFlags (msgHeader (rr_requestMsg (ns_args s)))) = true;
  held_number : pr_seq p <> None -> pr_number p <> 0;
  held_mode : mode_view (ns_args s) = mode_view a0
}.

(** Between two rounds. *)
Definition between (p0 : Proto) (a0 : RequestResponseArgs M) (s : NodeState (M := M)) : Prop :=
  exists p, held p0 a0 s p /\ pr_buf p = false /\ rr_node (ns_args s) = rr_node a0 /\
    out_ok (ns_args s) FhgfsOpsErr_COMMUNICATION.

(** At the end of the loop. *)
Definition leaving (p0 : Proto) (a0 : RequestResponseArgs M) (ret : Z) (s : NodeState (M := M)) : Prop :=
  exists p, held p0 a0 s p /\ pr_buf p = (ret =? FhgfsOpsErr_SUCCESS) /\
    rr_node (ns_args s) = rr_node a0 /\ out_ok (ns_args s) ret.

Lemma between_leaves p0 a0 s ret :
  between p0 a0 s -> ret <> FhgfsOpsErr_SUCCESS -> leaving p0 a0 ret s.
Proof.
  intros (p & Hh & Hb & Hn & Ho) Hret. exists p.
  unfold out_ok in *. rewrite (proj2 (Z.eqb_neq ret FhgfsOpsErr_SUCCESS)) by done. done.
Qed.

Lemma held_log p0 a0 s p evs :
  held p0 a0 s p -> proto_run p evs = Some p -> held p0 a0 (ns_log evs s) p.
Proof.
  intros [] Hevs. constructor; simpl; auto. by rewrite (proto_run_snoc _ _ _ _ held_run0).
Qed.

Lemma held_flag p0 a0 s p f :
  held p0 a0 s p -> held p0 a0 (upd_header (hdr_add_flag f) s) p.
Proof. intros []. constructor; simpl; auto. by apply send_ok_lor. Qed.

Lemma idle_sleep p ms : pr_sock p = None -> pr_buf p = false -> proto_step p (Ev_sleep ms) = Some p.
Proof. intros Hs Hb. simpl. unfold pr_idle. by rewrite Hs, Hb. Qed.

Lemma idle_wait p num :
  pr_sock p = None -> pr_buf p = false -> proto_run p (MessagingTk_waitBeforeRetry num) = Some p.
Proof.
  intros Hs Hb. unfold MessagingTk_waitBeforeRetry. case_match; [done|].
  cbn [proto_run]. by rewrite idle_sleep.
Qed.

Lemma drop_sequence_held p0 a0 s p :
  held p0 a0 s p -> pr_buf p = false -> exists p', held p0 a0 (drop_sequence s) p' /\
    pr_buf p' = false /\ pr_node p' = pr_node p.
Proof.
  intros Hh Hb. unfold drop_sequence. destruct (ns_handle s) as [h|] eqn:Eh; [|by exists p].
  destruct (ns_indirect s); [|by exists p]. destruct Hh.
  destruct p as [psock pbuf pnode pseq]; simpl in *; subst psock pbuf.
  exists (MkProto None false pnode None). split; [|done]. constructor; simpl; auto.
  rewrite (proto_run_snoc _ _ _ _ held_run0). simpl. by rewrite held_seq0, Eh, !bool_decide_true by done.
Qed.

Lemma drop_sequence_args (s : NodeState (M := M)) :
  rr_node (ns_args (drop_sequence s)) = rr_node (ns_args s) /\
  rr_outRespBuf (ns_args (drop_sequence s)) = rr_outRespBuf (ns_args s) /\
  rr_outRespMsg (ns_args (drop_sequence s)) = rr_outRespMsg (ns_args s).
Proof. unfold drop_sequence. repeat case_match; done. Qed.

(** The node that the round took is given back; otherwise the caller's node stays. *)
Lemma put_node_held p0 a0 s p (r : bool) :
  held p0 a0 s p -> (if r then rr_node (ns_args s) <> None else True) ->
  exists p', held p0 a0 (put_node r s) p' /\ pr_buf p' = pr_buf p /\
    rr_node (ns_args (put_node r s)) = (if r then None else rr_node (ns_args s)).
Proof.
  intros Hh Hr. destruct r; [|by exists p]. unfold put_node.
  destruct (rr_node (ns_args s)) as [n|] eqn:En; [|done]. destruct Hh.
  destruct p as [psock pbuf pnode pseq]; simpl in *; subst psock pnode.
  exists (MkProto None pbuf None pseq). split; [|done]. constructor; simpl; auto.
  rewrite (proto_run_snoc _ _ _ _ held_run0). simpl. by rewrite ?En, !bool_decide_true by done.
Qed.

Lemma put_node_out r (s : NodeState (M := M)) :
  rr_outRespBuf (ns_args (put_node r s)) = rr_outRespBuf (ns_args s) /\
  rr_outRespMsg (ns_args (put_node r s)) = rr_outRespMsg (ns_args s) /\
  rr_respMsgType (ns_args (put_node r s)) = rr_respMsgType (ns_args s).
Proof. unfold put_node. repeat case_match; done. Qed.
(** Every number is positive. *)
Definition grant_ok (e : NodeEnv) : Prop :=
  match ne_acquire e with inr (Some g) => gr_sequence g <> 0 | _ => True end.

Lemma held_free p0 a0 s p :
  held p0 a0 s p -> msgSequence (msgHeader (rr_requestMsg (ns_args s))) = 0 -> pr_seq p = None.
Proof.
  intros [] H0. destruct (decide (pr_seq p = None)) as [|Hp]; [done|].
  exfalso. apply held_number0; [done|]. unfold send_ok in held_send0.
  rewrite andb_true_iff, Z.eqb_eq in held_send0. lia.
Qed.

Lemma acquire_held p0 a0 s p g grp :
  held p0 a0 s p -> pr_buf p = false ->
  msgSequence (msgHeader (rr_requestMsg (ns_args s))) = 0 ->
  log_flag (msgFlags (msgHeader (rr_requestMsg (ns_args s)))) MSGHDRFLAG_HAS_SEQUENCE_NO = true ->
  gr_sequence g <> 0 ->
  let s' := upd_header (hdr_set_sequence (gr_sequence g) (gr_done g)) s in
  let s' := if gr_selective g then upd_header (hdr_add_flag MSGHDRFLAG_IS_SELECTIVE_ACK) s' else s' in
  exists p', held p0 a0 (MkNodeState (ns_args s') (ns_currentRetryNum s') (Some (gr_handle g)) grp
      (ns_indirect s') (ns_events s' ++ [Ev_acquireSeq (gr_handle g) (gr_sequence g)])) p' /\
    pr_buf p' = false.
Proof.
  intros Hh Hb H0 Hf Hg. pose proof (held_free _ _ _ _ Hh H0) as Hfree. destruct Hh.
  destruct p as [psock pbuf pnode pseq]; simpl in *; subst psock pbuf pseq.
  exists (MkProto None false pnode (Some (gr_handle g, gr_sequence g))). split; [|done].
  assert (forall a, Z.eqb a a && (false || log_flag (msgFlags (msgHeader (rr_requestMsg (ns_args s))))
    MSGHDRFLAG_HAS_SEQUENCE_NO) = true) as Hok by (intros; by rewrite Z.eqb_refl, Hf).
  destruct (gr_selective g); constructor; simpl; auto;
    try (rewrite (proto_run_snoc _ _ _ _ held_run0); simpl; by rewrite ?bool_decide_true by done);
    try (by apply Hok); by apply send_ok_lor; apply Hok.
Qed.

Lemma node_sequence_held e p0 a0 (s : NodeState (M := M)) :
  grant_ok e -> between p0 a0 s ->
  match node_sequence e s with
  | inl (c, s') => between p0 a0 s' /\ c <> FhgfsOpsErr_SUCCESS
  | inr s' => between p0 a0 s'
  end.
Proof.
  intros Hg (p & Hh & Hb & Hn & Ho). unfold node_sequence, grant_ok in *.
  destruct supportsSequenceNumbers; simpl negb; [|by exists p]. cbn match zeta.
  set (s1 := upd_header (hdr_add_flag MSGHDRFLAG_HAS_SEQUENCE_NO) s).
  assert (held p0 a0 s1 p) as Hh1 by by apply held_flag.
  destruct (negb _) eqn:E0; [by exists p|]. apply negb_false_iff, Z.eqb_eq in E0.
  destruct (ne_acquire e) as [err|[g|]].
  - split; [by exists p|]. case_match; discriminate.
  - destruct (acquire_held p0 a0 s1 p g true Hh1 Hb E0 (log_flag_added _) Hg) as (p' & Hh' & Hb').
    exists p'. split; [exact Hh'|]. by destruct (gr_selective g).
  - exists p. split; [|done]. pose proof (held_free _ _ _ _ Hh1 E0) as Hfree.
    destruct Hh1. constructor; simpl; auto. by rewrite Hfree.
Qed.

Lemma decision_result e c :
  match node_decision connRetriesEnabled e c with
  | Retry_never ret => (ret =? FhgfsOpsErr_SUCCESS) = (c =? FhgfsOpsErr_SUCCESS)
  | _ => (c =? FhgfsOpsErr_SUCCESS) = false
  end.
Proof.
  unfold node_decision, retry_decision.
  repeat case_match; simplify_eq; try done;
    repeat match goal with H : (_ =? _) = true |- _ => apply Z.eqb_eq in H; subst end; try done;
    destruct (Z.eqb_spec c FhgfsOpsErr_COMMTIMEDOUT); subst; try done.
  all: repeat match goal with H : (_ && _) = true |- _ => apply andb_true_iff in H as [? ?] end;
    repeat match goal with H : (_ =? _) = true |- _ => apply Z.eqb_eq in H; subst end; done.
Qed.

(** What a round leaves behind. *)
Definition step_ok (p0 : Proto) (a0 : RequestResponseArgs M) (st : NodeStep) : Prop :=
  match st with
  | Node_continue s => between p0 a0 s
  | Node_exit ret s => leaving p0 a0 ret s
  | Node_fault => True
  end.

(** The node of the round [s], taken by the round or the caller's. *)
Definition round_node (r : bool) (a0 : RequestResponseArgs M) (s : NodeState (M := M)) : Prop :=
  rr_node (ns_args s) <> None /\ rr_node a0 = (if r then None else rr_node (ns_args s)).

Lemma put_between p0 a0 s p r :
  held p0 a0 s p -> pr_buf p = false -> round_node r a0 s ->
  out_ok (ns_args s) FhgfsOpsErr_COMMUNICATION -> between p0 a0 (put_node r s).
Proof.
  intros Hh Hb [Hn1 Hn2] Ho.
  destruct (put_node_held _ _ _ _ r Hh) as (p' & Hh' & Hb' & Hn'); [by destruct r|].
  destruct (put_node_out r s) as (O1 & O2 & O3).
  exists p'. split_and!; [done|congruence|congruence|].
  unfold out_ok in *. simpl in *. by rewrite O1, O2.
Qed.

Lemma put_leaving p0 a0 s p r ret :
  held p0 a0 s p -> pr_buf p = (ret =? FhgfsOpsErr_SUCCESS) -> round_node r a0 s ->
  out_ok (ns_args s) ret -> leaving p0 a0 ret (put_node r s).
Proof.
  intros Hh Hb [Hn1 Hn2] Ho.
  destruct (put_node_held _ _ _ _ r Hh) as (p' & Hh' & Hb' & Hn'); [by destruct r|].
  destruct (put_node_out r s) as (O1 & O2 & O3).
  exists p'. split_and!; [done|congruence|congruence|].
  unfold out_ok in *. by rewrite O1, O2, O3.
Qed.

Lemma out_ok_result (a : RequestResponseArgs M) r r' :
  (r =? FhgfsOpsErr_SUCCESS) = (r' =? FhgfsOpsErr_SUCCESS) -> out_ok a r -> out_ok a r'.
Proof. unfold out_ok. by intros ->. Qed.

(** The state after the exchange of a round. *)
Lemma exchange_held e p0 a0 s p grp co :
  held p0 a0 s p -> pr_buf p = false -> rr_node (ns_args s) <> None ->
  __MessagingTk_requestResponseWithRRArgsComm kmalloc_ok fresh e (ns_args s) grp (ns_indirect s)
    None = Some co ->
  let s' := MkNodeState (co_args co) (ns_currentRetryNum s) (ns_handle s) (ns_group s)
              (co_indirect co) (ns_events s ++ co_events co) in
  held p0 a0 s' (proto_off p (co_ret co =? FhgfsOpsErr_SUCCESS)) /\
  rr_node (ns_args s') = rr_node (ns_args s) /\ out_ok (co_args co) (co_ret co).
Proof.
  intros Hh Hb Hn E s'. destruct Hh.
  destruct (comm_protocol _ _ _ p _ _ _ _ E) as (Hrun & Hview & Ho); try done; [congruence|].
  unfold request_view in Hview.
  injection Hview as V1 V2 V3 V4 V5 V6 V7 V8 V9 V10 V11 V12 V13 V14 V15.
  split; [|split; [simpl; congruence|done]].
  unfold send_ok, pr_number, mode_view in *.
  constructor; simpl; auto; try congruence.
  - by rewrite (proto_run_snoc _ _ _ _ held_run0), Hrun.
  - unfold send_ok, pr_number. simpl. by rewrite V8, V4.
  - unfold mode_view. simpl. congruence.
Qed.

Lemma node_exchange_ok e p0 a0 s p r :
  held p0 a0 s p -> pr_buf p = false -> round_node r a0 s ->
  step_ok p0 a0 (node_exchange kmalloc_ok fresh connRetriesEnabled e r s).
Proof.
  intros Hh Hb Hr. unfold node_exchange.
  destruct (__MessagingTk_requestResponseWithRRArgsComm _ _ _ _ _ _ _) as [co|] eqn:E; [|done].
  destruct (exchange_held _ _ _ _ _ _ _ Hh Hb (proj1 Hr) E) as (Hh' & Hn' & Ho).
  cbn zeta in Hh', Hn' |- *.
  set (s' := MkNodeState (co_args co) _ _ _ _ _) in *.
  assert (round_node r a0 s') as Hr' by (unfold round_node in *; by rewrite Hn').
  pose proof (decision_result (ne_retry e) (co_ret co)) as Hd.
  destruct (node_decision _ _ _) as [ret| |]; [..|destruct (has_retry _ _ _)].
  - eapply put_leaving; eauto. eapply out_ok_result; [|exact Ho]. done.
  - rewrite Hd in Hh'. eapply put_between with (p := proto_off p false); auto.
    + apply held_log; [by destruct Hh'; constructor|]. done.
    + eapply out_ok_result; [|exact Ho]. by rewrite Hd.
  - rewrite Hd in Hh'.
    destruct (drop_sequence_held p0 a0
      (ns_log (MessagingTk_waitBeforeRetry (ns_currentRetryNum s'))
         (ns_set_retryNum (u32 (ns_currentRetryNum s' + 1)) s')) (proto_off p false))
      as (p'' & Hh'' & Hb'' & Hn''); [|done|].
    { apply held_log; [by destruct Hh'; constructor|]. by apply idle_wait. }
    match type of Hh'' with held _ _ (drop_sequence ?x) _ =>
      destruct (drop_sequence_args x) as (D1 & D2 & D3) end.
    eapply put_between with (p := p''); auto.
    + unfold round_node in *. rewrite D1. done.
    + apply (out_ok_result _ _ FhgfsOpsErr_COMMUNICATION) in Ho; [|by rewrite Hd].
      unfold out_ok in *; simpl in *. by rewrite D2, D3.
  - by eapply put_leaving.
Qed.

(** The part of a round behind the choice of the node. *)
Definition node_go (targetStates mirrorBuddies : bool) (e : NodeEnv) (isMirrorGroup : bool)
    (nodeID : Z) (s : NodeState (M := M)) : NodeStep :=
  match node_check_state e isMirrorGroup targetStates mirrorBuddies (rr_rrFlags (ns_args s)) nodeID with
  | State_leave commRes => Node_exit commRes s
  | State_sleep =>
      let s := ns_log [Ev_sleep MSGTK_STATE_SLEEP_MS] s in
      if ne_fatal_sleep e then Node_exit FhgfsOpsErr_INTERRUPTED s
      else Node_continue (ns_set_retryNum 0 s)
  | State_usable =>
      match rr_node (ns_args s) with
      | Some _ => node_exchange kmalloc_ok fresh connRetriesEnabled e false s
      | None =>
          match ne_node e nodeID with
          | None => Node_exit FhgfsOpsErr_UNKNOWNNODE s
          | Some n =>
              node_exchange kmalloc_ok fresh connRetriesEnabled e true
                (ns_log [Ev_refNode n] (ns_set_args (rr_set_node (Some n) (ns_args s)) s))
          end
      end
  end.

Lemma node_round_unfold peer ts mb e s :
  node_round kmalloc_ok fresh connRetriesEnabled peer ts mb e s =
  match peer with
  | RRPeer_target target => node_go ts mb e false target s
  | RRPeer_group group =>
      let nodeID := MirrorBuddyGroupMapper_getPrimaryTargetID (ne_buddies e) (u16 group) in
      if nodeID =? 0 then Node_exit FhgfsOpsErr_UNKNOWNNODE s
      else match node_sequence e s with
           | inl (commRes, s) => Node_exit commRes s
           | inr s => node_go ts mb e true nodeID s
           end
  end.
Proof. done. Qed.

Lemma check_state_result e g ts mb flags nodeID c :
  node_check_state e g ts mb flags nodeID = State_leave c -> c <> FhgfsOpsErr_SUCCESS.
Proof. unfold node_check_state. intros E. repeat case_match; simplify_eq; discriminate. Qed.

Lemma between_sleep p0 a0 s ms :
  between p0 a0 s -> between p0 a0 (ns_set_retryNum 0 (ns_log [Ev_sleep ms] s)) /\
    between p0 a0 (ns_log [Ev_sleep ms] s).
Proof.
  intros (p & Hh & Hb & Hn & Ho).
  assert (held p0 a0 (ns_log [Ev_sleep ms] s) p) as Hl.
  { apply held_log; [done|]. cbn [proto_run]. by rewrite idle_sleep by (done || apply Hh). }
  split; exists p; split_and!; auto. by destruct Hl; constructor.
Qed.

Lemma node_go_ok ts mb e g nodeID p0 a0 s :
  between p0 a0 s -> step_ok p0 a0 (node_go ts mb e g nodeID s).
Proof.
  intros Hbt. unfold node_go.
  destruct (node_check_state _ _ _ _ _ _) as [|c|] eqn:Ec.
  - destruct Hbt as (p & Hh & Hb & Hn & Ho).
    destruct (rr_node (ns_args s)) as [n0|] eqn:En.
    + eapply node_exchange_ok; eauto. split; congruence.
    + destruct (ne_node e nodeID) as [n|].
      * eapply node_exchange_ok with (p := MkProto None false (Some n) (pr_seq p)).
        -- destruct Hh. constructor; simpl; auto.
           rewrite (proto_run_snoc _ _ _ _ held_run0). simpl. unfold pr_idle.
           by rewrite held_sock0, Hb, held_node0, En, !bool_decide_true by done.
        -- done.
        -- split; simpl; congruence.
      * apply between_leaves; [|discriminate]. by exists p; rewrite <- Hn, En.
  - apply between_leaves; [done|]. by eapply check_state_result.
  - destruct (between_sleep _ _ _ MSGTK_STATE_SLEEP_MS Hbt) as [H1 H2].
    cbn zeta. case_match; [|done]. by apply between_leaves.
Qed.

Lemma node_round_ok peer ts mb e p0 a0 s :
  grant_ok e -> between p0 a0 s ->
  step_ok p0 a0 (node_round kmalloc_ok fresh connRetriesEnabled peer ts mb e s).
Proof.
  intros Hg Hbt. rewrite node_round_unfold. destruct peer as [t|g]; [by apply node_go_ok|].
  cbn zeta. case_match; [by apply between_leaves|].
  pose proof (node_sequence_held e p0 a0 s Hg Hbt) as Hs.
  destruct (node_sequence e s) as [[c s']|s'].
  - destruct Hs. by apply between_leaves.
  - by apply node_go_ok.
Qed.

(** A request that has not been sent yet. *)
Definition fresh_request (a : RequestResponseArgs M) : Prop :=
  msgSequence (msgHeader (rr_requestMsg a)) = 0 /\ rr_outRespBuf a = None /\ rr_outRespMsg a = None.

(** The end of a call: everything is given back, but the buffer of a response. *)
Definition call_ok (a : RequestResponseArgs M) (ret : Z) (a' : RequestResponseArgs M)
    (evs : list MsgEvent) : Prop :=
  proto_run (MkProto None false (rr_node a) None) evs =
    Some (MkProto None (ret =? FhgfsOpsErr_SUCCESS) (rr_node a) None) /\
  rr_node a' = rr_node a /\ mode_view a' = mode_view a /\ out_ok a' ret.

Lemma node_leave_ok a ret (s : NodeState (M := M)) ret' a' evs :
  leaving (MkProto None false (rr_node a) None) a ret s ->
  node_leave ret s = RR_return ret' a' evs -> ret' = ret /\ call_ok a ret a' evs.
Proof.
  intros (p & [] & Hb & Hn & Ho) [= <- <- <-]. split; [done|]. split_and!; auto.
  rewrite (proto_run_snoc _ _ _ _ held_run0).
  destruct p as [psock pbuf pnode pseq]; simpl in *; subst psock pbuf pnode.
  destruct pseq as [[h n]|]; simpl in held_seq0; rewrite <- held_seq0; simpl.
  - rewrite bool_decide_true by done. simpl. by rewrite Hn.
  - by rewrite Hn.
Qed.

Lemma node_loop_ok fuel peer ts mb env a s ret a' evs :
  (forall i, grant_ok (env i)) -> between (MkProto None false (rr_node a) None) a s ->
  node_loop kmalloc_ok fresh connRetriesEnabled fuel peer ts mb env s = RR_return ret a' evs ->
  call_ok a ret a' evs.
Proof.
  revert env s. induction fuel as [|fuel IH]; intros env s Hg Hbt E; [discriminate E|].
  cbn [node_loop] in E.
  pose proof (node_round_ok peer ts mb (env O) _ a s (Hg O) Hbt) as Hr.
  destruct (node_round _ _ _ _ _ _ _ _) as [s'|c s'|]; [|..|discriminate E].
  - eapply IH; [|exact Hr|exact E]. intros i. apply Hg.
  - by destruct (node_leave_ok _ _ _ _ _ _ Hr E) as [-> ?].
Qed.

Lemma fresh_between a :
  fresh_request a ->
  between (MkProto None false (rr_node a) None) a (MkNodeState a 0 None false false []).
Proof.
  intros (Hs & Ho1 & Ho2). exists (MkProto None false (rr_node a) None).
  split_and!; auto; [|by unfold out_ok]. constructor; simpl; auto.
  unfold send_ok. by rewrite Hs.
Qed.

(** ** The loop ends *)

(** An exchange of the round, with a request of this body and mode, reads outside of its buffers or of the received
    message. *)
Definition exchange_faults (a0 : RequestResponseArgs M) (e : NodeEnv) : Prop :=
  exists a grp ind, mode_view a = mode_view a0 /\
    __MessagingTk_requestResponseWithRRArgsComm kmalloc_ok fresh (rt_comm (ne_retry e)) a grp ind None = None.

(** The node that a round talks to. *)
Definition round_target (peer : RRPeer) (e : NodeEnv) : bool * Z :=
  match peer with
  | RRPeer_target target => (false, target)
  | RRPeer_group group =>
      (true, MirrorBuddyGroupMapper_getPrimaryTargetID (ne_buddies e) (u16 group))
  end.

(** No sleep for a target state, and no answer that asks for endless retries. *)
Definition calm_round (peer : RRPeer) (ts mb : bool) (e : NodeEnv) : Prop :=
  (forall flags, node_check_state e (round_target peer e).1 ts mb flags (round_target peer e).2
     <> State_sleep) /\
  (forall a grp ind co,
     __MessagingTk_requestResponseWithRRArgsComm (M := M) kmalloc_ok fresh (rt_comm (ne_retry e)) a
       grp ind None = Some co -> co_ret co <> FhgfsOpsErr_AGAIN).

(** A fatal signal is pending. *)
Definition killed_round (e : NodeEnv) : Prop :=
  rt_fatal (ne_retry e) = true /\ ne_fatal_sleep e = true.

Definition settled_round (peer : RRPeer) (ts mb : bool) (numRetries : Z) (e : NodeEnv) : Prop :=
  killed_round e \/ (0 < numRetries /\ calm_round peer ts mb e).

(** How a round that goes on changes the number of retries. *)
Definition counted (peer : RRPeer) (ts mb : bool) (e : NodeEnv) (s s' : NodeState (M := M)) : Prop :=
  ~ killed_round e /\
  ((ns_currentRetryNum s' = 0 /\ ~ calm_round peer ts mb e) \/
   (ns_currentRetryNum s' = u32 (ns_currentRetryNum s + 1) /\
    (rr_numRetries (ns_args s') = 0 \/ ns_currentRetryNum s < rr_numRetries (ns_args s')))).

Lemma put_node_counts r (s : NodeState (M := M)) :
  ns_currentRetryNum (put_node r s) = ns_currentRetryNum s /\
  rr_numRetries (ns_args (put_node r s)) = rr_numRetries (ns_args s).
Proof. unfold put_node. by repeat case_match. Qed.

Lemma drop_sequence_counts (s : NodeState (M := M)) :
  ns_currentRetryNum (drop_sequence s) = ns_currentRetryNum s /\
  rr_numRetries (ns_args (drop_sequence s)) = rr_numRetries (ns_args s).
Proof. unfold drop_sequence. by repeat case_match. Qed.

Lemma decision_again e c :
  node_decision connRetriesEnabled e c = Retry_again -> c = FhgfsOpsErr_AGAIN.
Proof.
  unfold node_decision, retry_decision. intros E. repeat case_match; simplify_eq.
  match goal with H : (_ && _) = true |- _ => apply andb_true_iff in H as [? _] end. lia.
Qed.

Lemma decision_killed e c :
  rt_fatal e = true -> exists ret, node_decision connRetriesEnabled e c = Retry_never ret.
Proof.
  unfold node_decision, retry_decision. intros ->. repeat case_match; eauto.
Qed.

Lemma node_exchange_counts peer ts mb e r s s' :
  node_exchange kmalloc_ok fresh connRetriesEnabled e r s = Node_continue s' -> counted peer ts mb e s s'.
Proof.
  unfold node_exchange. intros E.
  destruct (__MessagingTk_requestResponseWithRRArgsComm _ _ _ _ _ _ _) as [co|] eqn:Ec; [|done].
  cbn zeta in E. set (s1 := MkNodeState (co_args co) _ _ _ _ _) in *.
  assert (~ killed_round e) as Hk.
  { intros [Hk _]. destruct (decision_killed _ (co_ret co) Hk) as [ret Er]. by rewrite Er in E. }
  split; [done|]. destruct (node_decision _ _ _) as [ret| |] eqn:Ed; [done|..].
  - injection E as <-. left. split; [apply put_node_counts|]. intros [_ Ha].
    apply (Ha _ _ _ _ Ec). by eapply decision_again.
  - destruct (has_retry _ _ _) eqn:Eh; [|done]. injection E as <-. right.
    unfold has_retry in Eh. rewrite andb_true_iff, orb_true_iff, Z.eqb_eq, Z.ltb_lt in Eh.
    match goal with |- context [put_node r ?x] => destruct (put_node_counts r x) as [-> ->] end.
    match goal with |- context [drop_sequence ?x] => destruct (drop_sequence_counts x) as [-> ->] end.
    split; [done|]. apply Eh.
Qed.

Lemma node_go_counts peer ts mb e s s' :
  node_go ts mb e (round_target peer e).1 (round_target peer e).2 s = Node_continue s' -> counted peer ts mb e s s'.
Proof.
  unfold node_go. intros E. destruct (node_check_state _ _ _ _ _ _) eqn:Ec; [|done|].
  - destruct (rr_node _).
    + by eapply node_exchange_counts.
    + destruct (ne_node _ _); [|done]. apply (node_exchange_counts peer ts mb) in E. exact E.
  - cbn zeta in E. destruct (ne_fatal_sleep e) eqn:Ef; [done|]. injection E as <-.
    split; [intros [_ ?]; congruence|]. left. split; [done|]. intros [Hs _]. by apply Hs in Ec.
Qed.

Lemma node_sequence_counts e (s s' : NodeState (M := M)) :
  node_sequence e s = inr s' -> ns_currentRetryNum s' = ns_currentRetryNum s.
Proof.
  unfold node_sequence. intros E. repeat case_match; simplify_eq; try done; simpl; by case_match.
Qed.

Lemma node_round_counts peer ts mb e s s' :
  node_round kmalloc_ok fresh connRetriesEnabled peer ts mb e s = Node_continue s' ->
  counted peer ts mb e s s'.
Proof.
  rewrite node_round_unfold. intros E. destruct peer as [t|g]; [by apply (node_go_counts (RRPeer_target t))|].
  cbn zeta in E. case_match; [done|]. destruct (node_sequence e s) as [[c s1]|s1] eqn:Es; [done|].
  apply (node_go_counts (RRPeer_group g)) in E. unfold counted in *. by rewrite <- (node_sequence_counts _ _ _ Es).
Qed.

Lemma node_round_faults peer ts mb e p0 a0 s :
  grant_ok e -> between p0 a0 s ->
  node_round kmalloc_ok fresh connRetriesEnabled peer ts mb e s = Node_fault -> exchange_faults a0 e.
Proof.
  intros Hg Hbt.
  assert (forall r s0, mode_view (ns_args s0) = mode_view a0 ->
    node_exchange kmalloc_ok fresh connRetriesEnabled e r s0 = Node_fault -> exchange_faults a0 e) as Hx.
  { intros r s0 Eb. unfold node_exchange.
    destruct (__MessagingTk_requestResponseWithRRArgsComm _ _ _ _ _ _ _) eqn:E;
      [cbn zeta; by repeat case_match|]. intros _. by exists (ns_args s0), (ns_group s0), (ns_indirect s0). }
  assert (forall g n s0, between p0 a0 s0 -> node_go ts mb e g n s0 = Node_fault -> exchange_faults a0 e) as Hgo.
  { intros g n s0 (p & [] & _). unfold node_go. repeat case_match; try done; apply Hx; done. }
  rewrite node_round_unfold. destruct peer as [t|g]; [by apply Hgo|]. cbn zeta. case_match; [done|].
  pose proof (node_sequence_held e p0 a0 s Hg Hbt) as Hs.
  destruct (node_sequence e s) as [[c s']|s']; [done|]. by apply Hgo.
Qed.

Definition returns (r : RROut M) : Prop := exists ret a evs, r = RR_return ret a evs.
(** The call has returned, or an exchange of one of the rounds has faulted. *)
Definition ends (env : nat -> NodeEnv) (a : RequestResponseArgs M) (r : RROut M) : Prop :=
  returns r \/ (r = RR_fault /\ exists i, exchange_faults a (env i)).
Lemma ends_shift env a r : ends (fun i => env (S i)) a r -> ends env a r.
Proof. intros [Hr|[Hr [i Hi]]]; [by left|right]. split; [done|]. by exists (S i). Qed.

(** The rounds that a call gets along with. *)
Definition rounds_ok (env : nat -> NodeEnv) : Prop := forall i, grant_ok (env i).

Definition retries_ok (a : RequestResponseArgs M) (s : NodeState (M := M)) : Prop :=
  0 <= ns_currentRetryNum s /\
  (0 < rr_numRetries a -> ns_currentRetryNum s <= rr_numRetries a).

Lemma counted_retries peer ts mb e a s s' :
  0 <= rr_numRetries a < 2 ^ 32 -> mode_view (ns_args s') = mode_view a ->
  counted peer ts mb e s s' -> retries_ok a s -> retries_ok a s'.
Proof.
  intros Hn Hm (_ & [[H0 _]|[H1 H2]]) [Hr1 Hr2]; unfold retries_ok, mode_view, u32 in *.
  - rewrite H0. lia.
  - assert (rr_numRetries (ns_args s') = rr_numRetries a) as Ea by congruence. rewrite Ea in H2.
    rewrite H1. split; [apply Z.mod_pos_bound; lia|]. intros Hp.
    rewrite Z.mod_small by lia. lia.
Qed.

Lemma settled_counts peer ts mb e a s s' :
  0 <= rr_numRetries a < 2 ^ 32 -> mode_view (ns_args s') = mode_view a -> retries_ok a s ->
  settled_round peer ts mb (rr_numRetries a) e -> counted peer ts mb e s s' ->
  ns_currentRetryNum s < rr_numRetries a /\ ns_currentRetryNum s' = ns_currentRetryNum s + 1.
Proof.
  intros Hn Hm [Hr1 Hr2] [Hk|[Hp Hc]] (Hk' & [[_ Hc']|[H1 H2]]); try done.
  assert (rr_numRetries (ns_args s') = rr_numRetries a) as Ea by (unfold mode_view in Hm; congruence).
  unfold u32 in H1. rewrite Z.mod_small in H1 by lia. lia.
Qed.

(** The end of the loop, or its next round. *)
Lemma node_loop_step peer ts mb env fuel p0 a s :
  rounds_ok env -> between p0 a s ->
  ends env a (node_loop kmalloc_ok fresh connRetriesEnabled (S fuel) peer ts mb env s) \/
  (exists s', between p0 a s' /\ mode_view (ns_args s') = mode_view a /\
    counted peer ts mb (env O) s s' /\
    node_loop kmalloc_ok fresh connRetriesEnabled (S fuel) peer ts mb env s =
    node_loop kmalloc_ok fresh connRetriesEnabled fuel peer ts mb (fun i => env (S i)) s').
Proof.
  intros He Hbt. pose proof (He O) as Hg. cbn [node_loop].
  pose proof (node_round_ok peer ts mb (env O) _ _ _ Hg Hbt) as Hok.
  pose proof (node_round_counts peer ts mb (env O) s) as Hc.
  pose proof (node_round_faults peer ts mb (env O) _ _ _ Hg Hbt) as Hf.
  destruct (node_round _ _ _ _ _ _ _ _) as [s'|ret s'|]; [right|left; left|left; right; eauto].
  - exists s'. split_and!; auto. by destruct Hok as (p & [] & _).
  - unfold node_leave, returns. eauto.
Qed.

Lemma settled_loop_returns fuel peer ts mb env p0 a s :
  rounds_ok env -> between p0 a s -> retries_ok a s ->
  0 <= rr_numRetries a < 2 ^ 32 ->
  (forall i, settled_round peer ts mb (rr_numRetries a) (env i)) ->
  (Z.to_nat (rr_numRetries a - ns_currentRetryNum s) < fuel)%nat ->
  ends env a (node_loop kmalloc_ok fresh connRetriesEnabled fuel peer ts mb env s).
Proof.
  revert env s. induction fuel as [|fuel IH]; intros env s He Hbt Hr Hn Hs Hf; [lia|].
  destruct (node_loop_step peer ts mb env fuel p0 a s He Hbt) as [?|(s' & Hbt' & Hm & Hc & ->)]; [done|].
  destruct (settled_counts _ _ _ _ _ _ _ Hn Hm Hr (Hs O) Hc) as [Hlt Hnum].
  apply ends_shift, IH; auto; [intros i; apply He|by eapply counted_retries|lia].
Qed.

Lemma node_loop_returns N fuel peer ts mb env p0 a s :
  rounds_ok env -> between p0 a s -> retries_ok a s ->
  0 <= rr_numRetries a < 2 ^ 32 ->
  (forall i, (N <= i)%nat -> settled_round peer ts mb (rr_numRetries a) (env i)) ->
  (N + Z.to_nat (rr_numRetries a) + 1 <= fuel)%nat ->
  ends env a (node_loop kmalloc_ok fresh connRetriesEnabled fuel peer ts mb env s).
Proof.
  revert fuel env s. induction N as [|N IH]; intros fuel env s He Hbt Hr Hn Hs Hf.
  { eapply settled_loop_returns; eauto; [intros i; apply Hs; lia|]. destruct Hr. lia. }
  destruct fuel as [|fuel]; [lia|].
  destruct (node_loop_step peer ts mb env fuel p0 a s He Hbt) as [?|(s' & Hbt' & Hm & Hc & ->)]; [done|].
  apply ends_shift, IH; auto; [intros i; apply He|by eapply counted_retries|intros i Hi; apply Hs; lia|lia].
Qed.

End Rounds.

(** ** Properties of calls *)

Section Calls.
Context {M : Type} `{NetMessageOps M}.
Context (kmalloc_ok : Z -> bool) (fresh : forall k, kind_type k) (connRetriesEnabled : bool).

(** C19: a call to a target or a mirror group follows the protocol of its resources, whatever the
    connections, signals, target states and answers of the rounds are: a request is only sent over a
    connection of a node that is referenced, from a buffer that is held, and with the sequence
    number that is held for the group (0 without one); nothing is held while the call sleeps but the
    node and the number; every connection is released or invalidated once; and at the end the
    connection, the number and the node are given back, and only a successful call keeps a buffer,
    together with a response of the expected type, which is an object of the class of that type. *)
Theorem node_retry_protocol fuel peer ts mb env (a a' : RequestResponseArgs M) ret evs :
  (forall i, grant_ok (env i)) -> fresh_request a ->
  __MessagingTk_requestResponseNodeRetry kmalloc_ok fresh connRetriesEnabled fuel peer ts mb env a =
    RR_return ret a' evs ->
  call_ok a ret a' evs.
Proof.
  intros Hg Hf E. eapply node_loop_ok; [exact Hg|by apply fresh_between|exact E].
Qed.

(** C20: a call to a target or a mirror group ends.  After [N] rounds in which anything may happen
    (answers that ask for another try and unusable target states, which both reset the number of
    retries), it takes at most [numRetries] further rounds and one more, if the states are usable
    from then on and nobody asks for another try, or if a fatal signal is pending then (also
    with unlimited retries).  It ends with a result, unless an exchange with one of the answers
    reads outside of its buffers: then it ends with that fault. *)
Theorem node_retry_returns N fuel peer ts mb env (a : RequestResponseArgs M) :
  (forall i, grant_ok (env i)) -> fresh_request a ->
  0 <= rr_numRetries a < 2 ^ 32 ->
  (forall i, (N <= i)%nat -> settled_round kmalloc_ok fresh (M := M) peer ts mb (rr_numRetries a) (env i)) ->
  (N + Z.to_nat (rr_numRetries a) + 1 <= fuel)%nat ->
  ends kmalloc_ok fresh env a
    (__MessagingTk_requestResponseNodeRetry kmalloc_ok fresh connRetriesEnabled fuel peer ts mb env a).
Proof.
  intros He Hf Hn Hs Hfuel. eapply node_loop_returns; eauto using fresh_between.
  unfold retries_ok. simpl. lia.
Qed.
Lemma retry_decision_result e c :
  match retry_decision connRetriesEnabled e c with
  | Retry_never ret => (ret =? FhgfsOpsErr_SUCCESS) = (c =? FhgfsOpsErr_SUCCESS)
  | _ => (c =? FhgfsOpsErr_SUCCESS) = false
  end.
Proof. unfold retry_decision. repeat case_match; simplify_eq; try done; lia. Qed.

Lemma rr_loop_ok fuel env cur (a0 a a' : RequestResponseArgs M) ind evs ret evs' p :
  pr_sock p = None -> pr_buf p = false -> pr_node p <> None ->
  send_ok p (msgSequence (msgHeader (rr_requestMsg a0))) (msgFlags (msgHeader (rr_requestMsg a0)))
    = true ->
  request_view a = request_view a0 -> proto_run p evs = Some p ->
  rr_loop kmalloc_ok fresh connRetriesEnabled fuel env None cur a ind evs = RR_return ret a' evs' ->
  proto_run p evs' = Some (proto_off p (ret =? FhgfsOpsErr_SUCCESS)) /\
  request_view a' = request_view a0 /\ out_ok a' ret.
Proof.
  intros Hs Hb Hn Hsend. revert env cur a ind evs.
  induction fuel as [|fuel IH]; intros env cur a ind evs Hv Hrun E; [done|]. cbn [rr_loop] in E.
  destruct (__MessagingTk_requestResponseWithRRArgsComm _ _ _ _ _ _ _) as [co|] eqn:Ec; [|done].
  destruct (comm_protocol _ _ _ p _ _ _ _ Ec) as (Hr & Hv' & Ho); auto.
  { unfold request_view in Hv. injection Hv as _ _ _ Ef _ _ _ Es _ _ _ _ _ _ _. by rewrite Ef, Es. }
  cbn zeta in E. pose proof (retry_decision_result (env O) (co_ret co)) as Hd.
  assert (proto_run p (evs ++ co_events co) =
          Some (proto_off p (co_ret co =? FhgfsOpsErr_SUCCESS))) as Hr'
    by by rewrite (proto_run_snoc _ _ _ _ Hrun).
  assert (proto_off p false = p) as Hp by (destruct p; simpl in *; by subst).
  destruct (retry_decision _ _ _) as [r| |]; [|rewrite Hd, Hp in Hr'..].
  - injection E as <- <- <-. rewrite Hd. split_and!; [done|congruence|by eapply out_ok_result].
  - eapply IH; [|..|exact E]; [congruence|]. rewrite app_assoc, (proto_run_snoc _ _ _ _ Hr').
    cbn [proto_run]. by rewrite idle_sleep.
  - destruct (has_retry _ _ _).
    + eapply IH; [|..|exact E]; [congruence|]. rewrite app_assoc, (proto_run_snoc _ _ _ _ Hr').
      by apply idle_wait.
    + injection E as <- <- <-. rewrite Hr'. split_and!; [by f_equal|congruence|].
      eapply out_ok_result; [|exact Ho]. by rewrite Hd.
Qed.

(** A call to a given node over its connections leaves nothing behind but the buffer of a
    response, and does not change the request. *)
Theorem rr_retry_protocol fuel env (a a' : RequestResponseArgs M) ret evs n :
  rr_node a = Some n -> fresh_request a ->
  MessagingTk_requestResponseWithRRArgs kmalloc_ok fresh connRetriesEnabled fuel env a =
    RR_return ret a' evs ->
  proto_run (MkProto None false (Some n) None) evs =
    Some (MkProto None (ret =? FhgfsOpsErr_SUCCESS) (Some n) None) /\
  request_view a' = request_view a /\ out_ok a' ret.
Proof.
  intros Hn (Hs & _) E. eapply (rr_loop_ok _ _ _ a _ _ _ _ _ _ (MkProto None false (Some n) None)) in E;
    eauto.
  unfold send_ok. by rewrite Hs.
Qed.
End Calls.

(** ** Concrete calls *)

Definition sample_request : RequestResponseArgs BumpFileVersionMsg :=
  rr_set_mode 3 REQUESTRESPONSEARGS_FLAG_ALLOWSTATESLEEP MessagingTkBufType_kmalloc
    (RequestResponseArgs_prepare None
       (BumpFileVersionMsg_init 0 (EntryInfo_init (MkNodeOrGroup 7 true) [] [] [] 2 0) false None)
       NETMSGTYPE_BumpFileVersionResp).

(** A message of a server: its type and its payload. *)
Definition sample_message (type sequence : Z) (payload : list byte) : list byte :=
  let len := NETMSG_HEADER_LENGTH + zlen payload in
  enc_header len (MkNetMessageHeader len 0 0 0 type 0 0 sequence 0) ++ payload.
Definition sample_generic (code sequence : Z) : list byte :=
  sample_message NETMSGTYPE_GenericResponse sequence (le_split 4 code ++ le_split 4 0 ++ le_split 1 0).
Definition sample_success : list byte :=
  sample_message NETMSGTYPE_BumpFileVersionResp 0 (le_split 4 FhgfsOpsErr_SUCCESS).

(** A round in which the connection 11 of node 1 gives this answer; without an answer the receive
    call times out. *)
Definition sample_comm (send_works : bool) (answer : option (list byte)) : CommEnv :=
  MkCommEnv (Some 11) false 65536 (fun n => replicate (Z.to_nat n) Byte.x00) true
    (fun l => if send_works then zlen l else -1)
    (match answer with Some l => [Recv (take (Z.to_nat NETMSG_MIN_LENGTH) l)] | None => [] end)
    (match answer with Some l => [Recv (drop (Z.to_nat NETMSG_MIN_LENGTH) l)] | None => [] end)
    false header0.
Definition sample_round (grant : option Grant) (c : CommEnv) : NodeEnv :=
  MkNodeEnv {[7 := MkMirrorBuddyGroup 7 1 2 0 0 [] 0 [] 0 0 0]} (inr grant)
    {[1 := MkCombinedTargetState TargetReachabilityState_ONLINE TargetConsistencyState_GOOD]} false
    (fun _ => Some 1) (MkRetryEnv c false true).

Definition sample_call (env : nat -> NodeEnv) : RROut BumpFileVersionMsg :=
  __MessagingTk_requestResponseNodeRetry (fun _ => true) fresh0 true 8 (RRPeer_group 7) true true env
    sample_request.

(** The first number fails, the second one is answered. *)
Definition sample_env (i : nat) : NodeEnv :=
  match i with
  | O => sample_round (Some (MkGrant 0 51 48 true))
           (sample_comm true (Some (sample_generic GenericRespMsgCode_INDIRECTCOMMERR 0)))
  | _ => sample_round (Some (MkGrant 1 52 50 false)) (sample_comm true (Some sample_success))
  end.
Definition sample_events (r : RROut BumpFileVersionMsg) : Z * list MsgEvent :=
  match r with RR_return ret _ evs => (ret, evs) | _ => (-1, []) end.

Lemma sample_grants i : grant_ok (sample_env i).
Proof. by destruct i. Qed.

Lemma node_retry_protocol_witness :
  exists a' evs, sample_call sample_env = RR_return FhgfsOpsErr_SUCCESS a' evs /\
    length evs = 17%nat /\ call_ok sample_request FhgfsOpsErr_SUCCESS a' evs.
Proof.
  eexists _, _. split; [vm_compute; reflexivity|]. split; [reflexivity|].
  eapply (node_retry_protocol (fun _ => true) fresh0 true 8 (RRPeer_group 7) true true sample_env).
  - exact sample_grants.
  - done.
  - vm_compute. reflexivity.
Defined.

(** In the first round the state of the node is unknown, in the second one the server asks for another try, and then its
    connections break when the request is sent. *)
Definition breaking_env (i : nat) : NodeEnv :=
  let round := sample_round (Some (MkGrant i (51 + Z.of_nat i) 48 true)) in
  match i with
  | O => MkNodeEnv (ne_buddies (round (sample_comm false None))) (inr None) ∅ false (fun _ => Some 1)
           (ne_retry (round (sample_comm false None)))
  | 1%nat => round (sample_comm true (Some (sample_generic GenericRespMsgCode_TRYAGAIN 0)))
  | _ => round (sample_comm false None)
  end.

Lemma broken_exchange {M} `{NetMessageOps M} kmalloc_ok fresh e (a : RequestResponseArgs M) g ind co :
  (forall l, cm_send e l = -1) ->
  __MessagingTk_requestResponseWithRRArgsComm kmalloc_ok fresh e a g ind None = Some co -> cm_recv1 e = [] ->
  co_ret co <> FhgfsOpsErr_AGAIN.
Proof.
  intros Hs. unfold __MessagingTk_requestResponseWithRRArgsComm, comm_over.
  destruct (cm_conn e); [|by intros [= <-]].
  destruct (NetMessage_getMsgLength _) as [[len msg]|]; [|done]. cbn [mbind option_bind]. cbv zeta.
  set (buf0 := Some (cm_buf e _)). set (b1 := andb _ (Z.ltb _ _)). set (b2 := andb _ (negb (cm_kmalloc e))). clearbody b1 b2 buf0.
  destruct b1; [by intros [= <-]|]. destruct b2; [by intros [= <-]|].
  destruct (NetMessage_serialize _ _ _) as [[[ok msg'] [buf|]]|]; [|done..]. cbn [mbind option_bind].
  rewrite Hs. destruct (negb _); [by intros [= <-]|].
  unfold comm_response. intros E Hr. rewrite Hr in E. cbn in E. injection E as <-. cbn. by repeat case_match.
Qed.

Lemma node_retry_returns_witness : sample_call breaking_env <> RR_out_of_fuel /\ returns (sample_call breaking_env) /\
  (sample_events (sample_call breaking_env)).1 = FhgfsOpsErr_COMMUNICATION.
Proof.
  assert (H : ends (fun _ => true) fresh0 breaking_env sample_request (sample_call breaking_env)).
  { apply (node_retry_returns (fun _ => true) fresh0 true 2 8 (RRPeer_group 7) true true breaking_env).
    - by intros [|[|i]].
    - done.
    - done.
    - intros [|[|i]] Hi; [lia|lia|]. right. split; [done|]. split; [by intros flags|].
      intros a g ind co E. refine (broken_exchange _ _ _ _ _ _ _ _ E _); reflexivity.
    - vm_compute. lia. }
  split; [vm_compute; discriminate|]. split; [|vm_compute; reflexivity].
  destruct H as [H|[H _]]; [exact H|]. exfalso. revert H. vm_compute. discriminate.
Defined.

(** ** Faults *)

(** The flag for a selective acknowledgment is never taken back: if the first number of a request
    came with a selective acknowledgment and a second number is needed, a cumulative
    acknowledgment ("everything up to 50") is sent as a selective one. *)
Theorem selective_ack_sticks e (s s' : NodeState (M := BumpFileVersionMsg)) g :
  ne_acquire e = inr (Some g) -> gr_selective g = false ->
  node_sequence e s = inr s' ->
  log_flag (msgFlags (msgHeader (rr_requestMsg (ns_args s)))) MSGHDRFLAG_IS_SELECTIVE_ACK = true ->
  log_flag (msgFlags (msgHeader (rr_requestMsg (ns_args s')))) MSGHDRFLAG_IS_SELECTIVE_ACK = true.
Proof.
  intros Ha Hg E Hf. unfold node_sequence in E. cbn [negb supportsSequenceNumbers] in E.
  repeat case_match; simplify_eq; simpl; by auto using log_flag_lor.
Qed.

Example cumulative_ack_sent_as_selective :
  gr_selective (MkGrant 1 52 50 false) = false /\
  (sample_events (sample_call sample_env)).2 !! 13%nat =
    Some (Ev_send 52 50 (Z.lor MSGHDRFLAG_HAS_SEQUENCE_NO MSGHDRFLAG_IS_SELECTIVE_ACK)).
Proof. by vm_compute. Qed.

(** The result of a time-out depends on a flag that only controls the log: the first time-out ends
    the call, but after a failed send (which sets the flag) the same time-out is retried. *)
Definition timeout_env (i : nat) : RetryEnv :=
  MkRetryEnv (sample_comm true None) false true.
Definition send_error_env (i : nat) : RetryEnv :=
  match i with
  | O => MkRetryEnv (sample_comm false None) false true
  | S i => timeout_env i
  end.
Definition is_send (ev : MsgEvent) : bool := match ev with Ev_send _ _ _ => true | _ => false end.
Definition sample_node_call (env : nat -> RetryEnv) : Z * nat :=
  match MessagingTk_requestResponseWithRRArgs (fun _ => true) fresh0 true 8 env
          (rr_set_node (Some 1) sample_request) with
  | RR_return ret _ evs => (ret, length (List.filter is_send evs))
  | _ => (-1, O)
  end.
Example timeout_result_depends_on_log_flag :
  sample_node_call timeout_env = (FhgfsOpsErr_COMMTIMEDOUT, 1%nat) /\
  sample_node_call send_error_env = (FhgfsOpsErr_COMMUNICATION, 4%nat).
Proof. by vm_compute. Qed.

(** A group without a base for its numbers grants no number, so that the call holds no reference on
    the group; the base in the answer is then stored in it. *)
Definition no_base_env (i : nat) : NodeEnv :=
  match i with
  | O => sample_round None (sample_comm true (Some (sample_generic GenericRespMsgCode_NEWSEQNOBASE 900)))
  | _ => sample_round (Some (MkGrant 1 901 900 false)) (sample_comm true (Some sample_success))
  end.
Example base_is_learnt_without_reference :
  sample_events (sample_call no_base_env) =
    (FhgfsOpsErr_SUCCESS,
     [Ev_refNode 1; Ev_acquireSock 11; Ev_getBuf; Ev_send 0 0 MSGHDRFLAG_HAS_SEQUENCE_NO;
      Ev_setSeqNoBase 900; Ev_releaseSock 11; Ev_putBuf; Ev_putNode 1;
      Ev_acquireSeq 1 901; Ev_refNode 1; Ev_acquireSock 11; Ev_getBuf;
      Ev_send 901 900 MSGHDRFLAG_HAS_SEQUENCE_NO; Ev_releaseSock 11; Ev_putNode 1; Ev_releaseSeq 1]).
Proof. by vm_compute. Qed.
