(* ===== verification/NodeStore.v ===== *)
(** * Nodes and node stores

    Models [common/nodes/Node.c] and [.h], [common/nodes/NodeTree.c] and [.h],
    [nodes/NodeStoreEx.c] and the handlers of incoming Heartbeat and RemoveNode messages
    ([common/net/message/nodes]) of [client_module/source].

    Nodes are shared objects with a reference count: they live in a heap from addresses to
    [Node] records, and an operation on them is a state monad over the heap.  The result
    [None] is an access to a node that has been freed, or another undefined access that is
    named where it can occur.  The red-black tree of a store is a finite map from numeric IDs
    to addresses, visited in ascending order.  A critical section of a store is one function;
    results of allocations and clocks are parameters.  Log output is left out. *)

From stdpp Require Import strings pretty.
From S2P Require Import Prelude StorageErrors Wire Serialization StorageFormats NetMessageTypes NetMessage BuddyGroup Mappers MessagesSession MessagesNodes Nics ConnPool.

(** ** Nodes *)

Record Node := MkNode {
  n_numID : Z;
  n_alias : option (list byte);
  n_nodeType : Z;
  n_aliasWithTypeStr : option (list byte);
  n_connPool : NodeConnPool;
  n_portUDP : Z;
  n_lastHeartbeatT : Time;
  n_isActive : bool;
  n_references : Z
}.

Definition text (s : string) : list byte := String.list_byte_of_string s.
Arguments text s%_string.
Definition text_null : list byte := text "(null)".
Definition text_uint (n : Z) : list byte := text (pretty n).

Definition Node_nodeTypeToStr (nodeType : Z) : list byte :=
  if nodeType =? NODETYPE_Invalid then text "<undefined/invalid>"
  else if nodeType =? NODETYPE_Meta then text "beegfs-meta"
  else if nodeType =? NODETYPE_Storage then text "beegfs-storage"
  else if nodeType =? NODETYPE_Client then text "beegfs-client"
  else if nodeType =? NODETYPE_Mgmt then text "beegfs-mgmtd"
  else text "<unknown>".

Definition NodeString_size : Z := 64.
(** The C string in the buffer; the kernel prints a NULL pointer as [(null)]. *)
Definition putToNodeString (from : option (list byte)) : list byte :=
  let s := default text_null from in
  if NodeString_size <=? zlen s then take (Z.to_nat (NodeString_size - 4)) s ++ text "..."
  else s.
Definition Node_copyAlias (this : Node) : list byte := putToNodeString (n_alias this).
Definition Node_copyAliasWithTypeStr (this : Node) : list byte :=
  putToNodeString (n_aliasWithTypeStr this).

(** The results of the two allocations. *)
Record AliasEnv := MkAliasEnv { ae_strDup : bool; ae_kasprintf : bool }.

Definition set_aliases (alias str : option (list byte)) (this : Node) : Node :=
  MkNode (n_numID this) alias (n_nodeType this) str (n_connPool this) (n_portUDP this)
    (n_lastHeartbeatT this) (n_isActive this) (n_references this).

Definition Node_setAliasAndTypeStr (e : AliasEnv) (this : Node) (aliasInput : option (list byte))
    : bool * Node :=
  let alias := if ae_strDup e then aliasInput else None in
  if bool_decide (aliasInput <> None) && negb (ae_strDup e) then (false, this)
  else
    let nextAlias := default text_null (match alias with Some a => Some a | None => n_alias this end) in
    let typeStr := Node_nodeTypeToStr (n_nodeType this) in
    let str :=
      if n_nodeType this =? NODETYPE_Client
      then nextAlias ++ text " [" ++ typeStr ++ text ":?]"
      else nextAlias ++ text " [" ++ typeStr ++ text ":" ++ text_uint (n_numID this) ++
           text "]" in
    if ae_kasprintf e
    then (true, set_aliases (match alias with Some a => Some a | None => n_alias this end) (Some str) this)
    else (false, this).

(** [cfg] and [localRdmaNicList]: for the connection pool. *)
Definition Node_init (e : AliasEnv) (cfg : PoolConfig) (now : Time) (nodeID : list byte)
    (nodeNumID nodeType portUDP portTCP : Z) (nicList : list NicAddress)
    (localRdmaNicList : option (list LocalNic)) : Node :=
  (Node_setAliasAndTypeStr e
     (MkNode nodeNumID None nodeType None (NodeConnPool_init cfg portTCP nicList localRdmaNicList)
        portUDP now false 1) (Some (cstr nodeID))).2.

Definition set_connPool (p : NodeConnPool) (this : Node) : Node :=
  MkNode (n_numID this) (n_alias this) (n_nodeType this) (n_aliasWithTypeStr this) p
    (n_portUDP this) (n_lastHeartbeatT this) (n_isActive this) (n_references this).
Definition set_portUDP (p : Z) (this : Node) : Node :=
  MkNode (n_numID this) (n_alias this) (n_nodeType this) (n_aliasWithTypeStr this)
    (n_connPool this) p (n_lastHeartbeatT this) (n_isActive this) (n_references this).
Definition set_references (r : Z) (this : Node) : Node :=
  MkNode (n_numID this) (n_alias this) (n_nodeType this) (n_aliasWithTypeStr this)
    (n_connPool this) (n_portUDP this) (n_lastHeartbeatT this) (n_isActive this) r.

Definition Node_updateLastHeartbeatT (now : Time) (this : Node) : Node :=
  MkNode (n_numID this) (n_alias this) (n_nodeType this) (n_aliasWithTypeStr this)
    (n_connPool this) (n_portUDP this) now (n_isActive this) (n_references this).
Definition Node_setIsActive (isActive : bool) (this : Node) : Node :=
  MkNode (n_numID this) (n_alias this) (n_nodeType this) (n_aliasWithTypeStr this)
    (n_connPool this) (n_portUDP this) (n_lastHeartbeatT this) isActive (n_references this).
Definition Node_setNumID (numID : Z) (this : Node) : Node :=
  MkNode numID (n_alias this) (n_nodeType this) (n_aliasWithTypeStr this)
    (n_connPool this) (n_portUDP this) (n_lastHeartbeatT this) (n_isActive this) (n_references this).
Definition Node_getIsActive (this : Node) : bool := n_isActive this.
Definition Node_getPortTCP (this : Node) : Z := cp_streamPort (n_connPool this).
Definition Node_cloneNicList (this : Node) : list NicAddress :=
  ListTk_cloneNicAddressList (cp_nicList (n_connPool this)) true.

Definition Node_updateInterfaces (portUDP portTCP : Z) (nicList : list NicAddress) (this : Node)
    : bool * Node :=
  let udpChanged := negb (portUDP =? 0) && negb (portUDP =? n_portUDP this) in
  let '(poolChanged, pool) := NodeConnPool_updateInterfaces portTCP nicList (n_connPool this) in
  (udpChanged || poolChanged,
   set_connPool pool (if udpChanged then set_portUDP portUDP this else this)).

(** ** The heap of nodes *)

Abbreviation Heap := (gmap Z Node).
Definition NM (A : Type) : Type := Heap -> option (A * Heap).
#[export] Instance NM_ret : MRet NM := fun A x h => Some (x, h).
#[export] Instance NM_bind : MBind NM := fun A B f m h => '(x, h') ← m h; f x h'.

Definition nm_load (node : Z) : NM Node := fun h => n ← h !! node; Some (n, h).
Definition nm_modify (node : Z) (f : Node -> Node) : NM unit :=
  fun h => n ← h !! node; Some (tt, <[node := f n]> h).

Definition Node_get (node : Z) : NM unit :=
  nm_modify node (fun n => set_references (n_references n + 1) n).
(** The last reference frees the node; the result tells whether it was the last one. *)
Definition Node_put (node : Z) : NM bool := fun h =>
  n ← h !! node;
  if n_references n =? 1 then Some (true, delete node h)
  else Some (false, <[node := set_references (n_references n - 1) n]> h).

(** ** The tree *)

Record NodeTree := MkNodeTree { nt_nodes : gmap Z Z; nt_size : Z }.

Definition NodeTree_init : NodeTree := MkNodeTree ∅ 0.
Definition NodeTree_find (this : NodeTree) (nodeNumID : Z) : option Z := nt_nodes this !! nodeNumID.

(** [rb_next] follows the links of the node itself; [None] (undefined): the node is not in the
    tree any more.  The inner [None]: it is the last one. *)
Definition NodeTree_getNext (this : NodeTree) (node : Z) : NM (option Z) :=
  n ← nm_load node;
  if bool_decide (nt_nodes this !! n_numID n = Some node)
  then mret (match list_find (fun x => n_numID n < x.1) (rb_elements (nt_nodes this)) with
             | Some (_, (_, next)) => Some next
             | None => None
             end)
  else (fun _ => None).

Definition NodeTree_insert (this : NodeTree) (nodeNumID node : Z) : bool * NodeTree :=
  match nt_nodes this !! nodeNumID with
  | Some _ => (false, this)
  | None => (true, MkNodeTree (<[nodeNumID := node]> (nt_nodes this)) (u32 (nt_size this + 1)))
  end.

Definition NodeTree_erase (this : NodeTree) (nodeNumID : Z) : NM (bool * NodeTree) :=
  match NodeTree_find this nodeNumID with
  | Some node =>
      _ ← Node_put node;
      mret (true, MkNodeTree (delete nodeNumID (nt_nodes this)) (u32 (nt_size this - 1)))
  | None => mret (false, this)
  end.

Fixpoint put_all (nodes : list Z) : NM unit :=
  match nodes with [] => mret tt | n :: nodes' => _ ← Node_put n; put_all nodes' end.
Definition NodeTree_uninit (this : NodeTree) : NM unit := put_all (rb_elements (nt_nodes this)).*2.

(** ** The store *)

(** [ns_newNodeAppeared]: the completion of a waiting thread, and whether it was completed. *)
Record NodeStoreEx := MkNodeStoreEx {
  ns_nodeTree : NodeTree;
  ns_newNodeAppeared : option bool;
  ns_rootOwner : NodeOrGroup;
  ns_storeType : Z
}.

Definition NodeStoreEx_init (storeType : Z) : NodeStoreEx :=
  MkNodeStoreEx NodeTree_init None (NodeOrGroup_fromGroup 0) storeType.
Definition set_tree (t : NodeTree) (this : NodeStoreEx) : NodeStoreEx :=
  MkNodeStoreEx t (ns_newNodeAppeared this) (ns_rootOwner this) (ns_storeType this).
Definition set_appeared (c : option bool) (this : NodeStoreEx) : NodeStoreEx :=
  MkNodeStoreEx (ns_nodeTree this) c (ns_rootOwner this) (ns_storeType this).
Definition set_rootOwner (o : NodeOrGroup) (this : NodeStoreEx) : NodeStoreEx :=
  MkNodeStoreEx (ns_nodeTree this) (ns_newNodeAppeared this) o (ns_storeType this).
Definition NodeStoreEx_uninit (this : NodeStoreEx) : NM unit := NodeTree_uninit (ns_nodeTree this).

(** The update of a node that is in the store already, from the new object [n]. *)
Definition update_active (e : AliasEnv) (now : Time) (n active : Node) : Node :=
  let incomingAlias := Node_copyAlias n in
  let active :=
    if negb (bool_decide (incomingAlias = [])) && negb (bool_decide (incomingAlias = Node_copyAlias active))
    then (Node_setAliasAndTypeStr e active (Some incomingAlias)).2 else active in
  (Node_updateInterfaces (n_portUDP n) (Node_getPortTCP n) (Node_cloneNicList n)
     (Node_updateLastHeartbeatT now active)).2.

Definition NodeStoreEx_addOrUpdateNode (e : AliasEnv) (now : Time) (this : NodeStoreEx) (node : Z)
    : NM (bool * NodeStoreEx) :=
  n ← nm_load node;
  let nodeNumID := n_numID n in
  if nodeNumID =? 0 then _ ← Node_put node; mret (false, this)
  else
    match NodeTree_find (ns_nodeTree this) nodeNumID with
    | Some active =>
        _ ← nm_modify active (update_active e now n);
        _ ← Node_put node;
        mret (false, this)
    | None =>
        let '(_, tree) := NodeTree_insert (ns_nodeTree this) nodeNumID node in
        _ ← nm_modify node (Node_setIsActive true);
        mret (true, set_appeared (match ns_newNodeAppeared this with
                                  | Some _ => Some true | None => None end) (set_tree tree this))
    end.

Definition NodeStoreEx_referenceNode (this : NodeStoreEx) (id : Z) : NM (option Z) :=
  match NodeTree_find (ns_nodeTree this) id with
  | Some node => _ ← Node_get node; mret (Some node)
  | None => mret None
  end.
(** [groups]: the mapper of the metadata groups. *)
Definition NodeStoreEx_referenceRootNode (groups : MirrorBuddyGroupMapper) (this : NodeStoreEx)
    : NM (option Z * NodeOrGroup) :=
  let rootID := ns_rootOwner this in
  let nodeID := if ng_isGroup rootID
    then MirrorBuddyGroupMapper_getPrimaryTargetID groups (u16 (ng_id rootID)) else ng_id rootID in
  node ← NodeStoreEx_referenceNode this nodeID;
  mret (node, rootID).
(** The node and [*outErr]. *)
Definition NodeStoreEx_referenceNodeByTargetID (this : NodeStoreEx) (targetID : Z)
    (targetMapper : TargetMapper) : NM (option Z * Z) :=
  let nodeID := TargetMapper_getNodeID targetMapper targetID in
  if nodeID =? 0 then mret (None, FhgfsOpsErr_UNKNOWNTARGET)
  else
    node ← NodeStoreEx_referenceNode this nodeID;
    mret (node, match node with Some _ => FhgfsOpsErr_SUCCESS | None => FhgfsOpsErr_UNKNOWNNODE end).

Definition NodeStoreEx_deleteNode (this : NodeStoreEx) (nodeID : Z) : NM (bool * NodeStoreEx) :=
  '(nodeWasActive, tree) ← NodeTree_erase (ns_nodeTree this) nodeID;
  mret (nodeWasActive, set_tree tree this).

Definition NodeStoreEx_getSize (this : NodeStoreEx) : Z := nt_size (ns_nodeTree this).

Definition NodeStoreEx_referenceFirstNode (this : NodeStoreEx) : NM (option Z) :=
  match rb_elements (nt_nodes (ns_nodeTree this)) with
  | [] => mret None
  | (_, node) :: _ => _ ← Node_get node; mret (Some node)
  end.
Definition NodeStoreEx_referenceNextNodeAndReleaseOld (this : NodeStoreEx) (oldNode : Z)
    : NM (option Z) :=
  result ← NodeTree_getNext (ns_nodeTree this) oldNode;
  _ ← (match result with Some node => Node_get node | None => mret tt end);
  _ ← Node_put oldNode;
  mret result.

Definition NodeStoreEx_getRootOwner (this : NodeStoreEx) : NodeOrGroup := ns_rootOwner this.
Definition NodeStoreEx_setRootOwner (this : NodeStoreEx) (owner : NodeOrGroup)
    (ignoreExistingRoot : bool) : bool * NodeStoreEx :=
  if (ng_id owner =? 0) && negb ignoreExistingRoot then (false, this)
  else if negb (NodeOrGroup_valid (ns_rootOwner this)) then (true, set_rootOwner owner this)
  else if negb ignoreExistingRoot then (false, this)
  else (true, set_rootOwner owner this).

(** [meanwhile1], [meanwhile2]: what other threads do to the store before the completion is
    registered, and while the thread waits for it. *)
Definition NodeStoreEx_waitForFirstNode (meanwhile1 meanwhile2 : NodeStoreEx -> NodeStoreEx)
    (this : NodeStoreEx) : bool * NodeStoreEx :=
  if 0 <? nt_size (ns_nodeTree this) then (true, this)
  else
    let this := set_appeared (Some false) (meanwhile1 this) in
    let this := set_appeared None (meanwhile2 this) in
    (0 <? nt_size (ns_nodeTree this), this).

(** ** Synchronisation with a downloaded list *)

(** The three loops of phase 1 over the downloaded and the stored nodes: the IDs that are added
    and removed, and the downloaded nodes in their order. *)
Fixpoint sync_identify (masterList : list Z) :
    list Z -> list Z * list Z * list Z -> NM (list Z * list Z * list Z) :=
  fix go (active : list Z) (acc : list Z * list Z * list Z) :=
    let '(outAddedIDs, outRemovedIDs, addLaterNodes) := acc in
    match masterList, active with
    | master :: masterList', act :: active' =>
        a ← nm_load act;
        m ← nm_load master;
        if n_numID m <? n_numID a then
          sync_identify masterList' active
            (outAddedIDs ++ [n_numID m], outRemovedIDs, addLaterNodes ++ [master])
        else if n_numID a <? n_numID m then
          go active' (outAddedIDs, outRemovedIDs ++ [n_numID a], addLaterNodes)
        else sync_identify masterList' active' (outAddedIDs, outRemovedIDs, addLaterNodes ++ [master])
    | master :: masterList', [] =>
        m ← nm_load master;
        sync_identify masterList' []
          (outAddedIDs ++ [n_numID m], outRemovedIDs, addLaterNodes ++ [master])
    | [], act :: active' =>
        a ← nm_load act;
        go active' (outAddedIDs, outRemovedIDs ++ [n_numID a], addLaterNodes)
    | [], [] => mret acc
    end.

Fixpoint sync_remove (ids : list Z) (this : NodeStoreEx) : NM NodeStoreEx :=
  match ids with
  | [] => mret this
  | id :: ids' => '(_, this) ← NodeStoreEx_deleteNode this id; sync_remove ids' this
  end.

(** [e node]: the allocations for the alias of the node; [localNicCaps]: whether the local node
    supports RDMA, if it is given. *)
Fixpoint sync_add (e : Z -> AliasEnv) (now : Time) (localNicCaps : option bool) (nodes : list Z)
    (this : NodeStoreEx) : NM NodeStoreEx :=
  match nodes with
  | [] => mret this
  | node :: nodes' =>
      _ ← (match localNicCaps with
           | Some caps =>
               nm_modify node (fun n => set_connPool (set_supportsRDMA caps (n_connPool n)) n)
           | None => mret tt
           end);
      '(_, this) ← NodeStoreEx_addOrUpdateNode (e node) now this node;
      sync_add e now localNicCaps nodes' this
  end.

(** The lists of added and removed IDs, and the store. *)
Definition NodeStoreEx_syncNodes (e : Z -> AliasEnv) (now : Time) (localNicCaps : option bool)
    (this : NodeStoreEx) (masterList outAddedIDs outRemovedIDs : list Z)
    : NM (list Z * list Z * NodeStoreEx) :=
  '(outAddedIDs, outRemovedIDs, addLaterNodes) ←
    sync_identify masterList (rb_elements (nt_nodes (ns_nodeTree this))).*2
      (outAddedIDs, outRemovedIDs, []);
  this ← sync_remove outRemovedIDs this;
  this ← sync_add e now localNicCaps addLaterNodes this;
  mret (outAddedIDs, outRemovedIDs, this).

(** [NodesTk_dropAllConnsByStore]; [fuel] bounds the number of nodes. *)
Fixpoint drop_conns (fuel : nat) (this : NodeStoreEx) (node : option Z) (dropped : Z) : NM Z :=
  match node with
  | None => mret dropped
  | Some a =>
      match fuel with
      | O => (fun _ => None)
      | S fuel' =>
          n ← nm_load a;
          let '(d, pool) := NodeConnPool_disconnectAvailableStreams (n_connPool n) in
          _ ← nm_modify a (set_connPool pool);
          next ← NodeStoreEx_referenceNextNodeAndReleaseOld this a;
          drop_conns fuel' this next (u32 (dropped + d))
      end
  end.
Definition NodesTk_dropAllConnsByStore (fuel : nat) (this : NodeStoreEx) : NM Z :=
  node ← NodeStoreEx_referenceFirstNode this;
  drop_conns fuel this node 0.

(** ** Incoming messages *)

Inductive InvalEvent := InvalReader_startMetaThread (node : Z) | InvalReader_stopMetaThread (node : Z).

(** The parts of the [App] object that the handlers below reach: the stores, the events of the
    invalidation reader if there is one, and the packets that were sent. *)
Record NodesApp := MkNodesApp {
  na_metaNodes : NodeStoreEx;
  na_storageNodes : NodeStoreEx;
  na_mgmtNodes : NodeStoreEx;
  na_invalReader : option (list InvalEvent);
  na_sent : list (list byte)
}.
Definition set_stores (meta storage mgmt : NodeStoreEx) (app : NodesApp) : NodesApp :=
  MkNodesApp meta storage mgmt (na_invalReader app) (na_sent app).
Definition add_inval (ev : InvalEvent) (app : NodesApp) : NodesApp :=
  MkNodesApp (na_metaNodes app) (na_storageNodes app) (na_mgmtNodes app)
    (match na_invalReader app with Some l => Some (l ++ [ev]) | None => None end) (na_sent app).
Definition add_sent (packets : list (list byte)) (app : NodesApp) : NodesApp :=
  MkNodesApp (na_metaNodes app) (na_storageNodes app) (na_mgmtNodes app) (na_invalReader app)
    (na_sent app ++ packets).

Definition nm_lift {A} (x : option A) : NM A := fun h => a ← x; Some (a, h).

Definition __HeartbeatMsgEx_processIncomingRoot (this : HeartbeatMsgEx) (app : NodesApp) : NodesApp :=
  let rootOwner := if hb_rootIsBuddyMirrored this
    then NodeOrGroup_fromGroup (hb_rootNumID this) else NodeOrGroup_fromNode (hb_rootNumID this) in
  if negb (hb_nodeType this =? NODETYPE_Meta) || (hb_rootNumID this =? 0) then app
  else set_stores (NodeStoreEx_setRootOwner (na_metaNodes app) rootOwner false).2
         (na_storageNodes app) (na_mgmtNodes app) app.

(** What a heartbeat needs of its surroundings: the new address and the allocations of the node,
    the configuration of its pool, the time, the interfaces of the local node. *)
Record HeartbeatEnv := MkHeartbeatEnv {
  he_addr : Z;
  he_alias : AliasEnv;
  he_alias_update : AliasEnv;
  he_cfg : PoolConfig;
  he_now : Time;
  he_localNicList : list NicAddress;
  he_localRdmaNicList : list LocalNic
}.

(** [ack_resp]: the answer, then the elements of both lists are freed; [nicLists] tells whether
    the two list variables have been initialised at this point.  Freeing an uninitialised list
    is undefined. *)
Definition heartbeat_finish (uid : Z) (this : HeartbeatMsgEx) (respBuf : list byte) (nicLists : bool)
    (app : NodesApp) : NM (bool * NodesApp) :=
  '(_, packets) ← nm_lift (MsgHelperAck_respondToAckRequest uid (hb_ackID this) respBuf);
  if nicLists then mret (true, add_sent packets app) else (fun _ => None).

Definition __HeartbeatMsgEx_processIncoming (e : HeartbeatEnv) (uid : Z) (this : HeartbeatMsgEx)
    (respBuf : list byte) (app : NodesApp) : NM (bool * NodesApp) :=
  let nodeNumID := hb_nodeNumID this in
  let nodeType := hb_nodeType this in
  if nodeNumID =? 0 then heartbeat_finish uid this respBuf false app
  else if negb ((nodeType =? NODETYPE_Meta) || (nodeType =? NODETYPE_Storage) ||
                (nodeType =? NODETYPE_Mgmt)) then heartbeat_finish uid this respBuf false app
  else
    nicList ← nm_lift (match HeartbeatMsgEx_parseNicList this (MkDeserializeCtx [] 0 0) with
                       | Done l _ => Some l | _ => None end);
    let node := Node_init (he_alias e) (he_cfg e) (he_now e) (hb_nodeID this) nodeNumID nodeType
      (hb_portUDP this) (hb_portTCP this) nicList
      (if (nodeType =? NODETYPE_Meta) || (nodeType =? NODETYPE_Storage)
       then Some (he_localRdmaNicList e) else None) in
    let node := set_connPool (set_supportsRDMA (NIC_supportsRDMA (he_localNicList e)) (n_connPool node)) node in
    _ ← (fun h => Some (tt, <[he_addr e := node]> h));
    let nodes := if nodeType =? NODETYPE_Meta then na_metaNodes app
      else if nodeType =? NODETYPE_Storage then na_storageNodes app else na_mgmtNodes app in
    '(isNodeNew, nodes) ← NodeStoreEx_addOrUpdateNode (he_alias_update e) (he_now e) nodes (he_addr e);
    let app := if nodeType =? NODETYPE_Meta
      then set_stores nodes (na_storageNodes app) (na_mgmtNodes app) app
      else if nodeType =? NODETYPE_Storage
      then set_stores (na_metaNodes app) nodes (na_mgmtNodes app) app
      else set_stores (na_metaNodes app) (na_storageNodes app) nodes app in
    let app := if (isNodeNew : bool) && (nodeType =? NODETYPE_Meta)
      then add_inval (InvalReader_startMetaThread nodeNumID) app else app in
    heartbeat_finish uid this respBuf true (__HeartbeatMsgEx_processIncomingRoot this app).

Definition __RemoveNodeMsgEx_processIncoming (uid : Z) (this : RemoveNodeMsgEx)
    (respBuf : list byte) (app : NodesApp) : NM (bool * NodesApp) :=
  let nodeID := rmn_nodeNumID this in
  app ← (if rmn_nodeType this =? NODETYPE_Meta then
           '(_, nodes) ← NodeStoreEx_deleteNode (na_metaNodes app) nodeID;
           mret (add_inval (InvalReader_stopMetaThread nodeID)
                   (set_stores nodes (na_storageNodes app) (na_mgmtNodes app) app))
         else if rmn_nodeType this =? NODETYPE_Storage then
           '(_, nodes) ← NodeStoreEx_deleteNode (na_storageNodes app) nodeID;
           mret (set_stores (na_metaNodes app) nodes (na_mgmtNodes app) app)
         else mret app);
  '(acked, packets) ← nm_lift (MsgHelperAck_respondToAckRequest uid (rmn_ackID this) respBuf);
  if acked : bool then mret (true, add_sent packets app)
  else
    packets ← nm_lift (send_response (RemoveNodeRespMsg_initFromValue uid 0) respBuf);
    mret (true, add_sent packets app).
