(* ===== verification/NodeStoreFacts.v ===== *)
(** * Nodes and node stores: theorems

    Reference counts of nodes in all interleavings of the operations on a store, the contents
    of a store after a synchronisation, and the faults of iteration, removal and heartbeats. *)

From stdpp Require Import strings gmultiset sorting.
From S2P Require Import Prelude StorageErrors Wire Serialization StorageFormats NetMessageTypes NetMessage BuddyGroup Mappers MappersFacts MessagesSession MessagesNodes Nics ConnPool NodeStore.

(** ** Reference counts *)

(** Whether a tree refers to the node [n] at address [a]. *)
Definition in_tree (t : gmap Z Z) (a : Z) (n : Node) : bool :=
  bool_decide (t !! n_numID n = Some a).

(** [R]: the references that threads hold.  A node has one reference for each of them and one if it
    is in the tree, and what is referred to is not freed. *)
Record heap_ok (h : Heap) (t : gmap Z Z) (R : gmultiset Z) : Prop := MkHeapOk {
  hok_tree : forall id a, t !! id = Some a ->
    exists n, h !! a = Some n /\ n_numID n = id /\ id <> 0 /\ n_isActive n = true;
  hok_refs : forall a n, h !! a = Some n ->
    n_references n = Z.b2z (in_tree t a n) + Z.of_nat (multiplicity a R) /\ 0 < n_references n;
  hok_held : forall a, a ∈ R -> is_Some (h !! a)
}.

Lemma heap_ok_insert h t R a n n' R' :
  heap_ok h t R -> h !! a = Some n -> n_numID n' = n_numID n ->
  (n_isActive n = true -> n_isActive n' = true) ->
  (forall b, b <> a -> multiplicity b R' = multiplicity b R) ->
  n_references n' - Z.of_nat (multiplicity a R') = n_references n - Z.of_nat (multiplicity a R) ->
  0 < n_references n' ->
  heap_ok (<[a := n']> h) t R'.
Proof.
  intros [Ht Hr Hh] Ha Hid Hact Hother Hcount Hpos. split.
  - intros id b Hb. destruct (Ht _ _ Hb) as (m & Hm & Em & Hne & Hma).
    destruct (decide (b = a)) as [->|Hba].
    + assert (m = n) as -> by congruence. exists n'. rewrite lookup_insert_eq. split_and!; [done|congruence|done|auto].
    + exists m. by rewrite lookup_insert_ne.
  - intros b m Hb. destruct (decide (b = a)) as [->|Hba].
    + rewrite lookup_insert_eq in Hb. injection Hb as <-. destruct (Hr _ _ Ha) as [E _].
      unfold in_tree in *. rewrite Hid. lia.
    + rewrite lookup_insert_ne in Hb by done. rewrite Hother by done. by apply Hr.
  - intros b Hb. destruct (decide (b = a)) as [->|Hba]; [by rewrite lookup_insert_eq|].
    rewrite lookup_insert_ne by done. apply Hh. rewrite elem_of_multiplicity, Hother in Hb by done.
    by rewrite elem_of_multiplicity.
Qed.

Lemma modify_ok h t R a f :
  heap_ok h t R -> is_Some (h !! a) ->
  (forall n, n_numID (f n) = n_numID n /\ n_references (f n) = n_references n /\
             (n_isActive n = true -> n_isActive (f n) = true)) ->
  exists n, h !! a = Some n /\ nm_modify a f h = Some (tt, <[a := f n]> h) /\
    heap_ok (<[a := f n]> h) t R.
Proof.
  intros Hok [n Hn] Hf. exists n. unfold nm_modify. rewrite Hn. split_and!; [done..|].
  destruct (Hf n) as (H1 & H2 & H3). eapply heap_ok_insert; eauto; [lia|].
  rewrite H2. by eapply hok_refs.
Qed.

Lemma get_ok h t R a :
  heap_ok h t R -> is_Some (h !! a) ->
  exists h', Node_get a h = Some (tt, h') /\ heap_ok h' t (R ⊎ {[+ a +]}).
Proof.
  intros Hok [n Hn]. unfold Node_get, nm_modify. rewrite Hn. eexists. split; [done|].
  destruct (hok_refs _ _ _ Hok _ _ Hn) as [E Hp].
  eapply heap_ok_insert; eauto; cbn [n_references set_references].
  - intros b Hb. rewrite multiplicity_disj_union, multiplicity_singleton_ne by done. lia.
  - rewrite multiplicity_disj_union, multiplicity_singleton_eq. lia.
  - lia.
Qed.

Lemma put_ok h t R a :
  heap_ok h t R -> a ∈ R ->
  exists b h', Node_put a h = Some (b, h') /\ heap_ok h' t (R ∖ {[+ a +]}) /\
    (forall c, c <> a -> h' !! c = h !! c).
Proof.
  intros Hok Ha. destruct (hok_held _ _ _ Hok _ Ha) as [n Hn]. unfold Node_put. rewrite Hn. simpl.
  destruct (hok_refs _ _ _ Hok _ _ Hn) as [E Hp]. rewrite elem_of_multiplicity in Ha.
  destruct (Z.eqb_spec (n_references n) 1) as [E1|E1].
  - eexists _, _. split_and!; [done| |intros c Hc; by rewrite lookup_delete_ne].
    assert (in_tree t a n = false) as Hnt by (destruct (in_tree t a n); simpl in *; [lia|done]).
    destruct Hok as [Ht Hr Hh]. split.
    + intros id b Hb. destruct (Ht _ _ Hb) as (m & Hm & Em & ?). exists m.
      destruct (decide (b = a)) as [->|]; [|by rewrite lookup_delete_ne].
      unfold in_tree in Hnt. rewrite bool_decide_eq_false in Hnt. congruence.
    + intros b m Hb. apply lookup_delete_Some in Hb as [Hne Hb].
      rewrite multiplicity_difference, multiplicity_singleton_ne, Nat.sub_0_r by done. by apply Hr.
    + intros b Hb. rewrite elem_of_multiplicity, multiplicity_difference in Hb.
      destruct (decide (b = a)) as [->|Hne].
      * rewrite multiplicity_singleton_eq in Hb. rewrite Hnt in E. simpl in E. lia.
      * rewrite multiplicity_singleton_ne, Nat.sub_0_r in Hb by done.
        rewrite lookup_delete_ne by done. apply Hh. by rewrite elem_of_multiplicity.
  - eexists _, _. split_and!; [done| |intros c Hc; by rewrite lookup_insert_ne].
    eapply heap_ok_insert; eauto; cbn [n_references set_references].
    + intros b Hb. rewrite multiplicity_difference, multiplicity_singleton_ne by done. lia.
    + rewrite multiplicity_difference, multiplicity_singleton_eq. lia.
    + lia.
Qed.

(** The reference of the tree changes hands. *)
Lemma untree_ok h t R id a :
  heap_ok h t R -> t !! id = Some a -> heap_ok h (delete id t) (R ⊎ {[+ a +]}).
Proof.
  intros [Ht Hr Hh] Ha. destruct (Ht _ _ Ha) as (n & Hn & Hid & _). split.
  - intros id' b Hb. apply lookup_delete_Some in Hb as [Hne Hb]. by apply Ht.
  - intros b m Hb. destruct (Hr _ _ Hb) as [E Hp]. split; [|done]. rewrite E. unfold in_tree.
    rewrite multiplicity_disj_union. destruct (decide (b = a)) as [->|Hne].
    + assert (m = n) as -> by congruence. subst id.
      rewrite lookup_delete_eq, multiplicity_singleton_eq, bool_decide_true, bool_decide_false by done.
      simpl. lia.
    + rewrite multiplicity_singleton_ne by done. rewrite Nat.add_0_r. f_equal. f_equal.
      apply bool_decide_ext. destruct (decide (n_numID m = id)) as [E'|E'].
      * rewrite E', lookup_delete_eq, Ha. split; congruence.
      * by rewrite lookup_delete_ne by congruence.
  - intros b Hb. rewrite gmultiset_elem_of_disj_union, gmultiset_elem_of_singleton in Hb.
    destruct Hb as [Hb| ->]; [by apply Hh|by eexists].
Qed.

Lemma tree_ok h t R id a n :
  heap_ok h t R -> a ∈ R -> h !! a = Some n -> n_numID n = id -> id <> 0 -> t !! id = None ->
  heap_ok (<[a := Node_setIsActive true n]> h) (<[id := a]> t) (R ∖ {[+ a +]}).
Proof.
  intros Hok HaR Hn Hid Hne Hfree.
  assert (in_tree t a n = false) as Hnt.
  { unfold in_tree. rewrite bool_decide_eq_false. congruence. }
  destruct Hok as [Ht Hr Hh]. destruct (Hr _ _ Hn) as [E Hp]. rewrite elem_of_multiplicity in HaR. split.
  - intros id' b Hb. apply lookup_insert_Some in Hb as [[<- <-]|[Hne' Hb]].
    + eexists. by rewrite lookup_insert_eq.
    + destruct (Ht _ _ Hb) as (m & Hm & Em & ?). exists m. rewrite lookup_insert_ne; [done|]. congruence.
  - intros b m Hb. apply lookup_insert_Some in Hb as [[<- <-]|[Hne' Hb]]; simpl.
    + split; [|done]. rewrite multiplicity_difference, multiplicity_singleton_eq. unfold in_tree; simpl.
      rewrite Hid, lookup_insert_eq, bool_decide_true by done. rewrite Hnt in E. simpl in *. lia.
    + rewrite multiplicity_difference, multiplicity_singleton_ne, Nat.sub_0_r by done.
      destruct (Hr _ _ Hb) as [E' ?]. split; [|done]. rewrite E'. f_equal. f_equal.
      unfold in_tree. apply bool_decide_ext. destruct (decide (n_numID m = id)) as [E2|E2].
      * rewrite E2, lookup_insert_eq, Hfree. split; congruence.
      * by rewrite lookup_insert_ne by congruence.
  - intros b Hb. rewrite lookup_insert_is_Some. destruct (decide (a = b)) as [->|]; [by left|right].
    split; [done|]. apply Hh. rewrite elem_of_multiplicity, multiplicity_difference in *. lia.
Qed.

(** ** The operations of a store *)

(** The nodes of [h'] are nodes of [h], with their IDs, and none has become inactive. *)
Definition kept (h h' : Heap) : Prop :=
  forall c n, h' !! c = Some n -> exists m, h !! c = Some m /\ n_numID n = n_numID m /\
    (n_isActive m = true -> n_isActive n = true).

#[global] Instance kept_preorder : PreOrder kept.
Proof.
  split.
  - intros h c n Hc. eauto.
  - intros h1 h2 h3 H12 H23 c n Hc. destruct (H23 _ _ Hc) as (m & Hm & E & A).
    destruct (H12 _ _ Hm) as (k & Hk & E' & A'). exists k. split; [done|]. split; [congruence|auto].
Qed.

Lemma kept_insert h a n n' :
  h !! a = Some n -> n_numID n' = n_numID n -> (n_isActive n = true -> n_isActive n' = true) ->
  kept h (<[a := n']> h).
Proof.
  intros Ha Hid Hact c m Hc. apply lookup_insert_Some in Hc as [[<- <-]|[_ Hc]]; eauto.
Qed.

Lemma kept_delete h a : kept h (delete a h).
Proof. intros c n Hc. apply lookup_delete_Some in Hc as [_ Hc]. eauto. Qed.

Lemma put_kept h a b h' : Node_put a h = Some (b, h') -> kept h h'.
Proof.
  unfold Node_put. destruct (h !! a) as [n|] eqn:En; [|done]. simpl.
  case_match; intros E; simplify_eq; [apply kept_delete|by eapply kept_insert].
Qed.

Lemma get_kept h a h' : Node_get a h = Some (tt, h') -> kept h h'.
Proof.
  unfold Node_get, nm_modify. destruct (h !! a) as [n|] eqn:En; [|done]. simpl.
  intros E; simplify_eq. by eapply kept_insert.
Qed.

Definition tree_of (st : NodeStoreEx) : gmap Z Z := nt_nodes (ns_nodeTree st).

(** The counter of the tree and the references of its nodes. *)
Definition store_ok (h : Heap) (st : NodeStoreEx) (R : gmultiset Z) : Prop :=
  heap_ok h (tree_of st) R /\ nt_size (ns_nodeTree st) = u32 (Z.of_nat (size (tree_of st))).

Definition opt_ref (r : option Z) : gmultiset Z := match r with Some a => {[+ a +]} | None => ∅ end.

Lemma u32_add a b : u32 (u32 a + b) = u32 (a + b).
Proof. unfold u32. by rewrite Zplus_mod_idemp_l. Qed.

Lemma u32_sub a b : u32 (u32 a - b) = u32 (a - b).
Proof. unfold u32. by rewrite Zminus_mod_idemp_l. Qed.

Lemma reference_ok h st R id :
  store_ok h st R -> exists h', NodeStoreEx_referenceNode st id h = Some (tree_of st !! id, h') /\
    store_ok h' st (R ⊎ opt_ref (tree_of st !! id)) /\ kept h h'.
Proof.
  intros [Hok Hs]. unfold NodeStoreEx_referenceNode, NodeTree_find. fold (tree_of st).
  destruct (tree_of st !! id) as [a|] eqn:E.
  - destruct (hok_tree _ _ _ Hok _ _ E) as (n & Hn & _).
    destruct (get_ok _ _ _ a Hok) as (h' & Hg & Hok'); [by eexists|].
    exists h'. unfold mbind, NM_bind. rewrite Hg. split_and!; [done|by split|by eapply get_kept].
  - exists h. split_and!; [done| |reflexivity]. simpl. by rewrite (right_id_L ∅ (⊎)).
Qed.

Lemma delete_ok h st R id :
  store_ok h st R -> exists st' h', NodeStoreEx_deleteNode st id h =
      Some ((bool_decide (is_Some (tree_of st !! id)), st'), h') /\
    store_ok h' st' R /\ tree_of st' = delete id (tree_of st) /\ kept h h'.
Proof.
  intros [Hok Hs]. unfold NodeStoreEx_deleteNode, NodeTree_erase, NodeTree_find.
  fold (tree_of st). destruct (tree_of st !! id) as [a|] eqn:E.
  - pose proof (untree_ok _ _ _ _ _ Hok E) as Hok1.
    destruct (put_ok _ _ _ a Hok1) as (b & h' & Hp & Hok2 & Hk); [multiset_solver|].
    unfold mbind, NM_bind. rewrite Hp. eexists _, h'. split; [done|]. unfold tree_of; simpl.
    replace ((R ⊎ {[+ a +]}) ∖ {[+ a +]}) with R in Hok2 by multiset_solver.
    split_and!; [split|done|].
    + exact Hok2.
    + simpl. unfold tree_of; simpl. rewrite Hs, u32_sub. f_equal.
      fold (tree_of st). rewrite map_size_delete, E.
      pose proof (map_size_ne_0_lookup_2 (tree_of st) id) as Hne. rewrite E in Hne.
      specialize (Hne (ex_intro _ a eq_refl)). lia.
    + by eapply put_kept.
  - eexists st, h. unfold tree_of. split_and!; eauto; [by destruct st as [[] ? ? ?]|..].
    + by split.
    + rewrite delete_id; [done|]. exact E.
    + reflexivity.
Qed.

Lemma update_active_kept e now n active :
  n_numID (update_active e now n active) = n_numID active /\
  n_references (update_active e now n active) = n_references active /\
  (n_isActive active = true -> n_isActive (update_active e now n active) = true).
Proof.
  unfold update_active, Node_updateInterfaces, Node_setAliasAndTypeStr.
  repeat case_match; simplify_eq; simpl; repeat case_match; done.
Qed.

Lemma addOrUpdate_ok e now h st R a n :
  store_ok h st R -> a ∈ R -> h !! a = Some n -> tree_of st !! n_numID n <> Some a ->
  exists new st' h', NodeStoreEx_addOrUpdateNode e now st a h = Some ((new, st'), h') /\
    store_ok h' st' (R ∖ {[+ a +]}) /\ kept h h' /\
    new = negb (n_numID n =? 0) && bool_decide (tree_of st !! n_numID n = None) /\
    tree_of st' = (if new then <[n_numID n := a]> (tree_of st) else tree_of st).
Proof.
  intros [Hok Hs] Ha Hn Hnot. unfold NodeStoreEx_addOrUpdateNode, mbind, NM_bind, nm_load.
  rewrite Hn. cbn [mbind option_bind]. destruct (Z.eqb_spec (n_numID n) 0) as [E0|E0].
  - destruct (put_ok _ _ _ _ Hok Ha) as (b & h' & Hp & Hok' & _). rewrite Hp.
    eexists _, _, _. split_and!; [done|by split|by eapply put_kept|done..].
  - unfold NodeTree_find. fold (tree_of st). destruct (tree_of st !! n_numID n) as [c|] eqn:Ec.
    + destruct (hok_tree _ _ _ Hok _ _ Ec) as (m & Hm & _).
      destruct (modify_ok _ _ _ c (update_active e now n) Hok) as (m' & Hm' & Hmod & Hok1);
        [by eexists|apply update_active_kept|].
      rewrite Hmod. cbn [mbind option_bind].
      destruct (put_ok _ _ _ _ Hok1 Ha) as (b & h' & Hp & Hok' & _). rewrite Hp.
      eexists _, _, _. split_and!; [done|by split| |done|done].
      transitivity (<[c := update_active e now n m']> h); [|by eapply put_kept].
      eapply kept_insert; [done|apply update_active_kept..].
    + unfold NodeTree_insert. fold (tree_of st). rewrite Ec. unfold nm_modify. rewrite Hn.
      eexists _, _, _. split_and!; [done| | |done|done].
      * split; [by eapply tree_ok|]. simpl. unfold tree_of at 1; simpl. fold (tree_of st).
        rewrite Hs, u32_add. f_equal. rewrite map_size_insert, Ec. lia.
      * by eapply kept_insert.
Qed.

Lemma first_ok h st R :
  store_ok h st R -> exists r h', NodeStoreEx_referenceFirstNode st h = Some (r, h') /\
    store_ok h' st (R ⊎ opt_ref r) /\ kept h h' /\
    match r with Some a => exists id, tree_of st !! id = Some a | None => tree_of st = ∅ end.
Proof.
  intros [Hok Hs]. unfold NodeStoreEx_referenceFirstNode. fold (tree_of st).
  destruct (rb_elements (tree_of st)) as [|[id a] l] eqn:E.
  - exists None, h. split_and!; [done| |done|].
    + simpl. by rewrite (right_id_L ∅ (⊎)).
    + apply map_empty. intros i. destruct (tree_of st !! i) as [a|] eqn:Ei; [|done].
      apply elem_of_rb_elements in Ei. rewrite E in Ei. inversion Ei.
  - assert (tree_of st !! id = Some a) as Ha by (apply elem_of_rb_elements; rewrite E; left).
    destruct (hok_tree _ _ _ Hok _ _ Ha) as (n & Hn & _).
    destruct (get_ok _ _ _ a Hok) as (h' & Hg & Hok'); [by eexists|].
    exists (Some a), h'. unfold mbind, NM_bind. rewrite Hg.
    split_and!; [done|by split|by eapply get_kept|eauto].
Qed.

(** The iteration needs its old node to be in the tree. *)
Lemma next_ok h st R old n :
  store_ok h st R -> old ∈ R -> h !! old = Some n -> tree_of st !! n_numID n = Some old ->
  exists r h', NodeStoreEx_referenceNextNodeAndReleaseOld st old h = Some (r, h') /\
    store_ok h' st ((R ⊎ opt_ref r) ∖ {[+ old +]}) /\ kept h h' /\
    match r with
    | Some a => exists id, tree_of st !! id = Some a /\ n_numID n < id
    | None => forall id, is_Some (tree_of st !! id) -> id <= n_numID n
    end.
Proof.
  intros [Hok Hs] Hold Hn Ht.
  unfold NodeStoreEx_referenceNextNodeAndReleaseOld, NodeTree_getNext, mbind, NM_bind, nm_load.
  rewrite Hn. cbn [mbind option_bind]. fold (tree_of st). rewrite bool_decide_true by done.
  destruct (list_find _ _) as [[i [id a]]|] eqn:Ef.
  - apply list_find_Some in Ef as (Hi & Hlt & _). simpl in Hlt.
    apply list_elem_of_lookup_2, elem_of_rb_elements in Hi.
    destruct (hok_tree _ _ _ Hok _ _ Hi) as (m & Hm & _).
    destruct (get_ok _ _ _ a Hok) as (h1 & Hg & Hok1); [by eexists|].
    destruct (put_ok _ _ _ old Hok1) as (b & h2 & Hp & Hok2 & _); [multiset_solver|].
    exists (Some a), h2. cbn. unfold mret, NM_ret. rewrite Hg. cbn. rewrite Hp.
    split_and!; [done|by split| |eauto]. transitivity h1; [by eapply get_kept|by eapply put_kept].
  - destruct (put_ok _ _ _ old Hok) as (b & h2 & Hp & Hok2 & _); [done|].
    exists None, h2. cbn. unfold mret, NM_ret. rewrite Hp.
    split_and!; [done| |by eapply put_kept|].
    + split; [|done]. by rewrite (right_id_L ∅ (⊎)).
    + intros id [a Ha]. apply list_find_None in Ef. rewrite list.Forall_forall in Ef.
      apply elem_of_rb_elements in Ha. specialize (Ef _ Ha). simpl in Ef. lia.
Qed.

(** ** Interleavings *)

(** The nodes, a store and the references of all threads. *)
Record NodeWorld := MkNodeWorld { nw_heap : Heap; nw_store : NodeStoreEx; nw_refs : gmultiset Z }.

Inductive nw_step : NodeWorld -> NodeWorld -> Prop :=
| nw_construct h st R a e cfg now nodeID numID type udp tcp nics rdma :
    h !! a = None ->
    nw_step (MkNodeWorld h st R)
      (MkNodeWorld (<[a := Node_init e cfg now nodeID numID type udp tcp nics rdma]> h) st (R ⊎ {[+ a +]}))
| nw_addOrUpdate h st R a n e now new st' h' :
    a ∈ R -> h !! a = Some n -> tree_of st !! n_numID n <> Some a ->
    NodeStoreEx_addOrUpdateNode e now st a h = Some ((new, st'), h') ->
    nw_step (MkNodeWorld h st R) (MkNodeWorld h' st' (R ∖ {[+ a +]}))
| nw_reference h st R id r h' :
    NodeStoreEx_referenceNode st id h = Some (r, h') ->
    nw_step (MkNodeWorld h st R) (MkNodeWorld h' st (R ⊎ opt_ref r))
| nw_first h st R r h' :
    NodeStoreEx_referenceFirstNode st h = Some (r, h') ->
    nw_step (MkNodeWorld h st R) (MkNodeWorld h' st (R ⊎ opt_ref r))
| nw_next h st R old r h' :
    old ∈ R -> NodeStoreEx_referenceNextNodeAndReleaseOld st old h = Some (r, h') ->
    nw_step (MkNodeWorld h st R) (MkNodeWorld h' st ((R ⊎ opt_ref r) ∖ {[+ old +]}))
| nw_put h st R a b h' :
    a ∈ R -> Node_put a h = Some (b, h') ->
    nw_step (MkNodeWorld h st R) (MkNodeWorld h' st (R ∖ {[+ a +]}))
| nw_delete h st R id b st' h' :
    NodeStoreEx_deleteNode st id h = Some ((b, st'), h') ->
    nw_step (MkNodeWorld h st R) (MkNodeWorld h' st' R)
| nw_root h st R owner ignore :
    nw_step (MkNodeWorld h st R) (MkNodeWorld h (NodeStoreEx_setRootOwner st owner ignore).2 R)
| nw_wait h st R c :
    nw_step (MkNodeWorld h st R) (MkNodeWorld h (set_appeared c st) R).

Definition nw_ok (w : NodeWorld) : Prop := store_ok (nw_heap w) (nw_store w) (nw_refs w).

Lemma node_construct_ok h st R a n :
  store_ok h st R -> h !! a = None -> n_references n = 1 ->
  store_ok (<[a := n]> h) st (R ⊎ {[+ a +]}).
Proof.
  intros [[Ht Hr Hh] Hs] Ha Hn. split; [|done].
  assert (multiplicity a R = 0%nat) as Hm.
  { destruct (decide (a ∈ R)) as [Hin|Hin]; [destruct (Hh _ Hin); congruence|].
    rewrite elem_of_multiplicity in Hin. lia. }
  split.
  - intros id b Hb. destruct (Ht _ _ Hb) as (m & Hmb & ?). exists m.
    rewrite lookup_insert_ne by congruence. done.
  - intros b m Hb. rewrite multiplicity_disj_union.
    apply lookup_insert_Some in Hb as [[<- <-]|[Hne Hb]].
    + rewrite multiplicity_singleton_eq, Hm, Hn. unfold in_tree.
      rewrite bool_decide_false; [done|]. intros Hb. destruct (Ht _ _ Hb) as (m & Hmb & _). congruence.
    + rewrite multiplicity_singleton_ne by done. rewrite Nat.add_0_r. by apply Hr.
  - intros b Hb. rewrite gmultiset_elem_of_disj_union, gmultiset_elem_of_singleton in Hb.
    rewrite lookup_insert_is_Some. destruct (decide (a = b)) as [->|]; [by left|right].
    split; [done|]. destruct Hb as [Hb| ->]; [by apply Hh|done].
Qed.

Lemma Node_init_refs e cfg now nodeID numID type udp tcp nics rdma :
  n_references (Node_init e cfg now nodeID numID type udp tcp nics rdma) = 1.
Proof. unfold Node_init, Node_setAliasAndTypeStr. by repeat case_match. Qed.

Lemma next_in_tree st old h r h' :
  NodeStoreEx_referenceNextNodeAndReleaseOld st old h = Some (r, h') ->
  exists n, h !! old = Some n /\ tree_of st !! n_numID n = Some old.
Proof.
  unfold NodeStoreEx_referenceNextNodeAndReleaseOld, NodeTree_getNext, mbind, NM_bind, nm_load.
  destruct (h !! old) as [n|]; [|done]. cbn [mbind option_bind].
  destruct (bool_decide_reflect (nt_nodes (ns_nodeTree st) !! n_numID n = Some old)); [|done]. eauto.
Qed.

Ltac same_result :=
  match goal with E : ?x = Some _, E' : ?x = Some _ |- _ => rewrite E in E'; injection E' as ? ?; subst end.

Lemma nw_step_ok w w' :
  nw_step w w' -> nw_ok w ->
  nw_ok w' /\ (forall a, is_Some (nw_heap w !! a) -> forall n, nw_heap w' !! a = Some n ->
    exists m, nw_heap w !! a = Some m /\ (n_isActive m = true -> n_isActive n = true)).
Proof.
  assert (forall h h', kept h h' -> forall a, is_Some (h !! a) -> forall n, h' !! a = Some n ->
    exists m, h !! a = Some m /\ (n_isActive m = true -> n_isActive n = true)) as Hk.
  { intros h h' Hk a _ n Hn. destruct (Hk _ _ Hn) as (m & ? & _ & ?). eauto. }
  destruct 1; unfold nw_ok; simpl; intros Hok.
  - split; [apply node_construct_ok; auto using Node_init_refs|].
    intros b [m Hb] k Hk'. rewrite lookup_insert_ne in Hk' by congruence. eauto.
  - destruct (addOrUpdate_ok e now h st R a n) as (new1 & st1 & h1 & E & Hok1 & Hkept & _); auto.
    same_result. simplify_eq. eauto.
  - destruct (reference_ok h st R id Hok) as (h1 & E & Hok1 & Hkept). same_result. eauto.
  - destruct (first_ok h st R Hok) as (r1 & h1 & E & Hok1 & Hkept & _). same_result. eauto.
  - destruct (next_in_tree _ _ _ _ _ H0) as (n & Hn & Ht).
    destruct (next_ok h st R old n) as (r1 & h1 & E & Hok1 & Hkept & _); auto. same_result. eauto.
  - destruct Hok as [Hok Hs]. destruct (put_ok _ _ _ _ Hok H) as (b1 & h1 & E & Hok1 & _).
    pose proof (put_kept _ _ _ _ E). same_result. split; [by split|]. eauto.
  - destruct (delete_ok h st R id Hok) as (st1 & h1 & E & Hok1 & _ & Hkept). same_result.
    simplify_eq. eauto.
  - split; [|eauto]. unfold NodeStoreEx_setRootOwner. by repeat case_match.
  - split; [done|eauto].
Qed.

Definition nw_initial (storeType : Z) : NodeWorld := MkNodeWorld ∅ (NodeStoreEx_init storeType) ∅.

Lemma nw_initial_ok storeType : nw_ok (nw_initial storeType).
Proof.
  split; [|done]. split; simpl.
  - intros id a Ha. unfold tree_of in Ha. simpl in Ha. by rewrite lookup_empty in Ha.
  - intros a n Hn. by rewrite lookup_empty in Hn.
  - intros a Ha. multiset_solver.
Qed.

Lemma nw_reachable_ok w w' : rtc nw_step w w' -> nw_ok w -> nw_ok w'.
Proof. induction 1; auto. intros. apply IHrtc. by eapply nw_step_ok. Qed.

(** What no thread can run into: an access to a freed node in any operation. *)
Definition nw_safe (w : NodeWorld) : Prop :=
  let '(MkNodeWorld h st R) := w in
  (forall id, is_Some (NodeStoreEx_referenceNode st id h)) /\
  (forall id, is_Some (NodeStoreEx_deleteNode st id h)) /\
  is_Some (NodeStoreEx_referenceFirstNode st h) /\
  (forall a, a ∈ R -> is_Some (Node_put a h)) /\
  (forall a n e now, a ∈ R -> h !! a = Some n -> tree_of st !! n_numID n <> Some a ->
     is_Some (NodeStoreEx_addOrUpdateNode e now st a h)) /\
  (forall a n, a ∈ R -> h !! a = Some n -> tree_of st !! n_numID n = Some a ->
     is_Some (NodeStoreEx_referenceNextNodeAndReleaseOld st a h)).

(** C21: in every interleaving of the operations on a node store, each node has exactly one
    reference for every thread that holds one and one for the store that contains it, so that it
    is freed by the last of them and never before; the store maps IDs to nodes with that ID and
    its counter is the number of nodes; and no lookup, removal, release, addition of a node that is not
    in the store, or start of an iteration touches a freed node, and no step of an iteration does as long as the node it comes from
    is in the store (otherwise: [iteration_after_removal]). *)
Theorem node_references_invariant storeType w :
  rtc nw_step (nw_initial storeType) w -> nw_ok w /\ nw_safe w.
Proof.
  intros Hw. assert (nw_ok w) as Hok by (eapply nw_reachable_ok; eauto using nw_initial_ok).
  split; [done|]. destruct w as [h st R]. unfold nw_ok in Hok; simpl in Hok.
  split_and!.
  - intros id. destruct (reference_ok _ _ _ id Hok) as (h' & -> & _). done.
  - intros id. destruct (delete_ok _ _ _ id Hok) as (st' & h' & -> & _). done.
  - destruct (first_ok _ _ _ Hok) as (r & h' & -> & _). done.
  - intros a Ha. destruct (put_ok _ _ _ a (proj1 Hok) Ha) as (b & h' & -> & _). done.
  - intros a n e now Ha Hn Ht.
    destruct (addOrUpdate_ok e now _ _ _ _ _ Hok Ha Hn Ht) as (b & st' & h' & -> & _). done.
  - intros a n Ha Hn Ht. destruct (next_ok _ _ _ _ _ Hok Ha Hn Ht) as (r & h' & -> & _). done.
Qed.

(** A node that once was in a store stays active for everyone who holds a reference, also after
    it was removed: the tests of [Node_getIsActive] in the retry loops never see a removed
    node. *)
Theorem removed_nodes_stay_active a w w' n n' :
  nw_ok w -> rtc (fun w1 w2 => nw_step w1 w2 /\ a ∈ nw_refs w2) w w' ->
  nw_heap w !! a = Some n -> Node_getIsActive n = true ->
  nw_heap w' !! a = Some n' -> Node_getIsActive n' = true.
Proof.
  intros Hok Hrun. revert Hok n. induction Hrun as [w|w1 w2 w3 [Hs Ha] _ IH]; intros Hok n Hn Hact Hn'.
  - unfold Node_getIsActive in *. congruence.
  - destruct (nw_step_ok _ _ Hs Hok) as [Hok2 Hk].
    destruct (hok_held _ _ _ (proj1 Hok2) _ Ha) as [n2 Hn2].
    destruct (Hk a (ex_intro _ n Hn) _ Hn2) as (m & Hm & Hact2).
    apply (IH Hok2 n2 Hn2); [|done]. apply Hact2. unfold Node_getIsActive in *. congruence.
Qed.

(** ** Synchronisation *)

Definition has_ids (h : Heap) : list Z -> list Z -> Prop :=
  Forall2 (fun a id => exists n, h !! a = Some n /\ n_numID n = id).

Lemma tree_ids h st R :
  store_ok h st R -> has_ids h (rb_elements (tree_of st)).*2 (rb_elements (tree_of st)).*1.
Proof.
  intros [Hok _]. unfold has_ids. apply Forall2_fmap, Forall_Forall2_diag.
  apply list.Forall_forall. intros [id a] Hin. apply elem_of_rb_elements in Hin.
  destruct (hok_tree _ _ _ Hok _ _ Hin) as (n & ? & ? & _). eauto.
Qed.

Lemma below_not_in x l : Forall (Z.lt x) l -> x ∉ l.
Proof. intros Hl Hx. rewrite list.Forall_forall in Hl. specialize (Hl _ Hx). lia. Qed.

Lemma nm_load_bind {A} a n h (k : Node -> NM A) : h !! a = Some n -> (nm_load a ≫= k) h = k n h.
Proof. intros Hn. unfold mbind, NM_bind, nm_load. by rewrite Hn. Qed.

Lemma filter_not_in_below x l l' :
  Forall (Z.lt x) l -> filter (.∉ x :: l') l = filter (.∉ l') l.
Proof.
  induction 1 as [|y l Hy Hl IH]; [done|]. rewrite !list.filter_cons, IH.
  destruct (decide (y ∈ l')); repeat case_decide; set_solver by lia.
Qed.

Lemma sync_identify_ok h master mids active aids A Rm L :
  has_ids h master mids -> has_ids h active aids ->
  StronglySorted Z.lt mids -> StronglySorted Z.lt aids ->
  sync_identify master active (A, Rm, L) h =
    Some ((A ++ filter (.∉ aids) mids, Rm ++ filter (.∉ mids) aids, L ++ master), h).
Proof.
  intros Hm. revert active aids A Rm L.
  induction Hm as [|m mid master mids [nm [Hnm Em]] Hm IHm]; intros active aids A Rm L Ha Sm Sa;
    revert A Rm L; induction Ha as [|a aid active aids [na [Hna Ea]] Ha IHa]; intros A Rm L.
  - cbn. by rewrite !app_nil_r.
  - apply StronglySorted_inv in Sa as [Sa Fa]. cbn [sync_identify].
    rewrite (nm_load_bind _ na) by done. cbn [sync_identify] in IHa. rewrite IHa by done. subst aid.
    rewrite list.filter_cons_True by (intros H; inversion H). by rewrite <- app_assoc.
  - apply StronglySorted_inv in Sm as [Sm Fm]. cbn [sync_identify]. rewrite (nm_load_bind _ nm) by done.
    rewrite (IHm [] []) by (done || constructor). subst mid.
    rewrite list.filter_cons_True by (intros H; inversion H). by rewrite <- !app_assoc.
  - pose proof (StronglySorted_inv Sm) as [Sm' Fm]. pose proof (StronglySorted_inv Sa) as [Sa' Fa].
    cbn [sync_identify]. rewrite (nm_load_bind _ na), (nm_load_bind _ nm) by done. subst mid aid.
    destruct (Z.ltb_spec (n_numID nm) (n_numID na)) as [Hlt|Hge].
    + rewrite (IHm (a :: active) (n_numID na :: aids)) by (done || constructor; eauto).
      assert (Forall (Z.lt (n_numID nm)) (n_numID na :: aids)) as Hb.
      { constructor; [done|]. eapply list.Forall_impl; [exact Fa|]. intros; lia. }
      rewrite (list.filter_cons_True _ _ mids) by by apply below_not_in.
      rewrite (filter_not_in_below _ _ mids Hb). by rewrite <- !app_assoc.
    + destruct (Z.ltb_spec (n_numID na) (n_numID nm)) as [Hlt|Hge'].
      * cbn [sync_identify] in IHa. rewrite IHa by done.
        assert (Forall (Z.lt (n_numID na)) (n_numID nm :: mids)) as Hb.
        { constructor; [done|]. eapply list.Forall_impl; [exact Fm|]. intros; lia. }
        rewrite (list.filter_cons_True _ _ aids) by by apply below_not_in.
        rewrite (filter_not_in_below _ _ aids Hb). by rewrite <- !app_assoc.
      * assert (n_numID na = n_numID nm) as E by lia. rewrite E in *.
        rewrite (IHm active aids) by done.
        rewrite (list.filter_cons_False _ _ mids), (list.filter_cons_False _ _ aids) by (intros H; apply H; left).
        rewrite (filter_not_in_below _ mids aids), (filter_not_in_below _ aids mids) by done.
        by rewrite <- app_assoc.
Qed.

Lemma sync_remove_ok ids h st R :
  store_ok h st R ->
  exists st' h', sync_remove ids st h = Some (st', h') /\ store_ok h' st' R /\ kept h h' /\
    forall id, tree_of st' !! id = if decide (id ∈ ids) then None else tree_of st !! id.
Proof.
  revert h st. induction ids as [|i ids IH]; intros h st Hok.
  - exists st, h. split_and!; [done|done|reflexivity|]. intros id. by rewrite decide_False by set_solver.
  - destruct (delete_ok _ _ _ i Hok) as (st1 & h1 & E1 & Hok1 & Ht1 & Hk1).
    destruct (IH h1 st1 Hok1) as (st2 & h2 & E2 & Hok2 & Hk2 & Ht2).
    exists st2, h2. cbn [sync_remove]. unfold mbind, NM_bind. rewrite E1. cbn. rewrite E2.
    split_and!; [done|done|by transitivity h1|]. intros id. rewrite Ht2, Ht1.
    destruct (decide (id = i)) as [->|Hne].
    + rewrite lookup_delete_eq. repeat case_decide; set_solver.
    + rewrite lookup_delete_ne by done. repeat case_decide; set_solver.
Qed.

Lemma kept_ids h h' l ids :
  kept h h' -> has_ids h l ids -> Forall (fun a => is_Some (h' !! a)) l -> has_ids h' l ids.
Proof.
  intros Hk Hi. induction Hi as [|a id l ids (n & Hn & Hid) Hi IH]; intros Hl; [constructor|].
  inversion Hl as [|? ? [m Hm] Hl']; subst. constructor; [|by apply IH].
  destruct (Hk _ _ Hm) as (n' & Hn' & E & _). exists m. split; [done|]. congruence.
Qed.

(** A new list of nodes: distinct IDs, references in the hands of the caller, none of the nodes in
    the store. *)
Record batch_ok (h : Heap) (t : gmap Z Z) (R : gmultiset Z) (nodes ids : list Z) : Prop := {
  ba_ids : has_ids h nodes ids;
  ba_nodup : NoDup ids;
  ba_nonzero : Forall (fun id => id <> 0) ids;
  ba_refs : list_to_set_disj nodes ⊆ R;
  ba_out : forall id a, t !! id = Some a -> a ∉ nodes
}.

Lemma caps_ok h st R node caps :
  store_ok h st R -> is_Some (h !! node) ->
  exists h', (match caps with
     | Some c => nm_modify node (fun n => set_connPool (set_supportsRDMA c (n_connPool n)) n)
     | None => mret tt end) h = Some (tt, h') /\ store_ok h' st R /\ kept h h'.
Proof.
  intros [Hok Hs] Hn. destruct caps as [c|]; [|exists h; split_and!; [done|by split|reflexivity]].
  destruct (modify_ok _ _ _ node (fun n => set_connPool (set_supportsRDMA c (n_connPool n)) n) Hok Hn)
    as (n & Hn' & E & Hok'); [done|].
  eexists. split_and!; [exact E|by split|]. by eapply kept_insert.
Qed.

Lemma batch_tail h h' t t' R node nodes id ids :
  batch_ok h t R (node :: nodes) (id :: ids) -> kept h h' -> heap_ok h' t' (R ∖ {[+ node +]}) ->
  (t' = t \/ t' = <[id := node]> t) -> batch_ok h' t' (R ∖ {[+ node +]}) nodes ids.
Proof.
  intros [Hi Hnd Hnz Href Hout] Hk Hok Ht.
  inversion Hi as [|? ? ? ? (n0 & Hn0 & Hid0) Hi']; subst.
  apply list.NoDup_cons in Hnd as [Hx Hnd]. inversion Hnz; subst.
  assert (list_to_set_disj nodes ⊆ R ∖ {[+ node +]}) as Href'.
  { rewrite list_to_set_disj_cons in Href. multiset_solver. }
  assert (node ∉ nodes) as Hnode.
  { intros Hin. apply Hx. clear -Hi' Hin Hn0. induction Hi' as [|a id l ids (m & Hm & Em) Hi IH].
    - inversion Hin.
    - apply elem_of_cons in Hin as [->|Hin]; apply elem_of_cons; [left; congruence|right; auto]. }
  split; auto.
  - eapply kept_ids; eauto. apply list.Forall_forall. intros a Ha.
    apply (hok_held _ _ _ Hok). eapply gmultiset_elem_of_subseteq; [|exact Href'].
    by rewrite elem_of_list_to_set_disj.
  - intros i a Ha. destruct Ht as [->| ->].
    + apply Hout in Ha. set_solver.
    + apply lookup_insert_Some in Ha as [[_ <-]|[_ Ha]]; [done|]. apply Hout in Ha. set_solver.
Qed.

Lemma sync_add_ok e now caps nodes ids h st R :
  store_ok h st R -> batch_ok h (tree_of st) R nodes ids ->
  exists st' h', sync_add e now caps nodes st h = Some (st', h') /\
    store_ok h' st' (R ∖ list_to_set_disj nodes) /\ kept h h' /\
    tree_of st' = tree_of st ∪ list_to_map (zip ids nodes).
Proof.
  revert ids h st R. induction nodes as [|node nodes IH]; intros ids h st R Hok Hba.
  - exists st, h. split_and!; [done| |reflexivity|].
    + simpl. by replace (R ∖ ∅) with R by multiset_solver.
    + destruct ids; simpl; by rewrite (right_id_L ∅ (∪)).
  - pose proof (ba_ids _ _ _ _ _ Hba) as Hi. inversion Hi as [|? id ? ids' (n & Hn & Hid) Hi' E1 E2].
    subst ids. clear E1. cbn [sync_add].
    destruct (caps_ok h st R node caps Hok (ex_intro _ n Hn)) as (h1 & Ec & Hok1 & Hk1).
    assert (node ∈ R) as HR.
    { eapply gmultiset_elem_of_subseteq; [|apply Hba]. rewrite list_to_set_disj_cons. multiset_solver. }
    destruct (hok_held _ _ _ (proj1 Hok1) _ HR) as [n1 Hn1].
    destruct (Hk1 _ _ Hn1) as (n' & Hn' & En & _). assert (n' = n) as -> by congruence.
    destruct (addOrUpdate_ok (e node) now h1 st R node n1 Hok1 HR Hn1) as
      (new & st2 & h2 & Ea & Hok2 & Hk2 & Enew & Et).
    { intros Ht. apply (ba_out _ _ _ _ _ Hba) in Ht. set_solver. }
    assert (id <> 0) as Hnz by (pose proof (ba_nonzero _ _ _ _ _ Hba) as Hf; by inversion Hf).
    rewrite En, Hid in Enew, Et. rewrite (proj2 (Z.eqb_neq id 0)) in Enew by done. simpl in Enew.
    destruct (IH ids' h2 st2 (R ∖ {[+ node +]}) Hok2) as (st3 & h3 & E3 & Hok3 & Hk3 & Et3).
    { eapply batch_tail; [exact Hba|by transitivity h1|apply Hok2|]. rewrite Et. destruct new; auto. }
    exists st3, h3. unfold mbind, NM_bind. rewrite Ec. cbn [mbind option_bind].
    rewrite Ea. cbn [mbind option_bind]. rewrite E3.
    split; [done|]. refine (conj _ (conj _ _)); [|by transitivity h2; [transitivity h1|]|].
    + rewrite list_to_set_disj_cons.
      replace (R ∖ ({[+ node +]} ⊎ list_to_set_disj nodes))
        with ((R ∖ {[+ node +]}) ∖ list_to_set_disj nodes) by multiset_solver. done.
    + change (list_to_map (zip (id :: ids') (node :: nodes)))
        with (<[id := node]> (list_to_map (zip ids' nodes) : gmap Z Z)).
      rewrite Et3, Et, Enew. case_bool_decide as Hb.
      * by rewrite <- insert_union_l, insert_union_r.
      * apply map_eq. intros i. rewrite !lookup_union. destruct (decide (i = id)) as [->|Hne].
        -- destruct (tree_of st !! id); [|done]. by rewrite !union_Some_l.
        -- by rewrite lookup_insert_ne.
Qed.

(** A synchronisation with a downloaded list that is ordered by ID makes the store hold
    exactly the nodes of the list: nodes that were in the store keep their object (with the
    addresses and ports of the list), new ones are inserted, all others are removed; the two result
    lists name the added and removed IDs, every reference is accounted for, and a removed node is
    freed unless a thread still holds it. *)
Theorem sync_content e now caps h st R master ids :
  store_ok h st R -> batch_ok h (tree_of st) R master ids -> StronglySorted Z.lt ids ->
  exists st' h', NodeStoreEx_syncNodes e now caps st master [] [] h =
      Some ((filter (.∉ (rb_elements (tree_of st)).*1) ids,
             filter (.∉ ids) (rb_elements (tree_of st)).*1, st'), h') /\
    store_ok h' st' (R ∖ list_to_set_disj master) /\ kept h h' /\
    (forall id, tree_of st' !! id =
       if decide (id ∈ ids)
       then match tree_of st !! id with Some a => Some a
            | None => (list_to_map (zip ids master) : gmap Z Z) !! id end
       else None).
Proof.
  intros Hok Hba Hs. unfold NodeStoreEx_syncNodes. fold (tree_of st).
  set (gone := filter (.∉ ids) (rb_elements (tree_of st)).*1).
  pose proof (sync_identify_ok h master ids _ _ [] [] [] (ba_ids _ _ _ _ _ Hba) (tree_ids _ _ _ Hok) Hs
    (rb_elements_sorted _)) as E1.
  destruct (sync_remove_ok gone h st R Hok) as (st1 & h1 & E2 & Hok1 & Hk1 & Ht1).
  assert (batch_ok h1 (tree_of st1) R master ids) as Hba1.
  { destruct Hba as [Hi Hnd Hnz Href Hout]. split; auto.
    - eapply kept_ids; eauto. apply list.Forall_forall. intros a Ha. apply (hok_held _ _ _ (proj1 Hok1)).
      eapply gmultiset_elem_of_subseteq; [|exact Href]. by rewrite elem_of_list_to_set_disj.
    - intros id a Ha. rewrite Ht1 in Ha. case_decide; [done|by eapply Hout]. }
  destruct (sync_add_ok e now caps master ids h1 st1 R Hok1 Hba1) as (st2 & h2 & E3 & Hok2 & Hk2 & Ht2).
  exists st2, h2. unfold mbind, NM_bind. rewrite E1. cbn [mbind option_bind app]. fold gone.
  rewrite E2. cbn [mbind option_bind]. rewrite E3. split; [done|]. split; [done|].
  split; [by transitivity h1|]. intros id. rewrite Ht2, lookup_union, Ht1.
  assert (length ids = length master) as Hlen by (symmetry; exact (Forall2_length (ba_ids _ _ _ _ _ Hba))).
  destruct (decide (id ∈ ids)) as [Hin|Hin].
  - rewrite decide_False; [by destruct (tree_of st !! id); [rewrite union_Some_l|rewrite (left_id_L None _)]|].
    unfold gone. rewrite list_elem_of_filter. tauto.
  - assert ((list_to_map (zip ids master) : gmap Z Z) !! id = None) as ->.
    { apply not_elem_of_list_to_map_1. by rewrite fst_zip by lia. }
    rewrite (right_id_L None _). case_decide as Hg; [done|].
    destruct (tree_of st !! id) as [a|] eqn:Ea; [|done]. exfalso. apply Hg. unfold gone.
    rewrite list_elem_of_filter. split; [done|]. apply elem_of_rb_elements in Ea.
    by apply (list_elem_of_fmap_2 fst) in Ea.
Qed.

(** ** Faults *)

(** The iteration over a store needs the links of the old node: when the node was removed after it
    was referenced, the next step follows links that are not part of the tree any more. *)
Theorem iteration_after_removal st old n h b st' h' :
  store_ok h st {[+ old +]} -> h !! old = Some n -> tree_of st !! n_numID n = Some old ->
  NodeStoreEx_deleteNode st (n_numID n) h = Some ((b, st'), h') ->
  is_Some (h' !! old) /\ NodeStoreEx_referenceNextNodeAndReleaseOld st' old h' = None.
Proof.
  intros Hok Hn Ht E. destruct (delete_ok _ _ _ (n_numID n) Hok) as (st1 & h1 & E1 & Hok1 & Ht1 & Hk).
  rewrite E in E1. injection E1 as _ -> ->.
  destruct (hok_held _ _ _ (proj1 Hok1) old) as [m Hm]; [multiset_solver|].
  split; [by eexists|]. destruct (Hk _ _ Hm) as (n' & Hn' & En & _).
  unfold NodeStoreEx_referenceNextNodeAndReleaseOld, NodeTree_getNext.
  unfold mbind, NM_bind, nm_load. rewrite Hm. cbn [mbind option_bind].
  fold (tree_of st1). rewrite Ht1. assert (n' = n) as -> by congruence.
  rewrite En, lookup_delete_eq, bool_decide_false by done. done.
Qed.

(** A heartbeat without a numeric ID or of another node type jumps to the cleanup before the two
    interface lists are initialised, and frees their elements. *)
Theorem heartbeat_frees_uninitialised e uid (m : HeartbeatMsgEx) respBuf app h :
  hb_nodeNumID m = 0 \/ hb_nodeType m ∉ [NODETYPE_Meta; NODETYPE_Storage; NODETYPE_Mgmt] ->
  __HeartbeatMsgEx_processIncoming e uid m respBuf app h = None.
Proof.
  assert (heartbeat_finish uid m respBuf false app h = None) as Hf.
  { unfold heartbeat_finish, mbind, NM_bind, nm_lift. by destruct (MsgHelperAck_respondToAckRequest _ _ _) as [[]|]. }
  intros [E|E]; unfold __HeartbeatMsgEx_processIncoming; [by rewrite E|].
  rewrite !not_elem_of_cons in E. destruct E as (E1 & E2 & E3 & _).
  apply Z.eqb_neq in E1, E2, E3. cbn zeta. rewrite E1, E2, E3. by case_match.
Qed.

(** ** Concrete stores *)

Definition sample_pool : PoolConfig := MkPoolConfig 4 900 0 true.
Definition sample_node (numID : Z) (alias : string) : Node :=
  Node_init (MkAliasEnv true true) sample_pool (MkTime 100 0) (text alias) numID NODETYPE_Meta 8005 8005 []
    (Some []).
Definition sample_store (ids : list (Z * Z)) : NodeStoreEx :=
  MkNodeStoreEx (MkNodeTree (list_to_map ids) (Z.of_nat (length ids))) None (NodeOrGroup_fromNode 1)
    NODETYPE_Meta.

(** A node is added, referenced, removed and released. *)
Lemma node_references_invariant_witness :
  exists w, nw_heap w !! 10 = None /\ nw_ok w /\ nw_safe w.
Proof.
  eexists. split; [|eapply (node_references_invariant NODETYPE_Meta)].
  2:{ eapply rtc_l; [by apply (nw_construct ∅ _ _ 10 (MkAliasEnv true true) sample_pool
          (MkTime 100 0) (text "m1") 1 NODETYPE_Meta 8005 8005 [] None)|].
      eapply rtc_l; [eapply (nw_addOrUpdate _ _ _ 10 _ (MkAliasEnv true true) (MkTime 101 0));
          [multiset_solver|reflexivity|discriminate|vm_compute; reflexivity]|].
      eapply rtc_l; [eapply (nw_reference _ _ _ 1); vm_compute; reflexivity|].
      eapply rtc_l; [eapply (nw_delete _ _ _ 1); vm_compute; reflexivity|].
      eapply rtc_l; [eapply (nw_put _ _ _ 10); [multiset_solver|vm_compute; reflexivity]|].
      apply rtc_refl. }
  reflexivity.
Defined.


(** The nodes 1 and 2 are in the store; the list has the nodes 2 and 3. *)
Definition sample_heap : Heap :=
  <[10 := Node_setIsActive true (sample_node 1 "m1")]> (<[11 := Node_setIsActive true (sample_node 2 "m2")]>
  (<[20 := sample_node 2 "m2"]> (<[21 := sample_node 3 "m3"]> ∅))).
Definition sample_list : list Z := [20; 21].

Lemma sample_store_ok : store_ok sample_heap (sample_store [(1, 10); (2, 11)]) (list_to_set_disj sample_list).
Proof.
  split; [|reflexivity]. split.
  - intros id a Ha. unfold tree_of in Ha. cbn in Ha.
    apply lookup_insert_Some in Ha as [[<- <-]|[_ Ha]]; [by eexists|].
    apply lookup_insert_Some in Ha as [[<- <-]|[_ Ha]]; [by eexists|].
    by rewrite lookup_empty in Ha.
  - intros a n Hn. unfold sample_heap in Hn.
    do 4 (apply lookup_insert_Some in Hn as [[<- <-]|[_ Hn]]; [by vm_compute|]).
    by rewrite lookup_empty in Hn.
  - intros a Ha. rewrite elem_of_list_to_set_disj in Ha.
    repeat (apply elem_of_cons in Ha as [->|Ha]; [by eexists|]). inversion Ha.
Qed.

Lemma sample_batch_ok :
  batch_ok sample_heap (tree_of (sample_store [(1, 10); (2, 11)])) (list_to_set_disj sample_list)
    sample_list [2; 3].
Proof.
  split.
  - repeat constructor; eexists; by split.
  - apply (bool_decide_unpack _). by vm_compute.
  - by repeat constructor.
  - done.
  - intros id a Ha. unfold tree_of in Ha. cbn in Ha.
    do 2 (apply lookup_insert_Some in Ha as [[<- <-]|[_ Ha]]; [by apply (bool_decide_unpack _); vm_compute|]).
    by rewrite lookup_empty in Ha.
Qed.

Lemma sync_content_witness :
  exists st' h', NodeStoreEx_syncNodes (fun _ => MkAliasEnv true true) (MkTime 200 0) (Some false)
      (sample_store [(1, 10); (2, 11)]) sample_list [] [] sample_heap = Some (([3], [1], st'), h') /\
    tree_of st' !! 1 = None /\ tree_of st' !! 2 = Some 11 /\ tree_of st' !! 3 = Some 21.
Proof.
  destruct (sync_content (fun _ => MkAliasEnv true true) (MkTime 200 0) (Some false) sample_heap
    (sample_store [(1, 10); (2, 11)]) (list_to_set_disj sample_list) sample_list [2; 3])
    as (st' & h' & E & _ & _ & Ht).
  - exact sample_store_ok.
  - exact sample_batch_ok.
  - repeat constructor.
  - exists st', h'. split; [exact E|]. by rewrite !Ht.
Defined.

Definition sample_heartbeat (nodeNumID : Z) : HeartbeatMsgEx :=
  MkHeartbeatMsgEx 0 [] NODETYPE_Meta nodeNumID 0 false 0 0 8005 8005 0 [] [] 0 [] (MkRawList [] 0 0 0).
Definition sample_app : NodesApp :=
  MkNodesApp (NodeStoreEx_init NODETYPE_Meta) (NodeStoreEx_init NODETYPE_Storage)
    (NodeStoreEx_init NODETYPE_Mgmt) None [].
Definition sample_env_hb : HeartbeatEnv :=
  MkHeartbeatEnv 30 (MkAliasEnv true true) (MkAliasEnv true true) sample_pool (MkTime 100 0) [] [].

Lemma heartbeat_frees_uninitialised_witness :
  __HeartbeatMsgEx_processIncoming sample_env_hb 0 (sample_heartbeat 0) [] sample_app ∅ = None /\
  is_Some (__HeartbeatMsgEx_processIncoming sample_env_hb 0 (sample_heartbeat 5) [] sample_app ∅).
Proof.
  split; [|by vm_compute; eexists].
  apply (heartbeat_frees_uninitialised sample_env_hb 0 (sample_heartbeat 0) [] sample_app ∅). by left.
Defined.
