(* ===== verification/Acks.v ===== *)
(** * Acknowledgments and lock requests

    Models [common/toolkit/ackstore/AcknowledgmentStore.c], [AckStoreMap.h], [WaitAckMap.h],
    [components/AckManager.c], the handler of LockGranted messages
    ([common/net/message/session/locking/LockGrantedMsgEx.c]) and the lock requests of
    [net/filesystem/FhgfsOpsRemoting.c], all in [client_module/source].

    A thread that waits for a lock grant keeps its two maps and its notifier on its stack and
    registers pointers to them in the store.  A waiter is the address of that stack frame;
    [aw_waiters] holds the frames that are alive.  [None] is an access to a frame that is gone
    or through the NULL pointer of an iterator at its end.  The trees are finite maps and sets
    of IDs, compared as C strings.  A function is one critical section of the store;
    [receivedAck_find], [receivedAck_move] and [receivedAck_erase] are the parts of the one
    that takes the lock of the waiter as well. *)

From stdpp Require Import strings pretty.
From S2P Require Import Prelude StorageErrors Wire Serialization StorageFormats NetMessageTypes NetMessage BuddyGroup Mappers CommKit MessagesSession MessagesNodes MessageFactory CommKitOps Nics ConnPool MessagingTk NodeStore.

#[export] Program Instance byte_countable : Countable byte :=
  {| encode b := encode (Byte.to_N b); decode p := n ← decode p; Byte.of_N n |}.
Next Obligation. intros b. cbn. rewrite decode_encode. cbn. by rewrite Byte.of_to_N. Qed.

(** ** The store *)

(** The maps of a waiting thread: IDs that it waits for, and IDs that were received. *)
Record WaitAcks := MkWaitAcks {
  wa_waitAcks : gset (list byte);
  wa_receivedAcks : gset (list byte)
}.

(** [as_storeMap]: an entry points to the maps and to the notifier of one waiter. *)
Record AckWorld := MkAckWorld {
  as_storeMap : gmap (list byte) Z;
  aw_waiters : gmap Z WaitAcks
}.

(** A key that exists already keeps its entry. *)
Definition AckStoreMap_insert (m : gmap (list byte) Z) (key : list byte) (w : Z) :
    gmap (list byte) Z :=
  match m !! key with Some _ => m | None => <[key := w]> m end.

Definition AcknowledgmentStore_registerWaitAcks (w : Z) (s : AckWorld) : option AckWorld :=
  frame ← aw_waiters s !! w;
  Some (MkAckWorld
          (foldl (fun m key => AckStoreMap_insert m key w) (as_storeMap s)
             (elements (wa_waitAcks frame)))
          (aw_waiters s)).

(** One round of the loop: the entry is freed through the iterator, found or not. *)
Definition unregister_key (m : option (gmap (list byte) Z)) (key : list byte) :
    option (gmap (list byte) Z) :=
  m ← m; match m !! key with Some _ => Some (delete key m) | None => None end.

Definition AcknowledgmentStore_unregisterWaitAcks (w : Z) (s : AckWorld) : option AckWorld :=
  frame ← aw_waiters s !! w;
  m ← foldl unregister_key (Some (as_storeMap s)) (elements (wa_waitAcks frame));
  Some (MkAckWorld m (aw_waiters s)).

Definition receivedAck_find (ackID : list byte) (s : AckWorld) : option Z :=
  as_storeMap s !! ackID.
Definition receivedAck_move (w : Z) (ackID : list byte) (s : AckWorld) : option (bool * AckWorld) :=
  frame ← aw_waiters s !! w;
  Some (if decide (ackID ∈ wa_waitAcks frame)
        then (true, MkAckWorld (as_storeMap s)
                (<[w := MkWaitAcks (wa_waitAcks frame ∖ {[ackID]}) ({[ackID]} ∪ wa_receivedAcks frame)]>
                   (aw_waiters s)))
        else (false, s)).
Definition receivedAck_erase (ackID : list byte) (s : AckWorld) : AckWorld :=
  MkAckWorld (delete ackID (as_storeMap s)) (aw_waiters s).

Definition AcknowledgmentStore_receivedAck (ackID : list byte) (s : AckWorld) :
    option (bool * AckWorld) :=
  match receivedAck_find ackID s with
  | Some w => '(retVal, s) ← receivedAck_move w ackID s; Some (retVal, receivedAck_erase ackID s)
  | None => Some (false, s)
  end.

(** The result as it is after the wait. *)
Definition AcknowledgmentStore_waitForAckCompletion (w : Z) (s : AckWorld) : option bool :=
  frame ← aw_waiters s !! w;
  Some (bool_decide (wa_waitAcks frame = ∅)).

(** ** The queue of acknowledgments *)

Record AckQueueEntry := MkAckQueueEntry { aq_metaNodeID : Z; aq_ackID : list byte }.

Definition ACKMANAGER_MSGBUF_LEN : Z := 4096.

Definition AckManager_addAckToQueue (q : list AckQueueEntry) (metaNodeID : Z) (ackID : list byte) :
    list AckQueueEntry :=
  q ++ [MkAckQueueEntry metaNodeID (cstr ackID)].
Definition AckManager_getAckQueueSize (q : list AckQueueEntry) : Z := zlen q.
Definition __AckManager_removeQueueEntriesByNode (nodeID : Z) (q : list AckQueueEntry) :
    list AckQueueEntry :=
  List.filter (fun e => negb (nodeID =? aq_metaNodeID e)) q.

(** An attempt to send: the connection, the result of sending, the entries that other threads add
    while the queue is not locked. *)
Record AckAttempt := MkAckAttempt {
  at_sock : option Z;
  at_send : list byte -> Z;
  at_added : list AckQueueEntry
}.
(** A round of the loop over the queue; [ar_buf]: the content of the message buffer;
    [ar_attempts node]: the attempts over the connections of this node. *)
Record AckRound := MkAckRound {
  ar_selfTerminate : bool;
  ar_node : Z -> option Z;
  ar_buf : list byte;
  ar_attempts : Z -> nat -> AckAttempt
}.

Definition maxNumCommRetries : nat := 1.

(** The retries for one message, [n] of them left: whether it was sent, the entries behind the
    current one, and the events. *)
Fixpoint ack_send (n : nat) (attempts : nat -> AckAttempt) (packet : list byte)
    (q : list AckQueueEntry) (evs : list MsgEvent) : bool * list AckQueueEntry * list MsgEvent :=
  let a := attempts O in
  let q := q ++ at_added a in
  let fail evs :=
    match n with
    | O => (false, q, evs)
    | S n' => ack_send n' (fun i => attempts (S i)) packet q evs
    end in
  match at_sock a with
  | None => fail evs
  | Some sock =>
      let evs := evs ++ [Ev_acquireSock sock; Ev_send 0 0 0] in
      if at_send a packet =? zlen packet then (true, q, evs ++ [Ev_releaseSock sock])
      else fail (evs ++ [Ev_invalidateSock sock])
  end.

(** One entry: whether its acknowledgment was sent, the entries behind it and the events. *)
Definition ack_entry (uid : Z) (r : AckRound) (e : AckQueueEntry) (q : list AckQueueEntry) :
    option (bool * list AckQueueEntry * list MsgEvent) :=
  match ar_node r (aq_metaNodeID e) with
  | None => Some (false, q, [])
  | Some node =>
      '(msgLen, msg) ← NetMessage_getMsgLength (AckMsgEx_initFromValue uid (aq_ackID e));
      '(serialRes, _, buf) ← NetMessage_serialize msg (Some (ar_buf r)) ACKMANAGER_MSGBUF_LEN;
      if serialRes : bool then
        let '(sent, q, evs) :=
          ack_send maxNumCommRetries (ar_attempts r node) (take (Z.to_nat msgLen) (default [] buf)) q
            [Ev_refNode node] in
        let q := if sent then q else __AckManager_removeQueueEntriesByNode (aq_metaNodeID e) q in
        Some (sent, q, evs ++ [Ev_putNode node])
      else Some (false, q, [Ev_refNode node; Ev_putNode node])
  end.

Inductive AckOut :=
| Ack_done (sent : list AckQueueEntry) (queue : list AckQueueEntry) (events : list MsgEvent)
| Ack_fault
| Ack_out_of_fuel.

Fixpoint ack_loop (fuel : nat) (uid : Z) (rounds : nat -> AckRound) (sent q : list AckQueueEntry)
    (evs : list MsgEvent) : AckOut :=
  match q with
  | [] => Ack_done sent [] evs
  | e :: q' =>
      if ar_selfTerminate (rounds O) then Ack_done sent q evs
      else
        match fuel with
        | O => Ack_out_of_fuel
        | S fuel' =>
            match ack_entry uid (rounds O) e q' with
            | None => Ack_fault
            | Some (ok, q', evs') =>
                ack_loop fuel' uid (fun i => rounds (S i)) (if ok : bool then sent ++ [e] else sent) q'
                  (evs ++ evs')
            end
        end
  end.

Definition __AckManager_processAckQueue (fuel : nat) (uid : Z) (rounds : nat -> AckRound)
    (q : list AckQueueEntry) : AckOut := ack_loop fuel uid rounds [] q [].

(** ** Lock grants *)

(** The parts of the [App] object that the lock requests and the handler share; [la_sent]: the
    packets that were sent as a response to grants. *)
Record LockApp := MkLockApp {
  la_acks : AckWorld;
  la_queue : list AckQueueEntry;
  la_sent : list (list byte);
  la_counter : Z
}.
Definition set_acks (s : AckWorld) (app : LockApp) : LockApp :=
  MkLockApp s (la_queue app) (la_sent app) (la_counter app).

Definition __LockGrantedMsgEx_processIncoming (uid : Z) (this : LockGrantedMsgEx)
    (respBuf : list byte) (app : LockApp) : option (bool * LockApp) :=
  '(gotLockWaiter, acks) ← AcknowledgmentStore_receivedAck (cstr (lg_lockAckID this)) (la_acks app);
  if gotLockWaiter : bool then
    '(_, packets) ← MsgHelperAck_respondToAckRequest uid (lg_ackID this) respBuf;
    Some (true, MkLockApp acks
                  (AckManager_addAckToQueue (la_queue app) (lg_granterNodeID this) (lg_ackID this))
                  (la_sent app ++ packets) (la_counter app))
  else Some (true, set_acks acks app).

(** The grants that the listener handles, one after the other. *)
Fixpoint handle_grants (uid : Z) (respBuf : list byte) (msgs : list LockGrantedMsgEx)
    (app : LockApp) : option LockApp :=
  match msgs with
  | [] => Some app
  | msg :: msgs =>
      '(_, app) ← __LockGrantedMsgEx_processIncoming uid msg respBuf app;
      handle_grants uid respBuf msgs app
  end.

(** ** Lock requests *)

Definition ENTRYLOCKTYPE_NOWAIT : Z := 8.

(** What happens during one request: the entry info (it may change while its lock is given up),
    the rounds of the exchange, the grants that the listener handles before the response is
    evaluated, during the wait, and between the wait and the deregistration, and whether a signal
    is pending after the wait. *)
Record FlockEnv := MkFlockEnv {
  fk_entryInfo : EntryInfo;
  fk_rounds : nat -> NodeEnv;
  fk_grants_before : list LockGrantedMsgEx;
  fk_grants_wait : list LockGrantedMsgEx;
  fk_signal : bool;
  fk_grants_late : list LockGrantedMsgEx
}.

(** The lock of the entry info is given up during the wait. *)
Inductive FlockEvent := FE_msg (ev : MsgEvent) | FE_readUnlock | FE_readLock.

Inductive FlockOut :=
| Flock_return (ret : Z) (app : LockApp) (events : list FlockEvent)
| Flock_fault
| Flock_out_of_fuel.

(** The value of a response of the class SimpleIntMsg. *)
Definition simple_int_value (m : option SomeMsg) : option Z :=
  match m with
  | Some (Some (existT K_SimpleInt msg)) => Some (sim_value (msgBody msg))
  | _ => None
  end.

(** Configuration and surroundings of the calls; [fc_waiter]: the address of the stack frame. *)
Record FlockConfig := MkFlockConfig {
  fc_kmalloc_ok : Z -> bool;
  fc_fresh : forall k, kind_type k;
  fc_connRetriesEnabled : bool;
  fc_connNumCommRetries : Z;
  fc_fuel : nat;
  fc_uid : Z;
  fc_respBuf : list byte;
  fc_waiter : Z;
  fc_localNodeNumID : Z;
  fc_alias : list byte
}.

Section Flock.
Context {M : Type} `{NetMessageOps M}.
Context (c : FlockConfig).

(** The frame of the caller with the maps in their initial state. *)
Definition enter_frame (w : Z) (lockAckID : list byte) (s : AckWorld) : AckWorld :=
  MkAckWorld (as_storeMap s) (<[w := MkWaitAcks {[cstr lockAckID]} ∅]> (aw_waiters s)).
Definition leave_frame (w : Z) (s : AckWorld) : AckWorld :=
  MkAckWorld (as_storeMap s) (delete w (aw_waiters s)).

Definition flock_rw (eiRLock : bool) (ev : FlockEvent) : list FlockEvent :=
  if eiRLock then [ev] else [].

(** The exchange: its result and the value of the response. *)
Definition flock_exchange (env : FlockEnv) (requestMsg : NetMessage M) (respMsgType : Z)
    (peer : RRPeer) (allowRetries : bool) : RROut M :=
  let rrArgs := RequestResponseArgs_prepare None requestMsg respMsgType in
  if allowRetries
  then MessagingTk_requestResponseNodeRetryAutoIntr (fc_kmalloc_ok c) (fc_fresh c)
         (fc_connRetriesEnabled c) (fc_fuel c) (fc_connNumCommRetries c) peer true true
         (fk_rounds env) rrArgs
  else MessagingTk_requestResponseNode (fc_kmalloc_ok c) (fc_fresh c) (fc_connRetriesEnabled c)
         (fc_fuel c) peer true true (fk_rounds env) rrArgs.

(** The wait after a response: the result so far, the state and the events. *)
Definition flock_wait (env : FlockEnv) (lockTypeFlags : Z) (eiRLock : bool) (retVal : Z)
    (app : LockApp) : option (Z * LockApp * list FlockEvent) :=
  if (retVal =? FhgfsOpsErr_WOULDBLOCK) && (Z.land lockTypeFlags ENTRYLOCKTYPE_NOWAIT =? 0) then
    app ← handle_grants (fc_uid c) (fc_respBuf c) (fk_grants_wait env) app;
    waitRes ← AcknowledgmentStore_waitForAckCompletion (fc_waiter c) (la_acks app);
    Some (if waitRes : bool then FhgfsOpsErr_SUCCESS
          else if negb (fk_signal env) then retVal else FhgfsOpsErr_INTERRUPTED,
          app, flock_rw eiRLock FE_readUnlock ++ flock_rw eiRLock FE_readLock)
  else Some (retVal, app, []).

(** Deregistration and the last look at the received grants. *)
Definition flock_finish (env : FlockEnv) (retVal : Z) (app : LockApp) : option (Z * LockApp) :=
  app ← handle_grants (fc_uid c) (fc_respBuf c) (fk_grants_late env) app;
  acks ← AcknowledgmentStore_unregisterWaitAcks (fc_waiter c) (la_acks app);
  frame ← aw_waiters acks !! fc_waiter c;
  let retVal :=
    if (retVal =? FhgfsOpsErr_INTERRUPTED) && negb (bool_decide (wa_receivedAcks frame = ∅))
    then FhgfsOpsErr_SUCCESS else retVal in
  Some (retVal, set_acks (leave_frame (fc_waiter c) acks) app).

Definition __FhgfsOpsRemoting_flockGenericEx (env : FlockEnv) (requestMsg : NetMessage M)
    (respMsgType : Z) (owner : NodeOrGroup) (isBuddyMirrored : bool) (lockTypeFlags : Z)
    (lockAckID : list byte) (allowRetries eiRLock : bool) (app : LockApp) : FlockOut :=
  let peer := if isBuddyMirrored then RRPeer_group (ng_id owner) else RRPeer_target (ng_id owner) in
  let w := fc_waiter c in
  match AcknowledgmentStore_registerWaitAcks w (enter_frame w lockAckID (la_acks app)) with
  | None => Flock_fault
  | Some acks =>
      match handle_grants (fc_uid c) (fc_respBuf c) (fk_grants_before env) (set_acks acks app) with
      | None => Flock_fault
      | Some app =>
          match flock_exchange env requestMsg respMsgType peer allowRetries with
          | RR_fault => Flock_fault
          | RR_out_of_fuel => Flock_out_of_fuel
          | RR_return requestRes rrArgs evs =>
              let finish retVal app evs' :=
                match flock_finish env retVal app with
                | Some (retVal, app) => Flock_return retVal app ((FE_msg <$> evs) ++ evs')
                | None => Flock_fault
                end in
              if negb (requestRes =? FhgfsOpsErr_SUCCESS) then finish requestRes app []
              else
                match simple_int_value (rr_outRespMsg rrArgs) with
                | None => Flock_fault
                | Some retVal =>
                    let freed := FE_msg <$> (RequestResponseArgs_freeRespBuffers rrArgs).2 in
                    match flock_wait env lockTypeFlags eiRLock retVal app with
                    | Some (retVal, app, evs') => finish retVal app (freed ++ evs')
                    | None => Flock_fault
                    end
                end
          end
      end
  end.
End Flock.

(** [%X] of an unsigned integer: its hexadecimal digits without leading zeros. *)
Definition hex_digit (d : Z) : byte := default Byte.x00 (text "0123456789ABCDEF" !! Z.to_nat d).
Fixpoint hex_digits (n : nat) (z : Z) (acc : list byte) : list byte :=
  match n with
  | O => acc
  | S n' =>
      let acc := hex_digit (z mod 16) :: acc in
      if z / 16 =? 0 then acc else hex_digits n' (z / 16) acc
  end.
Definition text_hex (z : Z) : list byte := hex_digits 8 (u32 z) [].

(** The ID of the next lock request and the counter after it. *)
Definition lock_ack_id (counter : Z) (alias suffix : list byte) : list byte :=
  text_hex counter ++ text "-" ++ alias ++ suffix.
Definition count_lock (app : LockApp) : LockApp :=
  MkLockApp (la_acks app) (la_queue app) (la_sent app) (s32 (la_counter app + 1)).

(** The loop around the requests: [request entryInfo] is the message of the next request;
    [envs]: what happens during each of them. *)
Fixpoint flock_loop {M} `{NetMessageOps M} (fuel : nat) (c : FlockConfig) (envs : nat -> FlockEnv)
    (request : EntryInfo -> NetMessage M) (respMsgType : Z) (lockTypeFlags : Z)
    (lockAckID : list byte) (allowRetries eiRLock : bool) (app : LockApp) (evs : list FlockEvent) :
    FlockOut :=
  match fuel with
  | O => Flock_out_of_fuel
  | S fuel' =>
      let entryInfo := fk_entryInfo (envs O) in
      match __FhgfsOpsRemoting_flockGenericEx c (envs O) (request entryInfo) respMsgType
              (ei_owner entryInfo) (EntryInfo_getIsBuddyMirrored entryInfo) lockTypeFlags lockAckID
              allowRetries eiRLock app with
      | Flock_return lockRes app evs' =>
          if (lockRes =? FhgfsOpsErr_WOULDBLOCK) && (Z.land lockTypeFlags ENTRYLOCKTYPE_NOWAIT =? 0)
          then flock_loop fuel' c (fun i => envs (S i)) request respMsgType lockTypeFlags
                 lockAckID allowRetries eiRLock app (evs ++ evs')
          else Flock_return lockRes app (evs ++ evs')
      | out => out
      end
  end.

Section Flocks.
Context (fuel : nat) (c : FlockConfig) (envs : nat -> FlockEnv).
(** [kasprintf]: the allocation of the ID succeeds. *)
Context (eiRLock kasprintf : bool) (fileHandleID : list byte).

Definition FhgfsOpsRemoting_flockAppendEx (clientFD ownerPID lockTypeFlags : Z)
    (allowRetries : bool) (app : LockApp) : FlockOut :=
  let app := count_lock app in
  let lockAckID := lock_ack_id (la_counter app) (fc_alias c) (text "-alck") in
  if negb kasprintf then Flock_return FhgfsOpsErr_INTERNAL app []
  else
    flock_loop fuel c envs
      (fun entryInfo => FLockAppendMsg_initFromSession (fc_uid c) (fc_localNodeNumID c) fileHandleID
         entryInfo clientFD ownerPID lockTypeFlags lockAckID)
      NETMSGTYPE_FLockAppendResp lockTypeFlags lockAckID allowRetries eiRLock app [].

Definition FhgfsOpsRemoting_flockEntryEx (clientFD ownerPID lockTypeFlags : Z)
    (allowRetries : bool) (app : LockApp) : FlockOut :=
  let app := count_lock app in
  let lockAckID := lock_ack_id (la_counter app) (fc_alias c) (text "-elck") in
  if negb kasprintf then Flock_return FhgfsOpsErr_INTERNAL app []
  else
    flock_loop fuel c envs
      (fun entryInfo => FLockEntryMsg_initFromSession (fc_uid c) (fc_localNodeNumID c) fileHandleID
         entryInfo clientFD ownerPID lockTypeFlags lockAckID)
      NETMSGTYPE_FLockEntryResp lockTypeFlags lockAckID allowRetries eiRLock app [].

Definition FhgfsOpsRemoting_flockRangeEx (ownerPID lockTypeFlags start end_ : Z)
    (allowRetries : bool) (app : LockApp) : FlockOut :=
  let app := count_lock app in
  let lockAckID := lock_ack_id (la_counter app) (fc_alias c) (text "-rlck") in
  if negb kasprintf then Flock_return FhgfsOpsErr_INTERNAL app []
  else
    flock_loop fuel c envs
      (fun entryInfo => FLockRangeMsg_initFromSession (fc_uid c) (fc_localNodeNumID c) fileHandleID
         entryInfo ownerPID lockTypeFlags start end_ lockAckID)
      NETMSGTYPE_FLockRangeResp lockTypeFlags lockAckID allowRetries eiRLock app [].
End Flocks.

(** ** Interleavings

    Waiters and receivers of grants as threads.  [av_holder]: a receiver inside the critical
    section of the store, before or after it has moved the ID.  [av_phase]: how far a waiter is.
    [av_acked]: the IDs whose grants were acknowledged. *)

Inductive WaitPhase := WP_prepared | WP_registered | WP_unregistered.
Inductive ReceiverAt := RA_found (ackID : list byte) (w : Z) | RA_moved (ackID : list byte) (w : Z).

Record AckSystem := MkAckSystem {
  av_world : AckWorld;
  av_holder : option ReceiverAt;
  av_phase : gmap Z WaitPhase;
  av_acked : gset (list byte)
}.

(** The IDs of a frame. *)
Definition frame_ids (f : WaitAcks) : gset (list byte) := wa_waitAcks f ∪ wa_receivedAcks f.
(** No thread that is alive uses the ID. *)
Definition fresh_id (id : list byte) (v : AckSystem) : Prop :=
  map_Forall (fun _ f => id ∉ frame_ids f) (aw_waiters (av_world v)).

Inductive ack_step (v : AckSystem) : AckSystem -> Prop :=
| AS_enter w id :
    aw_waiters (av_world v) !! w = None -> fresh_id (cstr id) v ->
    ack_step v (MkAckSystem (enter_frame w id (av_world v)) (av_holder v)
                  (<[w := WP_prepared]> (av_phase v)) (av_acked v ∖ {[cstr id]}))
| AS_register w s' :
    av_phase v !! w = Some WP_prepared -> av_holder v = None ->
    AcknowledgmentStore_registerWaitAcks w (av_world v) = Some s' ->
    ack_step v (MkAckSystem s' None (<[w := WP_registered]> (av_phase v)) (av_acked v))
| AS_unregister w s' :
    av_phase v !! w = Some WP_registered -> av_holder v = None ->
    AcknowledgmentStore_unregisterWaitAcks w (av_world v) = Some s' ->
    ack_step v (MkAckSystem s' None (<[w := WP_unregistered]> (av_phase v)) (av_acked v))
| AS_leave w :
    av_phase v !! w = Some WP_unregistered ->
    ack_step v (MkAckSystem (leave_frame w (av_world v)) (av_holder v) (delete w (av_phase v))
                  (av_acked v))
| AS_find id w :
    av_holder v = None -> receivedAck_find id (av_world v) = Some w ->
    ack_step v (MkAckSystem (av_world v) (Some (RA_found id w)) (av_phase v) (av_acked v))
| AS_move id w ok s' :
    av_holder v = Some (RA_found id w) -> receivedAck_move w id (av_world v) = Some (ok, s') ->
    ack_step v (MkAckSystem s' (Some (RA_moved id w)) (av_phase v)
                  (if ok then {[id]} ∪ av_acked v else av_acked v))
| AS_erase id w :
    av_holder v = Some (RA_moved id w) ->
    ack_step v (MkAckSystem (receivedAck_erase id (av_world v)) None (av_phase v) (av_acked v)).

(** An operation of a thread that accesses memory that is gone. *)
Definition ack_fault (v : AckSystem) : Prop :=
  (exists w, av_phase v !! w = Some WP_prepared /\ av_holder v = None /\
     AcknowledgmentStore_registerWaitAcks w (av_world v) = None) \/
  (exists w, av_phase v !! w = Some WP_registered /\ av_holder v = None /\
     AcknowledgmentStore_unregisterWaitAcks w (av_world v) = None) \/
  (exists w, av_phase v !! w = Some WP_registered /\
     AcknowledgmentStore_waitForAckCompletion w (av_world v) = None) \/
  (exists id w, av_holder v = Some (RA_found id w) /\
     receivedAck_move w id (av_world v) = None).

Definition ack_start : AckSystem := MkAckSystem (MkAckWorld ∅ ∅) None ∅ ∅.
