(* ===== verification/AcksFacts.v ===== *)
(** * Facts about acknowledgments and lock requests

    The invariant of the store over all interleavings of waiting threads and receivers of grants,
    the results of lock requests, the uniqueness of their IDs, and the queue of
    acknowledgments. *)

From stdpp Require Import strings pretty.
From S2P Require Import Prelude StorageErrors Wire Serialization SerializationFacts StorageFormats StorageFormatsFacts NetMessageTypes NetMessage NetMessageFacts BuddyGroup Mappers CommKit MessagesSession MessagesNodes MessageFactory MessagesFacts CommKitOps Nics ConnPool MessageFactoryFacts MessagingTk MessagingTkFacts NodeStore Acks.

(** ** Interleavings *)

Definition ack_reachable : AckSystem -> Prop := rtc ack_step ack_start.

(** The receiver is between moving an ID of the waiter and erasing its entry. *)
Definition moved (v : AckSystem) (id : list byte) (w : Z) : Prop :=
  av_holder v = Some (RA_moved id w).

Record ack_ok (v : AckSystem) : Prop := MkAckOk {
  ao_alive : dom (av_phase v) = dom (aw_waiters (av_world v));
  ao_entry id w : as_storeMap (av_world v) !! id = Some w ->
    av_phase v !! w = Some WP_registered /\
    exists f, aw_waiters (av_world v) !! w = Some f /\ (id ∈ wa_waitAcks f \/ moved v id w);
  ao_waiting id w f : av_phase v !! w = Some WP_registered -> aw_waiters (av_world v) !! w = Some f ->
    id ∈ wa_waitAcks f -> as_storeMap (av_world v) !! id = Some w;
  ao_holder id w : av_holder v = Some (RA_found id w) \/ moved v id w ->
    as_storeMap (av_world v) !! id = Some w;
  ao_found id w f : av_holder v = Some (RA_found id w) -> aw_waiters (av_world v) !! w = Some f ->
    id ∈ wa_waitAcks f;
  ao_gone id w f : moved v id w -> aw_waiters (av_world v) !! w = Some f -> id ∉ wa_waitAcks f;
  ao_unique id w1 w2 f1 f2 : aw_waiters (av_world v) !! w1 = Some f1 ->
    aw_waiters (av_world v) !! w2 = Some f2 -> id ∈ frame_ids f1 -> id ∈ frame_ids f2 -> w1 = w2;
  ao_acked id w f : aw_waiters (av_world v) !! w = Some f -> id ∈ frame_ids f ->
    (id ∈ av_acked v <-> id ∈ wa_receivedAcks f);
  ao_apart w f : aw_waiters (av_world v) !! w = Some f -> wa_waitAcks f ## wa_receivedAcks f
}.

Lemma register_lookup w l m id :
  foldl (fun m key => AckStoreMap_insert m key w) m l !! id =
    match m !! id with Some w' => Some w' | None => if decide (id ∈ l) then Some w else None end.
Proof.
  revert m. induction l as [|k l IH]; intros m; cbn [foldl].
  { rewrite decide_False by apply not_elem_of_nil. by destruct (m !! id). }
  rewrite IH. unfold AckStoreMap_insert. destruct (m !! k) eqn:Ek.
  - destruct (m !! id) eqn:E; [done|]. destruct (decide (id ∈ l)) as [Hl|Hl].
    + by rewrite decide_True by (by right).
    + rewrite decide_False; [done|]. intros [->|?]%elem_of_cons; congruence.
  - destruct (decide (id = k)) as [->|Hne].
    + rewrite lookup_insert_eq, Ek. by rewrite decide_True by apply list_elem_of_here.
    + rewrite lookup_insert_ne by done. destruct (m !! id); [done|].
      apply decide_ext. rewrite elem_of_cons. naive_solver.
Qed.

Lemma unregister_fold l m : NoDup l -> (forall id, id ∈ l -> is_Some (m !! id)) ->
  exists m', foldl unregister_key (Some m) l = Some m' /\
    forall id, m' !! id = if decide (id ∈ l) then None else m !! id.
Proof.
  revert m. induction l as [|k l IH]; intros m Hnd Hm.
  { exists m. split; [done|]. intros id. by rewrite decide_False by apply not_elem_of_nil. }
  apply list.NoDup_cons in Hnd as [Hk Hnd]. cbn [foldl]. unfold unregister_key at 2.
  cbn [mbind option_bind]. destruct (Hm k) as [w Ew]; [apply list_elem_of_here|]. rewrite Ew.
  destruct (IH (delete k m) Hnd) as (m' & E & Hm').
  { intros id Hin. rewrite lookup_delete_ne by (intros ->; done). apply Hm. by right. }
  exists m'. split; [done|]. intros id. rewrite Hm'. destruct (decide (id = k)) as [->|Hne].
  - rewrite (decide_True (P := k ∈ k :: l)) by apply list_elem_of_here.
    rewrite lookup_delete_eq. by destruct (decide (k ∈ l)).
  - rewrite lookup_delete_ne by done. apply decide_ext. rewrite elem_of_cons. naive_solver.
Qed.

(** Registration and deregistration in one step of a system that is in order. *)
Lemma register_ok w f s :
  aw_waiters s !! w = Some f ->
  exists s', AcknowledgmentStore_registerWaitAcks w s = Some s' /\ aw_waiters s' = aw_waiters s /\
    forall id, as_storeMap s' !! id =
      match as_storeMap s !! id with
      | Some w' => Some w'
      | None => if decide (id ∈ wa_waitAcks f) then Some w else None
      end.
Proof.
  intros Hf. unfold AcknowledgmentStore_registerWaitAcks. rewrite Hf. cbn [mbind option_bind].
  eexists. split; [done|]. split; [done|]. intros id. cbn [as_storeMap]. rewrite register_lookup.
  destruct (_ !! id); [done|]. apply decide_ext, elem_of_elements.
Qed.

Lemma unregister_ok w f s :
  aw_waiters s !! w = Some f -> (forall id, id ∈ wa_waitAcks f -> as_storeMap s !! id = Some w) ->
  exists s', AcknowledgmentStore_unregisterWaitAcks w s = Some s' /\ aw_waiters s' = aw_waiters s /\
    forall id, as_storeMap s' !! id = if decide (id ∈ wa_waitAcks f) then None else as_storeMap s !! id.
Proof.
  intros Hf Hw. unfold AcknowledgmentStore_unregisterWaitAcks. rewrite Hf. cbn [mbind option_bind].
  destruct (unregister_fold (elements (wa_waitAcks f)) (as_storeMap s)) as (m' & E & Hm').
  { apply NoDup_elements. }
  { intros id Hin%elem_of_elements. eauto. }
  rewrite E. cbn [mbind option_bind]. eexists. split; [done|]. split; [done|]. intros id.
  cbn [as_storeMap]. rewrite Hm'. apply decide_ext, elem_of_elements.
Qed.

Lemma move_ok w f id s :
  aw_waiters s !! w = Some f -> id ∈ wa_waitAcks f ->
  receivedAck_move w id s = Some (true, MkAckWorld (as_storeMap s)
    (<[w := MkWaitAcks (wa_waitAcks f ∖ {[id]}) ({[id]} ∪ wa_receivedAcks f)]> (aw_waiters s))).
Proof.
  intros Hf Hin. unfold receivedAck_move. rewrite Hf. cbn [mbind option_bind].
  by rewrite decide_True.
Qed.

Lemma ack_start_ok : ack_ok ack_start.
Proof.
  split; unfold ack_start, moved; cbn; try set_solver;
    intros; repeat match goal with H : ∅ !! _ = Some _ |- _ => by rewrite lookup_empty in H end.
Qed.

(** What a live frame looks like after a thread has entered. *)
Lemma enter_lookup w id v w' f' :
  aw_waiters (enter_frame w id (av_world v)) !! w' = Some f' ->
  (w' = w /\ f' = MkWaitAcks {[cstr id]} ∅) \/ (w' <> w /\ aw_waiters (av_world v) !! w' = Some f').
Proof. unfold enter_frame. cbn. rewrite lookup_insert_Some. naive_solver. Qed.

Lemma phase_alive v w p : ack_ok v -> av_phase v !! w = Some p ->
  exists f, aw_waiters (av_world v) !! w = Some f.
Proof.
  intros Hok Hp. apply elem_of_dom_2 in Hp. rewrite (ao_alive v Hok) in Hp. by apply elem_of_dom in Hp.
Qed.

Lemma ack_enter_ok v w id : ack_ok v -> aw_waiters (av_world v) !! w = None ->
  fresh_id (cstr id) v ->
  ack_ok (MkAckSystem (enter_frame w id (av_world v)) (av_holder v)
            (<[w := WP_prepared]> (av_phase v)) (av_acked v ∖ {[cstr id]})).
Proof.
  intros Hok Hw Hfresh.
  assert (Hne : forall i w', as_storeMap (av_world v) !! i = Some w' -> w' <> w).
  { intros i w' (_ & f & Hf & _)%(ao_entry v Hok) ->. congruence. }
  assert (Hold : forall w' f', aw_waiters (av_world v) !! w' = Some f' -> cstr id ∉ frame_ids f').
  { intros w' f' Hf'. exact (Hfresh w' f' Hf'). }
  split; unfold moved; cbn [av_world av_holder av_phase av_acked].
  - unfold enter_frame; cbn. rewrite !dom_insert_L, (ao_alive v Hok). done.
  - intros i w' Hi. cbn in Hi. pose proof (Hne _ _ Hi) as Hn.
    destruct (ao_entry v Hok i w' Hi) as (Hp & f & Hf & Hin). rewrite lookup_insert_ne by done.
    split; [done|]. exists f. cbn. by rewrite lookup_insert_ne.
  - intros i w' f'. rewrite lookup_insert_Some. intros [[<- [=]]|[Hn Hp]] Hf' Hin.
    destruct (enter_lookup _ _ _ _ _ Hf') as [[? _]|[_ Hf'']]; [done|].
    exact (ao_waiting v Hok i w' f' Hp Hf'' Hin).
  - exact (ao_holder v Hok).
  - intros i w' f' Hh Hf'. destruct (enter_lookup _ _ _ _ _ Hf') as [[-> ->]|[_ Hf'']].
    + destruct (Hne i w (ao_holder v Hok i w (or_introl Hh))); done.
    + exact (ao_found v Hok i w' f' Hh Hf'').
  - intros i w' f' Hh Hf'. destruct (enter_lookup _ _ _ _ _ Hf') as [[-> ->]|[_ Hf'']].
    + destruct (Hne i w (ao_holder v Hok i w (or_intror Hh))); done.
    + exact (ao_gone v Hok i w' f' Hh Hf'').
  - intros i w1 w2 f1 f2 H1 H2 Hi1 Hi2.
    destruct (enter_lookup _ _ _ _ _ H1) as [[-> ->]|[Hn1 H1']],
      (enter_lookup _ _ _ _ _ H2) as [[-> ->]|[Hn2 H2']]; [done| | |].
    + destruct (Hold _ _ H2'). unfold frame_ids in Hi1; cbn in Hi1. set_solver.
    + destruct (Hold _ _ H1'). unfold frame_ids in Hi2; cbn in Hi2. set_solver.
    + exact (ao_unique v Hok i w1 w2 f1 f2 H1' H2' Hi1 Hi2).
  - intros i w' f' Hf' Hi. destruct (enter_lookup _ _ _ _ _ Hf') as [[-> ->]|[_ Hf'']].
    + unfold frame_ids in Hi; cbn in *. set_solver.
    + rewrite elem_of_difference, elem_of_singleton, (ao_acked v Hok i w' f' Hf'' Hi).
      specialize (Hold _ _ Hf''). split; [naive_solver|]. intros ?. split; [done|]. intros ->. done.
  - intros w' f' Hf'. destruct (enter_lookup _ _ _ _ _ Hf') as [[-> ->]|[_ Hf'']]; [set_solver|].
    exact (ao_apart v Hok w' f' Hf'').
Qed.

Lemma ack_register_ok v w s' : ack_ok v -> av_phase v !! w = Some WP_prepared ->
  av_holder v = None -> AcknowledgmentStore_registerWaitAcks w (av_world v) = Some s' ->
  ack_ok (MkAckSystem s' None (<[w := WP_registered]> (av_phase v)) (av_acked v)).
Proof.
  intros Hok Hp Hh E. destruct (phase_alive v w _ Hok Hp) as [f Hf].
  destruct (register_ok w f _ Hf) as (s & E' & Hs & Hm). rewrite E in E'. injection E' as <-.
  assert (Hne : forall i w', as_storeMap (av_world v) !! i = Some w' -> w' <> w).
  { intros i w' [Hp' _]%(ao_entry v Hok) ->. congruence. }
  split; unfold moved; cbn [av_world av_holder av_phase av_acked]; rewrite ?Hs.
  - rewrite dom_insert_L, (ao_alive v Hok). apply elem_of_dom_2 in Hf. set_solver.
  - intros i w'. rewrite Hm. destruct (_ !! i) as [w0|] eqn:Ei.
    + intros [= <-]. destruct (ao_entry v Hok i w0 Ei) as (Hp' & f' & Hf' & [Hin|Hmv]);
        [|unfold moved in Hmv; congruence].
      rewrite lookup_insert_ne by (intros <-; by eapply Hne). eauto.
    + destruct (decide _) as [Hin|]; [|done]. intros [= <-]. rewrite lookup_insert_eq. eauto.
  - intros i w' f' Hp' Hf' Hin. rewrite Hm. apply lookup_insert_Some in Hp' as [[<- _]|[Hn Hp']].
    + assert (f' = f) as -> by congruence. destruct (_ !! i) as [w0|] eqn:Ei.
      * destruct (ao_entry v Hok i w0 Ei) as (_ & f0 & Hf0 & [Hin0|Hmv]);
          [|unfold moved in Hmv; congruence].
        f_equal. apply (ao_unique v Hok i w0 w f0 f); try done; unfold frame_ids; set_solver.
      * by rewrite decide_True.
    + by rewrite (ao_waiting v Hok i w' f' Hp' Hf' Hin).
  - intros i w' [?|?]; done.
  - done.
  - done.
  - exact (ao_unique v Hok).
  - exact (ao_acked v Hok).
  - exact (ao_apart v Hok).
Qed.

Lemma ack_unregister_ok v w s' : ack_ok v -> av_phase v !! w = Some WP_registered ->
  av_holder v = None -> AcknowledgmentStore_unregisterWaitAcks w (av_world v) = Some s' ->
  ack_ok (MkAckSystem s' None (<[w := WP_unregistered]> (av_phase v)) (av_acked v)).
Proof.
  intros Hok Hp Hh E. destruct (phase_alive v w _ Hok Hp) as [f Hf].
  destruct (unregister_ok w f _ Hf) as (s & E' & Hs & Hm).
  { intros id Hin. exact (ao_waiting v Hok id w f Hp Hf Hin). }
  rewrite E in E'. injection E' as <-.
  split; unfold moved; cbn [av_world av_holder av_phase av_acked]; rewrite ?Hs.
  - rewrite dom_insert_L, (ao_alive v Hok). apply elem_of_dom_2 in Hf. set_solver.
  - intros i w'. rewrite Hm. destruct (decide _) as [|Hin]; [done|]. intros Hi.
    destruct (ao_entry v Hok i w' Hi) as (Hp' & f' & Hf' & [Hin'|Hmv]); [|unfold moved in Hmv; congruence].
    rewrite lookup_insert_ne by (intros <-; congruence). eauto.
  - intros i w' f' Hp' Hf' Hin. rewrite Hm. apply lookup_insert_Some in Hp' as [[_ ?]|[Hn Hp']]; [done|].
    rewrite decide_False; [exact (ao_waiting v Hok i w' f' Hp' Hf' Hin)|].
    intros Hin'. apply Hn. apply (ao_unique v Hok i w w' f f'); try done; unfold frame_ids; set_solver.
  - intros i w' [?|?]; done.
  - done.
  - done.
  - exact (ao_unique v Hok).
  - exact (ao_acked v Hok).
  - exact (ao_apart v Hok).
Qed.

Lemma ack_leave_ok v w : ack_ok v -> av_phase v !! w = Some WP_unregistered ->
  ack_ok (MkAckSystem (leave_frame w (av_world v)) (av_holder v) (delete w (av_phase v)) (av_acked v)).
Proof.
  intros Hok Hp.
  assert (Hsub : forall w' f', aw_waiters (leave_frame w (av_world v)) !! w' = Some f' ->
    w <> w' /\ aw_waiters (av_world v) !! w' = Some f').
  { intros w' f'. cbn. by rewrite lookup_delete_Some. }
  split; unfold moved; cbn [av_world av_holder av_phase av_acked].
  - cbn. rewrite !dom_delete_L. by rewrite (ao_alive v Hok).
  - intros i w' Hi. destruct (ao_entry v Hok i w' Hi) as (Hp' & f' & Hf' & Hin).
    assert (w <> w') by (intros <-; congruence). cbn. rewrite !lookup_delete_ne by done. eauto.
  - intros i w' f'. rewrite lookup_delete_Some. intros [Hn Hp'] [_ Hf']%Hsub Hin.
    exact (ao_waiting v Hok i w' f' Hp' Hf' Hin).
  - exact (ao_holder v Hok).
  - intros i w' f' Hh [_ Hf']%Hsub. exact (ao_found v Hok i w' f' Hh Hf').
  - intros i w' f' Hh [_ Hf']%Hsub. exact (ao_gone v Hok i w' f' Hh Hf').
  - intros i w1 w2 f1 f2 [_ H1]%Hsub [_ H2]%Hsub. exact (ao_unique v Hok i w1 w2 f1 f2 H1 H2).
  - intros i w' f' [_ Hf']%Hsub. exact (ao_acked v Hok i w' f' Hf').
  - intros w' f' [_ Hf']%Hsub. exact (ao_apart v Hok w' f' Hf').
Qed.

Lemma ack_find_ok v id w : ack_ok v -> av_holder v = None ->
  receivedAck_find id (av_world v) = Some w ->
  ack_ok (MkAckSystem (av_world v) (Some (RA_found id w)) (av_phase v) (av_acked v)).
Proof.
  intros Hok Hh Hfind. unfold receivedAck_find in Hfind.
  assert (Hno : forall i w', ~ moved v i w') by (unfold moved; congruence).
  split; unfold moved; cbn [av_world av_holder av_phase av_acked]; try apply Hok.
  - intros i w' Hi. destruct (ao_entry v Hok i w' Hi) as (Hp' & f' & Hf' & [Hin|?%Hno]); [|done].
    eauto.
  - intros i w' [[= <- <-]|?]; [|done]. done.
  - intros i w' f' [= <- <-] Hf'.
    destruct (ao_entry v Hok id w Hfind) as (_ & f & Hf & [Hin|?%Hno]); [|done]. congruence.
  - done.
Qed.

Lemma ack_move_ok v id w ok s' : ack_ok v -> av_holder v = Some (RA_found id w) ->
  receivedAck_move w id (av_world v) = Some (ok, s') ->
  ack_ok (MkAckSystem s' (Some (RA_moved id w)) (av_phase v)
            (if ok then {[id]} ∪ av_acked v else av_acked v)).
Proof.
  intros Hok Hh E. pose proof (ao_holder v Hok id w (or_introl Hh)) as Hi.
  destruct (ao_entry v Hok id w Hi) as (Hp & f & Hf & _).
  pose proof (ao_found v Hok id w f Hh Hf) as Hin. rewrite (move_ok w f id _ Hf Hin) in E.
  injection E as <- <-. set (f1 := MkWaitAcks _ _).
  assert (Hids : frame_ids f1 = frame_ids f).
  { unfold frame_ids, f1. cbn. apply leibniz_equiv. intros x. destruct (decide (x = id)); set_solver. }
  assert (Hsub : forall w' f', <[w := f1]> (aw_waiters (av_world v)) !! w' = Some f' ->
    exists f0, aw_waiters (av_world v) !! w' = Some f0 /\ frame_ids f' = frame_ids f0 /\
      (w' = w /\ f' = f1 /\ f0 = f \/ w' <> w /\ f' = f0)).
  { intros w' f' [[<- <-]|[Hn Hf']]%lookup_insert_Some; [exists f | exists f']; naive_solver. }
  split; unfold moved; cbn [av_world av_holder av_phase av_acked as_storeMap aw_waiters].
  - rewrite dom_insert_L, (ao_alive v Hok). apply elem_of_dom_2 in Hf. set_solver.
  - intros i w' Hi'. destruct (ao_entry v Hok i w' Hi') as (Hp' & f' & Hf' & [Hin'|Hmv]);
      [|unfold moved in Hmv; congruence].
    split; [done|]. destruct (decide (w' = w)) as [->|Hn].
    + exists f1. rewrite lookup_insert_eq. split; [done|]. assert (f' = f) as -> by congruence.
      destruct (decide (i = id)) as [->|]; [by right|]. left. unfold f1. set_solver.
    + exists f'. rewrite lookup_insert_ne by done. auto.
  - intros i w' f' Hp' (f0 & Hf0 & _ & Hc)%Hsub Hin'. apply (ao_waiting v Hok i w' f0 Hp' Hf0).
    destruct Hc as [(-> & -> & ->)|[_ ->]]; [|done]. unfold f1 in Hin'. cbn in Hin'. set_solver.
  - intros i w' [?|[= <- <-]]; done.
  - done.
  - intros i w' f' [= <- <-] (f0 & _ & _ & [(_ & -> & _)|[? _]])%Hsub; [unfold f1; cbn|done].
    set_solver.
  - intros i w1 w2 g1 g2 (h1 & H1 & E1 & _)%Hsub (h2 & H2 & E2 & _)%Hsub. rewrite E1, E2.
    exact (ao_unique v Hok i w1 w2 h1 h2 H1 H2).
  - intros i w' f' (f0 & Hf0 & Eids & Hc)%Hsub. rewrite Eids. intros Hin'.
    pose proof (ao_acked v Hok i w' f0 Hf0 Hin') as Hack.
    rewrite elem_of_union, elem_of_singleton, Hack. destruct Hc as [(-> & -> & ->)|[Hn ->]].
    + unfold f1. cbn. set_solver.
    + split; [|auto]. intros [->|?]; [|done]. destruct Hn. apply (ao_unique v Hok id w' w f0 f); try done.
      unfold frame_ids. set_solver.
  - intros w' f' (f0 & Hf0 & _ & Hc)%Hsub. pose proof (ao_apart v Hok w' f0 Hf0) as Ha.
    destruct Hc as [(-> & -> & ->)|[Hn ->]]; [|done]. unfold f1. cbn. set_solver.
Qed.

Lemma ack_erase_ok v id w : ack_ok v -> av_holder v = Some (RA_moved id w) ->
  ack_ok (MkAckSystem (receivedAck_erase id (av_world v)) None (av_phase v) (av_acked v)).
Proof.
  intros Hok Hh. pose proof (ao_gone v Hok id w) as Hnot. pose proof (ao_holder v Hok id w (or_intror Hh)) as Hi.
  split; unfold moved; cbn [av_world av_holder av_phase av_acked receivedAck_erase as_storeMap aw_waiters];
    try apply Hok; try done.
  - intros i w'. rewrite lookup_delete_Some. intros [Hn Hi'].
    destruct (ao_entry v Hok i w' Hi') as (Hp' & f' & Hf' & [Hin'|Hmv]); [eauto 6|].
    unfold moved in Hmv. congruence.
  - intros i w' f' Hp' Hf' Hin'. pose proof (ao_waiting v Hok i w' f' Hp' Hf' Hin') as Hi'.
    rewrite lookup_delete_ne; [done|]. intros ->. assert (w' = w) as -> by congruence.
    exact (Hnot f' Hh Hf' Hin').
  - intros i w' [?|?]; done.
Qed.

Lemma ack_step_ok v v' : ack_ok v -> ack_step v v' -> ack_ok v'.
Proof.
  intros Hok [].
  - by apply ack_enter_ok.
  - by eapply ack_register_ok.
  - by eapply ack_unregister_ok.
  - by apply ack_leave_ok.
  - by apply ack_find_ok.
  - by eapply ack_move_ok.
  - by eapply ack_erase_ok.
Qed.

Lemma ack_reachable_ok v : ack_reachable v -> ack_ok v.
Proof.
  apply rtc_ind_r; [exact ack_start_ok|]. intros u u' _ Hs IH. exact (ack_step_ok u u' IH Hs).
Qed.

(** C22: In every interleaving of threads that wait for grants with threads that handle incoming grants,
    if a thread starts to wait only under an ID that no other waiting thread uses (the code takes
    it from a counter of 32 bits; without that: [shared_id_faults]):
    no operation touches the maps of a waiter that is gone or an entry
    that does not exist; an entry of the store always belongs to a registered waiter, so that none
    is left when the waiter has deregistered; and the received IDs of a waiter are exactly the ones
    whose grants were acknowledged to the server since it has started to wait. *)
Theorem ack_store_invariant v : ack_reachable v ->
  ~ ack_fault v /\
  (forall id w, as_storeMap (av_world v) !! id = Some w -> av_phase v !! w = Some WP_registered) /\
  (forall w f id, aw_waiters (av_world v) !! w = Some f -> id ∈ frame_ids f ->
     (id ∈ av_acked v <-> id ∈ wa_receivedAcks f)).
Proof.
  intros Hok%ack_reachable_ok. split_and!.
  - intros [(w & Hp & _ & E)|[(w & Hp & Hh & E)|[(w & Hp & E)|(id & w & Hh & E)]]].
    + destruct (phase_alive v w _ Hok Hp) as [f Hf]. destruct (register_ok w f _ Hf) as (s & E' & _).
      congruence.
    + destruct (phase_alive v w _ Hok Hp) as [f Hf].
      destruct (unregister_ok w f _ Hf) as (s & E' & _); [|congruence].
      intros id Hin. exact (ao_waiting v Hok id w f Hp Hf Hin).
    + destruct (phase_alive v w _ Hok Hp) as [f Hf].
      unfold AcknowledgmentStore_waitForAckCompletion in E. by rewrite Hf in E.
    + pose proof (ao_holder v Hok id w (or_introl Hh)) as Hi.
      destruct (ao_entry v Hok id w Hi) as (_ & f & Hf & _).
      rewrite (move_ok w f id _ Hf (ao_found v Hok id w f Hh Hf)) in E. done.
  - intros id w Hi. exact (proj1 (ao_entry v Hok id w Hi)).
  - intros w f id Hf Hin. exact (ao_acked v Hok id w f Hf Hin).
Qed.

(** ** Lock requests *)












Section FlockResults.
Context {M : Type} `{NetMessageOps M}.
Context (c : FlockConfig) (lockTypeFlags : Z) (lockAckID : list byte) (allowRetries eiRLock : bool).
Abbreviation id := (cstr lockAckID).


End FlockResults.

(** ** IDs of lock requests *)

Definition unhex (b : byte) : Z :=
  let n := Z.of_N (Byte.to_N b) in if n <? 58 then n - 48 else n - 55.
Definition hex_value (v : Z) (l : list byte) : Z := foldl (fun v b => v * 16 + unhex b) v l.

Lemma hex_digit_cases d : 0 <= d < 16 -> unhex (hex_digit d) = d /\ hex_digit d <> Byte.x2d.
Proof.
  intros Hd. assert (Hc : d ∈ [0; 1; 2; 3; 4; 5; 6; 7; 8; 9; 10; 11; 12; 13; 14; 15]).
  { rewrite !elem_of_cons. lia. }
  revert d Hd Hc. assert (Hall : Forall (fun d => unhex (hex_digit d) = d /\ hex_digit d <> Byte.x2d)
    [0; 1; 2; 3; 4; 5; 6; 7; 8; 9; 10; 11; 12; 13; 14; 15]) by (repeat constructor; done).
  intros d _ Hin. rewrite list.Forall_forall in Hall. exact (Hall d Hin).
Qed.

Lemma hex_digits_step n z acc :
  hex_digits (S n) z acc =
    if z / 16 =? 0 then hex_digit (z mod 16) :: acc
    else hex_digits n (z / 16) (hex_digit (z mod 16) :: acc).
Proof. done. Qed.

Lemma hex_digits_value n : forall z acc, 0 <= z < 16 ^ Z.of_nat (S n) ->
  hex_value 0 (hex_digits (S n) z acc) = hex_value z acc.
Proof.
  induction n as [|n IH]; intros z acc Hz; rewrite hex_digits_step;
    pose proof (Z.mod_pos_bound z 16 eq_refl) as Hmod; pose proof (Z.div_mod z 16 ltac:(lia)) as Hdm;
    destruct (hex_digit_cases (z mod 16) Hmod) as [Hu _].
  - change (16 ^ Z.of_nat 1) with 16 in Hz. rewrite Z.div_small by done. cbn [Z.eqb hex_value foldl].
    rewrite Hu, Z.mod_small by done. done.
  - destruct (Z.eqb_spec (z / 16) 0) as [E|E].
    + cbn [hex_value foldl]. rewrite Hu. f_equal. lia.
    + rewrite IH.
      * cbn [hex_value foldl]. rewrite Hu. f_equal. lia.
      * rewrite Nat2Z.inj_succ, Z.pow_succ_r in Hz by lia. split; [apply Z.div_pos; lia|].
        apply Z.div_lt_upper_bound; lia.
Qed.

Lemma hex_digits_no_dash n : forall z acc, 0 <= z -> Byte.x2d ∉ acc -> Byte.x2d ∉ hex_digits n z acc.
Proof.
  induction n as [|n IH]; intros z acc Hz Hacc; cbn [hex_digits]; [done|].
  destruct (hex_digit_cases (z mod 16) (Z.mod_pos_bound z 16 eq_refl)) as [_ Hd].
  assert (Hacc' : Byte.x2d ∉ hex_digit (z mod 16) :: acc).
  { intros [?|?]%elem_of_cons; congruence. }
  destruct (_ =? 0); [done|]. apply IH; [apply Z.div_pos; lia|done].
Qed.

(** Text up to a dash. *)
Lemma dash_prefix (a b s t : list byte) :
  Byte.x2d ∉ a -> Byte.x2d ∉ b -> a ++ Byte.x2d :: s = b ++ Byte.x2d :: t -> a = b.
Proof.
  revert b. induction a as [|x a IH]; intros [|y b] Ha Hb E; cbn in E; try done.
  - injection E as E _. destruct Hb. rewrite E. apply list_elem_of_here.
  - injection E as E _. destruct Ha. rewrite <- E. apply list_elem_of_here.
  - injection E as -> E. f_equal. apply IH; [..|exact E]; intros ?; [apply Ha|apply Hb]; by right.
Qed.

(** The IDs of lock requests are unique: whatever the alias of the node is at the time, requests of
    whatever kind that have the same ID have the same value of the (32-bit) request counter. *)
Theorem lock_ids_unique k1 k2 alias1 alias2 suffix1 suffix2 :
  lock_ack_id k1 alias1 suffix1 = lock_ack_id k2 alias2 suffix2 -> u32 k1 = u32 k2.
Proof.
  unfold lock_ack_id. intros E%dash_prefix.
  - apply (f_equal (hex_value 0)) in E. unfold text_hex in E.
    pose proof (u32_range k1). pose proof (u32_range k2).
    rewrite !hex_digits_value in E by (cbn; lia). exact E.
  - apply hex_digits_no_dash; [apply u32_range|set_solver].
  - apply hex_digits_no_dash; [apply u32_range|set_solver].
Qed.

(** ** The queue of acknowledgments *)

(** The message for an entry fits into the buffer. *)
Definition ack_fits (uid : Z) (e : AckQueueEntry) : Prop :=
  zlen (ack_packet uid (aq_ackID e)) <= ACKMANAGER_MSGBUF_LEN.
Definition attempt_works (a : AckAttempt) (packet : list byte) : bool :=
  match at_sock a with Some _ => at_send a packet =? zlen packet | None => false end.
(** [up]: the nodes that exist and that one of the two attempts reaches.  Nothing is added to the
    queue in the round. *)
Definition round_reaches (up : Z -> bool) (r : AckRound) : Prop :=
  ar_selfTerminate r = false /\ zlen (ar_buf r) = ACKMANAGER_MSGBUF_LEN /\
  (forall node i, at_added (ar_attempts r node i) = []) /\
  forall n packet, up n = match ar_node r n with
    | None => false
    | Some node => attempt_works (ar_attempts r node 0) packet || attempt_works (ar_attempts r node 1) packet
    end.

Lemma ack_serialized uid r e q node :
  ar_node r (aq_metaNodeID e) = Some node -> zlen (ar_buf r) = ACKMANAGER_MSGBUF_LEN -> ack_fits uid e ->
  ack_entry uid r e q =
    let '(sent, q, evs) := ack_send maxNumCommRetries (ar_attempts r node) (ack_packet uid (aq_ackID e)) q
      [Ev_refNode node] in
    let q := if sent then q else __AckManager_removeQueueEntriesByNode (aq_metaNodeID e) q in
    Some (sent, q, evs ++ [Ev_putNode node]).
Proof.
  intros Hn Hb Hfit. unfold ack_entry. rewrite Hn. set (ackID := aq_ackID e) in *.
  unfold ack_fits in Hfit. fold ackID in Hfit.
  assert (Elen : zlen (ack_packet uid ackID) = NETMSG_HEADER_LENGTH + zlen (enc_str (cstr ackID))).
  { unfold ack_packet. by rewrite zlen_app, zlen_enc_header. }
  rewrite Elen in Hfit. unfold ACKMANAGER_MSGBUF_LEN in Hfit.
  pose proof (zlen_nonneg (cstr ackID)).
  assert (Hp : forall n, writes (serializePayload (with_header (fun h => set_msgLength h n)
    (AckMsgEx_initFromValue uid ackID))) (enc_str (cstr ackID))).
  { intros n. cbn [serializePayload SimpleStringMsg_Ops both_ops].
    unfold SimpleStringMsg_serializePayload. cbn. unfold strlen.
    unfold enc_str, NETMSG_HEADER_LENGTH in Hfit. autorewrite with zlen in Hfit.
    rewrite u32_small by lia. apply writes_cstr. }
  rewrite (getMsgLength_spec (AckMsgEx_initFromValue uid ackID) _ Hp ltac:(lia) (or_introl eq_refl)). cbn [mbind option_bind].
  rewrite <- Hb.
  rewrite (serialize_spec (sent (AckMsgEx_initFromValue uid ackID) (enc_str (cstr ackID))) _ (ar_buf r) Hp
    ltac:(lia) (or_intror eq_refl)). cbn [mbind option_bind].
  rewrite (proj2 (Z.ltb_ge _ _)) by (rewrite Hb; unfold ACKMANAGER_MSGBUF_LEN; lia). cbn beta iota.
  cbn [default]. unfold Datatypes.id. rewrite <- Elen, to_nat_zlen.
  change (enc_header ?n (msgHeader (sent ?m ?b))) with (enc_header n (msgHeader m)).
  assert (Ep : ack_packet uid ackID = enc_header (zlen (ack_packet uid ackID))
    (msgHeader (AckMsgEx_initFromValue uid ackID)) ++ enc_str (cstr ackID)) by (rewrite Elen; done).
  rewrite <- Ep. by rewrite take_splice_0.
Qed.

Lemma ack_send_reaches n : forall attempts packet q evs,
  (forall i, at_added (attempts i) = []) ->
  exists evs', ack_send n attempts packet q evs =
    (existsb (fun i => attempt_works (attempts i) packet) (seq 0 (S n)), q, evs').
Proof.
  induction n as [|n IH]; intros attempts packet q evs Hadd; cbn [ack_send]; rewrite Hadd, app_nil_r;
    cbn [seq existsb]; unfold attempt_works at 1.
  - destruct (at_sock (attempts O)); [|eauto]. destruct (_ =? _); eauto.
  - assert (Hnext : forall evs1, exists evs',
        ack_send n (fun i => attempts (S i)) packet q evs1 =
        (existsb (fun i => attempt_works (attempts i) packet) (seq 1 (S n)), q, evs')).
    { intros evs1. destruct (IH (fun i => attempts (S i)) packet q evs1) as [evs' E];
        [intros i; apply Hadd|]. exists evs'. rewrite E. do 2 f_equal.
      rewrite <- fmap_S_seq. clear. induction (seq 0 (S n)) as [|x l IH]; [done|].
      cbn [existsb fmap list_fmap]. by rewrite IH. }
    destruct (at_sock (attempts O)); [|by apply Hnext]. destruct (_ =? _); [eauto|by apply Hnext].
Qed.

Lemma ack_entry_reaches uid up r e q : round_reaches up r -> ack_fits uid e ->
  exists q' evs, ack_entry uid r e q = Some (up (aq_metaNodeID e), q', evs) /\ (length q' <= length q)%nat /\
    List.filter (fun e => up (aq_metaNodeID e)) q' = List.filter (fun e => up (aq_metaNodeID e)) q /\
    (forall x, x ∈ q' -> x ∈ q).
Proof.
  intros (_ & Hb & Hadd & Hup) Hfit. destruct (ar_node r (aq_metaNodeID e)) as [node|] eqn:En.
  - rewrite (ack_serialized uid r e q node En Hb Hfit).
    destruct (ack_send_reaches maxNumCommRetries (ar_attempts r node) (ack_packet uid (aq_ackID e)) q
      [Ev_refNode node] (Hadd node)) as [evs' E]. rewrite E.
    replace (existsb _ _) with (up (aq_metaNodeID e))
      by (rewrite (Hup _ (ack_packet uid (aq_ackID e))), En; cbn; by rewrite orb_false_r).
    eexists _, _. split; [done|]. destruct (up (aq_metaNodeID e)) eqn:Eu; [done|].
    unfold __AckManager_removeQueueEntriesByNode. split; [apply List.filter_length_le|]. split.
    + clear -Eu. induction q as [|x q IH]; [done|]. cbn [List.filter].
      destruct (Z.eqb_spec (aq_metaNodeID e) (aq_metaNodeID x)) as [Ex|Ex]; cbn [negb List.filter].
      * by rewrite <- Ex, Eu, IH.
      * by rewrite IH.
    + intros x. rewrite !list_elem_of_In, List.filter_In. naive_solver.
  - unfold ack_entry. rewrite En. eexists _, _. split; [|done].
    by rewrite (Hup _ []), En.
Qed.

Lemma ack_loop_reaches up uid : forall fuel rounds sent q evs,
  (forall i, round_reaches up (rounds i)) -> Forall (ack_fits uid) q -> (length q <= fuel)%nat ->
  exists evs', ack_loop fuel uid rounds sent q evs =
    Ack_done (sent ++ List.filter (fun e => up (aq_metaNodeID e)) q) [] evs'.
Proof.
  induction fuel as [|fuel IH]; intros rounds sent [|e q] evs Hr Hq Hf; cbn [length] in Hf;
    try lia; try (eexists; cbn [ack_loop List.filter]; by rewrite app_nil_r).
  apply list.Forall_cons in Hq as [He Hq]. cbn [ack_loop]. rewrite (proj1 (Hr O)).
  destruct (ack_entry_reaches uid up (rounds O) e q (Hr O) He) as (q' & evs1 & -> & Hlen & Hfil & Hsub).
  destruct (IH (fun i => rounds (S i)) (if up (aq_metaNodeID e) then sent ++ [e] else sent) q' (evs ++ evs1))
    as [evs' E].
  - intros i. apply Hr.
  - rewrite list.Forall_forall in *. intros x Hx. by apply Hq, Hsub.
  - lia.
  - exists evs'. rewrite E, Hfil. cbn [List.filter]. destruct (up _); [by rewrite <- app_assoc|done].
Qed.

(** The acknowledgments of the queue are sent in their order, each of them exactly once, if their
    nodes can be reached in one of two attempts; the ones for other nodes are dropped; and the queue
    is empty after as many rounds as it has entries. *)
Theorem ack_queue_sent up uid rounds q :
  (forall i, round_reaches up (rounds i)) -> Forall (ack_fits uid) q ->
  exists evs, __AckManager_processAckQueue (length q) uid rounds q =
    Ack_done (List.filter (fun e => up (aq_metaNodeID e)) q) [] evs.
Proof. intros Hr Hq. exact (ack_loop_reaches up uid (length q) rounds [] q [] Hr Hq (le_n _)). Qed.

(** ** Samples *)

Definition sample_lock_id : list byte := text "1-c1-elck".
Definition sample_waiting : AckSystem :=
  MkAckSystem (MkAckWorld {[sample_lock_id := 7]} {[7 := MkWaitAcks {[sample_lock_id]} ∅]})
    (Some (RA_found sample_lock_id 7)) {[7 := WP_registered]} ∅.

Lemma ack_store_invariant_witness :
  ~ ack_fault sample_waiting /\
  (forall id w, as_storeMap (av_world sample_waiting) !! id = Some w ->
     av_phase sample_waiting !! w = Some WP_registered) /\
  (forall w f id, aw_waiters (av_world sample_waiting) !! w = Some f -> id ∈ frame_ids f ->
     (id ∈ av_acked sample_waiting <-> id ∈ wa_receivedAcks f)).
Proof.
  apply (ack_store_invariant sample_waiting).
  eapply rtc_l; [apply (AS_enter ack_start 7 sample_lock_id); [done|apply map_Forall_empty]|].
  eapply rtc_l; [eapply (AS_register _ 7); vm_compute; reflexivity|].
  eapply rtc_l; [apply (AS_find _ sample_lock_id 7); vm_compute; reflexivity|].
  replace sample_waiting with (MkAckSystem (MkAckWorld {[sample_lock_id := 7]}
    {[7 := MkWaitAcks {[sample_lock_id]} ∅]}) (Some (RA_found sample_lock_id 7)) {[7 := WP_registered]}
    (∅ ∖ {[sample_lock_id]})) by (vm_compute; reflexivity).
  vm_compute. apply rtc_refl.
Defined.

Lemma lock_ids_unique_witness :
  lock_ack_id 255 (text "c1") (text "-elck") = lock_ack_id (255 + 2 ^ 32) (text "c1") (text "-elck") /\
  u32 255 = u32 (255 + 2 ^ 32).
Proof.
  assert (E : lock_ack_id 255 (text "c1") (text "-elck") = lock_ack_id (255 + 2 ^ 32) (text "c1") (text "-elck"))
    by (vm_compute; reflexivity).
  split; [exact E|]. exact (lock_ids_unique 255 (255 + 2 ^ 32) _ _ _ _ E).
Defined.

Definition sample_ack_round (i : nat) : AckRound :=
  MkAckRound false (fun n => Some (100 + n)) (replicate 4096 Byte.x00)
    (fun node i => MkAckAttempt (if node =? 102 then None else Some 5)
       (fun p => if (i =? 1)%nat then zlen p else -1) []).
Definition sample_queue : list AckQueueEntry :=
  [MkAckQueueEntry 1 (text "a"); MkAckQueueEntry 2 (text "b"); MkAckQueueEntry 3 (text "c");
   MkAckQueueEntry 2 (text "d")].

Lemma ack_queue_sent_witness :
  exists evs, __AckManager_processAckQueue 4 0 sample_ack_round sample_queue =
    Ack_done [MkAckQueueEntry 1 (text "a"); MkAckQueueEntry 3 (text "c")] [] evs.
Proof.
  apply (ack_queue_sent (fun n => negb (n =? 2)) 0 sample_ack_round sample_queue).
  - intros i. split; [done|]. split; [done|]. split; [done|]. intros n packet. cbn.
    unfold attempt_works. cbn [at_sock at_send]. destruct (Z.eqb_spec n 2) as [->|Hn]; [done|].
    replace (100 + n =? 102) with false by (symmetry; apply Z.eqb_neq; lia).
    cbn [Nat.eqb negb]. pose proof (zlen_nonneg packet). rewrite (Z.eqb_refl (zlen packet)).
    by rewrite orb_true_r.
  - repeat constructor; vm_compute; discriminate.
Defined.

(** Two requests for a lock on an entry that target 1 owns; the answers of the server, the grants of
    the two requests, and the signal. *)
Definition lock_config : FlockConfig :=
  MkFlockConfig (fun _ => true) fresh0 true 3 8 0 (replicate 200 Byte.x00) 7 1 (text "c1").
Definition lock_grant : LockGrantedMsgEx :=
  MkLockGrantedMsgEx 9 (text "1-c1-elck") 2 (text "g1") 1.
Definition small_buffers (e : CommEnv) : CommEnv :=
  MkCommEnv (cm_conn e) (cm_fatal_connect e) 512 (cm_buf e) (cm_kmalloc e) (cm_send e) (cm_recv1 e)
    (cm_recv2 e) (cm_fatal_recv e) (cm_garbage e).
Definition lock_round (answer : Z) : NodeEnv :=
  sample_round None (small_buffers
    (sample_comm true (Some (sample_message NETMSGTYPE_FLockEntryResp 0 (le_split 4 answer))))).
Definition lock_env (answer : Z) (wait late : list LockGrantedMsgEx) (signal : bool) : FlockEnv :=
  MkFlockEnv (EntryInfo_init (MkNodeOrGroup 1 false) [] [] [] 2 0) (fun _ => lock_round answer) [] wait
    signal late.
Definition lock_start : LockApp := MkLockApp (MkAckWorld ∅ ∅) [] [] 0.
Definition lock_call (envs : nat -> FlockEnv) : FlockOut :=
  FhgfsOpsRemoting_flockEntryEx 4 lock_config envs true true (text "h1") 0 1 2 true lock_start.
Definition lock_outcome (out : FlockOut) : option (Z * list AckQueueEntry * nat) :=
  match out with
  | Flock_return ret app _ => Some (ret, la_queue app, length (la_sent app))
  | _ => None
  end.

(** The grant comes in during the second wait. *)
Definition granted_envs (i : nat) : FlockEnv :=
  match i with
  | O => lock_env FhgfsOpsErr_WOULDBLOCK [] [] false
  | _ => lock_env FhgfsOpsErr_WOULDBLOCK [lock_grant] [] true
  end.
Example lock_granted_later :
  lock_outcome (lock_call granted_envs) = Some (FhgfsOpsErr_SUCCESS, [MkAckQueueEntry 1 (text "g1")], 1%nat).
Proof. by vm_compute. Qed.



(** A grant that comes in after the wait of the first request and before its deregistration is
    acknowledged to the server, but the result of that request says that the lock is not granted yet; when
    the second request is interrupted, the call as a whole is, while the server has the lock granted. *)
Definition lost_envs (i : nat) : FlockEnv :=
  match i with
  | O => lock_env FhgfsOpsErr_WOULDBLOCK [] [lock_grant] false
  | _ => lock_env FhgfsOpsErr_WOULDBLOCK [] [] true
  end.
Example late_grant_is_forgotten :
  lock_outcome (lock_call lost_envs) = Some (FhgfsOpsErr_INTERRUPTED, [MkAckQueueEntry 1 (text "g1")], 1%nat).
Proof. by vm_compute. Qed.

(** An ID that is registered twice belongs to the first waiter only; the deregistration of the second one
    then uses an entry that does not exist. *)
Example shared_id_faults :
  let s := MkAckWorld ∅ {[1 := MkWaitAcks {[sample_lock_id]} ∅; 2 := MkWaitAcks {[sample_lock_id]} ∅]} in
  (s ← AcknowledgmentStore_registerWaitAcks 1 s; s ← AcknowledgmentStore_registerWaitAcks 2 s;
   s ← AcknowledgmentStore_unregisterWaitAcks 1 s; AcknowledgmentStore_unregisterWaitAcks 2 s) = None.
Proof. by vm_compute. Qed.
