(* ===== verification/Nfs4Acl.v ===== *)
(** * NFSv4 access control lists

    Models [filesystem/BeeGFSNFS4AclXdr.c] and [.h], [BeeGFSNFS4AclResolvers.c],
    [BeeGFSNFS4Acl.c] and [.h], [FhgfsOps_permission] of [FhgfsOps_versions.c] and the handlers
    of the ACL attribute in [FhgfsXAttrHandlers.c], all in [client_module/source]: decoding of
    lists in XDR format, the translation of principals to user and group IDs, the evaluation of
    a list for a request of the kernel, and the cache of prepared lists, whose objects are
    freed after an RCU grace period.

    A pointer into a received list is the memory that follows it; the [None] of [option] is a
    read behind its end, a call of a NULL pointer or an access to memory that was freed.
    Results of allocations, the key service, the clock and the metadata server are parameters.
    Debug and log output is left out. *)

From stdpp Require Import strings.
From S2P Require Import Prelude StorageErrors Wire Serialization StorageFormats NetMessageTypes NetMessage BuddyGroup Mappers CommKit MessagesSession MessagesNodes Nics ConnPool NodeStore.

Definition EACCES : Z := 13.
Definition ECHILD : Z := 10.
Definition EOVERFLOW : Z := 75.

(** ** XDR format *)

Definition BEEGFS_NFS4ACL_MAX_XDR : Z := 32 * 1024.
Definition BEEGFS_NFS4ACL_MAX_ACES : Z := 4096.
Definition BEEGFS_NFS4ACL_MAX_WHO_LEN : Z := 256.

Definition ACE4_ACCESS_ALLOWED_ACE_TYPE : Z := 0.
Definition ACE4_ACCESS_DENIED_ACE_TYPE : Z := 1.
Definition ACE4_SYSTEM_AUDIT_ACE_TYPE : Z := 2.
Definition ACE4_SYSTEM_ALARM_ACE_TYPE : Z := 3.

Definition ACE4_INHERIT_ONLY_ACE : Z := 8.
Definition ACE4_IDENTIFIER_GROUP : Z := 64.

Definition ACE4_READ_DATA : Z := 1.
Definition ACE4_WRITE_DATA : Z := 2.
Definition ACE4_APPEND_DATA : Z := 4.
Definition ACE4_READ_NAMED_ATTRS : Z := 8.
Definition ACE4_WRITE_NAMED_ATTRS : Z := 16.
Definition ACE4_EXECUTE : Z := 32.
Definition ACE4_DELETE_CHILD : Z := 64.
Definition ACE4_READ_ATTRIBUTES : Z := 128.
Definition ACE4_WRITE_ATTRIBUTES : Z := 256.
Definition ACE4_READ_ACL : Z := 131072.

Record BeeGFSNFS4Ace := MkAce {
  ace_type : Z;
  ace_flags : Z;
  ace_mask : Z;
  ace_who_len : Z;
  ace_who : list byte
}.
Record BeeGFSNFS4Acl := MkAcl { acl_naces : Z; acl_aces : list BeeGFSNFS4Ace }.

Definition be_combine (bs : list byte) : Z := le_combine (rev bs).
Definition be_split (n : nat) (z : Z) : list byte := rev (le_split n z).
Definition get_unaligned_be32 (p : list byte) : option Z :=
  if zlen p <? 4 then None else Some (be_combine (take 4 p)).

Definition ALIGN (x a : Z) : Z := (x + a - 1) / a * a.

(** The memory after [n] bytes, if they exist. *)
Definition advance (n : Z) (p : list byte) : option (list byte) :=
  if zlen p <? n then None else Some (drop (Z.to_nat n) p).
Definition read_be32 (p : list byte) : option (Z * list byte) :=
  v ← get_unaligned_be32 p; p ← advance 4 p; Some (v, p).

(** One entry: an error, or the entry with the memory and the length behind it.
    [kmemdup]: the copy of the principal can be allocated. *)
Definition decode_ace (kmemdup : bool) (p : list byte) (rem : Z) :
    option (Z + BeeGFSNFS4Ace * list byte * Z) :=
  if rem <? 16 then Some (inl EINVAL)
  else
    '(type, p) ← read_be32 p;
    '(flags, p) ← read_be32 p;
    '(mask, p) ← read_be32 p;
    '(who_len, p) ← read_be32 p;
    let rem := rem - 16 in
    if BEEGFS_NFS4ACL_MAX_WHO_LEN <? who_len then Some (inl EOVERFLOW)
    else if rem <? who_len then Some (inl EINVAL)
    else if zlen p <? who_len then None
    else if negb kmemdup then Some (inl ENOMEM)
    else
      let who := take (Z.to_nat who_len) p in
      let who_pad := ALIGN who_len 4 - who_len in
      if rem <? who_len + who_pad then Some (inl EINVAL)
      else
        let p := drop (Z.to_nat (who_len + who_pad)) p in
        if ACE4_SYSTEM_ALARM_ACE_TYPE <? type then Some (inl EINVAL)
        else Some (inr (MkAce type flags mask who_len who, p, rem - (who_len + who_pad))).

Fixpoint decode_aces (kmemdup : nat -> bool) (n : nat) (p : list byte) (rem : Z) :
    option (Z + list BeeGFSNFS4Ace) :=
  match n with
  | O => Some (inr [])
  | S n' =>
      res ← decode_ace (kmemdup O) p rem;
      match res with
      | inl err => Some (inl err)
      | inr (ace, p, rem) =>
          res ← decode_aces (fun i => kmemdup (S i)) n' p rem;
          Some (match res with inl err => inl err | inr aces => inr (ace :: aces) end)
      end
  end.

(** Results of the allocations of the list, of its array and of the principals. *)
Record XdrMemory := MkXdrMemory { xm_kzalloc : bool; xm_kcalloc : bool; xm_kmemdup : nat -> bool }.

(** An error code (positive) or the decoded list. *)
Definition BeeGFSNFS4AclXdr_decode (m : XdrMemory) (buf : list byte) (len : Z) :
    option (Z + BeeGFSNFS4Acl) :=
  if len <? 4 then Some (inl EINVAL)
  else if BEEGFS_NFS4ACL_MAX_XDR <? len then Some (inl EOVERFLOW)
  else
    '(n, p) ← read_be32 buf;
    if BEEGFS_NFS4ACL_MAX_ACES <? n then Some (inl EOVERFLOW)
    else if negb (xm_kzalloc m) then Some (inl ENOMEM)
    else if negb (xm_kcalloc m) then Some (inl ENOMEM)
    else
      res ← decode_aces (xm_kmemdup m) (Z.to_nat n) p (len - 4);
      Some (match res with inl err => inl err | inr aces => inr (MkAcl n aces) end).

(** ** Principals *)

Definition who_is (name who : list byte) (len : Z) : bool :=
  (len =? zlen name) && bool_decide (take (length name) who = name).
Definition who_is_everyone : list byte -> Z -> bool := who_is (text "EVERYONE@").
Definition who_is_owner : list byte -> Z -> bool := who_is (text "OWNER@").
Definition who_is_group : list byte -> Z -> bool := who_is (text "GROUP@").

Inductive ResolverState :=
| RESOLVER_UNINITIALIZED | RESOLVER_READY | RESOLVER_INIT_FAILED | RESOLVER_IGNORE.

(** A resolver: the functions are NULL before its initialisation. *)
Record PrincipalResolver := MkResolver {
  rs_state : ResolverState;
  rs_resolve_user : option (list byte -> Z -> Z);
  rs_resolve_group : option (list byte -> Z -> Z)
}.

(** User and group IDs in the initial name space: 32 bits, the last value is invalid. *)
Definition INVALID_ID : Z := 2 ^ 32 - 1.
Definition make_kid (id : Z) : Z := u32 id.
Definition id_valid (id : Z) : bool := negb (id =? INVALID_ID).

(** [kstrtoul] with base 10: an optional plus sign, at least one digit, an optional line feed; an
    error if the value does not fit into 64 bits. *)
Definition digit_of (b : byte) : option Z :=
  let n := Z.of_N (Byte.to_N b) in if (48 <=? n) && (n <=? 57) then Some (n - 48) else None.
Fixpoint parse_digits (v : Z) (s : list byte) : option Z :=
  match s with
  | [] => Some v
  | b :: s' =>
      match digit_of b with
      | Some d => parse_digits (v * 10 + d) s'
      | None => if bool_decide (b = Byte.x0a) && bool_decide (s' = []) then Some v else None
      end
  end.
Definition kstrtoul (s : list byte) : option Z :=
  let s := cstr s in
  let s := match s with Byte.x2b :: s' => s' | _ => s end in
  match s with
  | b :: s' =>
      d ← digit_of b;
      v ← parse_digits d s';
      if v <? 2 ^ 64 then Some v else None
  | [] => None
  end.

(** The principal is copied into an array of 32 bytes. *)
Definition resolve_trivial (who : list byte) (len : Z) : Z :=
  let who_num := take (Z.to_nat (Z.min len 31)) who in
  match kstrtoul who_num with Some id => make_kid id | None => INVALID_ID end.
Definition BeeGFSNFS4Acl_resolveUserTrivial : list byte -> Z -> Z := resolve_trivial.
Definition BeeGFSNFS4Acl_resolveGroupTrivial : list byte -> Z -> Z := resolve_trivial.

(** [scnprintf] with a prefix and ["%.*s"] into 256 bytes: the text and its length. *)
Definition sid_desc (prefix who : list byte) (len : Z) : list byte * Z :=
  let desc := take 255 (prefix ++ cstr (take (Z.to_nat len) who)) in (desc, zlen desc).

(** [keys]: the payload of the key with a description. *)
Definition resolve_sid (keys : list byte -> option (list byte)) (prefix who : list byte) (len : Z) : Z :=
  let '(desc, n) := sid_desc prefix who len in
  if 256 <=? n then INVALID_ID
  else
    match keys desc with
    | None => INVALID_ID
    | Some payload =>
        if zlen payload =? 4 then
          let out := make_kid (le_combine payload) in
          if id_valid out then out else INVALID_ID
        else INVALID_ID
    end.
Definition BeeGFSNFS4Acl_resolveUserSid (keys : list byte -> option (list byte)) :
    list byte -> Z -> Z := resolve_sid keys (text "os:").
Definition BeeGFSNFS4Acl_resolveGroupSid (keys : list byte -> option (list byte)) :
    list byte -> Z -> Z := resolve_sid keys (text "gs:").

Record Resolvers := MkResolvers { trivialResolver : PrincipalResolver; sidResolver : PrincipalResolver }.
Definition resolver0 : PrincipalResolver := MkResolver RESOLVER_UNINITIALIZED None None.
Definition resolvers0 : Resolvers := MkResolvers resolver0 resolver0.

Definition BeeGFSNFS4Acl_initTrivialResolver (r : PrincipalResolver) : PrincipalResolver :=
  MkResolver RESOLVER_READY (Some BeeGFSNFS4Acl_resolveUserTrivial)
    (Some BeeGFSNFS4Acl_resolveGroupTrivial).
Definition BeeGFSNFS4Acl_initSidResolver (keys : list byte -> option (list byte))
    (r : PrincipalResolver) : PrincipalResolver :=
  MkResolver RESOLVER_READY (Some (BeeGFSNFS4Acl_resolveUserSid keys))
    (Some (BeeGFSNFS4Acl_resolveGroupSid keys)).

(** One round of the loop: the resolver and whether it failed. *)
Definition init_resolver (init : PrincipalResolver -> PrincipalResolver) (r : PrincipalResolver) :
    PrincipalResolver * bool :=
  match rs_state r with
  | RESOLVER_UNINITIALIZED =>
      let r := init r in
      match rs_state r with
      | RESOLVER_INIT_FAILED =>
          (MkResolver RESOLVER_IGNORE (rs_resolve_user r) (rs_resolve_group r), false)
      | _ => (r, true)
      end
  | _ => (r, true)
  end.
Definition BeeGFSNFS4Acl_initResolvers (keys : list byte -> option (list byte)) (rs : Resolvers) :
    Resolvers * bool :=
  let '(t, ok1) := init_resolver BeeGFSNFS4Acl_initTrivialResolver (trivialResolver rs) in
  let '(s, ok2) := init_resolver (BeeGFSNFS4Acl_initSidResolver keys) (sidResolver rs) in
  (MkResolvers t s, ok1 && ok2).

Definition BeeGFSNFS4Acl_selectResolver (rs : Resolvers) (who : list byte) (len : Z) :
    PrincipalResolver :=
  if (3 <=? len) && bool_decide (take 3 who = text "S-1") then sidResolver rs else trivialResolver rs.

(** ** Prepared lists *)

Inductive PrincipalKind :=
| PRINCIPAL_OWNER | PRINCIPAL_GROUP | PRINCIPAL_EVERYONE | PRINCIPAL_UID | PRINCIPAL_GID
| PRINCIPAL_UNRESOLVED.

Record BeeGFSNFS4PreparedAce := MkPreparedAce {
  pa_type : Z;
  pa_flags : Z;
  pa_mask : Z;
  pa_principalKind : PrincipalKind;
  pa_uid : Z;
  pa_gid : Z
}.
Record BeeGFSNFS4PreparedAcl := MkPreparedAcl {
  pl_naces : Z;
  pl_aces : list BeeGFSNFS4PreparedAce
}.

Definition BeeGFSNFS4Acl_prepareAce (rs : Resolvers) (ace : BeeGFSNFS4Ace) :
    option BeeGFSNFS4PreparedAce :=
  let who := ace_who ace in
  let len := ace_who_len ace in
  let prepared := MkPreparedAce (ace_type ace) (ace_flags ace) (ace_mask ace) in
  if who_is_owner who len then Some (prepared PRINCIPAL_OWNER 0 0)
  else if who_is_group who len then Some (prepared PRINCIPAL_GROUP 0 0)
  else if who_is_everyone who len then Some (prepared PRINCIPAL_EVERYONE 0 0)
  else
    let resolv := BeeGFSNFS4Acl_selectResolver rs who len in
    match rs_state resolv with
    | RESOLVER_READY =>
        if negb (Z.land (ace_flags ace) ACE4_IDENTIFIER_GROUP =? 0) then
          resolve_group ← rs_resolve_group resolv;
          let gid := resolve_group who len in
          Some (prepared (if id_valid gid then PRINCIPAL_GID else PRINCIPAL_UNRESOLVED) 0 gid)
        else
          resolve_user ← rs_resolve_user resolv;
          let uid := resolve_user who len in
          Some (prepared (if id_valid uid then PRINCIPAL_UID else PRINCIPAL_UNRESOLVED) uid 0)
    | _ => Some (prepared PRINCIPAL_UNRESOLVED 0 0)
    end.

Fixpoint prepare_aces (rs : Resolvers) (aces : list BeeGFSNFS4Ace) :
    option (list BeeGFSNFS4PreparedAce) :=
  match aces with
  | [] => Some []
  | ace :: aces =>
      p ← BeeGFSNFS4Acl_prepareAce rs ace; ps ← prepare_aces rs aces; Some (p :: ps)
  end.

(** [kzalloc], [kcalloc]: the results of the two allocations. *)
Definition BeeGFSNFS4Acl_prepareAcl (rs : Resolvers) (kzalloc kcalloc : bool) (acl : BeeGFSNFS4Acl) :
    option (Z + BeeGFSNFS4PreparedAcl) :=
  if negb kzalloc then Some (inl ENOMEM)
  else if negb (acl_naces acl =? 0) && negb kcalloc then Some (inl ENOMEM)
  else aces ← prepare_aces rs (acl_aces acl); Some (inr (MkPreparedAcl (acl_naces acl) aces)).

(** ** Evaluation *)

Record Inode := MkInode { i_uid : Z; i_gid : Z; i_mode : Z }.
(** [in_group_p] looks at [cr_fsgid] and at the supplementary groups of the current process. *)
Record Cred := MkCred { cr_uid : Z; cr_gid : Z; cr_fsgid : Z; cr_groups : list Z }.
Definition in_group_p (cred : Cred) (gid : Z) : bool :=
  (cr_fsgid cred =? gid) || existsb (Z.eqb gid) (cr_groups cred).

Definition BeeGFSNFS4Acl_principalMatchesUserOrGroup (ace : BeeGFSNFS4PreparedAce) (cred : Cred) :
    bool :=
  match pa_principalKind ace with
  | PRINCIPAL_GID => (pa_gid ace =? cr_gid cred) || in_group_p cred (pa_gid ace)
  | PRINCIPAL_UID => pa_uid ace =? cr_uid cred
  | _ => false
  end.
Definition BeeGFSNFS4Acl_aceAppliesToSubject (ace : BeeGFSNFS4PreparedAce) (inode : Inode)
    (cred : Cred) : bool :=
  match pa_principalKind ace with
  | PRINCIPAL_OWNER => i_uid inode =? cr_uid cred
  | PRINCIPAL_GROUP => (i_gid inode =? cr_gid cred) || in_group_p cred (i_gid inode)
  | PRINCIPAL_EVERYONE => true
  | _ => BeeGFSNFS4Acl_principalMatchesUserOrGroup ace cred
  end.

(** The loop over the entries. *)
Fixpoint eval_aces (aces : list BeeGFSNFS4PreparedAce) (inode : Inode) (cred : Cred)
    (remaining : Z) : Z :=
  match aces with
  | [] => 1
  | ace :: aces =>
      if negb (Z.land (pa_flags ace) ACE4_INHERIT_ONLY_ACE =? 0) then
        eval_aces aces inode cred remaining
      else if negb (pa_type ace =? ACE4_ACCESS_ALLOWED_ACE_TYPE) &&
              negb (pa_type ace =? ACE4_ACCESS_DENIED_ACE_TYPE) then
        eval_aces aces inode cred remaining
      else if negb (BeeGFSNFS4Acl_aceAppliesToSubject ace inode cred) then
        eval_aces aces inode cred remaining
      else
        let bits := Z.land (pa_mask ace) remaining in
        if bits =? 0 then eval_aces aces inode cred remaining
        else if pa_type ace =? ACE4_ACCESS_DENIED_ACE_TYPE then - EACCES
        else
          let remaining := Z.land remaining (u32 (Z.lnot bits)) in
          if remaining =? 0 then 0 else eval_aces aces inode cred remaining
  end.
Definition BeeGFSNFS4Acl_eval (acl : option BeeGFSNFS4PreparedAcl) (inode : Inode) (cred : Cred)
    (reqmask : Z) : Z :=
  match acl with
  | None => 1
  | Some acl => if pl_naces acl =? 0 then 1 else eval_aces (pl_aces acl) inode cred reqmask
  end.

Definition MAY_EXEC : Z := 1.
Definition MAY_WRITE : Z := 2.
Definition MAY_READ : Z := 4.
Definition MAY_APPEND : Z := 8.
Definition MAY_ACCESS : Z := 16.
Definition MAY_OPEN : Z := 32.
Definition MAY_CHDIR : Z := 64.
Definition MAY_NOT_BLOCK : Z := 128.

Definition S_ISDIR (mode : Z) : bool := Z.land mode 61440 =? 16384.

(** [if(mask & flag) req |= bits]. *)
Definition add_req (mask flag bits req : Z) : Z :=
  if negb (Z.land mask flag =? 0) then Z.lor req bits else req.
Definition BeeGFSNFS4Acl_vfsToAceReqmask (inode : Inode) (mask : Z) : Z :=
  let is_dir := S_ISDIR (i_mode inode) in
  let req := 0 in
  let req := add_req mask MAY_ACCESS ACE4_READ_ATTRIBUTES req in
  let req := add_req mask MAY_READ
    (Z.lor (Z.lor (Z.lor ACE4_READ_DATA ACE4_READ_ATTRIBUTES) ACE4_READ_ACL) ACE4_READ_NAMED_ATTRS) req in
  let write_bits :=
    if is_dir then Z.lor (Z.lor ACE4_WRITE_DATA ACE4_APPEND_DATA) ACE4_DELETE_CHILD
    else Z.lor ACE4_WRITE_DATA ACE4_APPEND_DATA in
  let req := add_req mask MAY_WRITE
    (Z.lor (Z.lor write_bits ACE4_WRITE_ATTRIBUTES) ACE4_WRITE_NAMED_ATTRS) req in
  let req := add_req mask MAY_APPEND ACE4_APPEND_DATA req in
  let req := add_req mask MAY_EXEC ACE4_EXECUTE req in
  let req := add_req mask MAY_CHDIR ACE4_EXECUTE req in
  if req =? 0 then
    add_req mask MAY_OPEN (if is_dir then ACE4_EXECUTE else ACE4_READ_ATTRIBUTES) req
  else req.

Definition BeeGFSNFS4Acl_checkPermission (acl : option BeeGFSNFS4PreparedAcl) (inode : Inode)
    (cred : Cred) (mask : Z) : Z :=
  match acl with
  | None => 1
  | Some acl =>
      let req := BeeGFSNFS4Acl_vfsToAceReqmask inode mask in
      let rc := BeeGFSNFS4Acl_eval (Some acl) inode cred req in
      if rc =? 0 then 0 else if rc <? 0 then rc else 1
  end.

(** ** The cache *)

Record AclConfig := MkAclConfig {
  cf_sysNFSv4ACLsEnabled : bool;
  cf_tuneDirSubentryCacheValidityMS : Z;
  cf_tuneFileSubentryCacheValidityMS : Z
}.
Definition FhgfsInode_getCacheValidityMS (mode : Z) (cfg : AclConfig) : Z :=
  if S_ISDIR mode then cf_tuneDirSubentryCacheValidityMS cfg
  else cf_tuneFileSubentryCacheValidityMS cfg.

Record BeeGFSNFS4AclCache := MkAclCache {
  ch_acl : option BeeGFSNFS4PreparedAcl;
  ch_cached_at : Time;
  ch_status : Z
}.

(** The cache pointer of one inode, the cache objects, the objects that [call_rcu] will free once
    the readers that were active then have left, and the active readers (threads). *)
Record AclWorld := MkAclWorld {
  cw_ptr : option Z;
  cw_heap : gmap Z BeeGFSNFS4AclCache;
  cw_retired : list (Z * gset Z);
  cw_readers : gset Z
}.

Definition rcu_read_lock (t : Z) (s : AclWorld) : AclWorld :=
  MkAclWorld (cw_ptr s) (cw_heap s) (cw_retired s) ({[t]} ∪ cw_readers s).
Definition rcu_read_unlock (t : Z) (s : AclWorld) : AclWorld :=
  MkAclWorld (cw_ptr s) (cw_heap s) (prod_map id (fun r => r ∖ {[t]}) <$> cw_retired s)
    (cw_readers s ∖ {[t]}).
(** [xchg], and [call_rcu] for the old object. *)
Definition swap_cache (new : option Z) (s : AclWorld) : AclWorld :=
  MkAclWorld new (cw_heap s)
    (match cw_ptr s with Some old => (old, cw_readers s) :: cw_retired s | None => cw_retired s end)
    (cw_readers s).
Definition BeeGFSNFS4Acl_invalidateCache : AclWorld -> AclWorld := swap_cache None.
Definition publish_cache (addr : Z) (c : BeeGFSNFS4AclCache) (s : AclWorld) : AclWorld :=
  swap_cache (Some addr)
    (MkAclWorld (cw_ptr s) (<[addr := c]> (cw_heap s)) (cw_retired s) (cw_readers s)).
(** [BeeGFSNFS4Acl_freeCacheRcu] for the retired object [i], if its readers have left. *)
Definition rcu_free (i : nat) (s : AclWorld) : option AclWorld :=
  match cw_retired s !! i with
  | Some (addr, waits) =>
      if bool_decide (waits = ∅) then
        match cw_heap s !! addr with
        | Some _ => Some (MkAclWorld (cw_ptr s) (delete addr (cw_heap s)) (delete i (cw_retired s))
                            (cw_readers s))
        | None => None
        end
      else None
  | None => None
  end.

Inductive CacheLookup := CACHE_MISS | CACHE_NEGATIVE_HIT | CACHE_POSITIVE_HIT.
(** The decision about the entry that the pointer refers to. *)
Definition BeeGFSNFS4Acl_cacheLookup (now : Time) (inode : Inode) (cfg : AclConfig)
    (cached_acl : option BeeGFSNFS4AclCache) : CacheLookup :=
  match cached_acl with
  | None => CACHE_MISS
  | Some c =>
      let timeout := FhgfsInode_getCacheValidityMS (i_mode inode) cfg in
      if timeout =? 0 then CACHE_MISS
      else if timeout <? Time_elapsedMS now (ch_cached_at c) then CACHE_MISS
      else if ch_status c =? - ENODATA then CACHE_NEGATIVE_HIT
      else CACHE_POSITIVE_HIT
  end.

Inductive ResolveResult := RESOLVE_FALLBACK | RESOLVE_NEGATIVE_HIT | RESOLVE_POSITIVE_HIT.
Definition BeeGFSNFS4Acl_resolveLockedCache (cached_acl : option BeeGFSNFS4AclCache) : ResolveResult :=
  match cached_acl with
  | None => RESOLVE_FALLBACK
  | Some c => if ch_status c =? - ENODATA then RESOLVE_NEGATIVE_HIT else RESOLVE_POSITIVE_HIT
  end.

(** Results of the allocations while the cache is filled. *)
Record PopulateMemory := MkPopulateMemory {
  pm_buf : bool;
  pm_newc : bool;
  pm_empty : bool;
  pm_xdr : XdrMemory;
  pm_kzalloc : bool;
  pm_kcalloc : bool
}.

(** What the fetched attribute [rc] (a length or an error) and [buf] become: an error, or the new
    cache object. *)
Definition populate (rs : Resolvers) (m : PopulateMemory) (now : Time) (rc : Z) (buf : list byte) :
    option (Z + BeeGFSNFS4AclCache) :=
  if negb (pm_buf m) then Some (inl (- ENOMEM))
  else if rc =? - ENODATA then
    Some (if pm_newc m then inr (MkAclCache None now (- ENODATA)) else inl (- ENOMEM))
  else if rc <? 0 then Some (inl rc)
  else
    acl ← (if rc =? 0 then Some (if pm_empty m then inr (MkAcl 0 []) else inl ENOMEM)
           else BeeGFSNFS4AclXdr_decode (pm_xdr m) buf rc);
    match acl with
    | inl err => Some (inl (- err))
    | inr acl =>
        prepared ← BeeGFSNFS4Acl_prepareAcl rs (pm_kzalloc m) (pm_kcalloc m) acl;
        Some (match prepared with
              | inl err => inl (- err)
              | inr p => if pm_newc m then inr (MkAclCache (Some p) now 0) else inl (- ENOMEM)
              end)
    end.

(** ** Permission checks *)

(** A call of [FhgfsOps_permission]; [pc_generic]: the result of the kernel's own check. *)
Record PermCall := MkPermCall {
  pc_inode : Inode;
  pc_cred : Cred;
  pc_mask : Z;
  pc_generic : Z
}.

(** How far a call is.  [PS_looked] and [PS_relooked] hold the pointer that was read inside of a
    read-side critical section, [PS_eval] the one whose list is evaluated in it. *)
Inductive PermState :=
| PS_start
| PS_looked (p : option Z)
| PS_fetch
| PS_publish (c : BeeGFSNFS4AclCache)
| PS_reread
| PS_relooked (p : option Z)
| PS_eval (p : Z)
| PS_generic
| PS_done (rc : Z).

(** What a step sees of the surroundings: the clock, memory, the answer of the metadata server for
    the attribute and the address of a new object. *)
Record PermEnv := MkPermEnv {
  pe_now : Time;
  pe_memory : PopulateMemory;
  pe_fetch : Z * list byte;
  pe_addr : Z
}.

(** The buffer of the fetched attribute has its fixed size. *)
Definition fetch_ok (e : PermEnv) : Prop := zlen (pe_fetch e).2 = BEEGFS_NFS4ACL_MAX_XDR.

(** The object behind a pointer; the outer [None] is an access to freed memory. *)
Definition load_cache (p : option Z) (s : AclWorld) : option (option BeeGFSNFS4AclCache) :=
  match p with
  | None => Some None
  | Some a => match cw_heap s !! a with Some c => Some (Some c) | None => None end
  end.

Section Permission.
Context (cfg : AclConfig) (rs : Resolvers).

Definition perm_step (t : Z) (call : PermCall) (e : PermEnv) (st : PermState) (s : AclWorld) :
    option (PermState * AclWorld) :=
  match st with
  | PS_start =>
      if negb (Z.land (pc_mask call) MAY_NOT_BLOCK =? 0) then Some (PS_done (- ECHILD), s)
      else if negb (cf_sysNFSv4ACLsEnabled cfg) then Some (PS_generic, s)
      else Some (PS_looked (cw_ptr s), rcu_read_lock t s)
  | PS_looked p =>
      cached ← load_cache p s;
      match BeeGFSNFS4Acl_cacheLookup (pe_now e) (pc_inode call) cfg cached, p with
      | CACHE_POSITIVE_HIT, Some a => Some (PS_eval a, s)
      | CACHE_NEGATIVE_HIT, _ => Some (PS_generic, rcu_read_unlock t s)
      | _, _ => Some (PS_fetch, rcu_read_unlock t s)
      end
  | PS_fetch =>
      res ← populate rs (pe_memory e) (pe_now e) (pe_fetch e).1 (pe_fetch e).2;
      match res with
      | inl err => Some (PS_done err, s)
      | inr c => Some (PS_publish c, s)
      end
  | PS_publish c =>
      let s := publish_cache (pe_addr e) c s in
      if ch_status c =? - ENODATA then Some (PS_generic, s) else Some (PS_reread, s)
  | PS_reread => Some (PS_relooked (cw_ptr s), rcu_read_lock t s)
  | PS_relooked p =>
      cached ← load_cache p s;
      match BeeGFSNFS4Acl_resolveLockedCache cached, p with
      | RESOLVE_POSITIVE_HIT, Some a => Some (PS_eval a, s)
      | _, _ => Some (PS_generic, rcu_read_unlock t s)
      end
  | PS_eval a =>
      c ← cw_heap s !! a;
      let rc := BeeGFSNFS4Acl_checkPermission (ch_acl c) (pc_inode call) (pc_cred call) (pc_mask call) in
      let s := rcu_read_unlock t s in
      if rc <=? 0 then Some (PS_done rc, s) else Some (PS_generic, s)
  | PS_generic => Some (PS_done (pc_generic call), s)
  | PS_done _ => None
  end.

(** The whole call: the states of the world between the steps may be changed by others
    ([interfere]). *)
Fixpoint perm_run (fuel : nat) (t : Z) (call : PermCall) (envs : nat -> PermEnv)
    (interfere : nat -> AclWorld -> AclWorld) (st : PermState) (s : AclWorld) :
    option (Z * AclWorld) :=
  match st with
  | PS_done rc => Some (rc, s)
  | _ =>
      match fuel with
      | O => None
      | S fuel' =>
          '(st, s) ← perm_step t call (envs O) st s;
          perm_run fuel' t call (fun i => envs (S i)) (fun i => interfere (S i)) st (interfere O s)
      end
  end.
Definition FhgfsOps_permission (t : Z) (call : PermCall) (envs : nat -> PermEnv)
    (interfere : nat -> AclWorld -> AclWorld) (s : AclWorld) : option (Z * AclWorld) :=
  perm_run 8 t call envs interfere PS_start s.
End Permission.

(** ** The attribute *)

Definition XATTR_REPLACE : Z := 2.

(** [setxattr flags value] and [removexattr]: the results of the operations on the metadata
    server. *)
Definition BeeGFSXAttr_nfs4AclSet (owner_or_capable : bool) (setxattr : Z -> list byte -> Z)
    (removexattr : Z) (m : XdrMemory) (value : option (list byte)) (size flags : Z) (s : AclWorld) :
    option (Z * AclWorld) :=
  if negb owner_or_capable then Some (- EPERM, s)
  else
    match value with
    | None =>
        let ret := removexattr in
        Some (ret, if ret =? 0 then BeeGFSNFS4Acl_invalidateCache s else s)
    | Some value =>
        res ← BeeGFSNFS4AclXdr_decode m value size;
        match res with
        | inl err => Some (- err, s)
        | inr _ =>
            let flags := Z.land flags (Z.lnot XATTR_REPLACE) in
            let ret := setxattr flags (take (Z.to_nat size) value) in
            Some (ret, if ret =? 0 then BeeGFSNFS4Acl_invalidateCache s else s)
        end
    end.

(** The result and the bytes written to the buffer; [fetch size]: the answer of the metadata
    server. *)
Definition BeeGFSXAttr_nfs4AclGet (fetch : Z -> Z * list byte) (size : Z) : Z * list byte :=
  let '(ret, value) := fetch size in
  if ret =? - ENODATA then
    let empty_acl := be_split 4 0 in
    if size =? 0 then (4, [])
    else if size <? 4 then (- ERANGE, [])
    else (4, empty_acl)
  else (ret, value).

(** ** Interleavings *)

Record AclSystem := MkAclSystem {
  sy_world : AclWorld;
  sy_calls : gmap Z (PermCall * PermState)
}.

Inductive acl_step (cfg : AclConfig) (rs : Resolvers) (v : AclSystem) : AclSystem -> Prop :=
| CS_enter t call : sy_calls v !! t = None ->
    acl_step cfg rs v (MkAclSystem (sy_world v) (<[t := (call, PS_start)]> (sy_calls v)))
| CS_step t call st st' e s' : sy_calls v !! t = Some (call, st) -> fetch_ok e ->
    cw_heap (sy_world v) !! pe_addr e = None ->
    perm_step cfg rs t call e st (sy_world v) = Some (st', s') ->
    acl_step cfg rs v (MkAclSystem s' (<[t := (call, st')]> (sy_calls v)))
| CS_leave t call rc : sy_calls v !! t = Some (call, PS_done rc) ->
    acl_step cfg rs v (MkAclSystem (sy_world v) (delete t (sy_calls v)))
| CS_invalidate :
    acl_step cfg rs v (MkAclSystem (BeeGFSNFS4Acl_invalidateCache (sy_world v)) (sy_calls v))
| CS_free i s' : rcu_free i (sy_world v) = Some s' -> acl_step cfg rs v (MkAclSystem s' (sy_calls v)).

Definition acl_start : AclSystem := MkAclSystem (MkAclWorld None ∅ [] ∅) ∅.
