(* ===== verification/Nfs4AclFacts.v ===== *)
(** * Facts about NFSv4 access control lists

    The decoder accepts exactly the XDR format, the evaluation follows the first matching entry of
    every requested bit, the cache objects are neither used after they were freed nor lost, and
    the result of a permission check. *)

From stdpp Require Import strings.
From S2P Require Import Prelude StorageErrors Wire Serialization StorageFormats NetMessageTypes NetMessage BuddyGroup Mappers CommKit MessagesSession MessagesNodes Nics ConnPool NodeStore Nfs4Acl.

(** ** XDR format *)

Lemma zlen_be_split n z : zlen (be_split n z) = Z.of_nat n.
Proof. unfold be_split, zlen. rewrite length_rev. exact (zlen_le_split n z). Qed.
#[export] Hint Rewrite zlen_be_split : zlen.

Lemma read_be32_app v p : in_u 32 v -> read_be32 (be_split 4 v ++ p) = Some (v, p).
Proof.
  intros Hv. pose proof (zlen_nonneg p). unfold read_be32, get_unaligned_be32, advance.
  autorewrite with zlen. rewrite (proj2 (Z.ltb_ge _ _)) by lia. cbn [mbind option_bind].
  change (Z.to_nat 4) with 4%nat.
  assert (El : length (be_split 4 v) = 4%nat) by (unfold be_split; by rewrite length_rev).
  rewrite take_app_length', drop_app_length' by done. do 2 f_equal.
  unfold be_combine, be_split. rewrite rev_involutive, LittleEndianList.le_combine_split.
  apply Z.mod_small. exact Hv.
Qed.

Lemma read_be32_inv p v p' : read_be32 p = Some (v, p') -> p = be_split 4 v ++ p' /\ in_u 32 v.
Proof.
  unfold read_be32, get_unaligned_be32, advance. destruct (Z.ltb_spec (zlen p) 4) as [|Hl]; [done|].
  cbn [mbind option_bind]. intros [= <- <-]. change (Z.to_nat 4) with 4%nat.
  assert (El : length (rev (take 4 p)) = 4%nat).
  { rewrite length_rev, length_take. unfold zlen in Hl. lia. }
  unfold be_combine. split.
  - unfold be_split. rewrite (LittleEndianList.split_le_combine' _ 4 El), rev_involutive.
    by rewrite take_drop.
  - pose proof (LittleEndianList.le_combine_bound (rev (take 4 p))) as Hb. rewrite El in Hb. exact Hb.
Qed.

Lemma read_be32_some p : 4 <= zlen p -> exists v p', read_be32 p = Some (v, p') /\ zlen p' = zlen p - 4.
Proof.
  intros Hl. unfold read_be32, get_unaligned_be32, advance. rewrite (proj2 (Z.ltb_ge _ _)) by lia.
  cbn [mbind option_bind]. eexists _, _. split; [done|]. unfold zlen in *. rewrite length_drop. lia.
Qed.

(** The format of an entry; the padding may hold any bytes. *)
Definition enc_ace (x : BeeGFSNFS4Ace * list byte) : list byte :=
  let '(a, pad) := x in
  be_split 4 (ace_type a) ++ be_split 4 (ace_flags a) ++ be_split 4 (ace_mask a) ++
  be_split 4 (ace_who_len a) ++ ace_who a ++ pad.
Definition enc_aces (l : list (BeeGFSNFS4Ace * list byte)) : list byte := concat (enc_ace <$> l).
Definition ace_wf (x : BeeGFSNFS4Ace * list byte) : Prop :=
  let '(a, pad) := x in
  0 <= ace_type a <= ACE4_SYSTEM_ALARM_ACE_TYPE /\ in_u 32 (ace_flags a) /\ in_u 32 (ace_mask a) /\
  ace_who_len a = zlen (ace_who a) /\ zlen (ace_who a) <= BEEGFS_NFS4ACL_MAX_WHO_LEN /\
  zlen pad = (- zlen (ace_who a)) mod 4.

Lemma ALIGN_pad n : 0 <= n -> ALIGN n 4 - n = (- n) mod 4.
Proof. unfold ALIGN. intros Hn. Z.to_euclidean_division_equations. lia. Qed.

Lemma zlen_enc_ace a pad :
  zlen (enc_ace (a, pad)) = 16 + zlen (ace_who a) + zlen pad.
Proof. unfold enc_ace. autorewrite with zlen. lia. Qed.

Lemma decode_ace_enc a pad p rem : ace_wf (a, pad) -> 0 <= rem ->
  decode_ace true (enc_ace (a, pad) ++ p) (zlen (enc_ace (a, pad)) + rem) = Some (inr (a, p, rem)).
Proof.
  intros (Ht & Hf & Hm & Hl & Hw & Hp) Hrem. pose proof (zlen_nonneg (ace_who a)) as Hn.
  pose proof (zlen_nonneg pad). pose proof (zlen_nonneg p).
  rewrite zlen_enc_ace. unfold decode_ace, enc_ace.
  unfold ACE4_SYSTEM_ALARM_ACE_TYPE, BEEGFS_NFS4ACL_MAX_WHO_LEN in *.
  rewrite (proj2 (Z.ltb_ge _ 16)) by lia. rewrite <- !app_assoc.
  rewrite read_be32_app by (split; lia). cbn [mbind option_bind].
  rewrite read_be32_app by done. cbn [mbind option_bind].
  rewrite read_be32_app by done. cbn [mbind option_bind].
  rewrite read_be32_app by (split; lia). cbn [mbind option_bind]. rewrite Hl.
  rewrite (proj2 (Z.ltb_ge 256 _)) by lia. rewrite (proj2 (Z.ltb_ge _ (zlen (ace_who a)))) by lia.
  rewrite (proj2 (Z.ltb_ge (zlen (ace_who a ++ pad ++ p)) _)) by (autorewrite with zlen; lia).
  cbn [negb]. rewrite ALIGN_pad by done. rewrite <- Hp.
  rewrite (proj2 (Z.ltb_ge _ (zlen (ace_who a) + zlen pad))) by lia.
  rewrite (proj2 (Z.ltb_ge 3 _)) by lia.
  replace (Z.to_nat (zlen (ace_who a) + zlen pad)) with (length (ace_who a ++ pad))
    by (rewrite <- to_nat_zlen, zlen_app; done).
  rewrite to_nat_zlen, take_app_length, (app_assoc (ace_who a)), drop_app_length.
  replace (16 + zlen (ace_who a) + zlen pad + rem - 16 - (zlen (ace_who a) + zlen pad)) with rem by lia.
  destruct a; cbn in *; by subst.
Qed.

Lemma decode_ace_inv k p rem a p' rem' : rem <= zlen p ->
  decode_ace k p rem = Some (inr (a, p', rem')) ->
  exists pad, ace_wf (a, pad) /\ p = enc_ace (a, pad) ++ p' /\ rem = zlen (enc_ace (a, pad)) + rem' /\
    0 <= rem'.
Proof.
  intros Hrem. unfold decode_ace. destruct (Z.ltb_spec rem 16) as [|H16]; [done|].
  destruct (read_be32 p) as [[ty p1]|] eqn:E1; [|done]. apply read_be32_inv in E1 as [-> H1].
  cbn [mbind option_bind].
  destruct (read_be32 p1) as [[fl p2]|] eqn:E2; [|done]. apply read_be32_inv in E2 as [-> H2].
  cbn [mbind option_bind].
  destruct (read_be32 p2) as [[ma p3]|] eqn:E3; [|done]. apply read_be32_inv in E3 as [-> H3].
  cbn [mbind option_bind].
  destruct (read_be32 p3) as [[wl p4]|] eqn:E4; [|done]. apply read_be32_inv in E4 as [-> H4].
  cbn [mbind option_bind]. autorewrite with zlen in Hrem.
  destruct (Z.ltb_spec BEEGFS_NFS4ACL_MAX_WHO_LEN wl) as [|Hwl]; [done|].
  destruct (Z.ltb_spec (rem - 16) wl) as [|Hr1]; [done|].
  destruct (Z.ltb_spec (zlen p4) wl) as [|Hr2]; [done|].
  destruct k; [|done]. cbn [negb]. unfold in_u in H4.
  destruct (Z.ltb_spec (rem - 16) (wl + (ALIGN wl 4 - wl))) as [|Hr3]; [done|].
  destruct (Z.ltb_spec ACE4_SYSTEM_ALARM_ACE_TYPE ty) as [|Hty]; [done|].
  rewrite ALIGN_pad in * by lia. intros [= <- <- <-].
  assert (Hw : zlen (take (Z.to_nat wl) p4) = wl) by (unfold zlen in *; rewrite length_take; lia).
  set (padn := (- wl) mod 4) in *. assert (0 <= padn < 4) by (apply Z.mod_pos_bound; lia).
  exists (take (Z.to_nat padn) (drop (Z.to_nat wl) p4)).
  assert (Hpad : zlen (take (Z.to_nat padn) (drop (Z.to_nat wl) p4)) = padn).
  { unfold zlen in *. rewrite length_take, length_drop. lia. }
  rewrite zlen_enc_ace. cbn [ace_who]. rewrite Hw, Hpad. split_and!.
  - cbn. unfold in_u in *. rewrite Hw. split_and!; try done; try lia.
  - unfold enc_ace. cbn [ace_type ace_flags ace_mask ace_who_len ace_who]. rewrite <- !app_assoc.
    do 4 f_equal. rewrite Z2Nat.inj_add by lia. rewrite <- drop_drop.
    by rewrite take_drop, take_drop.
  - lia.
  - lia.
Qed.

(** Whatever the bytes and the allocations are, an entry is decoded without leaving the memory. *)
Lemma decode_ace_safe k p rem : rem <= zlen p -> decode_ace k p rem <> None.
Proof.
  intros Hrem. unfold decode_ace. destruct (Z.ltb_spec rem 16) as [|H16]; [done|].
  destruct (read_be32_some p) as (ty & p1 & -> & L1); [lia|]. cbn [mbind option_bind].
  destruct (read_be32_some p1) as (fl & p2 & -> & L2); [lia|]. cbn [mbind option_bind].
  destruct (read_be32_some p2) as (ma & p3 & -> & L3); [lia|]. cbn [mbind option_bind].
  destruct (read_be32_some p3) as (wl & p4 & -> & L4); [lia|]. cbn [mbind option_bind].
  destruct (_ <? wl); [done|]. destruct (Z.ltb_spec (rem - 16) wl) as [|Hr1]; [done|].
  rewrite (proj2 (Z.ltb_ge (zlen p4) wl)) by lia.
  destruct (negb k); [done|]. by repeat case_match.
Qed.

Lemma decode_aces_safe n : forall k p rem, rem <= zlen p -> decode_aces k n p rem <> None.
Proof.
  induction n as [|n IH]; intros k p rem Hrem; cbn [decode_aces]; [done|].
  destruct (decode_ace (k O) p rem) as [[err|[[a p'] rem']]|] eqn:E; cbn [mbind option_bind];
    [done| |by destruct (decode_ace_safe (k O) p rem Hrem)].
  destruct (decode_ace_inv _ _ _ _ _ _ Hrem E) as (pad & _ & -> & -> & Hr').
  rewrite zlen_app in Hrem.
  destruct (decode_aces (fun i => k (S i)) n p' rem') as [[|]|] eqn:E'; cbn [mbind option_bind]; [done|done|].
  destruct (IH (fun i => k (S i)) p' rem' ltac:(lia) E').
Qed.

Lemma decode_aces_spec n : forall p rem aces, rem <= zlen p -> 0 <= rem ->
  decode_aces (fun _ => true) n p rem = Some (inr aces) <->
  exists l rest, length l = n /\ aces = l.*1 /\ Forall ace_wf l /\ p = enc_aces l ++ rest /\
    zlen (enc_aces l) <= rem.
Proof.
  induction n as [|n IH]; intros p rem aces Hrem H0; cbn [decode_aces].
  { split.
    - intros [= <-]. exists [], p. by split_and!.
    - intros ([|] & rest & Hl & -> & _); [done|done]. }
  split.
  - destruct (decode_ace true p rem) as [[err|[[a p'] rem']]|] eqn:E; cbn [mbind option_bind]; [done| |done].
    destruct (decode_ace_inv _ _ _ _ _ _ Hrem E) as (pad & Hwf & -> & -> & Hr').
    rewrite zlen_app in Hrem.
    destruct (decode_aces (fun _ => true) n p' rem') as [[err|aces']|] eqn:E'; cbn [mbind option_bind]; [done| |done].
    intros [= <-]. apply IH in E' as (l & rest & Hl & -> & Hwfs & -> & Hlen); [|lia|lia].
    exists ((a, pad) :: l), rest. split_and!; cbn [length fmap list_fmap fst].
    + by rewrite Hl.
    + done.
    + by constructor.
    + unfold enc_aces. cbn [fmap list_fmap concat]. by rewrite app_assoc.
    + unfold enc_aces. cbn [fmap list_fmap concat]. rewrite zlen_app. unfold enc_aces in Hlen. lia.
  - intros ([|[a pad] l] & rest & Hl & -> & Hwf & -> & Hlen); [done|]. injection Hl as Hl.
    apply list.Forall_cons in Hwf as [Hwf Hwfs].
    unfold enc_aces in *. cbn [fmap list_fmap concat] in *. rewrite zlen_app in Hlen. rewrite <- app_assoc.
    replace rem with (zlen (enc_ace (a, pad)) + (rem - zlen (enc_ace (a, pad)))) by lia.
    pose proof (zlen_nonneg (concat (enc_ace <$> l))).
    rewrite decode_ace_enc by (done || lia). cbn [mbind option_bind].
    assert (E : decode_aces (fun _ => true) n (concat (enc_ace <$> l) ++ rest)
        (rem - zlen (enc_ace (a, pad))) = Some (inr (l.*1))).
    { apply IH; [rewrite !zlen_app in *; lia|lia|]. exists l, rest. split_and!; try done. lia. }
    by rewrite E.
Qed.

(** The memory of a decoder that never runs out of it. *)
Definition enough_memory : XdrMemory := MkXdrMemory true true (fun _ => true).

(** C26: With enough memory, the decoder of access control lists accepts exactly the buffers of at most 32 KB that begin with an
    encoded list: a count of at most 4096 and that many well-formed entries (known type, a principal of at most 256
    bytes, padded with any bytes to a multiple of four).  What follows the list is not looked at, and the
    padding need not be zero.  It returns the entries that were encoded. *)
Theorem decode_accepts_xdr buf len acl : 0 <= len <= zlen buf ->
  BeeGFSNFS4AclXdr_decode enough_memory buf len = Some (inr acl) <->
  len <= BEEGFS_NFS4ACL_MAX_XDR /\
  exists l rest, acl = MkAcl (Z.of_nat (length l)) (l.*1) /\ Z.of_nat (length l) <= BEEGFS_NFS4ACL_MAX_ACES /\
    Forall ace_wf l /\ buf = be_split 4 (Z.of_nat (length l)) ++ enc_aces l ++ rest /\
    4 + zlen (enc_aces l) <= len.
Proof.
  intros Hlen. unfold BeeGFSNFS4AclXdr_decode. cbn [xm_kzalloc xm_kcalloc xm_kmemdup enough_memory negb].
  split.
  - destruct (Z.ltb_spec len 4) as [|H4]; [done|].
    destruct (Z.ltb_spec BEEGFS_NFS4ACL_MAX_XDR len) as [|Hm]; [done|].
    destruct (read_be32 buf) as [[n p]|] eqn:E; [|done]. apply read_be32_inv in E as [-> Hn].
    cbn [mbind option_bind]. destruct (Z.ltb_spec BEEGFS_NFS4ACL_MAX_ACES n) as [|Hmax]; [done|].
    destruct (decode_aces _ (Z.to_nat n) p (len - 4)) as [[|aces]|] eqn:E; cbn [mbind option_bind]; [done| |done].
    intros [= <-]. autorewrite with zlen in Hlen.
    apply decode_aces_spec in E as (l & rest & Hl & -> & Hwf & -> & Hle); [|lia|lia].
    split; [done|]. exists l, rest. destruct Hn as [Hn0 Hn1]. assert (Z.of_nat (length l) = n) as El by lia.
    rewrite El. split_and!; try done; lia.
  - intros (Hm & l & rest & -> & Hmax & Hwf & -> & Hle). pose proof (zlen_nonneg (enc_aces l)).
    rewrite (proj2 (Z.ltb_ge len 4)), (proj2 (Z.ltb_ge _ len)) by lia.
    unfold BEEGFS_NFS4ACL_MAX_ACES in *.
    rewrite read_be32_app by (split; lia). cbn [mbind option_bind].
    rewrite (proj2 (Z.ltb_ge 4096 _)) by lia. autorewrite with zlen in Hlen.
    assert (E : decode_aces (fun _ => true) (Z.to_nat (Z.of_nat (length l))) (enc_aces l ++ rest) (len - 4) =
      Some (inr (l.*1))).
    { apply decode_aces_spec; [rewrite zlen_app; lia|lia|]. exists l, rest. split_and!; try done; lia. }
    by rewrite E.
Qed.

Lemma decode_total m buf len :
  len <= zlen buf \/ BEEGFS_NFS4ACL_MAX_XDR < len -> BeeGFSNFS4AclXdr_decode m buf len <> None.
Proof.
  intros Hlen. unfold BeeGFSNFS4AclXdr_decode. destruct (Z.ltb_spec len 4) as [|H4]; [done|].
  destruct (Z.ltb_spec BEEGFS_NFS4ACL_MAX_XDR len) as [|Hm]; [done|].
  destruct Hlen as [Hlen|?]; [|lia]. destruct (read_be32_some buf) as (n & p & -> & Hp); [lia|].
  cbn [mbind option_bind]. destruct (_ <? n); [done|]. destruct (negb _); [done|]. destruct (negb _); [done|].
  destruct (decode_aces _ (Z.to_nat n) p (len - 4)) as [[|]|] eqn:E; cbn [mbind option_bind]; [done|done|].
  destruct (decode_aces_safe (Z.to_nat n) (xm_kmemdup m) p (len - 4) ltac:(lia) E).
Qed.

(** For every memory content and every outcome of the allocations, the decoder returns without
    reading behind the given length. *)
Theorem decode_stays_inside m buf len :
  len <= zlen buf -> BeeGFSNFS4AclXdr_decode m (take (Z.to_nat len) buf) len <> None.
Proof.
  intros Hlen. apply decode_total. left. unfold zlen in *. rewrite length_take. lia.
Qed.

(** ** Evaluation *)

(** An entry that takes part in a decision about an access of the subject. *)
Definition ace_relevant (inode : Inode) (cred : Cred) (ace : BeeGFSNFS4PreparedAce) : bool :=
  (Z.land (pa_flags ace) ACE4_INHERIT_ONLY_ACE =? 0) &&
  ((pa_type ace =? ACE4_ACCESS_ALLOWED_ACE_TYPE) || (pa_type ace =? ACE4_ACCESS_DENIED_ACE_TYPE)) &&
  BeeGFSNFS4Acl_aceAppliesToSubject ace inode cred.
(** Reference: the first relevant entry with the bit decides about it; [true]: allowed. *)
Fixpoint first_match (aces : list BeeGFSNFS4PreparedAce) (inode : Inode) (cred : Cred) (b : Z) :
    option bool :=
  match aces with
  | [] => None
  | ace :: aces =>
      if ace_relevant inode cred ace && Z.testbit (pa_mask ace) b
      then Some (pa_type ace =? ACE4_ACCESS_ALLOWED_ACE_TYPE)
      else first_match aces inode cred b
  end.

Definition some_denied (aces : list BeeGFSNFS4PreparedAce) inode cred (req : Z) : Prop :=
  exists b, Z.testbit req b = true /\ first_match aces inode cred b = Some false.
Definition all_allowed (aces : list BeeGFSNFS4PreparedAce) inode cred (req : Z) : Prop :=
  req <> 0 /\ forall b, Z.testbit req b = true -> first_match aces inode cred b = Some true.

(** What the three results mean. *)
Definition eval_spec (aces : list BeeGFSNFS4PreparedAce) inode cred (req rc : Z) : Prop :=
  (rc = - EACCES /\ some_denied aces inode cred req) \/
  (rc = 0 /\ all_allowed aces inode cred req) \/
  (rc = 1 /\ ~ some_denied aces inode cred req /\ ~ all_allowed aces inode cred req).

Lemma nonzero_bit z : 0 <= z -> z <> 0 -> exists b, 0 <= b /\ Z.testbit z b = true.
Proof. intros H0 Hz. exists (Z.log2 z). split; [apply Z.log2_nonneg|]. apply Z.bit_log2. lia. Qed.

Lemma remaining_bit rem mask b : in_u 32 rem ->
  Z.testbit (Z.land rem (u32 (Z.lnot (Z.land mask rem)))) b = Z.testbit rem b && negb (Z.testbit mask b).
Proof.
  intros Hrem. rewrite Z.land_spec. destruct (Z.testbit rem b) eqn:E; [|done]. cbn [andb].
  assert (0 <= b < 32) as Hb.
  { destruct (Z.neg_nonneg_cases b) as [Hn|Hn]; [by rewrite Z.testbit_neg_r in E|]. split; [done|].
    destruct (Z.lt_ge_cases b 32); [done|]. destruct Hrem as [H0 H1].
    destruct (Z.eq_dec rem 0) as [->|]; [by rewrite Z.bits_0 in E|].
    rewrite Z.bits_above_log2 in E; [done|done|]. apply Z.log2_lt_pow2; [lia|].
    eapply Z.lt_le_trans; [exact H1|]. apply Z.pow_le_mono_r; lia. }
  unfold u32. rewrite Z.mod_pow2_bits_low by lia. rewrite Z.lnot_spec by lia.
  by rewrite Z.land_spec, E, andb_true_r.
Qed.

Lemma in_u_remaining rem x : in_u 32 rem -> in_u 32 (Z.land rem (u32 x)).
Proof. intros H. apply in_u_land; [lia|done|]. apply u32_range. Qed.

Lemma land_zero_bit a c b : Z.land a c = 0 -> Z.testbit c b = true -> Z.testbit a b = false.
Proof.
  intros E Hb. apply (f_equal (fun z => Z.testbit z b)) in E. rewrite Z.land_spec, Z.bits_0, Hb in E.
  by rewrite andb_true_r in E.
Qed.

(** An entry that leaves the open bits alone does not change the decision. *)
Lemma eval_spec_skip ace aces inode cred req rc :
  (forall b, Z.testbit req b = true -> ace_relevant inode cred ace && Z.testbit (pa_mask ace) b = false) ->
  eval_spec aces inode cred req rc -> eval_spec (ace :: aces) inode cred req rc.
Proof.
  intros Hskip.
  assert (Hm : forall b, Z.testbit req b = true ->
    first_match (ace :: aces) inode cred b = first_match aces inode cred b).
  { intros b Hb. cbn [first_match]. by rewrite (Hskip b Hb). }
  assert (Hd : some_denied (ace :: aces) inode cred req <-> some_denied aces inode cred req).
  { unfold some_denied. split; intros (b & Hb & Hf); exists b; rewrite Hm in * by done; done. }
  assert (Ha : all_allowed (ace :: aces) inode cred req <-> all_allowed aces inode cred req).
  { unfold all_allowed. split; intros [Hz Hf]; split; try done; intros b Hb; specialize (Hf b Hb);
      rewrite Hm in * by done; done. }
  unfold eval_spec. by rewrite Hd, Ha.
Qed.

Lemma eval_aces_spec inode cred aces : forall req,
  in_u 32 req -> eval_spec aces inode cred req (eval_aces aces inode cred req).
Proof.
  induction aces as [|ace aces IH]; intros req Hreq; cbn [eval_aces].
  { right. right. split; [done|]. split; [by intros (b & _ & ?)|]. intros [Hz Ha].
    destruct (nonzero_bit req (proj1 Hreq) Hz) as (b & _ & Hb). by specialize (Ha b Hb). }
  assert (Hskip : ace_relevant inode cred ace = false ->
    eval_spec (ace :: aces) inode cred req (eval_aces aces inode cred req)).
  { intros Hr. apply eval_spec_skip; [by rewrite Hr|by apply IH]. }
  destruct (Z.land (pa_flags ace) ACE4_INHERIT_ONLY_ACE =? 0) eqn:Ef; cbn [negb];
    [|apply Hskip; unfold ace_relevant; by rewrite Ef].
  destruct (negb _ && negb _) eqn:Et.
  { apply Hskip. unfold ace_relevant. rewrite Ef. rewrite <- negb_orb in Et. apply negb_true_iff in Et.
    by rewrite Et. }
  destruct (BeeGFSNFS4Acl_aceAppliesToSubject ace inode cred) eqn:Es; cbn [negb];
    [|apply Hskip; unfold ace_relevant; by rewrite Es, andb_false_r].
  assert (Hr : ace_relevant inode cred ace = true).
  { unfold ace_relevant. rewrite Ef, Es. rewrite <- negb_orb in Et. apply negb_false_iff in Et. by rewrite Et. }
  clear Hskip. destruct (Z.eqb_spec (Z.land (pa_mask ace) req) 0) as [E0|E0].
  { apply eval_spec_skip; [|by apply IH]. intros b Hb. by rewrite (land_zero_bit _ _ b E0 Hb), andb_false_r. }
  destruct (Z.eqb_spec (pa_type ace) ACE4_ACCESS_DENIED_ACE_TYPE) as [Ed|Ed].
  { left. split; [done|].
    assert (0 <= Z.land (pa_mask ace) req) as Hp by (apply Z.land_nonneg; right; apply Hreq).
    destruct (nonzero_bit _ Hp E0) as (b & _ & Hb). rewrite Z.land_spec in Hb.
    apply andb_prop in Hb as [Hb1 Hb2]. exists b. split; [done|]. cbn [first_match].
    by rewrite Hr, Hb1, Ed. }
  assert (Ea : (pa_type ace =? ACE4_ACCESS_ALLOWED_ACE_TYPE) = true).
  { rewrite <- negb_orb in Et. apply negb_false_iff, orb_prop in Et as [?|?]; done. }
  set (rem := Z.land req _).
  assert (Hbit : forall b, Z.testbit rem b = Z.testbit req b && negb (Z.testbit (pa_mask ace) b))
    by (intros b; by apply remaining_bit).
  assert (Hmatch : forall b, first_match (ace :: aces) inode cred b =
    if Z.testbit (pa_mask ace) b then Some true else first_match aces inode cred b).
  { intros b. cbn [first_match]. by rewrite Hr, Ea. }
  assert (Hreq0 : req <> 0) by (intros ->; by rewrite Z.land_0_r in E0).
  assert (Hd : some_denied (ace :: aces) inode cred req <-> some_denied aces inode cred rem).
  { unfold some_denied. split; intros (b & Hb & Hf); exists b; rewrite Hmatch, Hbit in *.
    - by destruct (Z.testbit (pa_mask ace) b); [|rewrite Hb].
    - apply andb_prop in Hb as [-> Hb%negb_true_iff]. by rewrite Hb. }
  assert (Ha : all_allowed (ace :: aces) inode cred req <->
    forall b, Z.testbit rem b = true -> first_match aces inode cred b = Some true).
  { unfold all_allowed. split.
    - intros [_ Hf] b. rewrite Hbit. intros [Hb1 Hb2%negb_true_iff]%andb_prop.
      specialize (Hf b Hb1). by rewrite Hmatch, Hb2 in Hf.
    - intros Hf. split; [done|]. intros b Hb. rewrite Hmatch.
      destruct (Z.testbit (pa_mask ace) b) eqn:Eb; [done|]. apply Hf. by rewrite Hbit, Hb, Eb. }
  unfold eval_spec. rewrite Hd, Ha. destruct (Z.eqb_spec rem 0) as [->|Hrem].
  { right. left. split; [done|]. intros b. by rewrite Z.bits_0. }
  destruct (IH rem (in_u_remaining _ _ Hreq)) as [?|[[-> [_ Hf]]|(-> & Hnd & Hna)]]; [by left|by right; left|].
  right. right. split; [done|]. split; [done|]. intros Hf. by apply Hna.
Qed.

(** The requested bits are a 32-bit value; a request of any kind but [MAY_NOT_BLOCK] asks for
    something, so that the list is not skipped. *)
Lemma add_req_u32 mask flag bits req : in_u 32 bits -> in_u 32 req -> in_u 32 (add_req mask flag bits req).
Proof. intros Hb Hr. unfold add_req. destruct (negb _); [|done]. by apply in_u_lor. Qed.

Lemma reqmask_u32 inode mask : in_u 32 (BeeGFSNFS4Acl_vfsToAceReqmask inode mask).
Proof.
  unfold BeeGFSNFS4Acl_vfsToAceReqmask. cbv zeta.
  assert (Hreq : forall r, in_u 32 r -> in_u 32 (if r =? 0 then add_req mask MAY_OPEN
    (if S_ISDIR (i_mode inode) then ACE4_EXECUTE else ACE4_READ_ATTRIBUTES) r else r)).
  { intros r Hr. destruct (r =? 0); [|done]. apply add_req_u32; [by destruct (S_ISDIR _)|done]. }
  apply Hreq. repeat apply add_req_u32; try done. by destruct (S_ISDIR _).
Qed.

(** C24: A permission check with a list follows the first relevant entry of each bit that the request of
    the kernel is translated to: access is denied if that entry denies one of them, allowed if
    something is requested and that entry allows all of them, and otherwise left to the mode
    bits. *)
Theorem checkPermission_first_match acl inode cred mask :
  pl_naces acl = zlen (pl_aces acl) ->
  eval_spec (pl_aces acl) inode cred (BeeGFSNFS4Acl_vfsToAceReqmask inode mask)
    (BeeGFSNFS4Acl_checkPermission (Some acl) inode cred mask).
Proof.
  intros Hn. unfold BeeGFSNFS4Acl_checkPermission, BeeGFSNFS4Acl_eval. cbv zeta.
  set (req := BeeGFSNFS4Acl_vfsToAceReqmask inode mask).
  pose proof (eval_aces_spec inode cred (pl_aces acl) req (reqmask_u32 inode mask)) as H.
  destruct (Z.eqb_spec (pl_naces acl) 0) as [E|E].
  - assert (pl_aces acl = []) as El by (destruct (pl_aces acl); [done|]; rewrite Hn in E; zlia).
    rewrite El in *. exact H.
  - set (rc := eval_aces _ _ _ _) in *.
    assert (rc = - EACCES \/ rc = 0 \/ rc = 1) as Hrc by (destruct H as [[? _]|[[? _]|[? _]]]; auto).
    destruct Hrc as [Er|[Er|Er]]; rewrite Er in *; exact H.
Qed.

(** ** The cache *)

(** A resolver that is ready has its functions. *)
Definition resolver_ok (r : PrincipalResolver) : Prop :=
  rs_state r = RESOLVER_READY -> is_Some (rs_resolve_user r) /\ is_Some (rs_resolve_group r).
Definition resolvers_ok (rs : Resolvers) : Prop :=
  resolver_ok (trivialResolver rs) /\ resolver_ok (sidResolver rs).

Lemma initResolvers_ok keys :
  resolvers_ok (BeeGFSNFS4Acl_initResolvers keys resolvers0).1 /\
  (BeeGFSNFS4Acl_initResolvers keys resolvers0).2 = true.
Proof. split; [|done]. split; intros _; split; eexists; done. Qed.

Lemma prepareAce_total rs ace : resolvers_ok rs -> exists p, BeeGFSNFS4Acl_prepareAce rs ace = Some p.
Proof.
  intros [Ht Hs]. unfold BeeGFSNFS4Acl_prepareAce. cbv zeta.
  destruct (who_is_owner _ _); [eauto|]. destruct (who_is_group _ _); [eauto|].
  destruct (who_is_everyone _ _); [eauto|].
  assert (Hr : resolver_ok (BeeGFSNFS4Acl_selectResolver rs (ace_who ace) (ace_who_len ace))).
  { unfold BeeGFSNFS4Acl_selectResolver. by destruct (_ && _). }
  destruct (rs_state _) eqn:Est; [eauto| |eauto|eauto].
  destruct (Hr Est) as [[u Hu] [g Hg]]. rewrite Hu, Hg. destruct (negb _); cbn [mbind option_bind]; eauto.
Qed.

Lemma prepare_aces_total rs aces : resolvers_ok rs ->
  exists ps, prepare_aces rs aces = Some ps /\ length ps = length aces.
Proof.
  intros Hrs. induction aces as [|a aces (ps & E & Hl)]; cbn [prepare_aces]; [by exists []|].
  destruct (prepareAce_total rs a Hrs) as [p ->]. cbn [mbind option_bind]. rewrite E. cbn [mbind option_bind].
  eexists. split; [done|]. cbn. by rewrite Hl.
Qed.

(** A cache object holds a prepared list with its length, or the mark that there is none. *)
Definition cache_wf (c : BeeGFSNFS4AclCache) : Prop :=
  match ch_acl c with
  | Some acl => pl_naces acl = zlen (pl_aces acl) /\ ch_status c = 0
  | None => ch_status c = - ENODATA
  end.

Lemma decode_aces_length k n : forall p rem aces,
  decode_aces k n p rem = Some (inr aces) -> length aces = n.
Proof.
  revert k. induction n as [|n IH]; intros k p rem aces; cbn [decode_aces]; [by intros [= <-]|].
  destruct (decode_ace _ _ _) as [[|[[a p'] rem']]|]; cbn [mbind option_bind]; [done| |done].
  destruct (decode_aces _ n p' rem') as [[|l]|] eqn:E; cbn [mbind option_bind]; [done| |done].
  intros [= <-]. cbn. by rewrite (IH _ _ _ _ E).
Qed.

Lemma decode_naces m buf len acl :
  BeeGFSNFS4AclXdr_decode m buf len = Some (inr acl) -> acl_naces acl = zlen (acl_aces acl).
Proof.
  unfold BeeGFSNFS4AclXdr_decode. destruct (_ <? 4); [done|]. destruct (_ <? len); [done|].
  destruct (read_be32 buf) as [[n p]|] eqn:E; [|done]. apply read_be32_inv in E as [_ [Hn _]].
  cbn [mbind option_bind]. destruct (_ <? n); [done|]. destruct (negb _); [done|]. destruct (negb _); [done|].
  destruct (decode_aces _ _ _ _) as [[|aces]|] eqn:E; cbn [mbind option_bind]; [done| |done].
  intros [= <-]. cbn. unfold zlen. rewrite (decode_aces_length _ _ _ _ _ E). lia.
Qed.

Lemma populate_ok rs m now rc buf : resolvers_ok rs -> zlen buf = BEEGFS_NFS4ACL_MAX_XDR ->
  exists res, populate rs m now rc buf = Some res /\ forall c, res = inr c -> cache_wf c.
Proof.
  intros Hrs Hbuf. unfold populate. destruct (negb (pm_buf m)); [by eexists|].
  destruct (rc =? - ENODATA); [eexists; split; [done|]; destruct (pm_newc m); by intros c [= <-]|].
  destruct (rc <? 0); [by eexists|].
  assert (exists acl, (if rc =? 0 then Some (if pm_empty m then inr (MkAcl 0 []) else inl ENOMEM)
      else BeeGFSNFS4AclXdr_decode (pm_xdr m) buf rc) = Some acl /\
      forall a, acl = inr a -> acl_naces a = zlen (acl_aces a)) as (acl & -> & Hacl).
  { destruct (rc =? 0); [destruct (pm_empty m); eexists; (split; [done|]); by intros a [= <-]|].
    destruct (BeeGFSNFS4AclXdr_decode (pm_xdr m) buf rc) as [acl|] eqn:E.
    - exists acl. split; [done|]. intros a ->. exact (decode_naces _ _ _ _ E).
    - destruct (decode_total (pm_xdr m) buf rc); [rewrite Hbuf; lia|done]. }
  cbn [mbind option_bind]. destruct acl as [err|a]; [by eexists|]. specialize (Hacl a eq_refl).
  unfold BeeGFSNFS4Acl_prepareAcl. destruct (negb (pm_kzalloc m)); [by eexists|].
  destruct (_ && _); [by eexists|].
  destruct (prepare_aces_total rs (acl_aces a) Hrs) as (ps & -> & Hl). cbn [mbind option_bind].
  eexists. split; [done|]. destruct (pm_newc m); intros c [= <-]. split; [|done]. cbn. unfold zlen in *. lia.
Qed.

(** The pointer that a call has read inside of its critical section. *)
Definition holds (st : PermState) : option Z :=
  match st with PS_looked p | PS_relooked p => p | PS_eval p => Some p | _ => None end.
Definition in_rcu (st : PermState) : bool :=
  match st with PS_looked _ | PS_relooked _ | PS_eval _ => true | _ => false end.

Record acl_ok (v : AclSystem) : Prop := MkAclOk {
  co_objects p : is_Some (cw_heap (sy_world v) !! p) <->
    cw_ptr (sy_world v) = Some p \/ p ∈ (cw_retired (sy_world v)).*1;
  co_once : NoDup ((cw_retired (sy_world v)).*1);
  co_current p : cw_ptr (sy_world v) = Some p -> p ∉ (cw_retired (sy_world v)).*1;
  co_wf p c : cw_heap (sy_world v) !! p = Some c -> cache_wf c;
  co_readers t : t ∈ cw_readers (sy_world v) <->
    exists call st, sy_calls v !! t = Some (call, st) /\ in_rcu st = true;
  co_held t call st p : sy_calls v !! t = Some (call, st) -> holds st = Some p ->
    cw_ptr (sy_world v) = Some p \/ exists w, (p, w) ∈ cw_retired (sy_world v) /\ t ∈ w;
  co_publish t call c : sy_calls v !! t = Some (call, PS_publish c) -> cache_wf c
}.

Lemma held_alive v t call st p : acl_ok v -> sy_calls v !! t = Some (call, st) -> holds st = Some p ->
  exists c, cw_heap (sy_world v) !! p = Some c.
Proof.
  intros Hok Ht Hp. apply (co_objects v Hok p). destruct (co_held v Hok t call st p Ht Hp) as [?|(w & Hin & _)];
    [by left|right]. apply list_elem_of_fmap. by exists (p, w).
Qed.

Lemma holds_in_rcu st p : holds st = Some p -> in_rcu st = true.
Proof. by destruct st. Qed.

(** Moves of a call that leave the world alone. *)
Lemma acl_ok_move v t call st st' : acl_ok v -> sy_calls v !! t = Some (call, st) ->
  in_rcu st' = in_rcu st -> (forall p, holds st' = Some p -> holds st = Some p) ->
  (forall c, st' = PS_publish c -> cache_wf c) ->
  acl_ok (MkAclSystem (sy_world v) (<[t := (call, st')]> (sy_calls v))).
Proof.
  intros Hok Ht Hin Hh Hc. split; cbn [sy_world sy_calls]; try apply Hok.
  - intros t'. rewrite (co_readers v Hok). destruct (decide (t' = t)) as [->|Hn].
    + rewrite Ht, lookup_insert_eq. split; intros (call' & s' & [= <- <-] & E); eexists _, _; (split; [done|]);
        congruence.
    + by rewrite lookup_insert_ne.
  - intros t' call' s' p [[<- [= <- <-]]|[Hn Ht']]%lookup_insert_Some Hp.
    + exact (co_held v Hok t call st p Ht (Hh p Hp)).
    + exact (co_held v Hok t' call' s' p Ht' Hp).
  - intros t' call' c [[<- [= <- ->]]|[Hn Ht']]%lookup_insert_Some; [by apply Hc|].
    exact (co_publish v Hok t' call' c Ht').
Qed.

Lemma acl_ok_lock v t call st p : acl_ok v -> sy_calls v !! t = Some (call, st) -> in_rcu st = false ->
  in_rcu p = true -> holds p = cw_ptr (sy_world v) ->
  acl_ok (MkAclSystem (rcu_read_lock t (sy_world v)) (<[t := (call, p)]> (sy_calls v))).
Proof.
  intros Hok Ht Hst Hp Hh. split; cbn [sy_world sy_calls rcu_read_lock cw_ptr cw_heap cw_retired cw_readers];
    try apply Hok.
  - intros t'. rewrite elem_of_union, elem_of_singleton, (co_readers v Hok).
    destruct (decide (t' = t)) as [->|Hn].
    + rewrite lookup_insert_eq. split; [eauto|auto].
    + rewrite lookup_insert_ne by done. naive_solver.
  - intros t' call' s' q [[<- [= <- <-]]|[Hn Ht']]%lookup_insert_Some Hq; [left; congruence|].
    exact (co_held v Hok t' call' s' q Ht' Hq).
  - intros t' call' c [[<- [= <- ->]]|[Hn Ht']]%lookup_insert_Some; [done|].
    exact (co_publish v Hok t' call' c Ht').
Qed.

Lemma retired_fst (f : gset Z -> gset Z) l : (prod_map id f <$> l).*1 = (l : list (Z * gset Z)).*1.
Proof. rewrite <- list_fmap_compose. by apply list_fmap_ext. Qed.

Lemma acl_ok_unlock v t call st st' : acl_ok v -> sy_calls v !! t = Some (call, st) ->
  in_rcu st' = false -> (forall c, st' <> PS_publish c) ->
  acl_ok (MkAclSystem (rcu_read_unlock t (sy_world v)) (<[t := (call, st')]> (sy_calls v))).
Proof.
  intros Hok Ht Hst Hc.
  split; cbn [sy_world sy_calls rcu_read_unlock cw_ptr cw_heap cw_retired cw_readers];
    rewrite ?retired_fst; try apply Hok.
  - intros t'. rewrite elem_of_difference, elem_of_singleton, (co_readers v Hok).
    destruct (decide (t' = t)) as [->|Hn].
    + rewrite lookup_insert_eq. split; [naive_solver|]. intros (c' & s' & [= <- <-] & ?). congruence.
    + rewrite lookup_insert_ne by done. naive_solver.
  - intros t' call' s' p [[<- [= <- <-]]|[Hn Ht']]%lookup_insert_Some Hp;
      [by rewrite (holds_in_rcu _ _ Hp) in Hst|].
    destruct (co_held v Hok t' call' s' p Ht' Hp) as [?|(w & Hin & Hw)]; [by left|right].
    exists (w ∖ {[t]}). split; [apply list_elem_of_fmap; by exists (p, w)|]. set_solver.
  - intros t' call' c [[<- [= <- ->]]|[Hn Ht']]%lookup_insert_Some; [by destruct (Hc c)|].
    exact (co_publish v Hok t' call' c Ht').
Qed.

(** What the exchange of the pointer means for the retired objects. *)
Lemma swap_retired v new : acl_ok v ->
  let s' := swap_cache new (sy_world v) in
  NoDup ((cw_retired s').*1) /\
  (forall p, p ∈ (cw_retired s').*1 <-> is_Some (cw_heap (sy_world v) !! p)) /\
  (forall t call st p, sy_calls v !! t = Some (call, st) -> holds st = Some p ->
     exists w, (p, w) ∈ cw_retired s' /\ t ∈ w).
Proof.
  intros Hok s'. subst s'. unfold swap_cache. cbn [cw_retired].
  destruct (cw_ptr (sy_world v)) as [old|] eqn:Ep; split_and!; cbn [fmap list_fmap fst].
  - apply list.NoDup_cons. split; [exact (co_current v Hok old Ep)|exact (co_once v Hok)].
  - intros p. rewrite elem_of_cons, (co_objects v Hok p), Ep. naive_solver.
  - intros t call st p Ht Hp. destruct (co_held v Hok t call st p Ht Hp) as [E|(w & Hin & Hw)].
    + exists (cw_readers (sy_world v)). rewrite Ep in E. injection E as ->. split; [by left|].
      apply (co_readers v Hok). eexists _, _. split; [exact Ht|]. exact (holds_in_rcu _ _ Hp).
    + exists w. split; [by right|done].
  - exact (co_once v Hok).
  - intros p. rewrite (co_objects v Hok p), Ep. naive_solver.
  - intros t call st p Ht Hp. destruct (co_held v Hok t call st p Ht Hp) as [E|?]; [congruence|done].
Qed.

Lemma acl_ok_invalidate v : acl_ok v ->
  acl_ok (MkAclSystem (BeeGFSNFS4Acl_invalidateCache (sy_world v)) (sy_calls v)).
Proof.
  intros Hok. destruct (swap_retired v None Hok) as (Hnd & Hret & Hheld).
  unfold BeeGFSNFS4Acl_invalidateCache.
  split; cbn [sy_world sy_calls]; try exact Hnd; try apply Hok; try done.
  - intros p. change (cw_heap (swap_cache None (sy_world v))) with (cw_heap (sy_world v)). rewrite <- Hret.
    split; [by right|]. intros [[=]|?]. done.
  - intros t call st p Ht Hp. right. by eapply Hheld.
Qed.

Lemma acl_ok_publish v t call c addr st' : acl_ok v -> sy_calls v !! t = Some (call, PS_publish c) ->
  cw_heap (sy_world v) !! addr = None -> in_rcu st' = false -> (forall c, st' <> PS_publish c) ->
  acl_ok (MkAclSystem (publish_cache addr c (sy_world v)) (<[t := (call, st')]> (sy_calls v))).
Proof.
  intros Hok Ht Hfree Hst Hc. destruct (swap_retired v (Some addr) Hok) as (Hnd & Hret & Hheld).
  assert (Enew : publish_cache addr c (sy_world v) = MkAclWorld (Some addr) (<[addr := c]> (cw_heap (sy_world v)))
    (cw_retired (swap_cache (Some addr) (sy_world v))) (cw_readers (sy_world v))) by done.
  rewrite Enew. set (ret := cw_retired (swap_cache (Some addr) (sy_world v))) in *.
  assert (Hh : forall st p, holds st = Some p -> in_rcu st = false -> False)
    by (intros st p ->%holds_in_rcu; done).
  split; cbn [sy_world sy_calls cw_ptr cw_heap cw_retired cw_readers].
  - intros p. rewrite Hret. destruct (decide (p = addr)) as [->|Hn].
    + rewrite lookup_insert_eq. naive_solver.
    + rewrite lookup_insert_ne by done. naive_solver.
  - exact Hnd.
  - intros p [= <-]. rewrite Hret, Hfree. by intros [? [=]].
  - intros p c' [[<- <-]|[Hn Hp]]%lookup_insert_Some; [exact (co_publish v Hok t call c Ht)|].
    exact (co_wf v Hok p c' Hp).
  - intros t'. rewrite (co_readers v Hok). destruct (decide (t' = t)) as [->|Hn].
    + rewrite Ht, lookup_insert_eq. split; intros (c' & s' & [= <- <-] & E); cbn in E; congruence.
    + by rewrite lookup_insert_ne.
  - intros t' call' s' p [[<- [= <- <-]]|[Hn Ht']]%lookup_insert_Some Hp;
      [by destruct (Hh _ _ Hp Hst)|]. right. by eapply Hheld.
  - intros t' call' c' [[<- [= <- ->]]|[Hn Ht']]%lookup_insert_Some; [by destruct (Hc c')|].
    exact (co_publish v Hok t' call' c' Ht').
Qed.

Lemma acl_ok_free v i s' : acl_ok v -> rcu_free i (sy_world v) = Some s' ->
  acl_ok (MkAclSystem s' (sy_calls v)).
Proof.
  intros Hok. unfold rcu_free. destruct (cw_retired (sy_world v) !! i) as [[addr w]|] eqn:Ei; [|done].
  destruct (bool_decide (w = ∅)) eqn:Ew; [|done]. apply bool_decide_eq_true in Ew as ->.
  destruct (cw_heap (sy_world v) !! addr) as [c|] eqn:Ea; [|done]. intros [= <-].
  pose proof (co_once v Hok) as Hnd.
  apply delete_Permutation in Ei as Hperm. set (ret := delete i (cw_retired (sy_world v))) in *.
  assert (Hnd' : addr ∉ ret.*1 /\ NoDup (ret.*1)).
  { rewrite Hperm in Hnd. cbn in Hnd. by apply list.NoDup_cons in Hnd. }
  assert (Hin : forall p, p ∈ (cw_retired (sy_world v)).*1 <-> p = addr \/ p ∈ ret.*1).
  { intros p. rewrite Hperm. cbn [fmap list_fmap fst]. by rewrite elem_of_cons. }
  assert (Hcur : cw_ptr (sy_world v) <> Some addr).
  { intros E. apply (co_current v Hok addr E), Hin. by left. }
  split; cbn [sy_world sy_calls cw_ptr cw_heap cw_retired cw_readers]; try apply Hok.
  - intros p. destruct (decide (p = addr)) as [->|Hn].
    + rewrite lookup_delete_eq. split; [by intros [? [=]]|]. intros [?|?]; [done|]. by destruct Hnd'.
    + rewrite lookup_delete_ne by done. rewrite (co_objects v Hok p), Hin. naive_solver.
  - apply Hnd'.
  - intros p Hp Hr. apply (co_current v Hok p Hp), Hin. by right.
  - intros p c' [Hn Hp]%lookup_delete_Some. exact (co_wf v Hok p c' Hp).
  - intros t call st p Ht Hp. destruct (co_held v Hok t call st p Ht Hp) as [?|(w & Hw & Htw)]; [by left|right].
    exists w. split; [|done]. rewrite Hperm in Hw. apply elem_of_cons in Hw as [[= -> ->]|?]; [set_solver|done].
Qed.

Lemma acl_ok_step cfg rs v t call st e st' s' : resolvers_ok rs -> fetch_ok e -> acl_ok v ->
  sy_calls v !! t = Some (call, st) -> cw_heap (sy_world v) !! pe_addr e = None ->
  perm_step cfg rs t call e st (sy_world v) = Some (st', s') ->
  acl_ok (MkAclSystem s' (<[t := (call, st')]> (sy_calls v))).
Proof.
  intros Hrs He Hok Ht Hfree. destruct st; cbn [perm_step].
  - destruct (negb _); [intros [= <- <-]; by eapply acl_ok_move|].
    destruct (negb _); [intros [= <- <-]; by eapply acl_ok_move|].
    intros [= <- <-]. by eapply acl_ok_lock.
  - destruct (load_cache p (sy_world v)) as [c|]; cbn [mbind option_bind]; [|done].
    destruct (BeeGFSNFS4Acl_cacheLookup _ _ _ _), p; intros [= <- <-];
      (by eapply acl_ok_unlock) || (eapply acl_ok_move; try done; by intros q [= <-]).
  - destruct (populate_ok rs (pe_memory e) (pe_now e) (pe_fetch e).1 (pe_fetch e).2 Hrs He) as (res & -> & Hwf).
    cbn [mbind option_bind]. destruct res as [err|c]; intros [= <- <-]; eapply acl_ok_move; try done.
    intros c' [= <-]. by apply Hwf.
  - destruct (_ =? _); intros [= <- <-]; by eapply acl_ok_publish.
  - intros [= <- <-]. by eapply acl_ok_lock.
  - destruct (load_cache p (sy_world v)) as [c|]; cbn [mbind option_bind]; [|done].
    destruct (BeeGFSNFS4Acl_resolveLockedCache _), p; intros [= <- <-];
      (by eapply acl_ok_unlock) || (eapply acl_ok_move; try done; by intros q [= <-]).
  - destruct (cw_heap (sy_world v) !! p); cbn [mbind option_bind]; [|done].
    destruct (_ <=? 0); intros [= <- <-]; by eapply acl_ok_unlock.
  - intros [= <- <-]. by eapply acl_ok_move.
  - done.
Qed.

Definition acl_reachable (cfg : AclConfig) (rs : Resolvers) : AclSystem -> Prop :=
  rtc (acl_step cfg rs) acl_start.

Lemma acl_ok_start : acl_ok acl_start.
Proof.
  split; cbn; try done.
  - intros p. rewrite lookup_empty. split; [by intros [? [=]]|]. intros [[=]|?]. set_solver.
  - constructor.
  - intros t. split; [set_solver|]. intros (? & ? & E & _). by rewrite lookup_empty in E.
Qed.

Lemma acl_step_ok cfg rs v v' : resolvers_ok rs -> acl_ok v -> acl_step cfg rs v v' -> acl_ok v'.
Proof.
  intros Hrs Hok [t call Ht|t call st st' e s' Ht He Hf E|t call rc Ht| |i s' E].
  - split; cbn [sy_world sy_calls]; try apply Hok.
    + intros t'. rewrite (co_readers v Hok). destruct (decide (t' = t)) as [->|Hn].
      * rewrite Ht, lookup_insert_eq. naive_solver.
      * by rewrite lookup_insert_ne.
    + intros t' call' s' p [[<- [= <- <-]]|[Hn Ht']]%lookup_insert_Some Hp; [done|].
      exact (co_held v Hok t' call' s' p Ht' Hp).
    + intros t' call' c [[<- [=]]|[Hn Ht']]%lookup_insert_Some. exact (co_publish v Hok t' call' c Ht').
  - by eapply acl_ok_step.
  - split; cbn [sy_world sy_calls]; try apply Hok.
    + intros t'. rewrite (co_readers v Hok). destruct (decide (t' = t)) as [->|Hn].
      * rewrite Ht, lookup_delete_eq. naive_solver.
      * by rewrite lookup_delete_ne.
    + intros t' call' s' p [Hn Ht']%lookup_delete_Some Hp. exact (co_held v Hok t' call' s' p Ht' Hp).
    + intros t' call' c [Hn Ht']%lookup_delete_Some. exact (co_publish v Hok t' call' c Ht').
  - by apply acl_ok_invalidate.
  - by eapply acl_ok_free.
Qed.

Lemma acl_reachable_ok cfg rs v : resolvers_ok rs -> acl_reachable cfg rs v -> acl_ok v.
Proof.
  intros Hrs. apply rtc_ind_r; [exact acl_ok_start|]. intros u u' _ Hs IH. by eapply acl_step_ok.
Qed.

(** C25: In every interleaving of permission checks with changes of the attribute and with the
    deferred freeing of cache objects, the next step of every check can be executed (no check uses
    an object that has been freed, whatever the server and the allocations answer), and no object
    is lost: the ones that exist are the current one and the ones that wait to be freed, each of
    them once. *)
Theorem acl_cache_invariant cfg rs v : resolvers_ok rs -> acl_reachable cfg rs v ->
  (forall t call st e, sy_calls v !! t = Some (call, st) -> fetch_ok e -> (forall rc, st <> PS_done rc) ->
     exists r, perm_step cfg rs t call e st (sy_world v) = Some r) /\
  (forall p, is_Some (cw_heap (sy_world v) !! p) <->
     cw_ptr (sy_world v) = Some p \/ p ∈ (cw_retired (sy_world v)).*1) /\
  NoDup ((cw_retired (sy_world v)).*1).
Proof.
  intros Hrs Hr. pose proof (acl_reachable_ok cfg rs v Hrs Hr) as Hok.
  split; [|split; [exact (co_objects v Hok)|exact (co_once v Hok)]].
  intros t call st e Ht He Hnd.
  assert (Hload : forall p, holds st = p -> exists c, load_cache p (sy_world v) = Some c).
  { intros [p|] Hp; [|by eexists]. destruct (held_alive v t call st p Hok Ht Hp) as [c E].
    cbn. rewrite E. by eexists. }
  destruct st; cbn [perm_step]; try (by repeat (destruct (negb _); [by eexists|]); eexists).
  - destruct (Hload p eq_refl) as [c ->]. cbn [mbind option_bind].
    destruct (BeeGFSNFS4Acl_cacheLookup _ _ _ _), p; by eexists.
  - destruct (populate_ok rs (pe_memory e) (pe_now e) (pe_fetch e).1 (pe_fetch e).2 Hrs He) as (res & -> & _).
    cbn [mbind option_bind]. destruct res; by eexists.
  - destruct (_ =? _); by eexists.
  - destruct (Hload p eq_refl) as [c ->]. cbn [mbind option_bind].
    destruct (BeeGFSNFS4Acl_resolveLockedCache _), p; by eexists.
  - destruct (held_alive v t call (PS_eval p) p Hok Ht eq_refl) as [c ->]. cbn [mbind option_bind].
    destruct (_ <=? 0); by eexists.
  - by destruct (Hnd rc).
Qed.

(** ** A permission check on its own *)

(** The answer of a list: its decision, or the one of the mode bits. *)
Definition list_answer (call : PermCall) (acl : option BeeGFSNFS4PreparedAcl) : Z :=
  let rc := BeeGFSNFS4Acl_checkPermission acl (pc_inode call) (pc_cred call) (pc_mask call) in
  if rc <=? 0 then rc else pc_generic call.
Definition cache_answer (call : PermCall) (c : BeeGFSNFS4AclCache) : Z :=
  if ch_status c =? - ENODATA then pc_generic call else list_answer call (ch_acl c).
(** Reference: a usable cache entry answers, otherwise the attribute is fetched. *)
Definition permission_spec (cfg : AclConfig) (rs : Resolvers) (call : PermCall) (envs : nat -> PermEnv)
    (cached : option BeeGFSNFS4AclCache) : option Z :=
  if negb (Z.land (pc_mask call) MAY_NOT_BLOCK =? 0) then Some (- ECHILD)
  else if negb (cf_sysNFSv4ACLsEnabled cfg) then Some (pc_generic call)
  else
    match cached, BeeGFSNFS4Acl_cacheLookup (pe_now (envs 1%nat)) (pc_inode call) cfg cached with
    | Some c, CACHE_POSITIVE_HIT | Some c, CACHE_NEGATIVE_HIT => Some (cache_answer call c)
    | _, _ =>
        let e := envs 2%nat in
        res ← populate rs (pe_memory e) (pe_now e) (pe_fetch e).1 (pe_fetch e).2;
        Some (match res with inl err => err | inr c => cache_answer call c end)
    end.

Lemma lookup_status now inode cfg c :
  match BeeGFSNFS4Acl_cacheLookup now inode cfg (Some c) with
  | CACHE_MISS => True
  | CACHE_NEGATIVE_HIT => ch_status c = - ENODATA
  | CACHE_POSITIVE_HIT => ch_status c <> - ENODATA
  end.
Proof.
  unfold BeeGFSNFS4Acl_cacheLookup. destruct (_ =? 0); [done|]. destruct (_ <? _); [done|].
  by destruct (Z.eqb_spec (ch_status c) (- ENODATA)).
Qed.

Section Alone.
Context (cfg : AclConfig) (rs : Resolvers) (t : Z) (call : PermCall).
Definition run_alone (fuel : nat) (envs : nat -> PermEnv) (st : PermState) (s : AclWorld) : option (Z * AclWorld) :=
  perm_run cfg rs fuel t call envs (fun _ => id) st s.

Lemma alone_step fuel envs st s st' s' : perm_step cfg rs t call (envs O) st s = Some (st', s') ->
  run_alone (S fuel) envs st s = run_alone fuel (fun i => envs (S i)) st' s'.
Proof. unfold run_alone. destruct st; intros E; cbn [perm_run]; try (rewrite E; done). done. Qed.

Lemma alone_done fuel envs rc s : run_alone fuel envs (PS_done rc) s = Some (rc, s).
Proof. by destruct fuel. Qed.

Lemma generic_run fuel envs s : run_alone (S fuel) envs PS_generic s = Some (pc_generic call, s).
Proof. erewrite alone_step by done. apply alone_done. Qed.

Lemma eval_run fuel envs a c s : cw_heap s !! a = Some c ->
  exists s', run_alone (S (S fuel)) envs (PS_eval a) s = Some (list_answer call (ch_acl c), s').
Proof.
  intros Ha. unfold list_answer. destruct (_ <=? 0) eqn:E; eexists.
  - erewrite alone_step by (cbn [perm_step]; rewrite Ha; cbn [mbind option_bind]; rewrite E; done).
    apply alone_done.
  - erewrite alone_step by (cbn [perm_step]; rewrite Ha; cbn [mbind option_bind]; rewrite E; done).
    apply generic_run.
Qed.

Lemma fetch_run envs s : resolvers_ok rs -> fetch_ok (envs O) ->
  exists res s', populate rs (pe_memory (envs O)) (pe_now (envs O)) (pe_fetch (envs O)).1 (pe_fetch (envs O)).2 =
      Some res /\
    run_alone 6 envs PS_fetch s = Some (match res with inl err => err | inr c => cache_answer call c end, s').
Proof.
  intros Hrs He.
  destruct (populate_ok rs (pe_memory (envs O)) (pe_now (envs O)) (pe_fetch (envs O)).1 (pe_fetch (envs O)).2 Hrs He)
    as (res & E & _).
  exists res. destruct res as [err|c].
  { eexists. split; [done|]. erewrite alone_step by (cbn [perm_step]; rewrite E; done). apply alone_done. }
  set (a := pe_addr (envs 1%nat)). unfold cache_answer.
  destruct (Z.eqb_spec (ch_status c) (- ENODATA)) as [Es|Es].
  - eexists. split; [done|]. erewrite alone_step by (cbn [perm_step]; rewrite E; done).
    erewrite alone_step by (cbn [perm_step]; rewrite Es, Z.eqb_refl; done). apply generic_run.
  - set (s1 := rcu_read_lock t (publish_cache a c s)).
    assert (Ha : cw_heap s1 !! a = Some c) by (unfold s1; cbn; apply lookup_insert_eq).
    destruct (eval_run 0 (fun i => envs (4 + i)%nat) a c s1 Ha) as [s' Er]. exists s'. split; [done|].
    erewrite alone_step by (cbn [perm_step]; rewrite E; done).
    erewrite alone_step by (cbn [perm_step]; rewrite (proj2 (Z.eqb_neq _ _) Es); done).
    erewrite alone_step by done. fold a s1.
    erewrite alone_step.
    2: { cbn [perm_step load_cache]. change (cw_ptr (publish_cache a c s)) with (Some a). cbn [load_cache].
         rewrite Ha. cbn [mbind option_bind BeeGFSNFS4Acl_resolveLockedCache].
         by rewrite (proj2 (Z.eqb_neq _ _) Es). }
    exact Er.
Qed.

(** A permission check that nobody interferes with returns, and its result is: the answer of a
    valid cache entry; otherwise the answer of the list that the server has now; the decision of
    the mode bits if there is no list or if the list does not decide; and the error if the list
    cannot be fetched, decoded or stored. *)
Theorem permission_alone envs s :
  resolvers_ok rs -> (forall i, fetch_ok (envs i)) ->
  (forall p, cw_ptr s = Some p -> exists c, cw_heap s !! p = Some c) ->
  exists rc s', FhgfsOps_permission cfg rs t call envs (fun _ => id) s = Some (rc, s') /\
    permission_spec cfg rs call envs (p ← cw_ptr s; cw_heap s !! p) = Some rc.
Proof.
  intros Hrs He Hptr. unfold FhgfsOps_permission, permission_spec.
  change (perm_run cfg rs 8 t call envs (fun _ => id) PS_start s) with (run_alone 8 envs PS_start s).
  destruct (Z.land (pc_mask call) MAY_NOT_BLOCK =? 0) eqn:Em; cbn [negb].
  2: { eexists _, _. split; [|done]. erewrite alone_step by (cbn [perm_step]; rewrite Em; done). apply alone_done. }
  destruct (cf_sysNFSv4ACLsEnabled cfg) eqn:Ecfg; cbn [negb].
  2: { eexists _, _. split; [|done]. erewrite alone_step by (cbn [perm_step]; rewrite Em, Ecfg; done).
       apply generic_run. }
  erewrite alone_step by (cbn [perm_step]; rewrite Em, Ecfg; done).
  set (s1 := rcu_read_lock t s).
  assert (Hload : load_cache (cw_ptr s) s1 = Some (p ← cw_ptr s; cw_heap s !! p)).
  { destruct (cw_ptr s) as [p|]; [|done]. destruct (Hptr p eq_refl) as [c Hc]. cbn. by rewrite Hc. }
  destruct (fetch_run (fun i => envs (2 + i)%nat) (rcu_read_unlock t s1) Hrs (He 2%nat)) as (res & s2 & Ep & Er).
  assert (Hmiss : perm_step cfg rs t call (envs 1%nat) (PS_looked (cw_ptr s)) s1 =
      Some (PS_fetch, rcu_read_unlock t s1) ->
    exists rc s', run_alone 7 (fun i => envs (S i)) (PS_looked (cw_ptr s)) s1 = Some (rc, s') /\
      (res ← populate rs (pe_memory (envs 2%nat)) (pe_now (envs 2%nat)) (pe_fetch (envs 2%nat)).1
         (pe_fetch (envs 2%nat)).2;
       Some (match res with inl err => err | inr c => cache_answer call c end)) = Some rc).
  { intros Es. eexists _, _. erewrite alone_step by exact Es. split; [exact Er|]. cbn in Ep. by rewrite Ep. }
  destruct (p ← cw_ptr s; cw_heap s !! p) as [c|] eqn:Ec.
  - destruct (cw_ptr s) as [p|] eqn:Eptr; [|done]. cbn [mbind option_bind] in Ec.
    pose proof (lookup_status (pe_now (envs 1%nat)) (pc_inode call) cfg c) as Hst. unfold cache_answer.
    destruct (BeeGFSNFS4Acl_cacheLookup (pe_now (envs 1%nat)) (pc_inode call) cfg (Some c)) eqn:El.
    + apply Hmiss. cbn [perm_step]. rewrite Hload. cbn [mbind option_bind]. by rewrite El.
    + eexists _, _. rewrite Hst, Z.eqb_refl. split; [|done].
      erewrite alone_step by (cbn [perm_step]; rewrite Hload; cbn [mbind option_bind]; rewrite El; done).
      apply generic_run.
    + rewrite (proj2 (Z.eqb_neq _ _) Hst). destruct (eval_run 4 (fun i => envs (S (S i))) p c s1 Ec) as [s' E].
      exists (list_answer call (ch_acl c)), s'. split; [|done].
      erewrite alone_step by (cbn [perm_step]; rewrite Hload; cbn [mbind option_bind]; rewrite El; done).
      exact E.
  - apply Hmiss. cbn [perm_step]. rewrite Hload. done.
Qed.
End Alone.

(** ** Samples *)

(** A list with one entry for everyone. *)
Definition sample_ace (type mask : Z) : BeeGFSNFS4Ace := MkAce type 0 mask 9 (text "EVERYONE@").
Definition sample_acl (type mask : Z) : list byte :=
  be_split 4 1 ++ enc_aces [(sample_ace type mask, replicate 3 Byte.x00)].
Definition all_bits : Z := 2 ^ 32 - 1.

Lemma decode_accepts_xdr_witness :
  BeeGFSNFS4AclXdr_decode enough_memory (sample_acl 1 all_bits) 32 =
    Some (inr (MkAcl 1 [sample_ace 1 all_bits])).
Proof.
  apply (decode_accepts_xdr (sample_acl 1 all_bits) 32 (MkAcl 1 [sample_ace 1 all_bits])).
  - vm_compute. split; discriminate.
  - split; [vm_compute; discriminate|]. exists [(sample_ace 1 all_bits, replicate 3 Byte.x00)], [].
    split; [reflexivity|]. split; [vm_compute; discriminate|]. split; [|split; [vm_compute; reflexivity|]].
    + constructor; [|constructor]. vm_compute. repeat split; discriminate.
    + vm_compute. discriminate.
Defined.

(** Bytes behind the last entry and padding that is not zero are accepted. *)
Example trailing_bytes_accepted :
  BeeGFSNFS4AclXdr_decode enough_memory
    (be_split 4 1 ++ enc_aces [(sample_ace 1 all_bits, replicate 3 Byte.xff)] ++ replicate 5 Byte.xff) 37 =
    Some (inr (MkAcl 1 [sample_ace 1 all_bits])).
Proof. vm_compute. reflexivity. Qed.

Lemma decode_stays_inside_witness :
  BeeGFSNFS4AclXdr_decode (MkXdrMemory true true (fun _ => false)) (take 31 (sample_acl 0 1)) 31 <> None.
Proof.
  apply (decode_stays_inside (MkXdrMemory true true (fun _ => false)) (sample_acl 0 1) 31).
  vm_compute. discriminate.
Defined.

Definition sample_prepared : BeeGFSNFS4PreparedAcl :=
  MkPreparedAcl 2 [MkPreparedAce 0 0 1 PRINCIPAL_OWNER 0 0; MkPreparedAce 1 0 all_bits PRINCIPAL_EVERYONE 0 0].
Definition sample_inode : Inode := MkInode 1000 100 33188.
Definition sample_cred : Cred := MkCred 1000 100 100 [].

Lemma checkPermission_first_match_witness :
  BeeGFSNFS4Acl_checkPermission (Some sample_prepared) sample_inode sample_cred MAY_READ = - EACCES /\
  eval_spec (pl_aces sample_prepared) sample_inode sample_cred
    (BeeGFSNFS4Acl_vfsToAceReqmask sample_inode MAY_READ)
    (BeeGFSNFS4Acl_checkPermission (Some sample_prepared) sample_inode sample_cred MAY_READ).
Proof.
  split; [vm_compute; reflexivity|].
  apply (checkPermission_first_match sample_prepared sample_inode sample_cred MAY_READ). reflexivity.
Defined.

Definition no_keys : list byte -> option (list byte) := fun _ => None.
Definition sample_resolvers : Resolvers := (BeeGFSNFS4Acl_initResolvers no_keys resolvers0).1.
Definition sample_acl_config : AclConfig := MkAclConfig true 1000 1000.
Definition much_memory : PopulateMemory := MkPopulateMemory true true true enough_memory true true.
(** The server has this attribute; the clock stands still; new objects are at this address. *)
Definition fetch_env (attr : list byte) (addr : Z) (i : nat) : PermEnv :=
  MkPermEnv (MkTime 5 0) much_memory
    (zlen attr, attr ++ replicate (32768 - length attr) Byte.x00) addr.
(** A request to read; the mode bits allow it. *)
Definition sample_perm_call : PermCall := MkPermCall sample_inode sample_cred MAY_READ 0.
Definition empty_world : AclWorld := MkAclWorld None ∅ [] ∅.

Lemma acl_cache_invariant_witness :
  exists r, perm_step sample_acl_config sample_resolvers 1 sample_perm_call (fetch_env (sample_acl 1 1) 50 O)
    PS_fetch empty_world = Some r.
Proof.
  assert (Hf : fetch_ok (fetch_env (sample_acl 1 1) 50 O)) by (vm_compute; reflexivity).
  apply (acl_cache_invariant sample_acl_config sample_resolvers
    (MkAclSystem empty_world {[1 := (sample_perm_call, PS_fetch)]})).
  - apply initResolvers_ok.
  - eapply rtc_l; [apply (CS_enter sample_acl_config sample_resolvers acl_start 1 sample_perm_call); reflexivity|].
    eapply rtc_l.
    { eapply (CS_step sample_acl_config sample_resolvers _ 1 sample_perm_call PS_start _
        (fetch_env (sample_acl 1 1) 50 O)); [reflexivity|exact Hf|reflexivity|vm_compute; reflexivity]. }
    eapply rtc_l.
    { eapply (CS_step sample_acl_config sample_resolvers _ 1 sample_perm_call (PS_looked None) _
        (fetch_env (sample_acl 1 1) 50 O)); [reflexivity|exact Hf|reflexivity|vm_compute; reflexivity]. }
    match goal with |- rtc _ ?x ?y => replace x with y by (vm_compute; reflexivity) end. apply rtc_refl.
  - reflexivity.
  - exact Hf.
  - intros rc [=].
Defined.

Lemma permission_alone_witness :
  exists rc s', FhgfsOps_permission sample_acl_config sample_resolvers 1 sample_perm_call
      (fetch_env (sample_acl 1 all_bits) 50) (fun _ => id) empty_world = Some (rc, s') /\
    permission_spec sample_acl_config sample_resolvers sample_perm_call (fetch_env (sample_acl 1 all_bits) 50)
      None = Some rc.
Proof.
  apply (permission_alone sample_acl_config sample_resolvers 1 sample_perm_call
    (fetch_env (sample_acl 1 all_bits) 50) empty_world).
  - apply initResolvers_ok.
  - intros i. vm_compute. reflexivity.
  - intros p [=].
Defined.

(** ** Races and truncated principals *)

Definition perm_check (attr : list byte) (addr : Z) (interfere : nat -> AclWorld -> AclWorld) (s : AclWorld) :
    option (Z * AclWorld) :=
  FhgfsOps_permission sample_acl_config sample_resolvers 1 sample_perm_call (fetch_env attr addr) interfere s.

(** The list that denies is fetched and denies the access. *)
Example deny_list_denies :
  fst <$> perm_check (sample_acl 1 all_bits) 50 (fun _ => id) empty_world = Some (- EACCES).
Proof. by vm_compute. Qed.

(** The list is changed between the fetch and the publication of the old list: the invalidation finds
    nothing to remove, and later checks are answered from the old list. *)
Example old_list_published_after_change :
  let change (i : nat) := match i with 2%nat => BeeGFSNFS4Acl_invalidateCache | _ => id end in
  (rs ← perm_check (sample_acl 0 all_bits) 50 change empty_world;
   fst <$> perm_check (sample_acl 1 all_bits) 51 (fun _ => id) rs.2) = Some 0.
Proof. by vm_compute. Qed.

(** The list is changed between the publication and the second look at the pointer: the check falls
    back to the mode bits, although the old list and the new one deny the access. *)
Example change_bypasses_lists :
  let change (i : nat) := match i with 3%nat => BeeGFSNFS4Acl_invalidateCache | _ => id end in
  fst <$> perm_check (sample_acl 1 all_bits) 50 change empty_world = Some 0.
Proof. by vm_compute. Qed.

(** A numeric principal is reduced to 32 bits; a longer one to its first 31 characters. *)
Example numeric_principal_wraps :
  resolve_trivial (text "4294967296") 10 = 0 /\
  resolve_trivial (text "0000000000000000000000000000001000") 34 = 1.
Proof. by vm_compute. Qed.

(** The length check of the key description never fails, so that principals that differ behind the
    252nd byte are taken for the same. *)
Lemma sid_check_never_fails prefix who len : (sid_desc prefix who len).2 < 256.
Proof. unfold sid_desc. cbn. unfold zlen. rewrite length_take. lia. Qed.

Example long_sid_is_truncated :
  let sid (c : string) := text "S-1-" ++ replicate 248 Byte.x31 ++ text c in
  let keys desc := if bool_decide (desc = text "os:" ++ sid "") then Some (le_split 4 1000) else None in
  BeeGFSNFS4Acl_resolveUserSid keys (sid "2") 253 = 1000 /\ BeeGFSNFS4Acl_resolveUserSid keys (sid "3") 253 = 1000.
Proof. by vm_compute. Qed.
