(* ===== verification/FileHandles.v ===== *)
(** * File handles of inodes

    Models the file handles, the stripe pattern and the range lock PIDs of
    [filesystem/FhgfsInode.c] and [.h], and the part of [FhgfsOps_atomicOpen]
    ([filesystem/FhgfsOpsInode.c]) that takes a reference for a file that a lookup has opened,
    in [client_module/source].

    A handle is shared by all users that open the file in the same way: the first one opens the
    file at the metadata server, the last one closes it.  The world around an inode holds the
    stripe pattern objects that are alive (address and number of targets) and the handle IDs
    that are open at the server.  An operation is one critical section of the mutex of the
    handles.  [None] is an access to an object that is gone.  The results of remote calls are
    parameters; file events and log output are left out.  A close that fails is repeated in the
    background, so that the ID counts as closed. *)

From S2P Require Import Prelude StorageErrors BitStore Acks.

Definition OPENFILE_ACCESS_READ : Z := 1.
Definition OPENFILE_ACCESS_WRITE : Z := 2.
Definition OPENFILE_ACCESS_READWRITE : Z := 4.
Definition OPENFILE_ACCESS_TRUNC : Z := 16.
Definition OPENFILE_ACCESS_MASK_RW : Z :=
  Z.lor (Z.lor OPENFILE_ACCESS_READ OPENFILE_ACCESS_WRITE) OPENFILE_ACCESS_READWRITE.

Inductive FileHandleType := FileHandleType_READ | FileHandleType_RW | FileHandleType_WRITE.
#[export] Instance FileHandleType_eq_dec : EqDecision FileHandleType.
Proof. solve_decision. Defined.

(** The pointer to the ID of a handle; it keeps its value when the ID is freed. *)
Inductive IDPointer := ID_null | ID_valid (id : list byte) | ID_freed.

Record FhgfsInodeFileHandle := MkFileHandle {
  fh_fileHandleID : IDPointer;
  fh_refCount : Z;
  fh_needsAppendLockCleanup : bool;
  fh_maxUsedTargetIndex : Z;
  fh_firstWriteDone : BitStore
}.

Record FhgfsInode := MkFhgfsInode {
  fi_read : FhgfsInodeFileHandle;
  fi_rw : FhgfsInodeFileHandle;
  fi_write : FhgfsInodeFileHandle;
  fi_pattern : option Z;
  fi_flags : Z;
  fi_rangeLockPIDs : gset Z;
  fi_numRangeLockPIDs : Z
}.

Definition fi_handle (this : FhgfsInode) (t : FileHandleType) : FhgfsInodeFileHandle :=
  match t with
  | FileHandleType_READ => fi_read this
  | FileHandleType_RW => fi_rw this
  | FileHandleType_WRITE => fi_write this
  end.
Definition set_handle (t : FileHandleType) (h : FhgfsInodeFileHandle) (this : FhgfsInode) : FhgfsInode :=
  let sel t' old := if decide (t = t') then h else old in
  MkFhgfsInode (sel FileHandleType_READ (fi_read this)) (sel FileHandleType_RW (fi_rw this))
    (sel FileHandleType_WRITE (fi_write this)) (fi_pattern this) (fi_flags this) (fi_rangeLockPIDs this)
    (fi_numRangeLockPIDs this).
Definition set_pattern (p : option Z) (this : FhgfsInode) : FhgfsInode :=
  MkFhgfsInode (fi_read this) (fi_rw this) (fi_write this) p (fi_flags this) (fi_rangeLockPIDs this)
    (fi_numRangeLockPIDs this).
Definition set_flags (f : Z) (this : FhgfsInode) : FhgfsInode :=
  MkFhgfsInode (fi_read this) (fi_rw this) (fi_write this) (fi_pattern this) f (fi_rangeLockPIDs this)
    (fi_numRangeLockPIDs this).
Definition set_rangeLockPIDs (l : gset Z) (n : Z) (this : FhgfsInode) : FhgfsInode :=
  MkFhgfsInode (fi_read this) (fi_rw this) (fi_write this) (fi_pattern this) (fi_flags this) l n.
Definition set_refCount (n : Z) (h : FhgfsInodeFileHandle) : FhgfsInodeFileHandle :=
  MkFileHandle (fh_fileHandleID h) n (fh_needsAppendLockCleanup h) (fh_maxUsedTargetIndex h)
    (fh_firstWriteDone h).

(** ** Flags *)

Definition BEEGFS_INODE_BIT_METADATA_VALID : Z := 2.
Definition BEEGFS_INODE_BIT_PATTERN_STALE : Z := 3.

Definition FhgfsInode_isValid (this : FhgfsInode) : bool :=
  test_bit BEEGFS_INODE_BIT_METADATA_VALID (fi_flags this).
Definition FhgfsInode_invalidate (this : FhgfsInode) : FhgfsInode :=
  set_flags (clear_bit BEEGFS_INODE_BIT_METADATA_VALID (fi_flags this)) this.
Definition FhgfsInode_setValid (this : FhgfsInode) : FhgfsInode :=
  set_flags (set_bit BEEGFS_INODE_BIT_METADATA_VALID (fi_flags this)) this.
Definition FhgfsInode_setStripePatternStale (this : FhgfsInode) : FhgfsInode :=
  set_flags (set_bit BEEGFS_INODE_BIT_PATTERN_STALE (fi_flags this)) this.
Definition FhgfsInode_clearStripePatternStaleFlag (this : FhgfsInode) : FhgfsInode :=
  set_flags (clear_bit BEEGFS_INODE_BIT_PATTERN_STALE (fi_flags this)) this.
Definition FhgfsInode_isStripePatternStale (this : FhgfsInode) : bool :=
  test_bit BEEGFS_INODE_BIT_PATTERN_STALE (fi_flags this).

(** ** Types of handles *)

Definition __FhgfsInode_openFlagsToHandleType (openFlags : Z) : FileHandleType :=
  let rw := Z.land openFlags OPENFILE_ACCESS_MASK_RW in
  if rw =? OPENFILE_ACCESS_WRITE then FileHandleType_WRITE
  else if rw =? OPENFILE_ACCESS_READWRITE then FileHandleType_RW
  else FileHandleType_READ.
Definition FhgfsInode_handleTypeToOpenFlags (handleType : FileHandleType) : Z :=
  match handleType with
  | FileHandleType_WRITE => OPENFILE_ACCESS_WRITE
  | FileHandleType_RW => OPENFILE_ACCESS_READWRITE
  | FileHandleType_READ => OPENFILE_ACCESS_READ
  end.

(** A new inode; [lowerBits]: the previous content of the bit stores. *)
Definition new_handle (lowerBits : Z) : FhgfsInodeFileHandle :=
  MkFileHandle ID_null 0 false (-1) (BitStore_init lowerBits false).
Definition FhgfsInode_allocInit (lowerBits : Z) (pids : gset Z) : FhgfsInode :=
  MkFhgfsInode (new_handle lowerBits) (new_handle lowerBits) (new_handle lowerBits) None 0 pids 0.

(** ** The world of an inode *)

Record HandleWorld := MkHandleWorld {
  hw_inode : FhgfsInode;
  hw_patterns : gmap Z Z;
  hw_open : gset (list byte)
}.
Definition on_inode (f : FhgfsInode -> FhgfsInode) (s : HandleWorld) : HandleWorld :=
  MkHandleWorld (f (hw_inode s)) (hw_patterns s) (hw_open s).

(** A file that was opened by a lookup: its handle ID and its pattern. *)
Record LookupOpen := MkLookupOpen { lo_fileHandleID : list byte; lo_stripePattern : Z }.

(** Results of the remote calls: truncation, file version and open; a successful open brings an ID
    and, if the caller has no pattern, a new pattern object (address, number of targets). *)
Record RefEnv := MkRefEnv {
  re_trunc : Z;
  re_version : Z;
  re_open : Z + (list byte * (Z * Z));
  re_garbage : nat -> Z
}.

Definition __FhgfsInode_referenceTrunc (e : RefEnv) (openFlags : Z) : Z :=
  if negb (Z.land openFlags OPENFILE_ACCESS_TRUNC =? 0) then re_trunc e else FhgfsOpsErr_SUCCESS.

(** A further reference of an open handle. *)
Definition reference_open (e : RefEnv) (openFlags : Z) (outVersion : bool) (t : FileHandleType)
    (s : HandleWorld) : Z * HandleWorld :=
  let retVal := __FhgfsInode_referenceTrunc e openFlags in
  let retVal := if (retVal =? FhgfsOpsErr_SUCCESS) && outVersion then re_version e else retVal in
  if negb (retVal =? FhgfsOpsErr_SUCCESS) then (retVal, s)
  else
    let h := fi_handle (hw_inode s) t in
    (retVal, on_inode (set_handle t (set_refCount (u32 (fh_refCount h + 1)) h)) s).

(** [FhgfsOpsRemoting_openfile]: [pattern] is the pattern that the caller has. *)
Definition remote_open (e : RefEnv) (pattern : option Z) (s : HandleWorld) :
    Z + (list byte * option Z * HandleWorld) :=
  match re_open e with
  | inl err => inl err
  | inr (id, (addr, count)) =>
      let open := {[id]} ∪ hw_open s in
      inr (match pattern with
           | Some p => (id, Some p, MkHandleWorld (hw_inode s) (hw_patterns s) open)
           | None => (id, Some addr, MkHandleWorld (hw_inode s) (<[addr := count]> (hw_patterns s)) open)
           end)
  end.

(** A stale pattern is freed before the new one is stored; freeing twice is an error. *)
Definition store_pattern (p : option Z) (s : HandleWorld) : option HandleWorld :=
  let inode := hw_inode s in
  if FhgfsInode_isStripePatternStale inode then
    patterns ← match fi_pattern inode with
               | Some old => match hw_patterns s !! old with
                             | Some _ => Some (delete old (hw_patterns s))
                             | None => None
                             end
               | None => Some (hw_patterns s)
               end;
    Some (MkHandleWorld (FhgfsInode_clearStripePatternStaleFlag (set_pattern p inode)) patterns (hw_open s))
  else Some (MkHandleWorld (set_pattern p inode) (hw_patterns s) (hw_open s)).

Definition FhgfsInode_getStripeCount (s : HandleWorld) : option Z :=
  p ← fi_pattern (hw_inode s); hw_patterns s !! p.

(** The first reference, with the ID and the pattern of the opened file. *)
Definition install_handle (garbage : nat -> Z) (t : FileHandleType) (id : list byte) (pattern : option Z)
    (s : HandleWorld) : option HandleWorld :=
  s ← store_pattern pattern s;
  stripeCount ← FhgfsInode_getStripeCount s;
  let h := fi_handle (hw_inode s) t in
  bits ← BitStore_clearBits (BitStore_setSize garbage (fh_firstWriteDone h) stripeCount);
  Some (on_inode (set_handle t (MkFileHandle (ID_valid id) (u32 (fh_refCount h + 1))
          (fh_needsAppendLockCleanup h) (fh_maxUsedTargetIndex h) bits)) s).

(** The result, the type of the handle and the world. *)
Definition FhgfsInode_referenceHandle (e : RefEnv) (openFlags : Z) (allowRWHandle : bool)
    (lookupInfo : option LookupOpen) (outVersion : bool) (s : HandleWorld) :
    option (Z * FileHandleType * HandleWorld) :=
  let t := __FhgfsInode_openFlagsToHandleType openFlags in
  if negb (fh_refCount (fi_handle (hw_inode s) t) =? 0) then
    let '(retVal, s) := reference_open e openFlags outVersion t s in Some (retVal, t, s)
  else if allowRWHandle && negb (fh_refCount (fi_rw (hw_inode s)) =? 0) then
    let '(retVal, s) := reference_open e openFlags outVersion FileHandleType_RW s in
    Some (retVal, if retVal =? FhgfsOpsErr_SUCCESS then FileHandleType_RW else t, s)
  else
    match lookupInfo with
    | Some info =>
        s ← install_handle (re_garbage e) t (lo_fileHandleID info) (Some (lo_stripePattern info)) s;
        Some (FhgfsOpsErr_SUCCESS, t, s)
    | None =>
        let pattern := if FhgfsInode_isStripePatternStale (hw_inode s) then None
                       else fi_pattern (hw_inode s) in
        match remote_open e pattern s with
        | inl err => Some (err, t, s)
        | inr (id, pattern, s) =>
            s ← install_handle (re_garbage e) t id pattern s;
            Some (FhgfsOpsErr_SUCCESS, t, s)
        end
    end.

(** [close]: the result of the remote close.  A count of zero is only reported. *)
Definition FhgfsInode_releaseHandle (garbage : nat -> Z) (close : Z) (t : FileHandleType)
    (s : HandleWorld) : option (Z * HandleWorld) :=
  let h := fi_handle (hw_inode s) t in
  if fh_refCount h =? 0 then Some (FhgfsOpsErr_SUCCESS, s)
  else
    let n := u32 (fh_refCount h - 1) in
    if negb (n =? 0) then Some (FhgfsOpsErr_SUCCESS, on_inode (set_handle t (set_refCount n h)) s)
    else
      match fh_fileHandleID h with
      | ID_valid id =>
          let h := MkFileHandle ID_freed n false (-1)
                     (BitStore_setSize garbage (fh_firstWriteDone h) 0) in
          Some (close, MkHandleWorld (set_handle t h (hw_inode s)) (hw_patterns s) (hw_open s ∖ {[id]}))
      | _ => None
      end.

Definition FhgfsInode_hasWriteHandle (this : FhgfsInode) : bool :=
  negb (fh_refCount (fi_write this) =? 0) || negb (fh_refCount (fi_rw this) =? 0).
Definition is_open (this : FhgfsInode) : bool :=
  negb (fh_refCount (fi_read this) =? 0) || negb (fh_refCount (fi_rw this) =? 0) ||
  negb (fh_refCount (fi_write this) =? 0).
Definition FhgfsInode_getIsFileOpen (setPatternToStale : bool) (this : FhgfsInode) : bool * FhgfsInode :=
  let retVal := is_open this in
  (retVal, if setPatternToStale && negb retVal then FhgfsInode_setStripePatternStale this else this).
Definition FhgfsInode_getIsFileOpenByMultipleReaders (this : FhgfsInode) : bool :=
  1 <? u32 (fh_refCount (fi_read this) + fh_refCount (fi_rw this)).

(** A file that a lookup has opened gets its reference: [lookup] is the new ID, the new pattern and its
    number of targets.  After an error the file is closed with an entry info that is not there any more:
    its pointer was set to NULL when the inode was instantiated. *)
Definition atomicOpen_reference (e : RefEnv) (openFlags : Z) (lookup : list byte * (Z * Z)) (s : HandleWorld) :
    option (Z * FileHandleType * HandleWorld) :=
  let '(id, (addr, count)) := lookup in
  let s := MkHandleWorld (hw_inode s) (<[addr := count]> (hw_patterns s)) ({[id]} ∪ hw_open s) in
  '(retVal, t, s) ← FhgfsInode_referenceHandle e openFlags false (Some (MkLookupOpen id addr)) false s;
  if retVal =? FhgfsOpsErr_SUCCESS then Some (retVal, t, s) else None.

(** ** Range locks *)

Definition FhgfsInode_removeRangeLockPID (pid : Z) (this : FhgfsInode) : bool * FhgfsInode :=
  if decide (pid ∈ fi_rangeLockPIDs this)
  then (true, set_rangeLockPIDs (fi_rangeLockPIDs this ∖ {[pid]}) (s32 (fi_numRangeLockPIDs this - 1)) this)
  else (false, this).
Definition FhgfsInode_addRangeLockPID (pid : Z) (this : FhgfsInode) : FhgfsInode :=
  if decide (pid ∈ fi_rangeLockPIDs this) then this
  else set_rangeLockPIDs ({[pid]} ∪ fi_rangeLockPIDs this) (s32 (fi_numRangeLockPIDs this + 1)) this.
Definition FhgfsInode_getNumRangeLockPIDs (this : FhgfsInode) : Z := fi_numRangeLockPIDs this.

(** ** Users of the handles

    [hy_refs]: how many references of each type users hold. *)

Record HandleSystem := MkHandleSystem { hy_world : HandleWorld; hy_refs : FileHandleType -> Z }.
Definition add_ref (t : FileHandleType) (d : Z) (r : FileHandleType -> Z) : FileHandleType -> Z :=
  fun t' => if decide (t' = t) then r t' + d else r t'.

(** The server hands out new IDs, and new objects are at new addresses. *)
Definition opens_new (s : HandleWorld) (x : list byte * (Z * Z)) : Prop :=
  x.1 ∉ hw_open s /\ hw_patterns s !! x.2.1 = None /\ 0 <= x.2.2 < 2 ^ 16.

(** [lookups]: files may also be opened by lookups. *)
Inductive handle_step (lookups : bool) (v : HandleSystem) : HandleSystem -> Prop :=
| HS_reference e flags allowRW version ret t s' :
    match re_open e with inl err => err <> FhgfsOpsErr_SUCCESS | inr x => opens_new (hy_world v) x end ->
    (forall t, hy_refs v t < 2 ^ 32 - 1) ->
    FhgfsInode_referenceHandle e flags allowRW None version (hy_world v) = Some (ret, t, s') ->
    handle_step lookups v (MkHandleSystem s'
      (if ret =? FhgfsOpsErr_SUCCESS then add_ref t 1 (hy_refs v) else hy_refs v))
| HS_atomicOpen e flags lookup ret t s' :
    lookups = true -> opens_new (hy_world v) lookup -> (forall t, hy_refs v t < 2 ^ 32 - 1) ->
    atomicOpen_reference e flags lookup (hy_world v) = Some (ret, t, s') ->
    handle_step lookups v (MkHandleSystem s' (add_ref t 1 (hy_refs v)))
| HS_release garbage close ret t s' :
    0 < hy_refs v t -> FhgfsInode_releaseHandle garbage close t (hy_world v) = Some (ret, s') ->
    handle_step lookups v (MkHandleSystem s' (add_ref t (-1) (hy_refs v)))
| HS_isOpen stale :
    handle_step lookups v (MkHandleSystem
      (on_inode (fun i => (FhgfsInode_getIsFileOpen stale i).2) (hy_world v)) (hy_refs v)).

Definition handle_start (lowerBits : Z) : HandleSystem :=
  MkHandleSystem (MkHandleWorld (FhgfsInode_allocInit lowerBits ∅) ∅ ∅) (fun _ => 0).
