(* ===== verification/FileHandlesFacts.v ===== *)
(** * Facts about file handles

    Reference counts, remote handles and stripe patterns of an inode over all sequences of opens,
    closes and changes of the pattern. *)

From S2P Require Import Prelude StorageErrors BitStore BitStoreFacts Acks FileHandles.

Lemma fi_handle_set t h i t' :
  fi_handle (set_handle t h i) t' = if decide (t = t') then h else fi_handle i t'.
Proof. by destruct t, t'. Qed.
Lemma fi_pattern_set t h i : fi_pattern (set_handle t h i) = fi_pattern i.
Proof. done. Qed.

Lemma stale_set i : FhgfsInode_isStripePatternStale (FhgfsInode_setStripePatternStale i) = true.
Proof.
  unfold FhgfsInode_isStripePatternStale, FhgfsInode_setStripePatternStale, test_bit. cbn [fi_flags set_flags].
  pose proof (testbit_op true BEEGFS_INODE_BIT_PATTERN_STALE BEEGFS_INODE_BIT_PATTERN_STALE (fi_flags i)) as E.
  cbn in E. apply E; unfold BEEGFS_INODE_BIT_PATTERN_STALE; lia.
Qed.
Lemma stale_clear i : FhgfsInode_isStripePatternStale (FhgfsInode_clearStripePatternStaleFlag i) = false.
Proof.
  unfold FhgfsInode_isStripePatternStale, FhgfsInode_clearStripePatternStaleFlag, test_bit. cbn [fi_flags set_flags].
  pose proof (testbit_op false BEEGFS_INODE_BIT_PATTERN_STALE BEEGFS_INODE_BIT_PATTERN_STALE (fi_flags i)) as E.
  cbn in E. apply E; unfold BEEGFS_INODE_BIT_PATTERN_STALE; lia.
Qed.

(** ** The invariant *)

(** The ID that a handle in use has. *)
Definition used_id (r : FileHandleType -> Z) (s : HandleWorld) (t : FileHandleType) (id : list byte) : Prop :=
  0 < r t /\ fh_fileHandleID (fi_handle (hw_inode s) t) = ID_valid id.

Record handles_ok (r : FileHandleType -> Z) (s : HandleWorld) : Prop := MkHandlesOk {
  ho_count t : fh_refCount (fi_handle (hw_inode s) t) = r t /\ 0 <= r t < 2 ^ 32;
  ho_id t : 0 < r t -> exists id, used_id r s t id /\ id ∈ hw_open s;
  ho_distinct t1 t2 id : used_id r s t1 id -> used_id r s t2 id -> t1 = t2;
  ho_pattern p : fi_pattern (hw_inode s) = Some p -> is_Some (hw_patterns s !! p);
  ho_has_pattern t : 0 < r t -> fi_pattern (hw_inode s) <> None;
  ho_stale t : FhgfsInode_isStripePatternStale (hw_inode s) = true -> r t = 0;
  ho_bits t : bitstore_ok (fh_firstWriteDone (fi_handle (hw_inode s) t));
  ho_targets p n : hw_patterns s !! p = Some n -> 0 <= n < 2 ^ 16
}.

(** What is open at the server is in use, and the pattern is the only one. *)
Definition handles_exact (r : FileHandleType -> Z) (s : HandleWorld) : Prop :=
  (forall id, id ∈ hw_open s -> exists t, used_id r s t id) /\
  (forall p, is_Some (hw_patterns s !! p) -> fi_pattern (hw_inode s) = Some p).

Lemma bits_ready garbage b n : bitstore_ok b -> 0 <= n < 2 ^ 16 ->
  exists b', BitStore_clearBits (BitStore_setSize garbage b n) = Some b' /\ bitstore_ok b'.
Proof.
  intros (w & l & -> & Hw & Hl) Hn. destruct (setSize_pack garbage w l n Hl ltac:(lia)) as [-> Hl'].
  rewrite (clearBits_pack w _ Hl'). eexists. split; [done|]. exists 0, (replicate (length (resized garbage l n)) 0).
  split; [done|]. split; [unfold in_u; lia|]. apply zeroes_ok. destruct Hl' as [_ Hl']. unfold zlen in Hl'. lia.
Qed.
Lemma bits_resized garbage b n : bitstore_ok b -> 0 <= n < 2 ^ 16 -> bitstore_ok (BitStore_setSize garbage b n).
Proof.
  intros (w & l & -> & Hw & Hl) Hn. destruct (setSize_pack garbage w l n Hl ltac:(lia)) as [-> Hl'].
  by exists w, (resized garbage l n).
Qed.

(** A reference more or less of a handle that keeps its ID. *)
Lemma handles_ok_count r s t d :
  handles_ok r s -> 0 < r t -> 0 < r t + d < 2 ^ 32 ->
  let h := fi_handle (hw_inode s) t in
  handles_ok (add_ref t d r) (on_inode (set_handle t (set_refCount (u32 (fh_refCount h + d)) h)) s) /\
  (handles_exact r s ->
   handles_exact (add_ref t d r) (on_inode (set_handle t (set_refCount (u32 (fh_refCount h + d)) h)) s)).
Proof.
  intros Hok Hr Hd h. set (s' := on_inode _ s). destruct (ho_count r s Hok t) as [Hc _]. fold h in Hc.
  assert (Hpos : forall t', 0 < add_ref t d r t' <-> 0 < r t').
  { intros t'. unfold add_ref. destruct (decide (t' = t)) as [->|]; lia. }
  assert (Hh : forall t', fh_fileHandleID (fi_handle (hw_inode s') t') = fh_fileHandleID (fi_handle (hw_inode s) t') /\
    fh_firstWriteDone (fi_handle (hw_inode s') t') = fh_firstWriteDone (fi_handle (hw_inode s) t')).
  { intros t'. unfold s'. cbn [on_inode hw_inode]. rewrite fi_handle_set.
    destruct (decide (t = t')) as [<-|]; done. }
  assert (Hu : forall t' id, used_id (add_ref t d r) s' t' id <-> used_id r s t' id).
  { intros t' id. unfold used_id. by rewrite Hpos, (proj1 (Hh t')). }
  split.
  - split; cbn [on_inode hw_patterns hw_open s'].
    + intros t'. unfold s'. cbn [on_inode hw_inode]. rewrite fi_handle_set. unfold add_ref.
      destruct (decide (t = t')) as [<-|Hn].
      * rewrite decide_True by done. cbn [fh_refCount set_refCount]. rewrite Hc, u32_small by lia. lia.
      * rewrite decide_False by done. exact (ho_count r s Hok t').
    + intros t' H%Hpos. destruct (ho_id r s Hok t' H) as (id & Hid & Hin). exists id. by rewrite Hu.
    + intros t1 t2 id H1%Hu H2%Hu. exact (ho_distinct r s Hok t1 t2 id H1 H2).
    + exact (ho_pattern r s Hok).
    + intros t' H%Hpos. exact (ho_has_pattern r s Hok t' H).
    + intros t' Hs. pose proof (ho_stale r s Hok t Hs). lia.
    + intros t'. rewrite (proj2 (Hh t')). exact (ho_bits r s Hok t').
    + exact (ho_targets r s Hok).
  - intros [H1 H2]. split; [|exact H2]. intros id Hin. destruct (H1 id Hin) as [t' Ht']. exists t'. by rewrite Hu.
Qed.

Lemma reference_open_ok e flags version t r s :
  handles_ok r s -> 0 < r t -> r t < 2 ^ 32 - 1 ->
  let '(ret, s') := reference_open e flags version t s in
  handles_ok (if ret =? FhgfsOpsErr_SUCCESS then add_ref t 1 r else r) s' /\
  (handles_exact r s -> handles_exact (if ret =? FhgfsOpsErr_SUCCESS then add_ref t 1 r else r) s').
Proof.
  intros Hok Hr Hb. unfold reference_open. set (ret := if _ && _ then _ else _).
  destruct (ret =? FhgfsOpsErr_SUCCESS) eqn:E; cbn [negb]; rewrite E; [|done].
  apply (handles_ok_count r s t 1); try done; lia.
Qed.

Lemma store_pattern_ok r s p n :
  handles_ok r s -> hw_patterns s !! p = Some n ->
  (FhgfsInode_isStripePatternStale (hw_inode s) = true -> fi_pattern (hw_inode s) <> Some p) ->
  exists s', store_pattern (Some p) s = Some s' /\
    (forall t, fi_handle (hw_inode s') t = fi_handle (hw_inode s) t) /\
    fi_pattern (hw_inode s') = Some p /\ FhgfsInode_isStripePatternStale (hw_inode s') = false /\
    hw_open s' = hw_open s /\ hw_patterns s' !! p = Some n /\
    (forall q, is_Some (hw_patterns s' !! q) -> is_Some (hw_patterns s !! q) /\
       (FhgfsInode_isStripePatternStale (hw_inode s) = true -> fi_pattern (hw_inode s) <> Some q)) /\
    hw_patterns s' ⊆ hw_patterns s.
Proof.
  intros Hok Hp Hst. unfold store_pattern.
  destruct (FhgfsInode_isStripePatternStale (hw_inode s)) eqn:Es.
  - destruct (fi_pattern (hw_inode s)) as [old|] eqn:Eo.
    + destruct (ho_pattern r s Hok old Eo) as [m Hm]. rewrite Hm. cbn [mbind option_bind].
      eexists. split; [done|]. cbn [hw_inode hw_open hw_patterns]. split_and!; try (intros []; done); try done.
      * apply stale_clear.
      * rewrite lookup_delete_ne; [done|]. intros ->. by destruct (Hst eq_refl).
      * intros q [x [Hn Hq]%lookup_delete_Some]. split; [by eexists|]. congruence.
      * apply delete_subseteq.
    + cbn [mbind option_bind]. eexists. split; [done|]. cbn [hw_inode hw_open hw_patterns]. split_and!; try (intros []; done); try done.
      * apply stale_clear.
  - eexists. split; [done|]. cbn [hw_inode hw_open hw_patterns]. split_and!; try (intros []; done); done.
Qed.

(** The first reference of a handle. *)
Lemma install_ok garbage t id p n r s :
  handles_ok r s -> r t = 0 -> hw_patterns s !! p = Some n -> id ∈ hw_open s ->
  (forall t', ~ used_id r s t' id) ->
  (FhgfsInode_isStripePatternStale (hw_inode s) = true -> fi_pattern (hw_inode s) <> Some p) ->
  exists s', install_handle garbage t id (Some p) s = Some s' /\ handles_ok (add_ref t 1 r) s' /\
    ((forall id', id' ∈ hw_open s -> id' = id \/ exists t', used_id r s t' id') ->
     (forall q, is_Some (hw_patterns s !! q) -> q = p \/
        FhgfsInode_isStripePatternStale (hw_inode s) = true /\ fi_pattern (hw_inode s) = Some q) ->
     handles_exact (add_ref t 1 r) s').
Proof.
  intros Hok Hr Hp Hopen Hfresh Hst.
  destruct (store_pattern_ok r s p n Hok Hp Hst) as (s1 & E1 & Hh & Hpat & Hstale & Ho & Hp1 & Hsub & Hincl).
  unfold install_handle. rewrite E1. cbn [mbind option_bind]. unfold FhgfsInode_getStripeCount.
  rewrite Hpat. cbn [mbind option_bind]. rewrite Hp1. cbn [mbind option_bind]. rewrite Hh.
  destruct (bits_ready garbage _ n (ho_bits r s Hok t) (ho_targets r s Hok p n Hp)) as (b & -> & Hb).
  cbn [mbind option_bind]. eexists. split; [done|]. set (s2 := on_inode _ s1).
  destruct (ho_count r s Hok t) as [Hc _].
  assert (Hh2 : forall t', fi_handle (hw_inode s2) t' = if decide (t = t') then
      MkFileHandle (ID_valid id) (u32 (fh_refCount (fi_handle (hw_inode s) t) + 1))
        (fh_needsAppendLockCleanup (fi_handle (hw_inode s) t)) (fh_maxUsedTargetIndex (fi_handle (hw_inode s) t)) b
      else fi_handle (hw_inode s) t').
  { intros t'. unfold s2. cbn [on_inode hw_inode]. rewrite fi_handle_set. destruct (decide (t = t')); [done|]. apply Hh. }
  assert (Hu : forall t' i, used_id (add_ref t 1 r) s2 t' i <-> (t' = t /\ i = id) \/ (t' <> t /\ used_id r s t' i)).
  { intros t' i. unfold used_id, add_ref. rewrite Hh2. destruct (decide (t' = t)) as [->|Hn].
    - rewrite decide_True by done. cbn [fh_fileHandleID]. rewrite Hr. split; [intros [_ [= ->]]; auto|].
      intros [[_ ->]|[? _]]; [|done]. split; [lia|done].
    - rewrite decide_False by done. naive_solver. }
  assert (Hpos : forall t', 0 < add_ref t 1 r t' -> t' = t \/ (t' <> t /\ 0 < r t')).
  { intros t'. unfold add_ref. destruct (decide (t' = t)); auto. }
  split.
  - split; change (hw_open s2) with (hw_open s1); change (hw_patterns s2) with (hw_patterns s1); rewrite ?Ho.
    + intros t'. rewrite Hh2. unfold add_ref. destruct (decide (t = t')) as [<-|Hn].
      * rewrite decide_True by done. cbn [fh_refCount]. rewrite Hc, Hr, u32_small by lia. lia.
      * rewrite decide_False by done. exact (ho_count r s Hok t').
    + intros t' [->|[Hn H]]%Hpos; [exists id; rewrite Hu; auto|].
      destruct (ho_id r s Hok t' H) as (i & Hi & Hin). exists i. rewrite Hu. auto.
    + intros t1 t2 i [[-> ->]|[Hn1 H1]]%Hu [[-> H2]|[Hn2 H2]]%Hu; [done| |by subst; destruct (Hfresh t1)|].
      * by destruct (Hfresh t2).
      * exact (ho_distinct r s Hok t1 t2 i H1 H2).
    + intros q. change (fi_pattern (hw_inode s2)) with (fi_pattern (hw_inode s1)). rewrite Hpat. intros [= <-].
      by eexists.
    + intros t' _. change (fi_pattern (hw_inode s2)) with (fi_pattern (hw_inode s1)). by rewrite Hpat.
    + intros t' H. change (FhgfsInode_isStripePatternStale (hw_inode s2)) with
        (FhgfsInode_isStripePatternStale (hw_inode s1)) in H. congruence.
    + intros t'. rewrite Hh2. destruct (decide (t = t')); [done|]. exact (ho_bits r s Hok t').
    + intros q m Hq. apply (ho_targets r s Hok q m). by apply (lookup_weaken (hw_patterns s1)).
  - intros Hopen' Hpat'. split; change (hw_open s2) with (hw_open s1); change (hw_patterns s2) with (hw_patterns s1).
    + rewrite Ho. intros i Hi. destruct (Hopen' i Hi) as [->|[t' Ht']]; [exists t; rewrite Hu; auto|].
      exists t'. rewrite Hu. right. split; [|done]. intros ->. destruct Ht' as [H _]. lia.
    + intros q Hq. change (fi_pattern (hw_inode s2)) with (fi_pattern (hw_inode s1)). rewrite Hpat.
      destruct (Hsub q Hq) as [Hq' Hns]. destruct (Hpat' q Hq') as [->|[H1 H2]]; [done|]. by destruct (Hns H1).
Qed.

(** New IDs and new objects leave what is in use alone. *)
Lemma handles_ok_more r s open patterns :
  handles_ok r s -> hw_open s ⊆ open -> hw_patterns s ⊆ patterns ->
  (forall p n, patterns !! p = Some n -> 0 <= n < 2 ^ 16) ->
  handles_ok r (MkHandleWorld (hw_inode s) patterns open).
Proof.
  intros Hok Ho Hp Hn. split; cbn [hw_inode hw_patterns hw_open]; try apply Hok; try done.
  - intros t Ht. destruct (ho_id r s Hok t Ht) as (id & Hid & Hin). exists id. split; [exact Hid|set_solver].
  - intros p Hpat. destruct (ho_pattern r s Hok p Hpat) as [n E]. exists n. by eapply lookup_weaken.
Qed.

Lemma targets_insert r s addr count : handles_ok r s -> 0 <= count < 2 ^ 16 ->
  forall p n, <[addr := count]> (hw_patterns s) !! p = Some n -> 0 <= n < 2 ^ 16.
Proof.
  intros Hok Hc p n [[<- <-]|[Hn E]]%lookup_insert_Some; [done|]. exact (ho_targets r s Hok p n E).
Qed.

Lemma fresh_unused r s id : handles_ok r s -> id ∉ hw_open s -> forall t, ~ used_id r s t id.
Proof.
  intros Hok Hid t [Hr E]. destruct (ho_id r s Hok t Hr) as (id' & [_ E'] & Hin).
  rewrite E in E'. injection E' as <-. done.
Qed.

(** Opening with the remote file, by the inode itself. *)
Lemma open_ok e t r s :
  handles_ok r s -> r t = 0 ->
  match re_open e with inl err => err <> FhgfsOpsErr_SUCCESS | inr x => opens_new s x end ->
  let pattern := if FhgfsInode_isStripePatternStale (hw_inode s) then None else fi_pattern (hw_inode s) in
  match remote_open e pattern s with
  | inl err => err <> FhgfsOpsErr_SUCCESS
  | inr (id, p, s1) => exists s', install_handle (re_garbage e) t id p s1 = Some s' /\
      handles_ok (add_ref t 1 r) s' /\ (handles_exact r s -> handles_exact (add_ref t 1 r) s')
  end.
Proof.
  intros Hok Hr He pattern. unfold remote_open. destruct (re_open e) as [err|[id [addr count]]]; [done|].
  destruct He as (Hid & Haddr & Hcount). cbn [fst snd] in *.
  pose proof (fresh_unused r s id Hok Hid) as Hunused.
  destruct pattern as [p|] eqn:Ep; unfold pattern in Ep.
  - destruct (FhgfsInode_isStripePatternStale (hw_inode s)) eqn:Es; [done|].
    destruct (ho_pattern r s Hok p Ep) as [n Hn].
    set (s1 := MkHandleWorld (hw_inode s) (hw_patterns s) ({[id]} ∪ hw_open s)).
    assert (Hok1 : handles_ok r s1).
    { apply handles_ok_more; [done|set_solver|done|]. exact (ho_targets r s Hok). }
    destruct (install_ok (re_garbage e) t id p n r s1 Hok1 Hr Hn) as (s' & E & Hok' & Hex).
    + unfold s1. cbn. set_solver.
    + exact Hunused.
    + unfold s1. cbn [hw_inode]. congruence.
    + exists s'. split; [done|]. split; [done|]. intros [H1 H2]. apply Hex.
      * intros i. unfold s1. cbn [hw_open]. intros [->%elem_of_singleton|Hi]%elem_of_union; [by left|right].
        destruct (H1 i Hi) as [t' Ht']. by exists t'.
      * intros q Hq. left. specialize (H2 q Hq). congruence.
  - set (s1 := MkHandleWorld (hw_inode s) (<[addr := count]> (hw_patterns s)) ({[id]} ∪ hw_open s)).
    assert (Hok1 : handles_ok r s1).
    { apply handles_ok_more; [done|set_solver|by apply insert_subseteq|]. by apply (targets_insert r). }
    assert (Hne : fi_pattern (hw_inode s) <> Some addr).
    { intros E. destruct (ho_pattern r s Hok addr E) as [x Hx]. congruence. }
    destruct (install_ok (re_garbage e) t id addr count r s1 Hok1 Hr) as (s' & E & Hok' & Hex).
    + unfold s1. cbn. apply lookup_insert_eq.
    + unfold s1. cbn. set_solver.
    + exact Hunused.
    + done.
    + exists s'. split; [done|]. split; [done|]. intros [H1 H2]. apply Hex.
      * intros i. unfold s1. cbn [hw_open]. intros [->%elem_of_singleton|Hi]%elem_of_union; [by left|right].
        destruct (H1 i Hi) as [t' Ht']. by exists t'.
      * intros q. unfold s1. cbn [hw_patterns hw_inode]. intros [x [[<- _]|[Hn Hq]]%lookup_insert_Some]; [by left|right].
        assert (Hq' : fi_pattern (hw_inode s) = Some q) by (apply H2; by eexists).
        destruct (FhgfsInode_isStripePatternStale (hw_inode s)); [done|congruence].
Qed.

Lemma refCount_pos r s t : handles_ok r s ->
  (fh_refCount (fi_handle (hw_inode s) t) =? 0) = false -> 0 < r t.
Proof. intros Hok E. destruct (ho_count r s Hok t) as [Hc Hr]. apply Z.eqb_neq in E. lia. Qed.
Lemma refCount_zero r s t : handles_ok r s ->
  (fh_refCount (fi_handle (hw_inode s) t) =? 0) = true -> r t = 0.
Proof. intros Hok E. destruct (ho_count r s Hok t) as [Hc Hr]. apply Z.eqb_eq in E. lia. Qed.

Lemma handle_reference_ok e flags allowRW version r s :
  handles_ok r s -> (forall t, r t < 2 ^ 32 - 1) ->
  match re_open e with inl err => err <> FhgfsOpsErr_SUCCESS | inr x => opens_new s x end ->
  exists ret t s', FhgfsInode_referenceHandle e flags allowRW None version s = Some (ret, t, s') /\
    handles_ok (if ret =? FhgfsOpsErr_SUCCESS then add_ref t 1 r else r) s' /\
    (handles_exact r s -> handles_exact (if ret =? FhgfsOpsErr_SUCCESS then add_ref t 1 r else r) s').
Proof.
  intros Hok Hb He. unfold FhgfsInode_referenceHandle. set (t := __FhgfsInode_openFlagsToHandleType flags).
  destruct (fh_refCount (fi_handle (hw_inode s) t) =? 0) eqn:Et; cbn [negb].
  2: { pose proof (reference_open_ok e flags version t r s Hok (refCount_pos r s t Hok Et) (Hb t)) as H.
       destruct (reference_open e flags version t s) as [ret s']. eauto 6. }
  destruct (allowRW && _) eqn:Erw.
  { apply andb_prop in Erw as [_ Erw%negb_true_iff].
    pose proof (reference_open_ok e flags version FileHandleType_RW r s Hok
      (refCount_pos r s FileHandleType_RW Hok Erw) (Hb _)) as H.
    destruct (reference_open e flags version FileHandleType_RW s) as [ret s'].
    exists ret. destruct (ret =? FhgfsOpsErr_SUCCESS); eauto 6. }
  pose proof (open_ok e t r s Hok (refCount_zero r s t Hok Et) He) as H. cbv zeta in H |- *.
  destruct (remote_open e _ s) as [err|[[id p] s1]].
  - eexists _, _, _. split; [done|]. by rewrite (proj2 (Z.eqb_neq _ _) H).
  - destruct H as (s' & -> & Hok' & Hex). cbn [mbind option_bind]. eauto 6.
Qed.

(** The file that a lookup has opened gets its reference unless truncating a file that is open fails. *)
Lemma atomicOpen_ok e flags lookup r s :
  handles_ok r s -> (forall t, r t < 2 ^ 32 - 1) -> opens_new s lookup ->
  match atomicOpen_reference e flags lookup s with
  | Some (ret, t, s') => ret = FhgfsOpsErr_SUCCESS /\ handles_ok (add_ref t 1 r) s'
  | None => __FhgfsInode_referenceTrunc e flags <> FhgfsOpsErr_SUCCESS /\
      0 < r (__FhgfsInode_openFlagsToHandleType flags)
  end.
Proof.
  destruct lookup as [id [addr count]]. intros Hok Hb (Hid & Haddr & Hcount). cbn [fst snd] in *.
  unfold atomicOpen_reference. set (s1 := MkHandleWorld _ _ _).
  assert (Hok1 : handles_ok r s1).
  { apply handles_ok_more; [done|set_solver|by apply insert_subseteq|]. by apply (targets_insert r). }
  unfold FhgfsInode_referenceHandle. set (t := __FhgfsInode_openFlagsToHandleType flags).
  destruct (fh_refCount (fi_handle (hw_inode s1) t) =? 0) eqn:Et; cbn [negb andb].
  - destruct (install_ok (re_garbage e) t id addr count r s1 Hok1 (refCount_zero r s1 t Hok1 Et)) as (s' & E & Hok' & _).
    + unfold s1. cbn. apply lookup_insert_eq.
    + unfold s1. cbn. set_solver.
    + exact (fresh_unused r s id Hok Hid).
    + unfold s1. cbn [hw_inode]. intros _ E. destruct (ho_pattern r s Hok addr E) as [x Hx]. congruence.
    + cbn [lo_fileHandleID lo_stripePattern]. rewrite E. cbn [mbind option_bind]. by rewrite Z.eqb_refl.
  - pose proof (refCount_pos r s1 t Hok1 Et) as Hr.
    pose proof (reference_open_ok e flags false t r s1 Hok1 Hr (Hb t)) as H.
    unfold reference_open in *. rewrite andb_false_r in *.
    destruct (__FhgfsInode_referenceTrunc e flags =? FhgfsOpsErr_SUCCESS) eqn:E; cbn [negb] in *;
      cbn [mbind option_bind]; rewrite E.
    + rewrite E in H. split; [by apply Z.eqb_eq|apply H].
    + by split; [apply Z.eqb_neq|].
Qed.

(** The last reference closes the file and frees the ID. *)
Lemma last_release_ok garbage t id r s :
  handles_ok r s -> r t = 1 -> fh_fileHandleID (fi_handle (hw_inode s) t) = ID_valid id ->
  let h := MkFileHandle ID_freed 0 false (-1)
             (BitStore_setSize garbage (fh_firstWriteDone (fi_handle (hw_inode s) t)) 0) in
  let s' := MkHandleWorld (set_handle t h (hw_inode s)) (hw_patterns s) (hw_open s ∖ {[id]}) in
  handles_ok (add_ref t (-1) r) s' /\ (handles_exact r s -> handles_exact (add_ref t (-1) r) s').
Proof.
  intros Hok Hr Hid h s'.
  assert (Hpos : forall t', 0 < add_ref t (-1) r t' <-> t' <> t /\ 0 < r t').
  { intros t'. unfold add_ref. destruct (decide (t' = t)) as [->|]; [|tauto]. rewrite Hr. split; [lia|by intros [? _]]. }
  assert (Hu : forall t' i, used_id (add_ref t (-1) r) s' t' i <-> t' <> t /\ used_id r s t' i).
  { intros t' i. unfold used_id. rewrite Hpos. unfold s'. cbn [hw_inode]. rewrite fi_handle_set.
    destruct (decide (t = t')) as [<-|]; [|tauto]. split; [intros [[? _] _]|intros [? _]]; done. }
  assert (Hself : used_id r s t id) by (split; [lia|done]).
  split.
  - split; cbn [hw_patterns hw_open s'].
    + intros t'. unfold s'. cbn [hw_inode]. rewrite fi_handle_set. unfold add_ref.
      destruct (decide (t = t')) as [<-|Hn]; [rewrite decide_True by done|rewrite decide_False by done].
      * cbn [fh_refCount h]. lia.
      * exact (ho_count r s Hok t').
    + intros t' [Hn H]%Hpos. destruct (ho_id r s Hok t' H) as (i & Hi & Hin). exists i. rewrite Hu.
      split; [done|]. apply elem_of_difference. split; [done|]. intros ->%elem_of_singleton.
      by destruct (Hn (ho_distinct r s Hok t' t id Hi Hself)).
    + intros t1 t2 i [_ H1]%Hu [_ H2]%Hu. exact (ho_distinct r s Hok t1 t2 i H1 H2).
    + exact (ho_pattern r s Hok).
    + intros t' [_ H]%Hpos. exact (ho_has_pattern r s Hok t' H).
    + intros t' Hs. pose proof (ho_stale r s Hok t Hs). lia.
    + intros t'. unfold s'. cbn [hw_inode]. rewrite fi_handle_set. destruct (decide (t = t')); [|apply (ho_bits r s Hok)].
      cbn [fh_firstWriteDone h]. apply bits_resized; [exact (ho_bits r s Hok t)|lia].
    + exact (ho_targets r s Hok).
  - intros [H1 H2]. split; [|exact H2]. intros i [Hi Hne]%elem_of_difference. destruct (H1 i Hi) as [t' Ht'].
    exists t'. rewrite Hu. split; [|done]. intros ->. destruct Ht' as [_ Ht']. rewrite Hid in Ht'.
    injection Ht' as <-. by apply Hne, elem_of_singleton.
Qed.

Lemma release_ok garbage close t r s :
  handles_ok r s -> 0 < r t ->
  exists ret s', FhgfsInode_releaseHandle garbage close t s = Some (ret, s') /\
    handles_ok (add_ref t (-1) r) s' /\ (handles_exact r s -> handles_exact (add_ref t (-1) r) s').
Proof.
  intros Hok Hr. unfold FhgfsInode_releaseHandle. destruct (ho_count r s Hok t) as [Hc Hb].
  rewrite Hc, (proj2 (Z.eqb_neq (r t) 0)) by lia. rewrite u32_small by lia.
  destruct (decide (r t = 1)) as [H1|H1].
  - rewrite H1. cbn [Z.sub Z.add Z.opp Z.pos_sub Z.eqb negb].
    destruct (ho_id r s Hok t Hr) as (id & [_ Hid] & _). rewrite Hid. eexists _, _. split; [done|].
    exact (last_release_ok garbage t id r s Hok H1 Hid).
  - rewrite (proj2 (Z.eqb_neq (r t - 1) 0)) by lia. cbn [negb]. eexists _, _. split; [done|].
    pose proof (handles_ok_count r s t (-1) Hok Hr ltac:(lia)) as H. cbv zeta in H.
    rewrite Hc, u32_small in H by lia. exact H.
Qed.

Lemma isOpen_ok stale r s :
  handles_ok r s ->
  let s' := on_inode (fun i => (FhgfsInode_getIsFileOpen stale i).2) s in
  handles_ok r s' /\ (handles_exact r s -> handles_exact r s').
Proof.
  intros Hok. unfold FhgfsInode_getIsFileOpen. cbn [snd].
  destruct (stale && negb (is_open (hw_inode s))) eqn:E; cbv zeta; unfold on_inode; rewrite E;
    [|by destruct s].
  assert (H0 : forall t, r t = 0).
  { apply andb_prop in E as [_ E]. unfold is_open in E. rewrite !negb_orb, !negb_involutive in E.
    apply andb_prop in E as [[E1 E2]%andb_prop E3].
    intros t. by destruct t; apply (refCount_zero r s _ Hok). }
  set (i := FhgfsInode_setStripePatternStale (hw_inode s)).
  assert (Hh : forall t, fi_handle i t = fi_handle (hw_inode s) t) by (by intros []).
  split; [|intros [H1 H2]; split; [|exact H2]; intros id Hin; destruct (H1 id Hin) as [t [H _]]; rewrite H0 in H; lia].
  split; cbn [hw_inode hw_patterns hw_open].
  - intros t. rewrite Hh. exact (ho_count r s Hok t).
  - intros t Ht. rewrite H0 in Ht. lia.
  - intros t1 t2 id [H _]. rewrite H0 in H. lia.
  - exact (ho_pattern r s Hok).
  - intros t Ht. rewrite H0 in Ht. lia.
  - intros t _. apply H0.
  - intros t. rewrite Hh. exact (ho_bits r s Hok t).
  - exact (ho_targets r s Hok).
Qed.

Lemma handle_start_ok lowerBits : in_u 64 lowerBits ->
  handles_ok (hy_refs (handle_start lowerBits)) (hy_world (handle_start lowerBits)) /\
  handles_exact (hy_refs (handle_start lowerBits)) (hy_world (handle_start lowerBits)).
Proof.
  intros Hb. unfold handle_start. cbn [hy_refs hy_world]. split.
  - split; cbn [hw_inode hw_patterns hw_open].
    + intros []; cbn; lia.
    + lia.
    + intros t1 t2 id [H _]. lia.
    + done.
    + lia.
    + done.
    + intros t. exists lowerBits, []. split; [by destruct t|]. split; [done|]. split; [by apply Forall_nil|]. by vm_compute.
    + intros p n H. by rewrite lookup_empty in H.
  - split; cbn [hw_inode hw_patterns hw_open].
    + set_solver.
    + intros p [n H]. by rewrite lookup_empty in H.
Qed.

Lemma handle_step_ok lookups v v' :
  handles_ok (hy_refs v) (hy_world v) -> handle_step lookups v v' ->
  handles_ok (hy_refs v') (hy_world v') /\
  (lookups = false -> handles_exact (hy_refs v) (hy_world v) -> handles_exact (hy_refs v') (hy_world v')).
Proof.
  intros Hok Hs. destruct Hs as [e flags rw version ret t s' He Hb E|e flags lookup ret t s' -> Hn Hb E
    |garbage close ret t s' Hr E|stale]; cbn [hy_refs hy_world].
  - destruct (handle_reference_ok e flags rw version _ _ Hok Hb He) as (ret' & t' & s'' & E' & H1 & H2).
    rewrite E in E'. injection E' as <- <- <-. auto.
  - pose proof (atomicOpen_ok e flags lookup _ _ Hok Hb Hn) as H. rewrite E in H. split; [apply H|done].
  - destruct (release_ok garbage close t _ _ Hok Hr) as (ret' & s'' & E' & H1 & H2).
    rewrite E in E'. injection E' as <- <-. auto.
  - destruct (isOpen_ok stale _ _ Hok) as [H1 H2]. auto.
Qed.

Lemma handle_reachable_ok lookups lowerBits v : in_u 64 lowerBits ->
  rtc (handle_step lookups) (handle_start lowerBits) v ->
  handles_ok (hy_refs v) (hy_world v) /\ (lookups = false -> handles_exact (hy_refs v) (hy_world v)).
Proof.
  intros Hb. revert v. apply rtc_ind_r.
  - destruct (handle_start_ok lowerBits Hb). auto.
  - intros u u' _ Hs [IH1 IH2]. destruct (handle_step_ok lookups u u' IH1 Hs). auto.
Qed.

(** C27: Over all sequences of opens, closes and changes of the stripe pattern: the reference counts of an
    inode are the numbers of references that users hold; a handle in use has an ID that is open at
    the server, two handles never share one, and the pattern of an open file is alive; taking a
    reference and giving one back never touches an ID or a pattern that was freed, and a lookup's
    file only does if truncating an open file fails; and as long as no file is opened by a lookup,
    nothing is lost: the server's open IDs are exactly the ones in use, and the only pattern that
    exists is that of the inode. *)
Theorem handles_invariant lookups lowerBits v :
  in_u 64 lowerBits -> rtc (handle_step lookups) (handle_start lowerBits) v ->
  let s := hy_world v in
  let used t id := 0 < hy_refs v t /\ fh_fileHandleID (fi_handle (hw_inode s) t) = ID_valid id in
  (forall t, fh_refCount (fi_handle (hw_inode s) t) = hy_refs v t) /\
  (forall t, 0 < hy_refs v t -> exists id, used t id /\ id ∈ hw_open s) /\
  (forall t1 t2 id, used t1 id -> used t2 id -> t1 = t2) /\
  (forall t, 0 < hy_refs v t -> is_Some (FhgfsInode_getStripeCount s)) /\
  (forall garbage close t, 0 < hy_refs v t -> is_Some (FhgfsInode_releaseHandle garbage close t s)) /\
  (forall e flags allowRW version, (forall t, hy_refs v t < 2 ^ 32 - 1) ->
     match re_open e with inl err => err <> FhgfsOpsErr_SUCCESS | inr x => opens_new s x end ->
     is_Some (FhgfsInode_referenceHandle e flags allowRW None version s)) /\
  (forall e flags lookup, (forall t, hy_refs v t < 2 ^ 32 - 1) -> opens_new s lookup ->
     __FhgfsInode_referenceTrunc e flags = FhgfsOpsErr_SUCCESS ->
     is_Some (atomicOpen_reference e flags lookup s)) /\
  (lookups = false ->
     (forall id, id ∈ hw_open s <-> exists t, used t id) /\
     (forall p, is_Some (hw_patterns s !! p) <-> fi_pattern (hw_inode s) = Some p)).
Proof.
  intros Hb Hr s used. destruct (handle_reachable_ok lookups lowerBits v Hb Hr) as [Hok Hex]. fold s in Hok, Hex.
  split_and!.
  - intros t. apply (ho_count _ _ Hok).
  - exact (ho_id _ _ Hok).
  - exact (ho_distinct _ _ Hok).
  - intros t Ht. unfold FhgfsInode_getStripeCount. pose proof (ho_has_pattern _ _ Hok t Ht) as Hp.
    destruct (fi_pattern (hw_inode s)) as [p|] eqn:E; [|done]. exact (ho_pattern _ _ Hok p E).
  - intros garbage close t Ht. destruct (release_ok garbage close t _ _ Hok Ht) as (ret & s' & E & _). by eexists.
  - intros e flags rw version Hmax He.
    destruct (handle_reference_ok e flags rw version _ _ Hok Hmax He) as (ret & t & s' & E & _). by eexists.
  - intros e flags lookup Hmax Hn Ht. pose proof (atomicOpen_ok e flags lookup _ _ Hok Hmax Hn) as H.
    destruct (atomicOpen_reference e flags lookup s); [by eexists|]. by destruct H.
  - intros [H1 H2]%Hex. split; intros x.
    + split; [apply H1|]. intros [t [Ht E]]. destruct (ho_id _ _ Hok t Ht) as (id & [_ E'] & Hin). congruence.
    + split; [apply H2|]. apply (ho_pattern _ _ Hok).
Qed.

(** ** Samples *)

Definition sample_ref (id : list byte) (addr : Z) : RefEnv :=
  MkRefEnv FhgfsOpsErr_COMMUNICATION FhgfsOpsErr_SUCCESS (inr (id, (addr, 4))) (fun _ => 0).
(** The world of a result. *)
Definition world_of {A} (r : option (A * HandleWorld)) : HandleWorld :=
  match r with Some (_, s) => s | None => hy_world (handle_start 0) end.
Definition sample_open_again (id : list byte) (addr : Z) (s : HandleWorld) :=
  FhgfsInode_referenceHandle (sample_ref id addr) OPENFILE_ACCESS_READ false None false s.
Definition sample_opened : HandleWorld := world_of (sample_open_again [Byte.x01] 100 (hy_world (handle_start 0))).
Definition one_reader : FileHandleType -> Z := add_ref FileHandleType_READ 1 (fun _ => 0).
Definition two_readers : FileHandleType -> Z := add_ref FileHandleType_READ 1 one_reader.

Lemma sample_opened_new : opens_new sample_opened ([Byte.x02], (200, 4)).
Proof. split; [|split]; [by apply (bool_decide_unpack _)|vm_cast_no_check (eq_refl (@None Z))|cbn; lia]. Qed.
Lemma sample_opens lookups : handle_step lookups (handle_start 0) (MkHandleSystem sample_opened one_reader).
Proof.
  apply (HS_reference lookups (handle_start 0) (sample_ref [Byte.x01] 100) OPENFILE_ACCESS_READ false false
    FhgfsOpsErr_SUCCESS FileHandleType_READ sample_opened).
  - cbn. split; [set_solver|]. split; [done|cbn; lia].
  - cbn. lia.
  - vm_cast_no_check (eq_refl (Some (FhgfsOpsErr_SUCCESS, FileHandleType_READ, sample_opened))).
Qed.

(** A reader opens the file, a second one shares the handle. *)
Lemma handles_invariant_witness :
  let v := MkHandleSystem (world_of (sample_open_again [Byte.x02] 200 sample_opened)) two_readers in
  rtc (handle_step false) (handle_start 0) v /\ fh_refCount (fi_read (hw_inode (hy_world v))) = 2 /\
  forall garbage close, is_Some (FhgfsInode_releaseHandle garbage close FileHandleType_READ (hy_world v)).
Proof.
  intros v. assert (Hr : rtc (handle_step false) (handle_start 0) v).
  { eapply rtc_l; [apply sample_opens|]. apply rtc_once.
    apply (HS_reference false (MkHandleSystem sample_opened one_reader) (sample_ref [Byte.x02] 200)
      OPENFILE_ACCESS_READ false false FhgfsOpsErr_SUCCESS FileHandleType_READ).
    - exact sample_opened_new.
    - by intros [].
    - vm_cast_no_check (eq_refl (Some (FhgfsOpsErr_SUCCESS, FileHandleType_READ, hy_world v))). }
  split; [exact Hr|]. split; [by vm_cast_no_check (eq_refl 2)|]. intros garbage close.
  by apply (handles_invariant false 0 _ ltac:(unfold in_u; lia) Hr).
Defined.

(** A file that is open and is opened again by a lookup: the handle and the pattern of the lookup are
    used by nobody, and they stay when all users have closed the file. *)
Definition sample_looked_up : HandleWorld :=
  world_of (atomicOpen_reference (sample_ref [] 0) OPENFILE_ACCESS_READ ([Byte.x02], (200, 4)) sample_opened).
Definition sample_release (s : HandleWorld) := FhgfsInode_releaseHandle (fun _ => 0) 0 FileHandleType_READ s.
Definition sample_closed : HandleWorld := world_of (sample_release (world_of (sample_release sample_looked_up))).

Example lookup_handle_is_lost :
  rtc (handle_step true) (handle_start 0)
    (MkHandleSystem sample_closed (add_ref FileHandleType_READ (-1) (add_ref FileHandleType_READ (-1) two_readers))) /\
  (forall t, add_ref FileHandleType_READ (-1) (add_ref FileHandleType_READ (-1) two_readers) t = 0) /\
  hw_open sample_closed = {[ [Byte.x02] ]} /\ hw_patterns sample_closed !! 200 = Some 4 /\
  fi_pattern (hw_inode sample_closed) = Some 100.
Proof.
  split_and!.
  - eapply rtc_l; [apply sample_opens|].
    eapply rtc_l; [apply (HS_atomicOpen true (MkHandleSystem sample_opened one_reader) (sample_ref [] 0)
      OPENFILE_ACCESS_READ ([Byte.x02], (200, 4)) FhgfsOpsErr_SUCCESS FileHandleType_READ sample_looked_up eq_refl
      sample_opened_new); [by intros []|]|].
    { vm_cast_no_check (eq_refl (Some (FhgfsOpsErr_SUCCESS, FileHandleType_READ, sample_looked_up))). }
    eapply rtc_l; [apply (HS_release true _ (fun _ => 0) 0 0 FileHandleType_READ
      (world_of (sample_release sample_looked_up))); [done|]|].
    { vm_cast_no_check (eq_refl (Some (0, world_of (sample_release sample_looked_up)))). }
    apply rtc_once, (HS_release true (MkHandleSystem (world_of (sample_release sample_looked_up))
      (add_ref FileHandleType_READ (-1) two_readers)) (fun _ => 0) 0 0 FileHandleType_READ); [done|].
    vm_cast_no_check (eq_refl (Some (0, sample_closed))).
  - by intros [].
  - vm_cast_no_check (eq_refl (hw_open sample_closed)).
  - vm_cast_no_check (eq_refl (Some 4)).
  - vm_cast_no_check (eq_refl (Some 100)).
Qed.

(** A lookup with truncation of a file that is open: when truncating fails, closing the lookup's
    file reads the entry info through a pointer that is NULL. *)
Example failed_truncation_faults :
  atomicOpen_reference (sample_ref [] 0) (Z.lor OPENFILE_ACCESS_READ OPENFILE_ACCESS_TRUNC)
    ([Byte.x02], (200, 4)) sample_opened = None.
Proof. vm_cast_no_check (eq_refl (@None (Z * FileHandleType * HandleWorld))). Qed.
