(* ===== verification/MetaOps.v ===== *)
(** * Metadata operations

    Models the operations of [net/filesystem/FhgfsOpsRemoting.c] ([client_module/source]) that
    exchange one message with the metadata server of an entry, with the outputs of their callers
    ([common/toolkit/LookupIntentInfoOut.h], [GetEntryInfoResult.h], [common/storage/StatData.h]),
    opening with its waiting loop, and the closing of files that is repeated in the background
    ([filesystem/FhgfsOpsHelper.h], the queue in [components/InternodeSyncer.c]).

    All operations have the same shape: a request, the exchange of [MessagingTk], a result and
    outputs taken from the response, and the release of the response.  A response is an object of
    the class that the factory chose for it; its pointer is cast to the class of the operation, and
    the cast to a wrong class is a fault.  Log output is left out, and small allocations
    (duplicated strings, queue entries) succeed. *)

From S2P Require Import Prelude StorageErrors Wire Serialization StorageFormats StripePattern NetMessageTypes NetMessage BuddyGroup Mappers CommKit MessagesSession MessagesStorage MessagesNodes MessageFactory CommKitOps MessagingTk FileHandles.

(** What the operations use of the configuration and the surroundings. *)
Record MetaConfig := MkMetaConfig {
  mc_kmalloc_ok : Z -> bool;
  mc_fresh : forall k, kind_type k;
  mc_connRetriesEnabled : bool;
  mc_connNumCommRetries : Z;
  mc_fuel : nat;
  mc_uid : Z;
  mc_localNodeNumID : Z;
  mc_quotaEnabled : bool;
  mc_bypassFileAccessCheck : bool;
  mc_tuneEarlyCloseResponse : bool;
  mc_tuneFileOpenRetryTimeoutMS : Z;
  mc_tuneFileOpenRetryIntervalMS : Z
}.

(** The result, the outputs and the events of an operation. *)
Inductive OpOut (A : Type) :=
| Op_return (retVal : Z) (out : A) (events : list MsgEvent)
| Op_fault
| Op_out_of_fuel.
Arguments Op_return {A}.
Arguments Op_fault {A}.
Arguments Op_out_of_fuel {A}.

(** The response as an object of the class [k]. *)
Definition cast_msg (k : MsgKind) (m : SomeMsg) : option (NetMessage (kind_type k)) :=
  match m with
  | Some (existT k' msg) =>
      match decide (k' = k) with
      | left E => Some (eq_rect k' (fun k => NetMessage (kind_type k)) msg k E)
      | right _ => None
      end
  | None => None
  end.

Definition rrpeer_from_entryinfo (entryInfo : EntryInfo) : RRPeer :=
  if EntryInfo_getIsBuddyMirrored entryInfo
  then RRPeer_group (ng_id (ei_owner entryInfo)) else RRPeer_target (ng_id (ei_owner entryInfo)).

(** The end of an operation: [none] are the outputs without a response, [handle] takes result and
    outputs from it. *)
Definition meta_finish {M A} (none : A) (call : RROut M) (handle : SomeMsg -> option (Z * A)) : OpOut A :=
  match call with
  | RR_fault => Op_fault
  | RR_out_of_fuel => Op_out_of_fuel
  | RR_return requestRes rrArgs events =>
      if negb (requestRes =? FhgfsOpsErr_SUCCESS) then Op_return requestRes none events
      else
        match rr_outRespMsg rrArgs ≫= handle with
        | Some (retVal, out) => Op_return retVal out (events ++ (RequestResponseArgs_freeRespBuffers rrArgs).2)
        | None => Op_fault
        end
  end.

(** Responses that only have a value. *)
Definition simple_result (m : SomeMsg) : option (Z * unit) :=
  msg ← cast_msg K_SimpleInt m; Some (sim_value (msgBody msg), tt).

Definition add_flag_when {M} (b : bool) (flag : Z) (m : NetMessage M) : NetMessage M :=
  if b then NetMessage_addMsgHeaderFeatureFlag m flag else m.

Section Operations.
Context (c : MetaConfig) (rounds : nat -> NodeEnv).

Definition meta_request {M} `{NetMessageOps M} (peer : RRPeer) (requestMsg : NetMessage M) (respMsgType : Z) :
    RROut M :=
  MessagingTk_requestResponseNodeRetryAutoIntr (mc_kmalloc_ok c) (mc_fresh c) (mc_connRetriesEnabled c)
    (mc_fuel c) (mc_connNumCommRetries c) peer true true rounds
    (RequestResponseArgs_prepare None requestMsg respMsgType).
Definition meta_request_once {M} `{NetMessageOps M} (peer : RRPeer) (requestMsg : NetMessage M)
    (respMsgType : Z) : RROut M :=
  MessagingTk_requestResponseNode (mc_kmalloc_ok c) (mc_fresh c) (mc_connRetriesEnabled c) (mc_fuel c) peer
    true true rounds (RequestResponseArgs_prepare None requestMsg respMsgType).

(** ** Attributes *)

(** The mode is a [umode_t] of 16 bits; times have no fraction of a second. *)
Record fhgfs_stat := MkFhgfsStat {
  fs_mode : Z; fs_size : Z; fs_blocks : Z; fs_uid : Z; fs_gid : Z; fs_nlink : Z;
  fs_atime : Z; fs_mtime : Z; fs_ctime : Z; fs_metaVersion : Z
}.
Definition StatData_getOsStat (this : StatData) : fhgfs_stat :=
  let a := sd_settableFileAttribs this in
  MkFhgfsStat (u16 (sfa_mode a)) (sd_fileSize this) (sd_numBlocks this) (sfa_userID a) (sfa_groupID a)
    (sd_nlink this) (sfa_lastAccessTimeSecs a) (sfa_modificationTimeSecs a) (sd_attribChangeTimeSecs this)
    (sd_metaVersion this).

(** The outputs: the attributes, and the parent's node and entry ID if they are asked for. *)
Definition FhgfsOpsRemoting_statAndGetParentInfo (entryInfo : EntryInfo) (parentInfo : bool) :
    OpOut (option (fhgfs_stat * option (Z * option (list byte)))) :=
  let requestMsg := StatMsg_initFromEntryInfo (mc_uid c) entryInfo in
  let requestMsg := if parentInfo then StatMsg_addParentInfoRequest requestMsg else requestMsg in
  meta_finish None (meta_request (rrpeer_from_entryinfo entryInfo) requestMsg NETMSGTYPE_StatResp) (fun m =>
    msg ← cast_msg K_StatResp m;
    let r := msgBody msg in
    Some (sr_result r,
      if sr_result r =? FhgfsOpsErr_SUCCESS
      then Some (StatData_getOsStat (sr_statData r),
             if parentInfo then Some (sr_parentNodeID r, sr_parentEntryID r) else None)
      else None)).

Definition SETATTRMSG_FLAG_USE_QUOTA : Z := 1.
Definition SETATTR_CHANGE_USERID : Z := 2.
Definition SETATTR_CHANGE_GROUPID : Z := 4.
Definition FhgfsOpsRemoting_setAttr (entryInfo : EntryInfo) (fhgfsAttr : SettableFileAttribs) (validAttribs : Z)
    (event : option FileEvent) : OpOut unit :=
  let owner := negb (Z.land validAttribs (Z.lor SETATTR_CHANGE_USERID SETATTR_CHANGE_GROUPID) =? 0) in
  let requestMsg := add_flag_when (owner && mc_quotaEnabled c) SETATTRMSG_FLAG_USE_QUOTA
    (SetAttrMsg_initFromEntryInfo (mc_uid c) entryInfo validAttribs fhgfsAttr event) in
  meta_finish tt (meta_request (rrpeer_from_entryinfo entryInfo) requestMsg NETMSGTYPE_SetAttrResp) simple_result.

Definition TRUNCFILEMSG_FLAG_USE_QUOTA : Z := 1.
Definition FhgfsOpsRemoting_truncfile (entryInfo : EntryInfo) (size : Z) (event : option FileEvent) : OpOut unit :=
  let requestMsg := add_flag_when (mc_quotaEnabled c) TRUNCFILEMSG_FLAG_USE_QUOTA
    (TruncFileMsg_initFromEntryInfo (mc_uid c) size entryInfo event) in
  meta_finish tt (meta_request (rrpeer_from_entryinfo entryInfo) requestMsg NETMSGTYPE_TruncFileResp) simple_result.

Definition FhgfsOpsRemoting_refreshEntry (entryInfo : EntryInfo) : OpOut unit :=
  meta_finish tt (meta_request (rrpeer_from_entryinfo entryInfo)
    (RefreshEntryInfoMsg_initFromEntryInfo (mc_uid c) entryInfo) NETMSGTYPE_RefreshEntryInfoResp) simple_result.
Definition FhgfsOpsRemoting_bumpFileVersion (entryInfo : EntryInfo) (persistent : bool) (event : option FileEvent) :
    OpOut unit :=
  meta_finish tt (meta_request (rrpeer_from_entryinfo entryInfo)
    (BumpFileVersionMsg_init (mc_uid c) entryInfo persistent event) NETMSGTYPE_BumpFileVersionResp) simple_result.
(** The version is also stored when the server reports an error. *)
Definition FhgfsOpsRemoting_getFileVersion (entryInfo : EntryInfo) : OpOut (option Z) :=
  meta_finish None (meta_request (rrpeer_from_entryinfo entryInfo)
    (GetFileVersionMsg_init (mc_uid c) entryInfo) NETMSGTYPE_GetFileVersionResp) (fun m =>
      msg ← cast_msg K_GetFileVersionResp m;
      Some (gfr_result (msgBody msg), Some (gfr_version (msgBody msg)))).
Definition FhgfsOpsRemoting_SetFileState (entryInfo : EntryInfo) (state : Z) : OpOut unit :=
  meta_finish tt (meta_request (rrpeer_from_entryinfo entryInfo)
    (SetFileStateMsg_initFromEntryInfoAndState (mc_uid c) entryInfo state) NETMSGTYPE_SetFileStateResp) simple_result.

(** ** Extended attributes

    [outValue]: a buffer of [size] bytes is given; the outputs are its new content and the size. *)

Definition __FHGFSOPS_REMOTING_MAX_XATTR_VALUE_SIZE : Z := 60 * 1000.
Definition __FHGFSOPS_REMOTING_MAX_XATTR_NAME_SIZE : Z := 245.

(** [memcpy] of [n] bytes of a value; reading behind its end is a fault. *)
Definition read_value (value : list byte) (n : Z) : option (list byte) :=
  if zlen value <? n then None else Some (take (Z.to_nat n) value).
(** The announced size is compared as [size_t]. *)
Definition xattr_result (outValue : bool) (size returnCode valueSize : Z) (value : list byte) :
    option (Z * option (option (list byte) * Z)) :=
  if negb (returnCode =? FhgfsOpsErr_SUCCESS) then Some (returnCode, None)
  else if outValue then
    if u64 valueSize <=? size then
      copy ← read_value value valueSize; Some (FhgfsOpsErr_SUCCESS, Some (Some copy, valueSize))
    else Some (FhgfsOpsErr_RANGE, None)
  else Some (FhgfsOpsErr_SUCCESS, Some (None, valueSize)).

Definition FhgfsOpsRemoting_listXAttr (entryInfo : EntryInfo) (outValue : bool) (size : Z) :
    OpOut (option (option (list byte) * Z)) :=
  meta_finish None (meta_request (rrpeer_from_entryinfo entryInfo)
    (ListXAttrMsg_initFromEntryInfoAndSize (mc_uid c) entryInfo size) NETMSGTYPE_ListXAttrResp) (fun m =>
      msg ← cast_msg K_ListXAttrResp m;
      let r := msgBody msg in
      let value := lxr_value r in
      xattr_result outValue size (lxr_returnCode r) (lxr_size r)
        (take (Z.to_nat (rl_length value)) (drop (Z.to_nat (rl_data value)) (rl_mem value)))).
Definition FhgfsOpsRemoting_getXAttr (entryInfo : EntryInfo) (name : list byte) (outValue : bool) (size : Z) :
    OpOut (option (option (list byte) * Z)) :=
  meta_finish None (meta_request (rrpeer_from_entryinfo entryInfo)
    (GetXAttrMsg_initFromEntryInfoNameAndSize (mc_uid c) entryInfo name size) NETMSGTYPE_GetXAttrResp) (fun m =>
      msg ← cast_msg K_GetXAttrResp m;
      let r := msgBody msg in
      xattr_result outValue size (gxr_returnCode r) (gxr_size r) (gxr_valueBuf r)).
Definition FhgfsOpsRemoting_removeXAttr (entryInfo : EntryInfo) (name : list byte) : OpOut unit :=
  meta_finish tt (meta_request (rrpeer_from_entryinfo entryInfo)
    (RemoveXAttrMsg_initFromEntryInfoAndName (mc_uid c) entryInfo name) NETMSGTYPE_RemoveXAttrResp) simple_result.
Definition FhgfsOpsRemoting_setXAttr (entryInfo : EntryInfo) (name value : list byte) (size flags : Z) :
    OpOut unit :=
  if __FHGFSOPS_REMOTING_MAX_XATTR_NAME_SIZE <? strlen name then Op_return FhgfsOpsErr_RANGE tt []
  else if __FHGFSOPS_REMOTING_MAX_XATTR_VALUE_SIZE <? size then Op_return FhgfsOpsErr_TOOLONG tt []
  else
    meta_finish tt (meta_request (rrpeer_from_entryinfo entryInfo)
      (SetXAttrMsg_initFromEntryInfoNameValueAndSize (mc_uid c) entryInfo name value size flags)
      NETMSGTYPE_SetXAttrResp) simple_result.

(** ** Creating, removing, renaming *)

Definition FhgfsOpsRemoting_mkdir (parentInfo : EntryInfo) (createInfo : CreateInfo) : OpOut (option EntryInfo) :=
  meta_finish None (meta_request (rrpeer_from_entryinfo parentInfo)
    (MkDirMsg_initFromEntryInfo (mc_uid c) parentInfo createInfo) NETMSGTYPE_MkDirResp) (fun m =>
      msg ← cast_msg K_MkDirResp m;
      let r := msgBody msg in
      Some (mdr_result r,
        if mdr_result r =? FhgfsOpsErr_SUCCESS then Some (mdr_entryInfo r) else None)).
(** [msg0]: the memory of the request. *)
Definition FhgfsOpsRemoting_mkfileWithStripeHints (msg0 : MkFileMsg) (parentInfo : EntryInfo)
    (createInfo : CreateInfo) (numtargets chunksize : Z) (outEntryInfo : bool) : OpOut (option EntryInfo) :=
  let requestMsg := MkFileMsg_initFromEntryInfo (mc_uid c) msg0 parentInfo createInfo in
  let requestMsg := if negb (numtargets =? 0) || negb (chunksize =? 0)
    then MkFileMsg_setStripeHints requestMsg numtargets chunksize else requestMsg in
  meta_finish None (meta_request (rrpeer_from_entryinfo parentInfo) requestMsg NETMSGTYPE_MkFileResp) (fun m =>
      msg ← cast_msg K_MkFileResp m;
      let r := msgBody msg in
      Some (mfr_result r,
        if (mfr_result r =? FhgfsOpsErr_SUCCESS) && outEntryInfo then Some (mfr_entryInfo r) else None)).
Definition FhgfsOpsRemoting_mkfile (msg0 : MkFileMsg) (parentInfo : EntryInfo) (createInfo : CreateInfo)
    (outEntryInfo : bool) : OpOut (option EntryInfo) :=
  FhgfsOpsRemoting_mkfileWithStripeHints msg0 parentInfo createInfo 0 0 outEntryInfo.
Definition FhgfsOpsRemoting_rmdir (parentInfo : EntryInfo) (entryName : list byte) (event : option FileEvent) :
    OpOut unit :=
  meta_finish tt (meta_request (rrpeer_from_entryinfo parentInfo)
    (RmDirMsg_initFromEntryInfo (mc_uid c) parentInfo entryName event) NETMSGTYPE_RmDirResp) simple_result.
Definition FhgfsOpsRemoting_unlinkfile (parentInfo : EntryInfo) (entryName : list byte) (event : option FileEvent) :
    OpOut unit :=
  meta_finish tt (meta_request (rrpeer_from_entryinfo parentInfo)
    (UnlinkFileMsg_initFromEntryInfo (mc_uid c) parentInfo entryName event) NETMSGTYPE_UnlinkFileResp) simple_result.
Definition FhgfsOpsRemoting_rename (oldName : list byte) (oldLen entryType : Z) (fromDirInfo : EntryInfo)
    (newName : list byte) (newLen : Z) (toDirInfo : EntryInfo) (event : option FileEvent) : OpOut unit :=
  meta_finish tt (meta_request (rrpeer_from_entryinfo fromDirInfo)
    (RenameMsg_initFromEntryInfo (mc_uid c) oldName oldLen entryType fromDirInfo newName newLen toDirInfo event)
    NETMSGTYPE_RenameResp) simple_result.
Definition FhgfsOpsRemoting_hardlink (fromName : list byte) (fromLen : Z) (fromInfo fromDirInfo : EntryInfo)
    (toName : list byte) (toLen : Z) (toDirInfo : EntryInfo) (event : option FileEvent) : OpOut unit :=
  meta_finish tt (meta_request (rrpeer_from_entryinfo toDirInfo)
    (HardlinkMsg_initFromEntryInfo (mc_uid c) fromDirInfo fromName fromLen fromInfo toDirInfo toName toLen event)
    NETMSGTYPE_HardlinkResp) simple_result.

(** ** Lookup *)

Record LookupIntentInfoIn := MkLookupIntentInfoIn {
  lin_parentEntryInfo : EntryInfo;
  lin_entryInfo : option EntryInfo;
  lin_entryName : list byte;
  lin_createInfo : option CreateInfo;
  lin_isExclusiveCreate : bool;
  lin_openFlags : option Z;
  lin_metaVersion : Z
}.

(** The entry info is stored behind a pointer of the caller that may be NULL. *)
Record LookupIntentInfoOut := MkLookupIntentInfoOut {
  lio_responseFlags : Z; lio_lookupRes : Z; lio_statRes : Z; lio_createRes : Z; lio_revalidateRes : Z;
  lio_openRes : Z; lio_fhgfsStat : option fhgfs_stat; lio_entryInfoPtr : bool; lio_entryInfo : option EntryInfo;
  lio_revalidateUpdatedFlags : option Z; lio_fileHandleID : option (list byte); lio_pathInfo : option PathInfo;
  lio_stripePattern : option StripePattern
}.
Definition LookupIntentInfoOut_prepare (entryInfoPtr : bool) : LookupIntentInfoOut :=
  MkLookupIntentInfoOut 0 FhgfsOpsErr_INTERNAL FhgfsOpsErr_INTERNAL FhgfsOpsErr_INTERNAL FhgfsOpsErr_INTERNAL
    FhgfsOpsErr_INTERNAL None entryInfoPtr None None None None None.
(** [None]: the entry info is copied to NULL, or the pattern is read outside of the message. *)
Definition LookupIntentInfoOut_initFromRespMsg (this : LookupIntentInfoOut) (respMsg : LookupIntentRespMsg) :
    option LookupIntentInfoOut :=
  let flags := lir_responseFlags respMsg in
  let createRes := if has_flag flags LOOKUPINTENTRESPMSG_FLAG_CREATE then lir_createResult respMsg
                   else lio_createRes this in
  let '(statRes, fhgfsStat) :=
    if has_flag flags LOOKUPINTENTRESPMSG_FLAG_STAT then
      (lir_statResult respMsg,
       if lir_statResult respMsg =? FhgfsOpsErr_SUCCESS then Some (StatData_getOsStat (lir_statData respMsg))
       else lio_fhgfsStat this)
    else (lio_statRes this, lio_fhgfsStat this) in
  '(revalidateRes, updatedFlags, entryInfo) ←
    (if has_flag flags LOOKUPINTENTRESPMSG_FLAG_REVALIDATE then
       Some (lir_revalidateResult respMsg, Some (ei_featureFlags (lir_entryInfo respMsg)), lio_entryInfo this)
     else if (lir_lookupResult respMsg =? FhgfsOpsErr_SUCCESS) || (lir_createResult respMsg =? FhgfsOpsErr_SUCCESS)
     then if lio_entryInfoPtr this
          then Some (lio_revalidateRes this, lio_revalidateUpdatedFlags this, Some (lir_entryInfo respMsg))
          else None
     else Some (lio_revalidateRes this, lio_revalidateUpdatedFlags this, lio_entryInfo this));
  let open := lir_open respMsg in
  '(openRes, fileHandleID, pathInfo, pattern) ←
    (if has_flag flags LOOKUPINTENTRESPMSG_FLAG_OPEN then
       if lo_openResult open =? FhgfsOpsErr_SUCCESS then
         p ← StripePattern_createFromBuf (lo_pattern open);
         Some (lo_openResult open, Some (MessagesStorage.lo_fileHandleID open), Some (lo_pathInfo open), Some p)
       else Some (lo_openResult open, lio_fileHandleID this, lio_pathInfo this, lio_stripePattern this)
     else Some (lio_openRes this, lio_fileHandleID this, lio_pathInfo this, lio_stripePattern this));
  Some (MkLookupIntentInfoOut flags (lir_lookupResult respMsg) statRes createRes revalidateRes openRes fhgfsStat
    (lio_entryInfoPtr this) entryInfo updatedFlags fileHandleID pathInfo pattern).

Definition LOOKUPINTENTMSG_FLAG_USE_QUOTA : Z := 1.
Definition lookup_request (msg0 : LookupIntentMsg) (inInfo : LookupIntentInfoIn) : NetMessage LookupIntentMsg :=
  let parent := lin_parentEntryInfo inInfo in
  let m := match lin_entryInfo inInfo with
           | Some ei => LookupIntentMsg_initFromEntryInfo (mc_uid c) msg0 parent (lin_entryName inInfo) ei
                          (lin_metaVersion inInfo)
           | None => LookupIntentMsg_initFromName (mc_uid c) msg0 parent (lin_entryName inInfo)
           end in
  let m := LookupIntentMsg_addIntentStat m in
  let m := match lin_createInfo inInfo with
           | Some i =>
               let m := LookupIntentMsg_addIntentCreate m (ci_userID i) (ci_groupID i) (ci_mode i) (ci_umask i)
                          (ci_preferredStorageTargets i) (ci_fileEvent i) in
               if lin_isExclusiveCreate inInfo then LookupIntentMsg_addIntentCreateExclusive m else m
           | None => m
           end in
  let m := match lin_openFlags inInfo with
           | Some f => LookupIntentMsg_addIntentOpen m (mc_localNodeNumID c) f
           | None => m
           end in
  add_flag_when (mc_quotaEnabled c) LOOKUPINTENTMSG_FLAG_USE_QUOTA m.
Definition FhgfsOpsRemoting_lookupIntent (msg0 : LookupIntentMsg) (inInfo : LookupIntentInfoIn)
    (outInfo : LookupIntentInfoOut) : OpOut LookupIntentInfoOut :=
  meta_finish outInfo (meta_request (rrpeer_from_entryinfo (lin_parentEntryInfo inInfo))
    (lookup_request msg0 inInfo) NETMSGTYPE_LookupIntentResp) (fun m =>
      msg ← cast_msg K_LookupIntentResp m;
      out ← LookupIntentInfoOut_initFromRespMsg outInfo (msgBody msg);
      Some (FhgfsOpsErr_SUCCESS, out)).

(** ** Entry infos and invalidations *)

Record GetEntryInfoResult := MkGetEntryInfoResult {
  gr_result : Z; gr_pattern : StripePattern; gr_pathInfo : PathInfo; gr_rst : RemoteStorageTarget;
  gr_mirrorNodeID : Z; gr_numSessionsRead : Z; gr_numSessionsWrite : Z; gr_fileDataState : Z
}.
(** [None]: the pattern is read outside of the message. *)
Definition GetEntryInfoResult_initFromRespMsg (respMsg : GetEntryInfoRespMsg) : option GetEntryInfoResult :=
  p ← StripePattern_createFromBuf (ger_pattern respMsg);
  Some (MkGetEntryInfoResult (ger_result respMsg) p (ger_pathInfo respMsg) (ger_rst respMsg)
    (ger_mirrorNodeID respMsg) (ger_numSessionsRead respMsg) (ger_numSessionsWrite respMsg)
    (ger_fileDataState respMsg)).
Definition FhgfsOpsRemoting_GetEntryInfo (entryInfo : EntryInfo) : OpOut (option GetEntryInfoResult) :=
  meta_finish None (meta_request (rrpeer_from_entryinfo entryInfo)
    (GetEntryInfoMsg_initFromEntryInfo (mc_uid c) entryInfo) NETMSGTYPE_GetEntryInfoResp) (fun m =>
      msg ← cast_msg K_GetEntryInfoResp m;
      r ← GetEntryInfoResult_initFromRespMsg (msgBody msg);
      Some (gr_result r, Some r)).

Record ReadInvalidationsData := MkReadInvalidationsData {
  rid_errorFlags : Z; rid_numUpdates : Z; rid_inodeIds : list InodeId; rid_outReadPos : Z
}.
Definition INODEINVAL_RECV_TIMEOUT_MS : Z := 3000.
(** [None] for a response without its array. *)
Definition FhgfsOpsRemoting_readInvalidations (metaID readPos : Z) (resync : bool) : OpOut ReadInvalidationsData :=
  let requestMsg := ReadInvalidationsMsg_initFromReadPos (mc_uid c) readPos resync in
  let a := RequestResponseArgs_prepare None requestMsg NETMSGTYPE_ReadInvalidationsResp in
  let a := MkRequestResponseArgs (rr_node a) (rr_requestMsg a) (rr_respMsgType a) 1 (rr_rrFlags a)
    MessagingTkBufType_BufStore (rr_outRespBuf a) (rr_outRespMsg a) (rr_logFlags a) INODEINVAL_RECV_TIMEOUT_MS in
  let none := MkReadInvalidationsData 0 0 [] readPos in
  meta_finish none (__MessagingTk_requestResponseNodeRetry (mc_kmalloc_ok c) (mc_fresh c)
    (mc_connRetriesEnabled c) (mc_fuel c) (RRPeer_target metaID) true true rounds a) (fun m =>
      msg ← cast_msg K_ReadInvalidationsResp m;
      let r := msgBody msg in
      if READINVALIDATIONS_MAX_IDS <? rir_numUpdates r then Some (FhgfsOpsErr_INTERNAL, none)
      else
        ids ← rir_inodeIds r;
        Some (FhgfsOpsErr_SUCCESS, MkReadInvalidationsData (rir_errorFlags r) (rir_numUpdates r)
          (take (Z.to_nat (rir_numUpdates r)) ids) (rir_readPos r))).

(** ** Closing *)

Record IOSession := MkIOSession {
  io_fileHandleID : list byte;
  io_accessFlags : Z;
  io_needsAppendLockCleanup : bool;
  io_maxUsedTargetIndex : Z
}.
Definition CLOSEFILEMSG_FLAG_EARLYRESPONSE : Z := 1.
Definition CLOSEFILEMSG_FLAG_CANCELAPPENDLOCKS : Z := 2.
Definition FhgfsOpsRemoting_closefileEx (entryInfo : EntryInfo) (io : IOSession) (allowRetries : bool)
    (event : option FileEvent) : OpOut unit :=
  let requestMsg := CloseFileMsg_initFromSession (mc_uid c) (mc_localNodeNumID c) (io_fileHandleID io) entryInfo
    (io_maxUsedTargetIndex io) event in
  let requestMsg := add_flag_when (mc_tuneEarlyCloseResponse c) CLOSEFILEMSG_FLAG_EARLYRESPONSE requestMsg in
  let requestMsg := add_flag_when (io_needsAppendLockCleanup io) CLOSEFILEMSG_FLAG_CANCELAPPENDLOCKS requestMsg in
  let peer := rrpeer_from_entryinfo entryInfo in
  meta_finish tt (if allowRetries then meta_request peer requestMsg NETMSGTYPE_CloseFileResp
                  else meta_request_once peer requestMsg NETMSGTYPE_CloseFileResp) simple_result.
Definition FhgfsOpsRemoting_closefile (entryInfo : EntryInfo) (io : IOSession) (event : option FileEvent) :
    OpOut unit := FhgfsOpsRemoting_closefileEx entryInfo io true event.

Record DelayedCloseEntry := MkDelayedCloseEntry {
  dc_entryInfo : EntryInfo;
  dc_io : IOSession;
  dc_event : option FileEvent
}.
Definition InternodeSyncer_delayedCloseAdd (queue : list DelayedCloseEntry) (entryInfo : EntryInfo) (io : IOSession)
    (event : option FileEvent) : list DelayedCloseEntry := queue ++ [MkDelayedCloseEntry entryInfo io event].
(** The output is the queue after the call. *)
Definition FhgfsOpsHelper_closefileWithAsyncRetry (queue : list DelayedCloseEntry) (entryInfo : EntryInfo)
    (io : IOSession) (event : option FileEvent) : OpOut (list DelayedCloseEntry) :=
  match FhgfsOpsRemoting_closefile entryInfo io event with
  | Op_return closeRes _ events =>
      Op_return closeRes
        (if (closeRes =? FhgfsOpsErr_COMMUNICATION) || (closeRes =? FhgfsOpsErr_INTERRUPTED)
         then InternodeSyncer_delayedCloseAdd queue entryInfo io event else queue) events
  | Op_fault => Op_fault
  | Op_out_of_fuel => Op_out_of_fuel
  end.
End Operations.

(** ** Opening *)

Definition OPENFILE_ACCESS_NONBLOCKING : Z := 128.
Definition OPENFILEMSG_FLAG_USE_QUOTA : Z := 1.
Definition OPENFILEMSG_FLAG_BYPASS_ACCESS_CHECK : Z := 4.
Definition DATA_STATE_MASK : Z := 0xE0.
Definition DATA_STATE_SHIFT : Z := 5.
Definition DATASTATE_AVAILABLE : Z := 0.
Definition DATASTATE_AUTO_RESTORE : Z := 2.
Definition DATASTATE_UNAVAILABLE : Z := 4.

(** What happens during and after one attempt: [oe_timeLeft]: the time for further attempts is not
    over; [oe_signal]: a signal interrupts the sleep. *)
Record OpenEnv := MkOpenEnv {
  oe_rounds : nat -> NodeEnv;
  oe_timeLeft : bool;
  oe_signal : bool
}.

(** The attempts end without a response that is held, or with one. *)
Inductive AttemptsOut :=
| At_leave (retVal : Z) (events : list MsgEvent)
| At_response (rrArgs : RequestResponseArgs OpenFileMsg) (openResp : NetMessage OpenFileRespMsg)
    (events : list MsgEvent)
| At_fault
| At_out_of_fuel.

(** What a response that denies the access says about further attempts: [Some] is the error to give
    up with. *)
Definition open_denied (openResp : NetMessage OpenFileRespMsg) : option Z :=
  if NetMessage_isMsgHeaderCompatFeatureFlagSet (msgHeader openResp) OPENFILERESPMSG_HAS_FILESTATE then
    let dataState := Z.shiftr (Z.land (ofr_fileState (msgBody openResp)) DATA_STATE_MASK) DATA_STATE_SHIFT in
    if (dataState =? DATASTATE_AVAILABLE) || (dataState =? DATASTATE_AUTO_RESTORE) then None
    else if dataState =? DATASTATE_UNAVAILABLE then Some FhgfsOpsErr_REMOTEIO
    else Some FhgfsOpsErr_FILEACCESS_DENIED
  else Some FhgfsOpsErr_FILEACCESS_DENIED.

Record OpenInfoOut := MkOpenInfoOut {
  oo_fileHandleID : option (list byte);
  oo_pattern : option StripePattern;
  oo_pathInfo : PathInfo;
  oo_version : option Z;
  oo_closeQueue : list DelayedCloseEntry
}.

Section Open.
Context (c : MetaConfig) (entryInfo : EntryInfo) (accessFlags : Z) (event : option FileEvent).

Definition open_request : NetMessage OpenFileMsg :=
  add_flag_when (mc_bypassFileAccessCheck c) OPENFILEMSG_FLAG_BYPASS_ACCESS_CHECK
    (add_flag_when (mc_quotaEnabled c) OPENFILEMSG_FLAG_USE_QUOTA
      (OpenFileMsg_initFromSession (mc_uid c) (mc_localNodeNumID c) entryInfo accessFlags event)).

(** [O_NONBLOCK] and a timeout of zero forbid further attempts. *)
Definition open_waits : bool :=
  (Z.land accessFlags OPENFILE_ACCESS_NONBLOCKING =? 0) && (0 <? mc_tuneFileOpenRetryTimeoutMS c).

Fixpoint open_attempts (fuel : nat) (envs : nat -> OpenEnv) (events : list MsgEvent) : AttemptsOut :=
  match fuel with
  | O => At_out_of_fuel
  | S fuel' =>
      match meta_request c (oe_rounds (envs O)) (rrpeer_from_entryinfo entryInfo) open_request
              NETMSGTYPE_OpenFileResp with
      | RR_fault => At_fault
      | RR_out_of_fuel => At_out_of_fuel
      | RR_return requestRes rrArgs events' =>
          let events := events ++ events' in
          if negb (requestRes =? FhgfsOpsErr_SUCCESS) then At_leave requestRes events
          else
            match rr_outRespMsg rrArgs ≫= cast_msg K_OpenFileResp with
            | None => At_fault
            | Some openResp =>
                if (ofr_result (msgBody openResp) =? FhgfsOpsErr_FILEACCESS_DENIED) && open_waits &&
                   oe_timeLeft (envs O)
                then
                  let events := events ++ (RequestResponseArgs_freeRespBuffers rrArgs).2 in
                  match open_denied openResp with
                  | Some err => At_leave err events
                  | None =>
                      let events := events ++ [Ev_sleep (mc_tuneFileOpenRetryIntervalMS c)] in
                      if oe_signal (envs O) then At_leave FhgfsOpsErr_INTERRUPTED events
                      else open_attempts fuel' (fun i => envs (S i)) events
                  end
                else At_response rrArgs openResp events
            end
      end
  end.

(** A pattern of a file has targets. *)
Definition file_pattern_ok (p : StripePattern) : bool :=
  negb (sp_patternType p =? STRIPEPATTERN_Invalid) &&
  match getStripeTargetIDs p with Some targets => negb (zlen targets =? 0) | None => false end.

(** [pattern], [pathInfo], [maxUsedTargetIndex], [needsAppendLockCleanup]: what the I/O info of the caller
    has; [closeRounds]: what happens while a file with an invalid pattern is closed again; its
    response is still held then. *)
Definition FhgfsOpsRemoting_openfile (fuel : nat) (envs : nat -> OpenEnv) (closeRounds : nat -> NodeEnv)
    (pattern : option StripePattern) (pathInfo : PathInfo) (needsAppendLockCleanup : bool)
    (maxUsedTargetIndex : Z) (outVersion : bool) (queue : list DelayedCloseEntry) : OpOut OpenInfoOut :=
  match open_attempts fuel envs [] with
  | At_fault => Op_fault
  | At_out_of_fuel => Op_out_of_fuel
  | At_leave retVal events => Op_return retVal (MkOpenInfoOut None pattern pathInfo None queue) events
  | At_response rrArgs openResp events =>
      let r := msgBody openResp in
      let freed := (RequestResponseArgs_freeRespBuffers rrArgs).2 in
      let version := if outVersion then Some (ofr_fileVersion r) else None in
      if ofr_result r =? FhgfsOpsErr_SUCCESS then
        let pathInfo := PathInfo_update pathInfo (ofr_pathInfo r) in
        let id := ofr_fileHandleID r in
        match pattern with
        | Some _ =>
            Op_return FhgfsOpsErr_SUCCESS (MkOpenInfoOut (Some id) pattern pathInfo version queue) (events ++ freed)
        | None =>
            match StripePattern_createFromBuf (ofr_pattern r) with
            | None => Op_fault
            | Some p =>
                if file_pattern_ok p then
                  Op_return FhgfsOpsErr_SUCCESS (MkOpenInfoOut (Some id) (Some p) pathInfo version queue)
                    (events ++ freed)
                else
                  match FhgfsOpsHelper_closefileWithAsyncRetry c closeRounds queue entryInfo
                          (MkIOSession id accessFlags needsAppendLockCleanup maxUsedTargetIndex) None with
                  | Op_fault => Op_fault
                  | Op_out_of_fuel => Op_out_of_fuel
                  | Op_return _ queue closeEvents =>
                      Op_return FhgfsOpsErr_INTERNAL (MkOpenInfoOut None None pathInfo version queue)
                        (events ++ closeEvents ++ freed)
                  end
            end
        end
      else Op_return (ofr_result r) (MkOpenInfoOut None pattern pathInfo None queue) (events ++ freed)
  end.
End Open.
