(* ===== verification/MetaOpsFacts.v ===== *)
(** * Metadata operations: theorems

    What the operations make of an exchange: the class of the response, their result and outputs,
    and the resources that are given back; the attempts of an open. *)

From S2P Require Import Prelude StorageErrors Wire Serialization SerializationFacts StorageFormats StripePattern StripePatternFacts NetMessageTypes NetMessage NetMessageFacts BuddyGroup Mappers CommKit MessagesSession MessagesStorage MessagesNodes MessageFactory CommKitOps MessageFactoryFacts MessagingTk MessagingTkFacts FileHandles MetaOps.

(** A caller that holds nothing. *)
Definition idle : Proto := MkProto None false None None.

Lemma cast_own k (msg : NetMessage (kind_type k)) : cast_msg k (Some (existT k msg)) = Some msg.
Proof.
  unfold cast_msg. destruct (decide (k = k)) as [E|]; [|done].
  by rewrite (Eqdep_dec.UIP_dec (A := MsgKind) (fun x y => decide (x = y)) E eq_refl).
Qed.

(** The class that the factory has for the type of a response. *)
Lemma response_class {M} (a : RequestResponseArgs M) k :
  NetMessageFactory_createFromMsgType (rr_respMsgType a) = Some k -> out_ok a FhgfsOpsErr_SUCCESS ->
  rr_respMsgType a <> NETMSGTYPE_Invalid ->
  exists buf msg, rr_outRespBuf a = Some buf /\ rr_outRespMsg a = Some (Some (existT k msg)).
Proof.
  intros Hk Hout Hinv. unfold out_ok in Hout. rewrite Z.eqb_refl in Hout.
  destruct Hout as (buf & resp & Hb & Hm & Ht & Hc).
  destruct resp as [[k' msg]|]; cbn [some_msgType] in Ht; [|by destruct Hinv].
  cbn [class_ok] in Hc. rewrite Ht, Hk in Hc. injection Hc as <-. by exists buf, msg.
Qed.

(** What an operation makes of its exchange: it fails as the exchange fails; otherwise the response is
    an object of the class [k], and result and outputs are taken from it.  At the end nothing is
    held. *)
Definition op_fulfils {M A} (call : RROut M) (none : A) (k : MsgKind) (answer : NetMessage (kind_type k) -> Z * A)
    (o : OpOut A) : Prop :=
  match call with
  | RR_fault => o = Op_fault
  | RR_out_of_fuel => o = Op_out_of_fuel
  | RR_return ret a _ => exists evs, proto_run idle evs = Some idle /\
      if ret =? FhgfsOpsErr_SUCCESS
      then exists msg, rr_outRespMsg a = Some (Some (existT k msg)) /\
             o = Op_return (answer msg).1 (answer msg).2 evs
      else o = Op_return ret none evs
  end.

(** A request that was built by an initialiser. *)
Definition new_request {M} (m : NetMessage M) : Prop := msgSequence (msgHeader m) = 0.

Section Calls.
Context (c : MetaConfig) (rounds : nat -> NodeEnv).
Context (Hgrants : forall i, grant_ok (rounds i)).

Lemma meta_call_ok {M} `{NetMessageOps M} fuel peer (a : RequestResponseArgs M) ret a' evs :
  new_request (rr_requestMsg a) -> rr_node a = None -> rr_outRespBuf a = None -> rr_outRespMsg a = None ->
  __MessagingTk_requestResponseNodeRetry (mc_kmalloc_ok c) (mc_fresh c) (mc_connRetriesEnabled c) fuel peer true true
    rounds a = RR_return ret a' evs ->
  proto_run idle evs = Some (MkProto None (ret =? FhgfsOpsErr_SUCCESS) None None) /\
  rr_respMsgType a' = rr_respMsgType a /\ out_ok a' ret.
Proof.
  intros Hnew Hnode Hb Hm E.
  assert (Hf : fresh_request a) by done.
  destruct (node_loop_ok _ _ _ _ _ _ _ _ a _ ret a' evs Hgrants (fresh_between a Hf) E) as (Hrun & _ & Hv & Ho).
  rewrite Hnode in Hrun. unfold mode_view in Hv. by injection Hv as _ Ht _ _ _ _.
Qed.

Lemma meta_request_ok {M} `{NetMessageOps M} peer (msg : NetMessage M) respMsgType ret a evs :
  new_request msg -> meta_request c rounds peer msg respMsgType = RR_return ret a evs ->
  proto_run idle evs = Some (MkProto None (ret =? FhgfsOpsErr_SUCCESS) None None) /\
  rr_respMsgType a = respMsgType /\ out_ok a ret.
Proof.
  intros Hnew E. exact (meta_call_ok _ _ (rr_set_mode _ _ _ (RequestResponseArgs_prepare None msg respMsgType))
    _ _ _ Hnew eq_refl eq_refl eq_refl E).
Qed.

(** The events of giving the response back. *)
Lemma free_response {M} (a : RequestResponseArgs M) buf evs p :
  rr_outRespBuf a = Some buf -> proto_run idle evs = Some (MkProto None true p None) ->
  proto_run idle (evs ++ (RequestResponseArgs_freeRespBuffers a).2) = Some (MkProto None false p None).
Proof. intros Hb Hrun. rewrite (proto_run_snoc _ _ _ _ Hrun). cbn [RequestResponseArgs_freeRespBuffers snd]. by rewrite Hb. Qed.

Lemma finish_fulfils {M A} `{NetMessageOps M} fuel peer (a : RequestResponseArgs M) (none : A) k answer handle :
  new_request (rr_requestMsg a) -> rr_node a = None -> rr_outRespBuf a = None -> rr_outRespMsg a = None ->
  NetMessageFactory_createFromMsgType (rr_respMsgType a) = Some k -> rr_respMsgType a <> NETMSGTYPE_Invalid ->
  (forall msg, handle (Some (existT k msg)) = Some (answer msg)) ->
  let call := __MessagingTk_requestResponseNodeRetry (mc_kmalloc_ok c) (mc_fresh c) (mc_connRetriesEnabled c) fuel
    peer true true rounds a in
  op_fulfils call none k answer (meta_finish none call handle).
Proof.
  intros Hnew Hnode Hb Hm Hk Hinv Hh call. unfold op_fulfils, meta_finish.
  destruct call as [ret a' evs| |] eqn:E; try done.
  destruct (meta_call_ok _ _ _ _ _ _ Hnew Hnode Hb Hm E) as (Hrun & Ht & Ho).
  destruct (Z.eqb_spec ret FhgfsOpsErr_SUCCESS) as [->|Hr]; cbn [negb].
  - rewrite <- Ht in Hk, Hinv. destruct (response_class a' k Hk Ho Hinv) as (buf & msg & Eb & Em).
    exists (evs ++ (RequestResponseArgs_freeRespBuffers a').2). split; [by eapply free_response|].
    exists msg. split; [done|]. rewrite Em. cbn [mbind option_bind]. rewrite Hh. by destruct (answer msg).
  - by exists evs.
Qed.
End Calls.

Lemma new_mark {M} f e (m : NetMessage M) : new_request m -> new_request (mark_event f e m).
Proof. by destruct e. Qed.
Lemma new_flag {M} b f (m : NetMessage M) : new_request m -> new_request (add_flag_when b f m).
Proof. by destruct b. Qed.
Ltac built :=
  cbn [rr_requestMsg rr_set_mode RequestResponseArgs_prepare]; unfold MkFileMsg_initFromEntryInfo;
  repeat (case_match || apply new_flag || apply new_mark); done.

(** An operation that only returns a value of the server. *)
Notation value_of := (fun m => (sim_value (msgBody m), tt)) (only parsing).
Lemma simple_result_own msg : simple_result (Some (existT K_SimpleInt msg)) = Some (value_of msg).
Proof. unfold simple_result. by rewrite cast_own. Qed.

Ltac op_spec :=
  intros; apply finish_fulfils; try done; try (by intros msg; rewrite ?cast_own; first [done|apply simple_result_own]);
  built.

Section Operations.
Context (c : MetaConfig) (rounds : nat -> NodeEnv).
Local Notation call ei msg t := (meta_request c rounds (rrpeer_from_entryinfo ei) msg t).

(** C28: Eleven metadata operations (stat with parent information, setAttr, truncfile, mkdir, mkfile, rmdir, unlinkfile,
    rename, hardlink, getFileVersion and setXAttr) send the request of their arguments to the owner of the entry (a
    target, or a mirror group), fail with the error of the exchange, and otherwise read the
    response as an object of the class that the factory creates for the type that was waited for: no
    cast is wrong, the result is the server's, and no connection, buffer, node reference or sequence number is held at the end.
    The attributes and new entries are written only on success, the file version whenever there is a response.
    Extended attributes that are too long are refused without an exchange. *)
Theorem metadata_operations : (forall i, grant_ok (rounds i)) ->
  (forall ei parentInfo, op_fulfils
     (call ei (if parentInfo : bool then StatMsg_addParentInfoRequest (StatMsg_initFromEntryInfo (mc_uid c) ei)
               else StatMsg_initFromEntryInfo (mc_uid c) ei) NETMSGTYPE_StatResp) None K_StatResp
     (fun m => (sr_result (msgBody m),
        if sr_result (msgBody m) =? FhgfsOpsErr_SUCCESS
        then Some (StatData_getOsStat (sr_statData (msgBody m)),
               if parentInfo then Some (sr_parentNodeID (msgBody m), sr_parentEntryID (msgBody m)) else None)
        else None))
     (FhgfsOpsRemoting_statAndGetParentInfo c rounds ei parentInfo)) /\
  (forall ei attr valid ev, let owner := negb (Z.land valid 6 =? 0) in
     op_fulfils (call ei (add_flag_when (owner && mc_quotaEnabled c) SETATTRMSG_FLAG_USE_QUOTA
         (SetAttrMsg_initFromEntryInfo (mc_uid c) ei valid attr ev)) NETMSGTYPE_SetAttrResp)
       tt K_SimpleInt value_of (FhgfsOpsRemoting_setAttr c rounds ei attr valid ev)) /\
  (forall ei size ev, op_fulfils (call ei (add_flag_when (mc_quotaEnabled c) TRUNCFILEMSG_FLAG_USE_QUOTA
       (TruncFileMsg_initFromEntryInfo (mc_uid c) size ei ev)) NETMSGTYPE_TruncFileResp)
     tt K_SimpleInt value_of (FhgfsOpsRemoting_truncfile c rounds ei size ev)) /\
  (forall parent info, op_fulfils (call parent (MkDirMsg_initFromEntryInfo (mc_uid c) parent info)
       NETMSGTYPE_MkDirResp) None K_MkDirResp
     (fun m => (mdr_result (msgBody m),
        if mdr_result (msgBody m) =? FhgfsOpsErr_SUCCESS then Some (mdr_entryInfo (msgBody m)) else None))
     (FhgfsOpsRemoting_mkdir c rounds parent info)) /\
  (forall msg0 parent info out, op_fulfils (call parent (MkFileMsg_initFromEntryInfo (mc_uid c) msg0 parent info)
       NETMSGTYPE_MkFileResp) None K_MkFileResp
     (fun m => (mfr_result (msgBody m), if (mfr_result (msgBody m) =? FhgfsOpsErr_SUCCESS) && out
        then Some (mfr_entryInfo (msgBody m)) else None))
     (FhgfsOpsRemoting_mkfile c rounds msg0 parent info out)) /\
  (forall parent name ev, op_fulfils (call parent (RmDirMsg_initFromEntryInfo (mc_uid c) parent name ev)
       NETMSGTYPE_RmDirResp) tt K_SimpleInt value_of (FhgfsOpsRemoting_rmdir c rounds parent name ev)) /\
  (forall parent name ev, op_fulfils (call parent (UnlinkFileMsg_initFromEntryInfo (mc_uid c) parent name ev)
       NETMSGTYPE_UnlinkFileResp) tt K_SimpleInt value_of (FhgfsOpsRemoting_unlinkfile c rounds parent name ev)) /\
  (forall old oldLen type from new newLen to ev, op_fulfils
     (call from (RenameMsg_initFromEntryInfo (mc_uid c) old oldLen type from new newLen to ev) NETMSGTYPE_RenameResp)
     tt K_SimpleInt value_of (FhgfsOpsRemoting_rename c rounds old oldLen type from new newLen to ev)) /\
  (forall from fromLen info fromDir to toLen toDir ev, op_fulfils
     (call toDir (HardlinkMsg_initFromEntryInfo (mc_uid c) fromDir from fromLen info toDir to toLen ev)
       NETMSGTYPE_HardlinkResp)
     tt K_SimpleInt value_of (FhgfsOpsRemoting_hardlink c rounds from fromLen info fromDir to toLen toDir ev)) /\
  (forall ei, op_fulfils (call ei (GetFileVersionMsg_init (mc_uid c) ei) NETMSGTYPE_GetFileVersionResp)
     None K_GetFileVersionResp (fun m => (gfr_result (msgBody m), Some (gfr_version (msgBody m))))
     (FhgfsOpsRemoting_getFileVersion c rounds ei)) /\
  (forall ei name value size flags, strlen name <= 245 -> size <= 60000 -> op_fulfils
     (call ei (SetXAttrMsg_initFromEntryInfoNameValueAndSize (mc_uid c) ei name value size flags)
       NETMSGTYPE_SetXAttrResp) tt K_SimpleInt value_of (FhgfsOpsRemoting_setXAttr c rounds ei name value size flags)) /\
  (forall ei name value size flags, 245 < strlen name \/ 60000 < size -> exists err,
     FhgfsOpsRemoting_setXAttr c rounds ei name value size flags = Op_return err tt [] /\
     (err = FhgfsOpsErr_RANGE \/ err = FhgfsOpsErr_TOOLONG)).
Proof.
  intros Hg. split_and!; try op_spec.
  - intros ei name value size flags Hn Hs. unfold FhgfsOpsRemoting_setXAttr.
    rewrite (proj2 (Z.ltb_ge _ _)) by (unfold __FHGFSOPS_REMOTING_MAX_XATTR_NAME_SIZE; lia).
    rewrite (proj2 (Z.ltb_ge _ _)) by (unfold __FHGFSOPS_REMOTING_MAX_XATTR_VALUE_SIZE; lia). op_spec.
  - intros ei name value size flags H. unfold FhgfsOpsRemoting_setXAttr.
    destruct (Z.ltb_spec __FHGFSOPS_REMOTING_MAX_XATTR_NAME_SIZE (strlen name)) as [Hn|Hn]; [by eauto|].
    rewrite (proj2 (Z.ltb_lt _ _)); [by eauto|].
    unfold __FHGFSOPS_REMOTING_MAX_XATTR_NAME_SIZE, __FHGFSOPS_REMOTING_MAX_XATTR_VALUE_SIZE in *. lia.
Qed.
End Operations.

(** ** Opening *)

(** The answer to an attempt. *)
Inductive OpenAnswer := OA_error (err : Z) | OA_response (openResp : NetMessage OpenFileRespMsg).

Section Open.
Context (c : MetaConfig) (entryInfo : EntryInfo) (accessFlags : Z) (event : option FileEvent).
Local Notation again_possible := (open_waits c accessFlags).
Local Notation attempts := (open_attempts c entryInfo accessFlags event).

Definition answered (e : OpenEnv) (answer : OpenAnswer) : Prop :=
  exists ret a evs,
    meta_request c (oe_rounds e) (rrpeer_from_entryinfo entryInfo) (open_request c entryInfo accessFlags event)
      NETMSGTYPE_OpenFileResp = RR_return ret a evs /\
    match answer with
    | OA_error err => ret = err /\ err <> FhgfsOpsErr_SUCCESS
    | OA_response msg => ret = FhgfsOpsErr_SUCCESS /\ rr_outRespMsg a = Some (Some (existT K_OpenFileResp msg))
    end.

(** The access is denied for now, and the client may wait. *)
Definition denied (e : OpenEnv) (msg : NetMessage OpenFileRespMsg) : bool :=
  (ofr_result (msgBody msg) =? FhgfsOpsErr_FILEACCESS_DENIED) && again_possible && oe_timeLeft e.
(** The error or the result of an attempt; [None]: there is another one. *)
Definition attempt_result (e : OpenEnv) (answer : OpenAnswer) : option Z :=
  match answer with
  | OA_error err => Some err
  | OA_response msg =>
      if denied e msg then
        match open_denied msg with
        | Some err => Some err
        | None => if oe_signal e then Some FhgfsOpsErr_INTERRUPTED else None
        end
      else Some (ofr_result (msgBody msg))
  end.

(** The attempts give back everything but the response of the last one, if it is used. *)
Definition attempts_ok (e : OpenEnv) (answer : OpenAnswer) (ret : Z) (o : AttemptsOut) : Prop :=
  match o with
  | At_leave ret' evs => ret' = ret /\ ret <> FhgfsOpsErr_SUCCESS /\ proto_run idle evs = Some idle
  | At_response a msg evs => answer = OA_response msg /\ ret = ofr_result (msgBody msg) /\
      is_Some (rr_outRespBuf a) /\ proto_run idle evs = Some (MkProto None true None None)
  | _ => False
  end.

Lemma open_attempt fuel envs answer evs0 :
  (forall i, grant_ok (oe_rounds (envs O) i)) -> answered (envs O) answer -> proto_run idle evs0 = Some idle ->
  match attempt_result (envs O) answer with
  | Some ret => attempts_ok (envs O) answer ret (attempts (S fuel) envs evs0)
  | None => exists evs, attempts (S fuel) envs evs0 = attempts fuel (fun i => envs (S i)) evs /\
      proto_run idle evs = Some idle
  end.
Proof.
  intros Hg (ret & a & evs & E & Ha) Hrun0. cbn [open_attempts]. rewrite E.
  assert (Hnew : new_request (open_request c entryInfo accessFlags event)) by (unfold open_request; built).
  destruct (meta_request_ok c _ Hg _ _ _ _ _ _ Hnew E) as (Hrun & Ht & Ho).
  rewrite <- (proto_run_snoc _ _ _ _ Hrun0) in Hrun. cbv zeta.
  destruct answer as [err|msg]; cbn [attempt_result].
  - destruct Ha as [-> Hne]. rewrite (proj2 (Z.eqb_neq _ _) Hne) in *. cbn [negb attempts_ok]. done.
  - destruct Ha as [-> Hm]. rewrite Z.eqb_refl in *. cbn [negb]. rewrite Hm. cbn [mbind option_bind].
    rewrite cast_own. fold (denied (envs O) msg). unfold out_ok in Ho. rewrite Z.eqb_refl in Ho.
    destruct Ho as (buf & resp & Hb & _).
    destruct (denied (envs O) msg) eqn:Ed; [|cbn [attempts_ok]; eauto 6].
    pose proof (free_response a buf _ _ Hb Hrun) as Hfree.
    assert (Hsleep : forall ms, proto_run idle ((evs0 ++ evs) ++ (RequestResponseArgs_freeRespBuffers a).2 ++
      [Ev_sleep ms]) = Some idle).
    { intros ms. rewrite app_assoc. by rewrite (proto_run_snoc _ _ _ _ Hfree). }
    destruct (open_denied msg) as [err|] eqn:Eo.
    + cbn [attempts_ok]. split; [done|]. split; [|done]. unfold open_denied in Eo. by repeat case_match; simplify_eq.
    + destruct (oe_signal (envs O)); rewrite <- app_assoc; [cbn [attempts_ok]; done|eauto].
Qed.

Lemma open_attempts_ok n : forall fuel envs answers evs0 ret,
  (forall i j, grant_ok (oe_rounds (envs i) j)) -> (forall i, (i <= n)%nat -> answered (envs i) (answers i)) ->
  (forall i, (i < n)%nat -> attempt_result (envs i) (answers i) = None) ->
  attempt_result (envs n) (answers n) = Some ret -> (n < fuel)%nat -> proto_run idle evs0 = Some idle ->
  attempts_ok (envs n) (answers n) ret (attempts fuel envs evs0).
Proof.
  induction n as [|n IH]; intros [|fuel] envs answers evs0 ret Hg Ha Hn Hlast Hf Hrun; try lia;
    pose proof (open_attempt fuel envs (answers O) evs0 (Hg O) (Ha O ltac:(lia)) Hrun) as H.
  - by rewrite Hlast in H.
  - rewrite (Hn O ltac:(lia)) in H. destruct H as (evs & -> & Hrun').
    apply (IH fuel (fun i => envs (S i)) (fun i => answers (S i))); try done; try lia.
    + intros i Hi. apply Ha. lia.
    + intros i Hi. apply Hn. lia.
Qed.

(** Opening a file repeats the request as long as the server denies the access for now (its
    data are there or are being restored), the caller may wait, its time is not over and no signal
    comes; it ends with the first attempt for which one of these does not hold, with the error of
    the exchange, the server's result, an I/O error for data that are lost, or an interruption.
    After a success the handle ID and the version are the server's; a caller without a pattern gets
    the one of the response, which has a valid type and at least one target.  On all of these
    branches every response is given back once and before the next attempt, and nothing is held
    while waiting or at the end. *)
Theorem open_decides n fuel envs answers closeRounds pattern pathInfo appendCleanup maxUsed outVersion queue ret :
  (forall i j, grant_ok (oe_rounds (envs i) j)) -> (forall i, (i <= n)%nat -> answered (envs i) (answers i)) ->
  (forall i, (i < n)%nat -> attempt_result (envs i) (answers i) = None) ->
  attempt_result (envs n) (answers n) = Some ret -> (n < fuel)%nat ->
  let result := FhgfsOpsRemoting_openfile c entryInfo accessFlags event fuel envs closeRounds pattern pathInfo
    appendCleanup maxUsed outVersion queue in
  if ret =? FhgfsOpsErr_SUCCESS then
    exists msg, answers n = OA_response msg /\
    let r := msgBody msg in
    forall p, match pattern with Some q => Some q | None => StripePattern_createFromBuf (ofr_pattern r) end = Some p ->
      (pattern = None -> file_pattern_ok p = true) ->
      exists evs, proto_run idle evs = Some idle /\
        result = Op_return FhgfsOpsErr_SUCCESS (MkOpenInfoOut (Some (ofr_fileHandleID r)) (Some p)
          (PathInfo_update pathInfo (ofr_pathInfo r)) (if outVersion then Some (ofr_fileVersion r) else None) queue) evs
  else exists evs, proto_run idle evs = Some idle /\
    result = Op_return ret (MkOpenInfoOut None pattern pathInfo None queue) evs.
Proof.
  intros Hg Ha Hn Hlast Hf result.
  pose proof (open_attempts_ok n fuel envs answers [] ret Hg Ha Hn Hlast Hf eq_refl) as H.
  unfold attempts_ok in H. subst result. unfold FhgfsOpsRemoting_openfile.
  destruct (attempts fuel envs []) as [ret' evs|a msg evs| |]; try done.
  - destruct H as (-> & Hne & Hrun). rewrite (proj2 (Z.eqb_neq _ _) Hne). eauto.
  - destruct H as (Hmsg & -> & [buf Hb] & Hrun). pose proof (free_response a buf _ _ Hb Hrun) as Hfree. cbv zeta.
    destruct (Z.eqb_spec (ofr_result (msgBody msg)) FhgfsOpsErr_SUCCESS) as [Es|Es]; [|eauto].
    exists msg. split; [done|]. intros p Hp Hok. exists (evs ++ (RequestResponseArgs_freeRespBuffers a).2).
    split; [done|]. destruct pattern as [q|]; [by injection Hp as ->|]. rewrite Hp, Hok by done. done.
Qed.
End Open.

(** ** A response that is held too long *)

(** Whoever holds nothing starts with something for which nothing may be held. *)
Lemma held_buffer_blocks evs p n :
  evs <> [] -> proto_run idle evs = Some p -> proto_run (MkProto None true n None) evs = None.
Proof.
  destruct evs as [|ev evs]; [done|]. intros _ E. cbn [proto_run] in *.
  by destruct ev; cbn in *; rewrite ?bool_decide_false in E by done.
Qed.

(** A file that comes with an unusable pattern is closed while the response is held: the buffer of the
    close request is waited for with the buffer of the response in hand. *)
Theorem close_waits_with_buffer c entryInfo flags event fuel envs closeRounds pathInfo cleanup maxUsed version queue
    a msg evs p closeRes queue' closeEvs :
  open_attempts c entryInfo flags event fuel envs [] = At_response a msg evs ->
  proto_run idle evs = Some (MkProto None true None None) ->
  ofr_result (msgBody msg) = FhgfsOpsErr_SUCCESS ->
  StripePattern_createFromBuf (ofr_pattern (msgBody msg)) = Some p -> file_pattern_ok p = false ->
  FhgfsOpsHelper_closefileWithAsyncRetry c closeRounds queue entryInfo
    (MkIOSession (ofr_fileHandleID (msgBody msg)) flags cleanup maxUsed) None = Op_return closeRes queue' closeEvs ->
  closeEvs <> [] -> (exists q, proto_run idle closeEvs = Some q) ->
  exists out evs', FhgfsOpsRemoting_openfile c entryInfo flags event fuel envs closeRounds None pathInfo cleanup
    maxUsed version queue = Op_return FhgfsOpsErr_INTERNAL out evs' /\ proto_run idle evs' = None.
Proof.
  intros Ea Hrun Er Ep Hp Ec Hne [q Hq]. unfold FhgfsOpsRemoting_openfile. rewrite Ea, Er, Z.eqb_refl, Ep, Hp, Ec.
  eexists _, _. split; [done|]. rewrite (proto_run_snoc _ _ _ _ Hrun), proto_run_app.
  by rewrite (held_buffer_blocks closeEvs q None Hne Hq).
Qed.

(** ** Extended attributes *)

(** With a server whose sizes fit its values: the value is copied if the buffer can hold it, its size is
    returned, and a buffer that is too small is an error. *)
Lemma xattr_copies (outValue : bool) size value :
  zlen value < 2 ^ 31 ->
  xattr_result outValue size FhgfsOpsErr_SUCCESS (zlen value) value =
  Some (if outValue then
          if zlen value <=? size then (FhgfsOpsErr_SUCCESS, Some (Some value, zlen value)) else (FhgfsOpsErr_RANGE, None)
        else (FhgfsOpsErr_SUCCESS, Some (None, zlen value))).
Proof.
  intros Hl. pose proof (zlen_nonneg value) as H0. unfold xattr_result. cbn [negb Z.eqb FhgfsOpsErr_SUCCESS].
  rewrite (u64_small (zlen value)) by lia. destruct outValue; [|done]. destruct (zlen value <=? size); [|done].
  unfold read_value. rewrite Z.ltb_irrefl. cbn [mbind option_bind]. rewrite take_ge; [done|]. unfold zlen. lia.
Qed.
(** The size is a field of its own in the response, and nothing compares it with the length of the value:
    8 bytes are copied from a value of one byte. *)
Example xattr_size_unchecked : xattr_result true 64 FhgfsOpsErr_SUCCESS 8 [Byte.x61] = None.
Proof. reflexivity. Qed.

(** ** Samples *)

(** Node 1 owns the entry; [l]: the answer of its server. *)
Definition sample_owner_round (l : list byte) : NodeEnv :=
  MkNodeEnv ∅ (inr None)
    {[1 := MkCombinedTargetState TargetReachabilityState_ONLINE TargetConsistencyState_GOOD]} false (fun _ => Some 5)
    (MkRetryEnv (MkCommEnv (Some 11) false 512 (fun n => replicate (Z.to_nat n) Byte.x00) true zlen
      [Recv (take (Z.to_nat NETMSG_MIN_LENGTH) l)] [Recv (drop (Z.to_nat NETMSG_MIN_LENGTH) l)] false header0) false true).
Definition sample_meta : MetaConfig :=
  MkMetaConfig (fun _ => true) fresh0 true 3 5 0 9 false false false 1000 50.
Definition sample_dir : EntryInfo := EntryInfo_init (MkNodeOrGroup 1 false) [] [] [] 1 0.
Definition sample_answer (compat type : Z) (payload : list byte) : list byte :=
  let len := NETMSG_HEADER_LENGTH + zlen payload in
  enc_header len (MkNetMessageHeader len 0 compat 0 type 0 0 0 0) ++ payload.

(** The server refuses to remove a directory that is not empty. *)
Definition sample_notempty : nat -> NodeEnv := fun _ =>
  sample_owner_round (sample_answer 0 NETMSGTYPE_RmDirResp (le_split 4 FhgfsOpsErr_NOTEMPTY)).
Example rmdir_notempty :
  match FhgfsOpsRemoting_rmdir sample_meta sample_notempty sample_dir [] None with
  | Op_return ret _ evs => ret = FhgfsOpsErr_NOTEMPTY /\ proto_run idle evs = Some idle
  | _ => False
  end.
Proof. by vm_compute. Qed.

Lemma metadata_operations_witness :
  op_fulfils (meta_request sample_meta sample_notempty (rrpeer_from_entryinfo sample_dir)
      (RmDirMsg_initFromEntryInfo 0 sample_dir [] None) NETMSGTYPE_RmDirResp) tt K_SimpleInt value_of
    (FhgfsOpsRemoting_rmdir sample_meta sample_notempty sample_dir [] None).
Proof.
  destruct (metadata_operations sample_meta sample_notempty (fun _ => I)) as (_ & _ & _ & _ & _ & H & _).
  exact (H sample_dir [] None).
Defined.

(** The response that a call brings. *)
Definition call_gives (call : RROut OpenFileMsg) : option (NetMessage OpenFileRespMsg) :=
  match call with
  | RR_return ret a _ =>
      if ret =? FhgfsOpsErr_SUCCESS then rr_outRespMsg a ≫= cast_msg K_OpenFileResp else None
  | _ => None
  end.
Lemma cast_inv k m msg : cast_msg k m = Some msg -> m = Some (existT k msg).
Proof.
  destruct m as [[k' msg']|]; [|done]. unfold cast_msg. destruct (decide (k' = k)) as [E|]; [|done]. destruct E.
  by intros [= <-].
Qed.
Lemma call_gives_ok call msg : call_gives call = Some msg ->
  exists ret a evs, call = RR_return ret a evs /\ ret = FhgfsOpsErr_SUCCESS /\
    rr_outRespMsg a = Some (Some (existT K_OpenFileResp msg)).
Proof.
  destruct call as [ret a evs| |]; try done. cbn [call_gives].
  destruct (Z.eqb_spec ret FhgfsOpsErr_SUCCESS) as [->|]; [|done].
  intros (m & Em & E)%bind_Some. pose proof (cast_inv K_OpenFileResp m msg E) as ->. eauto 6.
Qed.

(** First the data are being restored, then the file is opened. *)
Definition sample_raid0 : StripePattern := MkStripePattern STRIPEPATTERN_Raid0 524288 (Some 1) (Raid0Pattern [101; 102] 2).
Definition sample_open_payload (result : Z) (state : list byte) : list byte :=
  le_split 4 result ++ enc_strAlign4 [Byte.x41] ++ le_split 4 0 ++ enc_pattern sample_raid0 ++ le_split 4 6 ++ state.
Definition sample_open_env (i : nat) : OpenEnv :=
  MkOpenEnv (fun _ => sample_owner_round (match i with
    | O => sample_answer 1 NETMSGTYPE_OpenFileResp (sample_open_payload FhgfsOpsErr_FILEACCESS_DENIED [Byte.x40])
    | _ => sample_answer 0 NETMSGTYPE_OpenFileResp (sample_open_payload FhgfsOpsErr_SUCCESS [])
    end)) true false.
Definition sample_open_call (i : nat) : RROut OpenFileMsg :=
  meta_request sample_meta (oe_rounds (sample_open_env i)) (rrpeer_from_entryinfo sample_dir)
    (open_request sample_meta sample_dir OPENFILE_ACCESS_READ None) NETMSGTYPE_OpenFileResp.
Definition sample_open_answer (i : nat) : NetMessage OpenFileRespMsg :=
  default (NetMessage_init 0 0 (fresh0 K_OpenFileResp)) (call_gives (sample_open_call i)).

Lemma open_decides_witness :
  exists evs, proto_run idle evs = Some idle /\
    FhgfsOpsRemoting_openfile sample_meta sample_dir OPENFILE_ACCESS_READ None 2 sample_open_env (fun _ => sample_owner_round [])
      None (PathInfo_init 0 None 0) false (-1) true [] =
    Op_return FhgfsOpsErr_SUCCESS (MkOpenInfoOut (Some [Byte.x41]) (Some sample_raid0) (PathInfo_init 0 None 0) (Some 6) []) evs.
Proof.
  assert (Ha : forall i, (i <= 1)%nat -> call_gives (sample_open_call i) = Some (sample_open_answer i)).
  { intros [|[|i]] Hi; [vm_compute; reflexivity..|lia]. }
  pose proof (open_decides sample_meta sample_dir OPENFILE_ACCESS_READ None 1 2 sample_open_env
    (fun i => OA_response (sample_open_answer i)) (fun _ => sample_owner_round []) None (PathInfo_init 0 None 0) false (-1)
    true [] FhgfsOpsErr_SUCCESS) as H.
  specialize (H (fun _ _ => I) (fun i Hi => call_gives_ok _ _ (Ha i Hi))).
  specialize (H ltac:(intros [|i] Hi; [vm_compute; reflexivity|lia]) ltac:(vm_compute; reflexivity) ltac:(lia)).
  cbv zeta in H. rewrite Z.eqb_refl in H. destruct H as (msg & Em & H).
  assert (E1 : sample_open_answer 1 = msg) by exact (f_equal (fun x => match x with OA_response m => m | _ => msg end) Em).
  rewrite <- E1 in H. clear Em E1 msg.
  destruct (H sample_raid0) as (evs & Hrun & E); [vm_compute; reflexivity|intros _; vm_compute; reflexivity|].
  exists evs. split; [exact Hrun|]. rewrite E. vm_compute. reflexivity.
Defined.
