(* ===== verification/DelayedOps.v ===== *)
(** * Operations that are repeated in the background

    Models the three queues of [components/InternodeSyncer.c] ([client_module/source]) for files that
    could not be closed and locks that could not be cancelled because of a communication error,
    and the callers that fill them ([filesystem/FhgfsOpsHelper.h]).

    The thread of the syncer walks over a queue and repeats each operation once, without retries;
    the mutex of the queue is free during the exchange, so that other threads may append entries.
    The queue is a list; the iterator is its division into the entries that were passed and the
    rest. *)

From S2P Require Import Prelude StorageErrors Wire Serialization StorageFormats NetMessageTypes NetMessage BuddyGroup Mappers CommKit MessagesSession MessagesStorage MessagesNodes MessageFactory CommKitOps MessagingTk FileHandles Acks MetaOps.

(** What happens during an iteration: [de_terminate]: the thread shall end; [de_added]: entries that are
    appended during the exchange. *)
Record DelayedEnv (E : Type) := MkDelayedEnv { de_terminate : bool; de_added : list E }.
Arguments MkDelayedEnv {E}.
Arguments de_terminate {E}.
Arguments de_added {E}.

(** The queue after a pass, the state, and the entries that were tried with their results. *)
Inductive DelayedOut (E S : Type) :=
| Dl_done (queue : list E) (s : S) (tried : list (E * Z))
| Dl_fault
| Dl_out_of_fuel.
Arguments Dl_done {E S}.
Arguments Dl_fault {E S}.
Arguments Dl_out_of_fuel {E S}.

(** [attempt i e]: the operation of entry [e] in the iteration [i]; [None]: it does not return. *)
Fixpoint delayed_loop {E S} (attempt : nat -> E -> S -> option (Z * S)) (envs : nat -> DelayedEnv E) (fuel : nat)
    (i : nat) (kept rest : list E) (s : S) (tried : list (E * Z)) : DelayedOut E S :=
  match fuel with
  | O => Dl_out_of_fuel
  | Datatypes.S fuel' =>
      match rest with
      | [] => Dl_done kept s tried
      | current :: rest' =>
          if de_terminate (envs i) then Dl_done (kept ++ rest) s tried
          else
            match attempt i current s with
            | None => Dl_fault
            | Some (res, s) =>
                let rest' := rest' ++ de_added (envs i) in
                let tried := tried ++ [(current, res)] in
                if res =? FhgfsOpsErr_COMMUNICATION
                then delayed_loop attempt envs fuel' (Datatypes.S i) (kept ++ [current]) rest' s tried
                else delayed_loop attempt envs fuel' (Datatypes.S i) kept rest' s tried
            end
      end
  end.

(** ** Closing *)

Definition delayedClose_attempt (c : MetaConfig) (rounds : nat -> nat -> NodeEnv) (i : nat) (e : DelayedCloseEntry)
    (s : unit) : option (Z * unit) :=
  match FhgfsOpsRemoting_closefileEx c (rounds i) (dc_entryInfo e) (dc_io e) false (dc_event e) with
  | Op_return closeRes _ _ => Some (closeRes, s)
  | _ => None
  end.
Definition __InternodeSyncer_delayedCloseComm (c : MetaConfig) (rounds : nat -> nat -> NodeEnv)
    (envs : nat -> DelayedEnv DelayedCloseEntry) (fuel : nat) (queue : list DelayedCloseEntry) :
    DelayedOut DelayedCloseEntry unit :=
  delayed_loop (delayedClose_attempt c rounds) envs fuel O [] queue tt [].

(** ** Cancelling locks *)

Definition ENTRYLOCKTYPE_CANCEL : Z := 16.
Record DelayedEntryUnlockEntry := MkDelayedEntryUnlockEntry {
  du_entryInfo : EntryInfo;
  du_fileHandleID : list byte;
  du_clientFD : Z
}.
Record DelayedRangeUnlockEntry := MkDelayedRangeUnlockEntry {
  dr_entryInfo : EntryInfo;
  dr_fileHandleID : list byte;
  dr_ownerPID : Z
}.
Definition InternodeSyncer_delayedEntryUnlockAdd (queue : list DelayedEntryUnlockEntry) (entryInfo : EntryInfo)
    (fileHandleID : list byte) (clientFD : Z) : list DelayedEntryUnlockEntry :=
  queue ++ [MkDelayedEntryUnlockEntry entryInfo fileHandleID clientFD].
Definition InternodeSyncer_delayedRangeUnlockAdd (queue : list DelayedRangeUnlockEntry) (entryInfo : EntryInfo)
    (fileHandleID : list byte) (ownerPID : Z) : list DelayedRangeUnlockEntry :=
  queue ++ [MkDelayedRangeUnlockEntry entryInfo fileHandleID ownerPID].

(** The end of the range: [~0ULL]. *)
Definition RANGE_END : Z := 2 ^ 64 - 1.
(** The entry info of every request of a call is that of the queue entry. *)
Definition with_entry (ei : EntryInfo) (envs : nat -> FlockEnv) : nat -> FlockEnv := fun i =>
  let e := envs i in
  MkFlockEnv ei (fk_rounds e) (fk_grants_before e) (fk_grants_wait e) (fk_signal e) (fk_grants_late e).

Section Unlock.
Context (flockFuel : nat) (c : FlockConfig) (envs : nat -> nat -> FlockEnv) (kasprintf : nat -> bool).
Definition delayedEntryUnlock_attempt (i : nat) (e : DelayedEntryUnlockEntry) (app : LockApp) : option (Z * LockApp) :=
  match FhgfsOpsRemoting_flockEntryEx flockFuel c (with_entry (du_entryInfo e) (envs i)) false (kasprintf i)
          (du_fileHandleID e) (du_clientFD e) 0 ENTRYLOCKTYPE_CANCEL false app with
  | Flock_return unlockRes app _ => Some (unlockRes, app)
  | _ => None
  end.
Definition delayedRangeUnlock_attempt (i : nat) (e : DelayedRangeUnlockEntry) (app : LockApp) : option (Z * LockApp) :=
  match FhgfsOpsRemoting_flockRangeEx flockFuel c (with_entry (dr_entryInfo e) (envs i)) false (kasprintf i)
          (dr_fileHandleID e) (dr_ownerPID e) ENTRYLOCKTYPE_CANCEL 0 RANGE_END false app with
  | Flock_return unlockRes app _ => Some (unlockRes, app)
  | _ => None
  end.
Definition __InternodeSyncer_delayedEntryUnlockComm (denvs : nat -> DelayedEnv DelayedEntryUnlockEntry) (fuel : nat)
    (queue : list DelayedEntryUnlockEntry) (app : LockApp) : DelayedOut DelayedEntryUnlockEntry LockApp :=
  delayed_loop delayedEntryUnlock_attempt denvs fuel O [] queue app [].
Definition __InternodeSyncer_delayedRangeUnlockComm (denvs : nat -> DelayedEnv DelayedRangeUnlockEntry) (fuel : nat)
    (queue : list DelayedRangeUnlockEntry) (app : LockApp) : DelayedOut DelayedRangeUnlockEntry LockApp :=
  delayed_loop delayedRangeUnlock_attempt denvs fuel O [] queue app [].

(** The callers: a cancellation that fails is queued ([envs O] happens during the call).  The result of the call,
    the state and the queue. *)
Definition is_retried (unlockRes : Z) : bool :=
  (unlockRes =? FhgfsOpsErr_COMMUNICATION) || (unlockRes =? FhgfsOpsErr_INTERRUPTED).
Definition FhgfsOpsHelper_unlockEntryWithAsyncRetry (entryInfo : EntryInfo) (eiRLock : bool) (fileHandleID : list byte)
    (clientFD : Z) (queue : list DelayedEntryUnlockEntry) (app : LockApp) :
    option (Z * LockApp * list DelayedEntryUnlockEntry) :=
  match FhgfsOpsRemoting_flockEntryEx flockFuel c (envs O) eiRLock (kasprintf O) fileHandleID clientFD 0
          ENTRYLOCKTYPE_CANCEL true app with
  | Flock_return unlockRes app _ =>
      Some (unlockRes, app, if is_retried unlockRes
        then InternodeSyncer_delayedEntryUnlockAdd queue entryInfo fileHandleID clientFD else queue)
  | _ => None
  end.
Definition FhgfsOpsHelper_unlockRangeWithAsyncRetry (entryInfo : EntryInfo) (eiRLock : bool) (fileHandleID : list byte)
    (ownerPID : Z) (queue : list DelayedRangeUnlockEntry) (app : LockApp) :
    option (Z * LockApp * list DelayedRangeUnlockEntry) :=
  match FhgfsOpsRemoting_flockRangeEx flockFuel c (envs O) eiRLock (kasprintf O) fileHandleID ownerPID
          ENTRYLOCKTYPE_CANCEL 0 RANGE_END true app with
  | Flock_return unlockRes app _ =>
      Some (unlockRes, app, if is_retried unlockRes
        then InternodeSyncer_delayedRangeUnlockAdd queue entryInfo fileHandleID ownerPID else queue)
  | _ => None
  end.
End Unlock.
