(* ===== verification/DelayedOpsFacts.v ===== *)
(** * Operations that are repeated in the background: theorems

    What a pass over a queue leaves in it, and an error that is not repeated. *)

From S2P Require Import Prelude StorageErrors Wire Serialization SerializationFacts StorageFormats StripePattern StripePatternFacts NetMessageTypes NetMessage NetMessageFacts BuddyGroup Mappers CommKit MessagesSession MessagesStorage MessagesNodes MessageFactory CommKitOps MessageFactoryFacts MessagingTk MessagingTkFacts FileHandles Acks MetaOps MetaOpsFacts DelayedOps.

Section Pass.
Context {E S : Type} (P : E -> Prop) (attempt : nat -> E -> S -> option (Z * S)) (envs : nat -> DelayedEnv E).

(** The entries whose operation failed because of the communication. *)
Definition comm_failed (x : E * Z) : bool := x.2 =? FhgfsOpsErr_COMMUNICATION.
(** The entries that were appended during the iterations [i .. i + n - 1]. *)
Fixpoint added (i n : nat) : list E :=
  match n with O => [] | Datatypes.S n' => de_added (envs i) ++ added (Datatypes.S i) n' end.

Lemma added_none i n : (forall j, (i <= j)%nat -> de_added (envs j) = []) -> added i n = [].
Proof. revert i. induction n as [|n IH]; intros i H; cbn [added]; [done|]. rewrite H, IH by (intros; try apply H; lia). done. Qed.
Lemma added_bound N n : forall i, (forall j, (N <= j)%nat -> de_added (envs j) = []) -> (i <= N)%nat ->
  (length (added i n) <= length (added i (N - i)))%nat.
Proof.
  induction n as [|n IH]; intros i H Hi; [cbn; lia|]. destruct (decide (i = N)) as [->|Hne].
  - rewrite added_none by done. cbn. lia.
  - replace (N - i)%nat with (Datatypes.S (N - Datatypes.S i)) by lia. cbn [added]. rewrite !length_app.
    specialize (IH (Datatypes.S i) H ltac:(lia)). lia.
Qed.

Lemma delayed_loop_pass N : forall fuel i kept rest s tried,
  (forall j e s, P e -> is_Some (attempt j e s)) -> (forall j, de_terminate (envs j) = false) ->
  (forall j, (N <= j)%nat -> de_added (envs j) = []) -> Forall P rest -> (forall j, Forall P (de_added (envs j))) ->
  (length rest + length (added i (N - i)) < fuel)%nat ->
  exists s' new, delayed_loop attempt envs fuel i kept rest s tried =
    Dl_done (kept ++ (List.filter comm_failed new).*1) s' (tried ++ new) /\
    new.*1 = rest ++ added i (length new).
Proof.
  induction fuel as [|fuel IH]; intros i kept rest s tried Ha Ht Hadd HP HPa Hf; [lia|]. cbn [delayed_loop].
  destruct rest as [|cur rest].
  { exists s, []. cbn. by rewrite !app_nil_r. }
  apply Forall_cons_1 in HP as [Hcur HP]. rewrite Ht. destruct (Ha i cur s Hcur) as [[res s'] ->]. cbv zeta.
  assert (Hf' : (length (rest ++ de_added (envs i)) + length (added (Datatypes.S i) (N - Datatypes.S i)) < fuel)%nat).
  { rewrite length_app. cbn [length] in Hf. destruct (decide (N <= i)%nat) as [Hle|Hlt].
    - rewrite Hadd by done. replace (N - Datatypes.S i)%nat with O by lia. cbn. lia.
    - replace (N - i)%nat with (Datatypes.S (N - Datatypes.S i)) in Hf by lia. cbn [added] in Hf.
      rewrite length_app in Hf. lia. }
  destruct (IH (Datatypes.S i) (if res =? FhgfsOpsErr_COMMUNICATION then kept ++ [cur] else kept) (rest ++ de_added (envs i)) s'
    (tried ++ [(cur, res)]) Ha Ht Hadd ltac:(by apply Forall_app_2) HPa Hf') as (s2 & new & E2 & Hnew).
  exists s2, ((cur, res) :: new). split.
  - cbn [List.filter]. unfold comm_failed at 1. cbn [snd].
    destruct (res =? FhgfsOpsErr_COMMUNICATION); rewrite E2, <- ?app_assoc; done.
  - cbn [fmap list_fmap fst length added]. change (list_fmap _ _ fst new) with (new.*1). rewrite Hnew.
    by rewrite <- app_assoc.
Qed.

Lemma delayed_pass N fuel queue s :
  (forall j e s, P e -> is_Some (attempt j e s)) -> (forall j, de_terminate (envs j) = false) ->
  (forall j, (N <= j)%nat -> de_added (envs j) = []) -> Forall P queue -> (forall j, Forall P (de_added (envs j))) ->
  (length queue + length (added O N) < fuel)%nat ->
  exists s' tried, delayed_loop attempt envs fuel O [] queue s [] =
    Dl_done (List.filter comm_failed tried).*1 s' tried /\ tried.*1 = queue ++ added O (length tried).
Proof.
  intros Ha Ht Hadd HP HPa Hf. apply (delayed_loop_pass N fuel O [] queue s []); try done. by rewrite Nat.sub_0_r.
Qed.
End Pass.

(** The exchange of an entry ends, with any result. *)
Definition close_returns (c : MetaConfig) (rounds : nat -> nat -> NodeEnv) (e : DelayedCloseEntry) : Prop :=
  forall i, exists res evs,
    FhgfsOpsRemoting_closefileEx c (rounds i) (dc_entryInfo e) (dc_io e) false (dc_event e) = Op_return res tt evs.

(** C29: A pass of the thread over the files that could not be closed ends, if the thread is not asked to terminate, each exchange ends and files are no longer
    queued from some iteration on: it tries every file that is in the queue, and every file that is
    queued meanwhile, exactly once and in order, and afterwards the queue holds exactly those whose
    close failed with a communication error, in order.  A close that ended with any other result, also one that timed
    out, is not tried again ([timed_out_close_is_dropped]). *)
Theorem delayed_close_pass c rounds envs N fuel queue :
  Forall (close_returns c rounds) queue -> (forall j, Forall (close_returns c rounds) (de_added (envs j))) ->
  (forall j, de_terminate (envs j) = false) -> (forall j, (N <= j)%nat -> de_added (envs j) = []) ->
  (length queue + length (added envs O N) < fuel)%nat ->
  exists tried, __InternodeSyncer_delayedCloseComm c rounds envs fuel queue =
    Dl_done (List.filter comm_failed tried).*1 tt tried /\ tried.*1 = queue ++ added envs O (length tried).
Proof.
  intros Hq Ha Ht Hadd Hf.
  destruct (delayed_pass (close_returns c rounds) (delayedClose_attempt c rounds) envs N fuel queue tt)
    as ([] & tried & E & Htr); eauto.
  intros j e [] Hr. destruct (Hr j) as (res & evs & E). unfold delayedClose_attempt. rewrite E. by eexists.
Qed.

(** ** A close that times out *)

(** The request reaches the server, the answer does not come. *)
Definition silent_round : NodeEnv :=
  MkNodeEnv ∅ (inr None)
    {[1 := MkCombinedTargetState TargetReachabilityState_ONLINE TargetConsistencyState_GOOD]} false (fun _ => Some 5)
    (MkRetryEnv (MkCommEnv (Some 11) false 512 (fun n => replicate (Z.to_nat n) Byte.x00) true zlen
      [RecvErr 110] [] false header0) false true).
Definition sample_close : IOSession := MkIOSession [Byte.x41] OPENFILE_ACCESS_READ false (-1).

(** A close that times out is neither queued by its caller nor kept by the thread that repeats it: both only
    look for [FhgfsOpsErr_COMMUNICATION], and a time-out is reported as an error of its own. *)
Example timed_out_close_is_dropped :
  (match FhgfsOpsHelper_closefileWithAsyncRetry sample_meta (fun _ => silent_round) [] sample_dir sample_close None with
   | Op_return ret queue _ => ret = FhgfsOpsErr_COMMTIMEDOUT /\ queue = []
   | _ => False
   end) /\
  match __InternodeSyncer_delayedCloseComm sample_meta (fun _ _ => silent_round) (fun _ => MkDelayedEnv false [])
          5 [MkDelayedCloseEntry sample_dir sample_close None] with
  | Dl_done queue _ tried => queue = [] /\ tried.*2 = [FhgfsOpsErr_COMMTIMEDOUT]
  | _ => False
  end.
Proof. by vm_compute. Qed.

(** Two files are queued and a third one comes during the first exchange; the server cannot be reached for the
    first one. *)
Definition cut_round : NodeEnv :=
  MkNodeEnv ∅ (inr None)
    {[1 := MkCombinedTargetState TargetReachabilityState_ONLINE TargetConsistencyState_GOOD]} false (fun _ => Some 5)
    (MkRetryEnv (MkCommEnv None false 512 (fun n => replicate (Z.to_nat n) Byte.x00) true zlen
      [] [] false header0) false true).
Definition sample_pass_rounds (i : nat) : nat -> NodeEnv := fun _ => if (i =? 0)%nat then cut_round else silent_round.
Definition sample_pass_env (i : nat) : DelayedEnv DelayedCloseEntry :=
  MkDelayedEnv false (if (i =? 0)%nat then [MkDelayedCloseEntry sample_dir sample_close None] else []).
Definition sample_queue : list DelayedCloseEntry := replicate 2 (MkDelayedCloseEntry sample_dir sample_close None).

Lemma sample_close_returns : close_returns sample_meta sample_pass_rounds (MkDelayedCloseEntry sample_dir sample_close None).
Proof.
  intros [|i].
  - destruct (FhgfsOpsRemoting_closefileEx sample_meta (sample_pass_rounds 0) sample_dir sample_close false None)
      as [res [] evs| |] eqn:E; [by eauto|vm_compute in E; done..].
  - change (sample_pass_rounds (Datatypes.S i)) with (fun _ : nat => silent_round).
    destruct (FhgfsOpsRemoting_closefileEx sample_meta (fun _ => silent_round) sample_dir sample_close false None)
      as [res [] evs| |] eqn:E; [by eauto|vm_compute in E; done..].
Qed.
Lemma delayed_close_pass_witness :
  exists tried, __InternodeSyncer_delayedCloseComm sample_meta sample_pass_rounds sample_pass_env 4 sample_queue =
    Dl_done (List.filter comm_failed tried).*1 tt tried /\
    tried.*1 = sample_queue ++ added sample_pass_env O (length tried) /\ length tried = 3%nat.
Proof.
  destruct (delayed_close_pass sample_meta sample_pass_rounds sample_pass_env 1 4 sample_queue) as (tried & E & Ht).
  - repeat constructor; apply sample_close_returns.
  - intros [|j]; repeat constructor. apply sample_close_returns.
  - done.
  - intros [|j] Hj; [lia|done].
  - vm_compute. lia.
  - exists tried. split_and!; [done|done|].
    assert (H : match __InternodeSyncer_delayedCloseComm sample_meta sample_pass_rounds sample_pass_env 4 sample_queue with
                | Dl_done _ _ t => length t = 3%nat | _ => False end) by (by vm_compute).
    by rewrite E in H.
Defined.
