(* ===== verification/HashTk.v ===== *)
(** * Hashes and inode numbers

    Models [common/toolkit/HashTk.c] ([client_module/source]), the conversion of directory entry types
    ([os/OsTypeConversion.h]), and the inode numbers that are computed from entry IDs
    ([filesystem/FhgfsInode.c]).

    Data is read from a memory object [mem] at an offset; a read outside of the object is a fault
    ([None]).  The byte order is little endian; whether a [char] has a sign depends on the flags of
    the compiler ([char_signed]). *)

From S2P Require Import Prelude StorageErrors StorageFormats.

Section Memory.
Context (char_signed : bool) (mem : list byte).

Definition get16bits (d : Z) : option Z := bs ← load mem d 2; Some (le_combine bs).
Definition get_signed_char (d : Z) : option Z := bs ← load mem d 1; Some (s8 (le_combine bs)).
Definition get_char (d : Z) : option Z :=
  bs ← load mem d 1; Some (if char_signed then s8 (le_combine bs) else le_combine bs).

(** ** Half MD4 *)

Definition F (x y z : Z) : Z := Z.lxor z (Z.land x (Z.lxor y z)).
Definition G (x y z : Z) : Z := u32 (Z.land x y + Z.land (Z.lxor x y) z).
Definition H (x y z : Z) : Z := Z.lxor (Z.lxor x y) z.
Definition rol32 (word shift : Z) : Z :=
  u32 (Z.lor (Z.shiftl word shift) (Z.shiftr word (32 - shift))).
Definition ROUND (f : Z -> Z -> Z -> Z) (a b c d x s : Z) : Z := rol32 (u32 (a + (f b c d + x))) s.
Definition K1 : Z := 0.
Definition K2 : Z := 0x5A827999.
Definition K3 : Z := 0x6ED9EBA1.

(** The four words of the state. *)
Definition Md4State : Type := Z * Z * Z * Z.

Definition md4_round1 (w : nat -> Z) (s : Md4State) : Md4State :=
  let '(a, b, c, d) := s in
  let a := ROUND F a b c d (w 0%nat + K1) 3 in
  let d := ROUND F d a b c (w 1%nat + K1) 7 in
  let c := ROUND F c d a b (w 2%nat + K1) 11 in
  let b := ROUND F b c d a (w 3%nat + K1) 19 in
  let a := ROUND F a b c d (w 4%nat + K1) 3 in
  let d := ROUND F d a b c (w 5%nat + K1) 7 in
  let c := ROUND F c d a b (w 6%nat + K1) 11 in
  let b := ROUND F b c d a (w 7%nat + K1) 19 in
  (a, b, c, d).
Definition md4_round2 (w : nat -> Z) (s : Md4State) : Md4State :=
  let '(a, b, c, d) := s in
  let a := ROUND G a b c d (w 1%nat + K2) 3 in
  let d := ROUND G d a b c (w 3%nat + K2) 5 in
  let c := ROUND G c d a b (w 5%nat + K2) 9 in
  let b := ROUND G b c d a (w 7%nat + K2) 13 in
  let a := ROUND G a b c d (w 0%nat + K2) 3 in
  let d := ROUND G d a b c (w 2%nat + K2) 5 in
  let c := ROUND G c d a b (w 4%nat + K2) 9 in
  let b := ROUND G b c d a (w 6%nat + K2) 13 in
  (a, b, c, d).
Definition md4_round3 (w : nat -> Z) (s : Md4State) : Md4State :=
  let '(a, b, c, d) := s in
  let a := ROUND H a b c d (w 3%nat + K3) 3 in
  let d := ROUND H d a b c (w 7%nat + K3) 9 in
  let c := ROUND H c d a b (w 2%nat + K3) 11 in
  let b := ROUND H b c d a (w 6%nat + K3) 15 in
  let a := ROUND H a b c d (w 1%nat + K3) 3 in
  let d := ROUND H d a b c (w 5%nat + K3) 9 in
  let c := ROUND H c d a b (w 0%nat + K3) 11 in
  let b := ROUND H b c d a (w 4%nat + K3) 15 in
  (a, b, c, d).
(** The new state; its second word is the value that the function returns. *)
Definition half_md4_transform (buf : Md4State) (inb : list Z) : Md4State :=
  let w (i : nat) : Z := nth i inb 0 in
  let '(a, b, c, d) := md4_round3 w (md4_round2 w (md4_round1 w buf)) in
  let '(a0, b0, c0, d0) := buf in
  (u32 (a0 + a), u32 (b0 + b), u32 (c0 + c), u32 (d0 + d)).

(** The loop over the characters [i .. i + n - 1]: the current word, the stored words, and the number of
    words that are left. *)
Fixpoint hashbuf_loop (pad msg : Z) (n : nat) (i val : Z) (buf : list Z) (num : Z) : option (Z * list Z * Z) :=
  match n with
  | O => Some (val, buf, num)
  | S n' =>
      let val := if i mod 4 =? 0 then pad else val in
      c ← get_signed_char (msg + i);
      let val := u32 (c + Z.shiftl val 8) in
      if i mod 4 =? 3 then hashbuf_loop pad msg n' (i + 1) pad (buf ++ [val]) (num - 1)
      else hashbuf_loop pad msg n' (i + 1) val buf num
  end.
Definition HashTk_string2HashBufSigned (msg len num : Z) : option (list Z) :=
  let pad := Z.lor (u32 len) (u32 (Z.shiftl (u32 len) 8)) in
  let pad := Z.lor pad (u32 (Z.shiftl pad 16)) in
  let len := if num * 4 <? len then num * 4 else len in
  '(val, buf, num) ← hashbuf_loop pad msg (Z.to_nat len) 0 pad [] num;
  let num := num - 1 in
  Some (if 0 <=? num then buf ++ val :: replicate (Z.to_nat num) pad else buf).

Definition Hashtk_HALFMD4_IN_BUF_SIZE : Z := 8.
Definition HashTk_INT_BYTES : Z := 4.
(** Each round takes 32 characters, so [len] rounds are enough. *)
Fixpoint halfMD4_loop (fuel : nat) (len remainingLen dataPtr : Z) (outBuf : Md4State) : option Md4State :=
  if remainingLen <=? 0 then Some outBuf
  else
    match fuel with
    | O => None
    | S fuel' =>
        inBuf ← HashTk_string2HashBufSigned dataPtr len Hashtk_HALFMD4_IN_BUF_SIZE;
        let maxMD4StrLen := Hashtk_HALFMD4_IN_BUF_SIZE * HashTk_INT_BYTES in
        halfMD4_loop fuel' len (remainingLen - maxMD4StrLen) (dataPtr + maxMD4StrLen)
          (half_md4_transform outBuf inBuf)
    end.
Definition HashTk_halfMD4 (data len : Z) : option Md4State :=
  halfMD4_loop (Z.to_nat len) len len data (0x67452301, 0xefcdab89, 0x98badcfe, 0x10325476).

(** ** Hsieh's hash *)

Fixpoint hsieh_loop (n : nat) (data hash : Z) : option (Z * Z) :=
  match n with
  | O => Some (data, hash)
  | S n' =>
      w0 ← get16bits data;
      w1 ← get16bits (data + 2);
      let hash := u32 (hash + w0) in
      let tmp := Z.lxor (Z.shiftl w1 11) hash in
      let hash := Z.lxor (u32 (Z.shiftl hash 16)) tmp in
      hsieh_loop n' (data + 4) (u32 (hash + Z.shiftr hash 11))
  end.
Definition hsieh_end (rem data hash : Z) : option Z :=
  if rem =? 3 then
    w ← get16bits data;
    c ← get_char (data + 2);
    let hash := u32 (hash + w) in
    let hash := Z.lxor hash (u32 (Z.shiftl hash 16)) in
    let hash := Z.lxor hash (u32 (Z.shiftl c 18)) in
    Some (u32 (hash + Z.shiftr hash 11))
  else if rem =? 2 then
    w ← get16bits data;
    let hash := u32 (hash + w) in
    let hash := Z.lxor hash (u32 (Z.shiftl hash 11)) in
    Some (u32 (hash + Z.shiftr hash 17))
  else if rem =? 1 then
    c ← get_char data;
    let hash := u32 (hash + c) in
    let hash := Z.lxor hash (u32 (Z.shiftl hash 10)) in
    Some (u32 (hash + Z.shiftr hash 1))
  else Some hash.
Definition hsieh_avalanche (hash : Z) : Z :=
  let hash := Z.lxor hash (u32 (Z.shiftl hash 3)) in
  let hash := u32 (hash + Z.shiftr hash 5) in
  let hash := Z.lxor hash (u32 (Z.shiftl hash 4)) in
  let hash := u32 (hash + Z.shiftr hash 17) in
  let hash := Z.lxor hash (u32 (Z.shiftl hash 25)) in
  u32 (hash + Z.shiftr hash 6).
Definition HashTk_HsiehHash32 (data len : Z) : option Z :=
  if len <=? 0 then Some 0
  else
    let rem := Z.land len 3 in
    '(data, hash) ← hsieh_loop (Z.to_nat (Z.shiftr len 2)) data (u32 len);
    hash ← hsieh_end rem data hash;
    Some (hsieh_avalanche hash).

(** ** Choice of the hash

    An unknown type is Hsieh's hash: the default that is assigned is not looked at. *)
Definition HASHTK_HSIEHHASH32 : Z := 0.
Definition HASHTK_HALFMD4 : Z := 1.
Definition HashTk_hash32 (hashType data len : Z) : option Z :=
  if hashType =? HASHTK_HALFMD4 then '(_, majHash, _, _) ← HashTk_halfMD4 data len; Some majHash
  else HashTk_HsiehHash32 data len.
Definition HashTk_hash64 (hashType data len : Z) : option Z :=
  if hashType =? HASHTK_HALFMD4 then
    '(_, majHash, minHash, _) ← HashTk_halfMD4 data len; Some (Z.lor (Z.shiftl majHash 32) minHash)
  else
    let len1stHalf := Z.quot len 2 in
    let len2ndHalf := len - len1stHalf in
    high ← HashTk_HsiehHash32 data len1stHalf;
    low ← HashTk_HsiehHash32 (data + len1stHalf) len2ndHalf;
    Some (Z.lor (Z.shiftl high 32) low).
Definition HashTk_hash (hashType hashSize data len : Z) : option Z :=
  if hashSize =? 64 then HashTk_hash64 hashType data len else HashTk_hash32 hashType data len.

(** ** Inode numbers *)

Definition INODEIDSTYLE_Hash32Hsieh : Z := 0.
Definition INODEIDSTYLE_Hash32MD4 : Z := 1.
Definition INODEIDSTYLE_Hash64HSieh : Z := 2.
Definition INODEIDSTYLE_Hash64MD4 : Z := 3.
Definition BEEGFS_INODE_ROOT_INO : Z := 2.
Definition BEEGFS_INODE_MAXRESERVED_INO : Z := BEEGFS_INODE_ROOT_INO.

(** A reserved number is replaced by the hash with the terminating zero. *)
Definition above_reserved (hash : Z -> option Z) (len : Z) : option Z :=
  hashRes ← hash len;
  if hashRes <=? BEEGFS_INODE_MAXRESERVED_INO then hash (len + 1) else Some hashRes.
(** The entry ID is the string at the start of [mem]; [ino64]: an [ino_t] has 64 bits. *)
Definition FhgfsInode_generateInodeID (ino64 : bool) (inodeIDStyle entryIDLen : Z) : option Z :=
  let hashBits := if ino64 then 64 else 32 in
  if inodeIDStyle =? INODEIDSTYLE_Hash64HSieh then
    above_reserved (fun len => HashTk_hash HASHTK_HSIEHHASH32 hashBits 0 len) entryIDLen
  else if inodeIDStyle =? INODEIDSTYLE_Hash64MD4 then
    above_reserved (fun len => HashTk_hash HASHTK_HALFMD4 hashBits 0 len) entryIDLen
  else if inodeIDStyle =? INODEIDSTYLE_Hash32MD4 then
    above_reserved (fun len => HashTk_hash32 HASHTK_HALFMD4 0 len) entryIDLen
  else above_reserved (fun len => HashTk_hash32 HASHTK_HSIEHHASH32 0 len) entryIDLen.
End Memory.

(** ** Authentication hash *)

(** What the crypto interface of the kernel does. *)
Record Sha256Env := MkSha256Env {
  sh_alloc : bool;
  sh_kmalloc : bool;
  sh_digest : list byte -> Z * list byte
}.
(** The result and the 32 bytes of the output buffer ([garbage] before the call). *)
Definition HashTk_sha256 (e : Sha256Env) (garbage data : list byte) : Z * list byte :=
  if negb (sh_alloc e) then (-1, garbage)
  else if negb (sh_kmalloc e) then (- ENOMEM, garbage)
  else sh_digest e data.
(** [None]: [outHash] is not written. *)
Definition HashTk_authHash (e : Sha256Env) (garbage data : list byte) : Z * option Z :=
  let '(res, buf) := HashTk_sha256 e garbage data in
  if negb (res =? 0) then (res, None)
  else
    (0, Some (fold_left (fun out i => u64 (u64 (Z.shiftl out 8) + byte.unsigned (nth i buf Byte.x00)))
           [7; 6; 5; 4; 3; 2; 1; 0]%nat 0)).

(** ** Entry types *)

Definition DirEntryType_REGULARFILE : Z := 2.
Definition DirEntryType_SYMLINK : Z := 3.
Definition DirEntryType_BLOCKDEV : Z := 4.
Definition DirEntryType_CHARDEV : Z := 5.
Definition DirEntryType_FIFO : Z := 6.
Definition DirEntryType_SOCKET : Z := 7.
Definition DT_UNKNOWN : Z := 0.
Definition DT_FIFO : Z := 1.
Definition DT_CHR : Z := 2.
Definition DT_DIR : Z := 4.
Definition DT_BLK : Z := 6.
Definition DT_REG : Z := 8.
Definition DT_LNK : Z := 10.
Definition DT_SOCK : Z := 12.
Definition OsTypeConv_dirEntryTypeToOS (entryType : Z) : Z :=
  if entryType =? DirEntryType_DIRECTORY then DT_DIR
  else if entryType =? DirEntryType_REGULARFILE then DT_REG
  else if entryType =? DirEntryType_SYMLINK then DT_LNK
  else if entryType =? DirEntryType_BLOCKDEV then DT_BLK
  else if entryType =? DirEntryType_CHARDEV then DT_CHR
  else if entryType =? DirEntryType_FIFO then DT_FIFO
  else if entryType =? DirEntryType_SOCKET then DT_SOCK
  else DT_UNKNOWN.
