(* ===== verification/HashTkFacts.v ===== *)
(** * Hashes and inode numbers: theorems

    Which memory the hashes read, the range of inode numbers, and what they depend on. *)

From S2P Require Import Prelude StorageErrors HashTk.

Section Reads.
Context (mem : list byte).

Lemma get16bits_in d : 0 <= d -> d + 2 <= zlen mem -> is_Some (get16bits mem d).
Proof. intros. unfold get16bits. rewrite load_in by lia. by eexists. Qed.
Lemma get_char_in cs d : 0 <= d -> d + 1 <= zlen mem -> is_Some (get_char cs mem d).
Proof. intros. unfold get_char. rewrite load_in by lia. by eexists. Qed.
Lemma get_signed_char_reads d : 0 <= d -> is_Some (get_signed_char mem d) <-> d + 1 <= zlen mem.
Proof.
  intros Hd. unfold get_signed_char, load.
  destruct (Z.leb_spec (d + 1) (zlen mem)); rewrite ?(proj2 (Z.leb_le 0 d)) by done; cbn; split; intros Hs; try lia.
  - by eexists.
  - by destruct Hs.
Qed.

Lemma hashbuf_reads pad msg n : forall i val buf num, 0 <= msg + i ->
  is_Some (hashbuf_loop mem pad msg n i val buf num) <-> n = O \/ msg + i + Z.of_nat n <= zlen mem.
Proof.
  induction n as [|n IH]; intros i val buf num Hi; cbn [hashbuf_loop].
  { split; [by left|by eexists]. }
  destruct (get_signed_char_reads (msg + i) Hi) as [Hin Hout].
  destruct (get_signed_char mem (msg + i)) as [ch|]; cbn [mbind option_bind].
  - specialize (Hin ltac:(by eexists)). destruct (i mod 4 =? 3); rewrite IH by lia; lia.
  - split; [by intros []|]. intros [?|?]; [lia|]. destruct (Hout ltac:(lia)). done.
Qed.

Lemma hashbuf_defined msg len num : 0 <= msg -> 0 < len -> 0 < num ->
  is_Some (HashTk_string2HashBufSigned mem msg len num) <-> msg + Z.min len (num * 4) <= zlen mem.
Proof.
  intros Hm Hl Hn. unfold HashTk_string2HashBufSigned. cbv zeta.
  set (pad := Z.lor _ _). set (n := if num * 4 <? len then num * 4 else len).
  assert (En : n = Z.min len (num * 4)) by (unfold n; destruct (Z.ltb_spec (num * 4) len); lia).
  pose proof (hashbuf_reads pad msg (Z.to_nat n) 0 pad [] num ltac:(lia)) as Hr.
  destruct (hashbuf_loop mem pad msg (Z.to_nat n) 0 pad [] num) as [[[v b] k]|] eqn:E; cbn [mbind option_bind].
  - split; [intros _|by eexists]. destruct (proj1 Hr ltac:(by eexists)); lia.
  - split; [by intros []|]. intros Hle. destruct (proj2 Hr ltac:(lia)). done.
Qed.

(** The last characters that the rounds of the half MD4 read. *)
Lemma halfMD4_loop_reads len : 0 < len -> forall fuel rem ptr buf, 0 <= ptr -> rem <= 32 * Z.of_nat fuel ->
  is_Some (halfMD4_loop mem fuel len rem ptr buf) <->
  rem <= 0 \/ ptr + 32 * ((rem - 1) / 32) + Z.min len 32 <= zlen mem.
Proof.
  intros Hlen. induction fuel as [|fuel IH]; intros rem ptr buf Hp Hf; cbn [halfMD4_loop].
  { destruct (Z.leb_spec rem 0); [|lia]. split; [by left|by eexists]. }
  destruct (Z.leb_spec rem 0) as [Hr|Hr]; [split; [by left|by eexists]|].
  pose proof (hashbuf_defined ptr len Hashtk_HALFMD4_IN_BUF_SIZE Hp Hlen ltac:(done)) as Hd.
  unfold Hashtk_HALFMD4_IN_BUF_SIZE, HashTk_INT_BYTES in *.
  assert (Hdiv : (rem - 32 - 1) / 32 = (rem - 1) / 32 - 1).
  { replace (rem - 1) with (rem - 32 - 1 + 1 * 32) by lia. rewrite Z.div_add by lia. lia. }
  assert (0 <= (rem - 1) / 32) by (apply Z.div_pos; lia).
  assert (rem <= 32 <-> (rem - 1) / 32 = 0).
  { split; [intros; apply Z.div_small; lia|]. intros E0. pose proof (Z.mod_pos_bound (rem - 1) 32).
    pose proof (Z.div_mod (rem - 1) 32). lia. }
  destruct (HashTk_string2HashBufSigned mem ptr len 8) as [inb|]; cbn [mbind option_bind].
  - specialize (proj1 Hd ltac:(by eexists)) as Hin. change (8 * 4) with 32 in *. rewrite IH by lia. rewrite Hdiv. lia.
  - split; [by intros []|]. intros [?|?]; [lia|]. destruct (proj2 Hd ltac:(lia)). done.
Qed.

(** The half MD4 of at most 32 characters reads these; of more than 32 characters it reads whole blocks. *)
Lemma halfMD4_reads data len : 0 <= data -> 0 < len ->
  is_Some (HashTk_halfMD4 mem data len) <->
  data + (if len <=? 32 then len else 32 * ((len + 31) / 32)) <= zlen mem.
Proof.
  intros Hd Hl. unfold HashTk_halfMD4. rewrite halfMD4_loop_reads by lia.
  replace (len + 31) with (len - 1 + 1 * 32) by lia. rewrite Z.div_add by lia.
  destruct (Z.leb_spec len 32) as [Hle|Hgt]; [rewrite Z.div_small by lia|]; lia.
Qed.

Lemma hsieh_loop_in n : forall data hash, 0 <= data -> data + 4 * Z.of_nat n <= zlen mem ->
  exists hash', hsieh_loop mem n data hash = Some (data + 4 * Z.of_nat n, hash').
Proof.
  induction n as [|n IH]; intros data hash Hd Hn; cbn [hsieh_loop].
  { exists hash. do 2 f_equal. lia. }
  destruct (get16bits_in data) as [w0 ->]; [lia..|]. cbn [mbind option_bind].
  destruct (get16bits_in (data + 2)) as [w1 ->]; [lia..|]. cbn [mbind option_bind].
  edestruct (IH (data + 4)) as [h E]; [lia..|]. exists h. rewrite E. do 2 f_equal. lia.
Qed.

Lemma hsieh_end_in cs rem data hash : 0 <= data -> 0 <= rem -> data + rem <= zlen mem ->
  is_Some (hsieh_end cs mem rem data hash).
Proof.
  intros. unfold hsieh_end.
  destruct (Z.eqb_spec rem 3) as [->|].
  { destruct (get16bits_in data) as [w ->]; [lia..|]. cbn [mbind option_bind].
    destruct (get_char_in cs (data + 2)) as [ch ->]; [lia..|]. by eexists. }
  destruct (Z.eqb_spec rem 2) as [->|].
  { destruct (get16bits_in data) as [w ->]; [lia..|]. by eexists. }
  destruct (Z.eqb_spec rem 1) as [->|]; [|by eexists].
  destruct (get_char_in cs data) as [ch ->]; [lia..|]. by eexists.
Qed.

(** Hsieh's hash reads the data only. *)
Lemma hsieh_in cs data len : 0 <= data -> data + len <= zlen mem ->
  exists h, HashTk_HsiehHash32 cs mem data len = Some h /\ in_u 32 h.
Proof.
  intros Hd Hl. unfold HashTk_HsiehHash32. destruct (Z.leb_spec len 0) as [Hle|Hgt].
  { exists 0. split; [done|]. split; lia. }
  assert (Hs : Z.shiftr len 2 = len / 4) by (by rewrite Z.shiftr_div_pow2).
  assert (Hr : Z.land len 3 = len mod 4) by (change 3 with (Z.ones 2); by rewrite Z.land_ones).
  pose proof (Z.div_mod len 4). pose proof (Z.mod_pos_bound len 4). pose proof (Z.div_pos len 4).
  destruct (hsieh_loop_in (Z.to_nat (Z.shiftr len 2)) data (u32 len)) as [h ->]; [lia..|]. cbn [mbind option_bind].
  destruct (hsieh_end_in cs (Z.land len 3) (data + 4 * Z.of_nat (Z.to_nat (Z.shiftr len 2))) h) as [h' ->]; [lia..|].
  eexists. split; [done|]. unfold hsieh_avalanche. apply u32_range.
Qed.

(** The words of the state have 32 bits. *)
Definition md4_ok (s : Md4State) : Prop :=
  let '(a, b, c, d) := s in in_u 32 a /\ in_u 32 b /\ in_u 32 c /\ in_u 32 d.
Lemma transform_ok s inb : md4_ok (half_md4_transform s inb).
Proof.
  unfold half_md4_transform. destruct (md4_round3 _ _) as [[[a b] c] d]. destruct s as [[[a0 b0] c0] d0].
  split_and!; apply u32_range.
Qed.
Lemma halfMD4_loop_ok fuel : forall len rem ptr s s', md4_ok s ->
  halfMD4_loop mem fuel len rem ptr s = Some s' -> md4_ok s'.
Proof.
  induction fuel as [|fuel IH]; intros len rem ptr s s' Hs; cbn [halfMD4_loop]; destruct (rem <=? 0); intros; simplify_eq; try done.
  destruct (HashTk_string2HashBufSigned _ _ _ _) as [inb|]; cbn [mbind option_bind] in *; [|done].
  eapply IH; [|eassumption]. apply transform_ok.
Qed.
Lemma halfMD4_ok data len s : HashTk_halfMD4 mem data len = Some s -> md4_ok s.
Proof. apply halfMD4_loop_ok. by repeat split. Qed.

Lemma high_low high low : in_u 32 high -> in_u 32 low -> in_u 64 (Z.lor (Z.shiftl high 32) low).
Proof.
  intros [] []. apply in_u_lor; [done|..]; split; rewrite ?Z.shiftl_mul_pow2 by done; try lia.
Qed.

(** The bits of a hash. *)
Definition hash_bits (size : Z) : Z := if size =? 64 then 64 else 32.
Lemma hash_in cs type size data len : 0 <= data -> 0 <= len -> data + len <= zlen mem ->
  (type = HASHTK_HALFMD4 -> len <= 32) ->
  exists h, HashTk_hash cs mem type size data len = Some h /\ in_u (hash_bits size) h.
Proof.
  intros Hd Hl Hm Hmd4. unfold HashTk_hash, HashTk_hash64, HashTk_hash32, hash_bits.
  assert (Hmd : type = HASHTK_HALFMD4 -> is_Some (HashTk_halfMD4 mem data len)).
  { intros Ht. specialize (Hmd4 Ht). destruct (decide (len = 0)) as [->|Hne]; [by eexists|].
    rewrite halfMD4_reads, (proj2 (Z.leb_le len 32)) by lia. lia. }
  assert (Hq : 0 <= Z.quot len 2 <= len) by (rewrite Z.quot_div_nonneg by lia; split; [apply Z.div_pos|apply Z.div_le_upper_bound]; lia).
  destruct (Z.eqb_spec type HASHTK_HALFMD4) as [Ht|Ht].
  - destruct (Hmd Ht) as [[[[a b] c] d] E]. rewrite E. destruct (halfMD4_ok _ _ _ E) as (_ & Hb & Hc & _).
    destruct (size =? 64); eexists; (split; [done|]); [by apply high_low|done].
  - destruct (size =? 64); [|by apply hsieh_in].
    destruct (hsieh_in cs data (Z.quot len 2)) as (h1 & -> & H1); [lia..|].
    destruct (hsieh_in cs (data + Z.quot len 2) (len - Z.quot len 2)) as (h2 & -> & H2); [lia..|].
    eexists. split; [done|by apply high_low].
Qed.

(** ASCII characters have no sign. *)
Lemma get_char_ascii cs cs' d : Forall (fun b => byte.unsigned b < 128) mem -> get_char cs mem d = get_char cs' mem d.
Proof.
  intros Ha. unfold get_char, load. destruct (_ && _) eqn:E; [|done]. cbn [mbind option_bind].
  rewrite !andb_true_iff, !Z.leb_le in E. destruct (drop (Z.to_nat d) mem) as [|b l] eqn:El.
  { cbn. by destruct cs, cs'. }
  assert (Hb : byte.unsigned b < 128).
  { apply (Forall_lookup_1 _ _ (Z.to_nat d) _ Ha). by rewrite <- (Nat.add_0_r (Z.to_nat d)), <- lookup_drop, El. }
  change (take (Z.to_nat 1) (b :: l)) with [b]. assert (Hs : s8 (le_combine [b]) = le_combine [b]).
  { change (le_combine [b]) with (Z.lor (byte.unsigned b) 0). rewrite Z.lor_0_r.
    pose proof (byte.unsigned_range b). unfold s8, signed.
    change (2 ^ (8 - 1)) with 128. change (2 ^ 8) with 256. rewrite Z.mod_small by lia.
    by rewrite (proj2 (Z.ltb_lt _ _)). }
  by rewrite Hs; destruct cs, cs'.
Qed.
Lemma hsieh_ascii cs cs' data len : Forall (fun b => byte.unsigned b < 128) mem ->
  HashTk_HsiehHash32 cs mem data len = HashTk_HsiehHash32 cs' mem data len.
Proof.
  intros Ha. unfold HashTk_HsiehHash32. destruct (len <=? 0); [done|].
  destruct (hsieh_loop _ _ _ _) as [[d h]|]; cbn [mbind option_bind]; [|done].
  unfold hsieh_end. by rewrite !(get_char_ascii cs cs').
Qed.
Lemma hash_ascii cs cs' type size data len : Forall (fun b => byte.unsigned b < 128) mem ->
  HashTk_hash cs mem type size data len = HashTk_hash cs' mem type size data len.
Proof.
  intros Ha. unfold HashTk_hash, HashTk_hash64, HashTk_hash32.
  by rewrite !(hsieh_ascii cs cs' _ _ Ha).
Qed.
End Reads.

Lemma above_reserved_some f len bits : (exists h, f len = Some h /\ in_u bits h) ->
  (exists h, f (len + 1) = Some h /\ in_u bits h) -> exists h, above_reserved f len = Some h /\ in_u bits h.
Proof. intros (h & E & Hh) H2. unfold above_reserved. rewrite E. cbn [mbind option_bind]. case_match; [done|by exists h]. Qed.
Lemma above_reserved_ext f g len : (forall n, f n = g n) -> above_reserved f len = above_reserved g len.
Proof. intros Hfg. unfold above_reserved. by rewrite !Hfg. Qed.

(** The width of the inode numbers of a style. *)
Definition style_bits (ino64 : bool) (style : Z) : Z :=
  if ((style =? INODEIDSTYLE_Hash64HSieh) || (style =? INODEIDSTYLE_Hash64MD4)) && ino64 then 64 else 32.

(** C33: The inode number of an entry ID of less than 32 characters (the IDs of the servers have at most 26) is defined
    in every style and has the width of the style; only the ID and its terminating zero are read.
    For ASCII IDs it does not depend on the sign of the type [char].  A longer ID has a number in
    the default style only if a read of whole blocks of 32 characters ends with the terminating
    zero or before; otherwise memory behind the ID is read. *)
Theorem inode_numbers cs ino64 style entryID :
  let mem := entryID ++ [Byte.x00] in let number cs := FhgfsInode_generateInodeID cs mem ino64 style (zlen entryID) in
  (zlen entryID < 32 -> exists h, number cs = Some h /\ in_u (style_bits ino64 style) h) /\
  (Forall (fun b => byte.unsigned b < 128) entryID -> forall cs', number cs = number cs') /\
  (style = INODEIDSTYLE_Hash64MD4 -> 32 < zlen entryID -> 1 < (zlen entryID + 1) mod 32 -> number cs = None).
Proof.
  intros mem number. pose proof (zlen_nonneg entryID) as H0.
  assert (Hz : zlen mem = zlen entryID + 1) by (unfold mem; zlia). unfold number, FhgfsInode_generateInodeID, style_bits. split_and!.
  - intros Hlen.
    assert (Hh : forall type size len, 0 <= len <= zlen entryID + 1 -> exists h,
      HashTk_hash cs mem type size 0 len = Some h /\ in_u (hash_bits size) h) by (intros; apply hash_in; lia).
    assert (H32 : forall type len, 0 <= len <= zlen entryID + 1 -> exists h,
      HashTk_hash32 cs mem type 0 len = Some h /\ in_u 32 h) by (intros; by apply (Hh _ 32)).
    destruct (style =? INODEIDSTYLE_Hash64HSieh), (style =? INODEIDSTYLE_Hash64MD4), ino64; cbn [orb andb];
      try destruct (style =? INODEIDSTYLE_Hash32MD4);
      (apply above_reserved_some; [first [apply (Hh _ 64)|apply (Hh _ 32)|apply H32]; lia..]).
  - intros Ha cs'.
    assert (Hm : Forall (fun b => byte.unsigned b < 128) mem) by (apply Forall_app_2; [done|by repeat constructor]).
    repeat case_match; apply above_reserved_ext; intros n; first [by apply hash_ascii|by apply (hash_ascii _ _ _ _ 32)].
  - intros -> Hlen Hmod. change (above_reserved (fun len => HashTk_hash cs mem HASHTK_HALFMD4 (if ino64 then 64 else 32) 0 len)
      (zlen entryID) = None).
    assert (E : HashTk_halfMD4 mem 0 (zlen entryID) = None).
    { destruct (HashTk_halfMD4 _ _ _) eqn:E; [|done]. exfalso.
      destruct (halfMD4_reads mem 0 (zlen entryID)) as [Hr _]; [lia..|]. specialize (Hr ltac:(by eexists)).
      rewrite (proj2 (Z.leb_gt _ _)) in Hr by lia. rewrite Hz in Hr.
      pose proof (Z.div_mod (zlen entryID + 31) 32). pose proof (Z.mod_pos_bound (zlen entryID + 31) 32).
      assert (zlen entryID + 1 = 32 * ((zlen entryID + 31) / 32)  + ((zlen entryID + 31) mod 32 - 30)) by lia.
      assert ((zlen entryID + 1) mod 32 = (zlen entryID + 31) mod 32 - 30); [|lia].
      symmetry. apply (Zmod_unique _ _ ((zlen entryID + 31) / 32)); lia. }
    unfold above_reserved, HashTk_hash, HashTk_hash64, HashTk_hash32. rewrite Z.eqb_refl, E. by destruct ino64.
Qed.

(** [1A-5F3C-1] *)
Definition sample_id : list byte :=
  [Byte.x31; Byte.x41; Byte.x2d; Byte.x35; Byte.x46; Byte.x33; Byte.x43; Byte.x2d; Byte.x31].
Lemma inode_numbers_witness :
  (exists h, FhgfsInode_generateInodeID true (sample_id ++ [Byte.x00]) true INODEIDSTYLE_Hash64MD4 9 = Some h /\ in_u 64 h) /\
  FhgfsInode_generateInodeID true (replicate 40 Byte.x41 ++ [Byte.x00]) true INODEIDSTYLE_Hash64MD4 40 = None.
Proof.
  split.
  - apply (inode_numbers true true INODEIDSTYLE_Hash64MD4 sample_id). by vm_compute.
  - apply (inode_numbers true true INODEIDSTYLE_Hash64MD4 (replicate 40 Byte.x41)); by vm_compute.
Defined.

(** The value that an independent evaluation of the C code gives. *)
Example sample_inode_number :
  FhgfsInode_generateInodeID true (sample_id ++ [Byte.x00]) true INODEIDSTYLE_Hash64MD4 9 = Some 13922161173834188332 /\
  FhgfsInode_generateInodeID true (sample_id ++ [Byte.x00]) true INODEIDSTYLE_Hash64HSieh 9 = Some 7067542360400469825.
Proof. by vm_compute. Qed.

(** One more byte below the others. *)
Lemma low_byte b bs : (length bs <= 7)%nat ->
  u64 (u64 (Z.shiftl (le_combine bs) 8) + byte.unsigned b) = le_combine (b :: bs).
Proof.
  intros Hl. pose proof (byte.unsigned_range b). pose proof (LittleEndianList.le_combine_bound bs) as Hb.
  assert (2 ^ (8 * Z.of_nat (length bs)) <= 2 ^ 56) by (apply Z.pow_le_mono_r; lia).
  change (le_combine (b :: bs)) with (Z.lor (byte.unsigned b) (Z.shiftl (le_combine bs) 8)).
  rewrite Z.shiftl_mul_pow2 by lia. change (2 ^ 8) with 256.
  rewrite (u64_small (_ * 256)), u64_small by lia. symmetry. rewrite Z.lor_comm, <- Z.lxor_lor, <- Z.add_nocarry_lxor; try done.
  all: change 256 with (2 ^ 8); rewrite <- Z.shiftl_mul_pow2 by lia; apply Z.bits_inj_0; intros i; rewrite Z.land_spec.
  all: destruct (Z.ltb_spec i 8); [by rewrite Z.shiftl_spec_low|].
  all: rewrite <- (Z.mod_small (byte.unsigned b) (2 ^ 8)) by lia.
  all: by rewrite Z.mod_pow2_bits_high, andb_false_r by lia.
Qed.
(** The authentication hash is the number of the first eight bytes of the digest, the first byte being the
    lowest one. *)
Theorem authHash_value e garbage data buf : length buf = 32%nat -> HashTk_sha256 e garbage data = (0, buf) ->
  HashTk_authHash e garbage data = (0, Some (le_combine (take 8 buf))).
Proof.
  intros Hl E. unfold HashTk_authHash. rewrite E. cbn [Z.eqb negb].
  destruct buf as [|b0 [|b1 [|b2 [|b3 [|b4 [|b5 [|b6 [|b7 buf]]]]]]]]; try done.
  change (take 8 (b0 :: _)) with [b0; b1; b2; b3; b4; b5; b6; b7]. cbn [fold_left nth]. do 2 f_equal. symmetry.
  do 8 (rewrite <- low_byte by (cbn; lia)). done.
Qed.
