(* ===== verification/DirListing.v ===== *)
(** * Reading directories

    Models the listing of a directory by [FhgfsOpsRemoting_listdirFromOffset] ([net/filesystem/FhgfsOpsRemoting.c],
    under [client_module/source]), the contents that a directory handle keeps ([filesystem/FsDirInfo.h]), their refresh
    ([filesystem/FhgfsOpsHelper.c]) and the operations of directory handles ([filesystem/FhgfsOpsFile.c]).

    The server lists a directory in pages.  A page has the names, types, IDs and offsets of its
    entries; the offset of an entry is the position behind it, from which a later page (or a seek)
    continues.  Vectors are lists, and their elements are own copies. *)

From S2P Require Import Prelude StorageErrors Wire Serialization StorageFormats StripePattern NetMessageTypes NetMessage BuddyGroup Mappers CommKit MessagesSession MessagesStorage MessagesNodes MessageFactory CommKitOps MessagingTk FileHandles MetaOps HashTk.

(** ** The contents of a handle *)

Definition META_CAP_LISTDIR_BUFSIZE_MODE : Z := 1.

Record FsDirInfo := MkFsDirInfo {
  di_dirContents : list (list byte);
  di_dirContentsTypes : list Z;
  di_entryIDs : list (list byte);
  di_serverOffsets : list Z;
  di_serverOffset : Z;
  di_currentContentsPos : Z;
  di_endOfDir : bool;
  di_metaCapabilities : Z;
  di_metaCapabilitiesKnown : Z
}.
Definition FsDirInfo_init : FsDirInfo := MkFsDirInfo [] [] [] [] 0 0 false 0 0.

Definition di_set_contents (names : list (list byte)) (types : list Z) (ids : list (list byte)) (offsets : list Z)
    (d : FsDirInfo) : FsDirInfo :=
  MkFsDirInfo names types ids offsets (di_serverOffset d) (di_currentContentsPos d) (di_endOfDir d)
    (di_metaCapabilities d) (di_metaCapabilitiesKnown d).
Definition clear_names (d : FsDirInfo) : FsDirInfo :=
  di_set_contents [] (di_dirContentsTypes d) (di_entryIDs d) (di_serverOffsets d) d.
Definition FsDirInfo_setServerOffset (serverOffset : Z) (d : FsDirInfo) : FsDirInfo :=
  MkFsDirInfo (di_dirContents d) (di_dirContentsTypes d) (di_entryIDs d) (di_serverOffsets d) serverOffset
    (di_currentContentsPos d) (di_endOfDir d) (di_metaCapabilities d) (di_metaCapabilitiesKnown d).
Definition FsDirInfo_setCurrentContentsPos (pos : Z) (d : FsDirInfo) : FsDirInfo :=
  MkFsDirInfo (di_dirContents d) (di_dirContentsTypes d) (di_entryIDs d) (di_serverOffsets d) (di_serverOffset d)
    pos (di_endOfDir d) (di_metaCapabilities d) (di_metaCapabilitiesKnown d).
Definition FsDirInfo_setEndOfDir (endOfDir : bool) (d : FsDirInfo) : FsDirInfo :=
  MkFsDirInfo (di_dirContents d) (di_dirContentsTypes d) (di_entryIDs d) (di_serverOffsets d) (di_serverOffset d)
    (di_currentContentsPos d) endOfDir (di_metaCapabilities d) (di_metaCapabilitiesKnown d).
Definition FsDirInfo_setMetaCapability (capability : Z) (supported : bool) (d : FsDirInfo) : FsDirInfo :=
  MkFsDirInfo (di_dirContents d) (di_dirContentsTypes d) (di_entryIDs d) (di_serverOffsets d) (di_serverOffset d)
    (di_currentContentsPos d) (di_endOfDir d)
    (if supported then Z.lor (di_metaCapabilities d) capability
     else Z.land (di_metaCapabilities d) (u8 (Z.lnot capability)))
    (Z.lor (di_metaCapabilitiesKnown d) capability).
Definition FsDirInfo_isMetaCapabilityKnown (d : FsDirInfo) (capability : Z) : bool :=
  negb (Z.land (di_metaCapabilitiesKnown d) capability =? 0).
Definition FsDirInfo_isMetaCapabilitySupported (d : FsDirInfo) (capability : Z) : bool :=
  negb (Z.land (di_metaCapabilities d) capability =? 0).
(** The server is known to fill pages up to the size of a buffer. *)
Definition bufsize_mode (d : FsDirInfo) : bool :=
  FsDirInfo_isMetaCapabilityKnown d META_CAP_LISTDIR_BUFSIZE_MODE &&
  FsDirInfo_isMetaCapabilitySupported d META_CAP_LISTDIR_BUFSIZE_MODE.

(** ** One page *)

Definition LISTDIROFFSETMSG_COMPATFLAG_CLIENT_SUPPORTS_BUFSIZE : Z := 1.
Definition LISTDIROFFSETRESPMSG_COMPATFLAG_SERVER_SUPPORTS_BUFSIZE : Z := 1.

(** A vector that is read from a list of the response.  A list that is refused leaves fewer elements than the
    message announces, while the vector of types, which has elements of one byte, is complete. *)
Inductive VecOut (A : Type) := Vec_full (l : list A) | Vec_short | Vec_fault.
Arguments Vec_full {A}.
Arguments Vec_short {A}.
Arguments Vec_fault {A}.
Definition read_vec {A} (d : Des (list A)) : VecOut A :=
  match d (MkDeserializeCtx [] 0 0) with
  | Done l _ => Vec_full l
  | Refused => Vec_short
  | BadRead _ => Vec_fault
  end.

(** [None]: strings are read outside of the message. *)
Definition list_page (dirInfo : FsDirInfo) (dirListLimit : Z) (msg : NetMessage ListDirFromOffsetRespMsg) :
    option (Z * FsDirInfo) :=
  let r := msgBody msg in
  if negb (ldr_result r =? FhgfsOpsErr_SUCCESS) then Some (ldr_result r, dirInfo)
  else
    let d := if FsDirInfo_isMetaCapabilityKnown dirInfo META_CAP_LISTDIR_BUFSIZE_MODE then dirInfo
             else FsDirInfo_setMetaCapability META_CAP_LISTDIR_BUFSIZE_MODE
                    (NetMessage_isMsgHeaderCompatFeatureFlagSet (msgHeader msg)
                       LISTDIROFFSETRESPMSG_COMPATFLAG_SERVER_SUPPORTS_BUFSIZE) dirInfo in
    let d := FsDirInfo_setCurrentContentsPos 0 d in
    let short := Some (FhgfsOpsErr_OUTOFMEM, di_set_contents [] [] [] [] d) in
    match read_vec (ListDirFromOffsetRespMsg_parseEntryTypes r), read_vec (ListDirFromOffsetRespMsg_parseNames r),
          read_vec (ListDirFromOffsetRespMsg_parseEntryIDs r), read_vec (ListDirFromOffsetRespMsg_parseServerOffsets r) with
    | Vec_fault, _, _, _ | _, Vec_fault, _, _ | _, _, Vec_fault, _ | _, _, _, Vec_fault => None
    | Vec_full types, Vec_full names, Vec_full ids, Vec_full offsets =>
        if negb (zlen types =? zlen names) || negb (zlen types =? zlen ids) || negb (zlen types =? zlen offsets)
        then short
        else
          let d := FsDirInfo_setServerOffset (ldr_newServerOffset r) (di_set_contents names types ids offsets d) in
          Some (FhgfsOpsErr_SUCCESS,
            FsDirInfo_setEndOfDir (if bufsize_mode d then zlen names =? 0 else zlen names <? dirListLimit) d)
    | _, _, _, _ => short
    end.

Section Listing.
Context (c : MetaConfig) (tuneMsgBufSize : Z).

Definition list_request (entryInfo : EntryInfo) (dirInfo : FsDirInfo) (dirListLimit : Z) : NetMessage ListDirFromOffsetMsg :=
  let m := ListDirFromOffsetMsg_initFromEntryInfo (mc_uid c) entryInfo (di_serverOffset dirInfo) dirListLimit false in
  if bufsize_mode dirInfo
  then NetMessage_addMsgHeaderCompatFeatureFlag m LISTDIROFFSETMSG_COMPATFLAG_CLIENT_SUPPORTS_BUFSIZE else m.

(** [answer]: what network and server do with a request. *)
Definition FhgfsOpsRemoting_listdirFromOffset (answer : NetMessage ListDirFromOffsetMsg -> nat -> NodeEnv)
    (entryInfo : EntryInfo) (dirInfo : FsDirInfo) (dirListLimit : Z) : OpOut FsDirInfo :=
  let requestMsg := list_request entryInfo dirInfo dirListLimit in
  meta_finish dirInfo (meta_request c (answer requestMsg) (rrpeer_from_entryinfo entryInfo) requestMsg
    NETMSGTYPE_ListDirFromOffsetResp) (fun m =>
      msg ← cast_msg K_ListDirFromOffsetResp m; list_page dirInfo dirListLimit msg).

(** ** Refresh *)

Definition dir_list_limit (dirInfo : FsDirInfo) : Z := if bufsize_mode dirInfo then u32 tuneMsgBufSize else 100.
Definition FhgfsOpsHelper_refreshDirInfoIncremental (answer : NetMessage ListDirFromOffsetMsg -> nat -> NodeEnv)
    (entryInfo : EntryInfo) (dirInfo : FsDirInfo) (forceUpdate : bool) : OpOut FsDirInfo :=
  let dirContentsLen := zlen (di_dirContents dirInfo) in
  let currentContentsPos := di_currentContentsPos dirInfo in
  let list := FhgfsOpsRemoting_listdirFromOffset answer entryInfo dirInfo (dir_list_limit dirInfo) in
  let res :=
    if forceUpdate then list
    else if di_endOfDir dirInfo && (dirContentsLen <=? currentContentsPos)
    then Op_return FhgfsOpsErr_SUCCESS (clear_names dirInfo) []
    else if currentContentsPos <? dirContentsLen then Op_return FhgfsOpsErr_SUCCESS dirInfo []
    else list in
  match res with
  | Op_return listRes dirInfo events =>
      if negb (listRes =? FhgfsOpsErr_SUCCESS)
      then Op_return (FhgfsOpsErr_toSysErr listRes) (FsDirInfo_setCurrentContentsPos 0 (clear_names dirInfo)) events
      else Op_return 0 dirInfo events
  | res => res
  end.

(** ** Operations of a directory handle *)

(** What the operations use of the directory's inode and of the caller. *)
Record DirView := MkDirView {
  dv_entryInfo : EntryInfo;
  dv_ino : Z;
  dv_parentIno : Z;
  dv_is32bit : bool;
  dv_charSigned : bool;
  dv_ino64 : bool;
  dv_inodeIDStyle : Z
}.
(** What an entry is reported as. *)
Record DirEmission := MkDirEmission { em_name : list byte; em_ino : Z; em_type : Z }.

Definition DOT : list byte := [Byte.x2e].
Definition DOTDOT : list byte := [Byte.x2e; Byte.x2e].
Definition UINT_MAX : Z := 2 ^ 32 - 1.

(** The emission of an entry; [None]: a read outside of the vector of IDs or an ID. *)
Definition emission (v : DirView) (name : list byte) (entryType : Z) (entryID : option (list byte)) : option DirEmission :=
  ino ← (if bool_decide (name = DOT) then Some (dv_ino v)
         else if bool_decide (name = DOTDOT) then Some (dv_parentIno v)
         else id ← entryID;
              FhgfsInode_generateInodeID (dv_charSigned v) (id ++ [Byte.x00]) (dv_ino64 v) (dv_inodeIDStyle v) (zlen id));
  let ino := if dv_is32bit v && (UINT_MAX <? ino) then Z.shiftr ino 32 else ino in
  Some (MkDirEmission name ino (OsTypeConv_dirEntryTypeToOS entryType)).

Inductive IterOut :=
| It_return (retVal : Z) (emitted : list DirEmission) (pos : Z) (dirInfo : FsDirInfo) (events : list MsgEvent)
| It_fault
| It_out_of_fuel.

(** [answers i]: network and server in the iteration [i]; [emit n]: the consumer takes another entry after
    [n] entries of this call. *)
Fixpoint iterate_loop (v : DirView) (answers : nat -> NetMessage ListDirFromOffsetMsg -> nat -> NodeEnv)
    (emit : nat -> bool) (fuel i : nat) (emitted : list DirEmission) (pos : Z) (dirInfo : FsDirInfo)
    (events : list MsgEvent) : IterOut :=
  match fuel with
  | O => It_out_of_fuel
  | S fuel' =>
      match FhgfsOpsHelper_refreshDirInfoIncremental (answers i) (dv_entryInfo v) dirInfo false with
      | Op_fault => It_fault
      | Op_out_of_fuel => It_out_of_fuel
      | Op_return refreshRes dirInfo evs =>
          let events := events ++ evs in
          if negb (refreshRes =? 0) then It_return refreshRes emitted pos dirInfo events
          else if zlen (di_dirContents dirInfo) =? 0 then It_return 0 emitted pos dirInfo events
          else
            let contentsPos := di_currentContentsPos dirInfo in
            let at_pos {A} (l : list A) : option A := l !! Z.to_nat contentsPos in
            match
              name ← at_pos (di_dirContents dirInfo);
              type ← at_pos (di_dirContentsTypes dirInfo);
              emission v name type (at_pos (di_entryIDs dirInfo))
            with
            | None => It_fault
            | Some e =>
                if negb (emit (length emitted)) then It_return 0 emitted pos dirInfo events
                else
                  match at_pos (di_serverOffsets dirInfo) with
                  | None => It_fault
                  | Some off =>
                      iterate_loop v answers emit fuel' (S i) (emitted ++ [e]) off
                        (FsDirInfo_setCurrentContentsPos (contentsPos + 1) dirInfo) events
                  end
            end
      end
  end.
Definition FhgfsOps_iterateIncremental (v : DirView)
    (answers : nat -> NetMessage ListDirFromOffsetMsg -> nat -> NodeEnv) (emit : nat -> bool) (fuel : nat)
    (pos : Z) (dirInfo : FsDirInfo) : IterOut :=
  iterate_loop v answers emit fuel O [] pos dirInfo [].
End Listing.

Definition FhgfsOps_opendirIncremental : FsDirInfo := FsDirInfo_init.

Definition SEEK_SET : Z := 0.
Definition SEEK_CUR : Z := 1.
(** [generic_llseek]: the result of [generic_file_llseek_unlocked] for an absolute position, which it sets on
    success.  The result, the position of the file and the contents. *)
Definition FhgfsOps_llseekdir (generic_llseek : Z -> Z) (f_pos : Z) (dirInfo : FsDirInfo) (offset origin : Z) :
    Z * Z * FsDirInfo :=
  let here := (origin =? SEEK_CUR) && (offset =? 0) in
  if negb (origin =? SEEK_SET) && negb here then (- EINVAL, f_pos, dirInfo)
  else
    let offset := if here then f_pos else offset in
    let retVal := generic_llseek offset in
    if 0 <=? retVal then
      (retVal, offset,
       FsDirInfo_setEndOfDir false (FsDirInfo_setServerOffset offset (FsDirInfo_setCurrentContentsPos 0
         (clear_names dirInfo))))
    else (retVal, f_pos, dirInfo).
