(* ===== verification/DirListingFacts.v ===== *)
(** * Reading directories: theorems

    A directory handle refines the list of the directory's entries with a position: reads give the
    entries from the position on, seeks set it. *)

From S2P Require Import Prelude StorageErrors Wire Serialization SerializationFacts StorageFormats StripePattern NetMessageTypes NetMessage NetMessageFacts BuddyGroup Mappers CommKit MessagesSession MessagesStorage MessagesNodes MessageFactory CommKitOps MessageFactoryFacts MessagingTk MessagingTkFacts FileHandles MetaOps MetaOpsFacts HashTk DirListing.

(** ** The directory *)

Record DirEntry := MkDirEntry { de_name : list byte; de_type : Z; de_id : list byte; de_offset : Z }.
(** The position behind the first [k] entries. *)
Definition offset_at (entries : list DirEntry) (k : nat) : Z :=
  match k with O => 0 | S k' => match entries !! k' with Some e => de_offset e | None => 0 end end.

(** A page of the entries from the position [j] on: it is empty only at the end, and a page for a number of
    entries is smaller than that only at the end. *)
Definition page_ok (entries : list DirEntry) (j : nat) (limit : Z) (bufsize : bool)
    (msg : NetMessage ListDirFromOffsetRespMsg) : Prop :=
  exists n, (j + n <= length entries)%nat /\
    let page := take n (drop j entries) in let r := msgBody msg in
    read_vec (ListDirFromOffsetRespMsg_parseEntryTypes r) = Vec_full (de_type <$> page) /\
    read_vec (ListDirFromOffsetRespMsg_parseNames r) = Vec_full (de_name <$> page) /\
    read_vec (ListDirFromOffsetRespMsg_parseEntryIDs r) = Vec_full (de_id <$> page) /\
    read_vec (ListDirFromOffsetRespMsg_parseServerOffsets r) = Vec_full (de_offset <$> page) /\
    ldr_newServerOffset r = offset_at entries (j + n) /\
    (n = O -> j = length entries) /\
    (bufsize = false -> Z.of_nat n < limit -> (j + n)%nat = length entries).

Section Directory.
Context (c : MetaConfig) (tuneMsgBufSize : Z) (v : DirView) (entries : list DirEntry) (em : DirEntry -> DirEmission).
Local Notation limit_of := (dir_list_limit tuneMsgBufSize).
Local Notation request d := (list_request c (dv_entryInfo v) d (limit_of d)).

(** The exchange of a request at a position of the directory ends with an error of the communication or of the server,
    or with a page. *)
Definition serves (answer : NetMessage ListDirFromOffsetMsg -> nat -> NodeEnv) : Prop :=
  forall j d, (j <= length entries)%nat -> di_serverOffset d = offset_at entries j ->
  (forall i, grant_ok (answer (request d) i)) /\
  exists ret a evs, meta_request c (answer (request d)) (rrpeer_from_entryinfo (dv_entryInfo v)) (request d)
      NETMSGTYPE_ListDirFromOffsetResp = RR_return ret a evs /\ in_s 32 ret /\
    (ret = FhgfsOpsErr_SUCCESS -> exists msg, rr_outRespMsg a = Some (Some (existT K_ListDirFromOffsetResp msg)) /\
       in_s 32 (ldr_result (msgBody msg)) /\
       (ldr_result (msgBody msg) = FhgfsOpsErr_SUCCESS -> page_ok entries j (limit_of d) (bufsize_mode d) msg)).

(** The handle is at the position [k]: it has the entries [k .. k + n - 1], and the server continues behind them. *)
Definition dir_at (k : nat) (d : FsDirInfo) : Prop :=
  exists n, (k + n <= length entries)%nat /\ di_serverOffset d = offset_at entries (k + n) /\
    (di_endOfDir d = true -> (k + n)%nat = length entries) /\ 0 <= di_currentContentsPos d /\
    ((n = O /\ di_dirContents d = []) \/
     exists pre, let all := pre ++ take n (drop k entries) in
       di_dirContents d = de_name <$> all /\ di_dirContentsTypes d = de_type <$> all /\
       di_entryIDs d = de_id <$> all /\ di_serverOffsets d = de_offset <$> all /\
       di_currentContentsPos d = zlen pre).

Lemma page_length k n : (k + n <= length entries)%nat -> length (take n (drop k entries)) = n.
Proof. intros. rewrite length_take, length_drop. lia. Qed.

(** A handle that has passed its entries. *)
Lemma dir_at_empty k d : dir_at k d -> zlen (di_dirContents d) <= di_currentContentsPos d ->
  di_serverOffset d = offset_at entries k /\ (di_endOfDir d = true -> k = length entries).
Proof.
  intros (n & Hn & Hoff & Hend & Hpos & [[-> _]|(pre & Hc & _ & _ & _ & Hp)]) Hle.
  - rewrite Nat.add_0_r in *. done.
  - rewrite Hc, Hp in Hle. assert (n = O) as ->.
    { pose proof (page_length k n Hn). unfold zlen in Hle. rewrite length_fmap, length_app in Hle. lia. }
    rewrite Nat.add_0_r in *. done.
Qed.

(** What the code knows after a page. *)
Lemma mode_after d b : bufsize_mode (if FsDirInfo_isMetaCapabilityKnown d META_CAP_LISTDIR_BUFSIZE_MODE then d
    else FsDirInfo_setMetaCapability META_CAP_LISTDIR_BUFSIZE_MODE b d) = false -> bufsize_mode d = false.
Proof.
  unfold bufsize_mode. destruct (FsDirInfo_isMetaCapabilityKnown d META_CAP_LISTDIR_BUFSIZE_MODE) eqn:E; by rewrite ?E.
Qed.

Lemma list_page_ok k d msg : (k <= length entries)%nat ->
  ldr_result (msgBody msg) = FhgfsOpsErr_SUCCESS -> page_ok entries k (limit_of d) (bufsize_mode d) msg ->
  exists d', list_page d (limit_of d) msg = Some (FhgfsOpsErr_SUCCESS, d') /\ dir_at k d' /\
    (di_dirContents d' = [] -> k = length entries) /\ (di_dirContents d' <> [] -> di_currentContentsPos d' < zlen (di_dirContents d')).
Proof.
  intros Hk Hres (n & Hn & Ht & Hnm & Hi & Ho & Hoff & H0 & Hleg). unfold list_page. rewrite Hres, Z.eqb_refl. cbn [negb].
  rewrite Ht, Hnm, Hi, Ho. autorewrite with zlen. rewrite Z.eqb_refl. cbn [negb orb].
  eexists. split; [done|]. set (d1 := FsDirInfo_setServerOffset _ _).
  assert (Hlen : zlen (take n (drop k entries)) = Z.of_nat n) by (unfold zlen; by rewrite page_length).
  assert (Hc : di_dirContents d1 = de_name <$> take n (drop k entries)) by done.
  split_and!.
  - exists n. split_and!; [done|done| |done|right; by exists []].
    cbn [di_endOfDir FsDirInfo_setEndOfDir]. rewrite Hlen. destruct (bufsize_mode d1) eqn:Em.
    + rewrite Z.eqb_eq. intros. assert (n = O) as -> by lia. specialize (H0 eq_refl). lia.
    + rewrite Z.ltb_lt. intros. apply Hleg; [|done]. by apply (mode_after d) in Em.
  - change (di_dirContents d1 = [] -> k = length entries). rewrite Hc. intros Hnil. apply H0.
    apply (f_equal length) in Hnil. rewrite length_fmap, page_length in Hnil; done.
  - change (di_dirContents d1 <> [] -> 0 < zlen (di_dirContents d1)). rewrite Hc.
    destruct (take n (drop k entries)); [done|]. intros _. cbn [fmap list_fmap]. zlia.
Qed.

Lemma list_page_error d limit (msg : NetMessage ListDirFromOffsetRespMsg) :
  ldr_result (msgBody msg) <> FhgfsOpsErr_SUCCESS -> list_page d limit msg = Some (ldr_result (msgBody msg), d).
Proof. intros Hne. unfold list_page. by rewrite (proj2 (Z.eqb_neq _ _) Hne). Qed.

(** The position does not depend on the rest of the handle. *)
Lemma dir_at_cleared k d : (k <= length entries)%nat -> 0 <= di_currentContentsPos d ->
  di_serverOffset d = offset_at entries k ->
  (di_endOfDir d = true -> k = length entries) -> di_dirContents d = [] -> dir_at k d.
Proof. intros Hk Hp Hs He Hc. exists O. rewrite Nat.add_0_r. split_and!; auto. Qed.

(** After a refresh without an error, the handle has the next entry or is at the end. *)
Lemma refresh_ok answer k d : serves answer -> dir_at k d -> (k <= length entries)%nat ->
  exists ret d' evs, FhgfsOpsHelper_refreshDirInfoIncremental c tuneMsgBufSize answer (dv_entryInfo v) d false =
      Op_return ret d' evs /\ proto_run idle evs = Some idle /\ dir_at k d' /\
    (ret = 0 -> (di_dirContents d' = [] /\ k = length entries) \/
                (di_dirContents d' <> [] /\ di_currentContentsPos d' < zlen (di_dirContents d'))).
Proof.
  intros Hs Hat Hk. assert (Hpos : 0 <= di_currentContentsPos d) by (destruct Hat; tauto).
  unfold FhgfsOpsHelper_refreshDirInfoIncremental. cbv zeta.
  destruct (di_endOfDir d && (zlen (di_dirContents d) <=? di_currentContentsPos d)) eqn:E1.
  { apply andb_true_iff in E1 as [He Hle]. rewrite Z.leb_le in Hle. destruct (dir_at_empty k d Hat Hle) as [Hoff Hend].
    exists 0, (clear_names d), []. split_and!; [done|done|by apply dir_at_cleared|]. intros _. left. auto. }
  destruct (Z.ltb_spec (di_currentContentsPos d) (zlen (di_dirContents d))) as [Hlt|Hge].
  { exists 0, d, []. split_and!; [done|done|done|]. intros _. right. split; [|done].
    intros Hnil. rewrite Hnil in Hlt. unfold zlen in Hlt. cbn in Hlt. lia. }
  destruct (dir_at_empty k d Hat Hge) as [Hoff Hend].
  assert (Hfail : forall err evs, err <> FhgfsOpsErr_SUCCESS -> in_s 32 err -> proto_run idle evs = Some idle ->
    exists ret d' evs', Op_return (FhgfsOpsErr_toSysErr err) (FsDirInfo_setCurrentContentsPos 0 (clear_names d)) evs =
      Op_return ret d' evs' /\ proto_run idle evs' = Some idle /\ dir_at k d' /\
      (ret = 0 -> (di_dirContents d' = [] /\ k = length entries) \/
                  (di_dirContents d' <> [] /\ di_currentContentsPos d' < zlen (di_dirContents d')))).
  { intros err evs Hne Hin Hrun. do 3 eexists. split_and!; [done|done|by apply dir_at_cleared|].
    intros E0. by apply (proj2 (toSysErr_spec err Hin)) in E0. }
  destruct (Hs k d Hk Hoff) as (Hg & ret & a & evs & E & Hr & Hresp).
  unfold FhgfsOpsRemoting_listdirFromOffset, meta_finish. rewrite E.
  assert (Hnew : new_request (request d)) by (unfold list_request; by case_match).
  destruct (meta_request_ok c _ Hg _ _ _ _ _ _ Hnew E) as (Hrun & _ & Ho).
  destruct (Z.eqb_spec ret FhgfsOpsErr_SUCCESS) as [->|Hne]; cbn [negb].
  2: { rewrite (proj2 (Z.eqb_neq _ _) Hne). by apply Hfail. }
  destruct (Hresp eq_refl) as (msg & Hm & Hin & Hpage). rewrite Hm. cbn [mbind option_bind]. rewrite cast_own.
  unfold out_ok in Ho. rewrite Z.eqb_refl in Ho. destruct Ho as (buf & resp & Hb & _).
  pose proof (free_response a buf _ _ Hb Hrun) as Hfree.
  destruct (Z.eqb_spec (ldr_result (msgBody msg)) FhgfsOpsErr_SUCCESS) as [Es|Es].
  - destruct (list_page_ok k d msg Hk Es (Hpage Es)) as (d' & El & Hat' & Hnil & Hcons). cbn [mbind option_bind]. rewrite El, Z.eqb_refl.
    cbn [negb]. do 3 eexists. split_and!; [done|done|done|]. intros _.
    destruct (di_dirContents d') eqn:Ed; [left; auto|right]. split; [done|]. by apply Hcons.
  - cbn [mbind option_bind]. rewrite (list_page_error d _ msg Es). destruct (_ =? _) eqn:E2; [by apply Z.eqb_eq in E2|].
    cbn [negb]. by apply Hfail.
Qed.

(** The next entry, and the handle behind it. *)
Lemma dir_at_next k d : dir_at k d -> di_currentContentsPos d < zlen (di_dirContents d) ->
  exists e, entries !! k = Some e /\
    let i := Z.to_nat (di_currentContentsPos d) in
    di_dirContents d !! i = Some (de_name e) /\ di_dirContentsTypes d !! i = Some (de_type e) /\
    di_entryIDs d !! i = Some (de_id e) /\ di_serverOffsets d !! i = Some (de_offset e) /\
    dir_at (S k) (FsDirInfo_setCurrentContentsPos (di_currentContentsPos d + 1) d).
Proof.
  intros (n & Hn & Hoff & Hend & Hpos & [[-> Hc]|(pre & Hc & Ht & Hi & Ho & Hp)]) Hlt.
  { rewrite Hc in Hlt. unfold zlen in Hlt. cbn in Hlt. lia. }
  destruct n as [|n].
  { rewrite Hc, Hp in Hlt. cbn [take] in Hlt. rewrite app_nil_r in Hlt. zlia. }
  destruct (drop k entries) as [|e rest] eqn:Ed.
  { apply (f_equal length) in Ed. rewrite length_drop in Ed. cbn in Ed. lia. }
  assert (He : entries !! k = Some e) by (rewrite <- (Nat.add_0_r k), <- lookup_drop, Ed; done).
  assert (Hrest : drop (S k) entries = rest).
  { rewrite <- Nat.add_1_r, <- drop_drop, Ed. done. }
  exists e. split; [done|]. cbv zeta. rewrite Hp, to_nat_zlen, Hc, Ht, Hi, Ho. cbn [take].
  assert (Hlook : forall {A} (f : DirEntry -> A), (f <$> pre ++ e :: take n rest) !! length pre = Some (f e)).
  { intros A f. rewrite list_lookup_fmap, lookup_app_r, Nat.sub_diag by done. done. }
  rewrite !Hlook. split_and!; try done.
  exists n. split_and!; [lia|cbn [di_serverOffset FsDirInfo_setCurrentContentsPos]; rewrite Hoff; f_equal; lia| |cbn; pose proof (zlen_nonneg pre); lia|right].
  { cbn. intros. specialize (Hend H). lia. }
  exists (pre ++ [e]). rewrite Hrest. cbv zeta. rewrite <- app_assoc. cbn [app]. split_and!; try done. cbn. zlia.
Qed.

Context (Hem : forall e, e ∈ entries -> emission v (de_name e) (de_type e) (Some (de_id e)) = Some (em e)).

Lemma iterate_ok answers emit fuel : forall i k emitted d events,
  (forall i, serves (answers i)) -> dir_at k d -> (k <= length entries)%nat -> proto_run idle events = Some idle ->
  (length entries - k < fuel)%nat ->
  exists ret m d' evs, iterate_loop c tuneMsgBufSize v answers emit fuel i emitted (offset_at entries k) d events =
      It_return ret (emitted ++ (em <$> take m (drop k entries))) (offset_at entries (k + m)) d' evs /\
    (k + m <= length entries)%nat /\ dir_at (k + m) d' /\ proto_run idle evs = Some idle /\
    (forall j, (j < m)%nat -> emit (length emitted + j)%nat = true) /\
    (ret = 0 -> (k + m)%nat = length entries \/ emit (length emitted + m)%nat = false).
Proof.
  induction fuel as [|fuel IH]; intros i k emitted d events Hs Hat Hk Hrun Hf; [lia|]. cbn [iterate_loop].
  destruct (refresh_ok (answers i) k d (Hs i) Hat Hk) as (ret & d1 & evs & -> & Hrun1 & Hat1 & Hnext). cbv zeta.
  assert (Hev : proto_run idle (events ++ evs) = Some idle) by (by rewrite (proto_run_snoc _ _ _ _ Hrun)).
  assert (Hstop : forall r, (r = 0 -> k = length entries \/ emit (length emitted) = false) ->
    exists ret m d' evs', It_return r emitted (offset_at entries k) d1 (events ++ evs) =
      It_return ret (emitted ++ (em <$> take m (drop k entries))) (offset_at entries (k + m)) d' evs' /\
    (k + m <= length entries)%nat /\ dir_at (k + m) d' /\ proto_run idle evs' = Some idle /\
    (forall j, (j < m)%nat -> emit (length emitted + j)%nat = true) /\
    (ret = 0 -> (k + m)%nat = length entries \/ emit (length emitted + m)%nat = false)).
  { intros r Hr. exists r, O, d1, (events ++ evs). cbn [take fmap list_fmap]. rewrite app_nil_r, !Nat.add_0_r.
    split_and!; auto; lia. }
  destruct (Z.eqb_spec ret 0) as [->|Hne]; cbn [negb]; [|by apply Hstop].
  destruct (Hnext eq_refl) as [[Hc Hend]|[Hc Hlt]].
  { rewrite Hc. apply Hstop. auto. }
  assert (Hz : (zlen (di_dirContents d1) =? 0) = false).
  { destruct (di_dirContents d1); [done|]. rewrite zlen_cons. apply Z.eqb_neq. pose proof (zlen_nonneg l0). lia. }
  rewrite Hz. destruct (dir_at_next k d1 Hat1 Hlt) as (e & He & H1 & H2 & H3 & H4 & Hat2). cbv zeta in *.
  rewrite H1, H2, H3, H4. cbn [mbind option_bind]. rewrite Hem by (by eapply list_elem_of_lookup_2).
  destruct (emit (length emitted)) eqn:Ee; cbn [negb]; [|apply Hstop; auto].
  assert (Hlt' : (k < length entries)%nat) by (by eapply lookup_lt_Some).
  assert (Eoff : de_offset e = offset_at entries (S k)) by (cbn; by rewrite He). rewrite Eoff.
  destruct (IH (S i) (S k) (emitted ++ [em e]) _ _ Hs Hat2 ltac:(lia) Hev ltac:(lia))
    as (r & m & d' & evs' & -> & Hm & Hat3 & Hrun3 & Hem3 & Hr3).
  rewrite length_app in Hem3, Hr3. cbn [length] in Hem3, Hr3.
  exists r, (S m), d', evs'. rewrite (drop_S _ _ _ He). cbn [take fmap list_fmap].
  replace (k + S m)%nat with (S k + m)%nat by lia. split_and!; [by rewrite <- app_assoc|done|done|done| |].
  - intros [|j] Hj; [by rewrite Nat.add_0_r|]. specialize (Hem3 j ltac:(lia)). by replace (length emitted + S j)%nat with (length emitted + 1 + j)%nat by lia.
  - intros Hr. replace (length emitted + S m)%nat with (length emitted + 1 + m)%nat by lia. auto.
Qed.

(** ** Calls of a directory handle *)

(** A call with what happens during it. *)
Inductive DirCall :=
| Call_read (answers : nat -> NetMessage ListDirFromOffsetMsg -> nat -> NodeEnv) (emit : nat -> bool) (fuel : nat)
| Call_seek (generic_llseek : Z -> Z) (offset origin : Z).
Inductive DirObs := Obs_read (ret : Z) (emitted : list DirEmission) | Obs_seek (ret : Z).

(** The position of the file and the contents of the handle after a call. *)
Definition dir_call (s : Z * FsDirInfo) (call : DirCall) : option (DirObs * (Z * FsDirInfo)) :=
  match call with
  | Call_read answers emit fuel =>
      match FhgfsOps_iterateIncremental c tuneMsgBufSize v answers emit fuel s.1 s.2 with
      | It_return ret emitted pos d _ => Some (Obs_read ret emitted, (pos, d))
      | _ => None
      end
  | Call_seek generic_llseek offset origin =>
      let '(ret, pos, d) := FhgfsOps_llseekdir generic_llseek s.1 s.2 offset origin in Some (Obs_seek ret, (pos, d))
  end.
Fixpoint dir_calls (s : Z * FsDirInfo) (calls : list DirCall) : option (list DirObs * (Z * FsDirInfo)) :=
  match calls with
  | [] => Some ([], s)
  | call :: calls => '(o, s) ← dir_call s call; '(os, s) ← dir_calls s calls; Some (o :: os, s)
  end.

(** The server lists the directory; seeks go to positions of the directory, and the generic function returns the new
    position or an error. *)
Definition call_ok (call : DirCall) : Prop :=
  match call with
  | Call_read answers _ fuel => (forall i, serves (answers i)) /\ (length entries < fuel)%nat
  | Call_seek generic_llseek offset origin =>
      (forall x, generic_llseek x = x /\ 0 <= x \/ generic_llseek x < 0) /\
      (origin = SEEK_SET -> exists j, (j <= length entries)%nat /\ offset = offset_at entries j)
  end.

(** The specification: a position [k] in the list of the entries. *)
Inductive spec_call : nat -> DirCall -> DirObs -> nat -> Prop :=
| Spec_read k answers emit fuel m ret :
    (k + m <= length entries)%nat -> (forall j, (j < m)%nat -> emit j = true) ->
    (ret = 0 -> (k + m)%nat = length entries \/ emit m = false) ->
    spec_call k (Call_read answers emit fuel) (Obs_read ret (em <$> take m (drop k entries))) (k + m)
| Spec_seek k generic_llseek j :
    (j <= length entries)%nat ->
    spec_call k (Call_seek generic_llseek (offset_at entries j) SEEK_SET) (Obs_seek (offset_at entries j)) j
| Spec_tell k generic_llseek : spec_call k (Call_seek generic_llseek 0 SEEK_CUR) (Obs_seek (offset_at entries k)) k
| Spec_error k generic_llseek offset origin ret :
    ret < 0 -> spec_call k (Call_seek generic_llseek offset origin) (Obs_seek ret) k.
Inductive spec_calls : nat -> list DirCall -> list DirObs -> nat -> Prop :=
| Spec_nil k : spec_calls k [] [] k
| Spec_cons k k' k'' call calls o os :
    spec_call k call o k' -> spec_calls k' calls os k'' -> spec_calls k (call :: calls) (o :: os) k''.

Lemma seek_at d j : (j <= length entries)%nat ->
  dir_at j (FsDirInfo_setEndOfDir false (FsDirInfo_setServerOffset (offset_at entries j)
    (FsDirInfo_setCurrentContentsPos 0 (clear_names d)))).
Proof. intros. by apply dir_at_cleared. Qed.

Lemma dir_call_ok k d call : call_ok call -> dir_at k d -> (k <= length entries)%nat ->
  exists o k' d', dir_call (offset_at entries k, d) call = Some (o, (offset_at entries k', d')) /\
    spec_call k call o k' /\ dir_at k' d' /\ (k' <= length entries)%nat.
Proof.
  intros Hok Hat Hk. destruct call as [answers emit fuel|llseek offset origin]; cbn [dir_call fst snd call_ok] in *.
  - destruct Hok as [Hs Hf]. unfold FhgfsOps_iterateIncremental.
    destruct (iterate_ok answers emit fuel O k [] d [] Hs Hat Hk eq_refl ltac:(lia))
      as (ret & m & d' & evs & -> & Hm & Hat' & _ & Hem' & Hr).
    do 3 eexists. split; [done|]. split_and!; try done. by constructor.
  - destruct Hok as [Hl Hset]. unfold FhgfsOps_llseekdir. cbv zeta.
    destruct (Z.eqb_spec origin SEEK_SET) as [->|Hne]; cbn [negb andb].
    + destruct (Hset eq_refl) as (j & Hj & ->). cbn [SEEK_SET SEEK_CUR Z.eqb andb].
      destruct (Hl (offset_at entries j)) as [[-> Hpos]|Hneg].
      * rewrite (proj2 (Z.leb_le _ _) Hpos). do 3 eexists. split; [done|]. split_and!; [by constructor|by apply seek_at|done].
      * rewrite (proj2 (Z.leb_gt _ _) Hneg). do 3 eexists. split; [done|]. split_and!; [by constructor|done|done].
    + destruct ((origin =? SEEK_CUR) && (offset =? 0)) eqn:E; cbn [negb].
      * apply andb_true_iff in E as [->%Z.eqb_eq ->%Z.eqb_eq].
        destruct (Hl (offset_at entries k)) as [[-> Hpos]|Hneg].
        -- rewrite (proj2 (Z.leb_le _ _) Hpos). do 3 eexists. split; [done|]. split_and!; [by constructor|by apply seek_at|done].
        -- rewrite (proj2 (Z.leb_gt _ _) Hneg). do 3 eexists. split; [done|]. split_and!; [by constructor|done|done].
      * do 3 eexists. split; [done|]. split_and!; [by constructor|done|done].
Qed.

Lemma dir_calls_ok calls : forall k d, Forall call_ok calls -> dir_at k d -> (k <= length entries)%nat ->
  exists os k' d', dir_calls (offset_at entries k, d) calls = Some (os, (offset_at entries k', d')) /\ spec_calls k calls os k'.
Proof.
  induction calls as [|call calls IH]; intros k d Hok Hat Hk; cbn [dir_calls].
  { do 3 eexists. split; [done|constructor]. }
  apply Forall_cons_1 in Hok as [Hc Hok].
  destruct (dir_call_ok k d call Hc Hat Hk) as (o & k' & d' & -> & Hsp & Hat' & Hk').
  destruct (IH k' d' Hok Hat' Hk') as (os & k2 & d2 & E2 & Hsp2). cbn [mbind option_bind]. rewrite E2.
  do 3 eexists. split; [done|by econstructor].
Qed.

(** Reads that succeed give the entries in order; a last one that could take entries and gets none is at the end. *)
Definition is_read (call : DirCall) : Prop := match call with Call_read _ _ _ => True | Call_seek _ _ _ => False end.
Definition obs_emitted (o : DirObs) : list DirEmission := match o with Obs_read _ l => l | _ => [] end.
Lemma spec_calls_inv k call calls os k' : spec_calls k (call :: calls) os k' ->
  exists o os' k1, os = o :: os' /\ spec_call k call o k1 /\ spec_calls k1 calls os' k'.
Proof. inversion 1; simplify_eq. by do 3 eexists. Qed.
Lemma spec_read_inv k call o k' : is_read call -> spec_call k call o k' ->
  exists answers emit fuel m ret, call = Call_read answers emit fuel /\ o = Obs_read ret (em <$> take m (drop k entries)) /\
    k' = (k + m)%nat /\ (k + m <= length entries)%nat /\ (ret = 0 -> (k + m)%nat = length entries \/ emit m = false).
Proof. intros Hr. inversion 1; simplify_eq; try done. by do 5 eexists. Qed.

Lemma spec_reads calls : forall k os k', Forall is_read calls -> (k <= length entries)%nat -> spec_calls k calls os k' ->
  (k' <= length entries)%nat /\ concat (obs_emitted <$> os) = em <$> take (k' - k) (drop k entries) /\ (k <= k')%nat.
Proof.
  induction calls as [|call calls IH]; intros k os k' Hr Hk Hs.
  { inversion Hs; simplify_eq. rewrite Nat.sub_diag. cbn. done. }
  apply Forall_cons_1 in Hr as [Hr1 Hr]. apply spec_calls_inv in Hs as (o & os' & k1 & -> & Ho & Hs).
  apply spec_read_inv in Ho as (answers & emit & fuel & m & ret & -> & -> & -> & Hm & _); [|done].
  destruct (IH _ _ _ Hr Hm Hs) as (Hle & E & Hkk). split_and!; [done| |lia].
  cbn [fmap list_fmap concat obs_emitted]. change (list_fmap _ _ obs_emitted os') with (obs_emitted <$> os'). rewrite E.
  rewrite <- fmap_app. f_equal. rewrite <- drop_drop.
  replace (k' - k)%nat with (m + (k' - (k + m)))%nat by lia. by rewrite take_take_drop.
Qed.
Lemma spec_last answers emit fuel reads : forall k os k', emit O = true -> (k <= length entries)%nat ->
  Forall is_read reads ->
  spec_calls k (reads ++ [Call_read answers emit fuel]) (os ++ [Obs_read 0 []]) k' -> (length entries <= k')%nat.
Proof.
  induction reads as [|rd reads IH]; intros k os k' He Hk Hr Hs; cbn [app] in Hs;
    apply spec_calls_inv in Hs as (o & os' & k1 & Eo & Ho & Hs).
  - inversion Hs; simplify_eq. destruct os as [|o' os]; [|by destruct os]. injection Eo as <-.
    apply spec_read_inv in Ho as (? & emit' & ? & m & ret & Ec & Eo & -> & Hm & Hr0); [|done]. injection Ec as <- <- <-.
    injection Eo as <- Hl. apply (f_equal length) in Hl. rewrite length_fmap, length_take, length_drop in Hl. cbn in Hl.
    assert (m = O) as -> by lia. destruct (Hr0 eq_refl); [lia|congruence].
  - apply Forall_cons_1 in Hr as [Hr1 Hr]. destruct os as [|o' os]; injection Eo as <- <-.
    { inversion Hs. by destruct reads. }
    apply spec_read_inv in Ho as (? & ? & ? & m & ret & _ & _ & -> & Hm & _); [|done]. by eapply IH.
Qed.

(** C30: A directory handle refines a position in the list of the directory's entries, whatever pages the server chooses, also
    when the buffer mode is detected on the way or an exchange fails: each read gives the entries
    from the position on, in order and without gaps, as many as the consumer takes before an error;
    without an error it stops only when the consumer is full or at the end of the directory.  Seeks
    to a position that was told before continue there.  A sequence of reads therefore gives every
    entry exactly once, in order, when the last one finds nothing although the consumer has room. *)
Theorem directory_refines calls : Forall call_ok calls ->
  exists os k s, dir_calls (0, FhgfsOps_opendirIncremental) calls = Some (os, s) /\ spec_calls O calls os k /\
  (forall reads answers emit fuel os', calls = reads ++ [Call_read answers emit fuel] -> Forall is_read reads ->
     os = os' ++ [Obs_read 0 []] -> emit O = true -> concat (obs_emitted <$> os) = em <$> entries).
Proof.
  intros Hok.
  assert (Hinit : dir_at O FhgfsOps_opendirIncremental) by (apply dir_at_cleared; try done; lia).
  destruct (dir_calls_ok calls O _ Hok Hinit ltac:(lia)) as (os & k & d & E & Hsp).
  exists os, k, (offset_at entries k, d). split_and!; [done|done|].
  intros reads answers emit fuel os' -> Hr Hlast He.
  assert (Hreads : Forall is_read (reads ++ [Call_read answers emit fuel])) by (apply Forall_app_2; [done|by repeat constructor]).
  destruct (spec_reads _ O os k Hreads (Nat.le_0_l _) Hsp) as (Hk & Eos & _).
  rewrite Eos, Nat.sub_0_r, drop_0. f_equal. apply take_ge.
  subst os. clear E Eos Hinit Hok. eapply (spec_last _ _ _ reads O); eauto with lia.
Qed.
End Directory.

(** ** Samples *)

(** A directory with [.] and a file; the server fills buffers of one entry. *)
Definition sample_entries : list DirEntry :=
  [MkDirEntry DOT DirEntryType_DIRECTORY [Byte.x72] 5; MkDirEntry [Byte.x61] DirEntryType_REGULARFILE [Byte.x31] 9].
Definition sample_page (bufsize : bool) (off : Z) : list byte :=
  let rest := drop (if off =? 0 then 0 else if off =? 5 then 1 else 2) sample_entries in
  let page := if bufsize then take 1 rest else rest in
  let next := if bufsize && (off =? 0) then 5 else 9 in
  sample_answer 1 NETMSGTYPE_ListDirFromOffsetResp
    (le_split 8 next ++ enc_list (le_split 8) (de_offset <$> page) ++ le_split 4 FhgfsOpsErr_SUCCESS ++
     enc_list (le_split 1) (de_type <$> page) ++ enc_list enc_cstr (de_id <$> page) ++ enc_list enc_cstr (de_name <$> page)).
Definition sample_server (req : NetMessage ListDirFromOffsetMsg) (i : nat) : NodeEnv :=
  sample_owner_round (sample_page
    (NetMessage_isMsgHeaderCompatFeatureFlagSet (msgHeader req) LISTDIROFFSETMSG_COMPATFLAG_CLIENT_SUPPORTS_BUFSIZE)
    (ld_serverOffset (msgBody req))).
Definition sample_view : DirView := MkDirView sample_dir 77 66 false true true INODEIDSTYLE_Hash64MD4.
Definition sample_em (e : DirEntry) : DirEmission :=
  default (MkDirEmission [] 0 0) (emission sample_view (de_name e) (de_type e) (Some (de_id e))).

(** What a request gets. *)
Definition sample_list_request (mode : bool) (off : Z) : NetMessage ListDirFromOffsetMsg :=
  list_request sample_meta sample_dir
    (MkFsDirInfo [] [] [] [] off 0 false (Z.b2z mode) (Z.b2z mode)) (if mode then 400 else 100).
Definition sample_exchange (mode : bool) (off : Z) : RROut ListDirFromOffsetMsg :=
  meta_request sample_meta (sample_server (sample_list_request mode off)) (rrpeer_from_entryinfo sample_dir)
    (sample_list_request mode off) NETMSGTYPE_ListDirFromOffsetResp.
Definition exchange_msg (call : RROut ListDirFromOffsetMsg) : NetMessage ListDirFromOffsetRespMsg :=
  default (NetMessage_init 0 0 (fresh0 K_ListDirFromOffsetResp))
    match call with RR_return _ a _ => rr_outRespMsg a ≫= cast_msg K_ListDirFromOffsetResp | _ => None end.
Definition exchange_good (call : RROut ListDirFromOffsetMsg) : bool :=
  match call with
  | RR_return ret a _ => (ret =? FhgfsOpsErr_SUCCESS) &&
      match rr_outRespMsg a ≫= cast_msg K_ListDirFromOffsetResp with
      | Some msg => ldr_result (msgBody msg) =? FhgfsOpsErr_SUCCESS | None => false
      end
  | _ => false
  end.
Lemma exchange_good_ok call : exchange_good call = true -> exists a evs,
  call = RR_return FhgfsOpsErr_SUCCESS a evs /\
  rr_outRespMsg a = Some (Some (existT K_ListDirFromOffsetResp (exchange_msg call))) /\
  in_s 32 (ldr_result (msgBody (exchange_msg call))).
Proof.
  destruct call as [ret a evs| |]; try done. cbn [exchange_good]. intros [->%Z.eqb_eq H]%andb_true_iff.
  exists a, evs. split; [done|]. unfold exchange_msg.
  destruct (rr_outRespMsg a ≫= cast_msg K_ListDirFromOffsetResp) as [msg|] eqn:E; [|done]. cbn [default].
  apply bind_Some in E as (m & Em & E). apply (cast_inv K_ListDirFromOffsetResp m msg) in E as ->. apply Z.eqb_eq in H.
  split; [done|]. refine (eq_ind_r (in_s 32) _ H). by vm_compute.
Qed.

Local Ltac page_done :=
  split; [cbn; lia|]; cbv zeta; split_and!; first [vm_compute; reflexivity|by intros; vm_compute; lia|by cbn; intros; lia].
Lemma sample_pages j mode : (j <= 2)%nat ->
  let call := sample_exchange mode (offset_at sample_entries j) in
  exchange_good call = true /\ page_ok sample_entries j (if mode then 400 else 100) mode (exchange_msg call).
Proof.
  intros Hj. destruct j as [|[|[|j]]]; [| | |lia].
  all: destruct mode; (split; [vm_compute; reflexivity|]).
  all: first [exists 0%nat; page_done|exists 1%nat; page_done|exists 2%nat; page_done].
Qed.

Lemma sample_serves : serves sample_meta 400 sample_view sample_entries sample_server.
Proof.
  intros j d Hj Hoff. split; [by intros|].
  assert (Er : list_request sample_meta sample_dir d (dir_list_limit 400 d) =
               sample_list_request (bufsize_mode d) (offset_at sample_entries j) /\
               dir_list_limit 400 d = if bufsize_mode d then 400 else 100).
  { unfold list_request, dir_list_limit, sample_list_request. rewrite Hoff. by destruct (bufsize_mode d). }
  cbn [sample_view dv_entryInfo]. destruct Er as [Er El]. rewrite Er, El.
  destruct (sample_pages j (bufsize_mode d) Hj) as [Hg Hp].
  destruct (exchange_good_ok _ Hg) as (a & evs & E & Hm & Hin).
  exists FhgfsOpsErr_SUCCESS, a, evs. split; [exact E|]. split; [by vm_compute|]. intros _.
  exists (exchange_msg (sample_exchange (bufsize_mode d) (offset_at sample_entries j))). split; [exact Hm|]. split; [exact Hin|]. intros _. exact Hp.
Qed.
Lemma sample_emissions e : e ∈ sample_entries ->
  emission sample_view (de_name e) (de_type e) (Some (de_id e)) = Some (sample_em e).
Proof. intros He. repeat (apply elem_of_cons in He as [->|He]; [by vm_compute|]). by apply elem_of_nil in He. Qed.
Definition sample_calls : list DirCall :=
  [Call_read (fun _ => sample_server) (fun n => (n <? 1)%nat) 3; Call_seek (fun x => x) 5 SEEK_SET;
   Call_read (fun _ => sample_server) (fun _ => true) 3].
Lemma directory_refines_witness :
  exists os k s, dir_calls sample_meta 400 sample_view (0, FhgfsOps_opendirIncremental) sample_calls = Some (os, s) /\
    spec_calls sample_entries sample_em O sample_calls os k /\
    os = [Obs_read 0 [sample_em (MkDirEntry DOT 1 [Byte.x72] 5)]; Obs_seek 5;
          Obs_read 0 [sample_em (MkDirEntry [Byte.x61] 2 [Byte.x31] 9)]].
Proof.
  destruct (directory_refines sample_meta 400 sample_view sample_entries sample_em sample_emissions sample_calls)
    as (os & k & s & E & Hsp & _).
  - repeat apply Forall_cons_2; [| | |apply Forall_nil_2]; cbn [call_ok].
    + split; [intros _; apply sample_serves|cbn; lia].
    + split; [intros x; destruct (decide (0 <= x)); lia|]. intros _. exists 1%nat. split; [cbn; lia|done].
    + split; [intros _; apply sample_serves|cbn; lia].
  - exists os, k, s. split_and!; [exact E|exact Hsp|].
    pose proof (f_equal (fmap fst) E) as Eo. cbn [fmap option_fmap option_map fst] in Eo.
    assert (Ev : fst <$> dir_calls sample_meta 400 sample_view (0, FhgfsOps_opendirIncremental) sample_calls =
      Some [Obs_read 0 [sample_em (MkDirEntry DOT 1 [Byte.x72] 5)]; Obs_seek 5;
          Obs_read 0 [sample_em (MkDirEntry [Byte.x61] 2 [Byte.x31] 9)]]) by (by vm_compute).
    rewrite Ev in Eo. by injection Eo.
Defined.
