(* ===== verification/InvalReader.v ===== *)
(** * Remote invalidation of cached attributes

    Models [components/InvalReader.c] ([client_module/source]) and the use of its session counters for cached inodes
    ([filesystem/FhgfsInode.c]).

    For every metadata server a thread asks for the inodes that other clients have changed and marks them as
    invalid.  A session with a server begins with a resynchronisation, which gives it a new odd
    number; it ends when the number is incremented.  An inode remembers the number under which it
    was cached, and is valid only while its server still has that number.

    The threads, the callers that start and stop them and the users of inodes interleave.  Sections under the mutex
    or the write lock are steps; the session of a thread object is changed without a lock, so each
    access to it is a step of its own, and so are the access to a started object after the locks were
    released and the two halves of joining a thread.  The text of log messages, the rate limit of
    warnings, the statistics of hits and misses and the length of delays have no effect on the
    state; allocations wait for memory and do not fail, so there is a reader. *)

From S2P Require Import Prelude StorageErrors StorageFormats BuddyGroup Mappers MessagesStorage Acks MetaOps.

(** ** Errors *)

Definition INOERR_NONE : Z := 0.
Definition INOERR_INVALID_READPOS : Z := 1.
Definition INOERR_QUEUE_OVERFLOW : Z := 2.
Definition INOERR_COMM_FAILURE : Z := 4.
Definition ReadInvalidations_InvalidReadPos : Z := 1.
Definition ReadInvalidations_QueueOverflow : Z := 2.
Definition ReadInvalidations_Disabled : Z := 4.
Definition ReadInvalidations_Unavailable : Z := 8.
Definition ReadInvalidations_ResyncNeeded : Z := 16.

Record InvalReaderErrState := MkErrState { es_lastClass : Z; es_sameClassCount : Z }.
(** The new state, the class and its limit. *)
Definition __InvalReaderErr_update (st : InvalReaderErrState) (errorFlags remoteRes : Z) : InvalReaderErrState * Z * Z :=
  let '(errClass, limit) :=
    if has_flag errorFlags ReadInvalidations_InvalidReadPos then (INOERR_INVALID_READPOS, 2)
    else if has_flag errorFlags ReadInvalidations_QueueOverflow then (INOERR_QUEUE_OVERFLOW, 2)
    else if remoteRes =? FhgfsOpsErr_COMMTIMEDOUT then (INOERR_COMM_FAILURE, 10)
    else (INOERR_NONE, 0) in
  if errClass =? INOERR_NONE then (MkErrState INOERR_NONE 0, INOERR_NONE, 0)
  else
    (if es_lastClass st =? errClass then MkErrState errClass (u32 (es_sameClassCount st + 1)) else MkErrState errClass 1,
     errClass, limit).
Definition __InvalReaderErr_reachedLimit (st : InvalReaderErrState) (limit : Z) : bool :=
  negb (limit =? 0) && (limit <=? es_sameClassCount st).

(** What is done about an answer: [ed_handled]: it is not used; [ed_invalidate]: the session ends; [ed_stop]: the thread
    ends because its server is not online; [ed_fallback]: all threads end, and caches time out from
    now on. *)
Record ErrDecision := MkErrDecision {
  ed_handled : bool;
  ed_invalidate : bool;
  ed_delayMS : Z;
  ed_stop : bool;
  ed_fallback : bool;
  ed_errState : InvalReaderErrState
}.
(** [state]: the reachability of the server, if it is known. *)
Definition __InvalReaderHandleError (stopOnStateChange : bool) (errState : InvalReaderErrState) (errorFlags remoteRes : Z)
    (state : option Z) : ErrDecision :=
  let retry inv delay stop := MkErrDecision true inv delay stop false errState in
  if has_flag errorFlags ReadInvalidations_ResyncNeeded then retry true 0 false
  else if has_flag errorFlags ReadInvalidations_Disabled then retry true 10000 false
  else if has_flag errorFlags ReadInvalidations_Unavailable then retry true 3000 false
  else
    let online := bool_decide (state = Some TargetReachabilityState_ONLINE) in
    let haveState := match state with Some _ => true | None => false end in
    let failed := negb (remoteRes =? FhgfsOpsErr_SUCCESS) in
    if failed && negb haveState && negb stopOnStateChange then retry false 0 false
    else if failed && negb online && haveState then retry true 0 stopOnStateChange
    else if failed && negb (remoteRes =? FhgfsOpsErr_COMMTIMEDOUT) then retry false 3000 false
    else
      let '(errState, errClass, errLimit) := __InvalReaderErr_update errState errorFlags remoteRes in
      if errClass =? INOERR_NONE then MkErrDecision false false 0 false false errState
      else MkErrDecision true true 0 false (__InvalReaderErr_reachedLimit errState errLimit) errState.

(** ** Thread objects *)

(** Ending a session: the flag is read, the number is incremented if it was set, and the flag is cleared. *)
Inductive SessionPc := Sp_check | Sp_inc | Sp_clear.

(** Where a thread is: at the head of its loop, waiting for an answer, ending its session after an error, beginning
    a session with the number that was drawn, marking inodes, or at its end. *)
Inductive ThreadPc :=
| Pc_head
| Pc_wait (resync : bool)
| Pc_session (sp : SessionPc) (d : ErrDecision) (errorFlags : Z)
| Pc_number (data : ReadInvalidationsData)
| Pc_set (n : Z) (data : ReadInvalidationsData)
| Pc_valid (data : ReadInvalidationsData)
| Pc_apply (ids : list InodeId) (data : ReadInvalidationsData)
| Pc_stopped.

Record InvalReaderPerMeta := MkPerMeta {
  im_metaID : Z;
  im_selfTerminate : bool;
  im_sessionValid : bool;
  im_lastErrorFlags : Z;
  im_sessionCnt : Z;
  im_stopOnStateChange : bool;
  im_errState : InvalReaderErrState;
  im_readPos : Z;
  im_shouldBreak : bool;
  im_pc : ThreadPc
}.
Definition im_set_pc (pc : ThreadPc) (im : InvalReaderPerMeta) : InvalReaderPerMeta :=
  MkPerMeta (im_metaID im) (im_selfTerminate im) (im_sessionValid im) (im_lastErrorFlags im) (im_sessionCnt im)
    (im_stopOnStateChange im) (im_errState im) (im_readPos im) (im_shouldBreak im) pc.
Definition im_set_session (valid : bool) (cnt : Z) (im : InvalReaderPerMeta) : InvalReaderPerMeta :=
  MkPerMeta (im_metaID im) (im_selfTerminate im) valid (im_lastErrorFlags im) cnt (im_stopOnStateChange im)
    (im_errState im) (im_readPos im) (im_shouldBreak im) (im_pc im).
Definition Thread_selfTerminate (im : InvalReaderPerMeta) : InvalReaderPerMeta :=
  MkPerMeta (im_metaID im) true (im_sessionValid im) (im_lastErrorFlags im) (im_sessionCnt im)
    (im_stopOnStateChange im) (im_errState im) (im_readPos im) (im_shouldBreak im) (im_pc im).
Definition im_set_errState (st : InvalReaderErrState) (im : InvalReaderPerMeta) : InvalReaderPerMeta :=
  MkPerMeta (im_metaID im) (im_selfTerminate im) (im_sessionValid im) (im_lastErrorFlags im) (im_sessionCnt im)
    (im_stopOnStateChange im) st (im_readPos im) (im_shouldBreak im) (im_pc im).
Definition im_set_stopOnStateChange (im : InvalReaderPerMeta) : InvalReaderPerMeta :=
  MkPerMeta (im_metaID im) (im_selfTerminate im) (im_sessionValid im) (im_lastErrorFlags im) (im_sessionCnt im)
    true (im_errState im) (im_readPos im) (im_shouldBreak im) (im_pc im).
Definition im_set_readPos (readPos : Z) (im : InvalReaderPerMeta) : InvalReaderPerMeta :=
  MkPerMeta (im_metaID im) (im_selfTerminate im) (im_sessionValid im) (im_lastErrorFlags im) (im_sessionCnt im)
    (im_stopOnStateChange im) (im_errState im) readPos (im_shouldBreak im) (im_pc im).
(** The end of an iteration. *)
Definition next_request (errorFlags : Z) (break : bool) (im : InvalReaderPerMeta) : InvalReaderPerMeta :=
  MkPerMeta (im_metaID im) (im_selfTerminate im) (im_sessionValid im) errorFlags (im_sessionCnt im)
    (im_stopOnStateChange im) (im_errState im) (im_readPos im) (im_shouldBreak im || break) Pc_head.
(** A thread object before its thread is started. *)
Definition new_perMeta (nodeID : Z) : InvalReaderPerMeta :=
  MkPerMeta nodeID false false 0 0 false (MkErrState INOERR_NONE 0) 0 false Pc_head.

(** One access to the session; [None]: it was the last one. *)
Definition invalidateSession (sp : SessionPc) (im : InvalReaderPerMeta) : InvalReaderPerMeta * option SessionPc :=
  match sp with
  | Sp_check => (im, Some (if im_sessionValid im then Sp_inc else Sp_clear))
  | Sp_inc => (im_set_session (im_sessionValid im) (s32 (im_sessionCnt im + 1)) im, Some Sp_clear)
  | Sp_clear => (im_set_session false (im_sessionCnt im) im, None)
  end.

(** ** Entry IDs of invalidations *)

Definition META_ROOTDIR_ID_STR : list byte := [Byte.x72; Byte.x6f; Byte.x6f; Byte.x74].
(** The buffer of 27 characters holds three numbers of 32 bits. *)
Definition invalidation_entryID (id : InodeId) : list byte :=
  if (iid_a id =? 0) && (iid_b id =? 0) && (iid_c id =? 0) then META_ROOTDIR_ID_STR
  else text_hex (iid_a id) ++ Byte.x2d :: text_hex (iid_b id) ++ Byte.x2d :: text_hex (iid_c id).

(** ** The system *)

(** What an inode has for its cached attributes. *)
Record InodeCache := MkInodeCache {
  ic_valid : bool;
  ic_localSessionCnt : Z;
  ic_owner : NodeOrGroup
}.

(** [iv_objs]: the thread objects by their addresses, [iv_next]: the next address; [iv_stops]: calls of
    [InvalReader_stopMetaThread] that hold the read lock, with the object and what they do next
    ([None]: set the termination flag); [iv_caching]: inodes whose write lock is held between
    storing the number and the flag; [iv_joining]: the object that the thread of the reader has taken from the
    list of stopped threads to join and free it; [iv_logs]: started objects for which the call that
    started them has released the locks and has still to log, with the object, that it did. *)
Record InvalSystem := MkInvalSystem {
  iv_objs : gmap nat InvalReaderPerMeta;
  iv_next : nat;
  iv_metaThreads : list nat;
  iv_stoppedThreads : list nat;
  iv_numMetas : Z;
  iv_shuttingDown : bool;
  iv_globalSessionCnt : Z;
  iv_invalWatchFallback : bool;
  iv_numRemoteInvals : Z;
  iv_stops : gmap nat (nat * option SessionPc);
  iv_inodes : gmap (list byte) InodeCache;
  iv_caching : gset (list byte);
  iv_joining : option nat;
  iv_logs : gset nat
}.
Definition InvalReader_init : InvalSystem := MkInvalSystem ∅ 0 [] [] 0 false 0 false 0 ∅ ∅ ∅ None ∅.

Definition set_objs (objs : gmap nat InvalReaderPerMeta) (s : InvalSystem) : InvalSystem :=
  MkInvalSystem objs (iv_next s) (iv_metaThreads s) (iv_stoppedThreads s) (iv_numMetas s) (iv_shuttingDown s)
    (iv_globalSessionCnt s) (iv_invalWatchFallback s) (iv_numRemoteInvals s) (iv_stops s) (iv_inodes s) (iv_caching s)
    (iv_joining s) (iv_logs s).
Definition set_stops (stops : gmap nat (nat * option SessionPc)) (s : InvalSystem) : InvalSystem :=
  MkInvalSystem (iv_objs s) (iv_next s) (iv_metaThreads s) (iv_stoppedThreads s) (iv_numMetas s) (iv_shuttingDown s)
    (iv_globalSessionCnt s) (iv_invalWatchFallback s) (iv_numRemoteInvals s) stops (iv_inodes s) (iv_caching s)
    (iv_joining s) (iv_logs s).
Definition set_lists (metaThreads stoppedThreads : list nat) (numMetas : Z) (s : InvalSystem) : InvalSystem :=
  MkInvalSystem (iv_objs s) (iv_next s) metaThreads stoppedThreads numMetas (iv_shuttingDown s)
    (iv_globalSessionCnt s) (iv_invalWatchFallback s) (iv_numRemoteInvals s) (iv_stops s) (iv_inodes s) (iv_caching s)
    (iv_joining s) (iv_logs s).
Definition set_down (shuttingDown fallback : bool) (s : InvalSystem) : InvalSystem :=
  MkInvalSystem (iv_objs s) (iv_next s) (iv_metaThreads s) (iv_stoppedThreads s) (iv_numMetas s) shuttingDown
    (iv_globalSessionCnt s) fallback (iv_numRemoteInvals s) (iv_stops s) (iv_inodes s) (iv_caching s)
    (iv_joining s) (iv_logs s).
Definition set_global (global : Z) (s : InvalSystem) : InvalSystem :=
  MkInvalSystem (iv_objs s) (iv_next s) (iv_metaThreads s) (iv_stoppedThreads s) (iv_numMetas s) (iv_shuttingDown s)
    global (iv_invalWatchFallback s) (iv_numRemoteInvals s) (iv_stops s) (iv_inodes s) (iv_caching s)
    (iv_joining s) (iv_logs s).
Definition set_inodes (inodes : gmap (list byte) InodeCache) (caching : gset (list byte)) (invals : Z) (s : InvalSystem) :
    InvalSystem :=
  MkInvalSystem (iv_objs s) (iv_next s) (iv_metaThreads s) (iv_stoppedThreads s) (iv_numMetas s) (iv_shuttingDown s)
    (iv_globalSessionCnt s) (iv_invalWatchFallback s) invals (iv_stops s) inodes caching
    (iv_joining s) (iv_logs s).
Definition set_joining (joining : option nat) (s : InvalSystem) : InvalSystem :=
  MkInvalSystem (iv_objs s) (iv_next s) (iv_metaThreads s) (iv_stoppedThreads s) (iv_numMetas s) (iv_shuttingDown s)
    (iv_globalSessionCnt s) (iv_invalWatchFallback s) (iv_numRemoteInvals s) (iv_stops s) (iv_inodes s) (iv_caching s)
    joining (iv_logs s).
Definition set_logs (logs : gset nat) (s : InvalSystem) : InvalSystem :=
  MkInvalSystem (iv_objs s) (iv_next s) (iv_metaThreads s) (iv_stoppedThreads s) (iv_numMetas s) (iv_shuttingDown s)
    (iv_globalSessionCnt s) (iv_invalWatchFallback s) (iv_numRemoteInvals s) (iv_stops s) (iv_inodes s) (iv_caching s)
    (iv_joining s) logs.

(** ** Lists of threads *)

(** The first object with the ID; [None]: an object of the list was freed. *)
Fixpoint find_in (objs : gmap nat InvalReaderPerMeta) (l : list nat) (id : Z) : option (option (nat * InvalReaderPerMeta)) :=
  match l with
  | [] => Some None
  | o :: l => im ← objs !! o; if im_metaID im =? id then Some (Some (o, im)) else find_in objs l id
  end.
Definition __InvalReader_find (s : InvalSystem) (id : Z) : option (option (nat * InvalReaderPerMeta)) :=
  find_in (iv_objs s) (iv_metaThreads s) id.
Definition InvalReader_getMetaSessionCnt (s : InvalSystem) (nodeId : Z) : option Z :=
  found ← __InvalReader_find s nodeId; Some (match found with Some (_, im) => im_sessionCnt im | None => 0 end).

Definition terminate_all (s : InvalSystem) : option (gmap nat InvalReaderPerMeta) :=
  foldr (fun o objs => objs ← objs; im ← objs !! o; Some (<[o := Thread_selfTerminate im]> objs))
    (Some (iv_objs s)) (iv_metaThreads s).
Definition __InvalReader_requestStopAllThreads (s : InvalSystem) : option InvalSystem :=
  objs ← terminate_all s; Some (set_objs objs s).
Definition InvalReader_stopInvalReader (s : InvalSystem) : option InvalSystem :=
  __InvalReader_requestStopAllThreads (set_down true (iv_invalWatchFallback s) s).

Definition __InvalReader_metaIsPrimaryOrUnmirrored (groups : MirrorBuddyGroupMapper) (nodeID : Z) : bool :=
  let groupID := __MirrorBuddyGroupMapper_getBuddyGroupIDUnlocked groups nodeID in
  if groupID =? 0 then true
  else MirrorBuddyGroupMapper_getPrimaryTargetID groups groupID =? nodeID.
Definition __InvalReader_metaIsOnline (states : TargetStateStore) (nodeID : Z) : bool :=
  let '(state, haveState) := TargetStateStore_getState states nodeID in
  haveState && (cts_reachabilityState state =? TargetReachabilityState_ONLINE).

(** A step can be done, has to wait for a lock or another thread, or uses a freed object. *)
Inductive InvalOut := Iv_ok (s : InvalSystem) | Iv_blocked | Iv_fault.
Definition iv_of (o : option InvalSystem) : InvalOut := match o with Some s => Iv_ok s | None => Iv_fault end.

(** The section in which a thread is started; the list is changed under the write lock.  The earlier look at the
list only decides about waiting and returning, which is decided again here.  When both locks are released, the
    call still has to log the start. *)
Definition InvalReader_startMetaThread (groups : MirrorBuddyGroupMapper) (nodeID : Z) (thread_start : bool)
    (s : InvalSystem) : InvalOut :=
  if negb (__InvalReader_metaIsPrimaryOrUnmirrored groups nodeID) then Iv_ok s
  else
    match __InvalReader_find s nodeID with
    | None => Iv_fault
    | Some (Some (_, im)) => if im_selfTerminate im && negb (iv_shuttingDown s) then Iv_blocked else Iv_ok s
    | Some None =>
        if iv_shuttingDown s || iv_invalWatchFallback s then Iv_ok s
        else if negb (bool_decide (iv_stops s = ∅)) then Iv_blocked
        else if thread_start then
          Iv_ok (MkInvalSystem (<[iv_next s := new_perMeta nodeID]> (iv_objs s)) (S (iv_next s))
            (iv_next s :: iv_metaThreads s) (iv_stoppedThreads s) (u32 (iv_numMetas s + 1)) (iv_shuttingDown s)
            (iv_globalSessionCnt s) (iv_invalWatchFallback s) (iv_numRemoteInvals s) (iv_stops s) (iv_inodes s)
            (iv_caching s) (iv_joining s) ({[iv_next s]} ∪ iv_logs s))
        else Iv_ok s
    end.

(** The log message at the end of [InvalReader_startMetaThread], which reads the logger and the ID of the object that
    was started, without a lock. *)
Definition startMetaThread_log (o : nat) (s : InvalSystem) : InvalOut :=
  if bool_decide (o ∈ iv_logs s) then
    match iv_objs s !! o with None => Iv_fault | Some _ => Iv_ok (set_logs (iv_logs s ∖ {[o]}) s) end
  else Iv_blocked.

(** [InvalReader_stopMetaThread]: finding the object with the read lock, and each access to it. *)
Definition stopMetaThread_find (call : nat) (nodeID : Z) (s : InvalSystem) : InvalOut :=
  if bool_decide (call ∈ dom (iv_stops s)) then Iv_blocked
  else
    match __InvalReader_find s nodeID with
    | None => Iv_fault
    | Some None => Iv_ok s
    | Some (Some (o, _)) => Iv_ok (set_stops (<[call := (o, Some Sp_check)]> (iv_stops s)) s)
    end.
Definition stopMetaThread_step (call : nat) (s : InvalSystem) : InvalOut :=
  match iv_stops s !! call with
  | None => Iv_blocked
  | Some (o, sp) =>
      match iv_objs s !! o, sp with
      | None, _ => Iv_fault
      | Some im, Some sp =>
          let '(im, sp') := invalidateSession sp im in
          Iv_ok (set_stops (<[call := (o, sp')]> (iv_stops s)) (set_objs (<[o := im]> (iv_objs s)) s))
      | Some im, None =>
          Iv_ok (set_stops (delete call (iv_stops s)) (set_objs (<[o := Thread_selfTerminate im]> (iv_objs s)) s))
      end
  end.

(** An iteration of [__InvalReader_joinStoppedMetas], which only the thread of the reader calls: the first stopped
    thread is taken from the list under the mutex, and then joined and freed without it. *)
Definition __InvalReader_joinStoppedMetas (s : InvalSystem) : InvalOut :=
  match iv_joining s, iv_stoppedThreads s with
  | None, o :: l => Iv_ok (set_joining (Some o) (set_lists (iv_metaThreads s) l (iv_numMetas s) s))
  | _, _ => Iv_blocked
  end.
Definition joinStoppedMetas_free (s : InvalSystem) : InvalOut :=
  match iv_joining s with
  | None => Iv_blocked
  | Some o =>
      match iv_objs s !! o with
      | None => Iv_fault
      | Some im =>
          match im_pc im with
          | Pc_stopped => Iv_ok (set_joining None (set_objs (delete o (iv_objs s)) s))
          | _ => Iv_blocked
          end
      end
  end.

(** ** A thread *)

(** What a thread gets from outside: the node has its ID, or an answer with the state of the server. *)
Record ThreadEnv := MkThreadEnv {
  te_localNodeID : bool;
  te_remoteRes : Z;
  te_data : ReadInvalidationsData;
  te_state : option Z
}.

(** The end of the handling of an error that has ended the session. *)
Definition finish_error (o : nat) (d : ErrDecision) (errorFlags : Z) (im : InvalReaderPerMeta) (s : InvalSystem) : InvalOut :=
  let im := if ed_stop d then Thread_selfTerminate im else im in
  let s := set_objs (<[o := next_request errorFlags (ed_stop d || ed_fallback d) im]> (iv_objs s)) s in
  if ed_fallback d then iv_of (InvalReader_stopInvalReader (set_down (iv_shuttingDown s) true s)) else Iv_ok s.

Definition mark_inode (id : InodeId) (s : InvalSystem) : InvalSystem :=
  let entryID := invalidation_entryID id in
  match iv_inodes s !! entryID with
  | Some ino =>
      set_inodes (<[entryID := MkInodeCache false (ic_localSessionCnt ino) (ic_owner ino)]> (iv_inodes s))
        (iv_caching s) (iv_numRemoteInvals s) s
  | None => s
  end.

(** The steps of [__InvalReaderPerMeta_run]. *)
Definition __InvalReaderPerMeta_run (o : nat) (e : ThreadEnv) (s : InvalSystem) : InvalOut :=
  match iv_objs s !! o with
  | None => Iv_blocked
  | Some im =>
      let put im := set_objs (<[o := im]> (iv_objs s)) s in
      match im_pc im with
      | Pc_head =>
          if im_selfTerminate im || im_shouldBreak im then
            if negb (bool_decide (iv_stops s = ∅)) then Iv_blocked
            else
              Iv_ok (set_lists (List.filter (fun o' => negb (o' =? o)%nat) (iv_metaThreads s)) (iv_stoppedThreads s ++ [o])
                (if iv_numMetas s =? 0 then 0 else iv_numMetas s - 1) (put (im_set_pc Pc_stopped im)))
          else if negb (te_localNodeID e) then Iv_ok (put (next_request 0 false im))
          else
            let resync := negb (im_sessionValid im) in
            Iv_ok (put (im_set_pc (Pc_wait resync) (if resync then im_set_readPos 0 im else im)))
      | Pc_wait resync =>
          let flags := rid_errorFlags (te_data e) in
          let d := __InvalReaderHandleError (im_stopOnStateChange im) (im_errState im) flags (te_remoteRes e) (te_state e) in
          let im := im_set_errState (ed_errState d) im in
          if negb (ed_handled d) then
            let im := im_set_stopOnStateChange im in
            Iv_ok (put (im_set_pc (if resync then Pc_number (te_data e)
              else Pc_apply (take (Z.to_nat (rid_numUpdates (te_data e))) (rid_inodeIds (te_data e))) (te_data e)) im))
          else if ed_invalidate d then Iv_ok (put (im_set_pc (Pc_session Sp_check d flags) im))
          else Iv_ok (put (next_request flags false im))
      | Pc_session sp d flags =>
          match invalidateSession sp im with
          | (im, Some sp) => Iv_ok (put (im_set_pc (Pc_session sp d flags) im))
          | (im, None) => finish_error o d flags im s
          end
      | Pc_number data =>
          Iv_ok (set_global (s32 (iv_globalSessionCnt s + 2)) (put (im_set_pc (Pc_set (iv_globalSessionCnt s) data) im)))
      | Pc_set n data => Iv_ok (put (im_set_pc (Pc_valid data) (im_set_session (im_sessionValid im) (s32 (n + 1)) im)))
      | Pc_valid data =>
          Iv_ok (put (im_set_pc (Pc_apply (take (Z.to_nat (rid_numUpdates data)) (rid_inodeIds data)) data)
            (im_set_session true (im_sessionCnt im) im)))
      | Pc_apply (id :: ids) data => Iv_ok (mark_inode id (put (im_set_pc (Pc_apply ids data) im)))
      | Pc_apply [] data =>
          Iv_ok (set_inodes (iv_inodes s) (iv_caching s) (s64 (iv_numRemoteInvals s + rid_numUpdates data))
            (put (next_request (rid_errorFlags data) false (im_set_readPos (rid_outReadPos data) im))))
      | Pc_stopped => Iv_blocked
      end
  end.

(** ** Inodes *)

Definition __FhgfsInode_getSessionMetaID (groups : MirrorBuddyGroupMapper) (ino : InodeCache) : Z :=
  if ng_isGroup (ic_owner ino) then MirrorBuddyGroupMapper_getPrimaryTargetID groups (ng_id (ic_owner ino))
  else ng_id (ic_owner ino).
(** [FhgfsInode_setCacheValid]: without the feature the flag is set at once, otherwise the number is stored first. *)
Definition setCacheValid_begin (groups : MirrorBuddyGroupMapper) (entryID : list byte) (s : InvalSystem) : InvalOut :=
  match iv_inodes s !! entryID with
  | None => Iv_blocked
  | Some ino =>
      if iv_invalWatchFallback s then
        Iv_ok (set_inodes (<[entryID := MkInodeCache true (ic_localSessionCnt ino) (ic_owner ino)]> (iv_inodes s))
          (iv_caching s) (iv_numRemoteInvals s) s)
      else if bool_decide (entryID ∈ iv_caching s) then Iv_blocked
      else
        match InvalReader_getMetaSessionCnt s (__FhgfsInode_getSessionMetaID groups ino) with
        | None => Iv_fault
        | Some cnt =>
            Iv_ok (set_inodes (<[entryID := MkInodeCache (ic_valid ino) cnt (ic_owner ino)]> (iv_inodes s))
              ({[entryID]} ∪ iv_caching s) (iv_numRemoteInvals s) s)
        end
  end.
Definition setCacheValid_end (entryID : list byte) (s : InvalSystem) : InvalOut :=
  match iv_inodes s !! entryID with
  | Some ino =>
      if bool_decide (entryID ∈ iv_caching s) then
        Iv_ok (set_inodes (<[entryID := MkInodeCache true (ic_localSessionCnt ino) (ic_owner ino)]> (iv_inodes s))
          (iv_caching s ∖ {[entryID]}) (iv_numRemoteInvals s) s)
      else Iv_blocked
  | None => Iv_blocked
  end.
(** The options of the caches, with times in milliseconds. *)
Record CacheConfig := MkCacheConfig {
  sysRemoteInvalEnabled : bool;
  tuneDirSubentryCacheValidityMS : Z;
  tuneFileSubentryCacheValidityMS : Z
}.
Definition FhgfsInode_getCacheValidityMS (isDir : bool) (cfg : CacheConfig) : Z :=
  if isDir then tuneDirSubentryCacheValidityMS cfg else tuneFileSubentryCacheValidityMS cfg.
(** [elapsedMS]: the time since [dataCacheTime]. *)
Definition FhgfsInode_isCacheValid (groups : MirrorBuddyGroupMapper) (cfg : CacheConfig) (isDir : bool) (elapsedMS : Z)
    (ino : InodeCache) (s : InvalSystem) : option bool :=
  if sysRemoteInvalEnabled cfg && negb (iv_invalWatchFallback s) then
    if ic_valid ino then
      currSessionCnt ← InvalReader_getMetaSessionCnt s (__FhgfsInode_getSessionMetaID groups ino);
      Some ((Z.land currSessionCnt 1 =? 1) && (Z.land (ic_localSessionCnt ino) 1 =? 1) &&
            (currSessionCnt =? ic_localSessionCnt ino))
    else Some false
  else
    let cacheValidityMS := FhgfsInode_getCacheValidityMS isDir cfg in
    Some (if cacheValidityMS =? 0 then false else elapsedMS <? cacheValidityMS).

(** ** Interleavings *)

Inductive InvalLabel :=
| Lb_start (groups : MirrorBuddyGroupMapper) (nodeID : Z) (thread_start : bool)
| Lb_start_log (o : nat)
| Lb_stop (call : nat) (nodeID : Z)
| Lb_stop_step (call : nat)
| Lb_stop_all
| Lb_join
| Lb_join_free
| Lb_thread (o : nat) (e : ThreadEnv)
| Lb_inode (entryID : list byte) (owner : NodeOrGroup)
| Lb_cache (groups : MirrorBuddyGroupMapper) (entryID : list byte)
| Lb_cache_end (entryID : list byte).

Definition inval_step (s : InvalSystem) (l : InvalLabel) : InvalOut :=
  match l with
  | Lb_start groups nodeID thread_start => InvalReader_startMetaThread groups nodeID thread_start s
  | Lb_start_log o => startMetaThread_log o s
  | Lb_stop call nodeID => stopMetaThread_find call nodeID s
  | Lb_stop_step call => stopMetaThread_step call s
  | Lb_stop_all => iv_of (InvalReader_stopInvalReader s)
  | Lb_join => __InvalReader_joinStoppedMetas s
  | Lb_join_free => joinStoppedMetas_free s
  | Lb_thread o e => __InvalReaderPerMeta_run o e s
  | Lb_inode entryID owner =>
      match iv_inodes s !! entryID with
      | Some _ => Iv_blocked
      | None => Iv_ok (set_inodes (<[entryID := MkInodeCache false 0 owner]> (iv_inodes s)) (iv_caching s) (iv_numRemoteInvals s) s)
      end
  | Lb_cache groups entryID => setCacheValid_begin groups entryID s
  | Lb_cache_end entryID => setCacheValid_end entryID s
  end.
Fixpoint inval_run (s : InvalSystem) (ls : list InvalLabel) : InvalOut :=
  match ls with
  | [] => Iv_ok s
  | l :: ls => match inval_step s l with Iv_ok s => inval_run s ls | out => out end
  end.

(** The calls for the nodes that a synchronisation has added and removed. *)
Inductive MetaThreadCall := Call_startMetaThread (nodeID : Z) | Call_stopMetaThread (nodeID : Z).
Definition InvalReader_updateMetaNodes (states : TargetStateStore) (s : InvalSystem) (added removed : list Z) :
    list MetaThreadCall :=
  if iv_shuttingDown s || iv_invalWatchFallback s then []
  else (Call_startMetaThread <$> List.filter (__InvalReader_metaIsOnline states) added) ++ (Call_stopMetaThread <$> removed).
