(* ===== verification/InvalReaderFacts.v ===== *)
(** * Remote invalidation of cached attributes: theorems

    The threads and their objects in all interleavings, and the numbers of sessions: with exclusive changes of a
    session, a session that has ended is never taken for another one; without, it is. *)

From S2P Require Import Prelude StorageErrors StorageFormats BuddyGroup Mappers MessagesStorage Acks MetaOps InvalReader.

(** ** Threads and their objects *)

(** The threads that have ended and are not freed: the one that is being joined and the list. *)
Definition ended_threads (s : InvalSystem) : list nat := option_list (iv_joining s) ++ iv_stoppedThreads s.

(** Every object is in exactly one list or is being joined, threads run exactly while they are in the first list, there is one thread
    per node, calls that stop a thread use objects of the first list, the objects that will still be
    named in a log message were started, and the number of threads is right as long as it fits. *)
Record inval_ok (s : InvalSystem) : Prop := {
  iv_nodup : NoDup (iv_metaThreads s ++ ended_threads s);
  iv_known : forall o, is_Some (iv_objs s !! o) <-> o ∈ iv_metaThreads s ++ ended_threads s;
  iv_running : forall o im, iv_objs s !! o = Some im -> o ∈ ended_threads s <-> im_pc im = Pc_stopped;
  iv_unique : forall o o' im im', o ∈ iv_metaThreads s -> o' ∈ iv_metaThreads s ->
    iv_objs s !! o = Some im -> iv_objs s !! o' = Some im' -> im_metaID im = im_metaID im' -> o = o';
  iv_stops_ok : forall call o sp, iv_stops s !! call = Some (o, sp) -> o ∈ iv_metaThreads s;
  iv_fresh : forall o, is_Some (iv_objs s !! o) \/ o ∈ iv_logs s -> (o < iv_next s)%nat;
  iv_count : Z.of_nat (iv_next s) < 2 ^ 32 -> iv_numMetas s = zlen (iv_metaThreads s)
}.

Lemma init_ok : inval_ok InvalReader_init.
Proof. split; cbn; try done; try (by constructor); intros; simplify_map_eq; set_solver. Qed.

(** The threads that run. *)
Lemma meta_known s o : inval_ok s -> o ∈ iv_metaThreads s -> exists im, iv_objs s !! o = Some im /\ im_pc im <> Pc_stopped.
Proof.
  intros Hok Ho. destruct (proj2 (iv_known s Hok o) ltac:(set_solver)) as [im E]. exists im. split; [done|].
  intros Hpc. apply (iv_running s Hok o im E) in Hpc. pose proof (iv_nodup s Hok) as Hnd. apply list.NoDup_app in Hnd as (_ & Hd & _).
  by apply (Hd o).
Qed.
Lemma running_meta s o im : inval_ok s -> iv_objs s !! o = Some im -> im_pc im <> Pc_stopped -> o ∈ iv_metaThreads s.
Proof.
  intros Hok E Hpc. pose proof (proj1 (iv_known s Hok o) ltac:(by eexists)) as Hin. apply elem_of_app in Hin as [?|Hst]; [done|].
  by apply (iv_running s Hok o im E) in Hst.
Qed.

Lemma find_in_some objs l id : (forall o, o ∈ l -> is_Some (objs !! o)) ->
  exists r, find_in objs l id = Some r /\
    match r with
    | Some (o, im) => o ∈ l /\ objs !! o = Some im /\ im_metaID im = id
    | None => forall o im, o ∈ l -> objs !! o = Some im -> im_metaID im <> id
    end.
Proof.
  induction l as [|o l IH]; intros Hl; cbn [find_in].
  { exists None. split; [done|]. intros ? ? H. by apply elem_of_nil in H. }
  destruct (Hl o ltac:(set_solver)) as [im E]. rewrite E. cbn [mbind option_bind].
  destruct (Z.eqb_spec (im_metaID im) id) as [Ei|Ei].
  - eexists. split; [done|]. cbn. set_solver.
  - destruct (IH ltac:(set_solver)) as (r & -> & Hr). exists r. split; [done|]. destruct r as [[o' im']|].
    + destruct Hr. set_solver.
    + intros o' im' [->|Ho]%elem_of_cons E'; [by simplify_eq|eauto].
Qed.
Lemma find_ok s id : inval_ok s -> exists r, __InvalReader_find s id = Some r /\
  match r with
  | Some (o, im) => o ∈ iv_metaThreads s /\ iv_objs s !! o = Some im /\ im_metaID im = id
  | None => forall o im, o ∈ iv_metaThreads s -> iv_objs s !! o = Some im -> im_metaID im <> id
  end.
Proof. intros Hok. apply find_in_some. intros o Ho. destruct (meta_known s o Hok Ho) as (im & E & _). by eexists. Qed.

Definition terminated (ids : list nat) (objs objs' : gmap nat InvalReaderPerMeta) : Prop :=
  forall o, objs' !! o = (if bool_decide (o ∈ ids) then Thread_selfTerminate else id) <$> objs !! o.
Lemma terminate_all_ok s : inval_ok s -> exists objs, terminate_all s = Some objs /\ terminated (iv_metaThreads s) (iv_objs s) objs.
Proof.
  intros Hok. unfold terminate_all.
  assert (Hin : forall o, o ∈ iv_metaThreads s -> is_Some (iv_objs s !! o)).
  { intros o Ho. destruct (meta_known s o Hok Ho) as (im & E & _). by eexists. }
  induction (iv_metaThreads s) as [|o l IH]; cbn [foldr].
  { eexists. split; [done|]. intros o. rewrite bool_decide_false by set_solver. by destruct (iv_objs s !! o). }
  destruct IH as (objs & -> & Ht); [intros o' Ho'; apply Hin, elem_of_cons; by right|]. cbn [mbind option_bind].
  destruct (Hin o ltac:(apply elem_of_cons; by left)) as [im Eo]. pose proof (Ht o) as Eo'. rewrite Eo in Eo'. cbn [fmap option_fmap option_map] in Eo'.
  rewrite Eo'. cbn [mbind option_bind]. eexists. split; [done|]. intros o'. destruct (decide (o' = o)) as [->|Hne].
  - rewrite lookup_insert_eq, Eo, (bool_decide_true (o ∈ o :: l)) by (apply elem_of_cons; by left). cbn [fmap option_fmap option_map]. by destruct (bool_decide (o ∈ l)).
  - rewrite lookup_insert_ne, Ht by done. rewrite (bool_decide_ext (o' ∈ o :: l) (o' ∈ l)); [done|set_solver].
Qed.

(** Changes that do not concern the lists. *)
Lemma replace_ok s objs : inval_ok s ->
  (forall o im', objs !! o = Some im' -> exists im, iv_objs s !! o = Some im /\ im_metaID im' = im_metaID im /\
     (im_pc im' = Pc_stopped <-> im_pc im = Pc_stopped)) ->
  (forall o, is_Some (iv_objs s !! o) -> is_Some (objs !! o)) -> inval_ok (set_objs objs s).
Proof.
  intros Hok Hold Hall. destruct Hok as [Hnd Hk Hr Hu Hs Hf Hc]. split; cbn [set_objs iv_metaThreads iv_objs iv_stops iv_next iv_numMetas]; try done.
  - intros o. rewrite <- Hk. split; [|by apply Hall]. intros [im' E]. destruct (Hold o im' E) as (im & E' & _). by eexists.
  - intros o im' E. destruct (Hold o im' E) as (im & E' & _ & Hpc). rewrite Hpc. by apply Hr.
  - intros o o' im im' Ho Ho' E E'. destruct (Hold o im E) as (i1 & E1 & -> & _). destruct (Hold o' im' E') as (i2 & E2 & -> & _).
    by apply Hu.
  - intros o [[im' E]|Hl]; apply Hf; [left|by right]. destruct (Hold o im' E) as (im & E' & _). by eexists.
Qed.
Lemma update_ok s o im im' : inval_ok s -> iv_objs s !! o = Some im -> im_metaID im' = im_metaID im ->
  (im_pc im' = Pc_stopped <-> im_pc im = Pc_stopped) -> inval_ok (set_objs (<[o := im']> (iv_objs s)) s).
Proof.
  intros Hok E Hid Hpc. apply replace_ok; [done|..].
  - intros o' i' [[<- <-]|[Hne E']]%lookup_insert_Some; [by exists im|by exists i'].
  - intros o' Hs. rewrite lookup_insert_is_Some. destruct (decide (o = o')); auto.
Qed.
Lemma terminated_ok s ids objs : inval_ok s -> terminated ids (iv_objs s) objs -> inval_ok (set_objs objs s).
Proof.
  intros Hok Ht. apply replace_ok; [done|..].
  - intros o im' E. rewrite (Ht o) in E. apply fmap_Some in E as (im & E & ->). exists im. by destruct (bool_decide _).
  - intros o [im E]. rewrite (Ht o), E. by eexists.
Qed.
Lemma frame_stops s stops : inval_ok s -> (forall call o sp, stops !! call = Some (o, sp) -> o ∈ iv_metaThreads s) ->
  inval_ok (set_stops stops s).
Proof. by intros []. Qed.
Lemma frame_down s a b : inval_ok s -> inval_ok (set_down a b s).
Proof. by intros []. Qed.
Lemma frame_global s g : inval_ok s -> inval_ok (set_global g s).
Proof. by intros []. Qed.
Lemma frame_inodes s i c n : inval_ok s -> inval_ok (set_inodes i c n s).
Proof. by intros []. Qed.
Lemma frame_logs s logs : inval_ok s -> logs ⊆ iv_logs s -> inval_ok (set_logs logs s).
Proof. intros [] Hl. split; try done. intros o [Ho|Ho]; auto. Qed.

(** A step keeps the structure or waits; it does not use a freed object. *)
Definition step_ok (o : InvalOut) : Prop :=
  match o with Iv_ok s => inval_ok s | Iv_blocked => True | Iv_fault => False end.

Lemma start_ok groups node t s : inval_ok s -> step_ok (InvalReader_startMetaThread groups node t s).
Proof.
  intros Hok. unfold InvalReader_startMetaThread. destruct (negb _); [done|].
  destruct (find_ok s node Hok) as (r & -> & Hr). destruct r as [[o im]|]; [by case_match|].
  repeat (case_match; [done|]). destruct t; [|done]. cbn [step_ok].
  destruct Hok as [Hnd Hk Hru Hu Hs Hf Hc].
  assert (Hnew : iv_objs s !! iv_next s = None).
  { destruct (iv_objs s !! iv_next s) eqn:E; [|done]. specialize (Hf (iv_next s) ltac:(left; by eexists)). lia. }
  assert (Hnin : iv_next s ∉ iv_metaThreads s ++ ended_threads s).
  { rewrite <- Hk, Hnew. by intros []. }
  split; cbn [iv_metaThreads iv_objs iv_stops iv_next iv_numMetas iv_logs].
  - cbn [app]. by constructor.
  - intros o. rewrite lookup_insert_is_Some, Hk. cbn [app]. rewrite elem_of_cons. destruct (decide (iv_next s = o)); naive_solver.
  - intros o im [[<- <-]|[Hne E]]%lookup_insert_Some; [|by apply Hru]. cbn. split; [set_solver|done].
  - intros o o' im im' Ho Ho' E E' Hid.
    apply lookup_insert_Some in E as [[<- <-]|[Hne E]]; apply lookup_insert_Some in E' as [[<- <-]|[Hne' E']]; try done.
    + destruct (Hr o' im'); [set_solver|done|]. by rewrite <- Hid.
    + destruct (Hr o im); [set_solver|done|]. by rewrite Hid.
    + eapply Hu; try done; set_solver.
  - intros call o sp E. apply elem_of_cons. right. eauto.
  - intros o [[<-|[im E]]%lookup_insert_is_Some'|[->%elem_of_singleton|Hl]%elem_of_union]; try lia;
      [specialize (Hf o ltac:(left; by eexists))|specialize (Hf o (or_intror Hl))]; lia.
  - intros Hb. rewrite Hc by lia. rewrite zlen_cons.
    assert ((length (iv_metaThreads s) <= iv_next s)%nat).
    { rewrite <- (length_seq (iv_next s) 0). apply NoDup_incl_length; [apply NoDup_ListNoDup; by apply list.NoDup_app in Hnd as (? & _)|].
      intros o Ho%list_elem_of_In. apply in_seq. split; [lia|]. apply Hf. left. apply Hk. set_solver. }
    rewrite u32_small; unfold zlen; lia.
Qed.

Lemma stop_find_ok call node s : inval_ok s -> step_ok (stopMetaThread_find call node s).
Proof.
  intros Hok. unfold stopMetaThread_find. case_match; [done|].
  destruct (find_ok s node Hok) as (r & -> & Hr). destruct r as [[o im]|]; [|done]. destruct Hr as (Ho & _).
  cbn [step_ok]. apply frame_stops; [done|]. intros c o' sp [[<- [= <- <-]]|[_ E]]%lookup_insert_Some; [done|].
  by eapply iv_stops_ok.
Qed.
Lemma session_same sp im : let im' := (invalidateSession sp im).1 in
  im_metaID im' = im_metaID im /\ im_pc im' = im_pc im.
Proof. by destruct sp. Qed.
Lemma stop_step_ok call s : inval_ok s -> step_ok (stopMetaThread_step call s).
Proof.
  intros Hok. unfold stopMetaThread_step. destruct (iv_stops s !! call) as [[o sp]|] eqn:Ec; [|done].
  pose proof (iv_stops_ok s Hok _ _ _ Ec) as Ho. destruct (meta_known s o Hok Ho) as (im & E & _). rewrite E.
  destruct sp as [sp|]; cbn [step_ok].
  - pose proof (session_same sp im) as [H1 H2]. destruct (invalidateSession sp im) as [im' sp']. cbn [fst] in H1, H2.
    apply frame_stops; [apply (update_ok s o im); [done|done|done|by rewrite H2]|].
    intros c o' sp2 [[<- [= <- <-]]|[_ E2]]%lookup_insert_Some; [done|]. cbn. by eapply iv_stops_ok.
  - apply frame_stops; [by apply (update_ok s o im)|]. intros c o' sp2 [_ E2]%lookup_delete_Some. cbn. by eapply iv_stops_ok.
Qed.
Lemma stop_all_ok s : inval_ok s -> step_ok (iv_of (InvalReader_stopInvalReader s)).
Proof.
  intros Hok. unfold InvalReader_stopInvalReader, __InvalReader_requestStopAllThreads.
  pose proof (frame_down s true (iv_invalWatchFallback s) Hok) as Hd.
  destruct (terminate_all_ok _ Hd) as (objs & -> & Ht). cbn. by eapply terminated_ok.
Qed.
Lemma start_log_ok o s : inval_ok s -> is_Some (iv_objs s !! o) \/ o ∉ iv_logs s -> step_ok (startMetaThread_log o s).
Proof.
  intros Hok Ho. unfold startMetaThread_log. case_bool_decide as Hl; [|done]. destruct Ho as [[im ->]|]; [|done].
  apply frame_logs; [done|set_solver].
Qed.
(** Taking a thread from the list leaves the threads that have ended as they are. *)
Lemma join_ended s : match __InvalReader_joinStoppedMetas s with
  | Iv_ok s' => ended_threads s' = ended_threads s /\ iv_objs s' = iv_objs s
  | _ => True end.
Proof. unfold __InvalReader_joinStoppedMetas, ended_threads. destruct (iv_joining s); [done|]. by destruct (iv_stoppedThreads s). Qed.
Lemma join_ok s : inval_ok s -> step_ok (__InvalReader_joinStoppedMetas s).
Proof.
  intros []. pose proof (join_ended s) as He. unfold __InvalReader_joinStoppedMetas in *.
  destruct (iv_joining s); [done|]. destruct (iv_stoppedThreads s); [done|]. destruct He as [He _]. split; rewrite ?He; done.
Qed.
Lemma join_free_ok s : inval_ok s -> step_ok (joinStoppedMetas_free s).
Proof.
  intros Hok. unfold joinStoppedMetas_free. destruct (iv_joining s) as [o|] eqn:El; [|done].
  assert (He : ended_threads s = o :: iv_stoppedThreads s) by (unfold ended_threads; by rewrite El).
  destruct (proj2 (iv_known s Hok o)) as [im E]; [rewrite He; set_solver|]. rewrite E. destruct (im_pc im); try done. cbn [step_ok].
  destruct Hok as [Hnd Hk Hru Hu Hs Hf Hc]. rewrite He in *. apply list.NoDup_app in Hnd as (Hm & Hd & [Hl1 Hl2]%list.NoDup_cons).
  assert (Hno : o ∉ iv_metaThreads s) by (intros Hom; by apply (Hd o Hom), elem_of_cons; left).
  split; cbn [set_objs set_joining iv_metaThreads iv_objs iv_stops iv_next iv_numMetas iv_logs ended_threads option_list iv_joining iv_stoppedThreads app].
  - apply list.NoDup_app. split_and!; [done| |done]. intros o' Ho' Hl. apply (Hd o' Ho'), elem_of_cons. by right.
  - intros o'. rewrite lookup_delete_is_Some, Hk, !elem_of_app, elem_of_cons. destruct (decide (o = o')); naive_solver.
  - intros o' im' [Hne E']%lookup_delete_Some. rewrite <- (Hru o' im' E'), elem_of_cons. naive_solver.
  - intros o1 o2 i1 i2 H1 H2 [_ E1]%lookup_delete_Some [_ E2]%lookup_delete_Some. by eapply Hu.
  - done.
  - intros o' [[im' [_ E']%lookup_delete_Some]|Hl]; apply Hf; [left; by eexists|by right].
  - done.
Qed.

Lemma elem_of_without o o' l : o' ∈ List.filter (fun x => negb (x =? o)%nat) l <-> o' ∈ l /\ o' <> o.
Proof. rewrite !list_elem_of_In, filter_In, negb_true_iff, Nat.eqb_neq. done. Qed.
Lemma NoDup_without o l : NoDup l -> NoDup (List.filter (fun x => negb (x =? o)%nat) l).
Proof. rewrite !NoDup_ListNoDup. apply List.NoDup_filter. Qed.
Lemma length_without o l : NoDup l -> o ∈ l -> length l = S (length (List.filter (fun x => negb (x =? o)%nat) l)).
Proof.
  induction l as [|x l IH]; intros Hnd Ho; [by apply elem_of_nil in Ho|]. apply list.NoDup_cons in Hnd as [Hx Hnd]. cbn [List.filter].
  destruct (Nat.eqb_spec x o) as [->|Hne]; cbn [negb length].
  - f_equal. rewrite (forallb_filter_id _ l); [done|]. apply forallb_forall. intros y Hy%list_elem_of_In.
    apply negb_true_iff, Nat.eqb_neq. by intros ->.
  - rewrite <- IH; [done|done|]. by apply elem_of_cons in Ho as [->|?].
Qed.

(** A thread ends. *)
Lemma exit_ok s o im : inval_ok s -> iv_objs s !! o = Some im -> im_pc im <> Pc_stopped -> iv_stops s = ∅ ->
  inval_ok (set_lists (List.filter (fun o' => negb (o' =? o)%nat) (iv_metaThreads s)) (iv_stoppedThreads s ++ [o])
    (if iv_numMetas s =? 0 then 0 else iv_numMetas s - 1) (set_objs (<[o := im_set_pc Pc_stopped im]> (iv_objs s)) s)).
Proof.
  intros Hok E Hpc Hst. pose proof (running_meta s o im Hok E Hpc) as Ho. destruct Hok as [Hnd Hk Hr Hu Hs Hf Hc].
  apply list.NoDup_app in Hnd as (Hm & Hd & Hl).
  assert (He : forall l1 n objs, ended_threads (set_lists l1 (iv_stoppedThreads s ++ [o]) n (set_objs objs s)) = ended_threads s ++ [o])
    by (intros; unfold ended_threads; cbn; by rewrite app_assoc).
  split; rewrite ?He; cbn [set_lists set_objs iv_metaThreads iv_objs iv_stops iv_next iv_numMetas iv_logs].
  - apply list.NoDup_app. split_and!; [by apply NoDup_without| |].
    + intros o' [Ho' Hne]%elem_of_without [Hin| ->%list_elem_of_singleton]%elem_of_app; [by apply (Hd o')|done].
    + apply list.NoDup_app. split_and!; [done| |apply NoDup_singleton]. intros o' Ho' ->%list_elem_of_singleton. by apply (Hd o).
  - intros o'. rewrite lookup_insert_is_Some', Hk, !elem_of_app, elem_of_without, list_elem_of_singleton.
    destruct (decide (o' = o)); naive_solver.
  - intros o' im' [[<- <-]|[Hne E']]%lookup_insert_Some; rewrite elem_of_app, list_elem_of_singleton; [naive_solver|].
    rewrite <- (Hr o' im' E'). naive_solver.
  - intros o1 o2 i1 i2 [H1 N1]%elem_of_without [H2 N2]%elem_of_without E1 E2. rewrite lookup_insert_ne in E1, E2 by done. by apply Hu.
  - rewrite Hst. intros call o' sp E'. by rewrite lookup_empty in E'.
  - intros o' [[<-|Ho']%lookup_insert_is_Some'|Hl']; apply Hf; [left; by eexists|by left|by right].
  - intros Hb. rewrite Hc by done. unfold zlen. rewrite (length_without o _ Hm Ho).
    generalize (length (List.filter (fun o' => negb (o' =? o)%nat) (iv_metaThreads s))). intros n.
    destruct (Z.eqb_spec (Z.of_nat (S n)) 0); lia.
Qed.

Lemma mark_ok id s : inval_ok s -> inval_ok (mark_inode id s).
Proof. intros Hok. unfold mark_inode. case_match; [by apply frame_inodes|done]. Qed.
Lemma finish_ok s o im im' d flags : inval_ok s -> iv_objs s !! o = Some im -> im_pc im <> Pc_stopped -> im_metaID im' = im_metaID im ->
  step_ok (finish_error o d flags im' s).
Proof.
  intros Hok E Hpc Hid. unfold finish_error.
  assert (Hu : inval_ok (set_objs (<[o := next_request flags (ed_stop d || ed_fallback d)
    (if ed_stop d then Thread_selfTerminate im' else im')]> (iv_objs s)) s)) by (apply (update_ok s o im); [done|done|by case_match|done]).
  destruct (ed_fallback d); [by apply stop_all_ok, frame_down|done].
Qed.

Lemma thread_ok o e s : inval_ok s -> step_ok (__InvalReaderPerMeta_run o e s).
Proof.
  intros Hok. unfold __InvalReaderPerMeta_run. destruct (iv_objs s !! o) as [im|] eqn:E; [|done]. cbv zeta.
  assert (Hup : forall im', im_metaID im' = im_metaID im -> (im_pc im' = Pc_stopped <-> im_pc im = Pc_stopped) ->
    inval_ok (set_objs (<[o := im']> (iv_objs s)) s)) by (intros; by apply (update_ok s o im)).
  destruct (im_pc im) as [|resync|sp d flags|data|n data|data|ids data|] eqn:Epc.
  - destruct (im_selfTerminate im || im_shouldBreak im).
    + case_bool_decide; [|done]. cbn [negb step_ok]. apply exit_ok; [done|done|by rewrite Epc|done].
    + case_match; [by apply Hup|]. destruct (im_sessionValid im); by apply Hup.
  - destruct (negb _); [apply Hup; [done|by destruct resync]|]. destruct (ed_invalidate _); by apply Hup.
  - pose proof (session_same sp im) as [H1 H2]. destruct (invalidateSession sp im) as [im' [sp'|]]; cbn [fst] in H1, H2.
    + by apply Hup.
    + apply (finish_ok s o im); [done|done|by rewrite Epc|done].
  - cbn [step_ok]. by apply frame_global, Hup.
  - by apply Hup.
  - by apply Hup.
  - destruct ids as [|id ids]; cbn [step_ok]; [by apply frame_inodes, Hup|by apply mark_ok, Hup].
  - done.
Qed.

Lemma cache_ok groups entryID s : inval_ok s -> step_ok (setCacheValid_begin groups entryID s).
Proof.
  intros Hok. unfold setCacheValid_begin. repeat case_match; try done; try by apply frame_inodes.
  unfold InvalReader_getMetaSessionCnt in *. by destruct (find_ok s (__FhgfsInode_getSessionMetaID groups i) Hok) as (r & Er & _); rewrite Er in *.
Qed.
Lemma cache_end_ok entryID s : inval_ok s -> step_ok (setCacheValid_end entryID s).
Proof. intros Hok. unfold setCacheValid_end. repeat case_match; try done. by apply frame_inodes. Qed.

(** The access of the call that started a thread to an object that has been freed since. *)
Definition late_log (s : InvalSystem) (l : InvalLabel) : Prop :=
  exists o, l = Lb_start_log o /\ o ∈ iv_logs s /\ iv_objs s !! o = None.
Lemma inval_step_ok s l : inval_ok s -> step_ok (inval_step s l) \/ late_log s l /\ inval_step s l = Iv_fault.
Proof.
  intros Hok. destruct l as [groups node t|o| | | | | | | | |]; cbn [inval_step];
    [by left; apply start_ok| |left..];
    [|by apply stop_find_ok|by apply stop_step_ok|by apply stop_all_ok|by apply join_ok|by apply join_free_ok|by apply thread_ok| |
     by apply cache_ok|by apply cache_end_ok].
  - destruct (decide (o ∈ iv_logs s)) as [Hl|]; [|left; by apply start_log_ok; [|right]].
    destruct (iv_objs s !! o) as [im|] eqn:E; [left; apply start_log_ok; [done|left; by eexists]|right].
    split; [by exists o|]. unfold startMetaThread_log. by rewrite bool_decide_true, E.
  - case_match; [done|by apply frame_inodes].
Qed.
Lemma inval_step_some s l s' : inval_ok s -> inval_step s l = Iv_ok s' -> inval_ok s'.
Proof. intros Hok E. destruct (inval_step_ok s l Hok) as [H|[_ H]]; by rewrite E in H. Qed.


(** ** Sessions *)

Definition stop_writes (s : InvalSystem) (o : nat) (sp : SessionPc) : Prop :=
  exists call, iv_stops s !! call = Some (o, Some sp).
Definition thread_writes (im : InvalReaderPerMeta) : bool :=
  match im_pc im with Pc_session _ _ _ | Pc_set _ _ | Pc_valid _ => true | _ => false end.
Definition thread_at (im : InvalReaderPerMeta) (sp : SessionPc) : Prop := exists d f, im_pc im = Pc_session sp d f.

(** Nobody else changes a session at the same time, and its numbers have not wrapped around. *)
Record exclusive (s : InvalSystem) : Prop := {
  ex_stops : forall c1 c2 o sp1 sp2, iv_stops s !! c1 = Some (o, Some sp1) -> iv_stops s !! c2 = Some (o, Some sp2) -> c1 = c2;
  ex_thread : forall o sp im, stop_writes s o sp -> iv_objs s !! o = Some im -> thread_writes im = false;
  ex_number : iv_globalSessionCnt s < 2 ^ 31 - 2
}.
Fixpoint exclusive_run (s : InvalSystem) (ls : list InvalLabel) : Prop :=
  exclusive s /\
  match ls with
  | [] => True
  | l :: ls => match inval_step s l with Iv_ok s' => exclusive_run s' ls | _ => True end
  end.

(** The session of an object: [g]: the next number, [W]: what is being done to it. *)
Record session_ok (g : Z) (W : SessionPc -> Prop) (im : InvalReaderPerMeta) : Prop := {
  se_range : 0 <= im_sessionCnt im <= g;
  se_inc : W Sp_inc -> im_sessionValid im = true /\ Z.odd (im_sessionCnt im) = true;
  se_clear : W Sp_clear -> Z.odd (im_sessionCnt im) = false;
  se_valid : im_sessionValid im = true -> Z.odd (im_sessionCnt im) = true \/ W Sp_clear;
  se_begin : match im_pc im with Pc_wait true | Pc_number _ | Pc_set _ _ | Pc_valid _ => im_sessionValid im = false | _ => True end;
  se_invalid : im_sessionValid im = false ->
    Z.odd (im_sessionCnt im) = match im_pc im with Pc_valid _ => true | _ => false end;
  se_set : match im_pc im with Pc_set n _ => Z.odd n = false /\ 0 <= n <= g - 2 | _ => True end
}.
Definition acts (s : InvalSystem) (o : nat) (im : InvalReaderPerMeta) (sp : SessionPc) : Prop :=
  stop_writes s o sp \/ thread_at im sp.
Record sessions_ok (s : InvalSystem) : Prop := {
  ss_even : Z.odd (iv_globalSessionCnt s) = false;
  ss_pos : 0 <= iv_globalSessionCnt s;
  ss_obj : forall o im, iv_objs s !! o = Some im -> session_ok (iv_globalSessionCnt s) (acts s o im) im
}.

(** The session of an object as far as it matters. *)
Definition session_view (im : InvalReaderPerMeta) := (im_sessionCnt im, im_sessionValid im, im_pc im).
Lemma session_ok_ext g g' (W W' : SessionPc -> Prop) im im' : session_ok g W im -> g <= g' -> session_view im' = session_view im ->
  (forall sp, W' sp <-> W sp) -> session_ok g' W' im'.
Proof.
  intros [] Hg [= E1 E2 E3] HW. split; rewrite ?E1, ?E2, ?E3, ?HW; try done; [lia|]. clear E3. destruct (im_pc im); try done. destruct se_set0. split; [done|lia].
Qed.
Lemma acts_view s s' o im im' sp : (stop_writes s' o sp <-> stop_writes s o sp) -> session_view im' = session_view im ->
  acts s' o im' sp <-> acts s o im sp.
Proof. intros Hs [= _ _ E]. unfold acts, thread_at. by rewrite Hs, E. Qed.

(** Steps that leave all sessions alone. *)
Lemma sessions_frame s s' : sessions_ok s -> iv_globalSessionCnt s' = iv_globalSessionCnt s ->
  (forall o sp, sp <> Sp_check -> stop_writes s' o sp <-> stop_writes s o sp) ->
  (forall o im', iv_objs s' !! o = Some im' -> exists im, iv_objs s !! o = Some im /\ session_view im' = session_view im) ->
  sessions_ok s'.
Proof.
  intros [He Hp Ho] Hg Hst Hobj. split; rewrite ?Hg; try done. intros o im' E. destruct (Hobj o im' E) as (im & E' & Hv).
  specialize (Ho o im E'). destruct Ho. injection Hv as E1 E2 E3.
  assert (Ha : forall sp, sp <> Sp_check -> acts s' o im' sp <-> acts s o im sp).
  { intros sp Hsp. apply acts_view; [by apply Hst|]. unfold session_view. congruence. }
  split; rewrite ?E1, ?E2, ?E3, ?Ha by done; done.
Qed.
(** Steps that change one object. *)
Lemma sessions_put s s' o im' : sessions_ok s -> iv_globalSessionCnt s <= iv_globalSessionCnt s' ->
  Z.odd (iv_globalSessionCnt s') = false ->
  (forall o2 sp, o2 <> o -> stop_writes s' o2 sp <-> stop_writes s o2 sp) ->
  (forall o2, o2 <> o -> iv_objs s' !! o2 = iv_objs s !! o2) ->
  iv_objs s' !! o = Some im' -> session_ok (iv_globalSessionCnt s') (acts s' o im') im' -> sessions_ok s'.
Proof.
  intros [He Hp Ho] Hg Hodd Hst Hobj E' Hok. split; [done|lia|]. intros o2 im2 E2. destruct (decide (o2 = o)) as [->|Hne].
  - by simplify_eq.
  - rewrite Hobj in E2 by done. eapply session_ok_ext; [by apply Ho|done|done|]. intros sp. apply acts_view; [by apply Hst|done].
Qed.

Lemma odd_succ_small n g : 0 <= n <= g -> g < 2 ^ 31 - 2 -> Z.odd n = true -> Z.odd g = false ->
  s32 (n + 1) = n + 1 /\ n + 1 <= g /\ Z.odd (n + 1) = false.
Proof.
  intros Hn Hg Ho He. assert (n <> g) by congruence. split_and!; [|lia|by rewrite Z.add_1_r, Z.odd_succ, <- Z.negb_odd, Ho].
  unfold s32. rewrite <- (signed_inv 32 (n + 1)) at 2; [|done|split; lia]. unfold signed. by rewrite Zmod_mod.
Qed.

(** An access of the only one that changes a session, to an object on which the thread does not begin one.  [W]: nobody else. *)
Lemma invalidate_session_ok g W sp im : session_ok g W im -> Z.odd g = false -> g < 2 ^ 31 - 2 -> W sp ->
  (forall sp', W sp' -> sp' = sp) -> (forall data, im_pc im <> Pc_valid data) ->
  let '(im', sp') := invalidateSession sp im in
  session_ok g (fun x => sp' = Some x) im' /\ im_pc im' = im_pc im /\
  (sp' = None -> im_sessionValid im' = false /\ Z.odd (im_sessionCnt im') = false).
Proof.
  intros [Hr Hi Hc Hv Hb Hn Hs] He Hg HW Honly Hpc.
  assert (Hnv : im_sessionValid im = false -> Z.odd (im_sessionCnt im) = false).
  { intros E. rewrite Hn by done. destruct (im_pc im); try done. by destruct (Hpc data). }
  destruct sp; cbn [invalidateSession].
  - destruct (im_sessionValid im) eqn:Ev; (split; [|done]); split; rewrite ?Ev; try done.
    + intros _. destruct (Hv eq_refl) as [Ho|Hcl]; [done|by apply Honly in Hcl].
    + intros _. destruct (Hv eq_refl) as [Ho|Hcl]; [by left|by apply Honly in Hcl].
    + intros _. by apply Hnv.
  - destruct (Hi HW) as [Ev Eo]. destruct (odd_succ_small _ g Hr Hg Eo He) as (E1 & E2 & E3). split; [|done].
    split; cbn [im_set_session im_sessionCnt im_sessionValid im_pc]; rewrite ?E1, ?E3, ?Ev; try done; [lia|by right|].
    rewrite Ev in Hb. done.
  - split; [|split; [done|]]; [|by intros _; split; [done|apply Hc]].
    split; cbn [im_set_session im_sessionCnt im_sessionValid im_pc]; try done.
    + by destruct (im_pc im) as [|[]| | | | | |].
    + intros _. rewrite (Hc HW). destruct (im_pc im); try done. by destruct (Hpc data).
Qed.

Lemma sessions_start groups node t s s' : sessions_ok s -> inval_ok s -> InvalReader_startMetaThread groups node t s = Iv_ok s' ->
  sessions_ok s'.
Proof.
  intros Hs Hok. unfold InvalReader_startMetaThread.
  destruct (negb _); [by intros [= <-]|]. destruct (__InvalReader_find s node) as [[[o im]|]|]; [by case_match; intros; simplify_eq| |done].
  case_match; [by intros [= <-]|]. case_match eqn:Eb; [done|]. destruct t; [|by intros [= <-]]. intros [= <-].
  apply negb_false_iff, bool_decide_eq_true in Eb.
  eapply (sessions_put s _ (iv_next s)); [done|done|apply Hs|done| |cbn; by rewrite lookup_insert_eq|].
  - intros o2 Hne. cbn. by rewrite lookup_insert_ne.
  - split; cbn; try done; [split; [done|apply Hs]|].
    intros [(call & E)|(d & f & E)]; [|done]. cbn in E. by rewrite Eb, lookup_empty in E.
Qed.

(** The writers after a step of a stopping call. *)
Lemma stop_writes_other s call o sp x o2 sp2 objs : iv_stops s !! call = Some (o, sp) -> o2 <> o ->
  stop_writes (set_stops (<[call := (o, x)]> (iv_stops s)) (set_objs objs s)) o2 sp2 <-> stop_writes s o2 sp2.
Proof.
  intros E Hne. unfold stop_writes. cbn. split; intros [c Ec]; exists c.
  - apply lookup_insert_Some in Ec as [[_ [= <- _]]|[_ Ec]]; done.
  - rewrite lookup_insert_ne; [done|]. intros <-. by simplify_eq.
Qed.
Lemma stop_writes_deleted s call o o2 sp2 objs : iv_stops s !! call = Some (o, None) ->
  stop_writes (set_stops (delete call (iv_stops s)) (set_objs objs s)) o2 sp2 <-> stop_writes s o2 sp2.
Proof.
  intros E. unfold stop_writes. cbn. split; intros [c Ec]; exists c.
  - by apply lookup_delete_Some in Ec as [_ Ec].
  - rewrite lookup_delete_ne; [done|]. intros <-. by simplify_eq.
Qed.

Lemma sessions_stop_find call node s s' : sessions_ok s -> stopMetaThread_find call node s = Iv_ok s' -> sessions_ok s'.
Proof.
  intros Hs. unfold stopMetaThread_find. case_bool_decide as Hd; [done|].
  destruct (__InvalReader_find s node) as [[[o im]|]|]; intros; simplify_eq; [|done].
  apply (sessions_frame s); [done|done| |by eauto].
  intros o2 sp Hsp. unfold stop_writes. cbn. split; intros [c Ec]; exists c.
  - apply lookup_insert_Some in Ec as [[_ [= _ <-]]|[_ Ec]]; done.
  - rewrite lookup_insert_ne; [done|]. intros <-. apply Hd, elem_of_dom. by eexists.
Qed.

Lemma sessions_stop_step call s s' : sessions_ok s -> exclusive s -> stopMetaThread_step call s = Iv_ok s' -> sessions_ok s'.
Proof.
  intros Hs Hex. unfold stopMetaThread_step. destruct (iv_stops s !! call) as [[o sp]|] eqn:Ec; [|done].
  destruct (iv_objs s !! o) as [im|] eqn:Eo; [|by destruct sp]. destruct sp as [sp|].
  - assert (Hw : stop_writes s o sp) by (by exists call). pose proof (ex_thread s Hex o sp im Hw Eo) as Hth.
    assert (Honly : forall sp', acts s o im sp' -> sp' = sp).
    { intros sp' [(c & E)|(d & f & E)]; [|unfold thread_writes in Hth; by rewrite E in Hth].
      pose proof (ex_stops s Hex _ _ _ _ _ E Ec) as ->. congruence. }
    pose proof (invalidate_session_ok _ (acts s o im) sp im (ss_obj s Hs o im Eo) (ss_even s Hs) (ex_number s Hex) ltac:(by left) Honly) as Hi.
    destruct (invalidateSession sp im) as [im' sp']. destruct Hi as (Hi & Hpc & _).
    { intros data E. unfold thread_writes in Hth. by rewrite E in Hth. }
    intros [= <-]. eapply (sessions_put s _ o); [done|done|apply Hs| | |cbn; by rewrite lookup_insert_eq|].
    + intros o2 sp2 Hne. by eapply stop_writes_other.
    + intros o2 Hne. cbn. by rewrite lookup_insert_ne.
    + eapply session_ok_ext; [exact Hi|done|done|]. intros x. split.
      * intros [(c & E)|(d & f & E)].
        -- cbn in E. apply lookup_insert_Some in E as [[_ [= ->]]|[Hne E]]; [done|]. by destruct Hne; eapply (ex_stops s Hex).
        -- unfold thread_writes in Hth. by rewrite <- Hpc, E in Hth.
      * intros ->. left. exists call. cbn. by rewrite lookup_insert_eq.
  - intros [= <-]. apply (sessions_frame s); [done|done| |].
    + intros o2 sp _. by eapply stop_writes_deleted.
    + cbn. intros o2 im' [[<- <-]|[_ E]]%lookup_insert_Some; [by exists im|by exists im'].
Qed.

Lemma sessions_terminated s ids objs : sessions_ok s -> terminated ids (iv_objs s) objs -> sessions_ok (set_objs objs s).
Proof.
  intros Hs Ht. apply (sessions_frame s); [done|done|done|]. cbn. intros o im' E. rewrite (Ht o) in E.
  apply fmap_Some in E as (im & E & ->). exists im. by destruct (bool_decide _).
Qed.
Lemma stop_all_frame s s' : inval_ok s -> InvalReader_stopInvalReader s = Some s' ->
  exists objs, terminated (iv_metaThreads s) (iv_objs s) objs /\ s' = set_objs objs (set_down true (iv_invalWatchFallback s) s).
Proof.
  intros Hok. unfold InvalReader_stopInvalReader, __InvalReader_requestStopAllThreads.
  destruct (terminate_all_ok _ (frame_down s true (iv_invalWatchFallback s) Hok)) as (objs & -> & Ht). intros [= <-].
  by exists objs.
Qed.
Lemma sessions_down a b s : sessions_ok s -> sessions_ok (set_down a b s).
Proof. intros Hs. by apply (sessions_frame s); eauto. Qed.
Lemma sessions_stop_all s s' : inval_ok s -> sessions_ok s -> InvalReader_stopInvalReader s = Some s' -> sessions_ok s'.
Proof. intros Hok Hs E. destruct (stop_all_frame s s' Hok E) as (objs & Ht & ->). by eapply sessions_terminated, Ht; apply sessions_down. Qed.
Lemma sessions_join s s' : sessions_ok s -> __InvalReader_joinStoppedMetas s = Iv_ok s' -> sessions_ok s'.
Proof.
  intros Hs. unfold __InvalReader_joinStoppedMetas. repeat case_match; try done. intros [= <-].
  by apply (sessions_frame s); eauto.
Qed.
Lemma sessions_join_free s s' : sessions_ok s -> joinStoppedMetas_free s = Iv_ok s' -> sessions_ok s'.
Proof.
  intros Hs. unfold joinStoppedMetas_free. repeat case_match; try done. intros [= <-].
  apply (sessions_frame s); [done|done|done|]. cbn. intros o im' [_ E]%lookup_delete_Some. eauto.
Qed.
Lemma sessions_start_log o s s' : sessions_ok s -> startMetaThread_log o s = Iv_ok s' -> sessions_ok s'.
Proof.
  intros Hs. unfold startMetaThread_log. repeat case_match; try done. intros [= <-]. by apply (sessions_frame s); eauto.
Qed.

(** A thread changes its own object, the numbers, the inodes and the lists. *)
Lemma sessions_thread_put s o im im' g' l1 l2 n inodes caching invals : sessions_ok s -> iv_objs s !! o = Some im ->
  iv_globalSessionCnt s <= g' -> Z.odd g' = false -> session_ok g' (acts s o im') im' ->
  sessions_ok (set_inodes inodes caching invals (set_lists l1 l2 n (set_global g' (set_objs (<[o := im']> (iv_objs s)) s)))).
Proof.
  intros Hs E Hg Hodd Hok. eapply (sessions_put s _ o); [done|done|done|done| |cbn; by rewrite lookup_insert_eq|done].
  intros o2 Hne. cbn. by rewrite lookup_insert_ne.
Qed.
(** The normal forms of the states after a step of a thread. *)
Lemma thread_state s objs : set_objs objs s = set_inodes (iv_inodes s) (iv_caching s) (iv_numRemoteInvals s)
  (set_lists (iv_metaThreads s) (iv_stoppedThreads s) (iv_numMetas s) (set_global (iv_globalSessionCnt s) (set_objs objs s))).
Proof. by destruct s. Qed.

(** The thread moves without touching the session. *)
Lemma session_move g s o im im' : session_ok g (acts s o im) im -> im_sessionCnt im' = im_sessionCnt im ->
  im_sessionValid im' = im_sessionValid im -> thread_writes im = false ->
  match im_pc im' with
  | Pc_session sp _ _ => sp = Sp_check
  | Pc_wait true | Pc_number _ => im_sessionValid im = false
  | Pc_set _ _ | Pc_valid _ => False
  | _ => True
  end -> session_ok g (acts s o im') im'.
Proof.
  intros [Hr Hi Hc Hv Hb Hn Hs] Ec Ev Hw Hpc. unfold thread_writes in Hw.
  assert (Ha : forall sp, sp <> Sp_check -> acts s o im' sp <-> acts s o im sp).
  { intros sp Hsp. unfold acts, thread_at. destruct (im_pc im) eqn:E1; try done; destruct (im_pc im') eqn:E2;
      subst; naive_solver. }
  split; rewrite ?Ec, ?Ev, ?Ha by done; try done.
  - destruct (im_pc im') as [|[]| | | | | |]; done.
  - intros E. rewrite Hn by done. destruct (im_pc im), (im_pc im'); try done.
  - by destruct (im_pc im').
Qed.

Lemma signed_small z : 0 <= z < 2 ^ 31 -> s32 z = z.
Proof. intros Hz. unfold s32. rewrite <- (signed_inv 32 z) at 2; [|done|split; lia]. unfold signed. by rewrite Zmod_mod. Qed.

Section ThreadStep.
Context (s : InvalSystem) (o : nat) (e : ThreadEnv) (im : InvalReaderPerMeta).
Context (Hok : inval_ok s) (Hs : sessions_ok s) (Hex : exclusive s) (E : iv_objs s !! o = Some im).
Local Notation next := (__InvalReaderPerMeta_run o e s).

Lemma thread_put im' g' l1 l2 n i c k : iv_globalSessionCnt s <= g' -> Z.odd g' = false -> session_ok g' (acts s o im') im' ->
  sessions_ok (set_inodes i c k (set_lists l1 l2 n (set_global g' (set_objs (<[o := im']> (iv_objs s)) s)))).
Proof. intros. by eapply sessions_thread_put. Qed.
Lemma thread_move im' l1 l2 n i c k : thread_writes im = false -> im_sessionCnt im' = im_sessionCnt im ->
  im_sessionValid im' = im_sessionValid im ->
  match im_pc im' with
  | Pc_session sp _ _ => sp = Sp_check | Pc_wait true | Pc_number _ => im_sessionValid im = false
  | Pc_set _ _ | Pc_valid _ => False | _ => True end ->
  sessions_ok (set_inodes i c k (set_lists l1 l2 n (set_global (iv_globalSessionCnt s) (set_objs (<[o := im']> (iv_objs s)) s)))).
Proof. intros. apply thread_put; [done|apply Hs|]. eapply session_move; [by apply (ss_obj s Hs)|done..]. Qed.
Lemma no_stop : thread_writes im = true -> forall sp, ~ stop_writes s o sp.
Proof. intros Hw sp Hst. pose proof (ex_thread s Hex o sp im Hst E). congruence. Qed.

Lemma sessions_head s' : im_pc im = Pc_head -> next = Iv_ok s' -> sessions_ok s'.
Proof.
  intros Epc. assert (Hw : thread_writes im = false) by (unfold thread_writes; by rewrite Epc).
  unfold __InvalReaderPerMeta_run. rewrite E, Epc. cbv zeta. destruct (im_selfTerminate im || im_shouldBreak im).
  - case_bool_decide; [|done]. cbn [negb]. intros [= <-].
    by apply (thread_move (im_set_pc Pc_stopped im) (List.filter (fun o' => negb (o' =? o)%nat) (iv_metaThreads s))
      (iv_stoppedThreads s ++ [o]) _ (iv_inodes s) (iv_caching s) (iv_numRemoteInvals s)).
  - destruct (negb (te_localNodeID e)); intros [= <-]; rewrite thread_state; [by apply thread_move|].
    destruct (im_sessionValid im) eqn:Ev; apply thread_move; by rewrite ?Ev.
Qed.
Lemma sessions_wait resync s' : im_pc im = Pc_wait resync -> next = Iv_ok s' -> sessions_ok s'.
Proof.
  intros Epc. assert (Hw : thread_writes im = false) by (unfold thread_writes; by rewrite Epc).
  pose proof (se_begin _ _ _ (ss_obj s Hs o im E)) as Hb. rewrite Epc in Hb.
  unfold __InvalReaderPerMeta_run. rewrite E, Epc. cbv zeta. destruct (negb _).
  { intros [= <-]. rewrite thread_state. apply thread_move; try done. by destruct resync. }
  destruct (ed_invalidate _); intros [= <-]; rewrite thread_state; by apply thread_move.
Qed.

(** The thread ends its session. *)
Lemma sessions_finish d flags im' s' : thread_writes im = true -> im_pc im <> Pc_stopped ->
  session_ok (iv_globalSessionCnt s) (fun x => None = Some x) im' ->
  im_metaID im' = im_metaID im -> im_sessionValid im' = false -> Z.odd (im_sessionCnt im') = false ->
  finish_error o d flags im' s = Iv_ok s' -> sessions_ok s'.
Proof.
  intros Hw Hpc Hi Hid Ev Ec. unfold finish_error. cbv zeta. set (im2 := next_request _ _ _).
  assert (Hv2 : im_metaID im2 = im_metaID im' /\ session_view im2 = (im_sessionCnt im', im_sessionValid im', Pc_head)) by (unfold im2; by destruct (ed_stop d)).
  clearbody im2. destruct Hv2 as [Hid2 [= E1 E2 E3]].
  assert (Hs2 : sessions_ok (set_objs (<[o := im2]> (iv_objs s)) s)).
  { rewrite thread_state. apply thread_put; [done|apply Hs|].
    split; rewrite ?E1, ?E2, ?E3, ?Ev; try done; [apply Hi|].
    intros [Hst|(d' & f' & E')]; [by destruct (no_stop Hw Sp_inc)|congruence]. }
  destruct (ed_fallback d); [|by intros [= <-]].
  destruct (InvalReader_stopInvalReader _) as [s2|] eqn:Es; cbn [iv_of]; [|done]. intros [= <-].
  eapply sessions_stop_all; [|by apply sessions_down|exact Es].
  apply frame_down. eapply (update_ok s o im); [done|done|by rewrite Hid2|by rewrite E3].
Qed.
Lemma sessions_session sp d flags s' : im_pc im = Pc_session sp d flags -> next = Iv_ok s' -> sessions_ok s'.
Proof.
  intros Epc. assert (Hw : thread_writes im = true) by (unfold thread_writes; by rewrite Epc).
  assert (Honly : forall sp', acts s o im sp' -> sp' = sp).
  { intros sp' [Hst|(d' & f' & E')]; [by destruct (no_stop Hw sp')|congruence]. }
  pose proof (invalidate_session_ok _ (acts s o im) sp im (ss_obj s Hs o im E) (ss_even s Hs) (ex_number s Hex)
    ltac:(right; by do 2 eexists) Honly) as Hi. pose proof (session_same sp im) as [Hid _].
  unfold __InvalReaderPerMeta_run. rewrite E, Epc. cbv zeta.
  destruct (invalidateSession sp im) as [im' sp']. destruct Hi as (Hi & Hpc & Hend); [by rewrite Epc|].
  destruct sp' as [sp'|].
  - intros [= <-]. rewrite thread_state. apply thread_put; [done|apply Hs|]. destruct Hi as [Hr Hin Hc Hv Hb Hn Hset].
    assert (Ha : forall x, acts s o (im_set_pc (Pc_session sp' d flags) im') x <-> Some sp' = Some x).
    { intros x. split; [intros [Hst|(d' & f' & [= -> _ _])]; [by destruct (no_stop Hw x)|done]|].
      intros [= ->]. right. by do 2 eexists. }
    split; cbn [im_set_pc im_pc im_sessionCnt im_sessionValid]; rewrite ?Ha; try done.
    intros Ev. rewrite Hn by done. by rewrite Hpc, Epc.
  - destruct (Hend eq_refl) as [Ev Ec]. apply sessions_finish; try done. by rewrite Epc.
Qed.

(** The thread begins a session. *)
Lemma sessions_number data s' : im_pc im = Pc_number data -> next = Iv_ok s' -> sessions_ok s'.
Proof.
  intros Epc. pose proof (ss_pos s Hs) as Hp. pose proof (ss_even s Hs) as He. pose proof (ex_number s Hex) as Hg.
  destruct (ss_obj s Hs o im E) as [Hr Hin Hc Hv Hb Hn Hset]. rewrite Epc in *.
  unfold __InvalReaderPerMeta_run. rewrite E, Epc. intros [= <-]. rewrite signed_small by lia.
  apply (thread_put (im_set_pc (Pc_set (iv_globalSessionCnt s) data) im) (iv_globalSessionCnt s + 2) (iv_metaThreads s) (iv_stoppedThreads s) (iv_numMetas s)
    (iv_inodes s) (iv_caching s) (iv_numRemoteInvals s)); [lia|by rewrite Z.odd_add, He|].
  assert (Ha : forall x, acts s o (im_set_pc (Pc_set (iv_globalSessionCnt s) data) im) x <-> acts s o im x).
  { intros x. unfold acts, thread_at. cbn. rewrite Epc. naive_solver. }
  split; cbn [im_set_pc im_pc im_sessionCnt im_sessionValid]; rewrite ?Ha; try done; [lia|]. split; [done|lia].
Qed.
Lemma sessions_set n data s' : im_pc im = Pc_set n data -> next = Iv_ok s' -> sessions_ok s'.
Proof.
  intros Epc. assert (Hw : thread_writes im = true) by (unfold thread_writes; by rewrite Epc).
  pose proof (ex_number s Hex) as Hg. destruct (ss_obj s Hs o im E) as [Hr Hin Hc Hv Hb Hn Hset]. rewrite Epc in *. destruct Hset as [Hodd Hrange].
  assert (E1 : s32 (n + 1) = n + 1) by (apply signed_small; lia).
  assert (Eo : Z.odd (n + 1) = true) by (by rewrite Z.add_1_r, Z.odd_succ, <- Z.negb_odd, Hodd).
  unfold __InvalReaderPerMeta_run. rewrite E, Epc. intros [= <-]. rewrite thread_state. apply thread_put; [done|apply Hs|].
  split; cbn [im_set_pc im_set_session im_pc im_sessionCnt im_sessionValid]; rewrite ?E1, ?Eo, ?Hb; try done; [lia|..].
  - intros [Hst|(d' & f' & [=])]. by destruct (no_stop Hw Sp_inc).
  - intros [Hst|(d' & f' & [=])]. by destruct (no_stop Hw Sp_clear).
Qed.
Lemma sessions_valid data s' : im_pc im = Pc_valid data -> next = Iv_ok s' -> sessions_ok s'.
Proof.
  intros Epc. assert (Hw : thread_writes im = true) by (unfold thread_writes; by rewrite Epc).
  destruct (ss_obj s Hs o im E) as [Hr Hin Hc Hv Hb Hn Hset]. rewrite Epc in *.
  unfold __InvalReaderPerMeta_run. rewrite E, Epc. intros [= <-]. rewrite thread_state. apply thread_put; [done|apply Hs|].
  split; cbn [im_set_pc im_set_session im_pc im_sessionCnt im_sessionValid]; rewrite ?(Hn Hb); try done.
  - intros [Hst|(d' & f' & [=])]. by destruct (no_stop Hw Sp_clear).
  - intros _. by left.
Qed.
Lemma sessions_apply ids data s' : im_pc im = Pc_apply ids data -> next = Iv_ok s' -> sessions_ok s'.
Proof.
  intros Epc. assert (Hw : thread_writes im = false) by (unfold thread_writes; by rewrite Epc).
  unfold __InvalReaderPerMeta_run. rewrite E, Epc. destruct ids as [|id ids]; intros [= <-].
  - by apply (thread_move (next_request (rid_errorFlags data) false (im_set_readPos (rid_outReadPos data) im)) (iv_metaThreads s)
      (iv_stoppedThreads s) (iv_numMetas s)).
  - assert (Hs2 : sessions_ok (set_objs (<[o := im_set_pc (Pc_apply ids data) im]> (iv_objs s)) s)) by (rewrite thread_state; by apply thread_move).
    unfold mark_inode. case_match; [|done]. by eapply (sessions_frame _ _ Hs2); eauto.
Qed.
End ThreadStep.

Lemma sessions_thread o e s s' : inval_ok s -> sessions_ok s -> exclusive s -> __InvalReaderPerMeta_run o e s = Iv_ok s' -> sessions_ok s'.
Proof.
  intros Hok Hs Hex En. destruct (iv_objs s !! o) as [im|] eqn:E; [|unfold __InvalReaderPerMeta_run in En; by rewrite E in En].
  destruct (im_pc im) as [|resync|sp d flags|data|n data|data|ids data|] eqn:Epc;
    [by eapply sessions_head|by eapply sessions_wait|by eapply sessions_session|by eapply sessions_number|by eapply sessions_set|
     by eapply sessions_valid|by eapply sessions_apply|].
  unfold __InvalReaderPerMeta_run in En. by rewrite E, Epc in En.
Qed.

Lemma init_sessions : sessions_ok InvalReader_init.
Proof. by split. Qed.
Lemma sessions_step s l s' : inval_ok s -> sessions_ok s -> exclusive s -> inval_step s l = Iv_ok s' -> sessions_ok s'.
Proof.
  intros Hok Hs Hex. destruct l; cbn [inval_step]; intros E;
    [by eapply sessions_start|by eapply sessions_start_log|by eapply sessions_stop_find|by eapply sessions_stop_step| |
     by eapply sessions_join|by eapply sessions_join_free|by eapply sessions_thread| | |].
  - destruct (InvalReader_stopInvalReader s) eqn:Es; simplify_eq. cbn in E. simplify_eq. by eapply sessions_stop_all.
  - case_match; simplify_eq. by apply (sessions_frame s); eauto.
  - unfold setCacheValid_begin in E. repeat case_match; simplify_eq; by apply (sessions_frame s); eauto.
  - unfold setCacheValid_end in E. repeat case_match; simplify_eq; by apply (sessions_frame s); eauto.
Qed.

(** An object has a number, or its thread is about to store it. *)
Definition holds (s : InvalSystem) (o : nat) (n : Z) : Prop :=
  exists im, iv_objs s !! o = Some im /\ (im_sessionCnt im = n \/ exists data, im_pc im = Pc_set (n - 1) data).

(** A step gives nobody an odd number, except the next one to a thread that draws it. *)
Definition draws (s s' : InvalSystem) (l : InvalLabel) (o : nat) (n : Z) : Prop :=
  n = iv_globalSessionCnt s + 1 /\ iv_globalSessionCnt s' = iv_globalSessionCnt s + 2 /\ exists e, l = Lb_thread o e.
Lemma holds_frame s s' o n : holds s' o n ->
  (forall im', iv_objs s' !! o = Some im' -> exists im, iv_objs s !! o = Some im /\ session_view im' = session_view im) -> holds s o n.
Proof.
  intros (im' & E' & H) Hv. destruct (Hv im' E') as (im & E & [= E1 _ E3]). exists im. split; [done|]. by rewrite <- E1, <- E3.
Qed.

(** The step changes one object. *)
Lemma holds_put s o1 im1 im1' o n (P : Prop) : iv_objs s !! o1 = Some im1 ->
  (im_sessionCnt im1' = n -> im_sessionCnt im1 = n \/ exists data, im_pc im1 = Pc_set (n - 1) data) ->
  (forall data, im_pc im1' = Pc_set (n - 1) data -> (exists data, im_pc im1 = Pc_set (n - 1) data) \/ (o = o1 -> P)) ->
  holds (set_objs (<[o1 := im1']> (iv_objs s)) s) o n -> holds s o n \/ P.
Proof.
  intros E1 Hc Hp (im & E & H). cbn in E. apply lookup_insert_Some in E as [[<- <-]|[Hne E]].
  - destruct H as [Hn|[data Hpc]].
    + left. exists im1. split; [done|]. eauto.
    + destruct (Hp data Hpc) as [Hd|HP]; [|by right; apply HP]. left. exists im1. eauto.
  - left. by exists im.
Qed.

Lemma invalidate_number s o im sp : sessions_ok s -> exclusive s -> iv_objs s !! o = Some im -> acts s o im sp ->
  im_sessionCnt (invalidateSession sp im).1 = im_sessionCnt im \/ Z.odd (im_sessionCnt (invalidateSession sp im).1) = false.
Proof.
  intros Hs Hex E Ha. destruct sp; cbn; [by left| |by left]. right. pose proof (ss_obj s Hs o im E) as Hse.
  destruct (se_inc _ _ _ Hse Ha) as [_ Hodd].
  destruct (odd_succ_small _ _ (se_range _ _ _ Hse) (ex_number s Hex) Hodd (ss_even s Hs)) as (-> & _ & ->). done.
Qed.

Lemma stop_step_holds call s s' o n : sessions_ok s -> exclusive s -> Z.odd n = true -> stopMetaThread_step call s = Iv_ok s' ->
  holds s' o n -> holds s o n.
Proof.
  intros Hs Hex Hn. unfold stopMetaThread_step. destruct (iv_stops s !! call) as [[o1 sp]|] eqn:Ec; [|done].
  destruct (iv_objs s !! o1) as [im|] eqn:E; [|by destruct sp]. intros Est Hh. destruct sp as [sp|].
  - pose proof (session_same sp im) as [_ Hpc]. pose proof (invalidate_number s o1 im sp Hs Hex E ltac:(left; by exists call)) as Hi.
    destruct (invalidateSession sp im) as [im' sp']. simplify_eq. cbn [fst] in *.
    destruct (holds_put s o1 im im' o n False E) as [|[]]; [| |exact Hh|done].
    + intros <-. left. destruct Hi; [done|congruence].
    + intros data Hd. left. exists data. by rewrite <- Hpc.
  - simplify_eq. eapply holds_frame; [exact Hh|]. cbn. intros im' [[<- <-]|[_ E']]%lookup_insert_Some; [by exists im|by exists im'].
Qed.

(** A step of a thread. *)
Lemma thread_holds o1 e s s' o n : inval_ok s -> sessions_ok s -> exclusive s -> Z.odd n = true ->
  __InvalReaderPerMeta_run o1 e s = Iv_ok s' -> holds s' o n -> holds s o n \/ draws s s' (Lb_thread o1 e) o n.
Proof.
  intros Hok Hs Hex Hn. unfold __InvalReaderPerMeta_run. destruct (iv_objs s !! o1) as [im|] eqn:E; [|done]. cbv zeta.
  pose proof (ss_obj s Hs o1 im E) as Hse.
  assert (Hput : forall im' (P : Prop), (im_sessionCnt im' = im_sessionCnt im) ->
    (forall data, im_pc im' = Pc_set (n - 1) data -> o = o1 -> P) -> holds (set_objs (<[o1 := im']> (iv_objs s)) s) o n -> holds s o n \/ P).
  { intros im' P Hc Hp Hh. apply (holds_put s o1 im im'); [done|rewrite Hc; by left| |done]. intros data Hd. right. eauto. }
  destruct (im_pc im) as [|resync|sp d flags|data|m data|data|ids data|] eqn:Epc.
  - destruct (im_selfTerminate im || im_shouldBreak im).
    { case_bool_decide; [|done]. intros [= <-]. by apply Hput. }
    case_match; intros [= <-]; apply Hput; try done; by destruct (im_sessionValid im).
  - destruct (negb _); [intros [= <-]; apply Hput; [done|by destruct resync]|].
    destruct (ed_invalidate _); intros [= <-]; by apply Hput.
  - pose proof (invalidate_number s o1 im sp Hs Hex E ltac:(right; by do 2 eexists)) as Hi.
    destruct (invalidateSession sp im) as [im' sp'] eqn:Ei. cbn [fst] in Hi.
    assert (Hput2 : forall im2, im_sessionCnt im2 = im_sessionCnt im' -> (forall data, im_pc im2 <> Pc_set (n - 1) data) ->
      holds (set_objs (<[o1 := im2]> (iv_objs s)) s) o n -> holds s o n \/ draws s s' (Lb_thread o1 e) o n).
    { intros im2 H1 H2 Hh. apply (holds_put s o1 im im2); [done| |by intros data ?%H2|done]. rewrite H1. intros <-.
      left. destruct Hi; [done|congruence]. }
    destruct sp' as [sp'|]; [intros [= <-]; by apply Hput2|]. unfold finish_error. cbv zeta. set (im2 := next_request _ _ _).
    assert (H2 : im_sessionCnt im2 = im_sessionCnt im' /\ im_pc im2 = Pc_head) by (unfold im2; by destruct (ed_stop d)).
    destruct (ed_fallback d); [|intros [= <-]; apply Hput2; [apply H2|by rewrite (proj2 H2)]].
    destruct (InvalReader_stopInvalReader _) as [s2|] eqn:Es; cbn [iv_of]; [|done]. intros [= <-] Hh.
    apply (Hput2 im2); [apply H2|by rewrite (proj2 H2)|].
    apply stop_all_frame in Es as (objs & Ht & ->).
    + eapply holds_frame; [exact Hh|]. cbn. intros im3 E3. rewrite (Ht o) in E3. cbn in E3.
      apply fmap_Some in E3 as (im4 & E4 & ->). exists im4. by destruct (bool_decide _).
    + apply frame_down. eapply (update_ok s o1 im); [done|done| |by rewrite (proj2 H2), Epc].
      pose proof (session_same sp im) as [Hid _]. rewrite Ei in Hid. unfold im2. by destruct (ed_stop d).
  - intros [= <-] Hh. rewrite signed_small in * by (pose proof (ss_pos s Hs); pose proof (ex_number s Hex); lia).
    apply (Hput (im_set_pc (Pc_set (iv_globalSessionCnt s) data) im)); [done| |exact Hh].
    intros data' [= Eg _] ->. split_and!; [lia|done|by exists e].
  - intros [= <-] Hh. apply (holds_put s o1 im (im_set_pc (Pc_valid data) (im_set_session (im_sessionValid im) (s32 (m + 1)) im)));
      [done| |done|exact Hh]. cbn. intros <-. right. exists data. rewrite Epc. f_equal.
    pose proof (se_set _ _ _ Hse) as Hset. rewrite Epc in Hset. pose proof (ex_number s Hex). rewrite signed_small; lia.
  - intros [= <-]. by apply Hput.
  - destruct ids as [|id ids]; intros [= <-]; [by apply Hput|]. intros Hh. apply (Hput (im_set_pc (Pc_apply ids data) im)); [done|done|].
    unfold mark_inode in Hh. by case_match.
  - done.
Qed.

Lemma start_holds groups node t s s' o n : Z.odd n = true -> InvalReader_startMetaThread groups node t s = Iv_ok s' ->
  holds s' o n -> holds s o n.
Proof.
  intros Hn. unfold InvalReader_startMetaThread. repeat (case_match; try done); intros [= <-]; try done.
  intros (im & E & Hh). cbn in E. apply lookup_insert_Some in E as [[<- <-]|[_ E]]; [|by exists im].
  destruct Hh as [<-|[data [=]]]. done.
Qed.
Lemma step_holds s l s' o n : inval_ok s -> sessions_ok s -> exclusive s -> Z.odd n = true ->
  inval_step s l = Iv_ok s' -> holds s' o n -> holds s o n \/ draws s s' l o n.
Proof.
  intros Hok Hs Hex Hn. destruct l; cbn [inval_step]; intros Est Hh; try (by eapply thread_holds); left.
  - by eapply start_holds.
  - unfold startMetaThread_log in Est. repeat case_match; by simplify_eq.
  - unfold stopMetaThread_find in Est. repeat case_match; simplify_eq; done.
  - by eapply stop_step_holds.
  - destruct (InvalReader_stopInvalReader s) as [s2|] eqn:Es; cbn in Est; simplify_eq.
    apply stop_all_frame in Es as (objs & Ht & ->); [|done]. eapply holds_frame; [exact Hh|]. cbn. intros im' E'. rewrite (Ht o) in E'.
    apply fmap_Some in E' as (im & E & ->). exists im. by destruct (bool_decide _).
  - unfold __InvalReader_joinStoppedMetas in Est. repeat case_match; by simplify_eq.
  - unfold joinStoppedMetas_free in Est. repeat case_match; simplify_eq. eapply holds_frame; [exact Hh|].
    cbn. intros im' [_ E]%lookup_delete_Some. eauto.
  - case_match; by simplify_eq.
  - unfold setCacheValid_begin in Est. repeat case_match; by simplify_eq.
  - unfold setCacheValid_end in Est. repeat case_match; by simplify_eq.
Qed.

(** Everything about the numbers of sessions. *)
Record numbers_ok (s : InvalSystem) : Prop := {
  nu_structure : inval_ok s;
  nu_sessions : sessions_ok s;
  nu_drawn : forall o n, Z.odd n = true -> holds s o n -> n < iv_globalSessionCnt s;
  nu_unique : forall o o' n, Z.odd n = true -> holds s o n -> holds s o' n -> o = o'
}.
Lemma init_numbers : numbers_ok InvalReader_init.
Proof. split; [apply init_ok|apply init_sessions|..]; intros; destruct H0 as (im & E & _); cbn in E; by rewrite lookup_empty in E. Qed.
Lemma global_grows s l s' : inval_ok s -> sessions_ok s -> exclusive s -> inval_step s l = Iv_ok s' ->
  iv_globalSessionCnt s <= iv_globalSessionCnt s'.
Proof.
  intros Hok Hs Hex. pose proof (ss_pos s Hs). pose proof (ex_number s Hex).
  destruct l; cbn [inval_step]; intros E;
    [unfold InvalReader_startMetaThread in E|unfold startMetaThread_log in E|unfold stopMetaThread_find in E|unfold stopMetaThread_step in E| |
     unfold __InvalReader_joinStoppedMetas in E|unfold joinStoppedMetas_free in E| | |unfold setCacheValid_begin in E|unfold setCacheValid_end in E];
    try (repeat case_match; simplify_eq; cbn; lia).
  - destruct (InvalReader_stopInvalReader s) as [s2|] eqn:Es; cbn in E; simplify_eq. by apply stop_all_frame in Es as (objs & _ & ->).
  - unfold __InvalReaderPerMeta_run, finish_error, mark_inode in E. destruct (iv_objs s !! o) as [im|] eqn:Eo; [|done].
    destruct (im_pc im) as [|resync|sp d flags|data|m data|data|ids data|] eqn:Epc; try (repeat case_match; simplify_eq; cbn; lia).
    + pose proof (session_same sp im) as [Hid Hpc]. destruct (invalidateSession sp im) as [im' [sp'|]]; simplify_eq; [done|].
      cbv zeta in E. destruct (ed_fallback d); simplify_eq; [|done].
      destruct (InvalReader_stopInvalReader _) as [s2|] eqn:Es; cbn in E; simplify_eq. apply stop_all_frame in Es as (objs & _ & ->); [done|].
      apply frame_down. eapply (update_ok s o im); [done|done|by destruct (ed_stop d)|by rewrite Epc].
    + simplify_eq. cbn. rewrite signed_small; lia.
Qed.
Lemma numbers_step s l s' : numbers_ok s -> exclusive s -> inval_step s l = Iv_ok s' -> numbers_ok s'.
Proof.
  intros [Hok Hs Hd Hu] Hex E. pose proof (global_grows s l s' Hok Hs Hex E) as Hg. split.
  - by eapply inval_step_some.
  - by eapply sessions_step.
  - intros o n Hn Hh. destruct (step_holds s l s' o n Hok Hs Hex Hn E Hh) as [Hold|(-> & -> & _)]; [specialize (Hd o n Hn Hold)|]; lia.
  - intros o o' n Hn Hh Hh'.
    destruct (step_holds s l s' o n Hok Hs Hex Hn E Hh) as [Hold|(Eg & _ & e & El)];
      destruct (step_holds s l s' o' n Hok Hs Hex Hn E Hh') as [Hold'|(Eg' & _ & e' & El')].
    + by eapply Hu.
    + specialize (Hd o n Hn Hold). lia.
    + specialize (Hd o' n Hn Hold'). lia.
    + congruence.
Qed.
Lemma numbers_run ls : forall s s', numbers_ok s -> exclusive_run s ls -> inval_run s ls = Iv_ok s' -> numbers_ok s' /\
  forall o n, Z.odd n = true -> n < iv_globalSessionCnt s -> holds s' o n -> holds s o n.
Proof.
  induction ls as [|l ls IH]; intros s s' Hnu Hex E; cbn [inval_run exclusive_run] in *; [by simplify_eq|].
  destruct Hex as [Hx Hex]. destruct (inval_step s l) as [s1| |] eqn:E1; try done.
  pose proof Hnu as [Hok Hs Hd Hu]. destruct (IH s1 s') as [Hnu' Hback]; [by eapply numbers_step|done|done|]. split; [done|].
  intros o n Hn Hlt Hh. pose proof (global_grows s l s1 Hok Hs Hx E1). apply Hback in Hh; [|done|lia].
  destruct (step_holds s l s1 o n Hok Hs Hx Hn E1 Hh) as [Hold|(-> & _)]; [done|lia].
Qed.

(** C32: As long as nobody changes the session of a thread object while somebody else does (which the code does not ensure) and the
    numbers do not wrap around: an odd number belongs to one object and to a session that is valid
    or about to be marked as valid; and once the number of a session is gone, because the session
    was invalidated or its thread ended, no inode that was cached under this number is ever
    considered valid again on account of its session, whatever sessions and threads follow: with
    remote invalidation enabled and without a fall-back the answer is no, and otherwise it is
    decided by the time since the attributes were cached alone. *)
Theorem ended_sessions_stay_ended ls1 ls2 s1 s2 :
  exclusive_run InvalReader_init ls1 -> inval_run InvalReader_init ls1 = Iv_ok s1 ->
  exclusive_run s1 ls2 -> inval_run s1 ls2 = Iv_ok s2 ->
  (forall o im, iv_objs s1 !! o = Some im -> Z.odd (im_sessionCnt im) = true ->
     (im_sessionValid im = true \/ exists data, im_pc im = Pc_valid data) /\
     forall o' im', iv_objs s1 !! o' = Some im' -> im_sessionCnt im' = im_sessionCnt im -> o' = o) /\
  (forall n, Z.odd n = true -> n < iv_globalSessionCnt s1 ->
     (forall o im, iv_objs s1 !! o = Some im -> im_sessionCnt im <> n /\ forall data, im_pc im <> Pc_set (n - 1) data) ->
     forall groups cfg isDir elapsedMS ino, ic_localSessionCnt ino = n ->
       FhgfsInode_isCacheValid groups cfg isDir elapsedMS ino s2 =
       Some (if sysRemoteInvalEnabled cfg && negb (iv_invalWatchFallback s2) then false
             else negb (FhgfsInode_getCacheValidityMS isDir cfg =? 0) && (elapsedMS <? FhgfsInode_getCacheValidityMS isDir cfg))).
Proof.
  intros Hx1 E1 Hx2 E2. destruct (numbers_run ls1 _ _ init_numbers Hx1 E1) as [Hnu _].
  destruct (numbers_run ls2 s1 s2 Hnu Hx2 E2) as [Hnu2 Hback]. split.
  - intros o im E Hodd. pose proof (ss_obj s1 (nu_sessions s1 Hnu) o im E) as Hse. split.
    + destruct (im_sessionValid im) eqn:Ev; [by left|right]. pose proof (se_invalid _ _ _ Hse Ev) as Hi. rewrite Hodd in Hi.
      destruct (im_pc im); try done. by eexists.
    + intros o' im' E' Hc. apply (nu_unique s1 Hnu o' o (im_sessionCnt im)); [done|exists im'|exists im]; auto.
  - intros n Hn Hlt Hgone groups cfg isDir elapsedMS ino Hloc. unfold FhgfsInode_isCacheValid.
    destruct (sysRemoteInvalEnabled cfg && _); [|cbv zeta; by destruct (_ =? 0)]. destruct (ic_valid ino); [|done].
    unfold InvalReader_getMetaSessionCnt. destruct (find_ok s2 (__FhgfsInode_getSessionMetaID groups ino) (nu_structure s2 Hnu2)) as (r & -> & Hr).
    cbn [mbind option_bind]. rewrite Hloc. destruct r as [[o im]|].
    + destruct Hr as (_ & E & _). destruct (Z.eqb_spec (im_sessionCnt im) n) as [Ec|Ec]; [|by rewrite andb_false_r].
      destruct (Hback o n Hn Hlt) as (im1 & Eo & Hh); [by exists im; auto|]. destruct (Hgone o im1 Eo) as [H1 H2].
      destruct Hh as [?|[data ?]]; [done|by destruct (H2 data)].
    + destruct (Z.eqb_spec 0 n) as [<-|]; [done|by rewrite andb_false_r].
Qed.

(** ** Samples *)

Definition quiet : ThreadEnv :=
  MkThreadEnv true FhgfsOpsErr_SUCCESS (MkReadInvalidationsData 0 0 [] 5) (Some TargetReachabilityState_ONLINE).
Definition lost_sync : ThreadEnv :=
  MkThreadEnv true FhgfsOpsErr_SUCCESS (MkReadInvalidationsData ReadInvalidations_ResyncNeeded 0 [] 5) (Some TargetReachabilityState_ONLINE).
Definition sample_file : list byte := [Byte.x31; Byte.x2d; Byte.x32; Byte.x2d; Byte.x33].
Definition sample_owner : NodeOrGroup := MkNodeOrGroup 1 false.
(** The thread of node 1 is started and begins its first session. *)
Definition first_session (o : nat) : list InvalLabel :=
  [Lb_start ∅ 1 true; Lb_thread o quiet; Lb_thread o quiet; Lb_thread o quiet; Lb_thread o quiet; Lb_thread o quiet; Lb_thread o quiet].
Definition sample_cache_config : CacheConfig := MkCacheConfig true 1000 0.
Definition is_valid_after (s : InvalSystem) (ls : list InvalLabel) : option bool :=
  match inval_run s ls with
  | Iv_ok s => ino ← iv_inodes s !! sample_file; FhgfsInode_isCacheValid ∅ sample_cache_config false 0 ino s
  | _ => None
  end.

(** The server asks for a resynchronisation while the node is being stopped: both find the session valid and both increment its
    number, which is odd again.  An inode that is cached now gets this number, which is also the
    number of the next session; when that has begun, the inode is valid, although the changes
    between the two sessions were never reported. *)
Definition double_increment : list InvalLabel :=
  Lb_inode sample_file sample_owner :: first_session 0 ++
  [Lb_thread 0 lost_sync; Lb_thread 0 lost_sync; Lb_thread 0 quiet; Lb_stop 7 1; Lb_stop_step 7;
   Lb_thread 0 quiet; Lb_stop_step 7; Lb_cache ∅ sample_file; Lb_cache_end sample_file].
Example double_increment_revives :
  is_valid_after InvalReader_init (double_increment ++
    [Lb_stop_step 7; Lb_stop_step 7; Lb_thread 0 quiet; Lb_thread 0 quiet; Lb_join; Lb_join_free] ++ first_session 1) = Some true.
Proof. by vm_compute. Qed.

(** The server is removed while the call that started its thread is still to log: the thread ends, is joined and freed,
    and the message is made from the freed object. *)
Example late_log_faults :
  inval_run InvalReader_init
    [Lb_start ∅ 1 true; Lb_stop 7 1; Lb_stop_step 7; Lb_stop_step 7; Lb_stop_step 7; Lb_thread 0 quiet; Lb_join; Lb_join_free;
     Lb_start_log 0] = Iv_fault.
Proof. by vm_compute. Qed.

(** An invalidation that is applied after the attributes were fetched and before the inode is marked as valid is lost: the inode
    stays valid although its attributes were changed since. *)
Definition change_of_file : ThreadEnv :=
  MkThreadEnv true FhgfsOpsErr_SUCCESS (MkReadInvalidationsData 0 1 [MkInodeId 1 2 3] 6) (Some TargetReachabilityState_ONLINE).
Example early_invalidation_is_lost :
  is_valid_after InvalReader_init (Lb_inode sample_file sample_owner :: first_session 0 ++
    [Lb_cache ∅ sample_file; Lb_thread 0 quiet; Lb_thread 0 change_of_file; Lb_thread 0 quiet; Lb_cache_end sample_file]) = Some true /\
  is_valid_after InvalReader_init (Lb_inode sample_file sample_owner :: first_session 0 ++
    [Lb_cache ∅ sample_file; Lb_cache_end sample_file; Lb_thread 0 quiet; Lb_thread 0 change_of_file; Lb_thread 0 quiet]) = Some false.
Proof. by vm_compute. Qed.

(** Runs in which no thread is being stopped. *)
Definition no_stops (s : InvalSystem) : bool := bool_decide (iv_stops s = ∅) && (iv_globalSessionCnt s <? 2 ^ 31 - 2).
Fixpoint no_stops_run (s : InvalSystem) (ls : list InvalLabel) : bool :=
  no_stops s && match ls with [] => true | l :: ls => match inval_step s l with Iv_ok s' => no_stops_run s' ls | _ => true end end.
Lemma no_stops_exclusive s : no_stops s = true -> exclusive s.
Proof.
  intros [He%bool_decide_eq_true Hg%Z.ltb_lt]%andb_true_iff. split; [| |done].
  - intros c1 c2 o sp1 sp2 E. by rewrite He, lookup_empty in E.
  - intros o sp im [c E]. by rewrite He, lookup_empty in E.
Qed.
Lemma no_stops_run_exclusive ls : forall s, no_stops_run s ls = true -> exclusive_run s ls.
Proof.
  induction ls as [|l ls IH]; intros s; cbn [no_stops_run exclusive_run]; intros [H1 H2]%andb_true_iff; (split; [by apply no_stops_exclusive|]); [done|].
  destruct (inval_step s l); [by apply IH|done..].
Qed.
Definition gone_number (n : Z) (s : InvalSystem) : bool :=
  forallb (fun x => negb (im_sessionCnt x.2 =? n) && match im_pc x.2 with Pc_set _ _ => false | _ => true end) (map_to_list (iv_objs s)).
Lemma gone_number_ok n s : gone_number n s = true ->
  forall o im, iv_objs s !! o = Some im -> im_sessionCnt im <> n /\ forall data, im_pc im <> Pc_set (n - 1) data.
Proof.
  intros H o im E. unfold gone_number in H. rewrite forallb_forall in H. specialize (H (o, im)).
  rewrite <- list_elem_of_In, elem_of_map_to_list in H. apply H, andb_true_iff in E as [H1%negb_true_iff%Z.eqb_neq H2]. cbn in *.
  split; [done|]. intros data Hd. by rewrite Hd in H2.
Qed.

(** The session 1 ends, and the next one begins. *)
Definition ended_session : list InvalLabel :=
  first_session 0 ++ [Lb_thread 0 lost_sync; Lb_thread 0 lost_sync; Lb_thread 0 quiet; Lb_thread 0 quiet; Lb_thread 0 quiet].
Definition next_session : list InvalLabel := replicate 6 (Lb_thread 0 quiet).
Definition state_after (s : InvalSystem) (ls : list InvalLabel) : InvalSystem :=
  match inval_run s ls with Iv_ok s => s | _ => s end.
Lemma ended_sessions_stay_ended_witness :
  let s1 := state_after InvalReader_init ended_session in let s2 := state_after s1 next_session in
  inval_run InvalReader_init ended_session = Iv_ok s1 /\ inval_run s1 next_session = Iv_ok s2 /\
  InvalReader_getMetaSessionCnt s2 1 = Some 3 /\
  FhgfsInode_isCacheValid ∅ sample_cache_config false 0 (MkInodeCache true 1 sample_owner) s2 = Some false.
Proof.
  assert (H1 : inval_run InvalReader_init ended_session = Iv_ok (state_after InvalReader_init ended_session)) by (vm_compute; reflexivity).
  assert (H2 : inval_run (state_after InvalReader_init ended_session) next_session =
               Iv_ok (state_after (state_after InvalReader_init ended_session) next_session)) by (vm_compute; reflexivity).
  split; [exact H1|]. split; [exact H2|]. split; [vm_compute; reflexivity|].
  assert (Hx1 : exclusive_run InvalReader_init ended_session) by (apply no_stops_run_exclusive; vm_compute; reflexivity).
  assert (Hx2 : exclusive_run (state_after InvalReader_init ended_session) next_session)
    by (apply no_stops_run_exclusive; vm_compute; reflexivity).
  assert (Hlt : 1 < iv_globalSessionCnt (state_after InvalReader_init ended_session)) by (vm_compute; reflexivity).
  assert (Hg : gone_number 1 (state_after InvalReader_init ended_session) = true) by (vm_compute; reflexivity).
  destruct (ended_sessions_stay_ended ended_session next_session _ _ Hx1 H1 Hx2 H2) as [_ H].
  rewrite (H 1 eq_refl Hlt (gone_number_ok 1 _ Hg) ∅ sample_cache_config false 0 (MkInodeCache true 1 sample_owner) eq_refl).
  vm_compute. reflexivity.
Defined.
