(* ===== verification/FileCache.v ===== *)
(** * Buffered file contents

    Models the file cache of [client_module/source]: the buffered reads and writes of
    [filesystem/FhgfsOpsHelper.c], the handle data of [filesystem/FsFileInfo.c] they use, the store of
    buffers [toolkit/NoAllocBufferStore.c], the store of inodes with buffers
    [toolkit/InodeRefStore.h] and the thread that writes buffers back, [components/Flusher.c].

    An inode has at most one buffer, either with data that was read ahead or with data that is still to be
    written.  All uses of the buffer hold the lock of the inode's cache, so that each operation is one
    step.  The file at the servers is a list of bytes; what a remote operation does to it and returns
    is an argument ([RemoteEnv]).  An operation that would write outside of a buffer or of the store's
    array, or stop the kernel, has the result [None]. *)

From stdpp Require Import sorting.
From S2P Require Import Prelude StorageErrors StripePattern.

(** ** The store of buffers *)

(** [nb_bufArray] holds the buffers that are available, [numAvailable] of them. *)
Record NoAllocBufferStore := MkBufferStore { nb_bufArray : list nat; nb_numBufs : Z; nb_bufSize : Z }.

(** [array] and [alloc i]: the allocations of the array and of the buffer [i]. *)
Definition __NoAllocBufferStore_initBuffers (array : bool) (alloc : nat -> bool) (numBufs : nat) : option (list nat) :=
  if negb array && negb (numBufs =? 0)%nat then None
  else if forallb alloc (seq 0 numBufs) then Some (seq 0 numBufs)
  else None.
Definition NoAllocBufferStore_init (array : bool) (alloc : nat -> bool) (numBufs : nat) (bufSize : Z) :
    option NoAllocBufferStore :=
  bufs ← __NoAllocBufferStore_initBuffers array alloc numBufs; Some (MkBufferStore bufs (Z.of_nat numBufs) bufSize).
Definition NoAllocBufferStore_getNumAvailable (this : NoAllocBufferStore) : Z := zlen (nb_bufArray this).

Definition set_bufArray (bufs : list nat) (this : NoAllocBufferStore) : NoAllocBufferStore :=
  MkBufferStore bufs (nb_numBufs this) (nb_bufSize this).
Definition NoAllocBufferStore_instantBuf (this : NoAllocBufferStore) : option nat * NoAllocBufferStore :=
  match nb_bufArray this !! pred (length (nb_bufArray this)) with
  | None => (None, this)
  | Some buf => (Some buf, set_bufArray (take (pred (length (nb_bufArray this))) (nb_bufArray this)) this)
  end.
(** [None]: the caller waits. *)
Definition NoAllocBufferStore_waitForBuf (this : NoAllocBufferStore) : option (nat * NoAllocBufferStore) :=
  match NoAllocBufferStore_instantBuf this with (Some buf, this) => Some (buf, this) | (None, _) => None end.
Definition NoAllocBufferStore_addBuf (this : NoAllocBufferStore) (buf : option nat) : option NoAllocBufferStore :=
  match buf with
  | None => Some this
  | Some buf =>
      if nb_numBufs this <=? NoAllocBufferStore_getNumAvailable this then None
      else Some (set_bufArray (nb_bufArray this ++ [buf]) this)
  end.

(** ** The store of inodes *)

(** Each operation gets the reference count of its inode and returns the new one. *)
Definition InodeRefStore_addAndReferenceInode (this : gset nat) (inode : nat) (count : Z) : gset nat * Z :=
  if bool_decide (inode ∈ this) then (this, count) else ({[inode]} ∪ this, count + 1).
Definition InodeRefStore_addOrPutInode (this : gset nat) (inode : nat) (count : Z) : gset nat * Z :=
  if bool_decide (inode ∈ this) then (this, count - 1) else ({[inode]} ∪ this, count).
Definition InodeRefStore_removeAndReleaseInode (this : gset nat) (inode : nat) (count : Z) : gset nat * Z * bool :=
  if bool_decide (inode ∈ this) then (this ∖ {[inode]}, count - 1, true) else (this, count, false).

(** The elements in the order of the tree, and the successor of one of them. *)
Definition tree_elements (this : gset nat) : list nat := merge_sort le (elements this).
Definition tree_next (this : gset nat) (old : nat) : option nat := head (List.filter (fun i => (old <? i)%nat) (tree_elements this)).
Definition InodeRefStore_getAndRemoveFirstInode (this : gset nat) : option nat * gset nat :=
  match head (tree_elements this) with Some first => (Some first, this ∖ {[first]}) | None => (None, this) end.
Definition InodeRefStore_getAndRemoveNextInode (this : gset nat) (oldInode : nat) : option nat * gset nat :=
  if bool_decide (oldInode ∈ this) then
    match tree_next this oldInode with Some next => (Some next, this ∖ {[next]}) | None => (None, this) end
  else
    let this := {[oldInode]} ∪ this in
    match tree_next this oldInode with
    | Some next => (Some next, this ∖ {[next]} ∖ {[oldInode]})
    | None => (None, this ∖ {[oldInode]})
    end.

(** ** Handles *)

Definition FSFILEINFO_CACHE_HITS_INITIAL : Z := 3.
Definition FSFILEINFO_CACHE_HITS_THRESHOLD : Z := 5.
Definition FSFILEINFO_CACHE_MISS_THRESHOLD : Z := -5.
Definition FSFILEINFO_CACHE_SLOWSTART_READLEN : Z := 64 * 1024.

Record FsFileInfo := MkFsFileInfo {
  ff_cacheHits : Z;
  ff_allowCaching : bool;
  ff_lastReadOffset : Z;
  ff_lastWriteOffset : Z
}.
Definition FsFileInfo_init : FsFileInfo := MkFsFileInfo FSFILEINFO_CACHE_HITS_INITIAL true 0 0.
Definition set_cacheHits (hits : Z) (this : FsFileInfo) : FsFileInfo :=
  MkFsFileInfo hits (ff_allowCaching this) (ff_lastReadOffset this) (ff_lastWriteOffset this).
Definition FsFileInfo_incCacheHits (this : FsFileInfo) : FsFileInfo :=
  if ff_cacheHits this <? FSFILEINFO_CACHE_HITS_THRESHOLD then set_cacheHits (ff_cacheHits this + 1) this else this.
Definition FsFileInfo_decCacheHits (this : FsFileInfo) : FsFileInfo :=
  if FSFILEINFO_CACHE_MISS_THRESHOLD <? ff_cacheHits this then set_cacheHits (ff_cacheHits this - 1) this else this.

(** ** Buffers and inodes *)

Inductive FileBufferType := FileBufferType_NONE | FileBufferType_READ | FileBufferType_WRITE.
#[export] Instance FileBufferType_eq_dec : EqDecision FileBufferType.
Proof. solve_decision. Defined.

(** [cb_data]: the bytes that were stored at the start of the buffer. *)
Record CacheBuffer := MkCacheBuffer {
  cb_buf : option nat;
  cb_data : list byte;
  cb_bufUsageLen : Z;
  cb_bufUsageMaxLen : Z;
  cb_fileOffset : Z;
  cb_bufType : FileBufferType
}.
Definition no_cacheBuffer : CacheBuffer := MkCacheBuffer None [] 0 0 0 FileBufferType_NONE.

(** [ci_file]: the file at the servers; [ci_count]: [i_count]; [ci_users]: how many of these references users hold. *)
Record CachedInode := MkCachedInode {
  ci_cache : CacheBuffer;
  ci_file : list byte;
  ci_count : Z;
  ci_users : Z;
  ci_mapped : bool;
  ci_needsAppendLockCleanup : bool
}.
(** What an operation on an inode works on. *)
Record CacheState := MkCacheState { c_inode : CachedInode; c_store : NoAllocBufferStore; c_refs : gset nat }.

Definition ci_set_cache (b : CacheBuffer) (i : CachedInode) : CachedInode :=
  MkCachedInode b (ci_file i) (ci_count i) (ci_users i) (ci_mapped i) (ci_needsAppendLockCleanup i).
Definition ci_set_file (f : list byte) (i : CachedInode) : CachedInode :=
  MkCachedInode (ci_cache i) f (ci_count i) (ci_users i) (ci_mapped i) (ci_needsAppendLockCleanup i).
Definition ci_set_refs (count users : Z) (i : CachedInode) : CachedInode :=
  MkCachedInode (ci_cache i) (ci_file i) count users (ci_mapped i) (ci_needsAppendLockCleanup i).
Definition ci_set_mapped (b : bool) (i : CachedInode) : CachedInode :=
  MkCachedInode (ci_cache i) (ci_file i) (ci_count i) (ci_users i) b (ci_needsAppendLockCleanup i).
Definition ci_set_needsAppendLockCleanup (i : CachedInode) : CachedInode :=
  MkCachedInode (ci_cache i) (ci_file i) (ci_count i) (ci_users i) (ci_mapped i) true.
Definition upd_inode (f : CachedInode -> CachedInode) (s : CacheState) : CacheState :=
  MkCacheState (f (c_inode s)) (c_store s) (c_refs s).
Definition c_cache (s : CacheState) : CacheBuffer := ci_cache (c_inode s).

(** ** Remote operations *)

(** [re_write file offset data] is the value of a remote write and the file after it, [re_read file offset size] the value
    of a remote read and the bytes it stores, [re_stat] the result of a request for the attributes and
    the size in them; [re_lock], [re_unlock], [re_reference] and [re_release] are the results
    for append locks and handles, [re_copy size] the number of bytes that could be copied from or to a
    user's buffer. *)
Record RemoteEnv := MkRemoteEnv {
  re_write : list byte -> Z -> list byte -> Z * list byte;
  re_read : list byte -> Z -> Z -> Z * list byte;
  re_stat : list byte -> Z * Z;
  re_lock : Z;
  re_unlock : Z;
  re_reference : Z;
  re_release : Z;
  re_copy : Z -> Z
}.

Section Cache.
Context (tuneCoherentBuffers : bool) (pattern : StripePattern).
(** The address of the inode. *)
Context (self : nat).

Definition remote_write (e : RemoteEnv) (s : CacheState) (offset : Z) (iter : list byte) : Z * CacheState :=
  let '(res, file) := re_write e (ci_file (c_inode s)) offset iter in (res, upd_inode (ci_set_file file) s).

(** [size] is the [count] of the call, [iter] the data that are left in the iterator. *)
Definition FhgfsOpsHelper_appendfileVecOffset (e : RemoteEnv) (iter : list byte) (size offsetFromEnd : Z) (s : CacheState) :
    option (Z * CacheState) :=
  if negb (re_lock e =? FhgfsOpsErr_SUCCESS) then
    Some (- re_lock e, upd_inode ci_set_needsAppendLockCleanup s)
  else
    let unlock s := if re_unlock e =? FhgfsOpsErr_SUCCESS then s else upd_inode ci_set_needsAppendLockCleanup s in
    let '(statRes, statSize) := re_stat e (ci_file (c_inode s)) in
    if negb (statRes =? FhgfsOpsErr_SUCCESS) then Some (- statRes, unlock s)
    else if negb (size =? zlen iter) then None
    else let '(writeRes, s) := remote_write e s (s64 (statSize + offsetFromEnd)) iter in Some (writeRes, unlock s).

(** Also [FhgfsOpsHelper_writefileEx_kernel], whose iterator has the given size. *)
Definition FhgfsOpsHelper_writefileEx (e : RemoteEnv) (iter : list byte) (size offset : Z) (s : CacheState) :
    option (Z * CacheState) :=
  if offset =? -1 then FhgfsOpsHelper_appendfileVecOffset e iter size 0 s
  else Some (remote_write e s offset iter).

Definition FhgfsOpsHelper_writeStatelessInode (e : RemoteEnv) (buf : list byte) (size offset : Z) (s : CacheState) :
    option (Z * CacheState) :=
  if negb (re_reference e =? FhgfsOpsErr_SUCCESS) then Some (- re_reference e, s)
  else
    '(writeRes, s) ← FhgfsOpsHelper_writefileEx e (take (Z.to_nat size) buf) size offset s;
    if writeRes <? 0 then Some (writeRes, s)
    else if negb (re_release e =? FhgfsOpsErr_SUCCESS) then Some (- re_release e, s)
    else Some (writeRes, s).

(** ** Giving a buffer back *)

Definition __FhgfsOpsHelper_discardCache (s : CacheState) : option CacheState :=
  let b := c_cache s in
  store ← NoAllocBufferStore_addBuf (c_store s) (cb_buf b);
  let '(refs, count, _) := InodeRefStore_removeAndReleaseInode (c_refs s) self (ci_count (c_inode s)) in
  let b := MkCacheBuffer None (cb_data b) (cb_bufUsageLen b) (cb_bufUsageMaxLen b) (cb_fileOffset b) FileBufferType_NONE in
  Some (MkCacheState (ci_set_refs count (ci_users (c_inode s)) (ci_set_cache b (c_inode s))) store refs).

Definition __FhgfsOpsHelper_flushCacheUnlocked (e : RemoteEnv) (discardCacheOnError : bool) (s : CacheState) :
    option (Z * CacheState) :=
  match cb_bufType (c_cache s) with
  | FileBufferType_NONE => Some (FhgfsOpsErr_SUCCESS, s)
  | FileBufferType_READ => s ← __FhgfsOpsHelper_discardCache s; Some (FhgfsOpsErr_SUCCESS, s)
  | FileBufferType_WRITE =>
      let usageLen := cb_bufUsageLen (c_cache s) in
      '(writeRes, s) ← FhgfsOpsHelper_writeStatelessInode e (cb_data (c_cache s)) usageLen (cb_fileOffset (c_cache s)) s;
      if writeRes <? usageLen then
        s ← (if discardCacheOnError then __FhgfsOpsHelper_discardCache s else Some s);
        Some (if 0 <? writeRes then FhgfsOpsErr_NOSPACE else - writeRes, s)
      else s ← __FhgfsOpsHelper_discardCache s; Some (FhgfsOpsErr_SUCCESS, s)
  end.
Definition FhgfsOpsHelper_flushCache := __FhgfsOpsHelper_flushCacheUnlocked.
Definition FhgfsOpsHelper_flushCacheNoWait (e : RemoteEnv) (gotLock discardCacheOnError : bool) (s : CacheState) :
    option (Z * CacheState) :=
  if gotLock then __FhgfsOpsHelper_flushCacheUnlocked e discardCacheOnError s else Some (FhgfsOpsErr_INUSE, s).

(** Taking a buffer from the store, and the references that go with it. *)
Definition take_buf (type : FileBufferType) (s : CacheState) : option CacheState :=
  match NoAllocBufferStore_instantBuf (c_store s) with
  | (None, _) => None
  | (Some buf, store) =>
      let b := c_cache s in
      Some (MkCacheState (ci_set_cache (MkCacheBuffer (Some buf) [] (cb_bufUsageLen b) (cb_bufUsageMaxLen b)
        (cb_fileOffset b) type) (c_inode s)) store (c_refs s))
  end.
Definition fill_cache (data : list byte) (usageLen maxLen fileOffset : Z) (s : CacheState) : CacheState :=
  let b := c_cache s in
  let '(refs, count) := InodeRefStore_addAndReferenceInode (c_refs s) self (ci_count (c_inode s)) in
  let b := MkCacheBuffer (cb_buf b) data usageLen maxLen fileOffset (cb_bufType b) in
  MkCacheState (ci_set_refs count (ci_users (c_inode s)) (ci_set_cache b (c_inode s))) (c_store s) refs.

(** ** Writing *)

Definition __FhgfsOpsHelper_writeCacheFlushed (e : RemoteEnv) (fileInfo : FsFileInfo) (iter : list byte) (size offset : Z)
    (s : CacheState) : option (Z * CacheState) :=
  let isAppendWrite := offset =? -1 in
  let bufSize := nb_bufSize (c_store s) in
  let maxCacheLen := if isAppendWrite then bufSize
    else Z.min (u64 (StripePattern_getChunkEnd pattern offset - offset + 1)) bufSize in
  let writeThrough := FhgfsOpsHelper_writefileEx e iter size offset s in
  if negb (ff_allowCaching fileInfo) || (negb isAppendWrite && (ff_cacheHits fileInfo <=? 0)) then writeThrough
  else if maxCacheLen <=? size then writeThrough
  else
    match take_buf FileBufferType_WRITE s with
    | None => writeThrough
    | Some s =>
        if bufSize <? size then None
        else if negb (re_copy e size =? size) then
          s ← __FhgfsOpsHelper_discardCache s; Some (- FhgfsOpsErr_ADDRESSFAULT, s)
        else Some (size, fill_cache (take (Z.to_nat size) iter) size maxCacheLen offset s)
    end.

(** The value, the bytes a reader gets, the handle and the state. *)
Record CachedOut := MkCachedOut { co_ret : Z; co_bytes : list byte; co_info : FsFileInfo; co_state : CacheState }.
Definition out_of (info : FsFileInfo) (r : option (Z * CacheState)) : option CachedOut :=
  '(ret, s) ← r; Some (MkCachedOut ret [] info s).

Definition FhgfsOpsHelper_writeCached (e : RemoteEnv) (fileInfo : FsFileInfo) (iter : list byte) (size offset : Z)
    (s : CacheState) : option CachedOut :=
  let isAppendWrite := offset =? -1 in
  let b := c_cache s in
  if tuneCoherentBuffers && ci_mapped (c_inode s) then
    out_of (FsFileInfo_decCacheHits fileInfo) (FhgfsOpsHelper_writefileEx e iter size offset s)
  else
    match cb_bufType b with
    | FileBufferType_NONE =>
        let virtualCacheStart := ff_lastWriteOffset fileInfo in
        let virtualCacheEnd := s64 (virtualCacheStart + nb_bufSize (c_store s) - 1) in
        let hit := isAppendWrite || ((virtualCacheStart <=? offset) && (offset <=? virtualCacheEnd)) in
        let fileInfo := if hit then FsFileInfo_incCacheHits fileInfo else FsFileInfo_decCacheHits fileInfo in
        out_of fileInfo (__FhgfsOpsHelper_writeCacheFlushed e fileInfo iter size offset s)
    | FileBufferType_READ =>
        let fileInfo := FsFileInfo_decCacheHits fileInfo in
        s ← __FhgfsOpsHelper_discardCache s;
        out_of fileInfo (__FhgfsOpsHelper_writeCacheFlushed e fileInfo iter size offset s)
    | FileBufferType_WRITE =>
        let isAppendCacheBuf := cb_fileOffset b =? -1 in
        let currentCacheEndOffset := s64 (cb_fileOffset b + cb_bufUsageLen b) in
        let bufLenLeft := u64 (cb_bufUsageMaxLen b - cb_bufUsageLen b) in
        if xorb isAppendWrite isAppendCacheBuf || (negb isAppendWrite && negb (offset =? currentCacheEndOffset)) ||
           (bufLenLeft <? size)
        then
          let fileInfo := FsFileInfo_decCacheHits fileInfo in
          '(flushRes, s) ← __FhgfsOpsHelper_flushCacheUnlocked e false s;
          if negb (flushRes =? FhgfsOpsErr_SUCCESS) then Some (MkCachedOut (- flushRes) [] fileInfo s)
          else out_of fileInfo (__FhgfsOpsHelper_writeCacheFlushed e fileInfo iter size offset s)
        else
          let fileInfo := FsFileInfo_incCacheHits fileInfo in
          if nb_bufSize (c_store s) <? cb_bufUsageLen b + size then None
          else if negb (re_copy e size =? size) then Some (MkCachedOut (- FhgfsOpsErr_ADDRESSFAULT) [] fileInfo s)
          else
            let data := take (Z.to_nat (cb_bufUsageLen b)) (cb_data b) ++ take (Z.to_nat size) iter in
            let usageLen := cb_bufUsageLen b + size in
            let s := upd_inode (ci_set_cache (MkCacheBuffer (cb_buf b) data usageLen (cb_bufUsageMaxLen b)
              (cb_fileOffset b) (cb_bufType b))) s in
            if u64 (cb_bufUsageMaxLen b - usageLen) =? 0 then
              '(flushRes, s) ← __FhgfsOpsHelper_flushCacheUnlocked e false s;
              if negb (flushRes =? FhgfsOpsErr_SUCCESS) then Some (MkCachedOut (- flushRes) [] fileInfo s)
              else Some (MkCachedOut size [] fileInfo s)
            else Some (MkCachedOut size [] fileInfo s)
    end.

(** ** Reading *)

Definition remote_read (e : RemoteEnv) (s : CacheState) (offset size : Z) : Z * list byte :=
  re_read e (ci_file (c_inode s)) offset size.

(** [multipleReaders]: [FhgfsInode_getIsFileOpenByMultipleReaders]. *)
Definition __FhgfsOpsHelper_readCacheFlushed (e : RemoteEnv) (multipleReaders : bool) (fileInfo : FsFileInfo) (size offset : Z)
    (s : CacheState) : option (Z * list byte * CacheState) :=
  let readDirect := Some (remote_read e s offset size, s) in
  let bufSize := nb_bufSize (c_store s) in
  let maxCacheLen := Z.min (u64 (StripePattern_getChunkEnd pattern offset - offset + 1)) bufSize in
  if negb (ff_allowCaching fileInfo) || (ff_cacheHits fileInfo <=? 0) || multipleReaders then readDirect
  else if maxCacheLen <=? size then readDirect
  else
    match take_buf FileBufferType_READ s with
    | None => readDirect
    | Some s =>
        let maxCacheLen := if (offset =? 0) && (size <? FSFILEINFO_CACHE_SLOWSTART_READLEN)
          then FSFILEINFO_CACHE_SLOWSTART_READLEN else maxCacheLen in
        let '(readRes, data) := remote_read e s offset maxCacheLen in
        if bufSize <? zlen data then None
        else if readRes <=? 0 then s ← __FhgfsOpsHelper_discardCache s; Some (readRes, [], s)
        else
          let numIterCopy := Z.min size readRes in
          if negb (re_copy e numIterCopy =? numIterCopy) then
            s ← __FhgfsOpsHelper_discardCache s; Some (- FhgfsOpsErr_ADDRESSFAULT, [], s)
          else Some (numIterCopy, take (Z.to_nat numIterCopy) data, fill_cache data readRes maxCacheLen offset s)
    end.

Definition read_out (info : FsFileInfo) (before : list byte) (add : Z) (r : option (Z * list byte * CacheState)) :
    option CachedOut :=
  '(ret, bytes, s) ← r; Some (MkCachedOut (if ret <? 0 then ret else add + ret) (before ++ bytes) info s).

(** The part of a read that the buffer and the range of the read have in common, with the parts before and behind it. *)
Definition read_overlap (e : RemoteEnv) (multipleReaders : bool) (fileInfo : FsFileInfo) (size offset : Z) (s : CacheState) :
    option CachedOut :=
  let b := c_cache s in
  let readEndOffset := s64 (offset + size - 1) in
  let cacheEndOffset := s64 (cb_fileOffset b + cb_bufUsageLen b - 1) in
  let remoteReadSize := if offset <? cb_fileOffset b then cb_fileOffset b - offset else 0 in
  let '(readRes, before) := if offset <? cb_fileOffset b then remote_read e s offset remoteReadSize else (0, []) in
  if (offset <? cb_fileOffset b) && (readRes <? remoteReadSize) then
    s ← __FhgfsOpsHelper_discardCache s; Some (MkCachedOut readRes before fileInfo s)
  else
    let cacheCopyOffset := if offset <=? cb_fileOffset b then 0 else offset - cb_fileOffset b in
    let cacheCopySize := u64 (Z.min (u64 (cb_fileOffset b + cb_bufUsageLen b)) (u64 (offset + size)) -
      (cb_fileOffset b + cacheCopyOffset)) in
    if negb (re_copy e cacheCopySize =? cacheCopySize) then Some (MkCachedOut (- FhgfsOpsErr_ADDRESSFAULT) before fileInfo s)
    else
      copied ← load (cb_data b) cacheCopyOffset cacheCopySize;
      if cacheEndOffset <? readEndOffset then
        s ← __FhgfsOpsHelper_discardCache s;
        read_out fileInfo (before ++ copied) (remoteReadSize + cacheCopySize)
          (__FhgfsOpsHelper_readCacheFlushed e multipleReaders fileInfo (readEndOffset - cacheEndOffset)
            (cacheEndOffset + 1) s)
      else Some (MkCachedOut size (before ++ copied) fileInfo s).

Definition FhgfsOpsHelper_readCached (e : RemoteEnv) (multipleReaders : bool) (fileInfo : FsFileInfo) (size offset : Z)
    (s : CacheState) : option CachedOut :=
  let b := c_cache s in
  let readEndOffset := s64 (offset + size - 1) in
  let direct info := let '(ret, bytes) := remote_read e s offset size in Some (MkCachedOut ret bytes info s) in
  if tuneCoherentBuffers && ci_mapped (c_inode s) then direct (FsFileInfo_decCacheHits fileInfo)
  else if (multipleReaders || negb (ff_allowCaching fileInfo)) && bool_decide (cb_bufType b = FileBufferType_NONE)
  then direct fileInfo
  else
    let flushed info := '(flushRes, s) ← __FhgfsOpsHelper_flushCacheUnlocked e false s;
      if negb (flushRes =? FhgfsOpsErr_SUCCESS) then Some (MkCachedOut (- flushRes) [] info s)
      else read_out info [] 0 (__FhgfsOpsHelper_readCacheFlushed e multipleReaders info size offset s) in
    match cb_bufType b with
    | FileBufferType_NONE =>
        let virtualCacheStart := ff_lastReadOffset fileInfo in
        let virtualCacheEnd := s64 (virtualCacheStart + nb_bufSize (c_store s) - 1) in
        let fileInfo := if (offset <=? virtualCacheEnd) && (virtualCacheStart <=? readEndOffset)
          then FsFileInfo_incCacheHits fileInfo else FsFileInfo_decCacheHits fileInfo in
        read_out fileInfo [] 0 (__FhgfsOpsHelper_readCacheFlushed e multipleReaders fileInfo size offset s)
    | FileBufferType_WRITE => flushed (FsFileInfo_decCacheHits fileInfo)
    | FileBufferType_READ =>
        let cacheEndOffset := s64 (cb_fileOffset b + cb_bufUsageLen b - 1) in
        if (cacheEndOffset <? offset) || (readEndOffset <? cb_fileOffset b) then flushed (FsFileInfo_decCacheHits fileInfo)
        else read_overlap e multipleReaders (FsFileInfo_incCacheHits fileInfo) size offset s
    end.

(** Without the refresh of the attributes; [locked]: the lock was obtained in time. *)
Definition FhgfsOps_mmap (e : RemoteEnv) (locked : bool) (generic_file_mmap : Z) (s : CacheState) : option (Z * CacheState) :=
  '(flushRes, s) ← (if tuneCoherentBuffers && locked then __FhgfsOpsHelper_flushCacheUnlocked e false s
                    else Some (FhgfsOpsErr_SUCCESS, s));
  if negb (flushRes =? FhgfsOpsErr_SUCCESS) then Some (FhgfsOpsErr_toSysErr flushRes, s)
  else Some (generic_file_mmap, if generic_file_mmap =? 0 then upd_inode (ci_set_mapped true) s else s).
End Cache.

(** ** All inodes, their users and the flusher *)

(** Where the flusher is: waiting, before the flush of an inode, before its final flush, before the reference is given
    back or put into the store again, before the next inode. *)
Inductive FlusherPc :=
| Fl_idle | Fl_flush (i : nat) | Fl_final (i : nat) | Fl_put (i : nat) | Fl_readd (i : nat) | Fl_next (i : nat).
Record CacheWorld := MkCacheWorld {
  w_inodes : gmap nat CachedInode;
  w_store : NoAllocBufferStore;
  w_refs : gset nat;
  w_flusher : FlusherPc
}.
Definition w_set_flusher (pc : FlusherPc) (w : CacheWorld) : CacheWorld := MkCacheWorld (w_inodes w) (w_store w) (w_refs w) pc.

(** An operation of somebody who holds a reference to the inode; it must not give back the last one. *)
Definition with_inode {A} (f : CacheState -> option (A * CacheState)) (i : nat) (w : CacheWorld) : option (A * CacheWorld) :=
  inode ← w_inodes w !! i;
  '(a, s) ← f (MkCacheState inode (w_store w) (w_refs w));
  if ci_count (c_inode s) <=? 0 then None
  else Some (a, MkCacheWorld (<[i := c_inode s]> (w_inodes w)) (c_store s) (c_refs s) (w_flusher w)).
(** The last reference frees the inode; a buffer that it still has is lost. *)
Definition iput (i : nat) (users : Z) (w : CacheWorld) : option CacheWorld :=
  inode ← w_inodes w !! i;
  if ci_count inode - 1 <=? 0 then
    match cb_buf (ci_cache inode) with
    | Some _ => None
    | None => Some (MkCacheWorld (delete i (w_inodes w)) (w_store w) (w_refs w) (w_flusher w))
    end
  else Some (MkCacheWorld (<[i := ci_set_refs (ci_count inode - 1) users inode]> (w_inodes w)) (w_store w) (w_refs w) (w_flusher w)).

(** One step of [__Flusher_flushBuffers].  [isOpen]: [FhgfsInode_getIsFileOpen]; [terminate]: the thread is to end. *)
Definition __Flusher_flushBuffers (e : RemoteEnv) (gotLock isOpen terminate : bool) (w : CacheWorld) : option CacheWorld :=
  match w_flusher w with
  | Fl_idle =>
      let '(inode, refs) := InodeRefStore_getAndRemoveFirstInode (w_refs w) in
      Some (MkCacheWorld (w_inodes w) (w_store w) refs (match inode with Some i => Fl_flush i | None => Fl_idle end))
  | Fl_flush i =>
      '(flushRes, w) ← with_inode (FhgfsOpsHelper_flushCacheNoWait i e gotLock false) i w;
      Some (w_set_flusher
        (if flushRes =? FhgfsOpsErr_SUCCESS then Fl_put i
         else if flushRes =? FhgfsOpsErr_INUSE then Fl_readd i
         else if negb (flushRes =? FhgfsOpsErr_COMMUNICATION) || negb isOpen then Fl_final i
         else Fl_readd i) w)
  | Fl_final i =>
      '(_, w) ← with_inode (FhgfsOpsHelper_flushCache i e true) i w; Some (w_set_flusher (Fl_put i) w)
  | Fl_put i => users ← ci_users <$> w_inodes w !! i; w_set_flusher (Fl_next i) <$> iput i users w
  | Fl_readd i =>
      inode ← w_inodes w !! i;
      let '(refs, count) := InodeRefStore_addOrPutInode (w_refs w) i (ci_count inode) in
      if count <=? 0 then None
      else Some (MkCacheWorld (<[i := ci_set_refs count (ci_users inode) inode]> (w_inodes w)) (w_store w) refs (Fl_next i))
  | Fl_next i =>
      if terminate then Some (w_set_flusher Fl_idle w)
      else
        let '(inode, refs) := InodeRefStore_getAndRemoveNextInode (w_refs w) i in
        Some (MkCacheWorld (w_inodes w) (w_store w) refs (match inode with Some i => Fl_flush i | None => Fl_idle end))
  end.

(** What users and the flusher do; an operation of a user needs an inode to which it has a reference. *)
Inductive CacheLabel :=
| Lc_create (i : nat) (file : list byte)
| Lc_open (i : nat)
| Lc_close (i : nat)
| Lc_write (i : nat) (pattern : StripePattern) (e : RemoteEnv) (fileInfo : FsFileInfo) (iter : list byte) (size offset : Z)
| Lc_read (i : nat) (pattern : StripePattern) (e : RemoteEnv) (multipleReaders : bool) (fileInfo : FsFileInfo) (size offset : Z)
| Lc_flush (i : nat) (e : RemoteEnv) (discardCacheOnError : bool)
| Lc_mmap (i : nat) (e : RemoteEnv) (locked : bool) (generic_file_mmap : Z)
| Lc_munmap (i : nat)
| Lc_flusher (e : RemoteEnv) (gotLock isOpen terminate : bool).

(** What a user sees; a flush also shows the file that the servers have now. *)
Inductive CacheObs := Oc_none | Oc_write (ret : Z) | Oc_read (ret : Z) (bytes : list byte) | Oc_flush (ret : Z) (file : list byte).

Section World.
Context (tuneCoherentBuffers : bool).

Definition in_use (i : nat) (w : CacheWorld) : bool :=
  match w_inodes w !! i with Some inode => 0 <? ci_users inode | None => false end.
Definition cache_step (w : CacheWorld) (l : CacheLabel) : option (CacheObs * CacheWorld) :=
  match l with
  | Lc_create i file =>
      match w_inodes w !! i with
      | Some _ => Some (Oc_none, w)
      | None => Some (Oc_none, MkCacheWorld (<[i := MkCachedInode no_cacheBuffer file 1 1 false false]> (w_inodes w))
                  (w_store w) (w_refs w) (w_flusher w))
      end
  | Lc_open i =>
      match w_inodes w !! i with
      | Some inode => Some (Oc_none, MkCacheWorld (<[i := ci_set_refs (ci_count inode + 1) (ci_users inode + 1) inode]> (w_inodes w))
                        (w_store w) (w_refs w) (w_flusher w))
      | None => Some (Oc_none, w)
      end
  | Lc_close i =>
      if in_use i w then users ← ci_users <$> w_inodes w !! i; pair Oc_none <$> iput i (users - 1) w else Some (Oc_none, w)
  | Lc_write i pattern e fileInfo iter size offset =>
      if in_use i w then
        with_inode (fun s => o ← FhgfsOpsHelper_writeCached tuneCoherentBuffers pattern i e fileInfo iter size offset s;
          Some (Oc_write (co_ret o), co_state o)) i w
      else Some (Oc_none, w)
  | Lc_read i pattern e multipleReaders fileInfo size offset =>
      if in_use i w then
        with_inode (fun s => o ← FhgfsOpsHelper_readCached tuneCoherentBuffers pattern i e multipleReaders fileInfo size offset s;
          Some (Oc_read (co_ret o) (co_bytes o), co_state o)) i w
      else Some (Oc_none, w)
  | Lc_flush i e discardCacheOnError =>
      if in_use i w then
        with_inode (fun s => '(ret, s) ← FhgfsOpsHelper_flushCache i e discardCacheOnError s;
          Some (Oc_flush ret (ci_file (c_inode s)), s)) i w
      else Some (Oc_none, w)
  | Lc_mmap i e locked generic_file_mmap =>
      if in_use i w then
        with_inode (fun s => '(ret, s) ← FhgfsOps_mmap tuneCoherentBuffers i e locked generic_file_mmap s;
          Some (Oc_none, s)) i w
      else Some (Oc_none, w)
  | Lc_munmap i =>
      if in_use i w then with_inode (fun s => Some (Oc_none, upd_inode (ci_set_mapped false) s)) i w else Some (Oc_none, w)
  | Lc_flusher e gotLock isOpen terminate => pair Oc_none <$> __Flusher_flushBuffers e gotLock isOpen terminate w
  end.
Fixpoint cache_run (w : CacheWorld) (ls : list CacheLabel) : option (list CacheObs * CacheWorld) :=
  match ls with
  | [] => Some ([], w)
  | l :: ls => '(o, w) ← cache_step w l; '(os, w) ← cache_run w ls; Some (o :: os, w)
  end.
End World.
Definition cache_start (store : NoAllocBufferStore) : CacheWorld := MkCacheWorld ∅ store ∅ Fl_idle.
