(* ===== verification/FileCacheFacts.v ===== *)
(** * Properties of the file cache

    Whatever remote operations return, an inode with its buffer behaves like a plain file: the contents that users see
    are the file at the servers with the data of a write buffer on top of it. *)

From stdpp Require Import sorting.
From S2P Require Import Prelude StorageErrors StripePattern StripePatternFacts FileCache.

(** ** Files as lists of bytes *)

(** Data at an offset; a gap behind the end of the file is filled with zeros. *)
Definition write_at (f : list byte) (off : Z) (data : list byte) : list byte :=
  match data with
  | [] => f
  | _ =>
      let o := Z.to_nat off in
      take o f ++ replicate (o - length f) Byte.x00 ++ data ++ drop (o + length data) f
  end.
Definition read_at (f : list byte) (off n : Z) : list byte := take (Z.to_nat n) (drop (Z.to_nat off) f).

Lemma write_at_ne f off data : data <> [] ->
  write_at f off data = take (Z.to_nat off) f ++ replicate (Z.to_nat off - length f) Byte.x00 ++ data ++
    drop (Z.to_nat off + length data) f.
Proof. by destruct data. Qed.

Lemma length_front o (f : list byte) : length (take o f ++ replicate (o - length f) Byte.x00) = o.
Proof. rewrite length_app, length_take, length_replicate. lia. Qed.

Lemma write_at_over f off mid data : zlen mid <= zlen data -> write_at (write_at f off mid) off data = write_at f off data.
Proof.
  intros Hl. destruct (decide (mid = [])) as [->|Hm]; [done|].
  destruct (decide (data = [])) as [->|Hd]; [destruct mid; [done|zlia]|].
  rewrite !(write_at_ne _ _ data) by done. rewrite write_at_ne by done. set (o := Z.to_nat off).
  pose proof (length_front o f) as Hf. rewrite (app_assoc (take o f)). set (p := take o f ++ _) in *.
  rewrite (take_app_length' p) by done. rewrite (app_assoc (take o f)). fold p. f_equal.
  assert (E : (o - length (p ++ mid ++ drop (o + length mid) f))%nat = O) by (rewrite length_app; lia). rewrite E. cbn.
  f_equal. unfold zlen in Hl. rewrite (drop_app_ge p), drop_app_ge, drop_drop by lia. f_equal. lia.
Qed.

Lemma write_at_append f off a b : 0 <= off -> write_at (write_at f off a) (off + zlen a) b = write_at f off (a ++ b).
Proof.
  intros Ho. destruct (decide (a = [])) as [->|Ha]; [rewrite zlen_nil, Z.add_0_r; done|].
  destruct (decide (b = [])) as [->|Hb]; [by rewrite app_nil_r|].
  rewrite (write_at_ne _ _ b) by done. rewrite !write_at_ne by (destruct a; done).
  assert (E : Z.to_nat (off + zlen a) = (Z.to_nat off + length a)%nat) by (unfold zlen; lia). rewrite E. set (o := Z.to_nat off).
  pose proof (length_front o f) as Hf. rewrite !(app_assoc (take o f)). set (p := take o f ++ _) in *.
  rewrite (app_assoc p a), (take_app_length' (p ++ a)) by (rewrite length_app; lia).
  assert (E2 : (o + length a - length ((p ++ a) ++ drop (o + length a) f))%nat = O) by (rewrite !length_app; lia). rewrite E2. cbn.
  rewrite <- !app_assoc. do 3 f_equal.
  rewrite (app_assoc p a), drop_app_ge by (rewrite length_app; lia). rewrite drop_drop. f_equal.
  rewrite !length_app. lia.
Qed.

Lemma write_at_end f data : write_at f (zlen f) data = f ++ data.
Proof.
  destruct (decide (data = [])) as [->|Hd]; [by rewrite app_nil_r|]. rewrite write_at_ne by done. rewrite to_nat_zlen.
  rewrite firstn_all, Nat.sub_diag, drop_ge, app_nil_r by lia. done.
Qed.

Lemma read_at_app f off n m : 0 <= off -> 0 <= n -> 0 <= m -> zlen (read_at f off n) = n ->
  read_at f off n ++ read_at f (off + n) m = read_at f off (n + m).
Proof.
  intros Ho Hn Hm Hl. unfold read_at in *. rewrite <- (take_drop (Z.to_nat n) (take (Z.to_nat (n + m)) _)).
  rewrite take_take, Nat.min_l by lia. f_equal. rewrite skipn_firstn_comm, drop_drop.
  f_equal; [lia|]. f_equal. lia.
Qed.

Lemma read_at_sub f off n k m : 0 <= off -> 0 <= k -> 0 <= m -> k + m <= n ->
  take (Z.to_nat m) (drop (Z.to_nat k) (read_at f off n)) = read_at f (off + k) m.
Proof.
  intros Ho Hk Hm Hn. unfold read_at. rewrite skipn_firstn_comm, take_take, drop_drop.
  f_equal; [lia|]. f_equal. lia.
Qed.

Lemma zlen_read_at f off n : 0 <= n -> zlen (read_at f off n) <= n.
Proof. intros Hn. unfold read_at, zlen. rewrite length_take. lia. Qed.

Lemma s64_id z : - 2 ^ 63 <= z < 2 ^ 63 -> s64 z = z.
Proof. apply s64_small. Qed.

(** ** What remote operations ensure *)

(** A write of [data] that returns [r] changes [f] to [f']: only the range of the data, of which at least [r] bytes from the
    start are stored. *)
Definition write_law (f : list byte) (off : Z) (data : list byte) (r : Z) (f' : list byte) : Prop := exists mid,
  f' = write_at f off mid /\ zlen mid <= zlen data /\ r <= zlen data /\
  (0 <= r -> r <= zlen mid /\ take (Z.to_nat r) mid = take (Z.to_nat r) data).
(** A read of [n] bytes that returns [r] and stores [bytes]. *)
Definition read_law (f : list byte) (off n r : Z) (bytes : list byte) : Prop :=
  zlen bytes <= n /\ r <= n /\ (0 <= r -> bytes = read_at f off r /\ zlen bytes = r).

(** A remote write changes only the bytes it was given, and its value is a number of bytes from the start that are stored; a
    remote read returns bytes of the file.  [eo_progress]: a write of something does not report that
    nothing was written.  [eo_append]: when data are appended, it is all or nothing. *)
Record env_ok (appends : bool) (e : RemoteEnv) : Prop := {
  eo_write : forall f off data, 0 <= off -> write_law f off data (re_write e f off data).1 (re_write e f off data).2;
  eo_progress : forall f off data, data <> [] -> (re_write e f off data).1 <> 0;
  eo_read : forall f off n, 0 <= off -> 0 <= n -> read_law f off n (re_read e f off n).1 (re_read e f off n).2;
  eo_stat : forall f, 0 <= (re_stat e f).1 /\ ((re_stat e f).1 = 0 -> (re_stat e f).2 = zlen f /\ zlen f < 2 ^ 63);
  eo_lock : 0 <= re_lock e;
  eo_reference : 0 <= re_reference e;
  eo_release : 0 <= re_release e;
  eo_append : appends = true -> re_release e = 0 /\
    forall f data, (re_write e f (zlen f) data).1 = zlen data \/
      (re_write e f (zlen f) data).1 < 0 /\ (re_write e f (zlen f) data).2 = f
}.
(** Reads end early only at the end of the file. *)
Definition reads_complete (e : RemoteEnv) : Prop := forall f off n,
  0 <= (re_read e f off n).1 < n -> zlen f <= off + (re_read e f off n).1.

(** ** The contents of a cached file *)

Definition with_buffer (b : CacheBuffer) (file : list byte) : list byte :=
  match cb_bufType b with
  | FileBufferType_WRITE => write_at file (if cb_fileOffset b =? -1 then zlen file else cb_fileOffset b) (cb_data b)
  | _ => file
  end.
Definition contents (i : CachedInode) : list byte := with_buffer (ci_cache i) (ci_file i).

(** What a write of [iter] may do to the contents when it returns [v]. *)
Definition written (f : list byte) (off : Z) (iter : list byte) (v : Z) (f' : list byte) : Prop :=
  write_law f (if off =? -1 then zlen f else off) iter v f'.
(** What a read may return. *)
Definition got (e : RemoteEnv) (f : list byte) (off size r : Z) (bytes : list byte) : Prop :=
  r <= size /\
  (0 <= r -> bytes = read_at f off r /\ zlen bytes = r /\ (reads_complete e -> r < size -> zlen f <= off + r)).
(** A buffer was given up before all of its data were written. *)
Definition dropped (f f' : list byte) : Prop := exists file off buf mid,
  f = write_at file off buf /\ f' = write_at file off mid /\ zlen mid <= zlen buf.

(** ** Buffers and references *)

Definition attached (b : CacheBuffer) : list nat := match cb_buf b with Some buf => [buf] | None => [] end.
Definition b2z (b : bool) : Z := if b then 1 else 0.
Lemma b2z_range b : 0 <= b2z b <= 1.
Proof. destruct b; cbn; lia. Qed.

(** What an operation on an inode keeps: the buffers, the other inodes of the store, the references that do not belong to
    the store, and the way that leads to an inode with a buffer. *)
Record frame (self : nat) (s s' : CacheState) : Prop := {
  fr_bufs : nb_bufArray (c_store s') ++ attached (c_cache s') ≡ₚ nb_bufArray (c_store s) ++ attached (c_cache s);
  fr_num : nb_numBufs (c_store s') = nb_numBufs (c_store s);
  fr_size : nb_bufSize (c_store s') = nb_bufSize (c_store s);
  fr_refs : forall j, j <> self -> j ∈ c_refs s' <-> j ∈ c_refs s;
  fr_count : ci_count (c_inode s') - b2z (bool_decide (self ∈ c_refs s')) =
    ci_count (c_inode s) - b2z (bool_decide (self ∈ c_refs s));
  fr_users : ci_users (c_inode s') = ci_users (c_inode s);
  fr_mapped : ci_mapped (c_inode s') = ci_mapped (c_inode s);
  fr_tracked : forall held : Prop, (attached (c_cache s) <> [] -> self ∈ c_refs s \/ held) ->
    attached (c_cache s') <> [] -> self ∈ c_refs s' \/ held
}.

#[export] Instance frame_preorder self : PreOrder (frame self).
Proof.
  split.
  - intros s. by split.
  - intros s1 s2 s3 H1 H2. destruct H1, H2. split; try congruence.
    + by etrans.
    + intros j Hj. by rewrite fr_refs1, fr_refs0.
    + intros held H. auto.
Qed.

Create HintDb cache.
#[export] Hint Resolve fr_size fr_num fr_mapped : cache.

Section OneInode.
Context (appends coherent : bool) (self : nat).

Definition room (s : CacheState) : Prop :=
  zlen (nb_bufArray (c_store s)) + zlen (attached (c_cache s)) <= nb_numBufs (c_store s).

(** The buffer of an inode: [bufSize] is at least the length of the first read ahead. *)
Record buffer_ok (bufSize : Z) (file : list byte) (mapped : bool) (b : CacheBuffer) : Prop := {
  bo_none : cb_bufType b = FileBufferType_NONE -> cb_buf b = None;
  bo_some : cb_bufType b <> FileBufferType_NONE ->
    zlen (cb_data b) = cb_bufUsageLen b /\ cb_bufUsageLen b <= cb_bufUsageMaxLen b <= bufSize;
  bo_read : cb_bufType b = FileBufferType_READ ->
    0 <= cb_fileOffset b < 2 ^ 63 - bufSize /\ 0 < cb_bufUsageLen b /\ cb_data b = read_at file (cb_fileOffset b) (cb_bufUsageLen b);
  bo_write : cb_bufType b = FileBufferType_WRITE ->
    cb_fileOffset b = -1 /\ appends = true \/ 0 <= cb_fileOffset b < 2 ^ 63 - bufSize;
  bo_mapped : coherent = true -> mapped = true -> cb_bufType b = FileBufferType_NONE
}.
Definition cache_ok (s : CacheState) : Prop :=
  room s /\ FSFILEINFO_CACHE_SLOWSTART_READLEN <= nb_bufSize (c_store s) < 2 ^ 62 /\
  buffer_ok (nb_bufSize (c_store s)) (ci_file (c_inode s)) (ci_mapped (c_inode s)) (c_cache s).
Definition empty (s : CacheState) : Prop := cb_bufType (c_cache s) = FileBufferType_NONE.

Lemma room_frame s s' : frame self s s' -> room s -> room s'.
Proof.
  intros Hf Hr. unfold room in *. rewrite (fr_num _ _ _ Hf), <- zlen_app. rewrite <- zlen_app in Hr.
  unfold zlen in *. rewrite (fr_bufs _ _ _ Hf). done.
Qed.
Lemma buffer_ok_none n f m b : cb_bufType b = FileBufferType_NONE -> cb_buf b = None -> buffer_ok n f m b.
Proof. intros E1 E2. split; rewrite ?E1; try done. Qed.
Lemma contents_empty s : empty s -> contents (c_inode s) = ci_file (c_inode s).
Proof. unfold empty, contents, with_buffer, c_cache. by intros ->. Qed.
Lemma cache_ok_empty s s' : frame self s s' -> cache_ok s -> empty s' -> cb_buf (c_cache s') = None -> cache_ok s'.
Proof.
  intros Hf (Hr & Hs & _) He Hb. split; [by eapply room_frame|]. split; [by rewrite (fr_size _ _ _ Hf)|by apply buffer_ok_none].
Qed.

Lemma remove_frame refs count : let '(refs', count', _) := InodeRefStore_removeAndReleaseInode refs self count in
  (forall j, j <> self -> j ∈ refs' <-> j ∈ refs) /\
  count' - b2z (bool_decide (self ∈ refs')) = count - b2z (bool_decide (self ∈ refs)).
Proof.
  unfold InodeRefStore_removeAndReleaseInode. destruct (bool_decide (self ∈ refs)) eqn:E; [|by rewrite E].
  apply bool_decide_eq_true in E. split; [set_solver|]. rewrite bool_decide_eq_false_2 by set_solver. cbn. lia.
Qed.

(** A buffer is given back. *)
Lemma discard_ok s : room s -> exists s', __FhgfsOpsHelper_discardCache self s = Some s' /\ frame self s s' /\ empty s' /\
  cb_buf (c_cache s') = None /\ ci_file (c_inode s') = ci_file (c_inode s).
Proof.
  intros Hr. unfold __FhgfsOpsHelper_discardCache.
  assert (Hadd : exists store, NoAllocBufferStore_addBuf (c_store s) (cb_buf (c_cache s)) = Some store /\
    nb_bufArray store ≡ₚ nb_bufArray (c_store s) ++ attached (c_cache s) /\ nb_numBufs store = nb_numBufs (c_store s) /\
    nb_bufSize store = nb_bufSize (c_store s)).
  { unfold NoAllocBufferStore_addBuf, room, attached, NoAllocBufferStore_getNumAvailable in *.
    destruct (cb_buf (c_cache s)) as [b|]; [|exists (c_store s); by rewrite app_nil_r].
    rewrite zlen_cons, zlen_nil in Hr. destruct (Z.leb_spec (nb_numBufs (c_store s)) (zlen (nb_bufArray (c_store s)))); [lia|].
    by eexists. }
  destruct Hadd as (store & -> & Hp & Hn & Hb). cbn [mbind option_bind].
  pose proof (remove_frame (c_refs s) (ci_count (c_inode s))) as Hrem.
  destruct (InodeRefStore_removeAndReleaseInode _ _ _) as [[refs count] er]. destruct Hrem as [Hrefs Hcount].
  eexists. split; [done|]. unfold c_cache, empty. cbn. split_and!; try done.
  split; try done; cbn. by rewrite app_nil_r.
Qed.

Lemma discard_cache_ok s : cache_ok s -> exists s', __FhgfsOpsHelper_discardCache self s = Some s' /\ frame self s s' /\
  cache_ok s' /\ empty s' /\ ci_file (c_inode s') = ci_file (c_inode s).
Proof.
  intros Hok. destruct (discard_ok s) as (s' & E & Hf & He & Hb & Hfile); [apply Hok|].
  exists s'. split_and!; try done. by eapply cache_ok_empty.
Qed.

(** ** Writing to the servers *)

(** Only the file at the servers and the note about a lost lock have changed. *)
Definition only_file (s s' : CacheState) : Prop :=
  c_store s' = c_store s /\ c_refs s' = c_refs s /\ c_cache s' = c_cache s /\ ci_count (c_inode s') = ci_count (c_inode s) /\
  ci_users (c_inode s') = ci_users (c_inode s) /\ ci_mapped (c_inode s') = ci_mapped (c_inode s).
Lemma only_file_frame s s' : only_file s s' -> frame self s s'.
Proof. intros (E1 & E2 & E3 & E4 & E5 & E6). split; rewrite ?E1, ?E2, ?E3, ?E4, ?E5, ?E6; auto. Qed.
#[local] Hint Resolve only_file_frame : cache.

Lemma written_none f off iter v : v < 0 -> written f off iter v f.
Proof. intros Hv. pose proof (zlen_nonneg iter). exists []. rewrite zlen_nil. split_and!; [done|lia|lia|lia]. Qed.

Lemma remote_write_ok e s off iter : env_ok appends e -> 0 <= off -> exists r s',
  remote_write e s off iter = (r, s') /\ only_file s s' /\ written (ci_file (c_inode s)) off iter r (ci_file (c_inode s')) /\
  (iter <> [] -> r <> 0).
Proof.
  intros He Ho. unfold remote_write. destruct (eo_write _ _ He (ci_file (c_inode s)) off iter Ho) as (mid & E & Hw).
  pose proof (eo_progress _ _ He (ci_file (c_inode s)) off iter) as Hp.
  destruct (re_write e _ _ _) as [r file]. cbn [fst snd] in *. eexists _, _. split; [done|]. split; [done|]. split; [|done].
  cbn. exists mid. by rewrite (proj2 (Z.eqb_neq off (-1))) by lia.
Qed.

Definition offset_ok (off : Z) : Prop := off = -1 /\ appends = true \/ 0 <= off.

Lemma writefileEx_ok e s iter off : env_ok appends e -> offset_ok off -> exists r s',
  FhgfsOpsHelper_writefileEx e iter (zlen iter) off s = Some (r, s') /\ only_file s s' /\
  written (ci_file (c_inode s)) off iter r (ci_file (c_inode s')) /\ (iter <> [] -> r <> 0) /\
  (off = -1 -> r = zlen iter /\ re_release e = 0 \/ r < 0 /\ ci_file (c_inode s') = ci_file (c_inode s)).
Proof.
  intros He Hoff. unfold FhgfsOpsHelper_writefileEx. destruct (Z.eqb_spec off (-1)) as [->|Hne].
  2:{ destruct (remote_write_ok e s off iter He) as (r & s' & -> & Ho & Hw & Hp); [destruct Hoff; lia|]. by exists r, s'. }
  destruct Hoff as [[_ Ha]|]; [|lia]. destruct (eo_append _ _ He Ha) as [Hrel Hatom].
  unfold FhgfsOpsHelper_appendfileVecOffset. destruct (Z.eqb_spec (re_lock e) FhgfsOpsErr_SUCCESS) as [El|El]; cbn [negb].
  2:{ pose proof (eo_lock _ _ He). unfold FhgfsOpsErr_SUCCESS in El. eexists _, _. split; [done|]. split; [done|].
      split; [apply written_none; lia|]. split; [lia|]. right. split; [lia|done]. }
  destruct (eo_stat _ _ He (ci_file (c_inode s))) as [Hs1 Hs2]. destruct (re_stat e _) as [statRes statSize]. cbn [fst snd] in *.
  destruct (Z.eqb_spec statRes FhgfsOpsErr_SUCCESS) as [->|Es]; cbn [negb].
  2:{ unfold FhgfsOpsErr_SUCCESS in Es. eexists _, _. split; [done|]. split; [by destruct (re_unlock e =? _)|].
      split; [destruct (re_unlock e =? _); apply written_none; lia|]. split; [lia|]. right. split; [lia|by destruct (re_unlock e =? _)]. }
  destruct (Hs2 eq_refl) as [-> Hmax]. rewrite Z.eqb_refl. cbn [negb]. rewrite Z.add_0_r, s64_id by (pose proof (zlen_nonneg (ci_file (c_inode s))); lia).
  destruct (remote_write_ok e s (zlen (ci_file (c_inode s))) iter He (zlen_nonneg _)) as (r & s' & Er & Ho & Hw & Hp).
  specialize (Hatom (ci_file (c_inode s)) iter).
  assert (Hr : r = zlen iter \/ r < 0 /\ ci_file (c_inode s') = ci_file (c_inode s)).
  { unfold remote_write in Er. destruct (re_write e _ _ _). by injection Er as <- <-. }
  rewrite Er. eexists _, _. split; [done|].
  assert (Hsame : forall P : list byte -> Prop, P (ci_file (c_inode s')) ->
    P (ci_file (c_inode (if re_unlock e =? FhgfsOpsErr_SUCCESS then s' else upd_inode ci_set_needsAppendLockCleanup s')))).
  { intros P. by destruct (re_unlock e =? _). }
  split; [destruct (re_unlock e =? _); done|]. split.
  { apply Hsame. destruct Hw as (mid & E & Hw). exists mid. split; [|done].
    pose proof (zlen_nonneg (ci_file (c_inode s))). by rewrite (proj2 (Z.eqb_neq (zlen _) (-1))) in E by lia. }
  split; [done|]. intros _. destruct Hr as [Hr|[Hr1 Hr2]]; [by left|right]. split; [done|]. by apply (Hsame (fun f => f = _)).
Qed.

Lemma writeStateless_ok e s buf off : env_ok appends e -> offset_ok off -> exists r s' mid,
  FhgfsOpsHelper_writeStatelessInode e buf (zlen buf) off s = Some (r, s') /\ only_file s s' /\
  ci_file (c_inode s') = write_at (ci_file (c_inode s)) (if off =? -1 then zlen (ci_file (c_inode s)) else off) mid /\
  zlen mid <= zlen buf /\ (zlen buf <= r -> mid = buf) /\ (r < zlen buf -> r <> 0 /\ (off = -1 -> mid = [])).
Proof.
  intros He Ho. unfold FhgfsOpsHelper_writeStatelessInode. pose proof (zlen_nonneg buf) as Hb.
  destruct (Z.eqb_spec (re_reference e) FhgfsOpsErr_SUCCESS) as [_|Er]; cbn [negb].
  2:{ pose proof (eo_reference _ _ He). unfold FhgfsOpsErr_SUCCESS in Er. exists (- re_reference e), s, [].
      rewrite zlen_nil. split_and?; try done; intros; try lia; (split; [lia|intros; first [done|lia]]). }
  rewrite to_nat_zlen, firstn_all.
  destruct (writefileEx_ok e s buf off He Ho) as (r & s' & -> & Hof & (mid & Ef & Hm & Hrb & Hpre) & Hp & Happ).
  cbn [mbind option_bind]. destruct (Z.ltb_spec r 0) as [Hneg|Hpos].
  { exists r, s', (if off =? -1 then [] else mid). split; [done|]. split; [done|].
    destruct (Z.eqb_spec off (-1)) as [->|Hne]; [|split_and?; try done; intros; try lia; (split; [lia|intros; first [done|lia]])].
    destruct (Happ eq_refl) as [[? _]|[_ ->]]; [lia|]. rewrite zlen_nil. split_and?; try done; intros; try lia; (split; [lia|intros; first [done|lia]]). }
  destruct Hpre as [Hr1 Hr2]; [done|].
  destruct (Z.eqb_spec (re_release e) FhgfsOpsErr_SUCCESS) as [_|Erel]; cbn [negb].
  - exists r, s', mid. split; [done|]. split; [done|]. split; [done|]. split; [done|]. split.
    + intros Hge. rewrite <- (firstn_all mid), <- (firstn_all buf). unfold zlen in *.
      replace (length mid) with (Z.to_nat r) by lia. by replace (length buf) with (Z.to_nat r) by lia.
    + intros Hlt. split; [apply Hp; intros ->; rewrite zlen_nil in *; lia|]. intros ->. destruct (Happ eq_refl) as [[? _]|[? _]]; lia.
  - pose proof (eo_release _ _ He). unfold FhgfsOpsErr_SUCCESS in Erel. exists (- re_release e), s', mid.
    split; [done|]. split; [done|]. split; [done|]. split; [done|]. split; [lia|]. intros _. split; [lia|].
    intros ->. destruct (Happ eq_refl) as [[_ ?]|[? _]]; lia.
Qed.

(** ** Flushing *)

Lemma flush_ok e discard s : env_ok appends e -> cache_ok s -> exists r s',
  __FhgfsOpsHelper_flushCacheUnlocked self e discard s = Some (r, s') /\ frame self s s' /\ cache_ok s' /\ 0 <= r /\
  (r = 0 -> empty s' /\ ci_file (c_inode s') = contents (c_inode s)) /\
  (r <> 0 -> if discard then empty s' /\ dropped (contents (c_inode s)) (ci_file (c_inode s'))
             else contents (c_inode s') = contents (c_inode s)).
Proof.
  intros He Hok. unfold __FhgfsOpsHelper_flushCacheUnlocked. pose proof Hok as (Hroom & Hsize & Hb).
  destruct (cb_bufType (c_cache s)) eqn:Et.
  - exists 0, s. by rewrite contents_empty.
  - destruct (discard_cache_ok s Hok) as (s' & -> & Hf & Hok' & Hem & Hfile). exists 0, s'. cbn. split_and!; try done.
    intros _. split; [done|]. rewrite Hfile. unfold contents, with_buffer. fold (c_cache s). by rewrite Et.
  - destruct (bo_some _ _ _ _ Hb) as [Hl _]; [by rewrite Et|]. rewrite <- Hl.
    assert (Ho : offset_ok (cb_fileOffset (c_cache s))) by (destruct (bo_write _ _ _ _ Hb Et); [by left|right; lia]).
    destruct (writeStateless_ok e s (cb_data (c_cache s)) (cb_fileOffset (c_cache s)) He Ho)
      as (r & s1 & mid & -> & Hof & Hfile & Hmid & Hfull & Hpart).
    assert (Hc : contents (c_inode s) = write_at (ci_file (c_inode s)) (if cb_fileOffset (c_cache s) =? -1 then
      zlen (ci_file (c_inode s)) else cb_fileOffset (c_cache s)) (cb_data (c_cache s))).
    { unfold contents, with_buffer. fold (c_cache s). by rewrite Et. }
    pose proof (only_file_frame s s1 Hof) as Hf1. assert (Hr1 : room s1) by (by eapply room_frame).
    cbn [mbind option_bind]. destruct (Z.ltb_spec r (zlen (cb_data (c_cache s)))) as [Hlt|Hge].
    + destruct (Hpart Hlt) as [Hr0 Happ]. set (ret := if 0 <? r then _ else _).
      assert (Hret : ret <> 0 /\ 0 <= ret) by (unfold ret, FhgfsOpsErr_NOSPACE; destruct (Z.ltb_spec 0 r); lia).
      destruct discard; cbn [mbind option_bind].
      * destruct (discard_ok s1 Hr1) as (s2 & -> & Hf2 & Hem & Hbuf & Hfile2). exists ret, s2. cbn.
        assert (Hf : frame self s s2) by (by etrans). split_and!; try done; [by eapply cache_ok_empty|apply Hret|by intros ?; destruct Hret|].
        intros _. split; [done|]. rewrite Hfile2, Hfile, Hc. by eexists _, _, _, _.
      * exists ret, s1. destruct Hof as (E1 & E2 & E3 & E4 & E5 & E6). split; [done|]. split; [done|].
        split; [|split; [apply Hret|]; split; [by intros ?; destruct Hret|intros _; rewrite Hc; unfold contents, with_buffer; fold (c_cache s1); rewrite E3, Et, Hfile]].
        -- split; [done|]. rewrite E1. split; [done|]. rewrite E3, E6. destruct Hb. split; try done. by rewrite Et.
        -- destruct (Z.eqb_spec (cb_fileOffset (c_cache s)) (-1)) as [Ea|_]; [by rewrite (Happ Ea)|by apply write_at_over].
    + rewrite (Hfull Hge) in Hfile. destruct (discard_ok s1 Hr1) as (s2 & -> & Hf2 & Hem & Hbuf & Hfile2). exists 0, s2. cbn.
      assert (Hf : frame self s s2) by (by etrans). split_and!; try done; [by eapply cache_ok_empty|].
      intros _. split; [done|]. by rewrite Hfile2, Hfile, Hc.
Qed.

(** ** A new buffer *)

Record taken (type : FileBufferType) (s s1 : CacheState) : Prop := {
  ta_bufs : nb_bufArray (c_store s1) ++ attached (c_cache s1) ≡ₚ nb_bufArray (c_store s) ++ attached (c_cache s);
  ta_num : nb_numBufs (c_store s1) = nb_numBufs (c_store s);
  ta_size : nb_bufSize (c_store s1) = nb_bufSize (c_store s);
  ta_refs : c_refs s1 = c_refs s;
  ta_inode : c_inode s1 = ci_set_cache (c_cache s1) (c_inode s);
  ta_type : cb_bufType (c_cache s1) = type
}.
Lemma take_buf_taken type s s1 : cb_buf (c_cache s) = None -> take_buf type s = Some s1 -> taken type s s1.
Proof.
  intros Hb. unfold take_buf, NoAllocBufferStore_instantBuf.
  destruct (nb_bufArray (c_store s) !! pred (length (nb_bufArray (c_store s)))) as [b|] eqn:E; [|done]. intros [= <-].
  split; try done. unfold c_cache, attached in *. cbn. rewrite Hb, app_nil_r.
  rewrite <- (take_drop (pred (length (nb_bufArray (c_store s)))) (nb_bufArray (c_store s))) at 3.
  f_equiv. rewrite (drop_S _ b) by done. rewrite drop_ge by (apply lookup_lt_Some in E; lia). done.
Qed.
Lemma taken_room type s s1 : taken type s s1 -> room s -> room s1.
Proof.
  intros Ht. unfold room. rewrite (ta_num _ _ _ Ht), <- !zlen_app. unfold zlen. by rewrite (ta_bufs _ _ _ Ht).
Qed.

Lemma taken_discard type s s1 : taken type s s1 -> cache_ok s -> exists s2, __FhgfsOpsHelper_discardCache self s1 = Some s2 /\
  frame self s s2 /\ cache_ok s2 /\ empty s2 /\ ci_file (c_inode s2) = ci_file (c_inode s).
Proof.
  intros Ht Hok. destruct (discard_ok s1) as (s2 & E & Hf & Hem & Hb & Hfile); [by eapply taken_room; [|apply Hok]|].
  assert (Hf' : frame self s s2).
  { destruct Hf, Ht. rewrite ta_inode0, ta_refs0 in *. cbn in *. split; try congruence.
    - by rewrite fr_bufs0.
    - done.
    - unfold attached. by rewrite Hb. }
  exists s2. split_and!; try done; [by eapply cache_ok_empty|]. by rewrite Hfile, (ta_inode _ _ _ Ht).
Qed.

Lemma taken_fill type s s1 data maxLen off : taken type s s1 -> let s2 := fill_cache self data (zlen data) maxLen off s1 in
  frame self s s2 /\ ci_file (c_inode s2) = ci_file (c_inode s) /\ cb_bufType (c_cache s2) = type /\
  cb_data (c_cache s2) = data /\ cb_bufUsageLen (c_cache s2) = zlen data /\ cb_bufUsageMaxLen (c_cache s2) = maxLen /\
  cb_fileOffset (c_cache s2) = off.
Proof.
  intros Ht s2. subst s2. destruct Ht. unfold fill_cache, InodeRefStore_addAndReferenceInode. rewrite ta_refs0.
  assert (Hadd : forall refs count, refs = {[self]} ∪ c_refs s -> count = ci_count (c_inode s) + 1 - b2z (bool_decide (self ∈ c_refs s)) ->
    frame self s (MkCacheState (ci_set_refs count (ci_users (c_inode s1)) (ci_set_cache (MkCacheBuffer (cb_buf (c_cache s1)) data
      (zlen data) maxLen off (cb_bufType (c_cache s1))) (c_inode s1))) (c_store s1) refs)).
  { intros refs count -> ->. rewrite ta_inode0. split; try done; cbn.
    - intros j Hj. set_solver.
    - rewrite (bool_decide_eq_true_2 (self ∈ {[self]} ∪ c_refs s)) by set_solver. cbn. lia.
    - intros held _ _. left. set_solver. }
  case_bool_decide as E.
  - split; [|by rewrite ta_inode0]. apply Hadd; [set_solver|]. rewrite ta_inode0. cbn. lia.
  - split; [|by rewrite ta_inode0]. apply Hadd; [set_solver|]. rewrite ta_inode0. cbn. lia.
Qed.

(** ** Writing *)

Lemma write_through_ok e iter off s : env_ok appends e -> cache_ok s -> empty s -> offset_ok off ->
  exists r s', FhgfsOpsHelper_writefileEx e iter (zlen iter) off s = Some (r, s') /\
    frame self s s' /\ cache_ok s' /\ written (contents (c_inode s)) off iter r (contents (c_inode s')).
Proof.
  intros He Hok Hem Hoff. destruct (writefileEx_ok e s iter off He Hoff) as (r & s' & E & Hof & Hw & _). exists r, s'.
  pose proof (only_file_frame s s' Hof) as Hf. destruct Hof as (_ & _ & Ec & _).
  assert (Hem' : empty s') by (unfold empty; by rewrite Ec).
  rewrite !contents_empty by done. split_and!; try done. eapply cache_ok_empty; [done|done|done|]. rewrite Ec.
  by apply (bo_none _ _ _ _ (proj2 (proj2 Hok))).
Qed.

Lemma writeCacheFlushed_ok e pattern info iter off s : env_ok appends e -> cache_ok s -> empty s -> offset_ok off ->
  off + zlen iter + nb_bufSize (c_store s) < 2 ^ 63 -> (coherent = true -> ci_mapped (c_inode s) = false) ->
  exists r s', __FhgfsOpsHelper_writeCacheFlushed pattern self e info iter (zlen iter) off s = Some (r, s') /\
    frame self s s' /\ cache_ok s' /\ written (contents (c_inode s)) off iter r (contents (c_inode s')).
Proof.
  intros He Hok Hem Hoff Hmax Hmap. pose proof Hok as (Hroom & Hsize & Hb). pose proof (zlen_nonneg iter) as Hlen.
  assert (Hbuf : cb_buf (c_cache s) = None) by (by apply (bo_none _ _ _ _ Hb)).
  pose proof (write_through_ok e iter off s He Hok Hem Hoff) as Hthrough.
  unfold __FhgfsOpsHelper_writeCacheFlushed. destruct (negb _ || _); [done|].
  set (maxLen := if off =? -1 then _ else _).
  assert (HmaxLen : maxLen <= nb_bufSize (c_store s)) by (unfold maxLen; destruct (off =? -1); lia).
  destruct (Z.leb_spec maxLen (zlen iter)) as [|Hlt]; [done|].
  destruct (take_buf FileBufferType_WRITE s) as [s1|] eqn:Et; [|done].
  pose proof (take_buf_taken _ _ _ Hbuf Et) as Ht.
  destruct (Z.ltb_spec (nb_bufSize (c_store s)) (zlen iter)) as [|_]; [lia|].
  destruct (re_copy e (zlen iter) =? zlen iter); cbn [negb].
  - rewrite to_nat_zlen, firstn_all. destruct (taken_fill _ s s1 iter maxLen off Ht) as (Hf & Hfile & Hty & Hd & Hu & Hm & Ho).
    set (s2 := fill_cache _ _ _ _ _ _) in *. exists (zlen iter), s2. split; [done|]. split; [done|]. split.
    + split; [by eapply room_frame|]. rewrite (fr_size _ _ _ Hf). split; [done|]. split; rewrite ?Hty, ?Hd, ?Hu, ?Hm, ?Ho; try done.
      * intros _. split; [done|lia].
      * intros _. destruct Hoff as [?|?]; [by left|right; lia].
      * intros Hc. by rewrite (fr_mapped _ _ _ Hf), Hmap.
    + exists iter. rewrite (contents_empty s) by done. unfold contents, with_buffer. fold (c_cache s2).
      rewrite Hty, Hfile, Hd, Ho. split; [done|]. split; [lia|]. split; [lia|done].
  - destruct (taken_discard _ s s1 Ht Hok) as (s2 & -> & Hf & Hok2 & Hem2 & Hfile). cbn. exists (- FhgfsOpsErr_ADDRESSFAULT), s2.
    rewrite !contents_empty by done. rewrite Hfile. split_and!; try done. by apply written_none.
Qed.

(** Data behind the data of the buffer. *)
Definition extended (iter : list byte) (s : CacheState) : CacheState :=
  let b := c_cache s in
  upd_inode (ci_set_cache (MkCacheBuffer (cb_buf b) (cb_data b ++ iter) (cb_bufUsageLen b + zlen iter) (cb_bufUsageMaxLen b)
    (cb_fileOffset b) (cb_bufType b))) s.
Lemma extended_ok iter s : cache_ok s -> cb_bufType (c_cache s) = FileBufferType_WRITE ->
  cb_bufUsageLen (c_cache s) + zlen iter <= cb_bufUsageMaxLen (c_cache s) -> cache_ok (extended iter s) /\ frame self s (extended iter s).
Proof.
  intros (Hr & Hs & Hb) Et Hl. pose proof (bo_some _ _ _ _ Hb) as Hsome. rewrite Et in Hsome. destruct Hsome as [H1 H2]; [done|].
  split; [|by split]. split; [done|]. split; [done|]. destruct Hb. unfold extended, c_cache in *. split; cbn; rewrite ?Et in *; try done.
  intros _. rewrite zlen_app. lia.
Qed.
Lemma extended_written iter off s : cache_ok s -> cb_bufType (c_cache s) = FileBufferType_WRITE ->
  (cb_fileOffset (c_cache s) = -1 /\ off = -1 \/
   0 <= cb_fileOffset (c_cache s) /\ off = cb_fileOffset (c_cache s) + cb_bufUsageLen (c_cache s)) ->
  contents (c_inode (extended iter s)) =
    write_at (contents (c_inode s)) (if off =? -1 then zlen (contents (c_inode s)) else off) iter.
Proof.
  intros (Hr & Hs & Hb) Et Hoff. destruct (bo_some _ _ _ _ Hb) as [H1 _]; [by rewrite Et|].
  unfold contents, with_buffer, extended, c_cache in *. cbn. rewrite Et.
  destruct Hoff as [[-> ->]|[Hpos ->]]; cbn [Z.eqb].
  - rewrite !write_at_end, app_assoc. done.
  - rewrite <- H1. pose proof (zlen_nonneg (cb_data (ci_cache (c_inode s)))).
    rewrite !(proj2 (Z.eqb_neq _ (-1))) by lia. by rewrite write_at_append.
Qed.

Lemma writeCached_ok e pattern info iter off s : env_ok appends e -> cache_ok s -> offset_ok off ->
  off + zlen iter + nb_bufSize (c_store s) < 2 ^ 63 -> exists o,
  FhgfsOpsHelper_writeCached coherent pattern self e info iter (zlen iter) off s = Some o /\
  frame self s (co_state o) /\ cache_ok (co_state o) /\
  written (contents (c_inode s)) off iter (co_ret o) (contents (c_inode (co_state o))).
Proof.
  intros He Hok Hoff Hmax. pose proof Hok as (Hroom & Hsize & Hb). unfold FhgfsOpsHelper_writeCached.
  assert (Hout : forall info s1 r, frame self s s1 -> contents (c_inode s1) = contents (c_inode s) ->
    (exists v s2, r = Some (v, s2) /\ frame self s1 s2 /\ cache_ok s2 /\ written (contents (c_inode s1)) off iter v (contents (c_inode s2))) ->
    exists o, out_of info r = Some o /\ frame self s (co_state o) /\ cache_ok (co_state o) /\
      written (contents (c_inode s)) off iter (co_ret o) (contents (c_inode (co_state o)))).
  { intros info' s1 r Hf Hc (v & s2 & -> & Hf2 & Hok2 & Hw). eexists. split; [done|]. cbn. rewrite <- Hc. split_and!; try done. by etrans. }
  destruct (coherent && ci_mapped (c_inode s)) eqn:Em.
  { apply andb_true_iff in Em as [E1 E2]. apply (Hout _ s); [done|done|]. apply write_through_ok; try done.
    by apply (bo_mapped _ _ _ _ Hb). }
  assert (Hmap : coherent = true -> ci_mapped (c_inode s) = false) by (by intros ->).
  assert (Hflushed : forall info s1, frame self s s1 -> cache_ok s1 -> empty s1 -> ci_file (c_inode s1) = contents (c_inode s) ->
    exists o, out_of info (__FhgfsOpsHelper_writeCacheFlushed pattern self e info iter (zlen iter) off s1) = Some o /\
      frame self s (co_state o) /\ cache_ok (co_state o) /\
      written (contents (c_inode s)) off iter (co_ret o) (contents (c_inode (co_state o)))).
  { intros info' s1 Hf Hok1 Hem Hfile. apply (Hout _ s1); [done|by rewrite contents_empty|].
    apply writeCacheFlushed_ok; try done; [by rewrite (fr_size _ _ _ Hf)|]. by rewrite (fr_mapped _ _ _ Hf). }
  destruct (cb_bufType (c_cache s)) eqn:Et.
  - apply Hflushed; [done|done|done|]. by rewrite contents_empty.
  - destruct (discard_cache_ok s Hok) as (s1 & -> & Hf & Hok1 & Hem & Hfile). cbn [mbind option_bind].
    apply Hflushed; try done. rewrite Hfile. unfold contents, with_buffer. fold (c_cache s). by rewrite Et.
  - destruct (bo_some _ _ _ _ Hb) as [Hl Hu]; [by rewrite Et|]. pose proof (bo_write _ _ _ _ Hb Et) as Hw.
    pose proof (zlen_nonneg (cb_data (c_cache s))) as H0. pose proof (zlen_nonneg iter) as H1.
    unfold FSFILEINFO_CACHE_SLOWSTART_READLEN in Hsize.
    rewrite s64_id by (destruct Hw as [[-> _]|]; lia). rewrite u64_small by lia.
    destruct (xorb _ _ || _ || _) eqn:Ec.
    + destruct (flush_ok e false s He Hok) as (r & s1 & -> & Hf & Hok1 & Hr & Hr0 & Hr1). cbn [mbind option_bind].
      unfold FhgfsOpsErr_SUCCESS. destruct (Z.eqb_spec r 0) as [->|Hne]; cbn [negb].
      * destruct (Hr0 eq_refl) as [Hem Hfile]. by apply Hflushed.
      * eexists. split; [done|]. cbn. rewrite (Hr1 Hne). split_and!; try done. apply written_none. lia.
    + apply orb_false_iff in Ec as [Ec Hfit]. apply orb_false_iff in Ec as [Ex Eo]. apply Z.ltb_ge in Hfit.
      destruct (Z.ltb_spec (nb_bufSize (c_store s)) (cb_bufUsageLen (c_cache s) + zlen iter)) as [|_]; [lia|].
      destruct (re_copy e (zlen iter) =? zlen iter); cbn [negb].
      2:{ eexists. split; [done|]. cbn. split_and!; try done. by apply written_none. }
      rewrite to_nat_zlen, firstn_all, <- Hl, to_nat_zlen, firstn_all, Hl.
      set (s1 := upd_inode _ s). assert (Es : s1 = extended iter s) by (unfold extended; by rewrite Et). rewrite Es. clear s1 Es.
      destruct (extended_ok iter s Hok Et) as [Hok1 Hf1]; [lia|].
      assert (Hc : contents (c_inode (extended iter s)) = write_at (contents (c_inode s))
        (if off =? -1 then zlen (contents (c_inode s)) else off) iter).
      { apply extended_written; [done|done|]. destruct (Z.eqb_spec off (-1)) as [->|Hoff1].
        - left. split; [|done]. by destruct (Z.eqb_spec (cb_fileOffset (c_cache s)) (-1)).
        - right. cbn [negb andb] in Eo. apply negb_false_iff, Z.eqb_eq in Eo. split; [|done].
          destruct (Z.eqb_spec (cb_fileOffset (c_cache s)) (-1)); [done|]. destruct Hw; lia. }
      assert (Hwr : written (contents (c_inode s)) off iter (zlen iter) (contents (c_inode (extended iter s)))).
      { exists iter. split; [done|]. split; [lia|]. split; [lia|done]. }
      destruct (u64 _ =? 0).
      2:{ eexists. split; [done|]. by cbn. }
      destruct (flush_ok e false (extended iter s) He Hok1) as (r & s1 & -> & Hf & Hok2 & Hr & Hr0 & Hr1). cbn [mbind option_bind].
      assert (Hf2 : frame self s s1) by (by etrans).
      unfold FhgfsOpsErr_SUCCESS. destruct (Z.eqb_spec r 0) as [->|Hne]; cbn [negb].
      * destruct (Hr0 eq_refl) as [Hem Hfile]. eexists. split; [done|]. cbn. by rewrite (contents_empty s1 Hem), Hfile.
      * eexists. split; [done|]. cbn. rewrite (Hr1 Hne). split_and!; try done.
        exists iter. split; [done|]. split; [lia|]. split; lia.
Qed.

(** ** Reading *)

Lemma remote_read_got e s off size : env_ok appends e -> 0 <= off -> 0 <= size ->
  got e (ci_file (c_inode s)) off size (remote_read e s off size).1 (remote_read e s off size).2.
Proof.
  intros He Ho Hs. destruct (eo_read _ _ He (ci_file (c_inode s)) off size Ho Hs) as (_ & Hr & Hb). unfold remote_read.
  split; [done|]. intros Hpos. destruct (Hb Hpos) as [E1 E2]. split; [done|]. split; [done|]. intros Hc Hlt. apply Hc. lia.
Qed.

Lemma read_at_take f off n m : 0 <= m <= n -> take (Z.to_nat m) (read_at f off n) = read_at f off m.
Proof. intros Hm. unfold read_at. rewrite take_take. f_equal. lia. Qed.

Lemma got_error e f off size r bytes : r < 0 -> 0 <= size -> got e f off size r bytes.
Proof. intros. split; lia. Qed.

Lemma readCacheFlushed_ok e pattern mr info size off s : env_ok appends e -> cache_ok s -> empty s -> 0 <= size -> 0 <= off ->
  off + size + nb_bufSize (c_store s) < 2 ^ 63 -> (coherent = true -> ci_mapped (c_inode s) = false) ->
  exists r bytes s', __FhgfsOpsHelper_readCacheFlushed pattern self e mr info size off s = Some (r, bytes, s') /\
    frame self s s' /\ cache_ok s' /\ contents (c_inode s') = contents (c_inode s) /\ got e (contents (c_inode s)) off size r bytes.
Proof.
  intros He Hok Hem Hs Ho Hmax Hmap. pose proof Hok as (Hroom & Hsize & Hb).
  assert (Hbuf : cb_buf (c_cache s) = None) by (by apply (bo_none _ _ _ _ Hb)). rewrite (contents_empty s Hem).
  assert (Hdirect : exists r bytes s', Some (remote_read e s off size, s) = Some (r, bytes, s') /\ frame self s s' /\ cache_ok s' /\
    contents (c_inode s') = ci_file (c_inode s) /\ got e (ci_file (c_inode s)) off size r bytes).
  { pose proof (remote_read_got e s off size He Ho Hs) as Hg. destruct (remote_read e s off size) as [r bytes].
    exists r, bytes, s. by rewrite (contents_empty s Hem). }
  unfold __FhgfsOpsHelper_readCacheFlushed. destruct (negb _ || _ || _); [done|].
  set (maxLen0 := Z.min _ _). destruct (Z.leb_spec maxLen0 size) as [|Hlt]; [done|].
  destruct (take_buf FileBufferType_READ s) as [s1|] eqn:Et; [|done]. pose proof (take_buf_taken _ _ _ Hbuf Et) as Ht.
  set (maxLen := if _ && _ then _ else _).
  assert (HmaxLen : size < maxLen <= nb_bufSize (c_store s)).
  { unfold maxLen. destruct (Z.eqb_spec off 0); cbn [andb]; [|lia].
    destruct (Z.ltb_spec size FSFILEINFO_CACHE_SLOWSTART_READLEN); lia. }
  unfold remote_read. rewrite (ta_inode _ _ _ Ht). cbn [ci_file ci_set_cache].
  destruct (eo_read _ _ He (ci_file (c_inode s)) off maxLen Ho ltac:(lia)) as (Hd & Hr & Hbytes).
  assert (Hcompl : reads_complete e -> 0 <= (re_read e (ci_file (c_inode s)) off maxLen).1 < maxLen ->
    zlen (ci_file (c_inode s)) <= off + (re_read e (ci_file (c_inode s)) off maxLen).1) by (intros Hc; apply Hc).
  destruct (re_read e _ off maxLen) as [r data]. cbn [fst snd] in *.
  destruct (Z.ltb_spec (nb_bufSize (c_store s)) (zlen data)) as [|_]; [lia|].
  destruct (taken_discard _ s s1 Ht Hok) as (s2 & E2 & Hf2 & Hok2 & Hem2 & Hfile2).
  destruct (Z.leb_spec r 0) as [Hr0|Hr0].
  { rewrite E2. cbn. exists r, [], s2. rewrite (contents_empty s2 Hem2), Hfile2. split_and!; try done. split; [lia|].
    intros Hpos. assert (r = 0) as -> by lia. split; [done|]. split; [done|]. intros Hc Hlt2. apply Hcompl; [done|lia]. }
  destruct (re_copy e _ =? _); cbn [negb].
  2:{ rewrite E2. cbn. exists (- FhgfsOpsErr_ADDRESSFAULT), [], s2. rewrite (contents_empty s2 Hem2), Hfile2. split_and!; try done.
      by apply got_error. }
  destruct Hbytes as [Hdata Hzd]; [lia|]. rewrite <- Hzd in *.
  destruct (taken_fill _ s s1 data maxLen off Ht) as (Hf & Hfile & Hty & Hcd & Hu & Hm & Hoo).
  set (s3 := fill_cache _ _ _ _ _ _) in *. exists (Z.min size (zlen data)), (take (Z.to_nat (Z.min size (zlen data))) data), s3.
  split; [done|]. split; [done|]. split; [|split].
  - split; [by eapply room_frame|]. rewrite (fr_size _ _ _ Hf). split; [done|]. split; rewrite ?Hty, ?Hcd, ?Hu, ?Hm, ?Hoo; try done.
    + intros _. split; [done|lia].
    + intros _. rewrite Hfile. split; [lia|]. split; [lia|done].
    + intros Hc. by rewrite (fr_mapped _ _ _ Hf), Hmap.
  - unfold contents, with_buffer. fold (c_cache s3). by rewrite Hty, Hfile.
  - split; [lia|]. intros _. pose proof (zlen_nonneg data). split; [|split].
    + rewrite <- (read_at_take (ci_file (c_inode s)) off (zlen data)) by lia. by rewrite <- Hdata.
    + unfold zlen. rewrite length_take. unfold zlen in *. lia.
    + intros Hc Hlt2. replace (Z.min size (zlen data)) with (zlen data) by lia. apply Hcompl; [done|lia].
Qed.

(** The bytes [l] are the [n] bytes of the file from an offset on. *)
Definition bytes_at (f : list byte) (off n : Z) (l : list byte) : Prop := l = read_at f off n /\ zlen l = n.
Lemma bytes_at_app f off n m a b : 0 <= off -> bytes_at f off n a -> bytes_at f (off + n) m b -> bytes_at f off (n + m) (a ++ b).
Proof.
  intros Ho [Ea Na] [Eb Nb]. pose proof (zlen_nonneg a). pose proof (zlen_nonneg b). split; [|rewrite zlen_app; lia].
  rewrite Ea, Eb. apply read_at_app; try lia. by rewrite <- Ea.
Qed.
Lemma bytes_at_nil f off : bytes_at f off 0 [].
Proof. done. Qed.

(** The part of a read range before the buffer. *)
Lemma read_before_ok e s off size fo : env_ok appends e -> 0 <= off -> 0 <= size -> fo <= off + size ->
  let before := if off <? fo then remote_read e s off (fo - off) else (0, []) in
  let n := if off <? fo then fo - off else 0 in
  ((off <? fo) && (before.1 <? n) = true -> got e (ci_file (c_inode s)) off size before.1 before.2) /\
  ((off <? fo) && (before.1 <? n) = false -> bytes_at (ci_file (c_inode s)) off n before.2).
Proof.
  intros He Ho Hs Hfo. destruct (Z.ltb_spec off fo) as [Hlt|]; cbn [andb]; [|done].
  destruct (remote_read_got e s off (fo - off) He Ho ltac:(lia)) as [Hr Hg]. split; intros E.
  - apply Z.ltb_lt in E. split; [lia|]. intros Hpos. destruct (Hg Hpos) as (? & ? & Hc). split; [done|]. split; [done|].
    intros Hrc _. apply Hc; [done|lia].
  - apply Z.ltb_ge in E. replace (fo - off) with (remote_read e s off (fo - off)).1 at 1 by lia. destruct Hg as (? & ? & _); [lia|done].
Qed.

Lemma read_overlap_ok e pattern mr info size off s : env_ok appends e -> cache_ok s -> 0 <= size -> 0 <= off ->
  off + size + nb_bufSize (c_store s) < 2 ^ 63 -> (coherent = true -> ci_mapped (c_inode s) = false) ->
  cb_bufType (c_cache s) = FileBufferType_READ -> off < cb_fileOffset (c_cache s) + cb_bufUsageLen (c_cache s) ->
  cb_fileOffset (c_cache s) < off + size ->
  exists o, read_overlap pattern self e mr info size off s = Some o /\ frame self s (co_state o) /\ cache_ok (co_state o) /\
    contents (c_inode (co_state o)) = contents (c_inode s) /\ got e (contents (c_inode s)) off size (co_ret o) (co_bytes o).
Proof.
  intros He Hok Hs Ho Hmax Hmap Et H1 H2. pose proof Hok as (Hroom & Hsize & Hb). unfold read_overlap.
  destruct (bo_some _ _ _ _ Hb) as [Hl Hu]; [by rewrite Et|]. destruct (bo_read _ _ _ _ Hb Et) as (Hfo & Hu0 & Hdata).
  set (fo := cb_fileOffset (c_cache s)) in *. set (u := cb_bufUsageLen (c_cache s)) in *.
  assert (Hc : contents (c_inode s) = ci_file (c_inode s)) by (unfold contents, with_buffer; fold (c_cache s); by rewrite Et).
  rewrite !Hc. rewrite !s64_id by lia.
  destruct (read_before_ok e s off size fo He Ho Hs ltac:(lia)) as [Hb1 Hb2].
  set (n1 := if off <? fo then fo - off else 0) in *. set (before := if off <? fo then _ else (0, [])) in *.
  assert (Hn1 : 0 <= n1 /\ off + n1 = Z.max off fo) by (unfold n1; destruct (Z.ltb_spec off fo); lia).
  destruct (discard_cache_ok s Hok) as (s1 & E1 & Hf1 & Hok1 & Hem1 & Hfile1).
  replace (if off <? fo then remote_read e s off n1 else (0, [])) with before
    by (unfold before, n1; by destruct (off <? fo)).
  destruct before as [r1 before']. cbn [fst snd] in *.
  destruct ((off <? fo) && (r1 <? n1)).
  { rewrite E1. eexists. split; [done|]. cbn. rewrite (contents_empty s1 Hem1), Hfile1. by auto. }
  specialize (Hb2 eq_refl). clear Hb1.
  set (co := if off <=? fo then 0 else off - fo).
  assert (Hco : co = off + n1 - fo /\ 0 <= co) by (unfold co; destruct (Z.leb_spec off fo); lia).
  set (n2 := u64 (Z.min (u64 (fo + u)) (u64 (off + size)) - (fo + co))).
  assert (Hn2 : n2 = Z.min (fo + u) (off + size) - (off + n1) /\ 0 <= n2).
  { unfold n2. rewrite !(u64_small (fo + u)), !(u64_small (off + size)) by lia. rewrite u64_small by lia. lia. }
  clearbody n1 co n2. destruct Hn1 as [Hn1 En1], Hco as [-> Hco0], Hn2 as [En2 Hn2].
  destruct (re_copy e n2 =? n2); cbn [negb].
  2:{ eexists. split; [done|]. cbn. rewrite Hc. split_and!; try done. by apply got_error. }
  assert (Hload : load (cb_data (c_cache s)) (off + n1 - fo) n2 =
    Some (take (Z.to_nat n2) (drop (Z.to_nat (off + n1 - fo)) (cb_data (c_cache s))))) by (apply load_in; lia).
  pose proof (load_length _ _ _ _ Hload) as Hcl. rewrite Hload. cbn [mbind option_bind].
  rewrite Hdata, read_at_sub in Hcl by lia. rewrite Hdata, read_at_sub by lia.
  replace (fo + (off + n1 - fo)) with (off + n1) in * by lia.
  assert (Hcp : bytes_at (ci_file (c_inode s)) off (n1 + n2) (before' ++ read_at (ci_file (c_inode s)) (off + n1) n2))
    by (by apply bytes_at_app).
  destruct (Z.ltb_spec (fo + u - 1) (off + size - 1)) as [Hlt|Hge].
  - rewrite E1. cbn [mbind option_bind].
    destruct (readCacheFlushed_ok e pattern mr info (off + size - 1 - (fo + u - 1)) (fo + u - 1 + 1) s1 He Hok1 Hem1)
      as (r & bytes & s2 & -> & Hf2 & Hok2 & Hc2 & Hg); try lia; [rewrite (fr_size _ _ _ Hf1); lia|by rewrite (fr_mapped _ _ _ Hf1)|].
    rewrite (contents_empty s1 Hem1), Hfile1 in *. eexists. split; [done|]. cbn. split; [by etrans|]. split; [done|]. split; [done|].
    destruct (Z.ltb_spec r 0) as [|Hr]; [by apply got_error|]. destruct Hg as [Hg1 Hg2]. destruct (Hg2 Hr) as (Hg3 & Hg4 & Hg5).
    split; [lia|]. intros _. destruct (bytes_at_app (ci_file (c_inode s)) off (n1 + n2) r _ bytes Ho Hcp) as [Ea Eb].
    { split; [rewrite Hg3; f_equal; lia|done]. }
    split; [done|]. split; [done|]. intros Hrc Hlt2. specialize (Hg5 Hrc). lia.
  - eexists. split; [done|]. cbn. split_and!; try done. split; [lia|]. intros _. replace size with (n1 + n2) by lia.
    destruct Hcp as [Ea Eb]. split; [done|]. split; [done|lia].
Qed.

Lemma readCached_ok e pattern mr info size off s : env_ok appends e -> cache_ok s -> 0 <= size -> 0 <= off ->
  off + size + nb_bufSize (c_store s) < 2 ^ 63 ->
  exists o, FhgfsOpsHelper_readCached coherent pattern self e mr info size off s = Some o /\
    frame self s (co_state o) /\ cache_ok (co_state o) /\
    contents (c_inode (co_state o)) = contents (c_inode s) /\ got e (contents (c_inode s)) off size (co_ret o) (co_bytes o).
Proof.
  intros He Hok Hs Ho Hmax. pose proof Hok as (Hroom & Hsize & Hb). unfold FhgfsOpsHelper_readCached.
  assert (Hdirect : forall info, empty s -> exists o,
    (let '(ret, bytes) := remote_read e s off size in Some (MkCachedOut ret bytes info s)) = Some o /\
    frame self s (co_state o) /\ cache_ok (co_state o) /\ contents (c_inode (co_state o)) = contents (c_inode s) /\
    got e (contents (c_inode s)) off size (co_ret o) (co_bytes o)).
  { intros info' Hem. pose proof (remote_read_got e s off size He Ho Hs) as Hg. destruct (remote_read e s off size) as [r bytes].
    eexists. split; [done|]. cbn. by rewrite (contents_empty s Hem). }
  destruct (coherent && ci_mapped (c_inode s)) eqn:Em.
  { apply andb_true_iff in Em as [E1 E2]. apply Hdirect. by apply (bo_mapped _ _ _ _ Hb). }
  assert (Hmap : coherent = true -> ci_mapped (c_inode s) = false) by (by intros ->).
  assert (Hflushed : forall info s1, frame self s s1 -> cache_ok s1 -> empty s1 -> ci_file (c_inode s1) = contents (c_inode s) ->
    exists o, read_out info [] 0 (__FhgfsOpsHelper_readCacheFlushed pattern self e mr info size off s1) = Some o /\
      frame self s (co_state o) /\ cache_ok (co_state o) /\ contents (c_inode (co_state o)) = contents (c_inode s) /\
      got e (contents (c_inode s)) off size (co_ret o) (co_bytes o)).
  { intros info' s1 Hf Hok1 Hem Hfile.
    destruct (readCacheFlushed_ok e pattern mr info' size off s1 He Hok1 Hem Hs Ho) as (r & bytes & s2 & -> & Hf2 & Hok2 & Hc2 & Hg);
      [by rewrite (fr_size _ _ _ Hf)|by rewrite (fr_mapped _ _ _ Hf)|].
    rewrite (contents_empty s1 Hem), Hfile in *. eexists. split; [done|]. cbn. replace (if r <? 0 then r else 0 + r) with r by (by destruct (r <? 0)).
    split; [by etrans|]. split; [done|]. by split. }
  assert (Hfl : forall info, exists o, ('(flushRes, s) ← __FhgfsOpsHelper_flushCacheUnlocked self e false s;
      if negb (flushRes =? FhgfsOpsErr_SUCCESS) then Some (MkCachedOut (- flushRes) [] info s)
      else read_out info [] 0 (__FhgfsOpsHelper_readCacheFlushed pattern self e mr info size off s)) = Some o /\
    frame self s (co_state o) /\ cache_ok (co_state o) /\ contents (c_inode (co_state o)) = contents (c_inode s) /\
    got e (contents (c_inode s)) off size (co_ret o) (co_bytes o)).
  { intros info'. destruct (flush_ok e false s He Hok) as (r & s1 & -> & Hf & Hok1 & Hr & Hr0 & Hr1). cbn [mbind option_bind].
    unfold FhgfsOpsErr_SUCCESS. destruct (Z.eqb_spec r 0) as [->|Hne]; cbn [negb].
    - destruct (Hr0 eq_refl) as [Hem Hfile]. by apply Hflushed.
    - eexists. split; [done|]. cbn. rewrite (Hr1 Hne). split_and!; try done. apply got_error; lia. }
  destruct (_ && bool_decide _) eqn:Ef.
  { apply andb_true_iff in Ef as [_ Ef]. apply bool_decide_eq_true in Ef. by apply Hdirect. }
  destruct (cb_bufType (c_cache s)) eqn:Et; [|clear Ef|apply Hfl].
  - apply Hflushed; [done|done|done|]. by rewrite contents_empty.
  - destruct (bo_some _ _ _ _ Hb) as [Hl Hu]; [by rewrite Et|]. destruct (bo_read _ _ _ _ Hb Et) as (Hfo & Hu0 & _).
    rewrite !s64_id by lia. destruct (_ || _) eqn:Eo; [apply Hfl|]. apply orb_false_iff in Eo as [E1 E2].
    apply Z.ltb_ge in E1, E2. apply read_overlap_ok; try done; lia.
Qed.
End OneInode.

(** ** All inodes *)

Section Inodes.
Context (appends coherent : bool) (numBufs : nat) (bufSize : Z).
Context (Hbufsize : FSFILEINFO_CACHE_SLOWSTART_READLEN <= bufSize < 2 ^ 62).

(** The flusher has a reference to the inode; the flusher will look at the inode's buffer. *)
Definition holds (pc : FlusherPc) (i : nat) : bool :=
  match pc with Fl_flush j | Fl_final j | Fl_put j | Fl_readd j => (j =? i)%nat | Fl_idle | Fl_next _ => false end.
Definition guards (pc : FlusherPc) (i : nat) : bool :=
  match pc with Fl_flush j | Fl_final j | Fl_readd j => (j =? i)%nat | Fl_idle | Fl_put _ | Fl_next _ => false end.
Definition buffers (m : gmap nat CachedInode) : list nat := map_to_list m ≫= (fun p => attached (ci_cache p.2)).

Record world_ok (w : CacheWorld) : Prop := {
  wk_bufs : nb_bufArray (w_store w) ++ buffers (w_inodes w) ≡ₚ seq 0 numBufs;
  wk_num : nb_numBufs (w_store w) = Z.of_nat numBufs;
  wk_size : nb_bufSize (w_store w) = bufSize;
  wk_cache : forall i x, w_inodes w !! i = Some x ->
    buffer_ok appends coherent bufSize (ci_file x) (ci_mapped x) (ci_cache x);
  wk_count : forall i x, w_inodes w !! i = Some x ->
    ci_count x = ci_users x + b2z (bool_decide (i ∈ w_refs w)) + b2z (holds (w_flusher w) i) /\ 0 <= ci_users x /\ 0 < ci_count x;
  wk_tracked : forall i x, w_inodes w !! i = Some x -> attached (ci_cache x) <> [] ->
    i ∈ w_refs w \/ guards (w_flusher w) i = true;
  wk_refs : forall i, i ∈ w_refs w \/ holds (w_flusher w) i = true -> is_Some (w_inodes w !! i)
}.

Lemma buffers_delete m i x : m !! i = Some x -> buffers m ≡ₚ attached (ci_cache x) ++ buffers (delete i m).
Proof. intros E. unfold buffers. by rewrite <- (map_to_list_delete m i x E). Qed.
Lemma buffers_insert m i x : buffers (<[i := x]> m) ≡ₚ attached (ci_cache x) ++ buffers (delete i m).
Proof. rewrite (buffers_delete _ i x) by apply lookup_insert_eq. by rewrite delete_insert_eq. Qed.

(** The state that an operation on an inode gets. *)
Definition state_of (w : CacheWorld) (x : CachedInode) : CacheState := MkCacheState x (w_store w) (w_refs w).
Lemma state_of_ok w i x : world_ok w -> w_inodes w !! i = Some x -> cache_ok appends coherent (state_of w x).
Proof.
  intros Hw E. split; [|split; [by cbn; rewrite (wk_size _ Hw)|cbn; rewrite (wk_size _ Hw); by eapply wk_cache]].
  unfold room. cbn. rewrite (wk_num _ Hw). pose proof (wk_bufs _ Hw) as Hp. rewrite (buffers_delete _ _ _ E) in Hp.
  apply Permutation_length in Hp. rewrite !length_app, length_seq in Hp. unfold c_cache, state_of, zlen in *. cbn in *. lia.
Qed.

(** What an operation on an inode does, apart from mapping the file. *)
Definition framed (self : nat) (s s' : CacheState) : Prop := exists s1 b, frame self s s1 /\ s' = upd_inode (ci_set_mapped b) s1.
Lemma frame_framed self s s' : frame self s s' -> framed self s s'.
Proof. intros Hf. exists s', (ci_mapped (c_inode s')). split; [done|]. by destruct s' as [[]]. Qed.

Definition view (w : CacheWorld) : gmap nat (list byte) := contents <$> w_inodes w.

Lemma with_inode_ok {A} (f : CacheState -> option (A * CacheState)) i x w a s' :
  world_ok w -> w_inodes w !! i = Some x -> 0 < ci_users x \/ holds (w_flusher w) i = true ->
  f (state_of w x) = Some (a, s') -> framed i (state_of w x) s' -> cache_ok appends coherent s' -> exists w',
    with_inode f i w = Some (a, w') /\ world_ok w' /\ w_inodes w' = <[i := c_inode s']> (w_inodes w) /\
    w_flusher w' = w_flusher w /\ view w' = <[i := contents (c_inode s')]> (view w).
Proof.
  intros Hw E Hheld Ef (s1 & b & Hf & ->) Hok. unfold with_inode. rewrite E. cbn [mbind option_bind]. unfold state_of in Ef. rewrite Ef.
  cbn [mbind option_bind c_inode upd_inode]. set (y := ci_set_mapped b (c_inode s1)) in *.
  destruct (wk_count _ Hw i x E) as (Hc & Hu & _). pose proof (fr_count _ _ _ Hf) as Hcount. cbn [state_of c_inode c_refs] in Hcount.
  pose proof (fr_users _ _ _ Hf) as Husers. cbn in Husers. fold y.
  assert (Hpos : 0 < ci_count y /\ ci_count y = ci_users y + b2z (bool_decide (i ∈ c_refs s1)) + b2z (holds (w_flusher w) i)).
  { cbn. rewrite Husers. pose proof (b2z_range (bool_decide (i ∈ c_refs s1))). pose proof (b2z_range (holds (w_flusher w) i)).
    destruct Hheld as [|Hh]; [lia|rewrite Hh in *; cbn in *; lia]. }
  destruct (Z.leb_spec (ci_count y) 0) as [|_]; [lia|]. eexists. split; [done|].
  split; [|by unfold view; cbn; rewrite fmap_insert].
  destruct Hok as (_ & _ & Hbuf). cbn [upd_inode c_inode c_store] in Hbuf. pose proof (fr_size _ _ _ Hf) as Hsz. cbn in Hsz. split; cbn.
  - rewrite buffers_insert. pose proof (fr_bufs _ _ _ Hf) as Hp. cbn in Hp.
    change (ci_cache y) with (c_cache s1). rewrite app_assoc, Hp, <- app_assoc. unfold c_cache. cbn.
    rewrite <- (buffers_delete _ _ _ E). by apply wk_bufs.
  - rewrite (fr_num _ _ _ Hf). by apply wk_num.
  - rewrite Hsz. by apply wk_size.
  - intros j z. rewrite lookup_insert_Some. intros [[<- <-]|[Hne Hj]]; [|by eapply wk_cache].
    rewrite Hsz, (wk_size _ Hw) in Hbuf. exact Hbuf.
  - intros j z. rewrite lookup_insert_Some. intros [[<- <-]|[Hne Hj]].
    + split; [apply Hpos|]. split; [cbn; lia|apply Hpos].
    + destruct (wk_count _ Hw j z Hj) as (Hcj & ? & ?). split; [|done]. rewrite Hcj. do 3 f_equal.
      apply bool_decide_ext. symmetry. by apply (fr_refs _ _ _ Hf).
  - intros j z. rewrite lookup_insert_Some. intros [[<- <-]|[Hne Hj]] Ha.
    + apply (fr_tracked _ _ _ Hf); [|done]. cbn. intros Hax. by eapply wk_tracked.
    + destruct (wk_tracked _ Hw j z Hj Ha) as [Hr|]; [left|by right]. by apply (fr_refs _ _ _ Hf).
  - intros j Hj. destruct (decide (i = j)) as [->|Hne]; [rewrite lookup_insert_eq; eauto|]. rewrite lookup_insert_ne by done.
    apply (wk_refs _ Hw). destruct Hj as [Hj|]; [left|by right]. by apply (fr_refs _ _ _ Hf) in Hj.
Qed.

Lemma set_flusher_ok w pc : world_ok w -> (forall j, holds pc j = holds (w_flusher w) j) ->
  (forall j x, w_inodes w !! j = Some x -> attached (ci_cache x) <> [] -> j ∈ w_refs w \/ guards pc j = true) ->
  world_ok (w_set_flusher pc w).
Proof.
  intros Hw Hh Hg. destruct Hw. split; try done; cbn.
  - intros i x E. rewrite Hh. by apply wk_count0.
  - intros i. rewrite Hh. apply wk_refs0.
Qed.

Lemma guards_holds pc i : guards pc i = true -> holds pc i = true.
Proof. by destruct pc. Qed.

(** A reference is given back. *)
Lemma iput_ok w i x users pc : world_ok w -> w_inodes w !! i = Some x -> 0 <= users ->
  users + b2z (holds pc i) = ci_users x + b2z (holds (w_flusher w) i) - 1 ->
  (forall j, j <> i -> holds pc j = holds (w_flusher w) j) -> (forall j, guards pc j = guards (w_flusher w) j) ->
  exists w', iput i users w = Some w' /\ world_ok (w_set_flusher pc w') /\ (view w' = view w \/ view w' = delete i (view w)).
Proof.
  intros Hw E Hu Hsum Hh Hg. unfold iput. rewrite E. cbn [mbind option_bind].
  destruct (wk_count _ Hw i x E) as (Hc & Hux & Hpos). pose proof (b2z_range (bool_decide (i ∈ w_refs w))).
  pose proof (b2z_range (holds pc i)). destruct (Z.leb_spec (ci_count x - 1) 0) as [H1|H1].
  - assert (Hni : i ∉ w_refs w) by (intros Hi; rewrite bool_decide_eq_true_2 in * by done; cbn in *; lia).
    assert (Hnh : holds pc i = false) by (destruct (holds pc i); cbn in *; [lia|done]).
    destruct (cb_buf (ci_cache x)) as [b|] eqn:Eb.
    { exfalso. destruct (wk_tracked _ Hw i x E) as [|Hgi]; [by unfold attached; rewrite Eb|done|].
      rewrite <- Hg in Hgi. apply guards_holds in Hgi. congruence. }
    eexists. split; [done|]. split; [|right; unfold view; cbn; by rewrite fmap_delete]. split; cbn.
    + pose proof (wk_bufs _ Hw) as Hp. rewrite (buffers_delete _ _ _ E) in Hp. unfold attached in Hp. by rewrite Eb in Hp.
    + by apply wk_num.
    + by apply wk_size.
    + intros j y. rewrite lookup_delete_Some. intros [_ Hj]. by eapply wk_cache.
    + intros j y. rewrite lookup_delete_Some. intros [Hne Hj]. rewrite Hh by done. by apply (wk_count _ Hw).
    + intros j y. rewrite lookup_delete_Some, Hg. intros [_ Hj]. by eapply wk_tracked.
    + intros j Hj. assert (j <> i) as Hne by (intros ->; destruct Hj; [done|congruence]). rewrite lookup_delete_ne by done.
      apply (wk_refs _ Hw). by rewrite <- Hh by done.
  - eexists. split; [done|]. split; [|left; unfold view; cbn; rewrite fmap_insert; apply insert_id; by rewrite lookup_fmap, E].
    split; cbn.
    + rewrite buffers_insert. cbn. rewrite <- (buffers_delete _ _ _ E). by apply wk_bufs.
    + by apply wk_num.
    + by apply wk_size.
    + intros j y. rewrite lookup_insert_Some. intros [[<- <-]|[_ Hj]]; [exact (wk_cache _ Hw _ _ E)|by eapply wk_cache].
    + intros j y. rewrite lookup_insert_Some. intros [[<- <-]|[Hne Hj]]; [cbn; lia|]. rewrite Hh by done. by apply (wk_count _ Hw).
    + intros j y. rewrite lookup_insert_Some, Hg. intros [[<- <-]|[_ Hj]]; [exact (wk_tracked _ Hw _ _ E)|by eapply wk_tracked].
    + intros j Hj. destruct (decide (i = j)) as [->|Hne]; [rewrite lookup_insert_eq; eauto|]. rewrite lookup_insert_ne by done.
      apply (wk_refs _ Hw). by rewrite <- Hh by done.
Qed.

(** ** The flusher *)

Lemma tree_elements_in t i : i ∈ tree_elements t <-> i ∈ t.
Proof. unfold tree_elements. rewrite merge_sort_Permutation. apply elem_of_elements. Qed.
Lemma head_filter_in (f : nat -> bool) l i : head (List.filter f l) = Some i -> i ∈ l /\ f i = true.
Proof.
  intros E. destruct (List.filter f l) as [|j l'] eqn:El; [done|]. injection E as ->.
  assert (Hin : In i (List.filter f l)) by (rewrite El; by left). apply filter_In in Hin as [Hin Hf]. split; [by apply list_elem_of_In|done].
Qed.
Lemma getFirst_ok refs : let '(r, refs') := InodeRefStore_getAndRemoveFirstInode refs in
  match r with Some i => i ∈ refs /\ refs' = refs ∖ {[i]} | None => refs' = refs end.
Proof.
  unfold InodeRefStore_getAndRemoveFirstInode. destruct (head (tree_elements refs)) as [i|] eqn:E; [|done]. split; [|done].
  apply tree_elements_in. destruct (tree_elements refs); [done|]. injection E as ->. left.
Qed.
Lemma getNext_ok refs old : let '(r, refs') := InodeRefStore_getAndRemoveNextInode refs old in
  match r with Some i => (old < i)%nat /\ i ∈ refs /\ refs' = refs ∖ {[i]} | None => refs' = refs end.
Proof.
  assert (Hn : forall t i, tree_next t old = Some i -> i ∈ t /\ (old < i)%nat).
  { intros t i E. apply head_filter_in in E as [Hi Hlt]. split; [by apply tree_elements_in|]. by apply Nat.ltb_lt. }
  unfold InodeRefStore_getAndRemoveNextInode. case_bool_decide as Ho.
  - destruct (tree_next refs old) as [i|] eqn:E; [|done]. destruct (Hn _ _ E). done.
  - destruct (tree_next ({[old]} ∪ refs) old) as [i|] eqn:E; [|set_solver]. destruct (Hn _ _ E) as [Hi Hlt].
    assert (i <> old) by lia. split_and!; [done|set_solver|set_solver].
Qed.

(** The flusher takes an inode out of the store. *)
Lemma flusher_takes_ok w i : world_ok w -> i ∈ w_refs w -> (forall j, holds (w_flusher w) j = false) ->
  world_ok (MkCacheWorld (w_inodes w) (w_store w) (w_refs w ∖ {[i]}) (Fl_flush i)).
Proof.
  intros Hw Hi Hno. split; cbn; try apply Hw.
  - intros j x E. destruct (wk_count _ Hw j x E) as (Hc & Hux & Hpos). split; [|done]. rewrite Hc, Hno. cbn.
    destruct (Nat.eqb_spec i j) as [<-|Hne].
    + rewrite bool_decide_eq_true_2, bool_decide_eq_false_2 by set_solver. cbn. lia.
    + rewrite (bool_decide_ext (j ∈ w_refs w) (j ∈ w_refs w ∖ {[i]})) by set_solver. cbn. lia.
  - intros j x E Ha. destruct (Nat.eqb_spec i j) as [|Hne]; [by right|left].
    destruct (wk_tracked _ Hw j x E Ha) as [|Hg]; [set_solver|]. apply guards_holds in Hg. by rewrite Hno in Hg.
  - intros j Hj. apply (wk_refs _ Hw). left. destruct Hj as [Hj|Hj]; [set_solver|]. by apply Nat.eqb_eq in Hj as <-.
Qed.

Lemma readd_ok w i x : world_ok w -> w_flusher w = Fl_readd i -> w_inodes w !! i = Some x -> 0 <= ci_users x ->
  let '(refs, count) := InodeRefStore_addOrPutInode (w_refs w) i (ci_count x) in
  0 < count /\
  world_ok (MkCacheWorld (<[i := ci_set_refs count (ci_users x) x]> (w_inodes w)) (w_store w) refs (Fl_next i)).
Proof.
  intros Hw Epc E Hu. destruct (wk_count _ Hw i x E) as (Hc & _ & Hpos). rewrite Epc in Hc. cbn in Hc. rewrite Nat.eqb_refl in Hc. cbn in Hc.
  assert (Hgen : forall count, count = ci_users x + 1 -> 0 < count /\
    world_ok (MkCacheWorld (<[i := ci_set_refs count (ci_users x) x]> (w_inodes w)) (w_store w) ({[i]} ∪ w_refs w) (Fl_next i))).
  { intros count ->. split; [lia|]. split; cbn; try apply Hw.
    - rewrite buffers_insert. cbn. rewrite <- (buffers_delete _ _ _ E). by apply wk_bufs.
    - intros j y. rewrite lookup_insert_Some. intros [[<- <-]|[_ Hj]]; [exact (wk_cache _ Hw _ _ E)|by eapply wk_cache].
    - intros j y. rewrite lookup_insert_Some. intros [[<- <-]|[Hne Hj]].
      + rewrite bool_decide_eq_true_2 by set_solver. cbn. lia.
      + destruct (wk_count _ Hw j y Hj) as (Hcj & ? & ?). rewrite Epc in Hcj. cbn in Hcj. rewrite (proj2 (Nat.eqb_neq i j)) in Hcj by done.
        rewrite (bool_decide_ext (j ∈ {[i]} ∪ w_refs w) (j ∈ w_refs w)) by set_solver. done.
    - intros j y. rewrite lookup_insert_Some. intros [[<- <-]|[Hne Hj]] Ha; left; [set_solver|].
      destruct (wk_tracked _ Hw j y Hj Ha) as [|Hg]; [set_solver|]. rewrite Epc in Hg. cbn in Hg. by apply Nat.eqb_eq in Hg.
    - intros j Hj. destruct (decide (i = j)) as [->|Hne]; [rewrite lookup_insert_eq; eauto|]. rewrite lookup_insert_ne by done.
      apply (wk_refs _ Hw). destruct Hj as [Hj|]; [left; set_solver|done]. }
  unfold InodeRefStore_addOrPutInode. case_bool_decide as Hi.
  - replace (w_refs w) with ({[i]} ∪ w_refs w) by set_solver. apply Hgen. cbn in Hc. lia.
  - apply Hgen. cbn in Hc. lia.
Qed.

(** A step of the flusher keeps all contents, except that it gives up a buffer after two failed writes and that the last
    reference to an inode may be its own. *)
Definition flusher_does (A A' : gmap nat (list byte)) : Prop :=
  A' = A \/ (exists i f f', A !! i = Some f /\ dropped f f' /\ A' = <[i := f']> A) \/ exists i, A' = delete i A.

Lemma view_lookup w i x : w_inodes w !! i = Some x -> view w !! i = Some (contents x).
Proof. intros E. unfold view. by rewrite lookup_fmap, E. Qed.
Lemma view_same w i x f : w_inodes w !! i = Some x -> f = contents x -> <[i := f]> (view w) = view w.
Proof. intros E ->. apply insert_id. by apply view_lookup. Qed.

Lemma empty_attached s : cache_ok appends coherent s -> empty s -> attached (c_cache s) = [].
Proof. intros (_ & _ & Hb) He. unfold attached. by rewrite (bo_none _ _ _ _ _ _ Hb He). Qed.

(** The buffer of an inode is flushed, and the flusher goes on to [pc]; it leaves the inode only without a buffer. *)
Lemma flusher_flush_ok {A} (f : CacheState -> option (A * CacheState)) w i x a s' (pc : A -> FlusherPc) :
  world_ok w -> w_inodes w !! i = Some x -> (forall j, guards (w_flusher w) j = true -> j = i) ->
  (forall j, holds (pc a) j = holds (w_flusher w) j) -> holds (w_flusher w) i = true ->
  f (state_of w x) = Some (a, s') -> frame i (state_of w x) s' -> cache_ok appends coherent s' ->
  (guards (pc a) i = true \/ empty s') -> exists w',
    ('(a, w) ← with_inode f i w; Some (w_set_flusher (pc a) w)) = Some w' /\ world_ok w' /\
    view w' = <[i := contents (c_inode s')]> (view w).
Proof.
  intros Hw E Hg Hh Hheld Ef Hf Hok Hpc.
  destruct (with_inode_ok f i x w a s' Hw E) as (w' & -> & Hw' & Ei & Ep & Ev); [by right|done|by apply frame_framed|done|].
  cbn [mbind option_bind]. eexists. split; [done|]. split; [|done]. apply set_flusher_ok; [done|by rewrite Ep|].
  intros j y Ej Ha. destruct (wk_tracked _ Hw' j y Ej Ha) as [|Hgj]; [by left|]. rewrite Ep in Hgj. apply Hg in Hgj as ->.
  destruct Hpc as [|Hem]; [by right|]. rewrite Ei, lookup_insert_eq in Ej. injection Ej as <-.
  destruct Ha. by apply empty_attached.
Qed.

Lemma flusher_idle_ok w pc : world_ok w -> (forall j, holds (w_flusher w) j = false) -> (forall j, holds pc j = false) ->
  world_ok (w_set_flusher pc w).
Proof.
  intros Hw Hn Hn'. apply set_flusher_ok; [done|intros j; by rewrite Hn, Hn'|].
  intros j x E Ha. destruct (wk_tracked _ Hw j x E Ha) as [|Hg]; [by left|]. apply guards_holds in Hg. by rewrite Hn in Hg.
Qed.

(** The flush of an inode, with the lock or without it. *)
Lemma flushNoWait_ok e gotLock i s : env_ok appends e -> cache_ok appends coherent s -> exists r s',
  FhgfsOpsHelper_flushCacheNoWait i e gotLock false s = Some (r, s') /\
  frame i s s' /\ cache_ok appends coherent s' /\ contents (c_inode s') = contents (c_inode s) /\ (r = 0 -> empty s').
Proof.
  intros He Hok. unfold FhgfsOpsHelper_flushCacheNoWait. destruct gotLock.
  - destruct (flush_ok appends coherent i e false s He Hok) as (r & s' & -> & Hf & Hok' & _ & H0 & H1).
    exists r, s'. split; [done|]. split; [done|]. split; [done|]. split; [|intros Hr; by apply H0].
    destruct (Z.eq_dec r 0) as [->|Hne]; [|by apply H1]. destruct (H0 eq_refl). by rewrite contents_empty.
  - by exists FhgfsOpsErr_INUSE, s.
Qed.

Lemma flusher_step_ok e gotLock isOpen terminate w : world_ok w -> env_ok appends e -> exists w',
  __Flusher_flushBuffers e gotLock isOpen terminate w = Some w' /\ world_ok w' /\ flusher_does (view w) (view w').
Proof.
  intros Hw He. unfold __Flusher_flushBuffers.
  assert (Hinode : forall i, holds (w_flusher w) i = true -> exists x, w_inodes w !! i = Some x /\ cache_ok appends coherent (state_of w x) /\ 0 <= ci_users x).
  { intros i Hi. destruct (wk_refs _ Hw i) as [x E]; [by right|]. exists x. split; [done|]. split; [by eapply state_of_ok|].
    by apply (wk_count _ Hw i x E). }
  destruct (w_flusher w) as [|i|i|i|i|i] eqn:Epc; try (destruct (Hinode i) as (x & E & Hok & Hu); [apply Nat.eqb_refl|]).
  - pose proof (getFirst_ok (w_refs w)) as Hg. destruct (InodeRefStore_getAndRemoveFirstInode _) as [[i|] refs].
    + destruct Hg as [Hi ->]. eexists. split; [done|]. split; [|by left]. apply flusher_takes_ok; [done|done|by rewrite Epc].
    + subst refs. eexists. split; [done|]. split; [|by left]. apply (flusher_idle_ok w Fl_idle); [done|by rewrite Epc|done].
  - destruct (flushNoWait_ok e gotLock i _ He Hok) as (r & s' & Ef & Hf & Hok' & Hc & H0).
    edestruct (flusher_flush_ok (FhgfsOpsHelper_flushCacheNoWait i e gotLock false) w i x r s') as (w' & Ew & Hw' & Ev);
      [done|done|..|exists w'; split; [exact Ew|]; split; [done|left; rewrite Ev; by eapply view_same]].
    + rewrite Epc. intros j Hj. symmetry. by apply Nat.eqb_eq.
    + rewrite Epc. intros j. repeat case_match; done.
    + rewrite Epc. apply Nat.eqb_refl.
    + done.
    + done.
    + done.
    + destruct (Z.eq_dec r 0) as [Hr|Hr]; [right; auto|left]. cbn beta. rewrite (proj2 (Z.eqb_neq r FhgfsOpsErr_SUCCESS) Hr).
      repeat case_match; apply Nat.eqb_refl.
  - unfold FhgfsOpsHelper_flushCache. destruct (flush_ok appends coherent i e true _ He Hok) as (r & s' & Ef & Hf & Hok' & _ & H0 & H1).
    assert (Hem : empty s') by (destruct (Z.eq_dec r 0) as [->|Hne]; [by apply H0|by apply H1]).
    edestruct (flusher_flush_ok (__FhgfsOpsHelper_flushCacheUnlocked i e true) w i x r s' (fun _ => Fl_put i)) as (w' & Ew & Hw' & Ev);
      [done|done|rewrite Epc; intros j Hj; symmetry; by apply Nat.eqb_eq|by rewrite Epc|rewrite Epc; apply Nat.eqb_refl|done|done|done|by right|].
    exists w'. split; [exact Ew|]. split; [done|]. rewrite Ev, (contents_empty s' Hem). destruct (Z.eq_dec r 0) as [->|Hne].
    + left. destruct (H0 eq_refl) as [_ Hfile]. by eapply view_same.
    + right. left. destruct (H1 Hne) as [_ Hd]. exists i, (contents x), (ci_file (c_inode s')). split; [by apply view_lookup|done].
  - rewrite E. cbn [fmap option_fmap option_map mbind option_bind].
    destruct (iput_ok w i x (ci_users x) (Fl_next i) Hw E Hu) as (w' & -> & Hw' & Hv).
    { rewrite Epc. cbn. rewrite Nat.eqb_refl. cbn. lia. }
    { intros j Hne. rewrite Epc. cbn. symmetry. by apply Nat.eqb_neq. }
    { by rewrite Epc. }
    eexists. split; [done|]. split; [done|]. change (view (w_set_flusher _ w')) with (view w').
    destruct Hv as [->| ->]; [by left|right; right; by exists i].
  - rewrite E. cbn [mbind option_bind]. pose proof (readd_ok w i x Hw Epc E Hu) as Hr.
    destruct (InodeRefStore_addOrPutInode _ _ _) as [refs count]. destruct Hr as [Hpos Hr].
    destruct (Z.leb_spec count 0); [lia|]. eexists. split; [done|]. split; [done|]. left.
    unfold view at 1. cbn. rewrite fmap_insert. by eapply view_same.
  - destruct terminate.
    { eexists. split; [done|]. split; [|by left]. apply flusher_idle_ok; [done|by rewrite Epc|done]. }
    pose proof (getNext_ok (w_refs w) i) as Hg. destruct (InodeRefStore_getAndRemoveNextInode _ _) as [[j|] refs].
    + destruct Hg as (_ & Hj & ->). eexists. split; [done|]. split; [|by left]. apply flusher_takes_ok; [done|done|by rewrite Epc].
    + subst refs. eexists. split; [done|]. split; [|by left]. apply (flusher_idle_ok w Fl_idle); [done|by rewrite Epc|done].
Qed.

(** ** Users *)

Lemma mapped_ok b s : cache_ok appends coherent s -> (coherent = true -> b = true -> empty s) ->
  cache_ok appends coherent (upd_inode (ci_set_mapped b) s).
Proof. intros (Hr & Hs & Hb) He. split; [done|]. split; [done|]. destruct Hb. split; try done. Qed.

Lemma mmap_ok self e g s : env_ok appends e -> cache_ok appends coherent s -> exists r s',
  FhgfsOps_mmap coherent self e true g s = Some (r, s') /\ framed self s s' /\ cache_ok appends coherent s' /\
  contents (c_inode s') = contents (c_inode s).
Proof.
  intros He Hok. unfold FhgfsOps_mmap. rewrite andb_true_r.
  assert (Hf : forall b : bool, exists r s', (if b then __FhgfsOpsHelper_flushCacheUnlocked self e false s else Some (FhgfsOpsErr_SUCCESS, s)) =
    Some (r, s') /\ frame self s s' /\ cache_ok appends coherent s' /\ contents (c_inode s') = contents (c_inode s) /\
    (b = true -> r = 0 -> empty s')).
  { intros []; [|by exists 0, s].
    destruct (flushNoWait_ok e true self s He Hok) as (r & s' & Ef & Hf & Hok' & Hc & H0). by exists r, s'. }
  destruct (Hf coherent) as (r & s' & -> & Hf' & Hok' & Hc & H0). clear Hf. cbn [mbind option_bind]. unfold FhgfsOpsErr_SUCCESS.
  destruct (Z.eqb_spec r 0) as [Hr|Hne]; cbn [negb].
  - eexists _, _. split; [done|]. destruct (g =? 0); [|split; [by apply frame_framed|done]].
    split; [by exists s', true|]. split; [|done]. apply mapped_ok; auto.
  - eexists _, _. split; [done|]. split; [by apply frame_framed|done].
Qed.

(** What the contents of the files are after a step, and what a user sees.  An operation on a file that is not open does nothing. *)
Definition spec_step (A : gmap nat (list byte)) (l : CacheLabel) (o : CacheObs) (A' : gmap nat (list byte)) : Prop :=
  match l with
  | Lc_create i file => A' = (match A !! i with Some _ => A | None => <[i := file]> A end)
  | Lc_open _ | Lc_mmap _ _ _ _ | Lc_munmap _ => A' = A
  | Lc_close i => A' = A \/ A' = delete i A
  | Lc_write i _ _ _ iter _ offset => (o = Oc_none /\ A' = A) \/ exists f f' v,
      A !! i = Some f /\ o = Oc_write v /\ written f offset iter v f' /\ A' = <[i := f']> A
  | Lc_read i _ e _ _ size offset => A' = A /\ (o = Oc_none \/ exists f r bytes,
      A !! i = Some f /\ o = Oc_read r bytes /\ got e f offset size r bytes)
  | Lc_flush i _ discardCacheOnError => (o = Oc_none /\ A' = A) \/ exists f r file,
      A !! i = Some f /\ o = Oc_flush r file /\ (r = 0 -> file = f /\ A' = A) /\
      (r <> 0 -> if discardCacheOnError then dropped f file /\ A' = <[i := file]> A else A' = A)
  | Lc_flusher _ _ _ _ => flusher_does A A'
  end.
Fixpoint spec_run (A : gmap nat (list byte)) (ls : list CacheLabel) (os : list CacheObs) (A' : gmap nat (list byte)) : Prop :=
  match ls, os with
  | [], [] => A' = A
  | l :: ls, o :: os => exists A1, spec_step A l o A1 /\ spec_run A1 ls os A'
  | _, _ => False
  end.

Definition label_ok (l : CacheLabel) : Prop :=
  match l with
  | Lc_write _ _ e _ iter size offset =>
      env_ok appends e /\ size = zlen iter /\ offset_ok appends offset /\ offset + size + bufSize < 2 ^ 63
  | Lc_read _ _ e _ _ size offset => env_ok appends e /\ 0 <= size /\ 0 <= offset /\ offset + size + bufSize < 2 ^ 63
  | Lc_flush _ e _ | Lc_flusher e _ _ _ => env_ok appends e
  | Lc_mmap _ e locked _ => env_ok appends e /\ locked = true
  | Lc_create _ _ | Lc_open _ | Lc_close _ | Lc_munmap _ => True
  end.

Lemma insert_new_ok w i file : world_ok w -> w_inodes w !! i = None ->
  world_ok (MkCacheWorld (<[i := MkCachedInode no_cacheBuffer file 1 1 false false]> (w_inodes w)) (w_store w) (w_refs w) (w_flusher w)).
Proof.
  intros Hw E. assert (Hn : i ∉ w_refs w /\ holds (w_flusher w) i = false).
  { split; [intros Hi|destruct (holds _ _) eqn:Eh; [|done]]; destruct (wk_refs _ Hw i); naive_solver. }
  destruct Hn as [Hn1 Hn2]. split; cbn; try apply Hw.
  - rewrite buffers_insert, delete_id by done. cbn. by apply wk_bufs.
  - intros j y. rewrite lookup_insert_Some. intros [[<- <-]|[_ Hj]]; [by apply buffer_ok_none|by eapply wk_cache].
  - intros j y. rewrite lookup_insert_Some. intros [[<- <-]|[_ Hj]]; [|by apply (wk_count _ Hw)].
    rewrite bool_decide_eq_false_2, Hn2 by done. done.
  - intros j y. rewrite lookup_insert_Some. intros [[<- <-]|[_ Hj]]; [done|by eapply wk_tracked].
  - intros j Hj. rewrite lookup_insert_is_Some'. right. by apply (wk_refs _ Hw).
Qed.
Lemma insert_open_ok w i x : world_ok w -> w_inodes w !! i = Some x ->
  world_ok (MkCacheWorld (<[i := ci_set_refs (ci_count x + 1) (ci_users x + 1) x]> (w_inodes w)) (w_store w) (w_refs w) (w_flusher w)).
Proof.
  intros Hw E. split; cbn; try apply Hw.
  - rewrite buffers_insert. cbn. rewrite <- (buffers_delete _ _ _ E). by apply wk_bufs.
  - intros j y. rewrite lookup_insert_Some. intros [[<- <-]|[_ Hj]]; [exact (wk_cache _ Hw _ _ E)|by eapply wk_cache].
  - intros j y. rewrite lookup_insert_Some. intros [[<- <-]|[_ Hj]]; [|by apply (wk_count _ Hw)].
    destruct (wk_count _ Hw _ _ E). cbn. lia.
  - intros j y. rewrite lookup_insert_Some. intros [[<- <-]|[_ Hj]]; [exact (wk_tracked _ Hw _ _ E)|by eapply wk_tracked].
  - intros j Hj. rewrite lookup_insert_is_Some'. right. by apply (wk_refs _ Hw).
Qed.

(** An operation of a user who has the file open, on the inode with its state. *)
Lemma user_op_ok (f : CacheState -> option (CacheObs * CacheState)) i w (P : CacheObs -> gmap nat (list byte) -> Prop) :
  world_ok w -> P Oc_none (view w) ->
  (forall x, w_inodes w !! i = Some x -> cache_ok appends coherent (state_of w x) -> exists o s',
     f (state_of w x) = Some (o, s') /\ framed i (state_of w x) s' /\ cache_ok appends coherent s' /\
     P o (<[i := contents (c_inode s')]> (view w))) ->
  exists o w', (if in_use i w then with_inode f i w else Some (Oc_none, w)) = Some (o, w') /\ world_ok w' /\ P o (view w').
Proof.
  intros Hw Hnone Hop. unfold in_use. destruct (w_inodes w !! i) as [x|] eqn:E; [|by exists Oc_none, w].
  destruct (Z.ltb_spec 0 (ci_users x)) as [Hu|]; [|by exists Oc_none, w].
  destruct (Hop x eq_refl (state_of_ok w i x Hw E)) as (o & s' & Ef & Hf & Hok & HP).
  destruct (with_inode_ok f i x w o s' Hw E (or_introl Hu) Ef Hf Hok) as (w' & -> & Hw' & _ & _ & Ev).
  exists o, w'. rewrite Ev. done.
Qed.

Lemma cache_step_ok w l : world_ok w -> label_ok l -> exists o w',
  cache_step coherent w l = Some (o, w') /\ world_ok w' /\ spec_step (view w) l o (view w').
Proof.
  intros Hw Hl. destruct l as [i file|i|i|i p e info iter size off|i p e mr info size off|i e d|i e locked g|i|e gl io te]; cbn [cache_step spec_step].
  - destruct (w_inodes w !! i) as [x|] eqn:E.
    + exists Oc_none, w. split; [done|]. split; [done|]. by rewrite (view_lookup w i x E).
    + eexists _, _. split; [done|]. split; [by apply insert_new_ok|]. unfold view. rewrite lookup_fmap, E. cbn. by rewrite fmap_insert.
  - destruct (w_inodes w !! i) as [x|] eqn:E; [|by exists Oc_none, w].
    eexists _, _. split; [done|]. split; [by apply insert_open_ok|]. unfold view at 1. cbn. rewrite fmap_insert. by eapply view_same.
  - unfold in_use. destruct (w_inodes w !! i) as [x|] eqn:E; [|exists Oc_none, w; by auto].
    destruct (Z.ltb_spec 0 (ci_users x)) as [Hu|]; [|exists Oc_none, w; by auto]. cbn [fmap option_fmap option_map mbind option_bind].
    destruct (iput_ok w i x (ci_users x - 1) (w_flusher w) Hw E) as (w' & Ei & Hw' & Hv); [lia|lia|done|done|].
    rewrite Ei. eexists _, _. split; [done|]. split; [|done]. unfold iput in Ei. rewrite E in Ei. cbn in Ei.
    replace w' with (w_set_flusher (w_flusher w) w'); [done|]. repeat case_match; simplify_eq; done.
  - destruct Hl as (He & -> & Ho & Hm). apply (user_op_ok _ i w (spec_step (view w) (Lc_write i p e info iter (zlen iter) off))); [done|by left|]. intros x E Hok.
    destruct (writeCached_ok appends coherent i e p info iter off _ He Hok Ho) as (o & -> & Hf & Hok' & Hwr);
      [by cbn; rewrite (wk_size _ Hw)|].
    eexists _, _. split; [done|]. split; [by apply frame_framed|]. split; [done|]. right.
    exists (contents x), (contents (c_inode (co_state o))), (co_ret o). split; [by apply view_lookup|done].
  - destruct Hl as (He & Hs & Ho & Hm). apply (user_op_ok _ i w (spec_step (view w) (Lc_read i p e mr info size off))); [done|by split; [|left]|]. intros x E Hok.
    destruct (readCached_ok appends coherent i e p mr info size off _ He Hok Hs Ho) as (o & -> & Hf & Hok' & Hc & Hg);
      [by cbn; rewrite (wk_size _ Hw)|].
    eexists _, _. split; [done|]. split; [by apply frame_framed|]. split; [done|]. split; [by eapply view_same|]. right.
    exists (contents x), (co_ret o), (co_bytes o). split; [by apply view_lookup|done].
  - apply (user_op_ok _ i w (spec_step (view w) (Lc_flush i e d))); [done|by left|]. intros x E Hok. unfold FhgfsOpsHelper_flushCache.
    destruct (flush_ok appends coherent i e d _ Hl Hok) as (r & s' & -> & Hf & Hok' & _ & H0 & H1).
    eexists _, _. split; [done|]. split; [by apply frame_framed|]. split; [done|]. right.
    exists (contents x), r, (ci_file (c_inode s')). split; [by apply view_lookup|]. split; [done|]. split.
    + intros Hr. destruct (H0 Hr) as [Hem Hfile]. split; [done|]. rewrite contents_empty by done. by eapply view_same.
    + intros Hr. specialize (H1 Hr). destruct d; [|by eapply view_same]. destruct H1 as [Hem Hd].
      split; [done|]. by rewrite contents_empty.
  - destruct Hl as [He ->]. apply (user_op_ok _ i w (spec_step (view w) (Lc_mmap i e true g))); [done|done|]. intros x E Hok.
    destruct (mmap_ok i e g _ He Hok) as (r & s' & -> & Hf & Hok' & Hc). eexists _, _. split; [done|].
    split; [done|]. split; [done|]. by eapply view_same.
  - apply (user_op_ok _ i w (spec_step (view w) (Lc_munmap i))); [done|done|]. intros x E Hok. eexists _, _. split; [done|]. split; [by eexists _, _|].
    split; [by apply mapped_ok|]. by eapply view_same.
  - destruct (flusher_step_ok e gl io te w Hw Hl) as (w' & -> & Hw' & Hd). by eexists _, _.
Qed.

Lemma cache_run_ok ls : forall w, world_ok w -> Forall label_ok ls -> exists os w',
  cache_run coherent w ls = Some (os, w') /\ world_ok w' /\ spec_run (view w) ls os (view w').
Proof.
  induction ls as [|l ls IH]; intros w Hw Hls; [by exists [], w|]. inversion_clear Hls as [|? ? Hl Hls']. cbn [cache_run].
  destruct (cache_step_ok w l Hw Hl) as (o & w1 & -> & Hw1 & Hs). cbn [mbind option_bind].
  destruct (IH w1 Hw1 Hls') as (os & w' & -> & Hw' & Hr). exists (o :: os), w'. split; [done|]. split; [done|]. by exists (view w1).
Qed.
Lemma cache_start_ok alloc store : NoAllocBufferStore_init true alloc numBufs bufSize = Some store -> world_ok (cache_start store).
Proof.
  unfold NoAllocBufferStore_init, __NoAllocBufferStore_initBuffers. cbn [negb andb]. destruct (forallb _ _); [|done]. intros [= <-].
  split; cbn; try done. - by rewrite app_nil_r. - intros i [?|?]; set_solver.
Qed.
End Inodes.

(** ** Properties *)


(** C35: With buffers of at least 64 KiB and remote operations that keep the rules of [env_ok] (a write of something does not report zero
    bytes, among them): in every state that operations and the flusher reach, each buffer is either available or belongs to exactly one inode, the
    reference count of an inode is exact and positive, and an inode with a buffer is in the store of
    inodes or the flusher is about to look at it; the last reference is never given back while the inode
    has a buffer. *)
Theorem cache_buffers_invariant appends coherent numBufs bufSize alloc store ls :
  FSFILEINFO_CACHE_SLOWSTART_READLEN <= bufSize < 2 ^ 62 ->
  NoAllocBufferStore_init true alloc numBufs bufSize = Some store -> Forall (label_ok appends bufSize) ls ->
  match cache_run coherent (cache_start store) ls with
  | Some (_, w) =>
      nb_bufArray (w_store w) ++ buffers (w_inodes w) ≡ₚ seq 0 numBufs /\
      forall i x, w_inodes w !! i = Some x ->
        ci_count x = ci_users x + b2z (bool_decide (i ∈ w_refs w)) + b2z (holds (w_flusher w) i) /\ 0 < ci_count x /\
        (attached (ci_cache x) <> [] -> i ∈ w_refs w \/ guards (w_flusher w) i = true)
  | None => False
  end.
Proof.
  intros Hb Hi Hls. destruct (cache_run_ok appends coherent numBufs bufSize Hb ls (cache_start store)) as (os & w & -> & Hw & _);
    [by eapply cache_start_ok|done|]. split; [by eapply wk_bufs|]. intros i x E. destruct (wk_count _ _ _ _ _ Hw i x E) as (? & ? & ?).
  split; [done|]. split; [done|]. by apply (wk_tracked _ _ _ _ _ Hw).
Qed.

(** ** Samples *)

(** Servers that do everything that is asked for. *)
Definition plain_env : RemoteEnv := MkRemoteEnv (fun f off data => (zlen data, write_at f off data))
  (fun f off n => (zlen (read_at f off n), read_at f off n)) (fun f => if zlen f <? 2 ^ 63 then (0, zlen f) else (1, 0))
  0 0 0 0 (fun n => n).
Lemma plain_env_ok appends : env_ok appends plain_env.
Proof.
  split; cbn; try done.
  - intros f off data _. exists data. split_and!; try lia; done.
  - intros f off [] H; [done|]. rewrite zlen_cons. pose proof (zlen_nonneg l). lia.
  - intros f off n _ Hn. pose proof (zlen_read_at f off n Hn). split; [done|]. split; [done|]. intros _. split; [|done].
    rewrite <- (read_at_take f off n (zlen (read_at f off n))) by (pose proof (zlen_nonneg (read_at f off n)); lia). by rewrite to_nat_zlen, firstn_all.
  - intros f. destruct (Z.ltb_spec (zlen f) (2 ^ 63)); cbn; [|lia]. done.
  - intros _. split; [done|]. intros f data. by left.
Qed.
Definition sample_pattern : StripePattern := MkStripePattern STRIPEPATTERN_Raid0 65536 (Some 1) (Raid0Pattern [11] 1).
Definition bytes_ab : list byte := [Byte.x61; Byte.x62].
(** Two writes, a read, and the flusher. *)
Definition sample_labels : list CacheLabel :=
  [Lc_create 7 []; Lc_write 7 sample_pattern plain_env FsFileInfo_init bytes_ab 2 0;
   Lc_write 7 sample_pattern plain_env FsFileInfo_init bytes_ab 2 2; Lc_flusher plain_env true true false;
   Lc_flusher plain_env true true false; Lc_read 7 sample_pattern plain_env false FsFileInfo_init 3 1;
   Lc_flusher plain_env true true false; Lc_close 7].
Definition sample_store (n : nat) (bufSize : Z) : NoAllocBufferStore := MkBufferStore (seq 0 n) (Z.of_nat n) bufSize.
Lemma sample_labels_ok : Forall (label_ok true 65536) sample_labels.
Proof.
  pose proof (plain_env_ok true) as He. repeat (apply List.Forall_cons; [first [exact I|exact He|split; [exact He|]]|]);
    [split; [done|split; [right|]; lia]..|split; [|split]; lia|by apply List.Forall_nil].
Qed.

Lemma cache_buffers_invariant_witness : match cache_run true (cache_start (sample_store 2 65536)) sample_labels with
  | Some (_, w) =>
      nb_bufArray (w_store w) ++ buffers (w_inodes w) ≡ₚ seq 0 2 /\
      forall i x, w_inodes w !! i = Some x ->
        ci_count x = ci_users x + b2z (bool_decide (i ∈ w_refs w)) + b2z (holds (w_flusher w) i) /\ 0 < ci_count x /\
        (attached (ci_cache x) <> [] -> i ∈ w_refs w \/ guards (w_flusher w) i = true)
  | None => False
  end.
Proof.
  apply (cache_buffers_invariant true true 2 65536 (fun _ => true)); [unfold FSFILEINFO_CACHE_SLOWSTART_READLEN; lia|reflexivity|exact sample_labels_ok].
Defined.

(** What is seen of a run: the observations, the available buffers, those of inodes, the contents. *)
Definition summary (r : option (list CacheObs * CacheWorld)) : option (list CacheObs * list nat * list nat * list (nat * list byte)) :=
  '(os, w) ← r; Some (os, nb_bufArray (w_store w), buffers (w_inodes w), map_to_list (view w)).

Example sample_run : summary (cache_run true (cache_start (sample_store 2 65536)) sample_labels) =
  Some ([Oc_none; Oc_write 2; Oc_write 2; Oc_none; Oc_none; Oc_read 3 [Byte.x62; Byte.x61; Byte.x62]; Oc_none; Oc_none],
    [0%nat], [1%nat], [(7%nat, bytes_ab ++ bytes_ab)]).
Proof. vm_compute. reflexivity. Qed.

(** Servers that report that nothing was written: the flush is taken for a success although the data are still in the
    buffer, the second write uses a new one, and the first buffer and its data are lost. *)
Definition zero_env : RemoteEnv := MkRemoteEnv (fun f _ _ => (0, f)) (re_read plain_env) (re_stat plain_env) 0 0 0 0 (fun n => n).
Example zero_write_loses_data : summary (cache_run true (cache_start (sample_store 2 65536))
    [Lc_create 7 []; Lc_write 7 sample_pattern zero_env FsFileInfo_init bytes_ab 2 0;
     Lc_write 7 sample_pattern zero_env FsFileInfo_init bytes_ab 2 9]) =
  Some ([Oc_none; Oc_write 2; Oc_write 2], [], [0%nat], [(7%nat, replicate 9 Byte.x00 ++ bytes_ab)]).
Proof. vm_compute. reflexivity. Qed.

(** With buffers below 64 KiB, reading the start of a file writes behind the buffer. *)
Example slow_start_overflows : summary (cache_run true (cache_start (sample_store 1 4096))
    [Lc_create 7 (replicate 5000 Byte.x61); Lc_read 7 sample_pattern plain_env false FsFileInfo_init 10 0]) = None.
Proof. vm_compute. reflexivity. Qed.

(** A flush of appended data that stores a part of them is repeated with all of them. *)
Definition partial_env : RemoteEnv := MkRemoteEnv (fun f off data => (1, write_at f off (take 1 data))) (re_read plain_env)
  (re_stat plain_env) 0 0 0 0 (fun n => n).
Example append_duplicates : summary (cache_run true (cache_start (sample_store 1 65536))
    [Lc_create 7 []; Lc_write 7 sample_pattern plain_env FsFileInfo_init bytes_ab 2 (-1); Lc_flush 7 partial_env false;
     Lc_flush 7 plain_env false]) =
  Some ([Oc_none; Oc_write 2; Oc_flush FhgfsOpsErr_NOSPACE [Byte.x61]; Oc_flush 0 (Byte.x61 :: bytes_ab)], [0%nat], [],
    [(7%nat, Byte.x61 :: bytes_ab)]).
Proof. vm_compute. reflexivity. Qed.

(** The flusher discards the data of an open file after an error other than a communication error. *)
Definition full_env : RemoteEnv := MkRemoteEnv (fun f _ _ => (- FhgfsOpsErr_NOSPACE, f)) (re_read plain_env) (re_stat plain_env)
  0 0 0 0 (fun n => n).
Example flusher_discards_open_file : summary (cache_run true (cache_start (sample_store 1 65536))
    ([Lc_create 7 []; Lc_write 7 sample_pattern plain_env FsFileInfo_init bytes_ab 2 0] ++
     replicate 3 (Lc_flusher full_env true true false))) =
  Some ([Oc_none; Oc_write 2; Oc_none; Oc_none; Oc_none], [0%nat], [], [(7%nat, [])]).
Proof. vm_compute. reflexivity. Qed.

(** An append of less than what is left in the iterator stops the kernel. *)
Example short_append_stops : summary (cache_run true (cache_start (sample_store 0 65536))
    [Lc_create 7 []; Lc_write 7 sample_pattern plain_env FsFileInfo_init bytes_ab 1 (-1)]) = None.
Proof. vm_compute. reflexivity. Qed.
