(* ===== verification/StripedFileFacts.v ===== *)
(** * Striped files as files

    The servers keep a file as one chunk file on each of its targets.  This file composes the requests of
    [Remoting.v] with the chunk files they address: striped writes and reads fulfil the laws that the file cache relies
    on ([write_law] and [read_law] of [FileCacheFacts.v]), for all results of the servers. *)

From S2P Require Import Prelude StorageErrors StripePattern StripePatternFacts BitStore BitStoreFacts Remoting RemotingFacts FileCache FileCacheFacts.

(** ** Bytes of a list *)

Definition byte_at (l : list byte) (i : Z) : byte := default Byte.x00 (l !! Z.to_nat i).

Lemma byte_at_out l i : zlen l <= i -> byte_at l i = Byte.x00.
Proof. intros Hi. unfold byte_at. rewrite lookup_ge_None_2; [done|]. unfold zlen in Hi. lia. Qed.

Lemma bytes_ext l k : zlen l = zlen k -> (forall i, 0 <= i < zlen l -> byte_at l i = byte_at k i) -> l = k.
Proof.
  intros Hlen H. apply list_eq_same_length with (length k); [done|unfold zlen in Hlen; lia|].
  intros i x y Hi Hx Hy. specialize (H (Z.of_nat i)). unfold byte_at, zlen in *. rewrite Nat2Z.id, Hx, Hy in H.
  apply H. lia.
Qed.

Lemma zlen_write_at l off d : 0 <= off -> 0 < zlen d -> zlen (write_at l off d) = Z.max (zlen l) (off + zlen d).
Proof.
  intros Ho Hd. rewrite write_at_ne by (by destruct d). unfold zlen in *. rewrite !length_app, length_take,
    length_replicate, length_drop. lia.
Qed.

Lemma byte_write_at l off d i : 0 <= off -> 0 <= i ->
  byte_at (write_at l off d) i = if (off <=? i) && (i <? off + zlen d) then byte_at d (i - off) else byte_at l i.
Proof.
  intros Ho Hi. destruct (decide (d = [])) as [->|Hd].
  { rewrite zlen_nil. by destruct (Z.leb_spec off i), (Z.ltb_spec i (off + 0)); try lia. }
  rewrite write_at_ne by done. unfold byte_at, zlen. destruct (Z.leb_spec off i) as [Hle|Hlt]; cbn [andb].
  - rewrite lookup_app_r by (rewrite length_take; lia). rewrite lookup_app_r by (rewrite length_take, length_replicate; lia).
    rewrite length_take, length_replicate.
    replace (Z.to_nat i - _ - _)%nat with (Z.to_nat (i - off)) by lia.
    destruct (Z.ltb_spec i (off + Z.of_nat (length d))).
    + by rewrite lookup_app_l by lia.
    + rewrite lookup_app_r, lookup_drop by lia. f_equal. f_equal. lia.
  - destruct (decide (i < zlen l)) as [Hil|Hil]; unfold zlen in Hil.
    + rewrite lookup_app_l by (rewrite length_take; lia). by rewrite lookup_take_lt by lia.
    + rewrite lookup_app_r by (rewrite length_take; lia). rewrite lookup_app_l by (rewrite length_take, length_replicate; lia).
      rewrite length_take, lookup_replicate_2 by lia. by rewrite (lookup_ge_None_2 l) by lia.
Qed.

Lemma zlen_read_full l off n : 0 <= off -> 0 <= n -> off + n <= zlen l -> zlen (read_at l off n) = n.
Proof. intros. unfold read_at, zlen in *. rewrite length_take, length_drop. lia. Qed.

Lemma byte_read_at l off n i : 0 <= off -> 0 <= i < n -> byte_at (read_at l off n) i = byte_at l (off + i).
Proof.
  intros Ho Hi. unfold byte_at, read_at. rewrite lookup_take_lt, lookup_drop by lia. f_equal. f_equal. lia.
Qed.

Lemma read_at_nonpos l off n : n <= 0 -> read_at l off n = [].
Proof. intros. unfold read_at. by replace (Z.to_nat n) with O by lia. Qed.

(** ** Chunk files *)

Definition Chunks := Z -> list byte.

Section Layout.
Context (cs n : Z).

Definition chunk_byte (chunks : Chunks) (pos : Z) : byte := byte_at (chunks (spec_index cs n pos)) (spec_local cs n pos).
(** The position behind the last byte of a chunk file. *)
Definition chunk_end (chunks : Chunks) (index : Z) : Z :=
  if zlen (chunks index) =? 0 then 0 else spec_pos cs n index (zlen (chunks index) - 1) + 1.
(** The size of the file is computed from the sizes of its chunk files; what no chunk file has is zero. *)
Definition file_len (chunks : Chunks) : Z := foldr Z.max 0 (chunk_end chunks <$> seqZ 0 n).
Definition file_of (chunks : Chunks) : list byte := chunk_byte chunks <$> seqZ 0 (file_len chunks).

Hypothesis Hcs : 0 < cs.
Hypothesis Hn : 0 < n.

Lemma spec_pos_mono index a b : a <= b -> spec_pos cs n index a <= spec_pos cs n index b.
Proof.
  intros Hab. unfold spec_pos. pose proof (Z.div_le_mono a b cs Hcs Hab).
  pose proof (Z.div_mod a cs). pose proof (Z.div_mod b cs). pose proof (Z.mod_pos_bound a cs Hcs). pose proof (Z.mod_pos_bound b cs Hcs).
  destruct (decide (a / cs = b / cs)) as [E|]; [rewrite E; lia|].
  assert ((a / cs + 1) * (n * cs) <= b / cs * (n * cs)) by (apply Z.mul_le_mono_nonneg_r; nia). nia.
Qed.
Lemma spec_local_nonneg pos : 0 <= pos -> 0 <= spec_local cs n pos.
Proof.
  intros. unfold spec_local. pose proof (Z.mod_pos_bound pos cs Hcs). pose proof (Z.div_pos pos (cs * n)). nia.
Qed.

Lemma foldr_max_le l L : foldr Z.max 0 l <= L <-> 0 <= L /\ forall x, x ∈ l -> x <= L.
Proof.
  induction l as [|x l IH]; cbn; [set_solver|]. rewrite Z.max_lub_iff, IH. setoid_rewrite elem_of_cons. naive_solver.
Qed.
Lemma file_len_le chunks L : file_len chunks <= L <->
  0 <= L /\ forall index off, 0 <= index < n -> 0 <= off < zlen (chunks index) -> spec_pos cs n index off < L.
Proof.
  unfold file_len. rewrite foldr_max_le. split.
  - intros [HL H]. split; [done|]. intros index off Hi Ho. assert (Hx : chunk_end chunks index ∈ chunk_end chunks <$> seqZ 0 n).
    { apply list_elem_of_fmap. exists index. split; [done|]. apply elem_of_seqZ. lia. }
    specialize (H _ Hx). unfold chunk_end in H. rewrite (proj2 (Z.eqb_neq _ _)) in H by lia.
    pose proof (spec_pos_mono index off (zlen (chunks index) - 1)). lia.
  - intros [HL H]. split; [done|]. intros x (index & -> & Hi%elem_of_seqZ)%list_elem_of_fmap. unfold chunk_end.
    pose proof (zlen_nonneg (chunks index)). destruct (Z.eqb_spec (zlen (chunks index)) 0); [done|].
    specialize (H index (zlen (chunks index) - 1)). lia.
Qed.
Lemma file_len_nonneg chunks : 0 <= file_len chunks.
Proof. exact (proj1 (proj1 (file_len_le chunks _) (Z.le_refl _))). Qed.
Lemma zlen_file_of chunks : zlen (file_of chunks) = file_len chunks.
Proof. unfold file_of. rewrite zlen_fmap. unfold zlen. rewrite length_seqZ. pose proof (file_len_nonneg chunks). lia. Qed.

(** A byte that a chunk file has is inside of the file. *)
Lemma chunk_byte_inside chunks pos : 0 <= pos -> spec_local cs n pos < zlen (chunks (spec_index cs n pos)) -> pos < file_len chunks.
Proof.
  intros Hpos Hl. destruct (proj1 (file_len_le chunks _) (Z.le_refl _)) as [_ H].
  rewrite <- (spec_pos_local cs n pos) by done. apply H; [by apply spec_index_range|]. split; [by apply spec_local_nonneg|done].
Qed.
Lemma byte_file_of chunks pos : 0 <= pos -> byte_at (file_of chunks) pos = chunk_byte chunks pos.
Proof.
  intros Hpos. destruct (decide (pos < file_len chunks)) as [Hl|Hl].
  - unfold byte_at, file_of. rewrite list_lookup_fmap, lookup_seqZ_lt by lia. cbn. f_equal. lia.
  - rewrite byte_at_out by (rewrite zlen_file_of; lia). symmetry. apply byte_at_out.
    destruct (decide (zlen (chunks (spec_index cs n pos)) <= spec_local cs n pos)); [done|].
    pose proof (chunk_byte_inside chunks pos Hpos). lia.
Qed.

(** ** Data that a server stores *)

Definition store_chunk (chunks : Chunks) (index off : Z) (d : list byte) : Chunks :=
  fun i => if i =? index then write_at (chunks i) off d else chunks i.

Lemma file_of_ext chunks chunks' : (forall i, chunks i = chunks' i) -> file_of chunks = file_of chunks'.
Proof.
  intros H. assert (El : file_len chunks = file_len chunks').
  { unfold file_len. f_equal. apply list_fmap_ext. intros _ x _. unfold chunk_end. by rewrite H. }
  unfold file_of. rewrite El. apply list_fmap_ext. intros _ x _. unfold chunk_byte. by rewrite H.
Qed.

Section Store.
Context (chunks : Chunks) (index off pos : Z) (d : list byte).
Hypothesis Hpos : 0 <= pos.
Hypothesis Hoff : 0 <= off.
Hypothesis Hindex : 0 <= index < n.
Hypothesis Hplace : forall k, 0 <= k < zlen d -> spec_index cs n (pos + k) = index /\ spec_local cs n (pos + k) = off + k.

Lemma place_pos k : 0 <= k < zlen d -> spec_pos cs n index (off + k) = pos + k.
Proof. intros Hk. destruct (Hplace k Hk) as [<- <-]. by apply spec_pos_local. Qed.

Lemma store_chunk_len : 0 < zlen d -> file_len (store_chunk chunks index off d) = Z.max (file_len chunks) (pos + zlen d).
Proof.
  intros Hd. apply Z.le_antisymm.
  - apply file_len_le. pose proof (file_len_nonneg chunks). split; [lia|]. intros i o Hi Ho. unfold store_chunk in Ho.
    destruct (proj1 (file_len_le chunks _) (Z.le_refl _)) as [_ Hin].
    destruct (Z.eqb_spec i index) as [->|]; [|specialize (Hin i o Hi Ho); lia].
    rewrite zlen_write_at in Ho by done. destruct (decide (o < zlen (chunks index))) as [Hl|Hl].
    + specialize (Hin index o Hi). lia.
    + pose proof (spec_pos_mono index o (off + (zlen d - 1))). rewrite (place_pos (zlen d - 1)) in * by lia. lia.
  - destruct (proj1 (file_len_le (store_chunk chunks index off d) _) (Z.le_refl _)) as [HL H].
    apply Z.max_lub.
    + apply file_len_le. split; [done|]. intros i o Hi Ho. apply H; [done|]. unfold store_chunk.
      destruct (i =? index); [rewrite zlen_write_at by done|]; lia.
    + specialize (H index (off + (zlen d - 1)) Hindex). rewrite place_pos in H by lia. unfold store_chunk in H at 1.
      rewrite Z.eqb_refl, zlen_write_at in H by done. lia.
Qed.

Lemma store_chunk_byte p : 0 <= p ->
  chunk_byte (store_chunk chunks index off d) p = if (pos <=? p) && (p <? pos + zlen d) then byte_at d (p - pos) else chunk_byte chunks p.
Proof.
  intros Hp. unfold chunk_byte, store_chunk. pose proof (spec_local_nonneg p Hp).
  destruct (Z.leb_spec pos p), (Z.ltb_spec p (pos + zlen d)); cbn [andb];
    [destruct (Hplace (p - pos)) as [Ei El]; [lia|]; replace (pos + (p - pos)) with p in * by lia;
     rewrite Ei, El, Z.eqb_refl, byte_write_at by lia;
     rewrite (proj2 (Z.leb_le _ _)), (proj2 (Z.ltb_lt _ _)) by lia; cbn [andb]; f_equal; lia|..];
    (destruct (Z.eqb_spec (spec_index cs n p) index) as [Ei|]; [|done]; rewrite Ei, byte_write_at by done;
     destruct (Z.leb_spec off (spec_local cs n p)), (Z.ltb_spec (spec_local cs n p) (off + zlen d)); cbn [andb]; try done;
     pose proof (place_pos (spec_local cs n p - off)) as E;
     replace (off + (spec_local cs n p - off)) with (spec_local cs n p) in E by lia;
     rewrite <- Ei, spec_pos_local in E by done; lia).
Qed.

(** Data of a range inside of one chunk, stored in the chunk file, is the data of this range in the file. *)
Lemma store_chunk_file : file_of (store_chunk chunks index off d) = write_at (file_of chunks) pos d.
Proof.
  destruct (decide (zlen d = 0)) as [E|Hne].
  { destruct d; [|rewrite zlen_cons in E; pose proof (zlen_nonneg l); lia]. apply file_of_ext. intros i. unfold store_chunk.
    by destruct (i =? index). }
  pose proof (zlen_nonneg d). apply bytes_ext.
  - rewrite zlen_write_at, !zlen_file_of by lia. apply store_chunk_len. lia.
  - intros i Hi. rewrite byte_file_of, byte_write_at, byte_file_of by lia. apply store_chunk_byte. lia.
Qed.
End Store.
End Layout.

(** ** Files that differ in a range *)

Definition patched (off count : Z) (f f' : list byte) : Prop :=
  zlen f <= zlen f' /\ (zlen f' = zlen f \/ off < zlen f' <= off + count) /\
  forall i, 0 <= i -> i < off \/ off + count <= i -> byte_at f' i = byte_at f i.
(** The first [r] bytes of [data] are in the file at [off]. *)
Definition holds (f : list byte) (off : Z) (data : list byte) (r : Z) : Prop :=
  forall j, 0 <= j < r -> off + j < zlen f /\ byte_at f (off + j) = byte_at data j.

Lemma patched_refl off count f : patched off count f f.
Proof. unfold patched. split_and!; [lia|by left|done]. Qed.

Lemma patched_write off count f f' o d : 0 <= off <= o -> o + zlen d <= off + count ->
  patched off count f f' -> patched off count f (write_at f' o d).
Proof.
  intros Ho Hd (Hlen & Hend & Hb). destruct (decide (zlen d = 0)) as [E|Hne].
  { destruct d; [done|]. rewrite zlen_cons in E. pose proof (zlen_nonneg d). lia. }
  pose proof (zlen_nonneg d). unfold patched. rewrite zlen_write_at by lia. split; [lia|]. split; [lia|].
  intros i Hi Hout. rewrite byte_write_at by lia. destruct (Z.leb_spec o i), (Z.ltb_spec i (o + zlen d)); cbn [andb]; auto; lia.
Qed.

(** Such a file is the result of one write at [off]. *)
Lemma patched_mid off count f f' : 0 <= off -> 0 <= count -> patched off count f f' -> exists mid,
  f' = write_at f off mid /\ zlen mid <= count /\
  forall j, 0 <= j < count -> off + j < zlen f' -> j < zlen mid /\ byte_at mid j = byte_at f' (off + j).
Proof.
  intros Ho Hc (Hlen & Hend & Hb). set (m := Z.max 0 (Z.min (zlen f' - off) count)).
  exists (read_at f' off m). destruct (decide (m = 0)) as [E|Hne].
  { rewrite read_at_nonpos by lia. rewrite zlen_nil. cbn. split; [|split; [lia|intros; lia]].
    apply bytes_ext; [lia|]. intros i Hi. apply Hb; lia. }
  rewrite (zlen_read_full f') by lia. split; [|split; [lia|]].
  - apply bytes_ext; [rewrite zlen_write_at; rewrite ?zlen_read_full; lia|]. intros i Hi.
    rewrite byte_write_at, zlen_read_full by lia.
    destruct (Z.leb_spec off i), (Z.ltb_spec i (off + m)); cbn [andb]; [|apply Hb; lia..].
    rewrite byte_read_at by lia. f_equal. lia.
  - intros j Hj Hl. split; [lia|]. rewrite byte_read_at by lia. done.
Qed.

Lemma patched_write_law off data f f' r : 0 <= off -> r <= zlen data ->
  patched off (zlen data) f f' -> holds f' off data r -> write_law f off data r f'.
Proof.
  intros Ho Hr Hp Hh. pose proof (zlen_nonneg data). destruct (patched_mid off (zlen data) f f') as (mid & -> & Hm & Hmid); [lia..|done|].
  exists mid. split; [done|]. split; [done|]. split; [done|]. intros H0.
  assert (Hrm : r <= zlen mid).
  { destruct (decide (r = 0)); [pose proof (zlen_nonneg mid); lia|]. destruct (Hh (r - 1)) as [Hin _]; [lia|].
    destruct (Hmid (r - 1)); lia. }
  split; [done|]. change (read_at mid 0 r = read_at data 0 r).
  apply bytes_ext; [rewrite !zlen_read_full; lia|]. intros j Hj. rewrite zlen_read_full in Hj by lia.
  rewrite !byte_read_at, !Z.add_0_l by lia. destruct (Hh j Hj) as [Hin <-]. apply Hmid; [lia|done].
Qed.

Lemma holds_le f off data r r' : r' <= r -> holds f off data r -> holds f off data r'.
Proof. intros Hle H j Hj. apply H. lia. Qed.

Lemma holds_write f off data r r' q k : 0 <= off -> 0 <= q -> 0 <= k -> q + k <= zlen data ->
  (forall j, 0 <= j < r' -> j < r \/ q <= j < q + k) ->
  holds f off data r -> holds (write_at f (off + q) (read_at data q k)) off data r'.
Proof.
  intros Ho Hq Hk Hd Hr Hh j Hj. destruct (decide (k = 0)) as [->|].
  { rewrite read_at_nonpos by lia. apply Hh. destruct (Hr j Hj); lia. }
  rewrite zlen_write_at, byte_write_at, zlen_read_full by (rewrite ?zlen_read_full; lia).
  destruct (Z.leb_spec (off + q) (off + j)), (Z.ltb_spec (off + j) (off + q + k)); cbn [andb];
    [split; [lia|]; rewrite byte_read_at by lia; f_equal; lia|..];
    (destruct (Hh j) as [? ?]; [destruct (Hr j Hj); lia|]; split; [lia|done]).
Qed.

(** ** Results of the servers *)

(** The bytes before the first result that is not the expected one. *)
Fixpoint acknowledged (l : list (FileOpState * Z)) : Z :=
  match l with
  | [] => 0
  | (s, r) :: l' => if r =? fo_totalSize s then r + acknowledged l' else Z.max 0 r
  end.
Definition result_bounded (x : FileOpState * Z) : Prop := x.2 <= fo_totalSize x.1.

Lemma acknowledged_range p ids base l : forall lo hi,
  Forall (request_ok p ids base) l.*1 -> tiles lo l.*1 hi -> Forall result_bounded l -> 0 <= acknowledged l <= hi - lo.
Proof.
  induction l as [|[s r] l IH]; intros lo hi; cbn; [lia|]. intros [Hs Hl]%Forall_cons_iff [_ Ht] [Hr Hb]%Forall_cons_iff.
  pose proof (tiles_le _ _ _ _ _ _ Hl Ht). destruct Hs as (Hs & _). unfold result_bounded in Hr. cbn in Hr.
  specialize (IH _ _ Hl Ht Hb). destruct (Z.eqb_spec r (fo_totalSize s)); lia.
Qed.
Lemma acknowledged_app pre l : forall lo mid, all_expected pre -> tiles lo pre.*1 mid ->
  acknowledged (pre ++ l) = mid - lo + acknowledged l.
Proof.
  induction pre as [|[s r] pre IH]; intros lo mid; cbn; [intros _ ->; lia|]. intros [Hr Hp]%Forall_cons_iff [_ Ht]. cbn in Hr.
  rewrite (proj2 (Z.eqb_eq _ _)) by done. rewrite (IH _ _ Hp Ht). lia.
Qed.
Lemma acknowledged_all l lo hi : all_expected l -> tiles lo l.*1 hi -> acknowledged l = hi - lo.
Proof. intros Ha Ht. rewrite <- (app_nil_r l), (acknowledged_app l [] lo hi Ha Ht). cbn. lia. Qed.

Lemma verify_acknowledged l : forall acc, Forall result_bounded l -> 0 <= (verify_spec l acc).2 ->
  (verify_spec l acc).2 <= acc + acknowledged l.
Proof.
  induction l as [|[s r] l IH]; intros acc; cbn; [lia|]. intros [Hr Hb]%Forall_cons_iff. unfold result_bounded in Hr. cbn in Hr.
  destruct (Z.eqb_spec r (fo_totalSize s)); [specialize (IH (acc + r) Hb); lia|].
  destruct (Z.ltb_spec r 0); cbn; [lia|]. destruct (Z.ltb_spec r (fo_totalSize s)); lia.
Qed.
Lemma read_verify_acknowledged l : forall acc bytes err go, readfile_verify l acc = (bytes, err, go) ->
  bytes = acc + acknowledged l /\ err <= 0.
Proof.
  induction l as [|[s r] l IH]; intros acc bytes err go; cbn; [intros [= <- <- <-]; lia|].
  destruct (Z.eqb_spec r (fo_totalSize s)); [intros H; destruct (IH _ _ _ _ H); lia|].
  destruct (Z.leb_spec 0 r); intros [= <- <- <-]; lia.
Qed.

(** ** Requests and chunk files *)

(** A server stores the first bytes of a request in its chunk file ... *)
Definition store_request (data : list byte) (chunks : Chunks) (x : FileOpState * Z) : Chunks :=
  store_chunk chunks (fo_index x.1) (fo_offset x.1) (read_at data (fo_data x.1) x.2).
Definition store_requests (data : list byte) (l : list (FileOpState * Z)) (chunks : Chunks) : Chunks :=
  foldl (store_request data) chunks l.
(** ... at least as many as its result says. *)
Definition stored (x : FileOpState * Z) (k : Z) : Prop := 0 <= k <= fo_totalSize x.1 /\ x.2 <= k.

(** The bytes of a result are copied from the chunk file to the buffer of the caller. *)
Definition fill_request (chunks : Chunks) (buf : list byte) (x : FileOpState * Z) : list byte :=
  write_at buf (fo_data x.1) (read_at (chunks (fo_index x.1)) (fo_offset x.1) x.2).
Definition fill_requests (chunks : Chunks) (l : list (FileOpState * Z)) (buf : list byte) : list byte :=
  foldl (fill_request chunks) buf l.
(** A result is an error or a number of bytes that the chunk file has. *)
Definition returned (chunks : Chunks) (x : FileOpState * Z) : Prop :=
  result_bounded x /\ (0 <= x.2 -> zlen (read_at (chunks (fo_index x.1)) (fo_offset x.1) x.2) = x.2).

Definition striped_file (io : RemotingIOInfo) (ids : list Z) (chunks : Chunks) : list byte :=
  file_of (sp_chunkSize (io_pattern io)) (zlen ids) chunks.

Section Requests.
Context (io : RemotingIOInfo) (ids : list Z) (Hio : io_ok io ids) (base : Z) (Hbase : 0 <= base).
Notation ok := (request_ok (io_pattern io) ids base).
Notation file := (striped_file io ids).

Lemma layout_ok : 0 < sp_chunkSize (io_pattern io) /\ 0 < zlen ids.
Proof. pose proof (io_ok_cs _ _ Hio). destruct Hio as [_ _ Hn _]. lia. Qed.

Lemma request_place s : ok s -> 0 <= fo_data s ->
  0 <= fo_offset s /\ 0 <= fo_index s < zlen ids.
Proof.
  intros Hs Hd. destruct layout_ok. pose proof (index_in_range _ _ _ _ Hs). destruct Hs as (_ & _ & _ & -> & _).
  split; [apply spec_local_nonneg; lia|auto].
Qed.

Lemma store_request_file data chunks s k : ok s -> 0 <= fo_data s -> fo_data s + fo_totalSize s <= zlen data ->
  0 <= k <= fo_totalSize s ->
  file (store_request data chunks (s, k)) = write_at (file chunks) (base + fo_data s) (read_at data (fo_data s) k).
Proof.
  intros Hs Hd Hlen Hk. destruct layout_ok as [Hcs Hn]. destruct (request_place s Hs Hd).
  unfold striped_file, store_request. cbn [fst snd]. apply store_chunk_file; [lia..|]. intros j. rewrite zlen_read_full by lia. intros Hj.
  apply (request_bytes _ _ _ _ _ Hcs Hn Hs). lia.
Qed.

Lemma store_requests_file data f : forall l ks chunks lo hi,
  Forall ok l.*1 -> tiles lo l.*1 hi -> 0 <= lo -> hi <= zlen data -> Forall2 stored l ks ->
  patched base (zlen data) f (file chunks) ->
  let file' := file (store_requests data (zip l.*1 ks) chunks) in
  patched base (zlen data) f file' /\
  (forall r, holds (file chunks) base data r -> holds file' base data r) /\
  (holds (file chunks) base data lo -> holds file' base data (lo + acknowledged l)).
Proof.
  induction l as [|[s r] l IH]; intros ks chunks lo hi Hok Ht Hlo Hhi Hst Hp; cbn.
  { rewrite Z.add_0_r. done. }
  inversion Hst as [|? k ? ks' [Hk Hrk] Hst']; subst. cbn in *. destruct Ht as [<- Ht]. apply Forall_cons_iff in Hok as [Hs Hok].
  pose proof (tiles_le _ _ _ _ _ _ Hok Ht). pose proof Hs as (Hpos & _).
  pose proof (store_request_file data chunks s k Hs Hlo ltac:(lia) Hk) as Ef.
  set (chunks1 := store_request data chunks (s, k)) in *.
  assert (Hkeep : forall q q', (forall j, 0 <= j < q' -> j < q \/ fo_data s <= j < fo_data s + k) ->
    holds (file chunks) base data q -> holds (file chunks1) base data q').
  { intros q q' Hq Hh. rewrite Ef. apply holds_write with q; [lia..|done|done]. }
  destruct (IH ks' chunks1 (fo_data s + fo_totalSize s) hi Hok Ht) as (Hp' & Hh' & Ha'); [lia|done|done| |].
  { rewrite Ef. apply patched_write; [lia|rewrite zlen_read_full; lia|done]. }
  split; [done|]. split; [intros q Hq; apply Hh', (Hkeep q q); [lia|done]|].
  intros Hh. destruct (Z.eqb_spec r (fo_totalSize s)) as [->|Hne].
  - rewrite Z.add_assoc. apply Ha', (Hkeep (fo_data s)); [lia|done].
  - apply Hh', (Hkeep (fo_data s)); [lia|done].
Qed.

Lemma returned_bytes chunks s r : ok s -> 0 <= fo_data s -> returned chunks (s, r) -> forall j, 0 <= j < r ->
  base + fo_data s + j < zlen (file chunks) /\
  byte_at (file chunks) (base + fo_data s + j) = byte_at (read_at (chunks (fo_index s)) (fo_offset s) r) j.
Proof.
  intros Hs Hd [Hb Hl] j Hj. unfold result_bounded in Hb. cbn in Hb, Hl. destruct layout_ok as [Hcs Hn].
  destruct (request_place s Hs Hd). destruct (request_bytes _ _ _ _ j Hcs Hn Hs) as [Ei Eo]; [lia|].
  specialize (Hl ltac:(lia)). rewrite byte_read_at by lia. unfold striped_file. rewrite zlen_file_of, byte_file_of by lia.
  unfold chunk_byte. rewrite Ei, Eo. split; [|done]. apply chunk_byte_inside; [lia..|]. rewrite Ei, Eo.
  unfold read_at, zlen in Hl |- *. rewrite length_take, length_drop in Hl. lia.
Qed.

Lemma fill_requests_holds chunks count : forall l buf lo hi,
  Forall ok l.*1 -> tiles lo l.*1 hi -> 0 <= lo -> hi <= count -> Forall (returned chunks) l -> zlen buf = count ->
  let buf' := fill_requests chunks l buf in
  zlen buf' = count /\ (forall i, 0 <= i < lo -> byte_at buf' i = byte_at buf i) /\
  (holds (file chunks) base buf lo -> holds (file chunks) base buf' (lo + acknowledged l)).
Proof.
  induction l as [|[s r] l IH]; intros buf lo hi Hok Ht Hlo Hhi Hret Hbuf; cbn.
  { rewrite Z.add_0_r. done. }
  cbn in *. destruct Ht as [<- Ht]. apply Forall_cons_iff in Hok as [Hs Hok], Hret as [Hr Hret].
  pose proof (tiles_le _ _ _ _ _ _ Hok Ht). pose proof Hs as (Hpos & _).
  pose proof (returned_bytes chunks s r Hs Hlo Hr) as Hbytes. destruct Hr as [Hrb Hrl]. unfold result_bounded in Hrb. cbn in Hrb, Hrl.
  set (got := read_at (chunks (fo_index s)) (fo_offset s) r) in *.
  assert (Hgot : zlen got = Z.max 0 r).
  { destruct (decide (0 <= r)); [rewrite Hrl; lia|]. unfold got. rewrite read_at_nonpos, zlen_nil by lia. lia. }
  set (buf1 := fill_request chunks buf (s, r)) in *.
  assert (E1 : zlen buf1 = count).
  { unfold buf1, fill_request. cbn [fst snd]. fold got. destruct (decide (0 < r)); [rewrite zlen_write_at; lia|].
    destruct got; [done|]. rewrite zlen_cons in Hgot. pose proof (zlen_nonneg got). lia. }
  assert (Eb : forall i, 0 <= i -> byte_at buf1 i =
    if (fo_data s <=? i) && (i <? fo_data s + Z.max 0 r) then byte_at got (i - fo_data s) else byte_at buf i).
  { intros i Hi. unfold buf1, fill_request. cbn [fst snd]. fold got. by rewrite byte_write_at, Hgot by lia. }
  destruct (IH buf1 (fo_data s + fo_totalSize s) hi Hok Ht) as (El & Hkeep & Hh); [lia|done|done|done|].
  split; [done|]. split.
  { intros i Hi. rewrite Hkeep, Eb by lia. by rewrite (proj2 (Z.leb_gt _ _)) by lia. }
  intros Hold.
  assert (Hnew : holds (file chunks) base buf1 (fo_data s + Z.max 0 r)).
  { intros j Hj. rewrite Eb by lia. destruct (Z.leb_spec (fo_data s) j), (Z.ltb_spec j (fo_data s + Z.max 0 r)); cbn [andb]; try lia.
    - specialize (Hbytes (j - fo_data s)). replace (base + fo_data s + (j - fo_data s)) with (base + j) in Hbytes by lia. apply Hbytes. lia.
    - apply Hold. lia. }
  destruct (Z.eqb_spec r (fo_totalSize s)) as [->|Hne].
  - rewrite Z.add_assoc. apply Hh. by replace (fo_data s + fo_totalSize s) with (fo_data s + Z.max 0 (fo_totalSize s)) by lia.
  - intros j Hj. destruct (Hnew j Hj) as [? ->]. split; [done|]. symmetry. apply Hkeep. lia.
Qed.
End Requests.

(** ** Properties *)

Section Laws.
Context (alloc : nat -> nat -> bool) (communicate : nat -> FileOpState -> Z).
Context (io : RemotingIOInfo) (ids : list Z) (Hio : io_ok io ids).
Context (fuel : nat) (offset : Z) (Hoffset : 0 <= offset) (chunks : Chunks).

Lemma stored_bounded l ks : Forall2 stored l ks -> Forall result_bounded l.
Proof. intros H. eapply Forall2_Forall_l; [exact H|]. apply Forall_forall. intros k _ x [? ?]. unfold result_bounded. lia. Qed.

Lemma write_outcome_acknowledged p count hi retVal l :
  Forall (request_ok p ids offset) l.*1 -> tiles 0 l.*1 hi -> 0 <= hi <= count -> Forall result_bounded l ->
  write_outcome count hi retVal l -> retVal <= count /\ (0 <= retVal -> retVal <= acknowledged l).
Proof.
  intros Hreq Ht Hhi Hb. pose proof (acknowledged_range _ _ _ _ _ _ Hreq Ht Hb) as Hack.
  intros [(Ha & -> & ->)|(pre & last & -> & Hpre & Hver)].
  - rewrite (acknowledged_all l 0 count Ha Ht). lia.
  - rewrite fmap_app in Ht, Hreq. apply tiles_app in Ht as (mid & Ht1 & Ht2). apply Forall_app in Hreq as [Hr1 _], Hb as [_ Hb].
    pose proof (tiles_le _ _ _ _ _ _ Hr1 Ht1). rewrite (acknowledged_app pre last 0 mid Hpre Ht1) in *.
    pose proof (verify_acknowledged last 0 Hb) as Hv. rewrite Hver in Hv. cbn in Hv. lia.
Qed.

Lemma read_outcome_acknowledged sinks p count hi retVal l :
  Forall (request_ok p ids offset) l.*1 -> tiles 0 l.*1 hi -> 0 <= hi <= count -> Forall result_bounded l ->
  read_outcome alloc sinks 0 count hi retVal l -> retVal <= count /\ (0 <= retVal -> retVal <= acknowledged l).
Proof.
  intros Hreq Ht Hhi Hb. pose proof (acknowledged_range _ _ _ _ _ _ Hreq Ht Hb) as Hack.
  intros [(Ha & -> & ->)|[(Ha & _ & ->)|(pre & last & mid & bytes & err & -> & Hpre & Ht1 & Hver & ->)]].
  - rewrite (acknowledged_all l 0 count Ha Ht). lia.
  - rewrite (acknowledged_all l 0 hi Ha Ht). unfold FhgfsOpsErr_OUTOFMEM. destruct (Z.eqb_spec hi 0); lia.
  - destruct (read_verify_acknowledged _ _ _ _ _ Hver) as [-> Herr]. rewrite (acknowledged_app pre last 0 mid Hpre Ht1) in *.
    destruct (Z.eqb_spec (mid + (0 + acknowledged last)) 0); lia.
Qed.

Lemma striped_write_law data ser : (forall round, alloc round O = true) ->
  offset + zlen data < 2 ^ 63 - 2 ^ 32 -> zlen data <= Z.of_nat fuel ->
  exists res, FhgfsOpsRemoting_writefileVec alloc communicate fuel (zlen data) offset io ser = Some res /\
    forall ks, Forall2 stored (r_trace res) ks ->
    write_law (striped_file io ids chunks) offset data (r_retVal res)
      (striped_file io ids (store_requests data (zip (r_trace res).*1 ks) chunks)).
Proof.
  intros Ha Hmax Hfuel. pose proof (zlen_nonneg data). unfold FhgfsOpsRemoting_writefileVec. rewrite (io_ids _ _ Hio). cbn [mbind option_bind].
  edestruct (writefile_rounds_spec alloc communicate ser ids offset (zlen data) Ha fuel 0 io
    (MkIOPos offset (zlen data) 0 (io_maxUsedTargetIndex io)) [] Hio)
    as (res & new & hi & Hres & Htr & _ & Hreq & Htl & Hhi & Hout & _); [unfold pos_ok; cbn; lia|done|].
  cbn in Htr, Htl, Hhi. subst new. exists res. split; [done|]. intros ks Hks.
  pose proof (stored_bounded _ _ Hks) as Hb.
  destruct (write_outcome_acknowledged _ _ _ _ _ Hreq Htl Hhi Hb Hout) as [Hr1 Hr2].
  destruct (store_requests_file io ids Hio offset Hoffset data (striped_file io ids chunks) _ ks chunks 0 hi Hreq Htl)
    as (Hp & _ & Hh); [lia|lia|done|apply patched_refl|].
  apply patched_write_law; [done|done|done|]. destruct (decide (0 <= r_retVal res)) as [Hpos|Hneg]; [|intros j ?; lia].
  eapply holds_le, Hh; [|intros j ?; lia]. cbn. auto.
Qed.

Lemma striped_read_law fhgfsInode sinks buf count : (forall r, sink_ok (sinks r)) ->
  0 <= count <= zlen buf -> offset + count < 2 ^ 63 - 2 ^ 32 -> count <= Z.of_nat fuel ->
  exists res, FhgfsOpsRemoting_readfileVec alloc communicate fhgfsInode sinks fuel (zlen buf) count offset io = Some res /\
    (Forall (returned chunks) (r_trace res) ->
     read_law (striped_file io ids chunks) offset count (r_retVal res)
       (take (Z.to_nat (r_retVal res)) (fill_requests chunks (r_trace res) buf))).
Proof.
  intros Hsinks Hc Hmax Hfuel. unfold FhgfsOpsRemoting_readfileVec. rewrite (io_ids _ _ Hio). cbn [mbind option_bind].
  edestruct (readfile_rounds_spec alloc communicate fhgfsInode sinks ids offset count io Hio Hsinks fuel 0
    (MkIOPos offset count 0 (io_maxUsedTargetIndex io)) (zlen buf) [])
    as (res & new & hi & Hres & Htr & Hreq & Htl & Hhi & Hout); [unfold pos_ok; cbn; lia|cbn; lia|cbn; lia|].
  cbn in Htr, Htl, Hhi, Hout. subst new. exists res. split; [done|]. intros Hret.
  assert (Hb : Forall result_bounded (r_trace res)) by (revert Hret; apply Forall_impl; by intros x [? _]).
  destruct (read_outcome_acknowledged _ _ _ _ _ _ Hreq Htl Hhi Hb Hout) as [Hr1 Hr2].
  destruct (fill_requests_holds io ids Hio offset Hoffset chunks (zlen buf) _ buf 0 hi Hreq Htl) as (El & _ & Hh);
    [lia|lia|done|done|].
  set (buf' := fill_requests chunks (r_trace res) buf) in *. change (take _ buf') with (read_at buf' 0 (r_retVal res)).
  destruct (decide (0 <= r_retVal res)) as [Hpos|Hneg].
  2: { rewrite read_at_nonpos by lia. split; [rewrite zlen_nil; lia|]. split; [done|lia]. }
  assert (Hholds : holds (striped_file io ids chunks) offset buf' (r_retVal res)) by (eapply holds_le, Hh; [auto|intros j ?; lia]).
  assert (Hlen : r_retVal res <> 0 -> offset + r_retVal res <= zlen (striped_file io ids chunks)).
  { intros Hne. destruct (Hholds (r_retVal res - 1)); lia. }
  split; [rewrite zlen_read_full; lia|]. split; [done|]. intros _. split; [|apply zlen_read_full; lia].
  destruct (decide (r_retVal res = 0)) as [->|Hne]; [by rewrite !read_at_nonpos|].
  apply bytes_ext; [rewrite !zlen_read_full; lia|]. intros j. rewrite zlen_read_full by lia. intros Hj.
  rewrite !byte_read_at, Z.add_0_l by lia. symmetry. by apply Hholds.
Qed.
End Laws.

(** C3: a file that is striped over chunk files behaves as one list of bytes: the laws of one write and one read that the
    file cache assumes of its remote operations ([eo_write], [eo_read]; that writes and reads make progress, and
    that appending is atomic, are further assumptions of the cache).  For all results of the servers and all
    numbers of bytes they stored (at least their result, for each request), a striped write returns, changes only
    its range of the file, and a value that is not an error is a number of bytes from the start of the data that are in the
    file afterwards.  A striped read into a buffer that is not a pipe, or into a pipe that has room for all that a round asks
    for or for nothing, returns, and if the results are errors or numbers of bytes that the chunk files have, a
    value that is not an error is the number of bytes in the buffer, and they are the bytes of the file at the
    offset. *)
Theorem striped_file_laws alloc communicate fhgfsInode sinks io ids fuel offset chunks :
  io_ok io ids -> 0 <= offset -> (forall round, alloc round O = true) -> (forall r, sink_ok (sinks r)) ->
  (forall data serializeWrites, offset + zlen data < 2 ^ 63 - 2 ^ 32 -> zlen data <= Z.of_nat fuel ->
    exists res, FhgfsOpsRemoting_writefileVec alloc communicate fuel (zlen data) offset io serializeWrites = Some res /\
      forall ks, Forall2 stored (r_trace res) ks ->
      write_law (striped_file io ids chunks) offset data (r_retVal res)
        (striped_file io ids (store_requests data (zip (r_trace res).*1 ks) chunks))) /\
  (forall buf count, 0 <= count <= zlen buf -> offset + count < 2 ^ 63 - 2 ^ 32 -> count <= Z.of_nat fuel ->
    exists res, FhgfsOpsRemoting_readfileVec alloc communicate fhgfsInode sinks fuel (zlen buf) count offset io = Some res /\
      (Forall (returned chunks) (r_trace res) ->
       read_law (striped_file io ids chunks) offset count (r_retVal res)
         (take (Z.to_nat (r_retVal res)) (fill_requests chunks (r_trace res) buf)))).
Proof.
  intros Hio Ho Ha Hsinks. split.
  - intros data ser Hmax Hfuel. by apply striped_write_law.
  - intros buf count Hc Hmax Hfuel. by apply striped_read_law.
Qed.

(** Chunks of four bytes on three targets: 13 bytes are written at position 3 of a file of six bytes, and the server of the
    last request stores three of its four bytes and reports two.  A read of six bytes at position 3 gets the first byte
    and those of the second chunk that exist. *)
Definition sample_chunks : Chunks := fun i =>
  if i =? 0 then [Byte.x41; Byte.x42; Byte.x43; Byte.x44] else if i =? 1 then [Byte.x45; Byte.x46] else [].
Definition sample_data : list byte := replicate 13 Byte.x7a.

Lemma striped_file_laws_witness :
  (exists res,
    FhgfsOpsRemoting_writefileVec (fun _ _ => true) (fun _ s => if fo_data s =? 9 then 2 else fo_totalSize s) 13 13 3
      io_example false = Some res /\ r_retVal res = 2 /\
    write_law (striped_file io_example [11; 12; 13] sample_chunks) 3 sample_data 2
      (striped_file io_example [11; 12; 13] (store_requests sample_data (zip (r_trace res).*1 [1; 4; 4; 3]) sample_chunks)) /\
    striped_file io_example [11; 12; 13] (store_requests sample_data (zip (r_trace res).*1 [1; 4; 4; 3]) sample_chunks)
      = [Byte.x41; Byte.x42; Byte.x43] ++ replicate 12 Byte.x7a) /\
  (exists res,
    FhgfsOpsRemoting_readfileVec (fun _ _ => true) (fun _ s => if fo_data s =? 1 then 2 else fo_totalSize s) None (fun _ => Sink_pipe (sample_pipe true)) 13 6 5 3
      io_example = Some res /\ r_retVal res = 3 /\
    read_law (striped_file io_example [11; 12; 13] sample_chunks) 3 5 3 [Byte.x44; Byte.x45; Byte.x46]).
Proof.
  split.
  - destruct (proj1 (striped_file_laws (fun _ _ => true) (fun _ s => if fo_data s =? 9 then 2 else fo_totalSize s) None (fun _ => Sink_plain) io_example
      [11; 12; 13] 13 3 sample_chunks io_example_ok ltac:(lia) (fun _ => eq_refl) (fun _ => I)) sample_data false ltac:(done) ltac:(done)) as (res & E & H).
    exists res. split; [exact E|]. vm_compute in E. injection E as <-. split; [reflexivity|]. split; [|vm_compute; reflexivity].
    apply (H [1; 4; 4; 3]). repeat constructor; cbn; lia.
  - destruct (proj2 (striped_file_laws (fun _ _ => true) (fun _ s => if fo_data s =? 1 then 2 else fo_totalSize s) None
      (fun _ => Sink_pipe (sample_pipe true)) io_example
      [11; 12; 13] 13 3 sample_chunks io_example_ok ltac:(lia) (fun _ => eq_refl) (fun _ => sample_pipe_ok true)) (replicate 6 Byte.x00) 5 ltac:(done) ltac:(done) ltac:(done))
      as (res & E & H).
    exists res. split; [exact E|]. vm_compute in E. injection E as <-. split; [reflexivity|].
    refine (H _). repeat (constructor; [split; [unfold result_bounded; cbn; lia|intros _; reflexivity]|]). constructor.
Defined.
