(* ===== verification/PageVec.v ===== *)
(** * Pages and page vectors

    Models [toolkit/FhgfsPage.h], [toolkit/FhgfsPageListVec.h], [toolkit/FhgfsChunkPageVec.h] and [.c], and the functions
    of [filesystem/FhgfsOpsPages.c] that end the I/O of a page, in [client_module/source].

    A page vector collects consecutive pages of one chunk for one request.  It is a list of arrays of 32
    pages with an iterator, whose parts (array, index in it, index over all) are kept apart.  The pages are objects of the
    kernel: [PagesWorld] holds their flags and contents.  [None] is what stops the kernel or is undefined: the end of writeback
    or the unlocking of a page that is not in this state, the use of an array element that was never set. *)

From S2P Require Import Prelude StorageErrors Remoting.

(** ** Pages of the kernel *)

Record Page := MkPage {
  pg_index : Z;
  pg_data : list byte;
  pg_mapped : bool;
  pg_locked : bool;
  pg_writeback : bool;
  pg_dirty : bool;
  pg_uptodate : bool;
  pg_wbError : option Z;
  pg_refs : Z
}.
Definition pg_set_data (d : list byte) (p : Page) : Page :=
  MkPage (pg_index p) d (pg_mapped p) (pg_locked p) (pg_writeback p) (pg_dirty p) (pg_uptodate p) (pg_wbError p) (pg_refs p).
Definition pg_set_mapped (b : bool) (p : Page) : Page :=
  MkPage (pg_index p) (pg_data p) b (pg_locked p) (pg_writeback p) (pg_dirty p) (pg_uptodate p) (pg_wbError p) (pg_refs p).
Definition pg_set_locked (b : bool) (p : Page) : Page :=
  MkPage (pg_index p) (pg_data p) (pg_mapped p) b (pg_writeback p) (pg_dirty p) (pg_uptodate p) (pg_wbError p) (pg_refs p).
Definition pg_set_writeback (b : bool) (p : Page) : Page :=
  MkPage (pg_index p) (pg_data p) (pg_mapped p) (pg_locked p) b (pg_dirty p) (pg_uptodate p) (pg_wbError p) (pg_refs p).
Definition pg_set_dirty (p : Page) : Page :=
  MkPage (pg_index p) (pg_data p) (pg_mapped p) (pg_locked p) (pg_writeback p) true (pg_uptodate p) (pg_wbError p) (pg_refs p).
Definition pg_set_uptodate (b : bool) (p : Page) : Page :=
  MkPage (pg_index p) (pg_data p) (pg_mapped p) (pg_locked p) (pg_writeback p) (pg_dirty p) b (pg_wbError p) (pg_refs p).
Definition pg_set_wbError (err : Z) (p : Page) : Page :=
  MkPage (pg_index p) (pg_data p) (pg_mapped p) (pg_locked p) (pg_writeback p) (pg_dirty p) (pg_uptodate p) (Some err) (pg_refs p).
Definition pg_add_refs (d : Z) (p : Page) : Page :=
  MkPage (pg_index p) (pg_data p) (pg_mapped p) (pg_locked p) (pg_writeback p) (pg_dirty p) (pg_uptodate p) (pg_wbError p) (pg_refs p + d).

(** The pages, and of their inode the size, the number of dirty pages, the error flag, and the sizes that the next requests for
    its attributes will bring (without one, the size stays). *)
Record PagesWorld := MkPagesWorld {
  pw_pages : gmap nat Page;
  pw_isize : Z;
  pw_numDirtyPages : Z;
  pw_writePageError : bool;
  pw_refreshes : list Z
}.
Definition pw_set_pages (m : gmap nat Page) (w : PagesWorld) : PagesWorld :=
  MkPagesWorld m (pw_isize w) (pw_numDirtyPages w) (pw_writePageError w) (pw_refreshes w).
Definition pw_set_isize (size : Z) (w : PagesWorld) : PagesWorld :=
  MkPagesWorld (pw_pages w) size (pw_numDirtyPages w) (pw_writePageError w) (pw_refreshes w).
Definition FhgfsInode_decNumDirtyPages (w : PagesWorld) : PagesWorld :=
  MkPagesWorld (pw_pages w) (pw_isize w) (pw_numDirtyPages w - 1) (pw_writePageError w) (pw_refreshes w).
Definition FhgfsInode_setWritePageError (w : PagesWorld) : PagesWorld :=
  MkPagesWorld (pw_pages w) (pw_isize w) (pw_numDirtyPages w) true (pw_refreshes w).
Definition __FhgfsOps_doRefreshInode (w : PagesWorld) : PagesWorld :=
  match pw_refreshes w with
  | [] => w
  | size :: rest => MkPagesWorld (pw_pages w) size (pw_numDirtyPages w) (pw_writePageError w) rest
  end.

(** An operation of the kernel on a page: [ok] must hold of it. *)
Definition on_page (ok : Page -> bool) (f : Page -> Page) (page : nat) (w : PagesWorld) : option PagesWorld :=
  p ← pw_pages w !! page; if ok p then Some (pw_set_pages (<[page := f p]> (pw_pages w)) w) else None.
Definition any_page (_ : Page) : bool := true.
Definition kmap : nat -> PagesWorld -> option PagesWorld := on_page any_page (pg_set_mapped true).
Definition kunmap : nat -> PagesWorld -> option PagesWorld := on_page pg_mapped (pg_set_mapped false).
Definition unlock_page : nat -> PagesWorld -> option PagesWorld := on_page pg_locked (pg_set_locked false).
Definition end_page_writeback : nat -> PagesWorld -> option PagesWorld := on_page pg_writeback (pg_set_writeback false).
Definition set_page_dirty : nat -> PagesWorld -> option PagesWorld := on_page any_page pg_set_dirty.
Definition SetPageUptodate : nat -> PagesWorld -> option PagesWorld := on_page any_page (pg_set_uptodate true).
Definition fhgfs_set_wb_error (page : nat) (err : Z) : PagesWorld -> option PagesWorld := on_page any_page (pg_set_wbError err) page.
Definition put_page : nat -> PagesWorld -> option PagesWorld := on_page (fun p => 0 <? pg_refs p) (pg_add_refs (-1)).

(** ** Pages of a request *)

Record FhgfsPage := MkFhgfsPage { fp_page : nat; fp_length : Z }.

Definition FhgfsPage_unmapUnlockReleasePage (page : nat) (w : PagesWorld) : option PagesWorld :=
  w ← kunmap page w; w ← unlock_page page w; put_page page w.
Definition FhgfsPage_unmapUnlockReleaseFhgfsPage (this : FhgfsPage) : PagesWorld -> option PagesWorld :=
  FhgfsPage_unmapUnlockReleasePage (fp_page this).
Definition FhgfsPage_getPageIndex (this : FhgfsPage) (w : PagesWorld) : option Z := pg_index <$> pw_pages w !! fp_page this.
Definition FhgfsPage_getFileOffset (this : FhgfsPage) (w : PagesWorld) : option Z :=
  index ← FhgfsPage_getPageIndex this w; Some (s64 (index * PAGE_SIZE)).
(** The page must be mapped to be accessed through [data]. *)
Definition FhgfsPage_zeroPage (this : FhgfsPage) : PagesWorld -> option PagesWorld :=
  on_page pg_mapped (pg_set_data (replicate (Z.to_nat PAGE_SIZE) Byte.x00)) (fp_page this).

(** ** Arrays of pages *)

Definition BEEGFS_LIST_VEC_MAX_PAGES : Z := 32.

(** The result of the allocation from the cache, and of that from the pool if there is one. The value tells whether the pool
    was used. *)
Definition FhgfsPageListVec_create (cacheOk : bool) (pageVecPool : option bool) : option bool :=
  if cacheOk then Some false else match pageVecPool with Some true => Some true | _ => None end.
(** The array holds its used pages; the inner result tells whether there was room. *)
Definition FhgfsPageListVec_pushPage (this : list FhgfsPage) (page : nat) (usedPageLength : Z) (w : PagesWorld) :
    option (bool * list FhgfsPage * PagesWorld) :=
  if zlen this =? BEEGFS_LIST_VEC_MAX_PAGES then Some (false, this, w)
  else w ← kmap page w; Some (true, this ++ [MkFhgfsPage page usedPageLength], w).
Definition FhgfsPageListVec_getFhgfsPage (this : list FhgfsPage) (index : Z) : option FhgfsPage := this !! Z.to_nat index.

(** ** Page vectors *)

(** [pv_pageListVecHead]: the arrays; the last one is [lastAllocListVec].  [pv_currentIterListVec] is the number of an array. *)
Record FhgfsChunkPageVec := MkChunkPageVec {
  pv_poolAlloc : bool;
  pv_numChunkPages : Z;
  pv_size : Z;
  pv_pageListVecHead : list (list FhgfsPage);
  pv_currentIterListVec : nat;
  pv_currentVecIdx : Z;
  pv_currentListVecIterIdx : Z;
  pv_lastPageUsedDataSize : Z;
  pv_firstPageFileOffset : Z;
  pv_firstPageChunkOffset : Z;
  pv_firstPageIdx : Z;
  pv_lastPageIdx : Z
}.
Definition pv_set_iter (vec : nat) (idx iter : Z) (this : FhgfsChunkPageVec) : FhgfsChunkPageVec :=
  MkChunkPageVec (pv_poolAlloc this) (pv_numChunkPages this) (pv_size this) (pv_pageListVecHead this) vec idx iter
    (pv_lastPageUsedDataSize this) (pv_firstPageFileOffset this) (pv_firstPageChunkOffset this) (pv_firstPageIdx this) (pv_lastPageIdx this).
Definition pv_set_vecs (vecs : list (list FhgfsPage)) (this : FhgfsChunkPageVec) : FhgfsChunkPageVec :=
  MkChunkPageVec (pv_poolAlloc this) (pv_numChunkPages this) (pv_size this) vecs (pv_currentIterListVec this) (pv_currentVecIdx this)
    (pv_currentListVecIterIdx this) (pv_lastPageUsedDataSize this) (pv_firstPageFileOffset this) (pv_firstPageChunkOffset this)
    (pv_firstPageIdx this) (pv_lastPageIdx this).
Definition pv_set_pool (this : FhgfsChunkPageVec) : FhgfsChunkPageVec :=
  MkChunkPageVec true (pv_numChunkPages this) (pv_size this) (pv_pageListVecHead this) (pv_currentIterListVec this) (pv_currentVecIdx this)
    (pv_currentListVecIterIdx this) (pv_lastPageUsedDataSize this) (pv_firstPageFileOffset this) (pv_firstPageChunkOffset this)
    (pv_firstPageIdx this) (pv_lastPageIdx this).

Definition FhgfsChunkPageVec_addPageListVec (cacheOk : bool) (pageVecPool : option bool) (this : FhgfsChunkPageVec) :
    Z * FhgfsChunkPageVec :=
  match FhgfsPageListVec_create cacheOk pageVecPool with
  | None => (- ENOMEM, this)
  | Some isPoolAlloc =>
      let this := if isPoolAlloc then pv_set_pool this else this in
      let this := match pv_pageListVecHead this with [] => pv_set_iter 0 0 0 this | _ => this end in
      (0, pv_set_vecs (pv_pageListVecHead this ++ [[]]) this)
  end.

(** [memory]: the contents of the allocated object. *)
Definition FhgfsChunkPageVec_init (memory : FhgfsChunkPageVec) (cacheOk poolOk : bool) (numChunkPages : Z) : Z * FhgfsChunkPageVec :=
  FhgfsChunkPageVec_addPageListVec cacheOk (Some poolOk)
    (MkChunkPageVec false numChunkPages 0 [] (pv_currentIterListVec memory) (pv_currentVecIdx memory) (pv_currentListVecIterIdx memory)
      (pv_lastPageUsedDataSize memory) (pv_firstPageFileOffset memory) 0 (pv_firstPageIdx memory) (pv_lastPageIdx memory)).
Definition FhgfsChunkPageVec_create (allocOk : bool) (memory : FhgfsChunkPageVec) (cacheOk poolOk : bool) (numChunkPages : Z) :
    option FhgfsChunkPageVec :=
  if negb allocOk then None
  else let '(initErr, this) := FhgfsChunkPageVec_init memory cacheOk poolOk numChunkPages in
    if initErr =? 0 then Some this else None.

(** The arrays are destroyed, the last first: each with the place it goes back to, the pool ([true]) or the cache. *)
Definition FhgfsChunkPageVec_uninit (this : FhgfsChunkPageVec) : list (bool * list FhgfsPage) * FhgfsChunkPageVec :=
  ((fun listVec => (pv_poolAlloc this, listVec)) <$> reverse (pv_pageListVecHead this), pv_set_vecs [] this).

Definition FhgfsChunkPageVec_getFirstPageListVec (this : FhgfsChunkPageVec) : option (list FhgfsPage) := head (pv_pageListVecHead this).
Definition _FhgfsChunkPageVec_getChunkPageOffset (this : FhgfsChunkPageVec) (index : Z) : Z :=
  u32 (Z.land index (u32 (pv_numChunkPages this - 1))).

(** A page in the last array. *)
Definition pv_push_last (page : nat) (usedPageLength : Z) (this : FhgfsChunkPageVec) (w : PagesWorld) :
    option (bool * FhgfsChunkPageVec * PagesWorld) :=
  let vecs := pv_pageListVecHead this in
  lastAlloc ← vecs !! pred (length vecs);
  '(ok, lastAlloc, w) ← FhgfsPageListVec_pushPage lastAlloc page usedPageLength w;
  Some (ok, pv_set_vecs (<[pred (length vecs) := lastAlloc]> vecs) this, w).
Definition pv_count_page (index usedPageLength : Z) (this : FhgfsChunkPageVec) : FhgfsChunkPageVec :=
  let first := pv_size this =? 0 in
  MkChunkPageVec (pv_poolAlloc this) (pv_numChunkPages this) (u32 (pv_size this + 1)) (pv_pageListVecHead this) (pv_currentIterListVec this)
    (pv_currentVecIdx this) (pv_currentListVecIterIdx this) (u64 usedPageLength)
    (if first then s64 (index * PAGE_SIZE) else pv_firstPageFileOffset this)
    (if first then _FhgfsChunkPageVec_getChunkPageOffset this index else pv_firstPageChunkOffset this)
    (if first then index else pv_firstPageIdx this) index.
Definition FhgfsChunkPageVec_pushPage (cacheOk : bool) (page : nat) (usedPageLength : Z) (this : FhgfsChunkPageVec) (w : PagesWorld) :
    option (bool * FhgfsChunkPageVec * PagesWorld) :=
  p ← pw_pages w !! page;
  let index := pg_index p in
  if u32 (pv_size this + pv_firstPageChunkOffset this) =? pv_numChunkPages this then Some (false, this, w)
  else if negb (pv_size this =? 0) && negb (u64 (pv_lastPageIdx this + 1) =? index) then Some (false, this, w)
  else
    '(pushSuccess, this, w) ← pv_push_last page usedPageLength this w;
    if (pushSuccess : bool) then Some (true, pv_count_page index usedPageLength this, w)
    else
      let '(listVecAddRes, this) := FhgfsChunkPageVec_addPageListVec cacheOk None this in
      if negb (listVecAddRes =? 0) then Some (false, this, w)
      else
        '(pushSuccess, this, w) ← pv_push_last page usedPageLength this w;
        if (pushSuccess : bool) then Some (true, pv_count_page index usedPageLength this, w) else Some (false, this, w).

Definition FhgfsChunkPageVec_getSize (this : FhgfsChunkPageVec) : Z := pv_size this.
Definition FhgfsChunkPageVec_getFirstPageFileOffset (this : FhgfsChunkPageVec) : Z := pv_firstPageFileOffset this.
Definition FhgfsChunkPageVec_getCurrentListVecIterIdx (this : FhgfsChunkPageVec) : Z := pv_currentListVecIterIdx this.

(** The inner [None] is the NULL pointer at the end. *)
Definition FhgfsChunkPageVec_iterateGetNextPage (this : FhgfsChunkPageVec) : option (option FhgfsPage * FhgfsChunkPageVec) :=
  if pv_currentListVecIterIdx this =? pv_size this then Some (None, this)
  else
    let vecs := pv_pageListVecHead this in
    let take_page (cur : nat) (idx : Z) :=
      vec ← vecs !! cur;
      page ← FhgfsPageListVec_getFhgfsPage vec idx;
      Some (Some page, pv_set_iter cur (u64 (idx + 1)) (u64 (pv_currentListVecIterIdx this + 1)) this) in
    if pv_currentVecIdx this =? BEEGFS_LIST_VEC_MAX_PAGES then
      if (S (pv_currentIterListVec this) =? length vecs)%nat then Some (None, this)
      else take_page (S (pv_currentIterListVec this)) 0
    else take_page (pv_currentIterListVec this) (pv_currentVecIdx this).
Definition FhgfsChunkPageVec_resetIterator (this : FhgfsChunkPageVec) : FhgfsChunkPageVec := pv_set_iter 0 0 0 this.

(** [unsigned] minus one, then [size_t]. *)
Definition FhgfsChunkPageVec_getDataSize (this : FhgfsChunkPageVec) : Z :=
  u64 (u32 (pv_size this - 1) * PAGE_SIZE + pv_lastPageUsedDataSize this).
Definition FhgfsChunkPageVec_getRemainingDataSize (this : FhgfsChunkPageVec) : Z :=
  let remainingPages := u64 (pv_size this - pv_currentListVecIterIdx this) in
  u64 (u64 (remainingPages - 1) * PAGE_SIZE + pv_lastPageUsedDataSize this).

(** ** The end of the I/O of a page *)

Definition FhgfsOpsPages_endWritePage (page : nat) (writeRes : Z) (w : PagesWorld) : option PagesWorld :=
  w ← kunmap page w;
  w ← (if writeRes <=? 0 then
         if (writeRes =? - EAGAIN) || (writeRes =? 0) then set_page_dirty page w
         else w ← fhgfs_set_wb_error page writeRes w; Some (FhgfsInode_decNumDirtyPages w)
       else Some (FhgfsInode_decNumDirtyPages w));
  w ← end_page_writeback page w;
  unlock_page page w.

(** The size after it was corrected for data that were read behind it. *)
Definition __FhgfsOpsPages_incInodeFileSizeOnPagedRead (offset readRes : Z) (w : PagesWorld) : PagesWorld :=
  let w := __FhgfsOps_doRefreshInode w in
  if negb (readRes =? 0) && (pw_isize w <? offset + readRes) then
    let w := __FhgfsOps_doRefreshInode w in
    if pw_isize w <? offset + readRes then pw_set_isize (offset + readRes) w else w
  else w.
Definition FhgfsOpsPages_incInodeFileSizeOnPagedRead (offset readRes : Z) (w : PagesWorld) : PagesWorld :=
  if readRes <=? 0 then w
  else if pw_isize w <? offset + readRes then __FhgfsOpsPages_incInodeFileSizeOnPagedRead offset readRes w
  else w.

Definition PAGE_SHIFT : Z := 12.
Definition FhgfsOpsPages_isShortRead (pageIndex : Z) (needInodeRefresh : bool) (w : PagesWorld) : bool * PagesWorld :=
  let w := if needInodeRefresh && (Z.shiftr (pw_isize w) PAGE_SHIFT <? pageIndex) then __FhgfsOps_doRefreshInode w else w in
  (pageIndex <? Z.shiftr (pw_isize w) PAGE_SHIFT, w).

Definition FhgfsOpsPages_endReadPage (fhgfsPage : FhgfsPage) (readRes : Z) (w : PagesWorld) : option PagesWorld :=
  let page := fp_page fhgfsPage in
  offset ← FhgfsPage_getFileOffset fhgfsPage w;
  let w := FhgfsOpsPages_incInodeFileSizeOnPagedRead offset readRes w in
  w ← (if readRes <? 0 then fhgfs_set_wb_error page readRes w
       else
         w ← (if negb (readRes =? 0) && (readRes <? PAGE_SIZE) then
                on_page pg_mapped (fun p => pg_set_data (take (Z.to_nat readRes) (pg_data p) ++
                  replicate (Z.to_nat (PAGE_SIZE - readRes)) Byte.x00) p) page w
              else Some w);
         SetPageUptodate page w);
  FhgfsPage_unmapUnlockReleasePage page w.

(** The loops over the pages that the iterator has not passed; [fuel]: more than there are. *)
Fixpoint FhgfsChunkPageVec_iterateAllHandleWritePages (fuel : nat) (writeRes : Z) (this : FhgfsChunkPageVec) (w : PagesWorld) :
    option (FhgfsChunkPageVec * PagesWorld) :=
  match fuel with
  | O => None
  | S fuel =>
      '(next, this) ← FhgfsChunkPageVec_iterateGetNextPage this;
      match next with
      | None => Some (this, w)
      | Some fhgfsPage =>
          w ← FhgfsOpsPages_endWritePage (fp_page fhgfsPage) writeRes w;
          FhgfsChunkPageVec_iterateAllHandleWritePages fuel writeRes this w
      end
  end.
Fixpoint FhgfsChunkPageVec_iterateAllHandleReadErr (fuel : nat) (this : FhgfsChunkPageVec) (w : PagesWorld) :
    option (FhgfsChunkPageVec * PagesWorld) :=
  match fuel with
  | O => None
  | S fuel =>
      '(next, this) ← FhgfsChunkPageVec_iterateGetNextPage this;
      match next with
      | None => Some (this, w)
      | Some fhgfsPage =>
          w ← FhgfsPage_unmapUnlockReleaseFhgfsPage fhgfsPage w;
          FhgfsChunkPageVec_iterateAllHandleReadErr fuel this w
      end
  end.
