(* ===== verification/PageVecFacts.v ===== *)
(** * Properties of page vectors

    A page vector is the list of its pages with a position: the arrays and the three parts of the iterator agree, pages are
    consecutive and of one chunk.  Ending the I/O of a page needs the page to be in flight and changes only this page. *)

From S2P Require Import Prelude StorageErrors StripePatternFacts Remoting PageVec.

(** ** Arrays *)

(** All arrays but the last are full. *)
Definition shape (vecs : list (list FhgfsPage)) : Prop := exists full last,
  vecs = full ++ [last] /\ Forall (fun v => length v = 32%nat) full /\ (length last <= 32)%nat.

Lemma length_concat_full (full : list (list FhgfsPage)) : Forall (fun v => length v = 32%nat) full ->
  length (concat full) = (32 * length full)%nat.
Proof. induction 1 as [|v full Hv _ IH]; [done|]. cbn [concat length]. rewrite length_app, Hv, IH. lia. Qed.

Lemma shape_lookup vecs : shape vecs -> forall i j v, (j < 32)%nat -> vecs !! i = Some v ->
  v !! j = concat vecs !! (32 * i + j)%nat.
Proof.
  intros (full & last & -> & Hf & Hl). induction Hf as [|v0 full Hv _ IH]; intros i j v Hj.
  - destruct i; [|done]. cbn. intros [= <-]. by rewrite app_nil_r.
  - destruct i as [|i]; cbn [app concat].
    + intros [= <-]. rewrite lookup_app_l by lia. done.
    + cbn. intros Hi. rewrite (IH i j v Hj Hi). rewrite lookup_app_r by lia. f_equal. lia.
Qed.

Lemma shape_bound vecs : shape vecs -> (0 < length vecs)%nat /\
  (32 * pred (length vecs) <= length (concat vecs) <= 32 * length vecs)%nat.
Proof.
  intros (full & last & -> & Hf & Hl). rewrite concat_app, !length_app, (length_concat_full full Hf). cbn.
  rewrite app_nil_r. lia.
Qed.

Lemma shape_vec vecs k : shape vecs -> (k < length (concat vecs))%nat -> exists v, vecs !! (k / 32)%nat = Some v.
Proof.
  intros Hs Hk. pose proof (shape_bound vecs Hs). apply lookup_lt_is_Some_2.
  apply Nat.Div0.div_lt_upper_bound; lia.
Qed.

(** ** The invariant *)

Definition pv_pages (this : FhgfsChunkPageVec) : list FhgfsPage := concat (pv_pageListVecHead this).
Record pv_ok (this : FhgfsChunkPageVec) : Prop := MkPvOk {
  po_shape : shape (pv_pageListVecHead this);
  po_size : pv_size this = zlen (pv_pages this) /\ zlen (pv_pages this) < 2 ^ 32;
  po_iter : pv_currentListVecIterIdx this = 32 * Z.of_nat (pv_currentIterListVec this) + pv_currentVecIdx this;
  po_idx : 0 <= pv_currentVecIdx this <= 32 /\ 0 <= pv_currentListVecIterIdx this <= pv_size this;
  po_tight : length (pv_pageListVecHead this) = 1%nat \/ (32 * pred (length (pv_pageListVecHead this)) < length (pv_pages this))%nat
}.
(** The pages behind the iterator. *)
Definition pv_rest (this : FhgfsChunkPageVec) : list FhgfsPage := drop (Z.to_nat (pv_currentListVecIterIdx this)) (pv_pages this).
(** Two states of a vector that differ in the iterator only. *)
Definition pv_same (a b : FhgfsChunkPageVec) : Prop := forall vec idx iter, pv_set_iter vec idx iter a = pv_set_iter vec idx iter b.

Lemma pv_same_refl a : pv_same a a.
Proof. done. Qed.
Lemma pv_same_trans a b c : pv_same a b -> pv_same b c -> pv_same a c.
Proof. intros H1 H2 v i j. by rewrite (H1 v i j). Qed.
Lemma pv_same_iter a v i j : pv_same a (pv_set_iter v i j a).
Proof. intros ???. by destruct a. Qed.
Lemma pv_same_pages a b : pv_same a b -> pv_pages b = pv_pages a /\ pv_size b = pv_size a.
Proof.
  intros H. specialize (H O 0 0). unfold pv_pages. split.
  - exact (f_equal (fun v => concat (pv_pageListVecHead v)) (eq_sym H)).
  - exact (f_equal pv_size (eq_sym H)).
Qed.
Lemma pv_same_size a b : pv_same a b -> FhgfsChunkPageVec_getDataSize b = FhgfsChunkPageVec_getDataSize a.
Proof. intros H. specialize (H O 0 0). exact (f_equal FhgfsChunkPageVec_getDataSize (eq_sym H)). Qed.

Lemma reset_ok a : pv_ok a -> pv_ok (FhgfsChunkPageVec_resetIterator a) /\ pv_same a (FhgfsChunkPageVec_resetIterator a) /\
  pv_rest (FhgfsChunkPageVec_resetIterator a) = pv_pages a.
Proof.
  intros [Hs [Hz Hb] Hi Hx Ht]. split; [|split; [apply pv_same_iter|done]].
  split; try done; cbn; pose proof (zlen_nonneg (pv_pages a)); lia.
Qed.

Lemma pv_rest_length a : pv_ok a -> zlen (pv_rest a) = pv_size a - pv_currentListVecIterIdx a.
Proof. intros [_ [Hz Hb] _ [_ Hx] _]. unfold pv_rest, zlen in *. rewrite length_drop. lia. Qed.

(** The step of the iterator. *)
Lemma next_page_of_rest a : pv_ok a ->
  match pv_rest a with
  | [] => FhgfsChunkPageVec_iterateGetNextPage a = Some (None, a)
  | page :: rest => exists a', FhgfsChunkPageVec_iterateGetNextPage a = Some (Some page, a') /\ pv_ok a' /\ pv_same a a' /\
      pv_rest a' = rest /\ pv_currentListVecIterIdx a' = pv_currentListVecIterIdx a + 1
  end.
Proof.
  intros Hok. pose proof (pv_rest_length a Hok) as Hlen. destruct Hok as [Hs [Hz Hb] Hi [Hx Hk] Ht].
  unfold FhgfsChunkPageVec_iterateGetNextPage. destruct (pv_rest a) as [|page rest] eqn:Er.
  { rewrite zlen_nil in Hlen. by rewrite (proj2 (Z.eqb_eq _ _)) by lia. }
  rewrite zlen_cons in Hlen. pose proof (zlen_nonneg rest).
  rewrite (proj2 (Z.eqb_neq _ _)) by lia. set (k := Z.to_nat (pv_currentListVecIterIdx a)) in *.
  assert (Hkl : (k < length (pv_pages a))%nat) by (unfold zlen in *; lia).
  assert (Hpage : pv_pages a !! k = Some page).
  { rewrite <- (Nat.add_0_r k), <- lookup_drop. unfold pv_rest in Er. fold k in Er. by rewrite Er. }
  assert (Htake : forall cur idx, pv_currentListVecIterIdx a = 32 * Z.of_nat cur + idx -> 0 <= idx < 32 ->
    (vec ← pv_pageListVecHead a !! cur; page ← FhgfsPageListVec_getFhgfsPage vec idx;
     Some (Some page, pv_set_iter cur (u64 (idx + 1)) (u64 (pv_currentListVecIterIdx a + 1)) a)) =
    Some (Some page, pv_set_iter cur (idx + 1) (pv_currentListVecIterIdx a + 1) a)).
  { intros cur idx Hc Hidx. destruct (shape_vec _ k Hs Hkl) as [v Hv].
    replace (k / 32)%nat with cur in Hv by (apply Nat.div_unique with (Z.to_nat idx); lia).
    rewrite Hv. cbn [mbind option_bind]. unfold FhgfsPageListVec_getFhgfsPage.
    rewrite (shape_lookup _ Hs cur (Z.to_nat idx) v) by (done || lia).
    replace (32 * cur + Z.to_nat idx)%nat with k by lia. unfold pv_pages in Hpage. rewrite Hpage. cbn [mbind option_bind].
    rewrite !u64_small by lia. done. }
  assert (Hnext : forall cur idx, pv_currentListVecIterIdx a = 32 * Z.of_nat cur + idx -> 0 <= idx < 32 ->
    let a' := pv_set_iter cur (idx + 1) (pv_currentListVecIterIdx a + 1) a in
    pv_ok a' /\ pv_same a a' /\ pv_rest a' = rest /\ pv_currentListVecIterIdx a' = pv_currentListVecIterIdx a + 1).
  { intros cur idx Hc Hidx. cbn. split; [split; cbn; [done|done|lia|lia|done]|]. split; [apply pv_same_iter|]. split; [|done].
    unfold pv_rest. cbn. replace (Z.to_nat (pv_currentListVecIterIdx a + 1)) with (k + 1)%nat by lia.
    rewrite <- drop_drop. unfold pv_rest in Er. fold k in Er. unfold pv_pages in *. cbn. by rewrite Er. }
  unfold BEEGFS_LIST_VEC_MAX_PAGES. destruct (Z.eqb_spec (pv_currentVecIdx a) 32) as [E|E].
  - destruct (Nat.eqb_spec (S (pv_currentIterListVec a)) (length (pv_pageListVecHead a))) as [El|El].
    { pose proof (shape_bound _ Hs). unfold pv_pages in *. lia. }
    rewrite (Htake (S (pv_currentIterListVec a)) 0) by lia. eexists. split; [reflexivity|]. apply Hnext; lia.
  - rewrite (Htake (pv_currentIterListVec a) (pv_currentVecIdx a)) by lia. eexists. split; [reflexivity|]. apply Hnext; lia.
Qed.

(** ** Adding pages *)

Lemma shape_push vecs last : shape vecs -> vecs !! pred (length vecs) = Some last -> forall x, (length last < 32)%nat ->
  shape (<[pred (length vecs) := last ++ [x]]> vecs) /\ concat (<[pred (length vecs) := last ++ [x]]> vecs) = concat vecs ++ [x].
Proof.
  intros (full & l & Hv & Hf & Hl). subst vecs. rewrite length_app. cbn [length]. replace (pred (length full + 1)) with (length full) by lia.
  rewrite lookup_app_r, Nat.sub_diag by lia. cbn. intros [= ->] x Hx.
  rewrite insert_app_r_alt, Nat.sub_diag by lia. cbn. split.
  - exists full, (last ++ [x]). split; [done|]. split; [done|]. rewrite length_app. cbn. lia.
  - rewrite !concat_app. cbn. by rewrite !app_nil_r, app_assoc.
Qed.
Lemma shape_new vecs last : shape vecs -> vecs !! pred (length vecs) = Some last -> length last = 32%nat -> shape (vecs ++ [[]]).
Proof.
  intros (full & l & Hv & Hf & Hl). subst vecs. rewrite length_app. cbn [length]. replace (pred (length full + 1)) with (length full) by lia.
  rewrite lookup_app_r, Nat.sub_diag by lia. cbn. intros [= ->] Hx.
  exists (full ++ [last]), []. split; [done|]. split; [|cbn; lia]. apply Forall_app. split; [done|by repeat constructor].
Qed.
Lemma shape_last vecs : shape vecs -> exists last, vecs !! pred (length vecs) = Some last /\
  length (concat vecs) = (32 * pred (length vecs) + length last)%nat /\ (length last <= 32)%nat.
Proof.
  intros (full & l & -> & Hf & Hl). exists l. rewrite length_app, concat_app, length_app, (length_concat_full full Hf). cbn [length concat].
  rewrite app_nil_r. replace (pred (length full + 1)) with (length full) by lia.
  rewrite lookup_app_r, Nat.sub_diag by lia. done.
Qed.

(** The pages of a vector are consecutive pages of one chunk. *)
Record pv_chunk (n : Z) (w : PagesWorld) (this : FhgfsChunkPageVec) : Prop := MkPvChunk {
  pc_n : pv_numChunkPages this = n;
  pc_first : zlen (pv_pages this) = 0 -> pv_firstPageChunkOffset this = 0;
  pc_offset : 0 < zlen (pv_pages this) ->
    pv_firstPageChunkOffset this = pv_firstPageIdx this mod n /\ 0 <= pv_firstPageIdx this < 2 ^ 64 /\
    pv_lastPageIdx this = pv_firstPageIdx this + zlen (pv_pages this) - 1 /\
    pv_firstPageIdx this mod n + zlen (pv_pages this) <= n;
  pc_index : forall i page, pv_pages this !! i = Some page ->
    pg_index <$> pw_pages w !! fp_page page = Some (pv_firstPageIdx this + Z.of_nat i)
}.

(** A page is accepted if it is the first one, or follows the last one inside of its chunk and there is room in the last array or
    memory for another one. *)
Definition accepts (n : Z) (cacheOk : bool) (this : FhgfsChunkPageVec) (index : Z) : bool :=
  if pv_size this =? 0 then true
  else (index =? pv_lastPageIdx this + 1) && negb (index mod n =? 0) && (cacheOk || negb (pv_size this mod 32 =? 0)).

Lemma pv_set_vecs_id this : pv_set_vecs (pv_pageListVecHead this) this = this.
Proof. by destruct this. Qed.

Section Push.
Context (m : Z) (Hm : 0 <= m < 32) (page : nat) (len : Z) (w : PagesWorld) (p : Page).
Hypothesis Hp : pw_pages w !! page = Some p.
Hypothesis Hidx : 0 <= pg_index p < 2 ^ 64.
Let n := 2 ^ m.
Let w' := pw_set_pages (<[page := pg_set_mapped true p]> (pw_pages w)) w.

Lemma kmap_page : kmap page w = Some w'.
Proof. unfold kmap, on_page. rewrite Hp. done. Qed.

(** Adding to the last array, which has room or not. *)
Lemma push_last_ok this : shape (pv_pageListVecHead this) ->
  exists last, pv_pageListVecHead this !! pred (length (pv_pageListVecHead this)) = Some last /\
  length (pv_pages this) = (32 * pred (length (pv_pageListVecHead this)) + length last)%nat /\
  ((length last = 32)%nat /\ pv_push_last page len this w = Some (false, this, w) \/
   (length last < 32)%nat /\ exists vecs, pv_push_last page len this w = Some (true, pv_set_vecs vecs this, w') /\
     shape vecs /\ length vecs = length (pv_pageListVecHead this) /\ concat vecs = pv_pages this ++ [MkFhgfsPage page len]).
Proof.
  intros Hs. destruct (shape_last _ Hs) as (last & Hl & Hlen & Hmax). exists last. split; [done|]. split; [done|].
  unfold pv_push_last, FhgfsPageListVec_pushPage, BEEGFS_LIST_VEC_MAX_PAGES. rewrite Hl. cbn [mbind option_bind].
  destruct (Z.eqb_spec (zlen last) 32) as [E|E]; unfold zlen in E; [left|right].
  - split; [lia|]. cbn [mbind option_bind]. rewrite list_insert_id by done. by rewrite pv_set_vecs_id.
  - split; [lia|]. rewrite kmap_page. cbn [mbind option_bind]. eexists. split; [done|].
    destruct (shape_push _ last Hs Hl (MkFhgfsPage page len)) as [? ?]; [lia|]. rewrite length_insert. done.
Qed.

(** The vector after a page was added. *)
Lemma count_page_ok this vecs : pv_ok this -> pv_chunk n w this -> shape vecs -> (32 * pred (length vecs) < length (concat vecs))%nat ->
  concat vecs = pv_pages this ++ [MkFhgfsPage page len] ->
  zlen (pv_pages this) = 0 \/ pg_index p = pv_lastPageIdx this + 1 /\ pg_index p mod n <> 0 ->
  let this' := pv_count_page (pg_index p) len (pv_set_vecs vecs this) in
  pv_ok this' /\ pv_chunk n w' this'.
Proof.
  intros [Hs [Hz Hb] Hi [Hx Hk] _] [Hn Hf Ho Hc] Hs' Ht Hcat Hcase. cbv zeta.
  set (k := zlen (pv_pages this)) in *. assert (H0 : 0 <= k) by apply zlen_nonneg.
  assert (Hn2 : 0 < n < 2 ^ 32) by (apply pow2_bounds; done).
  assert (Hk' : zlen (concat vecs) = k + 1) by (rewrite Hcat, zlen_app; done).
  assert (Hoff : _FhgfsChunkPageVec_getChunkPageOffset (pv_set_vecs vecs this) (pg_index p) = pg_index p mod n).
  { unfold _FhgfsChunkPageVec_getChunkPageOffset. cbn. rewrite Hn, (u32_small (n - 1)) by lia. unfold n.
    rewrite land_pow2_pred by lia. fold n. pose proof (Z.mod_pos_bound (pg_index p) n). apply u32_small. lia. }
  pose proof (Z.mod_pos_bound (pg_index p) n ltac:(lia)) as Hmod.
  assert (Hroom : (if k =? 0 then pg_index p mod n else pv_firstPageIdx this mod n) + (k + 1) <= n /\
    (k <> 0 -> pg_index p = pv_firstPageIdx this + k)).
  { destruct (Z.eqb_spec k 0) as [E|E]; [lia|]. destruct Ho as (_ & Hr & Hl & Hfit); [lia|].
    destruct Hcase as [?|[Hnext Hne]]; [done|]. split; [|lia].
    destruct (decide (pv_firstPageIdx this mod n + k = n)) as [Efull|]; [|lia]. exfalso. apply Hne.
    replace (pg_index p) with (pv_firstPageIdx this + k) by lia. rewrite <- Zplus_mod_idemp_l.
    replace (pv_firstPageIdx this mod n + k) with n by lia. apply Z.mod_same. lia. }
  destruct Hroom as [Hroom Hnext]. pose proof (Z.mod_pos_bound (pv_firstPageIdx this) n ltac:(lia)) as Hmod0.
  assert (Hkn : k + 1 <= n) by (destruct (k =? 0); lia). split; split; unfold pv_pages; cbn [pv_count_page pv_set_vecs pv_pageListVecHead pv_size
    pv_currentListVecIterIdx pv_currentIterListVec pv_currentVecIdx pv_numChunkPages pv_firstPageChunkOffset pv_firstPageIdx pv_lastPageIdx].
  - done.
  - rewrite Hk', Hz. rewrite u32_small; [split; [done|]|]; lia.
  - done.
  - rewrite u32_small; lia.
  - by right.
  - done.
  - rewrite Hk'. lia.
  - intros _. rewrite Hk', Hz. destruct (Z.eqb_spec k 0) as [E|E].
    + rewrite Hoff. lia.
    + destruct Ho as (? & ? & ? & ?); [lia|]. rewrite (Hnext E). split; [done|]. lia.
  - intros i q Hq. rewrite Hcat in Hq. rewrite Hz. apply lookup_app_Some in Hq as [Hq|[Hle Hq]].
    + assert (Hik : Z.of_nat i < k) by (apply lookup_lt_Some in Hq; unfold k, zlen; lia).
      rewrite (proj2 (Z.eqb_neq k 0)) by lia. specialize (Hc i q Hq). cbn.
      destruct (decide (fp_page q = page)) as [Eq|Hne]; [|by rewrite lookup_insert_ne].
      rewrite Eq in Hc |- *. rewrite lookup_insert_eq. rewrite Hp in Hc. done.
    + apply list_lookup_singleton_Some in Hq as [Hi0 <-]. cbn. rewrite lookup_insert_eq. cbn. f_equal.
      assert (Z.of_nat i = k) by (unfold k, zlen; lia). destruct (Z.eqb_spec k 0) as [E|E]; [lia|]. rewrite (Hnext E). lia.
Qed.

(** Whether the next page starts a new chunk. *)
Lemma next_mod this : pv_chunk n w this -> 0 < zlen (pv_pages this) ->
  (pv_lastPageIdx this + 1) mod n = 0 <-> zlen (pv_pages this) + pv_firstPageChunkOffset this = n.
Proof.
  intros [_ _ Ho _] Hk. destruct (Ho Hk) as (-> & _ & -> & Hfit). assert (Hn2 : 0 < n < 2 ^ 32) by (apply pow2_bounds; done).
  pose proof (Z.mod_pos_bound (pv_firstPageIdx this) n ltac:(lia)).
  replace (pv_firstPageIdx this + zlen (pv_pages this) - 1 + 1) with (pv_firstPageIdx this + zlen (pv_pages this)) by lia.
  rewrite <- Zplus_mod_idemp_l. split.
  - intros E. destruct (decide (pv_firstPageIdx this mod n + zlen (pv_pages this) = n)); [lia|].
    rewrite Z.mod_small in E by lia. lia.
  - intros E. replace (pv_firstPageIdx this mod n + zlen (pv_pages this)) with n by lia. apply Z.mod_same. lia.
Qed.

Definition pushed (acc : bool) (this this' : FhgfsChunkPageVec) : Prop :=
  pv_ok this' /\ pv_chunk n (if acc then w' else w) this' /\
  pv_pages this' = pv_pages this ++ (if acc then [MkFhgfsPage page len] else []) /\
  pv_currentListVecIterIdx this' = pv_currentListVecIterIdx this.

Lemma push_room this vecs : pv_ok this -> pv_chunk n w this -> shape vecs -> (32 * pred (length vecs) < length (concat vecs))%nat -> concat vecs = pv_pages this ++ [MkFhgfsPage page len] ->
  zlen (pv_pages this) = 0 \/ pg_index p = pv_lastPageIdx this + 1 /\ pg_index p mod n <> 0 ->
  pushed true this (pv_count_page (pg_index p) len (pv_set_vecs vecs this)).
Proof.
  intros Hok Hc Hs Ht Hcat Hcase. destruct (count_page_ok this vecs Hok Hc Hs Ht Hcat Hcase). split; [done|]. split; [done|].
  split; [|done]. unfold pv_pages. cbn. by rewrite Hcat.
Qed.

Lemma push_ok cacheOk this : pv_ok this -> pv_chunk n w this -> exists this',
  let acc := accepts n cacheOk this (pg_index p) in
  FhgfsChunkPageVec_pushPage cacheOk page len this w = Some (acc, this', if acc then w' else w) /\ pushed acc this this'.
Proof.
  intros Hok Hc. pose proof Hok as [Hs [Hz Hb] _ _ Ht]. pose proof Hc as [Hn Hf Ho _].
  assert (Hn2 : 0 < n < 2 ^ 32) by (apply pow2_bounds; done). pose proof (zlen_nonneg (pv_pages this)) as H0.
  pose proof (next_mod this Hc) as Hnext. pose proof (Z.mod_pos_bound (pv_firstPageIdx this) n ltac:(lia)) as Hmod.
  assert (Hkeep : pushed false this this) by (unfold pushed; rewrite app_nil_r; done).
  assert (Hsum : 0 <= zlen (pv_pages this) + pv_firstPageChunkOffset this <= n).
  { destruct (decide (zlen (pv_pages this) = 0)) as [E|]; [rewrite (Hf E); lia|]. destruct Ho as (-> & _ & _ & ?); lia. }
  unfold FhgfsChunkPageVec_pushPage, accepts. rewrite Hp. cbn [mbind option_bind]. rewrite Hn, Hz, u32_small by lia.
  destruct (Z.eqb_spec (zlen (pv_pages this) + pv_firstPageChunkOffset this) n) as [Efull|Efull].
  { exists this. assert (Hk : zlen (pv_pages this) <> 0) by (intros E; rewrite (Hf E) in Efull; lia).
    rewrite (proj2 (Z.eqb_neq (zlen _) 0)) by done. destruct (Z.eqb_spec (pg_index p) (pv_lastPageIdx this + 1)) as [E|E]; [|done].
    rewrite E, (proj2 (Z.eqb_eq _ _) (proj2 (Hnext ltac:(lia)) Efull)). done. }
  assert (Hcase : zlen (pv_pages this) <> 0 -> (u64 (pv_lastPageIdx this + 1) =? pg_index p) = true <->
    pg_index p = pv_lastPageIdx this + 1 /\ pg_index p mod n <> 0).
  { intros Hk. specialize (Hnext ltac:(lia)). destruct Ho as (Eo & Hr & Hl & Hfit); [lia|]. rewrite Z.eqb_eq.
    assert (Hlast : 0 <= pv_lastPageIdx this + 1 <= 2 ^ 64).
    { split; [lia|]. assert (pv_firstPageIdx this + (n - pv_firstPageIdx this mod n) <= 2 ^ 64); [|lia].
      pose proof (Z.div_mod (pv_firstPageIdx this) n ltac:(lia)).
      assert (pv_firstPageIdx this / n < 2 ^ (64 - m)) by (apply Z.div_lt_upper_bound; [lia|]; unfold n; rewrite <- Z.pow_add_r by lia; replace (m + (64 - m)) with 64 by lia; lia).
      assert (n * 2 ^ (64 - m) = 2 ^ 64) by (unfold n; rewrite <- Z.pow_add_r by lia; f_equal; lia). nia. }
    assert (pv_lastPageIdx this + 1 <> 2 ^ 64).
    { intros E. rewrite E in Hnext. destruct Hnext as [Hz0 _]. apply Efull, Hz0. unfold n.
      replace (2 ^ 64) with (2 ^ (64 - m) * 2 ^ m) by (rewrite <- Z.pow_add_r by lia; f_equal; lia). apply Z.mod_mul. lia. }
    rewrite u64_small by lia. split; [intros <-|intros [-> _]; done]. split; [done|]. tauto. }
  destruct (push_last_ok this Hs) as (last & Hlast & Hlen & Hpush).
  destruct (Z.eqb_spec (zlen (pv_pages this)) 0) as [Ek|Ek]; cbn [negb andb].
  { destruct Hpush as [[? _]|(Hroom & vecs & -> & Hs' & Hl' & Hcat)]; [unfold zlen in Ek; lia|]. cbn [mbind option_bind].
    eexists. split; [reflexivity|]. apply push_room; try done; [|by left]. rewrite Hcat, length_app, Hl'. cbn. lia. }
  specialize (Hcase Ek). destruct (u64 (pv_lastPageIdx this + 1) =? pg_index p) eqn:Ec; cbn [negb].
  2: { exists this. enough (((pg_index p =? pv_lastPageIdx this + 1) && negb (pg_index p mod n =? 0)) = false) as -> by done.
    destruct (Z.eqb_spec (pg_index p) (pv_lastPageIdx this + 1)), (Z.eqb_spec (pg_index p mod n) 0); try done.
    destruct Hcase as [_ Hcase]. discriminate Hcase. done. }
  destruct (proj1 Hcase eq_refl) as [Ei Em]. rewrite (proj2 (Z.eqb_eq _ _) Ei), (proj2 (Z.eqb_neq _ _) Em). cbn [andb negb].
  destruct Hpush as [[Hfull ->]|(Hroom & vecs & -> & Hs' & Hl' & Hcat)]; cbn [mbind option_bind].
  - assert (E32 : zlen (pv_pages this) mod 32 = 0).
    { unfold zlen. rewrite Hlen, Hfull. replace (Z.of_nat _) with ((Z.of_nat (pred (length (pv_pageListVecHead this))) + 1) * 32) by lia.
      apply Z.mod_mul. lia. }
    rewrite (proj2 (Z.eqb_eq _ _) E32), orb_false_r. unfold FhgfsChunkPageVec_addPageListVec, FhgfsPageListVec_create.
    destruct cacheOk; [|by exists this].
    destruct (pv_pageListVecHead this) as [|v0 vs] eqn:Ev; [by pose proof (shape_bound _ Hs); cbn in *; lia|]. rewrite Ev, <- Ev.
    cbn [negb Z.eqb]. set (this2 := pv_set_vecs (pv_pageListVecHead this ++ [[]]) this).
    assert (Hs2 : shape (pv_pageListVecHead this2)) by (unfold this2; cbn; rewrite Ev; eapply shape_new; [|exact Hlast|]; done).
    destruct (push_last_ok this2 Hs2) as (last2 & _ & Hlen2 & Hpush2).
    assert (Ep : pv_pages this2 = pv_pages this) by (unfold pv_pages, this2; cbn; by rewrite concat_app, app_nil_r).
    assert (El2 : length (pv_pageListVecHead this2) = S (length (v0 :: vs))) by (unfold this2; cbn; rewrite Ev, length_app; cbn; lia).
    rewrite Ep, El2 in Hlen2. cbn [pred] in Hlen2.
    destruct Hpush2 as [[? _]|(_ & vecs & -> & Hs' & Hl' & Hcat)]; [cbn in *; lia|]. cbn [mbind option_bind].
    eexists. split; [reflexivity|]. apply (push_room this vecs); try done; [|by rewrite Hcat, Ep|by right].
    rewrite Hcat, Ep, length_app, Hl', El2. cbn in *. lia.
  - assert (E32 : zlen (pv_pages this) mod 32 <> 0).
    { unfold zlen in *. rewrite Hlen. destruct Ht as [Ht|Ht]; [rewrite Ht in Hlen |- *|];
        rewrite Nat2Z.inj_add, Nat2Z.inj_mul, Z.add_comm, Z.mul_comm, Z.mod_add, Z.mod_small; cbn in *; lia. }
    rewrite (proj2 (Z.eqb_neq _ _) E32), orb_true_r. eexists. split; [reflexivity|].
    apply push_room; try done; [|by right]. rewrite Hcat, length_app, Hl'. cbn. lia.
Qed.
End Push.

(** ** A vector is a sequence with a position *)

Inductive PvOp := OpPush (cacheOk : bool) (page : nat) (len : Z) | OpNext | OpReset.
Inductive PvRes := ResPush (ok : bool) | ResNext (page : option FhgfsPage) | ResReset.

Definition pv_step (op : PvOp) (this : FhgfsChunkPageVec) (w : PagesWorld) : option (PvRes * FhgfsChunkPageVec * PagesWorld) :=
  match op with
  | OpPush cacheOk page len => '(ok, this, w) ← FhgfsChunkPageVec_pushPage cacheOk page len this w; Some (ResPush ok, this, w)
  | OpNext => '(page, this) ← FhgfsChunkPageVec_iterateGetNextPage this; Some (ResNext page, this, w)
  | OpReset => Some (ResReset, FhgfsChunkPageVec_resetIterator this, w)
  end.
Fixpoint pv_run (ops : list PvOp) (this : FhgfsChunkPageVec) (w : PagesWorld) : option (list PvRes * FhgfsChunkPageVec * PagesWorld) :=
  match ops with
  | [] => Some ([], this, w)
  | op :: ops =>
      '(r, this, w) ← pv_step op this w;
      '(rs, this, w) ← pv_run ops this w;
      Some (r :: rs, this, w)
  end.

(** The specification: a list and a position; [index] gives the place of a page in the file. *)
Definition PageSeq : Type := list FhgfsPage * nat.
Definition seq_accepts (n : Z) (index : nat -> Z) (cacheOk : bool) (page : nat) (l : list FhgfsPage) : bool :=
  match l !! pred (length l) with
  | None => true
  | Some q => (index page =? index (fp_page q) + 1) && negb (index page mod n =? 0) && (cacheOk || negb (zlen l mod 32 =? 0))
  end.
Definition seq_step (n : Z) (index : nat -> Z) (op : PvOp) (s : PageSeq) : PvRes * PageSeq :=
  match op with
  | OpPush cacheOk page len =>
      let ok := seq_accepts n index cacheOk page s.1 in
      (ResPush ok, (s.1 ++ (if ok then [MkFhgfsPage page len] else []), s.2))
  | OpNext => (ResNext (s.1 !! s.2), (s.1, if (s.2 <? length s.1)%nat then S s.2 else s.2))
  | OpReset => (ResReset, (s.1, O))
  end.
Fixpoint seq_run (n : Z) (index : nat -> Z) (ops : list PvOp) (s : PageSeq) : list PvRes * PageSeq :=
  match ops with
  | [] => ([], s)
  | op :: ops => let '(r, s) := seq_step n index op s in let '(rs, s) := seq_run n index ops s in (r :: rs, s)
  end.

Definition page_index (w : PagesWorld) (page : nat) : Z := default 0 (pg_index <$> pw_pages w !! page).
(** The pages exist and keep their places. *)
Definition pages_in (index : nat -> Z) (ops : list PvOp) (w : PagesWorld) : Prop :=
  (forall page p, pw_pages w !! page = Some p -> index page = pg_index p /\ 0 <= pg_index p < 2 ^ 64) /\
  Forall (fun op => match op with OpPush _ page _ => is_Some (pw_pages w !! page) | _ => True end) ops.
Record pv_rel (m : Z) (w : PagesWorld) (this : FhgfsChunkPageVec) (s : PageSeq) : Prop := MkPvRel {
  pr_ok : pv_ok this;
  pr_chunk : pv_chunk (2 ^ m) w this;
  pr_pages : pv_pages this = s.1;
  pr_pos : pv_currentListVecIterIdx this = Z.of_nat s.2
}.

Lemma accepts_seq m index w this s cacheOk page p : pv_rel m w this s ->
  (forall q p, pw_pages w !! q = Some p -> index q = pg_index p /\ 0 <= pg_index p < 2 ^ 64) -> pw_pages w !! page = Some p ->
  accepts (2 ^ m) cacheOk this (pg_index p) = seq_accepts (2 ^ m) index cacheOk page s.1.
Proof.
  intros [Hok Hc Hp _] Hi Hpage. unfold accepts, seq_accepts. destruct Hok as [_ [Hz _] _ _ _]. rewrite Hz, Hp.
  destruct Hc as [_ _ Ho Hx]. rewrite Hp in Ho, Hx. destruct (s.1 !! pred (length s.1)) as [q|] eqn:Eq.
  - assert (Hl : 0 < zlen s.1) by (apply lookup_lt_Some in Eq; unfold zlen; lia). rewrite (proj2 (Z.eqb_neq _ _)) by lia.
    destruct (Ho Hl) as (_ & _ & Hlast & _). specialize (Hx _ _ Eq).
    destruct (pw_pages w !! fp_page q) as [pq|] eqn:Epq; [|done]. cbn in Hx. injection Hx as Hx.
    rewrite (proj1 (Hi _ _ Epq)), (proj1 (Hi _ _ Hpage)), Hlast, Hx. f_equal; f_equal; f_equal. unfold zlen in *. lia.
  - apply lookup_ge_None in Eq. assert (length s.1 = O) by lia. unfold zlen. by rewrite H.
Qed.

Lemma pv_step_ok m index op this w s : 0 <= m < 32 -> pv_rel m w this s -> pages_in index [op] w ->
  exists this' w', pv_step op this w = Some ((seq_step (2 ^ m) index op s).1, this', w') /\
    pv_rel m w' this' (seq_step (2 ^ m) index op s).2 /\
    (forall page, pg_index <$> pw_pages w' !! page = pg_index <$> pw_pages w !! page).
Proof.
  intros Hm Hrel [Hi Hops%Forall_cons_iff]. pose proof Hrel as [Hok Hc Hp Hpos]. destruct op as [cacheOk page len| |]; cbn [pv_step seq_step fst snd].
  - destruct Hops as [[p Hpage] _]. pose proof (accepts_seq m index w this s cacheOk page p Hrel Hi Hpage) as Ea.
    destruct (push_ok m Hm page len w p Hpage (proj2 (Hi _ _ Hpage)) cacheOk this Hok Hc) as (this' & E & Hok' & Hc' & Hp' & Hpos').
    cbv zeta in E. rewrite Ea in E, Hc', Hp'. rewrite E. cbn. eexists _, _. split; [reflexivity|]. split.
    + split; cbn; [done|done|by rewrite Hp', Hp|by rewrite Hpos'].
    + intros q. destruct (seq_accepts _ _ _ _ _); [|done]. cbn. destruct (decide (q = page)) as [->|]; [|by rewrite lookup_insert_ne].
      by rewrite lookup_insert_eq, Hpage.
  - pose proof (next_page_of_rest this Hok) as Hit. pose proof (pv_rest_length this Hok) as Hlen. unfold pv_rest in Hit, Hlen.
    rewrite Hpos, Nat2Z.id, Hp in Hit, Hlen. destruct (drop s.2 s.1) as [|q rest] eqn:Ed.
    + rewrite Hit. cbn [mbind option_bind]. eexists _, _. assert (length s.1 <= s.2)%nat by (apply (f_equal length) in Ed; rewrite length_drop in Ed; cbn in Ed; lia).
      rewrite lookup_ge_None_2 by done. split; [reflexivity|]. rewrite (proj2 (Nat.ltb_ge _ _)) by done. split; [|done]. by split.
    + destruct Hit as (this' & -> & Hok' & Hsame & Hrest & Hpos'). cbn [mbind option_bind]. destruct (pv_same_pages _ _ Hsame) as [Hp' _].
      assert (Hlt : (s.2 < length s.1)%nat) by (apply (f_equal length) in Ed; rewrite length_drop in Ed; cbn in Ed; lia).
      assert (Hq : s.1 !! s.2 = Some q) by (rewrite <- (Nat.add_0_r s.2), <- lookup_drop, Ed; done).
      rewrite Hq, (proj2 (Nat.ltb_lt _ _) Hlt). eexists _, _. split; [reflexivity|]. split; [|done]. split; cbn; [done| |congruence|lia].
      specialize (Hsame O 0 0). destruct Hc as [H1 H2 H3 H4].
      pose proof (f_equal pv_numChunkPages Hsame) as E1. pose proof (f_equal pv_firstPageChunkOffset Hsame) as E2.
      pose proof (f_equal pv_firstPageIdx Hsame) as E3. pose proof (f_equal pv_lastPageIdx Hsame) as E4. cbn in E1, E2, E3, E4.
      split; rewrite ?Hp', <- ?E1, <- ?E2, <- ?E3, <- ?E4; done.
  - destruct (reset_ok this Hok) as (Hok' & _ & _). eexists _, _. split; [reflexivity|]. split; [|done]. split; [done|by destruct Hc|done|done].
Qed.

Lemma pv_run_ok m index ops : 0 <= m < 32 -> forall this w s, pv_rel m w this s -> pages_in index ops w ->
  exists this' w', pv_run ops this w = Some ((seq_run (2 ^ m) index ops s).1, this', w') /\
    pv_rel m w' this' (seq_run (2 ^ m) index ops s).2 /\
    (forall page, pg_index <$> pw_pages w' !! page = pg_index <$> pw_pages w !! page).
Proof.
  intros Hm. induction ops as [|op ops IH]; intros this w s Hrel [Hi Hops]; cbn [pv_run seq_run].
  { eexists _, _. split; [reflexivity|]. done. }
  apply Forall_cons_iff in Hops as [Hop Hops].
  destruct (pv_step_ok m index op this w s Hm Hrel) as (this1 & w1 & -> & Hrel1 & Hsame); [split; [done|by repeat constructor]|].
  destruct (seq_step (2 ^ m) index op s) as [r s1]. cbn [fst snd mbind option_bind] in Hrel1 |- *.
  destruct (IH this1 w1 s1 Hrel1) as (this2 & w2 & -> & Hrel2 & Hsame2).
  { assert (Hback : forall q, is_Some (pw_pages w1 !! q) <-> is_Some (pw_pages w !! q)).
    { intros q. specialize (Hsame q). destruct (pw_pages w1 !! q), (pw_pages w !! q); try done; split; by eexists. }
    split.
    - intros q p1 Hq. specialize (Hsame q). rewrite Hq in Hsame. destruct (pw_pages w !! q) as [p0|] eqn:E0; [|done].
      injection Hsame as ->. by apply Hi.
    - eapply Forall_impl; [|exact Hops]. intros [c q l| |]; try done. apply Hback. }
  destruct (seq_run (2 ^ m) index ops s1) as [rs s2]. cbn [fst snd mbind option_bind] in Hrel2 |- *.
  eexists _, _. split; [reflexivity|]. split; [done|]. intros q. by rewrite Hsame2.
Qed.

Lemma create_ok allocOk memory cacheOk poolOk m w this : FhgfsChunkPageVec_create allocOk memory cacheOk poolOk (2 ^ m) = Some this ->
  pv_rel m w this ([], O).
Proof.
  unfold FhgfsChunkPageVec_create, FhgfsChunkPageVec_init, FhgfsChunkPageVec_addPageListVec, FhgfsPageListVec_create.
  destruct allocOk; [|done]. cbn [negb].
  assert (Hs : shape [[]]) by (exists [], []; split_and!; [done|constructor|cbn; lia]).
  destruct cacheOk, poolOk; cbn; intros [= <-]; (split; [split|split|done|done]); cbn; try done; try lia; by left.
Qed.

(** The pages of a vector lie in one chunk. *)
Lemma pv_same_chunk m w this s index : 0 <= m < 32 -> pv_rel m w this s ->
  (forall page p, pw_pages w !! page = Some p -> index page = pg_index p) ->
  exists first, (s.1 <> [] -> 0 <= first) /\ forall i q, s.1 !! i = Some q ->
    index (fp_page q) = first + Z.of_nat i /\ index (fp_page q) / 2 ^ m = first / 2 ^ m.
Proof.
  intros Hm [_ [_ _ Ho Hx] Hp _] Hi. rewrite Hp in Ho, Hx. exists (pv_firstPageIdx this). split.
  - intros Hne. destruct Ho as (_ & ? & _); [|lia]. destruct (s.1); [done|]. rewrite zlen_cons. pose proof (zlen_nonneg l). lia.
  - intros i q Hq. assert (Hl : 0 < zlen s.1) by (apply lookup_lt_Some in Hq; unfold zlen; lia).
    destruct (Ho Hl) as (_ & Hr & _ & Hfit). specialize (Hx i q Hq). destruct (pw_pages w !! fp_page q) as [p|] eqn:E; [|done].
    injection Hx as Hx. rewrite (Hi _ _ E), Hx. split; [done|]. pose proof (pow2_bounds m Hm) as Hn.
    apply lookup_lt_Some in Hq. unfold zlen in Hfit. set (n := 2 ^ m) in *.
    pose proof (Z.mod_pos_bound (pv_firstPageIdx this) n). pose proof (Z.div_mod (pv_firstPageIdx this) n).
    symmetry. apply Z.div_unique with (pv_firstPageIdx this mod n + Z.of_nat i); lia.
Qed.

(** C38: a page vector behaves as a list of pages with a position.  For every sequence of additions, steps of the iterator
    and resets on a new vector, no operation touches an array element that was not set; a page is accepted exactly if it
    is the first one or follows the last one inside of its chunk (and there is memory when all arrays are full); the iterator
    returns the pages in the order in which they were accepted, and nothing after the last one, again and again until it is reset
    (the comment of the function says that the end resets the counters); the pages are
    consecutive and lie in one chunk. *)
Theorem page_vector_refines m allocOk memory cacheOk poolOk this ops w :
  0 <= m < 32 -> FhgfsChunkPageVec_create allocOk memory cacheOk poolOk (2 ^ m) = Some this -> pages_in (page_index w) ops w ->
  let '(rs, s) := seq_run (2 ^ m) (page_index w) ops ([], O) in
  exists this' w', pv_run ops this w = Some (rs, this', w') /\
    pv_pages this' = s.1 /\ FhgfsChunkPageVec_getSize this' = zlen s.1 /\ pv_currentListVecIterIdx this' = Z.of_nat s.2 /\
    exists first, forall i q, s.1 !! i = Some q ->
      page_index w (fp_page q) = first + Z.of_nat i /\ page_index w (fp_page q) / 2 ^ m = first / 2 ^ m.
Proof.
  intros Hm Hc Hin. pose proof (pv_run_ok m (page_index w) ops Hm this w ([], O) (create_ok _ _ _ _ _ w _ Hc) Hin) as H.
  destruct (seq_run (2 ^ m) (page_index w) ops ([], O)) as [rs s]. cbn [fst snd] in H. destruct H as (this' & w' & E & Hrel & Hsame).
  exists this', w'. split; [done|]. pose proof Hrel as [[_ [Hz _] _ _ _] _ Hp Hpos]. split; [done|].
  split; [unfold FhgfsChunkPageVec_getSize; by rewrite Hz, Hp|]. split; [done|].
  destruct (pv_same_chunk m w' this' s (page_index w) Hm Hrel) as (first & _ & Hx).
  { intros page p Hq. specialize (Hsame page). rewrite Hq in Hsame. unfold page_index. by rewrite <- Hsame. }
  by exists first.
Qed.

(** Pages 6 to 8 of a file with chunks of eight pages: the page 8 starts a new chunk. *)
Definition sample_page (index : Z) : Page := MkPage index [] false true false true true None 1.
Definition sample_pages : PagesWorld :=
  MkPagesWorld (<[0%nat := sample_page 6]> (<[1%nat := sample_page 7]> (<[2%nat := sample_page 8]> ∅))) 36864 3 false [].
Definition sample_memory : FhgfsChunkPageVec := MkChunkPageVec false 0 0 [] 9 9 9 9 9 9 9 9.
Definition sample_ops : list PvOp := [OpPush true 0 4096; OpPush true 2 4096; OpPush true 1 4096; OpPush true 2 4096; OpNext; OpNext; OpNext].

Lemma page_vector_refines_witness : exists this w',
  pv_run sample_ops (default sample_memory (FhgfsChunkPageVec_create true sample_memory false true 8)) sample_pages =
    Some ([ResPush true; ResPush false; ResPush true; ResPush false; ResNext (Some (MkFhgfsPage 0 4096));
           ResNext (Some (MkFhgfsPage 1 4096)); ResNext None], this, w') /\
  pv_pages this = [MkFhgfsPage 0 4096; MkFhgfsPage 1 4096].
Proof.
  assert (Hin : pages_in (page_index sample_pages) sample_ops sample_pages).
  { split.
    - intros page p. unfold sample_pages, page_index. cbn [pw_pages].
      intros Hp. apply lookup_insert_Some in Hp as [[<- <-]|[_ Hp]]; [by vm_compute|].
      apply lookup_insert_Some in Hp as [[<- <-]|[_ Hp]]; [by vm_compute|].
      apply lookup_insert_Some in Hp as [[<- <-]|[_ Hp]]; [by vm_compute|]. by rewrite lookup_empty in Hp.
    - repeat constructor; by eexists. }
  pose proof (page_vector_refines 3 true sample_memory false true _ sample_ops sample_pages ltac:(lia) eq_refl Hin) as H.
  vm_compute (seq_run _ _ _ _) in H. destruct H as (this & w' & E & Hp & _). exists this, w'. split; [exact E|exact Hp].
Defined.

(** The end of the iteration does not reset the counters: the function goes on to return NULL, and the first page
    comes again only after a reset. *)
Example end_of_pages_repeats : exists this w',
  pv_run [OpPush true 0 4096; OpNext; OpNext; OpNext; OpReset; OpNext]
    (default sample_memory (FhgfsChunkPageVec_create true sample_memory false true 8)) sample_pages =
    Some ([ResPush true; ResNext (Some (MkFhgfsPage 0 4096)); ResNext None; ResNext None; ResReset; ResNext (Some (MkFhgfsPage 0 4096))], this, w').
Proof. eexists _, _. vm_compute. reflexivity. Qed.
