(* ===== verification/CommKitVec.v ===== *)
(** * Communication for page vectors

    Models [net/filesystem/FhgfsOpsCommKitVec.c] and [.h] and the end of [FhgfsOpsRemoting_rwChunkPageVec]
    ([net/filesystem/FhgfsOpsRemoting.c]), in [client_module/source]: the pages of a vector are read from or written to one
    target, with retries, and handed back to the kernel.

    The stages of a request call each other; the state they share is [CommVec], with the world around it: the pages, the bytes
    that arrive on the connection, those that were sent, and the connections and node references that are held.  What
    the network does in one attempt is a [VecEnv].  A connection delivers [ve_stream] and then fails; a call that gets fewer
    bytes than it asked for has stored those it got.  [None] is an access through a NULL pointer or to a node whose reference was given
    back, a fault of [PageVec.v], or exhausted fuel.  Log output and error injection are left out. *)

From S2P Require Import Prelude StorageErrors Wire StripePattern NetMessageTypes NetMessage MessagesSession BuddyGroup Mappers CommKit CommKitOps Remoting PageVec.

Definition EIO : Z := 5.

Record VecEnv := MkVecEnv {
  ve_buddies : MirrorBuddyGroupMapper;
  ve_resolve : Z -> Z;              (* error of resolving a target, or 0 *)
  ve_connect : bool;
  ve_signal_connect : bool;
  ve_sendHeader : Z;
  ve_sendPage : Z -> Z;             (* by the index of the page *)
  ve_stream : list byte;
  ve_recvErr : Z;
  ve_resp : Z * list byte;          (* the response to a write, in the message buffer *)
  ve_header : NetMessageHeader;     (* uninitialised memory *)
  ve_int64Msg : SimpleInt64Msg;
  ve_ioEnv : IOEnv;
  ve_signal_retry : bool;
  ve_now : Z;                       (* the clock at the end of an attempt *)
  ve_mappingBusy : bool             (* the mapping is tagged dirty or in writeback, or is mapped for writing *)
}.

Record CommVec := MkCommVec {
  cv_reqLen : Z;
  cv_serverSize : Z;
  cv_numSuccessPages : Z;
  cv_pageVec : FhgfsChunkPageVec;
  cv_initialOffset : Z;
  cv_targetID : Z;
  cv_msgBuf : list byte;
  cv_firstWriteDoneForTarget : bool;
  cv_useBuddyMirrorSecond : bool;
  cv_node : bool;
  cv_sock : bool;
  cv_nodeResult : Z;
  cv_doHeader : bool;
  (* the world *)
  cv_pages : PagesWorld;
  cv_stream : list byte;
  cv_sent : list byte;
  cv_nodeRefs : Z;
  cv_sockets : Z;
  cv_writeBackCounter : Z;
  cv_noIsizeDecrease : bool;        (* of the inode, as the counter *)
  cv_lastWriteBack : Z
}.
Definition cv_upd_read (reqLen serverSize : Z) (c : CommVec) : CommVec :=
  MkCommVec reqLen serverSize (cv_numSuccessPages c) (cv_pageVec c) (cv_initialOffset c) (cv_targetID c) (cv_msgBuf c)
    (cv_firstWriteDoneForTarget c) (cv_useBuddyMirrorSecond c) (cv_node c) (cv_sock c) (cv_nodeResult c) (cv_doHeader c) (cv_pages c)
    (cv_stream c) (cv_sent c) (cv_nodeRefs c) (cv_sockets c) (cv_writeBackCounter c) (cv_noIsizeDecrease c) (cv_lastWriteBack c).
Definition cv_inc_success (c : CommVec) : CommVec :=
  MkCommVec (cv_reqLen c) (cv_serverSize c) (cv_numSuccessPages c + 1) (cv_pageVec c) (cv_initialOffset c) (cv_targetID c) (cv_msgBuf c)
    (cv_firstWriteDoneForTarget c) (cv_useBuddyMirrorSecond c) (cv_node c) (cv_sock c) (cv_nodeResult c) (cv_doHeader c) (cv_pages c)
    (cv_stream c) (cv_sent c) (cv_nodeRefs c) (cv_sockets c) (cv_writeBackCounter c) (cv_noIsizeDecrease c) (cv_lastWriteBack c).
Definition cv_set_pages (vec : FhgfsChunkPageVec) (w : PagesWorld) (c : CommVec) : CommVec :=
  MkCommVec (cv_reqLen c) (cv_serverSize c) (cv_numSuccessPages c) vec (cv_initialOffset c) (cv_targetID c) (cv_msgBuf c)
    (cv_firstWriteDoneForTarget c) (cv_useBuddyMirrorSecond c) (cv_node c) (cv_sock c) (cv_nodeResult c) (cv_doHeader c) w
    (cv_stream c) (cv_sent c) (cv_nodeRefs c) (cv_sockets c) (cv_writeBackCounter c) (cv_noIsizeDecrease c) (cv_lastWriteBack c).
Definition cv_set_msgBuf (buf : list byte) (c : CommVec) : CommVec :=
  MkCommVec (cv_reqLen c) (cv_serverSize c) (cv_numSuccessPages c) (cv_pageVec c) (cv_initialOffset c) (cv_targetID c) buf
    (cv_firstWriteDoneForTarget c) (cv_useBuddyMirrorSecond c) (cv_node c) (cv_sock c) (cv_nodeResult c) (cv_doHeader c) (cv_pages c)
    (cv_stream c) (cv_sent c) (cv_nodeRefs c) (cv_sockets c) (cv_writeBackCounter c) (cv_noIsizeDecrease c) (cv_lastWriteBack c).
(** [node] and [refs]: the pointer and the references held; [sock] and [sockets] likewise. *)
Definition cv_set_conn (node sock : bool) (refs sockets : Z) (c : CommVec) : CommVec :=
  MkCommVec (cv_reqLen c) (cv_serverSize c) (cv_numSuccessPages c) (cv_pageVec c) (cv_initialOffset c) (cv_targetID c) (cv_msgBuf c)
    (cv_firstWriteDoneForTarget c) (cv_useBuddyMirrorSecond c) node sock (cv_nodeResult c) (cv_doHeader c) (cv_pages c)
    (cv_stream c) (cv_sent c) refs sockets (cv_writeBackCounter c) (cv_noIsizeDecrease c) (cv_lastWriteBack c).
Definition cv_set_nodeResult (r : Z) (c : CommVec) : CommVec :=
  MkCommVec (cv_reqLen c) (cv_serverSize c) (cv_numSuccessPages c) (cv_pageVec c) (cv_initialOffset c) (cv_targetID c) (cv_msgBuf c)
    (cv_firstWriteDoneForTarget c) (cv_useBuddyMirrorSecond c) (cv_node c) (cv_sock c) r (cv_doHeader c) (cv_pages c)
    (cv_stream c) (cv_sent c) (cv_nodeRefs c) (cv_sockets c) (cv_writeBackCounter c) (cv_noIsizeDecrease c) (cv_lastWriteBack c).
Definition cv_set_doHeader (b : bool) (c : CommVec) : CommVec :=
  MkCommVec (cv_reqLen c) (cv_serverSize c) (cv_numSuccessPages c) (cv_pageVec c) (cv_initialOffset c) (cv_targetID c) (cv_msgBuf c)
    (cv_firstWriteDoneForTarget c) (cv_useBuddyMirrorSecond c) (cv_node c) (cv_sock c) (cv_nodeResult c) b (cv_pages c)
    (cv_stream c) (cv_sent c) (cv_nodeRefs c) (cv_sockets c) (cv_writeBackCounter c) (cv_noIsizeDecrease c) (cv_lastWriteBack c).
Definition cv_set_data (stream sent : list byte) (c : CommVec) : CommVec :=
  MkCommVec (cv_reqLen c) (cv_serverSize c) (cv_numSuccessPages c) (cv_pageVec c) (cv_initialOffset c) (cv_targetID c) (cv_msgBuf c)
    (cv_firstWriteDoneForTarget c) (cv_useBuddyMirrorSecond c) (cv_node c) (cv_sock c) (cv_nodeResult c) (cv_doHeader c) (cv_pages c)
    stream sent (cv_nodeRefs c) (cv_sockets c) (cv_writeBackCounter c) (cv_noIsizeDecrease c) (cv_lastWriteBack c).
Definition cv_add_writeBack (d : Z) (c : CommVec) : CommVec :=
  MkCommVec (cv_reqLen c) (cv_serverSize c) (cv_numSuccessPages c) (cv_pageVec c) (cv_initialOffset c) (cv_targetID c) (cv_msgBuf c)
    (cv_firstWriteDoneForTarget c) (cv_useBuddyMirrorSecond c) (cv_node c) (cv_sock c) (cv_nodeResult c) (cv_doHeader c) (cv_pages c)
    (cv_stream c) (cv_sent c) (cv_nodeRefs c) (cv_sockets c) (cv_writeBackCounter c + d) (cv_noIsizeDecrease c) (cv_lastWriteBack c).

Definition cv_set_inode (noIsizeDecrease : bool) (lastWriteBack : Z) (c : CommVec) : CommVec :=
  MkCommVec (cv_reqLen c) (cv_serverSize c) (cv_numSuccessPages c) (cv_pageVec c) (cv_initialOffset c) (cv_targetID c) (cv_msgBuf c)
    (cv_firstWriteDoneForTarget c) (cv_useBuddyMirrorSecond c) (cv_node c) (cv_sock c) (cv_nodeResult c) (cv_doHeader c) (cv_pages c)
    (cv_stream c) (cv_sent c) (cv_nodeRefs c) (cv_sockets c) (cv_writeBackCounter c) noIsizeDecrease lastWriteBack.

(** ** Initial state and sizes *)

Definition FhgfsOpsCommKitVec_assignRWfileState (pageVec : FhgfsChunkPageVec) (offset targetID : Z) (msgBuf : list byte)
    (w : PagesWorld) (noIsizeDecrease : bool) (lastWriteBack : Z) : CommVec :=
  MkCommVec 0 0 0 pageVec offset targetID msgBuf false false false false (- FhgfsOpsErr_INTERNAL) false w [] [] 0 0 0
    noIsizeDecrease lastWriteBack.
Definition FhgfsOpsCommKitVec_setRWFileStateFirstWriteDone (b : bool) (c : CommVec) : CommVec :=
  MkCommVec (cv_reqLen c) (cv_serverSize c) (cv_numSuccessPages c) (cv_pageVec c) (cv_initialOffset c) (cv_targetID c) (cv_msgBuf c)
    b (cv_useBuddyMirrorSecond c) (cv_node c) (cv_sock c) (cv_nodeResult c) (cv_doHeader c) (cv_pages c)
    (cv_stream c) (cv_sent c) (cv_nodeRefs c) (cv_sockets c) (cv_writeBackCounter c) (cv_noIsizeDecrease c) (cv_lastWriteBack c).
Definition FhgfsOpsCommKitVec_getRemainingDataSize (c : CommVec) : Z := FhgfsChunkPageVec_getRemainingDataSize (cv_pageVec c).
Definition FhgfsOpsCommKitVec_getOffset (c : CommVec) : Z :=
  s64 (cv_initialOffset c + u64 (FhgfsChunkPageVec_getDataSize (cv_pageVec c) - FhgfsOpsCommKitVec_getRemainingDataSize c)).

(** ** Connections *)

(** [comm->node] is used: it must be a node that is referenced. *)
Definition use_node (c : CommVec) : option unit := if cv_node c && (0 <? cv_nodeRefs c) then Some tt else None.

(** [Socket_recvExactT_kernel] into the data of a page, or into a local buffer: the value, the bytes that were stored. *)
Definition recv_exact (e : VecEnv) (len : Z) (c : CommVec) : Z * list byte * CommVec :=
  let got := take (Z.to_nat len) (cv_stream c) in
  (if zlen got =? len then len else ve_recvErr e, got, cv_set_data (drop (Z.to_nat len) (cv_stream c)) (cv_sent c) c).
Definition page_received (page : FhgfsPage) (got : list byte) (w : PagesWorld) : option PagesWorld :=
  on_page pg_mapped (fun p => pg_set_data (got ++ drop (length got) (pg_data p)) p) (fp_page page) w.

(** Both directions have the same clean-up. *)
Definition __FhgfsOpsCommKitVec_stageCLEANUP (c : CommVec) : option CommVec :=
  c ← (if cv_sock c then _ ← use_node c; Some (cv_set_conn (cv_node c) false (cv_nodeRefs c) (cv_sockets c - 1) c) else Some c);
  if cv_node c then _ ← use_node c; Some (cv_set_conn true (cv_sock c) (cv_nodeRefs c - 1) (cv_sockets c) c) else Some c.
Definition __FhgfsOpsCommKitVec_stageSOCKETEXCEPTION (c : CommVec) : option CommVec :=
  _ ← use_node c;
  if negb (cv_sock c) then None
  else
    let c := cv_set_conn (cv_node c) false (cv_nodeRefs c) (cv_sockets c - 1) c in
    let c := if 0 <=? cv_nodeResult c then cv_set_nodeResult (- FhgfsOpsErr_COMMUNICATION) c else c in
    __FhgfsOpsCommKitVec_stageCLEANUP c.

Section Kit.
Context (se : FileSession).

(** The values of a request, as the request functions of [CommKitOps.v] take them: both kits build the same messages. *)
Definition vec_info (selected offset size : Z) (c : CommVec) : FileOpInfo :=
  MkCommKitTargetInfo CommKitState_PREPARE (Some (cv_msgBuf c)) (cv_targetID c) selected (cv_useBuddyMirrorSecond c) None None 0
    (cv_nodeResult c)
    (MkFileOpFields 0 0 size (MkIovIter 0 0) offset (cv_firstWriteDoneForTarget c) false (MkIovIter 0 0)).

(** What both PREPARE stages do before the message: the pool's connection, or the error. *)
Definition vec_connect (e : VecEnv) (interrupted : Z -> Z) (c : CommVec) : Z * bool * CommVec :=
  let c := cv_set_nodeResult (- FhgfsOpsErr_COMMUNICATION) (cv_set_conn (cv_node c) false (cv_nodeRefs c) (cv_sockets c) c) in
  let selected := select_target (Some (se_patternType se)) (ve_buddies e) (cv_targetID c) (cv_useBuddyMirrorSecond c) in
  let resolveErr := ve_resolve e selected in
  if negb (resolveErr =? 0) then
    (selected, false, cv_set_nodeResult (s64 (- resolveErr)) (cv_set_conn false false (cv_nodeRefs c) (cv_sockets c) c))
  else
    let c := cv_set_conn true false (cv_nodeRefs c + 1) (cv_sockets c) c in
    if negb (ve_connect e) then
      (selected, false, if ve_signal_connect e then cv_set_nodeResult (interrupted (cv_nodeResult c)) c else c)
    else (selected, true, cv_set_data (ve_stream e) [] (cv_set_conn true true (cv_nodeRefs c) (cv_sockets c + 1) c)).

(** ** Reading *)

Definition __FhgfsOpsCommKitVec_handleReadError (recvRes : Z) (c : CommVec) : option CommVec :=
  let c :=
    if recvRes =? - EFAULT then cv_set_nodeResult (- FhgfsOpsErr_ADDRESSFAULT) c
    else if recvRes =? - ETIMEDOUT then cv_set_nodeResult (- FhgfsOpsErr_COMMUNICATION) c
    else cv_set_nodeResult (- FhgfsOpsErr_INTERNAL) c in
  __FhgfsOpsCommKitVec_stageSOCKETEXCEPTION c.

(** The loop over the pages, up to the size that the server promised. *)
Fixpoint recv_pages (fuel : nat) (e : VecEnv) (receiveSum : Z) (c : CommVec) : option CommVec :=
  match fuel with
  | O => None
  | S fuel =>
      '(next, vec) ← FhgfsChunkPageVec_iterateGetNextPage (cv_pageVec c);
      let c := cv_set_pages vec (cv_pages c) c in
      match next with
      | None => __FhgfsOpsCommKitVec_stageSOCKETEXCEPTION (cv_set_nodeResult (- FhgfsOpsErr_INTERNAL) c)
      | Some fhgfsPage =>
          let pageLen := u64 (fp_length fhgfsPage) in
          let requestLength := Z.min pageLen (u64 (cv_serverSize c - receiveSum)) in
          let '(recvRes, got, c) := recv_exact e requestLength c in
          w ← page_received fhgfsPage got (cv_pages c);
          let c := cv_set_pages (cv_pageVec c) w c in
          if recvRes <=? 0 then __FhgfsOpsCommKitVec_handleReadError recvRes c
          else
            let receiveSum := u64 (receiveSum + recvRes) in
            if (requestLength <? pageLen) && (receiveSum <? cv_serverSize c) then
              __FhgfsOpsCommKitVec_handleReadError recvRes c
            else
              let c := cv_inc_success c in
              if receiveSum <? cv_serverSize c then recv_pages fuel e receiveSum c
              else Some (cv_set_doHeader true (cv_set_nodeResult (s64 (cv_nodeResult c + receiveSum)) c))
      end
  end.
(** There is one turn for every page, and one that finds no page. *)
Definition page_fuel (c : CommVec) : nat := S (Z.to_nat (pv_size (cv_pageVec c))).
Definition __FhgfsOpsCommKitVec_readfileStageRECVDATA (e : VecEnv) (c : CommVec) : option CommVec :=
  recv_pages (page_fuel c) e 0 c.

Definition __FhgfsOpsCommKitVec_readfileStageRECVHEADER (e : VecEnv) (c : CommVec) : option CommVec :=
  _ ← use_node c;
  if negb (cv_sock c) then None
  else
    let '(recvRes, dataLenBuf, c) := recv_exact e 8 c in
    if recvRes <=? 0 then __FhgfsOpsCommKitVec_stageSOCKETEXCEPTION c
    else
      let lengthInfo := s64 (le_combine dataLenBuf) in
      if lengthInfo <=? 0 then
        if lengthInfo <? 0 then __FhgfsOpsCommKitVec_stageSOCKETEXCEPTION (cv_set_nodeResult lengthInfo c)
        else __FhgfsOpsCommKitVec_stageCLEANUP c
      else if cv_reqLen c <? lengthInfo then __FhgfsOpsCommKitVec_stageSOCKETEXCEPTION c
      else __FhgfsOpsCommKitVec_readfileStageRECVDATA e (cv_upd_read (cv_reqLen c) lengthInfo c).

Definition __FhgfsOpsCommKitVec_readfileStagePREPARE (e : VecEnv) (c : CommVec) : option CommVec :=
  let offset := FhgfsOpsCommKitVec_getOffset c in
  let c := cv_upd_read (FhgfsOpsCommKitVec_getRemainingDataSize c) (cv_serverSize c) c in
  let '(selected, connected, c) := vec_connect e (fun _ => FhgfsOpsErr_INTERRUPTED) c in
  if negb connected then __FhgfsOpsCommKitVec_stageCLEANUP c
  else
    let info := vec_info selected offset (cv_reqLen c) c in
    '(info, hdrLen) ← serialize_request (readfile_request se info) info;
    buf ← ti_headerBuffer info;
    let c := cv_set_nodeResult 0 (cv_set_msgBuf buf c) in
    if ve_sendHeader e <=? 0 then __FhgfsOpsCommKitVec_readfileStageRECVHEADER e c
    else __FhgfsOpsCommKitVec_readfileStageRECVHEADER e c.

(** [while(comm->doHeader)]: every turn but the last takes a page. *)
Fixpoint read_headers (fuel : nat) (e : VecEnv) (c : CommVec) : option CommVec :=
  if negb (cv_doHeader c) then Some c
  else match fuel with
  | O => None
  | S fuel => c ← __FhgfsOpsCommKitVec_readfileStageRECVHEADER e (cv_set_doHeader false c); read_headers fuel e c
  end.
Definition __FhgfsOpsCommKitVec_readfileCommunicate (e : VecEnv) (c : CommVec) : option (Z * CommVec) :=
  c ← __FhgfsOpsCommKitVec_readfileStagePREPARE e (cv_set_doHeader false c);
  c ← read_headers (page_fuel c) e c;
  Some (cv_nodeResult c, c).

(** ** Writing *)

Definition __FhgfsOpsCommKitVec_writefileStageRECV (e : VecEnv) (c : CommVec) : option CommVec :=
  let '(respRes, msgBuf) := ve_resp e in
  let c := cv_set_msgBuf msgBuf c in
  if respRes <=? 0 then __FhgfsOpsCommKitVec_stageSOCKETEXCEPTION c
  else
    match NetMessageFactory_deserializeFromBuf (ve_header e) msgBuf respRes
            (NetMessage_init (se_fsuid se) NETMSGTYPE_WriteLocalFileResp (ve_int64Msg e)) NETMSGTYPE_WriteLocalFileResp with
    | Done resp _ => __FhgfsOpsCommKitVec_stageCLEANUP (cv_set_nodeResult (s64 (si64_value (msgBody resp))) c)
    | Refused => __FhgfsOpsCommKitVec_stageSOCKETEXCEPTION c
    | BadRead _ => None
    end.

Fixpoint send_pages (fuel : nat) (e : VecEnv) (c : CommVec) : option CommVec :=
  match fuel with
  | O => None
  | S fuel =>
      let vecIdx := FhgfsChunkPageVec_getCurrentListVecIterIdx (cv_pageVec c) in
      '(next, vec) ← FhgfsChunkPageVec_iterateGetNextPage (cv_pageVec c);
      let c := cv_set_pages vec (cv_pages c) c in
      match next with
      | None => __FhgfsOpsCommKitVec_writefileStageRECV e c
      | Some fhgfsPage =>
          p ← pw_pages (cv_pages c) !! fp_page fhgfsPage;
          if negb (pg_mapped p) then None
          else
            let dataLength := u64 (fp_length fhgfsPage) in
            let sendDataPartRes := ve_sendPage e vecIdx in
            if sendDataPartRes <=? 0 then
              __FhgfsOpsCommKitVec_stageSOCKETEXCEPTION
                (if sendDataPartRes =? - EFAULT then cv_set_nodeResult (- FhgfsOpsErr_ADDRESSFAULT) c else c)
            else
              let c := cv_set_data (cv_stream c)
                (cv_sent c ++ take (Z.to_nat (Z.min sendDataPartRes dataLength)) (pg_data p)) c in
              if sendDataPartRes <? dataLength then __FhgfsOpsCommKitVec_stageSOCKETEXCEPTION c
              else send_pages fuel e c
      end
  end.
Definition __FhgfsOpsCommKitVec_writefileStageSENDDATA (e : VecEnv) (c : CommVec) : option CommVec :=
  send_pages (page_fuel c) e c.

Definition __FhgfsOpsCommKitVec_writefileStageSENDHEADER (e : VecEnv) (c : CommVec) : option CommVec :=
  if negb (cv_sock c) then None
  else if ve_sendHeader e <=? 0 then __FhgfsOpsCommKitVec_stageSOCKETEXCEPTION c
  else __FhgfsOpsCommKitVec_writefileStageSENDDATA e c.

Definition __FhgfsOpsCommKitVec_writefileStagePREPARE (e : VecEnv) (c : CommVec) : option CommVec :=
  let remainingDataSize := FhgfsOpsCommKitVec_getRemainingDataSize c in
  let offset := FhgfsOpsCommKitVec_getOffset c in
  let '(selected, connected, c) := vec_connect e (fun r => r) c in
  if negb connected then __FhgfsOpsCommKitVec_stageCLEANUP c
  else
    let info := vec_info selected offset remainingDataSize c in
    '(info, hdrLen) ← serialize_request (writefile_request se (ve_ioEnv e) info) info;
    buf ← ti_headerBuffer info;
    Some (cv_set_doHeader true (cv_set_msgBuf buf c)).

Definition FhgfsInode_setLastWriteBackOrIsizeWriteTime (now : Z) (c : CommVec) : CommVec := cv_set_inode (cv_noIsizeDecrease c) now c.
Definition FhgfsInode_unsetNoIsizeDecrease (mappingBusy : bool) (c : CommVec) : CommVec :=
  if negb (cv_noIsizeDecrease c) then c
  else if negb (cv_writeBackCounter c =? 0) then c
  else if negb (pw_numDirtyPages (cv_pages c) =? 0) || mappingBusy then c
  else cv_set_inode false (cv_lastWriteBack c) c.

(** [while(comm->doHeader)]: no stage sets the flag again. *)
Definition __FhgfsOpsCommKitVec_writefileCommunicate (e : VecEnv) (c : CommVec) : option (Z * CommVec) :=
  let c := cv_add_writeBack 1 c in
  c ← __FhgfsOpsCommKitVec_writefileStagePREPARE e (cv_set_doHeader false c);
  c ← (if cv_doHeader c then __FhgfsOpsCommKitVec_writefileStageSENDHEADER e (cv_set_doHeader false c) else Some c);
  if cv_doHeader c then None
  else
    let c := cv_add_writeBack (-1) (FhgfsInode_setLastWriteBackOrIsizeWriteTime (ve_now e) c) in
    Some (cv_nodeResult c, FhgfsInode_unsetNoIsizeDecrease (ve_mappingBusy e) c).

(** ** The end of the request *)

(** Pages with data that were read; [readRes] is what is left of the result. *)
Fixpoint end_read_pages (fuel : nat) (pgCount readRes : Z) (c : CommVec) : option (Z * CommVec) :=
  match fuel with
  | O => None
  | S fuel =>
      if (pgCount <? cv_numSuccessPages c) && (0 <? readRes) then
        '(next, vec) ← FhgfsChunkPageVec_iterateGetNextPage (cv_pageVec c);
        match next with
        | None => Some (readRes, cv_set_pages vec (cv_pages c) c)
        | Some fhgfsPage =>
            w ← FhgfsOpsPages_endReadPage fhgfsPage (s32 readRes) (cv_pages c);
            end_read_pages fuel (pgCount + 1) (s64 (readRes - PAGE_SIZE)) (cv_set_pages vec w c)
        end
      else Some (readRes, c)
  end.
Fixpoint end_remaining_pages (fuel : nat) (needInodeRefresh : bool) (c : CommVec) : option CommVec :=
  match fuel with
  | O => None
  | S fuel =>
      let pageReadRes := if 0 <=? cv_nodeResult c then s32 (cv_nodeResult c) else -1 in
      '(next, vec) ← FhgfsChunkPageVec_iterateGetNextPage (cv_pageVec c);
      match next with
      | None => Some (cv_set_pages vec (cv_pages c) c)
      | Some fhgfsPage =>
          '(needInodeRefresh, w) ←
            (if 0 <=? pageReadRes then
               index ← FhgfsPage_getPageIndex fhgfsPage (cv_pages c);
               let '(isShortRead, w) := FhgfsOpsPages_isShortRead index needInodeRefresh (cv_pages c) in
               w ← (if isShortRead : bool then FhgfsPage_zeroPage fhgfsPage w else Some w);
               Some (false, w)
             else Some (needInodeRefresh, cv_pages c));
          w ← FhgfsOpsPages_endReadPage fhgfsPage pageReadRes w;
          end_remaining_pages fuel needInodeRefresh (cv_set_pages vec w c)
      end
  end.
Definition vec_retryable (r : Z) : bool := (r =? - FhgfsOpsErr_COMMUNICATION) || (r =? - FhgfsOpsErr_AGAIN).
Definition __FhgfsOpsCommKitVec_readfileStageHandlePages (c : CommVec) : option CommVec :=
  if vec_retryable (cv_nodeResult c) then Some c
  else
    let c := cv_set_pages (FhgfsChunkPageVec_resetIterator (cv_pageVec c)) (cv_pages c) c in
    '(readRes, c) ← end_read_pages (page_fuel c) 0 (cv_nodeResult c) c;
    let c := if 0 <? readRes then cv_set_nodeResult (- FhgfsOpsErr_INTERNAL) c else c in
    end_remaining_pages (page_fuel c) true c.

(** [firstUnhandled]: the index of the page at which the iterator stood; no page is in progress ([lastInProgressPage] is NULL). *)
Fixpoint end_write_pages (fuel : nat) (firstUnhandled : option Z) (remainingServerWriteRes : Z) (c : CommVec) : option CommVec :=
  match fuel with
  | O => None
  | S fuel =>
      let idx := pv_currentListVecIterIdx (cv_pageVec c) in
      '(next, vec) ← FhgfsChunkPageVec_iterateGetNextPage (cv_pageVec c);
      match next with
      | None => Some (cv_set_pages vec (cv_pages c) c)
      | Some fhgfsPage =>
          let '(writeRes, remaining) :=
            if 0 <? remainingServerWriteRes then (fp_length fhgfsPage, s64 (remainingServerWriteRes - fp_length fhgfsPage))
            else (- EREMOTEIO, remainingServerWriteRes) in
          let writeRes := if bool_decide (firstUnhandled = Some idx) && (0 <? remaining) then - EIO else writeRes in
          let w := if writeRes <? 0 then FhgfsInode_setWritePageError (cv_pages c) else cv_pages c in
          w ← FhgfsOpsPages_endWritePage (fp_page fhgfsPage) writeRes w;
          end_write_pages fuel firstUnhandled remaining (cv_set_pages vec w c)
      end
  end.
Definition __FhgfsOpsCommKitVec_writefileStageHandlePages (c : CommVec) : option CommVec :=
  if vec_retryable (cv_nodeResult c) then Some c
  else
    let idx := pv_currentListVecIterIdx (cv_pageVec c) in
    '(next, vec) ← FhgfsChunkPageVec_iterateGetNextPage (cv_pageVec c);
    let firstUnhandled := match next with Some _ => Some idx | None => None end in
    let c := cv_set_pages (FhgfsChunkPageVec_resetIterator vec) (cv_pages c) c in
    end_write_pages (page_fuel c) firstUnhandled (cv_nodeResult c) c.

(** ** Attempts *)

Definition communicate_once (rwType : Fhgfs_RWType) (e : VecEnv) (c : CommVec) : option (Z * CommVec) :=
  let c := cv_set_pages (FhgfsChunkPageVec_resetIterator (cv_pageVec c)) (cv_pages c) c in
  match rwType with
  | BEEGFS_RWTYPE_READ => __FhgfsOpsCommKitVec_readfileCommunicate e c
  | BEEGFS_RWTYPE_WRITE => __FhgfsOpsCommKitVec_writefileCommunicate e c
  end.
(** The loop over the attempts; [retries] is an [unsigned]. *)
Fixpoint rwFile_attempts (fuel : nat) (rwType : Fhgfs_RWType) (env : nat -> VecEnv) (maxRetries retries : Z) (c : CommVec) :
    option (Z * CommVec) :=
  match fuel with
  | O => None
  | S fuel =>
      '(retVal, c) ← communicate_once rwType (env O) c;
      let isSignalPending := vec_retryable retVal && ve_signal_retry (env O) in
      let retries := if vec_retryable retVal then u32 (retries + 1) else retries in
      let '(retVal, retries) :=
        if retVal =? - FhgfsOpsErr_AGAIN then (- FhgfsOpsErr_COMMUNICATION, 0) else (retVal, retries) in
      if (retVal =? - FhgfsOpsErr_COMMUNICATION) && (retries <=? maxRetries) && negb isSignalPending
      then rwFile_attempts fuel rwType (fun i => env (S i)) maxRetries retries c
      else Some (retVal, c)
  end.
Definition FhgfsOpsCommKitVec_rwFileCommunicate (fuel : nat) (env : nat -> VecEnv) (maxRetries : Z) (rwType : Fhgfs_RWType)
    (c : CommVec) : option (Z * CommVec) :=
  '(retVal, c) ← rwFile_attempts fuel rwType env maxRetries 0 c;
  c ← match rwType with
      | BEEGFS_RWTYPE_READ => __FhgfsOpsCommKitVec_readfileStageHandlePages c
      | BEEGFS_RWTYPE_WRITE => __FhgfsOpsCommKitVec_writefileStageHandlePages c
      end;
  Some (retVal, c).

(** [FhgfsOpsRemoting_rwChunkPageVec] from the communication on: pages that it believes untouched are handed back. *)
Definition rwChunkPageVec_io (fuel : nat) (env : nat -> VecEnv) (maxRetries : Z) (rwType : Fhgfs_RWType) (c : CommVec) :
    option (Z * CommVec) :=
  '(retVal, c) ← FhgfsOpsCommKitVec_rwFileCommunicate fuel env maxRetries rwType c;
  if retVal =? - FhgfsOpsErr_COMMUNICATION then
    '(vec, w) ← match rwType with
      | BEEGFS_RWTYPE_WRITE => FhgfsChunkPageVec_iterateAllHandleWritePages (page_fuel c) (- EAGAIN) (cv_pageVec c) (cv_pages c)
      | BEEGFS_RWTYPE_READ => FhgfsChunkPageVec_iterateAllHandleReadErr (page_fuel c) (cv_pageVec c) (cv_pages c)
      end;
    Some (retVal, cv_set_pages vec w c)
  else Some (retVal, c).
End Kit.
