(* ===== verification/CommKitVecFacts.v ===== *)
(** * Properties of the communication for page vectors

    Whatever the network does, a request for a page vector gives back its connection and its node reference and ends every page
    once, unless it fails with a communication error after pages were sent or received. *)

From S2P Require Import Prelude StorageErrors Wire Serialization SerializationFacts StripePattern StripePatternFacts NetMessageTypes NetMessage MessagesSession MessagesFacts BuddyGroup Mappers CommKit CommKitFacts CommKitOps CommKitOpsFacts Remoting PageVec PageVecFacts CommKitVec.

(** ** Pages in flight *)

Definition pending (rw : Fhgfs_RWType) (p : Page) : Prop :=
  pg_mapped p = true /\ pg_locked p = true /\
  match rw with BEEGFS_RWTYPE_WRITE => pg_writeback p = true | BEEGFS_RWTYPE_READ => 0 < pg_refs p end.
Definition ended (rw : Fhgfs_RWType) (p : Page) : Prop :=
  pg_mapped p = false /\ pg_locked p = false /\
  match rw with BEEGFS_RWTYPE_WRITE => pg_writeback p = false | BEEGFS_RWTYPE_READ => True end.

Lemma on_page_ok ok f page w p : pw_pages w !! page = Some p -> ok p = true ->
  on_page ok f page w = Some (pw_set_pages (<[page := f p]> (pw_pages w)) w).
Proof. intros Hp Hok. unfold on_page. rewrite Hp. cbn. by rewrite Hok. Qed.

(** The page after the end of a write with the result [r]. *)
Definition write_ended (r : Z) (p : Page) : Page :=
  let p := pg_set_mapped false p in
  let p := if r <=? 0 then if (r =? - EAGAIN) || (r =? 0) then pg_set_dirty p else pg_set_wbError r p else p in
  pg_set_locked false (pg_set_writeback false p).
Lemma endWritePage_ok page r w p : pw_pages w !! page = Some p -> pending BEEGFS_RWTYPE_WRITE p -> exists w',
  FhgfsOpsPages_endWritePage page r w = Some w' /\ pw_pages w' = <[page := write_ended r p]> (pw_pages w).
Proof.
  intros Hp (Hm & Hl & Hw). unfold FhgfsOpsPages_endWritePage, write_ended, kunmap, set_page_dirty, fhgfs_set_wb_error,
    end_page_writeback, unlock_page, any_page.
  rewrite (on_page_ok _ _ _ _ p) by done. cbn [mbind option_bind].
  destruct (r <=? 0); [destruct ((r =? - EAGAIN) || (r =? 0))|]; cbn [mbind option_bind];
    repeat (erewrite on_page_ok; [|cbn; apply lookup_insert_eq|done]; cbn [mbind option_bind]);
    (eexists; split; [reflexivity|]); cbn; by rewrite !insert_insert_eq.
Qed.

Definition read_ended (r : Z) (p : Page) : Page :=
  let p := if r <? 0 then pg_set_wbError r p
    else pg_set_uptodate true (if negb (r =? 0) && (r <? PAGE_SIZE)
      then pg_set_data (take (Z.to_nat r) (pg_data p) ++ replicate (Z.to_nat (PAGE_SIZE - r)) Byte.x00) p else p) in
  pg_add_refs (-1) (pg_set_locked false (pg_set_mapped false p)).
Lemma inc_size_pages offset r w : pw_pages (FhgfsOpsPages_incInodeFileSizeOnPagedRead offset r w) = pw_pages w.
Proof.
  assert (Hr : forall w, pw_pages (__FhgfsOps_doRefreshInode w) = pw_pages w).
  { intros v. unfold __FhgfsOps_doRefreshInode. by destruct (pw_refreshes v). }
  unfold FhgfsOpsPages_incInodeFileSizeOnPagedRead, __FhgfsOpsPages_incInodeFileSizeOnPagedRead.
  repeat (case_match || cbn); rewrite ?Hr; done.
Qed.
Lemma endReadPage_ok q r w p : pw_pages w !! fp_page q = Some p -> pending BEEGFS_RWTYPE_READ p -> exists w',
  FhgfsOpsPages_endReadPage q r w = Some w' /\ pw_pages w' = <[fp_page q := read_ended r p]> (pw_pages w).
Proof.
  intros Hp (Hm & Hl & Hr). unfold FhgfsOpsPages_endReadPage, FhgfsPage_getFileOffset, FhgfsPage_getPageIndex.
  rewrite Hp. cbn [mbind option_bind fmap option_fmap option_map]. set (w1 := FhgfsOpsPages_incInodeFileSizeOnPagedRead _ _ _).
  assert (Hw1 : pw_pages w1 = pw_pages w) by apply inc_size_pages. rewrite <- Hw1 in Hp |- *. clearbody w1. clear Hw1.
  unfold read_ended, fhgfs_set_wb_error, SetPageUptodate, FhgfsPage_unmapUnlockReleasePage, kunmap, unlock_page, put_page, any_page.
  assert (Hr2 : (0 <? pg_refs p) = true) by (by apply Z.ltb_lt).
  destruct (r <? 0); [|destruct (negb (r =? 0) && (r <? PAGE_SIZE))]; cbn [mbind option_bind];
    (erewrite on_page_ok; [|exact Hp|done]; cbn [mbind option_bind]);
    repeat (erewrite on_page_ok; [|cbn; apply lookup_insert_eq|done]; cbn [mbind option_bind]);
    (eexists; split; [reflexivity|]); cbn; by rewrite !insert_insert_eq.
Qed.
Lemma release_ok_page q w p : pw_pages w !! fp_page q = Some p -> pending BEEGFS_RWTYPE_READ p -> exists w',
  FhgfsPage_unmapUnlockReleaseFhgfsPage q w = Some w' /\
  pw_pages w' = <[fp_page q := pg_add_refs (-1) (pg_set_locked false (pg_set_mapped false p))]> (pw_pages w).
Proof.
  intros Hp (Hm & Hl & Hr). unfold FhgfsPage_unmapUnlockReleaseFhgfsPage, FhgfsPage_unmapUnlockReleasePage, kunmap, unlock_page, put_page.
  assert (Hr2 : (0 <? pg_refs p) = true) by (by apply Z.ltb_lt).
  rewrite (on_page_ok _ _ _ _ p) by done. cbn [mbind option_bind].
  repeat (erewrite on_page_ok; [|cbn; apply lookup_insert_eq|done]; cbn [mbind option_bind]).
  eexists. split; [reflexivity|]. cbn. by rewrite !insert_insert_eq.
Qed.
Lemma zeroPage_ok q w p : pw_pages w !! fp_page q = Some p -> pg_mapped p = true -> exists w',
  FhgfsPage_zeroPage q w = Some w' /\ pw_pages w' = <[fp_page q := pg_set_data (replicate (Z.to_nat PAGE_SIZE) Byte.x00) p]> (pw_pages w).
Proof. intros Hp Hm. unfold FhgfsPage_zeroPage. rewrite (on_page_ok _ _ _ _ p) by done. by eexists. Qed.

(** ** Loops over pages *)

(** Each page is in flight, and no page occurs twice. *)
Definition all_pending (rw : Fhgfs_RWType) (w : PagesWorld) (l : list FhgfsPage) : Prop :=
  NoDup (fp_page <$> l) /\ Forall (fun q => exists p, pw_pages w !! fp_page q = Some p /\ pending rw p) l.
(** The pages [l] have changed by [P], with their index; the others have not changed. *)
Definition finals (P : nat -> Page -> Page -> Prop) (w w' : PagesWorld) (l : list FhgfsPage) : Prop :=
  (forall i q, l !! i = Some q -> exists p p', pw_pages w !! fp_page q = Some p /\ pw_pages w' !! fp_page q = Some p' /\ P i p p') /\
  (forall x, x ∉ fp_page <$> l -> pw_pages w' !! x = pw_pages w !! x).

Lemma all_pending_cons rw w q l : all_pending rw w (q :: l) ->
  (exists p, pw_pages w !! fp_page q = Some p /\ pending rw p) /\ fp_page q ∉ fp_page <$> l /\ all_pending rw w l.
Proof.
  intros [Hn [Hq Hl]%Forall_cons_iff]. cbn in Hn. inversion Hn as [|? ? Hn1 Hn2]; subst.
  split; [done|]. split; [done|]. by split.
Qed.
Lemma all_pending_insert rw w w1 q p l : fp_page q ∉ fp_page <$> l -> pw_pages w1 = <[fp_page q := p]> (pw_pages w) ->
  all_pending rw w l -> all_pending rw w1 l.
Proof.
  intros Hq E [Hn Hl]. split; [done|]. rewrite Forall_forall in Hl |- *. intros r Hr. destruct (Hl r Hr) as (p0 & Hp & Hpend).
  exists p0. split; [|done]. rewrite E, lookup_insert_ne; [done|]. intros Eq. apply Hq. rewrite Eq.
  apply list_elem_of_fmap_2. by apply list_elem_of_In.
Qed.
Lemma finals_nil P w w' : pw_pages w' = pw_pages w -> finals P w w' [].
Proof. intros E. split; [done|]. intros. by rewrite E. Qed.
Lemma finals_cons P w w1 w' q p p' l : fp_page q ∉ fp_page <$> l -> pw_pages w !! fp_page q = Some p ->
  pw_pages w1 = <[fp_page q := p']> (pw_pages w) -> P O p p' -> finals (fun i => P (S i)) w1 w' l -> finals P w w' (q :: l).
Proof.
  intros Hq Hp E HP [Hl Ho]. split.
  - intros [|i] r; cbn.
    + intros [= <-]. exists p, p'. split; [done|]. split; [|done]. by rewrite (Ho _ Hq), E, lookup_insert_eq.
    + intros Hr. destruct (Hl i r Hr) as (p0 & p1 & H1 & H2 & H3). exists p0, p1. split; [|done].
      rewrite E, lookup_insert_ne in H1; [done|]. intros Eq. apply Hq. rewrite Eq. apply list_elem_of_fmap_2. by eapply list_elem_of_lookup_2.
  - intros x. cbn. rewrite not_elem_of_cons. intros [Hne Hx]. by rewrite (Ho x Hx), E, lookup_insert_ne.
Qed.
Lemma finals_impl (P Q : nat -> Page -> Page -> Prop) w w' l : (forall i p p', P i p p' -> Q i p p') -> finals P w w' l -> finals Q w w' l.
Proof. intros HPQ [Hl Ho]. split; [|done]. intros i q Hq. destruct (Hl i q Hq) as (p & p' & ? & ? & ?). eauto 6. Qed.

(** The rest of a vector, page by page. *)
Lemma next_page rw w vec q rest : pv_ok vec -> pv_rest vec = q :: rest -> all_pending rw w (q :: rest) -> exists vec' p,
  FhgfsChunkPageVec_iterateGetNextPage vec = Some (Some q, vec') /\ pv_ok vec' /\ pv_same vec vec' /\ pv_rest vec' = rest /\
  pv_currentListVecIterIdx vec' = pv_currentListVecIterIdx vec + 1 /\
  pw_pages w !! fp_page q = Some p /\ pending rw p /\ fp_page q ∉ fp_page <$> rest /\ all_pending rw w rest.
Proof.
  intros Hok Er Hp. pose proof (next_page_of_rest vec Hok) as Hit. rewrite Er in Hit. destruct Hit as (vec' & E & Hok' & Hs & Hr & Hi).
  destruct (all_pending_cons rw w q rest Hp) as ((p & Hp1 & Hp2) & Hn & Ht). exists vec', p. auto 12.
Qed.

Lemma iterate_write_ok r : forall fuel vec w, pv_ok vec -> (length (pv_rest vec) < fuel)%nat -> all_pending BEEGFS_RWTYPE_WRITE w (pv_rest vec) ->
  exists vec' w', FhgfsChunkPageVec_iterateAllHandleWritePages fuel r vec w = Some (vec', w') /\ pv_same vec vec' /\
    finals (fun _ p p' => p' = write_ended r p) w w' (pv_rest vec).
Proof.
  induction fuel as [|fuel IH]; intros vec w Hok Hf Hp; [lia|]. cbn [FhgfsChunkPageVec_iterateAllHandleWritePages].
  destruct (pv_rest vec) as [|q rest] eqn:Er.
  - pose proof (next_page_of_rest vec Hok) as Hit. rewrite Er in Hit. rewrite Hit. cbn. eexists _, _. split; [done|]. split; [done|]. by apply finals_nil.
  - destruct (next_page _ w vec q rest Hok Er Hp) as (vec' & p & -> & Hok' & Hs & Hr & _ & Hp1 & Hp2 & Hn & Ht). cbn [mbind option_bind].
    destruct (endWritePage_ok _ r w p Hp1 Hp2) as (w1 & -> & E1). cbn [mbind option_bind].
    destruct (IH vec' w1 Hok') as (vec2 & w2 & E2 & Hs2 & Hfin); [rewrite Hr; cbn in Hf; lia|rewrite Hr; by eapply all_pending_insert|].
    exists vec2, w2. split; [done|]. split; [by eapply pv_same_trans|]. rewrite Hr in Hfin. by eapply finals_cons.
Qed.
Lemma iterate_read_ok : forall fuel vec w, pv_ok vec -> (length (pv_rest vec) < fuel)%nat -> all_pending BEEGFS_RWTYPE_READ w (pv_rest vec) ->
  exists vec' w', FhgfsChunkPageVec_iterateAllHandleReadErr fuel vec w = Some (vec', w') /\ pv_same vec vec' /\
    finals (fun _ p p' => p' = pg_add_refs (-1) (pg_set_locked false (pg_set_mapped false p))) w w' (pv_rest vec).
Proof.
  induction fuel as [|fuel IH]; intros vec w Hok Hf Hp; [lia|]. cbn [FhgfsChunkPageVec_iterateAllHandleReadErr].
  destruct (pv_rest vec) as [|q rest] eqn:Er.
  - pose proof (next_page_of_rest vec Hok) as Hit. rewrite Er in Hit. rewrite Hit. cbn. eexists _, _. split; [done|]. split; [done|]. by apply finals_nil.
  - destruct (next_page _ w vec q rest Hok Er Hp) as (vec' & p & -> & Hok' & Hs & Hr & _ & Hp1 & Hp2 & Hn & Ht). cbn [mbind option_bind].
    destruct (release_ok_page q w p Hp1 Hp2) as (w1 & -> & E1). cbn [mbind option_bind].
    destruct (IH vec' w1 Hok') as (vec2 & w2 & E2 & Hs2 & Hfin); [rewrite Hr; cbn in Hf; lia|rewrite Hr; by eapply all_pending_insert|].
    exists vec2, w2. split; [done|]. split; [by eapply pv_same_trans|]. rewrite Hr in Hfin. by eapply finals_cons.
Qed.

(** ** Handing back the pages *)

(** Pages with data: the first [k] ones. *)
Lemma end_read_pages_ok : forall fuel pgCount readRes c,
  pv_ok (cv_pageVec c) -> (length (pv_rest (cv_pageVec c)) < fuel)%nat -> all_pending BEEGFS_RWTYPE_READ (cv_pages c) (pv_rest (cv_pageVec c)) ->
  in_s 64 readRes -> exists k vec w,
  end_read_pages fuel pgCount readRes c = Some (readRes - PAGE_SIZE * Z.of_nat k, cv_set_pages vec w c) /\
  pv_ok vec /\ pv_same (cv_pageVec c) vec /\ pv_rest vec = drop k (pv_rest (cv_pageVec c)) /\
  finals (fun i p p' => p' = read_ended (s32 (readRes - PAGE_SIZE * Z.of_nat i)) p) (cv_pages c) w (take k (pv_rest (cv_pageVec c))) /\
  (forall i, (i < k)%nat -> 0 < readRes - PAGE_SIZE * Z.of_nat i /\ pgCount + Z.of_nat i < cv_numSuccessPages c) /\
  ((length (pv_rest (cv_pageVec c)) <= k)%nat \/ readRes - PAGE_SIZE * Z.of_nat k <= 0 \/ cv_numSuccessPages c <= pgCount + Z.of_nat k).
Proof.
  induction fuel as [|fuel IH]; intros pgCount readRes c Hok Hf Hp Hr; [lia|]. cbn [end_read_pages].
  destruct (Z.ltb_spec pgCount (cv_numSuccessPages c)) as [Hc|Hc], (Z.ltb_spec 0 readRes) as [H0|H0]; cbn [andb];
    try (exists O, (cv_pageVec c), (cv_pages c); rewrite Z.mul_0_r, Z.sub_0_r, drop_0, take_0; split; [by destruct c|];
         split; [done|]; split; [done|]; split; [done|]; split; [by apply finals_nil|]; split; [lia|]; lia).
  destruct (pv_rest (cv_pageVec c)) as [|q rest] eqn:Er.
  - pose proof (next_page_of_rest _ Hok) as Hit. rewrite Er in Hit. rewrite Hit. cbn [mbind option_bind].
    exists O, (cv_pageVec c), (cv_pages c). rewrite Z.mul_0_r, Z.sub_0_r. split; [done|]. split; [done|]. split; [done|].
    split; [by rewrite Er|]. split; [by apply finals_nil|]. split; [lia|]. cbn. lia.
  - destruct (next_page _ _ _ q rest Hok Er Hp) as (vec' & p & -> & Hok' & Hs & Hrest & _ & Hp1 & Hp2 & Hn & Ht). cbn [mbind option_bind].
    destruct (endReadPage_ok q (s32 readRes) _ p Hp1 Hp2) as (w1 & -> & E1). cbn [mbind option_bind].
    rewrite s64_small by (unfold in_s, PAGE_SIZE in *; lia).
    destruct (IH (pgCount + 1) (readRes - PAGE_SIZE) (cv_set_pages vec' w1 c)) as (k & vec & w & E & Hok2 & Hs2 & Hr2 & Hfin & Hlt & Hend);
      cbn [cv_pageVec cv_pages cv_set_pages cv_numSuccessPages];
      [done|rewrite Hrest; cbn in Hf; lia|rewrite Hrest; by eapply all_pending_insert|unfold in_s, PAGE_SIZE in *; lia|].
    cbn [cv_pageVec cv_pages cv_set_pages cv_numSuccessPages] in *. rewrite Hrest in *.
    exists (S k), vec, w. split; [rewrite E; f_equal; f_equal; lia|]. split; [done|]. split; [by eapply pv_same_trans|].
    split; [done|]. split; [|split].
    + cbn [take]. eapply finals_cons; [|exact Hp1|exact E1| |].
      * intros Hin. apply Hn. apply list_elem_of_fmap in Hin as (x & -> & Hin). apply list_elem_of_fmap_2. rewrite <- (take_drop k rest).
        apply elem_of_app. by left.
      * cbn. by rewrite Z.mul_0_r, Z.sub_0_r.
      * eapply finals_impl, Hfin. intros i p0 p1. cbn. intros ->. do 2 f_equal. lia.
    + intros [|i] Hi; [lia|]. destruct (Hlt i) as [? ?]; lia.
    + cbn [length]. lia.
Qed.

(** Pages without data. *)
Definition zeroed (p : Page) : Page := pg_set_data (replicate (Z.to_nat PAGE_SIZE) Byte.x00) p.
Definition page_read_res (nodeResult : Z) : Z := if 0 <=? nodeResult then s32 nodeResult else -1.
Lemma end_remaining_pages_ok : forall fuel refresh c,
  pv_ok (cv_pageVec c) -> (length (pv_rest (cv_pageVec c)) < fuel)%nat -> all_pending BEEGFS_RWTYPE_READ (cv_pages c) (pv_rest (cv_pageVec c)) ->
  exists vec w, end_remaining_pages fuel refresh c = Some (cv_set_pages vec w c) /\ pv_same (cv_pageVec c) vec /\
  finals (fun _ p p' => p' = read_ended (page_read_res (cv_nodeResult c)) p \/
    0 <= page_read_res (cv_nodeResult c) /\ p' = read_ended (page_read_res (cv_nodeResult c)) (zeroed p))
    (cv_pages c) w (pv_rest (cv_pageVec c)).
Proof.
  induction fuel as [|fuel IH]; intros refresh c Hok Hf Hp; [lia|]. cbn [end_remaining_pages]. fold (page_read_res (cv_nodeResult c)).
  set (r := page_read_res (cv_nodeResult c)) in *.
  destruct (pv_rest (cv_pageVec c)) as [|q rest] eqn:Er.
  - pose proof (next_page_of_rest _ Hok) as Hit. rewrite Er in Hit. rewrite Hit. cbn [mbind option_bind].
    eexists _, _. split; [done|]. split; [done|]. by apply finals_nil.
  - destruct (next_page _ _ _ q rest Hok Er Hp) as (vec' & p & -> & Hok' & Hs & Hrest & _ & Hp1 & Hp2 & Hn & Ht). cbn [mbind option_bind].
    assert (Hstep : exists refresh' w0 p0, (if 0 <=? r then
        index ← FhgfsPage_getPageIndex q (cv_pages c);
        let '(isShortRead, w) := FhgfsOpsPages_isShortRead index refresh (cv_pages c) in
        w ← (if isShortRead : bool then FhgfsPage_zeroPage q w else Some w); Some (false, w)
      else Some (refresh, cv_pages c)) = Some (refresh', w0) /\ pw_pages w0 = <[fp_page q := p0]> (pw_pages (cv_pages c)) /\
      pending BEEGFS_RWTYPE_READ p0 /\ (p0 = p \/ 0 <= r /\ p0 = zeroed p)).
    { assert (Hid : pw_pages (cv_pages c) = <[fp_page q := p]> (pw_pages (cv_pages c))) by (by rewrite insert_id).
      destruct (Z.leb_spec 0 r) as [H0|H0]; [|by exists refresh, (cv_pages c), p; auto].
      unfold FhgfsPage_getPageIndex. rewrite Hp1. cbn [mbind option_bind fmap option_fmap option_map].
      destruct (FhgfsOpsPages_isShortRead (pg_index p) refresh (cv_pages c)) as [short w0] eqn:Es.
      assert (Hw0 : pw_pages w0 = pw_pages (cv_pages c)).
      { unfold FhgfsOpsPages_isShortRead in Es. injection Es as _ <-. destruct (refresh && _); [|done].
        unfold __FhgfsOps_doRefreshInode. by destruct (pw_refreshes (cv_pages c)). }
      destruct short.
      - destruct (zeroPage_ok q w0 p) as (w1 & -> & E1); [by rewrite Hw0|by apply Hp2|]. cbn [mbind option_bind].
        exists false, w1, (zeroed p). rewrite E1, Hw0. split; [done|]. split; [done|]. split; [|by right]. destruct Hp2 as (? & ? & ?). by repeat split.
      - cbn [mbind option_bind]. exists false, w0, p. split; [done|]. split; [by rewrite Hw0|]. split; [done|by left]. }
    destruct Hstep as (refresh' & w0 & p0 & -> & E0 & Hp0 & Hcase). cbn [mbind option_bind].
    destruct (endReadPage_ok q r w0 p0) as (w1 & -> & E1); [by rewrite E0, lookup_insert_eq|done|]. cbn [mbind option_bind].
    rewrite E0, insert_insert_eq in E1.
    destruct (IH refresh' (cv_set_pages vec' w1 c)) as (vec & w & E & Hs2 & Hfin); cbn [cv_pageVec cv_pages cv_set_pages];
      [done|rewrite Hrest; cbn in Hf; lia|rewrite Hrest; by eapply all_pending_insert|].
    cbn [cv_pageVec cv_pages cv_set_pages cv_nodeResult] in *. fold r in Hfin. rewrite Hrest in Hfin.
    exists vec, w. split; [done|]. split; [by eapply pv_same_trans|]. eapply finals_cons; [done|exact Hp1|exact E1| |exact Hfin].
    destruct Hcase as [->|[? ->]]; [by left|by right].
Qed.

(** Pages that were written: the results of the pages add up to that of the server. *)
Lemma end_write_pages_ok : forall fuel first remaining c,
  pv_ok (cv_pageVec c) -> (length (pv_rest (cv_pageVec c)) < fuel)%nat -> all_pending BEEGFS_RWTYPE_WRITE (cv_pages c) (pv_rest (cv_pageVec c)) ->
  exists vec w, end_write_pages fuel first remaining c = Some (cv_set_pages vec w c) /\ pv_same (cv_pageVec c) vec /\
  finals (fun i p p' => exists r, p' = write_ended r p /\
    (first = None \/ remaining <= 0 -> exists q, pv_rest (cv_pageVec c) !! i = Some q /\
      (Forall (fun q => 0 < fp_length q <= PAGE_SIZE) (pv_rest (cv_pageVec c)) -> in_s 64 remaining ->
       r = if 0 <? remaining - foldr Z.add 0 (fp_length <$> take i (pv_rest (cv_pageVec c))) then fp_length q else - EREMOTEIO)))
    (cv_pages c) w (pv_rest (cv_pageVec c)).
Proof.
  induction fuel as [|fuel IH]; intros first remaining c Hok Hf Hp; [lia|]. cbn [end_write_pages].
  destruct (pv_rest (cv_pageVec c)) as [|q rest] eqn:Er.
  - pose proof (next_page_of_rest _ Hok) as Hit. rewrite Er in Hit. rewrite Hit. cbn [mbind option_bind].
    eexists _, _. split; [done|]. split; [done|]. by apply finals_nil.
  - destruct (next_page _ _ _ q rest Hok Er Hp) as (vec' & p & -> & Hok' & Hs & Hrest & _ & Hp1 & Hp2 & Hn & Ht). cbn [mbind option_bind].
    set (idx := pv_currentListVecIterIdx (cv_pageVec c)).
    destruct (if 0 <? remaining then _ else _) as [res1 remaining'] eqn:Erem.
    set (res := if _ && _ then - EIO else res1).
    set (w0 := if res <? 0 then _ else _). assert (Hw0 : pw_pages w0 = pw_pages (cv_pages c)) by (unfold w0; by destruct (res <? 0)).
    destruct (endWritePage_ok (fp_page q) res w0 p) as (w1 & -> & E1); [by rewrite Hw0|done|]. cbn [mbind option_bind]. rewrite Hw0 in E1.
    destruct (IH first remaining' (cv_set_pages vec' w1 c)) as (vec & w & E & Hs2 & Hfin); cbn [cv_pageVec cv_pages cv_set_pages];
      [done|rewrite Hrest; cbn in Hf; lia|rewrite Hrest; by eapply all_pending_insert|].
    cbn [cv_pageVec cv_pages cv_set_pages] in *. rewrite Hrest in Hfin.
    exists vec, w. split; [done|]. split; [by eapply pv_same_trans|]. eapply finals_cons; [done|exact Hp1|exact E1| |].
    + exists res. split; [done|]. intros Hfirst. exists q. split; [done|]. intros _ _. unfold res. cbn. rewrite Z.sub_0_r.
      enough (bool_decide (first = Some idx) && (0 <? remaining') = false) as -> by (destruct (0 <? remaining); by injection Erem as <- _).
      destruct Hfirst as [->|Hle]; [by rewrite bool_decide_false|]. rewrite (proj2 (Z.ltb_ge 0 remaining)) in Erem by done. injection Erem as _ <-.
      rewrite (proj2 (Z.ltb_ge 0 remaining)) by done. apply andb_false_r.
    + eapply finals_impl, Hfin. cbn. intros i p0 p1 (r & -> & Hr). exists r. split; [done|]. intros Hfirst.
      assert (Hfirst' : first = None \/ remaining' <= 0).
      { destruct Hfirst as [?|Hle]; [by left|right]. rewrite (proj2 (Z.ltb_ge 0 remaining)) in Erem by done. by injection Erem as _ <-. }
      destruct (Hr Hfirst') as (q' & Hq' & Hres). exists q'. split; [done|]. intros [Hlen Hlens]%Forall_cons_iff Hin.
      assert (Hsum : 0 <= foldr Z.add 0 (fp_length <$> take i rest)).
      { clear -Hlens. revert i. induction Hlens as [|x l [? _] _ IHl]; intros [|i]; cbn; try lia. specialize (IHl i). lia. }
      destruct (Z.ltb_spec 0 remaining) as [H0|H0]; injection Erem as <- <-.
      * rewrite Hres by (done || rewrite ?s64_small; unfold in_s, PAGE_SIZE in *; lia). rewrite s64_small by (unfold in_s, PAGE_SIZE in *; lia).
        by replace (remaining - fp_length q - foldr Z.add 0 (fp_length <$> take i rest))
          with (remaining - (fp_length q + foldr Z.add 0 (fp_length <$> take i rest))) by lia.
      * rewrite Hres by done. rewrite !(proj2 (Z.ltb_ge 0 _)) by lia. done.
Qed.

(** ** Stages *)

(** Connected, and with everything given back, apart from [R] references and [S] connections of others. *)
Definition conn (R S : Z) (c : CommVec) : Prop :=
  cv_node c = true /\ cv_sock c = true /\ cv_nodeRefs c = R + 1 /\ cv_sockets c = S + 1 /\ 0 <= R.
Definition idle (R S : Z) (c : CommVec) : Prop := cv_nodeRefs c = R /\ cv_sockets c = S.

Lemma cleanup_conn R S c : conn R S c -> __FhgfsOpsCommKitVec_stageCLEANUP c = Some (cv_set_conn true false R S c).
Proof.
  intros (Hn & Hs & Hr & Ht & H0). unfold __FhgfsOpsCommKitVec_stageCLEANUP, use_node. rewrite Hs, Hn, Hr, Ht.
  rewrite (proj2 (Z.ltb_lt 0 _)) by lia. cbn. rewrite (proj2 (Z.ltb_lt 0 _)) by lia. cbn.
  by rewrite !Z.add_simpl_r.
Qed.
Definition comm_error (c : CommVec) : CommVec :=
  if 0 <=? cv_nodeResult c then cv_set_nodeResult (- FhgfsOpsErr_COMMUNICATION) c else c.
Lemma socket_exception R S c : conn R S c ->
  __FhgfsOpsCommKitVec_stageSOCKETEXCEPTION c = Some (cv_set_conn true false R S (comm_error c)).
Proof.
  intros (Hn & Hs & Hr & Ht & H0). unfold __FhgfsOpsCommKitVec_stageSOCKETEXCEPTION, use_node, comm_error. rewrite Hs, Hn, Hr, Ht.
  rewrite (proj2 (Z.ltb_lt 0 _)) by lia. cbn [andb mbind option_bind negb]. unfold __FhgfsOpsCommKitVec_stageCLEANUP, use_node.
  cbn [cv_nodeResult cv_set_conn]. destruct (0 <=? cv_nodeResult c); cbn; rewrite (proj2 (Z.ltb_lt 0 _)) by lia; cbn; by rewrite !Z.add_simpl_r.
Qed.

(** Pages that differ in their contents only. *)
Definition data_only (w w' : PagesWorld) : Prop := forall x, pg_set_data [] <$> pw_pages w' !! x = pg_set_data [] <$> pw_pages w !! x.
Lemma data_only_trans a b c : data_only a b -> data_only b c -> data_only a c.
Proof. intros H1 H2 x. by rewrite (H2 x), (H1 x). Qed.
Lemma data_only_pending rw w w' l : data_only w w' -> all_pending rw w l -> all_pending rw w' l.
Proof.
  intros Hd [Hn Hl]. split; [done|]. eapply Forall_impl, Hl. cbn. intros q (p & Hp & Hpend). specialize (Hd (fp_page q)). rewrite Hp in Hd.
  destruct (pw_pages w' !! fp_page q) as [p'|]; [|done]. exists p'. split; [done|]. cbn in Hd. injection Hd as _ H2 H3 H4 _ _ _ H8.
  destruct Hpend as (? & ? & ?). unfold pending. rewrite H2, H3. split; [done|]. split; [done|]. destruct rw; congruence.
Qed.

Definition buf_ok (c : CommVec) : Prop := zlen (cv_msgBuf c) = BEEGFS_COMMKIT_MSGBUF_SIZE.
(** What an attempt keeps. *)
Record kept (c c' : CommVec) : Prop := MkKept {
  kp_ok : pv_ok (cv_pageVec c');
  kp_same : pv_same (cv_pageVec c) (cv_pageVec c');
  kp_data : data_only (cv_pages c) (cv_pages c');
  kp_buf : buf_ok c';
  kp_writeBack : cv_writeBackCounter c' = cv_writeBackCounter c;
  kp_result : in_s 64 (cv_nodeResult c')
}.
Lemma kept_refl c : pv_ok (cv_pageVec c) -> buf_ok c -> in_s 64 (cv_nodeResult c) -> kept c c.
Proof. intros. by split. Qed.
Lemma kept_trans a b c : kept a b -> kept b c -> kept a c.
Proof.
  intros [? ? ? ? ? ?] [? ? ? ? ? ?]. split; [done|by eapply pv_same_trans|by eapply data_only_trans|done|congruence|done].
Qed.

(** Setting other fields. *)
Lemma kept_fields c c' : kept c c' ->
  (forall n s r t, kept c (cv_set_conn n s r t c')) /\ (forall r, in_s 64 r -> kept c (cv_set_nodeResult r c')) /\
  (forall b, kept c (cv_set_doHeader b c')) /\ (forall a b, kept c (cv_set_data a b c')) /\
  (forall a b, kept c (cv_upd_read a b c')) /\ kept c (cv_inc_success c') /\ kept c (comm_error c').
Proof. intros [? ? ? ? ? ?]. split_and!; intros; [by split..|]. unfold comm_error. destruct (0 <=? _); by split. Qed.
#[local] Hint Extern 3 (kept _ (cv_set_conn _ _ _ _ _)) => apply kept_fields : kit.
Lemma s64_in z : in_s 64 (s64 z).
Proof. by apply signed_range. Qed.
#[local] Hint Extern 1 (in_s 64 (s64 _)) => apply s64_in : kit.
#[local] Hint Extern 2 (in_s 64 (- _)) => split; vm_compute; done : kit.
#[local] Hint Extern 2 (in_s 64 FhgfsOpsErr_INTERRUPTED) => split; vm_compute; done : kit.
#[local] Hint Extern 2 (in_s 64 0) => split; vm_compute; done : kit.
#[local] Hint Extern 3 (kept _ (cv_set_nodeResult _ _)) => apply kept_fields : kit.
#[local] Hint Extern 3 (kept _ (cv_set_doHeader _ _)) => apply kept_fields : kit.
#[local] Hint Extern 3 (kept _ (cv_set_data _ _ _)) => apply kept_fields : kit.
#[local] Hint Extern 3 (kept _ (cv_upd_read _ _ _)) => apply kept_fields : kit.
#[local] Hint Extern 3 (kept _ (cv_inc_success _)) => apply kept_fields : kit.
#[local] Hint Extern 3 (kept _ (comm_error _)) => apply kept_fields : kit.

(** How a stage ends: with the flag for another header and fewer pages left, or with everything given back. *)
Definition stage_ends (R S : Z) (c c' : CommVec) : Prop :=
  kept c c' /\
  (conn R S c' /\ cv_doHeader c' = true /\ (length (pv_rest (cv_pageVec c')) < length (pv_rest (cv_pageVec c)))%nat \/
   idle R S c' /\ cv_doHeader c' = cv_doHeader c).

Lemma conn_fields R S c : conn R S c ->
  (forall v w, conn R S (cv_set_pages v w c)) /\ (forall r, conn R S (cv_set_nodeResult r c)) /\ (forall a b, conn R S (cv_set_data a b c)) /\
  (forall b, conn R S (cv_set_doHeader b c)) /\ (forall a b, conn R S (cv_upd_read a b c)) /\ conn R S (cv_inc_success c) /\
  (forall b, conn R S (cv_set_msgBuf b c)).
Proof. done. Qed.

Lemma exception_ends R S c0 c : conn R S c -> kept c0 c -> cv_doHeader c = cv_doHeader c0 -> exists c',
  __FhgfsOpsCommKitVec_stageSOCKETEXCEPTION c = Some c' /\ stage_ends R S c0 c'.
Proof.
  intros Hc Hk Hd. rewrite (socket_exception R S c Hc). eexists. split; [done|]. split; [auto with kit|]. right. split; [done|].
  unfold comm_error. by destruct (0 <=? cv_nodeResult c).
Qed.
Lemma read_error_ends R S recvRes c0 c : conn R S c -> kept c0 c -> cv_doHeader c = cv_doHeader c0 -> exists c',
  __FhgfsOpsCommKitVec_handleReadError recvRes c = Some c' /\ stage_ends R S c0 c'.
Proof.
  intros Hc Hk Hd. unfold __FhgfsOpsCommKitVec_handleReadError.
  destruct (recvRes =? - EFAULT); [|destruct (recvRes =? - ETIMEDOUT)]; apply exception_ends; auto with kit.
Qed.

Lemma kept_pages c0 c vec w : kept c0 c -> pv_ok vec -> pv_same (cv_pageVec c) vec -> data_only (cv_pages c) w -> kept c0 (cv_set_pages vec w c).
Proof.
  intros [? ? ? ? ? ?] Hok Hs Hd. split; [done|by eapply pv_same_trans|by eapply data_only_trans|done|done|done].
Qed.
Lemma page_received_ok q got w p : pw_pages w !! fp_page q = Some p -> pg_mapped p = true -> exists w',
  page_received q got w = Some w' /\ pw_pages w' = <[fp_page q := pg_set_data (got ++ drop (length got) (pg_data p)) p]> (pw_pages w) /\
  data_only w w'.
Proof.
  intros Hp Hm. unfold page_received. rewrite (on_page_ok _ _ _ _ p) by done. eexists. split; [done|]. split; [done|].
  intros x. cbn. destruct (decide (x = fp_page q)) as [->|]; [|by rewrite lookup_insert_ne]. by rewrite lookup_insert_eq, Hp.
Qed.
Lemma rest_mapped rw w vec q rest : all_pending rw w (pv_pages vec) -> pv_rest vec = q :: rest -> exists p, pw_pages w !! fp_page q = Some p /\ pg_mapped p = true.
Proof.
  intros [_ Hl] Er. rewrite Forall_forall in Hl. destruct (Hl q) as (p & ? & ? & _); [|by eauto]. apply list_elem_of_In.
  assert (Hq : q ∈ pv_rest vec) by (rewrite Er; by left). unfold pv_rest in Hq. rewrite <- (take_drop (Z.to_nat (pv_currentListVecIterIdx vec))).
  apply elem_of_app. by right.
Qed.

Section Read.
Context (e : VecEnv) (R S : Z).

Lemma recv_pages_ok : forall fuel sum c0 c, conn R S c -> kept c0 c -> cv_doHeader c = cv_doHeader c0 ->
  (length (pv_rest (cv_pageVec c)) < fuel)%nat -> (length (pv_rest (cv_pageVec c)) <= length (pv_rest (cv_pageVec c0)))%nat ->
  all_pending BEEGFS_RWTYPE_READ (cv_pages c) (pv_pages (cv_pageVec c)) ->
  exists c', recv_pages fuel e sum c = Some c' /\ stage_ends R S c0 c'.
Proof.
  induction fuel as [|fuel IH]; intros sum c0 c Hc Hk Hd Hf Hle Hp; [lia|]. cbn [recv_pages].
  pose proof (kp_ok _ _ Hk) as Hok. pose proof (next_page_of_rest _ Hok) as Hit. destruct (pv_rest (cv_pageVec c)) as [|q rest] eqn:Er.
  { rewrite Hit. cbn [mbind option_bind]. apply exception_ends; [by apply conn_fields|apply kept_fields; [apply kept_pages; done|auto with kit]|done]. }
  destruct Hit as (vec & -> & Hok' & Hs & Hrest & Hidx). cbn [mbind option_bind]. cbv zeta.
  destruct (recv_exact e _ (cv_set_pages vec (cv_pages c) c)) as [[recvRes got] c1] eqn:Erecv.
  unfold recv_exact in Erecv. injection Erecv as _ _ <-. cbn [cv_pages cv_set_data cv_set_pages].
  destruct (rest_mapped _ _ _ q rest Hp Er) as (p & Hp1 & Hm). destruct (page_received_ok q got _ p Hp1 Hm) as (w & -> & Ew & Hdata).
  cbn [mbind option_bind]. set (c2 := cv_set_pages _ w _).
  assert (Hc2 : conn R S c2) by done.
  assert (Hk2 : kept c0 c2). { eapply kept_trans; [exact Hk|]. destruct Hk as [? ? ? ? ? ?]. split; done. }
  assert (Hd2 : cv_doHeader c2 = cv_doHeader c0) by done.
  destruct (recvRes <=? 0); [by apply read_error_ends|]. destruct (_ && _); [by apply read_error_ends|].
  assert (Hr2 : pv_rest (cv_pageVec (cv_inc_success c2)) = rest) by done.
  destruct (u64 (sum + recvRes) <? cv_serverSize (cv_inc_success c2)).
  - apply IH; [done|auto with kit|done|rewrite Hr2; cbn in Hf; lia|rewrite Hr2; cbn in Hle; lia|].
    cbn. destruct (pv_same_pages _ _ Hs) as [-> _]. by eapply data_only_pending.
  - eexists. split; [done|]. split; [auto with kit|]. left. split; [done|]. split; [done|]. cbn. rewrite Hrest. cbn in Hle. lia.
Qed.

Lemma read_header_ok c0 c : conn R S c -> kept c0 c -> cv_doHeader c = cv_doHeader c0 ->
  (length (pv_rest (cv_pageVec c)) <= length (pv_rest (cv_pageVec c0)))%nat ->
  all_pending BEEGFS_RWTYPE_READ (cv_pages c) (pv_pages (cv_pageVec c)) ->
  exists c', __FhgfsOpsCommKitVec_readfileStageRECVHEADER e c = Some c' /\ stage_ends R S c0 c'.
Proof.
  intros Hc Hk Hd Hle Hp. unfold __FhgfsOpsCommKitVec_readfileStageRECVHEADER, use_node. pose proof Hc as (Hn & Hs & Hr & _ & H0).
  rewrite Hn, Hs, Hr, (proj2 (Z.ltb_lt 0 _)) by lia. cbn [andb mbind option_bind negb].
  destruct (recv_exact e 8 c) as [[recvRes got] c1] eqn:Er. unfold recv_exact in Er. injection Er as _ _ <-. cbv zeta.
  set (c1 := cv_set_data _ _ c). assert (Hc1 : conn R S c1) by done. assert (Hk1 : kept c0 c1) by (by apply kept_fields).
  destruct (recvRes <=? 0); [by apply exception_ends|]. destruct (s64 (le_combine got) <=? 0).
  - destruct (s64 (le_combine got) <? 0); [apply exception_ends; auto with kit|]. rewrite (cleanup_conn R S c1 Hc1).
    eexists. split; [done|]. split; [auto with kit|]. by right.
  - destruct (cv_reqLen c1 <? s64 (le_combine got)); [by apply exception_ends|]. unfold __FhgfsOpsCommKitVec_readfileStageRECVDATA.
    apply recv_pages_ok; [done|auto with kit|done| |done|done]. unfold page_fuel. cbn.
    destruct (kp_ok _ _ Hk) as [_ [Hz _] _ _ _]. pose proof (pv_rest_length _ (kp_ok _ _ Hk)) as Hl. destruct (kp_ok _ _ Hk) as [_ _ _ [_ Hx] _].
    unfold zlen in *. lia.
Qed.

Lemma read_headers_ok : forall fuel c0 c, stage_ends R S c0 c -> cv_doHeader c0 = false ->
  (cv_doHeader c = true -> length (pv_rest (cv_pageVec c)) < fuel)%nat ->
  all_pending BEEGFS_RWTYPE_READ (cv_pages c0) (pv_pages (cv_pageVec c0)) ->
  exists c', read_headers fuel e c = Some c' /\ kept c0 c' /\ idle R S c' /\ cv_doHeader c' = false.
Proof.
  induction fuel as [|fuel IH]; intros c0 c [Hk Hend] Hd Hf Hp;
    (destruct Hend as [(Hc & Hh & Hlt)|[Hi Hh]]; [|exists c; rewrite Hd in Hh; cbn [read_headers]; by rewrite Hh]).
  { specialize (Hf Hh). lia. }
  cbn [read_headers]. rewrite Hh. cbn [negb].
  assert (Hp' : all_pending BEEGFS_RWTYPE_READ (cv_pages c) (pv_pages (cv_pageVec c))).
  { destruct (pv_same_pages _ _ (kp_same _ _ Hk)) as [-> _]. by apply (data_only_pending _ _ _ _ (kp_data _ _ Hk)). }
  set (c1 := cv_set_doHeader false c). assert (Hk1 : kept c1 c1) by (apply kept_refl; apply Hk).
  destruct (read_header_ok c1 c1) as (c2 & -> & He2); [done|done|done|done|done|]. cbn [mbind option_bind].
  destruct (IH c1 c2) as (c3 & -> & Hk3 & Hi3 & Hd3); [done|done| |done|].
  { intros Hh2. destruct He2 as [_ [(_ & _ & Hlt2)|[_ Hd2]]]; [|by rewrite Hd2 in Hh2]. specialize (Hf Hh). cbn in Hlt2. lia. }
  exists c3. split; [done|]. split; [|done]. eapply kept_trans; [exact Hk|].
  eapply (kept_trans _ c1); [|exact Hk3]. apply kept_fields, kept_refl; apply Hk.
Qed.
End Read.

Section Attempt.
Context (se : FileSession) (Hse : session_ok se) (R S : Z) (HR : 0 <= R).

Lemma request_serialized {M} `{NetMessageOps M} (msg : NetMessage M) selected offset size c :
  msgLength (msgHeader msg) = 0 /\ (exists bs, (forall n, writes (serializePayload (with_header (fun h => set_msgLength h n) msg)) bs) /\
    NETMSG_HEADER_LENGTH + zlen bs <= BEEGFS_COMMKIT_MSGBUF_SIZE) -> buf_ok c ->
  exists buf len, serialize_request msg (vec_info selected offset size c) = Some (set_headerBuffer (Some buf) (vec_info selected offset size c), len) /\
    zlen buf = BEEGFS_COMMKIT_MSGBUF_SIZE.
Proof.
  intros (H0 & bs & Hw & Hfit) Hb.
  destruct (serialize_request_ok msg bs (vec_info selected offset size c) Hw Hfit H0) as (buf & E & Hl); [by eexists|]. by exists buf, (NETMSG_HEADER_LENGTH + zlen bs).
Qed.

(** Connecting: a connection, or everything given back. *)
Lemma connect_ok e f c : idle R S c -> exists selected ok c1, vec_connect se e f c = (selected, ok, c1) /\
  cv_pageVec c1 = cv_pageVec c /\ cv_pages c1 = cv_pages c /\ cv_msgBuf c1 = cv_msgBuf c /\ cv_doHeader c1 = cv_doHeader c /\
  cv_writeBackCounter c1 = cv_writeBackCounter c /\ (in_s 64 (f (- FhgfsOpsErr_COMMUNICATION)) -> in_s 64 (cv_nodeResult c1)) /\
  if (ok : bool) then conn R S c1 /\ cv_nodeResult c1 = - FhgfsOpsErr_COMMUNICATION /\ cv_stream c1 = ve_stream e /\ cv_sent c1 = [] /\
    cv_reqLen c1 = cv_reqLen c
  else (exists n, __FhgfsOpsCommKitVec_stageCLEANUP c1 = Some (cv_set_conn n false R S c1)) /\
    (ve_resolve e selected <> 0 /\ cv_nodeResult c1 = s64 (- ve_resolve e selected) \/
     cv_nodeResult c1 = if ve_signal_connect e then f (- FhgfsOpsErr_COMMUNICATION) else - FhgfsOpsErr_COMMUNICATION).
Proof.
  intros [Hr Hs]. unfold vec_connect. cbv zeta. set (sel := select_target _ _ _ _). destruct (Z.eqb_spec (ve_resolve e sel) 0) as [Ee|Ee]; cbn [negb].
  2: { eexists _, _, _. split; [done|]. do 5 (split; [done|]). split; [intros _; apply s64_in|]. split; [exists false|by left]. unfold __FhgfsOpsCommKitVec_stageCLEANUP. cbn. by rewrite Hr, Hs. }
  - destruct (negb (ve_connect e)).
    + eexists _, _, _. split; [done|]. destruct (ve_signal_connect e); (do 5 (split; [done|])); (split; [first [exact (fun H => H)|intros _; cbn; auto with kit]|]); (split; [exists true|by right]);
        unfold __FhgfsOpsCommKitVec_stageCLEANUP, use_node; cbn; rewrite Hr, Hs, (proj2 (Z.ltb_lt 0 _)) by lia; cbn; by rewrite Z.add_simpl_r.
    + eexists _, _, _. split; [done|]. do 5 (split; [done|]). split; [intros _; cbn; auto with kit|]. split; [|done]. unfold conn. cbn. rewrite Hr, Hs. done.
Qed.

Lemma read_once_ok e c : idle R S c -> pv_ok (cv_pageVec c) -> buf_ok c -> in_s 64 (cv_nodeResult c) ->
  all_pending BEEGFS_RWTYPE_READ (cv_pages c) (pv_pages (cv_pageVec c)) ->
  exists c', __FhgfsOpsCommKitVec_readfileCommunicate se e c = Some (cv_nodeResult c', c') /\ kept c c' /\ idle R S c'.
Proof.
  intros Hi Hok Hb Hin Hp. unfold __FhgfsOpsCommKitVec_readfileCommunicate, __FhgfsOpsCommKitVec_readfileStagePREPARE. cbv zeta.
  set (c0 := cv_upd_read _ _ (cv_set_doHeader false c)). assert (Hk0 : kept c0 c0) by (by apply kept_refl).
  assert (Hkc : kept c c0) by (apply kept_fields, kept_fields; by apply kept_refl).
  destruct (connect_ok e (fun _ => FhgfsOpsErr_INTERRUPTED) c0 Hi) as (sel & ok & c1 & -> & Ev & Ep & Eb & Ed & Ew & Hin1 & Hc).
  assert (Hk1 : kept c0 c1) by (split; rewrite ?Ev, ?Ep; try done; [unfold buf_ok; by rewrite Eb|apply Hin1; auto with kit]).
  destruct ok; cbn [negb].
  2: { destruct Hc as [(n & ->) _]. cbn [mbind option_bind]. set (c2 := cv_set_conn n false R S c1).
    assert (Hd : cv_doHeader c2 = false) by (cbn; by rewrite Ed). unfold page_fuel. cbn [read_headers]. rewrite Hd. cbn [negb mbind option_bind].
    exists c2. split; [done|]. split; [|done]. unfold c2.
    eapply kept_trans; [exact Hkc|]. auto with kit. }
  destruct Hc as (Hc & _ & _).
  destruct (request_serialized (readfile_request se (vec_info sel (FhgfsOpsCommKitVec_getOffset (cv_set_doHeader false c)) (cv_reqLen c1) c1)) sel
    (FhgfsOpsCommKitVec_getOffset (cv_set_doHeader false c)) (cv_reqLen c1) c1 (readfile_request_ok _ _ Hse)) as (buf & len & -> & Hbuf).
  { unfold buf_ok. by rewrite Eb. }
  cbn [mbind option_bind ti_headerBuffer set_headerBuffer]. set (c2 := cv_set_nodeResult 0 (cv_set_msgBuf buf c1)).
  replace (if ve_sendHeader e <=? 0 then _ else _) with (__FhgfsOpsCommKitVec_readfileStageRECVHEADER e c2) by (by destruct (_ <=? 0)).
  assert (Hk2 : kept c0 c2) by (destruct Hk1; split; try done; cbn; auto with kit).
  assert (Hp2 : all_pending BEEGFS_RWTYPE_READ (cv_pages c0) (pv_pages (cv_pageVec c0))) by done.
  destruct (read_header_ok e R S c0 c2) as (c3 & -> & Hends); [done|done|cbn; by rewrite Ed|cbn; by rewrite Ev|cbn; by rewrite Ev, Ep|].
  cbn [mbind option_bind].
  destruct (read_headers_ok e R S (page_fuel c3) c0 c3 Hends) as (c4 & -> & Hk4 & Hi4 & _); [done| |done|].
  { intros _. pose proof (pv_rest_length _ (kp_ok _ _ (proj1 Hends))) as Hl. destruct (kp_ok _ _ (proj1 Hends)) as [_ _ _ [_ Hx] _].
    unfold page_fuel, zlen in *. lia. }
  cbn [mbind option_bind]. exists c4. split; [done|]. split; [|done]. by eapply kept_trans.
Qed.
(** What the server is sent of a page. *)
Definition page_bytes (w : PagesWorld) (q : FhgfsPage) : list byte :=
  match pw_pages w !! fp_page q with Some p => take (Z.to_nat (fp_length q)) (pg_data p) | None => [] end.
Definition lengths_ok (l : list FhgfsPage) : Prop := Forall (fun q => 0 < fp_length q <= PAGE_SIZE) l.
Definition vec_env_ok (e : VecEnv) : Prop :=
  zlen (ve_resp e).2 = BEEGFS_COMMKIT_MSGBUF_SIZE /\ (ve_resp e).1 <= BEEGFS_COMMKIT_MSGBUF_SIZE /\
  forall t, 0 <= ve_resolve e t < 2 ^ 31.

(** The end of an attempt to write: no result of the server, or the result after all pages were sent. *)
Definition write_ends (c c' : CommVec) : Prop :=
  kept c c' /\ cv_pages c' = cv_pages c /\ idle R S c' /\ cv_doHeader c' = cv_doHeader c /\
  (cv_nodeResult c' = - FhgfsOpsErr_COMMUNICATION \/ cv_nodeResult c' = - FhgfsOpsErr_ADDRESSFAULT \/
   pv_rest (cv_pageVec c') = [] /\
   (lengths_ok (pv_rest (cv_pageVec c)) -> cv_sent c' = cv_sent c ++ concat (page_bytes (cv_pages c) <$> pv_rest (cv_pageVec c)))).

Lemma write_exception c0 c : conn R S c -> kept c0 c -> cv_pages c = cv_pages c0 -> cv_doHeader c = cv_doHeader c0 ->
  cv_nodeResult c = - FhgfsOpsErr_COMMUNICATION \/ cv_nodeResult c = - FhgfsOpsErr_ADDRESSFAULT ->
  exists c', __FhgfsOpsCommKitVec_stageSOCKETEXCEPTION c = Some c' /\ write_ends c0 c'.
Proof.
  intros Hc Hk Hp Hd Hn. rewrite (socket_exception R S c Hc). eexists. split; [done|].
  assert (Ee : comm_error c = c) by (unfold comm_error; by destruct Hn as [-> | ->]). rewrite Ee.
  split; [auto with kit|]. split; [done|]. split; [done|]. split; [done|]. cbn. tauto.
Qed.

Lemma write_recv_ok e c0 c : vec_env_ok e -> conn R S c -> kept c0 c -> cv_pages c = cv_pages c0 -> cv_doHeader c = cv_doHeader c0 ->
  cv_nodeResult c = - FhgfsOpsErr_COMMUNICATION -> pv_rest (cv_pageVec c) = [] ->
  (lengths_ok (pv_rest (cv_pageVec c0)) -> cv_sent c = cv_sent c0 ++ concat (page_bytes (cv_pages c0) <$> pv_rest (cv_pageVec c0))) ->
  exists c', __FhgfsOpsCommKitVec_writefileStageRECV se e c = Some c' /\ write_ends c0 c'.
Proof.
  intros (Hb & Hl & _) Hc Hk Hp Hd Hn Hr Hs. unfold __FhgfsOpsCommKitVec_writefileStageRECV. destruct (ve_resp e) as [respRes buf]. cbn [fst snd] in Hb, Hl.
  set (c1 := cv_set_msgBuf buf c). assert (Hk1 : kept c0 c1) by (destruct Hk; by split).
  destruct (Z.leb_spec respRes 0) as [H0|H0]; [apply write_exception; auto|].
  unfold BEEGFS_COMMKIT_MSGBUF_SIZE in *.
  pose proof (deserializeFromBuf_no_fault (ve_header e) buf respRes
    (NetMessage_init (se_fsuid se) NETMSGTYPE_WriteLocalFileResp (ve_int64Msg e)) NETMSGTYPE_WriteLocalFileResp (fun _ => True)
    ltac:(lia) ltac:(lia)) as Hd'.
  destruct (NetMessageFactory_deserializeFromBuf _ _ _ _ _) as [resp c'| |addr].
  - rewrite (cleanup_conn R S) by done. eexists. split; [done|]. split; [auto with kit|]. split; [done|]. split; [done|]. split; [done|].
    right; right. done.
  - apply write_exception; auto.
  - exfalso. apply Hd'. intros this. cbn [deserializePayload]. unfold SimpleInt64Msg_deserializePayload. response_safe.
Qed.

Lemma send_pages_ok e : vec_env_ok e -> forall fuel c0 c, conn R S c -> kept c0 c -> cv_pages c = cv_pages c0 -> cv_doHeader c = cv_doHeader c0 ->
  cv_nodeResult c = - FhgfsOpsErr_COMMUNICATION -> (length (pv_rest (cv_pageVec c)) < fuel)%nat ->
  all_pending BEEGFS_RWTYPE_WRITE (cv_pages c) (pv_pages (cv_pageVec c)) ->
  (lengths_ok (pv_rest (cv_pageVec c0)) -> lengths_ok (pv_rest (cv_pageVec c)) /\
    cv_sent c ++ concat (page_bytes (cv_pages c0) <$> pv_rest (cv_pageVec c)) =
    cv_sent c0 ++ concat (page_bytes (cv_pages c0) <$> pv_rest (cv_pageVec c0))) ->
  exists c', send_pages se fuel e c = Some c' /\ write_ends c0 c'.
Proof.
  intros He. induction fuel as [|fuel IH]; intros c0 c Hc Hk Hpg Hd Hn Hf Hp Hs; [lia|]. cbn [send_pages].
  pose proof (kp_ok _ _ Hk) as Hok. pose proof (next_page_of_rest _ Hok) as Hit. destruct (pv_rest (cv_pageVec c)) as [|q rest] eqn:Er.
  { rewrite Hit. cbn [mbind option_bind]. apply write_recv_ok; try done; [apply kept_pages; done|].
    intros Hl. destruct (Hs Hl) as [_ <-]. cbn. by rewrite app_nil_r. }
  destruct Hit as (vec & -> & Hok' & Hsame & Hrest & _). cbn [mbind option_bind].
  destruct (rest_mapped _ _ _ q rest Hp Er) as (p & Hp1 & Hm). cbn [cv_pages cv_set_pages]. rewrite Hp1. cbn [mbind option_bind]. rewrite Hm. cbn [negb].
  set (c1 := cv_set_pages vec (cv_pages c) c). assert (Hk1 : kept c0 c1) by (apply kept_pages; done).
  set (res := ve_sendPage e _). destruct (res <=? 0).
  { apply write_exception; [by destruct (res =? - EFAULT)|destruct (res =? - EFAULT); auto with kit|by destruct (res =? - EFAULT)..|].
    destruct (res =? - EFAULT); [by right|by left]. }
  set (c2 := cv_set_data _ _ c1). assert (Hk2 : kept c0 c2) by (by apply kept_fields).
  destruct (Z.ltb_spec res (u64 (fp_length q))) as [Hshort|Hfull]; [apply write_exception; auto|].
  apply IH; try done; [cbn; rewrite Hrest; cbn in Hf; lia| |].
  - cbn. destruct (pv_same_pages _ _ Hsame) as [-> _]. done.
  - intros Hl. destruct (Hs Hl) as [[Hq Hlr]%Forall_cons_iff Hcat]. cbn [c2 c1 cv_pageVec cv_sent cv_set_data cv_set_pages]. rewrite Hrest.
    split; [done|]. rewrite <- Hcat. cbn [fmap list_fmap concat]. rewrite app_assoc. do 2 f_equal. unfold page_bytes. rewrite <- Hpg, Hp1.
    unfold PAGE_SIZE in Hq. rewrite u64_small in Hfull |- * by lia. by rewrite Z.min_r by lia.
Qed.

(** The end of a whole attempt: a negative result, or that of the server. *)
Definition sent_all (c c' : CommVec) : Prop :=
  pv_rest (cv_pageVec c') = [] /\
  (lengths_ok (pv_rest (cv_pageVec c)) -> cv_sent c' = concat (page_bytes (cv_pages c) <$> pv_rest (cv_pageVec c))).
Lemma write_back_end busy now c : exists b,
  FhgfsInode_unsetNoIsizeDecrease busy (cv_add_writeBack (-1) (FhgfsInode_setLastWriteBackOrIsizeWriteTime now c)) =
  cv_set_inode b now (cv_add_writeBack (-1) c).
Proof.
  unfold FhgfsInode_unsetNoIsizeDecrease. destruct (negb _); [by eexists|]. destruct (negb _); [by eexists|]. destruct (_ || _); by eexists.
Qed.
Lemma write_once_ok e c : vec_env_ok e -> idle R S c -> pv_ok (cv_pageVec c) -> buf_ok c -> in_s 64 (cv_nodeResult c) ->
  all_pending BEEGFS_RWTYPE_WRITE (cv_pages c) (pv_pages (cv_pageVec c)) ->
  exists c', __FhgfsOpsCommKitVec_writefileCommunicate se e c = Some (cv_nodeResult c', c') /\ kept c c' /\ cv_pages c' = cv_pages c /\ idle R S c' /\
    (cv_nodeResult c' < 0 \/ sent_all c c').
Proof.
  intros He Hi Hok Hb Hin Hp. unfold __FhgfsOpsCommKitVec_writefileCommunicate, __FhgfsOpsCommKitVec_writefileStagePREPARE. cbv zeta.
  set (c0 := cv_set_doHeader false (cv_add_writeBack 1 c)). assert (Hk0 : kept c0 c0) by (by apply kept_refl).
  assert (Hback : forall c', kept c0 c' -> forall b, kept c (cv_set_inode b (ve_now e) (cv_add_writeBack (-1) c'))).
  { intros c' [? ? ? ? Hw] b. split; try done. cbn in Hw |- *. lia. }
  destruct (connect_ok e (fun r => r) c0 Hi) as (sel & ok & c1 & -> & Ev & Ep & Eb & Ed & Ew & Hin1 & Hc).
  assert (Hk1 : kept c0 c1) by (split; rewrite ?Ev, ?Ep; try done; [unfold buf_ok; by rewrite Eb|apply Hin1; auto with kit]).
  destruct ok; cbn [negb].
  2: { destruct Hc as [(n & ->) Hn]. cbn [mbind option_bind cv_doHeader cv_set_conn]. rewrite Ed. cbn [c0 cv_doHeader cv_set_doHeader mbind option_bind cv_set_conn].
    rewrite Ed. cbn [c0 cv_doHeader cv_set_doHeader]. destruct (write_back_end (ve_mappingBusy e) (ve_now e) (cv_set_conn n false R S c1)) as [b ->].
    exists (cv_set_inode b (ve_now e) (cv_add_writeBack (-1) (cv_set_conn n false R S c1))). split; [reflexivity|]. split; [apply Hback; auto with kit|]. split; [exact Ep|]. split; [done|].
    left. cbn. destruct Hn as [[Hne ->]| ->]; [destruct He as (_ & _ & Hr); specialize (Hr sel); rewrite s64_small; unfold in_s; lia|]. by destruct (ve_signal_connect e). }
  destruct Hc as (Hc & Hn & _ & Hsent & _).
  destruct (request_serialized (writefile_request se (ve_ioEnv e) (vec_info sel (FhgfsOpsCommKitVec_getOffset c0) (FhgfsOpsCommKitVec_getRemainingDataSize c0) c1)) sel
    (FhgfsOpsCommKitVec_getOffset c0) (FhgfsOpsCommKitVec_getRemainingDataSize c0) c1 (writefile_request_ok _ _ _ Hse)) as (buf & len & -> & Hbuf).
  { unfold buf_ok. by rewrite Eb. }
  cbn [mbind option_bind ti_headerBuffer set_headerBuffer cv_doHeader cv_set_doHeader].
  set (c2 := cv_set_doHeader false (cv_set_doHeader true (cv_set_msgBuf buf c1))).
  assert (Hk2 : kept c0 c2) by (destruct Hk1; by split). assert (Hc2 : conn R S c2) by done.
  assert (Hd2 : cv_doHeader c2 = cv_doHeader c0) by done.
  assert (Hsend : exists c3, __FhgfsOpsCommKitVec_writefileStageSENDHEADER se e c2 = Some c3 /\ write_ends c2 c3).
  { unfold __FhgfsOpsCommKitVec_writefileStageSENDHEADER. rewrite (proj1 (proj2 Hc2)). cbn [negb].
    assert (Hk3 : kept c2 c2) by (apply kept_refl; apply Hk2).
    destruct (ve_sendHeader e <=? 0); [apply write_exception; auto|].
    unfold __FhgfsOpsCommKitVec_writefileStageSENDDATA. apply send_pages_ok; try done; [|cbn; by rewrite Ev, Ep].
    pose proof (pv_rest_length _ (kp_ok _ _ Hk2)) as Hl. destruct (kp_ok _ _ Hk2) as [_ _ _ [_ Hx] _]. unfold page_fuel, zlen in *. lia. }
  destruct Hsend as (c3 & -> & Hk3 & Ep3 & Hi3 & Hd3 & Hres). cbn [mbind option_bind]. rewrite Hd3, Hd2. cbn [c0 cv_doHeader cv_set_doHeader].
  destruct (write_back_end (ve_mappingBusy e) (ve_now e) c3) as [b ->].
  exists (cv_set_inode b (ve_now e) (cv_add_writeBack (-1) c3)). split; [reflexivity|]. split; [apply Hback; by eapply kept_trans|]. split; [cbn; rewrite Ep3; exact Ep|]. split; [done|].
  cbn [cv_nodeResult cv_add_writeBack cv_set_inode]. destruct Hres as [-> | [-> | [Hr Hs]]]; [by left..|]. right. split; [done|].
  cbn in Hs |- *. rewrite Ev, Ep, Hsent in Hs. done.
Qed.

(** Both directions. *)
Lemma once_ok rw e c : vec_env_ok e -> idle R S c -> pv_ok (cv_pageVec c) -> buf_ok c -> in_s 64 (cv_nodeResult c) ->
  all_pending rw (cv_pages c) (pv_pages (cv_pageVec c)) ->
  exists c', communicate_once se rw e c = Some (cv_nodeResult c', c') /\ kept c c' /\ idle R S c' /\
    (rw = BEEGFS_RWTYPE_WRITE -> cv_pages c' = cv_pages c /\
      (cv_nodeResult c' < 0 \/ pv_rest (cv_pageVec c') = [] /\
        (lengths_ok (pv_pages (cv_pageVec c)) -> cv_sent c' = concat (page_bytes (cv_pages c) <$> pv_pages (cv_pageVec c))))).
Proof.
  intros He Hi Hok Hb Hin Hp. unfold communicate_once. destruct (reset_ok _ Hok) as (Hok' & Hs & Hr).
  set (c0 := cv_set_pages _ _ c). assert (Hk : kept c c0) by (apply kept_pages; [by apply kept_refl|done..]).
  destruct (pv_same_pages _ _ Hs) as [Hpp _].
  assert (Hp0 : all_pending rw (cv_pages c0) (pv_pages (cv_pageVec c0))) by (cbn [c0 cv_pages cv_pageVec cv_set_pages]; by rewrite Hpp).
  destruct rw.
  - destruct (read_once_ok e c0 Hi Hok' Hb Hin Hp0) as (c' & -> & Hk' & Hi'). exists c'. split; [done|]. split; [by eapply kept_trans|]. done.
  - destruct (write_once_ok e c0 He Hi Hok' Hb Hin Hp0) as (c' & -> & Hk' & Hpg & Hi' & Hres). exists c'. split; [done|]. split; [by eapply kept_trans|].
    split; [done|]. intros _. split; [done|]. destruct Hres as [?|[? Hsent]]; [by left|right]. split; [done|]. cbn in Hsent. rewrite Hr in Hsent. done.
Qed.
(** What holds after all attempts. *)
Definition attempts_end (rw : Fhgfs_RWType) (c : CommVec) (retVal : Z) (c' : CommVec) : Prop :=
  kept c c' /\ idle R S c' /\ retVal = (if vec_retryable (cv_nodeResult c') then - FhgfsOpsErr_COMMUNICATION else cv_nodeResult c') /\
  (rw = BEEGFS_RWTYPE_WRITE -> cv_pages c' = cv_pages c /\
    (cv_nodeResult c' < 0 \/ pv_rest (cv_pageVec c') = [] /\
      (lengths_ok (pv_pages (cv_pageVec c)) -> cv_sent c' = concat (page_bytes (cv_pages c) <$> pv_pages (cv_pageVec c))))).

(** From the attempt [m] on no server asks for a repetition, or a fatal signal is pending after this attempt. *)
Definition settles (rw : Fhgfs_RWType) (env : nat -> VecEnv) (m : nat) : Prop :=
  ve_signal_retry (env m) = true \/
  (forall i c r c', (m <= i)%nat -> communicate_once se rw (env i) c = Some (r, c') -> r <> - FhgfsOpsErr_AGAIN).

Lemma attempts_ok rw maxRetries : 0 <= maxRetries < 2 ^ 32 - 1 -> forall fuel env m retries c,
  (forall i, vec_env_ok (env i)) -> settles rw env m ->
  Z.of_nat m + maxRetries + 1 - (if (m =? 0)%nat then retries else 0) <= Z.of_nat fuel -> 0 <= retries <= maxRetries ->
  idle R S c -> pv_ok (cv_pageVec c) -> buf_ok c -> in_s 64 (cv_nodeResult c) ->
  all_pending rw (cv_pages c) (pv_pages (cv_pageVec c)) ->
  exists retVal c', rwFile_attempts se fuel rw env maxRetries retries c = Some (retVal, c') /\ attempts_end rw c retVal c'.
Proof.
  intros Hmax. induction fuel as [|fuel IH]; intros env m retries c He Hm Hf Hr Hi Hok Hb Hin Hp.
  { destruct m; cbn in Hf; lia. }
  cbn [rwFile_attempts]. destruct (once_ok rw (env O) c (He O) Hi Hok Hb Hin Hp) as (c1 & E & Hk & Hi1 & Hw). rewrite E. cbn [mbind option_bind].
  assert (Hend : forall retVal, retVal = (if vec_retryable (cv_nodeResult c1) then - FhgfsOpsErr_COMMUNICATION else cv_nodeResult c1) ->
    attempts_end rw c retVal c1) by (intros retVal ->; done).
  destruct (vec_retryable (cv_nodeResult c1)) eqn:Er; cbn [andb].
  2: { assert (cv_nodeResult c1 =? - FhgfsOpsErr_AGAIN = false /\ cv_nodeResult c1 =? - FhgfsOpsErr_COMMUNICATION = false) as [-> Ec].
    { unfold vec_retryable in Er. by apply orb_false_iff in Er as [? ?]. }
    rewrite Ec. cbn [andb]. eexists _, _. split; [done|]. by apply Hend. }
  assert (Hagain : forall b : bool, b = (cv_nodeResult c1 =? - FhgfsOpsErr_AGAIN) ->
    exists retries', (if b then (- FhgfsOpsErr_COMMUNICATION, 0) else (cv_nodeResult c1, u32 (retries + 1))) = (- FhgfsOpsErr_COMMUNICATION, retries') /\
      0 <= retries' /\ (b = false -> retries' = retries + 1)).
  { intros [] Eb; [by exists 0|]. unfold vec_retryable in Er. rewrite <- Eb, orb_false_r in Er. apply Z.eqb_eq in Er. rewrite Er.
    exists (retries + 1). rewrite u32_small by lia. split; [done|]. split; [lia|done]. }
  destruct (Hagain _ eq_refl) as (retries' & -> & Hr' & Hb'). clear Hagain. cbn [Z.eqb]. rewrite Z.eqb_refl. cbn [andb].
  destruct ((retries' <=? maxRetries) && negb (ve_signal_retry (env O))) eqn:Econt.
  2: { eexists _, _. split; [done|]. by apply Hend. }
  apply andb_true_iff in Econt as [Ele%Z.leb_le Esig%negb_true_iff].
  destruct (IH (fun i => env (Datatypes.S i)) (pred m) retries' c1) as (retVal & c' & E' & Hend').
  - done.
  - destruct Hm as [Hsig|Hno]; [destruct m as [|m]; [congruence|by left]|]. right. intros i d r d' Hle. apply Hno. lia.
  - destruct m as [|m]; cbn [pred Nat.eqb] in Hf |- *; [|destruct (m =? 0)%nat; lia].
    destruct Hm as [Hsig|Hno]; [congruence|].
    rewrite Hb'; [lia|]. apply Z.eqb_neq. by apply (Hno O c _ c1).
  - lia.
  - done.
  - apply Hk.
  - apply Hk.
  - apply Hk.
  - destruct (pv_same_pages _ _ (kp_same _ _ Hk)) as [-> _]. by apply (data_only_pending _ _ _ _ (kp_data _ _ Hk)).
  - exists retVal, c'. split; [done|]. destruct Hend' as (Hk' & Hi' & Hret & Hw'). split; [by eapply kept_trans|]. split; [done|]. split; [done|].
    intros Ew. destruct (Hw Ew) as [Ep1 _]. destruct (Hw' Ew) as [Ep2 Hres]. split; [congruence|].
    destruct (pv_same_pages _ _ (kp_same _ _ Hk)) as [Epp _]. rewrite Epp, Ep1 in Hres. done.
Qed.
End Attempt.

Lemma write_ended_ended r p : ended BEEGFS_RWTYPE_WRITE (write_ended r p).
Proof. unfold write_ended. destruct (r <=? 0); [destruct (_ || _)|]; done. Qed.
Lemma read_ended_ended r p : ended BEEGFS_RWTYPE_READ (read_ended r p).
Proof. split; [reflexivity|]. split; reflexivity || exact I. Qed.

(** The pages from [k] on are ended, those before are still in flight. *)
Definition handed_back (rw : Fhgfs_RWType) (pages : list FhgfsPage) (k : nat) (w w' : PagesWorld) : Prop :=
  (forall i q, pages !! i = Some q -> exists p', pw_pages w' !! fp_page q = Some p' /\ if (i <? k)%nat then pending rw p' else ended rw p') /\
  (forall x, x ∉ fp_page <$> pages -> pg_set_data [] <$> pw_pages w' !! x = pg_set_data [] <$> pw_pages w !! x).

Lemma finals_handed_back rw (P : nat -> Page -> Page -> Prop) w w' pages k : all_pending rw w pages -> (forall i p p', P i p p' -> ended rw p') ->
  finals P w w' (drop k pages) -> handed_back rw pages k w w'.
Proof.
  intros [Hn Hl] HP [Hf Ho]. split.
  - intros i q Hq. destruct (Nat.ltb_spec i k) as [Hlt|Hge].
    + rewrite Forall_forall in Hl. destruct (Hl q) as (p & Hp & Hpend); [apply list_elem_of_In; by eapply list_elem_of_lookup_2|].
      exists p. split; [|done]. rewrite Ho; [done|]. intros Hin. apply list_elem_of_fmap in Hin as (q' & Eq & Hin).
      apply list_elem_of_lookup in Hin as [j Hj]. rewrite lookup_drop in Hj.
      pose proof (NoDup_lookup _ i (k + j) (fp_page q) Hn) as Hnd. rewrite !list_lookup_fmap, Hq, Hj in Hnd. cbn in Hnd.
      rewrite <- Eq in Hnd. specialize (Hnd eq_refl eq_refl). lia.
    + destruct (Hf (i - k)%nat q) as (p & p' & _ & Hp' & HPp); [rewrite lookup_drop; by replace (k + (i - k))%nat with i by lia|]. eauto.
  - intros x Hx. rewrite Ho; [done|]. intros Hin. apply Hx. apply list_elem_of_fmap in Hin as (q' & -> & Hin). apply list_elem_of_fmap_2.
    rewrite <- (take_drop k pages). apply elem_of_app. by right.
Qed.

(** Both parts of the loop over the pages of a read. *)
Lemma handle_read_ok c : pv_ok (cv_pageVec c) -> all_pending BEEGFS_RWTYPE_READ (cv_pages c) (pv_pages (cv_pageVec c)) ->
  in_s 64 (cv_nodeResult c) -> vec_retryable (cv_nodeResult c) = false -> exists c' k,
  __FhgfsOpsCommKitVec_readfileStageHandlePages c = Some c' /\
  cv_nodeRefs c' = cv_nodeRefs c /\ cv_sockets c' = cv_sockets c /\ cv_writeBackCounter c' = cv_writeBackCounter c /\
  (forall i, (i < k)%nat -> 0 < cv_nodeResult c - PAGE_SIZE * Z.of_nat i /\ Z.of_nat i < cv_numSuccessPages c) /\
  ((length (pv_pages (cv_pageVec c)) <= k)%nat \/ cv_nodeResult c - PAGE_SIZE * Z.of_nat k <= 0 \/ cv_numSuccessPages c <= Z.of_nat k) /\
  let r := if 0 <? cv_nodeResult c - PAGE_SIZE * Z.of_nat k then -1 else page_read_res (cv_nodeResult c) in
  finals (fun i p p' => if (i <? k)%nat then p' = read_ended (s32 (cv_nodeResult c - PAGE_SIZE * Z.of_nat i)) p
      else p' = read_ended r p \/ 0 <= r /\ p' = read_ended r (zeroed p)) (cv_pages c) (cv_pages c') (pv_pages (cv_pageVec c)).
Proof.
  intros Hok Hp Hin Hr. unfold __FhgfsOpsCommKitVec_readfileStageHandlePages. rewrite Hr. destruct (reset_ok _ Hok) as (Hok1 & Hs1 & Hr1).
  set (c1 := cv_set_pages _ _ c). destruct (pv_same_pages _ _ Hs1) as [_ Hz1]. destruct Hok as [_ [Hz Hzb] _ _ _].
  destruct (end_read_pages_ok (page_fuel c1) 0 (cv_nodeResult c) c1) as (k & vec & w & E & Hok2 & Hs2 & Hr2 & Hfin & Hlt & Hstop);
    [done|cbn; rewrite Hr1; unfold page_fuel; cbn; unfold zlen in Hz; lia|cbn; by rewrite Hr1|done|].
  replace (cv_nodeResult c1) with (cv_nodeResult c) in * by done. rewrite E. cbn [mbind option_bind].
  cbn [c1 cv_pageVec cv_pages cv_set_pages cv_numSuccessPages] in Hr2, Hfin, Hlt, Hstop. rewrite Hr1 in Hr2, Hfin, Hstop.
  set (pages := pv_pages (cv_pageVec c)) in *. set (rest := cv_nodeResult c - PAGE_SIZE * Z.of_nat k) in *.
  set (c2 := if 0 <? rest then _ else _).
  assert (Hc2 : cv_pageVec c2 = vec /\ cv_pages c2 = w /\ cv_nodeRefs c2 = cv_nodeRefs c /\ cv_sockets c2 = cv_sockets c /\
    cv_writeBackCounter c2 = cv_writeBackCounter c /\ page_read_res (cv_nodeResult c2) = if 0 <? rest then -1 else page_read_res (cv_nodeResult c)).
  { unfold c2. by destruct (0 <? rest). }
  destruct Hc2 as (Ev & Ep & En & Es & Ew & Er). clearbody c2.
  assert (Htail : all_pending BEEGFS_RWTYPE_READ w (drop k pages)).
  { destruct Hp as [Hn Hl]. destruct Hfin as [_ Hother]. rewrite <- (take_drop k pages), fmap_app in Hn. apply list.NoDup_app in Hn as (_ & Hd & Hn).
    rewrite <- (take_drop k pages) in Hl. apply Forall_app in Hl as [_ Hl]. split; [done|]. rewrite Forall_forall in Hl |- *. intros q Hq.
    destruct (Hl q Hq) as (p & Hpq & Hpend). exists p. split; [|done]. rewrite Hother; [done|]. intros Hin'. eapply Hd; [exact Hin'|].
    apply list_elem_of_fmap_2. by apply list_elem_of_In. }
  destruct (end_remaining_pages_ok (page_fuel c2) true c2) as (vec3 & w3 & E3 & _ & Hfin3);
    [by rewrite Ev|rewrite Ev, Hr2; unfold page_fuel; rewrite Ev|rewrite Ev, Ep, Hr2; done|].
  { destruct (pv_same_pages _ _ Hs2) as [_ Hz2]. rewrite Hz2. cbn. rewrite length_drop. unfold pages, zlen in *. lia. }
  rewrite E3. exists (cv_set_pages vec3 w3 c2), k. split; [done|]. split; [done|]. split; [done|]. split; [done|]. split; [done|]. split; [done|].
  cbv zeta. rewrite Ev, Ep, Hr2, Er in Hfin3. cbn [cv_pages cv_set_pages]. clear E E3. destruct Hfin as [Hf1 Ho1], Hfin3 as [Hf3 Ho3].
  destruct Hp as [Hn _]. rewrite <- (take_drop k pages), fmap_app in Hn. apply list.NoDup_app in Hn as (_ & Hd & _). split.
  - intros i q Hq. destruct (Nat.ltb_spec i k) as [Hik|Hik].
    + destruct (Hf1 i q) as (p & p' & Hp1 & Hp2 & HP); [by rewrite lookup_take_lt|]. exists p, p'. split; [done|]. split; [|done].
      rewrite Ho3; [done|]. intros Hin'. eapply Hd; [|exact Hin']. apply list_elem_of_fmap_2. eapply list_elem_of_lookup_2. by rewrite lookup_take_lt.
    + destruct (Hf3 (i - k)%nat q) as (p & p' & Hp1 & Hp2 & HP); [rewrite lookup_drop; by replace (k + (i - k))%nat with i by lia|].
      exists p, p'. split; [|done]. rewrite Ho1 in Hp1; [done|]. intros Hin'. eapply Hd; [exact Hin'|]. apply list_elem_of_fmap_2.
      eapply list_elem_of_lookup_2 with (i - k)%nat. rewrite lookup_drop. by replace (k + (i - k))%nat with i by lia.
  - intros x Hx. rewrite <- (take_drop k pages), fmap_app, not_elem_of_app in Hx. destruct Hx. by rewrite Ho3, Ho1.
Qed.

Lemma handle_write_ok c : pv_ok (cv_pageVec c) -> all_pending BEEGFS_RWTYPE_WRITE (cv_pages c) (pv_pages (cv_pageVec c)) ->
  vec_retryable (cv_nodeResult c) = false -> cv_nodeResult c < 0 \/ pv_rest (cv_pageVec c) = [] -> exists c',
  __FhgfsOpsCommKitVec_writefileStageHandlePages c = Some c' /\
  cv_nodeRefs c' = cv_nodeRefs c /\ cv_sockets c' = cv_sockets c /\ cv_writeBackCounter c' = cv_writeBackCounter c /\ cv_sent c' = cv_sent c /\
  finals (fun i p p' => exists r q, p' = write_ended r p /\ pv_pages (cv_pageVec c) !! i = Some q /\
    (lengths_ok (pv_pages (cv_pageVec c)) -> in_s 64 (cv_nodeResult c) ->
     r = if 0 <? cv_nodeResult c - foldr Z.add 0 (fp_length <$> take i (pv_pages (cv_pageVec c))) then fp_length q else - EREMOTEIO))
    (cv_pages c) (cv_pages c') (pv_pages (cv_pageVec c)).
Proof.
  intros Hok Hp Hr Hcase. unfold __FhgfsOpsCommKitVec_writefileStageHandlePages. rewrite Hr.
  assert (Hnext : exists next vec, FhgfsChunkPageVec_iterateGetNextPage (cv_pageVec c) = Some (next, vec) /\ pv_ok vec /\ pv_same (cv_pageVec c) vec /\
    (next = None \/ cv_nodeResult c < 0)).
  { pose proof (next_page_of_rest _ Hok) as Hit. destruct (pv_rest (cv_pageVec c)) as [|q rest].
    { exists None, (cv_pageVec c). split; [done|]. split; [done|]. split; [apply pv_same_refl|by left]. }
    destruct Hit as (vec & E & ? & ? & _). exists (Some q), vec. split; [done|]. split; [done|]. split; [done|]. right. by destruct Hcase. }
  destruct Hnext as (next & vec & -> & Hokv & Hsv & Hnone). cbn [mbind option_bind]. destruct (reset_ok _ Hokv) as (Hok1 & Hs1 & Hr1).
  destruct (pv_same_pages _ _ Hsv) as [Epp Ez]. set (c1 := cv_set_pages _ _ c). set (first := match next with Some _ => _ | None => _ end).
  destruct (end_write_pages_ok (page_fuel c1) first (cv_nodeResult c) c1) as (vec2 & w2 & E2 & _ & Hfin);
    [done|cbn; rewrite Hr1; unfold page_fuel; cbn|cbn; rewrite Hr1, Epp; done|].
  { destruct Hok as [_ [Hz _] _ _ _]. rewrite Epp, Ez. unfold zlen in Hz. lia. }
  replace (cv_nodeResult c1) with (cv_nodeResult c) by done. rewrite E2. exists (cv_set_pages vec2 w2 c1). split; [done|].
  do 4 (split; [done|]). cbn [c1 cv_pageVec cv_pages cv_set_pages] in Hfin. rewrite Hr1, Epp in Hfin.
  eapply finals_impl, Hfin. intros i p p' (r & -> & Hq). destruct Hq as (q & Hq & Hres).
  { unfold first. destruct Hnone as [->|?]; [by left|right; lia]. }
  exists r, q. done.
Qed.

(** ** Whole requests *)

Section Request.
Context (se : FileSession) (env : nat -> VecEnv) (rw : Fhgfs_RWType) (m fuel : nat) (maxRetries : Z) (c : CommVec).
Hypothesis Hse : session_ok se.
Hypothesis Henv : forall i, vec_env_ok (env i).
Hypothesis Hsettles : settles se rw env m.
Hypothesis Hretries : 0 <= maxRetries < 2 ^ 32 - 1.
Hypothesis Hfuel : Z.of_nat m + maxRetries + 1 <= Z.of_nat fuel.
Hypothesis Hok : pv_ok (cv_pageVec c).
Hypothesis Hbuf : buf_ok c.
Hypothesis Hres : in_s 64 (cv_nodeResult c).
Hypothesis Hpend : all_pending rw (cv_pages c) (pv_pages (cv_pageVec c)).
Hypothesis Hrefs : 0 <= cv_nodeRefs c.

Lemma request_attempts : exists retVal c1, rwFile_attempts se fuel rw env maxRetries 0 c = Some (retVal, c1) /\
  attempts_end (cv_nodeRefs c) (cv_sockets c) rw c retVal c1 /\ all_pending rw (cv_pages c1) (pv_pages (cv_pageVec c1)) /\
  pv_pages (cv_pageVec c1) = pv_pages (cv_pageVec c).
Proof.
  destruct (attempts_ok se Hse (cv_nodeRefs c) (cv_sockets c) Hrefs rw maxRetries Hretries fuel env m 0 c Henv Hsettles)
    as (retVal & c1 & E & Hend); [destruct (m =? 0)%nat; lia|lia|done..|].
  exists retVal, c1. split; [done|]. split; [done|]. destruct Hend as (Hk & _). destruct (pv_same_pages _ _ (kp_same _ _ Hk)) as [Epp _].
  rewrite Epp. split; [|done]. by apply (data_only_pending _ _ _ _ (kp_data _ _ Hk)).
Qed.

(** Pages that were not given back by the kit: those behind the iterator are given back by the caller. *)
Lemma tail_ok c1 : pv_ok (cv_pageVec c1) -> all_pending rw (cv_pages c1) (pv_pages (cv_pageVec c1)) -> exists vec w,
  match rw with
  | BEEGFS_RWTYPE_WRITE => FhgfsChunkPageVec_iterateAllHandleWritePages (page_fuel c1) (- EAGAIN) (cv_pageVec c1) (cv_pages c1)
  | BEEGFS_RWTYPE_READ => FhgfsChunkPageVec_iterateAllHandleReadErr (page_fuel c1) (cv_pageVec c1) (cv_pages c1)
  end = Some (vec, w) /\
  handed_back rw (pv_pages (cv_pageVec c1)) (Z.to_nat (pv_currentListVecIterIdx (cv_pageVec c1))) (cv_pages c1) w.
Proof.
  intros Hok1 Hp. assert (Hf : (length (pv_rest (cv_pageVec c1)) < page_fuel c1)%nat).
  { pose proof (pv_rest_length _ Hok1) as Hl. destruct Hok1 as [_ _ _ [_ Hx] _]. unfold page_fuel, zlen in *. lia. }
  assert (Hrest : all_pending rw (cv_pages c1) (pv_rest (cv_pageVec c1))).
  { destruct Hp as [Hn Hl]. unfold pv_rest. set (k := Z.to_nat _). rewrite <- (take_drop k (pv_pages (cv_pageVec c1))) in Hn, Hl. rewrite fmap_app in Hn.
    apply list.NoDup_app in Hn as (_ & _ & Hn). apply Forall_app in Hl as [_ Hl]. by split. }
  destruct rw.
  - destruct (iterate_read_ok _ _ _ Hok1 Hf Hrest) as (vec & w & E & _ & Hfin). exists vec, w. split; [done|].
    eapply finals_handed_back; [done| |exact Hfin]. intros i p p' ->. split; [done|]. split; [done|exact I].
  - destruct (iterate_write_ok (- EAGAIN) _ _ _ Hok1 Hf Hrest) as (vec & w & E & _ & Hfin). exists vec, w. split; [done|].
    eapply finals_handed_back; [done| |exact Hfin]. intros i p p' ->. apply write_ended_ended.
Qed.

Lemma handed_back_data pages k w w1 w2 : data_only w w1 -> handed_back rw pages k w1 w2 -> handed_back rw pages k w w2.
Proof. intros Hd [Hl Ho]. split; [done|]. intros x Hin. by rewrite (Ho x Hin), (Hd x). Qed.

Lemma request_ok_all : exists retVal c' k, rwChunkPageVec_io se fuel env maxRetries rw c = Some (retVal, c') /\
  cv_nodeRefs c' = cv_nodeRefs c /\ cv_sockets c' = cv_sockets c /\ cv_writeBackCounter c' = cv_writeBackCounter c /\
  handed_back rw (pv_pages (cv_pageVec c)) k (cv_pages c) (cv_pages c') /\
  (retVal <> - FhgfsOpsErr_COMMUNICATION -> k = O) /\ (k <= length (pv_pages (cv_pageVec c)))%nat.
Proof.
  destruct request_attempts as (retVal & c1 & E & (Hk & [Hi1 Hi2] & Hret & Hw) & Hp1 & Epp).
  unfold rwChunkPageVec_io, FhgfsOpsCommKitVec_rwFileCommunicate. rewrite E. cbn [mbind option_bind].
  destruct (vec_retryable (cv_nodeResult c1)) eqn:Er.
  - subst retVal. assert (Hh : (match rw with BEEGFS_RWTYPE_READ => __FhgfsOpsCommKitVec_readfileStageHandlePages c1
        | BEEGFS_RWTYPE_WRITE => __FhgfsOpsCommKitVec_writefileStageHandlePages c1 end) = Some c1).
    { unfold __FhgfsOpsCommKitVec_readfileStageHandlePages, __FhgfsOpsCommKitVec_writefileStageHandlePages. rewrite Er. by destruct rw. }
    rewrite Hh. cbn [mbind option_bind]. rewrite Z.eqb_refl. destruct (tail_ok c1 (kp_ok _ _ Hk) Hp1) as (vec & w & -> & Hback). cbn [mbind option_bind].
    eexists _, _, _. split; [done|]. split; [done|]. split; [done|]. split; [apply Hk|]. rewrite Epp in Hback.
    split; [eapply handed_back_data; [apply Hk|exact Hback]|]. split; [done|].
    destruct (kp_ok _ _ Hk) as [_ [Hz _] _ [_ Hx] _]. rewrite Hz, Epp in Hx. unfold zlen in Hx. lia.
  - subst retVal. assert (Hne : (cv_nodeResult c1 =? - FhgfsOpsErr_COMMUNICATION) = false) by (unfold vec_retryable in Er; by apply orb_false_iff in Er as [? _]).
    assert (Hh : exists c2, match rw with BEEGFS_RWTYPE_READ => __FhgfsOpsCommKitVec_readfileStageHandlePages c1
        | BEEGFS_RWTYPE_WRITE => __FhgfsOpsCommKitVec_writefileStageHandlePages c1 end = Some c2 /\
        cv_nodeRefs c2 = cv_nodeRefs c1 /\ cv_sockets c2 = cv_sockets c1 /\ cv_writeBackCounter c2 = cv_writeBackCounter c1 /\
        handed_back rw (pv_pages (cv_pageVec c1)) 0 (cv_pages c1) (cv_pages c2)).
    { destruct rw.
      - destruct (handle_read_ok c1 (kp_ok _ _ Hk) Hp1 (kp_result _ _ Hk) Er) as (c2 & k & E2 & H1 & H2 & H3 & _ & _ & Hfin).
        exists c2. do 4 (split; [done|]). eapply finals_handed_back; [done| |rewrite drop_0; exact Hfin]. cbv beta.
        intros i p p'. destruct (i <? k)%nat; [intros ->|intros [->|[_ ->]]]; apply read_ended_ended.
      - destruct (Hw eq_refl) as [_ Hsent]. destruct (handle_write_ok c1 (kp_ok _ _ Hk) Hp1 Er) as (c2 & E2 & H1 & H2 & H3 & _ & Hfin);
          [destruct Hsent as [?|[? _]]; auto|].
        exists c2. do 4 (split; [done|]). eapply finals_handed_back; [done| |rewrite drop_0; exact Hfin]. cbv beta.
        intros i p p' (r & q & -> & _). apply write_ended_ended. }
    destruct Hh as (c2 & -> & H1 & H2 & H3 & Hback). cbn [mbind option_bind]. rewrite Hne.
    exists (cv_nodeResult c1), c2, O. split; [done|]. split; [congruence|]. split; [congruence|]. split; [rewrite H3; apply Hk|].
    rewrite Epp in Hback. split; [eapply handed_back_data; [apply Hk|exact Hback]|]. split; [done|lia].
Qed.
End Request.

(** Pages that were written before [i] count for the bytes that the server reports. *)
Definition bytes_before (pages : list FhgfsPage) (i : nat) : Z := foldr Z.add 0 (fp_length <$> take i pages).
Definition page_result (pages : list FhgfsPage) (retVal : Z) (i : nat) (q : FhgfsPage) : Z :=
  if bytes_before pages i <? retVal then fp_length q else - EREMOTEIO.
Lemma bytes_before_lt pages i q : lengths_ok pages -> pages !! i = Some q -> bytes_before pages i < bytes_before pages (length pages).
Proof.
  intros Hlen Hq. pose proof (take_drop_middle _ _ _ Hq) as Hsplit. unfold bytes_before. rewrite firstn_all. rewrite <- Hsplit at 2.
  rewrite fmap_app, fmap_cons. unfold lengths_ok in Hlen. rewrite <- Hsplit in Hlen. apply Forall_app in Hlen as [_ Hlen]. inversion Hlen as [|? ? Hql Hrest]; subst.
  assert (Hsum : forall a b, foldr Z.add 0 (a ++ b) = foldr Z.add 0 a + foldr Z.add 0 b) by (induction a; intros; cbn in *; [done|rewrite IHa; lia]).
  assert (Hnn : 0 <= foldr Z.add 0 (fp_length <$> drop (S i) pages)) by (clear -Hrest; induction Hrest; cbn in *; lia).
  rewrite Hsum. cbn [foldr]. lia.
Qed.
(** The state in which [FhgfsOpsRemoting_rwChunkPageVec] starts the communication. *)
Definition vec_start (vec : FhgfsChunkPageVec) (offset targetID : Z) (msgBuf : list byte) (firstWriteDone : bool) (w : PagesWorld)
    (noIsizeDecrease : bool) (lastWriteBack : Z) : CommVec :=
  FhgfsOpsCommKitVec_setRWFileStateFirstWriteDone firstWriteDone
    (FhgfsOpsCommKitVec_assignRWfileState vec offset targetID msgBuf w noIsizeDecrease lastWriteBack).

(** C36: a request for a page vector comes to an end, if from some attempt [m] on no answer of the server asks for a repetition (which resets the
    number of retries) or a fatal signal is pending after it, whatever else the network does: within [m] attempts and the retries and
    one more it returns without a fault of the pages or the connection (no use of a node that was given
    back, no page unlocked or unmapped twice).  Connections, node references and the counter of writebacks are those of before.
    Every page is handed back to the kernel once, and other pages keep their state; only with the result of a communication
    error may the first [k] pages, those that the iterator has passed, stay locked. *)
Theorem page_requests_end se env rw m fuel maxRetries vec offset targetID msgBuf firstWriteDone w noDecrease time :
  session_ok se -> (forall i, vec_env_ok (env i)) -> settles se rw env m ->
  0 <= maxRetries < 2 ^ 32 - 1 -> Z.of_nat m + maxRetries + 1 <= Z.of_nat fuel ->
  pv_ok vec -> zlen msgBuf = BEEGFS_COMMKIT_MSGBUF_SIZE -> all_pending rw w (pv_pages vec) ->
  exists retVal c' k,
    rwChunkPageVec_io se fuel env maxRetries rw (vec_start vec offset targetID msgBuf firstWriteDone w noDecrease time) = Some (retVal, c') /\
    cv_nodeRefs c' = 0 /\ cv_sockets c' = 0 /\ cv_writeBackCounter c' = 0 /\
    handed_back rw (pv_pages vec) k w (cv_pages c') /\
    (retVal <> - FhgfsOpsErr_COMMUNICATION -> k = O) /\ (k <= length (pv_pages vec))%nat.
Proof.
  intros Hse Henv Hs Hr Hf Hok Hb Hp. by apply (request_ok_all se env rw m fuel maxRetries (vec_start vec offset targetID msgBuf firstWriteDone w noDecrease time)).
Qed.

(** C37: a request to write a page vector ends with a communication error, or every page gets the result that the bytes reported by the server give:
    pages in order are written as long as the bytes of the pages before them are fewer than the result, and all others fail with
    EREMOTEIO.  If the result is not negative then exactly the data of all pages, in order, were sent in the last attempt, and if it is the length
    of all the data, then all pages were written. *)
Theorem page_write_results se env m fuel maxRetries vec offset targetID msgBuf firstWriteDone w noDecrease time :
  session_ok se -> (forall i, vec_env_ok (env i)) -> settles se BEEGFS_RWTYPE_WRITE env m ->
  0 <= maxRetries < 2 ^ 32 - 1 -> Z.of_nat m + maxRetries + 1 <= Z.of_nat fuel ->
  pv_ok vec -> zlen msgBuf = BEEGFS_COMMKIT_MSGBUF_SIZE -> all_pending BEEGFS_RWTYPE_WRITE w (pv_pages vec) -> lengths_ok (pv_pages vec) ->
  exists retVal c',
    rwChunkPageVec_io se fuel env maxRetries BEEGFS_RWTYPE_WRITE (vec_start vec offset targetID msgBuf firstWriteDone w noDecrease time) = Some (retVal, c') /\
    (retVal = - FhgfsOpsErr_COMMUNICATION \/
     (forall i q, pv_pages vec !! i = Some q -> exists p, pw_pages w !! fp_page q = Some p /\
        pw_pages (cv_pages c') !! fp_page q = Some (write_ended (page_result (pv_pages vec) retVal i q) p)) /\
     (0 <= retVal -> cv_sent c' = concat (page_bytes w <$> pv_pages vec)) /\
     (retVal = bytes_before (pv_pages vec) (length (pv_pages vec)) -> forall i q, pv_pages vec !! i = Some q ->
        page_result (pv_pages vec) retVal i q = fp_length q)).
Proof.
  intros Hse Henv Hs Hr Hf Hok Hb Hp Hlen. set (c := vec_start vec offset targetID msgBuf firstWriteDone w noDecrease time).
  destruct (request_attempts se env BEEGFS_RWTYPE_WRITE m fuel maxRetries c Hse Henv Hs Hr Hf Hok Hb ltac:(done) Hp ltac:(done))
    as (retVal & c1 & E & (Hk & _ & Hret & Hw) & Hp1 & Epp).
  destruct (vec_retryable (cv_nodeResult c1)) eqn:Er.
  { destruct (request_ok_all se env BEEGFS_RWTYPE_WRITE m fuel maxRetries c Hse Henv Hs Hr Hf Hok Hb ltac:(done) Hp ltac:(done)) as (r & c' & k & E' & _).
    exists r, c'. split; [done|]. left. revert E'. unfold rwChunkPageVec_io, FhgfsOpsCommKitVec_rwFileCommunicate. rewrite E. cbn [mbind option_bind].
    unfold __FhgfsOpsCommKitVec_writefileStageHandlePages. rewrite Er. cbn [mbind option_bind]. subst retVal. rewrite Z.eqb_refl.
    destruct (FhgfsChunkPageVec_iterateAllHandleWritePages _ _ _ _) as [[? ?]|]; [|done]. cbn. congruence. }
  assert (Hne : (retVal =? - FhgfsOpsErr_COMMUNICATION) = false) by (subst retVal; unfold vec_retryable in Er; by apply orb_false_iff in Er as [? _]).
  destruct (Hw eq_refl) as [Epg Hsent].
  destruct (handle_write_ok c1 (kp_ok _ _ Hk) Hp1 Er) as (c2 & E2 & _ & _ & _ & Es & Hfin); [destruct Hsent as [?|[? _]]; auto|].
  exists retVal, c2. split.
  { unfold rwChunkPageVec_io, FhgfsOpsCommKitVec_rwFileCommunicate. rewrite E. cbn [mbind option_bind]. rewrite E2. cbn [mbind option_bind]. by rewrite Hne. }
  right. subst retVal. replace (pv_pages (cv_pageVec c)) with (pv_pages vec) in * by done. replace (cv_pages c) with w in * by done. rewrite Epp, Epg in Hfin. split_and!.
  - intros i q Hq. destruct Hfin as [Hfin _]. destruct (Hfin i q Hq) as (p & p' & Hpw & Hpw' & r & q' & -> & Hq' & Hres).
    rewrite Hq in Hq'. injection Hq' as <-. exists p. split; [done|]. rewrite Hpw'. do 2 f_equal. rewrite Hres by (done || apply Hk).
    unfold page_result, bytes_before. destruct (Z.ltb_spec 0 (cv_nodeResult c1 - foldr Z.add 0 (fp_length <$> take i (pv_pages vec))));
      destruct (Z.ltb_spec (foldr Z.add 0 (fp_length <$> take i (pv_pages vec))) (cv_nodeResult c1)); lia || done.
  - intros Hnn. rewrite Es. destruct Hsent as [?|[_ Hsent]]; [lia|]. by apply Hsent.
  - intros -> i q Hq. unfold page_result. destruct (Z.ltb_spec (bytes_before (pv_pages vec) i) (bytes_before (pv_pages vec) (length (pv_pages vec)))) as [|Hge]; [done|].
    exfalso. pose proof (bytes_before_lt _ _ _ Hlen Hq). lia.
Qed.

(** ** Sample requests *)

(** The pages 6 and 7 of a file, the last with 100 bytes. *)
Definition vec_sample : FhgfsChunkPageVec := MkChunkPageVec false 8 2 [[MkFhgfsPage 0 4096; MkFhgfsPage 1 100]] 0 0 0 100 24576 6 6 7.
Definition page_sample (index : Z) (b : byte) : Page := MkPage index (replicate (Z.to_nat PAGE_SIZE) b) true true true false false None 1.
Definition world_sample (size : Z) : PagesWorld :=
  MkPagesWorld (<[0%nat := page_sample 6 Byte.x41]> (<[1%nat := page_sample 7 Byte.x42]> ∅)) size 2 false [].
Definition resp_sample (value : Z) : Z * list byte :=
  let blank := replicate (Z.to_nat BEEGFS_COMMKIT_MSGBUF_SIZE) Byte.x00 in
  match NetMessage_serialize (NetMessage_init 0 NETMSGTYPE_WriteLocalFileResp (MkSimpleInt64Msg value)) (Some blank) BEEGFS_COMMKIT_MSGBUF_SIZE with
  | Some (true, msg, Some buf) => match NetMessage_getMsgLength msg with Some (len, _) => (len, buf) | None => (0, blank) end
  | _ => (0, blank)
  end.
(** An attempt in which the target resolves and maybe connects, with a fatal signal pending; the header is sent with [header], pages are sent with [sent], the server sends [stream] or the response [resp]. *)
Definition vec_env_sample (connected : bool) (header : Z) (sent : Z -> Z) (stream : list byte) (resp : Z * list byte) : VecEnv :=
  MkVecEnv ∅ (fun _ => 0) connected true header sent stream (- ETIMEDOUT) resp
    (MkNetMessageHeader 0 0 0 0 0 0 0 0 0) (MkSimpleInt64Msg 0) (ck_io_example 5) true 0 false.
Definition msgBuf_sample : list byte := replicate (Z.to_nat BEEGFS_COMMKIT_MSGBUF_SIZE) Byte.x00.
Lemma vec_sample_ok : pv_ok vec_sample.
Proof. split; [exists [], [MkFhgfsPage 0 4096; MkFhgfsPage 1 100]; split; [done|split; [constructor|cbn; lia]]|..]; vm_compute; auto; repeat split; done. Qed.
Definition io_sample (rw : Fhgfs_RWType) (size : Z) (e : VecEnv) : option (Z * CommVec) :=
  rwChunkPageVec_io session_example 1 (fun _ => e) 0 rw (vec_start vec_sample 24576 1 msgBuf_sample false (world_sample size) false 0).
Definition io_page (page : nat) (r : option (Z * CommVec)) : option Page := '(_, c) ← r; pw_pages (cv_pages c) !! page.
Definition write_env (value : Z) : VecEnv := vec_env_sample true 100 (fun i => if i =? 0 then 4096 else 100) [] (resp_sample value).
Definition read_env (data : list byte) : VecEnv :=
  vec_env_sample true 100 (fun _ => 0) (le_split 8 (zlen data) ++ data ++ le_split 8 0) (0, msgBuf_sample).

Lemma world_sample_pending rw size : all_pending rw (world_sample size) (pv_pages vec_sample).
Proof.
  split; [repeat constructor; set_solver|]. repeat constructor; eexists; (split; [reflexivity|]); destruct rw; split_and!; done.
Qed.
Lemma session_example_ok : session_ok session_example.
Proof. split; [vm_compute; done|done]. Qed.
Lemma read_env_ok data : vec_env_ok (read_env data).
Proof. repeat split; vm_compute; done. Qed.
Lemma write_env_ok : vec_env_ok (write_env 4196).
Proof. repeat split; vm_compute; done. Qed.

(** Both pages are read. *)
Lemma page_requests_end_witness : exists retVal c' k,
  io_sample BEEGFS_RWTYPE_READ 28772 (read_env (replicate 4196 Byte.x43)) = Some (retVal, c') /\ cv_nodeRefs c' = 0 /\ cv_sockets c' = 0 /\
  handed_back BEEGFS_RWTYPE_READ (pv_pages vec_sample) k (world_sample 28772) (cv_pages c') /\ (retVal <> - FhgfsOpsErr_COMMUNICATION -> k = O).
Proof.
  destruct (page_requests_end session_example (fun _ => read_env (replicate 4196 Byte.x43)) BEEGFS_RWTYPE_READ 0 1 0 vec_sample 24576 1 msgBuf_sample false
    (world_sample 28772) false 0 session_example_ok (fun _ => read_env_ok _) (or_introl eq_refl) ltac:(lia) ltac:(lia) vec_sample_ok eq_refl (world_sample_pending _ _))
    as (retVal & c' & k & E & H1 & H2 & _ & H4 & H5 & _).
  exists retVal, c', k. split; [exact E|]. split; [exact H1|]. split; [exact H2|]. split; [exact H4|exact H5].
Defined.

(** Both pages are written. *)
Lemma page_write_results_witness : exists retVal c', io_sample BEEGFS_RWTYPE_WRITE 28772 (write_env 4196) = Some (retVal, c') /\
  (retVal = - FhgfsOpsErr_COMMUNICATION \/
   (0 <= retVal -> cv_sent c' = concat (page_bytes (world_sample 28772) <$> pv_pages vec_sample))).
Proof.
  destruct (page_write_results session_example (fun _ => write_env 4196) 0 1 0 vec_sample 24576 1 msgBuf_sample false (world_sample 28772) false 0
    session_example_ok (fun _ => write_env_ok) (or_introl eq_refl) ltac:(lia) ltac:(lia) vec_sample_ok eq_refl (world_sample_pending _ _)
    ltac:(repeat constructor; vm_compute; done)) as (retVal & c' & E & Hc).
  exists retVal, c'. split; [exact E|]. destruct Hc as [H|(_ & H & _)]; [left; exact H|right; exact H].
Defined.

Example pages_written :
  fst <$> io_sample BEEGFS_RWTYPE_WRITE 28772 (write_env 4196) = Some 4196 /\
  (pg_wbError <$> io_page 1 (io_sample BEEGFS_RWTYPE_WRITE 28772 (write_env 4196))) = Some None.
Proof. vm_compute. done. Qed.
Example pages_read :
  fst <$> io_sample BEEGFS_RWTYPE_READ 28772 (read_env (replicate 4196 Byte.x43)) = Some 4196 /\
  (take 101 ∘ pg_data <$> io_page 1 (io_sample BEEGFS_RWTYPE_READ 28772 (read_env (replicate 4196 Byte.x43)))) =
    Some (replicate 100 Byte.x43 ++ [Byte.x00]).
Proof. vm_compute. done. Qed.

(** The second page cannot be sent: both pages stay locked and in writeback, as the iterator has passed them. *)
Example sent_pages_lost :
  let r := io_sample BEEGFS_RWTYPE_WRITE 28772 (vec_env_sample true 100 (fun i => if i =? 0 then 4096 else - ETIMEDOUT) [] (0, msgBuf_sample)) in
  fst <$> r = Some (- FhgfsOpsErr_COMMUNICATION) /\ (pg_locked <$> io_page 0 r) = Some true /\ (pg_writeback <$> io_page 1 r) = Some true.
Proof. vm_compute. done. Qed.
(** The server has written one of the hundred bytes of the second page, which counts as written. *)
Example part_of_page_written :
  let r := io_sample BEEGFS_RWTYPE_WRITE 28772 (write_env 4097) in
  fst <$> r = Some 4097 /\ (pg_wbError <$> io_page 1 r) = Some None /\ (pg_dirty <$> io_page 1 r) = Some false.
Proof. vm_compute. done. Qed.
(** A read that was interrupted before the connection has a positive result. *)
Example interrupted_read :
  fst <$> io_sample BEEGFS_RWTYPE_READ 28772 (vec_env_sample false 100 (fun _ => 0) [] (0, msgBuf_sample)) = Some FhgfsOpsErr_INTERRUPTED.
Proof. vm_compute. done. Qed.
(** The request could not be sent, but the client goes on to receive the answer. *)
Example unsent_request_received :
  fst <$> io_sample BEEGFS_RWTYPE_READ 28772 (vec_env_sample true (- ETIMEDOUT) (fun _ => 0) (le_split 8 0) (0, msgBuf_sample)) = Some 0.
Proof. vm_compute. done. Qed.
(** The file ends after ten bytes of the page 6; the read of both pages makes it end after ten bytes of the page 7. *)
Example short_read_grows_file :
  (pw_isize ∘ cv_pages ∘ snd <$> io_sample BEEGFS_RWTYPE_READ 24586 (read_env (replicate 10 Byte.x43))) = Some 28682.
Proof. vm_compute. done. Qed.
(** The file ends in the page 7, of which the server has no data: what the page held before becomes its content. *)
Example last_page_not_zeroed :
  let r := io_sample BEEGFS_RWTYPE_READ 28772 (read_env (replicate 4096 Byte.x43)) in
  (take 3 ∘ pg_data <$> io_page 1 r) = Some [Byte.x42; Byte.x42; Byte.x42] /\ (pg_uptodate <$> io_page 1 r) = Some true.
Proof. vm_compute. done. Qed.
