(* ===== verification/PageIO.v ===== *)
(** * Collecting pages for requests

    Models the part of [filesystem/FhgfsOpsPages.c] that collects pages of the kernel into page vectors (the callbacks for
    writing and reading, [_FhgfsOpsPages_sendPageVec], [_FhgfsOpsPages_writepages] and [_FhgfsOpsPages_readahead]) and
    [components/worker/RWPagesWork.c] and [.h], in [client_module/source].

    A vector that is full is queued with an own reference to the file handle and sent by a worker thread, at any time: the workers'
    steps and the pages that the kernel passes are one sequence of events.  What a worker does with a vector,
    [FhgfsOpsRemoting_rwChunkPageVec], is an argument.  The results of allocations and of
    opening the file are in the [CallEnv] of a call.  [None] is a fault of [PageVec.v], a [BUG_ON], the release of a handle that is not held,
    or the use of a handle type that was never set. *)

From S2P Require Import Prelude StorageErrors Remoting PageVec CommKitVec.

(** ** State *)

(** [io_queue]: the works that wait for a worker, each with its vector; [io_unreachable]: the vectors that are still allocated but to which nothing points.
    References to handles and to the inode, and the vectors, are counted. *)
Record PageIO := MkPageIO {
  io_pages : PagesWorld;
  io_mappingEIO : bool;
  io_handles : Z;
  io_inodeRefs : Z;
  io_vecs : Z;
  io_queue : list (Fhgfs_RWType * FhgfsChunkPageVec);
  io_unreachable : list (Fhgfs_RWType * FhgfsChunkPageVec)
}.
Definition io_set_pages (w : PagesWorld) (io : PageIO) : PageIO :=
  MkPageIO w (io_mappingEIO io) (io_handles io) (io_inodeRefs io) (io_vecs io) (io_queue io) (io_unreachable io).
Definition io_set_eio (io : PageIO) : PageIO :=
  MkPageIO (io_pages io) true (io_handles io) (io_inodeRefs io) (io_vecs io) (io_queue io) (io_unreachable io).
Definition io_add_refs (handles inodeRefs vecs : Z) (io : PageIO) : PageIO :=
  MkPageIO (io_pages io) (io_mappingEIO io) (io_handles io + handles) (io_inodeRefs io + inodeRefs) (io_vecs io + vecs)
    (io_queue io) (io_unreachable io).
Definition io_set_queue (q : list (Fhgfs_RWType * FhgfsChunkPageVec)) (io : PageIO) : PageIO :=
  MkPageIO (io_pages io) (io_mappingEIO io) (io_handles io) (io_inodeRefs io) (io_vecs io) q (io_unreachable io).
Definition io_lose (x : Fhgfs_RWType * FhgfsChunkPageVec) (io : PageIO) : PageIO :=
  MkPageIO (io_pages io) (io_mappingEIO io) (io_handles io) (io_inodeRefs io) (io_vecs io) (io_queue io) (x :: io_unreachable io).
Definition on_pages (f : PagesWorld -> option PagesWorld) (io : PageIO) : option PageIO :=
  w ← f (io_pages io); Some (io_set_pages w io).

(** The kernel's [set_page_writeback], [ClearPageUptodate] and [get_page]. *)
Definition set_page_writeback : nat -> PagesWorld -> option PagesWorld := on_page any_page (pg_set_writeback true).
Definition ClearPageUptodate : nat -> PagesWorld -> option PagesWorld := on_page any_page (pg_set_uptodate false).
Definition get_page : nat -> PagesWorld -> option PagesWorld := on_page any_page (pg_add_refs 1).

Definition release_handle (io : PageIO) : option PageIO :=
  if 0 <? io_handles io then Some (io_add_refs (-1) 0 0 io) else None.
Definition FhgfsChunkPageVec_destroy (io : PageIO) : PageIO := io_add_refs 0 0 (-1) io.

(** ** Works *)

Record VecAlloc := MkVecAlloc { va_ok : bool; va_memory : FhgfsChunkPageVec; va_cache : bool; va_pool : bool }.
(** [sv_reference]: the result of the work's own reference to the file. *)
Record SendEnv := MkSendEnv { sv_workAlloc : bool; sv_reference : Z; sv_queued : bool; sv_vec : VecAlloc }.

Definition vec_fuel (vec : FhgfsChunkPageVec) : nat := S (Z.to_nat (pv_size vec)).
(** The pages of a vector that cannot be sent. *)
Definition fail_pages (rwType : Fhgfs_RWType) (vec : FhgfsChunkPageVec) (io : PageIO) : option PageIO :=
  '(_, w) ← match rwType with
            | BEEGFS_RWTYPE_READ => FhgfsChunkPageVec_iterateAllHandleReadErr (vec_fuel vec) vec (io_pages io)
            | BEEGFS_RWTYPE_WRITE => FhgfsChunkPageVec_iterateAllHandleWritePages (vec_fuel vec) (- EIO) vec (io_pages io)
            end;
  Some (io_set_pages w io).

(** [handleTypeSet]: the member [handleType] has a value. *)
Definition RWPagesWork_uninit (handleTypeSet : bool) (io : PageIO) : option PageIO :=
  let io := FhgfsChunkPageVec_destroy io in
  if handleTypeSet then release_handle io else None.
Definition RWPagesWork_destruct : bool -> PageIO -> option PageIO := RWPagesWork_uninit.
Definition RWPagesWork_init (e : SendEnv) (io : PageIO) : bool * PageIO :=
  if negb (sv_reference e =? FhgfsOpsErr_SUCCESS) then (false, io) else (true, io_add_refs 1 0 0 io).
(** The value tells whether there is an object. *)
Definition RWPagesWork_construct (e : SendEnv) (rwType : Fhgfs_RWType) (vec : FhgfsChunkPageVec) (io : PageIO) : option (bool * PageIO) :=
  if negb (sv_workAlloc e) then Some (false, io)
  else
    let '(initRes, io) := RWPagesWork_init e io in
    if negb initRes then
      io ← fail_pages rwType vec io;
      io ← RWPagesWork_destruct false io;
      Some (false, io)
    else Some (true, io).
(** Without an object the vector is not used any more, but not destroyed. *)
Definition RWPagesWork_createQueue (e : SendEnv) (rwType : Fhgfs_RWType) (vec : FhgfsChunkPageVec) (io : PageIO) : option (bool * PageIO) :=
  '(work, io) ← RWPagesWork_construct e rwType vec io;
  if (work : bool) then
    if sv_queued e then Some (true, io_set_queue (io_queue io ++ [(rwType, vec)]) io)
    else
      io ← fail_pages rwType vec io;
      io ← RWPagesWork_destruct true io;
      Some (true, io)
  else Some (false, io_lose (rwType, vec) io).

(** ** Page vectors of a call *)

(** [FhgfsPageData]; the handle type is not represented. *)
Record FhgfsPageData := MkPageData { pd_chunkPageVec : option FhgfsChunkPageVec; pd_isReferenced : bool }.

Section PageIO.
(** [RemotingIOInfo_getNumPagesPerChunk] of the file. *)
Context (chunkPages : Z).

Definition _FhgfsOpsPages_allocNewPageVec (e : VecAlloc) (pd : FhgfsPageData) (io : PageIO) : FhgfsPageData * PageIO :=
  match FhgfsChunkPageVec_create (va_ok e) (va_memory e) (va_cache e) (va_pool e) chunkPages with
  | Some vec => (MkPageData (Some vec) (pd_isReferenced pd), io_add_refs 0 0 1 io)
  | None => (MkPageData None (pd_isReferenced pd), io)
  end.
Definition _FhgfsOpsPages_sendPageVec (e : SendEnv) (isFinal : bool) (rwType : Fhgfs_RWType) (pd : FhgfsPageData) (io : PageIO) :
    option (Z * FhgfsPageData * PageIO) :=
  match pd_chunkPageVec pd with
  | None => Some (0, pd, io)
  | Some vec =>
      if FhgfsChunkPageVec_getSize vec =? 0 then
        if isFinal then Some (0, MkPageData None (pd_isReferenced pd), FhgfsChunkPageVec_destroy io) else Some (0, pd, io)
      else
        '(queueSuccess, io) ← RWPagesWork_createQueue e rwType vec io;
        let pd := MkPageData None (pd_isReferenced pd) in
        if negb queueSuccess then Some (- ENOMEM, pd, io)
        else if negb isFinal then
          let '(pd, io) := _FhgfsOpsPages_allocNewPageVec (sv_vec e) pd io in
          Some (match pd_chunkPageVec pd with None => - ENOMEM | Some _ => 0 end, pd, io)
        else Some (0, pd, io)
  end.
(** [reference]: the result of [FhgfsInode_referenceHandle]. *)
Definition _FhgfsOpsPages_referenceFileHandle (reference : Z) (pd : FhgfsPageData) (io : PageIO) : Z * FhgfsPageData * PageIO :=
  if pd_isReferenced pd then (FhgfsOpsErr_SUCCESS, pd, io)
  else if negb (reference =? FhgfsOpsErr_SUCCESS) then (reference, pd, io)
  else (reference, MkPageData (pd_chunkPageVec pd) true, io_add_refs 1 0 0 io).

(** ** Callbacks *)

Record CallEnv := MkCallEnv { ce_reference : Z; ce_alloc : VecAlloc; ce_push : bool; ce_send : SendEnv; ce_push2 : bool }.

(** What the loop of a callback ends with: the page is in the vector; the vector could not be sent; there is no vector; the page does not
    fit into a new vector. *)
Inductive PushOut := Pushed | SendFailed (r : Z) | NoVec | PushFailed.
(** The loop of both callbacks, which repeats once. *)
Definition push_page (e : CallEnv) (rwType : Fhgfs_RWType) (page : nat) (len : Z) (pd : FhgfsPageData) (io : PageIO) :
    option (PushOut * FhgfsPageData * PageIO) :=
  vec ← pd_chunkPageVec pd;
  '(pushSuccess, vec, w) ← FhgfsChunkPageVec_pushPage (ce_push e) page len vec (io_pages io);
  let pd := MkPageData (Some vec) (pd_isReferenced pd) in
  let io := io_set_pages w io in
  if (pushSuccess : bool) then Some (Pushed, pd, io)
  else
    '(res, pd, io) ← _FhgfsOpsPages_sendPageVec (ce_send e) false rwType pd io;
    if negb (res =? 0) then Some (SendFailed res, pd, io)
    else match pd_chunkPageVec pd with
    | None => Some (NoVec, pd, io)
    | Some vec =>
        '(pushSuccess, vec, w) ← FhgfsChunkPageVec_pushPage (ce_push2 e) page len vec (io_pages io);
        Some (if (pushSuccess : bool) then Pushed else PushFailed, MkPageData (Some vec) (pd_isReferenced pd), io_set_pages w io)
    end.

Definition outWriteErr (page : nat) (io : PageIO) : option PageIO := on_pages (unlock_page page) (io_set_eio io).
Definition outAgain (page : nat) (io : PageIO) : option PageIO :=
  on_pages (fun w => w ← set_page_dirty page w; unlock_page page w) io.

(** [FhgfsOpsPages_writePageCallBackPage] once there is a vector. *)
Definition write_collect (e : CallEnv) (page : nat) (index fileSize : Z) (pd : FhgfsPageData) (io : PageIO) : option (Z * FhgfsPageData * PageIO) :=
  let endIndex := Z.shiftr fileSize PAGE_SHIFT in
  let usedPageLen := if index <? endIndex then PAGE_SIZE else Z.land fileSize (PAGE_SIZE - 1) in
  if negb (index <? endIndex) && ((endIndex <? index) || (usedPageLen =? 0)) then
    '(writeRes, pd, io) ← _FhgfsOpsPages_sendPageVec (ce_send e) false BEEGFS_RWTYPE_WRITE pd io;
    if negb (writeRes =? 0) then io ← outWriteErr page io; Some (writeRes, pd, io)
    else
      io ← on_pages (fun w =>
        w ← set_page_writeback page w; w ← end_page_writeback page w; w ← ClearPageUptodate page w; unlock_page page w) io;
      Some (0, pd, io)
  else
    '(out, pd, io) ← push_page e BEEGFS_RWTYPE_WRITE page usedPageLen pd io;
    match out with
    | PushFailed => io ← outAgain page io; Some (- ENOMEM, pd, io)
    | SendFailed writeRes => io ← outWriteErr page io; Some (writeRes, pd, io)
    | NoVec => io ← outAgain page io; Some (0, pd, io)
    | Pushed =>
        p ← pw_pages (io_pages io) !! page;
        if pg_writeback p then None
        else io ← on_pages (set_page_writeback page) io; Some (0, pd, io)
    end.
Definition FhgfsOpsPages_writePageCallBackPage (e : CallEnv) (page : nat) (pd : FhgfsPageData) (io : PageIO) :
    option (Z * FhgfsPageData * PageIO) :=
  p ← pw_pages (io_pages io) !! page;
  let fileSize := pw_isize (io_pages io) in
  let '(referenceRes, pd, io) := _FhgfsOpsPages_referenceFileHandle (ce_reference e) pd io in
  if negb (referenceRes =? FhgfsOpsErr_SUCCESS) then
    io ← outWriteErr page io; Some (FhgfsOpsErr_toSysErr referenceRes, pd, io)
  else
    let '(pd, io) := match pd_chunkPageVec pd with Some _ => (pd, io) | None => _FhgfsOpsPages_allocNewPageVec (ce_alloc e) pd io end in
    match pd_chunkPageVec pd with
    | None => io ← outAgain page io; Some (- ENOMEM, pd, io)
    | Some _ => write_collect e page (pg_index p) fileSize pd io
    end.

Definition FhgfsOpsPages_readPageCallBack (e : CallEnv) (page : nat) (pd : FhgfsPageData) (io : PageIO) :
    option (Z * FhgfsPageData * PageIO) :=
  let '(pd, io) := match pd_chunkPageVec pd with Some _ => (pd, io) | None => _FhgfsOpsPages_allocNewPageVec (ce_alloc e) pd io end in
  match pd_chunkPageVec pd with
  | None => Some (- ENOMEM, pd, io)
  | Some _ =>
      '(out, pd, io) ← push_page e BEEGFS_RWTYPE_READ page PAGE_SIZE pd io;
      match out with
      | PushFailed | NoVec => Some (- ENOMEM, pd, io)
      | SendFailed readRes => Some (readRes, pd, io)
      | Pushed => io ← on_pages (get_page page) io; Some (0, pd, io)
      end
  end.

(** ** Calls *)

Context {WorkEnv : Type} (rwChunkPageVec : WorkEnv -> Fhgfs_RWType -> FhgfsChunkPageVec -> PagesWorld -> option PagesWorld).

(** A worker takes the work [i] of the queue. *)
Definition RWPagesWork_processQueue (r : WorkEnv) (i : nat) (io : PageIO) : option PageIO :=
  match io_queue io !! i with
  | None => Some io
  | Some (rwType, vec) =>
      let io := io_set_queue (take i (io_queue io) ++ drop (S i) (io_queue io)) io in
      w ← rwChunkPageVec r rwType vec (io_pages io);
      RWPagesWork_destruct true (io_set_pages w io)
  end.

Inductive PageEvent := EvPage (page : nat) (e : CallEnv) | EvWork (i : nat) (r : WorkEnv).

(** [beegfs_write_cache_pages]: the kernel passes pages, the first error is the result. *)
Fixpoint write_cache_pages (events : list PageEvent) (error : Z) (pd : FhgfsPageData) (io : PageIO) : option (Z * FhgfsPageData * PageIO) :=
  match events with
  | [] => Some (error, pd, io)
  | EvPage page e :: events =>
      '(cb_error, pd, io) ← FhgfsOpsPages_writePageCallBackPage e page pd io;
      write_cache_pages events (if negb (cb_error =? 0) && (error =? 0) then cb_error else error) pd io
  | EvWork i r :: events => io ← RWPagesWork_processQueue r i io; write_cache_pages events error pd io
  end.
(** With a single page: the caller is [FhgfsOpsPages_writepage]. *)
Definition write_single_page (page : nat) (e : CallEnv) (pd : FhgfsPageData) (io : PageIO) : option (Z * FhgfsPageData * PageIO) :=
  '(retVal, pd, io) ← FhgfsOpsPages_writePageCallBackPage e page pd io;
  if (retVal <? 0) && bool_decide (is_Some (pd_chunkPageVec pd))
  then Some (retVal, MkPageData None (pd_isReferenced pd), FhgfsChunkPageVec_destroy io)
  else Some (retVal, pd, io).

Definition release_if (pd : FhgfsPageData) (io : PageIO) : option PageIO := if pd_isReferenced pd then release_handle io else Some io.
(** [pages]: the events of a call for many pages, or the one page.  [reference] and [send]: the results at the end of the call. *)
Definition _FhgfsOpsPages_writepages (pages : list PageEvent + nat * CallEnv) (reference : Z) (send : SendEnv) (io : PageIO) :
    option (Z * PageIO) :=
  let pd := MkPageData None false in
  '(retVal, pd, io) ←
    match pages with inl events => write_cache_pages events 0 pd io | inr (page, e) => write_single_page page e pd io end;
  match pd_chunkPageVec pd with
  | None => io ← release_if pd io; Some (retVal, io)
  | Some vec =>
      let '(referenceRes, pd, io) :=
        if pd_isReferenced pd then (FhgfsOpsErr_SUCCESS, pd, io) else _FhgfsOpsPages_referenceFileHandle reference pd io in
      if negb (referenceRes =? FhgfsOpsErr_SUCCESS) then
        '(_, w) ← FhgfsChunkPageVec_iterateAllHandleWritePages (vec_fuel vec) referenceRes vec (io_pages io);
        Some (FhgfsOpsErr_toSysErr referenceRes, FhgfsChunkPageVec_destroy (io_set_pages w io))
      else
        '(writeRes, pd, io) ← _FhgfsOpsPages_sendPageVec send true BEEGFS_RWTYPE_WRITE pd io;
        io ← release_if pd io;
        Some (if negb (writeRes =? 0) then writeRes else retVal, io)
  end.

(** The loop of a read-ahead ends at the first error; pages that it has not taken stay with the kernel. *)
Fixpoint readahead_pages (events : list PageEvent) (pd : FhgfsPageData) (io : PageIO) : option (Z * FhgfsPageData * PageIO) :=
  match events with
  | [] => Some (0, pd, io)
  | EvPage page e :: events =>
      '(retVal, pd, io) ← FhgfsOpsPages_readPageCallBack e page pd io;
      if negb (retVal =? 0) then Some (retVal, pd, io) else readahead_pages events pd io
  | EvWork i r :: events => io ← RWPagesWork_processQueue r i io; readahead_pages events pd io
  end.
Definition read_single_page (page : nat) (e : CallEnv) (pd : FhgfsPageData) (io : PageIO) : option (Z * FhgfsPageData * PageIO) :=
  '(retVal, pd, io) ← FhgfsOpsPages_readPageCallBack e page pd io;
  if retVal <? 0 then
    let '(pd, io) := match pd_chunkPageVec pd with
      | Some _ => (MkPageData None (pd_isReferenced pd), FhgfsChunkPageVec_destroy io)
      | None => (pd, io)
      end in
    io ← on_pages (unlock_page page) io; Some (retVal, pd, io)
  else Some (retVal, pd, io).
Definition _FhgfsOpsPages_readahead (pages : list PageEvent + nat * CallEnv) (reference : Z) (send : SendEnv) (io : PageIO) :
    option (Z * PageIO) :=
  let '(referenceRes, pd, io) := _FhgfsOpsPages_referenceFileHandle reference (MkPageData None false) io in
  if negb (referenceRes =? FhgfsOpsErr_SUCCESS) then Some (FhgfsOpsErr_toSysErr referenceRes, io)
  else
    let io := io_add_refs 0 1 0 io in
    '(retVal, pd, io) ←
      match pages with inl events => readahead_pages events pd io | inr (page, e) => read_single_page page e pd io end;
    '(readRes, pd, io) ← _FhgfsOpsPages_sendPageVec send true BEEGFS_RWTYPE_READ pd io;
    let retVal := if negb (readRes =? 0) then readRes else retVal in
    io ← release_if pd io;
    Some (retVal, io_add_refs 0 (-1) 0 io).
End PageIO.
