(* ===== verification/PageIOFacts.v ===== *)
(** * Properties of the collection of pages

    Whatever the order of pages and workers, every page that the kernel has passed is ended, or waits in the vector of a call or of a
    queued work, or was lost with a work that could not be allocated. *)

From S2P Require Import Prelude StorageErrors NetMessage MessagesSession CommKit CommKitOps CommKitOpsFacts Remoting PageVec PageVecFacts CommKitVec CommKitVecFacts PageIO.

(** What [FhgfsOpsRemoting_rwChunkPageVec] promises to its callers: it ends all pages of the vector. *)
Class HandsBack {WorkEnv} (f : WorkEnv -> Fhgfs_RWType -> FhgfsChunkPageVec -> PagesWorld -> option PagesWorld) : Prop :=
  hands_back : forall r rw vec w, pv_ok vec -> pv_currentListVecIterIdx vec = 0 -> all_pending rw w (pv_pages vec) ->
    exists w', f r rw vec w = Some w' /\ handed_back rw (pv_pages vec) 0 w w'.

(** ** Accounts of pages *)

Definition vec_pages (vec : FhgfsChunkPageVec) : list nat := fp_page <$> pv_pages vec.

Section Account.
Context (rw : Fhgfs_RWType) (w0 : PagesWorld).

(** [handed]: the pages that were passed; [own]: those that a vector holds.  [w0]: the pages before. *)
Record accounted (handed own : list nat) (w : PagesWorld) : Prop := MkAccounted {
  ac_nodup : NoDup own;
  ac_own : forall x, x ∈ own -> x ∈ handed /\ exists p, pw_pages w !! x = Some p /\ pending rw p;
  ac_done : forall x, x ∈ handed -> x ∈ own \/ exists p, pw_pages w !! x = Some p /\ ended rw p;
  ac_rest : forall x, x ∉ handed -> pg_set_data [] <$> pw_pages w !! x = pg_set_data [] <$> pw_pages w0 !! x
}.

Lemma accounted_perm handed own own' w : own ≡ₚ own' -> accounted handed own w -> accounted handed own' w.
Proof.
  intros Hp [H1 H2 H3 H4]. split; [by rewrite <- Hp| | |done].
  - intros x Hx. apply H2. by rewrite Hp.
  - intros x Hx. destruct (H3 x Hx); [left; by rewrite <- Hp|by right].
Qed.

(** The state of a page without its data. *)
Lemma same_flags (p p' : Page) : pg_set_data [] p = pg_set_data [] p' -> (pending rw p -> pending rw p') /\ (ended rw p -> ended rw p') /\ pg_index p = pg_index p'.
Proof. destruct p, p'. cbn. intros [= -> -> -> -> -> -> -> ->]. done. Qed.
Lemma flags_lookup w w' x p : pg_set_data [] <$> pw_pages w' !! x = pg_set_data [] <$> pw_pages w !! x -> pw_pages w !! x = Some p ->
  exists p', pw_pages w' !! x = Some p' /\ pg_set_data [] p = pg_set_data [] p'.
Proof. intros E Hp. rewrite Hp in E. destruct (pw_pages w' !! x) as [p'|]; [|done]. cbn in E. exists p'. split; [done|congruence]. Qed.

Lemma accounted_back handed qs own w w' : accounted handed ((fp_page <$> qs) ++ own) w -> handed_back rw qs 0 w w' -> accounted handed own w'.
Proof.
  intros [Hn Ho Hd Hr] [Hq Hx]. apply list.NoDup_app in Hn as (_ & Hdis & Hn). split.
  - done.
  - intros x Hin. destruct (Ho x) as (Hh & p & Hp & Hpend); [apply elem_of_app; by right|]. split; [done|].
    destruct (flags_lookup w w' x p) as (p' & Hp' & Hs); [apply Hx; intros Hin'; by apply (Hdis x)|done|].
    exists p'. split; [done|]. by apply (same_flags p p').
  - intros x Hin. destruct (decide (x ∈ fp_page <$> qs)) as [Hqs|Hqs].
    { right. apply list_elem_of_fmap in Hqs as (q & -> & Hqs). apply list_elem_of_lookup in Hqs as [i Hi].
      destruct (Hq i q Hi) as (p' & Hp' & He). exists p'. done. }
    destruct (Hd x Hin) as [[?|?]%elem_of_app|(p & Hp & He)]; [done|by left|right].
    destruct (flags_lookup w w' x p (Hx x Hqs) Hp) as (p' & Hp' & Hs). exists p'. split; [done|]. by apply (same_flags p p').
  - intros x Hin. rewrite <- (Hr x Hin). apply Hx. intros Hqs. apply Hin, (Ho x). apply elem_of_app. by left.
Qed.

Lemma accounted_end handed own w w' x p : accounted handed own w -> x ∉ handed -> pw_pages w' = <[x := p]> (pw_pages w) -> ended rw p ->
  accounted (x :: handed) own w'.
Proof.
  intros [Hn Ho Hd Hr] Hx E He. split.
  - done.
  - intros y Hy. destruct (Ho y Hy) as (Hh & q & Hq & Hp). split; [by apply elem_of_cons; right|]. exists q. split; [|done].
    rewrite E, lookup_insert_ne; [done|]. intros ->. done.
  - intros y [->|Hy]%elem_of_cons; [right; exists p; by rewrite E, lookup_insert_eq|].
    destruct (Hd y Hy) as [?|(q & Hq & Hp)]; [by left|right]. exists q. split; [|done]. rewrite E, lookup_insert_ne; [done|]. intros ->. done.
  - intros y Hy. apply not_elem_of_cons in Hy as [Hne Hy]. by rewrite E, lookup_insert_ne, (Hr y Hy).
Qed.

Lemma accounted_push handed own w w' x p : accounted handed own w -> x ∉ handed -> pw_pages w' = <[x := p]> (pw_pages w) -> pending rw p ->
  accounted (x :: handed) (x :: own) w'.
Proof.
  intros [Hn Ho Hd Hr] Hx E He. split.
  - apply list.NoDup_cons. split; [|done]. intros Hin. by destruct (Ho x Hin).
  - intros y [->|Hy]%elem_of_cons; [split; [by apply elem_of_cons; left|exists p; by rewrite E, lookup_insert_eq]|].
    destruct (Ho y Hy) as (Hh & q & Hq & Hp). split; [by apply elem_of_cons; right|]. exists q. split; [|done].
    rewrite E, lookup_insert_ne; [done|]. intros ->. done.
  - intros y [->|Hy]%elem_of_cons; [left; by apply elem_of_cons; left|].
    destruct (Hd y Hy) as [?|(q & Hq & Hp)]; [left; by apply elem_of_cons; right|right]. exists q. split; [|done].
    rewrite E, lookup_insert_ne; [done|]. intros ->. done.
  - intros y Hy. apply not_elem_of_cons in Hy as [Hne Hy]. by rewrite E, lookup_insert_ne, (Hr y Hy).
Qed.
End Account.

(** ** The invariant of a call *)

Definition works (io : PageIO) : list (Fhgfs_RWType * FhgfsChunkPageVec) := io_queue io ++ io_unreachable io.
Definition work_pages (l : list (Fhgfs_RWType * FhgfsChunkPageVec)) : list nat := concat ((fun x => vec_pages x.2) <$> l).
Definition cur_pages (pd : FhgfsPageData) : list nat := match pd_chunkPageVec pd with Some vec => vec_pages vec | None => [] end.
Definition own (pd : FhgfsPageData) (io : PageIO) : list nat := cur_pages pd ++ work_pages (works io).
Definition is_one {A} (o : option A) : Z := match o with Some _ => 1 | None => 0 end.

Lemma work_pages_cons x l : work_pages (x :: l) = vec_pages x.2 ++ work_pages l.
Proof. done. Qed.
Lemma work_pages_app a b : work_pages (a ++ b) = work_pages a ++ work_pages b.
Proof. unfold work_pages. by rewrite fmap_app, concat_app. Qed.

Section Call.
Context (m : Z) (Hm : 0 <= m < 32) (rw : Fhgfs_RWType) (w0 : PagesWorld) (H V I : Z) (HH : 0 <= H).

Definition work_ok (x : Fhgfs_RWType * FhgfsChunkPageVec) : Prop := x.1 = rw /\ pv_ok x.2 /\ pv_currentListVecIterIdx x.2 = 0.
(** References and vectors are counted exactly: [H], [V] and [I] are the counts before the call. *)
Record io_inv (handed : list nat) (pd : FhgfsPageData) (io : PageIO) : Prop := MkIoInv {
  iv_acc : accounted rw w0 handed (own pd io) (io_pages io);
  iv_works : Forall work_ok (works io);
  iv_cur : forall vec, pd_chunkPageVec pd = Some vec -> pd_isReferenced pd = true /\ pv_rel m (io_pages io) vec (pv_pages vec, O);
  iv_handles : io_handles io = H + zlen (io_queue io) + (if pd_isReferenced pd then 1 else 0);
  iv_vecs : io_vecs io = V + zlen (works io) + is_one (pd_chunkPageVec pd);
  iv_refs : io_inodeRefs io = I
}.

Lemma rel_flags w w' vec s : pv_rel m w vec s ->
  (forall x, x ∈ vec_pages vec -> pg_index <$> pw_pages w' !! x = pg_index <$> pw_pages w !! x) -> pv_rel m w' vec s.
Proof.
  intros [H1 [Hn Hf Ho Hx] H3 H4] Hs. split; [done| |done|done]. split; [done..|]. intros i q Hq. rewrite <- (Hx i q Hq). apply Hs.
  apply list_elem_of_fmap_2. by eapply list_elem_of_lookup_2.
Qed.
Lemma flags_index w w' x : pg_set_data [] <$> pw_pages w' !! x = pg_set_data [] <$> pw_pages w !! x ->
  pg_index <$> pw_pages w' !! x = pg_index <$> pw_pages w !! x.
Proof.
  intros E. destruct (pw_pages w' !! x) as [p'|], (pw_pages w !! x) as [p|]; try done. cbn in E |- *. injection E as E. by rewrite E.
Qed.

Lemma fail_pages_ok vec io : pv_ok vec -> pv_currentListVecIterIdx vec = 0 -> all_pending rw (io_pages io) (pv_pages vec) ->
  exists w', fail_pages rw vec io = Some (io_set_pages w' io) /\ handed_back rw (pv_pages vec) 0 (io_pages io) w'.
Proof.
  intros Hok Hi Hp. assert (Hr : pv_rest vec = pv_pages vec) by (unfold pv_rest; by rewrite Hi).
  assert (Hf : (length (pv_rest vec) < vec_fuel vec)%nat).
  { pose proof (pv_rest_length _ Hok) as Hl. unfold vec_fuel, zlen in *. lia. }
  unfold fail_pages. destruct rw.
  - destruct (iterate_read_ok _ _ (io_pages io) Hok Hf) as (v' & w' & -> & _ & Hfin); [by rewrite Hr|]. exists w'. split; [done|].
    rewrite Hr in Hfin. eapply finals_handed_back; [done| |by rewrite drop_0]. intros i p p' ->. done.
  - destruct (iterate_write_ok (- EIO) _ _ (io_pages io) Hok Hf) as (v' & w' & -> & _ & Hfin); [by rewrite Hr|]. exists w'. split; [done|].
    rewrite Hr in Hfin. eapply finals_handed_back; [done| |by rewrite drop_0]. intros i p p' ->. apply write_ended_ended.
Qed.

Lemma own_pending handed qs rest w : accounted rw w0 handed ((fp_page <$> qs) ++ rest) w -> all_pending rw w qs.
Proof.
  intros [Hn Ho _ _]. apply list.NoDup_app in Hn as (Hn & _ & _). split; [done|]. apply Forall_forall. intros q Hq.
  destruct (Ho (fp_page q)) as [_ Hx]; [|done]. apply elem_of_app. left. apply list_elem_of_fmap_2. by apply list_elem_of_In.
Qed.

(** The vector of a call goes to the queue, or its pages are ended, or nothing points to it any more. *)
Lemma createQueue_ok e handed vec io : sv_reference e = FhgfsOpsErr_SUCCESS -> io_inv handed (MkPageData (Some vec) true) io -> exists io',
  RWPagesWork_createQueue e rw vec io = Some (sv_workAlloc e, io') /\ io_inv handed (MkPageData None true) io' /\
  (sv_workAlloc e = true -> io_unreachable io' = io_unreachable io).
Proof.
  intros He [Ha Hw Hc Hh Hv Hi]. destruct (Hc vec eq_refl) as (_ & [Hok _ _ Hpos]). cbn in Hh, Hv, Hpos.
  assert (Hwork : work_ok (rw, vec)) by done. assert (Hq : 0 <= zlen (io_queue io)) by apply zlen_nonneg.
  unfold RWPagesWork_createQueue, RWPagesWork_construct, RWPagesWork_init. rewrite He, Z.eqb_refl. cbn [negb].
  destruct (sv_workAlloc e); cbn [negb mbind option_bind].
  2: { eexists. split; [done|]. split; [|done]. split; [|cbn..].
    - eapply accounted_perm; [|exact Ha]. unfold own, works, cur_pages. cbn [pd_chunkPageVec io_queue io_unreachable io_lose app]. rewrite !work_pages_app, work_pages_cons. cbn [snd]. solve_Permutation.
    - unfold works in *. cbn. apply Forall_app in Hw as [? ?]. apply Forall_app. split; [done|]. by constructor.
    - done.
    - lia.
    - unfold works in *. cbn. rewrite zlen_app in Hv |- *. unfold zlen in *. cbn. lia.
    - done. }
  destruct (sv_queued e).
  - eexists. split; [done|]. split; [|done]. split; [|cbn..].
    + eapply accounted_perm; [|exact Ha]. unfold own, works, cur_pages. cbn [pd_chunkPageVec io_queue io_unreachable io_set_queue io_add_refs app]. rewrite !work_pages_app, work_pages_cons. cbn [snd]. solve_Permutation.
    + unfold works in *. cbn. apply Forall_app in Hw as [? ?]. apply Forall_app. split; [|done]. apply Forall_app. split; [done|]. by constructor.
    + done.
    + rewrite zlen_app. unfold zlen in *. cbn. lia.
    + unfold works in *. cbn. unfold zlen in *. rewrite ?length_app in *. cbn. lia.
    + lia.
  - destruct (fail_pages_ok vec (io_add_refs 1 0 0 io) Hok Hpos) as (w' & -> & Hb); [by eapply own_pending|]. cbn [mbind option_bind].
    unfold RWPagesWork_destruct, RWPagesWork_uninit, release_handle. cbn. rewrite (proj2 (Z.ltb_lt _ _)) by lia. cbn.
    eexists. split; [done|]. split; [|done]. split; [by eapply accounted_back; [exact Ha|]|cbn..]; try done; unfold works in *; cbn; lia.
Qed.

Lemma alloc_ok e handed io : io_inv handed (MkPageData None true) io -> exists cur io',
  _FhgfsOpsPages_allocNewPageVec (2 ^ m) e (MkPageData None true) io = (MkPageData cur true, io') /\ io_inv handed (MkPageData cur true) io' /\
  (forall vec, cur = Some vec -> pv_pages vec = []) /\ io_unreachable io' = io_unreachable io /\ io_pages io' = io_pages io.
Proof.
  intros Hinv. pose proof Hinv as [Ha Hw Hc Hh Hv Hi]. unfold _FhgfsOpsPages_allocNewPageVec.
  destruct (FhgfsChunkPageVec_create _ _ _ _ _) as [vec|] eqn:Ec; [|exists None, io; done].
  pose proof (create_ok _ _ _ _ m (io_pages io) vec Ec) as Hrel. pose proof (pr_pages _ _ _ _ Hrel) as Hp. cbn in Hp.
  exists (Some vec), (io_add_refs 0 0 1 io). split; [done|]. split; [|split; [by intros ? [= <-]|done]]. split; cbn in *.
  - unfold own, cur_pages, vec_pages in *. cbn. rewrite Hp. done.
  - done.
  - intros ? [= <-]. split; [done|]. by rewrite Hp.
  - lia.
  - unfold works in *. cbn. lia.
  - lia.
Qed.

Lemma send_ok e isFinal handed cur io : sv_reference e = FhgfsOpsErr_SUCCESS -> io_inv handed (MkPageData cur true) io -> exists r cur' io',
  _FhgfsOpsPages_sendPageVec (2 ^ m) e isFinal rw (MkPageData cur true) io = Some (r, MkPageData cur' true, io') /\
  io_inv handed (MkPageData cur' true) io' /\ r <= 0 /\ (isFinal = true -> cur' = None) /\
  (r <> 0 -> cur' = None) /\ (r = 0 -> isFinal = false -> is_Some cur -> exists vec, cur' = Some vec /\ pv_pages vec = []) /\
  (forall vec, cur = Some vec -> pv_pages vec = [] -> r = 0) /\
  (sv_workAlloc e = true -> io_unreachable io' = io_unreachable io).
Proof.
  intros He Hinv. unfold _FhgfsOpsPages_sendPageVec, FhgfsChunkPageVec_getSize. cbn [pd_chunkPageVec pd_isReferenced].
  destruct cur as [vec|]; [|exists 0, None, io; split_and!; try done; intros _ _ [? ?]; done].
  pose proof Hinv as [Ha Hw Hc Hh Hv Hi]. destruct (Hc vec eq_refl) as (_ & Hrel). pose proof Hrel as [[_ [Hz _] _ _ _] _ _ _].
  assert (Hemp : pv_size vec = 0 <-> pv_pages vec = []).
  { rewrite Hz. unfold zlen. split; [|by intros ->]. intros E. apply nil_length_inv. lia. }
  destruct (Z.eqb_spec (pv_size vec) 0) as [E|E].
  { apply Hemp in E. destruct isFinal.
    - exists 0, None, (FhgfsChunkPageVec_destroy io). split; [done|]. split; [|split_and!; done]. split; cbn in *; try done; try lia.
      + unfold own, cur_pages, vec_pages in *. cbn in *. by rewrite E in Ha.
      + unfold works in *. cbn in *. lia.
    - exists 0, (Some vec), io. split_and!; try done. intros _ _ _. by exists vec. }
  destruct (createQueue_ok e handed vec io He Hinv) as (io1 & -> & Hinv1 & Hu1). cbn [mbind option_bind].
  assert (Hne : forall v, Some vec = Some v -> pv_pages v = [] -> False) by (intros v [= <-] Hv0; apply E; by apply Hemp).
  destruct (sv_workAlloc e); cbn [negb].
  2: { exists (- ENOMEM), None, io1. split; [done|]. split; [done|]. split; [vm_compute; done|]. split_and!; try done. intros v E1 E2. by destruct (Hne v E1 E2). }
  destruct isFinal; cbn [negb].
  { exists 0, None, io1. split; [done|]. split; [done|]. split_and!; done. }
  destruct (alloc_ok (sv_vec e) handed io1 Hinv1) as (cur & io2 & -> & Hinv2 & Hp2 & Hu2 & _). cbn [pd_chunkPageVec].
  exists (match cur with None => - ENOMEM | Some _ => 0 end), cur, io2. split; [done|]. split; [done|]. split; [destruct cur; vm_compute; done|]. split; [done|].
  split; [by destruct cur|]. split; [intros Hr0 _ _; destruct cur as [v|]; [exists v; split; [done|by apply Hp2]|done]|]. split; [intros v E1 E2; by destruct (Hne v E1 E2)|].
  intros Hwa. rewrite Hu2. by apply Hu1.
Qed.

(** A page as the kernel passes it. *)
Definition ready (p : Page) : Prop :=
  pg_mapped p = false /\ pg_locked p = true /\ pg_writeback p = false /\ 0 <= pg_refs p /\ 0 <= pg_index p < 2 ^ 64.
Definition passed (x : nat) : Prop := exists p, pw_pages w0 !! x = Some p /\ ready p.
Lemma ready_flags p p' : pg_set_data [] p = pg_set_data [] p' -> ready p -> ready p'.
Proof. destruct p, p'. cbn. intros [= -> -> -> -> -> -> -> ->]. done. Qed.
Lemma passed_ready handed pd io x : io_inv handed pd io -> x ∉ handed -> passed x -> exists p, pw_pages (io_pages io) !! x = Some p /\ ready p.
Proof.
  intros [Ha _ _ _ _ _] Hx (p & Hp & Hr). destruct (flags_lookup w0 (io_pages io) x p (ac_rest _ _ _ _ _ Ha x Hx) Hp) as (p' & Hp' & E).
  exists p'. split; [done|]. by eapply ready_flags.
Qed.

(** The page [x] is in the vector but its state is not yet set. *)
Definition pushed_into (handed : list nat) (x : nat) (vec : FhgfsChunkPageVec) (io : PageIO) : Prop :=
  (exists p, pw_pages (io_pages io) !! x = Some (pg_set_mapped true p) /\ ready p) /\ x ∈ vec_pages vec /\
  forall w2 p p2, pw_pages w2 = <[x := p2]> (pw_pages (io_pages io)) -> pw_pages (io_pages io) !! x = Some p -> pg_index p2 = pg_index p -> pending rw p2 ->
    io_inv (x :: handed) (MkPageData (Some vec) true) (io_set_pages w2 io).

Lemma push_once handed vec io c x len : io_inv handed (MkPageData (Some vec) true) io -> x ∉ handed -> passed x -> exists acc vec' w',
  FhgfsChunkPageVec_pushPage c x len vec (io_pages io) = Some (acc, vec', w') /\
  (pv_pages vec = [] -> acc = true) /\
  if (acc : bool) then pushed_into handed x vec' (io_set_pages w' io) else w' = io_pages io /\ io_inv handed (MkPageData (Some vec') true) io.
Proof.
  intros Hinv Hx Hpass. destruct (passed_ready _ _ _ _ Hinv Hx Hpass) as (p & Hp & Hr). pose proof Hr as (_ & _ & _ & _ & Hidx).
  pose proof Hinv as [Ha Hw Hc Hh Hv Hi]. destruct (Hc vec eq_refl) as (_ & [Hok Hch _ Hpos]).
  destruct (push_ok m Hm x len (io_pages io) p Hp Hidx c vec Hok Hch) as (vec' & E & Hok' & Hch' & Hpg & Hpos'). cbv zeta in E.
  eexists _, vec', _. split; [exact E|]. split.
  { intros Hnil. unfold accepts. destruct Hok as [_ [Hz _] _ _ _]. rewrite Hz, Hnil. done. }
  destruct (accepts (2 ^ m) c vec (pg_index p)).
  2: { rewrite app_nil_r in Hpg. split; [done|]. split; cbn in *; try done.
    - unfold own, cur_pages, vec_pages in *. cbn in *. by rewrite Hpg.
    - intros ? [= <-]. split; [done|]. split; [done|done|done|]. cbn. cbn in Hpos. lia. }
  split; [exists p; cbn; by rewrite lookup_insert_eq|]. split; [unfold vec_pages; rewrite Hpg, fmap_app; apply elem_of_app; right; by apply elem_of_cons; left|]. intros w2 p1 p2 Ew Hp1 Ei Hpend. cbn in Ew, Hp1. rewrite lookup_insert_eq in Hp1. injection Hp1 as <-.
  rewrite insert_insert_eq in Ew. cbn in Ei. split; cbn in *; try done.
  - eapply accounted_perm; [|by eapply accounted_push]. unfold own, cur_pages, vec_pages. cbn. rewrite Hpg, fmap_app. cbn. solve_Permutation.
  - intros ? [= <-]. split; [done|]. split; [done| |done|cbn; cbn in Hpos; lia]. destruct Hch' as [H1 H2 H3 H4]. split; [done..|].
    intros i q Hq. rewrite <- (H4 i q Hq). rewrite Ew. cbn. destruct (decide (fp_page q = x)) as [->|]; [|by rewrite !lookup_insert_ne].
    rewrite !lookup_insert_eq. cbn. by rewrite Ei.
Qed.

Lemma push_page_ok e handed vec io x len : sv_reference (ce_send e) = FhgfsOpsErr_SUCCESS ->
  io_inv handed (MkPageData (Some vec) true) io -> x ∉ handed -> passed x -> exists out cur io',
  push_page (2 ^ m) e rw x len (MkPageData (Some vec) true) io = Some (out, MkPageData cur true, io') /\
  match out with
  | Pushed => exists vec', cur = Some vec' /\ pushed_into handed x vec' io'
  | SendFailed r => r < 0 /\ cur = None /\ pv_pages vec <> [] /\ io_inv handed (MkPageData None true) io'
  | NoVec | PushFailed => False
  end /\ (sv_workAlloc (ce_send e) = true -> io_unreachable io' = io_unreachable io).
Proof.
  intros He Hinv Hx Hpass. unfold push_page. cbn [pd_chunkPageVec pd_isReferenced mbind option_bind].
  destruct (push_once handed vec io (ce_push e) x len Hinv Hx Hpass) as (acc & vec1 & w1 & -> & Hemp & Hpush). cbn [mbind option_bind].
  destruct acc; [exists Pushed, (Some vec1), (io_set_pages w1 io); split; [done|]; split; [by exists vec1|done]|].
  destruct Hpush as [-> Hinv1]. replace (io_set_pages (io_pages io) io) with io by (by destruct io).
  destruct (send_ok (ce_send e) false handed (Some vec1) io He Hinv1) as (r & cur & io2 & -> & Hinv2 & Hr & _ & Herr & Hok & _ & Hu). cbn [mbind option_bind].
  destruct (Z.eqb_spec r 0) as [->|Hne]; cbn [negb].
  - destruct (Hok eq_refl eq_refl) as (vec2 & -> & Hnil); [done|]. cbn [pd_chunkPageVec pd_isReferenced].
    destruct (push_once handed vec2 io2 (ce_push2 e) x len Hinv2 Hx Hpass) as (acc & vec3 & w3 & -> & Hemp3 & Hpush3). cbn [mbind option_bind].
    rewrite (Hemp3 Hnil) in Hpush3 |- *. exists Pushed, (Some vec3), (io_set_pages w3 io2). split; [done|]. split; [by exists vec3|done].
  - rewrite (Herr Hne) in Hinv2 |- *. exists (SendFailed r), None, io2. split; [done|]. split; [|done]. split; [lia|]. split; [done|]. split; [|done].
    intros E. by specialize (Hemp E).
Qed.
End Call.

(** ** Callbacks *)

Section Callbacks.
Context (m : Z) (Hm : 0 <= m < 32) (w0 : PagesWorld) (H V I : Z) (HH : 0 <= H).
Local Abbreviation inv rw := (io_inv m rw w0 H V I).

Lemma inv_end rw handed pd io x p w' : inv rw handed pd io -> x ∉ handed -> pw_pages w' = <[x := p]> (pw_pages (io_pages io)) -> ended rw p ->
  inv rw (x :: handed) pd (io_set_pages w' io).
Proof.
  intros [Ha Hw Hc Hh Hv Hi] Hx Ew He. split; cbn; try done; [by eapply accounted_end|]. intros vec Hvec. destruct (Hc vec Hvec) as [Hr Hrel].
  split; [done|]. eapply rel_flags; [done|]. intros y Hy. rewrite Ew, lookup_insert_ne; [done|]. intros ->. apply Hx.
  apply (ac_own _ _ _ _ _ Ha). unfold own, cur_pages. rewrite Hvec. apply elem_of_app. by left.
Qed.
Lemma inv_eio rw handed pd io : inv rw handed pd io -> inv rw handed pd (io_set_eio io).
Proof. intros [? ? ? ? ? ?]. by split. Qed.
Lemma inv_unreferenced rw handed cur io : inv rw handed (MkPageData cur false) io -> cur = None.
Proof. intros [_ _ Hc _ _ _]. destruct cur as [vec|]; [|done]. by destruct (Hc vec eq_refl). Qed.
Lemma inv_reference rw handed io : inv rw handed (MkPageData None false) io -> inv rw handed (MkPageData None true) (io_add_refs 1 0 0 io).
Proof. intros [Ha Hw Hc Hh Hv Hi]. cbn in *. split; cbn; try done; try lia. unfold works in *. cbn. lia. Qed.

(** The end of a page that is not sent: [f] are the kernel's operations on it. *)
Lemma inv_unlock rw handed pd io x (f : PagesWorld -> option PagesWorld) g : inv rw handed pd io -> x ∉ handed -> passed w0 x ->
  (forall w p, pw_pages w !! x = Some p -> ready p -> exists w', f w = Some w' /\ pw_pages w' = <[x := g p]> (pw_pages w)) ->
  (forall p, ready p -> ended rw (g p)) ->
  exists io' p, on_pages f io = Some io' /\ inv rw (x :: handed) pd io' /\ ready p /\ pw_pages (io_pages io') !! x = Some (g p) /\
    io_mappingEIO io' = io_mappingEIO io /\ io_unreachable io' = io_unreachable io.
Proof.
  intros Hinv Hx Hpass Hf Hg. destruct (passed_ready m rw w0 H V I _ _ _ _ Hinv Hx Hpass) as (p & Hp & Hr). destruct (Hf _ p Hp Hr) as (w' & E & Ew).
  unfold on_pages. rewrite E. cbn [mbind option_bind]. exists (io_set_pages w' io), p. split; [done|]. split; [by eapply inv_end; eauto|]. split; [done|].
  cbn. by rewrite Ew, lookup_insert_eq.
Qed.

Ltac page_ops := repeat (erewrite on_page_ok; [|cbn; first [eassumption|apply lookup_insert_eq]|done]; cbn [mbind option_bind]).

Lemma unlock_passed rw handed pd io x : inv rw handed pd io -> x ∉ handed -> passed w0 x -> rw = BEEGFS_RWTYPE_WRITE ->
  exists io' p, outWriteErr x io = Some io' /\ inv rw (x :: handed) pd io' /\ ready p /\ pw_pages (io_pages io') !! x = Some (pg_set_locked false p) /\
    io_mappingEIO io' = true /\ io_unreachable io' = io_unreachable io.
Proof.
  intros Hinv Hx Hpass ->. unfold outWriteErr. apply (inv_unlock _ _ _ _ x _ (pg_set_locked false) (inv_eio _ _ _ _ Hinv) Hx Hpass).
  - intros w p Hp (? & ? & ? & _). unfold unlock_page. page_ops. eexists. split; [reflexivity|]. done.
  - intros p (? & ? & ? & _). done.
Qed.
Lemma redirty_passed rw handed pd io x : inv rw handed pd io -> x ∉ handed -> passed w0 x -> rw = BEEGFS_RWTYPE_WRITE ->
  exists io' p, outAgain x io = Some io' /\ inv rw (x :: handed) pd io' /\ ready p /\ pw_pages (io_pages io') !! x = Some (pg_set_locked false (pg_set_dirty p)) /\
    io_unreachable io' = io_unreachable io.
Proof.
  intros Hinv Hx Hpass ->. unfold outAgain.
  destruct (inv_unlock BEEGFS_RWTYPE_WRITE handed pd io x (fun w => w ← set_page_dirty x w; unlock_page x w) (fun p => pg_set_locked false (pg_set_dirty p)) Hinv Hx Hpass)
    as (io' & p & E & H1 & H2 & H3 & _ & H5).
  - intros w p Hp (? & ? & ? & _). unfold set_page_dirty, unlock_page, any_page. page_ops. eexists. split; [reflexivity|]. cbn. by rewrite insert_insert_eq.
  - intros p (? & ? & ? & _). done.
  - exists io', p. done.
Qed.

(** What became of a page that was passed for writing: it waits in the vector, is dirty again, its error is recorded, or it is behind the end of
    the file. *)
Definition write_kept (x : nat) (size : Z) (pd : FhgfsPageData) (io : PageIO) : Prop :=
  x ∈ cur_pages pd \/
  exists p, pw_pages (io_pages io) !! x = Some p /\ (pg_dirty p = true \/ io_mappingEIO io = true \/ size <= pg_index p * PAGE_SIZE).

Lemma truncated_passed handed pd io x : inv BEEGFS_RWTYPE_WRITE handed pd io -> x ∉ handed -> passed w0 x ->
  exists io' p, on_pages (fun w => w ← set_page_writeback x w; w ← end_page_writeback x w; w ← ClearPageUptodate x w; unlock_page x w) io = Some io' /\
    inv BEEGFS_RWTYPE_WRITE (x :: handed) pd io' /\ pw_pages (io_pages io') !! x = Some p /\ pg_index <$> pw_pages (io_pages io) !! x = Some (pg_index p) /\
    io_unreachable io' = io_unreachable io.
Proof.
  intros Hinv Hx Hpass. destruct (passed_ready _ _ _ _ _ _ _ _ _ _ Hinv Hx Hpass) as (p & Hp & Hr). pose proof Hr as (? & ? & ? & _).
  set (p' := pg_set_locked false (pg_set_uptodate false (pg_set_writeback false (pg_set_writeback true p)))).
  unfold on_pages, set_page_writeback, end_page_writeback, ClearPageUptodate, unlock_page, any_page. page_ops. cbn [mbind option_bind].
  eexists _, p'. split; [reflexivity|]. split; [eapply inv_end with (p := p'); [done|done|cbn; by rewrite !insert_insert_eq|done]|].
  cbn. by rewrite !lookup_insert_eq, Hp.
Qed.

Lemma behind_end index size : (index <? Z.shiftr size PAGE_SHIFT) = false ->
  (Z.shiftr size PAGE_SHIFT <? index) || (Z.land size (PAGE_SIZE - 1) =? 0) = true -> size <= index * PAGE_SIZE.
Proof.
  unfold PAGE_SHIFT, PAGE_SIZE. rewrite Z.shiftr_div_pow2 by lia. change (4096 - 1) with (Z.ones 12). rewrite Z.land_ones by lia.
  change (2 ^ 12) with 4096. intros Hi Hc. pose proof (Z.div_mod size 4096 ltac:(lia)). pose proof (Z.mod_pos_bound size 4096 ltac:(lia)). lia.
Qed.

(** The result of a callback for the page [x]. *)
Definition page_written (handed : list nat) (x : nat) (size : Z) (send : SendEnv) (lost : list (Fhgfs_RWType * FhgfsChunkPageVec))
    (o : option (Z * FhgfsPageData * PageIO)) : Prop :=
  exists r pd' io', o = Some (r, pd', io') /\ inv BEEGFS_RWTYPE_WRITE (x :: handed) pd' io' /\ (r <> 0 -> pd_chunkPageVec pd' = None) /\
  write_kept x size pd' io' /\ (sv_workAlloc send = true -> io_unreachable io' = lost).

Lemma write_failed handed pd io x size send lost r : inv BEEGFS_RWTYPE_WRITE handed pd io -> x ∉ handed -> passed w0 x -> pd_chunkPageVec pd = None ->
  (sv_workAlloc send = true -> io_unreachable io = lost) ->
  page_written handed x size send lost (io ← outWriteErr x io; Some (r, pd, io)).
Proof.
  intros Hinv Hx Hpass Hn Hl. destruct (unlock_passed _ _ _ _ x Hinv Hx Hpass eq_refl) as (io' & p & -> & Hinv' & _ & Hp & He & Hu).
  exists r, pd, io'. split; [done|]. split; [done|]. split; [done|]. split; [right; by eauto|]. intros Hw. rewrite Hu. by apply Hl.
Qed.
Lemma write_again handed pd io x size send lost r : inv BEEGFS_RWTYPE_WRITE handed pd io -> x ∉ handed -> passed w0 x -> pd_chunkPageVec pd = None ->
  (sv_workAlloc send = true -> io_unreachable io = lost) ->
  page_written handed x size send lost (io ← outAgain x io; Some (r, pd, io)).
Proof.
  intros Hinv Hx Hpass Hn Hl. destruct (redirty_passed _ _ _ _ x Hinv Hx Hpass eq_refl) as (io' & p & -> & Hinv' & _ & Hp & Hu).
  exists r, pd, io'. split; [done|]. split; [done|]. split; [done|]. split; [right; eexists; split; [done|by left]|]. intros Hw. rewrite Hu. by apply Hl.
Qed.

Lemma collect_ok e handed vec io x p size : sv_reference (ce_send e) = FhgfsOpsErr_SUCCESS ->
  inv BEEGFS_RWTYPE_WRITE handed (MkPageData (Some vec) true) io -> x ∉ handed -> passed w0 x -> pw_pages w0 !! x = Some p ->
  page_written handed x size (ce_send e) (io_unreachable io) (write_collect (2 ^ m) e x (pg_index p) size (MkPageData (Some vec) true) io).
Proof.
  intros He Hinv Hx Hpass Hp. unfold write_collect. cbv zeta. destruct (pg_index p <? Z.shiftr size PAGE_SHIFT) eqn:Ei; cbn [negb andb].
  2: destruct ((Z.shiftr size PAGE_SHIFT <? pg_index p) || (Z.land size (PAGE_SIZE - 1) =? 0)) eqn:Eo.
  2: { destruct (send_ok m Hm BEEGFS_RWTYPE_WRITE w0 H V I HH (ce_send e) false handed (Some vec) io He Hinv) as (r & cur & io1 & -> & Hinv1 & Hr & _ & Hn & _ & _ & Hu).
    cbn [mbind option_bind]. destruct (Z.eqb_spec r 0) as [->|Hne]; cbn [negb]; [|apply write_failed; auto].
    destruct (truncated_passed _ _ _ x Hinv1 Hx Hpass) as (io' & p' & -> & Hinv' & Hp' & Ep & Hu'). cbn [mbind option_bind].
    exists 0, (MkPageData cur true), io'. split; [done|]. split; [done|]. split; [done|]. split; [|intros Hw; rewrite Hu'; by apply Hu].
    right. exists p'. split; [done|]. right. right. pose proof (flags_index w0 (io_pages io1) x) as Hf.
    specialize (Hf (ac_rest _ _ _ _ _ (iv_acc _ _ _ _ _ _ _ _ _ Hinv1) x Hx)). rewrite Ep, Hp in Hf. injection Hf as ->. by apply behind_end. }
  all: match goal with |- context [push_page _ _ _ _ ?len] =>
    destruct (push_page_ok m Hm BEEGFS_RWTYPE_WRITE w0 H V I HH e handed vec io x len He Hinv Hx Hpass) as (out & cur & io1 & -> & Hout & Hu) end;
    cbn [mbind option_bind]; destruct out as [|r| |]; try done;
    [destruct Hout as (vec' & -> & ((p1 & Hp1 & Hr1) & Hin & Hset)); rewrite Hp1; cbn [mbind option_bind]; pose proof Hr1 as (? & Hlk & Hwb & _);
     replace (pg_writeback (pg_set_mapped true p1)) with false by done;
     unfold on_pages, set_page_writeback, any_page; page_ops; cbn [mbind option_bind];
     eexists 0, _, _; (split; [reflexivity|]); (split; [eapply Hset; [reflexivity|exact Hp1|done|split_and!; done]|]); (split; [done|]);
     (split; [|exact Hu]); left; exact Hin
    |destruct Hout as (Hr & -> & _ & Hinv1); apply write_failed; auto].
Qed.

Lemma write_callback_ok e handed cur ref io x : sv_reference (ce_send e) = FhgfsOpsErr_SUCCESS ->
  inv BEEGFS_RWTYPE_WRITE handed (MkPageData cur ref) io -> x ∉ handed -> passed w0 x ->
  page_written handed x (pw_isize (io_pages io)) (ce_send e) (io_unreachable io)
    (FhgfsOpsPages_writePageCallBackPage (2 ^ m) e x (MkPageData cur ref) io).
Proof.
  intros He Hinv Hx Hpass. destruct (passed_ready _ _ _ _ _ _ _ _ _ _ Hinv Hx Hpass) as (p & Hp & _).
  assert (Hidx : exists q, pw_pages w0 !! x = Some q /\ pg_index q = pg_index p).
  { destruct Hpass as (q & Hq & _). exists q. split; [done|]. pose proof (flags_index w0 (io_pages io) x (ac_rest _ _ _ _ _ (iv_acc _ _ _ _ _ _ _ _ _ Hinv) x Hx)) as Hf.
    rewrite Hp, Hq in Hf. by injection Hf. }
  destruct Hidx as (q & Hq & Eq). unfold FhgfsOpsPages_writePageCallBackPage. rewrite Hp. cbn [mbind option_bind]. rewrite <- Eq.
  unfold _FhgfsOpsPages_referenceFileHandle. cbn [pd_isReferenced pd_chunkPageVec].
  assert (Hmain : forall cur io1, inv BEEGFS_RWTYPE_WRITE handed (MkPageData cur true) io1 -> io_unreachable io1 = io_unreachable io ->
    page_written handed x (pw_isize (io_pages io)) (ce_send e) (io_unreachable io)
      (let '(pd, io2) := match cur with Some _ => (MkPageData cur true, io1)
        | None => _FhgfsOpsPages_allocNewPageVec (2 ^ m) (ce_alloc e) (MkPageData cur true) io1 end in
      match pd_chunkPageVec pd with
      | None => io2 ← outAgain x io2; Some (- ENOMEM, pd, io2)
      | Some _ => write_collect (2 ^ m) e x (pg_index q) (pw_isize (io_pages io)) pd io2
      end)).
  { intros [vec|] io1 Hinv1 <-; [by apply collect_ok|].
    destruct (alloc_ok m Hm BEEGFS_RWTYPE_WRITE w0 H V I (ce_alloc e) handed io1 Hinv1) as (cur' & io2 & -> & Hinv2 & _ & Hu2 & _). cbn [pd_chunkPageVec]. rewrite <- Hu2.
    destruct cur' as [vec|]; [by apply collect_ok|]. by apply write_again. }
  destruct ref; cbn [negb]; [by apply (Hmain cur io)|]. pose proof (inv_unreferenced _ _ _ _ Hinv) as ->.
  destruct (Z.eqb_spec (ce_reference e) FhgfsOpsErr_SUCCESS) as [->|Hne]; cbn [negb].
  - apply (Hmain None (io_add_refs 1 0 0 io)); [by apply inv_reference|done].
  - rewrite (proj2 (Z.eqb_neq _ _) Hne). cbn [negb]. by apply write_failed.
Qed.

End Callbacks.

(** ** Calls *)

Definition ev_pages {WE} (events : list (@PageEvent WE)) : list nat := ev ← events; match ev with EvPage x _ => [x] | EvWork _ _ => [] end.
Definition send_refs (e : SendEnv) : Prop := sv_reference e = FhgfsOpsErr_SUCCESS.
Definition ev_all {WE} (P : SendEnv -> Prop) (events : list (@PageEvent WE)) : Prop :=
  Forall (fun ev => match ev with EvPage _ e => P (ce_send e) | EvWork _ _ => True end) events.

Section Runs.
Context (m : Z) (Hm : 0 <= m < 32) (w0 : PagesWorld) (H V I : Z) (HH : 0 <= H).
Context {WE : Type} (f : WE -> Fhgfs_RWType -> FhgfsChunkPageVec -> PagesWorld -> option PagesWorld) `{!HandsBack f}.
Local Abbreviation inv rw := (io_inv m rw w0 H V I).

Lemma process_ok rw handed pd io r i : inv rw handed pd io -> exists io', RWPagesWork_processQueue f r i io = Some io' /\ inv rw handed pd io' /\
  io_unreachable io' = io_unreachable io /\ io_queue io' = take i (io_queue io) ++ drop (S i) (io_queue io).
Proof.
  intros Hinv. unfold RWPagesWork_processQueue. destruct (io_queue io !! i) as [[rw' vec]|] eqn:Ei.
  2: { exists io. split; [done|]. split; [done|]. split; [done|]. apply lookup_ge_None in Ei. by rewrite take_ge, drop_ge, app_nil_r by lia. }
  destruct Hinv as [Ha Hw Hc Hh Hv Hi]. set (rest := take i (io_queue io) ++ drop (S i) (io_queue io)).
  assert (Hperm : io_queue io ≡ₚ (rw', vec) :: rest) by (rewrite <- (take_drop_middle _ _ _ Ei); unfold rest; solve_Permutation).
  assert (Hwk : work_ok rw (rw', vec) /\ Forall (work_ok rw) (rest ++ io_unreachable io)).
  { unfold works in Hw. rewrite Hperm in Hw. by apply Forall_cons_iff in Hw. }
  destruct Hwk as [(E1 & Hok & Hpos) Hrest]. cbn in E1, Hok, Hpos. subst rw'.
  assert (Hacc : accounted rw w0 handed (vec_pages vec ++ cur_pages pd ++ work_pages (rest ++ io_unreachable io)) (io_pages io)).
  { eapply accounted_perm; [|exact Ha]. unfold own, works, work_pages. rewrite Hperm. cbn. solve_Permutation. }
  destruct (hands_back r rw vec (io_pages io) Hok Hpos) as (w' & E & Hb); [by eapply own_pending|].
  cbn [io_pages io_set_queue]. rewrite E. cbn [mbind option_bind]. unfold RWPagesWork_destruct, RWPagesWork_uninit, release_handle. cbn.
  assert (Hlen : zlen (io_queue io) = zlen rest + 1) by (unfold zlen; rewrite Hperm; cbn; lia). pose proof (zlen_nonneg rest).
  rewrite (proj2 (Z.ltb_lt _ _)) by (destruct (pd_isReferenced pd); lia). eexists. split; [reflexivity|]. split; [|done].
  split; cbn; try done; try lia.
  - by eapply accounted_back.
  - intros v Ev. destruct (Hc v Ev) as [? Hrel]. split; [done|]. eapply rel_flags; [done|]. intros x Hx. apply flags_index. apply (proj2 Hb).
    pose proof (ac_nodup _ _ _ _ _ Hacc) as Hn. apply list.NoDup_app in Hn as (_ & Hdis & _). intros Hx'. apply (Hdis x Hx').
    apply elem_of_app. left. unfold cur_pages. by rewrite Ev.
  - unfold works in *. cbn. rewrite zlen_app in *. lia.
Qed.

Lemma write_run_ok : forall events error handed pd io, inv BEEGFS_RWTYPE_WRITE handed pd io -> NoDup (ev_pages events) ->
  (forall x, x ∈ ev_pages events -> x ∉ handed /\ passed w0 x) -> ev_all send_refs events -> exists error' pd' io' handed',
  write_cache_pages (2 ^ m) f events error pd io = Some (error', pd', io') /\ handed' ≡ₚ ev_pages events ++ handed /\
  inv BEEGFS_RWTYPE_WRITE handed' pd' io' /\
  (ev_all (fun e => sv_workAlloc e = true) events -> io_unreachable io' = io_unreachable io).
Proof.
  induction events as [|[x e|i r] events IH]; intros error handed pd io Hinv Hn Hp He; cbn [write_cache_pages].
  - eexists _, _, _, handed. split; [done|]. done.
  - apply Forall_cons_iff in He as [He1 He]. cbn in Hn, Hp. apply list.NoDup_cons in Hn as [Hn1 Hn].
    destruct (Hp x) as [Hx Hpass]; [by apply elem_of_cons; left|]. destruct pd as [cur ref].
    destruct (write_callback_ok m Hm w0 H V I HH e handed cur ref io x He1 Hinv Hx Hpass) as (r & pd1 & io1 & -> & Hinv1 & _ & _ & Hu1). cbn [mbind option_bind].
    destruct (IH (if negb (r =? 0) && (error =? 0) then r else error) (x :: handed) pd1 io1 Hinv1 Hn) as (error' & pd' & io' & handed' & -> & Hperm & Hinv' & Hu'); [|done|].
    { intros y Hy. destruct (Hp y) as [Hy1 Hy2]; [by apply elem_of_cons; right|]. split; [|done]. apply not_elem_of_cons. split; [|done]. intros ->. done. }
    eexists _, _, _, handed'. split; [done|]. split; [rewrite Hperm; cbn; unfold ev_pages; solve_Permutation|]. split; [done|].
    intros Hall. apply Forall_cons_iff in Hall as [Ha1 Ha]. rewrite Hu' by done. by apply Hu1.
  - apply Forall_cons_iff in He as [_ He]. destruct (process_ok _ _ _ _ r i Hinv) as (io1 & -> & Hinv1 & Hu1 & _). cbn [mbind option_bind].
    destruct (IH error handed pd io1 Hinv1 Hn Hp He) as (error' & pd' & io' & handed' & -> & Hperm & Hinv' & Hu'). eexists _, _, _, handed'. split; [done|].
    split; [done|]. split; [done|]. intros Hall. apply Forall_cons_iff in Hall as [_ Ha]. rewrite Hu' by done. done.
Qed.

End Runs.

(** ** Whole calls *)

Section Whole.
Context {WE : Type} (f : WE -> Fhgfs_RWType -> FhgfsChunkPageVec -> PagesWorld -> option PagesWorld) `{!HandsBack f}.

Definition Passing : Type := list (@PageEvent WE) + nat * CallEnv.
Definition call_pages (pages : Passing) : list nat := match pages with inl events => ev_pages events | inr (x, _) => [x] end.
Definition call_all (P : SendEnv -> Prop) (pages : Passing) (send : SendEnv) : Prop :=
  P send /\ match pages with inl events => ev_all P events | inr (_, e) => P (ce_send e) end.
(** The kernel passes every page once, locked and not in writeback. *)
Definition passes (pages : Passing) (io : PageIO) : Prop :=
  NoDup (call_pages pages) /\ forall x, x ∈ call_pages pages -> passed (io_pages io) x.
Definition io_quiet (io : PageIO) : Prop := io_queue io = [] /\ io_unreachable io = [] /\ 0 <= io_handles io.
Fixpoint process_all (rs : list WE) (io : PageIO) : option PageIO :=
  match rs with [] => Some io | r :: rs => io ← RWPagesWork_processQueue f r 0 io; process_all rs io end.

(** What a call leaves behind: each queued work holds a reference to the handle and a vector; the pages [l] are ended or in the vector of a work, all others are
    as before. *)
Definition call_left (rw : Fhgfs_RWType) (l : list nat) (io io' : PageIO) : Prop :=
  io_handles io' = io_handles io + zlen (io_queue io') /\ io_inodeRefs io' = io_inodeRefs io /\ io_vecs io' = io_vecs io + zlen (works io') /\
  (forall x, x ∈ l -> exists p, pw_pages (io_pages io') !! x = Some p /\ (ended rw p \/ pending rw p /\ x ∈ work_pages (works io'))) /\
  (forall x, x ∉ l -> pg_set_data [] <$> pw_pages (io_pages io') !! x = pg_set_data [] <$> pw_pages (io_pages io) !! x).
(** All works are done. *)
Definition call_done (rw : Fhgfs_RWType) (l : list nat) (io io' : PageIO) : Prop :=
  io_handles io' = io_handles io /\ io_inodeRefs io' = io_inodeRefs io /\ io_vecs io' = io_vecs io /\ io_queue io' = [] /\
  forall x, x ∈ l -> exists p, pw_pages (io_pages io') !! x = Some p /\ ended rw p.

Lemma quiet_inv m rw io : io_quiet io -> io_inv m rw (io_pages io) (io_handles io) (io_vecs io) (io_inodeRefs io) [] (MkPageData None false) io.
Proof.
  intros (Hq & Hu & Hh). split; unfold own, works; rewrite ?Hq, ?Hu; unfold zlen; cbn; try done; try lia.
  split; cbn; [constructor|intros x Hx; by apply elem_of_nil in Hx..|done].
Qed.
Lemma release_if_ok m rw w0 H V I handed ref io : 0 <= H -> io_inv m rw w0 H V I handed (MkPageData None ref) io -> exists io',
  release_if (MkPageData None ref) io = Some io' /\ io_inv m rw w0 H V I handed (MkPageData None false) io' /\ io_unreachable io' = io_unreachable io.
Proof.
  intros HH Hinv. unfold release_if, release_handle. destruct ref; cbn [pd_isReferenced]; [|by exists io].
  destruct Hinv as [Ha Hw Hc Hh Hv Hi]. cbn in *. pose proof (zlen_nonneg (io_queue io)). rewrite (proj2 (Z.ltb_lt _ _)) by lia.
  eexists. split; [done|]. split; [|done]. split; cbn; try done; try lia. unfold works in *. cbn. lia.
Qed.
Lemma inv_left m rw handed l io io' : handed ≡ₚ l -> io_inv m rw (io_pages io) (io_handles io) (io_vecs io) (io_inodeRefs io) handed (MkPageData None false) io' ->
  call_left rw l io io'.
Proof.
  intros Hperm [[_ Ho Hd Hr] Hw Hc Hh Hv Hi]. cbn in *. split; [lia|]. split; [done|]. split; [lia|]. split.
  - intros x Hx. rewrite <- Hperm in Hx. destruct (Hd x Hx) as [Hown|(p & ? & ?)]; [|by eauto].
    destruct (Ho x Hown) as (_ & p & ? & ?). exists p. split; [done|]. by right.
  - intros x Hx. apply Hr. by rewrite Hperm.
Qed.
Lemma process_all_ok m rw w0 H V I handed pd : 0 <= H -> forall rs io, io_inv m rw w0 H V I handed pd io -> length rs = length (io_queue io) -> exists io',
  process_all rs io = Some io' /\ io_inv m rw w0 H V I handed pd io' /\ io_unreachable io' = io_unreachable io /\ io_queue io' = [].
Proof.
  intros HH. induction rs as [|r rs IH]; intros io Hinv Hl; cbn [process_all].
  - exists io. split; [done|]. split; [done|]. split; [done|]. by apply nil_length_inv.
  - destruct (process_ok m w0 H V I HH f rw handed pd io r 0 Hinv) as (io1 & -> & Hinv1 & Hu1 & Hq1). cbn [mbind option_bind].
    destruct (IH io1 Hinv1) as (io' & -> & Hinv' & Hu' & Hq'); [rewrite Hq1; cbn; destruct (io_queue io); cbn in *; [done|by rewrite drop_0; lia]|].
    exists io'. split; [done|]. split; [done|]. by rewrite Hu'.
Qed.
(** The end of all works after a call without lost vectors. *)
Lemma completes m rw handed l io io' : io_quiet io -> handed ≡ₚ l ->
  io_inv m rw (io_pages io) (io_handles io) (io_vecs io) (io_inodeRefs io) handed (MkPageData None false) io' -> io_unreachable io' = [] ->
  forall rs, length rs = length (io_queue io') -> exists io2, process_all rs io' = Some io2 /\ call_done rw l io io2.
Proof.
  intros (_ & _ & HH) Hperm Hinv Hu rs Hl. destruct (process_all_ok _ _ _ _ _ _ _ _ HH rs io' Hinv Hl) as (io2 & -> & [[_ Ho Hd _] _ _ Hh Hv Hi] & Hu2 & Hq2).
  exists io2. split; [done|]. unfold call_done. unfold own, works in Hd, Hv. rewrite Hq2, Hu2, Hu in *. unfold zlen in *. cbn in *. split; [lia|]. split; [done|]. split; [lia|]. split; [done|].
  intros x Hx. rewrite <- Hperm in Hx. destruct (Hd x Hx) as [Hx'|?]; [by apply elem_of_nil in Hx'|done].
Qed.

(** The pages of a call for writing, before the last vector is sent. *)
Lemma write_part_ok m pages io send : 0 <= m < 32 -> io_quiet io -> passes pages io -> call_all send_refs pages send -> exists r pd io1 handed,
  match pages with inl events => write_cache_pages (2 ^ m) f events 0 (MkPageData None false) io | inr (x, e) => write_single_page (2 ^ m) x e (MkPageData None false) io end
    = Some (r, pd, io1) /\ handed ≡ₚ call_pages pages /\
  io_inv m BEEGFS_RWTYPE_WRITE (io_pages io) (io_handles io) (io_vecs io) (io_inodeRefs io) handed pd io1 /\
  (call_all (fun e => sv_workAlloc e = true) pages send -> io_unreachable io1 = []).
Proof.
  intros Hm Hq [Hn Hp] [_ He]. pose proof (quiet_inv m BEEGFS_RWTYPE_WRITE io Hq) as Hinv. pose proof Hq as (_ & Hu & HH). rewrite <- Hu.
  destruct pages as [events|[x e]]; cbn [call_pages] in *.
  - destruct (write_run_ok m Hm (io_pages io) _ _ _ HH f events 0 [] _ _ Hinv Hn) as (r & pd & io1 & handed & -> & Hperm & Hinv1 & Hu1);
      [intros x Hx; split; [apply not_elem_of_nil|by apply Hp]|done|]. rewrite app_nil_r in Hperm. exists r, pd, io1, handed. split; [done|]. split; [done|]. split; [done|].
    intros [_ Ha]. by apply Hu1.
  - destruct (write_callback_ok m Hm (io_pages io) _ _ _ HH e [] None false io x He Hinv) as (r & pd & io1 & E & Hinv1 & Hnone & _ & Hu1); [apply not_elem_of_nil|apply Hp; by apply elem_of_cons; left|].
    unfold write_single_page. rewrite E. cbn [mbind option_bind].
    assert (Eb : (r <? 0) && bool_decide (is_Some (pd_chunkPageVec pd)) = false).
    { destruct (Z.ltb_spec r 0); [|done]. rewrite Hnone by lia. done. }
    rewrite Eb. exists r, pd, io1, [x]. split; [done|]. split; [done|]. split; [done|]. intros [_ Ha]. by apply Hu1.
Qed.

(** C39: a call that writes back pages, which the kernel passes once each, locked and not in writeback, and that starts with an empty queue of works, returns, for every order in which the kernel passes pages and workers process queued vectors, and for all failures of
    allocations, of opening the file for the call and of queueing; the references of the works to the open file succeed ([send_refs]; otherwise: [unset_handle_type]), and
    a worker hands back all pages of its vector ([HandsBack], which [kit_hands_back] proves of exchanges that end without a communication error; otherwise pages stay
    locked: [sent_pages_lost]).  Each page that was passed is then ended, or it waits in the vector of a work; each queued work holds one
    reference to the file handle and one vector, and the call itself holds nothing.  If the works could be allocated (otherwise: [lost_vector]), then after the workers
    have processed the queue every page is unlocked, unmapped and not in writeback, and all references and vectors were given back. *)
Theorem writeback_completes m pages reference send io :
  0 <= m < 32 -> io_quiet io -> passes pages io -> call_all send_refs pages send -> exists retVal io',
  _FhgfsOpsPages_writepages (2 ^ m) f pages reference send io = Some (retVal, io') /\
  call_left BEEGFS_RWTYPE_WRITE (call_pages pages) io io' /\
  (call_all (fun e => sv_workAlloc e = true) pages send -> forall rs, length rs = length (io_queue io') -> exists io2,
    process_all rs io' = Some io2 /\ call_done BEEGFS_RWTYPE_WRITE (call_pages pages) io io2).
Proof.
  intros Hm Hq Hp He. destruct (write_part_ok m pages io send Hm Hq Hp He) as (r & pd & io1 & handed & E & Hperm & Hinv & Hu). pose proof Hq as (_ & _ & HH).
  unfold _FhgfsOpsPages_writepages. rewrite E. cbn [mbind option_bind]. clear E.
  assert (Hend : forall ref io2, io_inv m BEEGFS_RWTYPE_WRITE (io_pages io) (io_handles io) (io_vecs io) (io_inodeRefs io) handed (MkPageData None ref) io2 ->
    (call_all (fun e => sv_workAlloc e = true) pages send -> io_unreachable io2 = []) -> exists io3, release_if (MkPageData None ref) io2 = Some io3 /\
    call_left BEEGFS_RWTYPE_WRITE (call_pages pages) io io3 /\
    (call_all (fun e => sv_workAlloc e = true) pages send -> forall rs, length rs = length (io_queue io3) -> exists io4,
      process_all rs io3 = Some io4 /\ call_done BEEGFS_RWTYPE_WRITE (call_pages pages) io io4)).
  { intros ref io2 Hinv2 Hu2. destruct (release_if_ok _ _ _ _ _ _ _ _ _ HH Hinv2) as (io3 & E3 & Hinv3 & Hu3). exists io3. split; [done|].
    split; [by eapply inv_left|]. intros Ha. eapply completes; try done. rewrite Hu3. by apply Hu2. }
  destruct pd as [[vec|] ref]; cbn [pd_chunkPageVec].
  - pose proof (proj1 (iv_cur _ _ _ _ _ _ _ _ _ Hinv vec eq_refl)) as Href. cbn in Href. subst ref. cbn [pd_isReferenced]. rewrite Z.eqb_refl. cbn [negb].
    destruct (send_ok m Hm BEEGFS_RWTYPE_WRITE (io_pages io) _ _ _ HH send true handed (Some vec) io1 (proj1 He) Hinv) as (r2 & cur & io2 & -> & Hinv2 & _ & Hfin & _ & _ & _ & Hu2).
    cbn [mbind option_bind]. rewrite (Hfin eq_refl) in Hinv2 |- *. destruct (Hend true io2 Hinv2) as (io3 & -> & Hres); [intros Ha; rewrite Hu2 by apply Ha; by apply Hu|].
    eexists _, io3. split; [reflexivity|done].
  - destruct (Hend ref io1 Hinv Hu) as (io3 & -> & Hres). eexists _, io3. split; [reflexivity|done].
Qed.


End Whole.

(** ** Works over the communication for page vectors *)

(** In the first attempt of this environment there is an answer, or an error that is not repeated. *)
Record Answered := MkAnswered {
  an_session : FileSession;
  an_env : nat -> VecEnv;
  an_maxRetries : Z;
  an_offset : Z;
  an_targetID : Z;
  an_msgBuf : list byte;
  an_firstWriteDone : bool;
  an_session_ok : session_ok an_session;
  an_env_ok : forall i, vec_env_ok (an_env i);
  an_retries_ok : 0 <= an_maxRetries < 2 ^ 32 - 1;
  an_buf_ok : zlen an_msgBuf = BEEGFS_COMMKIT_MSGBUF_SIZE;
  an_answers : forall i rw c r c', communicate_once an_session rw (an_env i) c = Some (r, c') -> vec_retryable r = false
}.
Definition kit_work (a : Answered) (rw : Fhgfs_RWType) (vec : FhgfsChunkPageVec) (w : PagesWorld) : option PagesWorld :=
  '(_, c) ← rwChunkPageVec_io (an_session a) (S (Z.to_nat (an_maxRetries a))) (an_env a) (an_maxRetries a) rw
    (vec_start vec (an_offset a) (an_targetID a) (an_msgBuf a) (an_firstWriteDone a) w false 0);
  Some (cv_pages c).

#[export] Instance kit_hands_back : HandsBack kit_work.
Proof.
  intros a rw vec w Hok Hpos Hp. unfold kit_work. set (c := vec_start _ _ _ _ _ _ _ _). pose proof (an_retries_ok a) as Hret.
  destruct (request_ok_all (an_session a) (an_env a) rw O (S (Z.to_nat (an_maxRetries a))) (an_maxRetries a) c (an_session_ok a) (an_env_ok a))
    as (r & c' & k & E & _ & _ & _ & Hb & Hk & _); try done; [|lia|apply an_buf_ok|].
  { right. intros i c1 r1 c1' _ E ->. by apply an_answers in E. }
  rewrite E. exists (cv_pages c'). split; [done|]. assert (Hr : r <> - FhgfsOpsErr_COMMUNICATION).
  { intros ->. revert E. unfold rwChunkPageVec_io, FhgfsOpsCommKitVec_rwFileCommunicate. cbn [rwFile_attempts].
    destruct (communicate_once _ _ _ c) as [[r1 c1]|] eqn:E1; [|done]. cbn [mbind option_bind]. pose proof (an_answers _ _ _ _ _ _ E1) as Hn. rewrite Hn.
    unfold vec_retryable in Hn. apply orb_false_iff in Hn as [H1 H2]. rewrite H2, H1. cbn [andb]. destruct rw; cbn [mbind option_bind].
    - destruct (__FhgfsOpsCommKitVec_readfileStageHandlePages c1); [|done]. cbn [mbind option_bind]. rewrite H1. intros [= -> _]. by rewrite Z.eqb_refl in H1.
    - destruct (__FhgfsOpsCommKitVec_writefileStageHandlePages c1); [|done]. cbn [mbind option_bind]. rewrite H1. intros [= -> _]. by rewrite Z.eqb_refl in H1. }
  by rewrite (Hk Hr) in Hb.
Qed.

(** ** Sample calls *)

Definition unknown_env : VecEnv :=
  MkVecEnv ∅ (fun _ => FhgfsOpsErr_UNKNOWNTARGET) true false 100 (fun _ => 0) [] 0 (0, msgBuf_sample) (MkNetMessageHeader 0 0 0 0 0 0 0 0 0) (MkSimpleInt64Msg 0)
    (ck_io_example 5) false 0 false.
Lemma unknown_env_ok : vec_env_ok unknown_env.
Proof. split; [done|]. split; [done|]. intros t. vm_compute. done. Qed.
Lemma unknown_connect g c : exists sel c1, vec_connect session_example unknown_env g c = (sel, false, c1) /\
  cv_nodeResult c1 = - FhgfsOpsErr_UNKNOWNTARGET /\ cv_doHeader c1 = cv_doHeader c /\ __FhgfsOpsCommKitVec_stageCLEANUP c1 = Some c1.
Proof.
  unfold vec_connect. set (sel := select_target _ _ _ _). clearbody sel. change (ve_resolve unknown_env sel) with FhgfsOpsErr_UNKNOWNTARGET.
  change (FhgfsOpsErr_UNKNOWNTARGET =? 0) with false. cbn [negb]. eexists _, _. split; [reflexivity|]. done.
Qed.
Lemma unknown_answers rw c r c' : communicate_once session_example rw unknown_env c = Some (r, c') -> vec_retryable r = false.
Proof.
  unfold communicate_once. set (c0 := cv_set_pages _ _ c). clearbody c0. destruct rw.
  - unfold __FhgfsOpsCommKitVec_readfileCommunicate, __FhgfsOpsCommKitVec_readfileStagePREPARE. set (c1 := cv_upd_read _ _ _).
    assert (Hd1 : cv_doHeader c1 = false) by done. clearbody c1.
    destruct (unknown_connect (fun _ => FhgfsOpsErr_INTERRUPTED) c1) as (sel & c2 & -> & Hn & Hd & Ec). cbn [negb].
    rewrite Ec. cbn [mbind option_bind]. unfold page_fuel. cbn [read_headers]. rewrite Hd, Hd1. cbn [negb mbind option_bind]. intros [= <- _]. by rewrite Hn.
  - unfold __FhgfsOpsCommKitVec_writefileCommunicate, __FhgfsOpsCommKitVec_writefileStagePREPARE. cbv zeta. set (c1 := cv_set_doHeader false _).
    assert (Hd1 : cv_doHeader c1 = false) by done. clearbody c1.
    destruct (unknown_connect (fun r => r) c1) as (sel & c2 & -> & Hn & Hd & Ec). cbn [negb]. rewrite Ec. cbn [mbind option_bind]. rewrite Hd, Hd1. cbn [mbind option_bind]. rewrite Hd, Hd1.
    intros [= <- _]. cbn [cv_nodeResult cv_add_writeBack FhgfsInode_setLastWriteBackOrIsizeWriteTime cv_set_inode]. by rewrite Hn.
Qed.
(** A target that is not known: every work fails at once. *)
Definition unknown_target : Answered :=
  MkAnswered session_example (fun _ => unknown_env) 0 0 1 msgBuf_sample false session_example_ok (fun _ => unknown_env_ok) ltac:(lia) eq_refl
    (fun _ => unknown_answers).

(** The pages 6, 7 and 9 of a file of [size] bytes with chunks of eight pages. *)
Definition passed_page (index : Z) : Page := MkPage index [] false true false false true None 1.
Definition io_start (size : Z) : PageIO :=
  MkPageIO (MkPagesWorld (<[0%nat := passed_page 6]> (<[1%nat := passed_page 7]> (<[2%nat := passed_page 9]> ∅))) size 3 false []) false 0 1 0 [] [].
Definition vec_alloc (ok : bool) : VecAlloc := MkVecAlloc ok sample_memory true true.
Definition send_env (workAlloc : bool) (reference : Z) : SendEnv := MkSendEnv workAlloc reference true (vec_alloc true).
Definition call_env (alloc : bool) : CallEnv := MkCallEnv 0 (vec_alloc alloc) true (send_env true 0) true.
Definition passed_events : list (@PageEvent Answered) :=
  [EvPage 0 (call_env true); EvPage 2 (call_env true); EvWork 0 unknown_target; EvPage 1 (call_env true)].
Definition left_page (x : nat) (r : option (Z * PageIO)) : option Page := '(_, io) ← r; pw_pages (io_pages io) !! x.

Lemma sample_passes : passes (inl passed_events) (io_start 40960).
Proof.
  split; [repeat constructor; set_solver|]. intros x Hx. cbn in Hx.
  repeat (apply elem_of_cons in Hx as [->|Hx]; [eexists; split; [vm_compute; reflexivity|vm_compute; done]|]). by apply elem_of_nil in Hx.
Qed.
Lemma sample_quiet size : io_quiet (io_start size).
Proof. done. Qed.

Lemma writeback_completes_witness : exists retVal io',
  _FhgfsOpsPages_writepages (2 ^ 3) kit_work (inl passed_events) 0 (send_env true 0) (io_start 40960) = Some (retVal, io') /\
  call_left BEEGFS_RWTYPE_WRITE [0%nat; 2%nat; 1%nat] (io_start 40960) io'.
Proof.
  destruct (writeback_completes kit_work 3 (inl passed_events) 0 (send_env true 0) (io_start 40960) ltac:(lia) (sample_quiet _) sample_passes
    ltac:(split; [done|repeat constructor])) as (retVal & io' & E & Hl & _). exists retVal, io'. split; [exact E|exact Hl].
Defined.

(** The two first pages of the sample do not follow each other: they are queued in two works, and one has been processed. *)
Example sample_writeback :
  let r := _FhgfsOpsPages_writepages (2 ^ 3) kit_work (inl passed_events) 0 (send_env true 0) (io_start 40960) in
  (fst <$> r) = Some 0 /\ (length ∘ io_queue ∘ snd <$> r) = Some 2%nat /\ (pg_writeback <$> left_page 2 r) = Some true /\ (pg_locked <$> left_page 0 r) = Some false.
Proof. vm_compute. done. Qed.
(** The work cannot be allocated: the page stays locked and in writeback, and nothing points to its vector. *)
Example lost_vector :
  let r := _FhgfsOpsPages_writepages (2 ^ 3) kit_work (inr (0%nat, call_env true)) 0 (send_env false 0) (io_start 40960) in
  (fst <$> r) = Some (- ENOMEM) /\ (pg_writeback <$> left_page 0 r) = Some true /\ (pg_locked <$> left_page 0 r) = Some true /\
  (io_queue ∘ snd <$> r) = Some [] /\ (io_vecs ∘ snd <$> r) = Some 1.
Proof. vm_compute. done. Qed.
(** The work cannot open the file: the handle type that it releases was never set. *)
Example unset_handle_type :
  _FhgfsOpsPages_writepages (2 ^ 3) kit_work (inr (0%nat, call_env true)) 0 (send_env true FhgfsOpsErr_UNKNOWNNODE) (io_start 40960) = None.
Proof. vm_compute. done. Qed.
(** A page that cannot be collected for a read-ahead stays locked. *)
Example readahead_error_locked :
  let r := _FhgfsOpsPages_readahead (2 ^ 3) kit_work (inl [EvPage 0 (call_env false)]) 0 (send_env true 0) (io_start 40960) in
  (fst <$> r) = Some (- ENOMEM) /\ (pg_locked <$> left_page 0 r) = Some true.
Proof. vm_compute. done. Qed.
(** A page of a file that cannot be opened stays locked. *)
Example unopened_page_locked :
  let r := _FhgfsOpsPages_readahead (2 ^ 3) kit_work (inr (0%nat, call_env true)) FhgfsOpsErr_UNKNOWNNODE (send_env true 0) (io_start 40960) in
  (fst <$> r) = Some (FhgfsOpsErr_toSysErr FhgfsOpsErr_UNKNOWNNODE) /\ (pg_locked <$> left_page 0 r) = Some true.
Proof. vm_compute. done. Qed.
(** A page behind the end of the file is ended, but still counted as dirty. *)
Example truncated_page_counted :
  let r := _FhgfsOpsPages_writepages (2 ^ 3) kit_work (inr (0%nat, call_env true)) 0 (send_env true 0) (io_start 4096) in
  (fst <$> r) = Some 0 /\ (pg_locked <$> left_page 0 r) = Some false /\ (pg_dirty <$> left_page 0 r) = Some false /\ (pw_numDirtyPages ∘ io_pages ∘ snd <$> r) = Some 3.
Proof. vm_compute. done. Qed.
